(* ===== verification/_CoqProject ===== *)
-Q . S2P
Prelude.v
Metadata.v
Entities.v
EntityOrd.v
Wire.v
Reader.v
Producers.v
Codec.v
RoundTrip.v
SchemaSection.v
Graph.v
EmitOrder.v
Slice.v
Lookup.v
Build.v
BuildLogic.v
Connect.v
Initialize.v
SchemaGraph.v
Text.v
ControlFile.v
Resolve.v
Render.v
SchemaText.v
RenderTotal.v
SchemaRender.v
ErrCodes.v
PgError.v
PgErrorSafe.v
ThreadCheck.v
Memory.v
FlatList.v
FlatListSafe.v
ListOps.v
Varlena.v
PgArray.v
PgArraySafe.v
FlatArray.v
ArrayRead.v
Callbacks.v
CallbacksSafe.v
CallbackLife.v
FuncCall.v
FuncCallSafe.v
Ids.v
PgConfig.v
PgConfigSafe.v
PgDatabase.v
DateTime.v
DateTimeSafe.v
LwLock.v
LwLockSafe.v
SpiTable.v
SpiTableSafe.v
SpiSession.v
SpiSessionSafe.v
SpiExample.v
CargoManifest.v
Regress.v
CargoUpgrade.v
DatumConv.v
HeapTuple.v
Ranges.v
MachO.v
CallArgs.v
MemCxt.v
MemCxtSafe.v
BgWorker.v
NodeTags.v
HTup.v
Port.v
PgVarlena.v
