(* ===== verification/Prelude.v ===== *)
(** * The pgrx schema generator and runtime, verified

    pgrx builds Postgres extensions in Rust.  The macros of an extension leave a
    binary record of every SQL object it defines in a linker section of the
    compiled library; [cargo pgrx schema] reads the section back, builds a graph
    of the objects and their dependencies, and emits the SQL in an order Postgres
    accepts.  At run time, Rust and Postgres call each other, and an error of one
    must unwind or jump only over its own frames; Rust reads and writes values in
    Postgres' formats, registers callbacks, returns rows and shares memory with it.
    This library models the generator, the crate [pgrx-sql-entity-graph], the error
    machinery of [pgrx-pg-sys], parts of the runtime [pgrx], [pgrx-pg-config] and the
    parts of [cargo-pgrx] that decide something, and proves them correct.  File names below are under
    [src/pgrx-sql-entity-graph/src] unless they say otherwise.

    ** Parts of the program, and the files that model them

    - [Metadata] ([metadata/]): how a Rust type maps to SQL, the container
      mappings, the [SqlTranslatable] trait as a record of its constants.
    - [Entities] (the [entity.rs] files, [lib.rs]): one record per entity struct,
      the [SqlGraphEntity] enum.  [EntityOrd]: their derived order, as the
      lexicographic order of injective keys.
    - [Wire] ([section.rs], first half): the tags, the length functions and
      [EntryWriter], a cursor over a buffer of fixed size whose overrun is [None]
      (a compile-time panic).
    - [Producers] (the [section_len_tokens], [section_writer_tokens] and
      [entity_tokens] of each macro): what each producer computes as its entry's
      length and writes into it.
    - [Reader] ([section.rs], second half): [EntryReader] as a state monad over a
      position, every [read_*], [decode_entity], [entry_payloads],
      [decode_entities].
    - [Codec], [RoundTrip], [SchemaSection]: the writer and the reader against
      each other, first one field at a time (a codec: what is emitted, what is
      read back), then per producer (the class [SchemaEntry]), then for a whole
      linked section.
    - [Graph]: [petgraph::StableGraph] as a class of operations with a class of
      laws, and a list-based instance; [HashOrder], the unspecified iteration
      order of [HashMap]; what [tarjan_scc] promises ([scc_postorder]).
    - [EmitOrder] ([PgrxSql::connected_component_emit_order] of [pgrx_sql.rs]):
      Kahn's algorithm on the explicit edges of one component.
    - [Slice] ([collect_transitive_deps] and the loops of [to_sql] and
      [emit_slice_from_nodes_inner]): the nodes visited, in order.
    - [Lookup], [Build] ([pgrx_sql.rs], the free functions and [PgrxSql::build]):
      the maps from entities to nodes, the searches, the [initialize_*] and
      [connect_*] phases.  [BuildLogic], [Connect], [Initialize]: a Hoare logic
      for them and what each phase establishes.  [SchemaGraph]: the theorems on
      the graph as a whole.
    - [Resolve] ([resolve_item], [schema_prefix_for_used_type] and the other
      query methods of [PgrxSql]).
    - [Text]: the [str] methods the rest uses.  [ControlFile] ([control_file.rs]):
      the parser of the [.control] file.
    - [Render] (the [ToSql] instances: [pg_extern/entity/mod.rs] and the other
      [entity.rs] files, [to_sql/entity.rs], [lib.rs]): the SQL text of each
      entity, with its errors and panics.  [SchemaText] ([PgrxSql::to_sql],
      [emit_slice_from_nodes_inner], [render_alter_extension_for_node]): the text
      of the schema and of a slice.  [RenderTotal]: when rendering succeeds.
      [SchemaRender]: the theorems on the text.
    - [ErrCodes] ([pgrx-pg-sys/src/submodules/errcodes.rs]): the SQLSTATE enum.
    - [PgError] ([pgrx-pg-sys/src/submodules]: [elog.rs], [panic.rs], [ffi.rs],
      [thread_check.rs], [pg_try.rs]; the wrappers [#[pg_guard]] writes, in
      [pgrx-macros/src/rewriter.rs]): reports, payloads, the guard around Rust
      functions, the boundary around Postgres functions, [PgTryBuilder].  The texts of a
      report are allocated through that boundary ([pgrx-pg-sys/src/cstr.rs]).
      [PgErrorSafe]: Postgres' documented laws, an instance, and the theorems.
      [ThreadCheck]: the check of the active thread between threads.
    - [FlatList] ([pgrx/src/list.rs], [pgrx/src/list/flat_list.rs],
      [MemCx::alloc_bytes]): the wrapper around Postgres' [List] over an explicit
      memory of chunks.  A computation of type [H A] returns, panics with the
      memory it leaves, or is undefined; where chunks are placed is the class
      [Allocator].  [FlatListSafe]: which chunks a list owns ([block]), its
      invariant ([holds]) and what every operation does.  [ListOps]: programs of
      list operations against the same programs on a sequence, a forgotten
      [Drain], and ranges that end before they start.
    - [Memory]: how unsafe code ends ([ending]), and a chunk of memory as bytes.
      [Varlena] ([pgrx/src/varlena.rs]): headers of values of variable length, in
      either byte order.
    - [PgArray] ([pgrx/src/array.rs], [array/port.rs], [layout.rs], [nullable.rs],
      [datum/array.rs], [datum/unbox.rs]): the bytes of an array, its null bitmap
      and the iterators of [Array].  [PgArraySafe]: the format of an array
      ([format]) and what each operation reads of it.  [FlatArray]
      ([array/flat_array.rs]): arrays made in place.  [ArrayRead]: the theorems.
    - [Callbacks] ([pgrx/src/callbacks.rs]): closures for the events of
      transactions and subtransactions, in shared cells.  [CallbacksSafe]: they are
      a list of pending hooks.  [CallbackLife]: how long they live.
    - [FuncCall] ([pgrx/src/callconv.rs], [iter.rs], [fcinfo.rs], [memcxt.rs]; the
      wrapper that [pg_extern] writes): [RetAbi] as a class, with its instances for
      values, rows, sets and results, and iterators that wait in a memory context.
      [FuncCallSafe]: the calls of a whole query.
    - [Ids] ([pgrx/src/itemptr.rs], [xid.rs]): tuple addresses, transaction ids.
    - [PgConfig] ([pgrx-pg-config/src/lib.rs]): versions, installations, the
      environment.  [PgConfigSafe]: the parser and the search.  [PgDatabase]:
      [createdb] and [dropdb] as commands run in a world, against the class
      [Servers] of what the programs they run do.
    - [DateTime] ([pgrx/src/datetime/]): dates, times and intervals as the integers
      they are, with datums, durations and constructors.  [DateTimeSafe]: ranges,
      round trips and signs.
    - [LwLock] ([pgrx/src/lwlock.rs], [atomics.rs], [shmem.rs]): locks in shared
      memory as a step relation over backends, over the class [LwLocks] of Postgres'
      locks.  [LwLockSafe]: its invariant, and locks that keep the laws.
    - [SpiTable] ([pgrx/src/spi.rs], [spi/tuple.rs], [datum/from.rs]): status codes,
      tables and tuples, over the classes [HeapAccess] (how Postgres reads tuples)
      and [DatumType] (how a type converts).  [SpiTableSafe]: the theorems.
      [SpiSession] ([spi.rs], [spi/client.rs], [spi/query.rs], [spi/cursor.rs]):
      connections, statements and cursors over the class [SpiServer].
      [SpiSessionSafe]: its laws [SpiLaws], and theorems over every program of calls
      and nested connections ([prog]).  [SpiExample]: a backend that keeps the laws.
    - [DatumConv] ([pgrx/src/datum/into.rs], [from.rs], [unbox.rs], [uuid.rs],
      [pgrx-pg-sys/src/submodules/datum.rs]): Rust values as datums and back, in a
      database of a given encoding; a type is a code [ty] with the values [denote].
      [CallArgs] ([pgrx/src/callconv.rs]): the arguments of a call.
    - [HeapTuple] ([pgrx/src/heap_tuple.rs], [tupdesc.rs], [trigger_support/]): rows,
      their columns by number and name, and the rows of a trigger, over the class
      [HeapTuples] of the functions that make and read tuples in a heap of chunks.
    - [Ranges] ([pgrx/src/datum/range.rs]): ranges and their bounds, over the classes
      [RangeSubType] and [RangeServer].
    - [MachO] ([cargo-pgrx/src/object_utils.rs]): the schema section in the bytes of a
      library.
    - [CargoManifest] ([cargo-pgrx/src/manifest.rs]): the package, the Postgres version
      and the features of a build.  [CargoUpgrade] ([command/upgrade.rs]): new version
      requirements in a manifest, over the class [TomlEdit].  [Regress]
      ([command/regress.rs]): the tests of a run and what [pg_regress] says of them.
    - [MemCxt] ([pgrx/src/memcxt.rs], [memcx.rs], [pgbox.rs], [pgrx-pg-sys/src/cstr.rs]):
      memory contexts, switching between them, and boxes, over the class [MemServer].
      [MemCxtSafe]: its laws, and the theorem over every program ([prog]) of them.
    - [BgWorker] ([pgrx/src/bgworkers.rs]): background workers, their registration, their
      signals and latch as a step relation, and the hooks they start with.
    - [NodeTags] ([pgrx-bindgen/src/build.rs], [pgrx-pg-sys/src/node.rs]): which types of
      the bindings are nodes, and the casts between them.
    - [HTup] ([pgrx-pg-sys/src/submodules/htup.rs]): the header of a heap tuple and
      [heap_getattr], over the bytes of a tuple; [HeapTuple] has it as an interface.
    - [Port] ([pgrx-pg-sys/src/port.rs]): pages and their items, buffers, alignment, and
      the order of transaction ids that [Ids] has as a parameter.
    - [PgVarlena] ([pgrx/src/datum/varlena.rs]): values of a fixed size in varlenas, lent
      or owned, over the memory of [MemCxt].

    ** Correspondence

    Fallible code returns an [outcome]: [Ok], [Err] with the error's data, or
    [Panic] (a failed [expect], index or [add_edge], an underflow).  A [u32] is a
    [Z]; an [as u32] cast is taken modulo [2^32]; a Rust string is a byte string
    and reading one checks its UTF-8.  A [HashMap] from entities to nodes is an
    association list with distinct keys that is iterated through [hash_order];
    the maps of [connected_component_emit_order] are [gmap]s.  The graph is
    threaded through the construction.  Macro-time code is modelled by what the
    generated constants evaluate to: a producer is a record of the values its
    tokens mention, [module_path!()], [file!()] and [line!()] included
    ([CallSite]).  [format!] is the concatenation of its pieces, in order.

    In the error machinery a computation is a function of the [world] (Postgres'
    globals, the thread-local place of the last panic, the program's own state)
    that returns, unwinds with a payload, jumps to a buffer, ends the process or
    is undefined ([unreachable_unchecked]).  A payload, a [Box<dyn Any>], is an
    inductive type with a constructor per type the code downcasts to.  The
    functions of Postgres are the class [Postgres], with [PostgresLaws].

    ** What is proved

    - The section: whatever the producers write, linked in any order with
      sentinels and padding, is decoded to exactly the entities they describe;
      each length expression is exact (the writer fills its buffer, no more and
      no less); decoding never panics, on any bytes; framing accepts exactly the
      well-framed sections; trailing bytes in an entry are refused.
    - The emission order: total, a permutation, respects explicit order, falls
      back on explicit cycles, and is otherwise independent of hash and component order
      where there is an explicit edge; the whole schema is topologically ordered up to
      mutual dependency; a slice is closed under dependencies and minimal.
    - The construction: it panics exactly without a control file; it is
      independent of the order of its input; every entity has its node and base
      edges; at most one bootstrap and one finalize block; the edges are exactly
      the dependency relation [depends] and the base edges [base_edge]; types, [requires]
      targets and the functions a type or an aggregate names precede their users;
      the placeholder error is unreachable; duplicate type idents are refused,
      deterministically.
    - The queries: [resolve_item] returns a node only for a unique match; every
      type a function mentions gets a schema prefix.
    - The text: it renders without error or panic when each entity can be spelled;
      the SQL of an entity follows the SQL of what it depends on; the functions of
      a type are created with it, once; what can be created can be attached to
      the extension; when [STRICT] is rendered.  A slice for an extension attaches
      a type's functions before it creates them, which is a defect.
    - The control file: parsing undoes writing, and which errors there are.
    - Errors: no panic enters Postgres and no jump crosses Rust, to any depth of calls,
      while memory can be allocated and no domain has a NUL (else it does, a defect); an
      error of Postgres is rethrown as it was; an error of Rust keeps its level, code and
      texts through Postgres, of the file the last part; [PgTryBuilder] with handlers that
      rethrow is transparent, and its finally block runs once; a [PgTryBuilder] in a
      handler loses the error in progress, which is a defect; one thread is admitted
      between resets; SQL error codes round trip.
    - Lists: a program of list operations is a program on a sequence, for every
      allocator, and loses no memory; a panic changes nothing; a forgotten [Drain]
      leaves a valid list; a range that ends before it starts duplicates cells or
      writes past the array, which is a defect.
    - Values: a varlena header is read back; an array in Postgres' format is read
      as it was stored, by iteration and by index, and nothing outside of it is
      read; a new array is in that format; a tuple address and a transaction id
      survive being packed; dates and timestamps accept exactly Postgres' ranges;
      values come back from datums, and durations from intervals.  Arrays that end
      with a null, negative units of an interval, the time 24:00:00 and time zones
      east of Greenwich are defects.
    - Callbacks: registration, receipts and events act as on a list of pending
      hooks; no hook outlives its transaction, except a prepared one, a defect.
    - Functions: calling a set-returning function until it is done gives every row
      and ends; an iterator given to Postgres is dropped once and not used after.
    - Locks: over every interleaving two guards of a lock are both shared, and a
      backend holds what its guards are for, unless it caught an error or aborted a
      subtransaction under a guard, which are defects.
    - SPI: connections are balanced around every closure; tables stay readable while
      their connection is open; nothing runs read-only after an update; tables are
      iterated completely, and read as their tuples are; cursors give their rows in
      order.  [MERGE .. RETURNING], subtransactions, a name that is found twice and
      tables that leave a nested connection are defects.
    - Datums: a type that is compatible with a Postgres type reads its values, whatever
      type wrote them, texts in the encoding of the database; a [str] that is read is
      UTF-8; unboxing agrees with reading. Every parameter of a function gets its
      argument. Transaction ids from [2^31] on, strings in other encodings and options of
      compatible types are defects.
    - Rows: a column that is set holds what the value's datum is or refers to, no other
      changes, and a value is read back; names stand for
      their numbers; a trigger has the rows that Postgres documents.  A value is
      narrowed without an error where it is written, which is a defect.
    - Ranges: one that is written is read back with the same elements, and its text
      tells it from every other.
    - Libraries: the schema section is found in every Mach-O image that has one, and
      reading bytes as an image never panics.  A fat file may be read without end.
    - [cargo-pgrx]: a build has the feature of the version that was chosen, and of no
      other that its defaults name; an upgrade does to each dependency what an independent
      specification decides, and changes nothing else; the tests of a run are in a fixed
      order, a dry run predicts them, and the counts are those of the lines.
    - Memory: programs of owned contexts, transient ones below named contexts, boxes and
      closures never touch a context or chunk that is gone, however they end.  What is
      outside of [prog] (a transient context in an owned one, a context that is made
      current again or outlives its parent, boxes in an owned context that is given away)
      is shown to fail, in examples.
    - Workers: a worker that waits returns after a SIGTERM, over every interleaving of
      signals, steps and other uses of its latch, unless the wakeup was lost to an error
      of an earlier wait or to other code that reset the latch; its strings are read back
      where they fit.  Two workers with hooks, and strings that do not fit, are defects.
    - Nodes: a node is cast to a type exactly when its own type begins with it, the type
      is [Node], or, in versions 13 and 14, the type is [Value] and the tag one of its five.
    - Tuples and pages: a column is read as it is stored, cached or not, null or missing;
      the items of a page are where its line pointers say; transaction ids that are close
      are ordered as the wide ids they were cut from.
    - Varlenas of a fixed size: what Postgres lends in a chunk of its own is copied before
      it is written.  A column that is written, references behind a short header, and types
      of an alignment that does not divide four are defects.
    - Installations: a version is read back and never panics; which installation is
      found does not depend on the order of a hash map, unless one cannot be read;
      [createdb] and [dropdb] do what they say, except for test servers, defects.

    ** Fuel

    [kahn_loop] has the length of the component as fuel (each turn emits one of
    its nodes), [bfs_loop] the number of targets and nodes (no node is queued
    twice), [entry_payloads_loop] the length of the section (each turn consumes
    four bytes or more).  The theorems show that fuel does not run out.
    [pg_guard_ffi_boundary_impl] calls itself to copy and free the error it
    caught; its fuel is 3, and running out would be undefined: the theorems show
    that it is not, since copying an error that is on the stack does not fail.
    [resolve_pg_node_tags] has fuel for the height of the inheritance, which is enough
    where it has no cycle.  [find_manifest_file], [schema_section_data] and [run_hooks]
    need not end, and lemmas show where they do not.

    ** Not modelled

    Parsing of macro input with [syn] (the producers start from parsed values);
    [Vec::with_capacity] on a length read from the section; [PgList], which forwards to Postgres' own list
    functions; the operators of dates and times that only call Postgres; conversions
    of JSON, numerics, network and geometric types; the rest of the [pgrx] runtime
    (GUCs, relations, hooks, [PgSpinLock]), whose functions hand their arguments to
    Postgres; the generated bindings and the calls of bindgen that make them; the
    commands of [cargo-pgrx] that run programs and copy files; the tests.
    [petgraph], its [tarjan_scc], the functions of Postgres, the crates that edit TOML
    and parse object files, the Unicode tables of [str::to_lowercase] and
    [str::to_uppercase] are parameters. *)
From Stdlib Require Export ZArith Lia Strings.Byte String Ascii.
From stdpp Require Export base list option strings numbers.

#[global] Set Default Goal Selector "!".
Open Scope Z_scope.

Declare Scope pgrx_scope.
Delimit Scope pgrx_scope with pgrx.
Open Scope pgrx_scope.

(** ** Outcomes of Rust code

    [Ok] and [Err] are the two sides of a Rust [Result]; [Panic] is a panic: a
    failed index, an [unwrap] of [None], an arithmetic underflow. *)
Inductive outcome (E A : Type) : Type :=
| Ok (a : A)
| Err (e : E)
| Panic.
Arguments Ok {E A} a.
Arguments Err {E A} e.
Arguments Panic {E A}.

#[export] Instance outcome_ret {E} : MRet (outcome E) := fun A a => Ok a.
#[export] Instance outcome_bind {E} : MBind (outcome E) := fun A B f m =>
  match m with
  | Ok a => f a
  | Err e => Err e
  | Panic => Panic
  end.

Definition is_panic {E A} (m : outcome E A) : bool :=
  match m with Panic => true | _ => false end.

Definition is_ok {E A} (m : outcome E A) : bool :=
  match m with Ok _ => true | _ => false end.

(** A method chain [m.f().g()] over a fallible receiver. *)
Notation "m |>> f" := (mbind (M:=option) f m) (at level 61, left associativity) : pgrx_scope.

(** [Option::ok_or] and [Option::unwrap]. *)
Definition ok_or {E A} (e : E) (o : option A) : outcome E A :=
  match o with Some a => Ok a | None => Err e end.

Definition unwrap {E A} (o : option A) : outcome E A :=
  match o with Some a => Ok a | None => Panic end.

(** [iter.map(f).collect::<Result<Vec<_>, _>>()]. *)
Fixpoint collect {E A B} (f : A -> outcome E B) (l : list A) : outcome E (list B) :=
  match l with
  | [] => Ok []
  | x :: xs => y ← f x; ys ← collect f xs; Ok (y :: ys)
  end.

(** A [for] loop whose body may fail. *)
Fixpoint fold_outcome {E S A} (f : S -> A -> outcome E S) (s : S) (l : list A) : outcome E S :=
  match l with
  | [] => Ok s
  | x :: xs => s' ← f s x; fold_outcome f s' xs
  end.

(** ** Bytes and machine integers *)

Abbreviation bytes := (list byte).

#[export] Instance byte_eq_dec : EqDecision byte := Byte.byte_eq_dec.

Definition u8_to_Z (b : byte) : Z := Z.of_N (Byte.to_N b).

Definition u8_of_Z (z : Z) : byte :=
  match Byte.of_N (Z.to_N (z mod 256)) with
  | Some b => b
  | None => Byte.x00
  end.

(** [x as u32] for an unsigned [x]: truncation to the low 32 bits. *)
Definition as_u32 (n : nat) : Z := Z.of_nat n mod 2 ^ 32.

Definition is_u32 (z : Z) : Prop := 0 <= z < 2 ^ 32.
Definition is_u8 (z : Z) : Prop := 0 <= z < 256.

(** [u32::to_le_bytes] and [u32::from_le_bytes]. *)
Definition to_le_bytes (z : Z) : bytes :=
  [ u8_of_Z z; u8_of_Z (Z.shiftr z 8); u8_of_Z (Z.shiftr z 16); u8_of_Z (Z.shiftr z 24) ].

Fixpoint from_le_bytes (bs : bytes) : Z :=
  match bs with
  | [] => 0
  | b :: rest => u8_to_Z b + 256 * from_le_bytes rest
  end.

Lemma u8_to_Z_range (b : byte) : 0 <= u8_to_Z b < 256.
Proof.
  unfold u8_to_Z. pose proof (Byte.to_N_bounded b) as Hb. lia.
Qed.

Lemma u8_to_of_Z (z : Z) : u8_to_Z (u8_of_Z z) = z mod 256.
Proof.
  unfold u8_to_Z, u8_of_Z.
  pose proof (Z.mod_pos_bound z 256 ltac:(lia)) as Hz.
  destruct (Byte.of_N (Z.to_N (z mod 256))) as [b|] eqn:Hb.
  - apply Byte.to_of_N in Hb. rewrite Hb. lia.
  - apply Byte.of_N_None_iff in Hb. lia.
Qed.

Lemma u8_of_to_Z (b : byte) : u8_of_Z (u8_to_Z b) = b.
Proof.
  unfold u8_of_Z, u8_to_Z.
  pose proof (Byte.to_N_bounded b) as Hb.
  rewrite Z.mod_small by lia.
  rewrite N2Z.id, Byte.of_to_N. reflexivity.
Qed.

Lemma u8_to_of_Z_small (z : Z) : is_u8 z -> u8_to_Z (u8_of_Z z) = z.
Proof. intros Hz. rewrite u8_to_of_Z. apply Z.mod_small, Hz. Qed.

Lemma length_to_le_bytes (z : Z) : length (to_le_bytes z) = 4%nat.
Proof. reflexivity. Qed.

Lemma from_to_le_bytes (z : Z) : is_u32 z -> from_le_bytes (to_le_bytes z) = z.
Proof.
  intros [Hz0 Hz1]. unfold to_le_bytes, from_le_bytes.
  rewrite !u8_to_of_Z, !Z.shiftr_div_pow2 by lia.
  change (2 ^ 8) with 256. change (2 ^ 16) with (256 * 256).
  change (2 ^ 24) with (256 * 256 * 256). change (2 ^ 32) with 4294967296 in Hz1.
  rewrite <- !Z.div_div by lia.
  Z.to_euclidean_division_equations. lia.
Qed.

Lemma from_le_bytes_range (bs : bytes) :
  0 <= from_le_bytes bs < 256 ^ Z.of_nat (length bs).
Proof.
  induction bs as [|b bs IH]; cbn [from_le_bytes length]; [lia|].
  pose proof (u8_to_Z_range b). rewrite Nat2Z.inj_succ, Z.pow_succ_r by lia.
  remember (256 ^ Z.of_nat (length bs)) as p eqn:Hp. clear Hp. lia.
Qed.

Lemma to_from_le_bytes (bs : bytes) :
  length bs = 4%nat -> to_le_bytes (from_le_bytes bs) = bs.
Proof.
  intros Hlen.
  destruct bs as [|b0 [|b1 [|b2 [|b3 [|]]]]]; try discriminate Hlen.
  pose proof (u8_to_Z_range b0). pose proof (u8_to_Z_range b1).
  pose proof (u8_to_Z_range b2). pose proof (u8_to_Z_range b3).
  unfold to_le_bytes. cbn [from_le_bytes].
  rewrite !Z.shiftr_div_pow2 by lia.
  change (2 ^ 8) with 256. change (2 ^ 16) with (256 * 256).
  change (2 ^ 24) with (256 * 256 * 256).
  rewrite <- !Z.div_div by lia.
  assert (Hd : forall b r, (u8_to_Z b + 256 * r) / 256 = r).
  { intros b r. pose proof (u8_to_Z_range b). Z.to_euclidean_division_equations. lia. }
  assert (Hm : forall b r, u8_of_Z (u8_to_Z b + 256 * r) = b).
  { intros b r. rewrite <- (u8_of_to_Z b) at 2. unfold u8_of_Z.
    rewrite (Z.mul_comm 256), Z.mod_add by lia. reflexivity. }
  rewrite !Hd, !Hm. reflexivity.
Qed.

Lemma as_u32_small (n : nat) : Z.of_nat n < 2 ^ 32 -> as_u32 n = Z.of_nat n.
Proof. intros H. unfold as_u32. apply Z.mod_small. lia. Qed.

Lemma as_u32_range (n : nat) : is_u32 (as_u32 n).
Proof. unfold as_u32, is_u32. apply Z.mod_pos_bound. lia. Qed.

(** ** Strings

    A Rust [str] is modelled by a [string] of bytes; [str_ok] is the invariant
    Rust keeps for it (valid UTF-8) together with a length below [2^32], the
    widest length the wire format can carry. *)

Definition as_bytes (s : string) : bytes := list_byte_of_string s.
Definition of_bytes (bs : bytes) : string := string_of_list_byte bs.

Definition in_range (lo hi x : Z) : bool := (lo <=? x) && (x <=? hi).
Definition utf8_cont (b : byte) : bool := in_range 0x80 0xBF (u8_to_Z b).

(** The second byte of a three-byte and of a four-byte sequence, by its first
    byte: no overlong forms, no surrogates, nothing above U+10FFFF. *)
Definition utf8_second3 (x : Z) (b : byte) : bool :=
  let y := u8_to_Z b in
  if x =? 0xE0 then in_range 0xA0 0xBF y
  else if x =? 0xED then in_range 0x80 0x9F y
  else in_range 0x80 0xBF y.

Definition utf8_second4 (x : Z) (b : byte) : bool :=
  let y := u8_to_Z b in
  if x =? 0xF0 then in_range 0x90 0xBF y
  else if x =? 0xF4 then in_range 0x80 0x8F y
  else in_range 0x80 0xBF y.

(** [core::str::from_utf8]: whether a byte sequence is valid UTF-8. *)
Fixpoint utf8_valid (bs : bytes) : bool :=
  match bs with
  | [] => true
  | b0 :: r0 =>
    let x := u8_to_Z b0 in
    if x <? 0x80 then utf8_valid r0
    else match r0 with
    | [] => false
    | b1 :: r1 =>
      if in_range 0xC2 0xDF x then utf8_cont b1 && utf8_valid r1
      else match r1 with
      | [] => false
      | b2 :: r2 =>
        if in_range 0xE0 0xEF x then utf8_second3 x b1 && utf8_cont b2 && utf8_valid r2
        else match r2 with
        | [] => false
        | b3 :: r3 =>
          in_range 0xF0 0xF4 x && utf8_second4 x b1 && utf8_cont b2 && utf8_cont b3
            && utf8_valid r3
        end
      end
    end
  end.

Definition u32_ok (z : Z) : bool := (0 <=? z) && (z <? 2 ^ 32).

Definition str_ok (s : string) : bool :=
  utf8_valid (as_bytes s) && (Z.of_nat (length (as_bytes s)) <? 2 ^ 32).

Definition opt_ok {A} (ok : A -> bool) (o : option A) : bool :=
  match o with Some a => ok a | None => true end.

(** A list whose length fits its [u32] count and whose items are well formed. *)
Definition list_ok {A} (ok : A -> bool) (l : list A) : bool :=
  (Z.of_nat (length l) <? 2 ^ 32) && forallb ok l.

Lemma u32_ok_iff (z : Z) : u32_ok z = true <-> is_u32 z.
Proof. unfold u32_ok, is_u32. rewrite andb_true_iff, Z.leb_le, Z.ltb_lt. done. Qed.

Lemma str_ok_iff (s : string) :
  str_ok s = true <->
  utf8_valid (as_bytes s) = true /\ Z.of_nat (length (as_bytes s)) < 2 ^ 32.
Proof. unfold str_ok. rewrite andb_true_iff, Z.ltb_lt. done. Qed.

Lemma list_ok_iff {A} (ok : A -> bool) (l : list A) :
  list_ok ok l = true <->
  Z.of_nat (length l) < 2 ^ 32 /\ Forall (fun a => ok a = true) l.
Proof.
  unfold list_ok. rewrite andb_true_iff, Z.ltb_lt, forallb_forall, <- Forall_forall.
  done.
Qed.

Lemma of_as_bytes (s : string) : of_bytes (as_bytes s) = s.
Proof. apply string_of_list_byte_of_string. Qed.

Lemma as_of_bytes (bs : bytes) : as_bytes (of_bytes bs) = bs.
Proof. apply list_byte_of_string_of_list_byte. Qed.

Lemma as_bytes_app (s t : string) : as_bytes (s +:+ t) = as_bytes s ++ as_bytes t.
Proof.
  induction s as [|c s IH]; [reflexivity|].
  change (byte_of_ascii c :: as_bytes (s +:+ t) = byte_of_ascii c :: (as_bytes s ++ as_bytes t)).
  by rewrite IH.
Qed.

Lemma as_bytes_inj (s t : string) : as_bytes s = as_bytes t -> s = t.
Proof. intros H. rewrite <- (of_as_bytes s), H. apply of_as_bytes. Qed.

(** ** Proof automation

    [split_ok] splits the conjunctions of a boolean well-formedness check,
    [inv_ok] inverts a successful monadic bind. *)

Ltac split_ok :=
  repeat match goal with
  | H : _ && _ = true |- _ => apply andb_prop in H as [? ?]
  end.

Lemma outcome_bind_ok {E A B} (m : outcome E A) (f : A -> outcome E B) (b : B) :
  m ≫= f = Ok b -> exists a, m = Ok a /\ f a = Ok b.
Proof. destruct m; cbn; intros H; [eauto | discriminate | discriminate]. Qed.

Lemma outcome_bind_assoc {E A B C} (m : outcome E A) (f : A -> outcome E B)
    (g : B -> outcome E C) : (m ≫= f) ≫= g = m ≫= (fun a => f a ≫= g).
Proof. destruct m; reflexivity. Qed.

Lemma outcome_bind_panic {E A B} (m : outcome E A) (f : A -> outcome E B) :
  m <> Panic -> (forall a, m = Ok a -> f a <> Panic) -> m ≫= f <> Panic.
Proof. destruct m; cbn; intros H1 H2; [eauto | discriminate | congruence]. Qed.

Ltac inv_ok :=
  repeat match goal with
  | H : _ ≫= _ = Ok _ |- _ =>
      let a := fresh "a" in let Ha := fresh "Ha" in
      apply outcome_bind_ok in H as (a & Ha & H)
  | H : Ok _ = Ok _ |- _ => injection H as H
  | H : Err _ = Ok _ |- _ => discriminate H
  | H : Panic = Ok _ |- _ => discriminate H
  end.

Lemma collect_ok {E A B} (f : A -> outcome E B) (l : list A) (r : list B) :
  collect f l = Ok r <-> Forall2 (fun a b => f a = Ok b) l r.
Proof.
  revert r. induction l as [|x l IH]; intros r; cbn.
  - split; [intros [= <-]; constructor | intros H; inversion H; reflexivity].
  - split.
    + intros H. inv_ok. subst r. constructor; [assumption | by apply IH].
    + intros H. inversion H as [|? y ? ys Hy Hys]; subst.
      rewrite Hy. cbn. apply IH in Hys. rewrite Hys. reflexivity.
Qed.

Lemma collect_no_panic {E A B} (f : A -> outcome E B) (l : list A) :
  (forall a, In a l -> f a <> Panic) -> collect f l <> Panic.
Proof.
  induction l as [|x l IH]; cbn; intros H; [discriminate|].
  apply outcome_bind_panic; [eauto|]. intros y _.
  apply outcome_bind_panic; [eauto|]. discriminate.
Qed.

Lemma fold_outcome_app {E S A} (f : S -> A -> outcome E S) (s : S) (l l' : list A) :
  fold_outcome f s (l ++ l') = (s' ← fold_outcome f s l; fold_outcome f s' l').
Proof.
  revert s. induction l as [|x l IH]; intros s; [done|]. cbn.
  destruct (f s x); cbn; [apply IH | done | done].
Qed.

(** A loop invariant: a property of the state and of what is left to visit. *)
Lemma fold_outcome_inv {E S A} (f : S -> A -> outcome E S) (I : S -> list A -> Prop) :
  (forall s x l, I s (x :: l) -> exists s', f s x = Ok s' /\ I s' l) ->
  forall l s, I s l -> exists s', fold_outcome f s l = Ok s' /\ I s' [].
Proof.
  intros Hstep l. induction l as [|x l IH]; intros s Hs; [by exists s|]. cbn.
  destruct (Hstep s x l Hs) as (s1 & -> & H1). cbn. by apply IH.
Qed.
