(* ===== verification/Metadata.v ===== *)
(** * Type metadata

    The SQL-mapping metadata every Rust type that can cross into SQL carries:
    [pgrx-sql-entity-graph/src/metadata/sql_translatable.rs], [return_variant.rs]
    and [entity.rs].  The [..Ref] types are the const-friendly forms the macros
    put in a type's associated constants; the owned forms are what the schema
    generator works with, and the [.._into] functions are the [From] impls
    between them.  [SqlTranslatable] is the trait, as the record of its
    associated constants. *)
From stdpp Require Import pretty.
From S2P Require Import Prelude.

(** A Rust [Result] stored in data (as opposed to one returned by code). *)
Inductive result (A E : Type) : Type :=
| rOk (a : A)
| rErr (e : E).
Arguments rOk {A E} a.
Arguments rErr {A E} e.

#[export] Instance result_eq_dec `{EqDecision A, EqDecision E} : EqDecision (result A E).
Proof. solve_decision. Defined.

Definition result_map {A B E} (f : A -> B) (r : result A E) : result B E :=
  match r with rOk a => rOk (f a) | rErr e => rErr e end.

Inductive TypeOrigin := ThisExtension | External.

Inductive ArgumentError :=
| ArgumentError_SetOf
| ArgumentError_Table
| ArgumentError_NestedArray
| ArgumentError_BareU8
| ArgumentError_SkipInArray
| ArgumentError_Datum
| ArgumentError_NotValidAsArgument (name : string).

Inductive ReturnsError :=
| ReturnsError_NestedSetOf
| ReturnsError_NestedTable
| ReturnsError_NestedArray
| ReturnsError_SetOfContainingTable
| ReturnsError_TableContainingSetOf
| ReturnsError_SetOfInArray
| ReturnsError_TableInArray
| ReturnsError_BareU8
| ReturnsError_SkipInArray
| ReturnsError_Datum.

Inductive SqlArrayMapping :=
| SqlArrayMapping_As (sql : string)
| SqlArrayMapping_Composite.

Inductive SqlMapping :=
| SqlMapping_As (sql : string)
| SqlMapping_Composite
| SqlMapping_Array (value : SqlArrayMapping)
| SqlMapping_Skip.

Inductive Returns :=
| Returns_One (m : SqlMapping)
| Returns_SetOf (m : SqlMapping)
| Returns_Table (ms : list SqlMapping).

Inductive SqlArrayMappingRef :=
| SqlArrayMappingRef_As (sql : string)
| SqlArrayMappingRef_Numeric (precision scale : option Z)
| SqlArrayMappingRef_Composite.

Inductive SqlMappingRef :=
| SqlMappingRef_As (sql : string)
| SqlMappingRef_Numeric (precision scale : option Z)
| SqlMappingRef_Composite
| SqlMappingRef_Array (value : SqlArrayMappingRef)
| SqlMappingRef_Skip.

Inductive ReturnsRef :=
| ReturnsRef_One (m : SqlMappingRef)
| ReturnsRef_SetOf (m : SqlMappingRef)
| ReturnsRef_Table (ms : list SqlMappingRef).

#[export] Instance TypeOrigin_eq_dec : EqDecision TypeOrigin.
Proof. solve_decision. Defined.
#[export] Instance ArgumentError_eq_dec : EqDecision ArgumentError.
Proof. solve_decision. Defined.
#[export] Instance ReturnsError_eq_dec : EqDecision ReturnsError.
Proof. solve_decision. Defined.
#[export] Instance SqlArrayMapping_eq_dec : EqDecision SqlArrayMapping.
Proof. solve_decision. Defined.
#[export] Instance SqlMapping_eq_dec : EqDecision SqlMapping.
Proof. solve_decision. Defined.
#[export] Instance Returns_eq_dec : EqDecision Returns.
Proof. solve_decision. Defined.

(** [format!("{n}")] of an unsigned integer: decimal digits. *)
Definition show_u32 (z : Z) : string := pretty (Z.to_N z).

Definition numeric_sql_string (precision scale : option Z) : string :=
  match precision, scale with
  | None, _ => "NUMERIC"
  | Some p, None => "NUMERIC(" +:+ show_u32 p +:+ ")"
  | Some p, Some s => "NUMERIC(" +:+ show_u32 p +:+ ", " +:+ show_u32 s +:+ ")"
  end.

Definition sql_array_mapping_into (value : SqlArrayMappingRef) : SqlArrayMapping :=
  match value with
  | SqlArrayMappingRef_As v => SqlArrayMapping_As v
  | SqlArrayMappingRef_Numeric p s => SqlArrayMapping_As (numeric_sql_string p s)
  | SqlArrayMappingRef_Composite => SqlArrayMapping_Composite
  end.

Definition sql_mapping_into (value : SqlMappingRef) : SqlMapping :=
  match value with
  | SqlMappingRef_As v => SqlMapping_As v
  | SqlMappingRef_Numeric p s => SqlMapping_As (numeric_sql_string p s)
  | SqlMappingRef_Composite => SqlMapping_Composite
  | SqlMappingRef_Array v => SqlMapping_Array (sql_array_mapping_into v)
  | SqlMappingRef_Skip => SqlMapping_Skip
  end.

Definition returns_into (value : ReturnsRef) : Returns :=
  match value with
  | ReturnsRef_One m => Returns_One (sql_mapping_into m)
  | ReturnsRef_SetOf m => Returns_SetOf (sql_mapping_into m)
  | ReturnsRef_Table ms => Returns_Table (map sql_mapping_into ms)
  end.

(** ** Container mappings: [Vec<T>] / [Array<T>], [SetOfIterator<T>], [TableIterator] *)

Definition array_argument_sql (mapping : result SqlMappingRef ArgumentError)
    : result SqlMappingRef ArgumentError :=
  match mapping with
  | rOk (SqlMappingRef_As sql) => rOk (SqlMappingRef_Array (SqlArrayMappingRef_As sql))
  | rOk (SqlMappingRef_Numeric p s) => rOk (SqlMappingRef_Array (SqlArrayMappingRef_Numeric p s))
  | rOk SqlMappingRef_Composite => rOk (SqlMappingRef_Array SqlArrayMappingRef_Composite)
  | rOk SqlMappingRef_Skip => rErr ArgumentError_SkipInArray
  | rOk (SqlMappingRef_Array _) => rErr ArgumentError_NestedArray
  | rErr err => rErr err
  end.

Definition array_return_sql (returns : result ReturnsRef ReturnsError)
    : result ReturnsRef ReturnsError :=
  match returns with
  | rOk (ReturnsRef_One (SqlMappingRef_As sql)) =>
      rOk (ReturnsRef_One (SqlMappingRef_Array (SqlArrayMappingRef_As sql)))
  | rOk (ReturnsRef_One (SqlMappingRef_Numeric p s)) =>
      rOk (ReturnsRef_One (SqlMappingRef_Array (SqlArrayMappingRef_Numeric p s)))
  | rOk (ReturnsRef_One SqlMappingRef_Composite) =>
      rOk (ReturnsRef_One (SqlMappingRef_Array SqlArrayMappingRef_Composite))
  | rOk (ReturnsRef_One SqlMappingRef_Skip) => rErr ReturnsError_SkipInArray
  | rOk (ReturnsRef_One (SqlMappingRef_Array _)) => rErr ReturnsError_NestedArray
  | rOk (ReturnsRef_SetOf _) => rErr ReturnsError_SetOfInArray
  | rOk (ReturnsRef_Table _) => rErr ReturnsError_TableInArray
  | rErr err => rErr err
  end.

Definition setof_return_sql (returns : result ReturnsRef ReturnsError)
    : result ReturnsRef ReturnsError :=
  match returns with
  | rOk (ReturnsRef_One sql) => rOk (ReturnsRef_SetOf sql)
  | rOk (ReturnsRef_SetOf _) => rErr ReturnsError_NestedSetOf
  | rOk (ReturnsRef_Table _) => rErr ReturnsError_SetOfContainingTable
  | rErr err => rErr err
  end.

Definition table_item_sql (returns : result ReturnsRef ReturnsError)
    : result SqlMappingRef ReturnsError :=
  match returns with
  | rOk (ReturnsRef_One sql) => rOk sql
  | rOk (ReturnsRef_SetOf _) => rErr ReturnsError_TableContainingSetOf
  | rOk (ReturnsRef_Table _) => rErr ReturnsError_NestedTable
  | rErr err => rErr err
  end.

(** ** [FunctionMetadataTypeEntity] and the [SqlTranslatable] trait *)

Record FunctionMetadataTypeResolutionEntity := {
  res_type_ident : string;
  res_type_origin : TypeOrigin;
}.

Record FunctionMetadataTypeEntity := {
  fmt_resolution : option FunctionMetadataTypeResolutionEntity;
  fmt_argument_sql : result SqlMapping ArgumentError;
  fmt_return_sql : result Returns ReturnsError;
}.

#[export] Instance Resolution_eq_dec : EqDecision FunctionMetadataTypeResolutionEntity.
Proof. solve_decision. Defined.
#[export] Instance FunctionMetadataTypeEntity_eq_dec : EqDecision FunctionMetadataTypeEntity.
Proof. solve_decision. Defined.

Definition fmt_resolved (type_ident : string) (type_origin : TypeOrigin)
    (argument_sql : result SqlMapping ArgumentError) (return_sql : result Returns ReturnsError)
    : FunctionMetadataTypeEntity :=
  {| fmt_resolution := Some {| res_type_ident := type_ident; res_type_origin := type_origin |};
     fmt_argument_sql := argument_sql; fmt_return_sql := return_sql |}.

Definition fmt_sql_only
    (argument_sql : result SqlMapping ArgumentError) (return_sql : result Returns ReturnsError)
    : FunctionMetadataTypeEntity :=
  {| fmt_resolution := None; fmt_argument_sql := argument_sql; fmt_return_sql := return_sql |}.

Definition fmt_type_ident (m : FunctionMetadataTypeEntity) : option string :=
  res_type_ident <$> fmt_resolution m.

Definition fmt_type_origin (m : FunctionMetadataTypeEntity) : option TypeOrigin :=
  res_type_origin <$> fmt_resolution m.

Definition fmt_needs_type_resolution (m : FunctionMetadataTypeEntity) : bool :=
  match fmt_resolution m with Some _ => true | None => false end.

Record SqlTranslatable := {
  TYPE_IDENT : string;
  TYPE_ORIGIN : TypeOrigin;
  ARGUMENT_SQL : result SqlMappingRef ArgumentError;
  RETURN_SQL : result ReturnsRef ReturnsError;
}.

Definition argument_sql (T : SqlTranslatable) : result SqlMapping ArgumentError :=
  result_map sql_mapping_into (ARGUMENT_SQL T).

Definition return_sql (T : SqlTranslatable) : result Returns ReturnsError :=
  result_map returns_into (RETURN_SQL T).

Definition translatable_entity (T : SqlTranslatable) : FunctionMetadataTypeEntity :=
  fmt_resolved (TYPE_IDENT T) (TYPE_ORIGIN T) (argument_sql T) (return_sql T).

(** ** Properties *)

(** The iterator and array wrappers a return type may be put in. *)
Inductive container := CArray | CSetOf.

Definition wrap_return (c : container)
    : result ReturnsRef ReturnsError -> result ReturnsRef ReturnsError :=
  match c with CArray => array_return_sql | CSetOf => setof_return_sql end.

(** Whether a mapping names one SQL value (so it can be an array element). *)
Definition is_scalar (m : SqlMappingRef) : bool :=
  match m with
  | SqlMappingRef_As _ | SqlMappingRef_Numeric _ _ | SqlMappingRef_Composite => true
  | SqlMappingRef_Array _ | SqlMappingRef_Skip => false
  end.

Definition array_of (m : SqlMappingRef) : SqlMappingRef :=
  match m with
  | SqlMappingRef_As sql => SqlMappingRef_Array (SqlArrayMappingRef_As sql)
  | SqlMappingRef_Numeric p s => SqlMappingRef_Array (SqlArrayMappingRef_Numeric p s)
  | SqlMappingRef_Composite => SqlMappingRef_Array SqlArrayMappingRef_Composite
  | other => other
  end.

(** Containers around an error keep the error. *)
Lemma wrap_error e cs :
  foldl (fun r c => wrap_return c r) (rErr e) cs = rErr e.
Proof. induction cs as [|[] cs IH]; [done | exact IH | exact IH]. Qed.

(** Nesting of return types: around a type with one SQL value, the accepted
    nestings are the value, an array of it, a set of it and a set of arrays of it,
    with the mapping one expects; every other nesting, however deep, is the error
    that names the innermost forbidden pair. *)
Theorem return_nesting (m : SqlMappingRef) (cs : list container) :
  is_scalar m = true ->
  foldl (fun r c => wrap_return c r) (rOk (ReturnsRef_One m)) cs
  = match cs with
    | [] => rOk (ReturnsRef_One m)
    | [CArray] => rOk (ReturnsRef_One (array_of m))
    | [CSetOf] => rOk (ReturnsRef_SetOf m)
    | [CArray; CSetOf] => rOk (ReturnsRef_SetOf (array_of m))
    | CArray :: CArray :: _ => rErr ReturnsError_NestedArray
    | CSetOf :: CSetOf :: _ | CArray :: CSetOf :: CSetOf :: _ => rErr ReturnsError_NestedSetOf
    | CSetOf :: CArray :: _ | CArray :: CSetOf :: CArray :: _ => rErr ReturnsError_SetOfInArray
    end.
Proof.
  intros Hm. destruct cs as [|[] [|[] [|[] cs]]]; destruct m; try discriminate Hm; try done;
    apply wrap_error.
Qed.

Lemma return_nesting_witness :
  foldl (fun r c => wrap_return c r) (rOk (ReturnsRef_One (SqlMappingRef_As "text"))) [CArray; CSetOf]
  = rOk (ReturnsRef_SetOf (SqlMappingRef_Array (SqlArrayMappingRef_As "text"))).
Proof. apply (return_nesting (SqlMappingRef_As "text") [CArray; CSetOf]). reflexivity. Defined.
