(* ===== verification/Entities.v ===== *)
(** * Schema entities

    The data the schema generator works on: one record per [.._Entity] struct
    of [pgrx-sql-entity-graph/src], and the [SqlGraphEntity] enum over them.
    A field [f] of a struct is the projection [<prefix>_f], the prefix being
    fixed per struct; a Rust [&str] is a [string], a [u32] a [Z]. *)
From S2P Require Import Prelude Metadata.

(** ** [used_type.rs], [positioning_ref.rs], [to_sql/entity.rs], [extern_args.rs] *)

Record UsedTypeEntity := {
  ut_ty_source : string;
  ut_full_path : string;
  ut_composite_type : option string;
  ut_variadic : bool;
  ut_default : option string;
  ut_optional : bool;
  ut_metadata : FunctionMetadataTypeEntity;
}.

Definition ut_resolution (u : UsedTypeEntity) : option (string * TypeOrigin) :=
  match fmt_resolution (ut_metadata u) with
  | Some r => Some (res_type_ident r, res_type_origin r)
  | None => None
  end.

Definition ut_needs_type_resolution (u : UsedTypeEntity) : bool :=
  fmt_needs_type_resolution (ut_metadata u).

Definition ut_emits_argument_sql (u : UsedTypeEntity) : bool :=
  match fmt_argument_sql (ut_metadata u) with
  | rOk SqlMapping_Skip => false
  | _ => true
  end.

Inductive PositioningRef :=
| FullPath (path : string)
| Name (name : string).

Record ToSqlConfigEntity := {
  cfg_enabled : bool;
  cfg_content : option string;
}.

Inductive ExternArgs :=
| CreateOrReplace
| Immutable
| Strict
| Stable
| Volatile
| Raw
| NoGuard
| SecurityDefiner
| SecurityInvoker
| ParallelSafe
| ParallelUnsafe
| ParallelRestricted
| ShouldPanic (value : string)
| Schema (value : string)
| Support (item : PositioningRef)
| ExternName (value : string)
| Cost (value : string)
| Requires (items : list PositioningRef).

(** ** [pg_extern/entity] *)

Record PgExternArgumentEntity := {
  arg_pattern : string;
  arg_used_ty : UsedTypeEntity;
}.

Record PgExternReturnEntityIteratedItem := {
  it_ty : UsedTypeEntity;
  it_name : option string;
}.

Inductive PgExternReturnEntity :=
| Return_None
| Return_Type (ty : UsedTypeEntity)
| Return_SetOf (ty : UsedTypeEntity)
| Return_Iterated (tys : list PgExternReturnEntityIteratedItem)
| Return_Trigger.

Inductive PgCastEntity := Cast_Default | Cast_Assignment | Cast_Implicit.

Record PgOperatorEntity := {
  op_opname : option string;
  op_commutator : option string;
  op_negator : option string;
  op_restrict : option string;
  op_join : option string;
  op_hashes : bool;
  op_merges : bool;
}.

Record PgExternEntity := {
  fn_name : string;
  fn_unaliased_name : string;
  fn_module_path : string;
  fn_full_path : string;
  fn_fn_args : list PgExternArgumentEntity;
  fn_fn_return : PgExternReturnEntity;
  fn_schema : option string;
  fn_file : string;
  fn_line : Z;
  fn_extern_attrs : list ExternArgs;
  fn_search_path : option (list string);
  fn_operator : option PgOperatorEntity;
  fn_cast : option PgCastEntity;
  fn_to_sql_config : ToSqlConfigEntity;
}.

(** ** The other entities *)

Record SchemaEntity := {
  schema_module_path : string;
  schema_name : string;
  schema_file : string;
  schema_line : Z;
}.

Record SqlDeclaredTypeEntityData := {
  dt_sql : string;
  dt_name : string;
  dt_type_ident : string;
}.

Record SqlDeclaredFunctionEntityData := {
  df_sql : string;
  df_name : string;
}.

Inductive SqlDeclaredEntity :=
| Declared_Type (data : SqlDeclaredTypeEntityData)
| Declared_Enum (data : SqlDeclaredTypeEntityData)
| Declared_Function (data : SqlDeclaredFunctionEntityData).

Definition declared_type_ident (d : SqlDeclaredEntity) : option string :=
  match d with
  | Declared_Type data | Declared_Enum data => Some (dt_type_ident data)
  | Declared_Function _ => None
  end.

Definition declared_matches_type_ident (d : SqlDeclaredEntity) (type_ident : string) : bool :=
  match declared_type_ident d with
  | Some value => bool_decide (value = type_ident)
  | None => false
  end.

Record ExtensionSqlEntity := {
  sql_module_path : string;
  sql_full_path : string;
  sql_sql : string;
  sql_file : string;
  sql_line : Z;
  sql_name : string;
  sql_bootstrap : bool;
  sql_finalize : bool;
  sql_requires : list PositioningRef;
  sql_creates : list SqlDeclaredEntity;
}.

Record PostgresTypeEntity := {
  type_name : string;
  type_file : string;
  type_line : Z;
  type_full_path : string;
  type_module_path : string;
  type_type_ident : string;
  type_in_fn_path : string;
  type_out_fn_path : string;
  type_receive_fn_path : option string;
  type_send_fn_path : option string;
  type_to_sql_config : ToSqlConfigEntity;
  type_alignment : option Z;
}.

Record PostgresEnumEntity := {
  enum_name : string;
  enum_file : string;
  enum_line : Z;
  enum_full_path : string;
  enum_module_path : string;
  enum_type_ident : string;
  enum_variants : list string;
  enum_to_sql_config : ToSqlConfigEntity;
}.

Record PostgresOrdEntity := {
  ord_name : string;
  ord_file : string;
  ord_line : Z;
  ord_full_path : string;
  ord_module_path : string;
  ord_type_ident : string;
  ord_to_sql_config : ToSqlConfigEntity;
}.

Record PostgresHashEntity := {
  hash_name : string;
  hash_file : string;
  hash_line : Z;
  hash_full_path : string;
  hash_module_path : string;
  hash_type_ident : string;
  hash_to_sql_config : ToSqlConfigEntity;
}.

Record PgTriggerEntity := {
  trg_function_name : string;
  trg_to_sql_config : ToSqlConfigEntity;
  trg_file : string;
  trg_line : Z;
  trg_module_path : string;
  trg_full_path : string;
}.

Record AggregateTypeEntity := {
  at_used_ty : UsedTypeEntity;
  at_name : option string;
}.

Inductive FinalizeModify := ReadOnly | Shareable | ReadWrite.
Inductive ParallelOption := Parallel_Safe | Parallel_Restricted | Parallel_Unsafe.

Record PgAggregateEntity := {
  agg_full_path : string;
  agg_module_path : string;
  agg_file : string;
  agg_line : Z;
  agg_name : string;
  agg_ordered_set : bool;
  agg_args : list AggregateTypeEntity;
  agg_direct_args : option (list AggregateTypeEntity);
  agg_stype : AggregateTypeEntity;
  agg_sfunc : string;
  agg_finalfunc : option string;
  agg_finalfunc_modify : option FinalizeModify;
  agg_combinefunc : option string;
  agg_serialfunc : option string;
  agg_deserialfunc : option string;
  agg_initcond : option string;
  agg_msfunc : option string;
  agg_minvfunc : option string;
  agg_mstype : option UsedTypeEntity;
  agg_mfinalfunc : option string;
  agg_mfinalfunc_modify : option FinalizeModify;
  agg_minitcond : option string;
  agg_sortop : option string;
  agg_parallel : option ParallelOption;
  agg_hypothetical : bool;
  agg_to_sql_config : ToSqlConfigEntity;
}.

Record ControlFile := {
  ctl_comment : string;
  ctl_default_version : string;
  ctl_module_pathname : option string;
  ctl_relocatable : bool;
  ctl_superuser : bool;
  ctl_schema : option string;
  ctl_trusted : bool;
}.

Inductive SqlGraphEntity :=
| Entity_ExtensionRoot (c : ControlFile)
| Entity_Schema (e : SchemaEntity)
| Entity_CustomSql (e : ExtensionSqlEntity)
| Entity_Function (e : PgExternEntity)
| Entity_Type (e : PostgresTypeEntity)
| Entity_BuiltinType (s : string)
| Entity_Enum (e : PostgresEnumEntity)
| Entity_Ord (e : PostgresOrdEntity)
| Entity_Hash (e : PostgresHashEntity)
| Entity_Aggregate (e : PgAggregateEntity)
| Entity_Trigger (e : PgTriggerEntity).

Definition type_ident_matches (e : SqlGraphEntity) (type_ident : string) : bool :=
  match e with
  | Entity_CustomSql c => existsb (fun d => declared_matches_type_ident d type_ident) (sql_creates c)
  | Entity_Enum e => bool_decide (enum_type_ident e = type_ident)
  | Entity_Type e => bool_decide (type_type_ident e = type_ident)
  | Entity_BuiltinType s => bool_decide (s = type_ident)
  | _ => false
  end.

(** ** Decidable equality ([#[derive(PartialEq, Eq)]]) *)

#[export] Instance UsedTypeEntity_eq_dec : EqDecision UsedTypeEntity.
Proof. solve_decision. Defined.
#[export] Instance PositioningRef_eq_dec : EqDecision PositioningRef.
Proof. solve_decision. Defined.
#[export] Instance ToSqlConfigEntity_eq_dec : EqDecision ToSqlConfigEntity.
Proof. solve_decision. Defined.
#[export] Instance ExternArgs_eq_dec : EqDecision ExternArgs.
Proof. solve_decision. Defined.
#[export] Instance PgExternArgumentEntity_eq_dec : EqDecision PgExternArgumentEntity.
Proof. solve_decision. Defined.
#[export] Instance IteratedItem_eq_dec : EqDecision PgExternReturnEntityIteratedItem.
Proof. solve_decision. Defined.
#[export] Instance PgExternReturnEntity_eq_dec : EqDecision PgExternReturnEntity.
Proof. solve_decision. Defined.
#[export] Instance PgCastEntity_eq_dec : EqDecision PgCastEntity.
Proof. solve_decision. Defined.
#[export] Instance PgOperatorEntity_eq_dec : EqDecision PgOperatorEntity.
Proof. solve_decision. Defined.
#[export] Instance PgExternEntity_eq_dec : EqDecision PgExternEntity.
Proof. solve_decision. Defined.
#[export] Instance SchemaEntity_eq_dec : EqDecision SchemaEntity.
Proof. solve_decision. Defined.
#[export] Instance SqlDeclaredTypeEntityData_eq_dec : EqDecision SqlDeclaredTypeEntityData.
Proof. solve_decision. Defined.
#[export] Instance SqlDeclaredFunctionEntityData_eq_dec : EqDecision SqlDeclaredFunctionEntityData.
Proof. solve_decision. Defined.
#[export] Instance SqlDeclaredEntity_eq_dec : EqDecision SqlDeclaredEntity.
Proof. solve_decision. Defined.
#[export] Instance ExtensionSqlEntity_eq_dec : EqDecision ExtensionSqlEntity.
Proof. solve_decision. Defined.
#[export] Instance PostgresTypeEntity_eq_dec : EqDecision PostgresTypeEntity.
Proof. solve_decision. Defined.
#[export] Instance PostgresEnumEntity_eq_dec : EqDecision PostgresEnumEntity.
Proof. solve_decision. Defined.
#[export] Instance PostgresOrdEntity_eq_dec : EqDecision PostgresOrdEntity.
Proof. solve_decision. Defined.
#[export] Instance PostgresHashEntity_eq_dec : EqDecision PostgresHashEntity.
Proof. solve_decision. Defined.
#[export] Instance PgTriggerEntity_eq_dec : EqDecision PgTriggerEntity.
Proof. solve_decision. Defined.
#[export] Instance AggregateTypeEntity_eq_dec : EqDecision AggregateTypeEntity.
Proof. solve_decision. Defined.
#[export] Instance FinalizeModify_eq_dec : EqDecision FinalizeModify.
Proof. solve_decision. Defined.
#[export] Instance ParallelOption_eq_dec : EqDecision ParallelOption.
Proof. solve_decision. Defined.
#[export] Instance PgAggregateEntity_eq_dec : EqDecision PgAggregateEntity.
Proof. solve_decision. Defined.
#[export] Instance ControlFile_eq_dec : EqDecision ControlFile.
Proof. solve_decision. Defined.
#[export] Instance SqlGraphEntity_eq_dec : EqDecision SqlGraphEntity.
Proof. solve_decision. Defined.
