(* ===== verification/EntityOrd.v ===== *)
(** * The order on entities

    [#[derive(PartialOrd, Ord)]] on the entity types (and the hand-written [Ord]
    of [ToSqlConfigEntity], which compares its fields the same way): a struct
    compares its fields in order, an enum its variant and then the variant's
    fields, a [Vec] and a [str] lexicographically.  Each value has a key, a tree
    of integers, and the order is the lexicographic order of the keys; the keys
    are injective, so equal in the order means equal. *)
From S2P Require Import Prelude Metadata Entities.

(** ** Keys and their order *)

#[local] Set Warnings "-register-all".

Inductive okey :=
| KInt (z : Z)
| KList (ks : list okey).

Fixpoint kcmp (a b : okey) : comparison :=
  match a, b with
  | KInt x, KInt y => Z.compare x y
  | KInt _, KList _ => Lt
  | KList _, KInt _ => Gt
  | KList xs, KList ys =>
      (fix lcmp xs ys :=
         match xs, ys with
         | [], [] => Eq
         | [], _ :: _ => Lt
         | _ :: _, [] => Gt
         | x :: xs, y :: ys => match kcmp x y with Eq => lcmp xs ys | c => c end
         end) xs ys
  end.

Lemma okey_ind' (P : okey -> Prop) :
  (forall z, P (KInt z)) -> (forall ks, Forall P ks -> P (KList ks)) -> forall k, P k.
Proof.
  intros Hi Hl. fix IH 1. intros [z|ks]; [apply Hi|]. apply Hl.
  induction ks as [|k ks IHks]; constructor; [apply IH | exact IHks].
Qed.

Lemma kcmp_eq a b : kcmp a b = Eq <-> a = b.
Proof.
  revert b. induction a as [x|xs IH] using okey_ind'; intros [y|ys]; cbn.
  - rewrite Z.compare_eq_iff. split; congruence.
  - split; discriminate.
  - split; discriminate.
  - revert ys. induction IH as [|x xs Hx _ IHxs]; intros [|y ys].
    1: done.
    1-2: split; discriminate.
    destruct (kcmp x y) eqn:E.
    + apply Hx in E as ->. rewrite IHxs. split; congruence.
    + split; [discriminate|]. intros [= -> ->]. by rewrite (proj2 (Hx y) eq_refl) in E.
    + split; [discriminate|]. intros [= -> ->]. by rewrite (proj2 (Hx y) eq_refl) in E.
Qed.

Lemma kcmp_opp a b : kcmp b a = CompOpp (kcmp a b).
Proof.
  revert b. induction a as [x|xs IH] using okey_ind'; intros [y|ys]; cbn.
  - apply Z.compare_antisym.
  - done.
  - done.
  - revert ys. induction IH as [|x xs Hx _ IHxs]; intros [|y ys]; try done.
    rewrite Hx. destruct (kcmp x y); cbn; [apply IHxs | done | done].
Qed.

Lemma kcmp_trans a b c : kcmp a b = Lt -> kcmp b c = Lt -> kcmp a c = Lt.
Proof.
  revert b c. induction a as [x|xs IH] using okey_ind'; intros [y|ys] [z|zs]; cbn; try done.
  - rewrite !Z.compare_lt_iff. lia.
  - revert ys zs. induction IH as [|x xs Hx _ IHxs]; intros [|y ys] [|z zs]; try done.
    destruct (kcmp x y) eqn:Exy.
    + apply kcmp_eq in Exy as ->. destruct (kcmp y z) eqn:Eyz; [|done|done].
      intros H1 H2. by apply (IHxs ys zs).
    + intros _. destruct (kcmp y z) eqn:Eyz; [|intros _ | done].
      * apply kcmp_eq in Eyz as ->. by rewrite Exy.
      * by rewrite (Hx y z).
    + done.
Qed.

(** ** Keys of values *)

Class Keyed (A : Type) := {
  key : A -> okey;
  key_inj : forall a b, key a = key b -> a = b;
}.

Definition cmp `{Keyed A} (a b : A) : comparison := kcmp (key a) (key b).

Lemma cmp_eq `{Keyed A} (a b : A) : cmp a b = Eq <-> a = b.
Proof. unfold cmp. rewrite kcmp_eq. split; [apply key_inj | by intros ->]. Qed.

(** The variant of an enum with its fields. *)
Definition variant (n : Z) (fields : list okey) : okey := KList (KInt n :: fields).

Lemma klist_inj xs ys : KList xs = KList ys -> xs = ys.
Proof. by intros [=]. Qed.

Lemma kcons_inj (x y : okey) xs ys : x :: xs = y :: ys -> x = y /\ xs = ys.
Proof. by intros [=]. Qed.

Ltac key_inj_solve :=
  intros a b; destruct a, b; cbn -[key]; unfold variant; intros Hkey;
  repeat match goal with
  | H : KList _ = KList _ |- _ => apply klist_inj in H
  | H : _ :: _ = _ :: _ |- _ => apply kcons_inj in H as [? ?]
  | H : KInt _ = KInt _ |- _ => first [discriminate H | clear H]
  | H : [] = _ :: _ |- _ => discriminate H
  | H : _ :: _ = [] |- _ => discriminate H
  | H : key _ = key _ |- _ => apply key_inj in H; subst
  end; reflexivity.

#[export, refine] Instance keyed_Z : Keyed Z := {| key := KInt |}.
Proof. intros a b H. by injection H. Defined.

#[export, refine] Instance keyed_bool : Keyed bool := {| key := fun b : bool => KInt (if b then 1 else 0) |}.
Proof. intros [] []; cbn; congruence. Defined.

Lemma map_key_inj {A B} (f : A -> B) (l l' : list A) :
  (forall a b, f a = f b -> a = b) -> map f l = map f l' -> l = l'.
Proof.
  intros Hf. revert l'. induction l as [|a l IH]; intros [|b l']; cbn; try done.
  intros [= H1%Hf H2%IH]. congruence.
Qed.

#[export, refine] Instance keyed_list `{Keyed A} : Keyed (list A) := {| key := fun l : list A => KList (map key l) |}.
Proof. intros a b H'. injection H' as H'. by eapply map_key_inj, H'; apply key_inj. Defined.

#[export, refine] Instance keyed_option `{Keyed A} : Keyed (option A) := {|
  key := fun o => match o with None => variant 0 [] | Some a => variant 1 [key a] end |}.
Proof. key_inj_solve. Defined.

#[export, refine] Instance keyed_result `{Keyed A, Keyed E} : Keyed (result A E) := {|
  key := fun r => match r with rOk a => variant 0 [key a] | rErr e => variant 1 [key e] end |}.
Proof. key_inj_solve. Defined.

Definition string_key (s : string) : okey := KList (map (fun b => KInt (u8_to_Z b)) (as_bytes s)).

#[export, refine] Instance keyed_string : Keyed string := {| key := string_key |}.
Proof.
  intros a b H. injection H as H. apply as_bytes_inj. eapply map_key_inj, H.
  intros x y Hxy. injection Hxy as Hxy. by rewrite <- (u8_of_to_Z x), Hxy, u8_of_to_Z.
Defined.

(** ** Keys of the metadata *)

#[export, refine] Instance keyed_TypeOrigin : Keyed TypeOrigin := {|
  key := fun o => match o with ThisExtension => variant 0 [] | External => variant 1 [] end |}.
Proof. key_inj_solve. Defined.

#[export, refine] Instance keyed_ArgumentError : Keyed ArgumentError := {|
  key := fun e => match e with
    | ArgumentError_SetOf => variant 0 []
    | ArgumentError_Table => variant 1 []
    | ArgumentError_NestedArray => variant 2 []
    | ArgumentError_BareU8 => variant 3 []
    | ArgumentError_SkipInArray => variant 4 []
    | ArgumentError_Datum => variant 5 []
    | ArgumentError_NotValidAsArgument name => variant 6 [key name]
    end |}.
Proof. key_inj_solve. Defined.

#[export, refine] Instance keyed_ReturnsError : Keyed ReturnsError := {|
  key := fun e => variant (match e with
    | ReturnsError_NestedSetOf => 0
    | ReturnsError_NestedTable => 1
    | ReturnsError_NestedArray => 2
    | ReturnsError_SetOfContainingTable => 3
    | ReturnsError_TableContainingSetOf => 4
    | ReturnsError_SetOfInArray => 5
    | ReturnsError_TableInArray => 6
    | ReturnsError_BareU8 => 7
    | ReturnsError_SkipInArray => 8
    | ReturnsError_Datum => 9
    end) [] |}.
Proof. key_inj_solve. Defined.

#[export, refine] Instance keyed_SqlArrayMapping : Keyed SqlArrayMapping := {|
  key := fun m => match m with
    | SqlArrayMapping_As sql => variant 0 [key sql]
    | SqlArrayMapping_Composite => variant 1 []
    end |}.
Proof. key_inj_solve. Defined.

#[export, refine] Instance keyed_SqlMapping : Keyed SqlMapping := {|
  key := fun m => match m with
    | SqlMapping_As sql => variant 0 [key sql]
    | SqlMapping_Composite => variant 1 []
    | SqlMapping_Array v => variant 2 [key v]
    | SqlMapping_Skip => variant 3 []
    end |}.
Proof. key_inj_solve. Defined.

#[export, refine] Instance keyed_Returns : Keyed Returns := {|
  key := fun r => match r with
    | Returns_One m => variant 0 [key m]
    | Returns_SetOf m => variant 1 [key m]
    | Returns_Table ms => variant 2 [key ms]
    end |}.
Proof. key_inj_solve. Defined.

#[export, refine] Instance keyed_Resolution : Keyed FunctionMetadataTypeResolutionEntity := {|
  key := fun r => KList [key (res_type_ident r); key (res_type_origin r)] |}.
Proof. key_inj_solve. Defined.

#[export, refine] Instance keyed_Metadata : Keyed FunctionMetadataTypeEntity := {|
  key := fun m => KList [key (fmt_resolution m); key (fmt_argument_sql m); key (fmt_return_sql m)] |}.
Proof. key_inj_solve. Defined.

(** ** Keys of the entities *)

#[export, refine] Instance keyed_UsedTypeEntity : Keyed UsedTypeEntity := {|
  key := fun u => KList [key (ut_ty_source u); key (ut_full_path u); key (ut_composite_type u);
    key (ut_variadic u); key (ut_default u); key (ut_optional u); key (ut_metadata u)] |}.
Proof. key_inj_solve. Defined.

#[export, refine] Instance keyed_PositioningRef : Keyed PositioningRef := {|
  key := fun p => match p with FullPath s => variant 0 [key s] | Name s => variant 1 [key s] end |}.
Proof. key_inj_solve. Defined.

#[export, refine] Instance keyed_ToSqlConfigEntity : Keyed ToSqlConfigEntity := {|
  key := fun c => KList [key (cfg_enabled c); key (cfg_content c)] |}.
Proof. key_inj_solve. Defined.

#[export, refine] Instance keyed_ExternArgs : Keyed ExternArgs := {|
  key := fun a => match a with
    | CreateOrReplace => variant 0 []
    | Immutable => variant 1 []
    | Strict => variant 2 []
    | Stable => variant 3 []
    | Volatile => variant 4 []
    | Raw => variant 5 []
    | NoGuard => variant 6 []
    | SecurityDefiner => variant 7 []
    | SecurityInvoker => variant 8 []
    | ParallelSafe => variant 9 []
    | ParallelUnsafe => variant 10 []
    | ParallelRestricted => variant 11 []
    | ShouldPanic v => variant 12 [key v]
    | Schema v => variant 13 [key v]
    | Support p => variant 14 [key p]
    | ExternName v => variant 15 [key v]
    | Cost v => variant 16 [key v]
    | Requires ps => variant 17 [key ps]
    end |}.
Proof. key_inj_solve. Defined.

#[export, refine] Instance keyed_PgExternArgumentEntity : Keyed PgExternArgumentEntity := {|
  key := fun a => KList [key (arg_pattern a); key (arg_used_ty a)] |}.
Proof. key_inj_solve. Defined.

#[export, refine] Instance keyed_IteratedItem : Keyed PgExternReturnEntityIteratedItem := {|
  key := fun i => KList [key (it_ty i); key (it_name i)] |}.
Proof. key_inj_solve. Defined.

#[export, refine] Instance keyed_PgExternReturnEntity : Keyed PgExternReturnEntity := {|
  key := fun r => match r with
    | Return_None => variant 0 []
    | Return_Type ty => variant 1 [key ty]
    | Return_SetOf ty => variant 2 [key ty]
    | Return_Iterated tys => variant 3 [key tys]
    | Return_Trigger => variant 4 []
    end |}.
Proof. key_inj_solve. Defined.

#[export, refine] Instance keyed_PgCastEntity : Keyed PgCastEntity := {|
  key := fun c => variant (match c with
    Cast_Default => 0 | Cast_Assignment => 1 | Cast_Implicit => 2 end) [] |}.
Proof. key_inj_solve. Defined.

#[export, refine] Instance keyed_PgOperatorEntity : Keyed PgOperatorEntity := {|
  key := fun o => KList [key (op_opname o); key (op_commutator o); key (op_negator o);
    key (op_restrict o); key (op_join o); key (op_hashes o); key (op_merges o)] |}.
Proof. key_inj_solve. Defined.

#[export, refine] Instance keyed_PgExternEntity : Keyed PgExternEntity := {|
  key := fun f => KList [key (fn_name f); key (fn_unaliased_name f); key (fn_module_path f);
    key (fn_full_path f); key (fn_fn_args f); key (fn_fn_return f); key (fn_schema f);
    key (fn_file f); key (fn_line f); key (fn_extern_attrs f); key (fn_search_path f);
    key (fn_operator f); key (fn_cast f); key (fn_to_sql_config f)] |}.
Proof. key_inj_solve. Defined.

#[export, refine] Instance keyed_SchemaEntity : Keyed SchemaEntity := {|
  key := fun s => KList [key (schema_module_path s); key (schema_name s); key (schema_file s);
    key (schema_line s)] |}.
Proof. key_inj_solve. Defined.

#[export, refine] Instance keyed_DeclaredType : Keyed SqlDeclaredTypeEntityData := {|
  key := fun d => KList [key (dt_sql d); key (dt_name d); key (dt_type_ident d)] |}.
Proof. key_inj_solve. Defined.

#[export, refine] Instance keyed_DeclaredFunction : Keyed SqlDeclaredFunctionEntityData := {|
  key := fun d => KList [key (df_sql d); key (df_name d)] |}.
Proof. key_inj_solve. Defined.

#[export, refine] Instance keyed_SqlDeclaredEntity : Keyed SqlDeclaredEntity := {|
  key := fun d => match d with
    | Declared_Type d => variant 0 [key d]
    | Declared_Enum d => variant 1 [key d]
    | Declared_Function d => variant 2 [key d]
    end |}.
Proof. key_inj_solve. Defined.

#[export, refine] Instance keyed_ExtensionSqlEntity : Keyed ExtensionSqlEntity := {|
  key := fun s => KList [key (sql_module_path s); key (sql_full_path s); key (sql_sql s);
    key (sql_file s); key (sql_line s); key (sql_name s); key (sql_bootstrap s);
    key (sql_finalize s); key (sql_requires s); key (sql_creates s)] |}.
Proof. key_inj_solve. Defined.

#[export, refine] Instance keyed_PostgresTypeEntity : Keyed PostgresTypeEntity := {|
  key := fun t => KList [key (type_name t); key (type_file t); key (type_line t);
    key (type_full_path t); key (type_module_path t); key (type_type_ident t);
    key (type_in_fn_path t); key (type_out_fn_path t); key (type_receive_fn_path t);
    key (type_send_fn_path t); key (type_to_sql_config t); key (type_alignment t)] |}.
Proof. key_inj_solve. Defined.

#[export, refine] Instance keyed_PostgresEnumEntity : Keyed PostgresEnumEntity := {|
  key := fun e => KList [key (enum_name e); key (enum_file e); key (enum_line e);
    key (enum_full_path e); key (enum_module_path e); key (enum_type_ident e);
    key (enum_variants e); key (enum_to_sql_config e)] |}.
Proof. key_inj_solve. Defined.

#[export, refine] Instance keyed_PostgresOrdEntity : Keyed PostgresOrdEntity := {|
  key := fun o => KList [key (ord_name o); key (ord_file o); key (ord_line o);
    key (ord_full_path o); key (ord_module_path o); key (ord_type_ident o);
    key (ord_to_sql_config o)] |}.
Proof. key_inj_solve. Defined.

#[export, refine] Instance keyed_PostgresHashEntity : Keyed PostgresHashEntity := {|
  key := fun h => KList [key (hash_name h); key (hash_file h); key (hash_line h);
    key (hash_full_path h); key (hash_module_path h); key (hash_type_ident h);
    key (hash_to_sql_config h)] |}.
Proof. key_inj_solve. Defined.

#[export, refine] Instance keyed_PgTriggerEntity : Keyed PgTriggerEntity := {|
  key := fun t => KList [key (trg_function_name t); key (trg_to_sql_config t); key (trg_file t);
    key (trg_line t); key (trg_module_path t); key (trg_full_path t)] |}.
Proof. key_inj_solve. Defined.

#[export, refine] Instance keyed_AggregateTypeEntity : Keyed AggregateTypeEntity := {|
  key := fun a => KList [key (at_used_ty a); key (at_name a)] |}.
Proof. key_inj_solve. Defined.

#[export, refine] Instance keyed_FinalizeModify : Keyed FinalizeModify := {|
  key := fun m => variant (match m with ReadOnly => 0 | Shareable => 1 | ReadWrite => 2 end) [] |}.
Proof. key_inj_solve. Defined.

#[export, refine] Instance keyed_ParallelOption : Keyed ParallelOption := {|
  key := fun p => variant (match p with
    Parallel_Safe => 0 | Parallel_Restricted => 1 | Parallel_Unsafe => 2 end) [] |}.
Proof. key_inj_solve. Defined.

#[export, refine] Instance keyed_PgAggregateEntity : Keyed PgAggregateEntity := {|
  key := fun a => KList [key (agg_full_path a); key (agg_module_path a); key (agg_file a);
    key (agg_line a); key (agg_name a); key (agg_ordered_set a); key (agg_args a);
    key (agg_direct_args a); key (agg_stype a); key (agg_sfunc a); key (agg_finalfunc a);
    key (agg_finalfunc_modify a); key (agg_combinefunc a); key (agg_serialfunc a);
    key (agg_deserialfunc a); key (agg_initcond a); key (agg_msfunc a); key (agg_minvfunc a);
    key (agg_mstype a); key (agg_mfinalfunc a); key (agg_mfinalfunc_modify a);
    key (agg_minitcond a); key (agg_sortop a); key (agg_parallel a); key (agg_hypothetical a);
    key (agg_to_sql_config a)] |}.
Proof. key_inj_solve. Defined.

#[export, refine] Instance keyed_ControlFile : Keyed ControlFile := {|
  key := fun c => KList [key (ctl_comment c); key (ctl_default_version c);
    key (ctl_module_pathname c); key (ctl_relocatable c); key (ctl_superuser c);
    key (ctl_schema c); key (ctl_trusted c)] |}.
Proof. key_inj_solve. Defined.

#[export, refine] Instance keyed_SqlGraphEntity : Keyed SqlGraphEntity := {|
  key := fun e => match e with
    | Entity_ExtensionRoot e => variant 0 [key e]
    | Entity_Schema e => variant 1 [key e]
    | Entity_CustomSql e => variant 2 [key e]
    | Entity_Function e => variant 3 [key e]
    | Entity_Type e => variant 4 [key e]
    | Entity_BuiltinType e => variant 5 [key e]
    | Entity_Enum e => variant 6 [key e]
    | Entity_Ord e => variant 7 [key e]
    | Entity_Hash e => variant 8 [key e]
    | Entity_Aggregate e => variant 9 [key e]
    | Entity_Trigger e => variant 10 [key e]
    end |}.
Proof. key_inj_solve. Defined.
