(* ===== verification/Wire.v ===== *)
(** * The wire format: writer, reader and metadata codecs

    [pgrx-sql-entity-graph/src/section.rs], first half: the length functions
    ([str_len], [list_len], [sql_mapping_len], ...), [EntryWriter] and
    [EntryReader] with the codecs of the type metadata.

    [EntryWriter<N>] is the pair of its buffer and its position; its methods
    run in a const context, where a failed index is a compile error: [None].
    [EntryReader] is the pair of its byte slice and position; its methods
    return an [outcome], [Panic] standing for an out-of-range index or slice. *)
From S2P Require Import Prelude Metadata Entities.

(** ** Tags *)

Definition ENTITY_SENTINEL : Z := 0.
Definition ENTITY_SCHEMA : Z := 1.
Definition ENTITY_CUSTOM_SQL : Z := 2.
Definition ENTITY_FUNCTION : Z := 3.
Definition ENTITY_TYPE : Z := 4.
Definition ENTITY_ENUM : Z := 5.
Definition ENTITY_ORD : Z := 6.
Definition ENTITY_HASH : Z := 7.
Definition ENTITY_AGGREGATE : Z := 8.
Definition ENTITY_TRIGGER : Z := 9.

Definition POSITIONING_REF_FULL_PATH : Z := 1.
Definition POSITIONING_REF_NAME : Z := 2.

Definition SQL_DECLARED_TYPE : Z := 1.
Definition SQL_DECLARED_ENUM : Z := 2.
Definition SQL_DECLARED_FUNCTION : Z := 3.

Definition SQL_MAPPING_AS : Z := 1.
Definition SQL_MAPPING_ARRAY : Z := 2.
Definition SQL_MAPPING_NUMERIC : Z := 3.
Definition SQL_MAPPING_COMPOSITE : Z := 4.
Definition SQL_MAPPING_SKIP : Z := 5.

Definition RETURNS_ONE : Z := 1.
Definition RETURNS_SET_OF : Z := 2.
Definition RETURNS_TABLE : Z := 3.

Definition ARG_ERROR_SET_OF : Z := 1.
Definition ARG_ERROR_TABLE : Z := 2.
Definition ARG_ERROR_NESTED_ARRAY : Z := 3.
Definition ARG_ERROR_BARE_U8 : Z := 4.
Definition ARG_ERROR_SKIP_IN_ARRAY : Z := 5.
Definition ARG_ERROR_DATUM : Z := 6.
Definition ARG_ERROR_NOT_VALID : Z := 7.
Definition RESULT_OK : Z := 1.
Definition RESULT_ERR : Z := 2.

Definition TYPE_ORIGIN_THIS_EXTENSION : Z := 1.
Definition TYPE_ORIGIN_EXTERNAL : Z := 2.

Definition RETURNS_ERROR_NESTED_SET_OF : Z := 1.
Definition RETURNS_ERROR_NESTED_TABLE : Z := 2.
Definition RETURNS_ERROR_NESTED_ARRAY : Z := 3.
Definition RETURNS_ERROR_SET_OF_CONTAINING_TABLE : Z := 4.
Definition RETURNS_ERROR_TABLE_CONTAINING_SET_OF : Z := 5.
Definition RETURNS_ERROR_SET_OF_IN_ARRAY : Z := 6.
Definition RETURNS_ERROR_TABLE_IN_ARRAY : Z := 7.
Definition RETURNS_ERROR_BARE_U8 : Z := 8.
Definition RETURNS_ERROR_SKIP_IN_ARRAY : Z := 9.
Definition RETURNS_ERROR_DATUM : Z := 10.

Definition EXTERN_ARG_CREATE_OR_REPLACE : Z := 1.
Definition EXTERN_ARG_IMMUTABLE : Z := 2.
Definition EXTERN_ARG_STRICT : Z := 3.
Definition EXTERN_ARG_STABLE : Z := 4.
Definition EXTERN_ARG_VOLATILE : Z := 5.
Definition EXTERN_ARG_RAW : Z := 6.
Definition EXTERN_ARG_NO_GUARD : Z := 7.
Definition EXTERN_ARG_SECURITY_DEFINER : Z := 8.
Definition EXTERN_ARG_SECURITY_INVOKER : Z := 9.
Definition EXTERN_ARG_PARALLEL_SAFE : Z := 10.
Definition EXTERN_ARG_PARALLEL_UNSAFE : Z := 11.
Definition EXTERN_ARG_PARALLEL_RESTRICTED : Z := 12.
Definition EXTERN_ARG_SHOULD_PANIC : Z := 13.
Definition EXTERN_ARG_SCHEMA : Z := 14.
Definition EXTERN_ARG_SUPPORT : Z := 15.
Definition EXTERN_ARG_NAME : Z := 16.
Definition EXTERN_ARG_COST : Z := 17.
Definition EXTERN_ARG_REQUIRES : Z := 18.

Definition OPERATOR_CAST_DEFAULT : Z := 1.
Definition OPERATOR_CAST_ASSIGNMENT : Z := 2.
Definition OPERATOR_CAST_IMPLICIT : Z := 3.

Definition EXTERN_RET_NONE : Z := 1.
Definition EXTERN_RET_TYPE : Z := 2.
Definition EXTERN_RET_SET_OF : Z := 3.
Definition EXTERN_RET_ITERATED : Z := 4.
Definition EXTERN_RET_TRIGGER : Z := 5.

Definition AGGREGATE_FINALIZE_READ_ONLY : Z := 1.
Definition AGGREGATE_FINALIZE_SHAREABLE : Z := 2.
Definition AGGREGATE_FINALIZE_READ_WRITE : Z := 3.

Definition AGGREGATE_PARALLEL_SAFE : Z := 1.
Definition AGGREGATE_PARALLEL_RESTRICTED : Z := 2.
Definition AGGREGATE_PARALLEL_UNSAFE : Z := 3.

(** ** Lengths *)

Definition bytes_len (len : nat) : nat := 4 + len.
Definition str_len (value : string) : nat := bytes_len (length (as_bytes value)).
Definition bool_len : nat := 1.
Definition u8_len : nat := 1.
Definition u32_len : nat := 4.

Definition opt_len (inner : option nat) : nat :=
  1 + match inner with Some n => n | None => 0 end.

(** The length the macros put in for an optional value: the [bool] tag, and the
    value's length if there is one. *)
Definition opt_bool_len {A} (len : A -> nat) (o : option A) : nat :=
  match o with
  | Some v => bool_len + len v
  | None => bool_len
  end.

(** The [while] loop of [list_len], over the remaining slice. *)
Fixpoint list_len_loop (items : list nat) (total : nat) : nat :=
  match items with
  | [] => total
  | i :: rest => list_len_loop rest (total + i)
  end.
Definition list_len (items : list nat) : nat := list_len_loop items 4.

Definition sql_array_mapping_len (value : SqlArrayMappingRef) : nat :=
  match value with
  | SqlArrayMappingRef_As sql => u8_len + str_len sql
  | SqlArrayMappingRef_Numeric _ _ => u8_len + bool_len + u32_len + bool_len + u32_len
  | SqlArrayMappingRef_Composite => u8_len
  end.

Definition sql_mapping_len (value : SqlMappingRef) : nat :=
  match value with
  | SqlMappingRef_As sql => u8_len + str_len sql
  | SqlMappingRef_Numeric _ _ => u8_len + bool_len + u32_len + bool_len + u32_len
  | SqlMappingRef_Composite => u8_len
  | SqlMappingRef_Array v => u8_len + sql_array_mapping_len v
  | SqlMappingRef_Skip => u8_len
  end.

Fixpoint returns_table_loop (items : list SqlMappingRef) (total : nat) : nat :=
  match items with
  | [] => total
  | m :: rest => returns_table_loop rest (total + sql_mapping_len m)
  end.

Definition returns_len (value : ReturnsRef) : nat :=
  match value with
  | ReturnsRef_One m | ReturnsRef_SetOf m => u8_len + sql_mapping_len m
  | ReturnsRef_Table items => returns_table_loop items (u8_len + u32_len)
  end.

Definition argument_error_len (value : ArgumentError) : nat :=
  match value with
  | ArgumentError_NotValidAsArgument name => u8_len + str_len name
  | _ => u8_len
  end.

Definition argument_sql_len (value : result SqlMappingRef ArgumentError) : nat :=
  u8_len + match value with
           | rOk m => sql_mapping_len m
           | rErr err => argument_error_len err
           end.

Definition returns_error_len (_ : ReturnsError) : nat := u8_len.

Definition return_sql_len (value : result ReturnsRef ReturnsError) : nat :=
  u8_len + match value with
           | rOk r => returns_len r
           | rErr err => returns_error_len err
           end.

Definition function_metadata_type_len (resolution : option string)
    (argument_sql : result SqlMappingRef ArgumentError)
    (return_sql : result ReturnsRef ReturnsError) : nat :=
  bool_len
  + match resolution with Some type_ident => str_len type_ident + u8_len | None => 0 end
  + argument_sql_len argument_sql
  + return_sql_len return_sql.

(** ** [EntryWriter] *)

Record EntryWriter := {
  w_buf : bytes;
  w_pos : nat;
}.

(** A chain of [EntryWriter] methods. *)
Definition wr : Type := EntryWriter -> option EntryWriter.

Definition w_new (N : nat) : EntryWriter := {| w_buf := replicate N Byte.x00; w_pos := 0 |}.

(** [self.buf[self.pos] = value; self.pos += 1] *)
Definition w_put (value : byte) (w : EntryWriter) : option EntryWriter :=
  if (w_pos w <? length (w_buf w))%nat
  then Some {| w_buf := <[w_pos w := value]> (w_buf w); w_pos := S (w_pos w) |}
  else None.

Definition w_u8 (value : Z) : wr := w_put (u8_of_Z value).

Definition w_bool (value : bool) : wr := w_u8 (if value then 1 else 0).

Definition w_u32 (value : Z) : wr := fun w =>
  match to_le_bytes value with
  | [b0; b1; b2; b3] => w_put b0 w |>> w_put b1 |>> w_put b2 |>> w_put b3
  | _ => None
  end.

Definition w_type_origin (value : TypeOrigin) : wr :=
  w_u8 (match value with
        | ThisExtension => TYPE_ORIGIN_THIS_EXTENSION
        | External => TYPE_ORIGIN_EXTERNAL
        end).

Fixpoint w_bytes (value : bytes) (w : EntryWriter) : option EntryWriter :=
  match value with
  | [] => Some w
  | b :: rest => w_put b w |>> w_bytes rest
  end.

Definition w_str (value : string) : wr := fun w =>
  w_u32 (as_u32 (length (as_bytes value))) w |>> w_bytes (as_bytes value).

Definition w_numeric (precision scale : option Z) : wr := fun w =>
  w_u8 SQL_MAPPING_NUMERIC w
  |>> w_bool (match precision with Some _ => true | None => false end)
  |>> w_u32 (match precision with Some value => value | None => 0 end)
  |>> w_bool (match scale with Some _ => true | None => false end)
  |>> w_u32 (match scale with Some value => value | None => 0 end).

Definition w_sql_array_mapping (value : SqlArrayMappingRef) : wr := fun w =>
  match value with
  | SqlArrayMappingRef_As sql => w_u8 SQL_MAPPING_AS w |>> w_str sql
  | SqlArrayMappingRef_Numeric precision scale => w_numeric precision scale w
  | SqlArrayMappingRef_Composite => w_u8 SQL_MAPPING_COMPOSITE w
  end.

Definition w_sql_mapping (value : SqlMappingRef) : wr := fun w =>
  match value with
  | SqlMappingRef_As sql => w_u8 SQL_MAPPING_AS w |>> w_str sql
  | SqlMappingRef_Numeric precision scale => w_numeric precision scale w
  | SqlMappingRef_Composite => w_u8 SQL_MAPPING_COMPOSITE w
  | SqlMappingRef_Array v => w_u8 SQL_MAPPING_ARRAY w |>> w_sql_array_mapping v
  | SqlMappingRef_Skip => w_u8 SQL_MAPPING_SKIP w
  end.

(** A sequence of writes, one per element ([#( let writer = { .. }; )*] and the
    [while] loop of [returns]). *)
Fixpoint w_items {A} (f : A -> wr) (items : list A) (w : EntryWriter) : option EntryWriter :=
  match items with
  | [] => Some w
  | a :: rest => f a w |>> w_items f rest
  end.

(** [match o { Some(v) => writer.bool(true).f(v), None => writer.bool(false) }] *)
Definition w_opt {A} (f : A -> wr) (o : option A) : wr := fun w =>
  match o with
  | Some v => w_bool true w |>> f v
  | None => w_bool false w
  end.

(** [writer.u32(items.len() as u32)] followed by the items. *)
Definition w_list {A} (f : A -> wr) (items : list A) : wr := fun w =>
  w_u32 (as_u32 (length items)) w |>> w_items f items.

Definition w_returns (value : ReturnsRef) : wr := fun w =>
  match value with
  | ReturnsRef_One m => w_u8 RETURNS_ONE w |>> w_sql_mapping m
  | ReturnsRef_SetOf m => w_u8 RETURNS_SET_OF w |>> w_sql_mapping m
  | ReturnsRef_Table items =>
      w_u8 RETURNS_TABLE w |>> w_list w_sql_mapping items
  end.

Definition w_argument_error (value : ArgumentError) : wr := fun w =>
  match value with
  | ArgumentError_SetOf => w_u8 ARG_ERROR_SET_OF w
  | ArgumentError_Table => w_u8 ARG_ERROR_TABLE w
  | ArgumentError_NestedArray => w_u8 ARG_ERROR_NESTED_ARRAY w
  | ArgumentError_BareU8 => w_u8 ARG_ERROR_BARE_U8 w
  | ArgumentError_SkipInArray => w_u8 ARG_ERROR_SKIP_IN_ARRAY w
  | ArgumentError_Datum => w_u8 ARG_ERROR_DATUM w
  | ArgumentError_NotValidAsArgument name => w_u8 ARG_ERROR_NOT_VALID w |>> w_str name
  end.

Definition w_argument_sql (value : result SqlMappingRef ArgumentError) : wr := fun w =>
  match value with
  | rOk m => w_u8 RESULT_OK w |>> w_sql_mapping m
  | rErr err => w_u8 RESULT_ERR w |>> w_argument_error err
  end.

Definition w_returns_error (value : ReturnsError) : wr := fun w =>
  match value with
  | ReturnsError_NestedSetOf => w_u8 RETURNS_ERROR_NESTED_SET_OF w
  | ReturnsError_NestedTable => w_u8 RETURNS_ERROR_NESTED_TABLE w
  | ReturnsError_NestedArray => w_u8 RETURNS_ERROR_NESTED_ARRAY w
  | ReturnsError_SetOfContainingTable => w_u8 RETURNS_ERROR_SET_OF_CONTAINING_TABLE w
  | ReturnsError_TableContainingSetOf => w_u8 RETURNS_ERROR_TABLE_CONTAINING_SET_OF w
  | ReturnsError_SetOfInArray => w_u8 RETURNS_ERROR_SET_OF_IN_ARRAY w
  | ReturnsError_TableInArray => w_u8 RETURNS_ERROR_TABLE_IN_ARRAY w
  | ReturnsError_BareU8 => w_u8 RETURNS_ERROR_BARE_U8 w
  | ReturnsError_SkipInArray => w_u8 RETURNS_ERROR_SKIP_IN_ARRAY w
  | ReturnsError_Datum => w_u8 RETURNS_ERROR_DATUM w
  end.

Definition w_return_sql (value : result ReturnsRef ReturnsError) : wr := fun w =>
  match value with
  | rOk r => w_u8 RESULT_OK w |>> w_returns r
  | rErr err => w_u8 RESULT_ERR w |>> w_returns_error err
  end.

Definition w_function_metadata_type (resolution : option (string * TypeOrigin))
    (argument_sql : result SqlMappingRef ArgumentError)
    (return_sql : result ReturnsRef ReturnsError) : wr := fun w =>
  match resolution with
  | Some (type_ident, type_origin) =>
      w_bool true w |>> w_str type_ident |>> w_type_origin type_origin
  | None => w_bool false w
  end
  |>> w_argument_sql argument_sql |>> w_return_sql return_sql.

Definition w_finish (w : EntryWriter) : option bytes :=
  if (w_pos w =? length (w_buf w))%nat then Some (w_buf w) else None.


(** ** The section sentinel *)

Definition SECTION_SENTINEL_MAGIC : string := "pgrx".
Definition SECTION_SENTINEL_PAYLOAD_LEN : nat := u8_len + str_len SECTION_SENTINEL_MAGIC.
Definition SECTION_SENTINEL_ENTRY_LEN : nat := u32_len + SECTION_SENTINEL_PAYLOAD_LEN.

Definition SECTION_SENTINEL_PAYLOAD : option bytes :=
  w_u8 ENTITY_SENTINEL (w_new SECTION_SENTINEL_PAYLOAD_LEN)
  |>> w_str SECTION_SENTINEL_MAGIC
  |>> w_finish.

Definition schema_section_sentinel_entry : option bytes :=
  SECTION_SENTINEL_PAYLOAD |>> (fun payload =>
    w_u32 (as_u32 SECTION_SENTINEL_PAYLOAD_LEN) (w_new SECTION_SENTINEL_ENTRY_LEN)
    |>> w_bytes payload
    |>> w_finish).

(** ** Section names *)

Definition ELF_SECTION_NAME : string := ".pgrxsc".
Definition MACHO_SECTION_NAME : string := "__pgrxsc".
Definition MACHO_SECTION_PATH : string := "__DATA,__pgrxsc".
Definition LEGACY_ELF_SECTION_NAME : string := ".pgrx_schema".
Definition LEGACY_MACHO_SECTION_NAME : string := "__pgrx_schema".
Definition LEGACY_MACHO_SECTION_PATH : string := "__DATA,__pgrx_schema".

Definition is_schema_section_name (name : string) : bool :=
  (name =? ELF_SECTION_NAME)%string
  || (name =? MACHO_SECTION_NAME)%string
  || (name =? MACHO_SECTION_PATH)%string
  || (name =? LEGACY_ELF_SECTION_NAME)%string
  || (name =? LEGACY_MACHO_SECTION_NAME)%string
  || (name =? LEGACY_MACHO_SECTION_PATH)%string.
