(* ===== verification/Reader.v ===== *)
(** * The wire format: [EntryReader] and [decode_entities]

    [pgrx-sql-entity-graph/src/section.rs], second half.  [EntryReader] is its
    byte slice with its position; a method is a function in the state monad
    [rd] over [outcome], [Panic] standing for an index or a slice out of range.
    The reports [bail!]/[eyre!] build are the constructors of [section_error]. *)
From S2P Require Import Prelude Metadata Entities Wire.

Inductive section_error :=
| UnexpectedEnd
| InvalidTag (what : string) (tag : Z)
| InvalidUtf8
| InvalidDeclarationMapping (m : SqlMapping)
| DeclarationArgumentError (e : ArgumentError)
| TrailingBytes (n : nat)
| InvalidTrailingBytes
| ZeroLengthEntry
| InvalidPayloadLength.

Record EntryReader := {
  r_bytes : bytes;
  r_pos : nat;
}.

Definition rd (A : Type) : Type := EntryReader -> outcome section_error (A * EntryReader).

#[export] Instance rd_ret : MRet rd := fun A a r => Ok (a, r).
#[export] Instance rd_bind : MBind rd := fun A B f m r =>
  match m r with
  | Ok (a, r') => f a r'
  | Err e => Err e
  | Panic => Panic
  end.
Definition rd_fail {A} (e : section_error) : rd A := fun _ => Err e.

(** [&bytes[start..end]] *)
Definition slice (bs : bytes) (start stop : nat) : option bytes :=
  if (start <=? stop)%nat && (stop <=? length bs)%nat
  then Some (take (stop - start) (drop start bs))
  else None.

Definition r_new (bs : bytes) : EntryReader := {| r_bytes := bs; r_pos := 0 |}.
Definition r_seek (r : EntryReader) (pos : nat) : EntryReader :=
  {| r_bytes := r_bytes r; r_pos := pos |}.
Definition r_is_empty (r : EntryReader) : bool := (length (r_bytes r) <=? r_pos r)%nat.
(** [saturating_sub] is the subtraction of [nat]. *)
Definition r_remaining (r : EntryReader) : nat := length (r_bytes r) - r_pos r.

Definition read_u8 : rd Z := fun r =>
  if (r_remaining r <? 1)%nat then Err UnexpectedEnd
  else match r_bytes r !! r_pos r with
       | Some value => Ok (u8_to_Z value, r_seek r (r_pos r + 1))
       | None => Panic
       end.

Definition read_bool : rd bool :=
  tag ← read_u8;
  if tag =? 0 then mret false
  else if tag =? 1 then mret true
  else rd_fail (InvalidTag "bool" tag).

Definition read_u32 : rd Z := fun r =>
  if (r_remaining r <? 4)%nat then Err UnexpectedEnd
  else match slice (r_bytes r) (r_pos r) (r_pos r + 4) with
       | Some bs => Ok (from_le_bytes bs, r_seek r (r_pos r + 4))
       | None => Panic
       end.

(** [let start = self.pos; self.pos += len; &self.bytes[start..self.pos]] after
    the check of the remaining length. *)
Definition read_slice (len : nat) : rd bytes := fun r =>
  if (r_remaining r <? len)%nat then Err UnexpectedEnd
  else match slice (r_bytes r) (r_pos r) (r_pos r + len) with
       | Some bs => Ok (bs, r_seek r (r_pos r + len))
       | None => Panic
       end.

Definition read_bytes : rd bytes :=
  len ← read_u32;
  read_slice (Z.to_nat len).

(** [read_string] and [read_str] differ in the ownership of their result only. *)
Definition read_str : rd string :=
  bs ← read_bytes;
  if utf8_valid bs then mret (of_bytes bs) else rd_fail InvalidUtf8.

Definition read_string : rd string := read_str.

(** [if self.read_bool()? { Some(..) } else { None }] *)
Definition read_opt {A} (m : rd A) : rd (option A) :=
  present ← read_bool;
  if present : bool then v ← m; mret (Some v) else mret None.

Definition read_option_str : rd (option string) := read_opt read_str.
Definition read_option_string : rd (option string) := read_opt read_string.

(** [for _ in 0..count { items.push(..) }] *)
Fixpoint read_n {A} (count : nat) (m : rd A) : rd (list A) :=
  match count with
  | O => mret []
  | S count => x ← m; xs ← read_n count m; mret (x :: xs)
  end.

(** A [u32] count followed by that many items. *)
Definition read_list {A} (m : rd A) : rd (list A) :=
  count ← read_u32;
  read_n (Z.to_nat count) m.

(** ** Type metadata *)

Definition then_some {A} (b : bool) (a : A) : option A := if b then Some a else None.

Definition read_numeric : rd string :=
  has_precision ← read_bool;
  precision ← read_u32;
  has_scale ← read_bool;
  scale ← read_u32;
  mret (numeric_sql_string (then_some has_precision precision) (then_some has_scale scale)).

Definition read_sql_array_mapping_owned : rd SqlArrayMapping :=
  tag ← read_u8;
  if tag =? SQL_MAPPING_AS then s ← read_string; mret (SqlArrayMapping_As s)
  else if tag =? SQL_MAPPING_NUMERIC then s ← read_numeric; mret (SqlArrayMapping_As s)
  else if tag =? SQL_MAPPING_COMPOSITE then mret SqlArrayMapping_Composite
  else rd_fail (InvalidTag "sql array mapping" tag).

Definition read_sql_mapping_owned : rd SqlMapping :=
  tag ← read_u8;
  if tag =? SQL_MAPPING_AS then s ← read_string; mret (SqlMapping_As s)
  else if tag =? SQL_MAPPING_ARRAY then m ← read_sql_array_mapping_owned; mret (SqlMapping_Array m)
  else if tag =? SQL_MAPPING_NUMERIC then s ← read_numeric; mret (SqlMapping_As s)
  else if tag =? SQL_MAPPING_COMPOSITE then mret SqlMapping_Composite
  else if tag =? SQL_MAPPING_SKIP then mret SqlMapping_Skip
  else rd_fail (InvalidTag "sql mapping" tag).

Definition read_returns_owned : rd Returns :=
  tag ← read_u8;
  if tag =? RETURNS_ONE then m ← read_sql_mapping_owned; mret (Returns_One m)
  else if tag =? RETURNS_SET_OF then m ← read_sql_mapping_owned; mret (Returns_SetOf m)
  else if tag =? RETURNS_TABLE then ms ← read_list read_sql_mapping_owned; mret (Returns_Table ms)
  else rd_fail (InvalidTag "returns" tag).

Definition read_argument_error : rd ArgumentError :=
  tag ← read_u8;
  if tag =? ARG_ERROR_SET_OF then mret ArgumentError_SetOf
  else if tag =? ARG_ERROR_TABLE then mret ArgumentError_Table
  else if tag =? ARG_ERROR_NESTED_ARRAY then mret ArgumentError_NestedArray
  else if tag =? ARG_ERROR_BARE_U8 then mret ArgumentError_BareU8
  else if tag =? ARG_ERROR_SKIP_IN_ARRAY then mret ArgumentError_SkipInArray
  else if tag =? ARG_ERROR_DATUM then mret ArgumentError_Datum
  else if tag =? ARG_ERROR_NOT_VALID
    then s ← read_string; mret (ArgumentError_NotValidAsArgument s)
  else rd_fail (InvalidTag "argument error" tag).

Definition read_returns_error : rd ReturnsError :=
  tag ← read_u8;
  if tag =? RETURNS_ERROR_NESTED_SET_OF then mret ReturnsError_NestedSetOf
  else if tag =? RETURNS_ERROR_NESTED_TABLE then mret ReturnsError_NestedTable
  else if tag =? RETURNS_ERROR_NESTED_ARRAY then mret ReturnsError_NestedArray
  else if tag =? RETURNS_ERROR_SET_OF_CONTAINING_TABLE then mret ReturnsError_SetOfContainingTable
  else if tag =? RETURNS_ERROR_TABLE_CONTAINING_SET_OF then mret ReturnsError_TableContainingSetOf
  else if tag =? RETURNS_ERROR_SET_OF_IN_ARRAY then mret ReturnsError_SetOfInArray
  else if tag =? RETURNS_ERROR_TABLE_IN_ARRAY then mret ReturnsError_TableInArray
  else if tag =? RETURNS_ERROR_BARE_U8 then mret ReturnsError_BareU8
  else if tag =? RETURNS_ERROR_SKIP_IN_ARRAY then mret ReturnsError_SkipInArray
  else if tag =? RETURNS_ERROR_DATUM then mret ReturnsError_Datum
  else rd_fail (InvalidTag "returns error" tag).

Definition read_argument_sql_owned : rd (result SqlMapping ArgumentError) :=
  tag ← read_u8;
  if tag =? RESULT_OK then m ← read_sql_mapping_owned; mret (rOk m)
  else if tag =? RESULT_ERR then e ← read_argument_error; mret (rErr e)
  else rd_fail (InvalidTag "argument sql" tag).

Definition read_return_sql_owned : rd (result Returns ReturnsError) :=
  tag ← read_u8;
  if tag =? RESULT_OK then m ← read_returns_owned; mret (rOk m)
  else if tag =? RESULT_ERR then e ← read_returns_error; mret (rErr e)
  else rd_fail (InvalidTag "return sql" tag).

Definition read_type_origin : rd TypeOrigin :=
  tag ← read_u8;
  if tag =? TYPE_ORIGIN_THIS_EXTENSION then mret ThisExtension
  else if tag =? TYPE_ORIGIN_EXTERNAL then mret External
  else rd_fail (InvalidTag "type origin" tag).

Definition read_resolution : rd FunctionMetadataTypeResolutionEntity :=
  type_ident ← read_str;
  type_origin ← read_type_origin;
  mret {| res_type_ident := type_ident; res_type_origin := type_origin |}.

Definition read_function_metadata_type : rd FunctionMetadataTypeEntity :=
  resolution ← read_opt read_resolution;
  argument_sql ← read_argument_sql_owned;
  return_sql ← read_return_sql_owned;
  mret {| fmt_resolution := resolution;
          fmt_argument_sql := argument_sql; fmt_return_sql := return_sql |}.

(** ** Entity parts *)

Definition read_positioning_ref : rd PositioningRef :=
  tag ← read_u8;
  if tag =? POSITIONING_REF_FULL_PATH then s ← read_string; mret (FullPath s)
  else if tag =? POSITIONING_REF_NAME then s ← read_string; mret (Name s)
  else rd_fail (InvalidTag "positioning ref" tag).

Definition read_to_sql_config : rd ToSqlConfigEntity :=
  enabled ← read_bool;
  content ← read_option_str;
  mret {| cfg_enabled := enabled; cfg_content := content |}.

Definition read_used_type : rd UsedTypeEntity :=
  ty_source ← read_str;
  full_path ← read_str;
  composite_type ← read_option_str;
  variadic ← read_bool;
  default ← read_option_str;
  optional ← read_bool;
  metadata ← read_function_metadata_type;
  mret {| ut_ty_source := ty_source; ut_full_path := full_path;
          ut_composite_type := composite_type; ut_variadic := variadic;
          ut_default := default; ut_optional := optional; ut_metadata := metadata |}.

Definition read_pg_extern_argument : rd PgExternArgumentEntity :=
  pattern ← read_str;
  used_ty ← read_used_type;
  mret {| arg_pattern := pattern; arg_used_ty := used_ty |}.

Definition read_iterated_item : rd PgExternReturnEntityIteratedItem :=
  name ← read_option_str;
  ty ← read_used_type;
  mret {| it_ty := ty; it_name := name |}.

Definition read_pg_extern_return : rd PgExternReturnEntity :=
  tag ← read_u8;
  if tag =? EXTERN_RET_NONE then mret Return_None
  else if tag =? EXTERN_RET_TYPE then ty ← read_used_type; mret (Return_Type ty)
  else if tag =? EXTERN_RET_SET_OF then ty ← read_used_type; mret (Return_SetOf ty)
  else if tag =? EXTERN_RET_ITERATED
    then tys ← read_list read_iterated_item; mret (Return_Iterated tys)
  else if tag =? EXTERN_RET_TRIGGER then mret Return_Trigger
  else rd_fail (InvalidTag "extern return" tag).

Definition read_extern_arg : rd ExternArgs :=
  tag ← read_u8;
  if tag =? EXTERN_ARG_CREATE_OR_REPLACE then mret CreateOrReplace
  else if tag =? EXTERN_ARG_IMMUTABLE then mret Immutable
  else if tag =? EXTERN_ARG_STRICT then mret Strict
  else if tag =? EXTERN_ARG_STABLE then mret Stable
  else if tag =? EXTERN_ARG_VOLATILE then mret Volatile
  else if tag =? EXTERN_ARG_RAW then mret Raw
  else if tag =? EXTERN_ARG_NO_GUARD then mret NoGuard
  else if tag =? EXTERN_ARG_SECURITY_DEFINER then mret SecurityDefiner
  else if tag =? EXTERN_ARG_SECURITY_INVOKER then mret SecurityInvoker
  else if tag =? EXTERN_ARG_PARALLEL_SAFE then mret ParallelSafe
  else if tag =? EXTERN_ARG_PARALLEL_UNSAFE then mret ParallelUnsafe
  else if tag =? EXTERN_ARG_PARALLEL_RESTRICTED then mret ParallelRestricted
  else if tag =? EXTERN_ARG_SHOULD_PANIC then s ← read_string; mret (ShouldPanic s)
  else if tag =? EXTERN_ARG_SCHEMA then s ← read_string; mret (Schema s)
  else if tag =? EXTERN_ARG_SUPPORT then p ← read_positioning_ref; mret (Support p)
  else if tag =? EXTERN_ARG_NAME then s ← read_string; mret (ExternName s)
  else if tag =? EXTERN_ARG_COST then s ← read_string; mret (Cost s)
  else if tag =? EXTERN_ARG_REQUIRES
    then items ← read_list read_positioning_ref; mret (Requires items)
  else rd_fail (InvalidTag "extern arg" tag).

Definition read_search_path : rd (option (list string)) :=
  present ← read_bool;
  if negb present then mret None
  else values ← read_list read_str; mret (Some values).

Definition read_operator : rd PgOperatorEntity :=
  opname ← read_option_str;
  commutator ← read_option_str;
  negator ← read_option_str;
  restrict ← read_option_str;
  join ← read_option_str;
  hashes ← read_bool;
  merges ← read_bool;
  mret {| op_opname := opname; op_commutator := commutator; op_negator := negator;
          op_restrict := restrict; op_join := join; op_hashes := hashes; op_merges := merges |}.

Definition read_cast : rd PgCastEntity :=
  tag ← read_u8;
  if tag =? OPERATOR_CAST_DEFAULT then mret Cast_Default
  else if tag =? OPERATOR_CAST_ASSIGNMENT then mret Cast_Assignment
  else if tag =? OPERATOR_CAST_IMPLICIT then mret Cast_Implicit
  else rd_fail (InvalidTag "cast" tag).

(** [name.split("::").last()]: what follows the last ["::"] of the name, found
    left to right without overlaps ([split] yields at least one item, so the
    [ok_or_else] of the caller never fires). *)
Fixpoint split_last_from (s current : string) : string :=
  match s with
  | EmptyString => current
  | String c rest =>
      match c, rest with
      | ":"%char, String ":"%char rest' => split_last_from rest' EmptyString
      | _, _ => split_last_from rest (current +:+ String c EmptyString)
      end
  end.
Definition split_last (s : string) : string := split_last_from s EmptyString.

Definition read_sql_declared : rd SqlDeclaredEntity :=
  kind ← read_u8;
  name ← read_string;
  if (kind =? SQL_DECLARED_TYPE) || (kind =? SQL_DECLARED_ENUM) then
    type_ident ← read_string;
    mapping ← read_argument_sql_owned;
    match mapping with
    | rOk (SqlMapping_As sql) =>
        let data := {| dt_sql := sql; dt_name := name; dt_type_ident := type_ident |} in
        mret (if kind =? SQL_DECLARED_TYPE then Declared_Type data else Declared_Enum data)
    | rOk other => rd_fail (InvalidDeclarationMapping other)
    | rErr err => rd_fail (DeclarationArgumentError err)
    end
  else if kind =? SQL_DECLARED_FUNCTION then
    mret (Declared_Function {| df_sql := split_last name; df_name := name |})
  else rd_fail (InvalidTag "SQL declared" kind).

Definition read_aggregate_type : rd AggregateTypeEntity :=
  name ← read_option_str;
  used_ty ← read_used_type;
  mret {| at_used_ty := used_ty; at_name := name |}.

Definition read_aggregate_type_list : rd (list AggregateTypeEntity) :=
  read_list read_aggregate_type.

Definition read_finalize_modify : rd FinalizeModify :=
  tag ← read_u8;
  if tag =? AGGREGATE_FINALIZE_READ_ONLY then mret ReadOnly
  else if tag =? AGGREGATE_FINALIZE_SHAREABLE then mret Shareable
  else if tag =? AGGREGATE_FINALIZE_READ_WRITE then mret ReadWrite
  else rd_fail (InvalidTag "finalize modify" tag).

Definition read_parallel_option : rd ParallelOption :=
  tag ← read_u8;
  if tag =? AGGREGATE_PARALLEL_SAFE then mret Parallel_Safe
  else if tag =? AGGREGATE_PARALLEL_RESTRICTED then mret Parallel_Restricted
  else if tag =? AGGREGATE_PARALLEL_UNSAFE then mret Parallel_Unsafe
  else rd_fail (InvalidTag "parallel option" tag).

Definition r_finish : rd unit := fun r =>
  if r_is_empty r then Ok (tt, r) else Err (TrailingBytes (r_remaining r)).

(** ** [decode_entity], one definition per arm of its [match] *)

Definition decode_schema : rd SqlGraphEntity :=
  module_path ← read_str;
  name ← read_str;
  file ← read_str;
  line ← read_u32;
  mret (Entity_Schema
    {| schema_module_path := module_path; schema_name := name;
       schema_file := file; schema_line := line |}).

Definition decode_custom_sql : rd SqlGraphEntity :=
  sql ← read_str;
  module_path ← read_str;
  full_path ← read_str;
  file ← read_str;
  line ← read_u32;
  name ← read_str;
  bootstrap ← read_bool;
  finalize ← read_bool;
  requires ← read_list read_positioning_ref;
  creates ← read_list read_sql_declared;
  mret (Entity_CustomSql
    {| sql_module_path := module_path; sql_full_path := full_path; sql_sql := sql;
       sql_file := file; sql_line := line; sql_name := name; sql_bootstrap := bootstrap;
       sql_finalize := finalize; sql_requires := requires; sql_creates := creates |}).

Definition decode_function : rd SqlGraphEntity :=
  name ← read_str;
  unaliased_name ← read_str;
  module_path ← read_str;
  full_path ← read_str;
  fn_args ← read_list read_pg_extern_argument;
  fn_return ← read_pg_extern_return;
  schema ← read_option_str;
  file ← read_str;
  line ← read_u32;
  extern_attrs ← read_list read_extern_arg;
  search_path ← read_search_path;
  operator ← read_opt read_operator;
  cast ← read_opt read_cast;
  to_sql_config ← read_to_sql_config;
  mret (Entity_Function
    {| fn_name := name; fn_unaliased_name := unaliased_name; fn_module_path := module_path;
       fn_full_path := full_path; fn_fn_args := fn_args; fn_fn_return := fn_return;
       fn_schema := schema; fn_file := file; fn_line := line; fn_extern_attrs := extern_attrs;
       fn_search_path := search_path; fn_operator := operator; fn_cast := cast;
       fn_to_sql_config := to_sql_config |}).

(** [alignment] is read as a [u32] and widened to [usize]. *)
Definition decode_type : rd SqlGraphEntity :=
  name ← read_str;
  file ← read_str;
  line ← read_u32;
  module_path ← read_str;
  full_path ← read_str;
  type_ident ← read_str;
  in_fn_path ← read_str;
  out_fn_path ← read_str;
  receive_fn_path ← read_option_str;
  send_fn_path ← read_option_str;
  to_sql_config ← read_to_sql_config;
  alignment ← read_opt read_u32;
  mret (Entity_Type
    {| type_name := name; type_file := file; type_line := line; type_full_path := full_path;
       type_module_path := module_path; type_type_ident := type_ident;
       type_in_fn_path := in_fn_path; type_out_fn_path := out_fn_path;
       type_receive_fn_path := receive_fn_path; type_send_fn_path := send_fn_path;
       type_to_sql_config := to_sql_config; type_alignment := alignment |}).

Definition decode_enum : rd SqlGraphEntity :=
  name ← read_str;
  file ← read_str;
  line ← read_u32;
  module_path ← read_str;
  full_path ← read_str;
  type_ident ← read_str;
  variants ← read_list read_str;
  to_sql_config ← read_to_sql_config;
  mret (Entity_Enum
    {| enum_name := name; enum_file := file; enum_line := line; enum_full_path := full_path;
       enum_module_path := module_path; enum_type_ident := type_ident;
       enum_variants := variants; enum_to_sql_config := to_sql_config |}).

Definition decode_ord : rd SqlGraphEntity :=
  name ← read_str;
  file ← read_str;
  line ← read_u32;
  full_path ← read_str;
  module_path ← read_str;
  type_ident ← read_str;
  to_sql_config ← read_to_sql_config;
  mret (Entity_Ord
    {| ord_name := name; ord_file := file; ord_line := line; ord_full_path := full_path;
       ord_module_path := module_path; ord_type_ident := type_ident;
       ord_to_sql_config := to_sql_config |}).

Definition decode_hash : rd SqlGraphEntity :=
  name ← read_str;
  file ← read_str;
  line ← read_u32;
  full_path ← read_str;
  module_path ← read_str;
  type_ident ← read_str;
  to_sql_config ← read_to_sql_config;
  mret (Entity_Hash
    {| hash_name := name; hash_file := file; hash_line := line; hash_full_path := full_path;
       hash_module_path := module_path; hash_type_ident := type_ident;
       hash_to_sql_config := to_sql_config |}).

Definition decode_aggregate : rd SqlGraphEntity :=
  full_path ← read_str;
  module_path ← read_str;
  file ← read_str;
  line ← read_u32;
  name ← read_str;
  ordered_set ← read_bool;
  args ← read_aggregate_type_list;
  direct_args ← read_opt read_aggregate_type_list;
  stype ← read_aggregate_type;
  sfunc ← read_str;
  finalfunc ← read_option_str;
  finalfunc_modify ← read_opt read_finalize_modify;
  combinefunc ← read_option_str;
  serialfunc ← read_option_str;
  deserialfunc ← read_option_str;
  initcond ← read_option_str;
  msfunc ← read_option_str;
  minvfunc ← read_option_str;
  mstype ← read_opt read_used_type;
  mfinalfunc ← read_option_str;
  mfinalfunc_modify ← read_opt read_finalize_modify;
  minitcond ← read_option_str;
  sortop ← read_option_str;
  parallel ← read_opt read_parallel_option;
  hypothetical ← read_bool;
  to_sql_config ← read_to_sql_config;
  mret (Entity_Aggregate
    {| agg_full_path := full_path; agg_module_path := module_path; agg_file := file;
       agg_line := line; agg_name := name; agg_ordered_set := ordered_set; agg_args := args;
       agg_direct_args := direct_args; agg_stype := stype; agg_sfunc := sfunc;
       agg_finalfunc := finalfunc; agg_finalfunc_modify := finalfunc_modify;
       agg_combinefunc := combinefunc; agg_serialfunc := serialfunc;
       agg_deserialfunc := deserialfunc; agg_initcond := initcond; agg_msfunc := msfunc;
       agg_minvfunc := minvfunc; agg_mstype := mstype; agg_mfinalfunc := mfinalfunc;
       agg_mfinalfunc_modify := mfinalfunc_modify; agg_minitcond := minitcond;
       agg_sortop := sortop; agg_parallel := parallel; agg_hypothetical := hypothetical;
       agg_to_sql_config := to_sql_config |}).

Definition decode_trigger : rd SqlGraphEntity :=
  function_name ← read_str;
  file ← read_str;
  line ← read_u32;
  module_path ← read_str;
  full_path ← read_str;
  to_sql_config ← read_to_sql_config;
  mret (Entity_Trigger
    {| trg_function_name := function_name; trg_to_sql_config := to_sql_config;
       trg_file := file; trg_line := line; trg_module_path := module_path;
       trg_full_path := full_path |}).

Definition decode_entity_body : rd SqlGraphEntity :=
  tag ← read_u8;
  if tag =? ENTITY_SCHEMA then decode_schema
  else if tag =? ENTITY_CUSTOM_SQL then decode_custom_sql
  else if tag =? ENTITY_FUNCTION then decode_function
  else if tag =? ENTITY_TYPE then decode_type
  else if tag =? ENTITY_ENUM then decode_enum
  else if tag =? ENTITY_ORD then decode_ord
  else if tag =? ENTITY_HASH then decode_hash
  else if tag =? ENTITY_AGGREGATE then decode_aggregate
  else if tag =? ENTITY_TRIGGER then decode_trigger
  else rd_fail (InvalidTag "entity" tag).

Definition decode_entity_rd : rd SqlGraphEntity :=
  entity ← decode_entity_body;
  r_finish;;
  mret entity.

Definition decode_entity (payload : bytes) : outcome section_error SqlGraphEntity :=
  '(entity, _) ← decode_entity_rd (r_new payload);
  Ok entity.

(** ** [entry_payloads] and [decode_entities] *)

Definition all_zero (bs : bytes) : bool := forallb (fun b => u8_to_Z b =? 0) bs.

(** The [while] loop.  Each turn that does not leave it moves the position by
    at least five bytes, so [length section] turns are enough; running out of
    fuel is [Panic], so that a theorem excluding [Panic] shows termination. *)
Fixpoint entry_payloads_loop (fuel : nat) (reader : EntryReader) (out : list bytes)
    : outcome section_error (list bytes) :=
  if r_is_empty reader then Ok out
  else match fuel with
  | O => Panic
  | S fuel =>
    if (r_remaining reader <? 4)%nat then
      tail ← unwrap (slice (r_bytes reader) (r_pos reader) (length (r_bytes reader)));
      if all_zero tail then Ok out else Err InvalidTrailingBytes
    else
      '(len, reader) ← read_u32 reader;
      let len := Z.to_nat len in
      if (len =? 0)%nat then
        tail ← unwrap (slice (r_bytes reader) (r_pos reader) (length (r_bytes reader)));
        if all_zero tail then Ok out else Err ZeroLengthEntry
      else if (r_remaining reader <? len)%nat then Err InvalidPayloadLength
      else
        payload ← unwrap (slice (r_bytes reader) (r_pos reader) (r_pos reader + len));
        entry_payloads_loop fuel (r_seek reader (r_pos reader + len)) (out ++ [payload])
  end.

Definition entry_payloads (section : bytes) : outcome section_error (list bytes) :=
  entry_payloads_loop (length section) (r_new section) [].

Definition is_sentinel (payload : bytes) : bool :=
  bool_decide (Some payload = SECTION_SENTINEL_PAYLOAD).

Definition decode_entities (section : bytes) : outcome section_error (list SqlGraphEntity) :=
  payloads ← entry_payloads section;
  collect decode_entity (filter (fun payload => is_sentinel payload = false) payloads).
