(* ===== verification/Producers.v ===== *)
(** * The producers of schema entries

    The code the [#[pg_extern]], [#[pg_aggregate]], [#[derive(PostgresType)]],
    [extension_sql!] ... macros generate: for each item, the length expression
    ([section_len_tokens]), the chain of [EntryWriter] calls
    ([section_writer_tokens]) and the entity the item denotes
    ([entity_tokens] / [ToTokens]).

    The inputs are the macro's parsed item after interpolation: what
    [stringify!], [module_path!], [file!] and [line!] expand to is a [string] or
    a [Z] of the item or of its [CallSite], a Rust type is its [SqlTranslatable]
    impl with its token text. *)
From S2P Require Import Prelude Metadata Entities Wire Reader.

(** [module_path!()], [file!()] and [line!()] where the macro is expanded. *)
Record CallSite := {
  site_module_path : string;
  site_file : string;
  site_line : Z;
}.

(** ** [used_type.rs] *)

Record UsedType := {
  uty_resolved_ty : SqlTranslatable;
  uty_resolved_ty_string : string;
  uty_composite_type : option string;
  uty_variadic : bool;
  uty_default : option string;
  uty_optional : bool;
}.

Definition has_explicit_composite (u : UsedType) : bool :=
  match uty_composite_type u with Some _ => true | None => false end.

Definition used_type_entity (u : UsedType) : UsedTypeEntity :=
  let T := uty_resolved_ty u in
  let metadata :=
    if has_explicit_composite u then fmt_sql_only (argument_sql T) (return_sql T)
    else translatable_entity T in
  {| ut_ty_source := uty_resolved_ty_string u;
     ut_full_path := uty_resolved_ty_string u;
     ut_composite_type := uty_composite_type u;
     ut_variadic := uty_variadic u;
     ut_default := uty_default u;
     ut_optional := uty_optional u;
     ut_metadata := metadata |}.

Definition used_type_section_len (u : UsedType) : nat :=
  let T := uty_resolved_ty u in
  let composite_len := opt_bool_len str_len (uty_composite_type u) in
  let default_len := opt_bool_len str_len (uty_default u) in
  let metadata_len :=
    if has_explicit_composite u
    then function_metadata_type_len None (ARGUMENT_SQL T) (RETURN_SQL T)
    else function_metadata_type_len (Some (TYPE_IDENT T)) (ARGUMENT_SQL T) (RETURN_SQL T) in
  str_len (uty_resolved_ty_string u) + str_len (uty_resolved_ty_string u)
  + composite_len + bool_len + default_len + bool_len + metadata_len.

Definition used_type_section_writer (u : UsedType) : wr := fun w =>
  let T := uty_resolved_ty u in
  w_str (uty_resolved_ty_string u) w
  |>> w_str (uty_resolved_ty_string u)
  |>> w_opt w_str (uty_composite_type u)
  |>> w_bool (uty_variadic u)
  |>> w_opt w_str (uty_default u)
  |>> w_bool (uty_optional u)
  |>> w_function_metadata_type
        (if has_explicit_composite u then None else Some (TYPE_IDENT T, TYPE_ORIGIN T))
        (ARGUMENT_SQL T) (RETURN_SQL T).

(** ** [positioning_ref.rs], [to_sql/mod.rs], [extern_args.rs] *)

Definition positioning_ref_section_len (p : PositioningRef) : nat :=
  match p with FullPath item | Name item => u8_len + str_len item end.

Definition positioning_ref_section_writer (p : PositioningRef) : wr := fun w =>
  match p with
  | FullPath item => w_u8 POSITIONING_REF_FULL_PATH w |>> w_str item
  | Name item => w_u8 POSITIONING_REF_NAME w |>> w_str item
  end.

(** [ToSqlConfig] and [ToSqlConfigEntity] have the same two fields. *)
Definition to_sql_config_section_len (c : ToSqlConfigEntity) : nat :=
  match cfg_content c with
  | Some content => bool_len + bool_len + str_len content
  | None => bool_len + bool_len
  end.

Definition to_sql_config_section_writer (c : ToSqlConfigEntity) : wr := fun w =>
  match cfg_content c with
  | Some content => w_bool (cfg_enabled c) w |>> w_bool true |>> w_str content
  | None => w_bool (cfg_enabled c) w |>> w_bool false
  end.

Definition overrides_default (c : ToSqlConfigEntity) : bool :=
  negb (cfg_enabled c) || match cfg_content c with Some _ => true | None => false end.

Definition extern_args_section_len (a : ExternArgs) : nat :=
  match a with
  | CreateOrReplace | Immutable | Strict | Stable | Volatile | Raw | NoGuard
  | SecurityDefiner | SecurityInvoker | ParallelSafe | ParallelUnsafe | ParallelRestricted =>
      u8_len
  | ShouldPanic value | Schema value | ExternName value | Cost value => u8_len + str_len value
  | Support item => u8_len + positioning_ref_section_len item
  | Requires items => u8_len + list_len (map positioning_ref_section_len items)
  end.

Definition extern_args_section_writer (a : ExternArgs) : wr := fun w =>
  match a with
  | CreateOrReplace => w_u8 EXTERN_ARG_CREATE_OR_REPLACE w
  | Immutable => w_u8 EXTERN_ARG_IMMUTABLE w
  | Strict => w_u8 EXTERN_ARG_STRICT w
  | Stable => w_u8 EXTERN_ARG_STABLE w
  | Volatile => w_u8 EXTERN_ARG_VOLATILE w
  | Raw => w_u8 EXTERN_ARG_RAW w
  | NoGuard => w_u8 EXTERN_ARG_NO_GUARD w
  | SecurityDefiner => w_u8 EXTERN_ARG_SECURITY_DEFINER w
  | SecurityInvoker => w_u8 EXTERN_ARG_SECURITY_INVOKER w
  | ParallelSafe => w_u8 EXTERN_ARG_PARALLEL_SAFE w
  | ParallelUnsafe => w_u8 EXTERN_ARG_PARALLEL_UNSAFE w
  | ParallelRestricted => w_u8 EXTERN_ARG_PARALLEL_RESTRICTED w
  | ShouldPanic value => w_u8 EXTERN_ARG_SHOULD_PANIC w |>> w_str value
  | Schema value => w_u8 EXTERN_ARG_SCHEMA w |>> w_str value
  | Support item => w_u8 EXTERN_ARG_SUPPORT w |>> positioning_ref_section_writer item
  | ExternName value => w_u8 EXTERN_ARG_NAME w |>> w_str value
  | Cost value => w_u8 EXTERN_ARG_COST w |>> w_str value
  | Requires items => w_u8 EXTERN_ARG_REQUIRES w |>> w_list positioning_ref_section_writer items
  end.

(** ** [pg_extern/attribute.rs]: the arguments of [#[pg_extern(..)]] *)

Inductive Attribute :=
| Attr_Immutable
| Attr_Strict
| Attr_Stable
| Attr_Volatile
| Attr_Raw
| Attr_NoGuard
| Attr_CreateOrReplace
| Attr_SecurityDefiner
| Attr_SecurityInvoker
| Attr_ParallelSafe
| Attr_ParallelUnsafe
| Attr_ParallelRestricted
| Attr_ShouldPanic (value : string)
| Attr_Schema (value : string)
| Attr_Support (item : PositioningRef)
| Attr_Name (value : string)
| Attr_Cost (value : string)
| Attr_Requires (items : list PositioningRef)
| Attr_Sql (config : ToSqlConfigEntity).

Definition as_extern_arg (a : Attribute) : option ExternArgs :=
  match a with
  | Attr_CreateOrReplace => Some CreateOrReplace
  | Attr_Immutable => Some Immutable
  | Attr_Strict => Some Strict
  | Attr_Stable => Some Stable
  | Attr_Volatile => Some Volatile
  | Attr_Raw => Some Raw
  | Attr_NoGuard => Some NoGuard
  | Attr_SecurityDefiner => Some SecurityDefiner
  | Attr_SecurityInvoker => Some SecurityInvoker
  | Attr_ParallelSafe => Some ParallelSafe
  | Attr_ParallelUnsafe => Some ParallelUnsafe
  | Attr_ParallelRestricted => Some ParallelRestricted
  | Attr_ShouldPanic v => Some (ShouldPanic v)
  | Attr_Schema v => Some (Schema v)
  | Attr_Support v => Some (Support v)
  | Attr_Name v => Some (ExternName v)
  | Attr_Cost v => Some (Cost v)
  | Attr_Requires items => Some (Requires items)
  | Attr_Sql _ => None
  end.

(** ** [pg_extern/argument.rs], [cast.rs], [search_path.rs], [operator.rs], [returning.rs] *)

Record PgExternArgument := {
  pea_pat : string;
  pea_used_ty : UsedType;
}.

Definition pg_extern_argument_entity (a : PgExternArgument) : PgExternArgumentEntity :=
  {| arg_pattern := pea_pat a; arg_used_ty := used_type_entity (pea_used_ty a) |}.

Definition pg_extern_argument_section_len (a : PgExternArgument) : nat :=
  str_len (pea_pat a) + used_type_section_len (pea_used_ty a).

Definition pg_extern_argument_section_writer (a : PgExternArgument) : wr := fun w =>
  w_str (pea_pat a) w |>> used_type_section_writer (pea_used_ty a).

Definition cast_section_len (_ : PgCastEntity) : nat := u8_len.

Definition cast_section_writer (c : PgCastEntity) : wr :=
  match c with
  | Cast_Default => w_u8 OPERATOR_CAST_DEFAULT
  | Cast_Assignment => w_u8 OPERATOR_CAST_ASSIGNMENT
  | Cast_Implicit => w_u8 OPERATOR_CAST_IMPLICIT
  end.

(** [SearchPath]: an optional [@], an optional [$], an identifier, an optional [@]. *)
Record SearchPath := {
  sp_at_start : bool;
  sp_dollar : bool;
  sp_path : string;
  sp_at_end : bool;
}.

Definition search_path_str (p : SearchPath) : string :=
  (if sp_at_start p then "@" else "") +:+ (if sp_dollar p then "$" else "")
  +:+ sp_path p +:+ (if sp_at_end p then "@" else "").

Definition search_path_section_len (fields : list SearchPath) : nat :=
  bool_len + list_len (map (fun field => str_len (search_path_str field)) fields).

Definition search_path_section_writer (fields : list SearchPath) : wr := fun w =>
  w_bool true w |>> w_list (fun field => w_str (search_path_str field)) fields.

(** [replacen(' ', "", n)]: the first [n] spaces are removed. *)
Fixpoint replacen_space (n : nat) (s : string) : string :=
  match s with
  | EmptyString => EmptyString
  | String c rest =>
      match n with
      | O => s
      | S n' => if Ascii.eqb c " " then replacen_space n' rest else String c (replacen_space n rest)
      end
  end.

(** [replace(' ', "")] *)
Fixpoint remove_spaces (s : string) : string :=
  match s with
  | EmptyString => EmptyString
  | String c rest => if Ascii.eqb c " " then remove_spaces rest else String c (remove_spaces rest)
  end.

(** The fields [opname] ... [join] hold the token text of the attribute. *)
Record PgOperator := {
  pop_opname : option string;
  pop_commutator : option string;
  pop_negator : option string;
  pop_restrict : option string;
  pop_join : option string;
  pop_hashes : bool;
  pop_merges : bool;
}.

Definition operator_entity (o : PgOperator) : PgOperatorEntity :=
  {| op_opname := replacen_space 256 <$> pop_opname o;
     op_commutator := remove_spaces <$> pop_commutator o;
     op_negator := remove_spaces <$> pop_negator o;
     op_restrict := remove_spaces <$> pop_restrict o;
     op_join := remove_spaces <$> pop_join o;
     op_hashes := pop_hashes o;
     op_merges := pop_merges o |}.

Definition operator_section_len (o : PgOperator) : nat :=
  let attr_len := opt_bool_len (fun item => str_len (remove_spaces item)) in
  opt_bool_len (fun item => str_len (replacen_space 256 item)) (pop_opname o)
  + attr_len (pop_commutator o) + attr_len (pop_negator o) + attr_len (pop_restrict o)
  + attr_len (pop_join o) + bool_len + bool_len.

Definition operator_section_writer (o : PgOperator) : wr := fun w =>
  let attr_writer := w_opt (fun item => w_str (remove_spaces item)) in
  w_opt (fun item => w_str (replacen_space 256 item)) (pop_opname o) w
  |>> attr_writer (pop_commutator o)
  |>> attr_writer (pop_negator o)
  |>> attr_writer (pop_restrict o)
  |>> attr_writer (pop_join o)
  |>> w_bool (pop_hashes o)
  |>> w_bool (pop_merges o).

(** [rii_name] is the text of [stringify!(#name)]. *)
Record ReturningIteratedItem := {
  rii_used_ty : UsedType;
  rii_name : option string;
}.

Inductive Returning :=
| Returning_None
| Returning_Type (ty : UsedType)
| Returning_SetOf (ty : UsedType)
| Returning_Iterated (tys : list ReturningIteratedItem).

Definition iterated_item_entity (i : ReturningIteratedItem) : PgExternReturnEntityIteratedItem :=
  {| it_ty := used_type_entity (rii_used_ty i); it_name := rii_name i |}.

Definition iterated_item_section_len (i : ReturningIteratedItem) : nat :=
  used_type_section_len (rii_used_ty i) + opt_bool_len str_len (rii_name i).

Definition iterated_item_section_writer (i : ReturningIteratedItem) : wr := fun w =>
  w_opt w_str (rii_name i) w |>> used_type_section_writer (rii_used_ty i).

Definition returning_entity (r : Returning) : PgExternReturnEntity :=
  match r with
  | Returning_None => Return_None
  | Returning_Type ty => Return_Type (used_type_entity ty)
  | Returning_SetOf ty => Return_SetOf (used_type_entity ty)
  | Returning_Iterated items => Return_Iterated (map iterated_item_entity items)
  end.

Definition returning_section_len (r : Returning) : nat :=
  match r with
  | Returning_None => u8_len
  | Returning_Type ty | Returning_SetOf ty => u8_len + used_type_section_len ty
  | Returning_Iterated items => u8_len + list_len (map iterated_item_section_len items)
  end.

Definition returning_section_writer (r : Returning) : wr := fun w =>
  match r with
  | Returning_None => w_u8 EXTERN_RET_NONE w
  | Returning_Type ty => w_u8 EXTERN_RET_TYPE w |>> used_type_section_writer ty
  | Returning_SetOf ty => w_u8 EXTERN_RET_SET_OF w |>> used_type_section_writer ty
  | Returning_Iterated items =>
      w_u8 EXTERN_RET_ITERATED w |>> w_list iterated_item_section_writer items
  end.

(** ** [aggregate/aggregate_type.rs] *)

Record AggregateType := {
  aty_used_ty : UsedType;
  aty_name : option string;
}.

Definition aggregate_type_entity (a : AggregateType) : AggregateTypeEntity :=
  {| at_used_ty := used_type_entity (aty_used_ty a); at_name := aty_name a |}.

Definition aggregate_type_section_len (a : AggregateType) : nat :=
  used_type_section_len (aty_used_ty a) + opt_bool_len str_len (aty_name a).

Definition aggregate_type_section_writer (a : AggregateType) : wr := fun w =>
  w_opt w_str (aty_name a) w |>> used_type_section_writer (aty_used_ty a).

Definition aggregate_type_list_entity (l : list AggregateType) : list AggregateTypeEntity :=
  map aggregate_type_entity l.

Definition aggregate_type_list_section_len (l : list AggregateType) : nat :=
  list_len (map aggregate_type_section_len l).

Definition aggregate_type_list_section_writer (l : list AggregateType) : wr :=
  w_list aggregate_type_section_writer l.

(** ** [extension_sql/mod.rs]: [SqlDeclared] *)

(** The type a [creates = [Type(path)]] names comes with its path. *)
Inductive SqlDeclared :=
| SqlDeclared_Type (value : string) (T : SqlTranslatable)
| SqlDeclared_Enum (value : string) (T : SqlTranslatable)
| SqlDeclared_Function (value : string).

(** Whether [split("::")] yields more than one piece. *)
Fixpoint has_path_separator (s : string) : bool :=
  match s with
  | String ":"%char (String ":"%char _) => true
  | String _ rest => has_path_separator rest
  | EmptyString => false
  end.

Definition section_identifier (module_path : string) (d : SqlDeclared) : string :=
  let identifier :=
    match d with
    | SqlDeclared_Type value _ | SqlDeclared_Enum value _ | SqlDeclared_Function value => value
    end in
  if has_path_separator identifier then identifier
  else module_path +:+ "::" +:+ identifier.

Definition sql_declared_section_len (module_path : string) (d : SqlDeclared) : nat :=
  let identifier := section_identifier module_path d in
  match d with
  | SqlDeclared_Type _ T | SqlDeclared_Enum _ T =>
      u8_len + str_len identifier + str_len (TYPE_IDENT T) + argument_sql_len (ARGUMENT_SQL T)
  | SqlDeclared_Function _ => u8_len + str_len identifier
  end.

Definition sql_declared_section_writer (module_path : string) (d : SqlDeclared) : wr := fun w =>
  let identifier := section_identifier module_path d in
  match d with
  | SqlDeclared_Type _ T =>
      w_u8 SQL_DECLARED_TYPE w |>> w_str identifier |>> w_str (TYPE_IDENT T)
      |>> w_argument_sql (ARGUMENT_SQL T)
  | SqlDeclared_Enum _ T =>
      w_u8 SQL_DECLARED_ENUM w |>> w_str identifier |>> w_str (TYPE_IDENT T)
      |>> w_argument_sql (ARGUMENT_SQL T)
  | SqlDeclared_Function _ => w_u8 SQL_DECLARED_FUNCTION w |>> w_str identifier
  end.

(** [extension_sql/entity.rs]: [SqlDeclaredEntity::build_type] and [build]. *)
Inductive declare_error :=
| UnknownVariant
| NotExtensionOwned
| NotConcrete
| SkippedType
| DeclareArgumentError (e : ArgumentError).

Definition build_type (variant : string) (T : SqlTranslatable) (name : string)
    : outcome declare_error SqlDeclaredEntity :=
  make_declared ←
    (if (variant =? "Type")%string then Ok Declared_Type
     else if (variant =? "Enum")%string then Ok Declared_Enum
     else Err UnknownVariant);
  if decide (TYPE_ORIGIN T = External) then Err NotExtensionOwned
  else
    sql ←
      match argument_sql T with
      | rOk (SqlMapping_As sql) => Ok sql
      | rOk SqlMapping_Composite | rOk (SqlMapping_Array _) => Err NotConcrete
      | rOk SqlMapping_Skip => Err SkippedType
      | rErr err => Err (DeclareArgumentError err)
      end;
    Ok (make_declared {| dt_sql := sql; dt_name := name; dt_type_ident := TYPE_IDENT T |}).

Definition declared_build (variant name : string) : outcome declare_error SqlDeclaredEntity :=
  let sql := split_last name in
  let data := {| dt_sql := sql; dt_name := name; dt_type_ident := name |} in
  if (variant =? "Type")%string then Ok (Declared_Type data)
  else if (variant =? "Enum")%string then Ok (Declared_Enum data)
  else if (variant =? "Function")%string
    then Ok (Declared_Function {| df_sql := sql; df_name := name |})
  else Err UnknownVariant.

(** [SqlDeclared::to_entity_graph_tokens], up to the [unwrap] of its result. *)
Definition sql_declared_entity (module_path : string) (d : SqlDeclared)
    : outcome declare_error SqlDeclaredEntity :=
  let identifier := section_identifier module_path d in
  match d with
  | SqlDeclared_Type _ T => build_type "Type" T identifier
  | SqlDeclared_Enum _ T => build_type "Enum" T identifier
  | SqlDeclared_Function _ => declared_build "Function" identifier
  end.

(** ** Schema entries

    A producer's payload: its length expression and its writer chain after the
    leading [u32], the entity tag included.  [schema_entry] is the body of the
    static [__pgrx_schema_entry!] declares. *)
Definition schema_entry (payload_len : nat) (payload_writer : wr) : option bytes :=
  let total_len := (u32_len + payload_len)%nat in
  w_u32 (as_u32 payload_len) (w_new total_len) |>> payload_writer |>> w_finish.

(** *** [schema/mod.rs] *)

Record SchemaItem := {
  si_site : CallSite;
  si_ident : string;
}.

Definition schema_payload_len (s : SchemaItem) : nat :=
  u8_len + str_len (site_module_path (si_site s)) + str_len (si_ident s)
  + str_len (site_file (si_site s)) + u32_len.

Definition schema_payload_writer (s : SchemaItem) : wr := fun w =>
  w_u8 ENTITY_SCHEMA w
  |>> w_str (site_module_path (si_site s))
  |>> w_str (si_ident s)
  |>> w_str (site_file (si_site s))
  |>> w_u32 (site_line (si_site s)).

(** *** [extension_sql/mod.rs] *)

Inductive ExtensionSqlAttribute :=
| SqlAttr_Requires (items : list PositioningRef)
| SqlAttr_Creates (items : list SqlDeclared)
| SqlAttr_Bootstrap
| SqlAttr_Finalize
| SqlAttr_Name (name : string).

(** The attributes as the loop over them collects them. *)
Record SqlAttrs := {
  sa_name : option string;
  sa_bootstrap : bool;
  sa_finalize : bool;
  sa_requires : list PositioningRef;
  sa_creates : list SqlDeclared;
}.

Definition sql_attrs_step (s : SqlAttrs) (attr : ExtensionSqlAttribute) : SqlAttrs :=
  match attr with
  | SqlAttr_Creates items =>
      {| sa_name := sa_name s; sa_bootstrap := sa_bootstrap s; sa_finalize := sa_finalize s;
         sa_requires := sa_requires s; sa_creates := sa_creates s ++ items |}
  | SqlAttr_Requires items =>
      {| sa_name := sa_name s; sa_bootstrap := sa_bootstrap s; sa_finalize := sa_finalize s;
         sa_requires := sa_requires s ++ items; sa_creates := sa_creates s |}
  | SqlAttr_Bootstrap =>
      {| sa_name := sa_name s; sa_bootstrap := true; sa_finalize := sa_finalize s;
         sa_requires := sa_requires s; sa_creates := sa_creates s |}
  | SqlAttr_Finalize =>
      {| sa_name := sa_name s; sa_bootstrap := sa_bootstrap s; sa_finalize := true;
         sa_requires := sa_requires s; sa_creates := sa_creates s |}
  | SqlAttr_Name name =>
      {| sa_name := Some name; sa_bootstrap := sa_bootstrap s; sa_finalize := sa_finalize s;
         sa_requires := sa_requires s; sa_creates := sa_creates s |}
  end.

Definition sql_attrs (attrs : list ExtensionSqlAttribute) : SqlAttrs :=
  foldl sql_attrs_step
    {| sa_name := None; sa_bootstrap := false; sa_finalize := false;
       sa_requires := []; sa_creates := [] |} attrs.

(** An [extension_sql!] or an [extension_sql_file!].  The former has its text
    and its name (found by [Parse] in the attributes); the latter has the text
    [include_str!] yields and the file stem its name defaults to. *)
Inductive ExtensionSqlSource :=
| Source_Inline (sql name : string)
| Source_File (content file_stem : string).

Record ExtensionSql := {
  es_site : CallSite;
  es_source : ExtensionSqlSource;
  es_attrs : list ExtensionSqlAttribute;
}.

Definition es_sql (e : ExtensionSql) : string :=
  match es_source e with Source_Inline sql _ => sql | Source_File content _ => content end.

Definition es_name (e : ExtensionSql) : string :=
  match es_source e with
  | Source_Inline _ name => name
  | Source_File _ file_stem =>
      match sa_name (sql_attrs (es_attrs e)) with Some name => name | None => file_stem end
  end.

(** [concat!(file!(), ':', line!())] *)
Definition es_full_path (e : ExtensionSql) : string :=
  site_file (es_site e) +:+ ":" +:+ show_u32 (site_line (es_site e)).

Definition extension_sql_payload_len (e : ExtensionSql) : nat :=
  let site := es_site e in
  let attrs := sql_attrs (es_attrs e) in
  u8_len + str_len (es_sql e) + str_len (site_module_path site) + str_len (es_full_path e)
  + str_len (site_file site) + u32_len + str_len (es_name e) + bool_len + bool_len
  + list_len (map positioning_ref_section_len (sa_requires attrs))
  + list_len (map (sql_declared_section_len (site_module_path site)) (sa_creates attrs)).

Definition extension_sql_payload_writer (e : ExtensionSql) : wr := fun w =>
  let site := es_site e in
  let attrs := sql_attrs (es_attrs e) in
  w_u8 ENTITY_CUSTOM_SQL w
  |>> w_str (es_sql e)
  |>> w_str (site_module_path site)
  |>> w_str (es_full_path e)
  |>> w_str (site_file site)
  |>> w_u32 (site_line site)
  |>> w_str (es_name e)
  |>> w_bool (sa_bootstrap attrs)
  |>> w_bool (sa_finalize attrs)
  |>> w_list positioning_ref_section_writer (sa_requires attrs)
  |>> w_list (sql_declared_section_writer (site_module_path site)) (sa_creates attrs).

(** *** [pg_extern/mod.rs] *)

Record PgExtern := {
  pe_site : CallSite;
  pe_ident : string;
  pe_attrs : list Attribute;
  pe_to_sql_config : ToSqlConfigEntity;
  pe_overridden : option string;
  pe_operator : option PgOperator;
  pe_cast : option PgCastEntity;
  pe_search_path : option (list SearchPath);
  pe_inputs : list PgExternArgument;
  pe_returns : Returning;
}.

Fixpoint find_map {A B} (f : A -> option B) (l : list A) : option B :=
  match l with
  | [] => None
  | a :: rest => match f a with Some b => Some b | None => find_map f rest end
  end.

Definition pe_name (p : PgExtern) : string :=
  match find_map (fun a => match a with Attr_Name name => Some name | _ => None end) (pe_attrs p) with
  | Some name => name
  | None => pe_ident p
  end.

Definition pe_schema (p : PgExtern) : option string :=
  find_map (fun a => match a with Attr_Schema name => Some name | _ => None end) (pe_attrs p).

Definition pe_final_config (p : PgExtern) : ToSqlConfigEntity :=
  match pe_overridden p with
  | None => pe_to_sql_config p
  | Some content =>
      {| cfg_enabled := cfg_enabled (pe_to_sql_config p); cfg_content := Some content |}
  end.

Definition pe_extern_args (p : PgExtern) : list ExternArgs := omap as_extern_arg (pe_attrs p).

Definition pe_full_path (p : PgExtern) : string :=
  site_module_path (pe_site p) +:+ "::" +:+ pe_ident p.

Definition pg_extern_payload_len (p : PgExtern) : nat :=
  u8_len + str_len (pe_name p) + str_len (pe_ident p) + str_len (site_module_path (pe_site p))
  + str_len (pe_full_path p)
  + list_len (map pg_extern_argument_section_len (pe_inputs p))
  + returning_section_len (pe_returns p)
  + opt_bool_len str_len (pe_schema p)
  + str_len (site_file (pe_site p)) + u32_len
  + list_len (map extern_args_section_len (pe_extern_args p))
  + match pe_search_path p with Some l => search_path_section_len l | None => bool_len end
  + opt_bool_len operator_section_len (pe_operator p)
  + opt_bool_len cast_section_len (pe_cast p)
  + to_sql_config_section_len (pe_final_config p).

Definition pg_extern_payload_writer (p : PgExtern) : wr := fun w =>
  w_u8 ENTITY_FUNCTION w
  |>> w_str (pe_name p)
  |>> w_str (pe_ident p)
  |>> w_str (site_module_path (pe_site p))
  |>> w_str (pe_full_path p)
  |>> w_list pg_extern_argument_section_writer (pe_inputs p)
  |>> returning_section_writer (pe_returns p)
  |>> w_opt w_str (pe_schema p)
  |>> w_str (site_file (pe_site p))
  |>> w_u32 (site_line (pe_site p))
  |>> w_list extern_args_section_writer (pe_extern_args p)
  |>> match pe_search_path p with
      | Some l => search_path_section_writer l
      | None => w_bool false
      end
  |>> w_opt operator_section_writer (pe_operator p)
  |>> w_opt cast_section_writer (pe_cast p)
  |>> to_sql_config_section_writer (pe_final_config p).

(** *** [postgres_type/mod.rs] and [postgres_enum/mod.rs] *)

(** [pt_type_text] is [stringify!(#name #anon_ty_gen)], [pt_type_ident] is
    [pgrx_resolved_type!(..)], [pt_alignment] the type's [align_of] when the
    derive asks for it. *)
Record PostgresTypeDerive := {
  pt_site : CallSite;
  pt_name : string;
  pt_type_text : string;
  pt_type_ident : string;
  pt_in_fn : string;
  pt_out_fn : string;
  pt_receive_fn : option string;
  pt_send_fn : option string;
  pt_to_sql_config : ToSqlConfigEntity;
  pt_alignment : option nat;
}.

(** The [SqlTranslatable] impl the derive generates. *)
Definition derived_translatable (name type_ident : string) : SqlTranslatable :=
  {| TYPE_IDENT := type_ident;
     TYPE_ORIGIN := ThisExtension;
     ARGUMENT_SQL := rOk (SqlMappingRef_As name);
     RETURN_SQL := rOk (ReturnsRef_One (SqlMappingRef_As name)) |}.

Definition postgres_type_payload_len (t : PostgresTypeDerive) : nat :=
  u8_len + str_len (pt_name t) + str_len (site_file (pt_site t)) + u32_len
  + str_len (site_module_path (pt_site t)) + str_len (pt_type_text t) + str_len (pt_type_ident t)
  + str_len (pt_in_fn t) + str_len (pt_out_fn t)
  + opt_bool_len str_len (pt_receive_fn t) + opt_bool_len str_len (pt_send_fn t)
  + to_sql_config_section_len (pt_to_sql_config t)
  + match pt_alignment t with Some _ => bool_len + u32_len | None => bool_len end.

Definition postgres_type_payload_writer (t : PostgresTypeDerive) : wr := fun w =>
  w_u8 ENTITY_TYPE w
  |>> w_str (pt_name t)
  |>> w_str (site_file (pt_site t))
  |>> w_u32 (site_line (pt_site t))
  |>> w_str (site_module_path (pt_site t))
  |>> w_str (pt_type_text t)
  |>> w_str (pt_type_ident t)
  |>> w_str (pt_in_fn t)
  |>> w_str (pt_out_fn t)
  |>> w_opt w_str (pt_receive_fn t)
  |>> w_opt w_str (pt_send_fn t)
  |>> to_sql_config_section_writer (pt_to_sql_config t)
  |>> w_opt (fun align => w_u32 (as_u32 align)) (pt_alignment t).

Record PostgresEnum := {
  pn_site : CallSite;
  pn_name : string;
  pn_type_text : string;
  pn_type_ident : string;
  pn_variants : list string;
  pn_to_sql_config : ToSqlConfigEntity;
}.

Definition postgres_enum_payload_len (e : PostgresEnum) : nat :=
  u8_len + str_len (pn_name e) + str_len (site_file (pn_site e)) + u32_len
  + str_len (site_module_path (pn_site e)) + str_len (pn_type_text e) + str_len (pn_type_ident e)
  + list_len (map str_len (pn_variants e))
  + to_sql_config_section_len (pn_to_sql_config e).

Definition postgres_enum_payload_writer (e : PostgresEnum) : wr := fun w =>
  w_u8 ENTITY_ENUM w
  |>> w_str (pn_name e)
  |>> w_str (site_file (pn_site e))
  |>> w_u32 (site_line (pn_site e))
  |>> w_str (site_module_path (pn_site e))
  |>> w_str (pn_type_text e)
  |>> w_str (pn_type_ident e)
  |>> w_list w_str (pn_variants e)
  |>> to_sql_config_section_writer (pn_to_sql_config e).

(** *** [postgres_ord/mod.rs] and [postgres_hash/mod.rs] *)

(** A [#[derive(PostgresOrd)]] or [#[derive(PostgresHash)]]: the two structs
    have the same fields. *)
Record PostgresDerive := {
  pd_site : CallSite;
  pd_name : string;
  pd_type_ident : string;
  pd_to_sql_config : ToSqlConfigEntity;
}.

Definition postgres_ord_payload_len (d : PostgresDerive) : nat :=
  u8_len + str_len (pd_name d) + str_len (site_file (pd_site d)) + u32_len
  + str_len (pd_name d) + str_len (site_module_path (pd_site d)) + str_len (pd_type_ident d)
  + to_sql_config_section_len (pd_to_sql_config d).

Definition postgres_ord_payload_writer (d : PostgresDerive) : wr := fun w =>
  w_u8 ENTITY_ORD w
  |>> w_str (pd_name d)
  |>> w_str (site_file (pd_site d))
  |>> w_u32 (site_line (pd_site d))
  |>> w_str (pd_name d)
  |>> w_str (site_module_path (pd_site d))
  |>> w_str (pd_type_ident d)
  |>> to_sql_config_section_writer (pd_to_sql_config d).

Definition postgres_hash_payload_len (d : PostgresDerive) : nat :=
  u8_len + str_len (pd_name d) + str_len (site_file (pd_site d)) + u32_len
  + str_len (pd_name d) + str_len (site_module_path (pd_site d)) + str_len (pd_type_ident d)
  + to_sql_config_section_len (pd_to_sql_config d).

Definition postgres_hash_payload_writer (d : PostgresDerive) : wr := fun w =>
  w_u8 ENTITY_HASH w
  |>> w_str (pd_name d)
  |>> w_str (site_file (pd_site d))
  |>> w_u32 (site_line (pd_site d))
  |>> w_str (pd_name d)
  |>> w_str (site_module_path (pd_site d))
  |>> w_str (pd_type_ident d)
  |>> to_sql_config_section_writer (pd_to_sql_config d).

(** *** [pg_trigger/mod.rs] *)

Record PgTrigger := {
  pg_site : CallSite;
  pg_func_ident : string;
  pg_to_sql_config : ToSqlConfigEntity;
}.

Definition pg_full_path (t : PgTrigger) : string :=
  site_module_path (pg_site t) +:+ "::" +:+ pg_func_ident t.

Definition pg_trigger_payload_len (t : PgTrigger) : nat :=
  u8_len + str_len (pg_func_ident t) + str_len (site_file (pg_site t)) + u32_len
  + str_len (site_module_path (pg_site t)) + str_len (pg_full_path t)
  + to_sql_config_section_len (pg_to_sql_config t).

Definition pg_trigger_payload_writer (t : PgTrigger) : wr := fun w =>
  w_u8 ENTITY_TRIGGER w
  |>> w_str (pg_func_ident t)
  |>> w_str (site_file (pg_site t))
  |>> w_u32 (site_line (pg_site t))
  |>> w_str (site_module_path (pg_site t))
  |>> w_str (pg_full_path t)
  |>> to_sql_config_section_writer (pg_to_sql_config t).

(** *** [aggregate/mod.rs] *)

(** The three [const_..] options hold a constant expression whose value is
    itself an [Option]. *)
Record PgAggregate := {
  pa_site : CallSite;
  pa_target_ident : string;
  pa_name : string;
  pa_type_args : list AggregateType;
  pa_type_ordered_set_args : option (list AggregateType);
  pa_type_moving_state : option UsedType;
  pa_type_stype : AggregateType;
  pa_const_ordered_set : bool;
  pa_const_parallel : option (option ParallelOption);
  pa_const_finalize_modify : option (option FinalizeModify);
  pa_const_moving_finalize_modify : option (option FinalizeModify);
  pa_const_initial_condition : option string;
  pa_const_sort_operator : option string;
  pa_const_moving_initial_condition : option string;
  pa_fn_state : string;
  pa_fn_finalize : option string;
  pa_fn_combine : option string;
  pa_fn_serial : option string;
  pa_fn_deserial : option string;
  pa_fn_moving_state : option string;
  pa_fn_moving_state_inverse : option string;
  pa_fn_moving_finalize : option string;
  pa_hypothetical : bool;
  pa_to_sql_config : ToSqlConfigEntity;
}.

Definition pa_full_path (a : PgAggregate) : string :=
  site_module_path (pa_site a) +:+ "::" +:+ pa_target_ident a.

(** [bool_len() + match #value { Some(_) => u8_len(), None => 0 }], or [bool_len()]. *)
Definition modify_len {A} (value : option (option A)) : nat :=
  match value with
  | Some v => bool_len + match v with Some _ => u8_len | None => 0 end
  | None => bool_len
  end.

Definition finalize_modify_tag (v : FinalizeModify) : Z :=
  match v with
  | ReadOnly => AGGREGATE_FINALIZE_READ_ONLY
  | Shareable => AGGREGATE_FINALIZE_SHAREABLE
  | ReadWrite => AGGREGATE_FINALIZE_READ_WRITE
  end.

Definition parallel_tag (v : ParallelOption) : Z :=
  match v with
  | Parallel_Safe => AGGREGATE_PARALLEL_SAFE
  | Parallel_Restricted => AGGREGATE_PARALLEL_RESTRICTED
  | Parallel_Unsafe => AGGREGATE_PARALLEL_UNSAFE
  end.

Definition modify_writer {A} (tag : A -> Z) (value : option (option A)) : wr := fun w =>
  match value with
  | Some (Some v) => w_bool true w |>> w_u8 (tag v)
  | Some None | None => w_bool false w
  end.

Definition aggregate_payload_len (a : PgAggregate) : nat :=
  let site := pa_site a in
  u8_len + str_len (pa_full_path a) + str_len (site_module_path site) + str_len (site_file site)
  + u32_len + str_len (pa_name a) + bool_len
  + aggregate_type_list_section_len (pa_type_args a)
  + opt_bool_len aggregate_type_list_section_len (pa_type_ordered_set_args a)
  + aggregate_type_section_len (pa_type_stype a)
  + str_len (pa_fn_state a)
  + opt_bool_len str_len (pa_fn_finalize a)
  + modify_len (pa_const_finalize_modify a)
  + opt_bool_len str_len (pa_fn_combine a)
  + opt_bool_len str_len (pa_fn_serial a)
  + opt_bool_len str_len (pa_fn_deserial a)
  + opt_bool_len str_len (pa_const_initial_condition a)
  + opt_bool_len str_len (pa_fn_moving_state a)
  + opt_bool_len str_len (pa_fn_moving_state_inverse a)
  + opt_bool_len used_type_section_len (pa_type_moving_state a)
  + opt_bool_len str_len (pa_fn_moving_finalize a)
  + modify_len (pa_const_moving_finalize_modify a)
  + opt_bool_len str_len (pa_const_moving_initial_condition a)
  + opt_bool_len str_len (pa_const_sort_operator a)
  + modify_len (pa_const_parallel a)
  + bool_len
  + to_sql_config_section_len (pa_to_sql_config a).

Definition aggregate_payload_writer (a : PgAggregate) : wr := fun w =>
  let site := pa_site a in
  w_u8 ENTITY_AGGREGATE w
  |>> w_str (pa_full_path a)
  |>> w_str (site_module_path site)
  |>> w_str (site_file site)
  |>> w_u32 (site_line site)
  |>> w_str (pa_name a)
  |>> w_bool (pa_const_ordered_set a)
  |>> aggregate_type_list_section_writer (pa_type_args a)
  |>> w_opt aggregate_type_list_section_writer (pa_type_ordered_set_args a)
  |>> aggregate_type_section_writer (pa_type_stype a)
  |>> w_str (pa_fn_state a)
  |>> w_opt w_str (pa_fn_finalize a)
  |>> modify_writer finalize_modify_tag (pa_const_finalize_modify a)
  |>> w_opt w_str (pa_fn_combine a)
  |>> w_opt w_str (pa_fn_serial a)
  |>> w_opt w_str (pa_fn_deserial a)
  |>> w_opt w_str (pa_const_initial_condition a)
  |>> w_opt w_str (pa_fn_moving_state a)
  |>> w_opt w_str (pa_fn_moving_state_inverse a)
  |>> w_opt used_type_section_writer (pa_type_moving_state a)
  |>> w_opt w_str (pa_fn_moving_finalize a)
  |>> modify_writer finalize_modify_tag (pa_const_moving_finalize_modify a)
  |>> w_opt w_str (pa_const_moving_initial_condition a)
  |>> w_opt w_str (pa_const_sort_operator a)
  |>> modify_writer parallel_tag (pa_const_parallel a)
  |>> w_bool (pa_hypothetical a)
  |>> to_sql_config_section_writer (pa_to_sql_config a).
