(* ===== verification/Codec.v ===== *)
(** * Codecs: a writer, its length and its reader agree

    [codec len op m v]: the chain of [EntryWriter] calls [op] appends exactly
    [len] bytes, whatever was written before, and the [EntryReader] method [m]
    reads these bytes, whatever surrounds them, as [v].  The lemmas compose
    codecs along the method chains of the writer and the [?]-sequences of the
    reader; they are collected in the hint database [codec], on which the
    tactic [codec_solve] runs. *)
From S2P Require Import Prelude Metadata Entities Wire Reader.

Definition emits (op : wr) (bs : bytes) : Prop := forall w, op w = w_bytes bs w.

Definition reads {A} (m : rd A) (bs : bytes) (v : A) : Prop :=
  forall pre post,
    m {| r_bytes := pre ++ bs ++ post; r_pos := length pre |}
    = Ok (v, {| r_bytes := pre ++ bs ++ post; r_pos := length pre + length bs |}).

Definition codec {A} (len : nat) (op : wr) (m : rd A) (v : A) : Prop :=
  exists bs, emits op bs /\ length bs = len /\ reads m bs v.

(** ** The writer *)

Lemma wr_assoc (x : option EntryWriter) (f g : wr) :
  x |>> f |>> g = x |>> (fun w => f w |>> g).
Proof. by destruct x. Qed.

Lemma w_bytes_app (a b : bytes) (w : EntryWriter) :
  w_bytes (a ++ b) w = w_bytes a w |>> w_bytes b.
Proof.
  revert w. induction a as [|x a IH]; intros w; [done|]. cbn.
  destruct (w_put x w) as [w'|]; [apply IH | done].
Qed.

(** What a writer with room left does: it overwrites the bytes at its position. *)
Lemma w_bytes_fits (bs done rest : bytes) :
  (length bs <= length rest)%nat ->
  w_bytes bs {| w_buf := done ++ rest; w_pos := length done |}
  = Some {| w_buf := done ++ bs ++ drop (length bs) rest; w_pos := length done + length bs |}.
Proof.
  revert done rest. induction bs as [|b bs IH]; intros done rest Hle; cbn.
  - by rewrite Nat.add_0_r, drop_0.
  - destruct rest as [|r rest]; cbn in Hle; [lia|].
    unfold w_put. cbn [w_pos w_buf].
    rewrite (proj2 (Nat.ltb_lt _ _)) by (rewrite length_app; cbn; lia). cbn.
    replace (<[length done:=b]> (done ++ r :: rest)) with ((done ++ [b]) ++ rest)
      by (rewrite <- app_assoc, <- (Nat.add_0_r (length done)), insert_app_r; done).
    replace (S (length done)) with (length (done ++ [b])) by (rewrite length_app; cbn; lia).
    rewrite IH by lia. rewrite length_app. cbn. rewrite <- !app_assoc.
    do 2 f_equal. lia.
Qed.

Lemma w_bytes_overflow (bs done rest : bytes) :
  (length rest < length bs)%nat ->
  w_bytes bs {| w_buf := done ++ rest; w_pos := length done |} = None.
Proof.
  revert done rest. induction bs as [|b bs IH]; intros done rest Hle; cbn in *; [lia|].
  unfold w_put. cbn [w_pos w_buf].
  destruct rest as [|r rest].
  - rewrite (proj2 (Nat.ltb_ge _ _)) by (rewrite length_app; cbn; lia). done.
  - cbn in Hle. rewrite (proj2 (Nat.ltb_lt _ _)) by (rewrite length_app; cbn; lia). cbn.
    replace (<[length done:=b]> (done ++ r :: rest)) with ((done ++ [b]) ++ rest)
      by (rewrite <- app_assoc, <- (Nat.add_0_r (length done)), insert_app_r; done).
    replace (S (length done)) with (length (done ++ [b])) by (rewrite length_app; cbn; lia).
    apply IH. lia.
Qed.

(** A fresh [EntryWriter<N>] finishes exactly when [N] is the number of bytes
    the chain wrote; one byte more or less is a compile-time panic. *)
Lemma w_finish_exact (N : nat) (op : wr) (bs : bytes) :
  emits op bs ->
  op (w_new N) |>> w_finish = if (N =? length bs)%nat then Some bs else None.
Proof.
  intros Hop. rewrite Hop. unfold w_new.
  change (replicate N Byte.x00) with (([] : bytes) ++ replicate N Byte.x00).
  change 0%nat with (length ([] : bytes)) at 1.
  destruct (decide (length bs <= N)%nat) as [Hle|Hgt].
  - rewrite w_bytes_fits by (rewrite length_replicate; lia).
    cbn. unfold w_finish. cbn [w_pos w_buf].
    rewrite drop_replicate, length_app, length_replicate.
    destruct (N =? length bs)%nat eqn:HN.
    + apply Nat.eqb_eq in HN as ->. rewrite Nat.sub_diag, (proj2 (Nat.eqb_eq _ _)) by lia.
      cbn. by rewrite app_nil_r.
    + apply Nat.eqb_neq in HN. by rewrite (proj2 (Nat.eqb_neq _ _)) by lia.
  - rewrite w_bytes_overflow by (rewrite length_replicate; lia).
    cbn. by rewrite (proj2 (Nat.eqb_neq _ _)) by lia.
Qed.

Lemma emits_put (b : byte) : emits (w_put b) [b].
Proof. intros w. cbn. by destruct (w_put b w). Qed.

Lemma emits_u8 (z : Z) : emits (w_u8 z) [u8_of_Z z].
Proof. apply emits_put. Qed.

Lemma emits_chain (op1 op2 : wr) (b1 b2 : bytes) :
  emits op1 b1 -> emits op2 b2 -> emits (fun w => op1 w |>> op2) (b1 ++ b2).
Proof.
  intros H1 H2 w. rewrite w_bytes_app, <- H1. destruct (op1 w); [apply H2 | done].
Qed.

Lemma emits_u32 (z : Z) : emits (w_u32 z) (to_le_bytes z).
Proof.
  intros w. unfold w_u32, to_le_bytes. cbn [w_bytes].
  rewrite !wr_assoc. destruct (w_put _ w) as [w1|]; [cbn|done].
  destruct (w_put _ w1) as [w2|]; [cbn|done].
  destruct (w_put _ w2) as [w3|]; [cbn|done]. by destruct (w_put _ w3).
Qed.

(** ** The reader *)

Lemma reads_ret {A} (v : A) : reads (mret v) [] v.
Proof. intros pre post. cbn. by rewrite Nat.add_0_r. Qed.

Lemma reads_bind {A B} (m : rd A) (f : A -> rd B) (b1 b2 : bytes) (a : A) (v : B) :
  reads m b1 a -> reads (f a) b2 v -> reads (m ≫= f) (b1 ++ b2) v.
Proof.
  intros H1 H2 pre post. unfold mbind, rd_bind.
  rewrite <- app_assoc, H1.
  specialize (H2 (pre ++ b1) post). rewrite <- !app_assoc, length_app in H2.
  rewrite H2. do 3 f_equal. rewrite length_app. lia.
Qed.

Lemma slice_middle (pre bs post : bytes) :
  slice (pre ++ bs ++ post) (length pre) (length pre + length bs) = Some bs.
Proof.
  unfold slice. rewrite !length_app.
  rewrite (proj2 (Nat.leb_le _ _)), (proj2 (Nat.leb_le _ _)) by lia. cbn.
  rewrite drop_app_length, Nat.add_comm, Nat.add_sub, take_app_length. done.
Qed.

Lemma reads_slice (bs : bytes) : reads (read_slice (length bs)) bs bs.
Proof.
  intros pre post. unfold read_slice, r_remaining. cbn [r_bytes r_pos].
  rewrite (proj2 (Nat.ltb_ge _ _)) by (rewrite !length_app; lia).
  by rewrite slice_middle.
Qed.

Lemma reads_u8 (z : Z) : is_u8 z -> reads read_u8 [u8_of_Z z] z.
Proof.
  intros Hz pre post. unfold read_u8, r_remaining. cbn [r_bytes r_pos].
  rewrite (proj2 (Nat.ltb_ge _ _)) by (rewrite !length_app; cbn; lia).
  rewrite lookup_app_r, Nat.sub_diag by lia. cbn.
  by rewrite u8_to_of_Z_small.
Qed.

Lemma reads_u32 (z : Z) : is_u32 z -> reads read_u32 (to_le_bytes z) z.
Proof.
  intros Hz pre post. unfold read_u32, r_remaining. cbn [r_bytes r_pos].
  rewrite (proj2 (Nat.ltb_ge _ _)) by (rewrite !length_app, length_to_le_bytes; lia).
  change (length pre + 4)%nat with (length pre + length (to_le_bytes z))%nat.
  rewrite slice_middle.
  by rewrite from_to_le_bytes.
Qed.

Lemma reads_str (s : string) :
  str_ok s = true -> reads read_str (to_le_bytes (as_u32 (length (as_bytes s))) ++ as_bytes s) s.
Proof.
  intros [Hutf Hlen]%str_ok_iff. unfold read_str, read_bytes.
  rewrite <- (app_nil_r (_ ++ as_bytes s)).
  eapply reads_bind.
  - eapply reads_bind; [apply reads_u32, as_u32_range|].
    rewrite as_u32_small, Nat2Z.id by done. apply reads_slice.
  - cbn. rewrite Hutf, of_as_bytes. apply reads_ret.
Qed.

(** ** Composition *)

Lemma codec_ext {A} (l l' : nat) (op op' : wr) (m : rd A) (v : A) :
  (forall w, op' w = op w) -> codec l op m v -> l = l' -> codec l' op' m v.
Proof.
  intros Hop (bs & He & Hl & Hr) <-. exists bs. split; [|done].
  intros w. by rewrite Hop, He.
Qed.

Lemma codec_bind {A B} (l1 l2 : nat) (op1 op2 : wr) (m : rd A) (f : A -> rd B) (a : A) (v : B) :
  codec l1 op1 m a -> codec l2 op2 (f a) v ->
  codec (l1 + l2) (fun w => op1 w |>> op2) (m ≫= f) v.
Proof.
  intros (b1 & He1 & <- & Hr1) (b2 & He2 & <- & Hr2). exists (b1 ++ b2).
  split; [by apply emits_chain|]. split; [by rewrite length_app|]. by eapply reads_bind.
Qed.

Lemma codec_last {A B} (l : nat) (op : wr) (m : rd A) (f : A -> rd B) (a : A) (v : B) :
  codec l op m a -> f a = mret v -> codec l op (m ≫= f) v.
Proof.
  intros (bs & He & Hl & Hr) Hf. exists bs. split; [done|]. split; [done|].
  rewrite <- (app_nil_r bs). eapply reads_bind; [done|]. rewrite Hf. apply reads_ret.
Qed.

Lemma codec_u8 (z : Z) : is_u8 z -> codec u8_len (w_u8 z) read_u8 z.
Proof. intros Hz. exists [u8_of_Z z]. eauto using emits_u8, reads_u8. Qed.

Lemma codec_u32 (z : Z) : is_u32 z -> codec u32_len (w_u32 z) read_u32 z.
Proof. intros Hz. exists (to_le_bytes z). eauto using emits_u32, reads_u32. Qed.

Lemma codec_bool (b : bool) : codec bool_len (w_bool b) read_bool b.
Proof.
  unfold w_bool, read_bool. eapply codec_last.
  - apply codec_u8. destruct b; unfold is_u8; lia.
  - by destruct b.
Qed.

Lemma codec_str (s : string) : str_ok s = true -> codec (str_len s) (w_str s) read_str s.
Proof.
  intros Hs. eexists. split; [|split; [|by apply reads_str]].
  - unfold w_str. apply emits_chain; [apply emits_u32 | by intros w].
  - by rewrite length_app.
Qed.

Lemma codec_opt {A B} (len : A -> nat) (f : A -> wr) (m : rd B) (g : A -> B) (o : option A) :
  (forall a, o = Some a -> codec (len a) (f a) m (g a)) ->
  codec (opt_bool_len len o) (w_opt f o) (read_opt m) (g <$> o).
Proof.
  intros H. unfold read_opt, w_opt. destruct o as [a|].
  - eapply codec_bind; [apply codec_bool|]. cbn. eapply codec_last; [by apply H | done].
  - eapply codec_last; [apply codec_bool | done].
Qed.

Lemma list_len_loop_sum (l : list nat) (n : nat) : list_len_loop l n = (n + sum_list l)%nat.
Proof. revert n. induction l as [|x l IH]; intros n; cbn; [lia|]. rewrite IH. lia. Qed.

Lemma list_len_sum (l : list nat) : list_len l = (4 + sum_list l)%nat.
Proof. apply list_len_loop_sum. Qed.

Lemma returns_table_loop_sum (l : list SqlMappingRef) (n : nat) :
  returns_table_loop l n = (n + sum_list (map sql_mapping_len l))%nat.
Proof. revert n. induction l as [|x l IH]; intros n; cbn; [lia|]. rewrite IH. lia. Qed.

Lemma codec_items {A B} (len : A -> nat) (f : A -> wr) (m : rd B) (g : A -> B) (l : list A) :
  Forall (fun a => codec (len a) (f a) m (g a)) l ->
  codec (sum_list (map len l)) (w_items f l) (read_n (length l) m) (map g l).
Proof.
  induction 1 as [|a l Ha Hl IH]; cbn [w_items map sum_list length read_n].
  - exists []. split; [by intros w|]. split; [done | apply reads_ret].
  - eapply codec_bind; [exact Ha|]. eapply codec_last; [exact IH | done].
Qed.

Lemma codec_list {A B} (len : A -> nat) (f : A -> wr) (m : rd B) (g : A -> B) (l : list A) :
  Z.of_nat (length l) < 2 ^ 32 ->
  Forall (fun a => codec (len a) (f a) m (g a)) l ->
  codec (list_len (map len l)) (w_list f l) (read_list m) (map g l).
Proof.
  intros Hlen Hl. rewrite list_len_sum.
  eapply codec_ext; [intros w; reflexivity | | reflexivity].
  unfold read_list, w_list. eapply codec_bind; [apply codec_u32, as_u32_range|].
  rewrite as_u32_small, Nat2Z.id by done. by apply codec_items.
Qed.

(** ** The hint database *)

Lemma codec_u32_ok (z : Z) : u32_ok z = true -> codec u32_len (w_u32 z) read_u32 z.
Proof. intros Hz. by apply codec_u32, u32_ok_iff. Qed.

Lemma codec_string (s : string) : str_ok s = true -> codec (str_len s) (w_str s) read_string s.
Proof. apply codec_str. Qed.

Lemma codec_opt_ok {A B} ok (len : A -> nat) f (m : rd B) (g : A -> B) (o : option A) :
  opt_ok ok o = true -> (forall a, ok a = true -> codec (len a) (f a) m (g a)) ->
  codec (opt_bool_len len o) (w_opt f o) (read_opt m) (g <$> o).
Proof. intros Ho H. apply codec_opt. intros a ->. by apply H. Qed.

Lemma codec_opt_id {A} ok (len : A -> nat) f (m : rd A) (o : option A) :
  opt_ok ok o = true -> (forall a, ok a = true -> codec (len a) (f a) m a) ->
  codec (opt_bool_len len o) (w_opt f o) (read_opt m) o.
Proof.
  intros Ho H. pose proof (codec_opt_ok ok len f m (fun a => a) o Ho H) as Hc.
  by destruct o.
Qed.

Lemma codec_option_str (o : option string) :
  opt_ok str_ok o = true -> codec (opt_bool_len str_len o) (w_opt w_str o) read_option_str o.
Proof. intros Ho. eapply codec_opt_id; [done | apply codec_str]. Qed.

Lemma codec_list_ok {A B} ok (len : A -> nat) f (m : rd B) (g : A -> B) (l : list A) :
  list_ok ok l = true -> (forall a, ok a = true -> codec (len a) (f a) m (g a)) ->
  codec (list_len (map len l)) (w_list f l) (read_list m) (map g l).
Proof.
  intros [Hlen Hl]%list_ok_iff H. apply codec_list; [done|].
  eapply Forall_impl; [exact H | exact Hl].
Qed.

Lemma codec_list_id {A} ok (len : A -> nat) f (m : rd A) (l : list A) :
  list_ok ok l = true -> (forall a, ok a = true -> codec (len a) (f a) m a) ->
  codec (list_len (map len l)) (w_list f l) (read_list m) l.
Proof.
  intros Hl H. pose proof (codec_list_ok ok len f m (fun a => a) l Hl H) as Hc.
  by rewrite map_id in Hc.
Qed.

Create HintDb codec discriminated.
#[export] Hint Resolve codec_bool codec_u32_ok codec_str codec_string codec_option_str : codec.
#[export] Hint Resolve codec_opt_id codec_list_id | 2 : codec.
#[export] Hint Resolve codec_opt_ok codec_list_ok | 3 : codec.
#[export] Hint Extern 1 (codec _ (w_u8 _) read_u8 _) =>
  apply codec_u8; split; [discriminate | reflexivity] : codec.

(** Decides the [if tag =? TAG] the reader is at. *)
Ltac codec_tag :=
  repeat match goal with
  | |- codec _ _ (if ?b then _ else _) _ =>
      let b' := eval vm_compute in b in change b with b'; cbv iota
  end.

Ltac codec_atom := solve [eauto with codec].

Ltac codec_step :=
  cbv beta; codec_tag;
  lazymatch goal with
  | |- codec _ (fun w => _ |>> _) (_ ≫= _) _ => eapply codec_bind; [codec_atom | codec_step]
  | |- codec _ _ (_ ≫= _) _ =>
      first [ codec_atom
            | eapply codec_last; [codec_atom | cbv beta; codec_done] ]
  | |- _ => codec_atom
  end
with codec_done :=
  first [ reflexivity ].

(** Reassociates a chain of writer calls to the right. *)
Ltac wr_norm :=
  let w := fresh "w" in intros w; cbv beta;
  repeat match goal with
  | |- context [ mbind (M:=option) ?g (mbind (M:=option) ?f ?x) ] => rewrite (wr_assoc x f g)
  end;
  reflexivity.

(** Proves that a writer, a length and a reader agree: reassociates the
    writer's chain, walks it beside the reader, compares the lengths. *)
Ltac codec_solve :=
  eapply codec_ext;
  [ wr_norm
  | codec_step
  | first [reflexivity | cbn -[Nat.add]; try lia] ].

(** ** Type metadata *)

Definition numeric_ok (precision scale : option Z) : bool :=
  opt_ok u32_ok precision && opt_ok u32_ok scale.

Definition sql_array_mapping_ok (v : SqlArrayMappingRef) : bool :=
  match v with
  | SqlArrayMappingRef_As s => str_ok s
  | SqlArrayMappingRef_Numeric p s => numeric_ok p s
  | SqlArrayMappingRef_Composite => true
  end.

Definition sql_mapping_ok (v : SqlMappingRef) : bool :=
  match v with
  | SqlMappingRef_As s => str_ok s
  | SqlMappingRef_Numeric p s => numeric_ok p s
  | SqlMappingRef_Array a => sql_array_mapping_ok a
  | SqlMappingRef_Composite | SqlMappingRef_Skip => true
  end.

Definition returns_ok (v : ReturnsRef) : bool :=
  match v with
  | ReturnsRef_One m | ReturnsRef_SetOf m => sql_mapping_ok m
  | ReturnsRef_Table ms => list_ok sql_mapping_ok ms
  end.

Definition argument_error_ok (e : ArgumentError) : bool :=
  match e with ArgumentError_NotValidAsArgument s => str_ok s | _ => true end.

Definition argument_sql_ok (v : result SqlMappingRef ArgumentError) : bool :=
  match v with rOk m => sql_mapping_ok m | rErr e => argument_error_ok e end.

Definition return_sql_ok (v : result ReturnsRef ReturnsError) : bool :=
  match v with rOk r => returns_ok r | rErr _ => true end.

Lemma codec_numeric_u32 (o : option Z) :
  opt_ok u32_ok o = true ->
  codec u32_len (w_u32 (match o with Some v => v | None => 0 end)) read_u32
        (match o with Some v => v | None => 0 end).
Proof. intros Ho. apply codec_u32_ok. by destruct o. Qed.

Lemma then_some_option {A} (o : option A) (d : A) :
  then_some (match o with Some _ => true | None => false end)
            (match o with Some v => v | None => d end) = o.
Proof. by destruct o. Qed.

(** The three tags that carry a numeric or text mapping, after the tag byte. *)
Lemma codec_numeric {A} (k : Z -> rd A) (F : string -> A) precision scale :
  numeric_ok precision scale = true ->
  k SQL_MAPPING_NUMERIC = (s ← read_numeric; mret (F s)) ->
  codec (u8_len + bool_len + u32_len + bool_len + u32_len)
        (w_numeric precision scale) (tag ← read_u8; k tag)
        (F (numeric_sql_string precision scale)).
Proof.
  unfold numeric_ok. intros [Hp Hs]%andb_prop Hk.
  eapply codec_ext; [unfold w_numeric; wr_norm | |].
  - eapply codec_bind; [codec_atom|]. rewrite Hk.
    replace (F (numeric_sql_string precision scale)) with
      (F (numeric_sql_string
        (then_some (match precision with Some _ => true | None => false end)
                   (match precision with Some v => v | None => 0 end))
        (then_some (match scale with Some _ => true | None => false end)
                   (match scale with Some v => v | None => 0 end))))
      by by rewrite !then_some_option.
    eapply codec_last; [|reflexivity]. unfold read_numeric.
    eapply codec_bind; [codec_atom|]. eapply codec_bind; [by apply codec_numeric_u32|].
    eapply codec_bind; [codec_atom|].
    eapply codec_last; [by apply codec_numeric_u32 | done].
  - cbn. lia.
Qed.

Lemma codec_sql_array_mapping v :
  sql_array_mapping_ok v = true ->
  codec (sql_array_mapping_len v) (w_sql_array_mapping v)
        read_sql_array_mapping_owned (sql_array_mapping_into v).
Proof.
  unfold read_sql_array_mapping_owned, w_sql_array_mapping.
  destruct v as [s|p s|]; intros Hv; cbn [sql_array_mapping_len sql_array_mapping_into].
  - codec_solve.
  - apply (codec_numeric _ SqlArrayMapping_As); done.
  - codec_solve.
Qed.
#[export] Hint Resolve codec_sql_array_mapping : codec.

Lemma codec_sql_mapping v :
  sql_mapping_ok v = true ->
  codec (sql_mapping_len v) (w_sql_mapping v) read_sql_mapping_owned (sql_mapping_into v).
Proof.
  unfold read_sql_mapping_owned, w_sql_mapping.
  destruct v as [s|p s| |a|]; intros Hv; cbn [sql_mapping_len sql_mapping_into].
  2: apply (codec_numeric _ SqlMapping_As); done.
  all: codec_solve.
Qed.
#[export] Hint Resolve codec_sql_mapping : codec.

Lemma codec_returns v :
  returns_ok v = true -> codec (returns_len v) (w_returns v) read_returns_owned (returns_into v).
Proof.
  unfold read_returns_owned, w_returns.
  destruct v as [m|m|ms]; intros Hv; cbn [returns_len returns_into].
  3: rewrite returns_table_loop_sum.
  all: codec_solve.
  rewrite list_len_sum. unfold u32_len. lia.
Qed.

Lemma codec_argument_error e :
  argument_error_ok e = true ->
  codec (argument_error_len e) (w_argument_error e) read_argument_error e.
Proof. unfold read_argument_error, w_argument_error. destruct e; intros He; codec_solve. Qed.

Lemma codec_returns_error e :
  codec (returns_error_len e) (w_returns_error e) read_returns_error e.
Proof. unfold read_returns_error, w_returns_error. destruct e; codec_solve. Qed.
#[export] Hint Resolve codec_returns codec_argument_error codec_returns_error : codec.

Lemma codec_argument_sql v :
  argument_sql_ok v = true ->
  codec (argument_sql_len v) (w_argument_sql v) read_argument_sql_owned
        (result_map sql_mapping_into v).
Proof. unfold read_argument_sql_owned, w_argument_sql. destruct v; intros Hv; codec_solve. Qed.

Lemma codec_return_sql v :
  return_sql_ok v = true ->
  codec (return_sql_len v) (w_return_sql v) read_return_sql_owned (result_map returns_into v).
Proof. unfold read_return_sql_owned, w_return_sql. destruct v; intros Hv; codec_solve. Qed.

Lemma codec_type_origin v : codec u8_len (w_type_origin v) read_type_origin v.
Proof. unfold read_type_origin, w_type_origin. destruct v; codec_solve. Qed.
#[export] Hint Resolve codec_argument_sql codec_return_sql codec_type_origin : codec.

(** The resolution of a type: its ident and origin, or nothing for a
    SQL-only type. *)
Definition resolution_entity (r : string * TypeOrigin) : FunctionMetadataTypeResolutionEntity :=
  {| res_type_ident := r.1; res_type_origin := r.2 |}.

Definition resolution_ok (r : string * TypeOrigin) : bool := str_ok r.1.

Lemma codec_function_metadata_type resolution arg ret :
  opt_ok resolution_ok resolution = true ->
  argument_sql_ok arg = true -> return_sql_ok ret = true ->
  codec (function_metadata_type_len (fst <$> resolution) arg ret)
        (w_function_metadata_type resolution arg ret) read_function_metadata_type
        {| fmt_resolution := resolution_entity <$> resolution;
           fmt_argument_sql := result_map sql_mapping_into arg;
           fmt_return_sql := result_map returns_into ret |}.
Proof.
  intros Hres Harg Hret.
  unfold read_function_metadata_type, w_function_metadata_type.
  eapply codec_ext with (op := fun w =>
    w_opt (fun r w => w_str r.1 w |>> w_type_origin r.2) resolution w
    |>> (fun w => w_argument_sql arg w |>> w_return_sql ret)).
  - intros w. rewrite <- wr_assoc. unfold w_opt.
    destruct resolution as [[ident origin]|]; [|done]. by rewrite (wr_assoc (w_bool true w)).
  - eapply codec_bind; [eapply (codec_opt_ok _ (fun r => str_len r.1 + u8_len)%nat _ _ resolution_entity)|].
    + exact Hres.
    + intros [ident origin] Hi. unfold read_resolution, resolution_ok in *. cbn [fst snd] in *.
      eapply codec_bind; [codec_atom|]. eapply codec_last; [codec_atom | done].
    + codec_step.
  - unfold function_metadata_type_len. destruct resolution as [[]|]; cbn; lia.
Qed.
