(* ===== verification/RoundTrip.v ===== *)
(** * Every schema entry decodes to the entity its macro denotes

    The codec of each producer, the [SchemaEntry] interface over them and the
    round trip of a whole [.pgrxsc] section: what the macros emit, however the
    linker orders the entries and pads the section, is what [decode_entities]
    returns. *)
From S2P Require Import Prelude Metadata Entities Wire Reader Producers Codec.

(** ** Parts of entities *)

Definition translatable_ok (T : SqlTranslatable) : bool :=
  str_ok (TYPE_IDENT T) && argument_sql_ok (ARGUMENT_SQL T) && return_sql_ok (RETURN_SQL T).

Definition used_type_ok (u : UsedType) : bool :=
  translatable_ok (uty_resolved_ty u) && str_ok (uty_resolved_ty_string u)
  && opt_ok str_ok (uty_composite_type u) && opt_ok str_ok (uty_default u).

(** Only lengths and validity of texts: no constraint on what they say. *)
Definition positioning_ref_ok (p : PositioningRef) : bool :=
  match p with FullPath s | Name s => str_ok s end.

Definition to_sql_config_ok (c : ToSqlConfigEntity) : bool := opt_ok str_ok (cfg_content c).

Definition extern_args_ok (a : ExternArgs) : bool :=
  match a with
  | ShouldPanic s | Schema s | ExternName s | Cost s => str_ok s
  | Support p => positioning_ref_ok p
  | Requires ps => list_ok positioning_ref_ok ps
  | _ => true
  end.

Definition pg_extern_argument_ok (a : PgExternArgument) : bool :=
  str_ok (pea_pat a) && used_type_ok (pea_used_ty a).

Definition search_path_ok (l : list SearchPath) : bool :=
  list_ok (fun p => str_ok (search_path_str p)) l.

Definition operator_ok (o : PgOperator) : bool :=
  let attr_ok := opt_ok (fun s => str_ok (remove_spaces s)) in
  opt_ok (fun s => str_ok (replacen_space 256 s)) (pop_opname o)
  && attr_ok (pop_commutator o) && attr_ok (pop_negator o)
  && attr_ok (pop_restrict o) && attr_ok (pop_join o).

Definition iterated_item_ok (i : ReturningIteratedItem) : bool :=
  used_type_ok (rii_used_ty i) && opt_ok str_ok (rii_name i).

Definition returning_ok (r : Returning) : bool :=
  match r with
  | Returning_None => true
  | Returning_Type ty | Returning_SetOf ty => used_type_ok ty
  | Returning_Iterated items => list_ok iterated_item_ok items
  end.

Definition aggregate_type_ok (a : AggregateType) : bool :=
  used_type_ok (aty_used_ty a) && opt_ok str_ok (aty_name a).

(** What a declaration must name for the reader to accept it: a type with a
    textual SQL name. *)
Definition declared_sql (T : SqlTranslatable) : option string :=
  match argument_sql T with
  | rOk (SqlMapping_As sql) => Some sql
  | _ => None
  end.

Definition sql_declared_ok (module_path : string) (d : SqlDeclared) : bool :=
  str_ok (section_identifier module_path d)
  && match d with
     | SqlDeclared_Type _ T | SqlDeclared_Enum _ T =>
         translatable_ok T && match declared_sql T with Some _ => true | None => false end
     | SqlDeclared_Function _ => true
     end.

Definition sql_declared_decoded (module_path : string) (d : SqlDeclared) : SqlDeclaredEntity :=
  let name := section_identifier module_path d in
  let data T := {| dt_sql := default "" (declared_sql T); dt_name := name;
                   dt_type_ident := TYPE_IDENT T |} in
  match d with
  | SqlDeclared_Type _ T => Declared_Type (data T)
  | SqlDeclared_Enum _ T => Declared_Enum (data T)
  | SqlDeclared_Function _ => Declared_Function {| df_sql := split_last name; df_name := name |}
  end.

Lemma codec_used_type u :
  used_type_ok u = true ->
  codec (used_type_section_len u) (used_type_section_writer u) read_used_type (used_type_entity u).
Proof.
  unfold used_type_ok, translatable_ok. intros H. split_ok.
  unfold read_used_type, used_type_section_writer. cbv zeta.
  eapply codec_ext; [wr_norm| |].
  - do 6 (eapply codec_bind; [codec_atom|]).
    eapply codec_last; [apply codec_function_metadata_type; [|done|done]|].
    + destruct (has_explicit_composite u); [done | cbn; by unfold resolution_ok].
    + unfold used_type_entity. destruct (has_explicit_composite u); done.
  - unfold used_type_section_len. destruct (has_explicit_composite u); cbn [fmap option_fmap option_map fst]; lia.
Qed.
#[export] Hint Resolve codec_used_type : codec.

Lemma codec_positioning_ref p :
  positioning_ref_ok p = true ->
  codec (positioning_ref_section_len p) (positioning_ref_section_writer p) read_positioning_ref p.
Proof.
  unfold read_positioning_ref, positioning_ref_section_writer.
  destruct p; intros Hp; codec_solve.
Qed.

Lemma codec_to_sql_config c :
  to_sql_config_ok c = true ->
  codec (to_sql_config_section_len c) (to_sql_config_section_writer c) read_to_sql_config c.
Proof.
  destruct c as [enabled content]. unfold to_sql_config_ok. cbn [cfg_content]. intros Hc.
  eapply codec_ext with (op := fun w => w_bool enabled w |>> w_opt w_str content).
  - intros w. unfold to_sql_config_section_writer. cbn [cfg_content cfg_enabled].
    destruct content; [apply wr_assoc | done].
  - unfold read_to_sql_config. codec_step.
  - unfold to_sql_config_section_len. destruct content; cbn; lia.
Qed.
#[export] Hint Resolve codec_positioning_ref codec_to_sql_config : codec.

Lemma codec_extern_args a :
  extern_args_ok a = true ->
  codec (extern_args_section_len a) (extern_args_section_writer a) read_extern_arg a.
Proof.
  unfold read_extern_arg, extern_args_section_writer. destruct a; intros Ha; codec_solve.
Qed.

Lemma codec_pg_extern_argument a :
  pg_extern_argument_ok a = true ->
  codec (pg_extern_argument_section_len a) (pg_extern_argument_section_writer a)
        read_pg_extern_argument (pg_extern_argument_entity a).
Proof.
  unfold pg_extern_argument_ok. intros H. split_ok.
  unfold read_pg_extern_argument, pg_extern_argument_section_writer. codec_solve.
Qed.

Lemma codec_cast c : codec (cast_section_len c) (cast_section_writer c) read_cast c.
Proof. unfold read_cast, cast_section_writer. destruct c; codec_solve. Qed.
#[export] Hint Resolve codec_extern_args codec_pg_extern_argument codec_cast : codec.

(** The optional search path: the list's own writer puts the [bool] tag. *)
Lemma codec_search_path o :
  opt_ok search_path_ok o = true ->
  codec (match o with Some l => search_path_section_len l | None => bool_len end)
        (match o with Some l => search_path_section_writer l | None => w_bool false end)
        read_search_path (map search_path_str <$> o).
Proof.
  unfold read_search_path. destruct o as [l|]; intros Hl.
  - unfold search_path_section_writer, search_path_section_len, search_path_ok in *.
    eapply codec_bind; [codec_atom|]. cbn [negb]. eapply codec_last; [|reflexivity].
    eapply codec_list_ok; [exact Hl | intros a Ha; by apply codec_str].
  - codec_solve.
Qed.

Lemma codec_opt_text (f : string -> string) (o : option string) :
  opt_ok (fun s => str_ok (f s)) o = true ->
  codec (opt_bool_len (fun s => str_len (f s)) o) (w_opt (fun s => w_str (f s)) o)
        read_option_str (f <$> o).
Proof.
  intros Ho. eapply (codec_opt_ok _ _ _ read_str f); [exact Ho|].
  intros a Ha. by apply codec_str.
Qed.

Lemma codec_operator o :
  operator_ok o = true ->
  codec (operator_section_len o) (operator_section_writer o) read_operator (operator_entity o).
Proof.
  unfold operator_ok. cbv zeta. intros H. split_ok.
  unfold read_operator, operator_section_writer. cbv zeta.
  eapply codec_ext; [wr_norm| |].
  - do 5 (eapply codec_bind; [by apply codec_opt_text|]).
    eapply codec_bind; [codec_atom|]. eapply codec_last; [codec_atom | done].
  - unfold operator_section_len. lia.
Qed.
#[export] Hint Resolve codec_search_path codec_operator : codec.

Lemma codec_iterated_item i :
  iterated_item_ok i = true ->
  codec (iterated_item_section_len i) (iterated_item_section_writer i) read_iterated_item
        (iterated_item_entity i).
Proof.
  unfold iterated_item_ok. intros H. split_ok.
  unfold read_iterated_item, iterated_item_section_writer, iterated_item_section_len. codec_solve.
Qed.

Lemma codec_aggregate_type a :
  aggregate_type_ok a = true ->
  codec (aggregate_type_section_len a) (aggregate_type_section_writer a) read_aggregate_type
        (aggregate_type_entity a).
Proof.
  unfold aggregate_type_ok. intros H. split_ok.
  unfold read_aggregate_type, aggregate_type_section_writer, aggregate_type_section_len. codec_solve.
Qed.
#[export] Hint Resolve codec_iterated_item codec_aggregate_type : codec.

Lemma codec_returning r :
  returning_ok r = true ->
  codec (returning_section_len r) (returning_section_writer r) read_pg_extern_return
        (returning_entity r).
Proof.
  unfold read_pg_extern_return, returning_section_writer. destruct r; intros Hr; codec_solve.
Qed.

Lemma codec_aggregate_type_list l :
  list_ok aggregate_type_ok l = true ->
  codec (aggregate_type_list_section_len l) (aggregate_type_list_section_writer l)
        read_aggregate_type_list (aggregate_type_list_entity l).
Proof. intros Hl. eapply codec_list_ok; [exact Hl | codec_atom]. Qed.
#[export] Hint Resolve codec_returning codec_aggregate_type_list : codec.

Lemma declared_sql_some T sql :
  declared_sql T = Some sql -> argument_sql T = rOk (SqlMapping_As sql).
Proof. unfold declared_sql. destruct (argument_sql T) as [[]|]; congruence. Qed.

Lemma codec_sql_declared module_path d :
  sql_declared_ok module_path d = true ->
  codec (sql_declared_section_len module_path d) (sql_declared_section_writer module_path d)
        read_sql_declared (sql_declared_decoded module_path d).
Proof.
  unfold sql_declared_ok, translatable_ok, read_sql_declared.
  unfold sql_declared_section_writer, sql_declared_section_len, sql_declared_decoded. cbv zeta.
  assert (Hdecl : forall T, (match declared_sql T with Some _ => true | None => false end) = true ->
            result_map sql_mapping_into (ARGUMENT_SQL T)
            = rOk (SqlMapping_As (default "" (declared_sql T)))).
  { intros T HT. destruct (declared_sql T) as [sql|] eqn:E; [|discriminate].
    by apply declared_sql_some in E. }
  destruct d as [v T|v T|v]; intros H; split_ok.
  3: codec_solve.
  all: eapply codec_ext; [wr_norm| |];
    [ do 2 (eapply codec_bind; [codec_atom|]); codec_tag;
      eapply codec_bind; [codec_atom|];
      eapply codec_last; [codec_atom | by rewrite Hdecl]
    | lia ].
Qed.

Lemma codec_modify {A} (tag : A -> Z) (m : rd A) (v : option (option A)) :
  (forall a, codec u8_len (w_u8 (tag a)) m a) ->
  codec (modify_len v) (modify_writer tag v) (read_opt m) (mjoin v).
Proof.
  intros H. unfold read_opt, modify_writer, modify_len. destruct v as [[a|]|].
  - eapply codec_bind; [apply codec_bool|]. eapply codec_last; [apply H | done].
  - eapply codec_last; [apply codec_bool | done].
  - eapply codec_last; [apply codec_bool | done].
Qed.

Lemma codec_finalize_modify a : codec u8_len (w_u8 (finalize_modify_tag a)) read_finalize_modify a.
Proof. unfold read_finalize_modify. destruct a; codec_solve. Qed.

Lemma codec_parallel a : codec u8_len (w_u8 (parallel_tag a)) read_parallel_option a.
Proof. unfold read_parallel_option. destruct a; codec_solve. Qed.
#[export] Hint Resolve codec_sql_declared codec_modify codec_finalize_modify codec_parallel : codec.

(** ** The interface between producers and the section

    A producer promises: under its well-formedness check, its payload writer
    appends exactly its payload length, and [decode_entity]'s [match] reads the
    payload back as the entity the item denotes. *)
Class SchemaEntry (A : Type) := {
  payload_len : A -> nat;
  payload_writer : A -> wr;
  payload_ok : A -> bool;
  payload_entity : A -> SqlGraphEntity;
  payload_codec : forall a, payload_ok a = true ->
    codec (payload_len a) (payload_writer a) decode_entity_body (payload_entity a);
}.

Definition site_ok (s : CallSite) : bool :=
  str_ok (site_module_path s) && str_ok (site_file s) && u32_ok (site_line s).

Definition schema_item_ok (s : SchemaItem) : bool := site_ok (si_site s) && str_ok (si_ident s).

Definition schema_item_entity (s : SchemaItem) : SqlGraphEntity :=
  Entity_Schema
    {| schema_module_path := site_module_path (si_site s); schema_name := si_ident s;
       schema_file := site_file (si_site s); schema_line := site_line (si_site s) |}.

Definition extension_sql_ok (e : ExtensionSql) : bool :=
  let attrs := sql_attrs (es_attrs e) in
  site_ok (es_site e) && str_ok (es_sql e) && str_ok (es_name e) && str_ok (es_full_path e)
  && list_ok positioning_ref_ok (sa_requires attrs)
  && list_ok (sql_declared_ok (site_module_path (es_site e))) (sa_creates attrs).

Definition extension_sql_entity (e : ExtensionSql) : SqlGraphEntity :=
  let site := es_site e in
  let attrs := sql_attrs (es_attrs e) in
  Entity_CustomSql
    {| sql_module_path := site_module_path site; sql_full_path := es_full_path e;
       sql_sql := es_sql e; sql_file := site_file site; sql_line := site_line site;
       sql_name := es_name e; sql_bootstrap := sa_bootstrap attrs;
       sql_finalize := sa_finalize attrs; sql_requires := sa_requires attrs;
       sql_creates := map (sql_declared_decoded (site_module_path site)) (sa_creates attrs) |}.

Definition pg_extern_ok (p : PgExtern) : bool :=
  site_ok (pe_site p) && str_ok (pe_name p) && str_ok (pe_ident p) && str_ok (pe_full_path p)
  && list_ok pg_extern_argument_ok (pe_inputs p) && returning_ok (pe_returns p)
  && opt_ok str_ok (pe_schema p) && list_ok extern_args_ok (pe_extern_args p)
  && opt_ok search_path_ok (pe_search_path p) && opt_ok operator_ok (pe_operator p)
  && to_sql_config_ok (pe_final_config p).

Definition pg_extern_entity (p : PgExtern) : SqlGraphEntity :=
  Entity_Function
    {| fn_name := pe_name p; fn_unaliased_name := pe_ident p;
       fn_module_path := site_module_path (pe_site p); fn_full_path := pe_full_path p;
       fn_fn_args := map pg_extern_argument_entity (pe_inputs p);
       fn_fn_return := returning_entity (pe_returns p);
       fn_schema := pe_schema p; fn_file := site_file (pe_site p); fn_line := site_line (pe_site p);
       fn_extern_attrs := pe_extern_args p;
       fn_search_path := map search_path_str <$> pe_search_path p;
       fn_operator := operator_entity <$> pe_operator p; fn_cast := pe_cast p;
       fn_to_sql_config := pe_final_config p |}.

Definition postgres_type_ok (t : PostgresTypeDerive) : bool :=
  site_ok (pt_site t) && str_ok (pt_name t) && str_ok (pt_type_text t) && str_ok (pt_type_ident t)
  && str_ok (pt_in_fn t) && str_ok (pt_out_fn t)
  && opt_ok str_ok (pt_receive_fn t) && opt_ok str_ok (pt_send_fn t)
  && to_sql_config_ok (pt_to_sql_config t)
  && opt_ok (fun align => Z.of_nat align <? 2 ^ 32) (pt_alignment t).

Definition postgres_type_entity (t : PostgresTypeDerive) : SqlGraphEntity :=
  Entity_Type
    {| type_name := pt_name t; type_file := site_file (pt_site t);
       type_line := site_line (pt_site t); type_full_path := pt_type_text t;
       type_module_path := site_module_path (pt_site t); type_type_ident := pt_type_ident t;
       type_in_fn_path := pt_in_fn t; type_out_fn_path := pt_out_fn t;
       type_receive_fn_path := pt_receive_fn t; type_send_fn_path := pt_send_fn t;
       type_to_sql_config := pt_to_sql_config t; type_alignment := Z.of_nat <$> pt_alignment t |}.

Definition postgres_enum_ok (e : PostgresEnum) : bool :=
  site_ok (pn_site e) && str_ok (pn_name e) && str_ok (pn_type_text e) && str_ok (pn_type_ident e)
  && list_ok str_ok (pn_variants e) && to_sql_config_ok (pn_to_sql_config e).

Definition postgres_enum_entity (e : PostgresEnum) : SqlGraphEntity :=
  Entity_Enum
    {| enum_name := pn_name e; enum_file := site_file (pn_site e);
       enum_line := site_line (pn_site e); enum_full_path := pn_type_text e;
       enum_module_path := site_module_path (pn_site e); enum_type_ident := pn_type_ident e;
       enum_variants := pn_variants e; enum_to_sql_config := pn_to_sql_config e |}.

Definition postgres_derive_ok (d : PostgresDerive) : bool :=
  site_ok (pd_site d) && str_ok (pd_name d) && str_ok (pd_type_ident d)
  && to_sql_config_ok (pd_to_sql_config d).

Definition postgres_ord_entity (d : PostgresDerive) : SqlGraphEntity :=
  Entity_Ord
    {| ord_name := pd_name d; ord_file := site_file (pd_site d); ord_line := site_line (pd_site d);
       ord_full_path := pd_name d; ord_module_path := site_module_path (pd_site d);
       ord_type_ident := pd_type_ident d; ord_to_sql_config := pd_to_sql_config d |}.

Definition postgres_hash_entity (d : PostgresDerive) : SqlGraphEntity :=
  Entity_Hash
    {| hash_name := pd_name d; hash_file := site_file (pd_site d);
       hash_line := site_line (pd_site d); hash_full_path := pd_name d;
       hash_module_path := site_module_path (pd_site d); hash_type_ident := pd_type_ident d;
       hash_to_sql_config := pd_to_sql_config d |}.

Definition pg_trigger_ok (t : PgTrigger) : bool :=
  site_ok (pg_site t) && str_ok (pg_func_ident t) && str_ok (pg_full_path t)
  && to_sql_config_ok (pg_to_sql_config t).

Definition pg_trigger_entity (t : PgTrigger) : SqlGraphEntity :=
  Entity_Trigger
    {| trg_function_name := pg_func_ident t; trg_to_sql_config := pg_to_sql_config t;
       trg_file := site_file (pg_site t); trg_line := site_line (pg_site t);
       trg_module_path := site_module_path (pg_site t); trg_full_path := pg_full_path t |}.

Definition aggregate_ok (a : PgAggregate) : bool :=
  site_ok (pa_site a) && str_ok (pa_full_path a) && str_ok (pa_name a)
  && list_ok aggregate_type_ok (pa_type_args a)
  && opt_ok (list_ok aggregate_type_ok) (pa_type_ordered_set_args a)
  && opt_ok used_type_ok (pa_type_moving_state a) && aggregate_type_ok (pa_type_stype a)
  && opt_ok str_ok (pa_const_initial_condition a) && opt_ok str_ok (pa_const_sort_operator a)
  && opt_ok str_ok (pa_const_moving_initial_condition a) && str_ok (pa_fn_state a)
  && opt_ok str_ok (pa_fn_finalize a) && opt_ok str_ok (pa_fn_combine a)
  && opt_ok str_ok (pa_fn_serial a) && opt_ok str_ok (pa_fn_deserial a)
  && opt_ok str_ok (pa_fn_moving_state a) && opt_ok str_ok (pa_fn_moving_state_inverse a)
  && opt_ok str_ok (pa_fn_moving_finalize a) && to_sql_config_ok (pa_to_sql_config a).

Definition aggregate_entity (a : PgAggregate) : SqlGraphEntity :=
  Entity_Aggregate
    {| agg_full_path := pa_full_path a; agg_module_path := site_module_path (pa_site a);
       agg_file := site_file (pa_site a); agg_line := site_line (pa_site a);
       agg_name := pa_name a; agg_ordered_set := pa_const_ordered_set a;
       agg_args := aggregate_type_list_entity (pa_type_args a);
       agg_direct_args := aggregate_type_list_entity <$> pa_type_ordered_set_args a;
       agg_stype := aggregate_type_entity (pa_type_stype a); agg_sfunc := pa_fn_state a;
       agg_finalfunc := pa_fn_finalize a;
       agg_finalfunc_modify := mjoin (pa_const_finalize_modify a);
       agg_combinefunc := pa_fn_combine a; agg_serialfunc := pa_fn_serial a;
       agg_deserialfunc := pa_fn_deserial a; agg_initcond := pa_const_initial_condition a;
       agg_msfunc := pa_fn_moving_state a; agg_minvfunc := pa_fn_moving_state_inverse a;
       agg_mstype := used_type_entity <$> pa_type_moving_state a;
       agg_mfinalfunc := pa_fn_moving_finalize a;
       agg_mfinalfunc_modify := mjoin (pa_const_moving_finalize_modify a);
       agg_minitcond := pa_const_moving_initial_condition a;
       agg_sortop := pa_const_sort_operator a; agg_parallel := mjoin (pa_const_parallel a);
       agg_hypothetical := pa_hypothetical a; agg_to_sql_config := pa_to_sql_config a |}.

(** [entry_solve ok writer len decoder]: the codec of a whole payload. *)
Tactic Notation "entry_solve" reference(ok) reference(writer) reference(len) reference(decoder) :=
  let H := fresh "H" in
  intros ? H; unfold ok, site_ok in H; cbv zeta in H; split_ok;
  unfold decode_entity_body, writer; cbv zeta;
  eapply codec_ext;
  [ wr_norm
  | eapply codec_bind; [codec_atom|]; cbv beta; codec_tag; unfold decoder; codec_step
  | unfold len; cbv zeta; lia ].

(** [opt_ok (fun _ => true)] is what a value without texts has to satisfy. *)
Lemma opt_ok_trivial {A} (o : option A) : opt_ok (fun _ => true) o = true.
Proof. by destruct o. Qed.

Lemma codec_opt_cast (c : option PgCastEntity) :
  codec (opt_bool_len cast_section_len c) (w_opt cast_section_writer c) (read_opt read_cast) c.
Proof. eapply codec_opt_id; [apply opt_ok_trivial | intros; apply codec_cast]. Qed.

Lemma codec_alignment (o : option nat) :
  opt_ok (fun align => Z.of_nat align <? 2 ^ 32) o = true ->
  codec (match o with Some _ => bool_len + u32_len | None => bool_len end)%nat
        (w_opt (fun align => w_u32 (as_u32 align)) o) (read_opt read_u32) (Z.of_nat <$> o).
Proof.
  intros Ho. eapply codec_ext; [wr_norm| |].
  - eapply (codec_opt_ok _ (fun _ => u32_len) _ _ Z.of_nat); [exact Ho|].
    intros a Ha%Z.ltb_lt. rewrite <- as_u32_small by done. apply codec_u32, as_u32_range.
  - by destruct o.
Qed.
#[export] Hint Resolve codec_opt_cast codec_alignment | 1 : codec.

Lemma schema_item_codec a :
  schema_item_ok a = true ->
  codec (schema_payload_len a) (schema_payload_writer a) decode_entity_body (schema_item_entity a).
Proof. revert a. entry_solve schema_item_ok schema_payload_writer schema_payload_len decode_schema. Qed.

Lemma extension_sql_codec a :
  extension_sql_ok a = true ->
  codec (extension_sql_payload_len a) (extension_sql_payload_writer a) decode_entity_body (extension_sql_entity a).
Proof. revert a. entry_solve extension_sql_ok extension_sql_payload_writer extension_sql_payload_len decode_custom_sql. Qed.

Lemma pg_extern_codec a :
  pg_extern_ok a = true ->
  codec (pg_extern_payload_len a) (pg_extern_payload_writer a) decode_entity_body (pg_extern_entity a).
Proof. revert a. entry_solve pg_extern_ok pg_extern_payload_writer pg_extern_payload_len decode_function. Qed.

Lemma postgres_type_codec a :
  postgres_type_ok a = true ->
  codec (postgres_type_payload_len a) (postgres_type_payload_writer a) decode_entity_body (postgres_type_entity a).
Proof. revert a. entry_solve postgres_type_ok postgres_type_payload_writer postgres_type_payload_len decode_type. Qed.

Lemma postgres_enum_codec a :
  postgres_enum_ok a = true ->
  codec (postgres_enum_payload_len a) (postgres_enum_payload_writer a) decode_entity_body (postgres_enum_entity a).
Proof. revert a. entry_solve postgres_enum_ok postgres_enum_payload_writer postgres_enum_payload_len decode_enum. Qed.

Lemma postgres_ord_codec a :
  postgres_derive_ok a = true ->
  codec (postgres_ord_payload_len a) (postgres_ord_payload_writer a) decode_entity_body (postgres_ord_entity a).
Proof. revert a. entry_solve postgres_derive_ok postgres_ord_payload_writer postgres_ord_payload_len decode_ord. Qed.

Lemma postgres_hash_codec a :
  postgres_derive_ok a = true ->
  codec (postgres_hash_payload_len a) (postgres_hash_payload_writer a) decode_entity_body (postgres_hash_entity a).
Proof. revert a. entry_solve postgres_derive_ok postgres_hash_payload_writer postgres_hash_payload_len decode_hash. Qed.

Lemma pg_trigger_codec a :
  pg_trigger_ok a = true ->
  codec (pg_trigger_payload_len a) (pg_trigger_payload_writer a) decode_entity_body (pg_trigger_entity a).
Proof. revert a. entry_solve pg_trigger_ok pg_trigger_payload_writer pg_trigger_payload_len decode_trigger. Qed.

Lemma aggregate_codec a :
  aggregate_ok a = true ->
  codec (aggregate_payload_len a) (aggregate_payload_writer a) decode_entity_body (aggregate_entity a).
Proof. revert a. entry_solve aggregate_ok aggregate_payload_writer aggregate_payload_len decode_aggregate. Qed.

(** ** All producers together *)

Inductive Item :=
| Item_Schema (a : SchemaItem)
| Item_CustomSql (a : ExtensionSql)
| Item_Function (a : PgExtern)
| Item_Type (a : PostgresTypeDerive)
| Item_Enum (a : PostgresEnum)
| Item_Ord (a : PostgresDerive)
| Item_Hash (a : PostgresDerive)
| Item_Aggregate (a : PgAggregate)
| Item_Trigger (a : PgTrigger).

Definition item_payload_len (i : Item) : nat :=
  match i with
  | Item_Schema a => schema_payload_len a
  | Item_CustomSql a => extension_sql_payload_len a
  | Item_Function a => pg_extern_payload_len a
  | Item_Type a => postgres_type_payload_len a
  | Item_Enum a => postgres_enum_payload_len a
  | Item_Ord a => postgres_ord_payload_len a
  | Item_Hash a => postgres_hash_payload_len a
  | Item_Aggregate a => aggregate_payload_len a
  | Item_Trigger a => pg_trigger_payload_len a
  end.

Definition item_payload_writer (i : Item) : wr :=
  match i with
  | Item_Schema a => schema_payload_writer a
  | Item_CustomSql a => extension_sql_payload_writer a
  | Item_Function a => pg_extern_payload_writer a
  | Item_Type a => postgres_type_payload_writer a
  | Item_Enum a => postgres_enum_payload_writer a
  | Item_Ord a => postgres_ord_payload_writer a
  | Item_Hash a => postgres_hash_payload_writer a
  | Item_Aggregate a => aggregate_payload_writer a
  | Item_Trigger a => pg_trigger_payload_writer a
  end.

Definition item_ok (i : Item) : bool :=
  match i with
  | Item_Schema a => schema_item_ok a
  | Item_CustomSql a => extension_sql_ok a
  | Item_Function a => pg_extern_ok a
  | Item_Type a => postgres_type_ok a
  | Item_Enum a => postgres_enum_ok a
  | Item_Ord a => postgres_derive_ok a
  | Item_Hash a => postgres_derive_ok a
  | Item_Aggregate a => aggregate_ok a
  | Item_Trigger a => pg_trigger_ok a
  end.

Definition item_entity (i : Item) : SqlGraphEntity :=
  match i with
  | Item_Schema a => schema_item_entity a
  | Item_CustomSql a => extension_sql_entity a
  | Item_Function a => pg_extern_entity a
  | Item_Type a => postgres_type_entity a
  | Item_Enum a => postgres_enum_entity a
  | Item_Ord a => postgres_ord_entity a
  | Item_Hash a => postgres_hash_entity a
  | Item_Aggregate a => aggregate_entity a
  | Item_Trigger a => pg_trigger_entity a
  end.

Lemma item_codec i :
  item_ok i = true ->
  codec (item_payload_len i) (item_payload_writer i) decode_entity_body (item_entity i).
Proof.
  destruct i; [ apply schema_item_codec | apply extension_sql_codec | apply pg_extern_codec
    | apply postgres_type_codec | apply postgres_enum_codec | apply postgres_ord_codec
    | apply postgres_hash_codec | apply aggregate_codec | apply pg_trigger_codec ].
Qed.

#[export] Instance item_schema_entry : SchemaEntry Item := {|
  payload_len := item_payload_len; payload_writer := item_payload_writer;
  payload_ok := item_ok; payload_entity := item_entity; payload_codec := item_codec |}.
