(* ===== verification/SchemaSection.v ===== *)
(** * The schema section

    [entry_payloads] and [decode_entities] on a whole [.pgrxsc] section: the
    framing is sound and complete, the decoder neither panics nor diverges on
    any bytes, and a section made of the macros' entries decodes to their
    entities.  The last result is proved against the [SchemaEntry] interface. *)
From S2P Require Import Prelude Metadata Entities Wire Reader Producers Codec RoundTrip.

(** ** Framing *)

Definition frame (p : bytes) : bytes := to_le_bytes (as_u32 (length p)) ++ p.

Definition payload_fits (p : bytes) : Prop := p <> [] /\ Z.of_nat (length p) < 2 ^ 32.

Lemma length_frame p : length (frame p) = (4 + length p)%nat.
Proof. unfold frame. by rewrite length_app, length_to_le_bytes. Qed.

Lemma all_zero_replicate n : all_zero (replicate n Byte.x00) = true.
Proof. induction n as [|n IH]; [done|]. cbn. exact IH. Qed.

Lemma all_zero_spec bs : all_zero bs = true -> bs = replicate (length bs) Byte.x00.
Proof.
  induction bs as [|b bs IH]; cbn; [done|]. intros [Hb Hbs]%andb_prop.
  apply Z.eqb_eq in Hb. rewrite <- (u8_of_to_Z b), Hb. cbn. f_equal. by apply IH.
Qed.

Lemma slice_tail (pre post : bytes) :
  slice (pre ++ post) (length pre) (length (pre ++ post)) = Some post.
Proof.
  pose proof (slice_middle pre post []) as H. rewrite app_nil_r, <- length_app in H. exact H.
Qed.

Lemma r_is_empty_app (pre post : bytes) :
  r_is_empty {| r_bytes := pre ++ post; r_pos := length pre |}
  = bool_decide (post = []).
Proof.
  unfold r_is_empty. cbn [r_bytes r_pos]. rewrite length_app.
  destruct post as [|b post]; cbn [length].
  - by rewrite (proj2 (Nat.leb_le _ _)) by lia.
  - by rewrite (proj2 (Nat.leb_gt _ _)) by lia.
Qed.

Lemma r_remaining_app (pre post : bytes) :
  r_remaining {| r_bytes := pre ++ post; r_pos := length pre |} = length post.
Proof. unfold r_remaining. cbn [r_bytes r_pos]. rewrite length_app. lia. Qed.

(** One turn of the loop at the start of a frame. *)
Lemma entry_payloads_step fuel pre p post out :
  payload_fits p ->
  entry_payloads_loop (S fuel) {| r_bytes := pre ++ frame p ++ post; r_pos := length pre |} out
  = entry_payloads_loop fuel
      {| r_bytes := pre ++ frame p ++ post; r_pos := length pre + length (frame p) |} (out ++ [p]).
Proof.
  intros [Hne Hlen]. cbn [entry_payloads_loop].
  rewrite r_is_empty_app, r_remaining_app.
  rewrite bool_decide_eq_false_2 by (destruct p; [done | discriminate]).
  rewrite (proj2 (Nat.ltb_ge _ _)) by (rewrite length_app, length_frame; lia).
  replace (pre ++ frame p ++ post)
    with (pre ++ to_le_bytes (as_u32 (length p)) ++ (p ++ post))
    by (unfold frame; by rewrite <- app_assoc).
  pose proof (reads_u32 (as_u32 (length p)) (as_u32_range _) pre (p ++ post)) as Hr.
  rewrite Hr. cbn [mbind outcome_bind].
  rewrite as_u32_small, Nat2Z.id by done. rewrite <- as_u32_small by done.
  rewrite (proj2 (Nat.eqb_neq _ _)) by (destruct p; [done | cbn; lia]).
  rewrite <- length_app. rewrite app_assoc.
  rewrite r_remaining_app.
  rewrite (proj2 (Nat.ltb_ge _ _)) by (rewrite length_app; lia).
  cbn [r_bytes r_pos]. rewrite slice_middle. cbn [unwrap mbind outcome_bind].
  unfold r_seek. cbn [r_bytes]. rewrite length_frame, length_app, length_to_le_bytes.
  by rewrite Nat.add_assoc.
Qed.

(** The loop on zero padding. *)
Lemma entry_payloads_padding fuel pre n out :
  (n <= fuel)%nat ->
  entry_payloads_loop fuel
    {| r_bytes := pre ++ replicate n Byte.x00; r_pos := length pre |} out = Ok out.
Proof.
  intros Hfuel. destruct n as [|n].
  - destruct fuel; cbn [entry_payloads_loop]; by rewrite r_is_empty_app.
  - destruct fuel as [|fuel]; [lia|]. cbn [entry_payloads_loop].
    rewrite r_is_empty_app, r_remaining_app, length_replicate.
    rewrite bool_decide_eq_false_2 by discriminate.
    destruct (S n <? 4)%nat eqn:Hn.
    + cbn [r_bytes r_pos]. rewrite slice_tail. cbn. by rewrite all_zero_replicate.
    + apply Nat.ltb_ge in Hn.
      replace (S n) with (4 + (n - 3))%nat by lia. rewrite replicate_add.
      change (replicate 4 Byte.x00) with (to_le_bytes 0).
      pose proof (reads_u32 0 ltac:(unfold is_u32; lia) pre (replicate (n - 3) Byte.x00)) as Hr.
      rewrite Hr. cbn [mbind outcome_bind].
      cbn [r_bytes r_pos]. change (Z.to_nat 0 =? 0)%nat with true. cbv iota.
      rewrite <- length_app, app_assoc, slice_tail. cbn. by rewrite all_zero_replicate.
Qed.

Lemma entry_payloads_frames ps n : forall fuel pre out,
  Forall payload_fits ps ->
  (length (concat (map frame ps)) + n <= fuel)%nat ->
  entry_payloads_loop fuel
    {| r_bytes := pre ++ concat (map frame ps) ++ replicate n Byte.x00; r_pos := length pre |} out
  = Ok (out ++ ps).
Proof.
  induction ps as [|p ps IH]; intros fuel pre out Hps Hfuel; cbn [map concat] in *.
  - rewrite app_nil_r. apply entry_payloads_padding. cbn in Hfuel. lia.
  - inversion Hps as [|? ? Hp Hps']; subst.
    rewrite length_app, length_frame in Hfuel. destruct fuel as [|fuel]; [lia|].
    rewrite <- app_assoc, entry_payloads_step by done.
    rewrite <- length_app, app_assoc, IH by (done || lia).
    by rewrite <- app_assoc.
Qed.

(** A section of frames with zero padding yields exactly the framed payloads. *)
Lemma entry_payloads_complete ps n :
  Forall payload_fits ps ->
  entry_payloads (concat (map frame ps) ++ replicate n Byte.x00) = Ok ps.
Proof.
  intros Hps. unfold entry_payloads, r_new.
  pose proof (entry_payloads_frames ps n
    (length (concat (map frame ps) ++ replicate n Byte.x00)) [] [] Hps) as H.
  cbn [app length] in H. apply H. rewrite length_app, length_replicate. lia.
Qed.

(** ** Safety of the reader

    [safe m]: from a position inside its slice, [m] does not panic, keeps the
    slice and moves the position forward, inside the slice. *)
Definition safe {A} (m : rd A) : Prop :=
  forall r, (r_pos r <= length (r_bytes r))%nat ->
  match m r with
  | Ok (_, r') => r_bytes r' = r_bytes r /\ (r_pos r <= r_pos r' <= length (r_bytes r))%nat
  | Err _ => True
  | Panic => False
  end.

Lemma safe_ret {A} (a : A) : safe (mret a).
Proof. intros r Hr. cbn. split; [done | lia]. Qed.

Lemma safe_fail {A} e : safe (rd_fail (A:=A) e).
Proof. intros r Hr. done. Qed.

Lemma safe_bind {A B} (m : rd A) (f : A -> rd B) :
  safe m -> (forall a, safe (f a)) -> safe (m ≫= f).
Proof.
  intros Hm Hf r Hr. specialize (Hm r Hr). unfold mbind, rd_bind.
  destruct (m r) as [[a r']| |]; [|done|done]. destruct Hm as [Hb Hp].
  rewrite <- Hb in Hp. specialize (Hf a r' ltac:(lia)).
  destruct (f a r') as [[b r'']| |]; [|done|done]. destruct Hf as [Hb' Hp'].
  split; [congruence | rewrite <- Hb; lia].
Qed.

Lemma safe_if {A} (b : bool) (m m' : rd A) : safe m -> safe m' -> safe (if b then m else m').
Proof. by destruct b. Qed.

Lemma safe_u8 : safe read_u8.
Proof.
  intros r Hr. unfold read_u8, r_remaining.
  destruct (_ <? 1)%nat eqn:Hlt; [done|]. apply Nat.ltb_ge in Hlt.
  destruct (r_bytes r !! r_pos r) eqn:Hl.
  - cbn. split; [done | lia].
  - apply lookup_ge_None in Hl. lia.
Qed.

Lemma slice_in_range (bs : bytes) start n :
  (start + n <= length bs)%nat -> slice bs start (start + n) = Some (take n (drop start bs)).
Proof.
  intros H. unfold slice. rewrite (proj2 (Nat.leb_le _ _)), (proj2 (Nat.leb_le _ _)) by lia.
  cbn. do 2 f_equal. lia.
Qed.

Lemma safe_slice n : safe (read_slice n).
Proof.
  intros r Hr. unfold read_slice, r_remaining.
  destruct (_ <? n)%nat eqn:Hlt; [done|]. apply Nat.ltb_ge in Hlt.
  rewrite slice_in_range by lia. cbn. split; [done | lia].
Qed.

Lemma safe_u32 : safe read_u32.
Proof.
  intros r Hr. unfold read_u32, r_remaining.
  destruct (_ <? 4)%nat eqn:Hlt; [done|]. apply Nat.ltb_ge in Hlt.
  rewrite slice_in_range by lia. cbn. split; [done | lia].
Qed.

Lemma safe_n {A} n (m : rd A) : safe m -> safe (read_n n m).
Proof.
  intros Hm. induction n as [|n IH]; [apply safe_ret|].
  apply safe_bind; [done|]. intros x. apply safe_bind; [done|]. intros xs. apply safe_ret.
Qed.

Lemma safe_finish : safe r_finish.
Proof. intros r Hr. unfold r_finish. destruct (r_is_empty r); [split; [done|lia] | done]. Qed.

Create HintDb safe discriminated.
#[export] Hint Resolve safe_ret safe_fail safe_bind safe_if safe_u8 safe_slice safe_u32 safe_n
  safe_finish : safe.

(** Walks a reader: binds, tag tests and matches, down to the safe leaves. *)
Ltac safe_walk :=
  repeat first
  [ apply safe_ret | apply safe_fail | solve [eauto with safe]
  | apply safe_bind; [| intros ?] | apply safe_if
  | match goal with |- safe (match ?x with _ => _ end) => destruct x end ].

Lemma safe_bool : safe read_bool.
Proof. unfold read_bool. safe_walk. Qed.
#[export] Hint Resolve safe_bool : safe.

Lemma safe_str : safe read_str.
Proof. unfold read_str, read_bytes. safe_walk. Qed.

Lemma safe_opt {A} (m : rd A) : safe m -> safe (read_opt m).
Proof. intros Hm. unfold read_opt. safe_walk. Qed.

Lemma safe_list {A} (m : rd A) : safe m -> safe (read_list m).
Proof. intros Hm. unfold read_list. safe_walk. Qed.
#[export] Hint Resolve safe_str safe_opt safe_list : safe.

Lemma safe_option_str : safe read_option_str.
Proof. apply safe_opt, safe_str. Qed.

Lemma safe_sql_mapping : safe read_sql_mapping_owned.
Proof.
  unfold read_sql_mapping_owned, read_sql_array_mapping_owned, read_numeric, read_string.
  safe_walk.
Qed.
#[export] Hint Resolve safe_option_str safe_sql_mapping : safe.

Lemma safe_argument_sql : safe read_argument_sql_owned.
Proof. unfold read_argument_sql_owned, read_argument_error, read_string. safe_walk. Qed.

Lemma safe_return_sql : safe read_return_sql_owned.
Proof. unfold read_return_sql_owned, read_returns_owned, read_returns_error. safe_walk. Qed.
#[export] Hint Resolve safe_argument_sql safe_return_sql : safe.

Lemma safe_used_type : safe read_used_type.
Proof.
  unfold read_used_type, read_function_metadata_type, read_resolution, read_type_origin.
  safe_walk.
Qed.

Lemma safe_positioning_ref : safe read_positioning_ref.
Proof. unfold read_positioning_ref, read_string. safe_walk. Qed.

Lemma safe_to_sql_config : safe read_to_sql_config.
Proof. unfold read_to_sql_config. safe_walk. Qed.

Lemma safe_sql_declared : safe read_sql_declared.
Proof. unfold read_sql_declared, read_string. safe_walk. Qed.
#[export] Hint Resolve safe_used_type safe_positioning_ref safe_to_sql_config safe_sql_declared
  : safe.

Lemma safe_extern_arg : safe read_extern_arg.
Proof. unfold read_extern_arg, read_string. safe_walk. Qed.

Lemma safe_pg_extern_return : safe read_pg_extern_return.
Proof. unfold read_pg_extern_return, read_iterated_item. safe_walk. Qed.

Lemma safe_aggregate_type : safe read_aggregate_type.
Proof. unfold read_aggregate_type. safe_walk. Qed.
#[export] Hint Resolve safe_extern_arg safe_pg_extern_return safe_aggregate_type : safe.

Lemma safe_decode_function : safe decode_function.
Proof.
  unfold decode_function, read_pg_extern_argument, read_search_path, read_operator, read_cast.
  safe_walk.
Qed.

Lemma safe_decode_aggregate : safe decode_aggregate.
Proof.
  unfold decode_aggregate, read_aggregate_type_list, read_finalize_modify, read_parallel_option.
  safe_walk.
Qed.
#[export] Hint Resolve safe_decode_function safe_decode_aggregate : safe.

Lemma safe_decode_entity_body : safe decode_entity_body.
Proof.
  unfold decode_entity_body, decode_schema, decode_custom_sql, decode_type, decode_enum,
    decode_ord, decode_hash, decode_trigger.
  safe_walk.
Qed.

Lemma decode_entity_no_panic payload : decode_entity payload <> Panic.
Proof.
  unfold decode_entity.
  assert (Hs : safe decode_entity_rd).
  { unfold decode_entity_rd. apply safe_bind; [apply safe_decode_entity_body|]. intros e.
    safe_walk. }
  specialize (Hs (r_new payload) ltac:(cbn; lia)).
  destruct (decode_entity_rd (r_new payload)) as [[e r]| |]; done.
Qed.

(** ** Framing, on arbitrary bytes *)

(** Four bytes are the little-endian form of the number they encode. *)
Lemma split_u32 (post : bytes) :
  (4 <= length post)%nat ->
  exists z rest, is_u32 z /\ post = to_le_bytes z ++ rest /\ length post = (4 + length rest)%nat.
Proof.
  intros H. exists (from_le_bytes (take 4 post)), (drop 4 post).
  assert (Hl : length (take 4 post) = 4%nat) by (rewrite length_take; lia).
  pose proof (from_le_bytes_range (take 4 post)) as Hr. rewrite Hl in Hr.
  change (256 ^ Z.of_nat 4) with (2 ^ 32) in Hr.
  split; [exact Hr|]. rewrite to_from_le_bytes by exact Hl.
  split; [by rewrite take_drop | rewrite length_drop; lia].
Qed.

(** What a run of the loop from the start of [post] can end in. *)
Definition payloads_spec (post : bytes) (out : list bytes)
    (res : outcome section_error (list bytes)) : Prop :=
  match res with
  | Ok ps => exists ps' n, ps = out ++ ps' /\ Forall payload_fits ps'
               /\ post = concat (map frame ps') ++ replicate n Byte.x00
  | Err _ => True
  | Panic => False
  end.

Lemma payloads_spec_zero post out :
  payloads_spec post out (if all_zero post then Ok out else Err InvalidTrailingBytes).
Proof.
  destruct (all_zero post) eqn:Hz; [|done]. exists [], (length post).
  split; [by rewrite app_nil_r|]. split; [constructor | by apply all_zero_spec].
Qed.

Lemma payloads_spec_zero_entry rest out :
  payloads_spec (to_le_bytes 0 ++ rest) out
    (if all_zero rest then Ok out else Err ZeroLengthEntry).
Proof.
  destruct (all_zero rest) eqn:Hz; [|done]. exists [], (4 + length rest)%nat.
  split; [by rewrite app_nil_r|]. split; [constructor|].
  rewrite replicate_add, <- all_zero_spec by done. reflexivity.
Qed.

Lemma payloads_spec_cons p rest out res :
  payload_fits p -> payloads_spec rest (out ++ [p]) res ->
  payloads_spec (frame p ++ rest) out res.
Proof.
  intros Hp. destruct res as [ps|e|]; cbn; [|done|done].
  intros (ps' & n & -> & Hps' & ->). exists (p :: ps'), n.
  split; [by rewrite <- app_assoc|]. split; [by constructor|].
  cbn. by rewrite <- app_assoc.
Qed.

Lemma entry_payloads_loop_spec fuel : forall pre post out,
  (length post <= fuel)%nat ->
  payloads_spec post out
    (entry_payloads_loop fuel {| r_bytes := pre ++ post; r_pos := length pre |} out).
Proof.
  induction fuel as [|fuel IH]; intros pre post out Hf; cbn [entry_payloads_loop];
    rewrite r_is_empty_app.
  - destruct post; [|cbn in Hf; lia]. apply (payloads_spec_zero [] out).
  - destruct (decide (post = [])) as [->|Hne].
    { apply (payloads_spec_zero [] out). }
    rewrite bool_decide_eq_false_2 by done. rewrite r_remaining_app.
    destruct (length post <? 4)%nat eqn:H4.
    { cbn [r_bytes r_pos]. rewrite slice_tail. apply payloads_spec_zero. }
    apply Nat.ltb_ge in H4.
    destruct (split_u32 post H4) as (z & rest & Hz & -> & Hlen).
    rewrite (reads_u32 z Hz pre rest). cbn [mbind outcome_bind r_bytes r_pos].
    rewrite <- length_app, app_assoc.
    destruct (Z.to_nat z =? 0)%nat eqn:Hz0.
    { apply Nat.eqb_eq in Hz0. rewrite slice_tail.
      assert (z = 0) as -> by (destruct Hz; lia). apply payloads_spec_zero_entry. }
    apply Nat.eqb_neq in Hz0. rewrite r_remaining_app.
    destruct (length rest <? Z.to_nat z)%nat eqn:Hr; [done|]. apply Nat.ltb_ge in Hr.
    assert (Hp : length (take (Z.to_nat z) rest) = Z.to_nat z) by (rewrite length_take; lia).
    pose proof Hz as [Hz1 Hz2].
    set (p := take (Z.to_nat z) rest) in *. set (rest' := drop (Z.to_nat z) rest).
    replace ((pre ++ to_le_bytes z) ++ rest) with ((pre ++ to_le_bytes z) ++ p ++ rest')
      by (unfold p, rest'; by rewrite take_drop).
    rewrite <- Hp, slice_middle. cbn [unwrap mbind outcome_bind]. unfold r_seek. cbn [r_bytes].
    replace (to_le_bytes z ++ rest) with (frame p ++ rest').
    2: { unfold frame. rewrite <- app_assoc, Hp. unfold p, rest'. rewrite take_drop.
         by rewrite as_u32_small, Z2Nat.id by (rewrite ?Z2Nat.id; lia). }
    apply payloads_spec_cons.
    + split; [intros E; rewrite E in Hp; cbn in Hp; lia | rewrite Hp, Z2Nat.id; lia].
    + rewrite <- length_app, app_assoc. apply IH.
      unfold rest'. rewrite length_drop. lia.
Qed.

Lemma entry_payloads_spec section : payloads_spec section [] (entry_payloads section).
Proof.
  unfold entry_payloads. apply (entry_payloads_loop_spec _ [] section []). done.
Qed.

(** ** Sections the linker builds *)

Section Linked.
Context {A : Type} `{SchemaEntry A}.

(** A contribution to the section: a macro's entry or the sentinel entry. *)
Inductive chunk :=
| Chunk_Entry (a : A)
| Chunk_Sentinel.

Definition chunk_bytes (c : chunk) : option bytes :=
  match c with
  | Chunk_Entry a => schema_entry (payload_len a) (payload_writer a)
  | Chunk_Sentinel => schema_section_sentinel_entry
  end.

(** The statics of the section one after the other (they are byte arrays, so
    there is no padding between them), and zero bytes up to its size. *)
Fixpoint link (chunks : list chunk) (padding : nat) : option bytes :=
  match chunks with
  | [] => Some (replicate padding Byte.x00)
  | c :: rest => b ← chunk_bytes c; bs ← link rest padding; Some (b ++ bs)
  end.

Definition chunk_entity (c : chunk) : option SqlGraphEntity :=
  match c with Chunk_Entry a => Some (payload_entity a) | Chunk_Sentinel => None end.

Definition chunk_ok (c : chunk) : bool :=
  match c with
  | Chunk_Entry a => payload_ok a && (Z.of_nat (payload_len a) <? 2 ^ 32)
  | Chunk_Sentinel => true
  end.

Lemma reads_decode_entity p e : reads decode_entity_body p e -> decode_entity p = Ok e.
Proof.
  intros Hr. specialize (Hr [] []). cbn in Hr. rewrite app_nil_r in Hr.
  unfold decode_entity, decode_entity_rd, r_new, mbind at 2, rd_bind. rewrite Hr.
  unfold mbind at 2, rd_bind, r_finish, r_is_empty. cbn [r_bytes r_pos].
  by rewrite Nat.leb_refl.
Qed.

Lemma reads_nonempty p e : reads decode_entity_body p e -> p <> [].
Proof. intros Hr ->. by specialize (Hr [] []). Qed.

Lemma sentinel_not_entity p e : decode_entity p = Ok e -> is_sentinel p = false.
Proof.
  intros Hp. unfold is_sentinel. apply bool_decide_eq_false_2. intros Hs.
  apply eq_sym in Hs. vm_compute in Hs. injection Hs as <-. vm_compute in Hp. discriminate.
Qed.

(** What an entry is: the frame of a payload that decodes to the item's entity. *)
Lemma entry_frame a :
  payload_ok a = true -> Z.of_nat (payload_len a) < 2 ^ 32 ->
  exists p, schema_entry (payload_len a) (payload_writer a) = Some (frame p)
    /\ payload_fits p /\ reads decode_entity_body p (payload_entity a).
Proof.
  intros Hok Hlen. destruct (payload_codec a Hok) as (p & He & Hl & Hr). exists p.
  split; [|split; [split; [by eapply reads_nonempty | by rewrite Hl] | done]].
  unfold schema_entry. cbv zeta.
  pose proof (w_finish_exact (u32_len + payload_len a)
    (fun w => w_u32 (as_u32 (payload_len a)) w |>> payload_writer a) (frame p)) as Hf.
  cbv beta in Hf. rewrite Hf.
  - rewrite length_frame, Hl. by rewrite (proj2 (Nat.eqb_eq _ _)) by done.
  - unfold frame. rewrite Hl. apply emits_chain; [apply emits_u32 | done].
Qed.

Lemma chunk_frame c :
  chunk_ok c = true ->
  exists p, chunk_bytes c = Some (frame p) /\ payload_fits p
    /\ match chunk_entity c with
       | Some e => is_sentinel p = false /\ decode_entity p = Ok e
       | None => is_sentinel p = true
       end.
Proof.
  destruct c as [a|]; cbn [chunk_ok chunk_bytes chunk_entity].
  - intros [Hok Hlen%Z.ltb_lt]%andb_prop.
    destruct (entry_frame a Hok Hlen) as (p & Hp & Hfit & Hr).
    apply reads_decode_entity in Hr. exists p. eauto using sentinel_not_entity.
  - intros _. destruct SECTION_SENTINEL_PAYLOAD as [p|] eqn:Hp; [|by vm_compute in Hp].
    exists p. split; [|split; [|unfold is_sentinel; by rewrite Hp, bool_decide_eq_true_2]].
    + vm_compute in Hp. injection Hp as <-. by vm_compute.
    + vm_compute in Hp. injection Hp as <-. split; [discriminate | by vm_compute].
Qed.

Lemma link_frames chunks padding :
  forallb chunk_ok chunks = true ->
  exists ps, link chunks padding = Some (concat (map frame ps) ++ replicate padding Byte.x00)
    /\ Forall payload_fits ps
    /\ collect decode_entity (filter (fun p => is_sentinel p = false) ps)
       = Ok (omap chunk_entity chunks).
Proof.
  induction chunks as [|c chunks IH]; cbn [forallb link]; intros Hok.
  - exists []. eauto.
  - apply andb_prop in Hok as [Hc Hcs]. destruct (IH Hcs) as (ps & -> & Hps & Hdec).
    destruct (chunk_frame c Hc) as (p & -> & Hp & Hsp). exists (p :: ps). split; [|split].
    + cbn. by rewrite <- app_assoc.
    + by constructor.
    + cbn [omap list_omap]. destruct (chunk_entity c) as [e|].
      * destruct Hsp as [Hs He]. rewrite filter_cons_True by done. cbn. by rewrite He, Hdec.
      * rewrite filter_cons_False by congruence. exact Hdec.
Qed.

Lemma link_decodes chunks padding :
  forallb chunk_ok chunks = true ->
  exists section, link chunks padding = Some section
    /\ decode_entities section = Ok (omap chunk_entity chunks).
Proof.
  intros Hok. destruct (link_frames chunks padding Hok) as (ps & Hl & Hps & Hdec).
  eexists. split; [exact Hl|]. unfold decode_entities.
  rewrite entry_payloads_complete by done. exact Hdec.
Qed.

End Linked.
Arguments chunk : clear implicits.

(** ** Properties *)

(** C1. The schema section round trip.  Whatever well-formed items an extension
    declares, wherever the sentinel entries land and however many zero bytes pad
    the section, every entry compiles (no writer runs past its array or stops
    short of it) and [decode_entities] returns exactly the entities of the
    items, in the order of the section. *)
Theorem schema_section_round_trip (chunks : list (chunk Item)) (padding : nat) :
  forallb chunk_ok chunks = true ->
  exists section, link chunks padding = Some section
    /\ decode_entities section = Ok (omap chunk_entity chunks).
Proof. apply link_decodes. Qed.

(** C4. [decode_entities] is total: on every byte sequence it ends, with a
    value or an error, and neither an index, a slice nor an [expect] of the
    reader panics. *)
Theorem decode_entities_total (section : bytes) : decode_entities section <> Panic.
Proof.
  unfold decode_entities. apply outcome_bind_panic.
  - pose proof (entry_payloads_spec section) as Hs. intros E. by rewrite E in Hs.
  - intros ps _. apply collect_no_panic. intros p _. apply decode_entity_no_panic.
Qed.

(** [entry_payloads] parses exactly the framing: it returns [ps] if and only
    if the section is each payload of [ps], none of them empty, behind its
    little-endian [u32] length, followed by nothing but zero bytes. *)
Theorem entry_payloads_iff (section : bytes) (ps : list bytes) :
  entry_payloads section = Ok ps <->
  Forall payload_fits ps
  /\ exists padding, section = concat (map frame ps) ++ replicate padding Byte.x00.
Proof.
  split.
  - intros E. pose proof (entry_payloads_spec section) as Hs. rewrite E in Hs.
    destruct Hs as (ps' & n & -> & Hps & ->). eauto.
  - intros [Hps [n ->]]. by apply entry_payloads_complete.
Qed.

(** C5. The declared length is exact: an item's writer chain finishes in an
    [EntryWriter<N>] if and only if [N] is four plus the item's payload length;
    any other length is a compile-time panic. *)
Theorem entry_length_exact (i : Item) (N : nat) :
  item_ok i = true ->
  is_Some (w_u32 (as_u32 (item_payload_len i)) (w_new N) |>> item_payload_writer i |>> w_finish)
  <-> N = (u32_len + item_payload_len i)%nat.
Proof.
  intros Hok. destruct (item_codec i Hok) as (p & He & Hl & _).
  pose proof (w_finish_exact N
    (fun w => w_u32 (as_u32 (item_payload_len i)) w |>> item_payload_writer i)
    (to_le_bytes (as_u32 (item_payload_len i)) ++ p)) as Hf.
  cbv beta in Hf. rewrite Hf by (apply emits_chain; [apply emits_u32 | done]).
  rewrite length_app, length_to_le_bytes, Hl. unfold u32_len.
  destruct (N =? 4 + item_payload_len i)%nat eqn:E.
  - apply Nat.eqb_eq in E. split; [done | eauto].
  - apply Nat.eqb_neq in E. split; [intros [? [=]] | done].
Qed.

(** Nothing may follow an entity in its payload: [decode_entity] on the
    payload of a well-formed item with extra bytes appended reports exactly that
    many trailing bytes. *)
Theorem decode_entity_trailing (i : Item) (p extra : bytes) :
  item_ok i = true ->
  item_payload_writer i (w_new (item_payload_len i)) |>> w_finish = Some p ->
  extra <> [] ->
  decode_entity p = Ok (item_entity i)
  /\ decode_entity (p ++ extra) = Err (TrailingBytes (length extra)).
Proof.
  intros Hok Hp Hne. destruct (item_codec i Hok) as (p' & He & Hl & Hr).
  rewrite (w_finish_exact _ _ p' He), Hl, Nat.eqb_refl in Hp. injection Hp as <-.
  split; [by apply reads_decode_entity|].
  specialize (Hr [] extra). cbn in Hr.
  unfold decode_entity, decode_entity_rd, r_new, mbind at 2, rd_bind. rewrite Hr.
  unfold mbind at 2, rd_bind, r_finish, r_is_empty, r_remaining. cbn [r_bytes r_pos].
  rewrite length_app. rewrite (proj2 (Nat.leb_gt _ _)) by (destruct extra; [done | cbn; lia]).
  cbn. do 2 f_equal. lia.
Qed.

(** Where [SqlDeclaredEntity::build_type] and [SqlDeclaredEntity::build] accept a declaration,
    the section carries the same entity: its bytes decode to what the
    constructor builds. *)
Theorem sql_declared_agrees (module_path : string) (d : SqlDeclared) (e : SqlDeclaredEntity) :
  sql_declared_ok module_path d = true ->
  sql_declared_entity module_path d = Ok e ->
  codec (sql_declared_section_len module_path d) (sql_declared_section_writer module_path d)
        read_sql_declared e.
Proof.
  intros Hok Hb. replace e with (sql_declared_decoded module_path d); [by apply codec_sql_declared|].
  unfold sql_declared_entity, build_type, sql_declared_decoded, declared_sql in *.
  destruct d as [v T|v T|v]; cbn in *.
  3: by injection Hb as <-.
  all: destruct (decide (TYPE_ORIGIN T = External)); [discriminate|].
  all: destruct (argument_sql T) as [[sql| | |]|]; try discriminate; by injection Hb as <-.
Qed.

(** The section does not carry the origin of a declared type: a
    declaration of a type another extension owns, which
    [SqlDeclaredEntity::build_type] refuses, is written, read back and accepted. *)
Theorem external_declaration_accepted (module_path value : string) (T : SqlTranslatable) :
  TYPE_ORIGIN T = External ->
  sql_declared_ok module_path (SqlDeclared_Type value T) = true ->
  sql_declared_entity module_path (SqlDeclared_Type value T) = Err NotExtensionOwned
  /\ codec (sql_declared_section_len module_path (SqlDeclared_Type value T))
           (sql_declared_section_writer module_path (SqlDeclared_Type value T))
           read_sql_declared (sql_declared_decoded module_path (SqlDeclared_Type value T)).
Proof.
  intros Ho Hok. split.
  - cbn. unfold build_type. cbn. by rewrite decide_True.
  - by apply codec_sql_declared.
Qed.

(** ** Witnesses *)

Definition ex_site : CallSite :=
  {| site_module_path := "demo::tests"; site_file := "src/lib.rs"; site_line := 42 |}.

Definition ex_config : ToSqlConfigEntity := {| cfg_enabled := true; cfg_content := None |}.

Definition ex_text : UsedType :=
  {| uty_resolved_ty := {| TYPE_IDENT := "alloc::string::String"; TYPE_ORIGIN := External;
       ARGUMENT_SQL := rOk (SqlMappingRef_As "TEXT");
       RETURN_SQL := rOk (ReturnsRef_One (SqlMappingRef_As "TEXT")) |};
     uty_resolved_ty_string := "String"; uty_composite_type := None; uty_variadic := false;
     uty_default := Some "'x'"; uty_optional := true |}.

Definition ex_function : Item :=
  Item_Function
    {| pe_site := ex_site; pe_ident := "hello"; pe_attrs := [Attr_Strict; Attr_Name "greet"];
       pe_to_sql_config := ex_config; pe_overridden := None; pe_operator := None;
       pe_cast := Some Cast_Implicit; pe_search_path := None;
       pe_inputs := [{| pea_pat := "who"; pea_used_ty := ex_text |}];
       pe_returns := Returning_SetOf ex_text |}.

Definition ex_schema : Item := Item_Schema {| si_site := ex_site; si_ident := "tests" |}.

Definition ex_external : SqlTranslatable :=
  {| TYPE_IDENT := "other::Thing"; TYPE_ORIGIN := External;
     ARGUMENT_SQL := rOk (SqlMappingRef_As "thing");
     RETURN_SQL := rOk (ReturnsRef_One (SqlMappingRef_As "thing")) |}.

Lemma schema_section_round_trip_witness :
  exists section,
    link [Chunk_Entry ex_function; Chunk_Sentinel; Chunk_Entry ex_schema] 7 = Some section
    /\ decode_entities section = Ok [item_entity ex_function; item_entity ex_schema].
Proof.
  apply (schema_section_round_trip
    [Chunk_Entry ex_function; Chunk_Sentinel; Chunk_Entry ex_schema] 7).
  vm_compute. reflexivity.
Defined.

Lemma entry_length_exact_witness :
  is_Some (w_u32 (as_u32 (item_payload_len ex_function)) (w_new 100)
           |>> item_payload_writer ex_function |>> w_finish)
  <-> 100%nat = (u32_len + item_payload_len ex_function)%nat.
Proof. apply (entry_length_exact ex_function 100). vm_compute. reflexivity. Defined.

Lemma decode_entity_trailing_witness :
  exists p, decode_entity p = Ok (item_entity ex_schema)
    /\ decode_entity (p ++ [Byte.x00]) = Err (TrailingBytes 1).
Proof.
  eexists. apply (decode_entity_trailing ex_schema _ [Byte.x00]).
  - vm_compute. reflexivity.
  - vm_compute. reflexivity.
  - discriminate.
Defined.

Lemma sql_declared_agrees_witness :
  codec 12 (sql_declared_section_writer "demo" (SqlDeclared_Function "f")) read_sql_declared
        (Declared_Function {| df_sql := "f"; df_name := "demo::f" |}).
Proof.
  apply (sql_declared_agrees "demo" (SqlDeclared_Function "f")); vm_compute; reflexivity.
Defined.

Lemma external_declaration_accepted_witness :
  sql_declared_entity "demo" (SqlDeclared_Type "Thing" ex_external) = Err NotExtensionOwned
  /\ codec 43 (sql_declared_section_writer "demo" (SqlDeclared_Type "Thing" ex_external))
       read_sql_declared
       (Declared_Type {| dt_sql := "thing"; dt_name := "demo::Thing"; dt_type_ident := "other::Thing" |}).
Proof. apply (external_declaration_accepted "demo" "Thing" ex_external); vm_compute; reflexivity. Defined.
