(* ===== verification/Graph.v ===== *)
(** * The graph the entities live in

    [petgraph]'s [StableGraph] is code outside the repository: the operations
    the schema generator calls are the class [StableGraph], and what their
    documentation promises is the class [StableGraphLaws].  [ListGraph] is a
    concrete instance (nodes and edges as lists) that discharges the laws.
    [HashOrder] is the unspecified iteration order of [std::collections::HashMap].

    A [NodeIndex] is its [usize] index. *)
From S2P Require Import Prelude Metadata Entities.

Abbreviation NodeIndex := nat.

Inductive SqlGraphRequires := By | ByArg | ByReturn.

#[export] Instance SqlGraphRequires_eq_dec : EqDecision SqlGraphRequires.
Proof. solve_decision. Defined.

(** [g_add_edge] is [None] where [add_edge] panics (a node does not exist);
    [g_weight] is [None] where indexing the graph panics; [g_edges] are the
    targets and weights of the outgoing edges. *)
Class StableGraph (G : Type) := {
  g_new : G;
  g_add_node : SqlGraphEntity -> G -> NodeIndex * G;
  g_add_edge : NodeIndex -> NodeIndex -> SqlGraphRequires -> G -> option G;
  g_weight : G -> NodeIndex -> option SqlGraphEntity;
  g_node_indices : G -> list NodeIndex;
  g_edges : G -> NodeIndex -> list (NodeIndex * SqlGraphRequires);
  g_incoming : G -> NodeIndex -> list NodeIndex;
  g_undirected : G -> NodeIndex -> list NodeIndex;
}.

Definition has_edge `{StableGraph G} (g : G) (a b : NodeIndex) (w : SqlGraphRequires) : Prop :=
  (b, w) ∈ g_edges g a.

#[export] Instance has_edge_dec `{StableGraph G} (g : G) a b w : Decision (has_edge g a b w).
Proof. unfold has_edge. apply _. Defined.

Class StableGraphLaws (G : Type) `{StableGraph G} := {
  new_weight : forall i, g_weight g_new i = None;
  new_edges : forall a b w, ~ has_edge g_new a b w;
  node_indices_spec : forall g i, i ∈ g_node_indices g <-> is_Some (g_weight g i);
  add_node_fresh : forall e g i g', g_add_node e g = (i, g') -> g_weight g i = None;
  add_node_weight : forall e g i g', g_add_node e g = (i, g') ->
    forall j, g_weight g' j = if decide (j = i) then Some e else g_weight g j;
  add_node_edges : forall e g i g', g_add_node e g = (i, g') ->
    forall a b w, has_edge g' a b w <-> has_edge g a b w;
  add_edge_defined : forall a b w g, is_Some (g_weight g a) -> is_Some (g_weight g b) ->
    is_Some (g_add_edge a b w g);
  add_edge_weight : forall a b w g g', g_add_edge a b w g = Some g' ->
    forall j, g_weight g' j = g_weight g j;
  add_edge_edges : forall a b w g g', g_add_edge a b w g = Some g' ->
    forall x y v, has_edge g' x y v <-> has_edge g x y v \/ (x = a /\ y = b /\ v = w);
  incoming_spec : forall g a b, a ∈ g_incoming g b <-> exists w, has_edge g a b w;
  undirected_spec : forall g a b,
    b ∈ g_undirected g a <-> (exists w, has_edge g a b w) \/ (exists w, has_edge g b a w);
}.

(** Edges join existing nodes; every graph the generator builds is so. *)
Definition graph_wf `{StableGraph G} (g : G) : Prop :=
  forall a b w, has_edge g a b w -> is_Some (g_weight g a) /\ is_Some (g_weight g b).

(** ** Reachability and the order of [tarjan_scc] *)

Inductive reach `{StableGraph G} (g : G) : NodeIndex -> NodeIndex -> Prop :=
| reach_refl a : reach g a a
| reach_step a b c w : has_edge g a b w -> reach g b c -> reach g a c.

(** [petgraph::algo::tarjan_scc] returns the strongly connected components of
    the graph in postorder, a reverse topological order: the components cover
    the nodes, each node once; two nodes share a component if and only if each
    reaches the other; the target of an edge between components comes first. *)
Record scc_postorder `{StableGraph G} (g : G) (components : list (list NodeIndex)) : Prop := {
  scc_nodup : NoDup (concat components);
  scc_cover : forall i, i ∈ concat components <-> is_Some (g_weight g i);
  scc_strong : forall c a b, c ∈ components -> a ∈ c -> b ∈ c <-> reach g a b /\ reach g b a;
  scc_order : forall i j ci cj a b w, components !! i = Some ci -> components !! j = Some cj ->
    a ∈ ci -> b ∈ cj -> has_edge g a b w -> (j <= i)%nat;
}.

(** ** [HashMap] iteration *)

Class HashOrder := {
  hash_order : forall {A : Type}, list A -> list A;
  hash_order_perm : forall {A : Type} (l : list A), hash_order l ≡ₚ l;
}.

(** ** A concrete graph *)

Record ListGraph := {
  lg_nodes : list SqlGraphEntity;
  lg_edges : list (NodeIndex * NodeIndex * SqlGraphRequires);
}.

Definition lg_add_node (e : SqlGraphEntity) (g : ListGraph) : NodeIndex * ListGraph :=
  (length (lg_nodes g), {| lg_nodes := lg_nodes g ++ [e]; lg_edges := lg_edges g |}).

Definition lg_add_edge (a b : NodeIndex) (w : SqlGraphRequires) (g : ListGraph) : option ListGraph :=
  if (a <? length (lg_nodes g))%nat && (b <? length (lg_nodes g))%nat
  then Some {| lg_nodes := lg_nodes g; lg_edges := (a, b, w) :: lg_edges g |}
  else None.

Definition lg_out (g : ListGraph) (a : NodeIndex) : list (NodeIndex * SqlGraphRequires) :=
  omap (fun '(x, y, w) => if decide (x = a) then Some (y, w) else None) (lg_edges g).

Definition lg_in (g : ListGraph) (b : NodeIndex) : list NodeIndex :=
  omap (fun '(x, y, w) => if decide (y = b) then Some x else None) (lg_edges g).

#[export] Instance list_graph : StableGraph ListGraph := {|
  g_new := {| lg_nodes := []; lg_edges := [] |};
  g_add_node := lg_add_node;
  g_add_edge := lg_add_edge;
  g_weight := fun g i => lg_nodes g !! i;
  g_node_indices := fun g => seq 0 (length (lg_nodes g));
  g_edges := lg_out;
  g_incoming := lg_in;
  g_undirected := fun g a => map fst (lg_out g a) ++ lg_in g a;
|}.

Lemma elem_of_lg_out g a b w : (b, w) ∈ lg_out g a <-> (a, b, w) ∈ lg_edges g.
Proof.
  unfold lg_out. rewrite list_elem_of_omap. split.
  - intros ([[x y] v] & Hin & Heq). case_decide; [|discriminate]. by simplify_eq.
  - intros Hin. exists (a, b, w). split; [done|]. by rewrite decide_True.
Qed.

Lemma elem_of_lg_in g a b : a ∈ lg_in g b <-> exists w, (a, b, w) ∈ lg_edges g.
Proof.
  unfold lg_in. rewrite list_elem_of_omap. split.
  - intros ([[x y] v] & Hin & Heq). case_decide; [|discriminate]. simplify_eq. eauto.
  - intros [w Hin]. exists (a, b, w). split; [done|]. by rewrite decide_True.
Qed.

Lemma elem_of_lg_fst g a b : b ∈ map fst (lg_out g a) <-> exists w, (a, b, w) ∈ lg_edges g.
Proof.
  rewrite list_elem_of_In, in_map_iff. split.
  - intros ([y w] & <- & Hin). apply list_elem_of_In, elem_of_lg_out in Hin. eauto.
  - intros [w Hin]. exists (b, w). split; [done|]. by apply list_elem_of_In, elem_of_lg_out.
Qed.

#[export] Instance list_graph_laws : StableGraphLaws ListGraph.
Proof.
  split.
  - done.
  - intros a b w H. apply elem_of_nil in H. done.
  - intros g i. cbn [g_node_indices g_weight list_graph]. rewrite elem_of_seq, lookup_lt_is_Some. lia.
  - intros e g i g' [= <- <-]. apply lookup_ge_None_2. done.
  - intros e g i g' [= <- <-] j. cbn. case_decide as Hj.
    + subst j. apply list_lookup_middle. done.
    + destruct (decide (j < length (lg_nodes g))%nat).
      * by rewrite lookup_app_l.
      * rewrite !lookup_ge_None_2; [done | lia | rewrite length_app; cbn; lia].
  - intros e g i g' [= <- <-] a b w. done.
  - intros a b w g [ea Ha] [eb Hb]. apply lookup_lt_Some in Ha, Hb. cbn in *.
    unfold lg_add_edge.
    rewrite (proj2 (Nat.ltb_lt a _)), (proj2 (Nat.ltb_lt b _)) by done. cbn. eauto.
  - intros a b w g g'. cbn. unfold lg_add_edge. by destruct (_ && _); intros [= <-].
  - intros a b w g g'. cbn. unfold lg_add_edge. destruct (_ && _); intros [= <-] x y v.
    unfold has_edge. cbn [g_edges list_graph]. rewrite !elem_of_lg_out. cbn [lg_edges].
    rewrite elem_of_cons. split; [intros [[= -> -> ->]|]; auto | intros [|(-> & -> & ->)]; auto].
  - intros g a b. unfold has_edge. cbn [g_edges g_incoming list_graph]. rewrite elem_of_lg_in.
    by setoid_rewrite elem_of_lg_out.
  - intros g a b. unfold has_edge. cbn [g_edges g_undirected list_graph].
    rewrite elem_of_app, elem_of_lg_in, elem_of_lg_fst.
    by setoid_rewrite elem_of_lg_out.
Qed.

(** The identity and the reversal are two iteration orders. *)
Definition hash_order_id : HashOrder := {| hash_order := fun A l => l; hash_order_perm := fun A l => Permutation_refl l |}.

Definition hash_order_rev : HashOrder :=
  {| hash_order := fun A l => reverse l; hash_order_perm := fun A l => reverse_Permutation l |}.
