(* ===== verification/EmitOrder.v ===== *)
(** * The order of emission inside a connected component

    [PgrxSql::connected_component_emit_order] of
    [pgrx-sql-entity-graph/src/pgrx_sql.rs]: Kahn's algorithm over the explicit
    ([By]) edges of one strongly connected component, the smallest ready entity
    first.  The two [HashMap]s are [gmap]s; the one iteration over a map goes
    through [hash_order].  A failed [expect] or index and the underflow of the
    counter are [Panic]; so is running out of fuel, which the theorems exclude. *)
From S2P Require Import Prelude Metadata Entities EntityOrd Graph.
From stdpp Require Import sorting list gmap.
#[local] Set Warnings "-clear-no-such-hyp".

(** ** The order on nodes *)

Section Definitions.
Context {G : Type} `{StableGraph G} `{HashOrder} {E : Type}.

(** [self.graph[left].cmp(&self.graph[right]).then_with(|| index order)] *)
Definition node_key (g : G) (n : NodeIndex) : okey :=
  match g_weight g n with
  | Some e => KList [key e; KInt (Z.of_nat n)]
  | None => KInt (Z.of_nat n)
  end.

Definition node_le (g : G) (a b : NodeIndex) : Prop := kcmp (node_key g a) (node_key g b) <> Gt.

#[global] Instance node_le_dec g a b : Decision (node_le g a b).
Proof. unfold node_le. apply _. Defined.

Definition node_missing (g : G) (n : NodeIndex) : bool :=
  match g_weight g n with Some _ => false | None => true end.

(** [ready.sort_unstable_by(..)]: with two or more elements each of them is
    compared, which indexes the graph. *)
Definition sort_ready (g : G) (ready : list NodeIndex) : outcome E (list NodeIndex) :=
  if (1 <? length ready)%nat && existsb (node_missing g) ready then Panic
  else Ok (merge_sort (node_le g) ready).

(** ** Counting the explicit edges *)

Record explicit := {
  ex_dependents : gmap NodeIndex (list NodeIndex);
  ex_remaining : gmap NodeIndex nat;
  ex_has_edges : bool;
}.

Definition init_node (st : explicit) (node : NodeIndex) : explicit :=
  {| ex_dependents := <[node := []]> (ex_dependents st);
     ex_remaining := <[node := 0%nat]> (ex_remaining st);
     ex_has_edges := ex_has_edges st |}.

Definition note_edge (node : NodeIndex) (st : explicit) (edge : NodeIndex * SqlGraphRequires)
    : outcome E explicit :=
  let '(dependent, weight) := edge in
  if decide (weight <> By) then Ok st
  else match ex_remaining st !! dependent with
  | None => Ok st
  | Some remaining =>
      dependents ← unwrap (ex_dependents st !! node);
      Ok {| ex_dependents := <[node := dependents ++ [dependent]]> (ex_dependents st);
            ex_remaining := <[dependent := S remaining]> (ex_remaining st);
            ex_has_edges := true |}
  end.

Definition note_node (g : G) (st : explicit) (node : NodeIndex) : outcome E explicit :=
  fold_outcome (note_edge node) st (g_edges g node).

Definition explicit_edges (g : G) (nodes : list NodeIndex) : outcome E explicit :=
  let st := foldl init_node
    {| ex_dependents := ∅; ex_remaining := ∅; ex_has_edges := false |} nodes in
  fold_outcome (note_node g) st nodes.

(** ** The main loop *)

Definition release (st : gmap NodeIndex nat * list NodeIndex) (dependent : NodeIndex)
    : outcome E (gmap NodeIndex nat * list NodeIndex) :=
  let '(remaining, ready) := st in
  count ← unwrap (remaining !! dependent);
  match count with
  | O => Panic
  | S count =>
      Ok (<[dependent := count]> remaining,
          if decide (count = 0%nat) then ready ++ [dependent] else ready)
  end.

Fixpoint kahn_loop (g : G) (fuel : nat) (dependents : gmap NodeIndex (list NodeIndex))
    (remaining : gmap NodeIndex nat) (ready ordered : list NodeIndex)
    : outcome E (list NodeIndex) :=
  match ready with
  | [] => Ok ordered
  | _ :: _ =>
      match fuel with
      | O => Panic
      | S fuel =>
          sorted ← sort_ready g ready;
          match sorted with
          | [] => Panic
          | next :: ready =>
              '(remaining, ready) ←
                match dependents !! next with
                | Some ds => fold_outcome release (remaining, ready) ds
                | None => Ok (remaining, ready)
                end;
              kahn_loop g fuel dependents remaining ready (ordered ++ [next])
          end
      end
  end.

Definition initially_ready (remaining : gmap NodeIndex nat) : list NodeIndex :=
  omap (fun '(node, count) => if decide (count = 0%nat) then Some node else None)
    (hash_order (map_to_list remaining)).

Definition connected_component_emit_order (g : G) (nodes : list NodeIndex)
    : outcome E (list NodeIndex) :=
  if (length nodes <=? 1)%nat then Ok nodes
  else
    st ← explicit_edges g nodes;
    if negb (ex_has_edges st) then Ok nodes
    else
      ordered ← kahn_loop g (length nodes) (ex_dependents st) (ex_remaining st)
                  (initially_ready (ex_remaining st)) [];
      Ok (if (length ordered =? length nodes)%nat then ordered else nodes).

End Definitions.

(** ** Counting lemmas *)

Abbreviation occ l x := (count_occ Nat.eq_dec l x).

(** How many explicit edges into [n] start in [U], [D] giving the targets. *)
Definition pending (D : NodeIndex -> list NodeIndex) (U : list NodeIndex) (n : NodeIndex) : nat :=
  sum_list (map (fun a => occ (D a) n) U).

Lemma pending_perm D U U' n : U ≡ₚ U' -> pending D U n = pending D U' n.
Proof. intros HU. unfold pending. induction HU; cbn; lia. Qed.

Lemma pending_cons D a U n : pending D (a :: U) n = (occ (D a) n + pending D U n)%nat.
Proof. done. Qed.

Lemma pending_pos D U n :
  pending D U n <> 0%nat <-> exists a, a ∈ U /\ n ∈ D a.
Proof.
  induction U as [|a U IH]; cbn.
  - split; [done|]. intros (a & Ha & _). by apply elem_of_nil in Ha.
  - setoid_rewrite elem_of_cons. destruct (decide (n ∈ D a)) as [Hin|Hout].
    + apply list_elem_of_In in Hin as Hin'. apply (count_occ_In Nat.eq_dec) in Hin'.
      split; [intros _; eauto | lia].
    + assert (occ (D a) n = 0%nat) as Hz.
      { apply count_occ_not_In. by rewrite <- list_elem_of_In. }
      unfold pending in *. rewrite Hz. cbn. rewrite IH. split.
      * intros (b & Hb & Hn). eauto.
      * intros (b & [->|Hb] & Hn); [done | eauto].
Qed.

Lemma pending_zero D U n : pending D U n = 0%nat <-> forall a, a ∈ U -> n ∉ D a.
Proof.
  pose proof (pending_pos D U n) as Hp. destruct (decide (pending D U n = 0%nat)) as [Hz|Hz].
  - split; [|done]. intros _ a Ha Hn. assert (pending D U n <> 0%nat) as Hne; [|done].
    apply Hp. eauto.
  - split; [done|]. intros Hno. apply Hp in Hz as (a & Ha & Hn). by destruct (Hno a Ha).
Qed.

(** ** The order on nodes is total *)

Section Order.
Context {G : Type} `{StableGraph G}.

#[global] Instance node_le_trans (g : G) : Transitive (node_le g).
Proof.
  intros a b c. unfold node_le. intros Hab Hbc.
  destruct (kcmp (node_key g a) (node_key g b)) eqn:Eab; [|clear Hab|done].
  - apply kcmp_eq in Eab. by rewrite Eab.
  - destruct (kcmp (node_key g b) (node_key g c)) eqn:Ebc; [| |done].
    + apply kcmp_eq in Ebc. rewrite <- Ebc, Eab. done.
    + by rewrite (kcmp_trans _ _ _ Eab Ebc).
Qed.

#[global] Instance node_le_total (g : G) : Total (node_le g).
Proof.
  intros a b. unfold node_le. rewrite (kcmp_opp (node_key g a) (node_key g b)).
  destruct (kcmp (node_key g a) (node_key g b)); cbn; auto; by left.
Qed.

Lemma node_key_inj (g : G) a b : node_key g a = node_key g b -> a = b.
Proof.
  unfold node_key. destruct (g_weight g a), (g_weight g b); intros [=]; lia.
Qed.

#[global] Instance node_le_antisymm (g : G) : AntiSymm (=) (node_le g).
Proof.
  intros a b. unfold node_le. rewrite (kcmp_opp (node_key g a) (node_key g b)).
  destruct (kcmp (node_key g a) (node_key g b)) eqn:Eab; cbn; intros H1 H2; [|done|done].
  by apply kcmp_eq, node_key_inj in Eab.
Qed.

(** Sorting forgets the order its input came in. *)
Lemma merge_sort_canonical (g : G) l l' :
  l ≡ₚ l' -> merge_sort (node_le g) l = merge_sort (node_le g) l'.
Proof.
  intros Hl. apply (Sorted_unique (node_le g)).
  - apply Sorted_merge_sort, _.
  - apply Sorted_merge_sort, _.
  - by rewrite !merge_sort_Permutation.
Qed.

Lemma existsb_perm {A} (f : A -> bool) l l' : l ≡ₚ l' -> existsb f l = existsb f l'.
Proof.
  intros Hl. apply eq_true_iff_eq. rewrite !existsb_exists.
  by setoid_rewrite <- list_elem_of_In; setoid_rewrite Hl.
Qed.

Lemma sort_ready_canonical {E} (g : G) l l' :
  l ≡ₚ l' -> sort_ready (E:=E) g l = sort_ready g l'.
Proof.
  intros Hl. unfold sort_ready.
  by rewrite (merge_sort_canonical g l l' Hl), (existsb_perm _ l l' Hl), Hl.
Qed.

Lemma sort_ready_ok {E} (g : G) l :
  (forall n, n ∈ l -> is_Some (g_weight g n)) ->
  sort_ready (E:=E) g l = Ok (merge_sort (node_le g) l).
Proof.
  intros Hl. unfold sort_ready. replace (existsb (node_missing g) l) with false; [by rewrite andb_false_r|].
  symmetry. apply not_true_iff_false. rewrite existsb_exists. intros (n & Hn & Hm).
  apply list_elem_of_In in Hn. destruct (Hl n Hn) as [e He]. unfold node_missing in Hm.
  by rewrite He in Hm.
Qed.

End Order.

(** ** What the counting phase computes *)

Section Counting.
Context {G : Type} `{StableGraph G} {E : Type}.

(** The explicit dependents of [a] inside the component. *)
Definition by_targets (g : G) (nodes : list NodeIndex) (a : NodeIndex) : list NodeIndex :=
  omap (fun '(b, w) => if decide (w = By /\ b ∈ nodes) then Some b else None) (g_edges g a).

Lemma elem_of_by_targets g nodes a b :
  b ∈ by_targets g nodes a <-> has_edge g a b By /\ b ∈ nodes.
Proof.
  unfold by_targets, has_edge. rewrite list_elem_of_omap. split.
  - intros ([y w] & Hin & Heq). case_decide as Hd; [|discriminate]. destruct Hd as [-> Hy].
    by simplify_eq.
  - intros [Hin Hb]. exists (b, By). split; [done|]. by rewrite decide_True.
Qed.

(** The state with the edges of [seen] counted. *)
Definition counted (g : G) (nodes seen : list NodeIndex) (st : explicit) : Prop :=
  (forall n, n ∈ nodes ->
     ex_dependents st !! n = Some (if decide (n ∈ seen) then by_targets g nodes n else [])
     /\ ex_remaining st !! n = Some (pending (by_targets g nodes) seen n))
  /\ (forall n, n ∉ nodes -> ex_remaining st !! n = None /\ ex_dependents st !! n = None)
  /\ ex_has_edges st = existsb (fun a => negb (bool_decide (by_targets g nodes a = []))) seen.

Lemma init_counted g nodes :
  counted g nodes []
    (foldl init_node {| ex_dependents := ∅; ex_remaining := ∅; ex_has_edges := false |} nodes).
Proof.
  assert (Hgen : forall (l : list NodeIndex) st,
    (forall n, ex_dependents (foldl init_node st l) !! n
       = if decide (n ∈ l) then Some [] else ex_dependents st !! n)
    /\ (forall n, ex_remaining (foldl init_node st l) !! n
       = if decide (n ∈ l) then Some 0%nat else ex_remaining st !! n)
    /\ ex_has_edges (foldl init_node st l) = ex_has_edges st).
  { induction l as [|x l IH]; intros st; cbn [foldl].
    - split; [|split; [|done]]; intros n; rewrite decide_False by apply not_elem_of_nil; done.
    - destruct (IH (init_node st x)) as (H1 & H2 & H3). split; [|split; [|exact H3]];
        intros n; rewrite ?H1, ?H2; cbn; (destruct (decide (n = x)) as [->|Hne];
        [ rewrite lookup_insert_eq, (decide_True (P := x ∈ x :: l)) by apply list_elem_of_here;
          by destruct (decide (x ∈ l))
        | rewrite lookup_insert_ne by done; apply decide_ext; rewrite elem_of_cons; tauto ]). }
  destruct (Hgen nodes {| ex_dependents := ∅; ex_remaining := ∅; ex_has_edges := false |})
    as (H1 & H2 & H3).
  split; [|split; [|exact H3]].
  - intros n Hn. split.
    + rewrite H1, decide_True by done. by rewrite decide_False by apply not_elem_of_nil.
    + rewrite H2, decide_True by done. reflexivity.
  - intros n Hn. by rewrite H1, H2, !decide_False.
Qed.

(** While the edges of [a] are visited, [done] of its targets are counted. *)
Definition counting (g : G) (nodes seen : list NodeIndex) (a : NodeIndex)
    (targets : list NodeIndex) (st : explicit) : Prop :=
  (forall n, n ∈ nodes ->
     ex_dependents st !! n
       = Some (if decide (n = a) then targets
               else if decide (n ∈ seen) then by_targets g nodes n else [])
     /\ ex_remaining st !! n = Some (pending (by_targets g nodes) seen n + occ targets n)%nat)
  /\ (forall n, n ∉ nodes -> ex_remaining st !! n = None /\ ex_dependents st !! n = None)
  /\ ex_has_edges st = existsb (fun a => negb (bool_decide (by_targets g nodes a = []))) seen
                       || negb (bool_decide (targets = [])).

Lemma note_edge_counting g nodes seen a targets edge st :
  a ∈ nodes -> counting g nodes seen a targets st ->
  exists st', note_edge (E:=E) a st edge = Ok st'
    /\ counting g nodes seen a
         (targets ++ omap (fun '(b, w) => if decide (w = By /\ b ∈ nodes) then Some b else None)
                       [edge]) st'.
Proof.
  intros Ha Hst. pose proof Hst as (Hin & Hout & Hhas). destruct edge as [d w].
  unfold note_edge. cbn [omap list_omap].
  destruct (decide (w <> By)) as [Hw|Hw].
  { rewrite decide_False by (by intros [? _]). cbn. rewrite app_nil_r. eauto. }
  apply dec_stable in Hw as ->.
  destruct (decide (By = By /\ d ∈ nodes)) as [[_ Hd]|Hd].
  2: { rewrite (proj1 (Hout d ltac:(intros ?; by apply Hd))). rewrite app_nil_r. eauto. }
  destruct (Hin d Hd) as [_ ->]. destruct (Hin a Ha) as [-> _]. cbn.
  rewrite decide_True by done. eexists. split; [reflexivity|]. split; [|split]; cbn.
  - intros n Hn. destruct (Hin n Hn) as [Hdn Hrn]. split.
    + case_decide as Hna.
      * subst n. by rewrite lookup_insert_eq.
      * by rewrite lookup_insert_ne.
    + rewrite count_occ_app. cbn.
      destruct (Nat.eq_dec d n) as [->|Hne].
      * rewrite lookup_insert_eq. f_equal. lia.
      * rewrite lookup_insert_ne, Hrn by done. f_equal. lia.
  - intros n Hn. rewrite !lookup_insert_ne by congruence. by apply Hout.
  - destruct targets; cbn; by rewrite orb_true_r.
Qed.

Lemma note_node_counted g nodes seen a st :
  NoDup (seen ++ [a]) -> a ∈ nodes -> counted g nodes seen st ->
  exists st', note_node (E:=E) g st a = Ok st' /\ counted g nodes (seen ++ [a]) st'.
Proof.
  intros Hnd Ha (Hin & Hout & Hhas).
  assert (Has : a ∉ seen).
  { apply NoDup_app in Hnd as (_ & Hdis & _). intros Hs. apply (Hdis a Hs). set_solver. }
  unfold note_node.
  destruct (fold_outcome_inv (note_edge (E:=E) a) (fun st es =>
      exists targets, counting g nodes seen a targets st
        /\ by_targets g nodes a = targets ++ omap (fun '(b, w) =>
             if decide (w = By /\ b ∈ nodes) then Some b else None) es))
    with (l := g_edges g a) (s := st) as (st' & -> & targets & Hc & Ht).
  - intros s e es (targets & Hc & Ht).
    destruct (note_edge_counting g nodes seen a targets e s Ha Hc) as (s' & -> & Hc').
    eexists. split; [done|]. eexists. split; [exact Hc'|].
    rewrite <- app_assoc, <- omap_app. exact Ht.
  - exists []. split; [|done]. split; [|split; [done|]].
    + intros n Hn. destruct (Hin n Hn) as [-> ->]. cbn. rewrite Nat.add_0_r. split; [|done].
      destruct (decide (n = a)) as [->|]; [by rewrite decide_False | done].
    + by rewrite Hhas, orb_false_r.
  - exists st'. split; [done|]. cbn in Ht. rewrite app_nil_r in Ht. subst targets.
    destruct Hc as (Hin' & Hout' & Hhas'). split; [|split; [done|]].
    + intros n Hn. destruct (Hin' n Hn) as [-> ->]. split.
      * f_equal. destruct (decide (n = a)) as [->|Hne].
        -- by rewrite decide_True by set_solver.
        -- destruct (decide (n ∈ seen)) as [Hs|Hs].
           ++ by rewrite decide_True by set_solver.
           ++ by rewrite decide_False by set_solver.
      * rewrite (pending_perm _ (seen ++ [a]) (a :: seen)) by (by rewrite Permutation_app_comm).
        rewrite pending_cons. f_equal. lia.
    + rewrite Hhas'. rewrite existsb_app. cbn. by rewrite orb_false_r.
Qed.
End Counting.

(** ** The loop invariant *)

Section Kahn.
Context {G : Type} `{StableGraph G} {E : Type}.
Variables (g : G) (nodes : list NodeIndex) (D : NodeIndex -> list NodeIndex).
Variable (dependents : gmap NodeIndex (list NodeIndex)).
Hypothesis nodes_nodup : NoDup nodes.
Hypothesis nodes_exist : forall n, n ∈ nodes -> is_Some (g_weight g n).
Hypothesis D_inside : forall a b, b ∈ D a -> b ∈ nodes.
Hypothesis dependents_D : forall a, a ∈ nodes -> dependents !! a = Some (D a).

(** Every element of [l] comes after all its explicit dependencies. *)
Definition respects (l : list NodeIndex) : Prop :=
  forall j a b, l !! j = Some b -> a ∈ nodes -> b ∈ D a ->
  exists i, (i < j)%nat /\ l !! i = Some a.

(** [U] are the nodes not yet ordered, [ds] the dependents of the last ordered
    node whose counters are still to be lowered. *)
Record kahn_inv (remaining : gmap NodeIndex nat) (ready ordered U ds : list NodeIndex) : Prop := {
  ki_split : nodes ≡ₚ ordered ++ U;
  ki_ready_nodup : NoDup ready;
  ki_ready_in : forall n, n ∈ ready -> n ∈ U;
  ki_remaining : forall n, n ∈ nodes -> remaining !! n = Some (pending D U n + occ ds n)%nat;
  ki_ready : forall n, n ∈ U -> n ∈ ready <-> (pending D U n + occ ds n)%nat = 0%nat;
  ki_respects : respects ordered;
  ki_ds : forall d, d ∈ ds -> d ∈ U;
}.

Lemma inv_disjoint remaining ready ordered U ds :
  kahn_inv remaining ready ordered U ds -> NoDup (ordered ++ U).
Proof. intros Hi. by rewrite <- (ki_split _ _ _ _ _ Hi). Qed.

Lemma inv_U_nodes remaining ready ordered U ds n :
  kahn_inv remaining ready ordered U ds -> n ∈ U -> n ∈ nodes.
Proof. intros Hi Hn. rewrite (ki_split _ _ _ _ _ Hi). apply elem_of_app. by right. Qed.

Lemma release_inv remaining ready ordered U d ds :
  kahn_inv remaining ready ordered U (d :: ds) ->
  exists remaining' ready', release (E:=E) (remaining, ready) d = Ok (remaining', ready')
    /\ kahn_inv remaining' ready' ordered U ds.
Proof.
  intros Hi. pose proof Hi as [Hsplit Hrn Hrin Hrem Hready Hresp Hds].
  assert (HdU : d ∈ U) by (apply Hds, list_elem_of_here).
  assert (Hd : d ∈ nodes) by (by eapply inv_U_nodes).
  unfold release. rewrite (Hrem d Hd). cbn [unwrap mbind outcome_bind].
  cbn [count_occ]. destruct (Nat.eq_dec d d) as [_|]; [|done].
  rewrite Nat.add_succ_r. do 2 eexists. split; [reflexivity|].
  assert (Hocc : forall n, n <> d -> occ (d :: ds) n = occ ds n).
  { intros n Hn. cbn. destruct (Nat.eq_dec d n); [congruence | done]. }
  assert (Hnot : d ∉ ready).
  { rewrite Hready by done. cbn. destruct (Nat.eq_dec d d); [lia | done]. }
  split.
  - done.
  - case_decide; [|done]. apply NoDup_app. split; [done|]. split; [|apply NoDup_singleton].
    intros n Hn ->%list_elem_of_singleton. done.
  - intros n. case_decide; [|auto]. rewrite elem_of_app, list_elem_of_singleton.
    intros [Hn| ->]; auto.
  - intros n Hn. destruct (decide (n = d)) as [->|Hne]; [by rewrite lookup_insert_eq|].
    by rewrite lookup_insert_ne, Hrem, Hocc.
  - intros n Hn. destruct (decide (n = d)) as [->|Hne].
    + case_decide as Hz; [|by split].
      split; [done|]. intros _. apply elem_of_app. right. by apply list_elem_of_singleton.
    + rewrite <- (Hocc n Hne), <- Hready by done. case_decide; [|done].
      rewrite elem_of_app, list_elem_of_singleton. tauto.
  - done.
  - intros x Hx. apply Hds. by apply list_elem_of_further.
Qed.

Lemma releases_inv remaining ready ordered U ds :
  kahn_inv remaining ready ordered U ds ->
  exists remaining' ready', fold_outcome (release (E:=E)) (remaining, ready) ds
      = Ok (remaining', ready') /\ kahn_inv remaining' ready' ordered U [].
Proof.
  intros Hi.
  destruct (fold_outcome_inv (release (E:=E))
    (fun st ds => kahn_inv st.1 st.2 ordered U ds)) with (l := ds) (s := (remaining, ready))
    as ([remaining' ready'] & Hf & Hi'); [|exact Hi|eauto].
  intros [rem rdy] d l Hst. destruct (release_inv rem rdy ordered U d l Hst) as (r1 & r2 & Hr & Hi').
  exists (r1, r2). eauto.
Qed.

(** Moving the next ready node to the ordered ones. *)
Lemma pop_inv remaining ready ordered U next rest :
  kahn_inv remaining ready ordered U [] -> ready ≡ₚ next :: rest ->
  exists U', U ≡ₚ next :: U' /\ kahn_inv remaining rest (ordered ++ [next]) U' (D next).
Proof.
  intros Hi Hpop. pose proof Hi as [Hsplit Hrn Hrin Hrem Hready Hresp Hds].
  assert (Hnext : next ∈ ready) by (rewrite Hpop; apply list_elem_of_here).
  assert (HnU : next ∈ U) by auto.
  destruct (proj1 (elem_of_Permutation U next) HnU) as [U' HU]. exists U'. split; [exact HU|].
  assert (Hnd : NoDup (ordered ++ next :: U')) by (rewrite <- HU; by eapply inv_disjoint).
  assert (Hnz : pending D U next = 0%nat).
  { rewrite Hready in Hnext by done. cbn in Hnext. lia. }
  assert (Hpreds : forall a, a ∈ U -> next ∉ D a) by (by apply pending_zero).
  assert (Hpend : forall n, (pending D U' n + occ (D next) n)%nat = pending D U n).
  { intros n. rewrite (pending_perm D U (next :: U') n HU), pending_cons. lia. }
  assert (Hrest : NoDup (next :: rest)) by (by rewrite <- Hpop).
  apply NoDup_cons in Hrest as [Hnr Hrest].
  split.
  - by rewrite <- app_assoc, Hsplit, HU.
  - done.
  - intros n Hn. assert (n ∈ next :: U') as Hn'.
    { rewrite <- HU. apply Hrin. rewrite Hpop. by apply list_elem_of_further. }
    apply elem_of_cons in Hn' as [->|]; done.
  - intros n Hn. rewrite Hrem, Hpend by done. cbn. by rewrite Nat.add_0_r.
  - intros n Hn. rewrite Hpend. assert (HnU' : n ∈ U) by (rewrite HU; by apply list_elem_of_further).
    specialize (Hready n HnU'). cbn in Hready. rewrite Nat.add_0_r in Hready. rewrite <- Hready, Hpop.
    rewrite elem_of_cons. split; [auto|]. intros [->|]; [|done].
    apply NoDup_app in Hnd as (_ & _ & Hnd). apply NoDup_cons in Hnd as [Hnd _]. done.
  - intros j a b Hj Ha Hb. apply lookup_app_Some in Hj as [Hj|[Hle Hj]].
    + destruct (Hresp j a b Hj Ha Hb) as (i & Hi' & Hia). exists i. split; [done|].
      by apply lookup_app_l_Some.
    + destruct (j - length ordered)%nat as [|k] eqn:Ek; cbn in Hj; [|discriminate].
      injection Hj as <-. assert (Ha' : a ∈ ordered).
      { rewrite Hsplit in Ha. apply elem_of_app in Ha as [Ha|Ha]; [done|].
        by destruct (Hpreds a Ha). }
      apply list_elem_of_lookup in Ha' as [i Hia]. exists i. split.
      * apply lookup_lt_Some in Hia. lia.
      * by apply lookup_app_l_Some.
  - intros d Hd. assert (Hdn : d ∈ ordered ++ next :: U').
    { rewrite <- HU, <- Hsplit. by eapply D_inside. }
    apply elem_of_app in Hdn as [Hdo|Hdn].
    + exfalso. apply list_elem_of_lookup in Hdo as [j Hj].
      destruct (Hresp j next d Hj) as (i & _ & Hin); [by eapply inv_U_nodes | done |].
      apply list_elem_of_lookup_2 in Hin. apply NoDup_app in Hnd as (_ & Hdis & _).
      apply (Hdis next Hin), list_elem_of_here.
    + apply elem_of_cons in Hdn as [->|]; [by destruct (Hpreds next HnU) | done].
Qed.

(** The loop ends, without a panic, when nothing is ready. *)
Lemma kahn_loop_ok fuel : forall remaining ready ordered U,
  kahn_inv remaining ready ordered U [] -> (length U <= fuel)%nat ->
  exists ordered' remaining' U',
    kahn_loop (E:=E) g fuel dependents remaining ready ordered = Ok ordered'
    /\ kahn_inv remaining' [] ordered' U' [].
Proof.
  induction fuel as [|fuel IH]; intros remaining ready ordered U Hi Hfuel.
  - destruct U; [|cbn in Hfuel; lia]. destruct ready as [|r ready].
    + do 3 eexists. split; [done | exact Hi].
    + assert (r ∈ []) as Hr%elem_of_nil by (eapply ki_ready_in, list_elem_of_here; exact Hi). done.
  - destruct ready as [|r ready]; [do 3 eexists; split; [done | exact Hi]|].
    cbn [kahn_loop]. rewrite sort_ready_ok.
    2: { intros n Hn. apply nodes_exist. eapply inv_U_nodes; [exact Hi|]. by eapply ki_ready_in. }
    cbn [mbind outcome_bind].
    pose proof (merge_sort_Permutation (node_le g) (r :: ready)) as Hsort.
    destruct (merge_sort (node_le g) (r :: ready)) as [|next rest].
    { by apply Permutation_nil_cons in Hsort. }
    destruct (pop_inv remaining (r :: ready) ordered U next rest Hi) as (U' & HU & Hi'); [by symmetry|].
    assert (Hnext : next ∈ nodes).
    { eapply inv_U_nodes; [exact Hi|]. rewrite HU. apply list_elem_of_here. }
    rewrite (dependents_D next Hnext).
    destruct (releases_inv _ _ _ _ _ Hi') as (rem' & rdy' & -> & Hi'').
    cbn [mbind outcome_bind]. apply (IH _ _ _ U'); [exact Hi''|].
    apply Permutation_length in HU. cbn in HU. lia.
Qed.

(** If the explicit edges have no cycle, nothing is left at the end. *)
Lemma kahn_all (rank : NodeIndex -> nat) remaining ordered U :
  (forall a b, a ∈ nodes -> b ∈ D a -> (rank a < rank b)%nat) ->
  kahn_inv remaining [] ordered U [] -> U = [].
Proof.
  intros Hrank Hi.
  assert (Hno : forall k n, (rank n < k)%nat -> n ∉ U).
  { induction k as [|k IH]; [lia|]. intros n Hk HnU.
    destruct (decide (pending D U n = 0%nat)) as [Hz|Hz].
    - assert (n ∈ []) as Hn%elem_of_nil; [|done].
      rewrite (ki_ready _ _ _ _ _ Hi n HnU), Hz. done.
    - apply pending_pos in Hz as (a & Ha & HnD). apply (IH a); [|done].
      assert (rank a < rank n)%nat; [|lia]. apply Hrank; [by eapply inv_U_nodes | done]. }
  destruct U as [|u U]; [done|]. exfalso. apply (Hno (S (rank u)) u); [lia | apply list_elem_of_here].
Qed.

End Kahn.

(** ** The component *)

Section Component.
Context {G : Type} `{StableGraph G} `{HashOrder} {E : Type}.

Lemma explicit_edges_counted (g : G) nodes :
  NoDup nodes ->
  exists st, explicit_edges (E:=E) g nodes = Ok st /\ counted g nodes nodes st.
Proof.
  intros Hnd. unfold explicit_edges. cbv zeta.
  destruct (fold_outcome_inv (note_node (E:=E) g) (fun st rest =>
      exists seen, nodes = seen ++ rest /\ counted g nodes seen st))
    with (l := nodes) (s := foldl init_node
      {| ex_dependents := ∅; ex_remaining := ∅; ex_has_edges := false |} nodes)
    as (st & -> & seen & Hs & Hc).
  - intros s x l (seen & Hs & Hc).
    destruct (note_node_counted (E:=E) g nodes seen x s) as (s' & -> & Hc').
    + rewrite Hs in Hnd. apply NoDup_app in Hnd as (H1 & H2 & H3).
      apply NoDup_app. split; [done|]. split; [|apply NoDup_singleton].
      intros y Hy ->%list_elem_of_singleton. apply (H2 x Hy), list_elem_of_here.
    + rewrite Hs. apply elem_of_app. right. apply list_elem_of_here.
    + done.
    + eexists. split; [done|]. exists (seen ++ [x]). by rewrite <- app_assoc.
  - exists []. split; [done | apply init_counted].
  - rewrite app_nil_r in Hs. subst seen. eauto.
Qed.

Lemma elem_of_initially_ready (remaining : gmap NodeIndex nat) n :
  n ∈ initially_ready remaining <-> remaining !! n = Some 0%nat.
Proof.
  unfold initially_ready. rewrite list_elem_of_omap. split.
  - intros ([m c] & Hin & Hc). case_decide; [|discriminate]. simplify_eq.
    rewrite hash_order_perm in Hin. by apply elem_of_map_to_list in Hin.
  - intros Hn. exists (n, 0%nat). rewrite hash_order_perm. split; [|done].
    by apply elem_of_map_to_list.
Qed.

Lemma NoDup_initially_ready (remaining : gmap NodeIndex nat) : NoDup (initially_ready remaining).
Proof.
  unfold initially_ready.
  assert (Hk : NoDup (fst <$> hash_order (map_to_list remaining))).
  { rewrite hash_order_perm. apply NoDup_fst_map_to_list. }
  induction (hash_order (map_to_list remaining)) as [|[m c] l IH]; [constructor|].
  cbn in Hk |- *. apply NoDup_cons in Hk as [Hm Hk]. case_decide; [|by apply IH].
  apply NoDup_cons. split; [|by apply IH]. rewrite list_elem_of_omap.
  intros ([m' c'] & Hin & Hc). case_decide; [|discriminate]. simplify_eq.
  apply Hm, list_elem_of_fmap. exists (m, 0%nat). by split.
Qed.

Lemma initial_inv (g : G) nodes st :
  NoDup nodes -> counted g nodes nodes st ->
  kahn_inv nodes (by_targets g nodes) (ex_remaining st)
    (initially_ready (ex_remaining st)) [] nodes [].
Proof.
  intros Hnd (Hin & Hout & _).
  assert (Hr : forall n, n ∈ initially_ready (ex_remaining st)
            <-> n ∈ nodes /\ pending (by_targets g nodes) nodes n = 0%nat).
  { intros n. rewrite elem_of_initially_ready. destruct (decide (n ∈ nodes)) as [Hn|Hn].
    - destruct (Hin n Hn) as [_ ->]. split; [intros [=] | intros [_ ->]]; done.
    - rewrite (proj1 (Hout n Hn)). split; [done | intros []; done]. }
  split.
  - done.
  - apply NoDup_initially_ready.
  - intros n Hn. by apply Hr.
  - intros n Hn. cbn. rewrite Nat.add_0_r. by apply Hin.
  - intros n Hn. rewrite Hr. cbn. rewrite Nat.add_0_r. tauto.
  - intros j a b Hj. discriminate Hj.
  - intros d Hd. by apply elem_of_nil in Hd.
Qed.

Lemma kahn_run (g : G) nodes st :
  NoDup nodes -> (forall n, n ∈ nodes -> is_Some (g_weight g n)) -> counted g nodes nodes st ->
  exists ordered remaining U,
    kahn_loop (E:=E) g (length nodes) (ex_dependents st) (ex_remaining st)
      (initially_ready (ex_remaining st)) [] = Ok ordered
    /\ kahn_inv nodes (by_targets g nodes) remaining [] ordered U [].
Proof.
  intros Hnd Hex Hc. pose proof Hc as (Hin & _ & _).
  eapply (kahn_loop_ok g nodes (by_targets g nodes)); try done.
  - intros a b Hb. by apply elem_of_by_targets in Hb as [_ ?].
  - intros a Ha. destruct (Hin a Ha) as [-> _]. by rewrite decide_True.
  - by apply initial_inv.
Qed.

(** No explicit edge at all, or Kahn's loop and what it leaves. *)
Lemma emit_order_cases (g : G) nodes :
  NoDup nodes -> (forall n, n ∈ nodes -> is_Some (g_weight g n)) ->
  exists o, connected_component_emit_order (E:=E) g nodes = Ok o
    /\ ((o = nodes /\ ((length nodes <= 1)%nat \/ forall a, a ∈ nodes -> by_targets g nodes a = []))
        \/ exists ordered remaining U,
             kahn_inv nodes (by_targets g nodes) remaining [] ordered U []
             /\ o = if (length ordered =? length nodes)%nat then ordered else nodes).
Proof.
  intros Hnd Hex. unfold connected_component_emit_order.
  destruct (length nodes <=? 1)%nat eqn:Hlen.
  { apply Nat.leb_le in Hlen. eexists. split; [done|]. auto. }
  destruct (explicit_edges_counted g nodes Hnd) as (st & -> & Hc). cbn [mbind outcome_bind].
  destruct (ex_has_edges st) eqn:Hhas; cbn [negb].
  - destruct (kahn_run g nodes st Hnd Hex Hc) as (ordered & rem' & U' & -> & Hi).
    cbn [mbind outcome_bind]. eexists. split; [done|]. right. eauto.
  - eexists. split; [done|]. left. split; [done|]. right. intros a Ha.
    destruct Hc as (_ & _ & Hh). rewrite Hhas in Hh. symmetry in Hh.
    apply not_true_iff_false in Hh. rewrite existsb_exists in Hh.
    apply dec_stable. intros Hne. apply Hh. exists a. split; [by apply list_elem_of_In|].
    by rewrite bool_decide_eq_false_2.
Qed.

(** ** Canonicity *)

(** Two states of the inner loop that differ in the order of [ready] only. *)
Definition same_release (x y : outcome E (gmap NodeIndex nat * list NodeIndex)) : Prop :=
  match x, y with
  | Ok (r, l), Ok (r', l') => r = r' /\ l ≡ₚ l'
  | Panic, Panic => True
  | _, _ => False
  end.

Lemma release_not_err st d e : release (E:=E) st d <> Err e.
Proof.
  destruct st as [r l]. unfold release. destruct (r !! d) as [[|c]|]; cbn; discriminate.
Qed.

Lemma release_same r l l' d :
  l ≡ₚ l' -> same_release (release (E:=E) (r, l) d) (release (r, l') d).
Proof.
  intros Hl. unfold release, same_release. destruct (r !! d) as [[|c]|]; cbn; [done| |done].
  split; [done|]. case_decide; [|done]. by rewrite Hl.
Qed.

Lemma releases_bind_same (f : gmap NodeIndex nat * list NodeIndex -> outcome E _)
    (g : gmap NodeIndex nat * list NodeIndex -> outcome E _) x y :
  same_release x y ->
  (forall r l l', l ≡ₚ l' -> same_release (f (r, l)) (g (r, l'))) ->
  same_release (x ≫= f) (y ≫= g).
Proof.
  intros Hxy Hfg. destruct x as [[r l]| |], y as [[r' l']| |]; cbn in *; try done.
  destruct Hxy as [-> Hl]. by apply Hfg.
Qed.

Lemma release_swap r l l' x y :
  l ≡ₚ l' ->
  same_release (st ← release (E:=E) (r, l) x; release st y)
               (st ← release (E:=E) (r, l') y; release st x).
Proof.
  intros Hl. destruct (decide (x = y)) as [->|Hxy].
  { apply releases_bind_same; [by apply release_same|]. intros. by apply release_same. }
  unfold release. destruct (r !! x) as [[|cx]|] eqn:Ex; destruct (r !! y) as [[|cy]|] eqn:Ey;
    cbn; rewrite ?lookup_insert_ne, ?Ex, ?Ey by done; cbn; try done.
  split; [by apply insert_insert_ne|].
  repeat case_decide; rewrite Hl; rewrite <- ?app_assoc; try done.
  apply Permutation_app_head, Permutation_app_comm.
Qed.

Lemma releases_same ds ds' :
  ds ≡ₚ ds' -> forall r l l', l ≡ₚ l' ->
  same_release (fold_outcome (release (E:=E)) (r, l) ds) (fold_outcome release (r, l') ds').
Proof.
  assert (Hrefl : forall ds r l l', l ≡ₚ l' ->
    same_release (fold_outcome (release (E:=E)) (r, l) ds) (fold_outcome release (r, l') ds)).
  { induction ds0 as [|d ds0 IH]; intros r l l' Hl; cbn [fold_outcome]; [done|].
    apply releases_bind_same; [by apply release_same | auto]. }
  induction 1 as [|d ds ds' Hds IH|x y ds|ds1 ds2 ds3 H12 IH12 H23 IH23]; intros r l l' Hl.
  - done.
  - cbn [fold_outcome]. apply releases_bind_same; [by apply release_same | auto].
  - cbn [fold_outcome]. rewrite <- !outcome_bind_assoc.
    apply releases_bind_same; [by apply release_swap | auto].
  - specialize (IH12 r l l ltac:(done)). specialize (IH23 r l l' Hl).
    destruct (fold_outcome release (r, l) ds1) as [[]| |],
      (fold_outcome release (r, l) ds2) as [[]| |],
      (fold_outcome release (r, l') ds3) as [[]| |]; cbn in *; try done.
    destruct IH12 as [-> ->], IH23 as [-> ->]. done.
Qed.

Lemma merge_sort_ext (g g' : G) l :
  (forall n, g_weight g n = g_weight g' n) ->
  merge_sort (node_le g) l = merge_sort (node_le g') l.
Proof.
  intros Hw. apply (Sorted_unique (node_le g)).
  - apply Sorted_merge_sort, _.
  - assert (Hs : Sorted (node_le g') (merge_sort (node_le g') l)) by apply Sorted_merge_sort, _.
    induction Hs as [|? ? ? ? Hh]; constructor; [done|].
    inversion Hh; constructor. unfold node_le, node_key in *. by rewrite !Hw.
  - by rewrite !merge_sort_Permutation.
Qed.

Lemma sort_ready_ext (g g' : G) l :
  (forall n, g_weight g n = g_weight g' n) -> sort_ready (E:=E) g l = sort_ready g' l.
Proof.
  intros Hw. unfold sort_ready. rewrite (merge_sort_ext g g' l Hw).
  replace (existsb (node_missing g) l) with (existsb (node_missing g') l); [done|].
  induction l as [|x l IH]; cbn; [done|]. unfold node_missing at 1 3. by rewrite Hw, IH.
Qed.

Lemma kahn_loop_same (g g' : G) fuel : forall deps deps' rem ready ready' ordered,
  (forall n, g_weight g n = g_weight g' n) ->
  (forall n, option_relation (Permutation (A:=NodeIndex)) (fun _ => False) (fun _ => False)
     (deps !! n) (deps' !! n)) ->
  ready ≡ₚ ready' ->
  kahn_loop (E:=E) g fuel deps rem ready ordered = kahn_loop g' fuel deps' rem ready' ordered.
Proof.
  induction fuel as [|fuel IH]; intros deps deps' rem ready ready' ordered Hw Hdeps Hready.
  - destruct ready, ready'; try done; [by apply Permutation_nil_cons in Hready|].
    symmetry in Hready. by apply Permutation_nil_cons in Hready.
  - destruct ready as [|r ready], ready' as [|r' ready'].
    + done.
    + by apply Permutation_nil_cons in Hready.
    + symmetry in Hready. by apply Permutation_nil_cons in Hready.
    + cbn [kahn_loop]. rewrite (sort_ready_canonical g _ _ Hready).
      rewrite (sort_ready_ext g g') by done.
      destruct (sort_ready g' (r' :: ready')) as [[|next rest]| |]; cbn; try done.
      specialize (Hdeps next) as Hd. destruct (deps !! next) as [ds|], (deps' !! next) as [ds'|];
        cbn in Hd; try done.
      * pose proof (releases_same ds ds' Hd rem rest rest ltac:(done)) as Hrel.
        destruct (fold_outcome release (rem, rest) ds) as [[]| |],
          (fold_outcome release (rem, rest) ds') as [[]| |]; cbn in *; try done.
        destruct Hrel as [-> Hl]. by apply IH.
      * by apply IH.
Qed.

End Component.

(** Permuting the nodes and the edges permutes what is counted. *)
Section Same.
Context {G : Type} `{StableGraph G}.

Lemma by_targets_perm (g g' : G) nodes nodes' a :
  nodes ≡ₚ nodes' -> g_edges g a ≡ₚ g_edges g' a ->
  by_targets g nodes a ≡ₚ by_targets g' nodes' a.
Proof.
  intros Hn He. unfold by_targets. rewrite He.
  replace (omap (fun '(b, w) => if decide (w = By /\ b ∈ nodes) then Some b else None)
             (g_edges g' a))
    with (omap (fun '(b, w) => if decide (w = By /\ b ∈ nodes') then Some b else None)
             (g_edges g' a)); [done|].
  clear He. induction (g_edges g' a) as [|[b w] l IH]; cbn; [done|]. rewrite IH.
  destruct (decide (w = By /\ b ∈ nodes)) as [[Hw Hb]|Hb], (decide (w = By /\ b ∈ nodes'))
    as [[Hw' Hb']|Hb']; try done; exfalso.
  - apply Hb'. split; [done|]. by rewrite <- Hn.
  - apply Hb. split; [done|]. by rewrite Hn.
Qed.

Lemma pending_same D D' U U' n :
  (forall a, D a ≡ₚ D' a) -> U ≡ₚ U' -> pending D U n = pending D' U' n.
Proof.
  intros HD HU. rewrite (pending_perm D U U' n HU). clear HU.
  induction U' as [|a U' IH]; [done|]. rewrite !pending_cons, IH. f_equal.
  by apply Permutation_count_occ.
Qed.

Lemma counted_same (g g' : G) nodes nodes' st st' :
  nodes ≡ₚ nodes' -> (forall n, g_edges g n ≡ₚ g_edges g' n) ->
  counted g nodes nodes st -> counted g' nodes' nodes' st' ->
  ex_remaining st = ex_remaining st'
  /\ forall n, option_relation (Permutation (A:=NodeIndex)) (fun _ => False) (fun _ => False)
       (ex_dependents st !! n) (ex_dependents st' !! n).
Proof.
  intros Hn He (Hin & Hout & _) (Hin' & Hout' & _).
  assert (Ht : forall a, by_targets g nodes a ≡ₚ by_targets g' nodes' a).
  { intros a. by apply by_targets_perm. }
  split.
  - apply map_eq. intros n. destruct (decide (n ∈ nodes)) as [Hnn|Hnn].
    + destruct (Hin n Hnn) as [_ ->]. rewrite Hn in Hnn. destruct (Hin' n Hnn) as [_ ->].
      f_equal. by apply pending_same.
    + destruct (Hout n Hnn) as [-> _]. rewrite Hn in Hnn. by destruct (Hout' n Hnn) as [-> _].
  - intros n. destruct (decide (n ∈ nodes)) as [Hnn|Hnn].
    + destruct (Hin n Hnn) as [-> _]. rewrite decide_True by done. rewrite Hn in Hnn.
      destruct (Hin' n Hnn) as [-> _]. rewrite decide_True by done. apply Ht.
    + destruct (Hout n Hnn) as [_ ->]. rewrite Hn in Hnn. by destruct (Hout' n Hnn) as [_ ->].
Qed.

Lemma initially_ready_perm (O O' : HashOrder) remaining :
  @initially_ready O remaining ≡ₚ @initially_ready O' remaining.
Proof.
  apply NoDup_Permutation; [apply NoDup_initially_ready | apply NoDup_initially_ready |].
  intros n. by rewrite !elem_of_initially_ready.
Qed.

Lemma counted_has_edges (g : G) nodes st a b :
  counted g nodes nodes st -> a ∈ nodes -> b ∈ nodes -> has_edge g a b By ->
  ex_has_edges st = true.
Proof.
  intros (_ & _ & ->) Ha Hb Hab. apply existsb_exists. exists a.
  split; [by apply list_elem_of_In|]. rewrite bool_decide_eq_false_2; [done|].
  intros Hnil. assert (b ∈ by_targets g nodes a) as Hbt by (by apply elem_of_by_targets).
  rewrite Hnil in Hbt. by apply elem_of_nil in Hbt.
Qed.

End Same.

(** ** Properties *)

Section Properties.
Context {G : Type} `{StableGraph G} {E : Type}.

(** [a] stands before [b] in [l]. *)
Definition before (l : list NodeIndex) (a b : NodeIndex) : Prop :=
  exists i j, (i < j)%nat /\ l !! i = Some a /\ l !! j = Some b.

(** The explicit edges inside the component have no cycle. *)
Definition explicit_acyclic (g : G) (nodes : list NodeIndex) : Prop :=
  exists rank : NodeIndex -> nat, forall a b,
    a ∈ nodes -> b ∈ nodes -> has_edge g a b By -> (rank a < rank b)%nat.

Lemma kahn_full (g : G) nodes remaining ordered U :
  kahn_inv nodes (by_targets g nodes) remaining [] ordered U [] ->
  (length ordered =? length nodes)%nat = true <-> U = [].
Proof.
  intros Hi. pose proof (ki_split _ _ _ _ _ _ _ Hi) as Hs. apply Permutation_length in Hs.
  rewrite length_app in Hs. rewrite Nat.eqb_eq. split.
  - intros Hl. destruct U; [done | cbn in Hs; lia].
  - intros ->. cbn in Hs. lia.
Qed.

Lemma emit_order_total `{HashOrder} (g : G) nodes :
  NoDup nodes -> (forall n, n ∈ nodes -> is_Some (g_weight g n)) ->
  exists o, connected_component_emit_order (E:=E) g nodes = Ok o /\ o ≡ₚ nodes.
Proof.
  intros Hnd Hex. destruct (emit_order_cases (E:=E) g nodes Hnd Hex)
    as (o & Ho & [[-> _]|(ordered & rem & U & Hi & ->)]); eexists; (split; [exact Ho|]); [done|].
  destruct (length ordered =? length nodes)%nat eqn:El; [|done].
  apply (kahn_full _ _ _ _ _ Hi) in El as ->. pose proof (ki_split _ _ _ _ _ _ _ Hi) as Hs.
  rewrite app_nil_r in Hs. by rewrite Hs.
Qed.

Lemma emit_order_explicit `{HashOrder} (g : G) nodes :
  NoDup nodes -> (forall n, n ∈ nodes -> is_Some (g_weight g n)) -> explicit_acyclic g nodes ->
  exists o, connected_component_emit_order (E:=E) g nodes = Ok o
    /\ forall a b, a ∈ nodes -> b ∈ nodes -> has_edge g a b By -> before o a b.
Proof.
  intros Hnd Hex [rank Hrank]. destruct (emit_order_cases (E:=E) g nodes Hnd Hex)
    as (o & Ho & [[-> Hnone]|(ordered & rem & U & Hi & ->)]); eexists; (split; [exact Ho|]);
    intros a b Ha Hb Hab.
  - exfalso. specialize (Hrank a b Ha Hb Hab). destruct Hnone as [Hlen|Hnone].
    + destruct nodes as [|x [|? ?]]; [by apply elem_of_nil in Ha| |cbn in Hlen; lia].
      apply list_elem_of_singleton in Ha as ->, Hb as ->. lia.
    + assert (b ∈ by_targets g nodes a) as Hbt by (by apply elem_of_by_targets).
      rewrite Hnone in Hbt by done. by apply elem_of_nil in Hbt.
  - assert (Hbt : b ∈ by_targets g nodes a) by (by apply elem_of_by_targets).
    rewrite (proj2 (kahn_full _ _ _ _ _ Hi)).
    2: { eapply (kahn_all nodes (by_targets g nodes) rank); [|exact Hi].
         intros x y Hx Hy. apply elem_of_by_targets in Hy as [Hxy Hyn]. by apply Hrank. }
    assert (HU : U = []).
    { eapply (kahn_all nodes (by_targets g nodes) rank); [|exact Hi].
      intros x y Hx Hy. apply elem_of_by_targets in Hy as [Hxy Hyn]. by apply Hrank. }
    pose proof (ki_split _ _ _ _ _ _ _ Hi) as Hs. rewrite HU, app_nil_r in Hs.
    assert (Hbo : b ∈ ordered) by (by rewrite <- Hs).
    apply list_elem_of_lookup in Hbo as [j Hj].
    destruct (ki_respects _ _ _ _ _ _ _ Hi j a b Hj Ha Hbt) as (i & Hij & Hai).
    exists i, j. auto.
Qed.

(** The emission order of a component is total and loses nothing: on the
    nodes of a strongly connected component it ends without a panic (no failed
    [expect], no counter underflow, no endless loop) and returns each node
    exactly once. *)
Theorem component_order_permutation `{HashOrder} (g : G) (nodes : list NodeIndex) :
  NoDup nodes -> (forall n, n ∈ nodes -> is_Some (g_weight g n)) ->
  exists o, connected_component_emit_order (E:=E) g nodes = Ok o /\ o ≡ₚ nodes.
Proof. apply emit_order_total. Qed.

(** C7. User-authored order wins inside a component: when the explicit ([By])
    edges of a component have no cycle, every one of them is respected by the
    emission order, whatever the type-resolution edges say. *)
Theorem component_order_respects_explicit `{HashOrder} (g : G) (nodes : list NodeIndex) :
  NoDup nodes -> (forall n, n ∈ nodes -> is_Some (g_weight g n)) -> explicit_acyclic g nodes ->
  exists o, connected_component_emit_order (E:=E) g nodes = Ok o
    /\ forall a b, a ∈ nodes -> b ∈ nodes -> has_edge g a b By -> before o a b.
Proof. apply emit_order_explicit. Qed.

(** When explicit edges do form a cycle (a non-empty set of nodes of the
    component each having an explicit dependency in the set), the order falls
    back to the one [tarjan_scc] gave. *)
Theorem component_order_fallback `{HashOrder} (g : G) (nodes cycle : list NodeIndex) :
  NoDup nodes -> (forall n, n ∈ nodes -> is_Some (g_weight g n)) ->
  cycle <> [] -> (forall b, b ∈ cycle -> b ∈ nodes) ->
  (forall b, b ∈ cycle -> exists a, a ∈ cycle /\ has_edge g a b By) ->
  connected_component_emit_order (E:=E) g nodes = Ok nodes.
Proof.
  intros Hnd Hex Hne Hin Hcycle. destruct (emit_order_cases (E:=E) g nodes Hnd Hex)
    as (o & Ho & [[-> _]|(ordered & rem & U & Hi & ->)]); rewrite Ho; [done|].
  destruct (length ordered =? length nodes)%nat eqn:El; [|done].
  apply (kahn_full _ _ _ _ _ Hi) in El as ->. exfalso.
  pose proof (ki_split _ _ _ _ _ _ _ Hi) as Hs. rewrite app_nil_r in Hs.
  assert (Hno : forall j b, ordered !! j = Some b -> b ∉ cycle).
  { induction j as [j IH] using lt_wf_ind. intros b Hj Hb.
    destruct (Hcycle b Hb) as (a & Ha & Hab).
    destruct (ki_respects _ _ _ _ _ _ _ Hi j a b Hj (Hin a Ha)) as (i & Hij & Hia).
    - apply elem_of_by_targets. auto.
    - by apply (IH i Hij a Hia). }
  destruct cycle as [|c cycle]; [done|].
  assert (Hc : c ∈ ordered) by (rewrite <- Hs; apply Hin, list_elem_of_here).
  apply list_elem_of_lookup in Hc as [j Hj]. apply (Hno j c Hj), list_elem_of_here.
Qed.

(** C8. Where a component has an explicit edge inside it and no cycle of explicit edges, its
    emission order is canonical: it does not depend on the iteration order of the hash maps,
    on the order in which [tarjan_scc] lists the component, nor on the order in which the
    graph lists the edges.  (Without an explicit edge, or with a cycle of them, the order is
    that of [tarjan_scc].) *)
Theorem component_order_canonical (O O' : HashOrder) (g g' : G) (nodes nodes' : list NodeIndex) :
  NoDup nodes -> (forall n, n ∈ nodes -> is_Some (g_weight g n)) -> explicit_acyclic g nodes ->
  nodes ≡ₚ nodes' -> (forall n, g_weight g n = g_weight g' n) ->
  (forall n, g_edges g n ≡ₚ g_edges g' n) ->
  (exists a b, a ∈ nodes /\ b ∈ nodes /\ has_edge g a b By) ->
  @connected_component_emit_order G _ O E g nodes
  = @connected_component_emit_order G _ O' E g' nodes'.
Proof.
  intros Hnd Hex [rank Hrank] Hperm Hw He (x & y & Hx & Hy & Hxy).
  assert (Hnd' : NoDup nodes') by (by rewrite <- Hperm).
  assert (Hlen : length nodes = length nodes') by (by rewrite Hperm).
  unfold connected_component_emit_order. rewrite <- Hlen.
  destruct (length nodes <=? 1)%nat eqn:Hl.
  { exfalso. apply Nat.leb_le in Hl. specialize (Hrank x y Hx Hy Hxy).
    destruct nodes as [|z [|? ?]]; [by apply elem_of_nil in Hx| |cbn in Hl; lia].
    apply list_elem_of_singleton in Hx as ->, Hy as ->. lia. }
  destruct (explicit_edges_counted (E:=E) g nodes Hnd) as (st & -> & Hc).
  destruct (explicit_edges_counted (E:=E) g' nodes' Hnd') as (st' & -> & Hc').
  cbn [mbind outcome_bind]. destruct (counted_same g g' _ _ _ _ Hperm He Hc Hc') as [Hrem Hdep].
  rewrite (counted_has_edges g nodes st x y Hc Hx Hy Hxy).
  rewrite (counted_has_edges g' nodes' st' x y Hc').
  2-3: by rewrite <- Hperm.
  2: { unfold has_edge in *. by rewrite <- (He x). }
  cbn [negb]. rewrite <- Hrem.
  rewrite <- (kahn_loop_same (E:=E) g g' (length nodes) (ex_dependents st) (ex_dependents st')
    (ex_remaining st) _ _ [] Hw Hdep (initially_ready_perm O O' (ex_remaining st))).
  destruct (@kahn_run G _ O E g nodes st Hnd Hex Hc) as (ordered & rem & U & -> & Hi).
  cbn [mbind outcome_bind]. rewrite (proj2 (kahn_full _ _ _ _ _ Hi)); [done|].
  eapply (kahn_all nodes (by_targets g nodes) rank); [|exact Hi].
  intros a b Ha Hb. apply elem_of_by_targets in Hb as [Hab Hbn]. by apply Hrank.
Qed.

End Properties.

(** ** Witnesses *)

Definition ex_graph : ListGraph :=
  {| lg_nodes := [Entity_BuiltinType "b"; Entity_BuiltinType "a"; Entity_BuiltinType "c"];
     lg_edges := [(2, 0, By); (0, 1, ByArg); (1, 2, ByReturn)]%nat |}.

Definition ex_cyclic : ListGraph :=
  {| lg_nodes := [Entity_BuiltinType "b"; Entity_BuiltinType "a"];
     lg_edges := [(0, 1, By); (1, 0, By)]%nat |}.

(** Decides [forall n, n ∈ l -> P n] over a literal list. *)
Ltac each_elem :=
  let n := fresh "n" in let Hn := fresh "Hn" in
  intros n Hn; repeat (apply elem_of_cons in Hn as [->|Hn]); [..|by apply elem_of_nil in Hn].

Lemma component_order_permutation_witness :
  exists o, connected_component_emit_order (E:=unit) (H0:=hash_order_id) ex_graph [0; 1; 2]%nat
      = Ok o /\ o ≡ₚ [0; 1; 2]%nat.
Proof.
  apply (component_order_permutation (H0:=hash_order_id) ex_graph [0; 1; 2]%nat).
  - by apply (bool_decide_unpack _); vm_compute.
  - each_elem; eauto.
Defined.

Definition ex_rank (n : NodeIndex) : nat := if decide (n = 2)%nat then 0 else 1.

Lemma ex_graph_by a b : has_edge ex_graph a b By -> a = 2%nat /\ b = 0%nat.
Proof.
  intros Hab. apply elem_of_lg_out in Hab. cbn in Hab.
  rewrite !elem_of_cons in Hab. destruct Hab as [[= -> ->]|[[=]|[[=]|Hab]]]; [done|].
  by apply elem_of_nil in Hab.
Qed.

Lemma component_order_respects_explicit_witness :
  exists o, connected_component_emit_order (E:=unit) (H0:=hash_order_rev) ex_graph [0; 1; 2]%nat
      = Ok o
    /\ forall a b, a ∈ [0; 1; 2]%nat -> b ∈ [0; 1; 2]%nat -> has_edge ex_graph a b By ->
       before o a b.
Proof.
  apply (component_order_respects_explicit (H0:=hash_order_rev) ex_graph [0; 1; 2]%nat).
  - by apply (bool_decide_unpack _); vm_compute.
  - each_elem; eauto.
  - exists ex_rank. intros a b _ _ [-> ->]%ex_graph_by. vm_compute. lia.
Defined.

Lemma component_order_fallback_witness :
  connected_component_emit_order (E:=unit) (H0:=hash_order_id) ex_cyclic [1; 0]%nat
  = Ok [1; 0]%nat.
Proof.
  apply (component_order_fallback (H0:=hash_order_id) ex_cyclic [1; 0]%nat [0; 1]%nat).
  - by apply (bool_decide_unpack _); vm_compute.
  - each_elem; eauto.
  - done.
  - each_elem; by apply (bool_decide_unpack _); vm_compute.
  - each_elem.
    + exists 1%nat. split; by apply (bool_decide_unpack _); vm_compute.
    + exists 0%nat. split; by apply (bool_decide_unpack _); vm_compute.
Defined.

Lemma component_order_canonical_witness :
  @connected_component_emit_order _ _ hash_order_id unit ex_graph [0; 1; 2]%nat
  = @connected_component_emit_order _ _ hash_order_rev unit ex_graph [2; 1; 0]%nat.
Proof.
  apply (component_order_canonical hash_order_id hash_order_rev ex_graph ex_graph
    [0; 1; 2]%nat [2; 1; 0]%nat).
  - by apply (bool_decide_unpack _); vm_compute.
  - each_elem; eauto.
  - exists ex_rank. intros a b _ _ [-> ->]%ex_graph_by. vm_compute. lia.
  - by apply (bool_decide_unpack _); vm_compute.
  - done.
  - done.
  - exists 2%nat, 0%nat. split; [|split]; by apply (bool_decide_unpack _); vm_compute.
Defined.
