(* ===== verification/Slice.v ===== *)
(** * Emission order of the whole graph, and slices of it

    From [pgrx-sql-entity-graph/src/pgrx_sql.rs]: the sequence of nodes
    [PgrxSql::to_sql] visits (the components of [tarjan_scc] in reverse, each in
    its own order), [collect_transitive_deps] (breadth-first search along
    incoming edges) and the sequence of nodes [emit_slice_from_nodes_inner]
    visits.  [tarjan_scc] is [petgraph]'s and stays a parameter; its documented
    result is the hypothesis [scc_postorder]. *)
From S2P Require Import Prelude Metadata Entities EntityOrd Graph EmitOrder.
From stdpp Require Import list gmap.
#[local] Set Warnings "-clear-no-such-hyp".

Section Definitions.
Context {G : Type} `{StableGraph G} `{HashOrder} {E : Type}.
Variable (tarjan_scc : G -> list (list NodeIndex)).

(** [for nodes in tarjan_scc(&self.graph).iter().rev() { for node in
    self.connected_component_emit_order(nodes) { .. } }] *)
Definition emission_order (g : G) : outcome E (list NodeIndex) :=
  orders ← collect (connected_component_emit_order g) (reverse (tarjan_scc g));
  Ok (concat orders).

(** ** [collect_transitive_deps] *)

Definition visit (st : gset NodeIndex * list NodeIndex) (n : NodeIndex)
    : gset NodeIndex * list NodeIndex :=
  let '(visited, queue) := st in
  if decide (n ∈ visited) then (visited, queue) else ({[n]} ∪ visited, queue ++ [n]).

Fixpoint bfs_loop (g : G) (fuel : nat) (visited : gset NodeIndex) (queue : list NodeIndex)
    : outcome E (gset NodeIndex) :=
  match queue with
  | [] => Ok visited
  | node :: queue =>
      match fuel with
      | O => Panic
      | S fuel =>
          let '(visited, queue) := foldl visit (visited, queue) (g_incoming g node) in
          bfs_loop g fuel visited queue
      end
  end.

(** Each turn takes a node off the queue, and no node enters it twice: one turn
    per target and per node of the graph is enough. *)
Definition collect_transitive_deps (g : G) (targets : list NodeIndex)
    : outcome E (gset NodeIndex) :=
  let '(visited, queue) := foldl visit (∅, []) targets in
  bfs_loop g (length targets + length (g_node_indices g)) visited queue.

(** The nodes a slice emits, in order: the ones to keep, the extension root
    left out. *)
Definition is_root (g : G) (n : NodeIndex) : bool :=
  match g_weight g n with Some (Entity_ExtensionRoot _) => true | _ => false end.

Definition slice_order (g : G) (targets : list NodeIndex) : outcome E (list NodeIndex) :=
  keep ← collect_transitive_deps g targets;
  order ← emission_order g;
  Ok (filter (fun n => n ∈ keep /\ is_root g n = false) order).

End Definitions.

(** ** Breadth-first search *)

Lemma size_list_to_set_le (l : list NodeIndex) :
  (size (list_to_set (C:=gset NodeIndex) l) <= length l)%nat.
Proof.
  induction l as [|x l IH]; cbn; [by rewrite size_empty|].
  rewrite size_union_alt, size_singleton.
  assert (size (list_to_set (C:=gset NodeIndex) l ∖ {[x]})
    <= size (list_to_set (C:=gset NodeIndex) l))%nat by (apply subseteq_size; set_solver).
  lia.
Qed.

Section Bfs.
Context {G : Type} `{StableGraphLaws G} {E : Type}.

(** The invariant of the queue and the visited set, [ns] still to be visited. *)
Lemma visit_spec visited queue n :
  (forall x, x ∈ queue -> x ∈ visited) -> NoDup queue ->
  exists new, visit (visited, queue) n = (visited ∪ list_to_set new, queue ++ new)
    /\ NoDup new /\ (forall x, x ∈ new -> x = n /\ x ∉ visited)
    /\ n ∈ visited ∪ list_to_set new.
Proof.
  intros Hq Hnd. unfold visit. destruct (decide (n ∈ visited)) as [Hn|Hn].
  - exists []. rewrite app_nil_r. split; [f_equal; set_solver|]. split; [constructor|].
    split; [intros x Hx; by apply elem_of_nil in Hx | set_solver].
  - exists [n]. split; [f_equal; set_solver|]. split; [apply NoDup_singleton|].
    split; [|set_solver]. intros x ->%list_elem_of_singleton. done.
Qed.

Lemma visits_spec ns : forall visited queue,
  (forall x, x ∈ queue -> x ∈ visited) -> NoDup queue ->
  exists new, foldl visit (visited, queue) ns = (visited ∪ list_to_set new, queue ++ new)
    /\ NoDup new /\ (forall x, x ∈ new -> x ∈ ns /\ x ∉ visited)
    /\ (forall x, x ∈ ns -> x ∈ visited ∪ list_to_set new).
Proof.
  induction ns as [|n ns IH]; intros visited queue Hq Hnd; cbn [foldl].
  - exists []. rewrite app_nil_r. split; [f_equal; set_solver|]. split; [constructor|].
    split; [intros x Hx; by apply elem_of_nil in Hx | intros x Hx; by apply elem_of_nil in Hx].
  - destruct (visit_spec visited queue n Hq Hnd) as (new1 & -> & Hnd1 & Hnew1 & Hn).
    assert (Hq1 : forall x, x ∈ queue ++ new1 -> x ∈ visited ∪ list_to_set new1).
    { intros x Hx. apply elem_of_app in Hx as [Hx|Hx]; [|set_solver].
      apply elem_of_union. left. auto. }
    assert (Hndq : NoDup (queue ++ new1)).
    { apply NoDup_app. split; [done|]. split; [|done]. intros x Hx Hx1.
      destruct (Hnew1 x Hx1) as [_ Hv]. auto. }
    destruct (IH _ _ Hq1 Hndq) as (new2 & -> & Hnd2 & Hnew2 & Hns).
    exists (new1 ++ new2). rewrite <- app_assoc. split; [f_equal; set_solver|]. split.
    + apply NoDup_app. split; [done|]. split; [|done]. intros x Hx1 Hx2.
      destruct (Hnew2 x Hx2) as [_ Hv]. set_solver.
    + split.
      * intros x Hx. apply elem_of_app in Hx as [Hx|Hx].
        -- destruct (Hnew1 x Hx) as [-> Hv]. split; [apply list_elem_of_here | done].
        -- destruct (Hnew2 x Hx) as [Hin Hv]. split; [by apply list_elem_of_further | set_solver].
      * intros x Hx. apply elem_of_cons in Hx as [->|Hx]; [set_solver|].
        specialize (Hns x Hx). set_solver.
Qed.

Variable (g : G) (targets : list NodeIndex).
Hypothesis g_wf : graph_wf g.

(** What must exist before the targets. *)
Definition needed (n : NodeIndex) : Prop := exists t, t ∈ targets /\ reach g n t.

Record bfs_inv (visited : gset NodeIndex) (queue : list NodeIndex) : Prop := {
  bi_targets : forall t, t ∈ targets -> t ∈ visited;
  bi_needed : forall n, n ∈ visited -> needed n;
  bi_queue : forall n, n ∈ queue -> n ∈ visited;
  bi_nodup : NoDup queue;
  bi_closed : forall a b w, b ∈ visited -> b ∉ queue -> has_edge g a b w -> a ∈ visited;
}.

Definition universe : gset NodeIndex := list_to_set targets ∪ list_to_set (g_node_indices g).

Lemma needed_universe n : needed n -> n ∈ universe.
Proof.
  intros (t & Ht & Hr). unfold universe. destruct Hr as [a|a b c w Hab _].
  - set_solver.
  - apply elem_of_union. right. apply elem_of_list_to_set, node_indices_spec.
    by destruct (g_wf a b w Hab).
Qed.

Lemma bfs_loop_ok fuel : forall visited queue,
  bfs_inv visited queue -> (size universe + length queue <= fuel + size visited)%nat ->
  exists V, bfs_loop (E:=E) g fuel visited queue = Ok V /\ bfs_inv V [].
Proof.
  induction fuel as [|fuel IH]; intros visited queue Hi Hfuel.
  - destruct queue as [|n queue]; [by exists visited|]. exfalso.
    assert (visited ⊆ universe) as Hsub.
    { intros x Hx. by eapply needed_universe, bi_needed. }
    apply subseteq_size in Hsub. cbn in Hfuel. lia.
  - destruct queue as [|node queue]; [by exists visited|]. cbn [bfs_loop].
    pose proof Hi as [Ht Hneed Hq Hnd Hcl].
    apply NoDup_cons in Hnd as [Hnode Hnd].
    destruct (visits_spec (g_incoming g node) visited queue) as (new & -> & Hnd' & Hnew & Hall).
    { intros x Hx. apply Hq. by apply list_elem_of_further. }
    { done. }
    assert (Hsz : size (visited ∪ list_to_set new) = (size visited + length new)%nat).
    { rewrite size_union, size_list_to_set by (done || set_solver). done. }
    apply IH.
    + split.
      * set_solver.
      * intros n Hn. apply elem_of_union in Hn as [Hn|Hn]; [auto|].
        apply elem_of_list_to_set, Hnew in Hn as [Hn _]. apply incoming_spec in Hn as [w Hw].
        destruct (Hneed node) as (t & Htt & Hr); [apply Hq, list_elem_of_here|].
        exists t. split; [done|]. by eapply reach_step.
      * intros n Hn. apply elem_of_app in Hn as [Hn|Hn]; [|set_solver].
        apply elem_of_union. left. apply Hq. by apply list_elem_of_further.
      * apply NoDup_app. split; [done|]. split; [|done]. intros x Hx Hxn.
        destruct (Hnew x Hxn) as [_ Hv]. apply Hv, Hq. by apply list_elem_of_further.
      * intros a b w Hb Hbq Hab. rewrite elem_of_app in Hbq.
        apply elem_of_union in Hb as [Hb|Hb]; [|set_solver].
        destruct (decide (b = node)) as [->|Hne].
        -- apply Hall, incoming_spec. eauto.
        -- apply elem_of_union. left. eapply Hcl; [exact Hb| |exact Hab].
           intros Hbq'. apply elem_of_cons in Hbq' as [->|Hbq']; [done | tauto].
    + rewrite Hsz, length_app. cbn in Hfuel. lia.
Qed.

Lemma bfs_final V n : bfs_inv V [] -> n ∈ V <-> needed n.
Proof.
  intros [Ht Hneed _ _ Hcl]. split; [apply Hneed|]. intros (t & Htt & Hr).
  induction Hr as [a|a b c w Hab _ IH]; [by apply Ht|].
  eapply Hcl; [by apply IH | apply not_elem_of_nil | exact Hab].
Qed.

Lemma collect_deps_ok :
  exists V, collect_transitive_deps (E:=E) g targets = Ok V /\ forall n, n ∈ V <-> needed n.
Proof.
  unfold collect_transitive_deps.
  destruct (visits_spec targets ∅ []) as (new & -> & Hnd & Hnew & Hall).
  { intros x Hx. by apply elem_of_nil in Hx. }
  { constructor. }
  destruct (bfs_loop_ok (length targets + length (g_node_indices g))
    (∅ ∪ list_to_set new) ([] ++ new)) as (V & -> & Hi).
  - split.
    + intros t Ht. by apply Hall.
    + intros n Hn. rewrite union_empty_l_L in Hn. apply elem_of_list_to_set, Hnew in Hn as [Hn _].
      exists n. split; [done | apply reach_refl].
    + intros n Hn. cbn in Hn. set_solver.
    + done.
    + intros a b w Hb Hbq _. cbn in Hbq. set_solver.
  - rewrite union_empty_l_L. cbn. rewrite size_list_to_set by done.
    assert (size universe <= length targets + length (g_node_indices g))%nat; [|lia].
    unfold universe. rewrite size_union_alt.
    pose proof (size_list_to_set_le targets).
    pose proof (size_list_to_set_le (g_node_indices g)).
    assert (size (list_to_set (C:=gset NodeIndex) (g_node_indices g) ∖ list_to_set targets)
      <= size (list_to_set (C:=gset NodeIndex) (g_node_indices g)))%nat
      by (apply subseteq_size; set_solver).
    lia.
  - exists V. split; [done|]. intros n. by apply bfs_final.
Qed.

End Bfs.

(** ** The order of the whole graph *)

Lemma before_split l a b :
  before l a b <-> exists l1 l2, l = l1 ++ l2 /\ a ∈ l1 /\ b ∈ l2.
Proof.
  split.
  - intros (i & j & Hij & Hi & Hj). exists (take (S i) l), (drop (S i) l).
    split; [by rewrite take_drop|]. split.
    + apply list_elem_of_lookup. exists i. rewrite lookup_take_lt; [done | lia].
    + apply list_elem_of_lookup. exists (j - S i)%nat. rewrite lookup_drop.
      by replace (S i + (j - S i))%nat with j by lia.
  - intros (l1 & l2 & -> & Ha & Hb). apply list_elem_of_lookup in Ha as [i Hi], Hb as [j Hj].
    exists i, (length l1 + j)%nat. pose proof (lookup_lt_Some _ _ _ Hi). split; [lia|].
    split; [by apply lookup_app_l_Some|]. by rewrite lookup_app_r, Nat.add_comm, Nat.add_sub by lia.
Qed.

Lemma before_app_r l l' a b : before l a b -> before (l' ++ l) a b.
Proof.
  rewrite !before_split. intros (l1 & l2 & -> & Ha & Hb). exists (l' ++ l1), l2.
  rewrite app_assoc, elem_of_app. auto.
Qed.

Lemma before_app_l l l' a b : before l a b -> before (l ++ l') a b.
Proof.
  rewrite !before_split. intros (l1 & l2 & -> & Ha & Hb). exists l1, (l2 ++ l').
  rewrite app_assoc, elem_of_app. auto.
Qed.

Lemma before_filter (P : NodeIndex -> Prop) `{forall x, Decision (P x)} l a b :
  P a -> P b -> before l a b -> before (filter P l) a b.
Proof.
  intros Ha Hb. rewrite !before_split. intros (l1 & l2 & -> & Hal & Hbl).
  exists (filter P l1), (filter P l2). rewrite filter_app, !list_elem_of_filter. auto.
Qed.

Lemma before_concat_within ls k l a b : ls !! k = Some l -> before l a b -> before (concat ls) a b.
Proof.
  intros Hk Hb. rewrite <- (take_drop_middle ls k l Hk), concat_app. cbn.
  by apply before_app_r, before_app_l.
Qed.

Lemma before_concat_across ls i j li lj a b :
  ls !! i = Some li -> ls !! j = Some lj -> (i < j)%nat -> a ∈ li -> b ∈ lj ->
  before (concat ls) a b.
Proof.
  intros Hi Hj Hij Ha Hb. apply before_split.
  exists (concat (take j ls)), (concat (drop j ls)).
  rewrite <- concat_app, take_drop. split; [done|]. split.
  - apply list_elem_of_In, in_concat. exists li. split; apply list_elem_of_In; [|done].
    apply list_elem_of_lookup. exists i. by rewrite lookup_take_lt.
  - apply list_elem_of_In, in_concat. exists lj. split; apply list_elem_of_In; [|done].
    apply list_elem_of_lookup. exists 0%nat. rewrite lookup_drop. by rewrite Nat.add_0_r.
Qed.

Lemma collect_total {E A B} (f : A -> outcome E B) (R : A -> B -> Prop) (l : list A) :
  (forall x, x ∈ l -> exists y, f x = Ok y /\ R x y) ->
  exists ys, collect f l = Ok ys /\ Forall2 (fun x y => f x = Ok y /\ R x y) l ys.
Proof.
  induction l as [|x l IH]; intros Hl; [by exists []; split; [|constructor]|].
  destruct (Hl x (list_elem_of_here _ _)) as (y & Hy & Hr).
  destruct IH as (ys & Hys & Hall); [intros z Hz; apply Hl; by apply list_elem_of_further|].
  exists (y :: ys). cbn. rewrite Hy. cbn. rewrite Hys. split; [done | by constructor].
Qed.

Lemma concat_perm {A} (ls ls' : list (list A)) :
  Forall2 (fun l l' => l' ≡ₚ l) ls ls' -> concat ls' ≡ₚ concat ls.
Proof. induction 1 as [|l l' ls ls' Hl _ IH]; cbn; [done | by rewrite Hl, IH]. Qed.

Lemma concat_rev_perm {A} (ls : list (list A)) : concat (reverse ls) ≡ₚ concat ls.
Proof.
  induction ls as [|l ls IH]; [done|]. rewrite reverse_cons, concat_app, IH. cbn.
  rewrite app_nil_r. apply Permutation_app_comm.
Qed.

Lemma rev_lookup {A} (l : list A) i x :
  l !! i = Some x -> reverse l !! (length l - S i)%nat = Some x.
Proof.
  intros Hi. rewrite reverse_lookup.
  - rewrite <- Hi. f_equal. apply lookup_lt_Some in Hi. lia.
  - apply lookup_lt_Some in Hi. lia.
Qed.

Lemma NoDup_concat_part {A} (ls : list (list A)) i l :
  NoDup (concat ls) -> ls !! i = Some l -> NoDup l.
Proof.
  intros Hnd Hi. rewrite <- (take_drop_middle ls i l Hi), concat_app in Hnd. cbn in Hnd.
  apply NoDup_app in Hnd as (_ & _ & Hnd). by apply NoDup_app in Hnd as (Hnd & _ & _).
Qed.

Lemma elem_of_concat_lookup {A} (ls : list (list A)) x :
  x ∈ concat ls <-> exists i l, ls !! i = Some l /\ x ∈ l.
Proof.
  rewrite list_elem_of_In, in_concat. split.
  - intros (l & Hl & Hx). apply list_elem_of_In in Hl, Hx.
    apply list_elem_of_lookup in Hl as [i Hi]. eauto.
  - intros (i & l & Hi & Hx). exists l. rewrite <- !list_elem_of_In. split; [|done].
    apply list_elem_of_lookup. eauto.
Qed.

Section Emission.
Context {G : Type} `{StableGraphLaws G} `{HashOrder} {E : Type}.
Variable (tarjan_scc : G -> list (list NodeIndex)) (g : G).
Hypothesis g_wf : graph_wf g.
Hypothesis g_scc : scc_postorder g (tarjan_scc g).

(** The components' orders: the same nodes, and the explicit edges of an
    acyclic component respected. *)
Definition good_order (c o : list NodeIndex) : Prop :=
  o ≡ₚ c /\ (explicit_acyclic g c ->
    forall a b, a ∈ c -> b ∈ c -> has_edge g a b By -> before o a b).

Lemma component_good c : c ∈ tarjan_scc g ->
  exists o, connected_component_emit_order (E:=E) g c = Ok o /\ good_order c o.
Proof.
  intros Hc. apply list_elem_of_lookup in Hc as [i Hi].
  assert (Hnd : NoDup c) by (eapply NoDup_concat_part; [apply g_scc | exact Hi]).
  assert (Hex : forall n, n ∈ c -> is_Some (g_weight g n)).
  { intros n Hn. apply (scc_cover _ _ g_scc), elem_of_concat_lookup. eauto. }
  destruct (emit_order_total (E:=E) g c Hnd Hex) as (o & Ho & Hp). exists o. split; [done|].
  split; [done|]. intros Hac.
  destruct (emit_order_explicit (E:=E) g c Hnd Hex Hac) as (o' & Ho' & Hb).
  rewrite Ho in Ho'. by injection Ho' as <-.
Qed.

Lemma emission_parts :
  exists orders, emission_order (E:=E) tarjan_scc g = Ok (concat orders)
    /\ Forall2 good_order (reverse (tarjan_scc g)) orders.
Proof.
  destruct (collect_total (connected_component_emit_order (E:=E) g) good_order
    (reverse (tarjan_scc g))) as (orders & Hc & Hall).
  { intros c Hc. apply component_good. by apply elem_of_reverse. }
  exists orders. unfold emission_order. rewrite Hc. split; [done|].
  eapply Forall2_impl; [exact Hall|]. by intros c o [_ Hg].
Qed.

Section Orders.
Variable (orders : list (list NodeIndex)).
Hypothesis orders_good : Forall2 good_order (reverse (tarjan_scc g)) orders.

Lemma orders_perm : concat orders ≡ₚ concat (tarjan_scc g).
Proof.
  rewrite <- (concat_rev_perm (tarjan_scc g)). apply concat_perm.
  eapply Forall2_impl; [exact orders_good|]. by intros c o [Hp _].
Qed.

Lemma orders_nodes : NoDup (concat orders)
  /\ forall n, n ∈ concat orders <-> is_Some (g_weight g n).
Proof.
  split.
  - rewrite orders_perm. apply g_scc.
  - intros n. rewrite orders_perm. apply g_scc.
Qed.

Lemma orders_lookup i c : tarjan_scc g !! i = Some c ->
  exists o, orders !! (length (tarjan_scc g) - S i)%nat = Some o /\ good_order c o.
Proof.
  intros Hi. apply rev_lookup in Hi.
  destruct (Forall2_lookup_l _ _ _ _ _ orders_good Hi) as (o & Ho & Hg). eauto.
Qed.

(** An edge joins two components in order, or lies in one. *)
Lemma edge_components a b w : has_edge g a b w ->
  exists i ci, tarjan_scc g !! i = Some ci /\ a ∈ ci
    /\ (b ∈ ci \/ exists j cj, (j < i)%nat /\ tarjan_scc g !! j = Some cj /\ b ∈ cj).
Proof.
  intros Hab. destruct (g_wf a b w Hab) as [Ha Hb].
  apply (scc_cover _ _ g_scc), elem_of_concat_lookup in Ha as (i & ci & Hi & Hai).
  apply (scc_cover _ _ g_scc), elem_of_concat_lookup in Hb as (j & cj & Hj & Hbj).
  exists i, ci. split; [done|]. split; [done|].
  pose proof (scc_order _ _ g_scc i j ci cj a b w Hi Hj Hai Hbj Hab) as Hle.
  destruct (decide (j = i)) as [->|Hne]; [left; congruence|].
  right. exists j, cj. split; [lia | done].
Qed.

Lemma orders_edge a b w : has_edge g a b w -> ~ reach g b a -> before (concat orders) a b.
Proof.
  intros Hab Hno. destruct (edge_components a b w Hab)
    as (i & ci & Hi & Ha & [Hb|(j & cj & Hji & Hj & Hb)]).
  - exfalso. apply Hno. apply list_elem_of_lookup_2 in Hi.
    by apply (scc_strong _ _ g_scc ci a b Hi Ha) in Hb as [_ Hr].
  - destruct (orders_lookup i ci Hi) as (oi & Hoi & Hpi & _).
    destruct (orders_lookup j cj Hj) as (oj & Hoj & Hpj & _).
    eapply before_concat_across; [exact Hoi|exact Hoj| |by rewrite Hpi|by rewrite Hpj].
    apply lookup_lt_Some in Hi, Hj. lia.
Qed.

Lemma orders_explicit rank a b :
  (forall a b, has_edge g a b By -> (rank a < rank b)%nat) ->
  has_edge g a b By -> before (concat orders) a b.
Proof.
  intros Hrank Hab. destruct (edge_components a b By Hab)
    as (i & ci & Hi & Ha & [Hb|(j & cj & Hji & Hj & Hb)]).
  - destruct (orders_lookup i ci Hi) as (oi & Hoi & _ & Hex).
    eapply before_concat_within; [exact Hoi|]. apply Hex; [|done..].
    exists rank. intros x y _ _. apply Hrank.
  - destruct (orders_lookup i ci Hi) as (oi & Hoi & Hpi & _).
    destruct (orders_lookup j cj Hj) as (oj & Hoj & Hpj & _).
    eapply before_concat_across; [exact Hoi|exact Hoj| |by rewrite Hpi|by rewrite Hpj].
    apply lookup_lt_Some in Hi, Hj. lia.
Qed.

End Orders.
End Emission.

(** ** Properties *)

Section Properties.
Context {G : Type} `{StableGraphLaws G} {E : Type}.

(** [collect_transitive_deps] ends and returns exactly the targets and
    everything they depend on: the nodes from which a path of dependency edges
    leads to a target. *)
Theorem collect_transitive_deps_spec (g : G) (targets : list NodeIndex) :
  graph_wf g ->
  exists V, collect_transitive_deps (E:=E) g targets = Ok V
    /\ forall n, n ∈ V <-> exists t, t ∈ targets /\ reach g n t.
Proof. apply collect_deps_ok. Qed.

(** The schema visits every entity of the graph exactly once, and an entity
    after everything it depends on: an edge is against the order only when its
    two ends depend on each other. *)
Theorem emission_order_topological `{HashOrder} (tarjan_scc : G -> list (list NodeIndex)) (g : G) :
  graph_wf g -> scc_postorder g (tarjan_scc g) ->
  exists o, emission_order (E:=E) tarjan_scc g = Ok o
    /\ NoDup o /\ (forall n, n ∈ o <-> is_Some (g_weight g n))
    /\ forall a b w, has_edge g a b w -> ~ reach g b a -> before o a b.
Proof.
  intros Hwf Hscc. destruct (emission_parts (E:=E) tarjan_scc g Hscc) as (os & Ho & Hg).
  exists (concat os). split; [exact Ho|].
  destruct (orders_nodes tarjan_scc g Hscc os Hg) as [Hnd Hn]. split; [done|]. split; [done|].
  intros a b w. by apply (orders_edge tarjan_scc g Hwf Hscc os Hg).
Qed.

(** User-authored order is respected by the whole schema: when the explicit
    ([By]) edges have no cycle, each of them is respected, even between
    entities that type-resolution edges make depend on each other. *)
Theorem emission_order_explicit `{HashOrder} (tarjan_scc : G -> list (list NodeIndex)) (g : G)
    (rank : NodeIndex -> nat) :
  graph_wf g -> scc_postorder g (tarjan_scc g) ->
  (forall a b, has_edge g a b By -> (rank a < rank b)%nat) ->
  exists o, emission_order (E:=E) tarjan_scc g = Ok o
    /\ forall a b, has_edge g a b By -> before o a b.
Proof.
  intros Hwf Hscc Hrank. destruct (emission_parts (E:=E) tarjan_scc g Hscc) as (os & Ho & Hg).
  exists (concat os). split; [exact Ho|].
  intros a b. by apply (orders_explicit tarjan_scc g Hwf Hscc os Hg rank).
Qed.

Lemma slice_ok `{HashOrder} (tarjan_scc : G -> list (list NodeIndex)) (g : G)
    (targets : list NodeIndex) :
  graph_wf g -> scc_postorder g (tarjan_scc g) ->
  (forall t, t ∈ targets -> is_Some (g_weight g t)) ->
  exists o, slice_order (E:=E) tarjan_scc g targets = Ok o /\ NoDup o
    /\ (forall n, n ∈ o <-> is_root g n = false /\ exists t, t ∈ targets /\ reach g n t)
    /\ forall a b w, b ∈ o -> has_edge g a b w -> is_root g a = false ->
         a ∈ o /\ (~ reach g b a -> before o a b).
Proof.
  intros Hwf Hscc Ht. destruct (emission_parts (E:=E) tarjan_scc g Hscc) as (os & Ho & Hg).
  destruct (collect_deps_ok (E:=E) g targets Hwf) as (V & HV & HVs).
  destruct (orders_nodes tarjan_scc g Hscc os Hg) as [Hnd Hn].
  unfold slice_order. rewrite HV. cbn [mbind outcome_bind]. rewrite Ho. cbn [mbind outcome_bind].
  eexists. split; [done|]. split; [by apply NoDup_filter|].
  assert (Hin : forall n, n ∈ filter (fun n => n ∈ V /\ is_root g n = false) (concat os) <->
    is_root g n = false /\ needed g targets n).
  { intros n. rewrite list_elem_of_filter, Hn, HVs. split; [tauto|]. intros [Hr Hne].
    split; [done|]. destruct Hne as (t & Htt & Hre).
    inversion Hre as [|? b' ? w' Hab _]; subst; [by apply Ht | by destruct (Hwf _ _ _ Hab)]. }
  split; [exact Hin|]. intros a b w Hb Hab Hra. pose proof Hb as Hb'.
  apply Hin in Hb' as [Hrb (t & Htt & Hre)].
  assert (Hna : needed g targets a) by (exists t; split; [done | by eapply reach_step]).
  split; [by apply Hin|]. intros Hno.
  apply before_filter; [by rewrite HVs | split; [|done]; apply HVs; by exists t |].
  by apply (orders_edge tarjan_scc g Hwf Hscc os Hg a b w).
Qed.

(** C39. A slice is self-contained and minimal: it visits, once each, the targets
    and everything they depend on, and nothing else (the extension root apart);
    an entity of the slice comes after the ones it depends on, unless they
    depend on each other. *)
Theorem slice_closed `{HashOrder} (tarjan_scc : G -> list (list NodeIndex)) (g : G)
    (targets : list NodeIndex) :
  graph_wf g -> scc_postorder g (tarjan_scc g) ->
  (forall t, t ∈ targets -> is_Some (g_weight g t)) ->
  exists o, slice_order (E:=E) tarjan_scc g targets = Ok o /\ NoDup o
    /\ (forall n, n ∈ o <-> is_root g n = false /\ exists t, t ∈ targets /\ reach g n t)
    /\ forall a b w, b ∈ o -> has_edge g a b w -> is_root g a = false ->
         a ∈ o /\ (~ reach g b a -> before o a b).
Proof. apply slice_ok. Qed.

End Properties.

(** ** Deciding reachability, and checking a list of components *)

Section Check.
Context {G : Type} `{StableGraphLaws G}.

Definition reachb (g : G) (a b : NodeIndex) : bool :=
  match collect_transitive_deps (E:=unit) g [b] with
  | Ok V => bool_decide (a ∈ V)
  | _ => false
  end.

Lemma reachb_spec g a b : graph_wf g -> reachb g a b = true <-> reach g a b.
Proof.
  intros Hwf. unfold reachb. destruct (collect_deps_ok (E:=unit) g [b] Hwf) as (V & -> & HV).
  rewrite bool_decide_eq_true, HV. unfold needed. split.
  - by intros (t & ->%list_elem_of_singleton & Hr).
  - intros Hr. exists b. split; [by apply list_elem_of_singleton | done].
Qed.

Lemma reach_exists g a b : graph_wf g -> reach g a b -> is_Some (g_weight g a) ->
  is_Some (g_weight g b).
Proof.
  intros Hwf Hr. induction Hr as [|a b c w Hab _ IH]; [done|]. intros _. apply IH.
  by destruct (Hwf a b w Hab).
Qed.

Definition scc_check (g : G) (cs : list (list NodeIndex)) : bool :=
  bool_decide (NoDup (concat cs))
  && bool_decide (Forall (fun i => is_Some (g_weight g i)) (concat cs))
  && bool_decide (Forall (fun i => i ∈ concat cs) (g_node_indices g))
  && bool_decide (Forall (fun c => Forall (fun a => Forall (fun b =>
       bool_decide (b ∈ c) = reachb g a b && reachb g b a) (g_node_indices g)) c) cs)
  && bool_decide (Forall (fun i => Forall (fun a => Forall (fun '(b, _) =>
       b ∈ concat (take (S i) cs)) (g_edges g a)) (cs !!! i)) (seq 0 (length cs))).

Lemma concat_unique {A} (cs : list (list A)) i j ci cj x :
  NoDup (concat cs) -> cs !! i = Some ci -> cs !! j = Some cj -> x ∈ ci -> x ∈ cj -> i = j.
Proof.
  revert i j. induction cs as [|c cs IH]; intros i j Hnd Hi Hj Hxi Hxj; [done|].
  cbn in Hnd. apply NoDup_app in Hnd as (_ & Hdis & Hnd).
  destruct i as [|i], j as [|j]; cbn in *; [done| | |f_equal; eauto]; exfalso; simplify_eq;
    eapply Hdis; [exact Hxi| |exact Hxj|]; apply elem_of_concat_lookup; eauto.
Qed.

Lemma scc_check_sound g cs : graph_wf g -> scc_check g cs = true -> scc_postorder g cs.
Proof.
  intros Hwf Hc. unfold scc_check in Hc. rewrite !andb_true_iff, !bool_decide_eq_true in Hc.
  destruct Hc as ((((Hnd & Hex) & Hcov) & Hstrong) & Hord). rewrite !Forall_forall in *.
  assert (Hcover : forall i, i ∈ concat cs <-> is_Some (g_weight g i)).
  { intros i. split; [apply Hex|]. intros Hi. by apply Hcov, node_indices_spec. }
  split; [done | done | |].
  - intros c a b Hc Ha. specialize (Hstrong c Hc). rewrite Forall_forall in Hstrong.
    specialize (Hstrong a Ha). rewrite Forall_forall in Hstrong.
    assert (Hone : forall b, is_Some (g_weight g b) -> b ∈ c <-> reach g a b /\ reach g b a).
    { intros b' Hb'. apply node_indices_spec in Hb'. specialize (Hstrong b' Hb').
      rewrite <- !reachb_spec, <- andb_true_iff, <- Hstrong by done.
      by rewrite bool_decide_eq_true. }
    assert (Hin : forall x, x ∈ c -> is_Some (g_weight g x)).
    { intros x Hx. apply Hcover, elem_of_concat_lookup.
      apply list_elem_of_lookup in Hc as [k Hk]. eauto. }
    split; [intros Hb; by apply Hone; [apply Hin|]|]. intros [Hab Hba].
    apply Hone; [|done]. by eapply reach_exists; [..|apply Hin].
  - intros i j ci cj a b w Hi Hj Ha Hb Hab. specialize (Hord i).
    rewrite Forall_forall in Hord. rewrite (list_lookup_total_correct _ _ _ Hi) in Hord.
    assert (Hs : i ∈ seq 0 (length cs)) by (apply lookup_lt_Some in Hi; apply elem_of_seq; lia).
    specialize (Hord Hs a Ha). rewrite Forall_forall in Hord. specialize (Hord (b, w) Hab).
    cbn in Hord. apply elem_of_concat_lookup in Hord as (k & ck & Hk & Hbk).
    apply lookup_take_Some in Hk as [Hk Hlt].
    rewrite (concat_unique cs j k cj ck b Hnd Hj Hk Hb Hbk). lia.
Qed.

End Check.

Definition lg_wf (g : ListGraph) : bool :=
  forallb (fun '(a, b, _) => (a <? length (lg_nodes g))%nat && (b <? length (lg_nodes g))%nat)
    (lg_edges g).

Lemma lg_wf_sound g : lg_wf g = true -> graph_wf g.
Proof.
  intros Hg a b w Hab. apply elem_of_lg_out in Hab. unfold lg_wf in Hg.
  rewrite forallb_forall in Hg. apply list_elem_of_In in Hab. specialize (Hg _ Hab). cbn in Hg.
  apply andb_true_iff in Hg as [Ha Hb]. cbn. rewrite !lookup_lt_is_Some.
  split; by apply Nat.ltb_lt.
Qed.

(** ** Witnesses *)

Definition ex_control : ControlFile :=
  {| ctl_comment := "example"; ctl_default_version := "1.0"; ctl_module_pathname := None;
     ctl_relocatable := false; ctl_superuser := false; ctl_schema := None; ctl_trusted := false |}.

(** A root (3), three entities that depend on each other (0, 1, 2), and an
    entity that depends on the root only (4). *)
Definition ex_schema_graph : ListGraph :=
  {| lg_nodes := [Entity_BuiltinType "b"; Entity_BuiltinType "a"; Entity_BuiltinType "c";
                  Entity_ExtensionRoot ex_control; Entity_BuiltinType "d"];
     lg_edges := [(2, 0, By); (0, 1, ByArg); (1, 2, ByReturn); (3, 0, By); (3, 1, By);
                  (3, 2, By); (3, 4, By)]%nat |}.

Definition ex_components (_ : ListGraph) : list (list NodeIndex) := [[0; 1; 2]; [4]; [3]]%nat.

Definition ex_schema_rank (n : NodeIndex) : nat :=
  match n with 3 => 0 | 2 => 1 | _ => 2 end%nat.

Lemma collect_transitive_deps_spec_witness :
  exists V, collect_transitive_deps (E:=unit) ex_schema_graph [1]%nat = Ok V
    /\ forall n, n ∈ V <-> exists t, t ∈ [1]%nat /\ reach ex_schema_graph n t.
Proof. apply (collect_transitive_deps_spec ex_schema_graph [1]%nat). by apply lg_wf_sound. Defined.

Lemma emission_order_topological_witness :
  exists o, emission_order (E:=unit) (H0:=hash_order_rev) ex_components ex_schema_graph = Ok o
    /\ NoDup o /\ (forall n, n ∈ o <-> is_Some (g_weight ex_schema_graph n))
    /\ forall a b w, has_edge ex_schema_graph a b w -> ~ reach ex_schema_graph b a ->
         before o a b.
Proof.
  apply (emission_order_topological (H1:=hash_order_rev) ex_components ex_schema_graph).
  - by apply lg_wf_sound.
  - apply scc_check_sound; [by apply lg_wf_sound | by vm_compute].
Defined.

Lemma emission_order_explicit_witness :
  exists o, emission_order (E:=unit) (H0:=hash_order_rev) ex_components ex_schema_graph = Ok o
    /\ forall a b, has_edge ex_schema_graph a b By -> before o a b.
Proof.
  apply (emission_order_explicit (H1:=hash_order_rev) ex_components ex_schema_graph ex_schema_rank).
  - by apply lg_wf_sound.
  - apply scc_check_sound; [by apply lg_wf_sound | by vm_compute].
  - intros a b Hab. apply elem_of_lg_out, list_elem_of_In in Hab. cbn in Hab.
    repeat destruct Hab as [[= <- <-]|Hab]; cbn; lia || done.
Defined.

Lemma slice_closed_witness :
  exists o, slice_order (E:=unit) (H0:=hash_order_id) ex_components ex_schema_graph [1]%nat = Ok o
    /\ NoDup o
    /\ (forall n, n ∈ o <-> is_root ex_schema_graph n = false
          /\ exists t, t ∈ [1]%nat /\ reach ex_schema_graph n t)
    /\ forall a b w, b ∈ o -> has_edge ex_schema_graph a b w ->
         is_root ex_schema_graph a = false ->
         a ∈ o /\ (~ reach ex_schema_graph b a -> before o a b).
Proof.
  apply (slice_closed (H1:=hash_order_id) ex_components ex_schema_graph [1]%nat).
  - by apply lg_wf_sound.
  - apply scc_check_sound; [by apply lg_wf_sound | by vm_compute].
  - each_elem. by eexists.
Defined.
