(* ===== verification/Lookup.v ===== *)
(** * Maps from entities to nodes, and searches in them

    The helpers of [pgrx-sql-entity-graph/src/pgrx_sql.rs] that the graph's
    construction calls: the [HashMap]s from entities to nodes (association lists
    with distinct keys, iterated through [hash_order]), the searches for the
    target of a [requires], for a type and for a declared type,
    [ensure_unique_type_targets], and the errors. *)
From S2P Require Import Prelude Metadata Entities EntityOrd Producers Graph.
From stdpp Require Import sorting list gmap strings.
#[local] Set Warnings "-clear-no-such-hyp".

(** ** [HashMap<K, NodeIndex>] *)

Abbreviation hmap K := (list (K * NodeIndex)).

(** [insert] keeps the key it finds and replaces the value. *)
Fixpoint hm_insert `{EqDecision K} (k : K) (v : NodeIndex) (m : hmap K) : hmap K :=
  match m with
  | [] => [(k, v)]
  | (k', v') :: m => if decide (k' = k) then (k', v) :: m else (k', v') :: hm_insert k v m
  end.

Fixpoint hm_get `{EqDecision K} (k : K) (m : hmap K) : option NodeIndex :=
  match m with
  | [] => None
  | (k', v) :: m => if decide (k' = k) then Some v else hm_get k m
  end.

(** ** Strings *)

(** [str::ends_with] *)
Definition ends_with (s suffix : string) : bool :=
  (String.length suffix <=? String.length s)%nat
  && bool_decide (substring (String.length s - String.length suffix) (String.length suffix) s = suffix).

(** [path.split("::")] *)
Fixpoint split_path (path : string) : list string :=
  match path with
  | EmptyString => [EmptyString]
  | String ":" (String ":" rest) => EmptyString :: split_path rest
  | String c rest =>
      match split_path rest with
      | segment :: segments => String c segment :: segments
      | [] => []
      end
  end%char.

(** [rest.join("::")] *)
Definition join_path (segments : list string) : string := String.concat "::" segments.

(** ** Sorting, [Vec::sort] under [Ord] *)

Definition kle `{Keyed A} (a b : A) : Prop := cmp a b <> Gt.

#[export] Instance kle_dec `{Keyed A} (a b : A) : Decision (kle a b).
Proof. unfold kle. apply _. Defined.

Definition sort `{Keyed A} (l : list A) : list A := merge_sort kle l.

(** ** Errors of the construction: one constructor per [eyre!], with the values
    its message shows. *)
Inductive build_error :=
| MultipleBootstrap (found other : string)
| MultipleFinalize (found other : string)
| RequiresNotFound (item file : string) (line : Z) (requires : PositioningRef)
| ExternRequiresNotFound (requires : PositioningRef)
| SchemaNotFound (declared_schema_name : string)
| ConnectionNotFound (full_path : string) (paths : list string)
| AmbiguousTypeIdent (type_ident : string) (locations : list string)
| UnresolvedTypeIdent (owner_kind owner_name slot ty_name type_ident : string)
| MissingPlaceholder (type_ident owner_kind owner_name slot : string).

(** ** [SqlGraphIdentifier::rust_identifier] *)

Definition rust_identifier (e : SqlGraphEntity) : string :=
  match e with
  | Entity_Schema item => schema_module_path item
  | Entity_CustomSql item => sql_name item
  | Entity_Function item => fn_full_path item
  | Entity_Type item => type_full_path item
  | Entity_BuiltinType item => item
  | Entity_Enum item => enum_full_path item
  | Entity_Ord item => ord_full_path item
  | Entity_Hash item => hash_full_path item
  | Entity_Aggregate item => agg_full_path item
  | Entity_Trigger item => trg_full_path item
  | Entity_ExtensionRoot item => "root"
  end.

Definition resolve_function_path (module_path path : string) : string :=
  if has_path_separator path then path else module_path +:+ "::" +:+ path.

Definition aggregate_slot (name : option string) (kind : string) : string :=
  match name with
  | Some name => kind +:+ " `" +:+ name +:+ "`"
  | None => kind
  end.

Section Lookup.
Context `{HashOrder}.

(** [map.iter().find(|(k, _)| test(k)).map(|(_, index)| index)] *)
Definition hm_find {K} (test : K -> bool) (m : hmap K) : option NodeIndex :=
  find_map (fun '(k, index) => if test k then Some index else None) (hash_order m).

Definition find_positioning_ref_target (positioning_ref : PositioningRef)
    (types : hmap PostgresTypeEntity) (enums : hmap PostgresEnumEntity)
    (externs : hmap PgExternEntity) (schemas : hmap SchemaEntity)
    (extension_sqls : hmap ExtensionSqlEntity) (triggers : hmap PgTriggerEntity)
    : option NodeIndex :=
  match positioning_ref with
  | FullPath path =>
      let segments := split_path path in
      let last_segment := List.last segments "" in
      let module_path := join_path (removelast segments) in
      let in_module (name other_module : string) :=
        bool_decide (last_segment = name) && ends_with other_module module_path in
      match hm_find (fun other => in_module (type_name other) (type_module_path other)) types with
      | Some index => Some index
      | None =>
      match hm_find (fun other => in_module (enum_name other) (enum_module_path other)) enums with
      | Some index => Some index
      | None =>
      match hm_find (fun other => in_module (fn_unaliased_name other) (fn_module_path other)) externs with
      | Some index => Some index
      | None =>
      match hm_find (fun other => ends_with (schema_module_path other) path) schemas with
      | Some index => Some index
      | None => hm_find (fun other => in_module (trg_function_name other) (trg_module_path other)) triggers
      end end end end
  | Name name => hm_find (fun other => bool_decide (sql_name other = name)) extension_sqls
  end.

Definition find_type_or_enum (type_ident : string)
    (types : hmap PostgresTypeEntity) (enums : hmap PostgresEnumEntity) : option NodeIndex :=
  match hm_find (fun ty => bool_decide (type_type_ident ty = type_ident)) types with
  | Some index => Some index
  | None => hm_find (fun ty => bool_decide (enum_type_ident ty = type_ident)) enums
  end.

Definition find_declared_type_or_enum (extension_sqls : hmap ExtensionSqlEntity)
    (type_ident : string) : option NodeIndex :=
  hm_find (fun item =>
    existsb (fun declared => declared_matches_type_ident declared type_ident) (sql_creates item))
    extension_sqls.

Definition find_graph_type_target (type_ident : string)
    (types : hmap PostgresTypeEntity) (enums : hmap PostgresEnumEntity)
    (extension_sqls : hmap ExtensionSqlEntity) : option NodeIndex :=
  match find_type_or_enum type_ident types enums with
  | Some index => Some index
  | None => find_declared_type_or_enum extension_sqls type_ident
  end.

(** ** [ensure_unique_type_targets] *)

(** [Display for SqlDeclaredEntity] *)
Definition declared_display (declared : SqlDeclaredEntity) : string :=
  match declared with
  | Declared_Type data => "Type(" +:+ dt_name data +:+ ")"
  | Declared_Enum data => "Enum(" +:+ dt_name data +:+ ")"
  | Declared_Function data => "Function(" +:+ df_name data +:+ ")"
  end.

(** What the three loops push, in order: a type ident and where it is defined. *)
Definition sql_type_targets (item : ExtensionSqlEntity) : list (string * string) :=
  omap (fun declared =>
    match declared_type_ident declared with
    | Some type_ident =>
        Some (type_ident, "extension_sql `" +:+ sql_name item +:+ "` (" +:+ declared_display declared +:+ ")")
    | None => None
    end) (sql_creates item).

Definition type_targets (types : hmap PostgresTypeEntity) (enums : hmap PostgresEnumEntity)
    (extension_sqls : hmap ExtensionSqlEntity) : list (string * string) :=
  map (fun '(item, _) => (type_type_ident item, "type `" +:+ type_full_path item +:+ "`"))
    (hash_order types)
  ++ map (fun '(item, _) => (enum_type_ident item, "enum `" +:+ enum_full_path item +:+ "`"))
    (hash_order enums)
  ++ concat (map (fun '(item, _) => sql_type_targets item) (hash_order extension_sqls)).

(** [seen.entry(type_ident).or_default().push(location)] *)
Definition seen_push (seen : gmap string (list string)) (target : string * string)
    : gmap string (list string) :=
  let '(type_ident, location) := target in
  <[type_ident := default [] (seen !! type_ident) ++ [location]]> seen.

(** A [BTreeMap] is iterated in the order of its keys. *)
Definition by_key (a b : string * list string) : Prop := kle a.1 b.1.

#[global] Instance by_key_dec a b : Decision (by_key a b).
Proof. unfold by_key. apply _. Defined.

Definition btree_iter (seen : gmap string (list string)) : list (string * list string) :=
  merge_sort by_key (map_to_list seen).

Definition ensure_unique_type_targets (types : hmap PostgresTypeEntity)
    (enums : hmap PostgresEnumEntity) (extension_sqls : hmap ExtensionSqlEntity)
    : outcome build_error unit :=
  let seen := foldl seen_push ∅ (type_targets types enums extension_sqls) in
  let seen := sort <$> seen in
  match find_map (fun '(type_ident, locations) =>
      if (1 <? length locations)%nat then Some (type_ident, locations) else None)
      (btree_iter seen) with
  | Some (type_ident, locations) => Err (AmbiguousTypeIdent type_ident locations)
  | None => Ok tt
  end.

End Lookup.

(** ** Lemmas on maps and searches *)

Lemma elem_of_hm_insert `{EqDecision K} (k : K) v m k' v' :
  (k', v') ∈ hm_insert k v m -> (k' = k /\ v' = v) \/ (k', v') ∈ m.
Proof.
  induction m as [|[a b] m IH]; cbn.
  - intros [= -> ->]%list_elem_of_singleton. auto.
  - case_decide as Ha.
    + subst a. intros Hin. apply elem_of_cons in Hin as [[= -> ->]|Hin]; [auto|].
      right. by apply list_elem_of_further.
    + intros Hin. apply elem_of_cons in Hin as [[= -> ->]|Hin].
      * right. apply list_elem_of_here.
      * destruct (IH Hin) as [?|?]; [auto|]. right. by apply list_elem_of_further.
Qed.

Lemma hm_insert_here `{EqDecision K} (k : K) v m : (k, v) ∈ hm_insert k v m.
Proof.
  induction m as [|[a b] m IH]; cbn; [by apply list_elem_of_singleton|]. case_decide.
  - subst. apply list_elem_of_here.
  - by apply list_elem_of_further.
Qed.

Lemma hm_insert_keys `{EqDecision K} (k : K) v m k' :
  k' ∈ map fst (hm_insert k v m) <-> k' = k \/ k' ∈ map fst m.
Proof.
  induction m as [|[a b] m IH]; cbn; [by rewrite list_elem_of_singleton, elem_of_nil; tauto|].
  case_decide as Ha; cbn; rewrite !elem_of_cons; [subst a | rewrite IH]; tauto.
Qed.

Lemma hm_insert_nodup `{EqDecision K} (k : K) v m :
  NoDup (map fst m) -> NoDup (map fst (hm_insert k v m)).
Proof.
  induction m as [|[a b] m IH]; cbn; intros Hnd; [apply NoDup_singleton|].
  apply NoDup_cons in Hnd as [Ha Hnd]. case_decide as Hak; cbn; apply NoDup_cons.
  - done.
  - split; [|by apply IH]. rewrite hm_insert_keys. naive_solver.
Qed.

Lemma find_map_Some {A B} (f : A -> option B) l b :
  find_map f l = Some b -> exists a, a ∈ l /\ f a = Some b.
Proof.
  induction l as [|a l IH]; cbn; [done|]. destruct (f a) as [b'|] eqn:Ea.
  - intros [= ->]. exists a. split; [apply list_elem_of_here | done].
  - intros Hf. destruct (IH Hf) as (x & Hx & Hfx). exists x.
    split; [by apply list_elem_of_further | done].
Qed.

Lemma find_map_None {A B} (f : A -> option B) l :
  find_map f l = None <-> forall a, a ∈ l -> f a = None.
Proof.
  induction l as [|a l IH]; cbn.
  - split; [|done]. intros _ a Ha. by apply elem_of_nil in Ha.
  - setoid_rewrite elem_of_cons. destruct (f a) as [b|] eqn:Ea.
    + split; [done|]. intros Hall. rewrite <- Ea. apply Hall. auto.
    + rewrite IH. naive_solver.
Qed.

Lemma elem_of_hash_order `{HashOrder} {A} (l : list A) x : x ∈ hash_order l <-> x ∈ l.
Proof. by rewrite hash_order_perm. Qed.

Lemma hm_find_Some `{HashOrder} {K} (test : K -> bool) (m : hmap K) i :
  hm_find test m = Some i -> exists k, (k, i) ∈ m /\ test k = true.
Proof.
  intros Hf. apply find_map_Some in Hf as ([k j] & Hin & Hk). rewrite elem_of_hash_order in Hin.
  cbn in Hk. destruct (test k) eqn:Ht; simplify_eq. by exists k.
Qed.

Lemma hm_find_None `{HashOrder} {K} (test : K -> bool) (m : hmap K) :
  hm_find test m = None <-> forall k i, (k, i) ∈ m -> test k = false.
Proof.
  unfold hm_find. rewrite find_map_None. split.
  - intros Hall k i Hin. specialize (Hall (k, i)). rewrite elem_of_hash_order in Hall.
    specialize (Hall Hin). cbn in Hall. by destruct (test k).
  - intros Hall [k i] Hin. rewrite elem_of_hash_order in Hin. by rewrite (Hall k i Hin).
Qed.

Lemma join_cons c s segments :
  join_path (String c s :: segments) = String c (join_path (s :: segments)).
Proof. destruct segments; done. Qed.

Lemma split_path_step c rest :
  (c = ":"%char -> forall rest', rest <> String ":"%char rest') ->
  split_path (String c rest)
  = match split_path rest with s :: segments => String c s :: segments | [] => [] end.
Proof.
  intros Hc. destruct c as [[] [] [] [] [] [] [] []]; try done.
  destruct rest as [|d rest]; [done|].
  destruct d as [[] [] [] [] [] [] [] []]; try done.
  by destruct (Hc eq_refl rest).
Qed.

Lemma path_head_dec c rest :
  (exists rest', c = ":"%char /\ rest = String ":"%char rest')
  \/ (c = ":"%char -> forall rest', rest <> String ":"%char rest').
Proof.
  destruct (decide (c = ":"%char)) as [->|Hc]; [|by right].
  destruct rest as [|d rest]; [by right|].
  destruct (decide (d = ":"%char)) as [->|Hd]; [left; eauto|].
  right. intros _ rest' [= -> ->]. done.
Qed.

Lemma split_path_nonempty path : split_path path <> [].
Proof.
  remember (String.length path) as n eqn:Hn. assert (String.length path <= n)%nat as Hle by lia.
  clear Hn. revert path Hle.
  induction n as [|n IH]; intros [|c rest] Hle; cbn in Hle; try done; [lia|].
  destruct (path_head_dec c rest) as [(rest' & -> & ->)|Hc]; [done|].
  rewrite split_path_step by done. pose proof (IH rest ltac:(lia)). by destruct (split_path rest).
Qed.

Lemma join_split path : join_path (split_path path) = path.
Proof.
  remember (String.length path) as n eqn:Hn. assert (String.length path <= n)%nat as Hle by lia.
  clear Hn. revert path Hle.
  induction n as [|n IH]; intros [|c rest] Hle; cbn in Hle; try done; [lia|].
  destruct (path_head_dec c rest) as [(rest' & -> & ->)|Hc].
  - cbn in Hle. cbn [split_path]. pose proof (split_path_nonempty rest') as Hne.
    pose proof (IH rest' ltac:(lia)) as Hj. destruct (split_path rest') as [|s ss]; [done|].
    change (join_path ("" :: s :: ss)) with ("" +:+ "::" +:+ join_path (s :: ss)). by rewrite Hj.
  - rewrite split_path_step by done. pose proof (split_path_nonempty rest) as Hne.
    pose proof (IH rest ltac:(lia)) as Hj. destruct (split_path rest) as [|s ss]; [done|].
    by rewrite join_cons, Hj.
Qed.

Lemma find_map_first {A B} (f : A -> option B) l b :
  find_map f l = Some b ->
  exists l1 a l2, l = l1 ++ a :: l2 /\ f a = Some b /\ forall x, x ∈ l1 -> f x = None.
Proof.
  induction l as [|a l IH]; cbn; [done|]. destruct (f a) as [b'|] eqn:Ea.
  - intros [= ->]. exists [], a, l. split; [done|]. split; [done|].
    intros x Hx. by apply elem_of_nil in Hx.
  - intros Hf. destruct (IH Hf) as (l1 & x & l2 & -> & Hx & Hl1).
    exists (a :: l1), x, l2. split; [done|]. split; [done|].
    intros y Hy. apply elem_of_cons in Hy as [->|Hy]; auto.
Qed.

(** ** Sorting *)

Section Sort.
Context `{Keyed A}.

#[global] Instance kle_trans : Transitive (kle (A:=A)).
Proof.
  intros a b c. unfold kle, cmp. intros Hab Hbc.
  destruct (kcmp (key a) (key b)) eqn:Eab; [|clear Hab|done].
  - apply kcmp_eq in Eab. by rewrite Eab.
  - destruct (kcmp (key b) (key c)) eqn:Ebc; [| |done].
    + apply kcmp_eq in Ebc. rewrite <- Ebc, Eab. done.
    + by rewrite (kcmp_trans _ _ _ Eab Ebc).
Qed.

#[global] Instance kle_total : Total (kle (A:=A)).
Proof.
  intros a b. unfold kle, cmp. rewrite (kcmp_opp (key a) (key b)).
  destruct (kcmp (key a) (key b)); cbn; auto; by left.
Qed.

#[global] Instance kle_antisymm : AntiSymm (=) (kle (A:=A)).
Proof.
  intros a b. unfold kle, cmp. rewrite (kcmp_opp (key a) (key b)).
  destruct (kcmp (key a) (key b)) eqn:Eab; cbn; intros H1 H2; [|done|done].
  by apply kcmp_eq, key_inj in Eab.
Qed.

Lemma sort_perm (l : list A) : sort l ≡ₚ l.
Proof. apply merge_sort_Permutation. Qed.

(** Sorting forgets the order its input came in. *)
#[global] Instance sort_proper : Proper ((≡ₚ) ==> (=)) (sort (A:=A)).
Proof.
  intros l l' Hl. apply (Sorted_unique kle).
  - apply Sorted_merge_sort, _.
  - apply Sorted_merge_sort, _.
  - by rewrite !sort_perm.
Qed.

End Sort.

#[global] Instance by_key_trans : Transitive by_key.
Proof. intros a b c. unfold by_key. apply kle_trans. Qed.

#[global] Instance by_key_total : Total by_key.
Proof. intros a b. apply kle_total. Qed.

(** ** Uniqueness of the type targets *)

(** The locations listed for a type ident. *)
Definition locations_of (type_ident : string) (targets : list (string * string)) : list string :=
  omap (fun '(t, location) => if decide (t = type_ident) then Some location else None) targets.

Lemma locations_app t l l' : locations_of t (l ++ l') = locations_of t l ++ locations_of t l'.
Proof. apply omap_app. Qed.

Lemma locations_cons t i lo l :
  locations_of t ((i, lo) :: l)
  = if decide (i = t) then lo :: locations_of t l else locations_of t l.
Proof. unfold locations_of. cbn. by case_decide. Qed.

Lemma locations_nil t l : locations_of t l = [] <-> t ∉ map fst l.
Proof.
  induction l as [|[i lo] l IH]; cbn.
  - split; [intros _; apply not_elem_of_nil | done].
  - rewrite not_elem_of_cons, <- IH. case_decide; naive_solver.
Qed.

Lemma seen_lookup l t :
  foldl seen_push ∅ l !! t
  = match locations_of t l with [] => None | ls => Some ls end.
Proof.
  induction l as [|[i lo] l IH] using rev_ind; [done|].
  rewrite foldl_app, locations_app. cbn. case_decide as Hi.
  - subst i. rewrite lookup_insert_eq, IH.
    destruct (locations_of t l); done.
  - rewrite lookup_insert_ne, IH by done. by rewrite app_nil_r.
Qed.

Lemma locations_unique l :
  NoDup (map fst l) <-> forall t, (length (locations_of t l) <= 1)%nat.
Proof.
  induction l as [|[i lo] l IH]; [split; [cbn; lia | constructor]|].
  cbn [map fst]. rewrite NoDup_cons, IH, <- locations_nil. setoid_rewrite locations_cons. split.
  - intros [Hi Hl] t. case_decide as Ht; [|apply Hl]. rewrite <- Ht, Hi. done.
  - intros Hall. split.
    + specialize (Hall i). rewrite decide_True in Hall by done. cbn in Hall.
      destruct (locations_of i l); [done | cbn in Hall; lia].
    + intros t. specialize (Hall t). case_decide; cbn in Hall; lia.
Qed.

Lemma locations_perm t l l' : l ≡ₚ l' -> locations_of t l ≡ₚ locations_of t l'.
Proof. intros Hl. unfold locations_of. by rewrite Hl. Qed.

(** The map [seen], its vectors sorted. *)
Definition sorted_seen (targets : list (string * string)) : gmap string (list string) :=
  sort <$> foldl seen_push ∅ targets.

Lemma sorted_seen_lookup l t ls :
  sorted_seen l !! t = Some ls <-> ls = sort (locations_of t l) /\ locations_of t l <> [].
Proof.
  unfold sorted_seen. rewrite lookup_fmap, seen_lookup.
  destruct (locations_of t l) as [|x xs] eqn:El; cbn; [naive_solver|]. split.
  - by intros [= <-].
  - by intros [-> _].
Qed.

Lemma elem_of_btree_iter l t ls :
  (t, ls) ∈ btree_iter (sorted_seen l) <-> ls = sort (locations_of t l) /\ locations_of t l <> [].
Proof.
  unfold btree_iter. rewrite merge_sort_Permutation, elem_of_map_to_list.
  apply sorted_seen_lookup.
Qed.

Lemma sorted_seen_perm l l' : l ≡ₚ l' -> sorted_seen l = sorted_seen l'.
Proof.
  intros Hl. apply map_eq. intros t. apply option_eq. intros ls.
  rewrite !sorted_seen_lookup. pose proof (locations_perm t l l' Hl) as Hp.
  rewrite (sort_proper _ _ Hp).
  assert (Hnil : locations_of t l = [] <-> locations_of t l' = []).
  { rewrite !locations_nil. by rewrite Hl. }
  by rewrite Hnil.
Qed.

Lemma type_targets_perm (O O' : HashOrder) types enums sqls :
  @type_targets O types enums sqls ≡ₚ @type_targets O' types enums sqls.
Proof.
  unfold type_targets. repeat apply Permutation_app.
  - by rewrite (@hash_order_perm O), (@hash_order_perm O').
  - by rewrite (@hash_order_perm O), (@hash_order_perm O').
  - rewrite <- !flat_map_concat_map.
    by rewrite (@hash_order_perm O), (@hash_order_perm O').
Qed.

Lemma hm_find_unique (O O' : HashOrder) {K} (test : K -> bool) (m : hmap K) :
  (forall k i k' i', (k, i) ∈ m -> (k', i') ∈ m -> test k = true -> test k' = true -> i = i') ->
  @hm_find O K test m = @hm_find O' K test m.
Proof.
  intros Huniq. destruct (@hm_find O K test m) as [i|] eqn:Ei, (@hm_find O' K test m) as [i'|] eqn:Ei'.
  - apply hm_find_Some in Ei as (k & Hk & Ht), Ei' as (k' & Hk' & Ht'). f_equal. eauto.
  - exfalso. apply hm_find_Some in Ei as (k & Hk & Ht).
    rewrite hm_find_None in Ei'. by rewrite (Ei' k i Hk) in Ht.
  - exfalso. apply hm_find_Some in Ei' as (k & Hk & Ht).
    rewrite hm_find_None in Ei. by rewrite (Ei k i' Hk) in Ht.
  - done.
Qed.

(** Equal images at distinct places break [NoDup]. *)
Lemma NoDup_map_inj {A B} (f : A -> B) (l : list A) x y :
  NoDup (map f l) -> x ∈ l -> y ∈ l -> f x = f y -> x = y.
Proof.
  intros Hnd Hx Hy Hf. apply list_elem_of_lookup in Hx as [i Hi], Hy as [j Hj].
  assert (i = j) as ->; [|congruence].
  eapply (NoDup_lookup (map f l)); [done| |]; rewrite list_lookup_fmap.
  - by rewrite Hi.
  - rewrite Hj. cbn. by rewrite Hf.
Qed.

Lemma NoDup_concat_map {A B} (f : A -> list B) (l : list A) x y t :
  NoDup (concat (map f l)) -> x ∈ l -> y ∈ l -> t ∈ f x -> t ∈ f y -> x = y.
Proof.
  induction l as [|a l IH]; cbn; intros Hnd Hx Hy Htx Hty; [by apply elem_of_nil in Hx|].
  apply NoDup_app in Hnd as (_ & Hdis & Hnd).
  assert (Hin : forall z, z ∈ l -> t ∈ f z -> t ∈ concat (map f l)).
  { intros z Hz Htz. rewrite list_elem_of_In, in_concat. exists (f z).
    rewrite <- !list_elem_of_In. split; [|done]. by apply list_elem_of_fmap_2. }
  apply elem_of_cons in Hx as [->|Hx], Hy as [->|Hy]; [done | | |by apply IH]; exfalso;
    eapply Hdis; eauto.
Qed.

Lemma map_concat_map {A B C} (g : B -> C) (f : A -> list B) (l : list A) :
  map g (concat (map f l)) = concat (map (fun a => map g (f a)) l).
Proof. by rewrite concat_map, map_map. Qed.

Lemma sql_declares item t :
  existsb (fun d => declared_matches_type_ident d t) (sql_creates item) = true ->
  t ∈ map fst (sql_type_targets item).
Proof.
  rewrite existsb_exists. intros (d & Hd & Hm). unfold sql_type_targets.
  apply list_elem_of_In in Hd. unfold declared_matches_type_ident in Hm.
  destruct (declared_type_ident d) as [t'|] eqn:Et; [|done].
  apply bool_decide_eq_true in Hm as ->.
  apply (list_elem_of_fmap_2' fst _ (t, "extension_sql `" +:+ sql_name item +:+ "` (" +:+ declared_display d +:+ ")"));
    [|done].
  apply list_elem_of_omap. exists d. split; [done|]. by rewrite Et.
Qed.

Lemma ensure_unique_spec `{HashOrder} (types : hmap PostgresTypeEntity)
    (enums : hmap PostgresEnumEntity) (extension_sqls : hmap ExtensionSqlEntity) :
  let targets := type_targets types enums extension_sqls in
  match ensure_unique_type_targets types enums extension_sqls with
  | Ok _ => NoDup (map fst targets)
  | Err e => exists t, e = AmbiguousTypeIdent t (sort (locations_of t targets))
      /\ (1 < length (locations_of t targets))%nat
      /\ forall t', (1 < length (locations_of t' targets))%nat -> cmp t t' <> Gt
  | Panic => False
  end.
Proof.
  cbn zeta. unfold ensure_unique_type_targets.
  set (targets := type_targets _ _ _). fold (sorted_seen targets).
  destruct (find_map _ _) as [[t ls]|] eqn:Ef.
  - apply find_map_first in Ef as (l1 & [t0 ls0] & l2 & Heq & Hf & Hl1).
    destruct (1 <? length ls0)%nat eqn:Hlen; simplify_eq. apply Nat.ltb_lt in Hlen.
    assert (Hin : (t, ls) ∈ btree_iter (sorted_seen targets)).
    { rewrite Heq. apply elem_of_app. right. apply list_elem_of_here. }
    apply elem_of_btree_iter in Hin as [-> Hne]. rewrite sort_perm in Hlen.
    exists t. split; [done|]. split; [done|]. intros t' Hlt'.
    assert (Hin' : (t', sort (locations_of t' targets)) ∈ btree_iter (sorted_seen targets)).
    { apply elem_of_btree_iter. split; [done|]. intros Hn. rewrite Hn in Hlt'. cbn in Hlt'. lia. }
    rewrite Heq in Hin'. apply elem_of_app in Hin' as [Hin'|Hin'].
    + specialize (Hl1 _ Hin'). rewrite <- (sort_perm (locations_of t' targets)) in Hlt'.
      cbv beta iota in Hl1. by rewrite (proj2 (Nat.ltb_lt _ _) Hlt') in Hl1.
    + assert (Hs : StronglySorted by_key (btree_iter (sorted_seen targets))).
      { apply StronglySorted_merge_sort; apply _. }
      rewrite Heq in Hs. apply StronglySorted_app in Hs as (_ & _ & Hs).
      apply StronglySorted_inv in Hs as [_ Hs]. rewrite Forall_forall in Hs.
      apply elem_of_cons in Hin' as [[= ->]|Hin'].
      * unfold cmp. by rewrite (proj2 (kcmp_eq (key t) (key t)) eq_refl).
      * by specialize (Hs _ Hin').
  - rewrite find_map_None in Ef. apply locations_unique. intros t.
    destruct (locations_of t targets) as [|lo los] eqn:El; [cbn; lia|].
    assert (Hin : (t, sort (locations_of t targets)) ∈ btree_iter (sorted_seen targets)).
    { apply elem_of_btree_iter. by rewrite El. }
    specialize (Ef _ Hin). cbv beta iota in Ef. rewrite El, sort_perm in Ef.
    destruct (1 <? length (lo :: los))%nat eqn:Hlen; [done|]. by apply Nat.ltb_ge in Hlen.
Qed.

(** ** Properties *)

(** [ensure_unique_type_targets] accepts exactly when no type ident names two
    SQL entities; otherwise it reports the least ident that does, with all the
    places that define it, in order. *)
Theorem unique_type_targets `{HashOrder} (types : hmap PostgresTypeEntity)
    (enums : hmap PostgresEnumEntity) (extension_sqls : hmap ExtensionSqlEntity) :
  let targets := type_targets types enums extension_sqls in
  match ensure_unique_type_targets types enums extension_sqls with
  | Ok _ => NoDup (map fst targets)
  | Err e => exists t, e = AmbiguousTypeIdent t (sort (locations_of t targets))
      /\ (1 < length (locations_of t targets))%nat
      /\ forall t', (1 < length (locations_of t' targets))%nat -> cmp t t' <> Gt
  | Panic => False
  end.
Proof. apply ensure_unique_spec. Qed.

(** The verdict of [ensure_unique_type_targets], the reported ident and the
    listed locations included, does not depend on the iteration order of the
    hash maps. *)
Theorem unique_type_targets_deterministic (O O' : HashOrder) (types : hmap PostgresTypeEntity)
    (enums : hmap PostgresEnumEntity) (extension_sqls : hmap ExtensionSqlEntity) :
  @ensure_unique_type_targets O types enums extension_sqls
  = @ensure_unique_type_targets O' types enums extension_sqls.
Proof.
  unfold ensure_unique_type_targets. fold (sorted_seen (@type_targets O types enums extension_sqls)).
  by rewrite (sorted_seen_perm _ _ (type_targets_perm O O' types enums extension_sqls)).
Qed.

(** Once [ensure_unique_type_targets] has accepted, resolving a type ident
    gives the same node whatever the iteration order of the hash maps. *)
Theorem type_target_deterministic (O O' : HashOrder) (type_ident : string)
    (types : hmap PostgresTypeEntity) (enums : hmap PostgresEnumEntity)
    (extension_sqls : hmap ExtensionSqlEntity) :
  NoDup (map fst (@type_targets O types enums extension_sqls)) ->
  @find_graph_type_target O type_ident types enums extension_sqls
  = @find_graph_type_target O' type_ident types enums extension_sqls.
Proof.
  unfold type_targets. rewrite !map_app, !NoDup_app, map_concat_map, !map_map.
  intros (Ht & _ & He & _ & Hs).
  unfold find_graph_type_target, find_type_or_enum, find_declared_type_or_enum.
  rewrite (hm_find_unique O O' _ types), (hm_find_unique O O' _ enums),
    (hm_find_unique O O' _ extension_sqls); [done|..];
    intros k i k' i' Hk Hk'; rewrite <- (@elem_of_hash_order O) in Hk, Hk'.
  - intros H1%sql_declares H2%sql_declares.
    pose proof (NoDup_concat_map _ _ _ _ type_ident Hs Hk Hk' H1 H2). by simplify_eq.
  - rewrite !bool_decide_eq_true. intros H1 H2.
    pose proof (NoDup_map_inj _ _ _ _ He Hk Hk' ltac:(cbn; congruence)). by simplify_eq.
  - rewrite !bool_decide_eq_true. intros H1 H2.
    pose proof (NoDup_map_inj _ _ _ _ Ht Hk Hk' ltac:(cbn; congruence)). by simplify_eq.
Qed.

(** ** Witness *)

Definition ex_config_off : ToSqlConfigEntity := {| cfg_enabled := true; cfg_content := None |}.

Definition ex_type : PostgresTypeEntity :=
  {| type_name := "Dog"; type_file := "lib.rs"; type_line := 3; type_full_path := "animals::Dog";
     type_module_path := "animals"; type_type_ident := "animals::Dog"; type_in_fn_path := "dog_in";
     type_out_fn_path := "dog_out"; type_receive_fn_path := None; type_send_fn_path := None;
     type_to_sql_config := ex_config_off; type_alignment := None |}.

Definition ex_enum : PostgresEnumEntity :=
  {| enum_name := "Breed"; enum_file := "lib.rs"; enum_line := 9; enum_full_path := "animals::Breed";
     enum_module_path := "animals"; enum_type_ident := "animals::Breed"; enum_variants := ["Corgi"];
     enum_to_sql_config := ex_config_off |}.

Lemma type_target_deterministic_witness :
  @find_graph_type_target hash_order_id "animals::Breed" [(ex_type, 1%nat)] [(ex_enum, 2%nat)] []
  = @find_graph_type_target hash_order_rev "animals::Breed" [(ex_type, 1%nat)] [(ex_enum, 2%nat)] [].
Proof.
  apply (type_target_deterministic hash_order_id hash_order_rev "animals::Breed"
    [(ex_type, 1%nat)] [(ex_enum, 2%nat)] []).
  by apply (bool_decide_unpack _); vm_compute.
Defined.
