(* ===== verification/Build.v ===== *)
(** * The construction of the entity graph

    [PgrxSql::build] of [pgrx-sql-entity-graph/src/pgrx_sql.rs] and the
    [initialize_*] and [connect_*] functions it calls.  The graph is threaded
    through; a [&mut] map is threaded too.  [add_edge] on a node that does not
    exist and a failed [expect] are [Panic].  [str::to_lowercase] (the Unicode
    tables) is an argument. *)
From S2P Require Import Prelude Metadata Entities EntityOrd Producers Graph Lookup.
From stdpp Require Import list gmap strings.
#[local] Set Warnings "-clear-no-such-hyp".

(** [struct PgrxSql] *)
Record PgrxSql (G : Type) := {
  px_control : ControlFile;
  px_graph : G;
  px_graph_root : NodeIndex;
  px_graph_bootstrap : option NodeIndex;
  px_graph_finalize : option NodeIndex;
  px_schemas : hmap SchemaEntity;
  px_extension_sqls : hmap ExtensionSqlEntity;
  px_externs : hmap PgExternEntity;
  px_types : hmap PostgresTypeEntity;
  px_builtin_types : hmap string;
  px_enums : hmap PostgresEnumEntity;
  px_ords : hmap PostgresOrdEntity;
  px_hashes : hmap PostgresHashEntity;
  px_aggregates : hmap PgAggregateEntity;
  px_triggers : hmap PgTriggerEntity;
  px_extension_name : string;
  px_versioned_so : bool;
  px_qualify_default_schema : bool;
}.
Arguments px_control {G}. Arguments px_graph {G}. Arguments px_graph_root {G}.
Arguments px_graph_bootstrap {G}. Arguments px_graph_finalize {G}. Arguments px_schemas {G}.
Arguments px_extension_sqls {G}. Arguments px_externs {G}. Arguments px_types {G}.
Arguments px_builtin_types {G}. Arguments px_enums {G}. Arguments px_ords {G}.
Arguments px_hashes {G}. Arguments px_aggregates {G}. Arguments px_triggers {G}.
Arguments px_extension_name {G}. Arguments px_versioned_so {G}.
Arguments px_qualify_default_schema {G}.

Section Build.
Context {G : Type} `{StableGraph G} `{HashOrder}.
Variable (to_lowercase : string -> string).

Abbreviation build_result := (outcome build_error).

Definition add_edge (g : G) (a b : NodeIndex) (w : SqlGraphRequires) : build_result G :=
  unwrap (g_add_edge a b w g).

(** [if let Some(source) = source { graph.add_edge(source, index, By); }] *)
Definition add_edge_from (g : G) (source : option NodeIndex) (index : NodeIndex) : build_result G :=
  match source with Some source => add_edge g source index By | None => Ok g end.

Definition add_edge_to (g : G) (index : NodeIndex) (target : option NodeIndex) : build_result G :=
  match target with Some target => add_edge g index target By | None => Ok g end.

Definition build_base_edges (g : G) (index root : NodeIndex) (bootstrap finalize : option NodeIndex)
    : build_result G :=
  g ← add_edge g root index By;
  g ← add_edge_from g bootstrap index;
  add_edge_to g index finalize.

(** ** Connections *)

Definition make_schema_connection (g : G) (index : NodeIndex) (module_path : string)
    (schemas : hmap SchemaEntity) : build_result G :=
  add_edge_from g (hm_find (fun s => bool_decide (module_path = schema_module_path s)) schemas) index.

Definition make_extern_connection (g : G) (index : NodeIndex) (full_path : string)
    (externs : hmap PgExternEntity) : build_result G :=
  match hm_find (fun e => bool_decide (full_path = fn_full_path e)) externs with
  | Some extern_index => add_edge g extern_index index By
  | None => Err (ConnectionNotFound full_path (sort (map (fun '(e, _) => fn_full_path e) (hash_order externs))))
  end.

Definition make_type_or_enum_connection (g : G) (index : NodeIndex) (type_ident : string)
    (types : hmap PostgresTypeEntity) (enums : hmap PostgresEnumEntity) : build_result G :=
  add_edge_from g (find_type_or_enum type_ident types enums) index.

(** The optional function of a type or an aggregate. *)
Definition make_extern_connection_opt (g : G) (index : NodeIndex) (path : option string)
    (full_path : string -> string) (externs : hmap PgExternEntity) : build_result G :=
  match path with
  | Some path => make_extern_connection g index (full_path path) externs
  | None => Ok g
  end.

(** ** Type resolution *)

Definition initialize_resolved_type (st : G * hmap string) (type_ident : string)
    (type_origin : TypeOrigin) (types : hmap PostgresTypeEntity) (enums : hmap PostgresEnumEntity)
    (extension_sqls : hmap ExtensionSqlEntity) (owner_kind owner_name slot ty_name : string)
    : build_result (G * hmap string) :=
  let '(g, builtin_types) := st in
  match type_origin with
  | External =>
      match hm_get type_ident builtin_types with
      | Some _ => Ok (g, builtin_types)
      | None =>
          let '(index, g) := g_add_node (Entity_BuiltinType type_ident) g in
          Ok (g, hm_insert type_ident index builtin_types)
      end
  | ThisExtension =>
      match find_graph_type_target type_ident types enums extension_sqls with
      | Some _ => Ok (g, builtin_types)
      | None => Err (UnresolvedTypeIdent owner_kind owner_name slot ty_name type_ident)
      end
  end.

Definition connect_resolved_type (g : G) (index : NodeIndex) (requires : SqlGraphRequires)
    (type_ident : string) (type_origin : TypeOrigin) (types : hmap PostgresTypeEntity)
    (enums : hmap PostgresEnumEntity) (builtin_types : hmap string)
    (extension_sqls : hmap ExtensionSqlEntity) (owner_kind owner_name slot ty_name : string)
    : build_result G :=
  match type_origin with
  | External =>
      match hm_get type_ident builtin_types with
      | Some builtin_index => add_edge g builtin_index index requires
      | None => Err (MissingPlaceholder type_ident owner_kind owner_name slot)
      end
  | ThisExtension =>
      match find_graph_type_target type_ident types enums extension_sqls with
      | Some ty_index => add_edge g ty_index index requires
      | None => Err (UnresolvedTypeIdent owner_kind owner_name slot ty_name type_ident)
      end
  end.

(** A type a function or an aggregate mentions: the edge it calls for, the slot
    that names it in errors, and the type itself. *)
Record type_use := {
  use_requires : SqlGraphRequires;
  use_slot : string;
  use_ty : UsedTypeEntity;
}.

(** The body of the loops over them, with the [.resolution().expect(..)] of the
    arguments; the [if let Some(..) = ty.resolution()] of the other slots is in
    [use_if_resolved]. *)
Definition initialize_use (types : hmap PostgresTypeEntity) (enums : hmap PostgresEnumEntity)
    (extension_sqls : hmap ExtensionSqlEntity) (owner_kind owner_name : string)
    (st : G * hmap string) (u : type_use) : build_result (G * hmap string) :=
  '(type_ident, type_origin) ← unwrap (ut_resolution (use_ty u));
  initialize_resolved_type st type_ident type_origin types enums extension_sqls
    owner_kind owner_name (use_slot u) (ut_full_path (use_ty u)).

Definition connect_use (index : NodeIndex) (types : hmap PostgresTypeEntity)
    (enums : hmap PostgresEnumEntity) (builtin_types : hmap string)
    (extension_sqls : hmap ExtensionSqlEntity) (owner_kind owner_name : string)
    (g : G) (u : type_use) : build_result G :=
  '(type_ident, type_origin) ← unwrap (ut_resolution (use_ty u));
  connect_resolved_type g index (use_requires u) type_ident type_origin types enums
    builtin_types extension_sqls owner_kind owner_name (use_slot u) (ut_full_path (use_ty u)).

(** [if let Some((type_ident, type_origin)) = ty.resolution() { .. }] *)
Definition use_if_resolved (requires : SqlGraphRequires) (slot : string) (ty : UsedTypeEntity)
    : list type_use :=
  match ut_resolution ty with
  | Some _ => [{| use_requires := requires; use_slot := slot; use_ty := ty |}]
  | None => []
  end.

(** The types of a function that [initialize_externs] and [connect_externs] walk,
    in order: the arguments that emit SQL and need resolution, then the return. *)
Definition argument_use (arg : PgExternArgumentEntity) : option type_use :=
  if negb (ut_emits_argument_sql (arg_used_ty arg))
     || negb (ut_needs_type_resolution (arg_used_ty arg)) then None
  else Some {| use_requires := ByArg; use_slot := "argument `" +:+ arg_pattern arg +:+ "`";
               use_ty := arg_used_ty arg |}.

Definition return_uses (r : PgExternReturnEntity) : list type_use :=
  match r with
  | Return_None | Return_Trigger => []
  | Return_Type ty | Return_SetOf ty => use_if_resolved ByReturn "return type" ty
  | Return_Iterated tys =>
      concat (map (fun item => use_if_resolved ByReturn "table return column" (it_ty item)) tys)
  end.

Definition function_uses (item : PgExternEntity) : list type_use :=
  omap argument_use (fn_fn_args item) ++ return_uses (fn_fn_return item).

Definition aggregate_argument_use (kind : string) (arg : AggregateTypeEntity) : option type_use :=
  if negb (ut_needs_type_resolution (at_used_ty arg)) then None
  else Some {| use_requires := ByArg; use_slot := aggregate_slot (at_name arg) kind;
               use_ty := at_used_ty arg |}.

Definition aggregate_argument_uses (item : PgAggregateEntity) : list type_use :=
  omap (aggregate_argument_use "argument") (agg_args item)
  ++ omap (aggregate_argument_use "direct argument") (default [] (agg_direct_args item)).

Definition mstype_uses (item : PgAggregateEntity) : list type_use :=
  match agg_mstype item with Some ty => use_if_resolved ByArg "MSTYPE" ty | None => [] end.

Definition stype_uses (item : PgAggregateEntity) : list type_use :=
  use_if_resolved ByArg "STYPE" (at_used_ty (agg_stype item)).

(** ** Initialization: a node and its base edges per entity *)

Record sqls_state := {
  ss_graph : G;
  ss_mapped : hmap ExtensionSqlEntity;
  ss_bootstrap : option NodeIndex;
  ss_finalize : option NodeIndex;
}.

(** The unique holder of a position: [Err] with both identifiers when taken. *)
Definition claim_position (g : G) (wanted : bool) (item : ExtensionSqlEntity) (index : NodeIndex)
    (held : option NodeIndex) (error : string -> string -> build_error)
    : build_result (option NodeIndex) :=
  if wanted then
    match held with
    | Some existing_index =>
        existing ← unwrap (g_weight g existing_index);
        Err (error (rust_identifier (Entity_CustomSql item)) (rust_identifier existing))
    | None => Ok (Some index)
    end
  else Ok held.

Definition initialize_extension_sql (st : sqls_state) (item : ExtensionSqlEntity)
    : build_result sqls_state :=
  let '(index, g) := g_add_node (Entity_CustomSql item) (ss_graph st) in
  let mapped := hm_insert item index (ss_mapped st) in
  bootstrap ← claim_position g (sql_bootstrap item) item index (ss_bootstrap st) MultipleBootstrap;
  finalize ← claim_position g (sql_finalize item) item index (ss_finalize st) MultipleFinalize;
  Ok {| ss_graph := g; ss_mapped := mapped; ss_bootstrap := bootstrap; ss_finalize := finalize |}.

Definition extension_sql_edges (root : NodeIndex) (bootstrap finalize : option NodeIndex) (g : G)
    (entry : ExtensionSqlEntity * NodeIndex) : build_result G :=
  let '(item, index) := entry in
  g ← add_edge g root index By;
  g ← (if negb (sql_bootstrap item) then add_edge_from g bootstrap index else Ok g);
  (if negb (sql_finalize item) then add_edge_to g index finalize else Ok g).

Definition initialize_extension_sqls (g : G) (root : NodeIndex)
    (extension_sqls : list ExtensionSqlEntity)
    : build_result (G * hmap ExtensionSqlEntity * option NodeIndex * option NodeIndex) :=
  st ← fold_outcome initialize_extension_sql
         {| ss_graph := g; ss_mapped := []; ss_bootstrap := None; ss_finalize := None |}
         extension_sqls;
  g ← fold_outcome (extension_sql_edges root (ss_bootstrap st) (ss_finalize st)) (ss_graph st)
        (hash_order (ss_mapped st));
  Ok (g, ss_mapped st, ss_bootstrap st, ss_finalize st).

Definition initialize_schema (bootstrap finalize : option NodeIndex) (st : G * hmap SchemaEntity)
    (item : SchemaEntity) : build_result (G * hmap SchemaEntity) :=
  let '(g, mapped) := st in
  let '(index, g) := g_add_node (Entity_Schema item) g in
  g ← add_edge_from g bootstrap index;
  g ← add_edge_to g index finalize;
  Ok (g, hm_insert item index mapped).

Definition initialize_schemas (g : G) (bootstrap finalize : option NodeIndex)
    (schemas : list SchemaEntity) : build_result (G * hmap SchemaEntity) :=
  fold_outcome (initialize_schema bootstrap finalize) (g, []) schemas.

(** The loop [initialize_enums], [initialize_types], [initialize_ords],
    [initialize_hashes] and [initialize_triggers] share. *)
Definition initialize_node {K} `{EqDecision K} (into : K -> SqlGraphEntity) (root : NodeIndex)
    (bootstrap finalize : option NodeIndex) (st : G * hmap K) (item : K)
    : build_result (G * hmap K) :=
  let '(g, mapped) := st in
  let '(index, g) := g_add_node (into item) g in
  g ← build_base_edges g index root bootstrap finalize;
  Ok (g, hm_insert item index mapped).

Definition initialize_nodes {K} `{EqDecision K} (into : K -> SqlGraphEntity) (g : G)
    (root : NodeIndex) (bootstrap finalize : option NodeIndex) (items : list K)
    : build_result (G * hmap K) :=
  fold_outcome (initialize_node into root bootstrap finalize) (g, []) items.

Definition initialize_enums := initialize_nodes Entity_Enum.
Definition initialize_types := initialize_nodes Entity_Type.
Definition initialize_ords := initialize_nodes Entity_Ord.
Definition initialize_hashes := initialize_nodes Entity_Hash.
Definition initialize_triggers := initialize_nodes Entity_Trigger.

Definition initialize_extern (root : NodeIndex) (bootstrap finalize : option NodeIndex)
    (types : hmap PostgresTypeEntity) (enums : hmap PostgresEnumEntity)
    (extension_sqls : hmap ExtensionSqlEntity)
    (st : G * hmap PgExternEntity * hmap string) (item : PgExternEntity)
    : build_result (G * hmap PgExternEntity * hmap string) :=
  let '(g, mapped, builtin_types) := st in
  let '(index, g) := g_add_node (Entity_Function item) g in
  let mapped := hm_insert item index mapped in
  g ← build_base_edges g index root bootstrap finalize;
  '(g, builtin_types) ←
    fold_outcome (initialize_use types enums extension_sqls "Function" (fn_full_path item))
      (g, builtin_types) (function_uses item);
  Ok (g, mapped, builtin_types).

Definition initialize_externs (g : G) (root : NodeIndex) (bootstrap finalize : option NodeIndex)
    (externs : list PgExternEntity) (types : hmap PostgresTypeEntity)
    (enums : hmap PostgresEnumEntity) (extension_sqls : hmap ExtensionSqlEntity)
    : build_result (G * hmap PgExternEntity * hmap string) :=
  fold_outcome (initialize_extern root bootstrap finalize types enums extension_sqls)
    (g, [], []) externs.

Definition initialize_aggregate (root : NodeIndex) (bootstrap finalize : option NodeIndex)
    (enums : hmap PostgresEnumEntity) (types : hmap PostgresTypeEntity)
    (extension_sqls : hmap ExtensionSqlEntity)
    (st : G * hmap PgAggregateEntity * hmap string) (item : PgAggregateEntity)
    : build_result (G * hmap PgAggregateEntity * hmap string) :=
  let '(g, mapped, builtin_types) := st in
  let '(index, g) := g_add_node (Entity_Aggregate item) g in
  '(g, builtin_types) ←
    fold_outcome (initialize_use types enums extension_sqls "Aggregate" (agg_full_path item))
      (g, builtin_types) (aggregate_argument_uses item ++ stype_uses item ++ mstype_uses item);
  g ← build_base_edges g index root bootstrap finalize;
  Ok (g, hm_insert item index mapped, builtin_types).

Definition initialize_aggregates (g : G) (root : NodeIndex) (bootstrap finalize : option NodeIndex)
    (aggregates : list PgAggregateEntity) (builtin_types : hmap string)
    (enums : hmap PostgresEnumEntity) (types : hmap PostgresTypeEntity)
    (extension_sqls : hmap ExtensionSqlEntity)
    : build_result (G * hmap PgAggregateEntity * hmap string) :=
  fold_outcome (initialize_aggregate root bootstrap finalize enums types extension_sqls)
    (g, [], builtin_types) aggregates.

(** ** Connection: the edges between entities *)

Definition connect_schemas (g : G) (schemas : hmap SchemaEntity) (root : NodeIndex)
    : build_result G :=
  fold_outcome (fun g '(_, index) => add_edge g root index By) g (hash_order schemas).

(** One [requires] of an [extension_sql!] item. *)
Definition connect_sql_requires (types : hmap PostgresTypeEntity) (enums : hmap PostgresEnumEntity)
    (externs : hmap PgExternEntity) (schemas : hmap SchemaEntity)
    (extension_sqls : hmap ExtensionSqlEntity) (triggers : hmap PgTriggerEntity)
    (item : ExtensionSqlEntity) (index : NodeIndex) (g : G) (requires : PositioningRef)
    : build_result G :=
  match find_positioning_ref_target requires types enums externs schemas extension_sqls triggers with
  | Some target => add_edge g target index By
  | None => Err (RequiresNotFound (rust_identifier (Entity_CustomSql item)) (sql_file item)
                   (sql_line item) requires)
  end.

Definition connect_extension_sqls (g : G) (extension_sqls : hmap ExtensionSqlEntity)
    (schemas : hmap SchemaEntity) (types : hmap PostgresTypeEntity)
    (enums : hmap PostgresEnumEntity) (externs : hmap PgExternEntity)
    (triggers : hmap PgTriggerEntity) : build_result G :=
  fold_outcome (fun g '(item, index) =>
    g ← make_schema_connection g index (sql_module_path item) schemas;
    fold_outcome
      (connect_sql_requires types enums externs schemas extension_sqls triggers item index) g
      (sql_requires item))
    g (hash_order extension_sqls).

Definition connect_enums (g : G) (enums : hmap PostgresEnumEntity) (schemas : hmap SchemaEntity)
    : build_result G :=
  fold_outcome (fun g '(item, index) =>
    make_schema_connection g index (enum_module_path item) schemas) g (hash_order enums).

Definition connect_type (schemas : hmap SchemaEntity) (externs : hmap PgExternEntity) (g : G)
    (entry : PostgresTypeEntity * NodeIndex) : build_result G :=
  let '(item, index) := entry in
  let path := resolve_function_path (type_module_path item) in
  g ← make_schema_connection g index (type_module_path item) schemas;
  g ← make_extern_connection g index (path (type_in_fn_path item)) externs;
  g ← make_extern_connection g index (path (type_out_fn_path item)) externs;
  g ← make_extern_connection_opt g index (type_receive_fn_path item) path externs;
  make_extern_connection_opt g index (type_send_fn_path item) path externs.

Definition connect_types (g : G) (types : hmap PostgresTypeEntity) (schemas : hmap SchemaEntity)
    (externs : hmap PgExternEntity) : build_result G :=
  fold_outcome (connect_type schemas externs) g (hash_order types).

(** One attribute of a function; the flag is [found_schema_declaration]. *)
Definition connect_extern_attr (types : hmap PostgresTypeEntity) (enums : hmap PostgresEnumEntity)
    (externs : hmap PgExternEntity) (schemas : hmap SchemaEntity)
    (extension_sqls : hmap ExtensionSqlEntity) (triggers : hmap PgTriggerEntity)
    (index : NodeIndex) (st : G * bool) (extern_attr : ExternArgs) : build_result (G * bool) :=
  let '(g, found_schema_declaration) := st in
  let target r := find_positioning_ref_target r types enums externs schemas extension_sqls triggers in
  match extern_attr with
  | Requires requirements =>
      g ← fold_outcome (fun g requires =>
            match target requires with
            | Some target => add_edge g target index By
            | None => Err (ExternRequiresNotFound requires)
            end) g requirements;
      Ok (g, found_schema_declaration)
  | Support support_fn =>
      g ← add_edge_from g (target support_fn) index;
      Ok (g, found_schema_declaration)
  | Schema declared_schema_name =>
      st ← fold_outcome (fun (st : G * bool) '(schema, schema_index) =>
            if bool_decide (schema_name schema = declared_schema_name) then
              g ← add_edge (fst st) schema_index index By; Ok (g, true)
            else Ok st) (g, found_schema_declaration) (hash_order schemas);
      let '(g, found) := st in
      if (found : bool) then Ok (g, true) else Err (SchemaNotFound declared_schema_name)
  | _ => Ok (g, found_schema_declaration)
  end.

(** The hash function of a type is defined after its [{typename}_eq]. *)
Definition connect_extern_hashes (item : PgExternEntity) (index : NodeIndex)
    (hashes : hmap PostgresHashEntity) (g : G) : build_result G :=
  fold_outcome (fun g '(hash_item, hash_index) =>
    if bool_decide (fn_module_path item = hash_module_path hash_item)
       && bool_decide (fn_name item = to_lowercase (hash_name hash_item) +:+ "_eq")
    then add_edge g index hash_index By else Ok g) g (hash_order hashes).

Definition connect_extern (externs : hmap PgExternEntity) (hashes : hmap PostgresHashEntity)
    (schemas : hmap SchemaEntity) (types : hmap PostgresTypeEntity)
    (enums : hmap PostgresEnumEntity) (builtin_types : hmap string)
    (extension_sqls : hmap ExtensionSqlEntity) (triggers : hmap PgTriggerEntity) (g : G)
    (entry : PgExternEntity * NodeIndex) : build_result G :=
  let '(item, index) := entry in
  '(g, found_schema_declaration) ←
    fold_outcome (connect_extern_attr types enums externs schemas extension_sqls triggers index)
      (g, false) (fn_extern_attrs item);
  g ← (if negb found_schema_declaration
       then make_schema_connection g index (fn_module_path item) schemas else Ok g);
  g ← connect_extern_hashes item index hashes g;
  fold_outcome
    (connect_use index types enums builtin_types extension_sqls "Function" (fn_full_path item))
    g (function_uses item).

Definition connect_externs (g : G) (externs : hmap PgExternEntity)
    (hashes : hmap PostgresHashEntity) (schemas : hmap SchemaEntity)
    (types : hmap PostgresTypeEntity) (enums : hmap PostgresEnumEntity)
    (builtin_types : hmap string) (extension_sqls : hmap ExtensionSqlEntity)
    (triggers : hmap PgTriggerEntity) : build_result G :=
  fold_outcome
    (connect_extern externs hashes schemas types enums builtin_types extension_sqls triggers)
    g (hash_order externs).

(** [cmp_fn_name], [lt_fn_name], [le_fn_name], [eq_fn_name], [gt_fn_name],
    [ge_fn_name] of an [Ord] entity, [fn_name] of a [Hash] entity. *)
Definition ord_fn_names (item : PostgresOrdEntity) : list string :=
  map (fun suffix => to_lowercase (ord_name item) +:+ suffix)
    ["_cmp"; "_lt"; "_le"; "_eq"; "_gt"; "_ge"].

Definition hash_fn_name (item : PostgresHashEntity) : string :=
  to_lowercase (hash_name item) +:+ "_hash".

Definition connect_ord (schemas : hmap SchemaEntity) (types : hmap PostgresTypeEntity)
    (enums : hmap PostgresEnumEntity) (externs : hmap PgExternEntity) (g : G)
    (entry : PostgresOrdEntity * NodeIndex) : build_result G :=
  let '(item, index) := entry in
  g ← make_schema_connection g index (ord_module_path item) schemas;
  g ← make_type_or_enum_connection g index (ord_type_ident item) types enums;
  fold_outcome (fun g '(extern_item, extern_index) =>
    if existsb (fun fn_name' => bool_decide (ord_module_path item = fn_module_path extern_item)
                 && bool_decide (fn_name extern_item = fn_name')) (ord_fn_names item)
    then add_edge g extern_index index By else Ok g) g (hash_order externs).

Definition connect_ords (g : G) (ords : hmap PostgresOrdEntity) (schemas : hmap SchemaEntity)
    (types : hmap PostgresTypeEntity) (enums : hmap PostgresEnumEntity)
    (externs : hmap PgExternEntity) : build_result G :=
  fold_outcome (connect_ord schemas types enums externs) g (hash_order ords).

Definition connect_hash (schemas : hmap SchemaEntity) (types : hmap PostgresTypeEntity)
    (enums : hmap PostgresEnumEntity) (externs : hmap PgExternEntity) (g : G)
    (entry : PostgresHashEntity * NodeIndex) : build_result G :=
  let '(item, index) := entry in
  g ← make_schema_connection g index (hash_module_path item) schemas;
  g ← make_type_or_enum_connection g index (hash_type_ident item) types enums;
  add_edge_from g (hm_find (fun e => bool_decide (hash_module_path item = fn_module_path e)
      && bool_decide (fn_name e = hash_fn_name item)) externs) index.

Definition connect_hashes (g : G) (hashes : hmap PostgresHashEntity) (schemas : hmap SchemaEntity)
    (types : hmap PostgresTypeEntity) (enums : hmap PostgresEnumEntity)
    (externs : hmap PgExternEntity) : build_result G :=
  fold_outcome (connect_hash schemas types enums externs) g (hash_order hashes).

(** The functions an aggregate names, in the order they are connected. *)
Definition aggregate_functions (item : PgAggregateEntity) : list (option string) :=
  [Some (agg_sfunc item); agg_finalfunc item; agg_combinefunc item; agg_serialfunc item;
   agg_deserialfunc item; agg_msfunc item; agg_minvfunc item; agg_mfinalfunc item; agg_sortop item].

Definition connect_aggregate (schemas : hmap SchemaEntity) (types : hmap PostgresTypeEntity)
    (enums : hmap PostgresEnumEntity) (builtin_types : hmap string)
    (externs : hmap PgExternEntity) (extension_sqls : hmap ExtensionSqlEntity) (g : G)
    (entry : PgAggregateEntity * NodeIndex) : build_result G :=
  let '(item, index) := entry in
  g ← make_schema_connection g index (agg_module_path item) schemas;
  g ← fold_outcome
        (connect_use index types enums builtin_types extension_sqls "Aggregate" (agg_full_path item))
        g (aggregate_argument_uses item ++ mstype_uses item ++ stype_uses item);
  fold_outcome (fun g path =>
    make_extern_connection_opt g index path
      (fun value => agg_module_path item +:+ "::" +:+ value) externs)
    g (aggregate_functions item).

Definition connect_aggregates (g : G) (aggregates : hmap PgAggregateEntity)
    (schemas : hmap SchemaEntity) (types : hmap PostgresTypeEntity)
    (enums : hmap PostgresEnumEntity) (builtin_types : hmap string)
    (externs : hmap PgExternEntity) (extension_sqls : hmap ExtensionSqlEntity) : build_result G :=
  fold_outcome (connect_aggregate schemas types enums builtin_types externs extension_sqls)
    g (hash_order aggregates).

Definition connect_triggers (g : G) (triggers : hmap PgTriggerEntity) (schemas : hmap SchemaEntity)
    : build_result G :=
  fold_outcome (fun g '(item, index) =>
    make_schema_connection g index (trg_module_path item) schemas) g (hash_order triggers).

(** ** [PgrxSql::build] *)

Record split_entities := {
  sp_control : option ControlFile;
  sp_schemas : list SchemaEntity;
  sp_extension_sqls : list ExtensionSqlEntity;
  sp_externs : list PgExternEntity;
  sp_types : list PostgresTypeEntity;
  sp_enums : list PostgresEnumEntity;
  sp_ords : list PostgresOrdEntity;
  sp_hashes : list PostgresHashEntity;
  sp_aggregates : list PgAggregateEntity;
  sp_triggers : list PgTriggerEntity;
}.

(** Splits the entities up by kind; the last control file wins. *)
Definition split_up (entities : list SqlGraphEntity) : split_entities :=
  {| sp_control := last (omap (fun e => match e with Entity_ExtensionRoot c => Some c | _ => None end) entities);
     sp_schemas := omap (fun e => match e with Entity_Schema s => Some s | _ => None end) entities;
     sp_extension_sqls := omap (fun e => match e with Entity_CustomSql s => Some s | _ => None end) entities;
     sp_externs := omap (fun e => match e with Entity_Function s => Some s | _ => None end) entities;
     sp_types := omap (fun e => match e with Entity_Type s => Some s | _ => None end) entities;
     sp_enums := omap (fun e => match e with Entity_Enum s => Some s | _ => None end) entities;
     sp_ords := omap (fun e => match e with Entity_Ord s => Some s | _ => None end) entities;
     sp_hashes := omap (fun e => match e with Entity_Hash s => Some s | _ => None end) entities;
     sp_aggregates := omap (fun e => match e with Entity_Aggregate s => Some s | _ => None end) entities;
     sp_triggers := omap (fun e => match e with Entity_Trigger s => Some s | _ => None end) entities |}.

(** The first half: every entity has its node. *)
Definition build_nodes (sp : split_entities) (extension_name : string) (versioned_so : bool)
    : build_result (PgrxSql G) :=
  control ← unwrap (sp_control sp);
  let '(root, g) := g_add_node (Entity_ExtensionRoot control) g_new in
  '(g, extension_sqls, bootstrap, finalize) ←
    initialize_extension_sqls g root (sp_extension_sqls sp);
  '(g, schemas) ← initialize_schemas g bootstrap finalize (sp_schemas sp);
  '(g, enums) ← initialize_enums g root bootstrap finalize (sp_enums sp);
  '(g, types) ← initialize_types g root bootstrap finalize (sp_types sp);
  _ ← ensure_unique_type_targets types enums extension_sqls;
  '(g, externs, builtin_types) ←
    initialize_externs g root bootstrap finalize (sp_externs sp) types enums extension_sqls;
  '(g, ords) ← initialize_ords g root bootstrap finalize (sp_ords sp);
  '(g, hashes) ← initialize_hashes g root bootstrap finalize (sp_hashes sp);
  '(g, aggregates, builtin_types) ←
    initialize_aggregates g root bootstrap finalize (sp_aggregates sp) builtin_types enums types
      extension_sqls;
  '(g, triggers) ← initialize_triggers g root bootstrap finalize (sp_triggers sp);
  Ok {| px_control := control; px_graph := g; px_graph_root := root;
        px_graph_bootstrap := bootstrap; px_graph_finalize := finalize; px_schemas := schemas;
        px_extension_sqls := extension_sqls; px_externs := externs; px_types := types;
        px_builtin_types := builtin_types; px_enums := enums; px_ords := ords; px_hashes := hashes;
        px_aggregates := aggregates; px_triggers := triggers; px_extension_name := extension_name;
        px_versioned_so := versioned_so; px_qualify_default_schema := false |}.

(** The second half: the edges between them. *)
Definition build_edges (p : PgrxSql G) : build_result G :=
  let schemas := px_schemas p in let types := px_types p in let enums := px_enums p in
  let externs := px_externs p in let extension_sqls := px_extension_sqls p in
  g ← connect_schemas (px_graph p) schemas (px_graph_root p);
  g ← connect_extension_sqls g extension_sqls schemas types enums externs (px_triggers p);
  g ← connect_enums g enums schemas;
  g ← connect_types g types schemas externs;
  g ← connect_externs g externs (px_hashes p) schemas types enums (px_builtin_types p)
        extension_sqls (px_triggers p);
  g ← connect_ords g (px_ords p) schemas types enums externs;
  g ← connect_hashes g (px_hashes p) schemas types enums externs;
  g ← connect_aggregates g (px_aggregates p) schemas types enums (px_builtin_types p) externs
        extension_sqls;
  connect_triggers g (px_triggers p) schemas.

Definition with_graph (p : PgrxSql G) (g : G) : PgrxSql G :=
  {| px_control := px_control p; px_graph := g; px_graph_root := px_graph_root p;
     px_graph_bootstrap := px_graph_bootstrap p; px_graph_finalize := px_graph_finalize p;
     px_schemas := px_schemas p; px_extension_sqls := px_extension_sqls p;
     px_externs := px_externs p; px_types := px_types p; px_builtin_types := px_builtin_types p;
     px_enums := px_enums p; px_ords := px_ords p; px_hashes := px_hashes p;
     px_aggregates := px_aggregates p; px_triggers := px_triggers p;
     px_extension_name := px_extension_name p; px_versioned_so := px_versioned_so p;
     px_qualify_default_schema := px_qualify_default_schema p |}.

Definition build (entities : list SqlGraphEntity) (extension_name : string) (versioned_so : bool)
    : build_result (PgrxSql G) :=
  p ← build_nodes (split_up (sort entities)) extension_name versioned_so;
  g ← build_edges p;
  Ok (with_graph p g).

End Build.
