(* ===== verification/BuildLogic.v ===== *)
(** * A logic for the construction of the graph

    [ensures m Q]: [m] does not panic, its result satisfies [Q], and its error is
    one the construction can report.  [adds pr g m D P]: [m] starts from the graph
    [g], keeps the nodes and adds exactly the edges [D]; [P] holds of its result.
    The rules follow the program's structure: sequence, loop, edge, lookup. *)
From S2P Require Import Prelude Metadata Entities EntityOrd Producers Graph Lookup Build.
From stdpp Require Import list gmap strings.
#[local] Set Warnings "-clear-no-such-hyp".

(** The placeholder of an external type is always there when it is connected. *)
Definition reportable (e : build_error) : Prop :=
  match e with MissingPlaceholder _ _ _ _ => False | _ => True end.

Definition ensures {A} (m : outcome build_error A) (Q : A -> Prop) : Prop :=
  match m with Ok a => Q a | Err e => reportable e | Panic => False end.

Lemma ensures_bind {A B} (m : outcome build_error A) (f : A -> outcome build_error B) P Q :
  ensures m P -> (forall a, P a -> ensures (f a) Q) -> ensures (m ≫= f) Q.
Proof. destruct m; cbn; auto. Qed.

Lemma ensures_mono {A} (m : outcome build_error A) (P Q : A -> Prop) :
  (forall a, P a -> Q a) -> ensures m P -> ensures m Q.
Proof. destruct m; cbn; auto. Qed.

(** A loop: the invariant sees the items done so far. *)
Lemma ensures_fold {S A} (f : S -> A -> outcome build_error S) (I : S -> list A -> Prop) l s :
  I s [] ->
  (forall s done x, x ∈ l -> I s done -> ensures (f s x) (fun s' => I s' (done ++ [x]))) ->
  ensures (fold_outcome f s l) (fun s' => I s' l).
Proof.
  intros Hbase Hstep.
  assert (Hgen : forall l2 l1 s, l1 ++ l2 = l -> I s l1 ->
    ensures (fold_outcome f s l2) (fun s' => I s' l)).
  { clear s Hbase. induction l2 as [|x l2 IH]; intros l1 s Hl HI; cbn [fold_outcome].
    - rewrite app_nil_r in Hl. by subst l1.
    - eapply ensures_bind.
      + apply Hstep; [|exact HI]. rewrite <- Hl. apply elem_of_app. right. apply list_elem_of_here.
      + intros s' HI'. apply (IH (l1 ++ [x])); [by rewrite <- app_assoc | done]. }
  by apply (Hgen l [] s).
Qed.

Section Logic.
Context {G : Type} `{StableGraphLaws G}.

Definition edges := NodeIndex -> NodeIndex -> SqlGraphRequires -> Prop.
Definition no_edges : edges := fun _ _ _ => False.
Definition one_edge (a b : NodeIndex) (w : SqlGraphRequires) : edges :=
  fun x y v => x = a /\ y = b /\ v = w.
Definition join_edges (D D' : edges) : edges := fun a b w => D a b w \/ D' a b w.
Definition each_edges {A} (l : list A) (D : A -> edges) : edges :=
  fun a b w => exists x, x ∈ l /\ D x a b w.

Definition same_nodes (g g' : G) : Prop := forall i, g_weight g' i = g_weight g i.

#[global] Instance same_nodes_preorder : PreOrder same_nodes.
Proof.
  split.
  - intros g i. done.
  - intros g1 g2 g3 H12 H23 i. by rewrite H23.
Qed.

Definition added (g g' : G) (D : edges) : Prop :=
  same_nodes g g' /\ forall a b w, has_edge g' a b w <-> has_edge g a b w \/ D a b w.

Definition adds {S} (pr : S -> G) (g : G) (m : outcome build_error S) (D : edges)
    (P : S -> Prop) : Prop :=
  ensures m (fun s => added g (pr s) D /\ P s).

Lemma added_refl g : added g g no_edges.
Proof. split; [done|]. intros a b w. unfold no_edges. tauto. Qed.

Lemma added_trans g1 g2 g3 D D' :
  added g1 g2 D -> added g2 g3 D' -> added g1 g3 (join_edges D D').
Proof.
  intros [N1 E1] [N2 E2]. split; [by etrans|]. intros a b w. rewrite E2, E1.
  unfold join_edges. tauto.
Qed.

Lemma added_equiv g g' D D' :
  (forall a b w, D a b w <-> D' a b w) -> added g g' D -> added g g' D'.
Proof. intros HD [N E]. split; [done|]. intros a b w. by rewrite E, HD. Qed.

Lemma adds_ret {S} (pr : S -> G) s (P : S -> Prop) : P s -> adds pr (pr s) (Ok s) no_edges P.
Proof. intros HP. split; [apply added_refl | done]. Qed.

Lemma adds_err {S} (pr : S -> G) g e D (P : S -> Prop) : reportable e -> adds pr g (Err e) D P.
Proof. done. Qed.

Lemma adds_weaken {S} (pr : S -> G) g m D D' (P P' : S -> Prop) :
  adds pr g m D P -> (forall s, P s -> P' s) ->
  (forall s, P s -> forall a b w, D a b w <-> D' a b w) -> adds pr g m D' P'.
Proof.
  intros Hm HP HD. eapply ensures_mono; [|exact Hm]. intros s [Ha Hs].
  split; [|auto]. eapply added_equiv; [|exact Ha]. by apply (HD s).
Qed.

Lemma adds_bind {S T} (pr : S -> G) (pr' : T -> G) g m (f : S -> outcome build_error T) D D' P Q :
  adds pr g m D P ->
  (forall s, same_nodes g (pr s) -> P s -> adds pr' (pr s) (f s) D' Q) ->
  adds pr' g (m ≫= f) (join_edges D D') Q.
Proof.
  intros Hm Hf. eapply ensures_bind; [exact Hm|]. intros s [Ha Hs].
  eapply ensures_mono; [|apply Hf; [apply Ha | done]]. cbn. intros t [Ha' Ht].
  split; [by eapply added_trans | done].
Qed.

Lemma adds_add_edge g a b w :
  is_Some (g_weight g a) -> is_Some (g_weight g b) ->
  adds id g (add_edge g a b w) (one_edge a b w) (fun _ => True).
Proof.
  intros Ha Hb. unfold add_edge. destruct (add_edge_defined a b w g Ha Hb) as [g' Hg].
  rewrite Hg. split; [|done]. split; [intros i; by eapply add_edge_weight|].
  intros x y v. by rewrite (add_edge_edges a b w g g' Hg).
Qed.

(** A loop that adds edges for each item. *)
Lemma adds_fold {S A} (pr : S -> G) (f : S -> A -> outcome build_error S) s l (D : A -> edges)
    (I : S -> list A -> Prop) :
  I s [] ->
  (forall s' done x, x ∈ l -> same_nodes (pr s) (pr s') -> I s' done ->
    adds pr (pr s') (f s' x) (D x) (fun s'' => I s'' (done ++ [x]))) ->
  adds pr (pr s) (fold_outcome f s l) (each_edges l D) (fun s' => I s' l).
Proof.
  intros Hbase Hstep. apply (ensures_fold f
    (fun s' done => added (pr s) (pr s') (each_edges done D) /\ I s' done)).
  - split; [|done]. eapply added_equiv; [|apply added_refl]. intros a b w.
    unfold no_edges, each_edges. split; [done|]. intros (x & Hx & _). by apply elem_of_nil in Hx.
  - intros s' done x Hx [Ha HI]. eapply ensures_mono; [|apply (Hstep s' done x Hx); [apply Ha|done]].
    intros s'' [Ha' HI']. split; [|done].
    eapply added_equiv; [|by eapply added_trans]. intros a b w. unfold join_edges, each_edges.
    setoid_rewrite elem_of_app. setoid_rewrite list_elem_of_singleton. naive_solver.
Qed.

(** The same without a state of its own: [P x] holds of every item passed. *)
Lemma adds_each {A} (f : G -> A -> outcome build_error G) g l (D : A -> edges) (P : A -> Prop) :
  (forall g' x, x ∈ l -> same_nodes g g' -> adds id g' (f g' x) (D x) (fun _ => P x)) ->
  adds id g (fold_outcome f g l) (each_edges l D) (fun _ => forall x, x ∈ l -> P x).
Proof.
  intros Hstep.
  apply (adds_fold id f g l D (fun _ done => forall x, x ∈ done -> P x)).
  - intros x Hx. by apply elem_of_nil in Hx.
  - intros g' done x Hx Hn Hdone. eapply adds_weaken; [by apply Hstep| |done].
    intros ? HP y. cbn in HP. rewrite elem_of_app, list_elem_of_singleton. intros [Hy| ->]; auto.
Qed.

(** Nodes that exist go on existing. *)
Lemma same_nodes_some g g' i : same_nodes g g' -> is_Some (g_weight g i) -> is_Some (g_weight g' i).
Proof. intros Hn. by rewrite Hn. Qed.

(** The edge from a node that may have been found. *)
Definition edge_from (source : option NodeIndex) (b : NodeIndex) (w : SqlGraphRequires) : edges :=
  fun x y v => source = Some x /\ y = b /\ v = w.

Lemma adds_edge_from g source b :
  (forall a, source = Some a -> is_Some (g_weight g a)) -> is_Some (g_weight g b) ->
  adds id g (add_edge_from g source b) (edge_from source b By) (fun _ => True).
Proof.
  intros Ha Hb. destruct source as [a|]; cbn [add_edge_from].
  - eapply adds_weaken; [apply adds_add_edge; auto|done|]. intros ? ? x y v.
    unfold one_edge, edge_from. naive_solver.
  - apply (adds_weaken id g _ no_edges _ (fun _ => True)); [by apply (adds_ret id g)|done|].
    intros ? ? x y v. unfold no_edges, edge_from. naive_solver.
Qed.

(** An edge from a node that must be found. *)
Lemma adds_found g source b w e :
  reportable e -> (forall a, source = Some a -> is_Some (g_weight g a)) -> is_Some (g_weight g b) ->
  adds id g (match source with Some a => add_edge g a b w | None => Err e end)
    (edge_from source b w) (fun _ => is_Some source).
Proof.
  intros He Ha Hb. destruct source as [a|]; [|by apply adds_err].
  eapply adds_weaken; [apply adds_add_edge; auto|eauto|]. intros ? ? x y v.
  unfold one_edge, edge_from. naive_solver.
Qed.

End Logic.
