(* ===== verification/Connect.v ===== *)
(** * What the connection phase adds

    For each [connect_*] of [pgrx_sql.rs], the exact set of edges it adds to the
    graph and what its success means, in the logic of [BuildLogic]. *)
From S2P Require Import Prelude Metadata Entities EntityOrd Producers Graph Lookup Build BuildLogic.
From stdpp Require Import list gmap strings.
#[local] Set Warnings "-clear-no-such-hyp".

(** The values of a map are nodes of the graph. *)
Definition map_in `{StableGraph G} {K} (g : G) (m : hmap K) : Prop :=
  forall k i, (k, i) ∈ m -> is_Some (g_weight g i).

Lemma map_in_same `{StableGraph G} {K} (g g' : G) (m : hmap K) :
  same_nodes g g' -> map_in g m -> map_in g' m.
Proof. intros Hn Hm k i Hk. rewrite Hn. by eapply Hm. Qed.

Lemma hm_get_elem `{EqDecision K} (k : K) (m : hmap K) i : hm_get k m = Some i -> (k, i) ∈ m.
Proof.
  induction m as [|[k' v] m IH]; cbn; [done|]. case_decide as Hk.
  - intros [= ->]. subst. apply list_elem_of_here.
  - intros Hg. by apply list_elem_of_further, IH.
Qed.

Lemma hm_find_in `{StableGraph G} `{HashOrder} {K} (g : G) (test : K -> bool) (m : hmap K) a :
  map_in g m -> hm_find test m = Some a -> is_Some (g_weight g a).
Proof. intros Hm Hf. apply hm_find_Some in Hf as (k & Hk & _). by eapply Hm. Qed.

(** The uses that are walked carry a resolution. *)
Lemma use_if_resolved_some w slot ty u : u ∈ use_if_resolved w slot ty -> is_Some (ut_resolution (use_ty u)).
Proof.
  unfold use_if_resolved. destruct (ut_resolution ty) eqn:Er; intros Hu.
  - apply list_elem_of_singleton in Hu as ->. cbn. by rewrite Er.
  - by apply elem_of_nil in Hu.
Qed.

Lemma needs_resolution_some ty : ut_needs_type_resolution ty = true -> is_Some (ut_resolution ty).
Proof.
  unfold ut_needs_type_resolution, fmt_needs_type_resolution, ut_resolution.
  destruct (fmt_resolution _); [by eexists | done].
Qed.

Lemma function_uses_resolved item u : u ∈ function_uses item -> is_Some (ut_resolution (use_ty u)).
Proof.
  unfold function_uses. rewrite elem_of_app. intros [Hu|Hu].
  - apply list_elem_of_omap in Hu as (arg & _ & Ha). unfold argument_use in Ha.
    destruct (ut_needs_type_resolution (arg_used_ty arg)) eqn:En; [|by rewrite orb_true_r in Ha].
    destruct (ut_emits_argument_sql (arg_used_ty arg)); simplify_eq/=. by apply needs_resolution_some.
  - destruct (fn_fn_return item) as [|ty|ty|tys|]; cbn in Hu;
      try by apply elem_of_nil in Hu.
    1-2: by eapply use_if_resolved_some.
    rewrite list_elem_of_In, in_concat in Hu. destruct Hu as (l & Hl & Hu).
    apply in_map_iff in Hl as (it & <- & _). apply list_elem_of_In in Hu.
    by eapply use_if_resolved_some.
Qed.

Lemma aggregate_uses_resolved item u :
  u ∈ aggregate_argument_uses item \/ u ∈ mstype_uses item \/ u ∈ stype_uses item ->
  is_Some (ut_resolution (use_ty u)).
Proof.
  assert (Hone : forall kind (l : list AggregateTypeEntity), u ∈ omap (aggregate_argument_use kind) l ->
    is_Some (ut_resolution (use_ty u))).
  { intros kind l Hu. apply list_elem_of_omap in Hu as (arg & _ & Ha).
    unfold aggregate_argument_use in Ha.
    destruct (ut_needs_type_resolution (at_used_ty arg)) eqn:En; simplify_eq/=.
    by apply needs_resolution_some. }
  intros [Hu|[Hu|Hu]].
  - unfold aggregate_argument_uses in Hu. apply elem_of_app in Hu as [Hu|Hu]; eauto.
  - unfold mstype_uses in Hu. destruct (agg_mstype item); [by eapply use_if_resolved_some|].
    by apply elem_of_nil in Hu.
  - by eapply use_if_resolved_some.
Qed.

Section Spec.
Context {G : Type} `{StableGraph G} `{HashOrder}.
Variable (to_lowercase : string -> string).
Variable (p : PgrxSql G).

(** ** Where a reference leads *)

Definition schema_target (module_path : string) : option NodeIndex :=
  hm_find (fun s => bool_decide (module_path = schema_module_path s)) (px_schemas p).

Definition extern_target (full_path : string) : option NodeIndex :=
  hm_find (fun e => bool_decide (full_path = fn_full_path e)) (px_externs p).

Definition positioning_target (r : PositioningRef) : option NodeIndex :=
  find_positioning_ref_target r (px_types p) (px_enums p) (px_externs p) (px_schemas p)
    (px_extension_sqls p) (px_triggers p).

Definition use_target (u : type_use) : option NodeIndex :=
  match ut_resolution (use_ty u) with
  | Some (type_ident, External) => hm_get type_ident (px_builtin_types p)
  | Some (type_ident, ThisExtension) =>
      find_graph_type_target type_ident (px_types p) (px_enums p) (px_extension_sqls p)
  | None => None
  end.

Definition derived_target (type_ident : string) : option NodeIndex :=
  find_type_or_enum type_ident (px_types p) (px_enums p).

Definition hash_fn_target (item : PostgresHashEntity) : option NodeIndex :=
  hm_find (fun e => bool_decide (hash_module_path item = fn_module_path e)
      && bool_decide (fn_name e = hash_fn_name to_lowercase item)) (px_externs p).

(** ** What an item refers to *)

Definition type_functions (item : PostgresTypeEntity) : list string :=
  map (resolve_function_path (type_module_path item))
    (type_in_fn_path item :: type_out_fn_path item
     :: option_list (type_receive_fn_path item) ++ option_list (type_send_fn_path item)).

Definition aggregate_function_paths (item : PgAggregateEntity) : list string :=
  map (fun value => agg_module_path item +:+ "::" +:+ value)
    (omap id (aggregate_functions item)).

Definition aggregate_uses (item : PgAggregateEntity) : list type_use :=
  aggregate_argument_uses item ++ mstype_uses item ++ stype_uses item.

Definition has_schema_attr (item : PgExternEntity) : bool :=
  existsb (fun a => match a with Schema _ => true | _ => false end) (fn_extern_attrs item).

Definition is_ord_function (item : PostgresOrdEntity) (e : PgExternEntity) : bool :=
  existsb (fun name => bool_decide (ord_module_path item = fn_module_path e)
             && bool_decide (fn_name e = name)) (ord_fn_names to_lowercase item).

Definition is_eq_of_hash (e : PgExternEntity) (item : PostgresHashEntity) : bool :=
  bool_decide (fn_module_path e = hash_module_path item)
  && bool_decide (fn_name e = to_lowercase (hash_name item) +:+ "_eq").

(** ** The dependency edges: the first node is emitted before the second *)

Inductive depends : NodeIndex -> NodeIndex -> SqlGraphRequires -> Prop :=
| dep_sql_schema item i a :
    (item, i) ∈ px_extension_sqls p -> schema_target (sql_module_path item) = Some a -> depends a i By
| dep_sql_requires item i r a :
    (item, i) ∈ px_extension_sqls p -> r ∈ sql_requires item -> positioning_target r = Some a ->
    depends a i By
| dep_enum_schema item i a :
    (item, i) ∈ px_enums p -> schema_target (enum_module_path item) = Some a -> depends a i By
| dep_type_schema item i a :
    (item, i) ∈ px_types p -> schema_target (type_module_path item) = Some a -> depends a i By
| dep_type_function item i path a :
    (item, i) ∈ px_types p -> path ∈ type_functions item -> extern_target path = Some a ->
    depends a i By
| dep_extern_requires item i rs r a :
    (item, i) ∈ px_externs p -> Requires rs ∈ fn_extern_attrs item -> r ∈ rs ->
    positioning_target r = Some a -> depends a i By
| dep_extern_support item i r a :
    (item, i) ∈ px_externs p -> Support r ∈ fn_extern_attrs item -> positioning_target r = Some a ->
    depends a i By
| dep_extern_declared_schema item i s a :
    (item, i) ∈ px_externs p -> Schema (schema_name s) ∈ fn_extern_attrs item ->
    (s, a) ∈ px_schemas p -> depends a i By
| dep_extern_schema item i a :
    (item, i) ∈ px_externs p -> has_schema_attr item = false ->
    schema_target (fn_module_path item) = Some a -> depends a i By
| dep_extern_hash item i h j :
    (item, i) ∈ px_externs p -> (h, j) ∈ px_hashes p -> is_eq_of_hash item h = true ->
    depends i j By
| dep_extern_type item i u a :
    (item, i) ∈ px_externs p -> u ∈ function_uses item -> use_target u = Some a ->
    depends a i (use_requires u)
| dep_ord_schema item i a :
    (item, i) ∈ px_ords p -> schema_target (ord_module_path item) = Some a -> depends a i By
| dep_ord_type item i a :
    (item, i) ∈ px_ords p -> derived_target (ord_type_ident item) = Some a -> depends a i By
| dep_ord_function item i e a :
    (item, i) ∈ px_ords p -> (e, a) ∈ px_externs p -> is_ord_function item e = true ->
    depends a i By
| dep_hash_schema item i a :
    (item, i) ∈ px_hashes p -> schema_target (hash_module_path item) = Some a -> depends a i By
| dep_hash_type item i a :
    (item, i) ∈ px_hashes p -> derived_target (hash_type_ident item) = Some a -> depends a i By
| dep_hash_function item i a :
    (item, i) ∈ px_hashes p -> hash_fn_target item = Some a -> depends a i By
| dep_aggregate_schema item i a :
    (item, i) ∈ px_aggregates p -> schema_target (agg_module_path item) = Some a -> depends a i By
| dep_aggregate_type item i u a :
    (item, i) ∈ px_aggregates p -> u ∈ aggregate_uses item -> use_target u = Some a ->
    depends a i (use_requires u)
| dep_aggregate_function item i path a :
    (item, i) ∈ px_aggregates p -> path ∈ aggregate_function_paths item ->
    extern_target path = Some a -> depends a i By
| dep_trigger_schema item i a :
    (item, i) ∈ px_triggers p -> schema_target (trg_module_path item) = Some a -> depends a i By.

(** Every reference that must lead somewhere does. *)
Record references_resolve : Prop := {
  rr_sql_requires : forall item i r,
    (item, i) ∈ px_extension_sqls p -> r ∈ sql_requires item -> is_Some (positioning_target r);
  rr_type_functions : forall item i path,
    (item, i) ∈ px_types p -> path ∈ type_functions item -> is_Some (extern_target path);
  rr_extern_requires : forall item i rs r,
    (item, i) ∈ px_externs p -> Requires rs ∈ fn_extern_attrs item -> r ∈ rs ->
    is_Some (positioning_target r);
  rr_extern_types : forall item i u,
    (item, i) ∈ px_externs p -> u ∈ function_uses item -> is_Some (use_target u);
  rr_aggregate_types : forall item i u,
    (item, i) ∈ px_aggregates p -> u ∈ aggregate_uses item -> is_Some (use_target u);
  rr_aggregate_functions : forall item i path,
    (item, i) ∈ px_aggregates p -> path ∈ aggregate_function_paths item ->
    is_Some (extern_target path);
}.

End Spec.

Section Proofs.
Context {G : Type} `{StableGraphLaws G} `{HashOrder}.
Variable (to_lowercase : string -> string).
Variable (p : PgrxSql G).

(** All the maps lead into the graph. *)
Record maps_in (g : G) : Prop := {
  mi_root : is_Some (g_weight g (px_graph_root p));
  mi_schemas : map_in g (px_schemas p);
  mi_sqls : map_in g (px_extension_sqls p);
  mi_externs : map_in g (px_externs p);
  mi_types : map_in g (px_types p);
  mi_builtin : map_in g (px_builtin_types p);
  mi_enums : map_in g (px_enums p);
  mi_ords : map_in g (px_ords p);
  mi_hashes : map_in g (px_hashes p);
  mi_aggregates : map_in g (px_aggregates p);
  mi_triggers : map_in g (px_triggers p);
}.

Lemma maps_in_same g g' : same_nodes g g' -> maps_in g -> maps_in g'.
Proof. intros Hn []. split; [by rewrite Hn|..]; by eapply map_in_same. Qed.

Lemma schema_target_in g m a : maps_in g -> schema_target p m = Some a -> is_Some (g_weight g a).
Proof. intros Hg. apply hm_find_in, Hg. Qed.

Lemma extern_target_in g path a : maps_in g -> extern_target p path = Some a -> is_Some (g_weight g a).
Proof. intros Hg. apply hm_find_in, Hg. Qed.

Lemma derived_target_in g t a : maps_in g -> derived_target p t = Some a -> is_Some (g_weight g a).
Proof.
  intros Hg. unfold derived_target, find_type_or_enum. destruct (hm_find _ _) as [b|] eqn:Eb.
  - intros [= <-]. eapply hm_find_in; [|exact Eb]; apply Hg.
  - apply hm_find_in, Hg.
Qed.

Lemma graph_target_in g t a : maps_in g ->
  find_graph_type_target t (px_types p) (px_enums p) (px_extension_sqls p) = Some a ->
  is_Some (g_weight g a).
Proof.
  intros Hg. unfold find_graph_type_target.
  destruct (find_type_or_enum _ _ _) as [b|] eqn:Eb.
  - intros [= <-]. by eapply derived_target_in.
  - apply hm_find_in, Hg.
Qed.

Lemma use_target_in g u a : maps_in g -> use_target p u = Some a -> is_Some (g_weight g a).
Proof.
  intros Hg. unfold use_target. destruct (ut_resolution (use_ty u)) as [[t []]|]; [| |done].
  - by apply graph_target_in.
  - intros Hb%hm_get_elem. by eapply mi_builtin.
Qed.

Lemma positioning_target_in g r a : maps_in g -> positioning_target p r = Some a -> is_Some (g_weight g a).
Proof.
  intros Hg. unfold positioning_target, find_positioning_ref_target. destruct r as [path|name].
  - cbn zeta. repeat (destruct (hm_find _ _) eqn:Ef;
      [intros [= <-]; eapply hm_find_in; [|exact Ef]; apply Hg | clear Ef]).
    done.
  - apply hm_find_in, Hg.
Qed.

(** ** The leaves *)

Lemma adds_schema g i m :
  maps_in g -> is_Some (g_weight g i) ->
  adds id g (make_schema_connection g i m (px_schemas p)) (edge_from (schema_target p m) i By)
    (fun _ => True).
Proof. intros Hg Hi. apply adds_edge_from; [|done]. intros a. by apply schema_target_in. Qed.

Lemma adds_extern g i path :
  maps_in g -> is_Some (g_weight g i) ->
  adds id g (make_extern_connection g i path (px_externs p)) (edge_from (extern_target p path) i By)
    (fun _ => is_Some (extern_target p path)).
Proof. intros Hg Hi. apply adds_found; [done| |done]. intros a. by apply extern_target_in. Qed.

Lemma adds_extern_opt g i path f :
  maps_in g -> is_Some (g_weight g i) ->
  adds id g (make_extern_connection_opt g i path f (px_externs p))
    (each_edges (option_list path) (fun v => edge_from (extern_target p (f v)) i By))
    (fun _ => forall v, v ∈ option_list path -> is_Some (extern_target p (f v))).
Proof.
  intros Hg Hi. destruct path as [v|]; cbn [make_extern_connection_opt option_list].
  - eapply adds_weaken; [by apply adds_extern| |].
    + intros ? Hs v' ->%list_elem_of_singleton. exact Hs.
    + intros ? ? a b w. unfold each_edges. split; [intros He; exists v; split; [apply list_elem_of_here|done]|].
      by intros (v' & ->%list_elem_of_singleton & He).
  - apply (adds_weaken id g _ no_edges _ (fun _ => True)); [by apply (adds_ret id g)| |].
    + intros ? ? v Hv. by apply elem_of_nil in Hv.
    + intros ? ? a b w. unfold no_edges, each_edges. split; [done|].
      intros (v & Hv & _). by apply elem_of_nil in Hv.
Qed.

Lemma adds_derived g i t :
  maps_in g -> is_Some (g_weight g i) ->
  adds id g (make_type_or_enum_connection g i t (px_types p) (px_enums p))
    (edge_from (derived_target p t) i By) (fun _ => True).
Proof. intros Hg Hi. apply adds_edge_from; [|done]. intros a. by apply derived_target_in. Qed.

(** The placeholders of the external types are in place. *)
Definition placeholder_ready (u : type_use) : Prop :=
  forall t, ut_resolution (use_ty u) = Some (t, External) -> is_Some (hm_get t (px_builtin_types p)).

Lemma adds_use g i kind name u :
  maps_in g -> is_Some (g_weight g i) -> is_Some (ut_resolution (use_ty u)) -> placeholder_ready u ->
  adds id g (connect_use i (px_types p) (px_enums p) (px_builtin_types p) (px_extension_sqls p)
               kind name g u)
    (edge_from (use_target p u) i (use_requires u)) (fun _ => is_Some (use_target p u)).
Proof.
  intros Hg Hi [[t o] Hr] Hp. unfold connect_use. rewrite Hr. cbn [unwrap mbind outcome_bind].
  pose proof (use_target_in g u) as Hin. unfold use_target in *. rewrite Hr in *.
  destruct o; cbn [connect_resolved_type].
  - apply adds_found; [done| |done]. intros a. by apply Hin.
  - destruct (Hp t Hr) as [b Hb]. rewrite Hb in *.
    eapply adds_weaken; [apply adds_add_edge; [by apply Hin | done]|eauto|].
    intros ? ? x y v. unfold one_edge, edge_from. naive_solver.
Qed.

Lemma adds_uses g i kind name us :
  maps_in g -> is_Some (g_weight g i) ->
  (forall u, u ∈ us -> is_Some (ut_resolution (use_ty u)) /\ placeholder_ready u) ->
  adds id g (fold_outcome (connect_use i (px_types p) (px_enums p) (px_builtin_types p)
               (px_extension_sqls p) kind name) g us)
    (each_edges us (fun u => edge_from (use_target p u) i (use_requires u)))
    (fun _ => forall u, u ∈ us -> is_Some (use_target p u)).
Proof.
  intros Hg Hi Hus. apply adds_each. intros g' u Hu Hn. destruct (Hus u Hu) as [Hr Hp].
  apply adds_use; [by eapply maps_in_same | by rewrite Hn | done | done].
Qed.

(** ** The loops over the maps *)

Definition map_edges {K} (m : hmap K) (D : K -> NodeIndex -> edges) : edges :=
  fun a b w => exists k i, (k, i) ∈ m /\ D k i a b w.

Lemma adds_map {K} (f : G -> K * NodeIndex -> outcome build_error G) g (m : hmap K)
    (D : K -> NodeIndex -> edges) (P : K -> NodeIndex -> Prop) :
  maps_in g -> map_in g m ->
  (forall g' k i, (k, i) ∈ m -> maps_in g' -> is_Some (g_weight g' i) ->
    adds id g' (f g' (k, i)) (D k i) (fun _ => P k i)) ->
  adds id g (fold_outcome f g (hash_order m)) (map_edges m D)
    (fun _ => forall k i, (k, i) ∈ m -> P k i).
Proof.
  intros Hg Hm Hstep. eapply adds_weaken;
    [apply (adds_each f g (hash_order m) (fun '(k, i) => D k i) (fun '(k, i) => P k i))| |].
  - intros g' [k i] Hk Hn. rewrite elem_of_hash_order in Hk.
    apply Hstep; [done | by eapply maps_in_same | rewrite Hn; by eapply Hm].
  - intros ? HP k i Hk. rewrite <- elem_of_hash_order in Hk. by apply (HP (k, i)).
  - intros ? ? a b w. unfold each_edges, map_edges. split.
    + intros ([k i] & Hk & Hd). rewrite elem_of_hash_order in Hk. eauto.
    + intros (k & i & Hk & Hd). exists (k, i). by rewrite elem_of_hash_order.
Qed.

Lemma connect_schemas_adds g :
  maps_in g ->
  adds id g (connect_schemas g (px_schemas p) (px_graph_root p))
    (map_edges (px_schemas p) (fun _ i => one_edge (px_graph_root p) i By))
    (fun _ => forall s i, (s, i) ∈ px_schemas p -> True).
Proof.
  intros Hg. apply adds_map; [done | apply Hg |]. intros g' k i _ Hg' Hi.
  apply adds_add_edge; [apply Hg' | done].
Qed.

Lemma connect_sqls_adds g :
  maps_in g ->
  adds id g (connect_extension_sqls g (px_extension_sqls p) (px_schemas p) (px_types p) (px_enums p)
               (px_externs p) (px_triggers p))
    (map_edges (px_extension_sqls p) (fun item i =>
       join_edges (edge_from (schema_target p (sql_module_path item)) i By)
         (each_edges (sql_requires item) (fun r => edge_from (positioning_target p r) i By))))
    (fun _ => forall item i, (item, i) ∈ px_extension_sqls p ->
       forall r, r ∈ sql_requires item -> is_Some (positioning_target p r)).
Proof.
  intros Hg. apply adds_map; [done | apply Hg |]. intros g' item i _ Hg' Hi.
  eapply adds_bind; [by apply adds_schema|]. intros g1 Hn1 _. apply adds_each.
  intros g2 r Hr Hn2. pose proof (maps_in_same _ _ Hn1 Hg') as Hg1.
  pose proof (maps_in_same _ _ Hn2 Hg1) as Hg2. apply adds_found; [done| |by rewrite Hn2, Hn1].
  intros a. by apply positioning_target_in.
Qed.

Lemma connect_enums_adds g :
  maps_in g ->
  adds id g (connect_enums g (px_enums p) (px_schemas p))
    (map_edges (px_enums p) (fun item i => edge_from (schema_target p (enum_module_path item)) i By))
    (fun _ => forall item i, (item, i) ∈ px_enums p -> True).
Proof.
  intros Hg. apply adds_map; [done | apply Hg |]. intros g' item i _ Hg' Hi. by apply adds_schema.
Qed.

Lemma connect_triggers_adds g :
  maps_in g ->
  adds id g (connect_triggers g (px_triggers p) (px_schemas p))
    (map_edges (px_triggers p) (fun item i => edge_from (schema_target p (trg_module_path item)) i By))
    (fun _ => forall item i, (item, i) ∈ px_triggers p -> True).
Proof.
  intros Hg. apply adds_map; [done | apply Hg |]. intros g' item i _ Hg' Hi. by apply adds_schema.
Qed.

(** The functions of a type and of an aggregate, as one loop. *)
Definition connect_functions (i : NodeIndex) (g : G) (paths : list string) : outcome build_error G :=
  fold_outcome (fun g path => make_extern_connection g i path (px_externs p)) g paths.

Lemma bind_ok_r {E A} (m : outcome E A) : m ≫= Ok = m.
Proof. by destruct m. Qed.

Lemma connect_functions_opt i g v f :
  make_extern_connection_opt g i v f (px_externs p)
  = connect_functions i g (map f (option_list v)).
Proof. destruct v; cbn; [by rewrite bind_ok_r | done]. Qed.

Lemma connect_type_loop g item i :
  connect_type (px_schemas p) (px_externs p) g (item, i)
  = (g ← make_schema_connection g i (type_module_path item) (px_schemas p);
     connect_functions i g (type_functions item)).
Proof.
  cbn [connect_type]. destruct (make_schema_connection _ _ _ _) as [g1| |]; [|done|done].
  cbn [mbind outcome_bind]. unfold connect_functions, type_functions. cbn [map fold_outcome].
  rewrite map_app. destruct (make_extern_connection g1 _ _ _) as [g2| |]; [|done|done].
  cbn [mbind outcome_bind]. destruct (make_extern_connection g2 _ _ _) as [g3| |]; [|done|done].
  cbn [mbind outcome_bind]. rewrite fold_outcome_app, connect_functions_opt.
  unfold connect_functions. destruct (fold_outcome _ g3 _) as [g4| |]; [|done|done].
  cbn [mbind outcome_bind]. by rewrite connect_functions_opt.
Qed.

Lemma connect_aggregate_functions_loop g i item fs :
  fold_outcome (fun g path =>
    make_extern_connection_opt g i path
      (fun value => agg_module_path item +:+ "::" +:+ value) (px_externs p)) g fs
  = connect_functions i g
      (map (fun value => agg_module_path item +:+ "::" +:+ value) (omap id fs)).
Proof.
  revert g. induction fs as [|[v|] fs IH]; intros g; [done| |]; cbn.
  - destruct (make_extern_connection _ _ _ _); cbn; [apply IH | done | done].
  - apply IH.
Qed.

Lemma adds_functions g i paths :
  maps_in g -> is_Some (g_weight g i) ->
  adds id g (connect_functions i g paths)
    (each_edges paths (fun path => edge_from (extern_target p path) i By))
    (fun _ => forall path, path ∈ paths -> is_Some (extern_target p path)).
Proof.
  intros Hg Hi. apply adds_each. intros g' path _ Hn.
  apply adds_extern; [by eapply maps_in_same | by rewrite Hn].
Qed.

Lemma connect_types_adds g :
  maps_in g ->
  adds id g (connect_types g (px_types p) (px_schemas p) (px_externs p))
    (map_edges (px_types p) (fun item i =>
       join_edges (edge_from (schema_target p (type_module_path item)) i By)
         (each_edges (type_functions item) (fun path => edge_from (extern_target p path) i By))))
    (fun _ => forall item i, (item, i) ∈ px_types p ->
       forall path, path ∈ type_functions item -> is_Some (extern_target p path)).
Proof.
  intros Hg. apply adds_map; [done | apply Hg |]. intros g' item i _ Hg' Hi.
  rewrite connect_type_loop. eapply (adds_bind id id); [by apply adds_schema|]. intros g1 Hn1 _.
  apply adds_functions; [by eapply maps_in_same | by rewrite Hn1].
Qed.

Lemma connect_aggregates_adds g :
  maps_in g ->
  (forall item i u, (item, i) ∈ px_aggregates p -> u ∈ aggregate_uses item -> placeholder_ready u) ->
  adds id g (connect_aggregates g (px_aggregates p) (px_schemas p) (px_types p) (px_enums p)
               (px_builtin_types p) (px_externs p) (px_extension_sqls p))
    (map_edges (px_aggregates p) (fun item i =>
       join_edges (edge_from (schema_target p (agg_module_path item)) i By)
         (join_edges
           (each_edges (aggregate_uses item) (fun u => edge_from (use_target p u) i (use_requires u)))
           (each_edges (aggregate_function_paths item) (fun path => edge_from (extern_target p path) i By)))))
    (fun _ => forall item i, (item, i) ∈ px_aggregates p ->
       (forall u, u ∈ aggregate_uses item -> is_Some (use_target p u))
       /\ (forall path, path ∈ aggregate_function_paths item -> is_Some (extern_target p path))).
Proof.
  intros Hg Hready. apply adds_map; [done | apply Hg |]. intros g' item i Hitem Hg' Hi.
  cbn [connect_aggregate]. eapply (adds_bind id id); [by apply adds_schema|]. intros g1 Hn1 _.
  cbn [id] in Hn1. pose proof (maps_in_same _ _ Hn1 Hg') as Hg1.
  pose proof (same_nodes_some _ _ _ Hn1 Hi) as Hi1. fold (aggregate_uses item).
  eapply (adds_bind id id).
  - apply adds_uses; [done | done |]. intros u Hu. split; [|by eapply Hready].
    apply (aggregate_uses_resolved item). unfold aggregate_uses in Hu.
    rewrite !elem_of_app in Hu. done.
  - intros g2 Hn2 Huses. cbn [id] in *. rewrite connect_aggregate_functions_loop.
    eapply adds_weaken; [apply adds_functions; [by eapply maps_in_same | by rewrite Hn2]| |done].
    intros ? Hf. split; [exact Huses | exact Hf].
Qed.

(** A loop that adds an edge for the entries that pass a test. *)
Lemma adds_when {K} g (m : hmap K) (test : K -> bool) (source target : NodeIndex -> NodeIndex) :
  (forall k j, (k, j) ∈ m -> is_Some (g_weight g (source j)) /\ is_Some (g_weight g (target j))) ->
  adds id g (fold_outcome (fun g '(k, j) =>
               if test k then add_edge g (source j) (target j) By else Ok g) g (hash_order m))
    (map_edges m (fun k j a b w => test k = true /\ one_edge (source j) (target j) By a b w))
    (fun _ => True).
Proof.
  intros Hm. eapply adds_weaken.
  - apply (adds_each _ g (hash_order m) (fun '(k, j) a b w =>
      test k = true /\ one_edge (source j) (target j) By a b w) (fun _ => True)).
    intros g' [k j] Hk Hn. rewrite elem_of_hash_order in Hk. destruct (Hm k j Hk) as [Hs Ht].
    destruct (test k).
    + eapply adds_weaken; [apply adds_add_edge; by rewrite Hn|done|]. intros ? ? a b w. tauto.
    + apply (adds_weaken id g' _ no_edges _ (fun _ => True)); [by apply (adds_ret id g')|done|].
      intros ? ? a b w. unfold no_edges. naive_solver.
  - done.
  - intros ? ? a b w. unfold each_edges, map_edges. split.
    + intros ([k j] & Hk & Hd). rewrite elem_of_hash_order in Hk. eauto.
    + intros (k & j & Hk & Hd). exists (k, j). by rewrite elem_of_hash_order.
Qed.

Lemma connect_ords_adds g :
  maps_in g ->
  adds id g (connect_ords to_lowercase g (px_ords p) (px_schemas p) (px_types p) (px_enums p)
               (px_externs p))
    (map_edges (px_ords p) (fun item i =>
       join_edges (edge_from (schema_target p (ord_module_path item)) i By)
         (join_edges (edge_from (derived_target p (ord_type_ident item)) i By)
           (map_edges (px_externs p) (fun e j a b w =>
              is_ord_function to_lowercase item e = true /\ one_edge j i By a b w)))))
    (fun _ => forall item i, (item, i) ∈ px_ords p -> True).
Proof.
  intros Hg. apply adds_map; [done | apply Hg |]. intros g' item i _ Hg' Hi. cbn [connect_ord].
  eapply (adds_bind id id); [by apply adds_schema|]. intros g1 Hn1 _. cbn [id] in *.
  pose proof (maps_in_same _ _ Hn1 Hg') as Hg1. pose proof (same_nodes_some _ _ _ Hn1 Hi) as Hi1.
  eapply (adds_bind id id); [by apply adds_derived|]. intros g2 Hn2 _. cbn [id] in *.
  pose proof (maps_in_same _ _ Hn2 Hg1) as Hg2. pose proof (same_nodes_some _ _ _ Hn2 Hi1) as Hi2.
  apply (adds_when g2 (px_externs p) (is_ord_function to_lowercase item) (fun j => j) (fun _ => i)).
  intros e j He. split; [by eapply (mi_externs _ Hg2) | done].
Qed.

Lemma connect_hashes_adds g :
  maps_in g ->
  adds id g (connect_hashes to_lowercase g (px_hashes p) (px_schemas p) (px_types p) (px_enums p)
               (px_externs p))
    (map_edges (px_hashes p) (fun item i =>
       join_edges (edge_from (schema_target p (hash_module_path item)) i By)
         (join_edges (edge_from (derived_target p (hash_type_ident item)) i By)
           (edge_from (hash_fn_target to_lowercase p item) i By))))
    (fun _ => forall item i, (item, i) ∈ px_hashes p -> True).
Proof.
  intros Hg. apply adds_map; [done | apply Hg |]. intros g' item i _ Hg' Hi. cbn [connect_hash].
  eapply (adds_bind id id); [by apply adds_schema|]. intros g1 Hn1 _. cbn [id] in *.
  pose proof (maps_in_same _ _ Hn1 Hg') as Hg1. pose proof (same_nodes_some _ _ _ Hn1 Hi) as Hi1.
  eapply (adds_bind id id); [by apply adds_derived|]. intros g2 Hn2 _. cbn [id] in *.
  pose proof (maps_in_same _ _ Hn2 Hg1) as Hg2.
  apply adds_edge_from; [|by rewrite Hn2]. intros a. apply hm_find_in, Hg2.
Qed.

(** ** Functions *)

Definition attr_edges (i : NodeIndex) (attr : ExternArgs) : edges :=
  match attr with
  | Requires rs => each_edges rs (fun r => edge_from (positioning_target p r) i By)
  | Support r => edge_from (positioning_target p r) i By
  | Schema name => map_edges (px_schemas p) (fun s j a b w =>
      schema_name s = name /\ one_edge j i By a b w)
  | _ => no_edges
  end.

Definition attr_resolves (attr : ExternArgs) : Prop :=
  match attr with
  | Requires rs => forall r, r ∈ rs -> is_Some (positioning_target p r)
  | _ => True
  end.

Definition is_schema_attr (attr : ExternArgs) : bool :=
  match attr with Schema _ => true | _ => false end.

(** The inner loop of a [Schema] attribute. *)
Lemma declared_schema_adds g i name found :
  maps_in g -> is_Some (g_weight g i) ->
  adds fst g (fold_outcome (fun (st : G * bool) '(schema, schema_index) =>
               if bool_decide (schema_name schema = name)
               then g ← add_edge (fst st) schema_index i By; Ok (g, true)
               else Ok st) (g, found) (hash_order (px_schemas p)))
    (attr_edges i (Schema name)) (fun _ => True).
Proof.
  intros Hg Hi. eapply adds_weaken.
  - apply (adds_fold fst _ (g, found) (hash_order (px_schemas p))
      (fun '(s, j) a b w => schema_name s = name /\ one_edge j i By a b w) (fun _ _ => True)); [done|].
    intros st done [s j] Hs Hn _. rewrite elem_of_hash_order in Hs. cbn [fst] in Hn.
    destruct (bool_decide_reflect (schema_name s = name)) as [Hname|Hname].
    + eapply adds_weaken.
      * eapply (adds_bind id fst); [apply adds_add_edge|].
        -- rewrite Hn. by eapply (mi_schemas _ Hg).
        -- by rewrite Hn.
        -- intros g' _ _. by apply (adds_ret fst (g', true) (fun _ => True)).
      * done.
      * intros ? ? a b w. unfold join_edges, no_edges. tauto.
    + apply (adds_weaken fst (fst st) _ no_edges _ (fun _ => True));
        [by apply (adds_ret fst st)|done|].
      intros ? ? a b w. unfold no_edges. naive_solver.
  - done.
  - intros st ? a b w. unfold each_edges. cbn [attr_edges]. unfold map_edges. split.
    + intros ([s j] & Hs & Hd). rewrite elem_of_hash_order in Hs. eauto.
    + intros (s & j & Hs & Hd). exists (s, j). by rewrite elem_of_hash_order.
Qed.

Lemma connect_extern_attr_adds g i found attr :
  maps_in g -> is_Some (g_weight g i) ->
  adds fst g (connect_extern_attr (px_types p) (px_enums p) (px_externs p) (px_schemas p)
                (px_extension_sqls p) (px_triggers p) i (g, found) attr)
    (attr_edges i attr)
    (fun st => attr_resolves attr /\ st.2 = found || is_schema_attr attr).
Proof.
  intros Hg Hi.
  assert (Hnone : adds fst g (Ok (g, found)) no_edges
    (fun st => True /\ st.2 = found || false)).
  { apply (adds_ret fst (g, found)). by rewrite orb_false_r. }
  destruct attr; try exact Hnone; cbn [connect_extern_attr].
  - eapply adds_weaken.
    + eapply (adds_bind fst fst); [by apply declared_schema_adds|].
      intros [g1 found1] _ _. cbv beta iota. destruct found1.
      * by apply (adds_ret fst (g1, true) (fun st => st.2 = true)).
      * by apply adds_err.
    + intros st Hst. cbn. split; [done|]. by rewrite orb_true_r.
    + intros ? ? a b w. unfold join_edges, no_edges. tauto.
  - eapply adds_weaken.
    + eapply (adds_bind id fst).
      * apply adds_edge_from; [|done]. intros a. by apply positioning_target_in.
      * intros g1 _ _. by apply (adds_ret fst (g1, found) (fun st => st.2 = found)).
    + intros st Hst. cbn. by rewrite orb_false_r.
    + intros ? ? a b w. unfold join_edges, no_edges. cbn. tauto.
  - eapply adds_weaken.
    + eapply (adds_bind id fst).
      * apply adds_each. intros g1 r Hr Hn. pose proof (maps_in_same _ _ Hn Hg) as Hg1.
        apply adds_found; [done| |by rewrite Hn]. intros a. by apply positioning_target_in.
      * intros g1 _ Hall.
        apply (adds_ret fst (g1, found) (fun st => attr_resolves (Requires items) /\ st.2 = found)).
        done.
    + intros st [Ha Hst]. split; [exact Ha|]. cbn. by rewrite orb_false_r.
    + intros ? ? a b w. unfold join_edges, no_edges. cbn. tauto.
Qed.

Lemma connect_extern_attrs_adds g i attrs :
  maps_in g -> is_Some (g_weight g i) ->
  adds fst g (fold_outcome (connect_extern_attr (px_types p) (px_enums p) (px_externs p)
                (px_schemas p) (px_extension_sqls p) (px_triggers p) i) (g, false) attrs)
    (each_edges attrs (attr_edges i))
    (fun st => (forall attr, attr ∈ attrs -> attr_resolves attr)
               /\ st.2 = existsb is_schema_attr attrs).
Proof.
  intros Hg Hi. apply (adds_fold fst _ (g, false) attrs (attr_edges i)
    (fun st done => (forall attr, attr ∈ done -> attr_resolves attr)
                    /\ st.2 = existsb is_schema_attr done)).
  - split; [|done]. intros attr Ha. by apply elem_of_nil in Ha.
  - intros [g' found] done attr Ha Hn [Hdone Hfound]. cbn [fst snd] in *.
    eapply adds_weaken; [apply connect_extern_attr_adds; [by eapply maps_in_same | by rewrite Hn]| |done].
    intros st [Hr Hst]. split.
    + intros a. rewrite elem_of_app, list_elem_of_singleton. intros [Hin| ->]; auto.
    + rewrite Hst, Hfound, existsb_app. cbn. by rewrite orb_false_r.
Qed.

Definition extern_edges (item : PgExternEntity) (i : NodeIndex) : edges :=
  join_edges (each_edges (fn_extern_attrs item) (attr_edges i))
    (join_edges (fun a b w => has_schema_attr item = false
                   /\ edge_from (schema_target p (fn_module_path item)) i By a b w)
      (join_edges (map_edges (px_hashes p) (fun h j a b w =>
                     is_eq_of_hash to_lowercase item h = true /\ one_edge i j By a b w))
        (each_edges (function_uses item) (fun u => edge_from (use_target p u) i (use_requires u))))).

Lemma connect_externs_adds g :
  maps_in g ->
  (forall item i u, (item, i) ∈ px_externs p -> u ∈ function_uses item -> placeholder_ready u) ->
  adds id g (connect_externs to_lowercase g (px_externs p) (px_hashes p) (px_schemas p) (px_types p)
               (px_enums p) (px_builtin_types p) (px_extension_sqls p) (px_triggers p))
    (map_edges (px_externs p) extern_edges)
    (fun _ => forall item i, (item, i) ∈ px_externs p ->
       (forall attr, attr ∈ fn_extern_attrs item -> attr_resolves attr)
       /\ (forall u, u ∈ function_uses item -> is_Some (use_target p u))).
Proof.
  intros Hg Hready. apply adds_map; [done | apply Hg |]. intros g' item i Hitem Hg' Hi.
  cbn [connect_extern]. eapply (adds_bind fst id); [by apply connect_extern_attrs_adds|].
  intros [g1 found] Hn1 [Hattrs Hfound]. cbn [fst snd] in *.
  pose proof (maps_in_same _ _ Hn1 Hg') as Hg1. pose proof (same_nodes_some _ _ _ Hn1 Hi) as Hi1.
  eapply (adds_bind id id _ _ _ _ _ (fun _ => True)).
  { rewrite Hfound. change (existsb is_schema_attr (fn_extern_attrs item)) with (has_schema_attr item).
    destruct (has_schema_attr item); cbn [negb].
    - apply (adds_weaken id g1 _ no_edges _ (fun _ => True)); [by apply (adds_ret id g1)|done|].
      intros ? ? a b w. unfold no_edges. naive_solver.
    - eapply adds_weaken; [by apply adds_schema|done|]. intros ? ? a b w. tauto. }
  intros g2 Hn2 _. cbn [id] in *.
  pose proof (maps_in_same _ _ Hn2 Hg1) as Hg2. pose proof (same_nodes_some _ _ _ Hn2 Hi1) as Hi2.
  eapply (adds_bind id id).
  { apply (adds_when g2 (px_hashes p) (is_eq_of_hash to_lowercase item) (fun _ => i) (fun j => j)).
    intros h j Hh. split; [done | by eapply (mi_hashes _ Hg2)]. }
  intros g3 Hn3 _. cbn [id] in *. eapply adds_weaken; [apply adds_uses| |done].
  - by eapply maps_in_same.
  - by rewrite Hn3.
  - intros u Hu. split; [by eapply function_uses_resolved | by eapply Hready].
  - intros ? Huses. split; [exact Hattrs | exact Huses].
Qed.

(** ** The whole phase *)

Definition root_edges : edges :=
  map_edges (px_schemas p) (fun _ i => one_edge (px_graph_root p) i By).

Definition all_edges : edges :=
  join_edges root_edges
  (join_edges (map_edges (px_extension_sqls p) (fun item i =>
       join_edges (edge_from (schema_target p (sql_module_path item)) i By)
         (each_edges (sql_requires item) (fun r => edge_from (positioning_target p r) i By))))
  (join_edges (map_edges (px_enums p) (fun item i => edge_from (schema_target p (enum_module_path item)) i By))
  (join_edges (map_edges (px_types p) (fun item i =>
       join_edges (edge_from (schema_target p (type_module_path item)) i By)
         (each_edges (type_functions item) (fun path => edge_from (extern_target p path) i By))))
  (join_edges (map_edges (px_externs p) extern_edges)
  (join_edges (map_edges (px_ords p) (fun item i =>
       join_edges (edge_from (schema_target p (ord_module_path item)) i By)
         (join_edges (edge_from (derived_target p (ord_type_ident item)) i By)
           (map_edges (px_externs p) (fun e j a b w =>
              is_ord_function to_lowercase item e = true /\ one_edge j i By a b w)))))
  (join_edges (map_edges (px_hashes p) (fun item i =>
       join_edges (edge_from (schema_target p (hash_module_path item)) i By)
         (join_edges (edge_from (derived_target p (hash_type_ident item)) i By)
           (edge_from (hash_fn_target to_lowercase p item) i By))))
  (join_edges (map_edges (px_aggregates p) (fun item i =>
       join_edges (edge_from (schema_target p (agg_module_path item)) i By)
         (join_edges
           (each_edges (aggregate_uses item) (fun u => edge_from (use_target p u) i (use_requires u)))
           (each_edges (aggregate_function_paths item) (fun path => edge_from (extern_target p path) i By)))))
  (map_edges (px_triggers p) (fun item i => edge_from (schema_target p (trg_module_path item)) i By))))))))).

Lemma all_edges_depends a b w : all_edges a b w <-> root_edges a b w \/ depends to_lowercase p a b w.
Proof.
  unfold all_edges, join_edges, each_edges, edge_from, one_edge. split.
  - intros [Hr|Hd]; [by left|]. right.
    repeat destruct Hd as [Hd|Hd]; destruct Hd as (item & i & Hitem & Hd).
    + destruct Hd as [(Ha & -> & ->)|(r & Hr & Ha & -> & ->)].
      * by eapply dep_sql_schema.
      * by eapply dep_sql_requires.
    + destruct Hd as (Ha & -> & ->). by eapply dep_enum_schema.
    + destruct Hd as [(Ha & -> & ->)|(r & Hr & Ha & -> & ->)].
      * by eapply dep_type_schema.
      * by eapply dep_type_function.
    + destruct Hd as [(attr & Hattr & Hd)|[(Hs & Ha & -> & ->)|[(h & j & Hh & He & -> & -> & ->)|
        (u & Hu & Ha & -> & ->)]]].
      * destruct attr; cbn in Hd; try done.
        -- destruct Hd as (s & j & Hs & <- & -> & -> & ->). by eapply dep_extern_declared_schema.
        -- destruct Hd as (Ha & -> & ->). by eapply dep_extern_support.
        -- destruct Hd as (r & Hr & Ha & -> & ->). by eapply dep_extern_requires.
      * by eapply dep_extern_schema.
      * by eapply dep_extern_hash.
      * by eapply dep_extern_type.
    + destruct Hd as [(Ha & -> & ->)|[(Ha & -> & ->)|(e & j & He & Hf & -> & -> & ->)]].
      * by eapply dep_ord_schema.
      * by eapply dep_ord_type.
      * by eapply dep_ord_function.
    + destruct Hd as [(Ha & -> & ->)|[(Ha & -> & ->)|(Ha & -> & ->)]].
      * by eapply dep_hash_schema.
      * by eapply dep_hash_type.
      * by eapply dep_hash_function.
    + destruct Hd as [(Ha & -> & ->)|[(u & Hu & Ha & -> & ->)|(f & Hf & Ha & -> & ->)]].
      * by eapply dep_aggregate_schema.
      * by eapply dep_aggregate_type.
      * by eapply dep_aggregate_function.
    + destruct Hd as (Ha & -> & ->). by eapply dep_trigger_schema.
  - intros [Hr|Hd]; [by left|]. right. unfold extern_edges, join_edges, map_edges, each_edges,
      edge_from, one_edge.
    destruct Hd.
    1-2: left; eexists _, _; (split; [eassumption|]); eauto 8.
    1: do 1 right; left; eexists _, _; (split; [eassumption|]); eauto.
    1-2: do 2 right; left; eexists _, _; (split; [eassumption|]); eauto 8.
    1-6: do 3 right; left; eexists _, _; (split; [eassumption|]).
    1-3: left; eexists; (split; [eassumption|]); cbn;
      unfold each_edges, map_edges, edge_from, one_edge; solve [eauto 8].
    1: right; left; solve [eauto].
    1: right; right; left; eauto 10.
    1: do 3 right; eauto.
    1-3: do 4 right; left; eexists _, _; (split; [eassumption|]); eauto 10.
    1-3: do 5 right; left; eexists _, _; (split; [eassumption|]); eauto.
    1-3: do 6 right; left; eexists _, _; (split; [eassumption|]); eauto 8.
    do 7 right. eauto 12.
Qed.

Lemma build_edges_adds :
  maps_in (px_graph p) ->
  (forall item i u, (item, i) ∈ px_externs p -> u ∈ function_uses item -> placeholder_ready u) ->
  (forall item i u, (item, i) ∈ px_aggregates p -> u ∈ aggregate_uses item -> placeholder_ready u) ->
  adds id (px_graph p) (build_edges to_lowercase p)
    (fun a b w => root_edges a b w \/ depends to_lowercase p a b w) (fun _ => references_resolve p).
Proof.
  intros Hg Hx Ha.
  assert (Hall : adds id (px_graph p) (build_edges to_lowercase p) all_edges
    (fun _ => references_resolve p)).
  { unfold build_edges, all_edges. cbn zeta.
    eapply (adds_bind id id); [by apply connect_schemas_adds|]. intros g1 Hn1 _.
    pose proof (maps_in_same _ _ Hn1 Hg) as Hg1. cbn [id] in *.
    eapply (adds_bind id id); [by apply connect_sqls_adds|]. intros g2 Hn2 Hsqls.
    pose proof (maps_in_same _ _ Hn2 Hg1) as Hg2. cbn [id] in *.
    eapply (adds_bind id id); [by apply connect_enums_adds|]. intros g3 Hn3 _.
    pose proof (maps_in_same _ _ Hn3 Hg2) as Hg3. cbn [id] in *.
    eapply (adds_bind id id); [by apply connect_types_adds|]. intros g4 Hn4 Htypes.
    pose proof (maps_in_same _ _ Hn4 Hg3) as Hg4. cbn [id] in *.
    eapply (adds_bind id id); [by apply connect_externs_adds|]. intros g5 Hn5 Hexterns.
    pose proof (maps_in_same _ _ Hn5 Hg4) as Hg5. cbn [id] in *.
    eapply (adds_bind id id); [by apply connect_ords_adds|]. intros g6 Hn6 _.
    pose proof (maps_in_same _ _ Hn6 Hg5) as Hg6. cbn [id] in *.
    eapply (adds_bind id id); [by apply connect_hashes_adds|]. intros g7 Hn7 _.
    pose proof (maps_in_same _ _ Hn7 Hg6) as Hg7. cbn [id] in *.
    eapply (adds_bind id id); [by apply connect_aggregates_adds|]. intros g8 Hn8 Haggs.
    pose proof (maps_in_same _ _ Hn8 Hg7) as Hg8. cbn [id] in *.
    eapply adds_weaken; [by apply connect_triggers_adds| |done]. intros ? _.
    split.
    - intros item i r Hi. by apply (Hsqls item i).
    - intros item i path Hi. by apply (Htypes item i).
    - intros item i rs r Hi Hattr. destruct (Hexterns item i Hi) as [Hattrs _].
      by apply (Hattrs _ Hattr).
    - intros item i u Hi. destruct (Hexterns item i Hi) as [_ Hu]. apply Hu.
    - intros item i u Hi. destruct (Haggs item i Hi) as [Hu _]. apply Hu.
    - intros item i path Hi. destruct (Haggs item i Hi) as [_ Hf]. apply Hf. }
  eapply adds_weaken; [exact Hall|done|]. intros ? ? a b w. apply all_edges_depends.
Qed.

End Proofs.
