(* ===== verification/Initialize.v ===== *)
(** * What the initialization phase establishes

    For the [initialize_*] functions of [pgrx_sql.rs]: every entity gets a node
    and its base edges (after the root and the bootstrap block, before the
    finalize block), there is at most one bootstrap and one finalize block, and
    the placeholders of external types are in place. *)
From S2P Require Import Prelude Metadata Entities EntityOrd Producers Graph Lookup Build BuildLogic Connect.
From stdpp Require Import list gmap strings.
#[local] Set Warnings "-clear-no-such-hyp".

Lemma hm_insert_other `{EqDecision K} (k k' : K) v v' (m : hmap K) :
  k' <> k -> (k', v') ∈ m -> (k', v') ∈ hm_insert k v m.
Proof.
  intros Hne. induction m as [|[a b] m IH]; cbn; intros Hin; [by apply elem_of_nil in Hin|].
  apply elem_of_cons in Hin as [[= <- <-]|Hin]; case_decide as Ha; try done.
  - apply list_elem_of_here.
  - by apply list_elem_of_further.
  - by apply list_elem_of_further, IH.
Qed.

Lemma hm_get_key `{EqDecision K} (k : K) (m : hmap K) : is_Some (hm_get k m) <-> k ∈ map fst m.
Proof.
  induction m as [|[a b] m IH]; cbn; [by rewrite elem_of_nil; split; [intros []|]|].
  rewrite elem_of_cons, <- IH. case_decide as Ha; [subst; split; eauto|].
  split; [auto|]. by intros [->|?].
Qed.

Section Init.
Context {G : Type} `{StableGraphLaws G} `{HashOrder}.

(** [g'] keeps the nodes and edges of [g]. *)
Record extends (g g' : G) : Prop := {
  ex_weight : forall i e, g_weight g i = Some e -> g_weight g' i = Some e;
  ex_edge : forall a b w, has_edge g a b w -> has_edge g' a b w;
}.

#[global] Instance extends_preorder : PreOrder extends.
Proof.
  split.
  - intros g. by split.
  - intros g1 g2 g3 [] []. split; eauto.
Qed.

Lemma added_extends g g' D : added g g' D -> extends g g'.
Proof.
  intros [Hn He]. split; [intros i e; by rewrite Hn|]. intros a b w Hab. apply He. auto.
Qed.

Lemma add_node_extends e g i g' : g_add_node e g = (i, g') ->
  extends g g' /\ g_weight g' i = Some e /\ g_weight g i = None.
Proof.
  intros Ha. pose proof (add_node_fresh _ _ _ _ Ha) as Hf.
  pose proof (add_node_weight _ _ _ _ Ha) as Hw. split; [|split; [|done]].
  - split.
    + intros j e' Hj. rewrite Hw. case_decide; [congruence | done].
    + intros a b w. by apply (add_node_edges _ _ _ _ Ha).
  - rewrite Hw. by rewrite decide_True.
Qed.

(** ** Base edges *)

Section Base.
Variable (root : NodeIndex) (bootstrap finalize : option NodeIndex) (mapped_sqls : hmap ExtensionSqlEntity).

(** The nodes that get an edge from the root (a schema gets it later), from the bootstrap
    block and to the finalize block.  The [extension_sql!] blocks are those of the map. *)
Definition rooted (g : G) (i : NodeIndex) : Prop :=
  exists e, g_weight g i = Some e /\
    match e with
    | Entity_ExtensionRoot _ | Entity_BuiltinType _ | Entity_Schema _ => False
    | Entity_CustomSql s => (s, i) ∈ mapped_sqls
    | _ => True
    end.
Definition booted (g : G) (i : NodeIndex) : Prop :=
  exists e, g_weight g i = Some e /\
    match e with
    | Entity_ExtensionRoot _ | Entity_BuiltinType _ => False
    | Entity_CustomSql s => (s, i) ∈ mapped_sqls /\ sql_bootstrap s = false
    | _ => True
    end.
Definition finished (g : G) (i : NodeIndex) : Prop :=
  exists e, g_weight g i = Some e /\
    match e with
    | Entity_ExtensionRoot _ | Entity_BuiltinType _ => False
    | Entity_CustomSql s => (s, i) ∈ mapped_sqls /\ sql_finalize s = false
    | _ => True
    end.

Definition base_form (g : G) (a b : NodeIndex) (w : SqlGraphRequires) : Prop :=
  b <> root /\ w = By
  /\ (a = root /\ rooted g b \/ bootstrap = Some a /\ booted g b \/ finalize = Some b /\ finished g a).

Lemma base_form_weights g g' a b w :
  (forall i e, g_weight g i = Some e -> g_weight g' i = Some e) -> base_form g a b w -> base_form g' a b w.
Proof.
  intros Hw (Hne & -> & Hf). split; [done|]. split; [done|]. unfold rooted, booted, finished in *.
  destruct Hf as [[-> (e & He & Hk)]|[[Ha (e & He & Hk)]|[Hb (e & He & Hk)]]]; [left|right; left|right; right]; eauto 10.
Qed.

(** The edges so far join nodes, explicitly, and only for the base order. *)
Record base_inv (g : G) : Prop := {
  bi_root : exists c, g_weight g root = Some (Entity_ExtensionRoot c);
  bi_bootstrap : forall b, bootstrap = Some b -> is_Some (g_weight g b) /\ b <> root;
  bi_finalize : forall f, finalize = Some f -> is_Some (g_weight g f) /\ f <> root;
  bi_edges : forall a b w, has_edge g a b w ->
    is_Some (g_weight g a) /\ is_Some (g_weight g b) /\ base_form g a b w;
}.

(** The base edges of a node: what comes before it and after it. *)
Record after_bootstrap (g : G) (i : NodeIndex) : Prop := {
  ab_bootstrap : forall b, bootstrap = Some b -> has_edge g b i By;
  ab_finalize : forall f, finalize = Some f -> has_edge g i f By;
}.

Definition based (g : G) (i : NodeIndex) : Prop := has_edge g root i By /\ after_bootstrap g i.

Lemma after_bootstrap_extends g g' i : extends g g' -> after_bootstrap g i -> after_bootstrap g' i.
Proof. intros [] []. split; eauto. Qed.

Lemma based_extends g g' i : extends g g' -> based g i -> based g' i.
Proof. intros He [Hr Ha]. split; [by apply He | by eapply after_bootstrap_extends]. Qed.

(** What a node other than a block gets, and that every node which is new in [g'] got it. *)
Definition has_base (g : G) (i : NodeIndex) (e : SqlGraphEntity) : Prop :=
  match e with
  | Entity_ExtensionRoot _ | Entity_BuiltinType _ | Entity_CustomSql _ => True
  | Entity_Schema _ => after_bootstrap g i
  | _ => based g i
  end.
Definition new_based (g g' : G) : Prop :=
  forall i e, g_weight g' i = Some e -> g_weight g i = Some e \/ has_base g' i e.

Lemma has_base_extends g g' i e : extends g g' -> has_base g i e -> has_base g' i e.
Proof. intros He. destruct e; cbn; try done; first [by apply after_bootstrap_extends|by apply based_extends]. Qed.

Lemma new_based_trans g1 g2 g3 : extends g2 g3 -> new_based g1 g2 -> new_based g2 g3 -> new_based g1 g3.
Proof.
  intros He H12 H23 i e Hi. destruct (H23 i e Hi) as [Hi2|]; [|by right]. destruct (H12 i e Hi2) as [|Hb]; [by left|].
  right. by eapply has_base_extends.
Qed.

Lemma new_based_refl g : new_based g g.
Proof. intros i e Hi. by left. Qed.

(** A node that is added, and based later. *)
Lemma new_based_item e g1 i g2 g3 :
  g_add_node e g1 = (i, g2) -> new_based g2 g3 -> has_base g3 i e -> new_based g1 g3.
Proof.
  intros Ha Hn Hb j x Hj. destruct (Hn j x Hj) as [Hj2|]; [|by right]. rewrite (add_node_weight _ _ _ _ Ha) in Hj2.
  case_decide as Hji; [|by left]. subst. injection Hj2 as <-. by right.
Qed.

(** The kinds of entities that are based as they are added. *)
Definition plain (e : SqlGraphEntity) : bool :=
  match e with
  | Entity_ExtensionRoot _ | Entity_BuiltinType _ | Entity_CustomSql _ | Entity_Schema _ => false
  | _ => true
  end.
Definition is_plain_or_schema (e : SqlGraphEntity) : bool := match e with Entity_Schema _ => true | e => plain e end.

Lemma base_inv_added g g' D :
  base_inv g -> added g g' D ->
  (forall a b w, D a b w -> is_Some (g_weight g a) /\ is_Some (g_weight g b) /\ base_form g a b w) ->
  base_inv g'.
Proof.
  intros [Hr Hb Hf He] [Hn Ha] HD. split.
  - by rewrite Hn.
  - intros b. rewrite Hn. apply Hb.
  - intros f. rewrite Hn. apply Hf.
  - intros a b w Hab. rewrite !Hn.
    assert (Hab' : is_Some (g_weight g a) /\ is_Some (g_weight g b) /\ base_form g a b w)
      by (apply Ha in Hab as [Hab|Hab]; auto).
    destruct Hab' as (Hsa & Hsb & Hfm). split; [done|]. split; [done|].
    eapply base_form_weights; [|exact Hfm]. intros i e. by rewrite Hn.
Qed.

Lemma base_inv_add_node e g i g' :
  base_inv g -> g_add_node e g = (i, g') -> base_inv g' /\ i <> root.
Proof.
  intros [[c Hr] Hb Hf He] Ha. destruct (add_node_extends _ _ _ _ Ha) as ([Hw Hed] & Hi & Hnone).
  assert (Hsome : forall j, is_Some (g_weight g j) -> is_Some (g_weight g' j)).
  { intros j [x Hx]. exists x. by apply Hw. }
  split; [split|].
  - exists c. by apply Hw.
  - intros b Hb'. destruct (Hb b Hb'). auto.
  - intros f Hf'. destruct (Hf f Hf'). auto.
  - intros a b w Hab. apply (add_node_edges _ _ _ _ Ha) in Hab.
    destruct (He a b w Hab) as (? & ? & Hfm). split; [auto|]. split; [auto|]. by eapply base_form_weights.
  - intros ->. congruence.
Qed.

(** [add_edge_from] and [add_edge_to] for the bootstrap and finalize blocks. *)
Lemma adds_edge_to g a target :
  (forall b, target = Some b -> is_Some (g_weight g b)) -> is_Some (g_weight g a) ->
  adds id g (add_edge_to g a target) (fun x y v => x = a /\ target = Some y /\ v = By) (fun _ => True).
Proof.
  intros Hb Ha. destruct target as [b|]; cbn [add_edge_to].
  - eapply adds_weaken; [apply adds_add_edge; auto|done|]. intros ? ? x y v.
    unfold one_edge. naive_solver.
  - apply (adds_weaken id g _ no_edges _ (fun _ => True)); [by apply (adds_ret id g)|done|].
    intros ? ? x y v. unfold no_edges. naive_solver.
Qed.

Definition after_bootstrap_edges (i : NodeIndex) : edges :=
  join_edges (edge_from bootstrap i By) (fun x y v => x = i /\ finalize = Some y /\ v = By).

Lemma adds_after_bootstrap g i :
  base_inv g -> is_Some (g_weight g i) ->
  adds id g (g ← add_edge_from g bootstrap i; add_edge_to g i finalize)
    (after_bootstrap_edges i) (fun _ => True).
Proof.
  intros Hg Hi. eapply (adds_bind id id).
  - apply adds_edge_from; [|done]. intros a Ha. by apply (bi_bootstrap _ Hg).
  - intros g1 Hn _. cbn [id] in *. apply adds_edge_to; [|by rewrite Hn].
    intros b Hb. rewrite Hn. by apply (bi_finalize _ Hg).
Qed.

Lemma adds_base g i :
  base_inv g -> is_Some (g_weight g i) ->
  adds id g (build_base_edges g i root bootstrap finalize)
    (join_edges (one_edge root i By) (after_bootstrap_edges i)) (fun _ => True).
Proof.
  intros Hg Hi. unfold build_base_edges. eapply (adds_bind id id).
  - apply adds_add_edge; [|done]. destruct (bi_root _ Hg) as [c ->]. eauto.
  - intros g1 Hn _. cbn [id] in *. unfold after_bootstrap_edges. eapply (adds_bind id id).
    + apply adds_edge_from; [|by rewrite Hn]. intros a Ha. rewrite Hn. by apply (bi_bootstrap _ Hg).
    + intros g2 Hn2 _. cbn [id] in *. apply adds_edge_to; [|by rewrite Hn2, Hn].
      intros b Hb. rewrite Hn2, Hn. by apply (bi_finalize _ Hg).
Qed.

Lemma after_bootstrap_edges_form g i e a b w :
  base_inv g -> g_weight g i = Some e -> is_plain_or_schema e = true -> i <> root -> after_bootstrap_edges i a b w ->
  is_Some (g_weight g a) /\ is_Some (g_weight g b) /\ base_form g a b w.
Proof.
  intros Hg Hi Hk Hne [(Ha & -> & ->)|(-> & Hb & ->)]; unfold base_form.
  - destruct (bi_bootstrap _ Hg a Ha). split; [done|]. split; [eauto|]. split; [done|]. split; [done|]. right; left. split; [done|].
    exists e. split; [done|]. by destruct e.
  - destruct (bi_finalize _ Hg b Hb). split; [eauto|]. split; [done|]. split; [done|]. split; [done|]. right; right. split; [done|].
    exists e. split; [done|]. by destruct e.
Qed.

Lemma added_new_based g g' D : added g g' D -> new_based g g'.
Proof. intros [Hn _] i e Hi. left. by rewrite <- Hn. Qed.

(** A node that has just been added gets its base edges. *)
Lemma schema_base_ok g i e :
  base_inv g -> g_weight g i = Some e -> is_plain_or_schema e = true -> i <> root ->
  ensures (g ← add_edge_from g bootstrap i; add_edge_to g i finalize)
    (fun g' => base_inv g' /\ (extends g g' /\ new_based g g') /\ after_bootstrap g' i).
Proof.
  intros Hg Hi Hk Hne. eapply ensures_mono; [|apply adds_after_bootstrap; eauto].
  intros g' [Ha _]. cbn [id] in Ha. split; [|split].
  - eapply base_inv_added; [done|exact Ha|]. intros a b w. by eapply after_bootstrap_edges_form.
  - split; [by eapply added_extends|by eapply added_new_based].
  - destruct Ha as [_ Ha]. unfold after_bootstrap_edges, join_edges, edge_from in Ha.
    split; intros x Hx; apply Ha; auto.
Qed.

Lemma base_ok g i e :
  base_inv g -> g_weight g i = Some e -> plain e = true -> i <> root ->
  ensures (build_base_edges g i root bootstrap finalize)
    (fun g' => base_inv g' /\ (extends g g' /\ new_based g g') /\ based g' i).
Proof.
  intros Hg Hi Hk Hne. eapply ensures_mono; [|apply adds_base; eauto].
  intros g' [Ha _]. cbn [id] in Ha. split; [|split].
  - eapply base_inv_added; [done|exact Ha|]. intros a b w [(-> & -> & ->)|Hab].
    + destruct (bi_root _ Hg) as [c Hc]. split; [by rewrite Hc|]. split; [eauto|]. split; [done|]. split; [done|].
      left. split; [done|]. exists e. split; [done|]. by destruct e.
    + eapply after_bootstrap_edges_form; [done|exact Hi| |done|exact Hab]. by destruct e.
  - split; [by eapply added_extends|by eapply added_new_based].
  - destruct Ha as [_ Ha]. unfold after_bootstrap_edges, join_edges, edge_from, one_edge in Ha.
    split; [apply Ha; auto|]. split; intros x Hx; apply Ha; auto 10.
Qed.

Lemma has_base_root g i e : plain e = true -> has_base g i e -> has_edge g root i By.
Proof. intros Hk Hb. destruct e; try done; by destruct Hb as [Hr _]. Qed.

Lemma has_base_order g i e : is_plain_or_schema e = true -> has_base g i e -> after_bootstrap g i.
Proof. intros Hk Hb. destruct e; try done; by destruct Hb as [_ Ha]. Qed.

Lemma plain_has_base g i e : plain e = true -> based g i -> has_base g i e.
Proof. by destruct e. Qed.

(** ** The maps the loops fill *)

(** [m] maps the items, and only them, to their nodes; [B] holds of each. *)
Record init_ok {K} (into : K -> SqlGraphEntity) (B : G -> K -> NodeIndex -> Prop) (g : G)
    (m : hmap K) (items : list K) : Prop := {
  io_node : forall k i, (k, i) ∈ m -> g_weight g i = Some (into k) /\ B g k i;
  io_keys : forall k, k ∈ map fst m <-> k ∈ items;
  io_nodup : NoDup (map fst m);
}.

Lemma init_ok_nil {K} (into : K -> SqlGraphEntity) B g : init_ok into B g [] [].
Proof.
  split; [|done|constructor]. intros k i Hk. by apply elem_of_nil in Hk.
Qed.

Lemma init_ok_extends {K} (into : K -> SqlGraphEntity) (B : G -> K -> NodeIndex -> Prop) g g' m items :
  (forall k i, B g k i -> B g' k i) -> extends g g' -> init_ok into B g m items ->
  init_ok into B g' m items.
Proof.
  intros HB He [Hn Hk Hnd]. split; [|done|done]. intros k i Hin.
  destruct (Hn k i Hin) as [Hw Hb]. split; [by apply He | auto].
Qed.

Lemma init_ok_insert {K} `{EqDecision K} (into : K -> SqlGraphEntity) B g m items k i :
  init_ok into B g m items -> g_weight g i = Some (into k) -> B g k i ->
  init_ok into B g (hm_insert k i m) (items ++ [k]).
Proof.
  intros [Hn Hk Hnd] Hw Hb. split.
  - intros k' i' Hin. apply elem_of_hm_insert in Hin as [[-> ->]|Hin]; auto.
  - intros k'. rewrite hm_insert_keys, Hk, elem_of_app, list_elem_of_singleton. tauto.
  - by apply hm_insert_nodup.
Qed.

Lemma initialize_nodes_ok {K} `{EqDecision K} (into : K -> SqlGraphEntity) g items :
  (forall k, plain (into k) = true) -> base_inv g ->
  ensures (initialize_nodes into g root bootstrap finalize items)
    (fun '(g', m) => base_inv g' /\ (extends g g' /\ new_based g g')
       /\ init_ok into (fun g _ i => based g i) g' m items).
Proof.
  intros Hk Hg. apply (ensures_fold _ (fun st done => let '(g', m) := st in base_inv g' /\ (extends g g' /\ new_based g g')
    /\ init_ok into (fun g _ i => based g i) g' m done)).
  - split; [done|]. split; [split; [done|apply new_based_refl]|]. apply init_ok_nil.
  - intros [g1 m] done item _ (Hg1 & [He1 Hw1] & Hm). cbn [initialize_node].
    destruct (g_add_node (into item) g1) as [i g2] eqn:Ha.
    destruct (add_node_extends _ _ _ _ Ha) as (He2 & Hw & _).
    destruct (base_inv_add_node _ _ _ _ Hg1 Ha) as [Hg2 Hne].
    eapply ensures_bind; [apply (base_ok g2 i (into item)); [exact Hg2|done|done|done]|].
    intros g3 (Hg3 & [He3 Hw3] & Hb). cbn. split; [done|].
    assert (He13 : extends g1 g3) by (by etrans).
    split; [split; [by etrans|]; apply (new_based_trans g g1); [done|done|]; eapply new_based_item; [done|done|by apply plain_has_base]|].
    apply init_ok_insert; [|by apply He3|done].
    eapply init_ok_extends; [|exact He13|exact Hm]. intros k j. by apply based_extends.
Qed.

Lemma initialize_schemas_ok g items :
  base_inv g ->
  ensures (initialize_schemas g bootstrap finalize items)
    (fun '(g', m) => base_inv g' /\ (extends g g' /\ new_based g g')
       /\ init_ok Entity_Schema (fun g _ i => after_bootstrap g i) g' m items).
Proof.
  intros Hg. apply (ensures_fold _ (fun st done => let '(g', m) := st in base_inv g' /\ (extends g g' /\ new_based g g')
    /\ init_ok Entity_Schema (fun g _ i => after_bootstrap g i) g' m done)).
  - split; [done|]. split; [split; [done|apply new_based_refl]|]. apply init_ok_nil.
  - intros [g1 m] done item _ (Hg1 & [He1 Hw1] & Hm). cbn [initialize_schema].
    destruct (g_add_node (Entity_Schema item) g1) as [i g2] eqn:Ha.
    destruct (add_node_extends _ _ _ _ Ha) as (He2 & Hw & _).
    destruct (base_inv_add_node _ _ _ _ Hg1 Ha) as [Hg2 Hne].
    rewrite <- outcome_bind_assoc.
    eapply ensures_bind; [apply (schema_base_ok g2 i (Entity_Schema item)); [exact Hg2|done|done|done]|].
    intros g3 (Hg3 & [He3 Hw3] & Hb). cbn. split; [done|].
    assert (He13 : extends g1 g3) by (by etrans).
    split; [split; [by etrans|]; apply (new_based_trans g g1); [done|done|]; by eapply new_based_item|].
    apply init_ok_insert; [|by apply He3|done].
    eapply init_ok_extends; [|exact He13|exact Hm]. intros k j. by apply after_bootstrap_extends.
Qed.

(** ** External types *)

Definition builtin_ok (g : G) (m : hmap string) : Prop :=
  forall t i, (t, i) ∈ m -> g_weight g i = Some (Entity_BuiltinType t).

(** The placeholders the uses need are there. *)
Definition uses_ready (m : hmap string) (us : list type_use) : Prop :=
  forall u t, u ∈ us -> ut_resolution (use_ty u) = Some (t, External) -> t ∈ map fst m.

Definition more_keys (m m' : hmap string) : Prop := forall t, t ∈ map fst m -> t ∈ map fst m'.

Lemma uses_ready_more m m' us : more_keys m m' -> uses_ready m us -> uses_ready m' us.
Proof. intros Hm Hu u t Hin Hr. apply Hm. by eapply Hu. Qed.

Definition uses_inv (g0 : G) (m0 : hmap string) (g : G) (m : hmap string) : Prop :=
  base_inv g /\ (extends g0 g /\ new_based g0 g) /\ builtin_ok g m /\ more_keys m0 m.

Lemma initialize_use_ok types enums sqls kind name g0 m0 g m u :
  uses_inv g0 m0 g m -> is_Some (ut_resolution (use_ty u)) ->
  ensures (initialize_use types enums sqls kind name (g, m) u)
    (fun '(g', m') => uses_inv g0 m0 g' m' /\ more_keys m m' /\ uses_ready m' [u]).
Proof.
  intros (Hg & [He Hnb] & Hb & Hm) [[t o] Hr]. unfold initialize_use. rewrite Hr.
  cbn [unwrap mbind outcome_bind initialize_resolved_type]. unfold uses_inv, uses_ready.
  assert (Hsame : o = ThisExtension \/ t ∈ map fst m -> forall u' t', u' ∈ [u] ->
    ut_resolution (use_ty u') = Some (t', External) -> t' ∈ map fst m).
  { intros Ht u' t' ->%list_elem_of_singleton Hr'. rewrite Hr in Hr'. injection Hr' as <- ->.
    by destruct Ht. }
  destruct o.
  - destruct (find_graph_type_target _ _ _ _); [|done]. cbn. unfold more_keys.
    split; [auto|]. split; [auto|]. apply Hsame. auto.
  - destruct (hm_get t m) as [i|] eqn:Ei.
    + cbn. unfold more_keys. split; [auto|]. split; [auto|]. apply Hsame. right.
      apply hm_get_key. eauto.
    + destruct (g_add_node (Entity_BuiltinType t) g) as [i g2] eqn:Ha.
      destruct (add_node_extends _ _ _ _ Ha) as (He2 & Hw & _).
      destruct (base_inv_add_node _ _ _ _ Hg Ha) as [Hg2 Hne]. cbn.
      assert (Hmore : more_keys m (hm_insert t i m)).
      { intros t' Ht'. apply hm_insert_keys. auto. }
      split; [|split; [done|]].
      * split; [done|]. split; [split; [by etrans|]; apply (new_based_trans g0 g); [done|done|]; eapply new_based_item; [exact Ha|apply new_based_refl|done]|]. split.
        -- intros t' i' Hin. apply elem_of_hm_insert in Hin as [[-> ->]|Hin]; [done|].
           by apply He2, Hb.
        -- intros t' Ht'. by apply Hmore, Hm.
      * intros u' t' ->%list_elem_of_singleton Hr'. rewrite Hr in Hr'. injection Hr' as <-.
        apply hm_insert_keys. auto.
Qed.

Lemma initialize_uses_ok types enums sqls kind name g m us :
  base_inv g -> builtin_ok g m -> (forall u, u ∈ us -> is_Some (ut_resolution (use_ty u))) ->
  ensures (fold_outcome (initialize_use types enums sqls kind name) (g, m) us)
    (fun '(g', m') => uses_inv g m g' m' /\ uses_ready m' us).
Proof.
  intros Hg Hb Hus. apply (ensures_fold _ (fun st done => let '(g', m') := st in
    uses_inv g m g' m' /\ uses_ready m' done)).
  - split; [|intros u t Hu; by apply elem_of_nil in Hu].
    split; [done|]. split; [split; [done|apply new_based_refl]|]. split; [done|]. by intros t.
  - intros [g1 m1] done u Hu [Hi Hr]. eapply ensures_mono; [|by apply initialize_use_ok; [|apply Hus]].
    intros [g2 m2] (Hi2 & Hmore & Hr2). split; [done|]. intros u' t Hu'.
    apply elem_of_app in Hu' as [Hu'|Hu'].
    + by apply (uses_ready_more m1 m2 done Hmore Hr).
    + by apply (Hr2 u' t).
Qed.

Lemma builtin_ok_extends g g' m : extends g g' -> builtin_ok g m -> builtin_ok g' m.
Proof. intros He Hb t i Hin. by apply He, Hb. Qed.

Lemma initialize_externs_ok g items types enums sqls :
  base_inv g ->
  ensures (initialize_externs g root bootstrap finalize items types enums sqls)
    (fun '(g', m, bm) => base_inv g' /\ (extends g g' /\ new_based g g')
       /\ init_ok Entity_Function (fun g _ i => based g i) g' m items /\ builtin_ok g' bm
       /\ forall item, item ∈ items -> uses_ready bm (function_uses item)).
Proof.
  intros Hg. apply (ensures_fold _ (fun st done => let '(g', m, bm) := st in base_inv g' /\ (extends g g' /\ new_based g g')
    /\ init_ok Entity_Function (fun g _ i => based g i) g' m done /\ builtin_ok g' bm
    /\ forall item, item ∈ done -> uses_ready bm (function_uses item))).
  - split; [done|]. split; [split; [done|apply new_based_refl]|]. split; [apply init_ok_nil|].
    split; [intros t i Ht; by apply elem_of_nil in Ht|]. intros item Hi. by apply elem_of_nil in Hi.
  - intros [[g1 m] bm] done item _ (Hg1 & [He1 Hw1] & Hm & Hb & Hr). cbn [initialize_extern].
    destruct (g_add_node (Entity_Function item) g1) as [i g2] eqn:Ha.
    destruct (add_node_extends _ _ _ _ Ha) as (He2 & Hw & _).
    destruct (base_inv_add_node _ _ _ _ Hg1 Ha) as [Hg2 Hne].
    eapply ensures_bind; [apply (base_ok g2 i (Entity_Function item)); [exact Hg2|done|done|done]|]. intros g3 (Hg3 & [He3 Hw3] & Hbase).
    assert (He13 : extends g1 g3) by (by etrans).
    eapply ensures_bind; [apply initialize_uses_ok; [done | by eapply builtin_ok_extends|]|].
    { intros u. apply function_uses_resolved. }
    intros [g4 bm4] ((Hg4 & [He4 Hw4] & Hb4 & Hmore) & Hr4). cbn.
    assert (He14 : extends g1 g4) by (by etrans). split; [done|].
    split; [split; [by etrans|]; apply (new_based_trans g g1); [done|done|]; eapply new_based_item;
      [exact Ha|by apply (new_based_trans g2 g3)|by apply (based_extends g3)]|]. split.
    + apply init_ok_insert.
      * eapply init_ok_extends; [|exact He14|exact Hm]. intros k j. by apply based_extends.
      * by apply He4, He3.
      * by apply (based_extends g3).
    + split; [done|]. intros item' Hi. apply elem_of_app in Hi as [Hi|Hi].
      * eapply uses_ready_more; [exact Hmore | by apply Hr].
      * by apply list_elem_of_singleton in Hi as ->.
Qed.

Lemma initialize_aggregates_ok g items bm0 types enums sqls :
  base_inv g -> builtin_ok g bm0 ->
  ensures (initialize_aggregates g root bootstrap finalize items bm0 enums types sqls)
    (fun '(g', m, bm) => base_inv g' /\ (extends g g' /\ new_based g g')
       /\ init_ok Entity_Aggregate (fun g _ i => based g i) g' m items /\ builtin_ok g' bm
       /\ more_keys bm0 bm /\ forall item, item ∈ items -> uses_ready bm (aggregate_uses item)).
Proof.
  intros Hg Hb0. apply (ensures_fold _ (fun st done => let '(g', m, bm) := st in base_inv g' /\ (extends g g' /\ new_based g g')
    /\ init_ok Entity_Aggregate (fun g _ i => based g i) g' m done /\ builtin_ok g' bm
    /\ more_keys bm0 bm /\ forall item, item ∈ done -> uses_ready bm (aggregate_uses item))).
  - split; [done|]. split; [split; [done|apply new_based_refl]|]. split; [apply init_ok_nil|].
    split; [done|]. split; [by intros t|]. intros item Hi. by apply elem_of_nil in Hi.
  - intros [[g1 m] bm] done item _ (Hg1 & [He1 Hw1] & Hm & Hb & Hmore1 & Hr). cbn [initialize_aggregate].
    destruct (g_add_node (Entity_Aggregate item) g1) as [i g2] eqn:Ha.
    destruct (add_node_extends _ _ _ _ Ha) as (He2 & Hw & _).
    destruct (base_inv_add_node _ _ _ _ Hg1 Ha) as [Hg2 Hne].
    eapply ensures_bind; [apply initialize_uses_ok; [done | by eapply builtin_ok_extends|]|].
    { intros u. rewrite !elem_of_app. intros Hu. apply (aggregate_uses_resolved item). tauto. }
    intros [g3 bm3] ((Hg3 & [He3 Hw3] & Hb3 & Hmore) & Hr3).
    eapply ensures_bind; [apply (base_ok g3 i (Entity_Aggregate item)); [done | by apply He3 | done | done]|].
    intros g4 (Hg4 & [He4 Hw4] & Hbase). cbn.
    assert (He14 : extends g1 g4) by (etrans; [exact He2|]; by etrans). split; [done|].
    split; [split; [by etrans|]; apply (new_based_trans g g1); [done|done|]; eapply new_based_item;
      [exact Ha|by apply (new_based_trans g2 g3)|done]|].
    split.
    + apply init_ok_insert; [|by apply He4, He3|done].
      eapply init_ok_extends; [|exact He14|exact Hm]. intros k j. by apply based_extends.
    + split; [by apply (builtin_ok_extends g3)|]. split; [intros t Ht; by apply Hmore, Hmore1|].
      intros item' Hi. apply elem_of_app in Hi as [Hi|Hi].
      * eapply uses_ready_more; [exact Hmore | by apply Hr].
      * apply list_elem_of_singleton in Hi as ->. intros u t Hu. apply (Hr3 u t).
        unfold aggregate_uses in Hu. rewrite !elem_of_app in *. tauto.
Qed.

End Base.

(** ** [extension_sql!] blocks *)

(** The holder of a position: the one block that asks for it, if any. *)
Definition position (flag : ExtensionSqlEntity -> bool) (held : option NodeIndex)
    (m : hmap ExtensionSqlEntity) (items : list ExtensionSqlEntity) : Prop :=
  match held with
  | None => filter (fun s => flag s = true) items = []
  | Some b => exists s, (s, b) ∈ m /\ flag s = true /\ filter (fun s => flag s = true) items = [s]
  end.

Lemma claim_position_ok g flag item i held error m items :
  (forall a b, reportable (error a b)) ->
  (forall b, held = Some b -> is_Some (g_weight g b)) ->
  position flag held m items ->
  ensures (claim_position g (flag item) item i held error)
    (fun held' => position flag held' (hm_insert item i m) (items ++ [item])).
Proof.
  intros He Hh Hp. unfold claim_position, position in *.
  destruct (flag item) eqn:Hf.
  - destruct held as [b|].
    + destruct (Hh b eq_refl) as [e ->]. cbn. apply He.
    + cbn. exists item. split; [apply hm_insert_here|]. split; [done|].
      rewrite filter_app, Hp. by rewrite filter_cons_True.
  - cbn. destruct held as [b|].
    + destruct Hp as (s & Hs & Hfs & Hl). exists s. split; [|split; [done|]].
      * apply hm_insert_other; [|done]. intros ->. congruence.
      * rewrite filter_app, Hl. by rewrite filter_cons_False by congruence.
    + rewrite filter_app, Hp. by rewrite filter_cons_False by congruence.
Qed.

Definition sql_based (root : NodeIndex) (bootstrap finalize : option NodeIndex) (g : G)
    (item : ExtensionSqlEntity) (i : NodeIndex) : Prop :=
  has_edge g root i By
  /\ (sql_bootstrap item = false -> forall b, bootstrap = Some b -> has_edge g b i By)
  /\ (sql_finalize item = false -> forall f, finalize = Some f -> has_edge g i f By).

Definition sql_base_edges (root : NodeIndex) (bootstrap finalize : option NodeIndex)
    (item : ExtensionSqlEntity) (i : NodeIndex) : edges :=
  join_edges (one_edge root i By)
    (join_edges (fun a b w => sql_bootstrap item = false /\ edge_from bootstrap i By a b w)
       (fun a b w => sql_finalize item = false /\ a = i /\ finalize = Some b /\ w = By)).

Lemma extension_sql_edges_adds root bootstrap finalize g item i :
  is_Some (g_weight g root) -> is_Some (g_weight g i) ->
  (forall b, bootstrap = Some b -> is_Some (g_weight g b)) ->
  (forall f, finalize = Some f -> is_Some (g_weight g f)) ->
  adds id g (extension_sql_edges root bootstrap finalize g (item, i))
    (sql_base_edges root bootstrap finalize item i) (fun _ => True).
Proof.
  intros Hr Hi Hb Hf. cbn [extension_sql_edges].
  assert (Hskip : forall g (P : edges), (forall a b w, ~ P a b w) ->
    adds id g (Ok g) P (fun _ => True)).
  { intros g' P HP. apply (adds_weaken id g' _ no_edges _ (fun _ => True));
      [by apply (adds_ret id g')|done|]. intros ? ? a b w. unfold no_edges. naive_solver. }
  eapply (adds_bind id id); [by apply adds_add_edge|]. intros g1 Hn1 _. cbn [id] in *.
  eapply (adds_bind id id _ _ _ _ _ (fun _ => True)).
  - destruct (sql_bootstrap item); cbn [negb]; [apply Hskip; naive_solver|].
    eapply adds_weaken; [apply adds_edge_from; [|by rewrite Hn1]|done|].
    + intros a Ha. rewrite Hn1. by apply Hb.
    + intros ? ? a b w. tauto.
  - intros g2 Hn2 _. cbn [id] in *. destruct (sql_finalize item); cbn [negb]; [apply Hskip; naive_solver|].
    eapply adds_weaken; [apply adds_edge_to; [|by rewrite Hn2, Hn1]|done|].
    + intros a Ha. rewrite Hn2, Hn1. by apply Hf.
    + intros ? ? a b w. naive_solver.
Qed.

(** The first loop: the nodes, the map and the two positions. *)
Record sqls_inv (g0 : G) (st : sqls_state (G:=G)) (items : list ExtensionSqlEntity) : Prop := {
  si_extends : extends g0 (ss_graph st);
  si_only : forall i e, g_weight (ss_graph st) i = Some e -> g_weight g0 i = Some e \/ exists s, e = Entity_CustomSql s;
  si_no_edges : forall a b w, ~ has_edge (ss_graph st) a b w;
  si_mapped : init_ok Entity_CustomSql (fun _ _ _ => True) (ss_graph st) (ss_mapped st) items;
  si_bootstrap : position sql_bootstrap (ss_bootstrap st) (ss_mapped st) items;
  si_finalize : position sql_finalize (ss_finalize st) (ss_mapped st) items;
}.

Lemma position_node flag held m items g :
  init_ok Entity_CustomSql (fun _ _ _ => True) g m items -> position flag held m items ->
  forall b, held = Some b -> exists s, g_weight g b = Some (Entity_CustomSql s).
Proof.
  intros Hm Hp b ->. destruct Hp as (s & Hs & _). exists s. by apply (io_node _ _ _ _ _ Hm).
Qed.

Lemma initialize_extension_sql_ok g0 st items item :
  sqls_inv g0 st items ->
  ensures (initialize_extension_sql st item) (fun st' => sqls_inv g0 st' (items ++ [item])).
Proof.
  intros [He Honly Hno Hm Hb Hf]. unfold initialize_extension_sql.
  destruct (g_add_node (Entity_CustomSql item) (ss_graph st)) as [i g2] eqn:Ha.
  destruct (add_node_extends _ _ _ _ Ha) as (He2 & Hw & _).
  assert (Hm2 : init_ok Entity_CustomSql (fun _ _ _ => True) g2 (ss_mapped st) items).
  { eapply init_ok_extends; [|exact He2|exact Hm]. done. }
  assert (Hnode : forall flag held, position flag held (ss_mapped st) items ->
    forall b, held = Some b -> is_Some (g_weight g2 b)).
  { intros flag held Hp b Hh. destruct (position_node _ _ _ _ _ Hm2 Hp b Hh) as [s ->]. eauto. }
  eapply ensures_bind; [apply (claim_position_ok g2 sql_bootstrap); [done | by eapply Hnode | exact Hb]|].
  intros b' Hb'.
  eapply ensures_bind; [apply (claim_position_ok g2 sql_finalize); [done | by eapply Hnode | exact Hf]|].
  intros f' Hf'. cbn. split; cbn.
  - by etrans.
  - intros j e Hj. rewrite (add_node_weight _ _ _ _ Ha) in Hj. case_decide; [injection Hj as <-; eauto|auto].
  - intros a b w Hab. apply (add_node_edges _ _ _ _ Ha) in Hab. by apply (Hno a b w).
  - by apply init_ok_insert.
  - done.
  - done.
Qed.

Lemma initialize_extension_sqls_ok g root c items :
  g_weight g root = Some (Entity_ExtensionRoot c) -> (forall a b w, ~ has_edge g a b w) ->
  ensures (initialize_extension_sqls g root items)
    (fun '(g', m, bootstrap, finalize) => base_inv root bootstrap finalize m g'
       /\ (extends g g' /\ new_based root bootstrap finalize g g')
       /\ init_ok Entity_CustomSql (sql_based root bootstrap finalize) g' m items
       /\ position sql_bootstrap bootstrap m items /\ position sql_finalize finalize m items).
Proof.
  intros Hr Hno. unfold initialize_extension_sqls.
  eapply ensures_bind.
  { apply (ensures_fold _ (sqls_inv g)).
    - split; cbn; [done | auto | done | apply init_ok_nil | done | done].
    - intros st done x _. apply initialize_extension_sql_ok. }
  intros [g1 m b f] [He Honly Hno1 Hm Hb Hf]. cbn [ss_graph ss_mapped ss_bootstrap ss_finalize] in *.
  assert (Hr1 : g_weight g1 root = Some (Entity_ExtensionRoot c)) by (by apply He).
  pose proof (position_node _ _ _ _ _ Hm Hb) as Hbn.
  pose proof (position_node _ _ _ _ _ Hm Hf) as Hfn.
  assert (Hin : forall k i, (k, i) ∈ m -> is_Some (g_weight g1 i) /\ i <> root).
  { intros k i Hk. destruct (io_node _ _ _ _ _ Hm k i Hk) as [Hw _]. split; [eauto|]. congruence. }
  assert (Hbn' : forall x, b = Some x -> is_Some (g_weight g1 x) /\ x <> root).
  { intros x Hx. destruct (Hbn x Hx) as [s Hs]. split; [eauto|]. congruence. }
  assert (Hfn' : forall x, f = Some x -> is_Some (g_weight g1 x) /\ x <> root).
  { intros x Hx. destruct (Hfn x Hx) as [s Hs]. split; [eauto|]. congruence. }
  eapply ensures_bind.
  { apply (adds_each (extension_sql_edges root b f) g1 (hash_order m)
      (fun '(item, i) => sql_base_edges root b f item i) (fun _ => True)).
    intros g2 [item i] Hx Hn. rewrite elem_of_hash_order in Hx.
    apply extension_sql_edges_adds; rewrite ?Hn; [eauto | by eapply Hin | |].
    - intros x Hx'. rewrite Hn. by apply Hbn'.
    - intros x Hx'. rewrite Hn. by apply Hfn'. }
  intros g2 [[Hn Ha] _]. cbn [id] in *. cbn. split; [|split; [|split; [|done]]].
  - split.
    + exists c. by rewrite Hn.
    + intros x Hx. rewrite Hn. by apply Hbn'.
    + intros x Hx. rewrite Hn. by apply Hfn'.
    + intros x y w Hxy. rewrite !Hn. apply Ha in Hxy as [Hxy|([item i] & Hi & Hd)].
      { by destruct (Hno1 x y w). }
      rewrite elem_of_hash_order in Hi. destruct (Hin item i Hi) as [Hsi Hni].
      assert (Hwi : g_weight g2 i = Some (Entity_CustomSql item)) by (rewrite Hn; by apply (io_node _ _ _ _ _ Hm)).
      unfold base_form, rooted, booted, finished.
      destruct Hd as [(-> & -> & ->)|[(Hfl & Hx & -> & ->)|(Hfl & -> & Hy & ->)]].
      * rewrite Hr1. split; [eauto|]. split; [done|]. split; [done|]. split; [done|]. left. split; [done|]. by exists (Entity_CustomSql item).
      * destruct (Hbn' x Hx). split; [done|]. split; [done|]. split; [done|]. split; [done|]. right; left. split; [done|]. by exists (Entity_CustomSql item).
      * destruct (Hfn' y Hy). split; [done|]. split; [done|]. split; [done|]. split; [done|]. right; right. split; [done|]. by exists (Entity_CustomSql item).
  - split; [etrans; [exact He|]; split; [intros i e; by rewrite Hn|]; intros x y w Hxy; apply Ha; auto|].
    intros i e Hi. rewrite Hn in Hi. destruct (Honly i e Hi) as [|[s ->]]; [by left|by right].
  - destruct Hm as [Hnode Hk Hnd]. split; [|done|done]. intros k i Hki.
    destruct (Hnode k i Hki) as [Hw _]. split; [by rewrite Hn|].
    assert (Hhere : forall x y w, sql_base_edges root b f k i x y w -> has_edge g2 x y w).
    { intros x y w Hd. apply Ha. right. exists (k, i). by rewrite elem_of_hash_order. }
    unfold sql_based. split; [apply Hhere; by left|].
    split; intros Hflag x Hx; apply Hhere; right; [left | right]; done.
Qed.

End Init.
