(* ===== verification/SchemaGraph.v ===== *)
(** * The graph [PgrxSql::build] returns

    The theorems on the construction as a whole: it is total, it depends only on
    the set of entities, its edges are exactly the base edges and the
    dependencies, every type a function mentions precedes it, and the order in
    which the schema is emitted respects all of it. *)
From S2P Require Import Prelude Metadata Entities EntityOrd Producers Graph EmitOrder Slice.
From S2P Require Import Lookup Build BuildLogic Connect Initialize.
From stdpp Require Import list gmap strings.
#[local] Set Warnings "-clear-no-such-hyp".

Section Built.
Context {G : Type} `{StableGraphLaws G} `{HashOrder}.
Variable (to_lowercase : string -> string).

(** ** The nodes *)

(** What the first half establishes for the entities [sp]. *)
Record nodes_ok (sp : split_entities) (p : PgrxSql G) : Prop := {
  no_base : base_inv (px_graph_root p) (px_graph_bootstrap p) (px_graph_finalize p) (px_extension_sqls p) (px_graph p);
  no_all : forall i e, g_weight (px_graph p) i = Some e ->
    has_base (px_graph_root p) (px_graph_bootstrap p) (px_graph_finalize p) (px_graph p) i e;
  no_sqls : init_ok Entity_CustomSql
    (sql_based (px_graph_root p) (px_graph_bootstrap p) (px_graph_finalize p))
    (px_graph p) (px_extension_sqls p) (sp_extension_sqls sp);
  no_schemas : init_ok Entity_Schema
    (fun g _ i => after_bootstrap (px_graph_bootstrap p) (px_graph_finalize p) g i)
    (px_graph p) (px_schemas p) (sp_schemas sp);
  no_enums : init_ok Entity_Enum
    (fun g _ i => based (px_graph_root p) (px_graph_bootstrap p) (px_graph_finalize p) g i)
    (px_graph p) (px_enums p) (sp_enums sp);
  no_types : init_ok Entity_Type
    (fun g _ i => based (px_graph_root p) (px_graph_bootstrap p) (px_graph_finalize p) g i)
    (px_graph p) (px_types p) (sp_types sp);
  no_externs : init_ok Entity_Function
    (fun g _ i => based (px_graph_root p) (px_graph_bootstrap p) (px_graph_finalize p) g i)
    (px_graph p) (px_externs p) (sp_externs sp);
  no_ords : init_ok Entity_Ord
    (fun g _ i => based (px_graph_root p) (px_graph_bootstrap p) (px_graph_finalize p) g i)
    (px_graph p) (px_ords p) (sp_ords sp);
  no_hashes : init_ok Entity_Hash
    (fun g _ i => based (px_graph_root p) (px_graph_bootstrap p) (px_graph_finalize p) g i)
    (px_graph p) (px_hashes p) (sp_hashes sp);
  no_aggregates : init_ok Entity_Aggregate
    (fun g _ i => based (px_graph_root p) (px_graph_bootstrap p) (px_graph_finalize p) g i)
    (px_graph p) (px_aggregates p) (sp_aggregates sp);
  no_triggers : init_ok Entity_Trigger
    (fun g _ i => based (px_graph_root p) (px_graph_bootstrap p) (px_graph_finalize p) g i)
    (px_graph p) (px_triggers p) (sp_triggers sp);
  no_bootstrap : position sql_bootstrap (px_graph_bootstrap p) (px_extension_sqls p)
    (sp_extension_sqls sp);
  no_finalize : position sql_finalize (px_graph_finalize p) (px_extension_sqls p)
    (sp_extension_sqls sp);
  no_builtin : builtin_ok (px_graph p) (px_builtin_types p);
  no_extern_uses : forall item, item ∈ sp_externs sp ->
    uses_ready (px_builtin_types p) (function_uses item);
  no_aggregate_uses : forall item, item ∈ sp_aggregates sp ->
    uses_ready (px_builtin_types p) (aggregate_uses item);
  no_unique : NoDup (map fst (type_targets (px_types p) (px_enums p) (px_extension_sqls p)));
  no_control : sp_control sp = Some (px_control p)
    /\ g_weight (px_graph p) (px_graph_root p) = Some (Entity_ExtensionRoot (px_control p));
}.

Lemma sql_based_extends root b f g g' item i :
  extends g g' -> sql_based root b f g item i -> sql_based root b f g' item i.
Proof.
  intros He (Hr & Hb & Hf). split; [by apply He|].
  split; intros Hflag x Hx; apply He; auto.
Qed.

Lemma ensure_unique_ensures types enums sqls :
  ensures (ensure_unique_type_targets types enums sqls)
    (fun _ => NoDup (map fst (type_targets types enums sqls))).
Proof.
  pose proof (ensure_unique_spec types enums sqls) as Hs. cbn zeta in Hs.
  destruct (ensure_unique_type_targets _ _ _); [done | | done].
  destruct Hs as (t & -> & _). done.
Qed.

Lemma build_nodes_ok sp c name versioned :
  sp_control sp = Some c ->
  ensures (build_nodes sp name versioned) (nodes_ok sp).
Proof.
  intros Hc. unfold build_nodes. rewrite Hc. cbn [unwrap mbind outcome_bind].
  destruct (g_add_node (Entity_ExtensionRoot c) g_new) as [root g0] eqn:Ha.
  destruct (add_node_extends _ _ _ _ Ha) as (_ & Hroot & _).
  assert (Hno : forall a b w, ~ has_edge g0 a b w).
  { intros a b w Hab. apply (add_node_edges _ _ _ _ Ha) in Hab. by apply new_edges in Hab. }
  eapply ensures_bind; [by eapply initialize_extension_sqls_ok|].
  intros [[[g1 sqls] b] f] (Hb1 & [He1 W1] & Hsqls & Hboot & Hfin).
  eapply ensures_bind; [by apply initialize_schemas_ok|]. intros [g2 schemas] (Hb2 & [He2 W2] & Hschemas).
  eapply ensures_bind; [by apply initialize_nodes_ok|]. intros [g3 enums] (Hb3 & [He3 W3] & Henums).
  eapply ensures_bind; [by apply initialize_nodes_ok|]. intros [g4 types] (Hb4 & [He4 W4] & Htypes).
  eapply ensures_bind; [apply ensure_unique_ensures|]. intros [] Huniq.
  eapply ensures_bind; [by apply initialize_externs_ok|].
  intros [[g5 externs] bm] (Hb5 & [He5 W5] & Hexterns & Hbm5 & Huses).
  eapply ensures_bind; [by apply initialize_nodes_ok|]. intros [g6 ords] (Hb6 & [He6 W6] & Hords).
  eapply ensures_bind; [by apply initialize_nodes_ok|]. intros [g7 hashes] (Hb7 & [He7 W7] & Hhashes).
  assert (He67 : extends g5 g7) by (by etrans).
  eapply ensures_bind; [apply initialize_aggregates_ok; [exact Hb7 | by eapply builtin_ok_extends]|].
  intros [[g8 aggs] bm8] (Hb8 & [He8 W8] & Haggs & Hbm8 & Hmore & Huses8).
  eapply ensures_bind; [by apply initialize_nodes_ok|]. intros [g9 trgs] (Hb9 & [He9 W9] & Htrgs).
  cbn.
  assert (E8 : extends g8 g9) by done.
  assert (E7 : extends g7 g9) by (by etrans). assert (E6 : extends g6 g9) by (by etrans).
  assert (E5 : extends g5 g9) by (by etrans). assert (E4 : extends g4 g9) by (by etrans).
  assert (E3 : extends g3 g9) by (by etrans). assert (E2 : extends g2 g9) by (by etrans).
  assert (E1 : extends g1 g9) by (by etrans).
  assert (W : new_based root b f g0 g9).
  { repeat (eapply new_based_trans; [| |eassumption]; [done|]). apply new_based_refl. }
  split; cbn; try done.
  - intros i e Hi. destruct (W i e Hi) as [Hi0|]; [|done]. rewrite (add_node_weight _ _ _ _ Ha), new_weight in Hi0.
    case_decide; [|done]. by injection Hi0 as <-.
  - eapply init_ok_extends; [|exact E1|exact Hsqls]. intros k i. by apply sql_based_extends.
  - eapply init_ok_extends; [|exact E2|exact Hschemas]. intros k i. by apply after_bootstrap_extends.
  - eapply init_ok_extends; [|exact E3|exact Henums]. intros k i. by apply based_extends.
  - eapply init_ok_extends; [|exact E4|exact Htypes]. intros k i. by apply based_extends.
  - eapply init_ok_extends; [|exact E5|exact Hexterns]. intros k i. by apply based_extends.
  - eapply init_ok_extends; [|exact E6|exact Hords]. intros k i. by apply based_extends.
  - eapply init_ok_extends; [|exact E7|exact Hhashes]. intros k i. by apply based_extends.
  - eapply init_ok_extends; [|exact E8|exact Haggs]. intros k i. by apply based_extends.
  - by apply (builtin_ok_extends g8).
  - intros item Hi. eapply uses_ready_more; [exact Hmore | by apply Huses].
  - split; [done|]. by apply E1, He1.
Qed.

(** ** The edges *)

Lemma init_ok_map_in {K} (into : K -> SqlGraphEntity) B (g : G) m items :
  init_ok into B g m items -> map_in g m.
Proof. intros Hm k i Hk. destruct (io_node _ _ _ _ _ Hm k i Hk) as [-> _]. eauto. Qed.

Lemma init_ok_item {K} (into : K -> SqlGraphEntity) B (g : G) m items k i :
  init_ok into B g m items -> (k, i) ∈ m -> k ∈ items.
Proof.
  intros Hm Hk. apply (io_keys _ _ _ _ _ Hm). by apply (list_elem_of_fmap_2' fst m (k, i)).
Qed.

Lemma nodes_ok_maps_in sp p : nodes_ok sp p -> maps_in p (px_graph p).
Proof.
  intros Hp. split; try (eapply init_ok_map_in; apply Hp).
  - destruct (bi_root _ _ _ _ _ (no_base _ _ Hp)) as [c ->]. eauto.
  - intros t i Hi. rewrite (no_builtin _ _ Hp t i Hi). eauto.
Qed.

Lemma ready_placeholder (p : PgrxSql G) us u :
  uses_ready (px_builtin_types p) us -> u ∈ us -> placeholder_ready p u.
Proof. intros Hr Hu t Ht. apply hm_get_key. by eapply Hr. Qed.

(** What the whole construction establishes. *)
Record built (sp : split_entities) (p : PgrxSql G) : Prop := {
  bt_nodes : exists g0, nodes_ok sp (with_graph p g0)
    /\ added g0 (px_graph p) (fun a b w => root_edges p a b w \/ depends to_lowercase p a b w);
  bt_references : references_resolve p;
}.

Lemma depends_with_graph (p : PgrxSql G) g a b w :
  (root_edges p a b w \/ depends to_lowercase p a b w)
  <-> (root_edges (with_graph p g) a b w \/ depends to_lowercase (with_graph p g) a b w).
Proof. by rewrite <- !all_edges_depends. Qed.

Lemma references_with_graph (p : PgrxSql G) g : references_resolve p -> references_resolve (with_graph p g).
Proof. intros []. by split. Qed.

Lemma with_graph_same (p : PgrxSql G) g : with_graph (with_graph p g) (px_graph p) = p.
Proof. by destruct p. Qed.

Lemma build_ok entities name versioned c :
  sp_control (split_up (sort entities)) = Some c ->
  ensures (build to_lowercase entities name versioned) (built (split_up (sort entities))).
Proof.
  intros Hc. unfold build. eapply ensures_bind; [by eapply build_nodes_ok|]. intros p Hp.
  eapply ensures_bind.
  - apply build_edges_adds.
    + by eapply nodes_ok_maps_in.
    + intros item i u Hi. apply ready_placeholder. apply (no_extern_uses _ _ Hp).
      eapply init_ok_item; [apply (no_externs _ _ Hp) | exact Hi].
    + intros item i u Hi. apply ready_placeholder. apply (no_aggregate_uses _ _ Hp).
      eapply init_ok_item; [apply (no_aggregates _ _ Hp) | exact Hi].
  - intros g [Ha Hr]. cbn. split; [|by apply references_with_graph].
    exists (px_graph p). rewrite with_graph_same. split; [done|]. cbn.
    eapply added_equiv; [|exact Ha]. intros a b w. apply depends_with_graph.
Qed.

Lemma split_control entities :
  sp_control (split_up (sort entities)) = None <-> forall c, Entity_ExtensionRoot c ∉ entities.
Proof.
  unfold split_up. cbn [sp_control]. rewrite last_None. split.
  - intros Hnil c Hc. rewrite <- sort_perm in Hc.
    assert (Hin : c ∈ omap (fun e => match e with Entity_ExtensionRoot c => Some c | _ => None end)
      (sort entities)) by (apply list_elem_of_omap; eauto).
    rewrite Hnil in Hin. by apply elem_of_nil in Hin.
  - intros Hno. destruct (omap _ _) as [|c l] eqn:Eo; [done|]. exfalso.
    assert (Hin : c ∈ omap (fun e => match e with Entity_ExtensionRoot c => Some c | _ => None end)
      (sort entities)) by (rewrite Eo; apply list_elem_of_here).
    apply list_elem_of_omap in Hin as (e & He & Hm). destruct e; try done. injection Hm as ->.
    rewrite sort_perm in He. by apply (Hno c).
Qed.

Lemma build_built entities name versioned p :
  build to_lowercase entities name versioned = Ok p -> built (split_up (sort entities)) p.
Proof.
  intros Hb. destruct (sp_control (split_up (sort entities))) as [c|] eqn:Ec.
  - pose proof (build_ok entities name versioned c Ec) as He. by rewrite Hb in He.
  - unfold build, build_nodes in Hb. by rewrite Ec in Hb.
Qed.

(** [e] is in the map of its kind, at the node [i]. *)
Definition placed (p : PgrxSql G) (e : SqlGraphEntity) (i : NodeIndex) : Prop :=
  match e with
  | Entity_ExtensionRoot _ | Entity_BuiltinType _ => False
  | Entity_Schema s => (s, i) ∈ px_schemas p
  | Entity_CustomSql s => (s, i) ∈ px_extension_sqls p
  | Entity_Function s => (s, i) ∈ px_externs p
  | Entity_Type s => (s, i) ∈ px_types p
  | Entity_Enum s => (s, i) ∈ px_enums p
  | Entity_Ord s => (s, i) ∈ px_ords p
  | Entity_Hash s => (s, i) ∈ px_hashes p
  | Entity_Aggregate s => (s, i) ∈ px_aggregates p
  | Entity_Trigger s => (s, i) ∈ px_triggers p
  end.

Definition is_declared (e : SqlGraphEntity) : bool :=
  match e with Entity_ExtensionRoot _ | Entity_BuiltinType _ => false | _ => true end.

Lemma elem_of_split {A} (f : SqlGraphEntity -> option A) entities x :
  x ∈ omap f (sort entities) <-> exists e, e ∈ entities /\ f e = Some x.
Proof. rewrite list_elem_of_omap. by setoid_rewrite sort_perm. Qed.

Lemma init_ok_key {K} (into : K -> SqlGraphEntity) B (g : G) m items k :
  init_ok into B g m items -> k ∈ items -> exists i, (k, i) ∈ m.
Proof.
  intros Hm Hk. apply (io_keys _ _ _ _ _ Hm) in Hk.
  apply list_elem_of_fmap in Hk as ([k' i] & -> & Hi). eauto.
Qed.

Lemma placed_complete entities p e :
  built (split_up (sort entities)) p -> e ∈ entities -> is_declared e = true ->
  exists i, placed p e i.
Proof.
  intros [(g0 & Hn & _) _] He Hd. destruct e; try done; cbn [placed].
  - eapply (init_ok_key _ _ _ _ _ _ (no_schemas _ _ Hn)), elem_of_split; eauto.
  - eapply (init_ok_key _ _ _ _ _ _ (no_sqls _ _ Hn)), elem_of_split; eauto.
  - eapply (init_ok_key _ _ _ _ _ _ (no_externs _ _ Hn)), elem_of_split; eauto.
  - eapply (init_ok_key _ _ _ _ _ _ (no_types _ _ Hn)), elem_of_split; eauto.
  - eapply (init_ok_key _ _ _ _ _ _ (no_enums _ _ Hn)), elem_of_split; eauto.
  - eapply (init_ok_key _ _ _ _ _ _ (no_ords _ _ Hn)), elem_of_split; eauto.
  - eapply (init_ok_key _ _ _ _ _ _ (no_hashes _ _ Hn)), elem_of_split; eauto.
  - eapply (init_ok_key _ _ _ _ _ _ (no_aggregates _ _ Hn)), elem_of_split; eauto.
  - eapply (init_ok_key _ _ _ _ _ _ (no_triggers _ _ Hn)), elem_of_split; eauto.
Qed.

(** A block that holds a position has no base edge to or from itself. *)
Definition is_bootstrap (e : SqlGraphEntity) : bool :=
  match e with Entity_CustomSql s => sql_bootstrap s | _ => false end.

Definition is_finalize (e : SqlGraphEntity) : bool :=
  match e with Entity_CustomSql s => sql_finalize s | _ => false end.

Definition in_order (p : PgrxSql G) (g : G) (e : SqlGraphEntity) (i : NodeIndex) : Prop :=
  (is_bootstrap e = false -> forall b, px_graph_bootstrap p = Some b -> has_edge g b i By)
  /\ (is_finalize e = false -> forall f, px_graph_finalize p = Some f -> has_edge g i f By).

(** Where an entity is, from the maps; the root edge of a schema comes later. *)
Lemma placed_node sp p e i :
  nodes_ok sp p -> placed p e i ->
  g_weight (px_graph p) i = Some e /\ in_order p (px_graph p) e i
  /\ (has_edge (px_graph p) (px_graph_root p) i By \/ exists s, (s, i) ∈ px_schemas p).
Proof.
  intros Hn. unfold in_order. destruct e; cbn [placed is_bootstrap is_finalize]; intros Hi; try done.
  - destruct (io_node _ _ _ _ _ (no_schemas _ _ Hn) _ _ Hi) as [Hw [Hb Hf]].
    split; [done|]. split; [by split|]. eauto.
  - destruct (io_node _ _ _ _ _ (no_sqls _ _ Hn) _ _ Hi) as [Hw (Hr & Hb & Hf)].
    split; [done|]. split; [by split|]. by left.
  - destruct (io_node _ _ _ _ _ (no_externs _ _ Hn) _ _ Hi) as [Hw [Hr [Hb Hf]]].
    split; [done|]. split; [by split|]. by left.
  - destruct (io_node _ _ _ _ _ (no_types _ _ Hn) _ _ Hi) as [Hw [Hr [Hb Hf]]].
    split; [done|]. split; [by split|]. by left.
  - destruct (io_node _ _ _ _ _ (no_enums _ _ Hn) _ _ Hi) as [Hw [Hr [Hb Hf]]].
    split; [done|]. split; [by split|]. by left.
  - destruct (io_node _ _ _ _ _ (no_ords _ _ Hn) _ _ Hi) as [Hw [Hr [Hb Hf]]].
    split; [done|]. split; [by split|]. by left.
  - destruct (io_node _ _ _ _ _ (no_hashes _ _ Hn) _ _ Hi) as [Hw [Hr [Hb Hf]]].
    split; [done|]. split; [by split|]. by left.
  - destruct (io_node _ _ _ _ _ (no_aggregates _ _ Hn) _ _ Hi) as [Hw [Hr [Hb Hf]]].
    split; [done|]. split; [by split|]. by left.
  - destruct (io_node _ _ _ _ _ (no_triggers _ _ Hn) _ _ Hi) as [Hw [Hr [Hb Hf]]].
    split; [done|]. split; [by split|]. by left.
Qed.

Lemma placed_built sp p e i :
  built sp p -> placed p e i ->
  g_weight (px_graph p) i = Some e /\ has_edge (px_graph p) (px_graph_root p) i By
  /\ in_order p (px_graph p) e i.
Proof.
  intros [(g0 & Hn & Hsame & Hadd) _] Hi.
  destruct (placed_node _ _ e i Hn Hi) as (Hw & (Hb & Hf) & Hr). cbn in *.
  split; [by rewrite Hsame|]. split; [|split].
  - apply Hadd. destruct Hr as [Hr|[s Hs]]; [by left|]. right. left. exists s, i.
    split; [done|]. done.
  - intros Hflag b Hb'. apply Hadd. left. auto.
  - intros Hflag f Hf'. apply Hadd. left. auto.
Qed.

(** ** Dependencies join entities *)

Lemma depends_target p a b w : depends to_lowercase p a b w -> exists e, placed p e b.
Proof.
  intros Hd. destruct Hd;
    first [ by exists (Entity_CustomSql item) | by exists (Entity_Enum item)
          | by exists (Entity_Type item) | by exists (Entity_Function item)
          | by exists (Entity_Hash h) | by exists (Entity_Ord item) | by exists (Entity_Hash item)
          | by exists (Entity_Aggregate item) | by exists (Entity_Trigger item) ].
Qed.

Lemma depends_source p g a b w :
  maps_in p g -> depends to_lowercase p a b w -> is_Some (g_weight g a).
Proof.
  intros Hg Hd. destruct Hd;
    first [ by eapply schema_target_in | by eapply positioning_target_in
          | by eapply extern_target_in | by eapply use_target_in | by eapply derived_target_in
          | by eapply (mi_schemas _ _ Hg) | by eapply (mi_externs _ _ Hg)
          | by eapply hm_find_in; [apply (mi_externs _ _ Hg)|] ].
Qed.

Lemma built_maps_in sp p : built sp p -> maps_in p (px_graph p).
Proof.
  intros [(g0 & Hn & Hsame & _) _]. apply nodes_ok_maps_in in Hn.
  apply (maps_in_same p g0); [done|]. by destruct Hn.
Qed.

Lemma built_root sp p : built sp p ->
  g_weight (px_graph p) (px_graph_root p) = Some (Entity_ExtensionRoot (px_control p)).
Proof. intros [(g0 & Hn & Hsame & _) _]. destruct (no_control _ _ Hn) as [_ Hc]. by rewrite Hsame. Qed.

Lemma placed_not_root sp p e i : built sp p -> placed p e i -> i <> px_graph_root p.
Proof.
  intros Hb Hp ->. destruct (placed_built _ _ _ _ Hb Hp) as [Hw _].
  rewrite (built_root _ _ Hb) in Hw. injection Hw as <-. done.
Qed.

(** Every edge joins two nodes, and none leads to the root. *)
Lemma built_edges sp p a b w : built sp p -> has_edge (px_graph p) a b w ->
  is_Some (g_weight (px_graph p) a) /\ is_Some (g_weight (px_graph p) b) /\ b <> px_graph_root p.
Proof.
  intros Hb Hab. pose proof Hb as [(g0 & Hn & Hsame & Hadd) _].
  pose proof (built_maps_in _ _ Hb) as Hm.
  rewrite Hadd in Hab. destruct Hab as [Hab|[Hab|Hab]].
  - destruct (bi_edges _ _ _ _ _ (no_base _ _ Hn) a b w Hab) as (? & ? & ? & _). by rewrite !Hsame.
  - destruct Hab as (s & i & Hi & -> & -> & ->). split; [rewrite (built_root _ _ Hb); eauto|].
    split; [by eapply (mi_schemas _ _ Hm)|]. by eapply (placed_not_root _ _ (Entity_Schema s)).
  - destruct (depends_target _ _ _ _ Hab) as [e He].
    split; [by eapply depends_source|]. split; [|by eapply placed_not_root].
    destruct (placed_built _ _ _ _ Hb He) as [-> _]. eauto.
Qed.

Lemma built_wf sp p : built sp p -> graph_wf (px_graph p).
Proof. intros Hb a b w Hab. by destruct (built_edges _ _ _ _ _ Hb Hab) as (? & ? & _). Qed.

Lemma reach_root sp p i : built sp p -> reach (px_graph p) i (px_graph_root p) -> i = px_graph_root p.
Proof.
  intros Hb Hr. remember (px_graph_root p) as root eqn:Hroot.
  induction Hr as [|a b c w Hab _ IH]; [done|]. specialize (IH Hroot). subst b.
  destruct (built_edges _ _ _ _ _ Hb Hab) as (_ & _ & Hne). congruence.
Qed.

End Built.

(** ** Properties *)

Section Properties.
Context {G : Type} `{StableGraphLaws G} `{HashOrder}.
Variable (to_lowercase : string -> string).

(** C6. The construction is total up to the control file: it panics (no failed
    [expect], no index or edge out of the graph) exactly when no entity is a
    control file. *)
Theorem build_total (entities : list SqlGraphEntity) (name : string) (versioned : bool) :
  build (G:=G) to_lowercase entities name versioned = Panic
  <-> forall c, Entity_ExtensionRoot c ∉ entities.
Proof.
  rewrite <- split_control. destruct (sp_control (split_up (sort entities))) as [c|] eqn:Ec.
  - pose proof (build_ok (G:=G) to_lowercase entities name versioned c Ec) as Hb.
    split; [|done]. intros Hp. by rewrite Hp in Hb.
  - split; [done|]. intros _. unfold build, build_nodes. by rewrite Ec.
Qed.

(** The internal error of [connect_resolved_type] (a missing placeholder for
    an external type) cannot be reported: the initialization phase creates the
    placeholder of every external type the connection phase looks up. *)
Theorem build_placeholders (entities : list SqlGraphEntity) (name : string) (versioned : bool)
    (type_ident owner_kind owner_name slot : string) :
  build (G:=G) to_lowercase entities name versioned
  <> Err (MissingPlaceholder type_ident owner_kind owner_name slot).
Proof.
  destruct (sp_control (split_up (sort entities))) as [c|] eqn:Ec.
  - pose proof (build_ok (G:=G) to_lowercase entities name versioned c Ec) as Hb.
    intros Hp. by rewrite Hp in Hb.
  - unfold build, build_nodes. by rewrite Ec.
Qed.

(** The graph depends on which entities there are, not on the order they come
    in: permuting the input changes nothing. *)
Theorem build_permutation (entities entities' : list SqlGraphEntity) (name : string)
    (versioned : bool) :
  entities ≡ₚ entities' ->
  build (G:=G) to_lowercase entities name versioned
  = build to_lowercase entities' name versioned.
Proof. intros Hp. unfold build. by rewrite Hp. Qed.

(** Every declared entity has its node: it is in the map of its kind, the
    node carries it, and the node comes after the extension root. *)
Theorem build_places_entities (entities : list SqlGraphEntity) (name : string) (versioned : bool)
    (p : PgrxSql G) (e : SqlGraphEntity) :
  build to_lowercase entities name versioned = Ok p -> e ∈ entities -> is_declared e = true ->
  exists i, placed p e i /\ g_weight (px_graph p) i = Some e
    /\ has_edge (px_graph p) (px_graph_root p) i By.
Proof.
  intros Hb He Hd. apply build_built in Hb.
  destruct (placed_complete _ _ _ _ Hb He Hd) as [i Hi]. exists i.
  destruct (placed_built _ _ _ _ _ Hb Hi) as (Hw & Hr & _). auto.
Qed.

(** Bootstrap and finalize blocks: at most one block asks for each position;
    the one that does holds it, and every entity other than it is ordered after
    the bootstrap block and before the finalize block. *)
Theorem build_positions (entities : list SqlGraphEntity) (name : string) (versioned : bool)
    (p : PgrxSql G) :
  build to_lowercase entities name versioned = Ok p ->
  position sql_bootstrap (px_graph_bootstrap p) (px_extension_sqls p)
    (sp_extension_sqls (split_up (sort entities)))
  /\ position sql_finalize (px_graph_finalize p) (px_extension_sqls p)
    (sp_extension_sqls (split_up (sort entities)))
  /\ forall e i, placed p e i -> in_order p (px_graph p) e i.
Proof.
  intros Hb. apply build_built in Hb. pose proof Hb as [(g0 & Hn & _) _].
  split; [apply (no_bootstrap _ _ Hn)|]. split; [apply (no_finalize _ _ Hn)|].
  intros e i Hi. by destruct (placed_built _ _ _ _ _ Hb Hi) as (_ & _ & Ho).
Qed.

(** The base edges: from the root to every node but itself and the placeholders, from the
    bootstrap block to every such node but itself, and from every such node but itself to the
    finalize block.  Of [extension_sql!] blocks, and for the root of schemas, the nodes in
    their maps. *)
Definition gets_root (p : PgrxSql G) (i : NodeIndex) : Prop :=
  exists e, g_weight (px_graph p) i = Some e /\
    match e with
    | Entity_ExtensionRoot _ | Entity_BuiltinType _ => False
    | Entity_CustomSql s => (s, i) ∈ px_extension_sqls p
    | Entity_Schema s => (s, i) ∈ px_schemas p
    | _ => True
    end.
Definition base_edge (p : PgrxSql G) (a b : NodeIndex) (w : SqlGraphRequires) : Prop :=
  w = By /\ (a = px_graph_root p /\ gets_root p b
             \/ px_graph_bootstrap p = Some a /\ booted (px_extension_sqls p) (px_graph p) b
             \/ px_graph_finalize p = Some b /\ finished (px_extension_sqls p) (px_graph p) a).

Lemma base_form_edge sp p g0 a b w :
  nodes_ok sp (with_graph p g0) -> (forall i, g_weight (px_graph p) i = g_weight g0 i) -> has_edge g0 a b w -> base_edge p a b w.
Proof.
  intros Hn Hsame Hab. destruct (bi_edges _ _ _ _ _ (no_base _ _ Hn) a b w Hab) as (_ & _ & _ & -> & Hf). cbn in Hf.
  unfold base_edge, gets_root, booted, finished, rooted in *. split; [done|]. setoid_rewrite Hsame.
  destruct Hf as [[Ha (e & He & Hk)]|Hf]; [|by right]. left. split; [done|]. exists e. split; [done|]. by destruct e.
Qed.

(** All of them are there. *)
Lemma base_edges_there sp p a b w : built to_lowercase sp p -> base_edge p a b w -> has_edge (px_graph p) a b w.
Proof.
  intros Hb [-> He]. pose proof Hb as [(g0 & Hn & Hsame & Hadd) _].
  assert (Hplaced : forall e i, placed p e i -> has_edge (px_graph p) (px_graph_root p) i By /\ in_order p (px_graph p) e i)
    by (intros e i Hi; by destruct (placed_built _ _ _ _ _ Hb Hi) as (_ & ? & ?)).
  assert (Hbase : forall e i, g_weight (px_graph p) i = Some e ->
    has_base (px_graph_root p) (px_graph_bootstrap p) (px_graph_finalize p) g0 i e)
    by (intros e i Hi; rewrite Hsame in Hi; by apply (no_all _ _ Hn)).
  destruct He as [[-> (e & Hw & Hk)]|[[Ha (e & Hw & Hk)]|[Hf (e & Hw & Hk)]]].
  - destruct (plain e) eqn:Hp; [apply Hadd; left; eapply has_base_root; [exact Hp|by apply Hbase]|].
    destruct e as [|s|s| | | | | | | |]; try done.
    + by destruct (Hplaced (Entity_Schema s) b Hk).
    + by destruct (Hplaced (Entity_CustomSql s) b Hk).
  - destruct (is_plain_or_schema e) eqn:Hp; [apply Hadd; left; eapply ab_bootstrap; [eapply has_base_order; [exact Hp|by apply Hbase]|done]|].
    destruct e as [| |s| | | | | | | |]; try done. destruct Hk as [Hk Hfl].
    destruct (Hplaced (Entity_CustomSql s) b Hk) as [_ [Ho _]]. by apply Ho.
  - destruct (is_plain_or_schema e) eqn:Hp; [apply Hadd; left; eapply ab_finalize; [eapply has_base_order; [exact Hp|by apply Hbase]|done]|].
    destruct e as [| |s| | | | | | | |]; try done. destruct Hk as [Hk Hfl].
    destruct (Hplaced (Entity_CustomSql s) a Hk) as [_ [_ Ho]]. by apply Ho.
Qed.

(** C3. The graph implements the dependency relation: its edges are exactly the dependencies
    between entities and the base edges, which lead from the root to every entity, from the
    bootstrap block to every other entity and from every other entity to the finalize
    block; placeholders for types of Postgres have none of these. *)
Theorem build_edges_exact (entities : list SqlGraphEntity) (name : string) (versioned : bool)
    (p : PgrxSql G) :
  build to_lowercase entities name versioned = Ok p ->
  forall a b w, has_edge (px_graph p) a b w <-> depends to_lowercase p a b w \/ base_edge p a b w.
Proof.
  intros Hb%build_built a b w. pose proof Hb as [(g0 & Hn & Hsame & Hadd) _]. split.
  - intros Hab. apply Hadd in Hab as [Hab|[Hab|Hab]]; [right|right|by left].
    + by eapply base_form_edge.
    + destruct Hab as (s & i & Hi & -> & -> & ->). split; [done|]. left. split; [done|]. exists (Entity_Schema s).
      split; [|done]. by destruct (placed_built _ _ _ (Entity_Schema s) _ Hb Hi) as [? _].
  - intros [Hd|Hd]; [apply Hadd; auto|]. by eapply base_edges_there.
Qed.

(** What a type resolves to: a node that defines the type ident; a placeholder
    when the type is external. *)
Definition resolves_to (p : PgrxSql G) (u : type_use) (a : NodeIndex) : Prop :=
  exists t o e, ut_resolution (use_ty u) = Some (t, o) /\ g_weight (px_graph p) a = Some e
    /\ type_ident_matches e t = true /\ (o = External -> e = Entity_BuiltinType t).

Lemma use_target_resolves sp p u a :
  built to_lowercase sp p -> use_target p u = Some a -> resolves_to p u a.
Proof.
  intros Hb. pose proof Hb as [(g0 & Hn & Hsame & _) _]. unfold use_target, resolves_to.
  destruct (ut_resolution (use_ty u)) as [[t o]|]; [|done]. destruct o.
  - unfold find_graph_type_target, find_type_or_enum, find_declared_type_or_enum.
    destruct (hm_find _ (px_types p)) as [b|] eqn:Et.
    { intros [= <-]. apply hm_find_Some in Et as (k & Hk & Hm).
      destruct (placed_built _ _ _ (Entity_Type k) _ Hb Hk) as (Hw & _).
      exists t, ThisExtension, (Entity_Type k). by split; [|split; [|split; [exact Hm|]]]. }
    destruct (hm_find _ (px_enums p)) as [b|] eqn:Ee.
    { intros [= <-]. apply hm_find_Some in Ee as (k & Hk & Hm).
      destruct (placed_built _ _ _ (Entity_Enum k) _ Hb Hk) as (Hw & _).
      exists t, ThisExtension, (Entity_Enum k). by split; [|split; [|split; [exact Hm|]]]. }
    intros Hs. apply hm_find_Some in Hs as (k & Hk & Hm).
    destruct (placed_built _ _ _ (Entity_CustomSql k) _ Hb Hk) as (Hw & _).
    exists t, ThisExtension, (Entity_CustomSql k). by split; [|split; [|split; [exact Hm|]]].
  - intros Hg%hm_get_elem. exists t, External, (Entity_BuiltinType t). split; [done|].
    split; [rewrite Hsame; by apply (no_builtin _ _ Hn)|]. split; [|done]. cbn.
    by apply bool_decide_eq_true.
Qed.

Lemma types_first sp p :
  built to_lowercase sp p ->
  (forall item i u, (item, i) ∈ px_externs p -> u ∈ function_uses item ->
     exists a, resolves_to p u a /\ has_edge (px_graph p) a i (use_requires u))
  /\ forall item i u, (item, i) ∈ px_aggregates p -> u ∈ aggregate_uses item ->
     exists a, resolves_to p u a /\ has_edge (px_graph p) a i (use_requires u).
Proof.
  intros Hb. pose proof Hb as [(g0 & Hn & Hsame & Hadd) Hr].
  split; intros item i u Hi Hu.
  - destruct (rr_extern_types _ Hr item i u Hi Hu) as [a Ha]. exists a.
    split; [by eapply use_target_resolves|]. apply Hadd. right. right. by eapply dep_extern_type.
  - destruct (rr_aggregate_types _ Hr item i u Hi Hu) as [a Ha]. exists a.
    split; [by eapply use_target_resolves|]. apply Hadd. right. right. by eapply dep_aggregate_type.
Qed.

(** Types come before the functions and aggregates that mention them: for every
    type in a SQL-visible position of a function or an aggregate there is an edge
    to it from a node that defines the type. *)
Theorem build_types_first (entities : list SqlGraphEntity) (name : string) (versioned : bool)
    (p : PgrxSql G) :
  build to_lowercase entities name versioned = Ok p ->
  (forall item i u, (item, i) ∈ px_externs p -> u ∈ function_uses item ->
     exists a, resolves_to p u a /\ has_edge (px_graph p) a i (use_requires u))
  /\ forall item i u, (item, i) ∈ px_aggregates p -> u ∈ aggregate_uses item ->
     exists a, resolves_to p u a /\ has_edge (px_graph p) a i (use_requires u).
Proof. intros Hb. apply build_built in Hb. by eapply types_first. Qed.

(** [requires] is honoured: the target of every [requires = [..]] of a block or
    a function exists and precedes it; the input, output, receive and send
    functions of a type, and the functions an aggregate names, exist and precede
    it. *)
Theorem build_requires_first (entities : list SqlGraphEntity) (name : string) (versioned : bool)
    (p : PgrxSql G) :
  build to_lowercase entities name versioned = Ok p ->
  (forall item i r, (item, i) ∈ px_extension_sqls p -> r ∈ sql_requires item ->
     exists a, positioning_target p r = Some a /\ has_edge (px_graph p) a i By)
  /\ (forall item i rs r, (item, i) ∈ px_externs p -> Requires rs ∈ fn_extern_attrs item -> r ∈ rs ->
     exists a, positioning_target p r = Some a /\ has_edge (px_graph p) a i By)
  /\ (forall item i path, (item, i) ∈ px_types p -> path ∈ type_functions item ->
     exists f a, (f, a) ∈ px_externs p /\ fn_full_path f = path /\ has_edge (px_graph p) a i By)
  /\ forall item i path, (item, i) ∈ px_aggregates p -> path ∈ aggregate_function_paths item ->
     exists f a, (f, a) ∈ px_externs p /\ fn_full_path f = path /\ has_edge (px_graph p) a i By.
Proof.
  intros Hb. apply build_built in Hb. pose proof Hb as [(g0 & Hn & Hsame & Hadd) Hr].
  assert (Hfn : forall path a, extern_target p path = Some a ->
    exists f, (f, a) ∈ px_externs p /\ fn_full_path f = path).
  { intros path a Ha. apply hm_find_Some in Ha as (f & Hf & Hm).
    apply bool_decide_eq_true in Hm as ->. eauto. }
  split; [|split; [|split]].
  - intros item i r Hi Hreq. destruct (rr_sql_requires _ Hr item i r Hi Hreq) as [a Ha].
    exists a. split; [done|]. apply Hadd. right. right. by eapply dep_sql_requires.
  - intros item i rs r Hi Hrs Hreq. destruct (rr_extern_requires _ Hr item i rs r Hi Hrs Hreq) as [a Ha].
    exists a. split; [done|]. apply Hadd. right. right. by eapply dep_extern_requires.
  - intros item i path Hi Hpath. destruct (rr_type_functions _ Hr item i path Hi Hpath) as [a Ha].
    destruct (Hfn path a Ha) as (f & Hf & Hfp). exists f, a. split; [done|]. split; [done|].
    apply Hadd. right. right. by eapply dep_type_function.
  - intros item i path Hi Hpath. destruct (rr_aggregate_functions _ Hr item i path Hi Hpath) as [a Ha].
    destruct (Hfn path a Ha) as (f & Hf & Hfp). exists f, a. split; [done|]. split; [done|].
    apply Hadd. right. right. by eapply dep_aggregate_function.
Qed.

(** C2. The emitted schema is in order: every declared entity is emitted, after the
    extension root, and after everything it depends on, unless the two depend on
    each other. *)
Theorem schema_in_order (tarjan_scc : G -> list (list NodeIndex)) (entities : list SqlGraphEntity)
    (name : string) (versioned : bool) (p : PgrxSql G) :
  build to_lowercase entities name versioned = Ok p ->
  scc_postorder (px_graph p) (tarjan_scc (px_graph p)) ->
  exists o, emission_order (E:=build_error) tarjan_scc (px_graph p) = Ok o /\ NoDup o
    /\ (forall e, e ∈ entities -> is_declared e = true ->
          exists i, g_weight (px_graph p) i = Some e /\ before o (px_graph_root p) i)
    /\ forall a b w, depends to_lowercase p a b w -> ~ reach (px_graph p) b a -> before o a b.
Proof.
  intros Hb Hscc. apply build_built in Hb. pose proof (built_wf _ _ _ Hb) as Hwf.
  pose proof Hb as [(g0 & Hn & Hsame & Hadd) _].
  destruct (emission_parts (E:=build_error) tarjan_scc _ Hscc) as (os & Ho & Hg).
  destruct (orders_nodes tarjan_scc _ Hscc os Hg) as [Hnd _].
  exists (concat os). split; [exact Ho|]. split; [done|]. split.
  - intros e He Hd. destruct (placed_complete _ _ _ _ Hb He Hd) as [i Hi]. exists i.
    destruct (placed_built _ _ _ _ _ Hb Hi) as (Hw & Hr & _). split; [done|].
    apply (orders_edge tarjan_scc _ Hwf Hscc os Hg _ _ By Hr). intros Hreach.
    apply (reach_root _ _ _ _ Hb) in Hreach. by apply (placed_not_root _ _ _ _ _ Hb Hi).
  - intros a b w Hd. apply (orders_edge tarjan_scc _ Hwf Hscc os Hg a b w). apply Hadd. auto.
Qed.

End Properties.

(** ** Witnesses *)

Definition ascii_to_lowercase (c : Ascii.ascii) : Ascii.ascii :=
  let n := Ascii.nat_of_ascii c in
  if (65 <=? n)%nat && (n <=? 90)%nat then Ascii.ascii_of_nat (n + 32) else c.

Fixpoint ascii_lowercase (s : string) : string :=
  match s with
  | EmptyString => EmptyString
  | String c s => String (ascii_to_lowercase c) (ascii_lowercase s)
  end.

Definition ex_used (path : string) (origin : TypeOrigin) : UsedTypeEntity :=
  {| ut_ty_source := path; ut_full_path := path; ut_composite_type := None; ut_variadic := false;
     ut_default := None; ut_optional := false;
     ut_metadata := fmt_resolved path origin (rOk (SqlMapping_As path))
       (rOk (Returns_One (SqlMapping_As path))) |}.

Definition ex_fn (fn : string) (arg ret : UsedTypeEntity) (attrs : list ExternArgs) : PgExternEntity :=
  {| fn_name := fn; fn_unaliased_name := fn; fn_module_path := "animals";
     fn_full_path := "animals::" +:+ fn;
     fn_fn_args := [{| arg_pattern := "x"; arg_used_ty := arg |}];
     fn_fn_return := Return_Type ret; fn_schema := None; fn_file := "lib.rs"; fn_line := 20;
     fn_extern_attrs := attrs; fn_search_path := None; fn_operator := None; fn_cast := None;
     fn_to_sql_config := ex_config_off |}.

Definition ex_dog := ex_used "animals::Dog" ThisExtension.
Definition ex_cstring := ex_used "cstring" External.

Definition ex_bootstrap : ExtensionSqlEntity :=
  {| sql_module_path := "animals"; sql_full_path := "animals"; sql_sql := "SELECT 1";
     sql_file := "lib.rs"; sql_line := 1; sql_name := "first"; sql_bootstrap := true;
     sql_finalize := false; sql_requires := []; sql_creates := [] |}.

Definition ex_entities : list SqlGraphEntity :=
  [Entity_Function (ex_fn "dog_name" ex_dog ex_cstring [Requires [FullPath "animals::Dog"]]);
   Entity_Type ex_type; Entity_ExtensionRoot ex_control;
   Entity_Function (ex_fn "dog_in" ex_cstring ex_dog []);
   Entity_CustomSql ex_bootstrap;
   Entity_Function (ex_fn "dog_out" ex_dog ex_cstring [])].

Definition ex_build : outcome build_error (PgrxSql ListGraph) :=
  build (H0:=hash_order_id) ascii_lowercase ex_entities "dogs" false.

Definition ex_built : PgrxSql ListGraph :=
  match ex_build with
  | Ok p => p
  | _ => {| px_control := ex_control; px_graph := g_new; px_graph_root := 0%nat;
            px_graph_bootstrap := None; px_graph_finalize := None; px_schemas := [];
            px_extension_sqls := []; px_externs := []; px_types := []; px_builtin_types := [];
            px_enums := []; px_ords := []; px_hashes := []; px_aggregates := []; px_triggers := [];
            px_extension_name := ""; px_versioned_so := false; px_qualify_default_schema := false |}
  end.

Lemma ex_build_ok : build (H0:=hash_order_id) ascii_lowercase ex_entities "dogs" false = Ok ex_built.
Proof. vm_compute. reflexivity. Qed.

Definition ex_dog_name := ex_fn "dog_name" ex_dog ex_cstring [Requires [FullPath "animals::Dog"]].

(** The type (2) and its input and output functions (3, 6) need each other. *)
Definition ex_built_components (_ : ListGraph) : list (list NodeIndex) :=
  [[5]; [2; 3; 6]; [4]; [1]; [0]]%nat.

Lemma build_total_witness :
  build (G:=ListGraph) (H0:=hash_order_id) ascii_lowercase [Entity_Type ex_type] "dogs" false = Panic.
Proof.
  apply (build_total (G:=ListGraph) (H1:=hash_order_id) ascii_lowercase [Entity_Type ex_type] "dogs" false).
  intros c Hc. apply list_elem_of_singleton in Hc. discriminate Hc.
Defined.

Lemma build_placeholders_witness :
  build (G:=ListGraph) (H0:=hash_order_id) ascii_lowercase ex_entities "dogs" false
  <> Err (MissingPlaceholder "cstring" "Function" "animals::dog_in" "return type").
Proof.
  apply (build_placeholders (G:=ListGraph) (H1:=hash_order_id) ascii_lowercase ex_entities "dogs" false).
Defined.

Lemma build_permutation_witness :
  build (G:=ListGraph) (H0:=hash_order_id) ascii_lowercase ex_entities "dogs" false
  = build (H0:=hash_order_id) ascii_lowercase (reverse ex_entities) "dogs" false.
Proof.
  apply (build_permutation (H1:=hash_order_id) ascii_lowercase ex_entities (reverse ex_entities)).
  symmetry. apply reverse_Permutation.
Defined.

Lemma build_places_entities_witness :
  exists i, placed ex_built (Entity_Type ex_type) i
    /\ g_weight (px_graph ex_built) i = Some (Entity_Type ex_type)
    /\ has_edge (px_graph ex_built) (px_graph_root ex_built) i By.
Proof.
  apply (build_places_entities (H1:=hash_order_id) ascii_lowercase ex_entities "dogs" false).
  - apply ex_build_ok.
  - by apply (bool_decide_unpack _); vm_compute.
  - reflexivity.
Defined.

Lemma build_positions_witness :
  position sql_bootstrap (px_graph_bootstrap ex_built) (px_extension_sqls ex_built)
    (sp_extension_sqls (split_up (sort ex_entities)))
  /\ position sql_finalize (px_graph_finalize ex_built) (px_extension_sqls ex_built)
    (sp_extension_sqls (split_up (sort ex_entities)))
  /\ forall e i, placed ex_built e i -> in_order ex_built (px_graph ex_built) e i.
Proof.
  apply (build_positions (H1:=hash_order_id) ascii_lowercase ex_entities "dogs" false).
  apply ex_build_ok.
Defined.

Lemma build_edges_exact_witness :
  g_edges (px_graph ex_built) 1%nat <> []
  /\ forall a b w, has_edge (px_graph ex_built) a b w
       <-> depends (H0:=hash_order_id) ascii_lowercase ex_built a b w \/ base_edge ex_built a b w.
Proof.
  split; [vm_compute; discriminate|].
  apply (build_edges_exact (H1:=hash_order_id) ascii_lowercase ex_entities "dogs" false).
  apply ex_build_ok.
Defined.

Lemma build_types_first_witness :
  (forall item i u, (item, i) ∈ px_externs ex_built -> u ∈ function_uses item ->
     exists a, resolves_to ex_built u a /\ has_edge (px_graph ex_built) a i (use_requires u))
  /\ forall item i u, (item, i) ∈ px_aggregates ex_built -> u ∈ aggregate_uses item ->
     exists a, resolves_to ex_built u a /\ has_edge (px_graph ex_built) a i (use_requires u).
Proof.
  apply (build_types_first (H1:=hash_order_id) ascii_lowercase ex_entities "dogs" false).
  apply ex_build_ok.
Defined.

Lemma build_requires_first_witness :
  exists a, positioning_target (H0:=hash_order_id) ex_built (FullPath "animals::Dog") = Some a
    /\ has_edge (px_graph ex_built) a 5%nat By.
Proof.
  destruct (build_requires_first (H1:=hash_order_id) ascii_lowercase ex_entities "dogs" false ex_built
    ex_build_ok) as (_ & Hfn & _).
  apply (Hfn ex_dog_name 5%nat [FullPath "animals::Dog"]);
    by apply (bool_decide_unpack _); vm_compute.
Defined.

Lemma schema_in_order_witness :
  exists o, emission_order (E:=build_error) (H0:=hash_order_id) ex_built_components (px_graph ex_built) = Ok o
    /\ NoDup o
    /\ (forall e, e ∈ ex_entities -> is_declared e = true ->
          exists i, g_weight (px_graph ex_built) i = Some e /\ before o (px_graph_root ex_built) i)
    /\ forall a b w, depends (H0:=hash_order_id) ascii_lowercase ex_built a b w ->
         ~ reach (px_graph ex_built) b a -> before o a b.
Proof.
  apply (schema_in_order (H1:=hash_order_id) ascii_lowercase ex_built_components ex_entities "dogs" false).
  - apply ex_build_ok.
  - apply scc_check_sound; [apply lg_wf_sound; vm_compute; reflexivity | by vm_compute].
Defined.

(** The built graph need not be acyclic: a type and its input function depend on
    each other. *)
Lemma built_graph_cyclic :
  reach (px_graph ex_built) 2%nat 3%nat /\ reach (px_graph ex_built) 3%nat 2%nat.
Proof.
  assert (Hwf : graph_wf (px_graph ex_built)) by (apply lg_wf_sound; vm_compute; reflexivity).
  split; apply reachb_spec; try done; vm_compute; reflexivity.
Qed.
