(* ===== verification/Text.v ===== *)
(** * Rust strings: the [str] methods the generator calls

    [str::trim] (Unicode [White_Space], on UTF-8 bytes), [lines], [split] on a
    character, [trim_start_matches] and [trim_end_matches] on a character,
    [contains], [replace] and [join], and [format!] as the concatenation of its
    pieces.  A Rust string is a [string] of bytes, as in the rest of the
    library. *)
From S2P Require Import Prelude.

Definition LF : Ascii.ascii := "010"%char.
Definition CR : Ascii.ascii := "013"%char.

(** The newline, tab and double quote escapes of a format string. *)
Definition nl : string := String LF EmptyString.
Definition tab : string := String "009"%char EmptyString.
Definition dq : string := String "034"%char EmptyString.

(** [format!]: the literal pieces and the displayed arguments, in order. *)
Definition format (pieces : list string) : string := foldr String.append EmptyString pieces.

(** [slice.join(separator)] *)
Definition join_with (separator : string) (pieces : list string) : string := String.concat separator pieces.

(** [str::is_empty] *)
Definition is_empty (s : string) : bool := match s with EmptyString => true | _ => false end.

(** ** White space: [char::is_whitespace] on the one, two or three bytes of a
    character *)

Definition byte_is (n : N) (c : Ascii.ascii) : bool := (N_of_ascii c =? n)%N.
Definition byte_in (lo hi : N) (c : Ascii.ascii) : bool :=
  ((lo <=? N_of_ascii c) && (N_of_ascii c <=? hi))%N.

Definition ws1 (a : Ascii.ascii) : bool := byte_in 9 13 a || byte_is 32 a.
Definition ws2 (a b : Ascii.ascii) : bool := byte_is 0xC2 a && (byte_is 0x85 b || byte_is 0xA0 b).
Definition ws3 (a b c : Ascii.ascii) : bool :=
  byte_is 0xE1 a && byte_is 0x9A b && byte_is 0x80 c
  || byte_is 0xE2 a && byte_is 0x80 b
     && (byte_in 0x80 0x8A c || byte_is 0xA8 c || byte_is 0xA9 c || byte_is 0xAF c)
  || byte_is 0xE2 a && byte_is 0x81 b && byte_is 0x9F c
  || byte_is 0xE3 a && byte_is 0x80 b && byte_is 0x80 c.

(** [str::trim_start] *)
Fixpoint trim_start (s : string) : string :=
  match s with
  | EmptyString => EmptyString
  | String a r1 =>
      if ws1 a then trim_start r1
      else match r1 with
      | EmptyString => s
      | String b r2 =>
          if ws2 a b then trim_start r2
          else match r2 with
          | EmptyString => s
          | String c r3 => if ws3 a b c then trim_start r3 else s
          end
      end
  end.

(** [str::trim_end]: cut where only white space is left.  A cut never falls
    inside a character, since a continuation byte does not start one. *)
Fixpoint trim_end (s : string) : string :=
  match s with
  | EmptyString => EmptyString
  | String c rest => if is_empty (trim_start s) then EmptyString else String c (trim_end rest)
  end.

Definition trim (s : string) : string := trim_end (trim_start s).

(** ** Searching and splitting *)

Fixpoint contains (pattern s : string) : bool :=
  String.prefix pattern s || match s with EmptyString => false | String _ rest => contains pattern rest end.

(** [str::replace] for a pattern that is not empty: left to right, without
    overlaps; [skip] bytes of a match are still to be dropped. *)
Fixpoint replace_from (pattern replacement : string) (skip : nat) (s : string) : string :=
  match s with
  | EmptyString => EmptyString
  | String c rest =>
      match skip with
      | S skip => replace_from pattern replacement skip rest
      | O =>
          if String.prefix pattern s
          then replacement +:+ replace_from pattern replacement (String.length pattern - 1) rest
          else String c (replace_from pattern replacement 0 rest)
      end
  end.

Definition replace (pattern replacement s : string) : string := replace_from pattern replacement 0 s.

(** [str::split(c)] *)
Fixpoint split_char (sep : Ascii.ascii) (s : string) : list string :=
  match s with
  | EmptyString => [EmptyString]
  | String c rest =>
      if Ascii.eqb c sep then EmptyString :: split_char sep rest
      else match split_char sep rest with
           | part :: parts => String c part :: parts
           | [] => []
           end
  end.

(** [str::lines]: split at [\n], which ends a line, and drop the [\r] before it. *)
Fixpoint lines (s : string) : list string :=
  match s with
  | EmptyString => []
  | String c rest =>
      if Ascii.eqb c LF then EmptyString :: lines rest
      else match rest with
      | String c' rest' =>
          if Ascii.eqb c CR && Ascii.eqb c' LF then EmptyString :: lines rest'
          else match lines rest with
               | line :: more => String c line :: more
               | [] => []
               end
      | EmptyString => [s]
      end
  end.

(** [str::trim_start_matches(c)] and [str::trim_end_matches(c)] *)
Fixpoint trim_start_matches (c : Ascii.ascii) (s : string) : string :=
  match s with
  | EmptyString => EmptyString
  | String c' rest => if Ascii.eqb c' c then trim_start_matches c rest else s
  end.

Fixpoint trim_end_matches (c : Ascii.ascii) (s : string) : string :=
  match s with
  | EmptyString => EmptyString
  | String c' rest =>
      if is_empty (trim_start_matches c s) then EmptyString else String c' (trim_end_matches c rest)
  end.

(** [str::ends_with(c)] *)
Fixpoint ends_with_char (c : Ascii.ascii) (s : string) : bool :=
  match s with
  | EmptyString => false
  | String c' EmptyString => Ascii.eqb c' c
  | String _ rest => ends_with_char c rest
  end.

(** ** Lemmas *)

(** Whether a character occurs in a string. *)
Fixpoint has_char (c : Ascii.ascii) (s : string) : bool :=
  match s with
  | EmptyString => false
  | String c' rest => Ascii.eqb c' c || has_char c rest
  end.

Lemma app_cons c (s t : string) : String c s +:+ t = String c (s +:+ t).
Proof. done. Qed.

Lemma app_nil_s (t : string) : "" +:+ t = t.
Proof. done. Qed.

Lemma has_char_app c s t : has_char c (s +:+ t) = has_char c s || has_char c t.
Proof. induction s as [|c' s IH]; [done|]. rewrite app_cons. cbn. by rewrite IH, orb_assoc. Qed.

Lemma app_empty_r (s : string) : s +:+ "" = s.
Proof. induction s as [|c s IH]; [done|]. by rewrite app_cons, IH. Qed.

Lemma app_assoc_s (s t u : string) : (s +:+ t) +:+ u = s +:+ (t +:+ u).
Proof. induction s as [|c s IH]; [done|]. by rewrite !app_cons, IH. Qed.

Lemma format_app l l' : format (l ++ l') = format l +:+ format l'.
Proof.
  induction l as [|s l IH]; [done|].
  change (s +:+ format (l ++ l') = (s +:+ format l) +:+ format l'). by rewrite IH, app_assoc_s.
Qed.

Lemma is_empty_true s : is_empty s = true <-> s = "".
Proof. by destruct s. Qed.

(** A character that stands for itself in UTF-8 and is not white space. *)
Definition solid (c : Ascii.ascii) : bool := (N_of_ascii c <? 0x80)%N && negb (ws1 c).

Lemma solid_not_ws c : solid c = true ->
  ws1 c = false /\ (forall b, ws2 c b = false) /\ (forall a, ws2 a c = false)
  /\ (forall a b, ws3 c a b = false) /\ (forall a b, ws3 a c b = false) /\ (forall a b, ws3 a b c = false).
Proof.
  unfold solid. intros [Hc Hw]%andb_prop. apply N.ltb_lt in Hc. apply negb_true_iff in Hw.
  split; [done|].
  assert (Hno : forall n, (0x80 <= n)%N -> byte_is n c = false) by (intros n Hn; apply N.eqb_neq; lia).
  assert (Hin : forall hi, byte_in 0x80 hi c = false).
  { intros hi. unfold byte_in. apply andb_false_iff. left. apply N.leb_gt. lia. }
  unfold ws2, ws3.
  repeat split; intros; rewrite ?Hin, !Hno by lia; rewrite ?andb_false_r; done.
Qed.

Lemma trim_start_solid c s : solid c = true -> trim_start (String c s) = String c s.
Proof.
  intros Hc. destruct (solid_not_ws c Hc) as (H1 & H2 & _ & H3 & _). cbn. rewrite H1.
  destruct s as [|b [|d s]]; [done| |]; rewrite H2; [done|]. by rewrite H3.
Qed.

(** Text that ends in such a character is not all white space. *)
Lemma trim_start_ends s c :
  solid c = true -> is_empty (trim_start (s +:+ String c "")) = false.
Proof.
  intros Hc. destruct (solid_not_ws c Hc) as (H1 & H2 & H2' & H3 & H3' & H3'').
  remember (String.length s) as n eqn:Hn. revert s Hn.
  induction n as [n IH] using lt_wf_ind. intros s ->.
  destruct s as [|x s]; [rewrite app_nil_s; by rewrite trim_start_solid|].
  rewrite app_cons. cbn [trim_start].
  destruct (ws1 x); [apply (IH (String.length s)); [cbn; lia | done]|].
  destruct s as [|y s]; [rewrite app_nil_s; cbn; by rewrite H2'|].
  rewrite app_cons. destruct (ws2 x y); [apply (IH (String.length s)); [cbn; lia | done]|].
  destruct s as [|z s]; [rewrite app_nil_s; cbn; by rewrite H3''|].
  rewrite app_cons. destruct (ws3 x y z); [apply (IH (String.length s)); [cbn; lia | done] | done].
Qed.

Lemma trim_end_ends s c : solid c = true -> trim_end (s +:+ String c "") = s +:+ String c "".
Proof.
  intros Hc. induction s as [|x s IH].
  - rewrite app_nil_s.
    cbn [trim_end]. by rewrite trim_start_solid.
  - pose proof (trim_start_ends (String x s) c Hc) as He.
    change (trim_end (String x (s +:+ String c "")) = String x (s +:+ String c "")).
    cbn [trim_end]. change (String x s +:+ String c "") with (String x (s +:+ String c "")) in He.
    rewrite He. by rewrite IH.
Qed.

(** Text between two such characters is left as it is. *)
Lemma trim_solid s a b :
  solid a = true -> solid b = true -> trim (String a (s +:+ String b "")) = String a (s +:+ String b "").
Proof.
  intros Ha Hb. unfold trim. rewrite trim_start_solid by done.
  exact (trim_end_ends (String a s) b Hb).
Qed.

Lemma trim_start_space s : trim_start (String " " s) = trim_start s.
Proof. done. Qed.

Lemma replace_absent pattern replacement s :
  contains pattern s = false -> replace pattern replacement s = s.
Proof.
  unfold replace. induction s as [|c s IH]; [done|]. cbn -[String.prefix].
  intros [Hp Hc]%orb_false_iff. rewrite Hp. by rewrite IH.
Qed.

Lemma split_char_absent sep s : has_char sep s = false -> split_char sep s = [s].
Proof.
  induction s as [|c s IH]; [done|]. cbn. intros [Hc Hs]%orb_false_iff. rewrite Hc. by rewrite IH.
Qed.

Lemma split_char_app sep s t :
  has_char sep s = false -> split_char sep (s +:+ String sep t) = s :: split_char sep t.
Proof.
  induction s as [|c s IH]; [rewrite app_nil_s; cbn; by rewrite Ascii.eqb_refl|].
  intros [Hc Hs]%orb_false_iff. rewrite app_cons. cbn. rewrite Hc. by rewrite IH.
Qed.

(** A line that has no [\n] and does not end in [\r]. *)
Lemma lines_app l rest :
  has_char LF l = false -> ends_with_char CR l = false ->
  lines (l +:+ String LF rest) = l :: lines rest.
Proof.
  induction l as [|c l IH]; [done|].
  intros [Hc Hl]%orb_false_iff Hcr. rewrite app_cons. cbn [lines]. rewrite Hc.
  destruct l as [|c' l].
  - rewrite app_nil_s. cbn in Hcr |- *. by rewrite Hcr.
  - cbn in Hcr. specialize (IH Hl Hcr). rewrite app_cons in IH |- *.
    assert (Hc' : Ascii.eqb c' LF = false) by (by apply orb_false_iff in Hl as [? _]).
    rewrite Hc', andb_false_r. by rewrite IH.
Qed.

Lemma trim_start_matches_first c c' s :
  Ascii.eqb c' c = false -> trim_start_matches c (String c' s) = String c' s.
Proof. cbn. by intros ->. Qed.

(** Whether a string begins with a character. *)
Definition starts_with_char (c : Ascii.ascii) (s : string) : bool :=
  match s with String c' _ => Ascii.eqb c' c | EmptyString => false end.

Lemma trim_start_matches_absent c s : starts_with_char c s = false -> trim_start_matches c s = s.
Proof. destruct s as [|c' s]; [done|]. cbn. by intros ->. Qed.

Lemma trim_start_matches_app c s t :
  starts_with_char c s = false -> is_empty s = false -> trim_start_matches c (s +:+ t) = s +:+ t.
Proof. destruct s as [|c' s]; [done|]. rewrite app_cons. cbn. by intros ->. Qed.

Lemma trim_start_matches_ends c s :
  ends_with_char c s = false -> s <> "" -> is_empty (trim_start_matches c s) = false.
Proof.
  induction s as [|c' s IH]; [done|]. intros He _. cbn.
  destruct (Ascii.eqb c' c) eqn:Ec; [|done]. destruct s as [|c'' s]; [cbn in He; congruence|].
  by apply IH.
Qed.

Lemma trim_start_matches_all c : trim_start_matches c (String c "") = "".
Proof. cbn. by rewrite Ascii.eqb_refl. Qed.

(** One closing quote is dropped, and no more than the text ends in. *)
Lemma trim_end_matches_one c s :
  ends_with_char c s = false -> trim_end_matches c (s +:+ String c "") = s.
Proof.
  induction s as [|c' s IH]; intros He.
  - change ((if is_empty (trim_start_matches c (String c "")) then "" else
      String c (trim_end_matches c "")) = ""). by rewrite trim_start_matches_all.
  - assert (Hne : is_empty (trim_start_matches c (String c' (s +:+ String c ""))) = false).
    { cbn. destruct (Ascii.eqb c' c) eqn:Ec; [|done]. destruct s as [|c'' s]; [cbn in He; congruence|].
      clear IH. cbn in He. revert c'' He. induction s as [|d s IHs]; intros c'' He;
        rewrite ?app_cons, ?app_nil_s; cbn in *.
      - by rewrite He.
      - destruct (Ascii.eqb c'' c); [|done]. by apply IHs. }
    change (trim_end_matches c (String c' s +:+ String c ""))
      with (if is_empty (trim_start_matches c (String c' (s +:+ String c ""))) then ""
            else String c' (trim_end_matches c (s +:+ String c ""))).
    rewrite Hne, IH; [done|]. destruct s as [|c'' s]; [done|]. exact He.
Qed.
