(* ===== verification/ControlFile.v ===== *)
(** * The control file

    [pgrx-sql-entity-graph/src/control_file.rs]: the parser of an extension's
    [.control] file.  The file's contents and the environment variable
    [CARGO_PKG_VERSION] are arguments. *)
From S2P Require Import Prelude Metadata Entities Text.
From stdpp Require Import list gmap strings.

Inductive ControlFileError :=
| IOError
| MissingField (field : string)
| RedundantField (field : string)
| MissingEnvvar (name : string).

Section Parse.
(** [std::env::var("CARGO_PKG_VERSION")] *)
Variable (env_version : option string).

Definition CARGO_VERSION : string := "@CARGO_VERSION@".

Definition do_var_replacements (input : string) (cargo_version : option string)
    : outcome ControlFileError string :=
  if contains CARGO_VERSION input then
    cargo_version ← match cargo_version with
                    | Some cargo_version => Ok cargo_version
                    | None => ok_or (MissingEnvvar "CARGO_PKG_VERSION") env_version
                    end;
    Ok (replace CARGO_VERSION cargo_version input)
  else Ok input.

(** One line: [key = value], or something else, which is skipped. *)
Definition parse_line (cargo_version : option string) (temp : gmap string string) (line : string)
    : outcome ControlFileError (gmap string string) :=
  match split_char "=" line with
  | [k; v] =>
      let k := trim k in
      let v := trim_end_matches "'" (trim_start_matches "'" (trim v)) in
      v ← do_var_replacements v cargo_version;
      Ok (<[k := v]> temp)
  | _ => Ok temp
  end.

Definition required (temp : gmap string string) (field : string) : outcome ControlFileError string :=
  ok_or (MissingField field) (temp !! field).

Definition from_str_with_version (input : string) (cargo_version : option string)
    : outcome ControlFileError ControlFile :=
  temp ← fold_outcome (parse_line cargo_version) ∅ (lines input);
  comment ← required temp "comment";
  default_version ← required temp "default_version";
  relocatable ← required temp "relocatable";
  superuser ← required temp "superuser";
  let control_file := {|
    ctl_comment := comment;
    ctl_default_version := default_version;
    ctl_module_pathname := temp !! "module_pathname";
    ctl_relocatable := bool_decide (relocatable = "true");
    ctl_superuser := bool_decide (superuser = "true");
    ctl_schema := temp !! "schema";
    ctl_trusted := match temp !! "trusted" with Some v => bool_decide (v = "true") | None => false end |} in
  if negb (ctl_superuser control_file) && ctl_trusted control_file
  then Err (RedundantField "trusted")
  else Ok control_file.

Definition from_str (input : string) : outcome ControlFileError ControlFile :=
  from_str_with_version input None.

Definition from_str_with_cargo_version (input cargo_version : string)
    : outcome ControlFileError ControlFile :=
  from_str_with_version input (Some cargo_version).

(** [read_to_string(path)] is [contents], [None] when it fails. *)
Definition from_path_with_cargo_version (contents : option string) (cargo_version : string)
    : outcome ControlFileError ControlFile :=
  contents ← ok_or IOError contents;
  from_str_with_cargo_version contents cargo_version.

End Parse.

(** ** The text of a control file *)

Definition show_bool (b : bool) : string := if b then "true" else "false".
Definition in_quotes (v : string) : string := "'" +:+ v +:+ "'".

Definition opt_setting (k : string) (v : option string) : list (string * string) :=
  match v with Some v => [(k, in_quotes v)] | None => [] end.

Definition control_settings (c : ControlFile) : list (string * string) :=
  [("comment", in_quotes (ctl_comment c)); ("default_version", in_quotes (ctl_default_version c))]
  ++ opt_setting "module_pathname" (ctl_module_pathname c)
  ++ [("relocatable", show_bool (ctl_relocatable c)); ("superuser", show_bool (ctl_superuser c))]
  ++ opt_setting "schema" (ctl_schema c)
  ++ [("trusted", show_bool (ctl_trusted c))].

Definition setting_text (kv : string * string) : string := kv.1 +:+ " = " +:+ kv.2 +:+ nl.

Definition control_text (c : ControlFile) : string := format (map setting_text (control_settings c)).

(** A value that can be written between quotes on one line. *)
Definition value_ok (v : string) : bool :=
  negb (has_char LF v) && negb (has_char "=" v)
  && negb (starts_with_char "'" v) && negb (ends_with_char "'" v).

Definition control_ok (c : ControlFile) : bool :=
  value_ok (ctl_comment c) && value_ok (ctl_default_version c)
  && opt_ok value_ok (ctl_module_pathname c) && opt_ok value_ok (ctl_schema c).

(** The strings of a control file. *)
Definition control_strings (c : ControlFile) : list string :=
  [ctl_comment c; ctl_default_version c] ++ option_list (ctl_module_pathname c)
  ++ option_list (ctl_schema c).

Definition map_strings (f : string -> string) (c : ControlFile) : ControlFile :=
  {| ctl_comment := f (ctl_comment c);
     ctl_default_version := f (ctl_default_version c);
     ctl_module_pathname := f <$> ctl_module_pathname c;
     ctl_relocatable := ctl_relocatable c;
     ctl_superuser := ctl_superuser c;
     ctl_schema := f <$> ctl_schema c;
     ctl_trusted := ctl_trusted c |}.

(** The check that ends the parser. *)
Definition checked (c : ControlFile) : outcome ControlFileError ControlFile :=
  if negb (ctl_superuser c) && ctl_trusted c then Err (RedundantField "trusted") else Ok c.

(** ** One line *)

Section RoundTrip.
Variable (env_version cargo_version : option string).

(** The version in force: the caller's, or else the environment's. *)
Definition version : option string :=
  match cargo_version with Some v => Some v | None => env_version end.

Lemma do_var_spec v :
  do_var_replacements env_version v cargo_version
  = match version with
    | Some w => Ok (replace CARGO_VERSION w v)
    | None => if contains CARGO_VERSION v then Err (MissingEnvvar "CARGO_PKG_VERSION") else Ok v
    end.
Proof.
  unfold do_var_replacements, version. destruct (contains CARGO_VERSION v) eqn:Ec.
  - by destruct cargo_version, env_version.
  - destruct cargo_version, env_version; try done; by rewrite replace_absent.
Qed.

(** The text [w] after the sign is read as the value [v] of [k]. *)
Record reads (k w v : string) : Prop := {
  rd_key : has_char "=" k = false /\ has_char LF k = false /\ trim (k +:+ " ") = k;
  rd_text : has_char "=" w = false /\ has_char LF w = false /\ ends_with_char CR w = false /\ w <> "";
  rd_value : trim_end_matches "'" (trim_start_matches "'" (trim (" " +:+ w))) = v;
}.

Lemma ends_with_char_app c s t : t <> "" -> ends_with_char c (s +:+ t) = ends_with_char c t.
Proof.
  intros Ht. induction s as [|c' s IH]; [done|]. rewrite app_cons. cbn.
  destruct (s +:+ t) eqn:E; [|done]. destruct s; [by rewrite app_nil_s in E | done].
Qed.

Lemma setting_line k w v rest temp :
  reads k w v ->
  lines (setting_text (k, w) +:+ rest) = (k +:+ " = " +:+ w) :: lines rest
  /\ parse_line env_version cargo_version temp (k +:+ " = " +:+ w)
     = (v ← do_var_replacements env_version v cargo_version; Ok (<[k := v]> temp)).
Proof.
  intros [(Hk & Hkl & Hkt) (Hw & Hwl & Hcr & Hne) Hv]. split.
  - unfold setting_text. cbn [fst snd]. rewrite !app_assoc_s. change (nl +:+ rest) with (String LF rest).
    rewrite <- (app_assoc_s " = "), <- (app_assoc_s k). apply lines_app.
    + by rewrite !has_char_app, Hkl, Hwl.
    + rewrite !ends_with_char_app; [done | done |]. by destruct w.
  - unfold parse_line.
    replace (k +:+ " = " +:+ w) with ((k +:+ " ") +:+ String "=" (" " +:+ w)) by (by rewrite app_assoc_s).
    rewrite split_char_app by (by rewrite has_char_app, Hk).
    rewrite split_char_absent by (by rewrite has_char_app, Hw).
    by rewrite Hkt, Hv.
Qed.

(** ** All lines *)

Definition set (temp : gmap string string) (kv : string * string)
    : outcome ControlFileError (gmap string string) :=
  v ← do_var_replacements env_version kv.2 cargo_version; Ok (<[kv.1 := v]> temp).

Lemma set_eq temp k v :
  set temp (k, v)
  = (v ← do_var_replacements env_version v cargo_version; Ok (<[k := v]> temp)).
Proof. done. Qed.

Lemma settings_parse settings values :
  Forall2 (fun kw kv => kw.1 = kv.1 /\ reads kw.1 kw.2 kv.2) settings values ->
  forall temp,
  fold_outcome (parse_line env_version cargo_version) temp (lines (format (map setting_text settings)))
  = fold_outcome set temp values.
Proof.
  induction 1 as [|[k w] [k' v] settings values [Hk Hr] _ IH]; [done|]. cbn [fst snd] in *. subst k'.
  intros temp. change (format (map setting_text ((k, w) :: settings)))
    with (setting_text (k, w) +:+ format (map setting_text settings)).
  destruct (setting_line k w v (format (map setting_text settings)) temp Hr) as [-> Hp].
  cbn [fold_outcome]. rewrite Hp, set_eq.
  destruct (do_var_replacements env_version v cargo_version); cbn; [apply IH | done | done].
Qed.

Lemma reads_quoted k v :
  has_char "=" k = false -> has_char LF k = false -> trim (k +:+ " ") = k ->
  value_ok v = true -> reads k (in_quotes v) v.
Proof.
  unfold value_ok. intros Hk Hkl Hkt [[[Hv Hvl]%andb_prop Hs]%andb_prop He]%andb_prop.
  apply negb_true_iff in Hv, Hvl, Hs, He. unfold in_quotes. split.
  - done.
  - rewrite !has_char_app, Hv, Hvl. split; [done|]. split; [done|]. split; [|done].
    rewrite !ends_with_char_app; [done | done |]. by destruct v.
  - change (" " +:+ "'" +:+ v +:+ "'") with (String " " (String "'" (v +:+ "'"))).
    unfold trim. rewrite trim_start_space.
    pose proof (trim_solid v "'" "'" eq_refl eq_refl) as Ht. unfold trim in Ht. rewrite Ht.
    change (trim_start_matches "'" (String "'" (v +:+ "'"))) with (trim_start_matches "'" (v +:+ "'")).
    destruct v as [|c v]; [done|]. rewrite trim_start_matches_app by done.
    by apply trim_end_matches_one.
Qed.

Lemma reads_bool k b :
  has_char "=" k = false -> has_char LF k = false -> trim (k +:+ " ") = k ->
  reads k (show_bool b) (show_bool b).
Proof. intros Hk Hkl Hkt. split; [done | by destruct b | by destruct b]. Qed.

Definition opt_value (k : string) (v : option string) : list (string * string) :=
  match v with Some v => [(k, v)] | None => [] end.

Definition control_values (c : ControlFile) : list (string * string) :=
  [("comment", ctl_comment c); ("default_version", ctl_default_version c)]
  ++ opt_value "module_pathname" (ctl_module_pathname c)
  ++ [("relocatable", show_bool (ctl_relocatable c)); ("superuser", show_bool (ctl_superuser c))]
  ++ opt_value "schema" (ctl_schema c)
  ++ [("trusted", show_bool (ctl_trusted c))].

Lemma control_settings_read c :
  control_ok c = true ->
  Forall2 (fun kw kv => kw.1 = kv.1 /\ reads kw.1 kw.2 kv.2) (control_settings c) (control_values c).
Proof.
  unfold control_ok. intros [[[Hc Hd]%andb_prop Hm]%andb_prop Hs]%andb_prop.
  unfold control_settings, control_values.
  repeat first [ apply Forall2_app | apply Forall2_cons_2 | apply Forall2_nil_2
    | match goal with |- Forall2 _ (opt_setting _ ?o) _ => destruct o; cbn end ].
  all: split; [done|]; cbn; first [ by apply reads_bool | by apply reads_quoted ].
Qed.

Lemma show_bool_true b : bool_decide (show_bool b = "true") = b.
Proof. by destruct b. Qed.

Lemma do_var_bool b : do_var_replacements env_version (show_bool b) cargo_version = Ok (show_bool b).
Proof. by destruct b. Qed.

(** When every substitution succeeds, the map holds the substituted values. *)
Lemma values_set values results :
  Forall2 (fun kv kr => kv.1 = kr.1 /\ do_var_replacements env_version kv.2 cargo_version = Ok kr.2)
    values results ->
  forall temp, fold_outcome set temp values = Ok (foldl (fun t kr => <[kr.1 := kr.2]> t) temp results).
Proof.
  induction 1 as [|[k v] [k' r] values results [Hk Hv] _ IH]; [done|]. cbn [fst snd] in *. subst k'.
  intros temp. cbn [fold_outcome foldl]. rewrite set_eq, Hv. cbn. apply IH.
Qed.

Lemma control_values_set c f :
  (forall v, v ∈ control_strings c -> do_var_replacements env_version v cargo_version = Ok (f v)) ->
  Forall2 (fun kv kr => kv.1 = kr.1 /\ do_var_replacements env_version kv.2 cargo_version = Ok kr.2)
    (control_values c) (control_values (map_strings f c)).
Proof.
  intros Hf. destruct c as [co dv [mp|] re su [sc|] tr]; cbn -[do_var_replacements] in *;
    repeat apply Forall2_cons_2; try apply Forall2_nil_2; (split; [done|]); cbn [snd];
    first [ apply do_var_bool
          | apply Hf; repeat first [apply list_elem_of_here | apply list_elem_of_further] ].
Qed.

Lemma control_values_parse c f :
  (forall v, v ∈ control_strings c -> do_var_replacements env_version v cargo_version = Ok (f v)) ->
  control_ok c = true ->
  from_str_with_version env_version (control_text c) cargo_version = checked (map_strings f c).
Proof.
  intros Hf Hok. unfold from_str_with_version, control_text.
  rewrite (settings_parse _ _ (control_settings_read c Hok)), (values_set _ _ (control_values_set c f Hf)).
  destruct c as [co dv [mp|] re su [sc|] tr]; cbn; unfold required, checked; simplify_map_eq; cbn;
    by rewrite !show_bool_true.
Qed.

(** A value that needs a version when there is none. *)
Lemma values_missing values :
  version = None ->
  existsb (fun kv => contains CARGO_VERSION kv.2) values = true ->
  forall temp, fold_outcome set temp values = Err (MissingEnvvar "CARGO_PKG_VERSION").
Proof.
  intros Hv. induction values as [|[k v] values IH]; [done|]. intros Hex temp.
  cbn [fold_outcome]. rewrite set_eq, do_var_spec, Hv.
  cbn -[contains] in Hex. destruct (contains CARGO_VERSION v); [done|]. cbn. by apply IH.
Qed.

Lemma control_values_mention c :
  existsb (fun kv => contains CARGO_VERSION kv.2) (control_values c)
  = existsb (contains CARGO_VERSION) (control_strings c).
Proof.
  destruct c as [co dv [mp|] [] [] [sc|] []]; cbn -[contains];
    change (contains CARGO_VERSION "true") with false; change (contains CARGO_VERSION "false") with false;
    by rewrite ?orb_false_r.
Qed.

(** Parsing undoes writing: the control file written with one setting per
    line, its strings in quotes, is read back as it is, with [@CARGO_VERSION@]
    replaced in every string by the caller's version or else the environment's.
    Without either, a string that mentions the variable is an error, and so is
    [trusted] without [superuser]. *)
Theorem control_file_round_trip (c : ControlFile) :
  control_ok c = true ->
  from_str_with_version env_version (control_text c) cargo_version
  = match version with
    | Some w => checked (map_strings (replace CARGO_VERSION w) c)
    | None =>
        if existsb (contains CARGO_VERSION) (control_strings c)
        then Err (MissingEnvvar "CARGO_PKG_VERSION")
        else checked c
    end.
Proof.
  intros Hok. destruct version as [w|] eqn:Hv.
  - apply control_values_parse; [|done]. intros v _. by rewrite do_var_spec, Hv.
  - destruct (existsb (contains CARGO_VERSION) (control_strings c)) eqn:He.
    + unfold from_str_with_version, control_text.
      rewrite (settings_parse _ _ (control_settings_read c Hok)), values_missing; [done..|].
      by rewrite control_values_mention.
    + replace (checked c) with (checked (map_strings id c))
        by (by destruct c as [? ? [?|] ? ? [?|] ?]).
      apply control_values_parse; [|done]. intros v Hin. rewrite do_var_spec, Hv.
      destruct (contains CARGO_VERSION v) eqn:Ec; [|done]. exfalso.
      apply not_true_iff_false in He. apply He, existsb_exists. exists v. split; [|done].
      by apply list_elem_of_In.
Qed.

End RoundTrip.

(** ** Witness: the control file of a new extension *)

Definition ex_control_file : ControlFile :=
  {| ctl_comment := "dogs:  Created by pgrx"; ctl_default_version := "@CARGO_VERSION@";
     ctl_module_pathname := Some "dogs"; ctl_relocatable := false; ctl_superuser := true;
     ctl_schema := None; ctl_trusted := false |}.

Lemma control_file_round_trip_witness :
  from_str_with_version None (control_text ex_control_file) (Some "0.1.0")
  = checked (map_strings (replace CARGO_VERSION "0.1.0") ex_control_file)
  /\ from_str_with_version None (control_text ex_control_file) None
     = Err (MissingEnvvar "CARGO_PKG_VERSION").
Proof.
  split.
  - apply (control_file_round_trip None (Some "0.1.0") ex_control_file). vm_compute. reflexivity.
  - apply (control_file_round_trip None None ex_control_file). vm_compute. reflexivity.
Defined.

Example control_comment_lines_skipped :
  from_str None ("# a=b=c" +:+ nl +:+ nl +:+ "comment = 'x'" +:+ nl +:+ "default_version=1.0" +:+ nl
    +:+ "relocatable = true" +:+ nl +:+ "superuser = yes")
  = Ok {| ctl_comment := "x"; ctl_default_version := "1.0"; ctl_module_pathname := None;
          ctl_relocatable := true; ctl_superuser := false; ctl_schema := None; ctl_trusted := false |}.
Proof. vm_compute. reflexivity. Qed.
