(* ===== verification/Resolve.v ===== *)
(** * Questions the renderers and the command line ask of the graph

    The query methods of [PgrxSql]: [resolve_item] (one node for a name given on
    the command line), [schema_alias_of], [schema_prefix_for],
    [find_type_dependency], [schema_prefix_for_used_type],
    [get_module_pathname], [find_matching_fn], [item_slice_context], and the
    nodes of a slice requested by names. *)
From S2P Require Import Prelude Metadata Entities EntityOrd Producers Graph EmitOrder Slice.
From S2P Require Import Lookup Build BuildLogic Connect Initialize SchemaGraph.
From stdpp Require Import list gmap strings.
#[local] Set Warnings "-clear-no-such-hyp".

Inductive query_error :=
| NoSuchItem (name : string)
| AmbiguousItem (name : string) (labels : list string)
| TypeNotInGraph (slot : string) (used_ty : UsedTypeEntity).

Section Queries.
Context {G : Type} `{StableGraph G} `{HashOrder}.

(** ** [resolve_item] *)

Definition quoted (kind path : string) : string := kind +:+ " `" +:+ path +:+ "`".

(** One function: its name or path, or its operator symbol. *)
Definition extern_hit (name : string) (matches : list (NodeIndex * string))
    (entry : PgExternEntity * NodeIndex) : list (NodeIndex * string) :=
  let '(entity, idx) := entry in
  let by_path := has_path_separator name in
  let fn_hit :=
    if by_path then bool_decide (fn_full_path entity = name)
    else bool_decide (fn_name entity = name) || bool_decide (fn_unaliased_name entity = name) in
  let matches :=
    if fn_hit then matches ++ [(idx, quoted "function" (fn_full_path entity))] else matches in
  if negb by_path
     && match fn_operator entity with
        | Some op => bool_decide (op_opname op = Some name)
        | None => false
        end
     && negb (existsb (fun '(existing, _) => bool_decide (existing = idx)) matches)
  then matches ++ [(idx, quoted "operator" name +:+ quoted " on" (fn_full_path entity))]
  else matches.

(** A type, an enum, an aggregate or a trigger: its name or its path. *)
Definition named_hit {K} (kind name : string) (path_of name_of : K -> string)
    (entry : K * NodeIndex) : option (NodeIndex * string) :=
  let '(entity, idx) := entry in
  let hit :=
    if has_path_separator name then bool_decide (path_of entity = name)
    else bool_decide (name_of entity = name) in
  if hit then Some (idx, quoted kind (path_of entity)) else None.

Definition declared_name (declared : SqlDeclaredEntity) : string :=
  match declared with
  | Declared_Type data | Declared_Enum data => dt_name data
  | Declared_Function data => df_name data
  end.

(** A block: its name, or else the first thing of that name it declares. *)
Definition sql_hit (name : string) (entry : ExtensionSqlEntity * NodeIndex)
    : option (NodeIndex * string) :=
  let '(entity, idx) := entry in
  if negb (has_path_separator name) && bool_decide (sql_name entity = name)
  then Some (idx, quoted "extension_sql" (sql_name entity))
  else if existsb (fun declared => bool_decide (declared_name declared = name)) (sql_creates entity)
  then Some (idx, quoted "extension_sql" (sql_name entity) +:+ " (declares `" +:+ name +:+ "`)")
  else None.

Definition schema_hit (name : string) (entry : SchemaEntity * NodeIndex)
    : option (NodeIndex * string) :=
  let '(entity, idx) := entry in
  if negb (has_path_separator name) && bool_decide (schema_name entity = name)
  then Some (idx, quoted "schema" (schema_name entity)) else None.

Definition item_matches (p : PgrxSql G) (name : string) : list (NodeIndex * string) :=
  foldl (extern_hit name) [] (hash_order (px_externs p))
  ++ omap (named_hit "type" name type_full_path type_name) (hash_order (px_types p))
  ++ omap (named_hit "enum" name enum_full_path enum_name) (hash_order (px_enums p))
  ++ omap (named_hit "aggregate" name agg_full_path agg_name) (hash_order (px_aggregates p))
  ++ omap (named_hit "trigger" name trg_full_path trg_function_name) (hash_order (px_triggers p))
  ++ omap (sql_hit name) (hash_order (px_extension_sqls p))
  ++ omap (schema_hit name) (hash_order (px_schemas p)).

Definition resolve_item (p : PgrxSql G) (name : string) : outcome query_error NodeIndex :=
  match item_matches p name with
  | [] => Err (NoSuchItem name)
  | [(idx, _)] => Ok idx
  | matches => Err (AmbiguousItem name (map snd matches))
  end.

(** ** Schema prefixes *)

(** [.flat_map(..).next()] over the neighbours: the first schema. *)
Fixpoint first_schema (g : G) (neighbors : list NodeIndex) : outcome query_error (option string) :=
  match neighbors with
  | [] => Ok None
  | n :: neighbors =>
      e ← unwrap (g_weight g n);
      match e with
      | Entity_Schema s => Ok (Some (schema_name s))
      | _ => first_schema g neighbors
      end
  end.

Definition schema_alias_of (p : PgrxSql G) (item_index : NodeIndex)
    : outcome query_error (option string) :=
  first_schema (px_graph p) (g_undirected (px_graph p) item_index).

Definition schema_prefix_for (p : PgrxSql G) (target : NodeIndex) : outcome query_error string :=
  alias ← schema_alias_of p target;
  alias ← match alias with
          | Some alias => Ok (Some alias)
          | None =>
              e ← unwrap (g_weight (px_graph p) target);
              match e with
              | Entity_BuiltinType _ => Ok None
              | _ => Ok (if px_qualify_default_schema p then ctl_schema (px_control p) else None)
              end
          end;
  Ok (match alias with Some v => v +:+ "." | None => "" end).

Fixpoint first_match (g : G) (type_ident : string) (neighbors : list NodeIndex)
    : outcome query_error (option NodeIndex) :=
  match neighbors with
  | [] => Ok None
  | n :: neighbors =>
      e ← unwrap (g_weight g n);
      if type_ident_matches e type_ident then Ok (Some n) else first_match g type_ident neighbors
  end.

Definition find_type_dependency (p : PgrxSql G) (owner : NodeIndex) (type_ident : string)
    : outcome query_error (option NodeIndex) :=
  first_match (px_graph p) type_ident (g_undirected (px_graph p) owner).

Definition schema_prefix_for_used_type (p : PgrxSql G) (owner : NodeIndex) (slot : string)
    (used_ty : UsedTypeEntity) : outcome query_error string :=
  match ut_resolution used_ty with
  | None | Some (_, External) => Ok ""
  | Some (type_ident, ThisExtension) =>
      found ← find_type_dependency p owner type_ident;
      graph_index ← ok_or (TypeNotInGraph slot used_ty) found;
      schema_prefix_for p graph_index
  end.

(** ** Names *)

Definition get_module_pathname (p : PgrxSql G) : string :=
  if px_versioned_so p
  then px_extension_name p +:+ "-" +:+ ctl_default_version (px_control p)
  else "MODULE_PATHNAME".

Definition find_matching_fn (p : PgrxSql G) (name : string) : option PgExternEntity :=
  find_map (fun '(e, _) => if ends_with (fn_full_path e) name then Some e else None)
    (hash_order (px_externs p)).

(** ** Slices by name *)

Definition item_slice_context (p : PgrxSql G) : PgrxSql G :=
  match ctl_schema (px_control p) with
  | Some _ =>
      if negb (px_qualify_default_schema p) then
        {| px_control := px_control p; px_graph := px_graph p; px_graph_root := px_graph_root p;
           px_graph_bootstrap := px_graph_bootstrap p; px_graph_finalize := px_graph_finalize p;
           px_schemas := px_schemas p; px_extension_sqls := px_extension_sqls p;
           px_externs := px_externs p; px_types := px_types p;
           px_builtin_types := px_builtin_types p; px_enums := px_enums p; px_ords := px_ords p;
           px_hashes := px_hashes p; px_aggregates := px_aggregates p;
           px_triggers := px_triggers p; px_extension_name := px_extension_name p;
           px_versioned_so := px_versioned_so p; px_qualify_default_schema := true |}
      else p
  | None => p
  end.

(** The nodes [to_sql_for_items] emits, in order. *)
Definition items_slice (tarjan_scc : G -> list (list NodeIndex)) (p : PgrxSql G)
    (item_names : list string) : outcome query_error (list NodeIndex) :=
  targets ← collect (resolve_item p) item_names;
  slice_order tarjan_scc (px_graph (item_slice_context p)) targets.

End Queries.

(** ** [resolve_item], one entry at a time *)

Section Resolution.
Context {G : Type} `{StableGraphLaws G} `{HashOrder}.
Variable (to_lowercase : string -> string).

(** Whether an entity answers to a name. *)
Definition answers_to (e : SqlGraphEntity) (name : string) : bool :=
  let by_path := has_path_separator name in
  match e with
  | Entity_Function f =>
      if by_path then bool_decide (fn_full_path f = name)
      else bool_decide (fn_name f = name) || bool_decide (fn_unaliased_name f = name)
           || match fn_operator f with
              | Some op => bool_decide (op_opname op = Some name)
              | None => false
              end
  | Entity_Type t => if by_path then bool_decide (type_full_path t = name) else bool_decide (type_name t = name)
  | Entity_Enum t => if by_path then bool_decide (enum_full_path t = name) else bool_decide (enum_name t = name)
  | Entity_Aggregate t => if by_path then bool_decide (agg_full_path t = name) else bool_decide (agg_name t = name)
  | Entity_Trigger t => if by_path then bool_decide (trg_full_path t = name) else bool_decide (trg_function_name t = name)
  | Entity_CustomSql s =>
      negb by_path && bool_decide (sql_name s = name)
      || existsb (fun d => bool_decide (declared_name d = name)) (sql_creates s)
  | Entity_Schema s => negb by_path && bool_decide (schema_name s = name)
  | Entity_Ord _ | Entity_Hash _ | Entity_ExtensionRoot _ | Entity_BuiltinType _ => false
  end.

(** The entities that can be named, with their nodes. *)
Definition entries (p : PgrxSql G) : list (SqlGraphEntity * NodeIndex) :=
  map (prod_map Entity_Function id) (hash_order (px_externs p))
  ++ map (prod_map Entity_Type id) (hash_order (px_types p))
  ++ map (prod_map Entity_Enum id) (hash_order (px_enums p))
  ++ map (prod_map Entity_Aggregate id) (hash_order (px_aggregates p))
  ++ map (prod_map Entity_Trigger id) (hash_order (px_triggers p))
  ++ map (prod_map Entity_CustomSql id) (hash_order (px_extension_sqls p))
  ++ map (prod_map Entity_Schema id) (hash_order (px_schemas p)).

Definition hits (p : PgrxSql G) (name : string) : list NodeIndex :=
  omap (fun '(e, i) => if answers_to e name then Some i else None) (entries p).

Lemma named_hit_node {K} kind name (path_of name_of : K -> string) (into : K -> SqlGraphEntity) l :
  (forall k, answers_to (into k) name
     = if has_path_separator name then bool_decide (path_of k = name) else bool_decide (name_of k = name)) ->
  map fst (omap (named_hit kind name path_of name_of) l)
  = omap (fun '(e, i) => if answers_to e name then Some i else None) (map (prod_map into id) l).
Proof.
  intros Hinto. induction l as [|[k i] l IH]; [done|]. cbn. rewrite Hinto.
  destruct (if has_path_separator name then _ else _); cbn; by rewrite IH.
Qed.

Lemma sql_hit_node name l :
  map fst (omap (sql_hit name) l)
  = omap (fun '(e, i) => if answers_to e name then Some i else None)
      (map (prod_map Entity_CustomSql id) l).
Proof.
  induction l as [|[k i] l IH]; [done|]. cbn.
  destruct (negb (has_path_separator name) && bool_decide (sql_name k = name)); cbn; [by rewrite IH|].
  destruct (existsb _ _); cbn; by rewrite IH.
Qed.

Lemma schema_hit_node name l :
  map fst (omap (schema_hit name) l)
  = omap (fun '(e, i) => if answers_to e name then Some i else None)
      (map (prod_map Entity_Schema id) l).
Proof.
  induction l as [|[k i] l IH]; [done|]. cbn.
  destruct (negb (has_path_separator name) && bool_decide (schema_name k = name)); cbn; by rewrite IH.
Qed.

(** A function is pushed once, whether its name or its operator matches. *)
Lemma extern_hit_node name entity idx matches :
  idx ∉ map fst matches ->
  map fst (extern_hit name matches (entity, idx))
  = map fst matches ++ (if answers_to (Entity_Function entity) name then [idx] else []).
Proof.
  intros Hnew. cbn.
  assert (Hno : existsb (fun '(existing, _) => bool_decide (existing = idx)) matches = false).
  { apply not_true_iff_false. rewrite existsb_exists. intros ([j l] & Hj & Hd).
    apply bool_decide_eq_true in Hd as ->. apply Hnew. apply list_elem_of_In in Hj.
    by apply (list_elem_of_fmap_2' fst matches (idx, l)). }
  destruct (has_path_separator name); cbn [negb andb].
  - case_bool_decide; [by rewrite map_app | by rewrite app_nil_r].
  - destruct (bool_decide (fn_name entity = name) || bool_decide (fn_unaliased_name entity = name)) eqn:Eh.
    + cbn [orb]. rewrite existsb_app. cbn [existsb]. rewrite bool_decide_eq_true_2 by done.
      rewrite orb_true_r. cbn [negb]. rewrite andb_false_r. by rewrite map_app.
    + rewrite Hno. cbn [orb negb]. rewrite andb_true_r.
      destruct (fn_operator entity) as [op|]; [|by rewrite app_nil_r].
      clear Eh. case_bool_decide; [by rewrite map_app | by rewrite app_nil_r].
Qed.

Lemma extern_hits_node name l : forall matches,
  NoDup (map snd l) -> (forall i, i ∈ map snd l -> i ∉ map fst matches) ->
  map fst (foldl (extern_hit name) matches l)
  = map fst matches
    ++ omap (fun '(e, i) => if answers_to e name then Some i else None)
         (map (prod_map Entity_Function id) l).
Proof.
  induction l as [|[k i] l IH]; intros matches Hnd Hnew; [by rewrite app_nil_r|].
  cbn [foldl map snd] in *. apply NoDup_cons in Hnd as [Hi Hnd].
  pose proof (extern_hit_node name k i matches (Hnew i (list_elem_of_here _ _))) as Hone.
  rewrite IH; [rewrite Hone|done|].
  - cbn [omap list_omap prod_map fst snd id]. rewrite <- app_assoc.
    by destruct (answers_to (Entity_Function k) name).
  - intros j Hj. rewrite Hone, elem_of_app. intros [Hj'|Hj'].
    + by apply (Hnew j); [apply list_elem_of_further|].
    + destruct (answers_to _ _); [|by apply elem_of_nil in Hj'].
      apply list_elem_of_singleton in Hj' as ->. done.
Qed.

Lemma item_matches_hits p name :
  NoDup (map snd (px_externs p)) -> map fst (item_matches p name) = hits p name.
Proof.
  intros Hnd. unfold item_matches, hits, entries. rewrite !map_app, !omap_app.
  rewrite extern_hits_node.
  - rewrite !app_nil_l, sql_hit_node, schema_hit_node.
    rewrite (named_hit_node "type" name type_full_path type_name Entity_Type) by done.
    rewrite (named_hit_node "enum" name enum_full_path enum_name Entity_Enum) by done.
    rewrite (named_hit_node "aggregate" name agg_full_path agg_name Entity_Aggregate) by done.
    by rewrite (named_hit_node "trigger" name trg_full_path trg_function_name Entity_Trigger) by done.
  - by rewrite hash_order_perm.
  - intros i _. apply not_elem_of_nil.
Qed.

(** ** Distinct entries, distinct nodes *)

Lemma elem_of_entries p e i : (e, i) ∈ entries p -> placed p e i.
Proof.
  unfold entries. rewrite !elem_of_app, !list_elem_of_fmap.
  assert (Hone : forall K (into : K -> SqlGraphEntity) (m : hmap K) (y : K * NodeIndex),
    (e, i) = prod_map into id y /\ y ∈ hash_order m -> exists k, e = into k /\ (k, i) ∈ m).
  { intros K into m [k j] [[= -> ->] Hy]. rewrite elem_of_hash_order in Hy. eauto. }
  intros Hin. repeat destruct Hin as [Hin|Hin];
    destruct Hin as (y & Hy); apply Hone in Hy as (k & -> & Hk); exact Hk.
Qed.

Lemma entries_elem p e i :
  placed p e i -> (e, i) ∈ entries p \/ (forall name, answers_to e name = false).
Proof.
  unfold entries. rewrite !elem_of_app.
  assert (Hone : forall K (into : K -> SqlGraphEntity) (m : hmap K) k,
    (k, i) ∈ m -> (into k, i) ∈ map (prod_map into id) (hash_order m)).
  { intros K into m k Hk. apply (list_elem_of_fmap_2' (prod_map into id) _ (k, i)); [|done].
    by rewrite elem_of_hash_order. }
  destruct e; cbn [placed]; intros Hp; try done; try (by right); left;
    first [ apply (Hone _ Entity_Schema) in Hp | apply (Hone _ Entity_CustomSql) in Hp
          | apply (Hone _ Entity_Function) in Hp | apply (Hone _ Entity_Type) in Hp
          | apply (Hone _ Entity_Enum) in Hp | apply (Hone _ Entity_Aggregate) in Hp
          | apply (Hone _ Entity_Trigger) in Hp ]; tauto.
Qed.

Lemma elem_of_hits p name i :
  i ∈ hits p name <-> exists e, placed p e i /\ answers_to e name = true.
Proof.
  unfold hits. rewrite list_elem_of_omap. split.
  - intros ([e j] & Hin & He). destruct (answers_to e name) eqn:Ea; [|done].
    injection He as ->. apply elem_of_entries in Hin. eauto.
  - intros (e & Hp & Ha). destruct (entries_elem p e i Hp) as [Hin|Hno].
    + exists (e, i). by rewrite Ha.
    + by rewrite Hno in Ha.
Qed.

(** In a built graph a node carries one entity, so a map has no node twice. *)
Lemma nodup_snd {K} (m : hmap K) :
  NoDup (map fst m) -> (forall k k' i, (k, i) ∈ m -> (k', i) ∈ m -> k = k') -> NoDup (map snd m).
Proof.
  induction m as [|[k i] m IH]; cbn; intros Hnd Hinj; [constructor|].
  apply NoDup_cons in Hnd as [Hk Hnd]. apply NoDup_cons. split.
  - intros Hi. apply list_elem_of_fmap in Hi as ([k' i'] & -> & Hin). cbn in Hinj.
    assert (k = k') as <-.
    { apply (Hinj k k' i'); [apply list_elem_of_here | by apply list_elem_of_further]. }
    apply Hk. by apply (list_elem_of_fmap_2' fst m (k, i')).
  - apply IH; [done|]. intros k1 k2 j H1' H2'.
    apply (Hinj k1 k2 j); by apply list_elem_of_further.
Qed.

Lemma nodup_pairs {K} (m : hmap K) : NoDup (map fst m) -> NoDup m.
Proof. apply NoDup_fmap_1. Qed.

Section OfBuilt.
Variable (sp : split_entities) (p : PgrxSql G).
Hypothesis p_built : built to_lowercase sp p.

Lemma placed_unique e e' i : placed p e i -> placed p e' i -> e = e'.
Proof.
  intros Hp Hp'. destruct (placed_built _ _ _ _ _ p_built Hp) as [Hw _].
  destruct (placed_built _ _ _ _ _ p_built Hp') as [Hw' _]. congruence.
Qed.

Lemma externs_nodup : NoDup (map snd (px_externs p)).
Proof.
  destruct p_built as [(g0 & Hn & _) _]. apply nodup_snd; [apply (no_externs _ _ Hn)|].
  intros k k' i Hk Hk'.
  pose proof (placed_unique (Entity_Function k) (Entity_Function k') i Hk Hk') as He.
  by injection He.
Qed.

Lemma entries_part_nodup {K} (into : K -> SqlGraphEntity) (m : hmap K) :
  (forall k k', into k = into k' -> k = k') -> NoDup (map fst m) ->
  NoDup (map (prod_map into id) (hash_order m)).
Proof.
  intros Hinj Hnd. apply NoDup_fmap_2_strong.
  - intros [k i] [k' i'] _ _ [= He ->]. f_equal. by apply Hinj.
  - rewrite hash_order_perm. by apply nodup_pairs.
Qed.

Lemma part_elem {K} (into : K -> SqlGraphEntity) (l : hmap K) x :
  x ∈ map (prod_map into id) l -> exists k i, x = (into k, i).
Proof. intros Hx. apply list_elem_of_fmap in Hx as ([k i] & -> & _). by exists k, i. Qed.

Lemma entries_nodup : NoDup (entries p).
Proof.
  destruct p_built as [(g0 & Hn & _) _].
  unfold entries. repeat (apply NoDup_app; split; [|split]);
    try (apply entries_part_nodup; [intros ? ? [=]; done | apply Hn]).
  all: intros x Hx Hy; rewrite ?elem_of_app in Hy; apply part_elem in Hx as (k & i & ->);
    repeat match type of Hy with _ \/ _ => destruct Hy as [Hy|Hy] end;
    by apply part_elem in Hy as (k' & i' & [=]).
Qed.

Lemma hits_nodup name : NoDup (hits p name).
Proof.
  unfold hits. pose proof entries_nodup as Hnd.
  assert (Hinj : forall e e' i, (e, i) ∈ entries p -> (e', i) ∈ entries p -> e = e').
  { intros e e' i He He'. apply elem_of_entries in He, He'. by eapply placed_unique. }
  induction (entries p) as [|[e i] l IH]; cbn; [constructor|].
  apply NoDup_cons in Hnd as [Hi Hnd].
  assert (Hrest : NoDup (omap (fun '(e, i) => if answers_to e name then Some i else None) l)).
  { apply IH; [done|]. intros e1 e2 j H1' H2'.
    apply (Hinj e1 e2 j); by apply list_elem_of_further. }
  destruct (answers_to e name); [|done]. apply NoDup_cons. split; [|done].
  intros Hin. apply list_elem_of_omap in Hin as ([e' i'] & Hin & He').
  destruct (answers_to e' name); [|done]. injection He' as ->.
  rewrite (Hinj e e' i) in Hi; [done | apply list_elem_of_here | by apply list_elem_of_further].
Qed.

End OfBuilt.
End Resolution.

(** ** Prefixes never fail on a built graph *)

Section Prefixes.
Context {G : Type} `{StableGraphLaws G} `{HashOrder}.
Variable (g : G).
Hypothesis g_wf : graph_wf g.

Lemma neighbors_exist i n : n ∈ g_undirected g i -> is_Some (g_weight g n).
Proof.
  intros Hn. apply undirected_spec in Hn as [[w Hw]|[w Hw]]; by destruct (g_wf _ _ _ Hw).
Qed.

Lemma first_schema_total l :
  (forall n, n ∈ l -> is_Some (g_weight g n)) -> exists r, first_schema g l = Ok r.
Proof.
  induction l as [|n l IH]; intros Hl; cbn; [eauto|].
  destruct (Hl n (list_elem_of_here _ _)) as [e ->]. cbn.
  destruct e; eauto; apply IH; intros m Hm; apply Hl; by apply list_elem_of_further.
Qed.

Lemma first_match_total t l a e :
  (forall n, n ∈ l -> is_Some (g_weight g n)) ->
  a ∈ l -> g_weight g a = Some e -> type_ident_matches e t = true ->
  exists n e', first_match g t l = Ok (Some n) /\ n ∈ l /\ g_weight g n = Some e'
    /\ type_ident_matches e' t = true.
Proof.
  intros Hl Ha Hw Hm. induction l as [|n l IH]; [by apply elem_of_nil in Ha|]. cbn.
  destruct (Hl n (list_elem_of_here _ _)) as [en Hn]. rewrite Hn. cbn.
  destruct (type_ident_matches en t) eqn:Et.
  - exists n, en. split; [done|]. split; [apply list_elem_of_here | done].
  - apply elem_of_cons in Ha as [->|Ha]; [congruence|].
    destruct IH as (n' & e' & -> & Hin & Hr); [|done|].
    + intros m Hm'. apply Hl. by apply list_elem_of_further.
    + exists n', e'. split; [done|]. split; [by apply list_elem_of_further | done].
Qed.

End Prefixes.

Section Properties.
Context {G : Type} `{StableGraphLaws G} `{HashOrder}.
Variable (to_lowercase : string -> string).

Lemma schema_prefix_total (p : PgrxSql G) i :
  graph_wf (px_graph p) -> is_Some (g_weight (px_graph p) i) ->
  exists s, schema_prefix_for p i = Ok s.
Proof.
  intros Hwf [e He]. unfold schema_prefix_for, schema_alias_of.
  destruct (first_schema_total (px_graph p) (g_undirected (px_graph p) i)) as [[v|] ->].
  - intros n. by apply neighbors_exist.
  - cbn. eauto.
  - cbn. rewrite He. cbn. destruct e; cbn; eauto.
Qed.

Lemma used_type_prefix_total sp (p : PgrxSql G) i u slot :
  built to_lowercase sp p ->
  (exists a, resolves_to p u a /\ has_edge (px_graph p) a i (use_requires u)) ->
  exists s, schema_prefix_for_used_type p i slot (use_ty u) = Ok s.
Proof.
  intros Hb (a & (t & o & e & Hr & Hw & Hm & _) & Hedge).
  pose proof (built_wf _ _ _ Hb) as Hwf. unfold schema_prefix_for_used_type. rewrite Hr.
  destruct o; [|eauto]. unfold find_type_dependency.
  destruct (first_match_total (px_graph p) t (g_undirected (px_graph p) i) a e) as (n & e' & -> & _ & Hn & _).
  - intros n. by apply neighbors_exist.
  - apply undirected_spec. eauto.
  - done.
  - done.
  - cbn. apply schema_prefix_total; [done | eauto].
Qed.

(** [resolve_item] on a built graph: a node is returned only if its entity is
    the only one that answers to the name; "no SQL entity matches" only if none
    does; "ambiguous" only if two different ones do. *)
Theorem resolve_item_unique (entities : list SqlGraphEntity) (ext : string) (versioned : bool)
    (p : PgrxSql G) (name : string) :
  build to_lowercase entities ext versioned = Ok p ->
  match resolve_item p name with
  | Ok i => exists e, placed p e i /\ answers_to e name = true
      /\ forall e' j, placed p e' j -> answers_to e' name = true -> j = i /\ e' = e
  | Err (NoSuchItem _) => forall e j, placed p e j -> answers_to e name = false
  | Err (AmbiguousItem _ _) => exists e i e' j, i <> j /\ placed p e i /\ placed p e' j
      /\ answers_to e name = true /\ answers_to e' name = true
  | _ => False
  end.
Proof.
  intros Hb. apply build_built in Hb.
  pose proof (item_matches_hits p name (externs_nodup _ _ _ Hb)) as Hm.
  pose proof (hits_nodup _ _ _ Hb name) as Hnd.
  assert (Hhit : forall i, i ∈ map fst (item_matches p name) <->
    exists e, placed p e i /\ answers_to e name = true).
  { intros i. rewrite Hm. apply elem_of_hits. }
  rewrite <- Hm in Hnd. unfold resolve_item.
  destruct (item_matches p name) as [|[i li] [|[j lj] rest]]; cbn in *.
  - intros e j Hp. destruct (answers_to e name) eqn:Ea; [|done]. exfalso.
    assert (j ∈ []) as Hj by (apply Hhit; eauto). by apply elem_of_nil in Hj.
  - destruct (proj1 (Hhit i) (list_elem_of_here _ _)) as (e & Hp & Ha).
    exists e. split; [done|]. split; [done|]. intros e' j Hp' Ha'.
    assert (j ∈ [i]) as Hj by (apply Hhit; eauto). apply list_elem_of_singleton in Hj as ->.
    split; [done|]. by eapply placed_unique.
  - destruct (proj1 (Hhit i) (list_elem_of_here _ _)) as (e & Hp & Ha).
    destruct (proj1 (Hhit j) (list_elem_of_further _ _ _ (list_elem_of_here _ _))) as (e' & Hp' & Ha').
    exists e, i, e', j. split; [|auto]. apply NoDup_cons in Hnd as [Hi _]. intros ->.
    apply Hi, list_elem_of_here.
Qed.

(** Rendering finds the schema of every type it mentions: on a built graph
    [schema_prefix_for_used_type] returns a prefix for every type of a function or
    an aggregate, never an error or a panic. *)
Theorem used_type_prefixes (entities : list SqlGraphEntity) (ext : string) (versioned : bool)
    (p : PgrxSql G) (slot : string) :
  build to_lowercase entities ext versioned = Ok p ->
  (forall item i u, (item, i) ∈ px_externs p -> u ∈ function_uses item ->
     exists s, schema_prefix_for_used_type p i slot (use_ty u) = Ok s)
  /\ forall item i u, (item, i) ∈ px_aggregates p -> u ∈ aggregate_uses item ->
     exists s, schema_prefix_for_used_type p i slot (use_ty u) = Ok s.
Proof.
  intros Hb. apply build_built in Hb. destruct (types_first _ _ _ Hb) as [Hf Ha].
  split; intros item i u Hi Hu; (eapply used_type_prefix_total; [exact Hb|]); eauto.
Qed.

(** A slice asked for by names holds the entities so named (each name having
    resolved), and everything they depend on. *)
Theorem items_slice_closed (tarjan_scc : G -> list (list NodeIndex))
    (entities : list SqlGraphEntity) (ext : string) (versioned : bool) (p : PgrxSql G)
    (names : list string) (targets : list NodeIndex) :
  build to_lowercase entities ext versioned = Ok p ->
  scc_postorder (px_graph p) (tarjan_scc (px_graph p)) ->
  collect (resolve_item p) names = Ok targets ->
  exists o, items_slice tarjan_scc p names = Ok o
    /\ (forall t, t ∈ targets -> t ∈ o)
    /\ forall a b w, b ∈ o -> depends to_lowercase p a b w -> is_root (px_graph p) a = false ->
         a ∈ o /\ (~ reach (px_graph p) b a -> before o a b).
Proof.
  intros Hb Hscc Ht. apply build_built in Hb. pose proof (built_wf _ _ _ Hb) as Hwf.
  assert (Hplaced : forall t, t ∈ targets -> exists e, placed p e t).
  { intros t Hin. apply collect_ok in Ht. apply list_elem_of_lookup in Hin as [k Hk].
    destruct (Forall2_lookup_r _ _ _ _ _ Ht Hk) as (name & _ & Hr).
    pose proof (item_matches_hits p name (externs_nodup _ _ _ Hb)) as Hm.
    unfold resolve_item in Hr. destruct (item_matches p name) as [|[i l] [|]]; try done.
    injection Hr as ->. cbn in Hm.
    assert (t ∈ hits p name) as Hhit by (rewrite <- Hm; apply list_elem_of_here).
    apply elem_of_hits in Hhit as (e & He & _). eauto. }
  assert (Hweight : forall t, t ∈ targets -> exists e, placed p e t /\ g_weight (px_graph p) t = Some e).
  { intros t Hin. destruct (Hplaced t Hin) as [e He]. exists e. split; [done|].
    by destruct (placed_built _ _ _ _ _ Hb He). }
  destruct (slice_ok (E:=query_error) tarjan_scc (px_graph p) targets Hwf Hscc)
    as (o & Ho & Hnd & Hin & Hdep).
  { intros t Htt. destruct (Hweight t Htt) as (e & _ & ->). eauto. }
  exists o. split; [|split].
  - unfold items_slice. rewrite Ht. cbn [mbind outcome_bind].
    unfold item_slice_context. destruct (ctl_schema _); [|done]. by destruct (negb _).
  - intros t Htt. apply Hin. destruct (Hweight t Htt) as (e & Hp & Hw). split.
    + unfold is_root. rewrite Hw. by destruct e.
    + exists t. split; [done | apply reach_refl].
  - intros a b w Hbo Hd Hra. apply (Hdep a b w Hbo); [|done].
    destruct Hb as [(g0 & _ & _ & Hadd) _]. apply Hadd. auto.
Qed.

End Properties.

(** ** Witnesses *)

Lemma resolve_item_unique_witness :
  exists e, placed ex_built e 5%nat /\ answers_to e "dog_name" = true
    /\ forall e' j, placed ex_built e' j -> answers_to e' "dog_name" = true -> j = 5%nat /\ e' = e.
Proof.
  assert (Hr : resolve_item (H0:=hash_order_id) ex_built "dog_name" = Ok 5%nat) by (vm_compute; reflexivity).
  pose proof (resolve_item_unique (H1:=hash_order_id) ascii_lowercase ex_entities "dogs" false ex_built
    "dog_name" ex_build_ok) as Hu.
  rewrite Hr in Hu. exact Hu.
Defined.

Lemma used_type_prefixes_witness :
  exists s, schema_prefix_for_used_type ex_built 5%nat "argument"
    (use_ty {| use_requires := ByArg; use_slot := "argument `x`"; use_ty := ex_dog |}) = Ok s.
Proof.
  destruct (used_type_prefixes (H1:=hash_order_id) ascii_lowercase ex_entities "dogs" false ex_built
    "argument" ex_build_ok) as [Hf _].
  apply (Hf ex_dog_name 5%nat {| use_requires := ByArg; use_slot := "argument `x`"; use_ty := ex_dog |}).
  - by apply (bool_decide_unpack _); vm_compute.
  - apply list_elem_of_here.
Defined.

Lemma items_slice_closed_witness :
  exists o, items_slice (H0:=hash_order_id) ex_built_components ex_built ["Dog"] = Ok o
    /\ (forall t, t ∈ [2]%nat -> t ∈ o)
    /\ forall a b w, b ∈ o -> depends (H0:=hash_order_id) ascii_lowercase ex_built a b w ->
         is_root (px_graph ex_built) a = false ->
         a ∈ o /\ (~ reach (px_graph ex_built) b a -> before o a b).
Proof.
  apply (items_slice_closed (H1:=hash_order_id) ascii_lowercase ex_built_components ex_entities "dogs"
    false ex_built ["Dog"] [2%nat]).
  - apply ex_build_ok.
  - apply scc_check_sound; [apply lg_wf_sound; vm_compute; reflexivity | by vm_compute].
  - vm_compute. reflexivity.
Defined.

(** A name with [::] is matched against more than Rust paths: the names a block
    declares are compared too. *)
Definition ex_declares : ExtensionSqlEntity :=
  {| sql_module_path := "animals"; sql_full_path := "lib.rs:4"; sql_sql := "CREATE TYPE dog";
     sql_file := "lib.rs"; sql_line := 4; sql_name := "make_dog"; sql_bootstrap := false;
     sql_finalize := false; sql_requires := [];
     sql_creates := [Declared_Type {| dt_sql := "dog"; dt_name := "animals::Dog";
                                      dt_type_ident := "animals::Dog" |}] |}.

Lemma path_matches_declared_name :
  match build (G:=ListGraph) (H0:=hash_order_id) ascii_lowercase
          [Entity_ExtensionRoot ex_control; Entity_CustomSql ex_declares] "dogs" false with
  | Ok p => resolve_item (H0:=hash_order_id) p "animals::Dog" = Ok 1%nat
  | _ => False
  end.
Proof. vm_compute. reflexivity. Qed.
