(* ===== verification/Render.v ===== *)
(** * The SQL of each entity

    The [ToSql] implementations of [pgrx-sql-entity-graph/src]: what every kind
    of entity renders to, [ToSqlConfigEntity::to_sql] (the [sql = ..]
    attribute) and the dispatch of [SqlGraphEntity::to_sql].  A [format!] is the
    concatenation of its pieces; [\ ] at the end of a line of a Rust literal
    joins it with the next.  An [eyre!] is a constructor of [render_error] with
    the values its message shows; an index out of a map, an [expect] and an
    [assert!] that fail are [Panic].  [str::to_uppercase] and [str::to_lowercase]
    (the Unicode tables) are arguments. *)
From S2P Require Import Prelude Metadata Entities EntityOrd Producers Graph EmitOrder Slice.
From S2P Require Import Lookup Build Text Resolve.
From stdpp Require Import list gmap strings.
#[local] Set Warnings "-clear-no-such-hyp".

Inductive render_error :=
| Query (e : query_error)
| CompositeTypeMissing
| SkippedSqlType
| ArgumentMapping (e : ArgumentError)
| ReturnMapping (e : ReturnsError)
| NoScalarReturn (r : PgExternReturnEntity)
| UnexpectedReturns (r : Returns)
| OperatorArgumentMissing (name : string)
| CastReturnNotPlain (r : PgExternReturnEntity)
| CastSourceMissing (name : string)
| NotAType (e : SqlGraphEntity)
| FunctionNotFound (path : string)
| FunctionNotNeighbor (path : string).

Definition map_err {E E' A} (f : E -> E') (m : outcome E A) : outcome E' A :=
  match m with Ok a => Ok a | Err e => Err (f e) | Panic => Panic end.

(** ** Spelling of types *)

Definition with_array_brackets (s : string) (dimensions : nat) : string :=
  Nat.iter dimensions (fun s => s +:+ "[]") s.

Definition composite_sql_type (composite_type : option string) : outcome render_error string :=
  ok_or CompositeTypeMissing composite_type.

Definition array_sql_type (mapping : SqlArrayMapping) (composite_type : option string)
    : outcome render_error string :=
  match mapping with
  | SqlArrayMapping_As sql => Ok (with_array_brackets sql 1)
  | SqlArrayMapping_Composite =>
      sql ← composite_sql_type composite_type;
      Ok (with_array_brackets sql 1)
  end.

Definition sql_type (mapping : SqlMapping) (composite_type : option string)
    : outcome render_error string :=
  match mapping with
  | SqlMapping_As sql => Ok sql
  | SqlMapping_Composite => composite_sql_type composite_type
  | SqlMapping_Array value => array_sql_type value composite_type
  | SqlMapping_Skip => Err SkippedSqlType
  end.

Definition aggregate_sql_type (mapping : SqlMapping) (composite_type : option string)
    : outcome render_error string :=
  match mapping with
  | SqlMapping_As sql => Ok sql
  | SqlMapping_Composite => ok_or CompositeTypeMissing composite_type
  | SqlMapping_Array (SqlArrayMapping_As sql) => Ok (with_array_brackets sql 1)
  | SqlMapping_Array SqlArrayMapping_Composite =>
      ok_or CompositeTypeMissing
        (option_map (fun sql => with_array_brackets sql 1) composite_type)
  | SqlMapping_Skip => Err SkippedSqlType
  end.

(** ** Displays *)

Definition positioning_ref_display (r : PositioningRef) : string :=
  match r with FullPath i => i | Name i => i end.

Definition extern_args_display (a : ExternArgs) : string :=
  match a with
  | CreateOrReplace => "CREATE OR REPLACE"
  | Immutable => "IMMUTABLE"
  | Strict => "STRICT"
  | Stable => "STABLE"
  | Volatile => "VOLATILE"
  | Raw => ""
  | ParallelSafe => "PARALLEL SAFE"
  | ParallelUnsafe => "PARALLEL UNSAFE"
  | SecurityDefiner => "SECURITY DEFINER"
  | SecurityInvoker => "SECURITY INVOKER"
  | ParallelRestricted => "PARALLEL RESTRICTED"
  | Support item => positioning_ref_display item
  | ShouldPanic _ => ""
  | NoGuard => ""
  | Schema _ => ""
  | ExternName _ => ""
  | Cost cost => "COST " +:+ cost
  | Requires _ => ""
  end.

Definition parallel_to_sql (o : ParallelOption) : string :=
  match o with
  | Parallel_Safe => "SAFE"
  | Parallel_Restricted => "RESTRICTED"
  | Parallel_Unsafe => "UNSAFE"
  end.

Definition finalize_modify_to_sql (m : FinalizeModify) : string :=
  match m with
  | ReadOnly => "READ_ONLY"
  | Shareable => "SHAREABLE"
  | ReadWrite => "READ_WRITE"
  end.

(** ** [SqlGraphIdentifier] *)

Definition entity_file (e : SqlGraphEntity) : option string :=
  match e with
  | Entity_Schema item => Some (schema_file item)
  | Entity_CustomSql item => Some (sql_file item)
  | Entity_Function item => Some (fn_file item)
  | Entity_Type item => Some (type_file item)
  | Entity_BuiltinType _ => None
  | Entity_Enum item => Some (enum_file item)
  | Entity_Ord item => Some (ord_file item)
  | Entity_Hash item => Some (hash_file item)
  | Entity_Aggregate item => Some (agg_file item)
  | Entity_Trigger item => Some (trg_file item)
  | Entity_ExtensionRoot _ => None
  end.

Definition entity_line (e : SqlGraphEntity) : option Z :=
  match e with
  | Entity_Schema item => Some (schema_line item)
  | Entity_CustomSql item => Some (sql_line item)
  | Entity_Function item => Some (fn_line item)
  | Entity_Type item => Some (type_line item)
  | Entity_BuiltinType _ => None
  | Entity_Enum item => Some (enum_line item)
  | Entity_Ord item => Some (ord_line item)
  | Entity_Hash item => Some (hash_line item)
  | Entity_Aggregate item => Some (agg_line item)
  | Entity_Trigger item => Some (trg_line item)
  | Entity_ExtensionRoot _ => None
  end.

Definition dot_identifier (e : SqlGraphEntity) : string :=
  match e with
  | Entity_Schema item => "schema " +:+ schema_module_path item
  | Entity_CustomSql item => "sql " +:+ sql_name item
  | Entity_Function item => "fn " +:+ fn_name item
  | Entity_Type item => "type " +:+ type_full_path item
  | Entity_BuiltinType item => "builtin type " +:+ item
  | Entity_Enum item => "enum " +:+ enum_full_path item
  | Entity_Ord item => "ord " +:+ ord_full_path item
  | Entity_Hash item => "hash " +:+ hash_full_path item
  | Entity_Aggregate item => "aggregate " +:+ agg_full_path item
  | Entity_Trigger item => "trigger fn " +:+ trg_full_path item
  | Entity_ExtensionRoot _ => "extension root"
  end.

Definition sql_anchor_comment (e : SqlGraphEntity) : string :=
  let maybe_file_and_line :=
    match entity_file e, entity_line e with
    | Some file, Some line => format ["-- "; file; ":"; show_u32 line; nl]
    | _, _ => ""
    end in
  format [maybe_file_and_line; "-- "; rust_identifier e].

(** [-- {file}:{line}\n], the first line of most entities. *)
Definition location_comment (file : string) (line : Z) : string :=
  format ["-- "; file; ":"; show_u32 line; nl].

(** ** Entities that need nothing of the graph *)

Definition schema_to_sql (s : SchemaEntity) : string :=
  format [nl; location_comment (schema_file s) (schema_line s);
          "CREATE SCHEMA IF NOT EXISTS "; schema_name s; "; /* "; schema_module_path s; " */"].

Definition comment_items (items : list string) : string :=
  join_with nl (map (fun i => "--   " +:+ i) items).

Definition extension_sql_to_sql (s : ExtensionSqlEntity) : string :=
  let creates :=
    match sql_creates s with
    | [] => ""
    | creates => format ["-- creates:"; nl; comment_items (map declared_display creates); nl; nl]
    end in
  let requires :=
    match sql_requires s with
    | [] => ""
    | requires => format ["-- requires:"; nl; comment_items (map positioning_ref_display requires); nl; nl]
    end in
  format [nl; location_comment (sql_file s) (sql_line s);
          if sql_bootstrap s then "-- bootstrap" +:+ nl else "";
          creates; requires;
          if sql_finalize s then "-- finalize" +:+ nl else "";
          sql_sql s].

Definition control_file_to_sql : string :=
  format [nl; "/*"; nl; "This file is auto generated by pgrx."; nl; nl;
          "The ordering of items is not stable, it is driven by a dependency graph."; nl; "*/"; nl].

(** [path.rsplit("::").next().unwrap_or(path)]: what follows the last separator. *)
Fixpoint after_last_separator (path : string) : option string :=
  match path with
  | EmptyString => None
  | String c rest =>
      match after_last_separator rest with
      | Some name => Some name
      | None =>
          match rest with
          | String c' name => if Ascii.eqb c ":" && Ascii.eqb c' ":" then Some name else None
          | EmptyString => None
          end
      end
  end.

Definition function_name (path : string) : string := default path (after_last_separator path).

Section Render.
Context {G : Type} `{StableGraph G} `{HashOrder}.
Variable (to_lowercase to_uppercase : string -> string).

Abbreviation rendered := (outcome render_error string).

(** [context.externs[self]] *)
Definition index_of {K} `{EqDecision K} (k : K) (m : hmap K) : outcome render_error NodeIndex :=
  unwrap (hm_get k m).

Definition prefix_for (p : PgrxSql G) (i : NodeIndex) : rendered := map_err Query (schema_prefix_for p i).

Definition prefix_for_used_type (p : PgrxSql G) (owner : NodeIndex) (slot : string)
    (used_ty : UsedTypeEntity) : rendered :=
  map_err Query (schema_prefix_for_used_type p owner slot used_ty).

(** [self.schema.map(..).unwrap_or_else(|| context.schema_prefix_for(&self_index))] *)
Definition fn_prefix (p : PgrxSql G) (f : PgExternEntity) (i : NodeIndex) : rendered :=
  match fn_schema f with
  | Some schema => Ok (schema +:+ ".")
  | None => prefix_for p i
  end.

Definition fn_sql_name (p : PgrxSql G) (f : PgExternEntity) : rendered :=
  self_index ← index_of f (px_externs p);
  schema ← fn_prefix p f self_index;
  Ok (format [schema; dq; fn_name f; dq]).

(** ** Functions *)

Definition argument_sql_body (used_ty : UsedTypeEntity) : rendered :=
  match fmt_argument_sql (ut_metadata used_ty) with
  | rOk (SqlMapping_As sql) => Ok sql
  | rOk ((SqlMapping_Composite | SqlMapping_Array _) as mapping) =>
      sql_type mapping (ut_composite_type used_ty)
  | rOk SqlMapping_Skip => Err SkippedSqlType
  | rErr err => Err (ArgumentMapping err)
  end.

Definition render_used_type_sql (p : PgrxSql G) (owner : NodeIndex) (slot : string)
    (used_ty : UsedTypeEntity) : rendered :=
  schema_prefix ← prefix_for_used_type p owner slot used_ty;
  body ← argument_sql_body used_ty;
  Ok (schema_prefix +:+ body).

Definition argument_slot (arg : PgExternArgumentEntity) : string :=
  "argument `" +:+ arg_pattern arg +:+ "`".

Definition sql_args (f : PgExternEntity) : list PgExternArgumentEntity :=
  List.filter (fun a => ut_emits_argument_sql (arg_used_ty a)) (fn_fn_args f).

Definition render_argtype (p : PgrxSql G) (owner : NodeIndex) (arg : PgExternArgumentEntity) : rendered :=
  sql ← render_used_type_sql p owner (argument_slot arg) (arg_used_ty arg);
  Ok (if ut_variadic (arg_used_ty arg) then "VARIADIC " +:+ sql else sql).

Definition render_function_argtypes (p : PgrxSql G) (owner : NodeIndex) (f : PgExternEntity) : rendered :=
  pieces ← collect (render_argtype p owner) (sql_args f);
  Ok (join_with ", " pieces).

Definition render_function_return_type (p : PgrxSql G) (owner : NodeIndex) (f : PgExternEntity)
    : rendered :=
  match fn_fn_return f with
  | Return_Type ty =>
      schema_prefix ← prefix_for_used_type p owner "return type" ty;
      body ← match fmt_return_sql (ut_metadata ty) with
             | rOk (Returns_One (SqlMapping_As sql)) => Ok sql
             | rOk (Returns_One ((SqlMapping_Composite | SqlMapping_Array _) as mapping)) =>
                 sql_type mapping (ut_composite_type ty)
             | rOk (Returns_One SqlMapping_Skip) => Err SkippedSqlType
             | rOk other => Err (UnexpectedReturns other)
             | rErr err => Err (ReturnMapping err)
             end;
      Ok (schema_prefix +:+ body)
  | other => Err (NoScalarReturn other)
  end.

(** [STRICT] is inferred when no argument is nullable. *)
Definition strict_upgrade (f : PgExternEntity) : bool :=
  negb (existsb (fun i => bool_decide (i = Strict)) (fn_extern_attrs f))
  && negb (existsb (fun arg => ut_optional (arg_used_ty arg)) (fn_fn_args f)).

(** [Vec::dedup]: of equal neighbours, the first is kept. *)
Fixpoint dedup {A} `{EqDecision A} (l : list A) : list A :=
  match l with
  | [] => []
  | x :: rest =>
      match rest with
      | y :: _ => if decide (x = y) then dedup rest else x :: dedup rest
      | [] => [x]
      end
  end.

Definition rendered_attrs (f : PgExternEntity) : list ExternArgs :=
  dedup (sort (fn_extern_attrs f ++ if strict_upgrade f then [Strict] else [])).

(** [idx < len - 1]: every item but the last is followed by a comma. *)
Definition comma (idx len : nat) : string := if (idx <? len - 1)%nat then ", " else " ".

Definition render_argument (p : PgrxSql G) (self_index : NodeIndex) (len idx : nat)
    (arg : PgExternArgumentEntity) : outcome render_error (option string) :=
  let used_ty := arg_used_ty arg in
  schema_prefix ← prefix_for_used_type p self_index (argument_slot arg) used_ty;
  let buf (sql : string) :=
    format [tab; dq; arg_pattern arg; dq; " "; if ut_variadic used_ty then "VARIADIC " else "";
            schema_prefix; sql;
            match ut_default used_ty with Some def => " DEFAULT " +:+ def | None => "" end;
            comma idx len; "/* "; ut_full_path used_ty; " */"] in
  match fmt_argument_sql (ut_metadata used_ty) with
  | rOk (SqlMapping_As argument_sql) => Ok (Some (buf argument_sql))
  | rOk ((SqlMapping_Composite | SqlMapping_Array _) as mapping) =>
      sql ← sql_type mapping (ut_composite_type used_ty);
      Ok (Some (buf sql))
  | rOk SqlMapping_Skip => Ok None
  | rErr err => Err (ArgumentMapping err)
  end.

Definition indexed {A} (l : list A) : list (nat * A) := zip (seq 0 (length l)) l.

Definition render_arguments (p : PgrxSql G) (self_index : NodeIndex) (f : PgExternEntity) : rendered :=
  match fn_fn_args f with
  | [] => Ok ""
  | _ =>
      let sql_args := sql_args f in
      args ← collect (fun '(idx, arg) => render_argument p self_index (length sql_args) idx arg)
               (indexed sql_args);
      Ok (nl +:+ join_with nl (omap id args) +:+ nl)
  end.

(** The type of a returned value, [accept] picking the mappings the shape allows. *)
Definition render_returned (p : PgrxSql G) (self_index : NodeIndex) (slot : string)
    (accept : Returns -> option SqlMapping) (ty : UsedTypeEntity) : rendered :=
  match fmt_return_sql (ut_metadata ty) with
  | rOk returns =>
      match accept returns with
      | Some SqlMapping_Skip | None => Err (UnexpectedReturns returns)
      | Some (SqlMapping_As sql) =>
          schema_prefix ← prefix_for_used_type p self_index slot ty;
          Ok (schema_prefix +:+ sql)
      | Some mapping =>
          schema_prefix ← prefix_for_used_type p self_index slot ty;
          sql ← sql_type mapping (ut_composite_type ty);
          Ok (schema_prefix +:+ sql)
      end
  | rErr err => Err (ReturnMapping err)
  end.

Definition accept_one (r : Returns) : option SqlMapping :=
  match r with Returns_One m => Some m | _ => None end.
Definition accept_one_or_set (r : Returns) : option SqlMapping :=
  match r with Returns_One m | Returns_SetOf m => Some m | _ => None end.

Definition render_column (p : PgrxSql G) (self_index : NodeIndex) (len idx : nat)
    (item : PgExternReturnEntityIteratedItem) : rendered :=
  ty ← render_returned p self_index "table return column" accept_one (it_ty item);
  col_name ← unwrap (it_name item);
  Ok (format [nl; tab; col_name; " "; ty; comma idx len; " /* "; ut_full_path (it_ty item); " */"]).

Definition render_returns (p : PgrxSql G) (self_index : NodeIndex) (r : PgExternReturnEntity)
    : rendered :=
  match r with
  | Return_None => Ok "RETURNS void"
  | Return_Type ty =>
      sql ← render_returned p self_index "return type" accept_one ty;
      Ok (format ["RETURNS "; sql; " /* "; ut_full_path ty; " */"])
  | Return_SetOf ty =>
      sql ← render_returned p self_index "setof return type" accept_one_or_set ty;
      Ok (format ["RETURNS SETOF "; sql; " /* "; ut_full_path ty; " */"])
  | Return_Iterated table_items =>
      items ← collect (fun '(idx, item) => render_column p self_index (length table_items) idx item)
                (indexed table_items);
      Ok (format ["RETURNS TABLE ("; format items; nl; ")"])
  | Return_Trigger => Ok "RETURNS trigger"
  end.

Definition render_attr (p : PgrxSql G) (attr : ExternArgs) : rendered :=
  match attr with
  | Support _ =>
      entity ← unwrap (find_matching_fn p (extern_args_display attr));
      name ← fn_sql_name p entity;
      Ok ("SUPPORT " +:+ name)
  | _ => Ok (to_uppercase (extern_args_display attr))
  end.

Definition render_attrs (p : PgrxSql G) (attrs : list ExternArgs) : rendered :=
  match attrs with
  | [] => Ok ""
  | _ =>
      words ← collect (render_attr p)
                (List.filter (fun attr => negb (bool_decide (attr = CreateOrReplace))) attrs);
      Ok (join_with " " words +:+ nl)
  end.

Definition requires_comment (f : PgExternEntity) : string :=
  let requires_attrs :=
    concat (omap (fun x => match x with
                           | Requires requirements => Some requirements
                           | Support support_fn => Some [support_fn]
                           | _ => None
                           end) (fn_extern_attrs f)) in
  match requires_attrs with
  | [] => ""
  | _ => format ["-- requires:"; nl; comment_items (map positioning_ref_display requires_attrs); nl]
  end.

(** [-- {file}:{line}\n-- {module_path}::{name}\n] *)
Definition fn_comment (f : PgExternEntity) : string :=
  format [location_comment (fn_file f) (fn_line f); "-- "; fn_module_path f; "::"; fn_name f; nl].

Definition operator_optionals (op : PgOperatorEntity) : list string :=
  let opt (label : string) (o : option string) :=
    match o with Some it => [tab +:+ label +:+ it] | None => [] end in
  opt "COMMUTATOR = " (op_commutator op) ++ opt "NEGATOR = " (op_negator op)
  ++ opt "RESTRICT = " (op_restrict op) ++ opt "JOIN = " (op_join op)
  ++ (if op_hashes op then [tab +:+ "HASHES"] else [])
  ++ (if op_merges op then [tab +:+ "MERGES"] else []).

Definition render_operator (p : PgrxSql G) (self_index : NodeIndex) (f : PgExternEntity)
    (op : PgOperatorEntity) : rendered :=
  let optionals := operator_optionals op in
  left_arg ← ok_or (OperatorArgumentMissing (fn_name f)) (fn_fn_args f !! 0%nat);
  left_arg_sql ← render_used_type_sql p self_index "operator left argument" (arg_used_ty left_arg);
  right_arg ← ok_or (OperatorArgumentMissing (fn_name f)) (fn_fn_args f !! 1%nat);
  right_arg_sql ← render_used_type_sql p self_index "operator right argument" (arg_used_ty right_arg);
  schema ← fn_prefix p f self_index;
  opname ← unwrap (op_opname op);
  Ok (format
    [nl; nl; fn_comment f;
     "CREATE OPERATOR "; schema; opname; " ("; nl;
     tab; "PROCEDURE="; schema; dq; fn_name f; dq; ","; nl;
     tab; "LEFTARG="; left_arg_sql; ", /* "; ut_full_path (arg_used_ty left_arg); " */"; nl;
     tab; "RIGHTARG="; right_arg_sql; match optionals with [] => "" | _ => "," end;
     " /* "; ut_full_path (arg_used_ty right_arg); " */"; nl;
     match optionals with [] => "" | _ => join_with ("," +:+ nl) optionals +:+ nl end;
     ");"]).

Definition render_cast (p : PgrxSql G) (self_index : NodeIndex) (f : PgExternEntity)
    (cast : PgCastEntity) : rendered :=
  match fn_fn_return f with
  | Return_Type target_ty =>
      target_arg_sql ← render_function_return_type p self_index f;
      source_arg ← ok_or (CastSourceMissing (fn_name f)) (fn_fn_args f !! 0%nat);
      source_arg_sql ← render_used_type_sql p self_index "cast source type" (arg_used_ty source_arg);
      function_name ← fn_sql_name p f;
      Ok (format
        [nl; nl; fn_comment f;
         "CREATE CAST ("; nl;
         tab; source_arg_sql; " /* "; ut_full_path (arg_used_ty source_arg); " */"; nl;
         tab; "AS"; nl;
         tab; target_arg_sql; " /* "; ut_full_path target_ty; " */"; nl;
         ")"; nl;
         "WITH FUNCTION "; function_name;
         match cast with
         | Cast_Default => ""
         | Cast_Assignment => " AS ASSIGNMENT"
         | Cast_Implicit => " AS IMPLICIT"
         end; ";"])
  | other => Err (CastReturnNotPlain other)
  end.

(** [impl ToSql for PgExternEntity] *)
Definition function_to_sql (p : PgrxSql G) (f : PgExternEntity) : rendered :=
  self_index ← index_of f (px_externs p);
  let attrs := rendered_attrs f in
  schema ← fn_prefix p f self_index;
  arguments ← render_arguments p self_index f;
  returns ← render_returns p self_index (fn_fn_return f);
  extern_attrs ← render_attrs p attrs;
  let fn_sql := format
    ["CREATE "; if existsb (fun a => bool_decide (a = CreateOrReplace)) attrs then "OR REPLACE" else "";
     " FUNCTION "; schema; dq; fn_name f; dq; "("; arguments; ") "; returns; nl;
     extern_attrs;
     match fn_search_path f with
     | Some search_path => "SET search_path TO " +:+ join_with ", " search_path +:+ nl
     | None => ""
     end;
     "LANGUAGE c /* Rust */"; nl;
     "AS '"; get_module_pathname p; "', '"; fn_unaliased_name f; "_wrapper';"] in
  let ext_sql := format [nl; fn_comment f; requires_comment f; fn_sql] in
  operator_sql ← match fn_operator f with
                 | Some op => render_operator p self_index f op
                 | None => Ok ""
                 end;
  cast_sql ← match fn_cast f with
             | Some cast => render_cast p self_index f cast
             | None => Ok ""
             end;
  Ok (ext_sql +:+ operator_sql +:+ cast_sql).

(** ** Types *)

(** [.find_map(|neighbor| match &context.graph[neighbor] { Function(func) if .. })] *)
Fixpoint first_function (g : G) (path : string) (neighbors : list NodeIndex)
    : outcome render_error (option (NodeIndex * PgExternEntity)) :=
  match neighbors with
  | [] => Ok None
  | n :: neighbors =>
      e ← unwrap (g_weight g n);
      match e with
      | Entity_Function func =>
          if bool_decide (fn_full_path func = path) then Ok (Some (n, func))
          else first_function g path neighbors
      | _ => first_function g path neighbors
      end
  end.

(** A function of a type: its node, its SQL and its path. *)
Definition io_function (p : PgrxSql G) (self_index : NodeIndex) (module_path path : string)
    : outcome render_error (NodeIndex * string * string) :=
  let path := resolve_function_path module_path path in
  _ ← ok_or (FunctionNotFound path)
        (hm_find (fun k => bool_decide (fn_full_path k = path)) (px_externs p));
  found ← first_function (px_graph p) path (g_undirected (px_graph p) self_index);
  '(graph_index, entity) ← ok_or (FunctionNotNeighbor path) found;
  sql ← function_to_sql p entity;
  Ok (graph_index, sql, path).

Definition io_function_opt (p : PgrxSql G) (self_index : NodeIndex) (module_path : string)
    (path : option string) : outcome render_error (option (NodeIndex * string * string)) :=
  match path with
  | Some path => r ← io_function p self_index module_path path; Ok (Some r)
  | None => Ok None
  end.

(** Another alignment fails the assertion that it is a power of two, or is
    unsupported: a panic either way. *)
Definition alignment_sql (alignment : option Z) : rendered :=
  match alignment with
  | None => Ok ""
  | Some alignment =>
      word ← (if (alignment =? 1)%Z then Ok "char"
              else if (alignment =? 2)%Z then Ok "int2"
              else if (alignment =? 4)%Z then Ok "int4"
              else if (alignment =? 8)%Z then Ok "double"
              else Panic);
      Ok (format [","; nl; tab; "ALIGNMENT = "; word])
  end.

(** The [RECEIVE] and [SEND] attributes, and the SQL of the two functions. *)
Definition receive_send_sql (p : PgrxSql G) (receive send : option (NodeIndex * string * string))
    : outcome render_error (string * string) :=
  match receive, send with
  | Some (receive_index, receive_fn_sql, receive_fn_path), Some (send_index, send_fn_sql, send_fn_path) =>
      schema_prefix_receive_fn ← prefix_for p receive_index;
      schema_prefix_send_fn ← prefix_for p send_index;
      Ok (format [tab; "RECEIVE = "; schema_prefix_receive_fn; function_name receive_fn_path;
                  ", /* "; receive_fn_path; " */"; nl;
                  tab; "SEND = "; schema_prefix_send_fn; function_name send_fn_path;
                  ", /* "; send_fn_path; " */"; nl],
          format [nl; receive_fn_sql; nl; send_fn_sql; nl])
  | _, _ => Ok ("", "")
  end.

Definition type_comment (t : PostgresTypeEntity) : string :=
  format [nl; location_comment (type_file t) (type_line t); "-- "; type_full_path t; nl].

(** [impl ToSql for PostgresTypeEntity] *)
Definition type_to_sql (p : PgrxSql G) (this : PostgresTypeEntity) : rendered :=
  self_index ← index_of this (px_types p);
  item_node ← unwrap (g_weight (px_graph p) self_index);
  match item_node with
  | Entity_Type t =>
      '(in_index, in_fn_sql, in_fn_path)
        ← io_function p self_index (type_module_path t) (type_in_fn_path t);
      '(out_index, out_fn_sql, out_fn_path)
        ← io_function p self_index (type_module_path t) (type_out_fn_path t);
      receive ← io_function_opt p self_index (type_module_path t) (type_receive_fn_path t);
      send ← io_function_opt p self_index (type_module_path t) (type_send_fn_path t);
      schema ← prefix_for p self_index;
      let shell_type := format [type_comment t; "CREATE TYPE "; schema; type_name t; ";"] in
      alignment ← alignment_sql (type_alignment t);
      '(receive_send_attributes, receive_send_fn_sql) ← receive_send_sql p receive send;
      schema_prefix_in_fn ← prefix_for p in_index;
      schema_prefix_out_fn ← prefix_for p out_index;
      let materialized_type := format
        [type_comment t; "CREATE TYPE "; schema; type_name t; " ("; nl;
         tab; "INTERNALLENGTH = variable,"; nl;
         tab; "INPUT = "; schema_prefix_in_fn; function_name in_fn_path; ", /* "; in_fn_path; " */"; nl;
         tab; "OUTPUT = "; schema_prefix_out_fn; function_name out_fn_path; ", /* "; out_fn_path; " */"; nl;
         receive_send_attributes;
         tab; "STORAGE = extended"; alignment; nl;
         ");"] in
      Ok (format [shell_type; nl; in_fn_sql; nl; out_fn_sql; receive_send_fn_sql; nl; materialized_type])
  | other => Err (NotAType other)
  end.

(** ** The other entities *)

Definition enum_to_sql (p : PgrxSql G) (e : PostgresEnumEntity) : rendered :=
  self_index ← index_of e (px_enums p);
  schema ← prefix_for p self_index;
  Ok (format
    [nl; location_comment (enum_file e) (enum_line e); "-- "; enum_full_path e; nl;
     "CREATE TYPE "; schema; enum_name e; " AS ENUM ("; nl;
     join_with ("," +:+ nl) (map (fun variant => tab +:+ "'" +:+ variant +:+ "'") (enum_variants e)); nl;
     ");"]).

Definition cmp_fn_name (o : PostgresOrdEntity) : string := to_lowercase (ord_name o) +:+ "_cmp".

Definition ord_to_sql (p : PgrxSql G) (o : PostgresOrdEntity) : rendered :=
  self_index ← index_of o (px_ords p);
  schema ← prefix_for p self_index;
  let name := schema +:+ ord_name o in
  Ok (format
    [nl; location_comment (ord_file o) (ord_line o); "-- "; ord_full_path o; nl;
     "CREATE OPERATOR FAMILY "; name; "_btree_ops USING btree;"; nl;
     "CREATE OPERATOR CLASS "; name; "_btree_ops DEFAULT FOR TYPE "; name;
     " USING btree FAMILY "; name; "_btree_ops AS"; nl;
     tab; "OPERATOR 1 <,"; nl;
     tab; "OPERATOR 2 <=,"; nl;
     tab; "OPERATOR 3 =,"; nl;
     tab; "OPERATOR 4 >=,"; nl;
     tab; "OPERATOR 5 >,"; nl;
     tab; "FUNCTION 1 "; schema; cmp_fn_name o; "("; name; ", "; name; ");"]).

Definition hash_to_sql (p : PgrxSql G) (h : PostgresHashEntity) : rendered :=
  self_index ← index_of h (px_hashes p);
  schema ← prefix_for p self_index;
  let name := schema +:+ hash_name h in
  Ok (format
    [nl; location_comment (hash_file h) (hash_line h); "-- "; hash_full_path h; nl;
     "CREATE OPERATOR FAMILY "; name; "_hash_ops USING hash;"; nl;
     "CREATE OPERATOR CLASS "; name; "_hash_ops DEFAULT FOR TYPE "; name;
     " USING hash FAMILY "; name; "_hash_ops AS"; nl;
     tab; "OPERATOR    1   =  ("; name; ", "; name; "),"; nl;
     tab; "FUNCTION    1   "; schema; hash_fn_name to_lowercase h; "("; name; ");"]).

Definition trigger_to_sql (p : PgrxSql G) (t : PgTriggerEntity) : rendered :=
  self_index ← index_of t (px_triggers p);
  schema ← prefix_for p self_index;
  Ok (format
    [nl; location_comment (trg_file t) (trg_line t); "-- "; trg_full_path t; nl;
     "CREATE FUNCTION "; schema; dq; trg_function_name t; dq; "()"; nl;
     tab; "RETURNS TRIGGER"; nl;
     tab; "LANGUAGE c"; nl;
     tab; "AS 'MODULE_PATHNAME', '"; trg_function_name t; "_wrapper';"]).

(** ** Aggregates *)

Definition aggregate_argument_body (used_ty : UsedTypeEntity) : rendered :=
  match fmt_argument_sql (ut_metadata used_ty) with
  | rOk mapping => aggregate_sql_type mapping (ut_composite_type used_ty)
  | rErr err => Err (ArgumentMapping err)
  end.

Definition render_aggregate_slot (p : PgrxSql G) (owner : NodeIndex) (arg : AggregateTypeEntity) : rendered :=
  prefix ← prefix_for_used_type p owner (default "aggregate argument" (at_name arg)) (at_used_ty arg);
  sql ← aggregate_argument_body (at_used_ty arg);
  Ok (format [if ut_variadic (at_used_ty arg) then "VARIADIC " else ""; prefix; sql]).

Definition render_aggregate_argtypes (p : PgrxSql G) (owner : NodeIndex) (a : PgAggregateEntity) : rendered :=
  args ← collect (render_aggregate_slot p owner) (agg_args a);
  if agg_ordered_set a then
    direct ← collect (render_aggregate_slot p owner) (default [] (agg_direct_args a));
    Ok (format ["("; join_with ", " direct; " ORDER BY "; join_with ", " args; ")"])
  else Ok (format ["("; join_with ", " args; ")"]).

(** An attribute and the comment that follows it. *)
Definition aggregate_attribute (a : PgAggregateEntity) (text comment : string) : string * string :=
  (tab +:+ text, format ["/* "; agg_full_path a; "::"; comment; " */"]).

Definition aggregate_attributes (a : PgAggregateEntity) (schema : string) : list (string * string) :=
  let attr (o : option string) (text : string -> string) (comment : string) :=
    match o with Some value => [aggregate_attribute a (text value) comment] | None => [] end in
  let quoted label value := format [label; schema; dq; value; dq] in
  let literal label value := format [label; "'"; value; "'"] in
  attr (agg_finalfunc a) (quoted "FINALFUNC = ") "final"
  ++ attr (option_map finalize_modify_to_sql (agg_finalfunc_modify a))
       (fun v => "FINALFUNC_MODIFY = " +:+ v) "FINALIZE_MODIFY"
  ++ attr (agg_combinefunc a) (quoted "COMBINEFUNC = ") "combine"
  ++ attr (agg_serialfunc a) (quoted "SERIALFUNC = ") "serial"
  ++ attr (agg_deserialfunc a)
       (fun v => format ["DESERIALFUNC ="; schema; " "; dq; v; dq]) "deserial"
  ++ attr (agg_initcond a) (literal "INITCOND = ") "INITIAL_CONDITION"
  ++ attr (agg_msfunc a) (quoted "MSFUNC = ") "moving_state"
  ++ attr (agg_minvfunc a) (quoted "MINVFUNC = ") "moving_state_inverse"
  ++ attr (agg_mfinalfunc a) (quoted "MFINALFUNC = ") "moving_state_finalize"
  ++ attr (option_map finalize_modify_to_sql (agg_mfinalfunc_modify a))
       (fun v => "MFINALFUNC_MODIFY = " +:+ v) "MOVING_FINALIZE_MODIFY"
  ++ attr (agg_minitcond a) (literal "MINITCOND = ") "MOVING_INITIAL_CONDITION"
  ++ attr (agg_sortop a) (fun v => format ["SORTOP = "; dq; v; dq]) "SORT_OPERATOR"
  ++ attr (option_map parallel_to_sql (agg_parallel a)) (fun v => "PARALLEL = " +:+ v) "PARALLEL"
  ++ (if agg_hypothetical a then [aggregate_attribute a "HYPOTHETICAL" "hypothetical"] else []).

(** [sql_type_for_slot]: the mapping first, then the prefix. *)
Definition sql_type_for_slot (p : PgrxSql G) (self_index : NodeIndex) (slot : string)
    (used_ty : UsedTypeEntity) : rendered :=
  sql ← aggregate_argument_body used_ty;
  schema_prefix ← prefix_for_used_type p self_index slot used_ty;
  Ok (schema_prefix +:+ sql).

(** All attributes but the last end in a comma and a newline. *)
Definition attribute_line (len index : nat) (attribute : string * string) : string :=
  let last := (index =? len - 1)%nat in
  format [attribute.1; if last then "" else ","; " "; attribute.2; if last then "" else nl].

Definition attribute_lines (attributes : list (string * string)) : string :=
  format (map (fun '(index, attribute) => attribute_line (length attributes) index attribute)
            (indexed attributes)).

Definition render_aggregate_argument (p : PgrxSql G) (self_index : NodeIndex) (unnamed : string)
    (variadic : bool) (len idx : nat) (arg : AggregateTypeEntity) : rendered :=
  let used_ty := at_used_ty arg in
  schema_prefix ← prefix_for_used_type p self_index (default unnamed (at_name arg)) used_ty;
  sql ← aggregate_argument_body used_ty;
  Ok (format
    [tab; match at_name arg with Some name => format [dq; name; dq; " "] | None => "" end;
     if variadic && ut_variadic used_ty then "VARIADIC " else "";
     schema_prefix; sql; comma idx len; "/* "; ut_full_path used_ty; " */"]).

Definition render_aggregate_arguments (p : PgrxSql G) (self_index : NodeIndex) (unnamed : string)
    (variadic : bool) (args : list AggregateTypeEntity) : rendered :=
  args ← collect (fun '(idx, arg) =>
           render_aggregate_argument p self_index unnamed variadic (length args) idx arg) (indexed args);
  Ok (nl +:+ join_with nl args +:+ nl).

(** [impl ToSql for PgAggregateEntity] *)
Definition aggregate_to_sql (p : PgrxSql G) (a : PgAggregateEntity) : rendered :=
  self_index ← index_of a (px_aggregates p);
  schema ← prefix_for p self_index;
  stype ← sql_type_for_slot p self_index "STYPE" (at_used_ty (agg_stype a));
  mstype ← match agg_mstype a with
           | Some value =>
               sql ← sql_type_for_slot p self_index "MSTYPE" value;
               Ok [aggregate_attribute a ("MSTYPE = " +:+ sql) ("MovingState = " +:+ ut_full_path value)]
           | None => Ok []
           end;
  let optional_attributes := aggregate_attributes a schema ++ mstype in
  args ← render_aggregate_arguments p self_index "aggregate argument" true (agg_args a);
  direct_args ← match agg_direct_args a with
                | Some direct_args =>
                    render_aggregate_arguments p self_index "aggregate direct argument" false direct_args
                | None => Ok ""
                end;
  Ok (format
    [nl; location_comment (agg_file a) (agg_line a); "-- "; agg_full_path a; nl;
     "CREATE AGGREGATE "; schema; agg_name a; " ("; direct_args;
     if agg_ordered_set a then tab +:+ "ORDER BY" else ""; args; ")"; nl;
     "("; nl;
     tab; "SFUNC = "; schema; dq; agg_sfunc a; dq; ", /* "; agg_full_path a; "::state */"; nl;
     tab; "STYPE = "; stype; match optional_attributes with [] => "" | _ => "," end;
     " /* "; ut_full_path (at_used_ty (agg_stype a)); " */";
     nl; attribute_lines optional_attributes; match optional_attributes with [] => "" | _ => nl end;
     ");"]).

(** ** [SqlGraphEntity::to_sql] *)

(** [ToSqlConfigEntity::to_sql]: what [sql = false] and [sql = ..] give instead. *)
Definition config_to_sql (c : ToSqlConfigEntity) (e : SqlGraphEntity) (p : PgrxSql G) : option string :=
  if negb (cfg_enabled c) then
    Some (format [nl; sql_anchor_comment e; nl; "-- Skipped due to `#[pgrx(sql = false)]`"; nl])
  else match cfg_content c with
  | Some content =>
      let content := replace "@MODULE_PATHNAME@" (get_module_pathname p) content in
      Some (format [nl; sql_anchor_comment e; nl; content; nl])
  | None => None
  end.

(** Whether a type uses the function at [path] to read, write, receive or send. *)
Definition is_io_function (path : string) (t : PostgresTypeEntity) : bool :=
  let resolve := resolve_function_path (type_module_path t) in
  let is_opt (o : option string) :=
    match o with Some o => bool_decide (path = resolve o) | None => false end in
  bool_decide (path = resolve (type_in_fn_path t)) || bool_decide (path = resolve (type_out_fn_path t))
  || is_opt (type_receive_fn_path t) || is_opt (type_send_fn_path t).

(** [.any(|neighbor| ..)] over the neighbours. *)
Fixpoint any_io_type (g : G) (path : string) (neighbors : list NodeIndex) : outcome render_error bool :=
  match neighbors with
  | [] => Ok false
  | n :: neighbors =>
      e ← unwrap (g_weight g n);
      match e with
      | Entity_Type t => if is_io_function path t then Ok true else any_io_type g path neighbors
      | _ => any_io_type g path neighbors
      end
  end.

Definition or_config (c : ToSqlConfigEntity) (e : SqlGraphEntity) (p : PgrxSql G) (sql : rendered) : rendered :=
  match config_to_sql c e p with Some sql => Ok sql | None => sql end.

(** [matches!(name, "public" | "pg_catalog")] *)
Definition builtin_schema (name : string) : bool :=
  bool_decide (name = "public") || bool_decide (name = "pg_catalog").

Definition entity_to_sql (p : PgrxSql G) (e : SqlGraphEntity) : rendered :=
  match e with
  | Entity_Schema item => if builtin_schema (schema_name item) then Ok "" else Ok (schema_to_sql item)
  | Entity_CustomSql item => Ok (extension_sql_to_sql item)
  | Entity_Function item =>
      match config_to_sql (fn_to_sql_config item) e p with
      | Some sql => Ok sql
      | None =>
          index ← index_of item (px_externs p);
          io ← any_io_type (px_graph p) (fn_full_path item) (g_undirected (px_graph p) index);
          if (io : bool) then Ok "" else function_to_sql p item
      end
  | Entity_Type item => or_config (type_to_sql_config item) e p (type_to_sql p item)
  | Entity_BuiltinType _ => Ok ""
  | Entity_Enum item => or_config (enum_to_sql_config item) e p (enum_to_sql p item)
  | Entity_Ord item => or_config (ord_to_sql_config item) e p (ord_to_sql p item)
  | Entity_Hash item => or_config (hash_to_sql_config item) e p (hash_to_sql p item)
  | Entity_Aggregate item => or_config (agg_to_sql_config item) e p (aggregate_to_sql p item)
  | Entity_Trigger item => or_config (trg_to_sql_config item) e p (trigger_to_sql p item)
  | Entity_ExtensionRoot _ => Ok control_file_to_sql
  end.

End Render.
