(* ===== verification/SchemaText.v ===== *)
(** * The text of the schema, and of a slice of it

    [PgrxSql::to_sql], [emit_slice_from_nodes_inner] with
    [render_alter_extension_for_node], and their callers
    [emit_slice_from_nodes], [emit_slice_with_warnings] and [to_sql_for_items]
    of [pgrx-sql-entity-graph/src/pgrx_sql.rs].  The warnings a slice sends to
    its sink are returned beside its text. *)
From S2P Require Import Prelude Metadata Entities EntityOrd Producers Graph EmitOrder Slice.
From S2P Require Import Lookup Build Text Resolve Render.
From stdpp Require Import list gmap strings.
#[local] Set Warnings "-clear-no-such-hyp".

Section Emit.
Context {G : Type} `{StableGraph G} `{HashOrder}.
Variable (to_lowercase to_uppercase : string -> string).
Variable (tarjan_scc : G -> list (list NodeIndex)).

Abbreviation rendered := (outcome render_error string).
Abbreviation to_sql_of := (entity_to_sql to_lowercase to_uppercase).

(** ** [to_sql] *)

(** What a node contributes to its block: its SQL, trimmed, if there is any. *)
Definition node_sql (p : PgrxSql G) (node : NodeIndex) : outcome render_error (option string) :=
  step ← unwrap (g_weight (px_graph p) node);
  sql ← to_sql_of p step;
  let trimmed := trim sql in
  Ok (if is_empty trimmed then None else Some (trimmed +:+ nl)).

(** A block between its two comments; nothing when it is empty. *)
Definition block_text (separator : string) (pieces : list string) : string :=
  match pieces with
  | [] => ""
  | _ => format ["/* <begin connected objects> */"; nl; join_with separator pieces;
                 "/* </end connected objects> */"; nl; nl]
  end.

Definition component_sql (p : PgrxSql G) (nodes : list NodeIndex) : rendered :=
  order ← connected_component_emit_order (px_graph p) nodes;
  inner_sql ← collect (node_sql p) order;
  Ok (block_text (nl +:+ nl) (omap id inner_sql)).

Definition to_sql (p : PgrxSql G) : rendered :=
  blocks ← collect (component_sql p) (reverse (tarjan_scc (px_graph p)));
  Ok (format blocks).

(** ** [ALTER EXTENSION] *)

Definition alter_add (ext what : string) : string :=
  format ["ALTER EXTENSION "; dq; ext; dq; " ADD "; what; ";"].

Definition alter_operator (p : PgrxSql G) (node : NodeIndex) (ext schema : string) (f : PgExternEntity)
    : rendered :=
  match fn_operator f with
  | Some op =>
      match op_opname op with
      | Some opname =>
          left ← ok_or (OperatorArgumentMissing (fn_name f)) (fn_fn_args f !! 0%nat);
          right ← ok_or (OperatorArgumentMissing (fn_name f)) (fn_fn_args f !! 1%nat);
          left_sql ← render_used_type_sql p node "operator left argument" (arg_used_ty left);
          right_sql ← render_used_type_sql p node "operator right argument" (arg_used_ty right);
          Ok (nl +:+ alter_add ext (format ["OPERATOR "; schema; opname; "("; left_sql; ", "; right_sql; ")"]))
      | None => Ok ""
      end
  | None => Ok ""
  end.

Definition alter_cast (p : PgrxSql G) (node : NodeIndex) (ext : string) (f : PgExternEntity) : rendered :=
  match fn_cast f with
  | Some _ =>
      source ← ok_or (CastSourceMissing (fn_name f)) (fn_fn_args f !! 0%nat);
      source_sql ← render_used_type_sql p node "cast source type" (arg_used_ty source);
      target_sql ← render_function_return_type p node f;
      Ok (nl +:+ alter_add ext (format ["CAST ("; source_sql; " AS "; target_sql; ")"]))
  | None => Ok ""
  end.

Definition alter_declared (ext : string) (declared : SqlDeclaredEntity) : string :=
  match declared with
  | Declared_Type data | Declared_Enum data => alter_add ext ("TYPE " +:+ dt_sql data)
  | Declared_Function data => alter_add ext ("FUNCTION " +:+ df_sql data)
  end.

(** An operator family and the class of the same name. *)
Definition alter_opclass (ext name am : string) : string :=
  format [alter_add ext (format ["OPERATOR FAMILY "; name; " USING "; am]); nl;
          alter_add ext (format ["OPERATOR CLASS "; name; " USING "; am])].

Definition render_alter_extension_for_node (p : PgrxSql G) (node : NodeIndex) (ext : string)
    : outcome render_error (option string) :=
  ent ← unwrap (g_weight (px_graph p) node);
  match ent with
  | Entity_Function f =>
      schema ← fn_prefix p f node;
      argtypes ← render_function_argtypes p node f;
      operator ← alter_operator p node ext schema f;
      cast ← alter_cast p node ext f;
      Ok (Some (format
        [alter_add ext (format ["FUNCTION "; schema; dq; fn_name f; dq; "("; argtypes; ")"]);
         operator; cast]))
  | Entity_Type t =>
      schema ← prefix_for p node; Ok (Some (alter_add ext (format ["TYPE "; schema; type_name t])))
  | Entity_Enum e =>
      schema ← prefix_for p node; Ok (Some (alter_add ext (format ["TYPE "; schema; enum_name e])))
  | Entity_Aggregate a =>
      schema ← prefix_for p node;
      argtypes ← render_aggregate_argtypes p node a;
      Ok (Some (alter_add ext (format ["AGGREGATE "; schema; dq; agg_name a; dq; argtypes])))
  | Entity_Trigger t =>
      schema ← prefix_for p node;
      Ok (Some (alter_add ext (format ["FUNCTION "; schema; dq; trg_function_name t; dq; "()"])))
  | Entity_Ord o =>
      schema ← prefix_for p node;
      Ok (Some (alter_opclass ext (format [schema; ord_name o; "_btree_ops"]) "btree"))
  | Entity_Hash h =>
      schema ← prefix_for p node;
      Ok (Some (alter_opclass ext (format [schema; hash_name h; "_hash_ops"]) "hash"))
  | Entity_Schema s =>
      if builtin_schema (schema_name s) then Ok None
      else Ok (Some (alter_add ext ("SCHEMA " +:+ schema_name s)))
  | Entity_CustomSql c =>
      match sql_creates c with
      | [] => Ok None
      | creates => Ok (Some (join_with nl (map (alter_declared ext) creates)))
      end
  | Entity_BuiltinType _ | Entity_ExtensionRoot _ => Ok None
  end.

(** ** Slices *)

Definition creates_warning (c : ExtensionSqlEntity) : string :=
  format ["warning: extension_sql block at "; sql_file c; ":"; show_u32 (sql_line c);
          " does not declare `creates = [...]`; its objects won't be attached to the extension automatically"].

(** The clauses that follow a node's SQL, and the warnings. *)
Definition attach_node (p : PgrxSql G) (extension_name : option string) (node : NodeIndex)
    (ent : SqlGraphEntity) : outcome render_error (string * list string) :=
  match extension_name with
  | None => Ok ("", [])
  | Some ext =>
      alter ← render_alter_extension_for_node p node ext;
      Ok match alter with
         | Some alter_sql => (alter_sql +:+ (if ends_with_char LF alter_sql then "" else nl), [])
         | None =>
             ("", match ent with
                  | Entity_CustomSql c => match sql_creates c with [] => [creates_warning c] | _ => [] end
                  | _ => []
                  end)
         end
  end.

(** A node of a slice: skipped when it is not kept or is the root. *)
Definition slice_piece (p : PgrxSql G) (extension_name : option string) (keep : gset NodeIndex)
    (node : NodeIndex) : outcome render_error (option string * list string) :=
  if decide (node ∉ keep) then Ok (None, [])
  else
    ent ← unwrap (g_weight (px_graph p) node);
    match ent with
    | Entity_ExtensionRoot _ => Ok (None, [])
    | _ =>
        create_sql ← to_sql_of p ent;
        let create_sql := trim create_sql in
        '(attach, warnings) ← attach_node p extension_name node ent;
        let piece := (if is_empty create_sql then "" else create_sql +:+ nl) +:+ attach in
        Ok (if is_empty piece then None else Some piece, warnings)
    end.

Definition slice_component (p : PgrxSql G) (extension_name : option string) (keep : gset NodeIndex)
    (nodes : list NodeIndex) : outcome render_error (string * list string) :=
  ordered ← connected_component_emit_order (px_graph p) nodes;
  pieces ← collect (slice_piece p extension_name keep) ordered;
  Ok (block_text nl (omap fst pieces), concat (map snd pieces)).

Definition emit_slice_from_nodes_inner (p : PgrxSql G) (targets : list NodeIndex) (lib_name : string)
    (extension_name : option string) : outcome render_error (string * list string) :=
  keep ← collect_transitive_deps (px_graph p) targets;
  blocks ← collect (slice_component p extension_name keep) (reverse (tarjan_scc (px_graph p)));
  let body := format (map fst blocks) in
  let body := replace "'MODULE_PATHNAME'" (format ["'$libdir/"; lib_name; "'"]) body in
  Ok (match extension_name with
      | Some _ => format ["BEGIN;"; nl; nl; body; nl; "COMMIT;"; nl]
      | None => body
      end, concat (map snd blocks)).

Definition emit_slice_from_nodes (p : PgrxSql G) (targets : list NodeIndex) (lib_name : string)
    (extension_name : option string) : outcome render_error (string * list string) :=
  emit_slice_from_nodes_inner (item_slice_context p) targets lib_name extension_name.

Definition emit_slice_with_warnings (p : PgrxSql G) (item_names : list string) (lib_name : string)
    (extension_name : option string) : outcome render_error (string * list string) :=
  targets ← map_err Query (collect (resolve_item p) item_names);
  emit_slice_from_nodes p targets lib_name extension_name.

Definition to_sql_for_items (p : PgrxSql G) (item_names : list string) (lib_name : string)
    (extension_name : option string) : rendered :=
  '(sql, _) ← emit_slice_with_warnings p item_names lib_name extension_name;
  Ok sql.

End Emit.
