(* ===== verification/RenderTotal.v ===== *)
(** * Rendering succeeds on a built graph

    Every node of a built graph carries an entity the extension declared, the
    root or a placeholder; and every such entity renders, provided its type
    mappings are usable ([entity_ok], a check on the entity alone but for the
    [SUPPORT] functions it names). *)
From S2P Require Import Prelude Metadata Entities EntityOrd Producers Graph EmitOrder Slice.
From S2P Require Import Lookup Build BuildLogic Connect Initialize SchemaGraph Text Resolve Render SchemaText.
From stdpp Require Import list gmap strings.
#[local] Set Warnings "-clear-no-such-hyp".

(** [open_binds] names the results of the binds of a computation that succeeds. *)
Ltac open_binds :=
  repeat match goal with
  | H : _ ≫= _ = Ok _ |- _ =>
      let a := fresh "a" in let Ha := fresh "Ha" in apply outcome_bind_ok in H as (a & Ha & H)
  end.

(** A loop keeps what each turn keeps. *)
Lemma fold_outcome_keeps {E S A} (f : S -> A -> outcome E S) (R : S -> Prop) (l : list A) :
  (forall s x s', x ∈ l -> R s -> f s x = Ok s' -> R s') ->
  forall s s', R s -> fold_outcome f s l = Ok s' -> R s'.
Proof.
  induction l as [|x l IH]; intros Hf s s' Hs Hok; cbn in Hok; [by injection Hok as <-|].
  apply outcome_bind_ok in Hok as (s1 & H1 & Hok). eapply IH; [| |exact Hok].
  - intros s2 y s3 Hy. apply Hf. by apply list_elem_of_further.
  - eapply Hf; [apply list_elem_of_here | exact Hs | exact H1].
Qed.

(** ** Where the nodes come from *)

Section Known.
Context {G : Type} `{StableGraphLaws G} `{HashOrder}.
Variable (to_lowercase : string -> string).
Variable (known : SqlGraphEntity -> Prop).
Hypothesis known_builtin : forall t, known (Entity_BuiltinType t).

Definition knows (g : G) : Prop := forall i e, g_weight g i = Some e -> known e.

Lemma knows_add_node e g i g' : knows g -> known e -> g_add_node e g = (i, g') -> knows g'.
Proof.
  intros Hg He Ha j e'. rewrite (add_node_weight _ _ _ _ Ha). case_decide; [by intros [= <-] | apply Hg].
Qed.

Lemma knows_add_edge g a b w g' : knows g -> add_edge g a b w = Ok g' -> knows g'.
Proof.
  unfold add_edge. destruct (g_add_edge a b w g) as [g1|] eqn:Ea; [|done]. intros Hg [= <-] i e.
  rewrite (add_edge_weight _ _ _ _ _ Ea). apply Hg.
Qed.

Lemma knows_edge_from g s i g' : knows g -> add_edge_from g s i = Ok g' -> knows g'.
Proof. destruct s; cbn; [apply knows_add_edge | by intros ? [= <-]]. Qed.

Lemma knows_edge_to g i t g' : knows g -> add_edge_to g i t = Ok g' -> knows g'.
Proof. destruct t; cbn; [apply knows_add_edge | by intros ? [= <-]]. Qed.

Lemma knows_base g i root b f g' : knows g -> build_base_edges g i root b f = Ok g' -> knows g'.
Proof.
  unfold build_base_edges. intros Hg Hok. open_binds.
  eapply knows_edge_to; [|exact Hok]. eapply knows_edge_from; [|eassumption].
  by eapply knows_add_edge.
Qed.

Lemma knows_sqls g root items g' m b f :
  knows g -> (forall s, s ∈ items -> known (Entity_CustomSql s)) ->
  initialize_extension_sqls g root items = Ok (g', m, b, f) -> knows g'.
Proof.
  intros Hg Hk Hok. unfold initialize_extension_sqls in Hok. open_binds. injection Hok as <- _ _ _.
  assert (Hnodes : knows (ss_graph a)).
  { apply (fold_outcome_keeps _ (fun st => knows (ss_graph st))) in Ha; [done| |done].
    intros st x st' Hx Hst Hok. unfold initialize_extension_sql in Hok.
    destruct (g_add_node _ _) as [i g1] eqn:Ea. open_binds. injection Hok as <-. cbn.
    eapply knows_add_node; [exact Hst | by apply Hk | exact Ea]. }
  apply (fold_outcome_keeps _ knows) in Ha0; [done| |done]. clear Hg Hk Ha Ha0 Hnodes. intros g1 [item i] g2 _ Hg Hok. cbn in Hok. open_binds.
  assert (knows a2).
  { destruct (negb (sql_bootstrap item)); [eapply knows_edge_from; [|eassumption] | injection Ha0 as <-];
      by eapply knows_add_edge. }
  destruct (negb (sql_finalize item)); [by eapply knows_edge_to | by injection Hok as <-].
Qed.

Lemma knows_schemas g b f items g' m :
  knows g -> (forall s, s ∈ items -> known (Entity_Schema s)) ->
  initialize_schemas g b f items = Ok (g', m) -> knows g'.
Proof.
  intros Hg Hk Hok.
  apply (fold_outcome_keeps _ (fun st => knows st.1) items) in Hok; [done| |done].
  intros [g1 m1] x [g2 m2] Hx Hst Hx'. cbn in Hx'. destruct (g_add_node _ _) as [i g3] eqn:Ea.
  open_binds. injection Hx' as <- _. cbn. eapply knows_edge_to; [|eassumption].
  eapply knows_edge_from; [|eassumption]. eapply knows_add_node; [exact Hst | by apply Hk | exact Ea].
Qed.

Lemma knows_nodes {K} `{EqDecision K} (into : K -> SqlGraphEntity) g root b f items g' m :
  knows g -> (forall s, s ∈ items -> known (into s)) ->
  initialize_nodes into g root b f items = Ok (g', m) -> knows g'.
Proof.
  intros Hg Hk Hok.
  apply (fold_outcome_keeps _ (fun st => knows st.1) items) in Hok; [done| |done].
  intros [g1 m1] x [g2 m2] Hx Hst Hx'. cbn in Hx'. destruct (g_add_node _ _) as [i g3] eqn:Ea.
  open_binds. injection Hx' as <- _. cbn. eapply knows_base; [|eassumption].
  eapply knows_add_node; [exact Hst | by apply Hk | exact Ea].
Qed.

Lemma knows_uses types enums sqls kind name us : forall st st',
  knows st.1 -> fold_outcome (initialize_use types enums sqls kind name) st us = Ok st' -> knows st'.1.
Proof.
  intros st st'. apply (fold_outcome_keeps _ (fun st => knows st.1)).
  intros [g m] u [g' m'] _ Hg Hu. unfold initialize_use in Hu.
  destruct (ut_resolution (use_ty u)) as [[t o]|]; [|done]. cbn in Hu. destruct o.
  - destruct (find_graph_type_target _ _ _ _); [|done]. cbn in Hu. by injection Hu as <- _.
  - destruct (hm_get t m); [by injection Hu as <- _|].
    destruct (g_add_node _ _) as [i g1] eqn:Ea. injection Hu as <- _.
    eapply knows_add_node; [exact Hg | apply known_builtin | exact Ea].
Qed.

Lemma knows_externs g root b f items types enums sqls g' m bm :
  knows g -> (forall s, s ∈ items -> known (Entity_Function s)) ->
  initialize_externs g root b f items types enums sqls = Ok (g', m, bm) -> knows g'.
Proof.
  intros Hg Hk Hok.
  apply (fold_outcome_keeps _ (fun st => knows st.1.1) items) in Hok; [done| |done].
  intros [[g1 m1] bm1] x [[g2 m2] bm2] Hx Hst Hx'. cbn in Hx'.
  destruct (g_add_node _ _) as [i g3] eqn:Ea. open_binds. destruct a0 as [g4 bm4]. open_binds.
  injection Hx' as <- _ _. cbn. eapply (knows_uses _ _ _ _ _ _ (a, bm1) (g4, bm4)); [|eassumption].
  cbn. eapply knows_base; [|eassumption].
  eapply knows_add_node; [exact Hst | by apply Hk | exact Ea].
Qed.

Lemma knows_aggregates g root b f items bm0 enums types sqls g' m bm :
  knows g -> (forall s, s ∈ items -> known (Entity_Aggregate s)) ->
  initialize_aggregates g root b f items bm0 enums types sqls = Ok (g', m, bm) -> knows g'.
Proof.
  intros Hg Hk Hok.
  apply (fold_outcome_keeps _ (fun st => knows st.1.1) items) in Hok; [done| |done].
  intros [[g1 m1] bm1] x [[g2 m2] bm2] Hx Hst Hx'. cbn in Hx'.
  destruct (g_add_node _ _) as [i g3] eqn:Ea. open_binds. destruct a as [g4 bm4]. open_binds.
  injection Hx' as <- _ _. cbn. eapply knows_base; [|eassumption].
  eapply (knows_uses _ _ _ _ _ _ (g3, bm1) (g4, bm4)); [|eassumption].
  cbn. eapply knows_add_node; [exact Hst | by apply Hk | exact Ea].
Qed.

End Known.

(** [open_binds], and the pairs the binds return. *)
Ltac open_pairs :=
  repeat first
    [ progress open_binds
    | match goal with H : context [match ?x with pair _ _ => _ end] |- _ => destruct x end ].

Section Nodes.
Context {G : Type} `{StableGraphLaws G} `{HashOrder}.
Variable (to_lowercase : string -> string).

Lemma build_nodes_knows sp name versioned (p : PgrxSql G) (known : SqlGraphEntity -> Prop) :
  (forall t, known (Entity_BuiltinType t)) -> (forall c, known (Entity_ExtensionRoot c)) ->
  (forall s, s ∈ sp_extension_sqls sp -> known (Entity_CustomSql s)) ->
  (forall s, s ∈ sp_schemas sp -> known (Entity_Schema s)) ->
  (forall s, s ∈ sp_enums sp -> known (Entity_Enum s)) ->
  (forall s, s ∈ sp_types sp -> known (Entity_Type s)) ->
  (forall s, s ∈ sp_externs sp -> known (Entity_Function s)) ->
  (forall s, s ∈ sp_ords sp -> known (Entity_Ord s)) ->
  (forall s, s ∈ sp_hashes sp -> known (Entity_Hash s)) ->
  (forall s, s ∈ sp_aggregates sp -> known (Entity_Aggregate s)) ->
  (forall s, s ∈ sp_triggers sp -> known (Entity_Trigger s)) ->
  build_nodes sp name versioned = Ok p -> knows known (px_graph p).
Proof.
  intros Hb Hr H1' H2 H3 H4 H5 H6 H7 H8 H9 Hok. unfold build_nodes in Hok.
  destruct (sp_control sp) as [c|]; [|done]. cbn [unwrap mbind outcome_bind] in Hok.
  destruct (g_add_node (Entity_ExtensionRoot c) g_new) as [root g0] eqn:Ea.
  assert (K0 : knows known g0).
  { eapply knows_add_node; [|apply Hr|exact Ea]. intros i e. by rewrite new_weight. }
  open_pairs. injection Hok as <-. cbn [px_graph].
  eapply (knows_nodes known Entity_Trigger); [|exact H9|eassumption].
  eapply (knows_aggregates known); [done| |exact H8|eassumption].
  eapply (knows_nodes known Entity_Hash); [|exact H7|eassumption].
  eapply (knows_nodes known Entity_Ord); [|exact H6|eassumption].
  eapply (knows_externs known); [done| |exact H5|eassumption].
  eapply (knows_nodes known Entity_Type); [|exact H4|eassumption].
  eapply (knows_nodes known Entity_Enum); [|exact H3|eassumption].
  eapply (knows_schemas known); [|exact H2|eassumption].
  eapply (knows_sqls known); [exact K0|exact H1'|eassumption].
Qed.

(** Connecting the entities keeps the nodes. *)
Lemma build_same_nodes sp name versioned (p : PgrxSql G) g :
  build_nodes sp name versioned = Ok p -> build_edges to_lowercase p = Ok g -> same_nodes (px_graph p) g.
Proof.
  intros Hn He. assert (Hok : nodes_ok sp p).
  { destruct (sp_control sp) as [c|] eqn:Ec; [|unfold build_nodes in Hn; by rewrite Ec in Hn].
    pose proof (build_nodes_ok sp c name versioned Ec) as Hb. by rewrite Hn in Hb. }
  pose proof (build_edges_adds to_lowercase p (nodes_ok_maps_in _ _ Hok)) as Ha.
  rewrite He in Ha. destruct Ha as [[Hsame _] _]; [| |exact Hsame].
  - intros item i u Hi. apply ready_placeholder, (no_extern_uses _ _ Hok).
    eapply init_ok_item; [apply (no_externs _ _ Hok) | exact Hi].
  - intros item i u Hi. apply ready_placeholder, (no_aggregate_uses _ _ Hok).
    eapply init_ok_item; [apply (no_aggregates _ _ Hok) | exact Hi].
Qed.

Lemma build_nodes_known entities name versioned (p : PgrxSql G) i e :
  build to_lowercase entities name versioned = Ok p ->
  g_weight (px_graph p) i = Some e -> is_declared e = true -> e ∈ entities /\ exists j, placed p e j.
Proof.
  intros Hb Hw Hd. assert (He : e ∈ entities).
  { unfold build in Hb. open_binds. injection Hb as <-. cbn [with_graph px_graph] in Hw.
    rewrite (build_same_nodes _ _ _ _ _ Ha Ha0) in Hw.
    assert (Hk : knows (fun e => is_declared e = true -> e ∈ entities) (px_graph a)).
    { eapply build_nodes_knows; [done|done|..|exact Ha];
        intros s Hs%elem_of_split; destruct Hs as (e' & He' & Hm); destruct e'; try done;
        injection Hm as ->; done. }
    by apply (Hk i e). }
  split; [done|]. apply build_built in Hb. by eapply placed_complete.
Qed.

End Nodes.

(** ** What can be rendered *)

(** A mapping that has a spelling. *)
Definition mapping_ok (m : SqlMapping) (composite_type : option string) : bool :=
  match m with
  | SqlMapping_As _ | SqlMapping_Array (SqlArrayMapping_As _) => true
  | SqlMapping_Composite | SqlMapping_Array SqlArrayMapping_Composite =>
      match composite_type with Some _ => true | None => false end
  | SqlMapping_Skip => false
  end.

Definition argument_ok (u : UsedTypeEntity) : bool :=
  match fmt_argument_sql (ut_metadata u) with
  | rOk m => mapping_ok m (ut_composite_type u)
  | rErr _ => false
  end.

Definition returned_ok (accept : Returns -> option SqlMapping) (u : UsedTypeEntity) : bool :=
  match fmt_return_sql (ut_metadata u) with
  | rOk r => match accept r with Some m => mapping_ok m (ut_composite_type u) | None => false end
  | rErr _ => false
  end.

Definition returns_ok (r : PgExternReturnEntity) : bool :=
  match r with
  | Return_None | Return_Trigger => true
  | Return_Type ty => returned_ok accept_one ty
  | Return_SetOf ty => returned_ok accept_one_or_set ty
  | Return_Iterated tys =>
      forallb (fun item => returned_ok accept_one (it_ty item)
                           && match it_name item with Some _ => true | None => false end) tys
  end.

Definition operator_ok (f : PgExternEntity) : bool :=
  match fn_operator f with
  | None => true
  | Some op =>
      match op_opname op, fn_fn_args f with
      | Some _, a :: b :: _ => argument_ok (arg_used_ty a) && argument_ok (arg_used_ty b)
      | _, _ => false
      end
  end.

Definition cast_ok (f : PgExternEntity) : bool :=
  match fn_cast f with
  | None => true
  | Some _ =>
      match fn_fn_return f, fn_fn_args f with
      | Return_Type _, source :: _ => argument_ok (arg_used_ty source)
      | _, _ => false
      end
  end.

Section Ok.
Context {G : Type} `{StableGraph G} `{HashOrder}.

(** The function of a [SUPPORT] attribute is found. *)
Definition support_ok (p : PgrxSql G) (f : PgExternEntity) : bool :=
  forallb (fun a => match a with
                    | Support _ => match find_matching_fn p (extern_args_display a) with
                                   | Some _ => true | None => false end
                    | _ => true
                    end) (fn_extern_attrs f).

Definition function_ok (p : PgrxSql G) (f : PgExternEntity) : bool :=
  forallb (fun a => argument_ok (arg_used_ty a)) (sql_args f)
  && returns_ok (fn_fn_return f) && operator_ok f && cast_ok f && support_ok p f.

Definition alignment_ok (a : option Z) : bool :=
  match a with Some a => bool_decide (a ∈ [1; 2; 4; 8]%Z) | None => true end.

(** The functions a type names are rendered with it. *)
Definition type_ok (p : PgrxSql G) (t : PostgresTypeEntity) : bool :=
  alignment_ok (type_alignment t)
  && forallb (fun '(f, _) => implb (is_io_function (fn_full_path f) t) (function_ok p f)) (px_externs p).

Definition aggregate_ok (a : PgAggregateEntity) : bool :=
  forallb (fun arg => argument_ok (at_used_ty arg)) (agg_args a)
  && forallb (fun arg => argument_ok (at_used_ty arg)) (default [] (agg_direct_args a))
  && argument_ok (at_used_ty (agg_stype a))
  && opt_ok argument_ok (agg_mstype a).

(** [sql = false] or [sql = ".."] *)
Definition overridden (c : ToSqlConfigEntity) : bool :=
  negb (cfg_enabled c) || match cfg_content c with Some _ => true | None => false end.

Definition entity_ok (p : PgrxSql G) (e : SqlGraphEntity) : bool :=
  match e with
  | Entity_Function f => overridden (fn_to_sql_config f) || function_ok p f
  | Entity_Type t => overridden (type_to_sql_config t) || type_ok p t
  | Entity_Aggregate a => overridden (agg_to_sql_config a) || aggregate_ok a
  | _ => true
  end.

End Ok.

(** ** Computations that return a value *)

Definition succeeds {E A} (m : outcome E A) : Prop := exists a, m = Ok a.

Lemma succeeds_ok {E A} (a : A) : succeeds (Ok (E:=E) a).
Proof. by exists a. Qed.

Lemma succeeds_bind {E A B} (m : outcome E A) (f : A -> outcome E B) :
  succeeds m -> (forall a, m = Ok a -> succeeds (f a)) -> succeeds (m ≫= f).
Proof. intros [a Ha] Hf. rewrite Ha. cbn. by apply Hf. Qed.

Lemma succeeds_collect {E A B} (f : A -> outcome E B) (l : list A) :
  (forall a, a ∈ l -> succeeds (f a)) -> succeeds (collect f l).
Proof.
  induction l as [|x l IH]; intros Hf; cbn; [apply succeeds_ok|].
  apply succeeds_bind; [apply Hf, list_elem_of_here|]. intros y _.
  apply succeeds_bind; [apply IH; intros a Ha; by apply Hf, list_elem_of_further|].
  intros ys _. apply succeeds_ok.
Qed.

Lemma succeeds_map_err {E E' A} (f : E -> E') (m : outcome E A) :
  succeeds (map_err f m) <-> succeeds m.
Proof. split; intros [a Ha]; destruct m; try done; by eexists. Qed.

Create HintDb renders.
#[export] Hint Resolve succeeds_ok succeeds_bind succeeds_collect : renders.

(** A chain of binds, each of which succeeds by a lemma of the database. *)
Ltac chain := repeat (apply succeeds_bind; [eauto 4 with renders | intros ? ?]); eauto 4 with renders.

Lemma indexed_elem {A} (l : list A) n x : (n, x) ∈ indexed l -> x ∈ l.
Proof. unfold indexed. intros Hin. by apply elem_of_zip_r in Hin. Qed.

Lemma dedup_elem {A} `{EqDecision A} (l : list A) x : x ∈ dedup l <-> x ∈ l.
Proof.
  induction l as [|y l IH]; [done|]. destruct l as [|z l]; [done|].
  change (dedup (y :: z :: l)) with (if decide (y = z) then dedup (z :: l) else y :: dedup (z :: l)).
  case_decide as Hyz.
  - subst. rewrite IH, !elem_of_cons. tauto.
  - rewrite elem_of_cons, IH, !(elem_of_cons _ _ y). tauto.
Qed.

Lemma rendered_attrs_elem f a :
  a ∈ rendered_attrs f <-> a ∈ fn_extern_attrs f \/ (a = Strict /\ strict_upgrade f = true).
Proof.
  unfold rendered_attrs. rewrite dedup_elem, sort_perm, elem_of_app.
  destruct (strict_upgrade f); [rewrite list_elem_of_singleton | rewrite elem_of_nil]; naive_solver.
Qed.

Lemma sql_type_ok m c : mapping_ok m c = true -> succeeds (sql_type m c).
Proof. destruct m as [|[]|[|]|], c; try done; intros _; eexists; reflexivity. Qed.

Lemma aggregate_sql_type_ok m c : mapping_ok m c = true -> succeeds (aggregate_sql_type m c).
Proof. destruct m as [| |[|]|], c; try done; intros _; eexists; reflexivity. Qed.

Lemma argument_ok_body u : argument_ok u = true -> succeeds (argument_sql_body u).
Proof.
  unfold argument_ok, argument_sql_body. destruct (fmt_argument_sql _) as [m|]; [|done].
  intros Hm. destruct m; try (by apply sql_type_ok); [apply succeeds_ok | done].
Qed.

Lemma argument_ok_aggregate u : argument_ok u = true -> succeeds (aggregate_argument_body u).
Proof.
  unfold argument_ok, aggregate_argument_body. destruct (fmt_argument_sql _) as [m|]; [|done].
  apply aggregate_sql_type_ok.
Qed.

Lemma argument_ok_emits u : argument_ok u = true -> ut_emits_argument_sql u = true.
Proof.
  unfold argument_ok, ut_emits_argument_sql. destruct (fmt_argument_sql _) as [[]|]; try done.
Qed.

#[export] Hint Resolve argument_ok_body argument_ok_aggregate : renders.

(** ** Each kind of entity *)

Section Total.
Context {G : Type} `{StableGraphLaws G} `{HashOrder}.
Variable (to_lowercase to_uppercase : string -> string).
Variable (sp : split_entities) (p : PgrxSql G).
Hypothesis p_built : built to_lowercase sp p.

Lemma p_wf : graph_wf (px_graph p).
Proof. by eapply built_wf. Qed.

Lemma index_of_ok {K} `{EqDecision K} (k : K) (m : hmap K) i :
  (k, i) ∈ m -> exists j, index_of k m = Ok j /\ (k, j) ∈ m.
Proof.
  intros Hk. unfold index_of. destruct (hm_get k m) as [j|] eqn:Ej.
  - exists j. split; [done | by apply hm_get_elem].
  - exfalso. assert (is_Some (hm_get k m)) as [? ?]; [|congruence].
    apply hm_get_key. by apply (list_elem_of_fmap_2' fst m (k, i)).
Qed.

Lemma placed_weight e i : placed p e i -> g_weight (px_graph p) i = Some e.
Proof. intros Hp. by destruct (placed_built _ _ _ _ _ p_built Hp). Qed.

Lemma prefix_for_ok i : is_Some (g_weight (px_graph p) i) -> succeeds (prefix_for p i).
Proof.
  intros Hi. apply succeeds_map_err. destruct (schema_prefix_total p i p_wf Hi) as [s Hs].
  by exists s.
Qed.

(** The types of a function that a prefix is needed for. *)
Definition used_in (uses : list type_use) (u : UsedTypeEntity) : Prop :=
  ut_resolution u = None \/ exists use, use ∈ uses /\ use_ty use = u.

Lemma unresolved_prefix i slot u :
  ut_resolution u = None -> succeeds (prefix_for_used_type p i slot u).
Proof.
  intros Hu. unfold prefix_for_used_type, schema_prefix_for_used_type. rewrite Hu. by eexists.
Qed.

Lemma function_prefix f i slot u :
  (f, i) ∈ px_externs p -> used_in (function_uses f) u -> succeeds (prefix_for_used_type p i slot u).
Proof.
  intros Hf [Hu|(use & Hin & <-)]; [by apply unresolved_prefix|]. apply succeeds_map_err.
  destruct (types_first _ _ _ p_built) as [Hfn _].
  destruct (used_type_prefix_total _ _ _ i use slot p_built (Hfn f i use Hf Hin)) as [s Hs]. by exists s.
Qed.

Lemma aggregate_prefix a i slot u :
  (a, i) ∈ px_aggregates p -> used_in (aggregate_uses a) u -> succeeds (prefix_for_used_type p i slot u).
Proof.
  intros Ha [Hu|(use & Hin & <-)]; [by apply unresolved_prefix|]. apply succeeds_map_err.
  destruct (types_first _ _ _ p_built) as [_ Hag].
  destruct (used_type_prefix_total _ _ _ i use slot p_built (Hag a i use Ha Hin)) as [s Hs]. by exists s.
Qed.

Lemma resolved_needs u : ut_resolution u = None \/ ut_needs_type_resolution u = true.
Proof.
  unfold ut_resolution, ut_needs_type_resolution, fmt_needs_type_resolution.
  destruct (fmt_resolution (ut_metadata u)); auto.
Qed.

Lemma argument_used f arg :
  arg ∈ fn_fn_args f -> ut_emits_argument_sql (arg_used_ty arg) = true ->
  used_in (function_uses f) (arg_used_ty arg).
Proof.
  intros Hin He. destruct (resolved_needs (arg_used_ty arg)) as [Hn|Hn]; [by left|]. right.
  eexists. split; [|shelve]. apply elem_of_app. left. apply list_elem_of_omap.
  exists arg. split; [done|]. unfold argument_use. by rewrite He, Hn.
  Unshelve. done.
Qed.

Lemma if_resolved_used requires slot u : used_in (use_if_resolved requires slot u) u.
Proof.
  unfold used_in, use_if_resolved. destruct (ut_resolution u); [|by left]. right.
  eexists. split; [apply list_elem_of_here | done].
Qed.

Lemma used_in_app uses uses' u : used_in uses' u -> used_in (uses ++ uses') u.
Proof. intros [Hu|(use & Hin & Hu)]; [by left|]. right. exists use. by rewrite elem_of_app; auto. Qed.

Lemma return_used f u :
  (fn_fn_return f = Return_Type u \/ fn_fn_return f = Return_SetOf u) -> used_in (function_uses f) u.
Proof.
  intros Hr. apply used_in_app. destruct Hr as [->| ->]; apply if_resolved_used.
Qed.

Lemma column_used f items item :
  fn_fn_return f = Return_Iterated items -> item ∈ items -> used_in (function_uses f) (it_ty item).
Proof.
  intros Hr Hin. apply used_in_app. rewrite Hr. cbn.
  destruct (if_resolved_used ByReturn "table return column" (it_ty item)) as [Hu|(use & Hi & Hu)];
    [by left|]. right. exists use. split; [|done]. apply list_elem_of_In, in_concat.
  eexists. split; [apply in_map; by apply list_elem_of_In | by apply list_elem_of_In].
Qed.

Section Function.
Variable (f : PgExternEntity) (i : NodeIndex).
Hypothesis f_placed : (f, i) ∈ px_externs p.

Lemma fn_prefix_ok : succeeds (fn_prefix p f i).
Proof.
  unfold fn_prefix. destruct (fn_schema f); [apply succeeds_ok|]. apply prefix_for_ok.
  rewrite (placed_weight (Entity_Function f)); eauto.
Qed.

Lemma used_type_sql_ok slot arg :
  arg ∈ fn_fn_args f -> argument_ok (arg_used_ty arg) = true ->
  succeeds (render_used_type_sql p i slot (arg_used_ty arg)).
Proof.
  intros Hin Hok. apply succeeds_bind; [|intros ? _; chain].
  apply function_prefix with f; [done|]. by apply argument_used, argument_ok_emits.
Qed.

Lemma sql_args_elem arg : arg ∈ sql_args f -> arg ∈ fn_fn_args f /\ ut_emits_argument_sql (arg_used_ty arg) = true.
Proof. unfold sql_args. rewrite list_elem_of_In, filter_In, <- list_elem_of_In. done. Qed.

Lemma render_arguments_ok :
  forallb (fun a => argument_ok (arg_used_ty a)) (sql_args f) = true ->
  succeeds (render_arguments p i f).
Proof.
  intros Hok. rewrite forallb_forall in Hok. unfold render_arguments.
  destruct (fn_fn_args f); [apply succeeds_ok|]. apply succeeds_bind; [|intros; apply succeeds_ok].
  apply succeeds_collect. intros [n arg] Hin%indexed_elem. pose proof Hin as [Ha He]%sql_args_elem.
  apply succeeds_bind; [apply function_prefix with f; [done | by apply argument_used]|]. intros pre _.
  specialize (Hok arg (proj1 (list_elem_of_In _ _) Hin)). unfold argument_ok in Hok.
  destruct (fmt_argument_sql _) as [m|]; [|done].
  destruct m; try apply succeeds_ok;
    (apply succeeds_bind; [by apply sql_type_ok | intros; apply succeeds_ok]).
Qed.

Lemma argtypes_ok :
  forallb (fun a => argument_ok (arg_used_ty a)) (sql_args f) = true ->
  succeeds (render_function_argtypes p i f).
Proof.
  intros Hok. rewrite forallb_forall in Hok. apply succeeds_bind; [|intros; apply succeeds_ok].
  apply succeeds_collect. intros arg Hin. pose proof Hin as [Ha _]%sql_args_elem.
  apply succeeds_bind; [|intros; apply succeeds_ok]. apply used_type_sql_ok; [done|].
  by apply Hok, list_elem_of_In.
Qed.

Lemma render_returned_ok slot accept u :
  used_in (function_uses f) u -> returned_ok accept u = true ->
  succeeds (render_returned p i slot accept u).
Proof.
  intros Hu. pose proof (function_prefix f i slot u f_placed Hu) as Hp.
  unfold returned_ok, render_returned. destruct (fmt_return_sql _) as [r|]; [|done].
  destruct (accept r) as [m|]; [|done]. intros Hm.
  destruct m; try done; (apply succeeds_bind; [done|]; intros ? _); [apply succeeds_ok|..];
    (apply succeeds_bind; [by apply sql_type_ok | intros; apply succeeds_ok]).
Qed.

Lemma render_returns_ok : returns_ok (fn_fn_return f) = true -> succeeds (render_returns p i (fn_fn_return f)).
Proof.
  destruct (fn_fn_return f) as [|u|u|items|] eqn:Er; cbn [returns_ok render_returns]; intros Hok;
    try apply succeeds_ok.
  - apply succeeds_bind; [|intros; apply succeeds_ok]. apply render_returned_ok; [|done].
    apply return_used. by left.
  - apply succeeds_bind; [|intros; apply succeeds_ok]. apply render_returned_ok; [|done].
    apply return_used. by right.
  - apply succeeds_bind; [|intros; apply succeeds_ok]. apply succeeds_collect.
    intros [n item] Hin%indexed_elem. rewrite forallb_forall in Hok.
    specialize (Hok item (proj1 (list_elem_of_In _ _) Hin)). split_ok.
    apply succeeds_bind; [apply render_returned_ok; [by eapply column_used | done]|]. intros sql _.
    destruct (it_name item); [|done]. by eexists.
Qed.

Lemma return_type_ok u :
  fn_fn_return f = Return_Type u -> returned_ok accept_one u = true ->
  succeeds (render_function_return_type p i f).
Proof.
  intros Hr Hok. unfold render_function_return_type. rewrite Hr.
  apply succeeds_bind; [apply function_prefix with f; [done | apply return_used; by left]|].
  intros pre _. apply succeeds_bind; [|intros; apply succeeds_ok]. unfold returned_ok in Hok.
  destruct (fmt_return_sql _) as [[m| |]|]; try done. cbn in Hok.
  destruct m; try done; [apply succeeds_ok | by apply sql_type_ok..].
Qed.

Lemma fn_sql_name_ok g j : (g, j) ∈ px_externs p -> succeeds (fn_sql_name p g).
Proof.
  intros Hg. unfold fn_sql_name. destruct (index_of_ok g _ j Hg) as (k & -> & Hk). cbn.
  apply succeeds_bind; [|intros; apply succeeds_ok]. unfold fn_prefix.
  destruct (fn_schema g); [apply succeeds_ok|]. apply prefix_for_ok.
  rewrite (placed_weight (Entity_Function g)); eauto.
Qed.

Lemma find_matching_fn_elem name g : find_matching_fn p name = Some g -> exists j, (g, j) ∈ px_externs p.
Proof.
  unfold find_matching_fn. intros ([e j] & Hin & He)%find_map_Some. rewrite elem_of_hash_order in Hin.
  destruct (ends_with _ _); [|done]. injection He as ->. eauto.
Qed.

Lemma render_attrs_ok : support_ok p f = true -> succeeds (render_attrs to_uppercase p (rendered_attrs f)).
Proof.
  unfold support_ok. rewrite forallb_forall. intros Hok. unfold render_attrs.
  destruct (rendered_attrs f) as [|x l] eqn:Er; [apply succeeds_ok|]. rewrite <- Er.
  apply succeeds_bind; [|intros; apply succeeds_ok]. apply succeeds_collect. intros a Ha.
  rewrite list_elem_of_In, filter_In in Ha. destruct Ha as [Ha _]. apply list_elem_of_In in Ha.
  destruct a; try apply succeeds_ok. apply rendered_attrs_elem in Ha as [Ha|[? _]]; [|done].
  specialize (Hok _ (proj1 (list_elem_of_In _ _) Ha)). cbn in Hok |- *.
  destruct (find_matching_fn p _) as [g|] eqn:Eg; [|done]. cbn.
  destruct (find_matching_fn_elem _ _ Eg) as [j Hj].
  apply succeeds_bind; [by eapply fn_sql_name_ok | intros; apply succeeds_ok].
Qed.

Lemma render_operator_ok op :
  operator_ok f = true -> fn_operator f = Some op -> succeeds (render_operator p i f op).
Proof.
  unfold operator_ok. intros Hok Hop. rewrite Hop in Hok. unfold render_operator.
  destruct (op_opname op); [|done]. destruct (fn_fn_args f) as [|a [|b args]] eqn:Ea; try done.
  split_ok. cbn [lookup list_lookup ok_or mbind outcome_bind].
  apply succeeds_bind; [apply used_type_sql_ok; [rewrite Ea; apply list_elem_of_here | done]|]. intros ? _.
  apply succeeds_bind; [apply used_type_sql_ok; [rewrite Ea; apply list_elem_of_further, list_elem_of_here | done]|].
  intros ? _. apply succeeds_bind; [apply fn_prefix_ok|]. intros ? _. cbn. apply succeeds_ok.
Qed.

Lemma render_cast_ok cast :
  cast_ok f = true -> returns_ok (fn_fn_return f) = true -> fn_cast f = Some cast ->
  succeeds (render_cast p i f cast).
Proof.
  unfold cast_ok. intros Hok Hr Hc. rewrite Hc in Hok. unfold render_cast.
  destruct (fn_fn_return f) as [|u| | |] eqn:Er; try done.
  destruct (fn_fn_args f) as [|a args] eqn:Ea; [done|].
  apply succeeds_bind; [by eapply return_type_ok|]. intros ? _.
  cbn [lookup list_lookup ok_or mbind outcome_bind].
  apply succeeds_bind; [apply used_type_sql_ok; [rewrite Ea; apply list_elem_of_here | done]|]. intros ? _.
  apply succeeds_bind; [by eapply fn_sql_name_ok | intros; apply succeeds_ok].
Qed.

End Function.

Lemma function_to_sql_ok f i :
  (f, i) ∈ px_externs p -> function_ok p f = true -> succeeds (function_to_sql to_uppercase p f).
Proof.
  intros Hf Hok. unfold function_ok in Hok. split_ok. unfold function_to_sql.
  destruct (index_of_ok f _ i Hf) as (j & -> & Hj). cbn [mbind outcome_bind].
  apply succeeds_bind; [by apply fn_prefix_ok|]. intros ? _.
  apply succeeds_bind; [by apply render_arguments_ok|]. intros ? _.
  apply succeeds_bind; [by apply render_returns_ok|]. intros ? _.
  apply succeeds_bind; [by apply render_attrs_ok|]. intros ? _.
  apply succeeds_bind.
  { destruct (fn_operator f) eqn:Eo; [by apply render_operator_ok | apply succeeds_ok]. }
  intros ? _. apply succeeds_bind; [|intros; apply succeeds_ok].
  destruct (fn_cast f) eqn:Ec; [by apply render_cast_ok | apply succeeds_ok].
Qed.

End Total.
