(* ===== verification/SchemaRender.v ===== *)
(** * The rendered schema

    Theorems on the text of a built graph: it is rendered in full when its
    entities can be ([to_sql_total]), what depends on something comes after it in
    the text, the functions of a type are created with it and once, and what can
    be created can be attached to the extension. *)
From stdpp Require Import sorting.
From S2P Require Import Prelude Metadata Entities EntityOrd Producers Graph EmitOrder Slice.
From S2P Require Import Lookup Build BuildLogic Connect Initialize SchemaGraph Text Resolve Render SchemaText.
From S2P Require Import RenderTotal.
From stdpp Require Import list gmap strings.
#[local] Set Warnings "-clear-no-such-hyp".

Section Entities.
Context {G : Type} `{StableGraphLaws G} `{HashOrder}.
Variable (to_lowercase to_uppercase : string -> string).
Variable (sp : split_entities) (p : PgrxSql G).
Hypothesis p_built : built to_lowercase sp p.
Hypothesis p_known : forall i e, g_weight (px_graph p) i = Some e -> is_declared e = true ->
  exists j, placed p e j.

Let prefix_ok := prefix_for_ok to_lowercase sp p p_built.
Let weight_of := placed_weight to_lowercase sp p p_built.

(** ** Types *)

Lemma neighbor_some i n : n ∈ g_undirected (px_graph p) i -> is_Some (g_weight (px_graph p) n).
Proof. apply neighbors_exist. by eapply built_wf. Qed.

(** The first function of that path among the neighbours. *)
Lemma first_function_spec path l a f :
  (forall n, n ∈ l -> is_Some (g_weight (px_graph p) n)) ->
  a ∈ l -> g_weight (px_graph p) a = Some (Entity_Function f) -> fn_full_path f = path ->
  exists n g, first_function (px_graph p) path l = Ok (Some (n, g))
    /\ g_weight (px_graph p) n = Some (Entity_Function g) /\ fn_full_path g = path /\ n ∈ l.
Proof.
  intros Hl Ha Hw Hp. induction l as [|n l IH]; [by apply elem_of_nil in Ha|]. cbn [first_function].
  destruct (Hl n (list_elem_of_here _ _)) as [en Hn]. rewrite Hn. cbn [unwrap mbind outcome_bind].
  assert (Hrest : a <> n -> exists n' g, first_function (px_graph p) path l = Ok (Some (n', g))
    /\ g_weight (px_graph p) n' = Some (Entity_Function g) /\ fn_full_path g = path /\ n' ∈ n :: l).
  { intros Hne. apply elem_of_cons in Ha as [?|Ha]; [done|].
    destruct IH as (n' & g & Hf & Hwn & Hpg & Hin); [|done|].
    - intros m Hm. apply Hl. by apply list_elem_of_further.
    - exists n', g. split; [done|]. split; [done|]. split; [done|]. by apply list_elem_of_further. }
  destruct en as [| | |g| | | | | | |]; try (apply Hrest; intros ->; congruence).
  destruct (decide (fn_full_path g = path)) as [Hg|Hg].
  - rewrite bool_decide_eq_true_2 by done. exists n, g. auto using list_elem_of_here.
  - rewrite bool_decide_eq_false_2 by done. apply Hrest. intros ->. congruence.
Qed.

Lemma type_function_path t path : path ∈ type_functions t -> is_io_function path t = true.
Proof.
  unfold type_functions, is_io_function. rewrite list_elem_of_fmap. intros (x & -> & Hx).
  rewrite !orb_true_iff, !bool_decide_eq_true.
  apply elem_of_cons in Hx as [->|Hx]; [auto|]. apply elem_of_cons in Hx as [->|Hx]; [auto|].
  apply elem_of_app in Hx as [Hx|Hx].
  - destruct (type_receive_fn_path t); [|by apply elem_of_nil in Hx].
    apply list_elem_of_singleton in Hx as ->. rewrite bool_decide_eq_true. auto.
  - destruct (type_send_fn_path t); [|by apply elem_of_nil in Hx].
    apply list_elem_of_singleton in Hx as ->. rewrite bool_decide_eq_true. auto.
Qed.

(** A function of a type is found, next to the type. *)
Lemma io_function_found t i path :
  (t, i) ∈ px_types p -> path ∈ type_functions t ->
  is_Some (hm_find (fun k => bool_decide (fn_full_path k = path)) (px_externs p))
  /\ exists n g j, first_function (px_graph p) path (g_undirected (px_graph p) i) = Ok (Some (n, g))
       /\ (g, j) ∈ px_externs p /\ g_weight (px_graph p) n = Some (Entity_Function g)
       /\ fn_full_path g = path.
Proof.
  intros Ht Hp. pose proof p_built as [(g0 & _ & _ & Hadd) Hr].
  destruct (rr_type_functions _ Hr t i path Ht Hp) as [a Ha].
  assert (Hedge : has_edge (px_graph p) a i By).
  { apply Hadd. right. right. by eapply dep_type_function. }
  assert (Hx : exists f, (f, a) ∈ px_externs p /\ fn_full_path f = path).
  { apply hm_find_Some in Ha as (f & Hf & Hd). exists f. split; [done|].
    symmetry. by apply bool_decide_eq_true in Hd. }
  destruct Hx as (f & Hf & Hfp). split.
  - destruct (hm_find _ _) as [b|] eqn:Eb; [eauto|]. exfalso.
    rewrite hm_find_None in Eb. specialize (Eb f a Hf). cbn in Eb.
    by rewrite bool_decide_eq_true_2 in Eb.
  - destruct (first_function_spec path (g_undirected (px_graph p) i) a f) as (n & g & Hff & Hw & Hg & _).
    + apply neighbor_some.
    + apply undirected_spec. eauto.
    + by apply (weight_of (Entity_Function f)).
    + done.
    + destruct (p_known n (Entity_Function g) Hw eq_refl) as [j Hj]. exists n, g, j. auto.
Qed.

(** What rendering one function of a type returns. *)
Record io_result (t : PostgresTypeEntity) (path : string) (r : NodeIndex * string * string) : Prop := {
  ir_path : r.2 = resolve_function_path (type_module_path t) path;
  ir_node : is_Some (g_weight (px_graph p) r.1.1);
  ir_sql : exists f j, (f, j) ∈ px_externs p /\ fn_full_path f = r.2
    /\ function_to_sql to_uppercase p f = Ok r.1.2;
}.

Lemma io_function_result t i path r :
  (t, i) ∈ px_types p -> resolve_function_path (type_module_path t) path ∈ type_functions t ->
  io_function to_uppercase p i (type_module_path t) path = Ok r -> io_result t path r.
Proof.
  intros Ht Hp Hok. destruct (io_function_found t i _ Ht Hp) as ([x Hx] & n & g & j & Hff & Hj & Hw & Hg).
  unfold io_function in Hok. rewrite Hx, Hff in Hok. cbn in Hok. open_binds. injection Hok as <-.
  split; cbn; [done | eauto | eauto].
Qed.

Lemma io_function_ok t i path :
  (t, i) ∈ px_types p -> type_ok p t = true ->
  resolve_function_path (type_module_path t) path ∈ type_functions t ->
  succeeds (io_function to_uppercase p i (type_module_path t) path).
Proof.
  intros Ht Hok Hp. destruct (io_function_found t i _ Ht Hp) as ([x Hx] & n & g & j & Hff & Hj & Hw & Hg).
  unfold io_function. rewrite Hx, Hff. cbn.
  apply succeeds_bind; [|intros; apply succeeds_ok]. eapply function_to_sql_ok; [done | exact Hj|].
  unfold type_ok in Hok. apply andb_prop in Hok as [_ Hall]. rewrite forallb_forall in Hall.
  specialize (Hall (g, j) (proj1 (list_elem_of_In _ _) Hj)). cbn in Hall.
  rewrite Hg, (type_function_path t _ Hp) in Hall. by destruct (function_ok p g).
Qed.

Lemma io_function_opt_ok t i o :
  (t, i) ∈ px_types p -> type_ok p t = true ->
  (forall path, o = Some path -> resolve_function_path (type_module_path t) path ∈ type_functions t) ->
  succeeds (io_function_opt to_uppercase p i (type_module_path t) o)
  /\ forall path r, o = Some path ->
       io_function_opt to_uppercase p i (type_module_path t) o = Ok (Some r) -> io_result t path r.
Proof.
  intros Ht Hok Ho. destruct o as [path|]; cbn; [|split; [apply succeeds_ok | done]]. split.
  - apply succeeds_bind; [by apply io_function_ok; auto | intros; apply succeeds_ok].
  - intros path' r [= <-] Hr. open_binds. injection Hr as <-. by eapply io_function_result; auto.
Qed.

Lemma receive_send_ok receive send :
  (forall r, receive = Some r -> is_Some (g_weight (px_graph p) r.1.1)) ->
  (forall r, send = Some r -> is_Some (g_weight (px_graph p) r.1.1)) ->
  succeeds (receive_send_sql p receive send).
Proof.
  intros Hr Hs. destruct receive as [[[ri rs] rp]|]; [|apply succeeds_ok].
  destruct send as [[[si ss] sp']|]; [|apply succeeds_ok]. cbn.
  apply succeeds_bind; [apply prefix_ok; by apply (Hr _ eq_refl)|]. intros ? _.
  apply succeeds_bind; [apply prefix_ok; by apply (Hs _ eq_refl) | intros; apply succeeds_ok].
Qed.

Lemma alignment_sql_ok a : alignment_ok a = true -> succeeds (alignment_sql a).
Proof.
  destruct a as [a|]; cbn; [|intros _; apply succeeds_ok]. rewrite bool_decide_eq_true.
  intros Ha. repeat (apply elem_of_cons in Ha as [->|Ha]; [by eexists|]). by apply elem_of_nil in Ha.
Qed.

Lemma io_paths t :
  resolve_function_path (type_module_path t) (type_in_fn_path t) ∈ type_functions t
  /\ resolve_function_path (type_module_path t) (type_out_fn_path t) ∈ type_functions t
  /\ (forall path, type_receive_fn_path t = Some path ->
        resolve_function_path (type_module_path t) path ∈ type_functions t)
  /\ (forall path, type_send_fn_path t = Some path ->
        resolve_function_path (type_module_path t) path ∈ type_functions t).
Proof.
  unfold type_functions. split; [|split; [|split; intros path Hp]]; apply list_elem_of_fmap_2;
    rewrite !elem_of_cons, elem_of_app; auto.
  - right. right. left. rewrite Hp. apply list_elem_of_here.
  - right. right. right. rewrite Hp. apply list_elem_of_here.
Qed.

Lemma type_to_sql_ok t i :
  (t, i) ∈ px_types p -> type_ok p t = true -> succeeds (type_to_sql to_uppercase p t).
Proof.
  intros Ht0 Hok. unfold type_to_sql. destruct (index_of_ok t _ i Ht0) as (k & -> & Ht).
  cbn [mbind outcome_bind]. rewrite (weight_of (Entity_Type t) k Ht). cbn [unwrap mbind outcome_bind].
  destruct (io_paths t) as (Hin & Hout & Hrec & Hsend).
  apply succeeds_bind; [by apply io_function_ok|]. intros [[ii isql] ipath] Hi.
  apply succeeds_bind; [by apply io_function_ok|]. intros [[oi osql] opath] Ho.
  destruct (io_function_opt_ok t k _ Ht Hok Hrec) as [Hr1 Hr2].
  destruct (io_function_opt_ok t k _ Ht Hok Hsend) as [Hs1 Hs2].
  apply succeeds_bind; [done|]. intros receive Hr. apply succeeds_bind; [done|]. intros send Hs.
  apply succeeds_bind; [apply prefix_ok; rewrite (weight_of (Entity_Type t) k Ht); eauto|]. intros schema _.
  apply succeeds_bind; [apply alignment_sql_ok; unfold type_ok in Hok; by split_ok|]. intros al _.
  apply succeeds_bind.
  { apply receive_send_ok.
    - intros r ->. destruct (type_receive_fn_path t) as [path|] eqn:E; [|done].
      by apply (ir_node _ _ _ (Hr2 path r eq_refl Hr)).
    - intros r ->. destruct (type_send_fn_path t) as [path|] eqn:E; [|done].
      by apply (ir_node _ _ _ (Hs2 path r eq_refl Hs)). }
  intros [attrs fns] _.
  apply succeeds_bind; [apply prefix_ok; by apply (ir_node _ _ _ (io_function_result t k _ _ Ht Hin Hi))|].
  intros ? _.
  apply succeeds_bind; [apply prefix_ok; by apply (ir_node _ _ _ (io_function_result t k _ _ Ht Hout Ho))|].
  intros ? _. apply succeeds_ok.
Qed.


(** ** Aggregates *)

Lemma aggregate_argument_used kind arg l :
  arg ∈ l -> used_in (omap (aggregate_argument_use kind) l) (at_used_ty arg).
Proof.
  intros Hin. destruct (resolved_needs (at_used_ty arg)) as [Hn|Hn]; [by left|]. right.
  exists {| use_requires := ByArg; use_slot := aggregate_slot (at_name arg) kind;
            use_ty := at_used_ty arg |}. split; [|done].
  apply list_elem_of_omap. exists arg. split; [done|]. unfold aggregate_argument_use. by rewrite Hn.
Qed.

Lemma used_in_weaken uses uses' u :
  (forall use, use ∈ uses -> use ∈ uses') -> used_in uses u -> used_in uses' u.
Proof. intros Hsub [Hu|(use & Hin & Hu)]; [by left|]. right. eauto. Qed.

Section Aggregate.
Variable (a : PgAggregateEntity) (i : NodeIndex).
Hypothesis a_placed : (a, i) ∈ px_aggregates p.
Hypothesis a_ok : aggregate_ok a = true.

(** Every type of the aggregate has a prefix and a spelling. *)
Lemma aggregate_types_ok :
  (forall arg slot, arg ∈ agg_args a \/ arg ∈ default [] (agg_direct_args a) ->
     succeeds (prefix_for_used_type p i slot (at_used_ty arg))
     /\ succeeds (aggregate_argument_body (at_used_ty arg)))
  /\ (forall slot, succeeds (sql_type_for_slot p i slot (at_used_ty (agg_stype a))))
  /\ (forall slot u, agg_mstype a = Some u -> succeeds (sql_type_for_slot p i slot u)).
Proof.
  pose proof a_ok as Hok. unfold aggregate_ok in Hok. split_ok. rewrite !forallb_forall in *.
  pose proof (aggregate_prefix to_lowercase sp p p_built a i) as Hpre. split; [|split].
  - intros arg slot Hin. split.
    + apply Hpre; [done|]. destruct Hin as [Hin|Hin];
        [ eapply used_in_weaken; [|by apply (aggregate_argument_used "argument")]
        | eapply used_in_weaken; [|by apply (aggregate_argument_used "direct argument")] ];
        intros use Hu; unfold aggregate_uses, aggregate_argument_uses; rewrite !elem_of_app; auto.
    + apply argument_ok_aggregate. rewrite !list_elem_of_In in Hin. destruct Hin; auto.
  - intros slot. apply succeeds_bind; [by apply argument_ok_aggregate|]. intros ? _.
    apply succeeds_bind; [|intros; apply succeeds_ok]. apply Hpre; [done|].
    eapply used_in_weaken; [|apply (if_resolved_used ByArg "STYPE")].
    intros use Hu. unfold aggregate_uses, stype_uses. rewrite !elem_of_app; auto.
  - intros slot u Hu. match goal with Hm : opt_ok _ _ = true |- _ => rewrite Hu in Hm; cbn in Hm end.
    apply succeeds_bind; [by apply argument_ok_aggregate|]. intros ? _.
    apply succeeds_bind; [|intros; apply succeeds_ok]. apply Hpre; [done|].
    eapply used_in_weaken; [|apply (if_resolved_used ByArg "MSTYPE")].
    intros use Hin. unfold aggregate_uses, mstype_uses. rewrite Hu, !elem_of_app; auto.
Qed.

Lemma aggregate_arguments_ok unnamed variadic l :
  (forall arg, arg ∈ l -> arg ∈ agg_args a \/ arg ∈ default [] (agg_direct_args a)) ->
  succeeds (render_aggregate_arguments p i unnamed variadic l).
Proof.
  intros Hl. destruct aggregate_types_ok as [Harg _].
  apply succeeds_bind; [|intros; apply succeeds_ok]. apply succeeds_collect.
  intros [n arg] Hin%indexed_elem. specialize (Harg arg (default unnamed (at_name arg)) (Hl arg Hin)).
  destruct Harg as [Hp Hs]. apply succeeds_bind; [done|]. intros ? _.
  apply succeeds_bind; [done | intros; apply succeeds_ok].
Qed.

Lemma aggregate_argtypes_ok : succeeds (render_aggregate_argtypes p i a).
Proof.
  assert (Hslots : forall l, (forall arg, arg ∈ l -> arg ∈ agg_args a \/ arg ∈ default [] (agg_direct_args a)) ->
    succeeds (collect (render_aggregate_slot p i) l)).
  { intros l Hl. destruct aggregate_types_ok as [Harg _]. apply succeeds_collect. intros arg Hin.
    destruct (Harg arg (default "aggregate argument" (at_name arg)) (Hl arg Hin)) as [Hp Hs].
    apply succeeds_bind; [done|]. intros ? _. apply succeeds_bind; [done | intros; apply succeeds_ok]. }
  apply succeeds_bind; [by apply Hslots; auto|]. intros args _.
  destruct (agg_ordered_set a); [|apply succeeds_ok].
  apply succeeds_bind; [by apply Hslots; auto | intros; apply succeeds_ok].
Qed.

End Aggregate.

Lemma aggregate_to_sql_ok a i :
  (a, i) ∈ px_aggregates p -> aggregate_ok a = true -> succeeds (aggregate_to_sql p a).
Proof.
  intros Ha0 Hok. unfold aggregate_to_sql. destruct (index_of_ok a _ i Ha0) as (k & -> & Ha).
  cbn [mbind outcome_bind]. destruct (aggregate_types_ok a k Ha Hok) as (_ & Hst & Hms).
  apply succeeds_bind; [apply prefix_ok; rewrite (weight_of (Entity_Aggregate a) k Ha); eauto|]. intros ? _.
  apply succeeds_bind; [done|]. intros ? _. apply succeeds_bind.
  { destruct (agg_mstype a) as [u|] eqn:Eu; [|apply succeeds_ok].
    apply succeeds_bind; [by apply Hms | intros; apply succeeds_ok]. }
  intros ? _. apply succeeds_bind; [apply (aggregate_arguments_ok a k Ha Hok); auto|]. intros ? _.
  apply succeeds_bind; [|intros; apply succeeds_ok].
  destruct (agg_direct_args a) as [l|] eqn:El; [|apply succeeds_ok].
  apply (aggregate_arguments_ok a k Ha Hok). rewrite El. auto.
Qed.

(** ** Every node *)

(** An entity that only needs its own schema. *)
Lemma prefixed_ok {K} `{EqDecision K} (into : K -> SqlGraphEntity) (m : hmap K) k i
    (body : string -> outcome render_error string) :
  (forall k j, (k, j) ∈ m -> placed p (into k) j) -> (k, i) ∈ m ->
  (forall schema, succeeds (body schema)) ->
  succeeds (self_index ← index_of k m; schema ← prefix_for p self_index; body schema).
Proof.
  intros Hm Hk Hb. destruct (index_of_ok k m i Hk) as (j & -> & Hj). cbn [mbind outcome_bind].
  apply succeeds_bind; [|auto]. apply prefix_ok. rewrite (weight_of (into k) j (Hm k j Hj)). eauto.
Qed.

Lemma any_io_type_ok path l :
  (forall n, n ∈ l -> is_Some (g_weight (px_graph p) n)) -> succeeds (any_io_type (px_graph p) path l).
Proof.
  induction l as [|n l IH]; intros Hl; cbn; [apply succeeds_ok|].
  destruct (Hl n (list_elem_of_here _ _)) as [e ->]. cbn.
  assert (succeeds (any_io_type (px_graph p) path l)).
  { apply IH. intros m Hm. apply Hl. by apply list_elem_of_further. }
  destruct e; try done. destruct (is_io_function path e); [apply succeeds_ok | done].
Qed.

Lemma config_none c e : overridden c = false -> config_to_sql c e p = None.
Proof.
  unfold overridden, config_to_sql. intros [H1' H2]%orb_false_iff. rewrite H1'. by destruct (cfg_content c).
Qed.

Lemma config_some c e : overridden c = true -> exists sql, config_to_sql c e p = Some sql.
Proof.
  unfold overridden, config_to_sql. intros [H1'|H2]%orb_true_iff; [rewrite H1'; eauto|].
  destruct (negb _); [eauto|]. destruct (cfg_content c); [eauto | done].
Qed.

Lemma or_config_ok c e m :
  (overridden c = false -> succeeds m) -> succeeds (or_config c e p m).
Proof.
  intros Hm. unfold or_config. destruct (overridden c) eqn:Eo.
  - destruct (config_some c e Eo) as [sql ->]. apply succeeds_ok.
  - rewrite config_none by done. auto.
Qed.

Lemma entity_to_sql_ok e i :
  placed p e i -> entity_ok p e = true -> succeeds (entity_to_sql to_lowercase to_uppercase p e).
Proof.
  intros Hp Hok. destruct e as [c|s|s|f|t|s|e|o|h|a|t]; cbn [entity_to_sql placed entity_ok] in *; try done.
  - destruct (builtin_schema _); apply succeeds_ok.
  - apply succeeds_ok.
  - destruct (overridden (fn_to_sql_config f)) eqn:Eo.
    { destruct (config_some _ (Entity_Function f) Eo) as [sql ->]. apply succeeds_ok. }
    rewrite config_none by done. destruct (index_of_ok f _ i Hp) as (j & -> & Hj). cbn [mbind outcome_bind].
    apply succeeds_bind; [apply any_io_type_ok, neighbor_some|]. intros [] _; [apply succeeds_ok|].
    by eapply function_to_sql_ok.
  - apply or_config_ok. intros Eo. rewrite Eo in Hok. by eapply type_to_sql_ok.
  - apply or_config_ok. intros _. apply (prefixed_ok Entity_Enum _ _ i); [done|done|].
    intros; apply succeeds_ok.
  - apply or_config_ok. intros _. apply (prefixed_ok Entity_Ord _ _ i); [done|done|].
    intros; apply succeeds_ok.
  - apply or_config_ok. intros _. apply (prefixed_ok Entity_Hash _ _ i); [done|done|].
    intros; apply succeeds_ok.
  - apply or_config_ok. intros Eo. rewrite Eo in Hok. by eapply aggregate_to_sql_ok.
  - apply or_config_ok. intros _. apply (prefixed_ok Entity_Trigger _ _ i); [done|done|].
    intros; apply succeeds_ok.
Qed.

End Entities.

(** ** Texts in order *)

Definition holds (s text : string) : Prop := exists x z, text = x +:+ s +:+ z.
Definition follows (s t text : string) : Prop :=
  exists t1 t2, text = t1 +:+ t2 /\ holds s t1 /\ holds t t2.

Lemma holds_app_l s t u : holds s t -> holds s (t +:+ u).
Proof. intros (x & z & ->). exists x, (z +:+ u). by rewrite !app_assoc_s. Qed.

Lemma holds_app_r s t u : holds s t -> holds s (u +:+ t).
Proof. intros (x & z & ->). exists (u +:+ x), z. by rewrite !app_assoc_s. Qed.

Lemma holds_empty t : holds "" t.
Proof. by exists "", t. Qed.

Lemma holds_refl s : holds s s.
Proof. exists "", "". by rewrite app_nil_s, app_empty_r. Qed.

Lemma follows_app_l s t x u : follows s t x -> follows s t (x +:+ u).
Proof.
  intros (t1 & t2 & -> & Hs & Ht). exists t1, (t2 +:+ u). rewrite app_assoc_s.
  split; [done|]. split; [done | by apply holds_app_l].
Qed.

Lemma follows_app_r s t x u : follows s t x -> follows s t (u +:+ x).
Proof.
  intros (t1 & t2 & -> & Hs & Ht). exists (u +:+ t1), t2. rewrite app_assoc_s.
  split; [done|]. split; [by apply holds_app_r | done].
Qed.

Lemma follows_split s t x y : holds s x -> holds t y -> follows s t (x +:+ y).
Proof. by exists x, y. Qed.

#[export] Hint Resolve holds_app_l holds_app_r holds_empty holds_refl
  follows_app_l follows_app_r follows_split : renders.

Lemma holds_format_piece s l : s ∈ l -> holds s (format l).
Proof.
  induction l as [|x l IH]; intros Hin; [by apply elem_of_nil in Hin|].
  change (format (x :: l)) with (x +:+ format l).
  apply elem_of_cons in Hin as [->|Hin]; eauto with renders.
Qed.

Lemma holds_trans s t u : holds s t -> holds t u -> holds s u.
Proof. intros Hs (x & z & ->). auto with renders. Qed.

(** Joining two lists of pieces: the pieces of each stay in its part. *)
Lemma join_with_cons sep s l : join_with sep (s :: l) = match l with [] => s | _ => s +:+ sep +:+ join_with sep l end.
Proof. by destruct l. Qed.

Lemma holds_join sep s l : s ∈ l -> holds s (join_with sep l).
Proof.
  induction l as [|x l IH]; intros Hin; [by apply elem_of_nil in Hin|]. rewrite join_with_cons.
  apply elem_of_cons in Hin as [->|Hin]; destruct l as [|y l]; auto with renders.
  by apply elem_of_nil in Hin.
Qed.

Lemma join_app sep l1 l2 :
  exists t1 t2, join_with sep (l1 ++ l2) = t1 +:+ t2
    /\ (forall s, s ∈ l1 -> holds s t1) /\ (forall s, s ∈ l2 -> holds s t2).
Proof.
  induction l1 as [|x l1 IH].
  - exists "", (join_with sep l2). split; [done|].
    split; [intros s Hs; by apply elem_of_nil in Hs | intros s; apply holds_join].
  - destruct IH as (t1 & t2 & Hj & H1' & H2). cbn [app]. rewrite join_with_cons.
    destruct (l1 ++ l2) as [|y l] eqn:El.
    + apply app_eq_nil in El as [-> ->]. exists x, "". rewrite app_empty_r. split; [done|].
      split; intros s Hs; [apply list_elem_of_singleton in Hs as ->; auto with renders
                          | by apply elem_of_nil in Hs].
    + exists (x +:+ sep +:+ t1), t2. rewrite Hj, !app_assoc_s. split; [done|]. split; [|done].
      intros s Hs. apply elem_of_cons in Hs as [->|Hs]; auto with renders.
Qed.

Lemma block_app sep l1 l2 s t :
  s ∈ l1 -> t ∈ l2 -> follows s t (block_text sep (l1 ++ l2)).
Proof.
  intros Hs Ht. unfold block_text. destruct (l1 ++ l2) as [|x l] eqn:El.
  { apply app_eq_nil in El as [-> _]. by apply elem_of_nil in Hs. }
  rewrite <- El. cbn [format foldr]. destruct (join_app sep l1 l2) as (t1 & t2 & -> & H1 & H2).
  auto 10 with renders.
Qed.

Lemma block_holds sep l s : s ∈ l -> holds s (block_text sep l).
Proof.
  intros Hs. unfold block_text. destruct l as [|x l']; [by apply elem_of_nil in Hs|].
  cbn [format foldr]. auto 8 using holds_join with renders.
Qed.

Lemma collect_app_ok {E A B} (f : A -> outcome E B) l1 l2 r :
  collect f (l1 ++ l2) = Ok r -> exists r1 r2, r = r1 ++ r2 /\ collect f l1 = Ok r1 /\ collect f l2 = Ok r2.
Proof.
  rewrite collect_ok. intros (r1 & r2 & H1 & H2 & ->)%Forall2_app_inv_l.
  exists r1, r2. by rewrite !collect_ok.
Qed.

Lemma collect_elem {E A B} (f : A -> outcome E B) l r a :
  collect f l = Ok r -> a ∈ l -> exists b, f a = Ok b /\ b ∈ r.
Proof.
  rewrite collect_ok. intros Hall (i & Hi)%list_elem_of_lookup.
  destruct (Forall2_lookup_l _ _ _ _ _ Hall Hi) as (b & Hb & Hf). exists b. split; [done|].
  by eapply list_elem_of_lookup_2.
Qed.

Section Order.
Context {G : Type} `{StableGraph G} `{HashOrder}.
Variable (to_lowercase to_uppercase : string -> string).
Variable (tarjan_scc : G -> list (list NodeIndex)) (p : PgrxSql G).

(** [s] is the SQL of the node [n], trimmed. *)
Definition node_text (n : NodeIndex) (s : string) : Prop :=
  exists e sql, g_weight (px_graph p) n = Some e
    /\ entity_to_sql to_lowercase to_uppercase p e = Ok sql /\ s = trim sql.

Lemma node_piece l inner n s :
  collect (node_sql to_lowercase to_uppercase p) l = Ok inner -> n ∈ l -> node_text n s ->
  s = "" \/ (s +:+ nl) ∈ omap id inner.
Proof.
  intros Hc Hn (e & sql & Hw & Hs & ->). destruct (collect_elem _ _ _ _ Hc Hn) as (b & Hb & Hin).
  unfold node_sql in Hb. rewrite Hw in Hb. cbn in Hb. rewrite Hs in Hb. cbn in Hb.
  injection Hb as <-. destruct (is_empty (trim sql)) eqn:Ee; [left; by apply is_empty_true|].
  right. apply list_elem_of_omap. by eexists.
Qed.

Lemma node_holds l inner sep n s :
  collect (node_sql to_lowercase to_uppercase p) l = Ok inner -> n ∈ l -> node_text n s ->
  holds s (block_text sep (omap id inner)).
Proof.
  intros Hc Hn Ht. destruct (node_piece l inner n s Hc Hn Ht) as [->|Hin]; [auto with renders|].
  apply (holds_trans _ (s +:+ nl)); [auto with renders | by apply block_holds].
Qed.

Lemma block_follows l inner sep a b sa sb :
  collect (node_sql to_lowercase to_uppercase p) l = Ok inner -> before l a b ->
  node_text a sa -> node_text b sb -> follows sa sb (block_text sep (omap id inner)).
Proof.
  intros Hc Hab Ha Hb. apply before_split in Hab as (l1 & l2 & -> & Ha1 & Hb2).
  pose proof (node_holds _ _ sep a sa Hc ltac:(apply elem_of_app; auto) Ha) as Hsa.
  pose proof (node_holds _ _ sep b sb Hc ltac:(apply elem_of_app; auto) Hb) as Hsb.
  apply collect_app_ok in Hc as (i1 & i2 & -> & H1 & H2). rewrite omap_app in *.
  destruct (node_piece _ _ _ _ H1 Ha1 Ha) as [->|Hia].
  { exists "", (block_text sep (omap id i1 ++ omap id i2)). auto with renders. }
  destruct (node_piece _ _ _ _ H2 Hb2 Hb) as [->|Hib].
  { exists (block_text sep (omap id i1 ++ omap id i2)), "". rewrite app_empty_r. auto with renders. }
  destruct (block_app sep _ _ _ _ Hia Hib) as (t1 & t2 & -> & Ht1 & Ht2).
  exists t1, t2. split; [done|].
  split; (eapply holds_trans; [|eassumption]; auto with renders).
Qed.

(** The text follows the order in which the nodes are visited. *)
Lemma blocks_follow cs blocks :
  collect (component_sql to_lowercase to_uppercase p) cs = Ok blocks ->
  exists orders, collect (connected_component_emit_order (E:=render_error) (px_graph p)) cs = Ok orders
    /\ (forall a sa, a ∈ concat orders -> node_text a sa -> holds sa (format blocks))
    /\ forall a b sa sb, before (concat orders) a b -> node_text a sa -> node_text b sb ->
         follows sa sb (format blocks).
Proof.
  revert blocks. induction cs as [|c cs IH]; intros blocks Hc; cbn [collect] in Hc.
  - injection Hc as <-. exists []. split; [done|].
    split; [intros a sa Ha; by apply elem_of_nil in Ha|]. intros a b sa sb (i & j & _ & Hi & _). done.
  - open_binds. injection Hc as <-. unfold component_sql in Ha. open_binds. injection Ha as <-.
    destruct (IH _ Ha0) as (orders & Ho & Hh & Hf). exists (a1 :: orders). cbn [collect].
    rewrite Ha1, Ho. split; [done|]. cbn [concat].
    change (format (block_text (nl +:+ nl) (omap id a2) :: a0))
      with (block_text (nl +:+ nl) (omap id a2) +:+ format a0). split.
    + intros n s [Hn|Hn]%elem_of_app Ht; [|eauto with renders].
      apply holds_app_l. by eapply node_holds.
    + intros x y sx sy Hxy Hx Hy. apply before_split in Hxy as (l1 & l2 & Heq & Hx1 & Hy2).
      apply app_eq_inv in Heq as [(k & -> & ->)|(k & -> & Hk)].
      * apply elem_of_app in Hy2 as [Hy2|Hy2].
        -- apply follows_app_l. eapply block_follows; [exact Ha2| |exact Hx|exact Hy].
           apply before_split. eauto.
        -- apply follows_split; [|by apply (Hh y)]. eapply node_holds; [exact Ha2| |exact Hx].
           apply elem_of_app. auto.
      * apply elem_of_app in Hx1 as [Hx1|Hx1].
        -- apply follows_split; [by eapply node_holds|]. apply (Hh y); [|done]. rewrite Hk. apply elem_of_app. auto.
        -- apply follows_app_r. apply (Hf x y); [|done|done]. apply before_split. eauto.
Qed.

Lemma to_sql_follows text :
  to_sql to_lowercase to_uppercase tarjan_scc p = Ok text ->
  exists o, emission_order (E:=render_error) tarjan_scc (px_graph p) = Ok o
    /\ (forall a sa, a ∈ o -> node_text a sa -> holds sa text)
    /\ forall a b sa sb, before o a b -> node_text a sa -> node_text b sb -> follows sa sb text.
Proof.
  unfold to_sql. intros Hok. open_binds. injection Hok as <-.
  destruct (blocks_follow _ _ Ha) as (orders & Ho & Hh & Hf). exists (concat orders).
  unfold emission_order. by rewrite Ho.
Qed.

End Order.

(** ** What was created can be attached *)

Lemma indexed_lookup {A} (l : list A) k x : l !! k = Some x -> (k, x) ∈ indexed l.
Proof.
  intros Hk. apply list_elem_of_lookup. exists k. unfold indexed. rewrite lookup_zip_with, Hk.
  by rewrite lookup_seq_lt by (by eapply lookup_lt_Some).
Qed.

Section Attach.
Context {G : Type} `{StableGraph G} `{HashOrder}.
Variable (to_uppercase : string -> string) (p : PgrxSql G) (i : NodeIndex).

(** The slot only names the type in an error. *)
Lemma prefix_slot slot slot' u s :
  prefix_for_used_type p i slot u = Ok s -> prefix_for_used_type p i slot' u = Ok s.
Proof.
  unfold prefix_for_used_type, schema_prefix_for_used_type.
  destruct (ut_resolution u) as [[t []]|]; [|done|done].
  destruct (find_type_dependency p i t) as [[n|]| |]; cbn; done.
Qed.

Lemma argument_argtype len idx arg o :
  ut_emits_argument_sql (arg_used_ty arg) = true ->
  render_argument p i len idx arg = Ok o -> succeeds (render_argtype p i arg).
Proof.
  intros He Hr. unfold render_argument in Hr. open_binds. apply succeeds_bind; [|intros; apply succeeds_ok].
  apply succeeds_bind; [by exists a|]. intros ? _. apply succeeds_bind; [|intros; apply succeeds_ok].
  unfold argument_sql_body. unfold ut_emits_argument_sql in He.
  destruct (fmt_argument_sql _) as [[]|]; try done; open_binds; by eexists.
Qed.

Lemma arguments_argtypes f sql :
  render_arguments p i f = Ok sql -> succeeds (render_function_argtypes p i f).
Proof.
  intros Hr. apply succeeds_bind; [|intros; apply succeeds_ok]. apply succeeds_collect.
  intros arg Hin. pose proof (sql_args_elem f arg Hin) as [_ He].
  unfold render_arguments in Hr. destruct (fn_fn_args f) eqn:Ea.
  - unfold sql_args in Hin. rewrite Ea in Hin. by apply elem_of_nil in Hin.
  - open_binds. apply list_elem_of_lookup in Hin as [k Hk].
    destruct (collect_elem _ _ _ _ Ha (indexed_lookup _ _ _ Hk)) as (o & Ho & _). by eapply argument_argtype.
Qed.

Lemma operator_attach ext schema f op sql :
  fn_operator f = Some op -> render_operator p i f op = Ok sql -> succeeds (alter_operator p i ext schema f).
Proof.
  intros Hop Hr. unfold render_operator in Hr. open_binds. unfold alter_operator. rewrite Hop.
  destruct (op_opname op); [|apply succeeds_ok].
  apply succeeds_bind; [by eexists|]. intros a' Ha'. rewrite Ha in Ha'. injection Ha' as <-.
  apply succeeds_bind; [by eexists|]. intros b' Hb'. rewrite Ha1 in Hb'. injection Hb' as <-.
  apply succeeds_bind; [by eexists|]. intros ? _. apply succeeds_bind; [by eexists|]. intros ? _.
  apply succeeds_ok.
Qed.

Lemma cast_attach ext f cast sql :
  fn_cast f = Some cast -> render_cast p i f cast = Ok sql -> succeeds (alter_cast p i ext f).
Proof.
  intros Hc Hr. unfold render_cast in Hr. destruct (fn_fn_return f); try done. open_binds.
  unfold alter_cast. rewrite Hc.
  apply succeeds_bind; [by eexists|]. intros a' Ha'. rewrite Ha0 in Ha'. injection Ha' as <-.
  apply succeeds_bind; [by eexists|]. intros ? _. apply succeeds_bind; [by eexists|]. intros ? _.
  apply succeeds_ok.
Qed.

Lemma aggregate_arguments_slots unnamed variadic l sql :
  render_aggregate_arguments p i unnamed variadic l = Ok sql -> succeeds (collect (render_aggregate_slot p i) l).
Proof.
  intros Hr. unfold render_aggregate_arguments in Hr. open_binds. apply succeeds_collect.
  intros arg (k & Hk)%list_elem_of_lookup.
  destruct (collect_elem _ _ _ _ Ha (indexed_lookup _ _ _ Hk)) as (o & Ho & _). unfold render_aggregate_argument in Ho.
  open_binds. apply succeeds_bind; [eexists; by eapply prefix_slot|]. intros ? _.
  apply succeeds_bind; [by eexists | intros; apply succeeds_ok].
Qed.

End Attach.

Lemma hm_get_nodup {K} `{EqDecision K} (k : K) (m : hmap K) i :
  NoDup (map fst m) -> (k, i) ∈ m -> hm_get k m = Some i.
Proof.
  induction m as [|[k' j] m IH]; intros Hnd Hin; [by apply elem_of_nil in Hin|]. cbn in *.
  apply NoDup_cons in Hnd as [Hk Hnd]. apply elem_of_cons in Hin as [[= <- <-]|Hin].
  - by rewrite decide_True.
  - rewrite decide_False; [by apply IH|]. intros ->. apply Hk. by apply (list_elem_of_fmap_2' fst m (k, i)).
Qed.

(** ** Properties *)

Section Properties.
Context {G : Type} `{StableGraphLaws G} `{HashOrder}.
Variable (to_lowercase to_uppercase : string -> string).
Variable (entities : list SqlGraphEntity) (name : string) (versioned : bool) (p : PgrxSql G).
Hypothesis p_build : build to_lowercase entities name versioned = Ok p.

Lemma p_is_built : built to_lowercase (split_up (sort entities)) p.
Proof. by eapply build_built. Qed.

Lemma p_nodes_known i e :
  g_weight (px_graph p) i = Some e -> is_declared e = true -> e ∈ entities /\ exists j, placed p e j.
Proof. by eapply build_nodes_known. Qed.

Lemma node_sql_ok n :
  (forall e, e ∈ entities -> entity_ok p e = true) -> is_Some (g_weight (px_graph p) n) ->
  succeeds (node_sql to_lowercase to_uppercase p n).
Proof.
  intros Hok [e He]. unfold node_sql. rewrite He. cbn [unwrap mbind outcome_bind].
  apply succeeds_bind; [|intros; apply succeeds_ok].
  destruct (is_declared e) eqn:Ed; [|destruct e; try done; apply succeeds_ok].
  destruct (p_nodes_known n e He Ed) as [Hin [j Hj]].
  eapply entity_to_sql_ok; [exact p_is_built | | exact Hj | by apply Hok].
  intros k e' Hk Hd. by destruct (p_nodes_known k e' Hk Hd).
Qed.

(** C10. Generation succeeds: when every declared entity can be spelled (its
    types have a mapping valid where they stand, an operator has a name and two
    arguments, a cast a source and a plain result, a type an alignment Postgres
    has, and the support functions exist), the schema of a graph that was built
    is rendered, with no error and no panic. *)
Theorem to_sql_total (tarjan_scc : G -> list (list NodeIndex)) :
  scc_postorder (px_graph p) (tarjan_scc (px_graph p)) ->
  (forall e, e ∈ entities -> entity_ok p e = true) ->
  exists text, to_sql to_lowercase to_uppercase tarjan_scc p = Ok text.
Proof.
  intros Hscc Hok. apply succeeds_bind; [|intros; apply succeeds_ok]. apply succeeds_collect.
  intros c Hc. rewrite elem_of_reverse in Hc.
  destruct (component_good (E:=render_error) tarjan_scc (px_graph p) Hscc c Hc) as (o & Ho & Hperm & _).
  unfold component_sql. rewrite Ho. cbn [mbind outcome_bind].
  apply succeeds_bind; [|intros; apply succeeds_ok]. apply succeeds_collect. intros n Hn.
  apply node_sql_ok; [done|]. apply (scc_cover _ _ Hscc). apply elem_of_concat_lookup.
  rewrite Hperm in Hn. apply list_elem_of_lookup in Hc as [k Hk]. eauto.
Qed.

(** C12. The text is in order: the SQL of an entity comes after the SQL of
    everything it depends on, unless the two depend on each other. *)
Theorem schema_text_in_order (tarjan_scc : G -> list (list NodeIndex)) (text : string)
    (a b : NodeIndex) (w : SqlGraphRequires) (sa sb : string) :
  scc_postorder (px_graph p) (tarjan_scc (px_graph p)) ->
  to_sql to_lowercase to_uppercase tarjan_scc p = Ok text ->
  depends to_lowercase p a b w -> ~ reach (px_graph p) b a ->
  node_text to_lowercase to_uppercase p a sa -> node_text to_lowercase to_uppercase p b sb ->
  follows sa sb text.
Proof.
  intros Hscc Htext Hd Hno Ha Hb.
  destruct (to_sql_follows _ _ _ _ _ Htext) as (o & Ho & _ & Hf). apply (Hf a b); [|done|done].
  destruct (emission_parts (E:=render_error) tarjan_scc _ Hscc) as (os & Hos & Hg).
  rewrite Ho in Hos. injection Hos as ->.
  apply (orders_edge tarjan_scc _ (built_wf _ _ _ p_is_built) Hscc os Hg a b w); [|done].
  pose proof p_is_built as [(g0 & _ & _ & Hadd) _]. apply Hadd. auto.
Qed.

(** The node of a type is next to the functions it names. *)
Lemma io_node_quiet t i f j :
  (forall g g' k k', (g, k) ∈ px_externs p -> (g', k') ∈ px_externs p ->
     fn_full_path g = fn_full_path g' -> g = g') ->
  (t, i) ∈ px_types p -> (f, j) ∈ px_externs p -> fn_full_path f ∈ type_functions t ->
  overridden (fn_to_sql_config f) = false ->
  entity_to_sql to_lowercase to_uppercase p (Entity_Function f) = Ok "".
Proof.
  intros Huniq Ht Hf Hp Hov. pose proof p_is_built as Hb. cbn [entity_to_sql].
  rewrite config_none by done. pose proof Hb as [(g0 & Hn & _ & Hadd) Hr].
  destruct (rr_type_functions _ Hr t i _ Ht Hp) as [a Ha].
  assert (Hfa : (f, a) ∈ px_externs p).
  { pose proof Ha as Hx. apply hm_find_Some in Hx as (g & Hg & Hd). apply bool_decide_eq_true in Hd.
    by rewrite (Huniq f g j a Hf Hg Hd). }
  unfold index_of. rewrite (hm_get_nodup f _ a); [|apply (io_nodup _ _ _ _ _ (no_externs _ _ Hn))|done].
  cbn [unwrap mbind outcome_bind].
  assert (Hin : i ∈ g_undirected (px_graph p) a).
  { apply undirected_spec. left. exists By. apply Hadd. right. right. by eapply dep_type_function. }
  assert (Hio : any_io_type (px_graph p) (fn_full_path f) (g_undirected (px_graph p) a) = Ok true).
  { pose proof (neighbor_some to_lowercase _ _ Hb a) as Hex. revert Hin Hex.
    generalize (g_undirected (px_graph p) a). intros l. induction l as [|n l IH]; intros Hin Hex;
      [by apply elem_of_nil in Hin|]. cbn.
    destruct (Hex n (list_elem_of_here _ _)) as [e He]. rewrite He. cbn.
    apply elem_of_cons in Hin as [<-|Hin].
    - rewrite (placed_weight _ _ _ Hb (Entity_Type t) i Ht) in He. injection He as <-.
      by rewrite (type_function_path t).
    - destruct e; try (apply IH; [done|]; intros m Hm; apply Hex; by apply list_elem_of_further).
      destruct (is_io_function _ _); [done|]. apply IH; [done|]. intros m Hm. apply Hex.
      by apply list_elem_of_further. }
  by rewrite Hio.
Qed.

(** The functions whose SQL is part of the type's: the input and output
    functions, and the receive and send functions when it has both. *)
Definition inlined_functions (t : PostgresTypeEntity) : list string :=
  map (resolve_function_path (type_module_path t))
    ([type_in_fn_path t; type_out_fn_path t]
     ++ match type_receive_fn_path t, type_send_fn_path t with
        | Some receive, Some send => [receive; send]
        | _, _ => []
        end).

Lemma inlined_type_functions t path : path ∈ inlined_functions t -> path ∈ type_functions t.
Proof.
  unfold inlined_functions, type_functions. rewrite !list_elem_of_fmap. intros (x & -> & Hx).
  exists x. split; [done|]. revert Hx.
  destruct (type_receive_fn_path t), (type_send_fn_path t); cbn; rewrite !elem_of_cons; naive_solver.
Qed.

(** [text] is the shell type, then [s], then the definition of the type. *)
Definition between_definitions (t : PostgresTypeEntity) (s text : string) : Prop :=
  exists schema x y body,
    text = format [format [type_comment t; "CREATE TYPE "; schema; type_name t; ";"];
                   x; s; y;
                   format [type_comment t; "CREATE TYPE "; schema; type_name t; " ("; body]].

Lemma format_between t schema body l1 s l2 :
  between_definitions t s
    (format (format [type_comment t; "CREATE TYPE "; schema; type_name t; ";"] :: l1
             ++ s :: l2
             ++ [format (type_comment t :: "CREATE TYPE " :: schema :: type_name t :: " (" :: body)])).
Proof.
  exists schema, (format l1), (format l2), (format body).
  change (format (?a :: ?b)) with (a +:+ format b). f_equal. rewrite format_app.
  change (format (s :: ?b)) with (s +:+ format b). rewrite format_app. cbn [format foldr].
  by rewrite !app_empty_r.
Qed.

Lemma between_holds t s u text : holds s u -> between_definitions t u text -> between_definitions t s text.
Proof.
  intros (x' & z' & ->) (schema & x & y & body & ->).
  exists schema, (x +:+ x'), (z' +:+ y), body. cbn [format foldr]. by rewrite !app_assoc_s.
Qed.

Lemma ok_inj {E A} (a b : A) : @Ok E A a = Ok b -> a = b.
Proof. by intros [=]. Qed.

Lemma io_function_part t k path r sql :
  (t, k) ∈ px_types p -> resolve_function_path (type_module_path t) path ∈ type_functions t ->
  io_function to_uppercase p k (type_module_path t) path = Ok r -> between_definitions t r.1.2 sql ->
  exists f j fsql, (f, j) ∈ px_externs p /\ fn_full_path f = resolve_function_path (type_module_path t) path
    /\ function_to_sql to_uppercase p f = Ok fsql /\ between_definitions t fsql sql.
Proof.
  intros Ht Hp Hr Hbt. edestruct io_function_result as [Hrp _ (f & j & Hf & Hfp & Hfs)];
    [exact p_is_built| |exact Ht|exact Hp|exact Hr|].
  - intros n e Hn Hd. by destruct (p_nodes_known n e Hn Hd).
  - exists f, j, r.1.2. rewrite Hrp in Hfp. auto.
Qed.

Lemma type_to_sql_parts t i sql :
  (t, i) ∈ px_types p -> type_to_sql to_uppercase p t = Ok sql ->
  forall path, path ∈ inlined_functions t ->
  exists f j fsql, (f, j) ∈ px_externs p /\ fn_full_path f = path
    /\ function_to_sql to_uppercase p f = Ok fsql /\ between_definitions t fsql sql.
Proof.
  intros Ht0 Hok path Hpath. pose proof p_is_built as Hb.
  unfold type_to_sql in Hok. destruct (index_of_ok t _ i Ht0) as (k & Hk & Ht).
  rewrite Hk in Hok. cbn [mbind outcome_bind] in Hok.
  rewrite (placed_weight _ _ _ Hb (Entity_Type t) k Ht) in Hok. cbn [unwrap mbind outcome_bind] in Hok.
  destruct (io_paths t) as (Hin & Hout & Hrec & Hsend).
  pose proof (fun path' r => io_function_part t k path' r sql Ht) as Hres.
  apply outcome_bind_ok in Hok as ([[ii isql] ipath] & Hi & Hok).
  apply outcome_bind_ok in Hok as ([[oi osql] opath] & Ho & Hok).
  apply outcome_bind_ok in Hok as (receive & Hr & Hok). apply outcome_bind_ok in Hok as (send & Hs & Hok).
  apply outcome_bind_ok in Hok as (schema & _ & Hok). apply outcome_bind_ok in Hok as (al & _ & Hok).
  apply outcome_bind_ok in Hok as ([attrs fns] & Hrs & Hok). open_binds.
  apply ok_inj in Hok. subst sql.
  unfold inlined_functions in Hpath. apply list_elem_of_fmap in Hpath as (x & -> & Hx).
  apply elem_of_app in Hx as [Hx|Hx].
  - apply elem_of_cons in Hx as [->|Hx]; [|apply list_elem_of_singleton in Hx as ->].
    + apply (Hres _ _ Hin Hi). exact (format_between t schema _ [nl] isql [nl; osql; fns; nl]).
    + apply (Hres _ _ Hout Ho). exact (format_between t schema _ [nl; isql; nl] osql [fns; nl]).
  - destruct (type_receive_fn_path t) as [rp|] eqn:Erp, (type_send_fn_path t) as [sd|] eqn:Esd;
      try by apply elem_of_nil in Hx.
    cbn [io_function_opt] in Hr, Hs.
    apply outcome_bind_ok in Hr as ([[ri rsql] rpath] & Hr1 & Hr).
    apply outcome_bind_ok in Hs as ([[si ssql] spath] & Hs1 & Hs).
    apply ok_inj in Hr, Hs. subst receive send. cbn [receive_send_sql] in Hrs. open_binds.
    apply ok_inj in Hrs. apply (f_equal snd) in Hrs. cbn [snd] in Hrs. subst fns.
    apply elem_of_cons in Hx as [->|Hx]; [|apply list_elem_of_singleton in Hx as ->].
    + apply (Hres _ _ (Hrec _ eq_refl) Hr1). eapply between_holds;
        [|exact (format_between t schema _ [nl; isql; nl; osql] (format [nl; rsql; nl; ssql; nl]) [nl])].
      apply holds_format_piece. rewrite !elem_of_cons. auto.
    + apply (Hres _ _ (Hsend _ eq_refl) Hs1). eapply between_holds;
        [|exact (format_between t schema _ [nl; isql; nl; osql] (format [nl; rsql; nl; ssql; nl]) [nl])].
      apply holds_format_piece. rewrite !elem_of_cons. auto 10.
Qed.

Lemma extern_entity f j : (f, j) ∈ px_externs p -> Entity_Function f ∈ entities.
Proof.
  intros Hj. pose proof (placed_weight _ _ _ p_is_built (Entity_Function f) j Hj) as Hw.
  by destruct (p_nodes_known _ _ Hw eq_refl).
Qed.

(** The functions a type is read, written, received and sent with are
    created with the type, once: the text of the type is its shell, then among
    others the [CREATE FUNCTION] of that function, then the definition of the
    type; and the function's own node contributes nothing to the schema, unless
    its SQL was replaced by [#[pgrx(sql = ..)]]. *)
Theorem io_functions_inline (t : PostgresTypeEntity) (i : NodeIndex) (sql path : string) :
  (forall f g, Entity_Function f ∈ entities -> Entity_Function g ∈ entities ->
     fn_full_path f = fn_full_path g -> f = g) ->
  (t, i) ∈ px_types p -> type_to_sql to_uppercase p t = Ok sql -> path ∈ inlined_functions t ->
  exists f j fsql, (f, j) ∈ px_externs p /\ fn_full_path f = path
    /\ function_to_sql to_uppercase p f = Ok fsql /\ between_definitions t fsql sql
    /\ (overridden (fn_to_sql_config f) = false ->
        entity_to_sql to_lowercase to_uppercase p (Entity_Function f) = Ok "").
Proof.
  intros Huniq Ht Hsql Hpath.
  destruct (type_to_sql_parts t i sql Ht Hsql path Hpath) as (f & j & fsql & Hf & Hfp & Hfs & Hbt).
  exists f, j, fsql. split; [done|]. split; [done|]. split; [done|]. split; [done|].
  eapply io_node_quiet; [|exact Ht | exact Hf | by rewrite Hfp; apply inlined_type_functions].
  intros g g' k k' Hg Hg'. apply Huniq; by eapply extern_entity.
Qed.

(** ** Attaching *)

Lemma function_attaches f i ext sql :
  (f, i) ∈ px_externs p -> function_to_sql to_uppercase p f = Ok sql ->
  succeeds (render_alter_extension_for_node p i ext).
Proof.
  intros Hf Hsql. pose proof p_is_built as Hb. pose proof Hb as [(g0 & Hn & _ & _) _].
  unfold render_alter_extension_for_node. rewrite (placed_weight _ _ _ Hb (Entity_Function f) i Hf).
  cbn [unwrap mbind outcome_bind]. unfold function_to_sql, index_of in Hsql.
  rewrite (hm_get_nodup f _ i) in Hsql; [|apply (io_nodup _ _ _ _ _ (no_externs _ _ Hn))|done].
  cbn [unwrap mbind outcome_bind] in Hsql. open_binds.
  apply succeeds_bind; [by eexists|]. intros ? _.
  apply succeeds_bind; [by eapply arguments_argtypes|]. intros ? _.
  apply succeeds_bind.
  { destruct (fn_operator f) eqn:Eo; [by eapply operator_attach|].
    unfold alter_operator. rewrite Eo. apply succeeds_ok. }
  intros ? _. apply succeeds_bind; [|intros; apply succeeds_ok].
  destruct (fn_cast f) eqn:Ec; [by eapply cast_attach|]. unfold alter_cast. rewrite Ec. apply succeeds_ok.
Qed.

Lemma aggregate_attaches a i ext sql :
  (a, i) ∈ px_aggregates p -> aggregate_to_sql p a = Ok sql ->
  succeeds (render_alter_extension_for_node p i ext).
Proof.
  intros Hf Hsql. pose proof p_is_built as Hb. pose proof Hb as [(g0 & Hn & _ & _) _].
  unfold render_alter_extension_for_node. rewrite (placed_weight _ _ _ Hb (Entity_Aggregate a) i Hf).
  cbn [unwrap mbind outcome_bind]. unfold aggregate_to_sql, index_of in Hsql.
  rewrite (hm_get_nodup a _ i) in Hsql; [|apply (io_nodup _ _ _ _ _ (no_aggregates _ _ Hn))|done].
  cbn [unwrap mbind outcome_bind] in Hsql. open_binds.
  apply succeeds_bind; [by eexists|]. intros ? _. apply succeeds_bind; [|intros; apply succeeds_ok].
  unfold render_aggregate_argtypes.
  apply succeeds_bind; [by eapply aggregate_arguments_slots|]. intros ? _.
  destruct (agg_ordered_set a); [|apply succeeds_ok]. apply succeeds_bind; [|intros; apply succeeds_ok].
  destruct (agg_direct_args a); [by eapply aggregate_arguments_slots | apply succeeds_ok].
Qed.

(** What can be created can be attached: when the [CREATE] of a placed
    entity renders, so does its [ALTER EXTENSION .. ADD], which is there for
    every entity but a built-in schema and a block that declares nothing. *)
Theorem alter_extension_total (e : SqlGraphEntity) (i : NodeIndex) (ext : string) :
  placed p e i ->
  match e with
  | Entity_Function f => exists sql, function_to_sql to_uppercase p f = Ok sql
  | Entity_Aggregate a => exists sql, aggregate_to_sql p a = Ok sql
  | _ => True
  end ->
  exists alter, render_alter_extension_for_node p i ext = Ok alter
    /\ (alter = None <-> match e with
                        | Entity_Schema s => builtin_schema (schema_name s) = true
                        | Entity_CustomSql c => sql_creates c = []
                        | _ => False
                        end).
Proof.
  intros Hp Hsql. pose proof (placed_weight _ _ _ p_is_built e i Hp) as Hw.
  assert (Hok : succeeds (render_alter_extension_for_node p i ext)).
  { pose proof (prefix_for_ok _ _ _ p_is_built i) as Hpre. rewrite Hw in Hpre.
    destruct e; try done; cbn in Hp;
      try (destruct Hsql; by eauto using function_attaches, aggregate_attaches);
      unfold render_alter_extension_for_node; rewrite Hw; cbn [unwrap mbind outcome_bind];
      try (apply succeeds_bind; [by apply Hpre; eauto | intros; apply succeeds_ok]).
    - destruct (builtin_schema _); apply succeeds_ok.
    - destruct (sql_creates _); apply succeeds_ok. }
  destruct Hok as [alter Ha]. exists alter. split; [done|].
  unfold render_alter_extension_for_node in Ha. rewrite Hw in Ha. cbn [unwrap mbind outcome_bind] in Ha.
  destruct e; try done; open_binds; try (apply ok_inj in Ha; subst alter; done).
  - destruct (builtin_schema _); apply ok_inj in Ha; subst alter; done.
  - destruct (sql_creates _); apply ok_inj in Ha; subst alter; done.
Qed.

End Properties.

(** ** The attributes of a function *)

Lemma dedup_sorted {A} `{EqDecision A} (R : A -> A -> Prop) `{!AntiSymm eq R} (l : list A) :
  StronglySorted R l -> StronglySorted R (dedup l) /\ NoDup (dedup l).
Proof.
  induction l as [|y l IH]; intros Hs; [split; constructor|].
  apply StronglySorted_inv in Hs as [Hs Hy]. specialize (IH Hs) as [IHs IHd].
  destruct l as [|z l]; [by repeat constructor; apply not_elem_of_nil|].
  change (dedup (y :: z :: l)) with (if decide (y = z) then dedup (z :: l) else y :: dedup (z :: l)).
  case_decide as Hyz; [by split|]. split.
  - constructor; [done|]. rewrite Forall_forall in *. intros x Hx. apply Hy. by rewrite dedup_elem in Hx.
  - constructor; [|done]. rewrite dedup_elem. intros Hin. apply Hyz.
    rewrite Forall_forall in Hy. apply (anti_symm R); [apply Hy, list_elem_of_here|].
    apply elem_of_cons in Hin as [->|Hin]; [done|].
    apply StronglySorted_inv in Hs as [_ Hz]. rewrite Forall_forall in Hz. by apply Hz.
Qed.

Lemma strict_upgrade_spec f :
  strict_upgrade f = true <-> Strict ∉ fn_extern_attrs f
    /\ forall arg, arg ∈ fn_fn_args f -> ut_optional (arg_used_ty arg) = false.
Proof.
  unfold strict_upgrade. rewrite andb_true_iff, !negb_true_iff, <- !not_true_iff_false, !existsb_exists.
  setoid_rewrite <- list_elem_of_In. setoid_rewrite bool_decide_eq_true. split.
  - intros [Hs Ho]. split; [by intros ?; apply Hs; eauto|]. intros arg Hin.
    destruct (ut_optional _) eqn:E; [exfalso; apply Ho; eauto | done].
  - intros [Hs Ho]. split; [by intros (? & ? & ->)|]. intros (arg & Hin & Hopt). by rewrite Ho in Hopt.
Qed.

(** The attributes that are rendered: [STRICT] is among them exactly when
    it was written or no argument can be null, the others are the ones written,
    none appears twice, and neither their order nor repetitions in the source
    matter. *)
Theorem rendered_attrs_spec (f : PgExternEntity) :
  (Strict ∈ rendered_attrs f <->
     Strict ∈ fn_extern_attrs f
     \/ forall arg, arg ∈ fn_fn_args f -> ut_optional (arg_used_ty arg) = false)
  /\ (forall a, a <> Strict -> a ∈ rendered_attrs f <-> a ∈ fn_extern_attrs f)
  /\ NoDup (rendered_attrs f)
  /\ forall f', fn_fn_args f' = fn_fn_args f ->
       (forall a, a ∈ fn_extern_attrs f' <-> a ∈ fn_extern_attrs f) ->
       rendered_attrs f' = rendered_attrs f.
Proof.
  assert (Hsorted : forall g, StronglySorted kle (rendered_attrs g) /\ NoDup (rendered_attrs g)).
  { intros g. apply dedup_sorted; [apply _|]. apply StronglySorted_merge_sort; apply _. }
  split; [|split; [|split]].
  - rewrite rendered_attrs_elem, strict_upgrade_spec.
    destruct (decide (Strict ∈ fn_extern_attrs f)); naive_solver.
  - intros a Ha. rewrite rendered_attrs_elem. naive_solver.
  - apply Hsorted.
  - intros f' Hargs Hattrs. apply (StronglySorted_unique kle); [apply Hsorted | apply Hsorted|].
    apply NoDup_Permutation; [apply Hsorted | apply Hsorted|]. intros a.
    rewrite !rendered_attrs_elem, !strict_upgrade_spec, Hargs. setoid_rewrite Hattrs. done.
Qed.

(** ** Witnesses, on the example of the schema graph *)

Lemma ex_components_sound : scc_postorder (px_graph ex_built) (ex_built_components (px_graph ex_built)).
Proof. apply scc_check_sound; [apply lg_wf_sound; vm_compute; reflexivity | by vm_compute]. Qed.

Definition ex_upper (s : string) : string := s.

Lemma to_sql_total_witness :
  exists text, to_sql (H0:=hash_order_id) ascii_lowercase ex_upper ex_built_components ex_built = Ok text.
Proof.
  apply (to_sql_total (H1:=hash_order_id) ascii_lowercase ex_upper ex_entities "dogs" false ex_built ex_build_ok).
  - apply ex_components_sound.
  - intros e He. assert (Hall : forallb (entity_ok (H0:=hash_order_id) ex_built) ex_entities = true)
      by (vm_compute; reflexivity).
    rewrite forallb_forall in Hall. by apply Hall, list_elem_of_In.
Defined.

Definition ok_or_empty {E} (m : outcome E string) : string := match m with Ok s => s | _ => "" end.

Definition ex_schema_text : string :=
  ok_or_empty (to_sql (H0:=hash_order_id) ascii_lowercase ex_upper ex_built_components ex_built).

Definition ex_entity_sql (e : SqlGraphEntity) : string :=
  ok_or_empty (entity_to_sql (H0:=hash_order_id) ascii_lowercase ex_upper ex_built e).

(** [dog_name] requires the type. *)
Lemma schema_text_in_order_witness :
  follows (trim (ex_entity_sql (Entity_Type ex_type))) (trim (ex_entity_sql (Entity_Function ex_dog_name)))
    ex_schema_text.
Proof.
  assert (Hwf : graph_wf (px_graph ex_built)) by (apply lg_wf_sound; vm_compute; reflexivity).
  apply (schema_text_in_order (H1:=hash_order_id) ascii_lowercase ex_upper ex_entities "dogs" false ex_built
    ex_build_ok ex_built_components ex_schema_text 2%nat 5%nat By).
  - apply ex_components_sound.
  - vm_compute. reflexivity.
  - apply (dep_extern_requires _ _ ex_dog_name 5%nat [FullPath "animals::Dog"] (FullPath "animals::Dog"));
      by apply (bool_decide_unpack _); vm_compute.
  - rewrite <- reachb_spec by done. by vm_compute.
  - exists (Entity_Type ex_type), (ex_entity_sql (Entity_Type ex_type)).
    split; [|split; [|done]]; vm_compute; reflexivity.
  - exists (Entity_Function ex_dog_name), (ex_entity_sql (Entity_Function ex_dog_name)).
    split; [|split; [|done]]; vm_compute; reflexivity.
Defined.

Lemma io_functions_inline_witness :
  exists f j fsql, (f, j) ∈ px_externs ex_built /\ fn_full_path f = "animals::dog_in"
    /\ function_to_sql (H0:=hash_order_id) ex_upper ex_built f = Ok fsql
    /\ between_definitions ex_type fsql (ex_entity_sql (Entity_Type ex_type))
    /\ (overridden (fn_to_sql_config f) = false ->
        entity_to_sql (H0:=hash_order_id) ascii_lowercase ex_upper ex_built (Entity_Function f) = Ok "").
Proof.
  apply (io_functions_inline (H1:=hash_order_id) ascii_lowercase ex_upper ex_entities "dogs" false ex_built
    ex_build_ok ex_type 2%nat).
  - intros f g Hf Hg. unfold ex_entities in Hf, Hg. rewrite !elem_of_cons, elem_of_nil in Hf, Hg.
    repeat destruct Hf as [Hf|Hf]; try done; injection Hf as ->;
      repeat destruct Hg as [Hg|Hg]; try done; injection Hg as ->; done.
  - by apply (bool_decide_unpack _); vm_compute.
  - vm_compute. reflexivity.
  - by apply (bool_decide_unpack _); vm_compute.
Defined.

Lemma alter_extension_total_witness :
  exists alter, render_alter_extension_for_node ex_built 5%nat "dogs" = Ok alter
    /\ (alter = None <-> False).
Proof.
  apply (alter_extension_total (H1:=hash_order_id) ascii_lowercase ex_upper ex_entities "dogs" false ex_built
    ex_build_ok (Entity_Function ex_dog_name) 5%nat "dogs").
  - cbn [placed]. by apply (bool_decide_unpack _); vm_compute.
  - exists (ok_or_empty (function_to_sql (H0:=hash_order_id) ex_upper ex_built ex_dog_name)).
    vm_compute. reflexivity.
Defined.

(** ** A slice that is attached to the extension *)

Definition ex_slice : string :=
  match to_sql_for_items (H0:=hash_order_id) ascii_lowercase ex_upper ex_built_components ex_built
          ["Dog"] "dogs" (Some "dogs") with
  | Ok text => text
  | _ => ""
  end.

(** A slice for an extension attaches a type's own functions before it
    creates them: the function's node contributes only its [ALTER EXTENSION],
    and its [CREATE FUNCTION] comes later, with the type.  Here, for the type of
    the example, [dog_in] is added to the extension at a position of the text
    before the first at which it is created. *)
Theorem slice_attaches_before_create :
  scc_postorder (px_graph ex_built) (ex_built_components (px_graph ex_built))
  /\ to_sql_for_items (H0:=hash_order_id) ascii_lowercase ex_upper ex_built_components ex_built
       ["Dog"] "dogs" (Some "dogs") = Ok ex_slice
  /\ exists attach create,
       String.index 0 (alter_add "dogs" (format ["FUNCTION "; dq; "dog_in"; dq; "(cstring)"])) ex_slice
         = Some attach
       /\ String.index 0 (format ["CREATE  FUNCTION "; dq; "dog_in"; dq; "("]) ex_slice = Some create
       /\ (attach < create)%nat.
Proof.
  split; [apply ex_components_sound|]. split; [vm_compute; reflexivity|].
  eexists _, _. split; [vm_compute; reflexivity|]. split; [vm_compute; reflexivity|]. lia.
Qed.
