(* ===== verification/ErrCodes.v ===== *)
(** * SQL error codes

    [pgrx-pg-sys/src/submodules/errcodes.rs]: the enum of SQLSTATE codes with its
    discriminants, and the conversions from the integers Postgres reports. *)
From S2P Require Import Prelude.
From stdpp Require Import list strings.
#[local] Set Warnings "-clear-no-such-hyp".
#[local] Open Scope Z_scope.

(** A [char] literal is a string of one byte here. *)
Definition char_code (ch : string) : Z :=
  match ch with String c _ => Z.of_N (N_of_ascii c) | EmptyString => 0 end.

Definition PGSIXBIT (ch : Z) : Z := Z.land (ch - char_code "0") 63.

Definition MAKE_SQLSTATE (ch1 ch2 ch3 ch4 ch5 : string) : Z :=
  PGSIXBIT (char_code ch1)
  + Z.shiftl (PGSIXBIT (char_code ch2)) 6
  + Z.shiftl (PGSIXBIT (char_code ch3)) 12
  + Z.shiftl (PGSIXBIT (char_code ch4)) 18
  + Z.shiftl (PGSIXBIT (char_code ch5)) 24.

Inductive PgSqlErrorCode :=
| ERRCODE_SUCCESSFUL_COMPLETION | ERRCODE_WARNING | ERRCODE_WARNING_DYNAMIC_RESULT_SETS_RETURNED
| ERRCODE_WARNING_IMPLICIT_ZERO_BIT_PADDING | ERRCODE_WARNING_NULL_VALUE_ELIMINATED_IN_SET_FUNCTION
| ERRCODE_WARNING_PRIVILEGE_NOT_GRANTED | ERRCODE_WARNING_PRIVILEGE_NOT_REVOKED
| ERRCODE_WARNING_STRING_DATA_RIGHT_TRUNCATION | ERRCODE_WARNING_DEPRECATED_FEATURE | ERRCODE_NO_DATA
| ERRCODE_NO_ADDITIONAL_DYNAMIC_RESULT_SETS_RETURNED | ERRCODE_SQL_STATEMENT_NOT_YET_COMPLETE
| ERRCODE_CONNECTION_EXCEPTION | ERRCODE_CONNECTION_DOES_NOT_EXIST | ERRCODE_CONNECTION_FAILURE
| ERRCODE_SQLCLIENT_UNABLE_TO_ESTABLISH_SQLCONNECTION
| ERRCODE_SQLSERVER_REJECTED_ESTABLISHMENT_OF_SQLCONNECTION | ERRCODE_TRANSACTION_RESOLUTION_UNKNOWN
| ERRCODE_PROTOCOL_VIOLATION | ERRCODE_TRIGGERED_ACTION_EXCEPTION | ERRCODE_FEATURE_NOT_SUPPORTED
| ERRCODE_INVALID_TRANSACTION_INITIATION | ERRCODE_LOCATOR_EXCEPTION | ERRCODE_L_E_INVALID_SPECIFICATION
| ERRCODE_INVALID_GRANTOR | ERRCODE_INVALID_GRANT_OPERATION | ERRCODE_INVALID_ROLE_SPECIFICATION
| ERRCODE_DIAGNOSTICS_EXCEPTION | ERRCODE_STACKED_DIAGNOSTICS_ACCESSED_WITHOUT_ACTIVE_HANDLER
| ERRCODE_CASE_NOT_FOUND | ERRCODE_CARDINALITY_VIOLATION | ERRCODE_DATA_EXCEPTION
| ERRCODE_ARRAY_ELEMENT_ERROR | ERRCODE_CHARACTER_NOT_IN_REPERTOIRE | ERRCODE_DATETIME_FIELD_OVERFLOW
| ERRCODE_DIVISION_BY_ZERO | ERRCODE_ERROR_IN_ASSIGNMENT | ERRCODE_ESCAPE_CHARACTER_CONFLICT
| ERRCODE_INDICATOR_OVERFLOW | ERRCODE_INTERVAL_FIELD_OVERFLOW | ERRCODE_INVALID_ARGUMENT_FOR_LOG
| ERRCODE_INVALID_ARGUMENT_FOR_NTILE | ERRCODE_INVALID_ARGUMENT_FOR_NTH_VALUE
| ERRCODE_INVALID_ARGUMENT_FOR_POWER_FUNCTION | ERRCODE_INVALID_ARGUMENT_FOR_WIDTH_BUCKET_FUNCTION
| ERRCODE_INVALID_CHARACTER_VALUE_FOR_CAST | ERRCODE_INVALID_DATETIME_FORMAT
| ERRCODE_INVALID_ESCAPE_CHARACTER | ERRCODE_INVALID_ESCAPE_OCTET | ERRCODE_INVALID_ESCAPE_SEQUENCE
| ERRCODE_NONSTANDARD_USE_OF_ESCAPE_CHARACTER | ERRCODE_INVALID_INDICATOR_PARAMETER_VALUE
| ERRCODE_INVALID_PARAMETER_VALUE | ERRCODE_INVALID_PRECEDING_OR_FOLLOWING_SIZE
| ERRCODE_INVALID_REGULAR_EXPRESSION | ERRCODE_INVALID_ROW_COUNT_IN_LIMIT_CLAUSE
| ERRCODE_INVALID_ROW_COUNT_IN_RESULT_OFFSET_CLAUSE | ERRCODE_INVALID_TABLESAMPLE_ARGUMENT
| ERRCODE_INVALID_TABLESAMPLE_REPEAT | ERRCODE_INVALID_TIME_ZONE_DISPLACEMENT_VALUE
| ERRCODE_INVALID_USE_OF_ESCAPE_CHARACTER | ERRCODE_MOST_SPECIFIC_TYPE_MISMATCH
| ERRCODE_NULL_VALUE_NOT_ALLOWED | ERRCODE_NULL_VALUE_NO_INDICATOR_PARAMETER
| ERRCODE_NUMERIC_VALUE_OUT_OF_RANGE | ERRCODE_SEQUENCE_GENERATOR_LIMIT_EXCEEDED
| ERRCODE_STRING_DATA_LENGTH_MISMATCH | ERRCODE_STRING_DATA_RIGHT_TRUNCATION | ERRCODE_SUBSTRING_ERROR
| ERRCODE_TRIM_ERROR | ERRCODE_UNTERMINATED_C_STRING | ERRCODE_ZERO_LENGTH_CHARACTER_STRING
| ERRCODE_FLOATING_POINT_EXCEPTION | ERRCODE_INVALID_TEXT_REPRESENTATION
| ERRCODE_INVALID_BINARY_REPRESENTATION | ERRCODE_BAD_COPY_FILE_FORMAT | ERRCODE_UNTRANSLATABLE_CHARACTER
| ERRCODE_NOT_AN_XML_DOCUMENT | ERRCODE_INVALID_XML_DOCUMENT | ERRCODE_INVALID_XML_CONTENT
| ERRCODE_INVALID_XML_COMMENT | ERRCODE_INVALID_XML_PROCESSING_INSTRUCTION
| ERRCODE_DUPLICATE_JSON_OBJECT_KEY_VALUE | ERRCODE_INVALID_JSON_TEXT | ERRCODE_INVALID_SQL_JSON_SUBSCRIPT
| ERRCODE_MORE_THAN_ONE_SQL_JSON_ITEM | ERRCODE_NO_SQL_JSON_ITEM | ERRCODE_NON_NUMERIC_SQL_JSON_ITEM
| ERRCODE_NON_UNIQUE_KEYS_IN_A_JSON_OBJECT | ERRCODE_SINGLETON_SQL_JSON_ITEM_REQUIRED
| ERRCODE_SQL_JSON_ARRAY_NOT_FOUND | ERRCODE_SQL_JSON_MEMBER_NOT_FOUND | ERRCODE_SQL_JSON_NUMBER_NOT_FOUND
| ERRCODE_SQL_JSON_OBJECT_NOT_FOUND | ERRCODE_TOO_MANY_JSON_ARRAY_ELEMENTS
| ERRCODE_TOO_MANY_JSON_OBJECT_MEMBERS | ERRCODE_SQL_JSON_SCALAR_REQUIRED
| ERRCODE_INTEGRITY_CONSTRAINT_VIOLATION | ERRCODE_RESTRICT_VIOLATION | ERRCODE_NOT_NULL_VIOLATION
| ERRCODE_FOREIGN_KEY_VIOLATION | ERRCODE_UNIQUE_VIOLATION | ERRCODE_CHECK_VIOLATION
| ERRCODE_EXCLUSION_VIOLATION | ERRCODE_INVALID_CURSOR_STATE | ERRCODE_INVALID_TRANSACTION_STATE
| ERRCODE_ACTIVE_SQL_TRANSACTION | ERRCODE_BRANCH_TRANSACTION_ALREADY_ACTIVE
| ERRCODE_HELD_CURSOR_REQUIRES_SAME_ISOLATION_LEVEL
| ERRCODE_INAPPROPRIATE_ACCESS_MODE_FOR_BRANCH_TRANSACTION
| ERRCODE_INAPPROPRIATE_ISOLATION_LEVEL_FOR_BRANCH_TRANSACTION
| ERRCODE_NO_ACTIVE_SQL_TRANSACTION_FOR_BRANCH_TRANSACTION | ERRCODE_READ_ONLY_SQL_TRANSACTION
| ERRCODE_SCHEMA_AND_DATA_STATEMENT_MIXING_NOT_SUPPORTED | ERRCODE_NO_ACTIVE_SQL_TRANSACTION
| ERRCODE_IN_FAILED_SQL_TRANSACTION | ERRCODE_IDLE_IN_TRANSACTION_SESSION_TIMEOUT
| ERRCODE_INVALID_SQL_STATEMENT_NAME | ERRCODE_TRIGGERED_DATA_CHANGE_VIOLATION
| ERRCODE_INVALID_AUTHORIZATION_SPECIFICATION | ERRCODE_INVALID_PASSWORD
| ERRCODE_DEPENDENT_PRIVILEGE_DESCRIPTORS_STILL_EXIST | ERRCODE_DEPENDENT_OBJECTS_STILL_EXIST
| ERRCODE_INVALID_TRANSACTION_TERMINATION | ERRCODE_SQL_ROUTINE_EXCEPTION
| ERRCODE_S_R_E_FUNCTION_EXECUTED_NO_RETURN_STATEMENT | ERRCODE_S_R_E_MODIFYING_SQL_DATA_NOT_PERMITTED
| ERRCODE_S_R_E_PROHIBITED_SQL_STATEMENT_ATTEMPTED | ERRCODE_S_R_E_READING_SQL_DATA_NOT_PERMITTED
| ERRCODE_INVALID_CURSOR_NAME | ERRCODE_EXTERNAL_ROUTINE_EXCEPTION
| ERRCODE_E_R_E_CONTAINING_SQL_NOT_PERMITTED | ERRCODE_E_R_E_MODIFYING_SQL_DATA_NOT_PERMITTED
| ERRCODE_E_R_E_PROHIBITED_SQL_STATEMENT_ATTEMPTED | ERRCODE_E_R_E_READING_SQL_DATA_NOT_PERMITTED
| ERRCODE_EXTERNAL_ROUTINE_INVOCATION_EXCEPTION | ERRCODE_E_R_I_E_INVALID_SQLSTATE_RETURNED
| ERRCODE_E_R_I_E_NULL_VALUE_NOT_ALLOWED | ERRCODE_E_R_I_E_TRIGGER_PROTOCOL_VIOLATED
| ERRCODE_E_R_I_E_SRF_PROTOCOL_VIOLATED | ERRCODE_E_R_I_E_EVENT_TRIGGER_PROTOCOL_VIOLATED
| ERRCODE_SAVEPOINT_EXCEPTION | ERRCODE_S_E_INVALID_SPECIFICATION | ERRCODE_INVALID_CATALOG_NAME
| ERRCODE_INVALID_SCHEMA_NAME | ERRCODE_TRANSACTION_ROLLBACK | ERRCODE_T_R_INTEGRITY_CONSTRAINT_VIOLATION
| ERRCODE_T_R_SERIALIZATION_FAILURE | ERRCODE_T_R_STATEMENT_COMPLETION_UNKNOWN
| ERRCODE_T_R_DEADLOCK_DETECTED | ERRCODE_SYNTAX_ERROR_OR_ACCESS_RULE_VIOLATION | ERRCODE_SYNTAX_ERROR
| ERRCODE_INSUFFICIENT_PRIVILEGE | ERRCODE_CANNOT_COERCE | ERRCODE_GROUPING_ERROR | ERRCODE_WINDOWING_ERROR
| ERRCODE_INVALID_RECURSION | ERRCODE_INVALID_FOREIGN_KEY | ERRCODE_INVALID_NAME | ERRCODE_NAME_TOO_LONG
| ERRCODE_RESERVED_NAME | ERRCODE_DATATYPE_MISMATCH | ERRCODE_INDETERMINATE_DATATYPE
| ERRCODE_COLLATION_MISMATCH | ERRCODE_INDETERMINATE_COLLATION | ERRCODE_WRONG_OBJECT_TYPE
| ERRCODE_GENERATED_ALWAYS | ERRCODE_UNDEFINED_COLUMN | ERRCODE_UNDEFINED_FUNCTION | ERRCODE_UNDEFINED_TABLE
| ERRCODE_UNDEFINED_PARAMETER | ERRCODE_UNDEFINED_OBJECT | ERRCODE_DUPLICATE_COLUMN
| ERRCODE_DUPLICATE_CURSOR | ERRCODE_DUPLICATE_DATABASE | ERRCODE_DUPLICATE_FUNCTION
| ERRCODE_DUPLICATE_PSTATEMENT | ERRCODE_DUPLICATE_SCHEMA | ERRCODE_DUPLICATE_TABLE | ERRCODE_DUPLICATE_ALIAS
| ERRCODE_DUPLICATE_OBJECT | ERRCODE_AMBIGUOUS_COLUMN | ERRCODE_AMBIGUOUS_FUNCTION
| ERRCODE_AMBIGUOUS_PARAMETER | ERRCODE_AMBIGUOUS_ALIAS | ERRCODE_INVALID_COLUMN_REFERENCE
| ERRCODE_INVALID_COLUMN_DEFINITION | ERRCODE_INVALID_CURSOR_DEFINITION | ERRCODE_INVALID_DATABASE_DEFINITION
| ERRCODE_INVALID_FUNCTION_DEFINITION | ERRCODE_INVALID_PSTATEMENT_DEFINITION
| ERRCODE_INVALID_SCHEMA_DEFINITION | ERRCODE_INVALID_TABLE_DEFINITION | ERRCODE_INVALID_OBJECT_DEFINITION
| ERRCODE_WITH_CHECK_OPTION_VIOLATION | ERRCODE_INSUFFICIENT_RESOURCES | ERRCODE_DISK_FULL
| ERRCODE_OUT_OF_MEMORY | ERRCODE_TOO_MANY_CONNECTIONS | ERRCODE_CONFIGURATION_LIMIT_EXCEEDED
| ERRCODE_PROGRAM_LIMIT_EXCEEDED | ERRCODE_STATEMENT_TOO_COMPLEX | ERRCODE_TOO_MANY_COLUMNS
| ERRCODE_TOO_MANY_ARGUMENTS | ERRCODE_OBJECT_NOT_IN_PREREQUISITE_STATE | ERRCODE_OBJECT_IN_USE
| ERRCODE_CANT_CHANGE_RUNTIME_PARAM | ERRCODE_LOCK_NOT_AVAILABLE | ERRCODE_UNSAFE_NEW_ENUM_VALUE_USAGE
| ERRCODE_OPERATOR_INTERVENTION | ERRCODE_QUERY_CANCELED | ERRCODE_ADMIN_SHUTDOWN | ERRCODE_CRASH_SHUTDOWN
| ERRCODE_CANNOT_CONNECT_NOW | ERRCODE_DATABASE_DROPPED | ERRCODE_SYSTEM_ERROR | ERRCODE_IO_ERROR
| ERRCODE_UNDEFINED_FILE | ERRCODE_DUPLICATE_FILE | ERRCODE_SNAPSHOT_TOO_OLD | ERRCODE_CONFIG_FILE_ERROR
| ERRCODE_LOCK_FILE_EXISTS | ERRCODE_FDW_ERROR | ERRCODE_FDW_COLUMN_NAME_NOT_FOUND
| ERRCODE_FDW_DYNAMIC_PARAMETER_VALUE_NEEDED | ERRCODE_FDW_FUNCTION_SEQUENCE_ERROR
| ERRCODE_FDW_INCONSISTENT_DESCRIPTOR_INFORMATION | ERRCODE_FDW_INVALID_ATTRIBUTE_VALUE
| ERRCODE_FDW_INVALID_COLUMN_NAME | ERRCODE_FDW_INVALID_COLUMN_NUMBER | ERRCODE_FDW_INVALID_DATA_TYPE
| ERRCODE_FDW_INVALID_DATA_TYPE_DESCRIPTORS | ERRCODE_FDW_INVALID_DESCRIPTOR_FIELD_IDENTIFIER
| ERRCODE_FDW_INVALID_HANDLE | ERRCODE_FDW_INVALID_OPTION_INDEX | ERRCODE_FDW_INVALID_OPTION_NAME
| ERRCODE_FDW_INVALID_STRING_LENGTH_OR_BUFFER_LENGTH | ERRCODE_FDW_INVALID_STRING_FORMAT
| ERRCODE_FDW_INVALID_USE_OF_NULL_POINTER | ERRCODE_FDW_TOO_MANY_HANDLES | ERRCODE_FDW_OUT_OF_MEMORY
| ERRCODE_FDW_NO_SCHEMAS | ERRCODE_FDW_OPTION_NAME_NOT_FOUND | ERRCODE_FDW_REPLY_HANDLE
| ERRCODE_FDW_SCHEMA_NOT_FOUND | ERRCODE_FDW_TABLE_NOT_FOUND | ERRCODE_FDW_UNABLE_TO_CREATE_EXECUTION
| ERRCODE_FDW_UNABLE_TO_CREATE_REPLY | ERRCODE_FDW_UNABLE_TO_ESTABLISH_CONNECTION | ERRCODE_PLPGSQL_ERROR
| ERRCODE_RAISE_EXCEPTION | ERRCODE_NO_DATA_FOUND | ERRCODE_TOO_MANY_ROWS | ERRCODE_ASSERT_FAILURE
| ERRCODE_INTERNAL_ERROR | ERRCODE_DATA_CORRUPTED | ERRCODE_INDEX_CORRUPTED.

(** The discriminant: [code as isize]. *)
Definition as_isize (c : PgSqlErrorCode) : Z :=
  match c with
  | ERRCODE_SUCCESSFUL_COMPLETION => MAKE_SQLSTATE "0" "0" "0" "0" "0"
  | ERRCODE_WARNING => MAKE_SQLSTATE "0" "1" "0" "0" "0"
  | ERRCODE_WARNING_DYNAMIC_RESULT_SETS_RETURNED => MAKE_SQLSTATE "0" "1" "0" "0" "C"
  | ERRCODE_WARNING_IMPLICIT_ZERO_BIT_PADDING => MAKE_SQLSTATE "0" "1" "0" "0" "8"
  | ERRCODE_WARNING_NULL_VALUE_ELIMINATED_IN_SET_FUNCTION => MAKE_SQLSTATE "0" "1" "0" "0" "3"
  | ERRCODE_WARNING_PRIVILEGE_NOT_GRANTED => MAKE_SQLSTATE "0" "1" "0" "0" "7"
  | ERRCODE_WARNING_PRIVILEGE_NOT_REVOKED => MAKE_SQLSTATE "0" "1" "0" "0" "6"
  | ERRCODE_WARNING_STRING_DATA_RIGHT_TRUNCATION => MAKE_SQLSTATE "0" "1" "0" "0" "4"
  | ERRCODE_WARNING_DEPRECATED_FEATURE => MAKE_SQLSTATE "0" "1" "P" "0" "1"
  | ERRCODE_NO_DATA => MAKE_SQLSTATE "0" "2" "0" "0" "0"
  | ERRCODE_NO_ADDITIONAL_DYNAMIC_RESULT_SETS_RETURNED => MAKE_SQLSTATE "0" "2" "0" "0" "1"
  | ERRCODE_SQL_STATEMENT_NOT_YET_COMPLETE => MAKE_SQLSTATE "0" "3" "0" "0" "0"
  | ERRCODE_CONNECTION_EXCEPTION => MAKE_SQLSTATE "0" "8" "0" "0" "0"
  | ERRCODE_CONNECTION_DOES_NOT_EXIST => MAKE_SQLSTATE "0" "8" "0" "0" "3"
  | ERRCODE_CONNECTION_FAILURE => MAKE_SQLSTATE "0" "8" "0" "0" "6"
  | ERRCODE_SQLCLIENT_UNABLE_TO_ESTABLISH_SQLCONNECTION => MAKE_SQLSTATE "0" "8" "0" "0" "1"
  | ERRCODE_SQLSERVER_REJECTED_ESTABLISHMENT_OF_SQLCONNECTION => MAKE_SQLSTATE "0" "8" "0" "0" "4"
  | ERRCODE_TRANSACTION_RESOLUTION_UNKNOWN => MAKE_SQLSTATE "0" "8" "0" "0" "7"
  | ERRCODE_PROTOCOL_VIOLATION => MAKE_SQLSTATE "0" "8" "P" "0" "1"
  | ERRCODE_TRIGGERED_ACTION_EXCEPTION => MAKE_SQLSTATE "0" "9" "0" "0" "0"
  | ERRCODE_FEATURE_NOT_SUPPORTED => MAKE_SQLSTATE "0" "A" "0" "0" "0"
  | ERRCODE_INVALID_TRANSACTION_INITIATION => MAKE_SQLSTATE "0" "B" "0" "0" "0"
  | ERRCODE_LOCATOR_EXCEPTION => MAKE_SQLSTATE "0" "F" "0" "0" "0"
  | ERRCODE_L_E_INVALID_SPECIFICATION => MAKE_SQLSTATE "0" "F" "0" "0" "1"
  | ERRCODE_INVALID_GRANTOR => MAKE_SQLSTATE "0" "L" "0" "0" "0"
  | ERRCODE_INVALID_GRANT_OPERATION => MAKE_SQLSTATE "0" "L" "P" "0" "1"
  | ERRCODE_INVALID_ROLE_SPECIFICATION => MAKE_SQLSTATE "0" "P" "0" "0" "0"
  | ERRCODE_DIAGNOSTICS_EXCEPTION => MAKE_SQLSTATE "0" "Z" "0" "0" "0"
  | ERRCODE_STACKED_DIAGNOSTICS_ACCESSED_WITHOUT_ACTIVE_HANDLER => MAKE_SQLSTATE "0" "Z" "0" "0" "2"
  | ERRCODE_CASE_NOT_FOUND => MAKE_SQLSTATE "2" "0" "0" "0" "0"
  | ERRCODE_CARDINALITY_VIOLATION => MAKE_SQLSTATE "2" "1" "0" "0" "0"
  | ERRCODE_DATA_EXCEPTION => MAKE_SQLSTATE "2" "2" "0" "0" "0"
  | ERRCODE_ARRAY_ELEMENT_ERROR => MAKE_SQLSTATE "2" "2" "0" "2" "E"
  | ERRCODE_CHARACTER_NOT_IN_REPERTOIRE => MAKE_SQLSTATE "2" "2" "0" "2" "1"
  | ERRCODE_DATETIME_FIELD_OVERFLOW => MAKE_SQLSTATE "2" "2" "0" "0" "8"
  | ERRCODE_DIVISION_BY_ZERO => MAKE_SQLSTATE "2" "2" "0" "1" "2"
  | ERRCODE_ERROR_IN_ASSIGNMENT => MAKE_SQLSTATE "2" "2" "0" "0" "5"
  | ERRCODE_ESCAPE_CHARACTER_CONFLICT => MAKE_SQLSTATE "2" "2" "0" "0" "B"
  | ERRCODE_INDICATOR_OVERFLOW => MAKE_SQLSTATE "2" "2" "0" "2" "2"
  | ERRCODE_INTERVAL_FIELD_OVERFLOW => MAKE_SQLSTATE "2" "2" "0" "1" "5"
  | ERRCODE_INVALID_ARGUMENT_FOR_LOG => MAKE_SQLSTATE "2" "2" "0" "1" "E"
  | ERRCODE_INVALID_ARGUMENT_FOR_NTILE => MAKE_SQLSTATE "2" "2" "0" "1" "4"
  | ERRCODE_INVALID_ARGUMENT_FOR_NTH_VALUE => MAKE_SQLSTATE "2" "2" "0" "1" "6"
  | ERRCODE_INVALID_ARGUMENT_FOR_POWER_FUNCTION => MAKE_SQLSTATE "2" "2" "0" "1" "F"
  | ERRCODE_INVALID_ARGUMENT_FOR_WIDTH_BUCKET_FUNCTION => MAKE_SQLSTATE "2" "2" "0" "1" "G"
  | ERRCODE_INVALID_CHARACTER_VALUE_FOR_CAST => MAKE_SQLSTATE "2" "2" "0" "1" "8"
  | ERRCODE_INVALID_DATETIME_FORMAT => MAKE_SQLSTATE "2" "2" "0" "0" "7"
  | ERRCODE_INVALID_ESCAPE_CHARACTER => MAKE_SQLSTATE "2" "2" "0" "1" "9"
  | ERRCODE_INVALID_ESCAPE_OCTET => MAKE_SQLSTATE "2" "2" "0" "0" "D"
  | ERRCODE_INVALID_ESCAPE_SEQUENCE => MAKE_SQLSTATE "2" "2" "0" "2" "5"
  | ERRCODE_NONSTANDARD_USE_OF_ESCAPE_CHARACTER => MAKE_SQLSTATE "2" "2" "P" "0" "6"
  | ERRCODE_INVALID_INDICATOR_PARAMETER_VALUE => MAKE_SQLSTATE "2" "2" "0" "1" "0"
  | ERRCODE_INVALID_PARAMETER_VALUE => MAKE_SQLSTATE "2" "2" "0" "2" "3"
  | ERRCODE_INVALID_PRECEDING_OR_FOLLOWING_SIZE => MAKE_SQLSTATE "2" "2" "0" "1" "3"
  | ERRCODE_INVALID_REGULAR_EXPRESSION => MAKE_SQLSTATE "2" "2" "0" "1" "B"
  | ERRCODE_INVALID_ROW_COUNT_IN_LIMIT_CLAUSE => MAKE_SQLSTATE "2" "2" "0" "1" "W"
  | ERRCODE_INVALID_ROW_COUNT_IN_RESULT_OFFSET_CLAUSE => MAKE_SQLSTATE "2" "2" "0" "1" "X"
  | ERRCODE_INVALID_TABLESAMPLE_ARGUMENT => MAKE_SQLSTATE "2" "2" "0" "2" "H"
  | ERRCODE_INVALID_TABLESAMPLE_REPEAT => MAKE_SQLSTATE "2" "2" "0" "2" "G"
  | ERRCODE_INVALID_TIME_ZONE_DISPLACEMENT_VALUE => MAKE_SQLSTATE "2" "2" "0" "0" "9"
  | ERRCODE_INVALID_USE_OF_ESCAPE_CHARACTER => MAKE_SQLSTATE "2" "2" "0" "0" "C"
  | ERRCODE_MOST_SPECIFIC_TYPE_MISMATCH => MAKE_SQLSTATE "2" "2" "0" "0" "G"
  | ERRCODE_NULL_VALUE_NOT_ALLOWED => MAKE_SQLSTATE "2" "2" "0" "0" "4"
  | ERRCODE_NULL_VALUE_NO_INDICATOR_PARAMETER => MAKE_SQLSTATE "2" "2" "0" "0" "2"
  | ERRCODE_NUMERIC_VALUE_OUT_OF_RANGE => MAKE_SQLSTATE "2" "2" "0" "0" "3"
  | ERRCODE_SEQUENCE_GENERATOR_LIMIT_EXCEEDED => MAKE_SQLSTATE "2" "2" "0" "0" "H"
  | ERRCODE_STRING_DATA_LENGTH_MISMATCH => MAKE_SQLSTATE "2" "2" "0" "2" "6"
  | ERRCODE_STRING_DATA_RIGHT_TRUNCATION => MAKE_SQLSTATE "2" "2" "0" "0" "1"
  | ERRCODE_SUBSTRING_ERROR => MAKE_SQLSTATE "2" "2" "0" "1" "1"
  | ERRCODE_TRIM_ERROR => MAKE_SQLSTATE "2" "2" "0" "2" "7"
  | ERRCODE_UNTERMINATED_C_STRING => MAKE_SQLSTATE "2" "2" "0" "2" "4"
  | ERRCODE_ZERO_LENGTH_CHARACTER_STRING => MAKE_SQLSTATE "2" "2" "0" "0" "F"
  | ERRCODE_FLOATING_POINT_EXCEPTION => MAKE_SQLSTATE "2" "2" "P" "0" "1"
  | ERRCODE_INVALID_TEXT_REPRESENTATION => MAKE_SQLSTATE "2" "2" "P" "0" "2"
  | ERRCODE_INVALID_BINARY_REPRESENTATION => MAKE_SQLSTATE "2" "2" "P" "0" "3"
  | ERRCODE_BAD_COPY_FILE_FORMAT => MAKE_SQLSTATE "2" "2" "P" "0" "4"
  | ERRCODE_UNTRANSLATABLE_CHARACTER => MAKE_SQLSTATE "2" "2" "P" "0" "5"
  | ERRCODE_NOT_AN_XML_DOCUMENT => MAKE_SQLSTATE "2" "2" "0" "0" "L"
  | ERRCODE_INVALID_XML_DOCUMENT => MAKE_SQLSTATE "2" "2" "0" "0" "M"
  | ERRCODE_INVALID_XML_CONTENT => MAKE_SQLSTATE "2" "2" "0" "0" "N"
  | ERRCODE_INVALID_XML_COMMENT => MAKE_SQLSTATE "2" "2" "0" "0" "S"
  | ERRCODE_INVALID_XML_PROCESSING_INSTRUCTION => MAKE_SQLSTATE "2" "2" "0" "0" "T"
  | ERRCODE_DUPLICATE_JSON_OBJECT_KEY_VALUE => MAKE_SQLSTATE "2" "2" "0" "3" "0"
  | ERRCODE_INVALID_JSON_TEXT => MAKE_SQLSTATE "2" "2" "0" "3" "2"
  | ERRCODE_INVALID_SQL_JSON_SUBSCRIPT => MAKE_SQLSTATE "2" "2" "0" "3" "3"
  | ERRCODE_MORE_THAN_ONE_SQL_JSON_ITEM => MAKE_SQLSTATE "2" "2" "0" "3" "4"
  | ERRCODE_NO_SQL_JSON_ITEM => MAKE_SQLSTATE "2" "2" "0" "3" "5"
  | ERRCODE_NON_NUMERIC_SQL_JSON_ITEM => MAKE_SQLSTATE "2" "2" "0" "3" "6"
  | ERRCODE_NON_UNIQUE_KEYS_IN_A_JSON_OBJECT => MAKE_SQLSTATE "2" "2" "0" "3" "7"
  | ERRCODE_SINGLETON_SQL_JSON_ITEM_REQUIRED => MAKE_SQLSTATE "2" "2" "0" "3" "8"
  | ERRCODE_SQL_JSON_ARRAY_NOT_FOUND => MAKE_SQLSTATE "2" "2" "0" "3" "9"
  | ERRCODE_SQL_JSON_MEMBER_NOT_FOUND => MAKE_SQLSTATE "2" "2" "0" "3" "A"
  | ERRCODE_SQL_JSON_NUMBER_NOT_FOUND => MAKE_SQLSTATE "2" "2" "0" "3" "B"
  | ERRCODE_SQL_JSON_OBJECT_NOT_FOUND => MAKE_SQLSTATE "2" "2" "0" "3" "C"
  | ERRCODE_TOO_MANY_JSON_ARRAY_ELEMENTS => MAKE_SQLSTATE "2" "2" "0" "3" "D"
  | ERRCODE_TOO_MANY_JSON_OBJECT_MEMBERS => MAKE_SQLSTATE "2" "2" "0" "3" "E"
  | ERRCODE_SQL_JSON_SCALAR_REQUIRED => MAKE_SQLSTATE "2" "2" "0" "3" "F"
  | ERRCODE_INTEGRITY_CONSTRAINT_VIOLATION => MAKE_SQLSTATE "2" "3" "0" "0" "0"
  | ERRCODE_RESTRICT_VIOLATION => MAKE_SQLSTATE "2" "3" "0" "0" "1"
  | ERRCODE_NOT_NULL_VIOLATION => MAKE_SQLSTATE "2" "3" "5" "0" "2"
  | ERRCODE_FOREIGN_KEY_VIOLATION => MAKE_SQLSTATE "2" "3" "5" "0" "3"
  | ERRCODE_UNIQUE_VIOLATION => MAKE_SQLSTATE "2" "3" "5" "0" "5"
  | ERRCODE_CHECK_VIOLATION => MAKE_SQLSTATE "2" "3" "5" "1" "4"
  | ERRCODE_EXCLUSION_VIOLATION => MAKE_SQLSTATE "2" "3" "P" "0" "1"
  | ERRCODE_INVALID_CURSOR_STATE => MAKE_SQLSTATE "2" "4" "0" "0" "0"
  | ERRCODE_INVALID_TRANSACTION_STATE => MAKE_SQLSTATE "2" "5" "0" "0" "0"
  | ERRCODE_ACTIVE_SQL_TRANSACTION => MAKE_SQLSTATE "2" "5" "0" "0" "1"
  | ERRCODE_BRANCH_TRANSACTION_ALREADY_ACTIVE => MAKE_SQLSTATE "2" "5" "0" "0" "2"
  | ERRCODE_HELD_CURSOR_REQUIRES_SAME_ISOLATION_LEVEL => MAKE_SQLSTATE "2" "5" "0" "0" "8"
  | ERRCODE_INAPPROPRIATE_ACCESS_MODE_FOR_BRANCH_TRANSACTION => MAKE_SQLSTATE "2" "5" "0" "0" "3"
  | ERRCODE_INAPPROPRIATE_ISOLATION_LEVEL_FOR_BRANCH_TRANSACTION => MAKE_SQLSTATE "2" "5" "0" "0" "4"
  | ERRCODE_NO_ACTIVE_SQL_TRANSACTION_FOR_BRANCH_TRANSACTION => MAKE_SQLSTATE "2" "5" "0" "0" "5"
  | ERRCODE_READ_ONLY_SQL_TRANSACTION => MAKE_SQLSTATE "2" "5" "0" "0" "6"
  | ERRCODE_SCHEMA_AND_DATA_STATEMENT_MIXING_NOT_SUPPORTED => MAKE_SQLSTATE "2" "5" "0" "0" "7"
  | ERRCODE_NO_ACTIVE_SQL_TRANSACTION => MAKE_SQLSTATE "2" "5" "P" "0" "1"
  | ERRCODE_IN_FAILED_SQL_TRANSACTION => MAKE_SQLSTATE "2" "5" "P" "0" "2"
  | ERRCODE_IDLE_IN_TRANSACTION_SESSION_TIMEOUT => MAKE_SQLSTATE "2" "5" "P" "0" "3"
  | ERRCODE_INVALID_SQL_STATEMENT_NAME => MAKE_SQLSTATE "2" "6" "0" "0" "0"
  | ERRCODE_TRIGGERED_DATA_CHANGE_VIOLATION => MAKE_SQLSTATE "2" "7" "0" "0" "0"
  | ERRCODE_INVALID_AUTHORIZATION_SPECIFICATION => MAKE_SQLSTATE "2" "8" "0" "0" "0"
  | ERRCODE_INVALID_PASSWORD => MAKE_SQLSTATE "2" "8" "P" "0" "1"
  | ERRCODE_DEPENDENT_PRIVILEGE_DESCRIPTORS_STILL_EXIST => MAKE_SQLSTATE "2" "B" "0" "0" "0"
  | ERRCODE_DEPENDENT_OBJECTS_STILL_EXIST => MAKE_SQLSTATE "2" "B" "P" "0" "1"
  | ERRCODE_INVALID_TRANSACTION_TERMINATION => MAKE_SQLSTATE "2" "D" "0" "0" "0"
  | ERRCODE_SQL_ROUTINE_EXCEPTION => MAKE_SQLSTATE "2" "F" "0" "0" "0"
  | ERRCODE_S_R_E_FUNCTION_EXECUTED_NO_RETURN_STATEMENT => MAKE_SQLSTATE "2" "F" "0" "0" "5"
  | ERRCODE_S_R_E_MODIFYING_SQL_DATA_NOT_PERMITTED => MAKE_SQLSTATE "2" "F" "0" "0" "2"
  | ERRCODE_S_R_E_PROHIBITED_SQL_STATEMENT_ATTEMPTED => MAKE_SQLSTATE "2" "F" "0" "0" "3"
  | ERRCODE_S_R_E_READING_SQL_DATA_NOT_PERMITTED => MAKE_SQLSTATE "2" "F" "0" "0" "4"
  | ERRCODE_INVALID_CURSOR_NAME => MAKE_SQLSTATE "3" "4" "0" "0" "0"
  | ERRCODE_EXTERNAL_ROUTINE_EXCEPTION => MAKE_SQLSTATE "3" "8" "0" "0" "0"
  | ERRCODE_E_R_E_CONTAINING_SQL_NOT_PERMITTED => MAKE_SQLSTATE "3" "8" "0" "0" "1"
  | ERRCODE_E_R_E_MODIFYING_SQL_DATA_NOT_PERMITTED => MAKE_SQLSTATE "3" "8" "0" "0" "2"
  | ERRCODE_E_R_E_PROHIBITED_SQL_STATEMENT_ATTEMPTED => MAKE_SQLSTATE "3" "8" "0" "0" "3"
  | ERRCODE_E_R_E_READING_SQL_DATA_NOT_PERMITTED => MAKE_SQLSTATE "3" "8" "0" "0" "4"
  | ERRCODE_EXTERNAL_ROUTINE_INVOCATION_EXCEPTION => MAKE_SQLSTATE "3" "9" "0" "0" "0"
  | ERRCODE_E_R_I_E_INVALID_SQLSTATE_RETURNED => MAKE_SQLSTATE "3" "9" "0" "0" "1"
  | ERRCODE_E_R_I_E_NULL_VALUE_NOT_ALLOWED => MAKE_SQLSTATE "3" "9" "0" "0" "4"
  | ERRCODE_E_R_I_E_TRIGGER_PROTOCOL_VIOLATED => MAKE_SQLSTATE "3" "9" "P" "0" "1"
  | ERRCODE_E_R_I_E_SRF_PROTOCOL_VIOLATED => MAKE_SQLSTATE "3" "9" "P" "0" "2"
  | ERRCODE_E_R_I_E_EVENT_TRIGGER_PROTOCOL_VIOLATED => MAKE_SQLSTATE "3" "9" "P" "0" "3"
  | ERRCODE_SAVEPOINT_EXCEPTION => MAKE_SQLSTATE "3" "B" "0" "0" "0"
  | ERRCODE_S_E_INVALID_SPECIFICATION => MAKE_SQLSTATE "3" "B" "0" "0" "1"
  | ERRCODE_INVALID_CATALOG_NAME => MAKE_SQLSTATE "3" "D" "0" "0" "0"
  | ERRCODE_INVALID_SCHEMA_NAME => MAKE_SQLSTATE "3" "F" "0" "0" "0"
  | ERRCODE_TRANSACTION_ROLLBACK => MAKE_SQLSTATE "4" "0" "0" "0" "0"
  | ERRCODE_T_R_INTEGRITY_CONSTRAINT_VIOLATION => MAKE_SQLSTATE "4" "0" "0" "0" "2"
  | ERRCODE_T_R_SERIALIZATION_FAILURE => MAKE_SQLSTATE "4" "0" "0" "0" "1"
  | ERRCODE_T_R_STATEMENT_COMPLETION_UNKNOWN => MAKE_SQLSTATE "4" "0" "0" "0" "3"
  | ERRCODE_T_R_DEADLOCK_DETECTED => MAKE_SQLSTATE "4" "0" "P" "0" "1"
  | ERRCODE_SYNTAX_ERROR_OR_ACCESS_RULE_VIOLATION => MAKE_SQLSTATE "4" "2" "0" "0" "0"
  | ERRCODE_SYNTAX_ERROR => MAKE_SQLSTATE "4" "2" "6" "0" "1"
  | ERRCODE_INSUFFICIENT_PRIVILEGE => MAKE_SQLSTATE "4" "2" "5" "0" "1"
  | ERRCODE_CANNOT_COERCE => MAKE_SQLSTATE "4" "2" "8" "4" "6"
  | ERRCODE_GROUPING_ERROR => MAKE_SQLSTATE "4" "2" "8" "0" "3"
  | ERRCODE_WINDOWING_ERROR => MAKE_SQLSTATE "4" "2" "P" "2" "0"
  | ERRCODE_INVALID_RECURSION => MAKE_SQLSTATE "4" "2" "P" "1" "9"
  | ERRCODE_INVALID_FOREIGN_KEY => MAKE_SQLSTATE "4" "2" "8" "3" "0"
  | ERRCODE_INVALID_NAME => MAKE_SQLSTATE "4" "2" "6" "0" "2"
  | ERRCODE_NAME_TOO_LONG => MAKE_SQLSTATE "4" "2" "6" "2" "2"
  | ERRCODE_RESERVED_NAME => MAKE_SQLSTATE "4" "2" "9" "3" "9"
  | ERRCODE_DATATYPE_MISMATCH => MAKE_SQLSTATE "4" "2" "8" "0" "4"
  | ERRCODE_INDETERMINATE_DATATYPE => MAKE_SQLSTATE "4" "2" "P" "1" "8"
  | ERRCODE_COLLATION_MISMATCH => MAKE_SQLSTATE "4" "2" "P" "2" "1"
  | ERRCODE_INDETERMINATE_COLLATION => MAKE_SQLSTATE "4" "2" "P" "2" "2"
  | ERRCODE_WRONG_OBJECT_TYPE => MAKE_SQLSTATE "4" "2" "8" "0" "9"
  | ERRCODE_GENERATED_ALWAYS => MAKE_SQLSTATE "4" "2" "8" "C" "9"
  | ERRCODE_UNDEFINED_COLUMN => MAKE_SQLSTATE "4" "2" "7" "0" "3"
  | ERRCODE_UNDEFINED_FUNCTION => MAKE_SQLSTATE "4" "2" "8" "8" "3"
  | ERRCODE_UNDEFINED_TABLE => MAKE_SQLSTATE "4" "2" "P" "0" "1"
  | ERRCODE_UNDEFINED_PARAMETER => MAKE_SQLSTATE "4" "2" "P" "0" "2"
  | ERRCODE_UNDEFINED_OBJECT => MAKE_SQLSTATE "4" "2" "7" "0" "4"
  | ERRCODE_DUPLICATE_COLUMN => MAKE_SQLSTATE "4" "2" "7" "0" "1"
  | ERRCODE_DUPLICATE_CURSOR => MAKE_SQLSTATE "4" "2" "P" "0" "3"
  | ERRCODE_DUPLICATE_DATABASE => MAKE_SQLSTATE "4" "2" "P" "0" "4"
  | ERRCODE_DUPLICATE_FUNCTION => MAKE_SQLSTATE "4" "2" "7" "2" "3"
  | ERRCODE_DUPLICATE_PSTATEMENT => MAKE_SQLSTATE "4" "2" "P" "0" "5"
  | ERRCODE_DUPLICATE_SCHEMA => MAKE_SQLSTATE "4" "2" "P" "0" "6"
  | ERRCODE_DUPLICATE_TABLE => MAKE_SQLSTATE "4" "2" "P" "0" "7"
  | ERRCODE_DUPLICATE_ALIAS => MAKE_SQLSTATE "4" "2" "7" "1" "2"
  | ERRCODE_DUPLICATE_OBJECT => MAKE_SQLSTATE "4" "2" "7" "1" "0"
  | ERRCODE_AMBIGUOUS_COLUMN => MAKE_SQLSTATE "4" "2" "7" "0" "2"
  | ERRCODE_AMBIGUOUS_FUNCTION => MAKE_SQLSTATE "4" "2" "7" "2" "5"
  | ERRCODE_AMBIGUOUS_PARAMETER => MAKE_SQLSTATE "4" "2" "P" "0" "8"
  | ERRCODE_AMBIGUOUS_ALIAS => MAKE_SQLSTATE "4" "2" "P" "0" "9"
  | ERRCODE_INVALID_COLUMN_REFERENCE => MAKE_SQLSTATE "4" "2" "P" "1" "0"
  | ERRCODE_INVALID_COLUMN_DEFINITION => MAKE_SQLSTATE "4" "2" "6" "1" "1"
  | ERRCODE_INVALID_CURSOR_DEFINITION => MAKE_SQLSTATE "4" "2" "P" "1" "1"
  | ERRCODE_INVALID_DATABASE_DEFINITION => MAKE_SQLSTATE "4" "2" "P" "1" "2"
  | ERRCODE_INVALID_FUNCTION_DEFINITION => MAKE_SQLSTATE "4" "2" "P" "1" "3"
  | ERRCODE_INVALID_PSTATEMENT_DEFINITION => MAKE_SQLSTATE "4" "2" "P" "1" "4"
  | ERRCODE_INVALID_SCHEMA_DEFINITION => MAKE_SQLSTATE "4" "2" "P" "1" "5"
  | ERRCODE_INVALID_TABLE_DEFINITION => MAKE_SQLSTATE "4" "2" "P" "1" "6"
  | ERRCODE_INVALID_OBJECT_DEFINITION => MAKE_SQLSTATE "4" "2" "P" "1" "7"
  | ERRCODE_WITH_CHECK_OPTION_VIOLATION => MAKE_SQLSTATE "4" "4" "0" "0" "0"
  | ERRCODE_INSUFFICIENT_RESOURCES => MAKE_SQLSTATE "5" "3" "0" "0" "0"
  | ERRCODE_DISK_FULL => MAKE_SQLSTATE "5" "3" "1" "0" "0"
  | ERRCODE_OUT_OF_MEMORY => MAKE_SQLSTATE "5" "3" "2" "0" "0"
  | ERRCODE_TOO_MANY_CONNECTIONS => MAKE_SQLSTATE "5" "3" "3" "0" "0"
  | ERRCODE_CONFIGURATION_LIMIT_EXCEEDED => MAKE_SQLSTATE "5" "3" "4" "0" "0"
  | ERRCODE_PROGRAM_LIMIT_EXCEEDED => MAKE_SQLSTATE "5" "4" "0" "0" "0"
  | ERRCODE_STATEMENT_TOO_COMPLEX => MAKE_SQLSTATE "5" "4" "0" "0" "1"
  | ERRCODE_TOO_MANY_COLUMNS => MAKE_SQLSTATE "5" "4" "0" "1" "1"
  | ERRCODE_TOO_MANY_ARGUMENTS => MAKE_SQLSTATE "5" "4" "0" "2" "3"
  | ERRCODE_OBJECT_NOT_IN_PREREQUISITE_STATE => MAKE_SQLSTATE "5" "5" "0" "0" "0"
  | ERRCODE_OBJECT_IN_USE => MAKE_SQLSTATE "5" "5" "0" "0" "6"
  | ERRCODE_CANT_CHANGE_RUNTIME_PARAM => MAKE_SQLSTATE "5" "5" "P" "0" "2"
  | ERRCODE_LOCK_NOT_AVAILABLE => MAKE_SQLSTATE "5" "5" "P" "0" "3"
  | ERRCODE_UNSAFE_NEW_ENUM_VALUE_USAGE => MAKE_SQLSTATE "5" "5" "P" "0" "4"
  | ERRCODE_OPERATOR_INTERVENTION => MAKE_SQLSTATE "5" "7" "0" "0" "0"
  | ERRCODE_QUERY_CANCELED => MAKE_SQLSTATE "5" "7" "0" "1" "4"
  | ERRCODE_ADMIN_SHUTDOWN => MAKE_SQLSTATE "5" "7" "P" "0" "1"
  | ERRCODE_CRASH_SHUTDOWN => MAKE_SQLSTATE "5" "7" "P" "0" "2"
  | ERRCODE_CANNOT_CONNECT_NOW => MAKE_SQLSTATE "5" "7" "P" "0" "3"
  | ERRCODE_DATABASE_DROPPED => MAKE_SQLSTATE "5" "7" "P" "0" "4"
  | ERRCODE_SYSTEM_ERROR => MAKE_SQLSTATE "5" "8" "0" "0" "0"
  | ERRCODE_IO_ERROR => MAKE_SQLSTATE "5" "8" "0" "3" "0"
  | ERRCODE_UNDEFINED_FILE => MAKE_SQLSTATE "5" "8" "P" "0" "1"
  | ERRCODE_DUPLICATE_FILE => MAKE_SQLSTATE "5" "8" "P" "0" "2"
  | ERRCODE_SNAPSHOT_TOO_OLD => MAKE_SQLSTATE "7" "2" "0" "0" "0"
  | ERRCODE_CONFIG_FILE_ERROR => MAKE_SQLSTATE "F" "0" "0" "0" "0"
  | ERRCODE_LOCK_FILE_EXISTS => MAKE_SQLSTATE "F" "0" "0" "0" "1"
  | ERRCODE_FDW_ERROR => MAKE_SQLSTATE "H" "V" "0" "0" "0"
  | ERRCODE_FDW_COLUMN_NAME_NOT_FOUND => MAKE_SQLSTATE "H" "V" "0" "0" "5"
  | ERRCODE_FDW_DYNAMIC_PARAMETER_VALUE_NEEDED => MAKE_SQLSTATE "H" "V" "0" "0" "2"
  | ERRCODE_FDW_FUNCTION_SEQUENCE_ERROR => MAKE_SQLSTATE "H" "V" "0" "1" "0"
  | ERRCODE_FDW_INCONSISTENT_DESCRIPTOR_INFORMATION => MAKE_SQLSTATE "H" "V" "0" "2" "1"
  | ERRCODE_FDW_INVALID_ATTRIBUTE_VALUE => MAKE_SQLSTATE "H" "V" "0" "2" "4"
  | ERRCODE_FDW_INVALID_COLUMN_NAME => MAKE_SQLSTATE "H" "V" "0" "0" "7"
  | ERRCODE_FDW_INVALID_COLUMN_NUMBER => MAKE_SQLSTATE "H" "V" "0" "0" "8"
  | ERRCODE_FDW_INVALID_DATA_TYPE => MAKE_SQLSTATE "H" "V" "0" "0" "4"
  | ERRCODE_FDW_INVALID_DATA_TYPE_DESCRIPTORS => MAKE_SQLSTATE "H" "V" "0" "0" "6"
  | ERRCODE_FDW_INVALID_DESCRIPTOR_FIELD_IDENTIFIER => MAKE_SQLSTATE "H" "V" "0" "9" "1"
  | ERRCODE_FDW_INVALID_HANDLE => MAKE_SQLSTATE "H" "V" "0" "0" "B"
  | ERRCODE_FDW_INVALID_OPTION_INDEX => MAKE_SQLSTATE "H" "V" "0" "0" "C"
  | ERRCODE_FDW_INVALID_OPTION_NAME => MAKE_SQLSTATE "H" "V" "0" "0" "D"
  | ERRCODE_FDW_INVALID_STRING_LENGTH_OR_BUFFER_LENGTH => MAKE_SQLSTATE "H" "V" "0" "9" "0"
  | ERRCODE_FDW_INVALID_STRING_FORMAT => MAKE_SQLSTATE "H" "V" "0" "0" "A"
  | ERRCODE_FDW_INVALID_USE_OF_NULL_POINTER => MAKE_SQLSTATE "H" "V" "0" "0" "9"
  | ERRCODE_FDW_TOO_MANY_HANDLES => MAKE_SQLSTATE "H" "V" "0" "1" "4"
  | ERRCODE_FDW_OUT_OF_MEMORY => MAKE_SQLSTATE "H" "V" "0" "0" "1"
  | ERRCODE_FDW_NO_SCHEMAS => MAKE_SQLSTATE "H" "V" "0" "0" "P"
  | ERRCODE_FDW_OPTION_NAME_NOT_FOUND => MAKE_SQLSTATE "H" "V" "0" "0" "J"
  | ERRCODE_FDW_REPLY_HANDLE => MAKE_SQLSTATE "H" "V" "0" "0" "K"
  | ERRCODE_FDW_SCHEMA_NOT_FOUND => MAKE_SQLSTATE "H" "V" "0" "0" "Q"
  | ERRCODE_FDW_TABLE_NOT_FOUND => MAKE_SQLSTATE "H" "V" "0" "0" "R"
  | ERRCODE_FDW_UNABLE_TO_CREATE_EXECUTION => MAKE_SQLSTATE "H" "V" "0" "0" "L"
  | ERRCODE_FDW_UNABLE_TO_CREATE_REPLY => MAKE_SQLSTATE "H" "V" "0" "0" "M"
  | ERRCODE_FDW_UNABLE_TO_ESTABLISH_CONNECTION => MAKE_SQLSTATE "H" "V" "0" "0" "N"
  | ERRCODE_PLPGSQL_ERROR => MAKE_SQLSTATE "P" "0" "0" "0" "0"
  | ERRCODE_RAISE_EXCEPTION => MAKE_SQLSTATE "P" "0" "0" "0" "1"
  | ERRCODE_NO_DATA_FOUND => MAKE_SQLSTATE "P" "0" "0" "0" "2"
  | ERRCODE_TOO_MANY_ROWS => MAKE_SQLSTATE "P" "0" "0" "0" "3"
  | ERRCODE_ASSERT_FAILURE => MAKE_SQLSTATE "P" "0" "0" "0" "4"
  | ERRCODE_INTERNAL_ERROR => MAKE_SQLSTATE "X" "X" "0" "0" "0"
  | ERRCODE_DATA_CORRUPTED => MAKE_SQLSTATE "X" "X" "0" "0" "1"
  | ERRCODE_INDEX_CORRUPTED => MAKE_SQLSTATE "X" "X" "0" "0" "2"
  end.

(** The arms of the match, in order: each compares with the discriminant of a code. *)
Definition from_arms : list PgSqlErrorCode :=
  [ERRCODE_SUCCESSFUL_COMPLETION; ERRCODE_WARNING; ERRCODE_WARNING_DYNAMIC_RESULT_SETS_RETURNED;
   ERRCODE_WARNING_IMPLICIT_ZERO_BIT_PADDING; ERRCODE_WARNING_NULL_VALUE_ELIMINATED_IN_SET_FUNCTION;
   ERRCODE_WARNING_PRIVILEGE_NOT_GRANTED; ERRCODE_WARNING_PRIVILEGE_NOT_REVOKED;
   ERRCODE_WARNING_STRING_DATA_RIGHT_TRUNCATION; ERRCODE_WARNING_DEPRECATED_FEATURE; ERRCODE_NO_DATA;
   ERRCODE_NO_ADDITIONAL_DYNAMIC_RESULT_SETS_RETURNED; ERRCODE_SQL_STATEMENT_NOT_YET_COMPLETE;
   ERRCODE_CONNECTION_EXCEPTION; ERRCODE_CONNECTION_DOES_NOT_EXIST; ERRCODE_CONNECTION_FAILURE;
   ERRCODE_SQLCLIENT_UNABLE_TO_ESTABLISH_SQLCONNECTION;
   ERRCODE_SQLSERVER_REJECTED_ESTABLISHMENT_OF_SQLCONNECTION; ERRCODE_TRANSACTION_RESOLUTION_UNKNOWN;
   ERRCODE_PROTOCOL_VIOLATION; ERRCODE_TRIGGERED_ACTION_EXCEPTION; ERRCODE_FEATURE_NOT_SUPPORTED;
   ERRCODE_INVALID_TRANSACTION_INITIATION; ERRCODE_LOCATOR_EXCEPTION; ERRCODE_L_E_INVALID_SPECIFICATION;
   ERRCODE_INVALID_GRANTOR; ERRCODE_INVALID_GRANT_OPERATION; ERRCODE_INVALID_ROLE_SPECIFICATION;
   ERRCODE_DIAGNOSTICS_EXCEPTION; ERRCODE_STACKED_DIAGNOSTICS_ACCESSED_WITHOUT_ACTIVE_HANDLER;
   ERRCODE_CASE_NOT_FOUND; ERRCODE_CARDINALITY_VIOLATION; ERRCODE_DATA_EXCEPTION;
   ERRCODE_ARRAY_ELEMENT_ERROR; ERRCODE_CHARACTER_NOT_IN_REPERTOIRE; ERRCODE_DATETIME_FIELD_OVERFLOW;
   ERRCODE_DIVISION_BY_ZERO; ERRCODE_ERROR_IN_ASSIGNMENT; ERRCODE_ESCAPE_CHARACTER_CONFLICT;
   ERRCODE_INDICATOR_OVERFLOW; ERRCODE_INTERVAL_FIELD_OVERFLOW; ERRCODE_INVALID_ARGUMENT_FOR_LOG;
   ERRCODE_INVALID_ARGUMENT_FOR_NTILE; ERRCODE_INVALID_ARGUMENT_FOR_NTH_VALUE;
   ERRCODE_INVALID_ARGUMENT_FOR_POWER_FUNCTION; ERRCODE_INVALID_ARGUMENT_FOR_WIDTH_BUCKET_FUNCTION;
   ERRCODE_INVALID_CHARACTER_VALUE_FOR_CAST; ERRCODE_INVALID_DATETIME_FORMAT;
   ERRCODE_INVALID_ESCAPE_CHARACTER; ERRCODE_INVALID_ESCAPE_OCTET; ERRCODE_INVALID_ESCAPE_SEQUENCE;
   ERRCODE_NONSTANDARD_USE_OF_ESCAPE_CHARACTER; ERRCODE_INVALID_INDICATOR_PARAMETER_VALUE;
   ERRCODE_INVALID_PARAMETER_VALUE; ERRCODE_INVALID_PRECEDING_OR_FOLLOWING_SIZE;
   ERRCODE_INVALID_REGULAR_EXPRESSION; ERRCODE_INVALID_ROW_COUNT_IN_LIMIT_CLAUSE;
   ERRCODE_INVALID_ROW_COUNT_IN_RESULT_OFFSET_CLAUSE; ERRCODE_INVALID_TABLESAMPLE_ARGUMENT;
   ERRCODE_INVALID_TABLESAMPLE_REPEAT; ERRCODE_INVALID_TIME_ZONE_DISPLACEMENT_VALUE;
   ERRCODE_INVALID_USE_OF_ESCAPE_CHARACTER; ERRCODE_MOST_SPECIFIC_TYPE_MISMATCH;
   ERRCODE_NULL_VALUE_NOT_ALLOWED; ERRCODE_NULL_VALUE_NO_INDICATOR_PARAMETER;
   ERRCODE_NUMERIC_VALUE_OUT_OF_RANGE; ERRCODE_SEQUENCE_GENERATOR_LIMIT_EXCEEDED;
   ERRCODE_STRING_DATA_LENGTH_MISMATCH; ERRCODE_STRING_DATA_RIGHT_TRUNCATION; ERRCODE_SUBSTRING_ERROR;
   ERRCODE_TRIM_ERROR; ERRCODE_UNTERMINATED_C_STRING; ERRCODE_ZERO_LENGTH_CHARACTER_STRING;
   ERRCODE_FLOATING_POINT_EXCEPTION; ERRCODE_INVALID_TEXT_REPRESENTATION;
   ERRCODE_INVALID_BINARY_REPRESENTATION; ERRCODE_BAD_COPY_FILE_FORMAT; ERRCODE_UNTRANSLATABLE_CHARACTER;
   ERRCODE_NOT_AN_XML_DOCUMENT; ERRCODE_INVALID_XML_DOCUMENT; ERRCODE_INVALID_XML_CONTENT;
   ERRCODE_INVALID_XML_COMMENT; ERRCODE_INVALID_XML_PROCESSING_INSTRUCTION;
   ERRCODE_DUPLICATE_JSON_OBJECT_KEY_VALUE; ERRCODE_INVALID_JSON_TEXT; ERRCODE_INVALID_SQL_JSON_SUBSCRIPT;
   ERRCODE_MORE_THAN_ONE_SQL_JSON_ITEM; ERRCODE_NO_SQL_JSON_ITEM; ERRCODE_NON_NUMERIC_SQL_JSON_ITEM;
   ERRCODE_NON_UNIQUE_KEYS_IN_A_JSON_OBJECT; ERRCODE_SINGLETON_SQL_JSON_ITEM_REQUIRED;
   ERRCODE_SQL_JSON_ARRAY_NOT_FOUND; ERRCODE_SQL_JSON_MEMBER_NOT_FOUND; ERRCODE_SQL_JSON_NUMBER_NOT_FOUND;
   ERRCODE_SQL_JSON_OBJECT_NOT_FOUND; ERRCODE_TOO_MANY_JSON_ARRAY_ELEMENTS;
   ERRCODE_TOO_MANY_JSON_OBJECT_MEMBERS; ERRCODE_SQL_JSON_SCALAR_REQUIRED;
   ERRCODE_INTEGRITY_CONSTRAINT_VIOLATION; ERRCODE_RESTRICT_VIOLATION; ERRCODE_NOT_NULL_VIOLATION;
   ERRCODE_FOREIGN_KEY_VIOLATION; ERRCODE_UNIQUE_VIOLATION; ERRCODE_CHECK_VIOLATION;
   ERRCODE_EXCLUSION_VIOLATION; ERRCODE_INVALID_CURSOR_STATE; ERRCODE_INVALID_TRANSACTION_STATE;
   ERRCODE_ACTIVE_SQL_TRANSACTION; ERRCODE_BRANCH_TRANSACTION_ALREADY_ACTIVE;
   ERRCODE_HELD_CURSOR_REQUIRES_SAME_ISOLATION_LEVEL;
   ERRCODE_INAPPROPRIATE_ACCESS_MODE_FOR_BRANCH_TRANSACTION;
   ERRCODE_INAPPROPRIATE_ISOLATION_LEVEL_FOR_BRANCH_TRANSACTION;
   ERRCODE_NO_ACTIVE_SQL_TRANSACTION_FOR_BRANCH_TRANSACTION; ERRCODE_READ_ONLY_SQL_TRANSACTION;
   ERRCODE_SCHEMA_AND_DATA_STATEMENT_MIXING_NOT_SUPPORTED; ERRCODE_NO_ACTIVE_SQL_TRANSACTION;
   ERRCODE_IN_FAILED_SQL_TRANSACTION; ERRCODE_IDLE_IN_TRANSACTION_SESSION_TIMEOUT;
   ERRCODE_INVALID_SQL_STATEMENT_NAME; ERRCODE_TRIGGERED_DATA_CHANGE_VIOLATION;
   ERRCODE_INVALID_AUTHORIZATION_SPECIFICATION; ERRCODE_INVALID_PASSWORD;
   ERRCODE_DEPENDENT_PRIVILEGE_DESCRIPTORS_STILL_EXIST; ERRCODE_DEPENDENT_OBJECTS_STILL_EXIST;
   ERRCODE_INVALID_TRANSACTION_TERMINATION; ERRCODE_SQL_ROUTINE_EXCEPTION;
   ERRCODE_S_R_E_FUNCTION_EXECUTED_NO_RETURN_STATEMENT; ERRCODE_S_R_E_MODIFYING_SQL_DATA_NOT_PERMITTED;
   ERRCODE_S_R_E_PROHIBITED_SQL_STATEMENT_ATTEMPTED; ERRCODE_S_R_E_READING_SQL_DATA_NOT_PERMITTED;
   ERRCODE_INVALID_CURSOR_NAME; ERRCODE_EXTERNAL_ROUTINE_EXCEPTION;
   ERRCODE_E_R_E_CONTAINING_SQL_NOT_PERMITTED; ERRCODE_E_R_E_MODIFYING_SQL_DATA_NOT_PERMITTED;
   ERRCODE_E_R_E_PROHIBITED_SQL_STATEMENT_ATTEMPTED; ERRCODE_E_R_E_READING_SQL_DATA_NOT_PERMITTED;
   ERRCODE_EXTERNAL_ROUTINE_INVOCATION_EXCEPTION; ERRCODE_E_R_I_E_INVALID_SQLSTATE_RETURNED;
   ERRCODE_E_R_I_E_NULL_VALUE_NOT_ALLOWED; ERRCODE_E_R_I_E_TRIGGER_PROTOCOL_VIOLATED;
   ERRCODE_E_R_I_E_SRF_PROTOCOL_VIOLATED; ERRCODE_E_R_I_E_EVENT_TRIGGER_PROTOCOL_VIOLATED;
   ERRCODE_SAVEPOINT_EXCEPTION; ERRCODE_S_E_INVALID_SPECIFICATION; ERRCODE_INVALID_CATALOG_NAME;
   ERRCODE_INVALID_SCHEMA_NAME; ERRCODE_TRANSACTION_ROLLBACK; ERRCODE_T_R_INTEGRITY_CONSTRAINT_VIOLATION;
   ERRCODE_T_R_SERIALIZATION_FAILURE; ERRCODE_T_R_STATEMENT_COMPLETION_UNKNOWN;
   ERRCODE_T_R_DEADLOCK_DETECTED; ERRCODE_SYNTAX_ERROR_OR_ACCESS_RULE_VIOLATION; ERRCODE_SYNTAX_ERROR;
   ERRCODE_INSUFFICIENT_PRIVILEGE; ERRCODE_CANNOT_COERCE; ERRCODE_GROUPING_ERROR; ERRCODE_WINDOWING_ERROR;
   ERRCODE_INVALID_RECURSION; ERRCODE_INVALID_FOREIGN_KEY; ERRCODE_INVALID_NAME; ERRCODE_NAME_TOO_LONG;
   ERRCODE_RESERVED_NAME; ERRCODE_DATATYPE_MISMATCH; ERRCODE_INDETERMINATE_DATATYPE;
   ERRCODE_COLLATION_MISMATCH; ERRCODE_INDETERMINATE_COLLATION; ERRCODE_WRONG_OBJECT_TYPE;
   ERRCODE_GENERATED_ALWAYS; ERRCODE_UNDEFINED_COLUMN; ERRCODE_UNDEFINED_FUNCTION; ERRCODE_UNDEFINED_TABLE;
   ERRCODE_UNDEFINED_PARAMETER; ERRCODE_UNDEFINED_OBJECT; ERRCODE_DUPLICATE_COLUMN; ERRCODE_DUPLICATE_CURSOR;
   ERRCODE_DUPLICATE_DATABASE; ERRCODE_DUPLICATE_FUNCTION; ERRCODE_DUPLICATE_PSTATEMENT;
   ERRCODE_DUPLICATE_SCHEMA; ERRCODE_DUPLICATE_TABLE; ERRCODE_DUPLICATE_ALIAS; ERRCODE_DUPLICATE_OBJECT;
   ERRCODE_AMBIGUOUS_COLUMN; ERRCODE_AMBIGUOUS_FUNCTION; ERRCODE_AMBIGUOUS_PARAMETER;
   ERRCODE_AMBIGUOUS_ALIAS; ERRCODE_INVALID_COLUMN_REFERENCE; ERRCODE_INVALID_COLUMN_DEFINITION;
   ERRCODE_INVALID_CURSOR_DEFINITION; ERRCODE_INVALID_DATABASE_DEFINITION;
   ERRCODE_INVALID_FUNCTION_DEFINITION; ERRCODE_INVALID_PSTATEMENT_DEFINITION;
   ERRCODE_INVALID_SCHEMA_DEFINITION; ERRCODE_INVALID_TABLE_DEFINITION; ERRCODE_INVALID_OBJECT_DEFINITION;
   ERRCODE_WITH_CHECK_OPTION_VIOLATION; ERRCODE_INSUFFICIENT_RESOURCES; ERRCODE_DISK_FULL;
   ERRCODE_OUT_OF_MEMORY; ERRCODE_TOO_MANY_CONNECTIONS; ERRCODE_CONFIGURATION_LIMIT_EXCEEDED;
   ERRCODE_PROGRAM_LIMIT_EXCEEDED; ERRCODE_STATEMENT_TOO_COMPLEX; ERRCODE_TOO_MANY_COLUMNS;
   ERRCODE_TOO_MANY_ARGUMENTS; ERRCODE_OBJECT_NOT_IN_PREREQUISITE_STATE; ERRCODE_OBJECT_IN_USE;
   ERRCODE_CANT_CHANGE_RUNTIME_PARAM; ERRCODE_LOCK_NOT_AVAILABLE; ERRCODE_UNSAFE_NEW_ENUM_VALUE_USAGE;
   ERRCODE_OPERATOR_INTERVENTION; ERRCODE_QUERY_CANCELED; ERRCODE_ADMIN_SHUTDOWN; ERRCODE_CRASH_SHUTDOWN;
   ERRCODE_CANNOT_CONNECT_NOW; ERRCODE_DATABASE_DROPPED; ERRCODE_SYSTEM_ERROR; ERRCODE_IO_ERROR;
   ERRCODE_UNDEFINED_FILE; ERRCODE_DUPLICATE_FILE; ERRCODE_SNAPSHOT_TOO_OLD; ERRCODE_CONFIG_FILE_ERROR;
   ERRCODE_LOCK_FILE_EXISTS; ERRCODE_FDW_ERROR; ERRCODE_FDW_COLUMN_NAME_NOT_FOUND;
   ERRCODE_FDW_DYNAMIC_PARAMETER_VALUE_NEEDED; ERRCODE_FDW_FUNCTION_SEQUENCE_ERROR;
   ERRCODE_FDW_INCONSISTENT_DESCRIPTOR_INFORMATION; ERRCODE_FDW_INVALID_ATTRIBUTE_VALUE;
   ERRCODE_FDW_INVALID_COLUMN_NAME; ERRCODE_FDW_INVALID_COLUMN_NUMBER; ERRCODE_FDW_INVALID_DATA_TYPE;
   ERRCODE_FDW_INVALID_DATA_TYPE_DESCRIPTORS; ERRCODE_FDW_INVALID_DESCRIPTOR_FIELD_IDENTIFIER;
   ERRCODE_FDW_INVALID_HANDLE; ERRCODE_FDW_INVALID_OPTION_INDEX; ERRCODE_FDW_INVALID_OPTION_NAME;
   ERRCODE_FDW_INVALID_STRING_LENGTH_OR_BUFFER_LENGTH; ERRCODE_FDW_INVALID_STRING_FORMAT;
   ERRCODE_FDW_INVALID_USE_OF_NULL_POINTER; ERRCODE_FDW_TOO_MANY_HANDLES; ERRCODE_FDW_OUT_OF_MEMORY;
   ERRCODE_FDW_NO_SCHEMAS; ERRCODE_FDW_OPTION_NAME_NOT_FOUND; ERRCODE_FDW_REPLY_HANDLE;
   ERRCODE_FDW_SCHEMA_NOT_FOUND; ERRCODE_FDW_TABLE_NOT_FOUND; ERRCODE_FDW_UNABLE_TO_CREATE_EXECUTION;
   ERRCODE_FDW_UNABLE_TO_CREATE_REPLY; ERRCODE_FDW_UNABLE_TO_ESTABLISH_CONNECTION; ERRCODE_PLPGSQL_ERROR;
   ERRCODE_RAISE_EXCEPTION; ERRCODE_NO_DATA_FOUND; ERRCODE_TOO_MANY_ROWS; ERRCODE_ASSERT_FAILURE;
   ERRCODE_INTERNAL_ERROR; ERRCODE_DATA_CORRUPTED; ERRCODE_INDEX_CORRUPTED].

(** [From<isize>]: the first arm that matches, or [ERRCODE_INTERNAL_ERROR]. *)
Definition from_isize (error_code : Z) : PgSqlErrorCode :=
  match List.find (fun c => Z.eqb error_code (as_isize c)) from_arms with
  | Some c => c
  | None => ERRCODE_INTERNAL_ERROR
  end.

(** [From<i32>]; the cast to [isize] keeps the value. *)
Definition from_i32 (error_code : Z) : PgSqlErrorCode := from_isize error_code.

Lemma from_as_isize c : from_isize (as_isize c) = c.
Proof. destruct c; vm_compute; reflexivity. Qed.

#[export] Instance as_isize_inj : Inj (=) (=) as_isize.
Proof. intros a b Hab. rewrite <- (from_as_isize a), <- (from_as_isize b). by rewrite Hab. Qed.

#[export] Instance PgSqlErrorCode_eq_dec : EqDecision PgSqlErrorCode.
Proof.
  intros a b. refine (cast_if (decide (as_isize a = as_isize b))); [by apply (inj as_isize) | congruence].
Defined.

(** ** The five characters *)

(** What Postgres' [unpack_sql_state] prints for a code. *)
Definition unpack_sixbit (code shift : Z) : string :=
  String (ascii_of_N (Z.to_N (Z.land (Z.shiftr code shift) 63 + char_code "0"))) EmptyString.

Definition unpack_sql_state (code : Z) : string :=
  unpack_sixbit code 0 +:+ unpack_sixbit code 6 +:+ unpack_sixbit code 12
  +:+ unpack_sixbit code 18 +:+ unpack_sixbit code 24.

(** The characters of a SQLSTATE: digits and capital letters. *)
Definition sqlstate_chars : list string :=
  ["0"; "1"; "2"; "3"; "4"; "5"; "6"; "7"; "8"; "9"; "A"; "B"; "C"; "D"; "E"; "F"; "G"; "H"; "I"; "J";
   "K"; "L"; "M"; "N"; "O"; "P"; "Q"; "R"; "S"; "T"; "U"; "V"; "W"; "X"; "Y"; "Z"].

Definition sixbit (ch : string) : Z := PGSIXBIT (char_code ch).

Lemma sixbit_char ch :
  ch ∈ sqlstate_chars ->
  0 <= sixbit ch < 64 /\ String (ascii_of_N (Z.to_N (sixbit ch + char_code "0"))) EmptyString = ch.
Proof.
  intros Hch. repeat (apply elem_of_cons in Hch as [->|Hch]; [by vm_compute|]). by apply elem_of_nil in Hch.
Qed.

(** The pieces of a SQLSTATE, from the lowest. *)
Lemma make_sqlstate_digits c1 c2 c3 c4 c5 :
  c1 ∈ sqlstate_chars -> c2 ∈ sqlstate_chars -> c3 ∈ sqlstate_chars -> c4 ∈ sqlstate_chars ->
  c5 ∈ sqlstate_chars ->
  let code := MAKE_SQLSTATE c1 c2 c3 c4 c5 in
  0 <= code < 2 ^ 30
  /\ Z.land (Z.shiftr code 0) 63 = sixbit c1 /\ Z.land (Z.shiftr code 6) 63 = sixbit c2
  /\ Z.land (Z.shiftr code 12) 63 = sixbit c3 /\ Z.land (Z.shiftr code 18) 63 = sixbit c4
  /\ Z.land (Z.shiftr code 24) 63 = sixbit c5.
Proof.
  intros H1 H2 H3 H4 H5. apply sixbit_char in H1 as [H1 _], H2 as [H2 _], H3 as [H3 _], H4 as [H4 _], H5 as [H5 _].
  unfold MAKE_SQLSTATE. fold (sixbit c1) (sixbit c2) (sixbit c3) (sixbit c4) (sixbit c5).
  revert H1 H2 H3 H4 H5. generalize (sixbit c1) (sixbit c2) (sixbit c3) (sixbit c4) (sixbit c5).
  intros d1 d2 d3 d4 d5 H1 H2 H3 H4 H5. cbv zeta. rewrite !Z.shiftl_mul_pow2 by lia.
  split; [lia|]. change 63 with (Z.ones 6). rewrite !Z.land_ones, !Z.shiftr_div_pow2 by lia. cbn.
  split; [|split; [|split; [|split]]]; Z.to_euclidean_division_equations; lia.
Qed.

(** SQL error codes survive the trip through Postgres: a code comes back from
    the integer Postgres holds for it, an unknown integer is an internal error,
    and a SQLSTATE packed into an integer fits 30 bits and is unpacked to the
    same five characters. *)
Theorem sqlstate_round_trip :
  (forall c, from_i32 (as_isize c) = c)
  /\ (forall i, (forall c, i <> as_isize c) -> from_i32 i = ERRCODE_INTERNAL_ERROR)
  /\ forall c1 c2 c3 c4 c5, Forall (.∈ sqlstate_chars) [c1; c2; c3; c4; c5] ->
       0 <= MAKE_SQLSTATE c1 c2 c3 c4 c5 < 2 ^ 30
       /\ unpack_sql_state (MAKE_SQLSTATE c1 c2 c3 c4 c5) = c1 +:+ c2 +:+ c3 +:+ c4 +:+ c5.
Proof.
  split; [exact from_as_isize|]. split.
  - intros i Hi. unfold from_i32, from_isize.
    destruct (List.find _ _) as [c|] eqn:Ef; [|done]. apply List.find_some in Ef as [_ Ef].
    apply Z.eqb_eq in Ef. by destruct (Hi c).
  - intros c1 c2 c3 c4 c5 Hall. rewrite !Forall_cons in Hall. destruct Hall as (H1 & H2 & H3 & H4 & H5 & _).
    destruct (make_sqlstate_digits _ _ _ _ _ H1 H2 H3 H4 H5) as (Hr & E1 & E2 & E3 & E4 & E5).
    split; [done|]. unfold unpack_sql_state, unpack_sixbit. rewrite E1, E2, E3, E4, E5.
    by rewrite (proj2 (sixbit_char _ H1)), (proj2 (sixbit_char _ H2)), (proj2 (sixbit_char _ H3)),
      (proj2 (sixbit_char _ H4)), (proj2 (sixbit_char _ H5)).
Qed.
