(* ===== verification/PgError.v ===== *)
(** * Errors between Rust and Postgres

    The error machinery of [pgrx-pg-sys/src/submodules]: log levels ([elog.rs]),
    error reports, the panic payload and the guard around a Rust function called
    by Postgres ([panic.rs]), the barrier around a Postgres function called by
    Rust ([ffi.rs]), the check of the active thread ([thread_check.rs]) and
    [PgTryBuilder] ([pg_try.rs]).

    A computation changes Postgres' globals and ends in one of five ways: it
    returns, it unwinds (a Rust panic), it jumps (Postgres' [siglongjmp] to a
    buffer), it ends the process, or its behaviour is undefined.  Postgres' own
    functions are the operations of the class [Postgres], with what their
    documentation promises in [PostgresLaws]. *)
From S2P Require Import Prelude Text ErrCodes.
From stdpp Require Import list strings.
#[local] Set Warnings "-clear-no-such-hyp".
#[local] Open Scope Z_scope.

(** ** Log levels *)

Inductive pg_version := PG13 | PG14 | PG15 | PG16 | PG17 | PG18 | PG19.

#[export] Instance pg_version_eq_dec : EqDecision pg_version.
Proof. solve_decision. Defined.

Inductive PgLogLevel :=
| DEBUG5 | DEBUG4 | DEBUG3 | DEBUG2 | DEBUG1 | LOG | LOG_SERVER_ONLY | INFO | NOTICE | WARNING
| ERROR | FATAL | PANIC.

#[export] Instance PgLogLevel_eq_dec : EqDecision PgLogLevel.
Proof. solve_decision. Defined.

(** [level as isize], with the constants of each version's bindings. *)
Definition level_isize (v : pg_version) (l : PgLogLevel) : Z :=
  match l with
  | DEBUG5 => 10 | DEBUG4 => 11 | DEBUG3 => 12 | DEBUG2 => 13 | DEBUG1 => 14
  | LOG => 15 | LOG_SERVER_ONLY => 16 | INFO => 17 | NOTICE => 18 | WARNING => 19
  | ERROR => match v with PG13 => 20 | _ => 21 end
  | FATAL => match v with PG13 => 21 | _ => 22 end
  | PANIC => match v with PG13 => 22 | PG19 => 24 | _ => 23 end
  end.

(** [From<isize>]: the levels that are compared with, in order. *)
Definition level_arms : list PgLogLevel :=
  [DEBUG5; DEBUG4; DEBUG3; DEBUG2; DEBUG1; INFO; NOTICE; WARNING; ERROR; FATAL; PANIC].

Definition level_from (v : pg_version) (i : Z) : PgLogLevel :=
  match List.find (fun l => Z.eqb i (level_isize v l)) level_arms with
  | Some l => l
  | None => ERROR
  end.

(** ** Reports *)

(** A captured backtrace, or one that is not available, and its display. *)
Record Backtrace := { bt_captured : bool; bt_display : string }.

Record ErrorReportLocation := {
  loc_file : string;
  loc_funcname : option string;
  loc_line : Z;
  loc_col : Z;
  loc_backtrace : option Backtrace;
}.

Definition location_default : ErrorReportLocation :=
  {| loc_file := "<unknown>"; loc_funcname := None; loc_line := 0; loc_col := 0; loc_backtrace := None |}.

Definition set_backtrace (b : option Backtrace) (l : ErrorReportLocation) : ErrorReportLocation :=
  {| loc_file := loc_file l; loc_funcname := loc_funcname l; loc_line := loc_line l; loc_col := loc_col l;
     loc_backtrace := b |}.

Record ErrorReport := {
  er_sqlerrcode : PgSqlErrorCode;
  er_message : string;
  er_hint : option string;
  er_detail : option string;
  er_domain : option string;
  er_location : ErrorReportLocation;
}.

Definition set_location (l : ErrorReportLocation) (e : ErrorReport) : ErrorReport :=
  {| er_sqlerrcode := er_sqlerrcode e; er_message := er_message e; er_hint := er_hint e;
     er_detail := er_detail e; er_domain := er_domain e; er_location := l |}.

Record ErrorReportWithLevel := { rl_level : PgLogLevel; rl_inner : ErrorReport }.

(** [ErrorReport::new] and [with_location]; the caller's location is an argument. *)
Definition with_location (sqlerrcode : PgSqlErrorCode) (message : string) (location : ErrorReportLocation)
    : ErrorReport :=
  {| er_sqlerrcode := sqlerrcode; er_message := message; er_hint := None; er_detail := None;
     er_domain := None; er_location := location |}.

Definition error_report_new (caller : ErrorReportLocation) (sqlerrcode : PgSqlErrorCode)
    (message funcname : string) : ErrorReport :=
  with_location sqlerrcode message
    {| loc_file := loc_file caller; loc_funcname := Some funcname; loc_line := loc_line caller;
       loc_col := loc_col caller; loc_backtrace := None |}.

Definition set_detail (detail : string) (e : ErrorReport) : ErrorReport :=
  {| er_sqlerrcode := er_sqlerrcode e; er_message := er_message e; er_hint := er_hint e;
     er_detail := Some detail; er_domain := er_domain e; er_location := er_location e |}.

Definition set_hint (hint : string) (e : ErrorReport) : ErrorReport :=
  {| er_sqlerrcode := er_sqlerrcode e; er_message := er_message e; er_hint := Some hint;
     er_detail := er_detail e; er_domain := er_domain e; er_location := er_location e |}.

Definition set_domain (domain : string) (e : ErrorReport) : ErrorReport :=
  {| er_sqlerrcode := er_sqlerrcode e; er_message := er_message e; er_hint := er_hint e;
     er_detail := er_detail e; er_domain := Some domain; er_location := er_location e |}.

Definition captured (b : option Backtrace) : option string :=
  match b with Some bt => if bt_captured bt then Some (bt_display bt) else None | None => None end.

Definition detail_with_backtrace (r : ErrorReportWithLevel) : option string :=
  match er_detail (rl_inner r), captured (loc_backtrace (er_location (rl_inner r))) with
  | Some detail, Some bt => Some (detail +:+ nl +:+ bt)
  | Some d, None => Some d
  | None, Some bt => Some (nl +:+ bt)
  | None, None => None
  end.

(** What was caught, and what a panic carries: a [Box<dyn Any + Send>] of a type
    the code looks for, or of another one. *)
Inductive CaughtError :=
| PostgresError (e : ErrorReportWithLevel)
| CaughtReport (e : ErrorReportWithLevel)
| RustPanic (ereport : ErrorReportWithLevel) (payload : Payload)
with Payload :=
| BoxCaughtError (c : CaughtError)
| BoxErrorReportWithLevel (e : ErrorReportWithLevel)
| BoxErrorReport (e : ErrorReport)
| BoxStr (s : string)
| BoxString (s : string)
| BoxOther.

(** The fields of Postgres' [ErrorData] the code reads, a null pointer being
    [None], and the context, which it does not. *)
Record ErrorData := {
  ed_elevel : Z;
  ed_sqlerrcode : Z;
  ed_message : option string;
  ed_detail : option string;
  ed_hint : option string;
  ed_domain : option string;
  ed_funcname : option string;
  ed_filename : option string;
  ed_lineno : Z;
  ed_context : option string;
}.

(** [String::from_utf8_lossy]: U+FFFD for each maximal ill-formed prefix. *)
Definition replacement_char : bytes := map u8_of_Z [0xEF; 0xBF; 0xBD].

Fixpoint utf8_lossy (bs : bytes) : bytes :=
  match bs with
  | [] => []
  | b0 :: r0 =>
      let x := u8_to_Z b0 in
      if x <? 0x80 then b0 :: utf8_lossy r0
      else match r0 with
      | [] => replacement_char
      | b1 :: r1 =>
          if in_range 0xC2 0xDF x then
            if utf8_cont b1 then b0 :: b1 :: utf8_lossy r1 else replacement_char ++ utf8_lossy r0
          else if (in_range 0xE0 0xEF x && utf8_second3 x b1) || (in_range 0xF0 0xF4 x && utf8_second4 x b1)
          then match r1 with
          | [] => replacement_char
          | b2 :: r2 =>
              if negb (utf8_cont b2) then replacement_char ++ utf8_lossy r1
              else if in_range 0xE0 0xEF x then b0 :: b1 :: b2 :: utf8_lossy r2
              else match r2 with
              | [] => replacement_char
              | b3 :: r3 =>
                  if utf8_cont b3 then b0 :: b1 :: b2 :: b3 :: utf8_lossy r3
                  else replacement_char ++ utf8_lossy r2
              end
          end
          else replacement_char ++ utf8_lossy r0
      end
  end.

Definition to_string_lossy (s : string) : string := of_bytes (utf8_lossy (as_bytes s)).

(** A Rust string as a C string: what a reader sees of it, up to the first NUL. *)
Fixpoint c_str (s : string) : string :=
  match s with
  | EmptyString => EmptyString
  | String c rest => if Ascii.eqb c "000" then EmptyString else String c (c_str rest)
  end.

Definition has_nul (s : string) : bool := contains (String "000" EmptyString) s.

(** Well-formed text is kept. *)
Lemma utf8_lossy_valid bs : utf8_valid bs = true -> utf8_lossy bs = bs.
Proof.
  induction bs as [[|b0 r0] IH] using (induction_ltof1 _ (@length byte)); [done|]. unfold ltof in IH.
  cbn [utf8_valid utf8_lossy]. destruct (u8_to_Z b0 <? 0x80) eqn:E0.
  - intros Hv. f_equal. apply IH; [cbn; lia | done].
  - destruct r0 as [|b1 r1]; [done|]. destruct (in_range 0xC2 0xDF (u8_to_Z b0)) eqn:E1.
    + intros [-> Hv]%andb_prop. do 2 f_equal. apply IH; [cbn; lia | done].
    + destruct r1 as [|b2 r2]; [done|]. destruct (in_range 0xE0 0xEF (u8_to_Z b0)) eqn:E2.
      * intros [[-> ->]%andb_prop Hv]%andb_prop. cbn. do 3 f_equal. apply IH; [cbn; lia | done].
      * destruct r2 as [|b3 r3]; [done|].
        intros [[[[-> ->]%andb_prop ->]%andb_prop ->]%andb_prop Hv]%andb_prop. cbn.
        do 4 f_equal. apply IH; [cbn; lia | done].
Qed.

Lemma to_string_lossy_valid s : utf8_valid (as_bytes s) = true -> to_string_lossy s = s.
Proof. intros Hv. unfold to_string_lossy. rewrite utf8_lossy_valid by done. apply of_as_bytes. Qed.

(** ** The machine *)

Section Machine.
(** The state of the program itself, which closures may use. *)
Context {U : Type}.

Record world := {
  CurrentMemoryContext : Z;
  ErrorContext : Z;
  PG_exception_stack : Z;
  error_context_stack : Z;
  InterruptHoldoffCount : Z;
  (** Postgres' stack of errors in progress, the newest first *)
  errordata : list ErrorData;
  PANIC_LOCATION : option ErrorReportLocation;
  ACTIVE_THREAD : Z;
  ATFORK_REGISTERED : bool;
  user : U;
}.

Definition set_CurrentMemoryContext (x : Z) (w : world) : world :=
  {| CurrentMemoryContext := x; ErrorContext := ErrorContext w; PG_exception_stack := PG_exception_stack w;
     error_context_stack := error_context_stack w; InterruptHoldoffCount := InterruptHoldoffCount w;
     errordata := errordata w; PANIC_LOCATION := PANIC_LOCATION w; ACTIVE_THREAD := ACTIVE_THREAD w;
     ATFORK_REGISTERED := ATFORK_REGISTERED w; user := user w |}.

Definition set_stacks (exception_stack context_stack : Z) (w : world) : world :=
  {| CurrentMemoryContext := CurrentMemoryContext w; ErrorContext := ErrorContext w;
     PG_exception_stack := exception_stack; error_context_stack := context_stack;
     InterruptHoldoffCount := InterruptHoldoffCount w;
     errordata := errordata w; PANIC_LOCATION := PANIC_LOCATION w; ACTIVE_THREAD := ACTIVE_THREAD w;
     ATFORK_REGISTERED := ATFORK_REGISTERED w; user := user w |}.

Definition set_holdoff (x : Z) (w : world) : world :=
  {| CurrentMemoryContext := CurrentMemoryContext w; ErrorContext := ErrorContext w;
     PG_exception_stack := PG_exception_stack w; error_context_stack := error_context_stack w;
     InterruptHoldoffCount := x;
     errordata := errordata w; PANIC_LOCATION := PANIC_LOCATION w; ACTIVE_THREAD := ACTIVE_THREAD w;
     ATFORK_REGISTERED := ATFORK_REGISTERED w; user := user w |}.

Definition set_errordata (x : list ErrorData) (w : world) : world :=
  {| CurrentMemoryContext := CurrentMemoryContext w; ErrorContext := ErrorContext w;
     PG_exception_stack := PG_exception_stack w; error_context_stack := error_context_stack w;
     InterruptHoldoffCount := InterruptHoldoffCount w;
     errordata := x; PANIC_LOCATION := PANIC_LOCATION w; ACTIVE_THREAD := ACTIVE_THREAD w;
     ATFORK_REGISTERED := ATFORK_REGISTERED w; user := user w |}.

Definition set_panic_location (x : option ErrorReportLocation) (w : world) : world :=
  {| CurrentMemoryContext := CurrentMemoryContext w; ErrorContext := ErrorContext w;
     PG_exception_stack := PG_exception_stack w; error_context_stack := error_context_stack w;
     InterruptHoldoffCount := InterruptHoldoffCount w;
     errordata := errordata w; PANIC_LOCATION := x; ACTIVE_THREAD := ACTIVE_THREAD w;
     ATFORK_REGISTERED := ATFORK_REGISTERED w; user := user w |}.

Definition set_thread (thread : Z) (registered : bool) (w : world) : world :=
  {| CurrentMemoryContext := CurrentMemoryContext w; ErrorContext := ErrorContext w;
     PG_exception_stack := PG_exception_stack w; error_context_stack := error_context_stack w;
     InterruptHoldoffCount := InterruptHoldoffCount w;
     errordata := errordata w; PANIC_LOCATION := PANIC_LOCATION w; ACTIVE_THREAD := thread;
     ATFORK_REGISTERED := registered; user := user w |}.

Definition set_user (x : U) (w : world) : world :=
  {| CurrentMemoryContext := CurrentMemoryContext w; ErrorContext := ErrorContext w;
     PG_exception_stack := PG_exception_stack w; error_context_stack := error_context_stack w;
     InterruptHoldoffCount := InterruptHoldoffCount w;
     errordata := errordata w; PANIC_LOCATION := PANIC_LOCATION w; ACTIVE_THREAD := ACTIVE_THREAD w;
     ATFORK_REGISTERED := ATFORK_REGISTERED w; user := x |}.

Inductive exit (A : Type) : Type :=
| Returned (a : A)
| Unwinding (payload : Payload)
| Longjmp (buffer : Z)
| Terminated
| Undefined.
#[global] Arguments Returned {A} a.
#[global] Arguments Unwinding {A} payload.
#[global] Arguments Longjmp {A} buffer.
#[global] Arguments Terminated {A}.
#[global] Arguments Undefined {A}.

Definition M (A : Type) : Type := world -> exit A * world.

#[global] Instance m_ret : MRet M := fun A a w => (Returned a, w).
#[global] Instance m_bind : MBind M := fun A B f m w =>
  match m w with
  | (Returned a, w') => f a w'
  | (Unwinding p, w') => (Unwinding p, w')
  | (Longjmp b, w') => (Longjmp b, w')
  | (Terminated, w') => (Terminated, w')
  | (Undefined, w') => (Undefined, w')
  end.

Definition get {A} (f : world -> A) : M A := fun w => (Returned (f w), w).
Definition modify (f : world -> world) : M unit := fun w => (Returned tt, f w).
Definition undefined {A} : M A := fun w => (Undefined, w).

(** [catch_unwind] and [resume_unwind], which does not call the panic hook. *)
Definition catch_unwind {A} (f : M A) : M (A + Payload) := fun w =>
  match f w with
  | (Returned a, w') => (Returned (inl a), w')
  | (Unwinding p, w') => (Returned (inr p), w')
  | (Longjmp b, w') => (Longjmp b, w')
  | (Terminated, w') => (Terminated, w')
  | (Undefined, w') => (Undefined, w')
  end.

Definition resume_unwind {A} (p : Payload) : M A := fun w => (Unwinding p, w).

(** ** Postgres *)

Class Postgres := {
  errstart : Z -> option string -> M bool;
  errcode : Z -> M unit;
  errmsg : string -> M unit;
  errdetail : string -> M unit;
  errhint : string -> M unit;
  errcontext_msg : string -> M unit;
  errfinish : string -> Z -> option string -> M unit;
  c_CopyErrorData : M ErrorData;
  c_FreeErrorData : ErrorData -> M unit;
  c_FlushErrorState : M unit;
  pg_re_throw : M Empty_set;
  c_palloc0 : Z -> M Z;
  c_pfree : Z -> M unit;
  (** the domain [errstart] stores for a null one, and what [errfinish] keeps of a
      file name *)
  PG_TEXTDOMAIN : string;
  base_name : string -> string;
}.

End Machine.

Arguments world U : clear implicits.
Arguments M U A : clear implicits.
Arguments Postgres U : clear implicits.

Definition as_i32 (z : Z) : Z :=
  let m := z mod 2 ^ 32 in if m <? 2 ^ 31 then m else m - 2 ^ 32.

Definition wrap_u32 (z : Z) : Z := z mod 2 ^ 32.

(** What the code is run on: the Postgres version, the address that stands for
    the running thread, whether the operating system says it is the main one, the
    place of each [panic!] of the modelled code, what capturing a backtrace gives,
    and the address of the jump buffer of a frame, by that of the enclosing one. *)
Record platform := {
  version : pg_version;
  thread_id : Z;
  is_os_main_thread : option bool;
  site : string -> ErrorReportLocation;
  capture : Backtrace;
  jmp_buf : Z -> Z;
}.

Section Code.
Context {U : Type} `{!Postgres U}.
Variable (env : platform).

Abbreviation M := (M U).

(** ** Panics *)

(** [panic_any] at a place, with the hook of [register_pg_guard_panic_hook]: the
    place is remembered, with a backtrace. *)
Definition panic_hook (info : ErrorReportLocation) : M unit :=
  modify (set_panic_location (Some (set_backtrace (Some (capture env)) info))).

Definition panic_any {A} (at_ : ErrorReportLocation) (payload : Payload) : M A :=
  _ ← panic_hook at_; resume_unwind payload.

Definition take_panic_location : M ErrorReportLocation :=
  location ← get (fun w => default location_default (PANIC_LOCATION w));
  _ ← modify (set_panic_location None);
  mret location.

(** ** The active thread *)

Definition thread_id_check_failed {A} : M A :=
  if decide (is_os_main_thread env = Some true)
  then panic_any (site env "assert_ne") (BoxString "`pgrx` active thread is not the main thread!?")
  else panic_any (site env "thread_id_check_failed")
         (BoxString "postgres FFI may not be called from multiple threads.").

(** [compare_exchange(0, tid)]: registers the fork handler once. *)
Definition init_active_thread (tid : Z) : M unit :=
  active ← get ACTIVE_THREAD;
  if Z.eqb active 0 then modify (set_thread tid true) else thread_id_check_failed.

Definition check_active_thread : M unit :=
  active ← get ACTIVE_THREAD;
  if Z.eqb active 0 then init_active_thread (thread_id env)
  else if Z.eqb (thread_id env) active then mret tt
  else thread_id_check_failed.

Definition active_thread_clear : M unit := modify (fun w => set_thread 0 (ATFORK_REGISTERED w) w).

(** ** Postgres called by Rust *)

(** [call_with_sigsetjmp]: 0, or the value of a jump to this buffer. *)
Definition call_with_sigsetjmp {T} (jump_buffer : Z) (callback : M T) : M (option T) := fun w =>
  match callback w with
  | (Returned a, w') => (Returned (Some a), w')
  | (Longjmp b, w') => if Z.eqb b jump_buffer then (Returned None, w') else (Longjmp b, w')
  | (Unwinding p, w') => (Unwinding p, w')
  | (Terminated, w') => (Terminated, w')
  | (Undefined, w') => (Undefined, w')
  end.

(** A field of the error, or its default when the pointer is null. *)
Definition report_of (errdata : ErrorData) : ErrorReportWithLevel :=
  {| rl_level := level_from (version env) (ed_elevel errdata);
     rl_inner :=
       {| er_sqlerrcode := from_i32 (ed_sqlerrcode errdata);
          er_message := match ed_message errdata with
                        | None => "<null error message>"
                        | Some m => to_string_lossy m
                        end;
          er_hint := option_map to_string_lossy (ed_hint errdata);
          er_detail := option_map to_string_lossy (ed_detail errdata);
          er_domain := option_map to_string_lossy (ed_domain errdata);
          er_location :=
            {| loc_file := match ed_filename errdata with
                           | None => "<null filename>"
                           | Some f => to_string_lossy f
                           end;
               loc_funcname := option_map to_string_lossy (ed_funcname errdata);
               loc_line := wrap_u32 (ed_lineno errdata); loc_col := 0; loc_backtrace := None |} |} |}.

(** The functions of the bindings are called through the boundary too, those that
    copy and free the error included: [fuel] bounds how often an error while an
    error is copied is followed. *)
Fixpoint pg_guard_ffi_boundary_impl (fuel : nat) {T : Type} (f : M T) {struct fuel} : M T :=
  match fuel with
  | O => undefined
  | S fuel =>
      _ ← check_active_thread;
      caller_memxct ← get CurrentMemoryContext;
      prev_exception_stack ← get PG_exception_stack;
      prev_error_context_stack ← get error_context_stack;
      let jump_buffer := jmp_buf env prev_exception_stack in
      result ← call_with_sigsetjmp jump_buffer
        (_ ← modify (fun w => set_stacks jump_buffer (error_context_stack w) w); f);
      match result with
      | Some value =>
          _ ← modify (set_stacks prev_exception_stack prev_error_context_stack);
          mret value
      | None =>
          _ ← modify (set_CurrentMemoryContext caller_memxct);
          errdata ← pg_guard_ffi_boundary_impl fuel c_CopyErrorData;
          _ ← pg_guard_ffi_boundary_impl fuel (c_FreeErrorData errdata);
          _ ← modify (set_stacks prev_exception_stack prev_error_context_stack);
          panic_any (site env "pg_guard_ffi_boundary_impl")
            (BoxCaughtError (PostgresError (report_of errdata)))
      end
  end.

Definition pg_guard_ffi_boundary {T} (f : M T) : M T := pg_guard_ffi_boundary_impl 3 f.

(** Functions of the bindings, as [#[pg_guard]] rewrites their extern blocks. *)
Definition FlushErrorState : M unit := pg_guard_ffi_boundary c_FlushErrorState.
Definition palloc0 (size : Z) : M Z := pg_guard_ffi_boundary (c_palloc0 size).
Definition pfree (pointer : Z) : M unit := pg_guard_ffi_boundary (c_pfree pointer).

(** ** Reporting to Postgres *)

Definition MemoryContextSwitchTo (context : Z) : M Z :=
  old ← get CurrentMemoryContext;
  _ ← modify (set_CurrentMemoryContext context);
  mret old.

(** A C string in a chunk of Postgres' memory: its address, and what is read from
    it, up to the first NUL. *)
Record CString := { c_ptr : Z; c_text : string }.

(** [AsPgCStr]; the null pointer is [None]. *)
Definition as_pg_cstr (s : string) : M CString :=
  pg_cstr ← palloc0 (Z.of_nat (String.length s) + 1);
  mret {| c_ptr := pg_cstr; c_text := c_str s |}.

Definition option_as_pg_cstr (o : option string) : M (option CString) :=
  match o with
  | Some s => c ← as_pg_cstr s; mret (Some c)
  | None => mret None
  end.

(** [if !text.is_null()]: the text is said, and freed. *)
Definition say (text : option CString) (f : string -> M unit) : M unit :=
  match text with
  | Some c => _ ← f (c_text c); pfree (c_ptr c)
  | None => mret tt
  end.

Definition free (text : option CString) : M unit :=
  match text with Some c => pfree (c_ptr c) | None => mret tt end.

Definition context_message (r : ErrorReportWithLevel) : option string := None.

Definition at_least_error (level : PgLogLevel) : bool :=
  level_isize (version env) ERROR <=? level_isize (version env) level.

(** The domain as a C string, if there is one. *)
Definition domain_cstring (inner : ErrorReport) : M (option string) :=
  match er_domain inner with
  | Some d =>
      if has_nul d
      then panic_any (site env "do_ereport") (BoxString "domain must not contain interior NUL bytes")
      else mret (Some d)
  | None => mret None
  end.

(** What [do_ereport] does once [errstart] wants the report.  The texts are allocated
    and freed through the boundary, as every function of the bindings is called. *)
Definition ereport_text (ereport : ErrorReportWithLevel) (start : bool) : M unit :=
  let inner := rl_inner ereport in
  let level := rl_level ereport in
  if start then
    message ← as_pg_cstr (er_message inner);
    detail ← option_as_pg_cstr (detail_with_backtrace ereport);
    hint ← option_as_pg_cstr (er_hint inner);
    context ← option_as_pg_cstr (context_message ereport);
    error_context ← get ErrorContext;
    prev_cxt ← MemoryContextSwitchTo error_context;
    file ← as_pg_cstr (loc_file (er_location inner));
    funcname ← option_as_pg_cstr (loc_funcname (er_location inner));
    _ ← MemoryContextSwitchTo prev_cxt;
    _ ← errcode (as_isize (er_sqlerrcode inner));
    _ ← say (Some message) errmsg;
    _ ← say detail errdetail;
    _ ← say hint errhint;
    _ ← say context errcontext_msg;
    _ ← (if at_least_error level then active_thread_clear else mret tt);
    _ ← errfinish (c_text file) (as_i32 (loc_line (er_location inner))) (option_map c_text funcname);
    if at_least_error level then undefined
    else if decide (version env = PG19) then mret tt
    else _ ← free (Some file); free funcname
  else mret tt.

Definition do_ereport (ereport : ErrorReportWithLevel) : M unit :=
  let inner := rl_inner ereport in
  let level := rl_level ereport in
  _ ← check_active_thread;
  domain ← domain_cstring inner;
  start ← errstart (level_isize (version env) level) domain;
  ereport_text ereport start.

(** [ErrorReportWithLevel::report] and [ErrorReport::report] *)
Definition report_with_level (at_ : ErrorReportLocation) (r : ErrorReportWithLevel) : M unit :=
  let hold_off := modify (fun w => set_holdoff (wrap_u32 (InterruptHoldoffCount w + 1)) w) in
  match rl_level r with
  | ERROR => panic_any at_ (BoxErrorReportWithLevel r)
  | FATAL | PANIC =>
      _ ← hold_off;
      _ ← do_ereport r;
      panic_any (site env "report") (BoxStr "internal error: entered unreachable code")
  | _ =>
      _ ← hold_off;
      _ ← do_ereport r;
      count ← get InterruptHoldoffCount;
      if 0 <? count then modify (set_holdoff (count - 1))
      else panic_any (site env "report") (BoxStr "assertion failed: crate::InterruptHoldoffCount > 0")
  end.

Definition report (at_ : ErrorReportLocation) (e : ErrorReport) (level : PgLogLevel) : M unit :=
  report_with_level at_ {| rl_level := level; rl_inner := e |}.

(** [ereport!(ERROR, ..)], which ends in [unreachable!()]. *)
Definition ereport_error {A} (at_ : ErrorReportLocation) (e : ErrorReport) : M A :=
  _ ← report at_ e ERROR;
  panic_any (site env "ereport") (BoxStr "internal error: entered unreachable code").

(** [Result::unwrap_or_report]: the error is an [ErrorReport], or its display is
    raised as a data exception. *)
Definition unwrap_or_report {A} (at_ : ErrorReportLocation) (funcname : string)
    (r : A + (ErrorReport + string)) : M A :=
  match r with
  | inl a => mret a
  | inr (inl e) => ereport_error at_ e
  | inr (inr display) =>
      ereport_error at_ (error_report_new at_ ERRCODE_DATA_EXCEPTION display funcname)
  end.

(** ** Catching *)

(** A panic that is not a report is an internal error at its place. *)
Definition rust_panic (message : string) (payload : Payload) : M CaughtError :=
  location ← take_panic_location;
  mret (RustPanic {| rl_level := ERROR; rl_inner := with_location ERRCODE_INTERNAL_ERROR message location |}
          payload).

Definition downcast_panic_payload (e : Payload) : M CaughtError :=
  match e with
  | BoxCaughtError (PostgresError ereport) =>
      let location := er_location (rl_inner ereport) in
      match loc_backtrace location with
      | Some _ => mret (PostgresError ereport)
      | None =>
          panic_location ← take_panic_location;
          mret (PostgresError
            {| rl_level := rl_level ereport;
               rl_inner := set_location (set_backtrace (loc_backtrace panic_location) location)
                             (rl_inner ereport) |})
      end
  | BoxCaughtError caught => mret caught
  | BoxErrorReportWithLevel r => mret (CaughtReport r)
  | BoxErrorReport inner => mret (CaughtReport {| rl_level := ERROR; rl_inner := inner |})
  | BoxStr message => rust_panic message e
  | BoxString message => rust_panic message e
  | BoxOther => rust_panic "Box<Any>" e
  end.

Definition rethrow {A} (c : CaughtError) : M A := resume_unwind (BoxCaughtError c).

(** ** Rust called by Postgres *)

Inductive GuardAction (R : Type) : Type :=
| Return (r : R)
| ReThrow
| Report (e : ErrorReportWithLevel).
#[global] Arguments Return {R} r.
#[global] Arguments ReThrow {R}.
#[global] Arguments Report {R} e.

Definition run_guarded {R} (f : M R) : M (GuardAction R) :=
  caught ← catch_unwind f;
  match caught with
  | inl v => mret (Return v)
  | inr e =>
      error ← downcast_panic_payload e;
      mret match error with
           | PostgresError _ => ReThrow
           | CaughtReport ereport | RustPanic ereport _ => Report ereport
           end
  end.

Definition pgrx_extern_c_guard {R} (f : M R) : M R :=
  action ← run_guarded f;
  match action with
  | Return r => mret r
  | ReThrow =>
      error_context ← get ErrorContext;
      _ ← modify (set_CurrentMemoryContext error_context);
      never ← pg_re_throw;
      match (never : Empty_set) with end
  | Report ereport =>
      _ ← do_ereport ereport;
      panic_any (site env "pgrx_extern_c_guard")
        (BoxString "pgrx reported a CaughtError that wasn't raised at ERROR or above")
  end.

(** ** Functions that Postgres may call *)

(** The body of a [#[pg_guard]] function, and the function. *)
Definition entry_body {R} (unsafe_entry_thread : bool) (body : M R) : M R :=
  if unsafe_entry_thread then
    _ ← active_thread_clear;
    result ← catch_unwind body;
    _ ← active_thread_clear;
    match result with inl result => mret result | inr e => resume_unwind e end
  else body.

Definition pg_guard_fn {R} (unsafe_entry_thread : bool) (body : M R) : M R :=
  pgrx_extern_c_guard (entry_body unsafe_entry_thread body).

(** ** [PgTryBuilder] *)

Record PgTryBuilder (R : Type) := {
  try_func : M R;
  try_when : list (PgSqlErrorCode * (CaughtError -> M R));
  try_others : option (CaughtError -> M R);
  try_rust : option (CaughtError -> M R);
  try_finally : option (M unit);
}.
#[global] Arguments try_func {R} p.
#[global] Arguments try_when {R} p.
#[global] Arguments try_others {R} p.
#[global] Arguments try_rust {R} p.
#[global] Arguments try_finally {R} p.

Definition try_new {R} (func : M R) : PgTryBuilder R :=
  {| try_func := func; try_when := []; try_others := None; try_rust := None; try_finally := None |}.

(** The map is from codes to handlers: a later handler replaces an earlier one. *)
Definition catch_when {R} (error : PgSqlErrorCode) (f : CaughtError -> M R) (b : PgTryBuilder R)
    : PgTryBuilder R :=
  {| try_func := try_func b;
     try_when := (error, f) :: List.filter (fun kv => negb (bool_decide (kv.1 = error))) (try_when b);
     try_others := try_others b; try_rust := try_rust b; try_finally := try_finally b |}.

Definition catch_others {R} (f : CaughtError -> M R) (b : PgTryBuilder R) : PgTryBuilder R :=
  {| try_func := try_func b; try_when := try_when b; try_others := Some f; try_rust := try_rust b;
     try_finally := try_finally b |}.

Definition catch_rust_panic {R} (f : CaughtError -> M R) (b : PgTryBuilder R) : PgTryBuilder R :=
  {| try_func := try_func b; try_when := try_when b; try_others := try_others b; try_rust := Some f;
     try_finally := try_finally b |}.

Definition finally {R} (f : M unit) (b : PgTryBuilder R) : PgTryBuilder R :=
  {| try_func := try_func b; try_when := try_when b; try_others := try_others b; try_rust := try_rust b;
     try_finally := Some f |}.

Definition run_finally (f : option (M unit)) : M unit :=
  match f with Some f => f | None => mret tt end.

Definition caught_sqlerrcode (c : CaughtError) : PgSqlErrorCode :=
  match c with
  | PostgresError e | CaughtReport e | RustPanic e _ => er_sqlerrcode (rl_inner e)
  end.

Definition find_handler {R} (code : PgSqlErrorCode) (l : list (PgSqlErrorCode * (CaughtError -> M R)))
    : option (CaughtError -> M R) :=
  match List.find (fun kv => bool_decide (kv.1 = code)) l with
  | Some (_, h) => Some h
  | None => None
  end.

(** The handler that runs for what was caught, or the rethrow. *)
Definition handle {R} (b : PgTryBuilder R) (root_cause : CaughtError) : M R :=
  match find_handler (caught_sqlerrcode root_cause) (try_when b) with
  | Some handler => handler root_cause
  | None =>
      match try_others b with
      | Some handler => handler root_cause
      | None =>
          match try_rust b, root_cause with
          | Some handler, RustPanic _ _ => handler root_cause
          | _, _ => rethrow root_cause
          end
      end
  end.

Definition execute {R} (b : PgTryBuilder R) : M R :=
  result ← catch_unwind (try_func b);
  result ← match result with
           | inl result => mret result
           | inr error =>
               root_cause ← downcast_panic_payload error;
               handler_result ← catch_unwind (handle b root_cause);
               handler_result ←
                 match handler_result with
                 | inl result => mret result
                 | inr caught =>
                     catch_handler_error ← downcast_panic_payload caught;
                     _ ← run_finally (try_finally b);
                     resume_unwind (BoxCaughtError catch_handler_error)
                 end;
               _ ← FlushErrorState;
               mret handler_result
           end;
  _ ← run_finally (try_finally b);
  mret result.

End Code.
