(* ===== verification/PgErrorSafe.v ===== *)
(** * Errors between Rust and Postgres: what the guards promise

    What Postgres documents of its error functions ([PostgresLaws]), an instance
    of it, and the theorems: no panic reaches Postgres and no jump crosses Rust,
    however the two call each other; an error keeps its identity on the way. *)
From S2P Require Import Prelude Text ErrCodes PgError.
From stdpp Require Import list strings.
#[local] Set Warnings "-clear-no-such-hyp".
#[local] Open Scope Z_scope.

(** ** Postgres' error functions, as documented in [elog.c] *)

Section Laws.
Context {U : Type}.

(** Nothing but the error stack changes. *)
Definition quiet (w w' : world U) : Prop := w' = set_errordata (errordata w') w.

Definition with_field (upd : ErrorData -> ErrorData) (m : M U unit) : Prop :=
  forall w e es, errordata w = e :: es -> m w = (Returned tt, set_errordata (upd e :: es) w).

Definition upd_sqlerrcode (x : Z) (e : ErrorData) : ErrorData :=
  {| ed_elevel := ed_elevel e; ed_sqlerrcode := x; ed_message := ed_message e; ed_detail := ed_detail e;
     ed_hint := ed_hint e; ed_domain := ed_domain e; ed_funcname := ed_funcname e;
     ed_filename := ed_filename e; ed_lineno := ed_lineno e; ed_context := ed_context e |}.
Definition upd_message (x : string) (e : ErrorData) : ErrorData :=
  {| ed_elevel := ed_elevel e; ed_sqlerrcode := ed_sqlerrcode e; ed_message := Some x;
     ed_detail := ed_detail e; ed_hint := ed_hint e; ed_domain := ed_domain e;
     ed_funcname := ed_funcname e; ed_filename := ed_filename e; ed_lineno := ed_lineno e;
     ed_context := ed_context e |}.
Definition upd_detail (x : string) (e : ErrorData) : ErrorData :=
  {| ed_elevel := ed_elevel e; ed_sqlerrcode := ed_sqlerrcode e; ed_message := ed_message e;
     ed_detail := Some x; ed_hint := ed_hint e; ed_domain := ed_domain e;
     ed_funcname := ed_funcname e; ed_filename := ed_filename e; ed_lineno := ed_lineno e;
     ed_context := ed_context e |}.
Definition upd_hint (x : string) (e : ErrorData) : ErrorData :=
  {| ed_elevel := ed_elevel e; ed_sqlerrcode := ed_sqlerrcode e; ed_message := ed_message e;
     ed_detail := ed_detail e; ed_hint := Some x; ed_domain := ed_domain e;
     ed_funcname := ed_funcname e; ed_filename := ed_filename e; ed_lineno := ed_lineno e;
     ed_context := ed_context e |}.
Definition upd_where (file : string) (line : Z) (funcname : option string) (e : ErrorData) : ErrorData :=
  {| ed_elevel := ed_elevel e; ed_sqlerrcode := ed_sqlerrcode e; ed_message := ed_message e;
     ed_detail := ed_detail e; ed_hint := ed_hint e; ed_domain := ed_domain e;
     ed_funcname := funcname; ed_filename := Some file; ed_lineno := line; ed_context := ed_context e |}.

Definition upd_context (x : option string) (e : ErrorData) : ErrorData :=
  {| ed_elevel := ed_elevel e; ed_sqlerrcode := ed_sqlerrcode e; ed_message := ed_message e;
     ed_detail := ed_detail e; ed_hint := ed_hint e; ed_domain := ed_domain e;
     ed_funcname := ed_funcname e; ed_filename := ed_filename e; ed_lineno := ed_lineno e;
     ed_context := x |}.

(** A new entry of the error stack: a level, possibly promoted, and a domain. *)
Definition fresh_error (lvl : Z) (domain : string) (e : ErrorData) : Prop :=
  lvl <= ed_elevel e /\ ed_domain e = Some domain /\ ed_message e = None /\ ed_detail e = None
  /\ ed_hint e = None.

(** What follows the last occurrence of a character, or the whole text. *)
Fixpoint after_last (c : Ascii.ascii) (s : string) : string :=
  match s with
  | EmptyString => EmptyString
  | String d rest =>
      if contains (String c EmptyString) rest then after_last c rest
      else if Ascii.eqb d c then rest else s
  end.

(** What the documentation and the comments of [elog.c] and [mcxt.c] promise, while
    memory can be allocated. *)
Class PostgresLaws `{!Postgres U} (v : pg_version) : Prop := {
  (** An error or worse is always started; a lesser level may be ignored.  A null
      domain is Postgres' own.  The process ends when the error stack is full. *)
  law_errstart : forall lvl d w,
    match errstart lvl d w with
    | (Returned true, w') => quiet w w'
        /\ exists e, errordata w' = e :: errordata w /\ fresh_error lvl (default PG_TEXTDOMAIN d) e
        /\ (lvl < level_isize v ERROR -> ed_elevel e = lvl)
    | (Returned false, w') => lvl < level_isize v ERROR /\ w' = w
    | (Terminated, _) => True
    | _ => False
    end;
  law_textdomain : utf8_valid (as_bytes PG_TEXTDOMAIN) = true;
  law_errcode : forall x, with_field (upd_sqlerrcode x) (errcode x);
  law_errmsg : forall x, with_field (upd_message x) (errmsg x);
  law_errdetail : forall x, with_field (upd_detail x) (errdetail x);
  law_errhint : forall x, with_field (upd_hint x) (errhint x);
  (** Only the last part of a file name is kept: what follows the last slash and,
      in some versions, the last backslash. *)
  law_base_name : forall file, base_name file = after_last "/" file
    \/ base_name file = after_last "\" (after_last "/" file);
  (** A lesser level is emitted and popped, and then the interrupts are checked,
      which may raise an error unless they are held off; an error jumps to the
      exception stack and stays on the error stack, with the place and what the
      context callbacks say; anything worse ends the process. *)
  law_errfinish : forall file line funcname w e es, errordata w = e :: es ->
    match errfinish file line funcname w with
    | (Returned tt, w') => ed_elevel e < level_isize v ERROR /\ w' = set_errordata es w
    | (Longjmp b, w') => b = PG_exception_stack w
        /\ ((ed_elevel e < level_isize v ERROR /\ InterruptHoldoffCount w = 0)
            \/ (ed_elevel e = level_isize v ERROR
                /\ exists context, w' = set_CurrentMemoryContext (ErrorContext w) (set_holdoff 0
                     (set_errordata
                        (upd_context context (upd_where (base_name file) line funcname e) :: es) w))))
    | (Terminated, _) => True
    | _ => False
    end;
  law_copy : forall w e es, errordata w = e :: es -> c_CopyErrorData w = (Returned e, w);
  law_free : forall e w, c_FreeErrorData e w = (Returned tt, w);
  law_flush : forall w, c_FlushErrorState w = (Returned tt, set_errordata [] w);
  (** Rethrowing jumps to the exception stack; without one the process ends. *)
  law_rethrow : forall w,
    match pg_re_throw w with
    | (Longjmp b, w') => b = PG_exception_stack w /\ w' = w
    | (Terminated, _) => PG_exception_stack w = 0
    | _ => False
    end;
  (** There is memory for the texts of a report. *)
  law_palloc0 : forall size w, exists p, c_palloc0 size w = (Returned p, w);
  law_pfree : forall p w, c_pfree p w = (Returned tt, w);
}.

(** *** A Postgres that keeps the laws *)

Definition on_top (upd : ErrorData -> ErrorData) : M U unit := fun w =>
  match errordata w with
  | e :: es => (Returned tt, set_errordata (upd e :: es) w)
  | [] => (Terminated, w)
  end.

Definition new_error (lvl : Z) (domain : option string) : ErrorData :=
  {| ed_elevel := lvl; ed_sqlerrcode := 0; ed_message := None; ed_detail := None; ed_hint := None;
     ed_domain := domain; ed_funcname := None; ed_filename := None; ed_lineno := 0; ed_context := None |}.

Definition simple_errfinish (v : pg_version) (file : string) (line : Z) (funcname : option string)
    : M U unit := fun w =>
  match errordata w with
  | e :: es =>
      if ed_elevel e <? level_isize v ERROR then (Returned tt, set_errordata es w)
      else if ed_elevel e =? level_isize v ERROR then
        (Longjmp (PG_exception_stack w),
         set_CurrentMemoryContext (ErrorContext w)
           (set_holdoff 0 (set_errordata (upd_where (after_last "/" file) line funcname e :: es) w)))
      else (Terminated, w)
  | [] => (Terminated, w)
  end.

Definition simple_postgres (v : pg_version) : Postgres U := {|
  errstart lvl d := fun w =>
    (Returned true, set_errordata (new_error lvl (Some (default "postgres" d)) :: errordata w) w);
  errcode x := on_top (upd_sqlerrcode x);
  errmsg x := on_top (upd_message x);
  errdetail x := on_top (upd_detail x);
  errhint x := on_top (upd_hint x);
  errcontext_msg _ := mret tt;
  errfinish := simple_errfinish v;
  c_CopyErrorData := fun w =>
    match errordata w with e :: _ => (Returned e, w) | [] => (Terminated, w) end;
  c_FreeErrorData _ := mret tt;
  c_FlushErrorState := modify (set_errordata []);
  pg_re_throw := fun w => (Longjmp (PG_exception_stack w), w);
  c_palloc0 _ := mret 4096;
  c_pfree _ := mret tt;
  PG_TEXTDOMAIN := "postgres";
  base_name := after_last "/";
|}.

Lemma simple_postgres_laws v : PostgresLaws (Postgres0:=simple_postgres v) v.
Proof.
  split; intros; cbn; try done.
  - split; [by destruct w|]. eexists. split; [done|]. split; [by repeat split|]. done.
  - intros w e es Hw. unfold on_top. by rewrite Hw.
  - intros w e es Hw. unfold on_top. by rewrite Hw.
  - intros w e es Hw. unfold on_top. by rewrite Hw.
  - intros w e es Hw. unfold on_top. by rewrite Hw.
  - by left.
  - unfold simple_errfinish. rewrite H. destruct (Z.ltb_spec (ed_elevel e) (level_isize v ERROR)); [done|].
    destruct (Z.eqb_spec (ed_elevel e) (level_isize v ERROR)); [|done].
    split; [done|]. right. split; [done|]. by exists (ed_context e).
  - by rewrite H.
  - by eexists.
Qed.

End Laws.

(** ** Runs *)

Section Safety.
Context {U : Type} `{!Postgres U}.
Variable (env : platform).
Context `{!PostgresLaws (version env)}.

Lemma bind_returned {A B} (m : M U A) (k : A -> M U B) w a w' :
  m w = (Returned a, w') -> (m ≫= k) w = k a w'.
Proof. unfold mbind, m_bind. by intros ->. Qed.

Lemma bind_unwinding {A B} (m : M U A) (k : A -> M U B) w p w' :
  m w = (Unwinding p, w') -> (m ≫= k) w = (Unwinding p, w').
Proof. unfold mbind, m_bind. by intros ->. Qed.

Definition thread_ok (w : world U) : Prop := ACTIVE_THREAD w = 0 \/ ACTIVE_THREAD w = thread_id env.

(** The state in which Rust and Postgres call each other: the thread may call
    Postgres, and interrupts may be held off once more. *)
Definition ready (w : world U) : Prop := thread_ok w /\ 0 <= InterruptHoldoffCount w < 2 ^ 32 - 1.

(** A report that Postgres will raise: an error or worse, with a domain that is a
    C string. *)
Definition domain_ok (e : ErrorReport) : Prop :=
  match er_domain e with Some d => has_nul d = false | None => True end.

Definition report_ok (r : ErrorReportWithLevel) : Prop :=
  at_least_error env (rl_level r) = true /\ domain_ok (rl_inner r).

(** An error of Postgres' own is still on its stack. *)
Definition caught_ok (w : world U) (c : CaughtError) : Prop :=
  match c with
  | PostgresError _ => errordata w <> []
  | CaughtReport r | RustPanic r _ => report_ok r
  end.

Definition payload_ok (w : world U) (p : Payload) : Prop :=
  match p with
  | BoxCaughtError c => caught_ok w c
  | BoxErrorReportWithLevel r => report_ok r
  | BoxErrorReport e => domain_ok e
  | _ => True
  end.

(** What a run of Rust code may do: return or unwind with a payload the guard can
    report, with the exception stack as it was, or end the process. *)
Definition rust_exit {A} (w : world U) (r : exit A * world U) : Prop :=
  match r with
  | (Returned _, w') => ready w' /\ PG_exception_stack w' = PG_exception_stack w
  | (Unwinding p, w') => ready w' /\ PG_exception_stack w' = PG_exception_stack w /\ payload_ok w' p
  | (Terminated, _) => True
  | (Longjmp _, _) | (Undefined, _) => False
  end.

Definition safe {A} (m : M U A) : Prop := forall w, ready w -> rust_exit w (m w).

(** What a run of Postgres code may do: return with the exception stack as it
    was, or jump to it with an error on the error stack, or end the process. *)
Definition c_exit {A} (w : world U) (r : exit A * world U) : Prop :=
  match r with
  | (Returned _, w') => ready w' /\ PG_exception_stack w' = PG_exception_stack w
  | (Longjmp b, w') => ready w' /\ b = PG_exception_stack w /\ errordata w' <> []
  | (Terminated, _) => True
  | (Unwinding _, _) | (Undefined, _) => False
  end.

Definition c_call {A} (m : M U A) : Prop := forall w, ready w -> c_exit w (m w).

Lemma safe_seq {A B} (m : M U A) (k : A -> M U B) : safe m -> (forall a, safe (k a)) -> safe (m ≫= k).
Proof.
  intros Hm Hk w Hw. specialize (Hm w Hw). unfold mbind, m_bind. destruct (m w) as [[a|p|b| |] w'];
    try done. destruct Hm as [Ht Hs]. specialize (Hk a w' Ht). unfold rust_exit in *. rewrite <- Hs.
  by destruct (k a w') as [[]].
Qed.

Lemma safe_value {A} (a : A) : safe (mret a).
Proof. intros w Hw. by split. Qed.

Lemma safe_panic {A} at_ p : (forall w : world U, payload_ok w p) -> safe (panic_any (A:=A) env at_ p).
Proof. intros Hp w Hw. split; [done|]. split; [done|]. apply Hp. Qed.

(** ** The thread *)

Lemma check_thread_registers w :
  thread_ok w ->
  exists w', check_active_thread env w = (Returned tt, w') /\ thread_ok w'
    /\ w' = set_thread (ACTIVE_THREAD w') (ATFORK_REGISTERED w') w.
Proof.
  intros Hw. unfold check_active_thread, get, mbind, m_bind.
  destruct (Z.eqb_spec (ACTIVE_THREAD w) 0) as [E|E].
  - unfold init_active_thread, get, mbind, m_bind. rewrite (proj2 (Z.eqb_eq _ _) E).
    eexists. split; [reflexivity|]. split; [by right|]. done.
  - destruct Hw as [Hw|Hw]; [done|]. rewrite Hw, Z.eqb_refl. exists w. split; [done|].
    split; [by right|]. by destruct w.
Qed.

Lemma check_thread_ok w :
  ready w ->
  exists w', check_active_thread env w = (Returned tt, w') /\ ready w'
    /\ w' = set_thread (ACTIVE_THREAD w') (ATFORK_REGISTERED w') w.
Proof.
  intros [Hw Hh]. destruct (check_thread_registers w Hw) as (w' & Hc & Ht & Hw').
  exists w'. split; [done|]. split; [|done]. split; [done|]. by rewrite Hw'.
Qed.

(** The check was made, and finds nothing more to do. *)
Definition checked (w : world U) : Prop := check_active_thread env w = (Returned tt, w).

Lemma check_checked w w' : check_active_thread env w = (Returned tt, w') -> checked w'.
Proof.
  unfold checked, check_active_thread, init_active_thread, thread_id_check_failed, panic_any, panic_hook,
    resume_unwind, get, modify, mbind, m_bind.
  destruct (Z.eqb_spec (ACTIVE_THREAD w) 0) as [E|E].
  - rewrite (proj2 (Z.eqb_eq _ _) E). intros [= <-]. cbn.
    destruct (thread_id env =? 0) eqn:Et; rewrite ?Z.eqb_refl; cbn; rewrite ?Et; done.
  - destruct (Z.eqb_spec (thread_id env) (ACTIVE_THREAD w)) as [Et|Et];
      [|by destruct (decide (is_os_main_thread env = Some true))].
    intros [= <-]. rewrite (proj2 (Z.eqb_neq _ _) E). by rewrite (proj2 (Z.eqb_eq _ _) Et).
Qed.

(** It depends on the registration of the thread only. *)
Lemma checked_same w w' :
  ACTIVE_THREAD w' = ACTIVE_THREAD w -> ATFORK_REGISTERED w' = ATFORK_REGISTERED w -> checked w -> checked w'.
Proof.
  unfold checked, check_active_thread, init_active_thread, thread_id_check_failed, panic_any, panic_hook,
    resume_unwind, get, modify, mbind, m_bind.
  intros Ha Hr. rewrite Ha. destruct (ACTIVE_THREAD w =? 0) eqn:E0.
  - rewrite Ha, E0. intros [= Hw]. do 2 f_equal. rewrite <- Hw in Ha, Hr. cbn in Ha, Hr.
    destruct w'; cbn in *; by subst.
  - destruct (thread_id env =? ACTIVE_THREAD w); [done|].
    by destruct (decide (is_os_main_thread env = Some true)).
Qed.

(** ** Behind the boundary *)

(** The state while a Postgres function runs behind the boundary. *)
Definition behind (w : world U) : world U :=
  set_stacks (jmp_buf env (PG_exception_stack w)) (error_context_stack w) w.

(** The run of a function behind the boundary, after the check of the thread. *)
Lemma boundary_run fuel {T} (f : M U T) w w1 :
  check_active_thread env w = (Returned tt, w1) ->
  pg_guard_ffi_boundary_impl env (S fuel) f w
  = match f (behind w1) with
    | (Returned v, w2) => (Returned v, set_stacks (PG_exception_stack w1) (error_context_stack w1) w2)
    | (Longjmp b, w2) =>
        if b =? jmp_buf env (PG_exception_stack w1) then
          (errdata ← pg_guard_ffi_boundary_impl env fuel c_CopyErrorData;
           _ ← pg_guard_ffi_boundary_impl env fuel (c_FreeErrorData errdata);
           _ ← modify (set_stacks (PG_exception_stack w1) (error_context_stack w1));
           panic_any env (site env "pg_guard_ffi_boundary_impl")
             (BoxCaughtError (PostgresError (report_of env errdata))))
            (set_CurrentMemoryContext (CurrentMemoryContext w1) w2)
        else (Longjmp b, w2)
    | (Unwinding p, w2) => (Unwinding p, w2)
    | (Terminated, w2) => (Terminated, w2)
    | (Undefined, w2) => (Undefined, w2)
    end.
Proof.
  intros Hc. cbn [pg_guard_ffi_boundary_impl]. rewrite (bind_returned _ _ _ _ _ Hc).
  unfold behind, mbind, m_bind, call_with_sigsetjmp, get, modify.
  destruct (f _) as [[v|p|b| |] w2]; try reflexivity. by destruct (b =? _).
Qed.

Lemma behind_back (w : world U) :
  set_stacks (PG_exception_stack w) (error_context_stack w) (behind w) = w.
Proof. by destruct w. Qed.

(** A function that returns a value and changes nothing does so behind it. *)
Lemma behind_returns {T} (f : M U T) w a :
  checked w -> (forall w', f w' = (Returned a, w')) -> pg_guard_ffi_boundary env f w = (Returned a, w).
Proof. intros Hc Hf. unfold pg_guard_ffi_boundary. by rewrite (boundary_run _ _ _ _ Hc), Hf, behind_back. Qed.

(** ** Texts for Postgres *)

Lemma as_pg_cstr_returns s w :
  checked w -> exists c, as_pg_cstr env s w = (Returned c, w) /\ c_text c = c_str s.
Proof.
  intros Hc. set (size := Z.of_nat (String.length s) + 1).
  destruct (law_palloc0 size (behind w)) as [p Hp].
  exists {| c_ptr := p; c_text := c_str s |}. split; [|reflexivity].
  unfold as_pg_cstr, palloc0. fold size. rewrite (bind_returned _ _ w p w); [done|].
  unfold pg_guard_ffi_boundary. by rewrite (boundary_run _ _ _ _ Hc), Hp, behind_back.
Qed.

Lemma option_as_pg_cstr_returns o w :
  checked w ->
  exists c, option_as_pg_cstr env o w = (Returned c, w) /\ option_map c_text c = option_map c_str o.
Proof.
  intros Hc. destruct o as [s|]; [|by exists None].
  destruct (as_pg_cstr_returns s w Hc) as (c & Hs & Ht). exists (Some c). cbn. rewrite Ht. split; [|done].
  by rewrite (bind_returned _ _ _ _ _ Hs).
Qed.

Lemma free_returns t w : checked w -> free env t w = (Returned tt, w).
Proof. intros Hc. destruct t as [c|]; [|done]. apply behind_returns; [done | apply law_pfree]. Qed.

(** The text is on the top error, and freed. *)
Lemma say_top t (f : string -> M U unit) (upd : string -> ErrorData -> ErrorData) w e es :
  (forall a, with_field (upd a) (f a)) -> errordata w = e :: es -> checked w ->
  say env t f w
  = (Returned tt, set_errordata (match option_map c_text t with Some a => upd a e | None => e end :: es) w).
Proof.
  intros Hf Hw Hc. destruct t as [c|]; cbn.
  - rewrite (bind_returned _ _ _ _ _ (Hf (c_text c) w e es Hw)). apply (free_returns (Some c)).
    by apply (checked_same w).
  - unfold mret, m_ret. f_equal. rewrite <- Hw. by destruct w.
Qed.

(** ** Reporting *)

(** The error Postgres holds for a report. *)
Record reported (r : ErrorReportWithLevel) (e : ErrorData) : Prop := {
  rep_sqlerrcode : ed_sqlerrcode e = as_isize (er_sqlerrcode (rl_inner r));
  rep_message : ed_message e = Some (c_str (er_message (rl_inner r)));
  rep_detail : ed_detail e = option_map c_str (detail_with_backtrace r);
  rep_hint : ed_hint e = option_map c_str (er_hint (rl_inner r));
  rep_domain : ed_domain e = Some (default PG_TEXTDOMAIN (er_domain (rl_inner r)));
  rep_filename : ed_filename e = Some (base_name (c_str (loc_file (er_location (rl_inner r)))));
  rep_funcname : ed_funcname e = option_map c_str (loc_funcname (er_location (rl_inner r)));
  rep_lineno : ed_lineno e = as_i32 (loc_line (er_location (rl_inner r)));
}.

(** What is said of an error between [errstart] and [errfinish]. *)
Definition described (r : ErrorReportWithLevel) (e : ErrorData) : ErrorData :=
  let e := upd_message (c_str (er_message (rl_inner r)))
             (upd_sqlerrcode (as_isize (er_sqlerrcode (rl_inner r))) e) in
  let e := match option_map c_str (detail_with_backtrace r) with Some d => upd_detail d e | None => e end in
  match option_map c_str (er_hint (rl_inner r)) with Some h => upd_hint h e | None => e end.

(** The domain of the report, as a C string. *)
Lemma domain_returned e (w : world U) : domain_ok e -> domain_cstring env e w = (Returned (er_domain e), w).
Proof. unfold domain_ok, domain_cstring. destruct (er_domain e) as [d|]; [by intros ->|done]. Qed.

Lemma switch_back (w : world U) c :
  set_CurrentMemoryContext (CurrentMemoryContext w) (set_CurrentMemoryContext c w) = w.
Proof. by destruct w. Qed.

(** The rest of a report, once it is described. *)
Definition finish_report (r : ErrorReportWithLevel) (file funcname : option CString) : M U unit :=
  _ ← errfinish (c_str (loc_file (er_location (rl_inner r))))
        (as_i32 (loc_line (er_location (rl_inner r))))
        (option_map c_str (loc_funcname (er_location (rl_inner r))));
  if at_least_error env (rl_level r) then undefined
  else if decide (version env = PG19) then mret tt
  else _ ← free env file; free env funcname.

Lemma do_ereport_started r w w1 w' e :
  domain_ok (rl_inner r) -> check_active_thread env w = (Returned tt, w1) ->
  errstart (level_isize (version env) (rl_level r)) (er_domain (rl_inner r)) w1 = (Returned true, w') ->
  checked w' -> errordata w' = e :: errordata w ->
  exists file funcname, do_ereport env r w =
    (let w2 := set_errordata (described r e :: errordata w) w' in
     finish_report r file funcname
       (if at_least_error env (rl_level r) then set_thread 0 (ATFORK_REGISTERED w2) w2 else w2)).
Proof.
  intros Hd Hc Hs Hck He. set (inner := rl_inner r).
  assert (Hsame : forall x, checked (set_errordata x w')) by (intros; by apply (checked_same w')).
  assert (Hcx : checked (set_CurrentMemoryContext (ErrorContext w') w')) by by apply (checked_same w').
  destruct (as_pg_cstr_returns (er_message inner) w' Hck) as (message & Hm & Tm).
  destruct (option_as_pg_cstr_returns (detail_with_backtrace r) w' Hck) as (detail & Hde & Td).
  destruct (option_as_pg_cstr_returns (er_hint inner) w' Hck) as (hint & Hh & Th).
  destruct (as_pg_cstr_returns (loc_file (er_location inner)) _ Hcx) as (file & Hf & Tf).
  destruct (option_as_pg_cstr_returns (loc_funcname (er_location inner)) _ Hcx) as (funcname & Hfn & Tn).
  exists (Some file), funcname. unfold do_ereport, ereport_text, described, finish_report.
  rewrite <- Td. fold inner. rewrite <- Th, <- Tm, <- Tf, <- Tn.
  rewrite (bind_returned _ _ _ _ _ Hc), (bind_returned _ _ _ _ _ (domain_returned _ w1 Hd)),
    (bind_returned _ _ _ _ _ Hs), (bind_returned _ _ _ _ _ Hm), (bind_returned _ _ _ _ _ Hde),
    (bind_returned _ _ _ _ _ Hh).
  erewrite (bind_returned (option_as_pg_cstr _ _)) by reflexivity.
  erewrite (bind_returned (get _)) by reflexivity.
  erewrite (bind_returned (MemoryContextSwitchTo _)) by reflexivity.
  rewrite (bind_returned _ _ _ _ _ Hf), (bind_returned _ _ _ _ _ Hfn).
  erewrite (bind_returned (MemoryContextSwitchTo _)) by reflexivity. rewrite switch_back.
  erewrite (bind_returned (errcode _)) by (apply law_errcode; exact He).
  erewrite (bind_returned (say _ _ errmsg)) by (apply (say_top _ _ upd_message);
    [apply law_errmsg | reflexivity | apply Hsame]).
  erewrite (bind_returned (say _ _ errdetail)) by (apply (say_top _ _ upd_detail);
    [apply law_errdetail | reflexivity | apply Hsame]).
  erewrite (bind_returned (say _ _ errhint)) by (apply (say_top _ _ upd_hint);
    [apply law_errhint | reflexivity | apply Hsame]).
  erewrite (bind_returned (say _ _ errcontext_msg)) by reflexivity.
  destruct (at_least_error env (rl_level r)); erewrite bind_returned by reflexivity; reflexivity.
Qed.

Lemma described_reported r e lvl context :
  fresh_error lvl (default PG_TEXTDOMAIN (er_domain (rl_inner r))) e ->
  reported r (upd_context context (upd_where (base_name (c_str (loc_file (er_location (rl_inner r)))))
                (as_i32 (loc_line (er_location (rl_inner r))))
                (option_map c_str (loc_funcname (er_location (rl_inner r)))) (described r e))).
Proof.
  intros (_ & Hdom & Hm & Hde & Hh).
  split; cbn; unfold described; destruct (detail_with_backtrace r), (er_hint (rl_inner r)); cbn; done.
Qed.

Lemma described_level r e : ed_elevel (described r e) = ed_elevel e.
Proof. unfold described. by destruct (detail_with_backtrace r), (er_hint (rl_inner r)). Qed.

(** Where [do_ereport] is when the report was started. *)
Lemma started_report r w w1 :
  check_active_thread env w = (Returned tt, w1) -> w1 = set_thread (ACTIVE_THREAD w1) (ATFORK_REGISTERED w1) w ->
  domain_ok (rl_inner r) ->
  match errstart (level_isize (version env) (rl_level r)) (er_domain (rl_inner r)) w1 with
  | (Returned true, w') => w' = set_errordata (errordata w') w1
      /\ exists e, errordata w' = e :: errordata w
         /\ fresh_error (level_isize (version env) (rl_level r)) (default PG_TEXTDOMAIN (er_domain (rl_inner r))) e
         /\ (level_isize (version env) (rl_level r) < level_isize (version env) ERROR ->
             ed_elevel e = level_isize (version env) (rl_level r))
         /\ exists file funcname, do_ereport env r w =
              (let w2 := set_errordata (described r e :: errordata w) w1 in
               finish_report r file funcname
                 (if at_least_error env (rl_level r) then set_thread 0 (ATFORK_REGISTERED w2) w2 else w2))
  | (Returned false, _) => at_least_error env (rl_level r) = false /\ do_ereport env r w = (Returned tt, w1)
  | (Terminated, w') => do_ereport env r w = (Terminated, w')
  | _ => False
  end.
Proof.
  intros Hc Hw1 Hd.
  pose proof (law_errstart (level_isize (version env) (rl_level r)) (er_domain (rl_inner r)) w1) as Hs.
  assert (Hrun : do_ereport env r w
    = (errstart (level_isize (version env) (rl_level r)) (er_domain (rl_inner r)) ≫= ereport_text env r) w1).
  { unfold do_ereport. by rewrite (bind_returned _ _ _ _ _ Hc), (bind_returned _ _ _ _ _ (domain_returned _ w1 Hd)). }
  destruct (errstart _ _ w1) as [[[]|p|b| |] w2] eqn:Es; try done.
  - destruct Hs as (Hq & e & He & Hf & Hlev). rewrite Hw1 in He. cbn in He. unfold quiet in Hq.
    split; [done|]. exists e. do 3 (split; [done|]).
    destruct (do_ereport_started r w w1 w2 e Hd Hc Es) as (file & funcname & Hdo); [|done|].
    { rewrite Hq. apply (checked_same w1); [done | done | exact (check_checked _ _ Hc)]. }
    exists file, funcname. rewrite Hdo. cbv zeta. rewrite Hq. done.
  - destruct Hs as [Hl ->]. split; [by apply Z.leb_gt | by rewrite Hrun, (bind_returned _ _ _ _ _ Es)].
  - rewrite Hrun. unfold mbind, m_bind. by rewrite Es.
Qed.

(** An error or worse does not come back from [do_ereport]. *)
Lemma do_ereport_error r w :
  report_ok r -> thread_ok w ->
  match do_ereport env r w with
  | (Longjmp b, w') => b = PG_exception_stack w /\ ready w' /\ CurrentMemoryContext w' = ErrorContext w
      /\ PG_exception_stack w' = PG_exception_stack w
      /\ exists e, errordata w' = e :: errordata w /\ reported r e
           /\ ed_elevel e = level_isize (version env) ERROR
           /\ level_isize (version env) (rl_level r) <= ed_elevel e
  | (Terminated, _) => True
  | _ => False
  end.
Proof.
  intros [Hl Hd] Hw. destruct (check_thread_registers w Hw) as (w1 & Hc & _ & Hw1).
  pose proof (started_report r w w1 Hc Hw1 Hd) as Hs.
  pose proof Hl as Hlz. unfold at_least_error in Hlz. apply Z.leb_le in Hlz.
  destruct (errstart _ _ w1) as [[[]|p|b| |] w2]; try done; [|by destruct Hs; congruence | by rewrite Hs].
  destruct Hs as (Hq & e & He & Hf & _ & file & funcname & ->). cbv zeta. rewrite Hl. unfold finish_report.
  set (w3 := set_thread 0 _ _).
  pose proof (law_errfinish (c_str (loc_file (er_location (rl_inner r))))
    (as_i32 (loc_line (er_location (rl_inner r))))
    (option_map c_str (loc_funcname (er_location (rl_inner r)))) w3 _ _ eq_refl) as Hfin.
  rewrite described_level in Hfin. unfold mbind, m_bind. pose proof (proj1 Hf) as Hge.
  destruct (errfinish _ _ _ w3) as [[[]|p|b| |] w4]; try done; [lia|].
  destruct Hfin as (-> & [[? _]|(Hlev & context & ->)]); [lia|].
  subst w3. rewrite Hw1. cbn. split; [done|]. split; [by split; [left|]|]. split; [done|]. split; [done|].
  eexists. split; [reflexivity|]. split; [by eapply described_reported|]. cbn. by rewrite described_level.
Qed.

(** A message is emitted, and nothing is left behind: while interrupts are held
    off none is served on the way. *)
Lemma do_ereport_message r w :
  at_least_error env (rl_level r) = false -> domain_ok (rl_inner r) -> thread_ok w ->
  0 < InterruptHoldoffCount w ->
  match do_ereport env r w with
  | (Returned tt, w') => thread_ok w' /\ w' = set_thread (ACTIVE_THREAD w') (ATFORK_REGISTERED w') w
  | (Terminated, _) => True
  | _ => False
  end.
Proof.
  intros Hl Hd Hw Hh. destruct (check_thread_registers w Hw) as (w1 & Hc & Ht & Hw1).
  pose proof (started_report r w w1 Hc Hw1 Hd) as Hs.
  pose proof Hl as Hlz. unfold at_least_error in Hlz. apply Z.leb_gt in Hlz.
  destruct (errstart _ _ w1) as [[[]|p|b| |] w2]; try done; [|by destruct Hs as [_ ->] | by rewrite Hs].
  destruct Hs as (Hq & e & He & Hf & Hlev & file & funcname & ->). cbv zeta. rewrite Hl. unfold finish_report.
  set (w3 := set_errordata _ w1).
  pose proof (law_errfinish (c_str (loc_file (er_location (rl_inner r))))
    (as_i32 (loc_line (er_location (rl_inner r))))
    (option_map c_str (loc_funcname (er_location (rl_inner r)))) w3 _ _ eq_refl) as Hfin.
  rewrite described_level in Hfin. specialize (Hlev Hlz). unfold mbind at 1, m_bind at 1.
  assert (Hw3 : set_errordata (errordata w) w3 = w1) by (subst w3; rewrite Hw1; by destruct w).
  destruct (errfinish _ _ _ w3) as [[[]|p|b| |] w4]; try done.
  - destruct Hfin as [_ ->]. rewrite Hl, Hw3. pose proof (check_checked _ _ Hc) as Hck.
    destruct (decide (version env = PG19)); [done|].
    rewrite (bind_returned _ _ _ _ _ (free_returns file w1 Hck)), free_returns by done. done.
  - destruct Hfin as (_ & [[_ Hz]|[? _]]); [|lia]. subst w3. rewrite Hw1 in Hz. cbn in Hz. lia.
Qed.

Lemma report_safe at_ r : domain_ok (rl_inner r) -> safe (report_with_level env at_ r).
Proof.
  intros Hd w [Hw Hh]. set (w1 := set_holdoff (wrap_u32 (InterruptHoldoffCount w + 1)) w).
  assert (Hc1 : InterruptHoldoffCount w1 = InterruptHoldoffCount w + 1) by (apply Z.mod_small; lia).
  assert (Hw1 : thread_ok w1) by exact Hw.
  assert (Hmsg : at_least_error env (rl_level r) = false ->
    rust_exit w ((_ ← do_ereport env r; count ← get InterruptHoldoffCount;
      if 0 <? count then modify (set_holdoff (count - 1))
      else panic_any env (site env "report")
             (BoxStr "assertion failed: crate::InterruptHoldoffCount > 0")) w1)).
  { intros Hl. pose proof (do_ereport_message r w1 Hl Hd Hw1 ltac:(lia)) as Hdo. unfold mbind at 1, m_bind at 1.
    destruct (do_ereport env r w1) as [[[]|p|b| |] w2]; try done. destruct Hdo as [Ht Hw2].
    rewrite (bind_returned (get _) _ _ _ _ eq_refl).
    assert (Hc2 : InterruptHoldoffCount w2 = InterruptHoldoffCount w + 1) by (rewrite Hw2; exact Hc1).
    rewrite Hc2. destruct (Z.ltb_spec 0 (InterruptHoldoffCount w + 1)); [|lia].
    split; [|by rewrite Hw2]. split; [exact Ht|]. cbn. lia. }
  assert (Hfatal : level_isize (version env) ERROR < level_isize (version env) (rl_level r) ->
    rust_exit w ((_ ← do_ereport env r; panic_any (A:=unit) env (site env "report")
      (BoxStr "internal error: entered unreachable code")) w1)).
  { intros Hl. assert (Hok : report_ok r) by (split; [apply Z.leb_le; lia | done]).
    pose proof (do_ereport_error r w1 Hok Hw1) as Hdo. unfold mbind, m_bind.
    destruct (do_ereport env r w1) as [[[]|p|b| |] w2]; try done.
    destruct Hdo as (_ & _ & _ & _ & e & _ & _ & He & Hge). lia. }
  unfold report_with_level. cbv zeta. destruct (rl_level r) eqn:El; cbv iota;
    try (apply Hmsg; unfold at_least_error; by destruct (version env));
    try (apply Hfatal; by destruct (version env)).
  split; [done|]. split; [done|]. split; [|done]. unfold at_least_error. rewrite El. apply Z.leb_refl.
Qed.

(** ** Catching *)

Lemma downcast_ok p w :
  payload_ok w p ->
  exists c w', downcast_panic_payload p w = (Returned c, w') /\ caught_ok w' c
    /\ w' = set_panic_location (PANIC_LOCATION w') w.
Proof.
  intros Hp. destruct p as [[r|r|r q]|r|e|s|s|]; cbn in Hp |- *.
  - destruct (loc_backtrace _); [eexists _, w | eexists _, (set_panic_location None w)];
      (split; [reflexivity|]; split; [done|]; by destruct w).
  - eexists _, w. split; [reflexivity|]. split; [done|]. by destruct w.
  - eexists _, w. split; [reflexivity|]. split; [done|]. by destruct w.
  - eexists _, w. split; [reflexivity|]. split; [done|]. by destruct w.
  - eexists _, w. split; [reflexivity|]. split; [|by destruct w]. split; [apply Z.leb_refl | done].
  - eexists _, (set_panic_location None w). split; [reflexivity|]. split; [|done]. split; [apply Z.leb_refl | done].
  - eexists _, (set_panic_location None w). split; [reflexivity|]. split; [|done]. split; [apply Z.leb_refl | done].
  - eexists _, (set_panic_location None w). split; [reflexivity|]. split; [|done]. split; [apply Z.leb_refl | done].
Qed.

(** ** The guard *)

(** What the guard does with what it caught. *)
Definition guard_action {R} (c : CaughtError) : M U R :=
  match c with
  | PostgresError _ =>
      error_context ← get ErrorContext;
      _ ← modify (set_CurrentMemoryContext error_context);
      never ← pg_re_throw;
      match (never : Empty_set) with end
  | CaughtReport ereport | RustPanic ereport _ =>
      _ ← do_ereport env ereport;
      panic_any env (site env "pgrx_extern_c_guard")
        (BoxString "pgrx reported a CaughtError that wasn't raised at ERROR or above")
  end.

Lemma guard_run {R} (f : M U R) w :
  pgrx_extern_c_guard env f w
  = match f w with
    | (Unwinding p, w') => (c ← downcast_panic_payload p; guard_action c) w'
    | r => r
    end.
Proof.
  unfold pgrx_extern_c_guard, run_guarded, catch_unwind, mbind, m_bind.
  destruct (f w) as [[r|p|b| |] w1]; try done.
  destruct (downcast_panic_payload p w1) as [[[]|q|b| |] w2]; reflexivity.
Qed.

Lemma guard_action_exit {R} c w : caught_ok w c -> ready w -> c_exit w (guard_action (R:=R) c w).
Proof.
  intros Hok Ht.
  assert (Hrep : forall r, report_ok r -> c_exit w (guard_action (R:=R) (CaughtReport r) w)).
  { intros r Hr. pose proof (do_ereport_error r w Hr (proj1 Ht)) as Hdo. unfold guard_action, mbind, m_bind.
    destruct (do_ereport env r w) as [[[]|q|b| |] w3]; try done.
    destruct Hdo as (-> & Ht3 & _ & _ & e & He & _). split; [done|]. split; [done|]. by rewrite He. }
  destruct c as [r|r|r q]; [|exact (Hrep _ Hok)|exact (Hrep _ Hok)].
  unfold guard_action, mbind, m_bind, get, modify.
  pose proof (law_rethrow (set_CurrentMemoryContext (ErrorContext w) w)) as Hrt.
  destruct (pg_re_throw _) as [[[]|q|b| |] w3]; try done. by destruct Hrt as [-> ->].
Qed.

Lemma c_exit_stack {A} w w' (r : exit A * world U) :
  PG_exception_stack w' = PG_exception_stack w -> c_exit w' r -> c_exit w r.
Proof. intros Hs. unfold c_exit. by rewrite Hs. Qed.

Lemma guard_c_call {R} (f : M U R) : safe f -> c_call (pgrx_extern_c_guard env f).
Proof.
  intros Hf w Hw. specialize (Hf w Hw). rewrite guard_run.
  destruct (f w) as [[r|p|b| |] w1]; try exact Hf; try done.
  destruct Hf as (Ht & Hst & Hp). destruct (downcast_ok p w1 Hp) as (c & w2 & Hc & Hok & Hw2).
  rewrite (bind_returned _ _ _ _ _ Hc).
  apply (c_exit_stack w w2); [by rewrite Hw2 | apply guard_action_exit; [done | by rewrite Hw2]].
Qed.

(** A function that only returns a value does so behind the boundary. *)
Lemma boundary_value fuel {T} (f : M U T) w a :
  ready w -> (forall w', errordata w' = errordata w -> f w' = (Returned a, w')) ->
  exists w', pg_guard_ffi_boundary_impl env (S fuel) f w = (Returned a, w') /\ ready w'
    /\ w' = set_thread (ACTIVE_THREAD w') (ATFORK_REGISTERED w') w.
Proof.
  intros Hw Hf. destruct (check_thread_ok w Hw) as (w1 & Hc & Ht & Hw1). exists w1.
  split; [|by split]. rewrite (boundary_run _ _ _ _ Hc).
  rewrite (Hf (behind w1)); [by rewrite behind_back | by rewrite Hw1].
Qed.

(** What an error of Postgres becomes: a panic with its report, the error still on
    the stack, and the caller's stacks and memory context. *)
Record turned (w w2 w3 : world U) : Prop := {
  tu_errordata : errordata w3 = errordata w2;
  tu_stack : PG_exception_stack w3 = PG_exception_stack w;
  tu_context : error_context_stack w3 = error_context_stack w;
  tu_memory : CurrentMemoryContext w3 = CurrentMemoryContext w;
  tu_error_context : ErrorContext w3 = ErrorContext w2;
  tu_thread : ready w3;
  tu_user : user w3 = user w2;
}.

Lemma boundary_error fuel {T} (f : M U T) w w1 w2 e es :
  check_active_thread env w = (Returned tt, w1) ->
  f (behind w1) = (Longjmp (jmp_buf env (PG_exception_stack w1)), w2) ->
  errordata w2 = e :: es -> ready w2 ->
  exists w3, pg_guard_ffi_boundary_impl env (S (S fuel)) f w
      = (Unwinding (BoxCaughtError (PostgresError (report_of env e))), w3)
    /\ turned w1 w2 w3.
Proof.
  intros Hc Hf He Ht. rewrite (boundary_run _ _ _ _ Hc), Hf, Z.eqb_refl.
  set (w2' := set_CurrentMemoryContext _ w2).
  destruct (boundary_value fuel c_CopyErrorData w2' e Ht) as (w4 & Hcopy & Ht4 & Hw4).
  { intros w' Hw'. eapply law_copy. by rewrite Hw'. }
  destruct (boundary_value fuel (c_FreeErrorData e) w4 tt Ht4) as (w5 & Hfree & Ht5 & Hw5).
  { intros w' _. apply law_free. }
  rewrite (bind_returned _ _ _ _ _ Hcopy), (bind_returned _ _ _ _ _ Hfree).
  eexists. split; [reflexivity|]. split; cbn; try (rewrite Hw5, Hw4; reflexivity); try done.
Qed.

Lemma ffi_safe {T} (f : M U T) : c_call f -> safe (pg_guard_ffi_boundary env f).
Proof.
  intros Hf w Hw. destruct (check_thread_ok w Hw) as (w1 & Hc & Ht & Hw1).
  assert (Hst : PG_exception_stack w1 = PG_exception_stack w) by by rewrite Hw1.
  specialize (Hf (behind w1) Ht). unfold pg_guard_ffi_boundary.
  destruct (f (behind w1)) as [[v|p|b| |] w2] eqn:Ef; try done.
  - rewrite (boundary_run _ _ _ _ Hc), Ef. by destruct Hf.
  - destruct Hf as (Ht2 & -> & He). destruct (errordata w2) as [|e es] eqn:E2; [done|].
    destruct (boundary_error 1 f w w1 w2 e es Hc Ef E2 Ht2) as (w3 & -> & Htu).
    split; [apply (tu_thread _ _ _ Htu)|]. split; [by rewrite (tu_stack _ _ _ Htu)|].
    cbn. by rewrite (tu_errordata _ _ _ Htu), E2.
  - by rewrite (boundary_run _ _ _ _ Hc), Ef.
Qed.

Lemma flush_safe : safe (FlushErrorState env).
Proof. apply ffi_safe. intros w Hw. by rewrite law_flush. Qed.

(** ** [PgTryBuilder] *)

(** A handler for a caught error, while a caught error of Postgres is still on its
    stack. *)
Definition handler_safe {R} (h : CaughtError -> M U R) : Prop :=
  forall c w, ready w -> caught_ok w c -> rust_exit w (h c w).

(** A finally block runs before an error goes on: it must not flush it. *)
Definition finally_safe (f : M U unit) : Prop :=
  safe f /\ forall w w', errordata w <> [] -> f w = (Returned tt, w') -> errordata w' <> [].

Record try_safe {R} (b : PgTryBuilder (U:=U) R) : Prop := {
  ts_func : safe (try_func b);
  ts_when : forall code h, (code, h) ∈ try_when b -> handler_safe h;
  ts_others : forall h, try_others b = Some h -> handler_safe h;
  ts_rust : forall h, try_rust b = Some h -> handler_safe h;
  ts_finally : forall f, try_finally b = Some f -> finally_safe f;
}.

Lemma rust_exit_stack {A} w w' (r : exit A * world U) :
  PG_exception_stack w' = PG_exception_stack w -> rust_exit w' r -> rust_exit w r.
Proof. intros Hs. unfold rust_exit. by rewrite Hs. Qed.

Lemma rust_exit_bind {A B} (m : M U A) (k : A -> M U B) w0 w :
  rust_exit w0 (m w) ->
  (forall a w', m w = (Returned a, w') -> ready w' -> PG_exception_stack w' = PG_exception_stack w0 ->
     rust_exit w0 (k a w')) ->
  rust_exit w0 ((m ≫= k) w).
Proof.
  intros Hm Hk. unfold mbind, m_bind. destruct (m w) as [[a|p|b| |] w']; try done.
  destruct Hm. by apply Hk.
Qed.

Lemma handle_safe {R} (b : PgTryBuilder (U:=U) R) : try_safe b -> handler_safe (handle b).
Proof.
  intros Hb c w Hw Hc. unfold handle, find_handler.
  assert (Hre : rust_exit w (rethrow (A:=R) c w)) by done.
  destruct (List.find _ _) as [[code h]|] eqn:Ef.
  - apply List.find_some in Ef as [Hin _]. apply (ts_when _ Hb code h); [by apply list_elem_of_In | done | done].
  - destruct (try_others b) as [h|] eqn:Eo; [by apply (ts_others _ Hb h)|].
    destruct (try_rust b) as [h|] eqn:Er; [|done]. destruct c; [done | done|]. by apply (ts_rust _ Hb h).
Qed.

Lemma run_finally_safe {R} (b : PgTryBuilder (U:=U) R) : try_safe b -> finally_safe (run_finally (try_finally b)).
Proof.
  intros Hb. destruct (try_finally b) as [f|] eqn:Ef; [by apply (ts_finally _ Hb)|].
  split; [apply safe_value|]. intros w w' Hw [= <-]. done.
Qed.

(** A handler that failed: the finally block, then the new error. *)
Lemma finish_safe {R} (f : M U unit) c w :
  finally_safe f -> ready w -> caught_ok w c ->
  rust_exit w ((_ ← f; resume_unwind (A:=R) (BoxCaughtError c)) w).
Proof.
  intros [Hf Hk] Hw Hc. apply rust_exit_bind; [by apply Hf|]. intros [] w' Hr Ht Hst.
  split; [done|]. split; [done|]. destruct c; [|done|done]. cbn in *. by apply (Hk w).
Qed.

(** The rest of [execute], once an error was caught. *)
Definition after_catch {R} (b : PgTryBuilder (U:=U) R) (c : CaughtError) : M U R := fun w =>
  match handle b c w with
  | (Returned v, w') => (_ ← FlushErrorState env; _ ← run_finally (try_finally b); mret v) w'
  | (Unwinding q, w') =>
      (c' ← downcast_panic_payload q; _ ← run_finally (try_finally b);
       resume_unwind (BoxCaughtError c')) w'
  | r => r
  end.

Lemma execute_run {R} (b : PgTryBuilder (U:=U) R) w :
  execute env b w
  = match try_func b w with
    | (Returned v, w1) => (_ ← run_finally (try_finally b); mret v) w1
    | (Unwinding p, w1) => (downcast_panic_payload p ≫= after_catch b) w1
    | r => r
    end.
Proof.
  unfold execute, after_catch, catch_unwind, mbind, m_bind, mret, m_ret. destruct (try_func b w) as [[v|p|j| |] w1]; try done.
  destruct (downcast_panic_payload p w1) as [[c|q|j| |] w2]; try done.
  destruct (handle b c w2) as [[v|q|j| |] w3]; try done.
  - by destruct (FlushErrorState env w3) as [[[]|r|j| |] w4].
  - destruct (downcast_panic_payload q w3) as [[c'|r|j| |] w4]; try done.
    by destruct (run_finally (try_finally b) w4) as [[]].
Qed.

Lemma execute_safe {R} (b : PgTryBuilder (U:=U) R) : try_safe b -> safe (execute env b).
Proof.
  intros Hb w Hw. rewrite execute_run. pose proof (run_finally_safe b Hb) as Hfin.
  assert (Hlast : forall v w', ready w' -> PG_exception_stack w' = PG_exception_stack w ->
    rust_exit w ((_ ← run_finally (try_finally b); mret (A:=R) v) w')).
  { intros v w' Ht Hst. apply (rust_exit_stack w w' _ Hst). apply safe_seq; [apply Hfin | intros; apply safe_value|done]. }
  pose proof (ts_func _ Hb w Hw) as Hf. destruct (try_func b w) as [[v|p|j| |] w1]; try done.
  { by apply Hlast; destruct Hf. }
  destruct Hf as (Ht1 & Hst1 & Hp). destruct (downcast_ok p w1 Hp) as (c & w2 & Hc & Hok & Hw2).
  rewrite (bind_returned _ _ _ _ _ Hc).
  assert (Ht2 : ready w2) by (rewrite Hw2; exact Ht1).
  assert (Hst2 : PG_exception_stack w2 = PG_exception_stack w) by (rewrite Hw2; exact Hst1).
  pose proof (handle_safe b Hb c w2 Ht2 Hok) as Hh. unfold after_catch. destruct (handle b c w2) as [[v|q|j| |] w3]; try done.
  - destruct Hh as [Ht3 Hst3]. rewrite Hst2 in Hst3. apply (rust_exit_stack w w3 _ Hst3).
    apply rust_exit_bind; [by apply flush_safe|]. intros [] w4 _ Ht4 Hst4.
    apply (rust_exit_stack w3 w _ (eq_sym Hst3)), Hlast; [done | by rewrite Hst4].
  - destruct Hh as (Ht3 & Hst3 & Hq). destruct (downcast_ok q w3 Hq) as (c' & w4 & Hc' & Hok' & Hw4).
    rewrite (bind_returned _ _ _ _ _ Hc'). apply (rust_exit_stack w w4); [by rewrite Hw4; cbn; rewrite Hst3|].
    apply finish_safe; [done | by rewrite Hw4 | done].
Qed.

Lemma entry_safe {R} unsafe_entry_thread (f : M U R) :
  safe f -> safe (entry_body unsafe_entry_thread f).
Proof.
  intros Hf. destruct unsafe_entry_thread; [|done]. intros w Hw.
  set (w1 := set_thread 0 (ATFORK_REGISTERED w) w). assert (Hw1 : ready w1) by (split; [by left | apply Hw]).
  specialize (Hf w1 Hw1). unfold entry_body, active_thread_clear, modify, catch_unwind, mbind, m_bind. fold w1.
  destruct (f w1) as [[r|p|b| |] w2]; try done.
  - destruct Hf as [[_ Hh] Hst]. split; [split; [by left | exact Hh] | done].
  - destruct Hf as ([_ Hh] & Hst & Hp). split; [split; [by left | exact Hh]|]. split; [done|]. destruct p as [[]| | | | |]; done.
Qed.

(** C9. Rust and Postgres may call each other to any depth, on the one thread that may
    call Postgres, while memory can be allocated and the count of held-off interrupts
    is below its largest value: a guarded Rust function is, to
    Postgres, a C function that returns, jumps to the exception stack with an error
    on the error stack, or ends the process, but never lets a panic through; a
    Postgres function behind the boundary is, to Rust, a function that returns, panics
    with the caller's exception stack, or ends the process, but never jumps over Rust
    frames; [PgTryBuilder] keeps to that, with handlers that do and a finally block
    that does and leaves Postgres' error stack alone; and so does raising a report whose domain holds no NUL.  The Rust functions meant are those that
    panic with what the guard can report: a report at ERROR or above without a NUL in
    its domain, an error of Postgres that is still on its stack, or any other
    payload. *)
Theorem guards_compose :
  (forall R (f : M U R) unsafe_entry_thread, safe f -> c_call (pg_guard_fn env unsafe_entry_thread f))
  /\ (forall T (f : M U T), c_call f -> safe (pg_guard_ffi_boundary env f))
  /\ (forall R (b : PgTryBuilder (U:=U) R), try_safe b -> safe (execute env b))
  /\ (forall at_ r, domain_ok (rl_inner r) -> safe (report_with_level env at_ r)).
Proof.
  split; [intros R f u Hf; by apply guard_c_call, entry_safe|].
  split; [intros T f; apply ffi_safe|]. split; [intros R b; apply execute_safe | intros; by apply report_safe].
Qed.

(** ** An error keeps its identity *)

Lemma check_active (w : world U) :
  ACTIVE_THREAD w = thread_id env -> thread_id env <> 0 -> check_active_thread env w = (Returned tt, w).
Proof.
  intros Ha Hn. unfold check_active_thread, get, mbind, m_bind. rewrite Ha.
  rewrite (proj2 (Z.eqb_neq _ _) Hn). by rewrite Z.eqb_refl.
Qed.

(** An error that Postgres raises in a call from a guarded Rust function goes back
    to Postgres as it was: the error stack is not touched, whatever Rust code it
    unwinds. *)
Theorem postgres_error_rethrown {R T} (f : M U T) (k : T -> M U R) w b w2 :
  c_call f -> ready w -> ACTIVE_THREAD w = thread_id env -> thread_id env <> 0 ->
  f (behind w) = (Longjmp b, w2) ->
  match pgrx_extern_c_guard env (pg_guard_ffi_boundary env f ≫= k) w with
  | (Longjmp b', w3) => b' = PG_exception_stack w /\ errordata w3 = errordata w2 /\ errordata w3 <> []
      /\ PG_exception_stack w3 = PG_exception_stack w /\ error_context_stack w3 = error_context_stack w
      /\ CurrentMemoryContext w3 = ErrorContext w3 /\ user w3 = user w2
  | (Terminated, _) => PG_exception_stack w = 0
  | _ => False
  end.
Proof.
  intros Hcall Hw Ha Hn Hf.
  pose proof (check_active w Ha Hn) as Hc. pose proof (Hcall (behind w) Hw) as Hex. rewrite Hf in Hex.
  destruct Hex as (Ht2 & -> & He). destruct (errordata w2) as [|e es] eqn:E2; [done|].
  destruct (boundary_error 1 f w w w2 e es Hc Hf E2 Ht2) as (w3 & Hb & Htu).
  rewrite guard_run, (bind_unwinding _ _ _ _ _ Hb).
  destruct (downcast_ok (BoxCaughtError (PostgresError (report_of env e))) w3) as (c & w4 & Hd & _ & Hw4).
  { cbn. by rewrite (tu_errordata _ _ _ Htu), E2. }
  assert (exists r, c = PostgresError r) as [r ->] by (cbn in Hd; inversion Hd; eauto).
  rewrite (bind_returned _ _ _ _ _ Hd). unfold guard_action, mbind, m_bind, get, modify.
  pose proof (law_rethrow (set_CurrentMemoryContext (ErrorContext w4) w4)) as Hrt.
  destruct (pg_re_throw _) as [[[]|q|j| |] w5]; try done.
  - destruct Hrt as [-> ->]. rewrite Hw4. cbn. rewrite (tu_stack _ _ _ Htu), (tu_errordata _ _ _ Htu), E2.
    rewrite (tu_context _ _ _ Htu), (tu_user _ _ _ Htu). done.
  - rewrite Hw4 in Hrt. cbn in Hrt. by rewrite (tu_stack _ _ _ Htu) in Hrt.
Qed.

(** Text that a C string carries to Postgres and back. *)
Definition text_ok (s : string) : Prop := utf8_valid (as_bytes s) = true /\ has_nul s = false.

Definition option_all {A} (P : A -> Prop) (o : option A) : Prop := match o with Some a => P a | None => True end.

Lemma c_str_id s : has_nul s = false -> c_str s = s.
Proof.
  unfold has_nul. induction s as [|c s IH]; [done|]. cbn [c_str contains].
  intros [Hc Hs]%orb_false_iff. destruct (Ascii.eqb_spec c "000"%char) as [->|Hne]; [by destruct s|].
  by rewrite IH.
Qed.

Lemma text_back s : text_ok s -> to_string_lossy (c_str s) = s.
Proof. intros [Hv Hn]. rewrite c_str_id by done. by apply to_string_lossy_valid. Qed.

Lemma text_back_option o : option_all text_ok o -> option_map to_string_lossy (option_map c_str o) = o.
Proof. destruct o; cbn; [|done]. intros. by rewrite text_back. Qed.

(** *** What is kept of a file name *)

Lemma after_last_cut c s :
  after_last c s = s \/ exists dir, s = dir +:+ String c (after_last c s).
Proof.
  destruct (contains (String c EmptyString) s) eqn:Ec.
  - right. induction s as [|d s IH]; [done|]. cbn [contains String.prefix] in Ec. cbn [after_last].
    destruct (contains _ s); [|destruct (Ascii.eqb_spec d c) as [->|Hne]; [by exists EmptyString|]].
    + destruct (IH eq_refl) as [dir Hd]. exists (String d dir). exact (f_equal (String d) Hd).
    + destruct (Ascii.ascii_dec c d); [by subst|]. done.
  - left. destruct s as [|d s]; [done|]. cbn [contains String.prefix] in Ec. cbn [after_last].
    apply orb_false_iff in Ec as [Ed ->]. destruct (Ascii.eqb_spec d c) as [->|_]; [|done].
    destruct (Ascii.ascii_dec c c); [by destruct s | done].
Qed.

Lemma has_nul_suffix a b : has_nul (a +:+ b) = false -> has_nul b = false.
Proof. unfold has_nul. induction a as [|c a IH]; [done|]. cbn [contains String.append]. intros [_ H]%orb_false_iff. by apply IH. Qed.

(** A well-formed text can be cut after an ASCII character. *)
Lemma ascii_not_cont c x :
  u8_to_Z c < 0x80 -> utf8_cont c = false /\ utf8_second3 x c = false /\ utf8_second4 x c = false.
Proof.
  intros Hc. unfold utf8_second3, utf8_second4, utf8_cont, in_range.
  repeat split; repeat case_match; lia.
Qed.

Lemma utf8_valid_cut a c b : u8_to_Z c < 0x80 -> utf8_valid (a ++ c :: b) = true -> utf8_valid b = true.
Proof.
  intros Hc. induction a as [[|b0 r0] IH] using (induction_ltof1 _ (@length byte)); unfold ltof in IH.
  { cbn [app utf8_valid]. by rewrite (proj2 (Z.ltb_lt _ _) Hc). }
  destruct (ascii_not_cont c (u8_to_Z b0) Hc) as (H1 & H2 & H3).
  cbn [app utf8_valid]. destruct (u8_to_Z b0 <? 0x80); [apply IH; cbn; lia|].
  destruct r0 as [|b1 r1]; cbn [app].
  { destruct b as [|b2 r2]; rewrite ?H1, ?H2, ?H3; [by destruct (in_range _ _ _)|].
    destruct (in_range 0xC2 0xDF _); [done|]. destruct (in_range 0xE0 0xEF _); [done|].
    by destruct r2; rewrite ?andb_false_r. }
  destruct (in_range 0xC2 0xDF _); [intros [_ Hv]%andb_prop; apply (IH r1); [cbn; lia | exact Hv]|].
  destruct r1 as [|b2 r2]; cbn [app]; rewrite ?H1, ?andb_false_r.
  { destruct (in_range 0xE0 0xEF _); [done|]. by destruct b; rewrite ?andb_false_r. }
  destruct (in_range 0xE0 0xEF _); [intros [_ Hv]%andb_prop; apply (IH r2); [cbn; lia | exact Hv]|].
  destruct r2 as [|b3 r3]; cbn [app]; rewrite ?H1, ?andb_false_r; [done|].
  intros [_ Hv]%andb_prop. apply (IH r3); [cbn; lia | exact Hv].
Qed.

Lemma text_ok_after_last c s : u8_to_Z (byte_of_ascii c) < 0x80 -> text_ok s -> text_ok (after_last c s).
Proof.
  intros Hc [Hv Hn]. destruct (after_last_cut c s) as [->|[dir Hd]]; [done|]. rewrite Hd in Hv, Hn. split.
  - rewrite as_bytes_app in Hv. exact (utf8_valid_cut (as_bytes dir) _ _ Hc Hv).
  - apply has_nul_suffix in Hn. exact (has_nul_suffix (String c EmptyString) _ Hn).
Qed.

Lemma text_ok_base_name s : text_ok s -> text_ok (base_name s).
Proof. intros Hs. by destruct (law_base_name s) as [-> | ->]; repeat apply text_ok_after_last. Qed.

Lemma line_back l : 0 <= l < 2 ^ 32 -> wrap_u32 (as_i32 l) = l.
Proof.
  intros Hl. unfold wrap_u32, as_i32. rewrite (Z.mod_small l) by done.
  destruct (Z.ltb_spec l (2 ^ 31)); [by apply Z.mod_small; lia|].
  replace (l - 2 ^ 32) with (l + (-1) * 2 ^ 32) by lia. rewrite Z_mod_plus_full. by apply Z.mod_small.
Qed.

Lemma level_error_back v : level_from v (level_isize v ERROR) = ERROR.
Proof. by destruct v. Qed.

(** What is left of a report after the trip: the level, the code and the texts, the
    last part of the file name, and the domain, which is Postgres' when there was none. *)
Definition after_trip (r : ErrorReportWithLevel) : ErrorReportWithLevel :=
  let inner := rl_inner r in
  {| rl_level := ERROR;
     rl_inner :=
       {| er_sqlerrcode := er_sqlerrcode inner; er_message := er_message inner; er_hint := er_hint inner;
          er_detail := detail_with_backtrace r; er_domain := Some (default PG_TEXTDOMAIN (er_domain inner));
          er_location :=
            {| loc_file := base_name (loc_file (er_location inner)); loc_funcname := loc_funcname (er_location inner);
               loc_line := loc_line (er_location inner); loc_col := 0; loc_backtrace := None |} |} |}.

Record report_text_ok (r : ErrorReportWithLevel) : Prop := {
  rt_message : text_ok (er_message (rl_inner r));
  rt_hint : option_all text_ok (er_hint (rl_inner r));
  rt_detail : option_all text_ok (detail_with_backtrace r);
  rt_domain : option_all text_ok (er_domain (rl_inner r));
  rt_file : text_ok (loc_file (er_location (rl_inner r)));
  rt_funcname : option_all text_ok (loc_funcname (er_location (rl_inner r)));
  rt_line : 0 <= loc_line (er_location (rl_inner r)) < 2 ^ 32;
}.

Lemma report_of_reported r e :
  report_text_ok r -> reported r e -> ed_elevel e = level_isize (version env) ERROR ->
  report_of env e = after_trip r.
Proof.
  intros Hr He Hl. unfold report_of, after_trip. rewrite Hl, level_error_back.
  rewrite (rep_sqlerrcode _ _ He), (rep_message _ _ He), (rep_hint _ _ He), (rep_detail _ _ He),
    (rep_domain _ _ He), (rep_filename _ _ He), (rep_funcname _ _ He), (rep_lineno _ _ He).
  unfold from_i32. rewrite from_as_isize, (text_back _ (rt_message _ Hr)), (text_back_option _ (rt_hint _ Hr)),
    (text_back_option _ (rt_detail _ Hr)), (c_str_id _ (proj2 (rt_file _ Hr))),
    (text_back_option _ (rt_funcname _ Hr)), (line_back _ (rt_line _ Hr)).
  rewrite (to_string_lossy_valid _ (proj1 (text_ok_base_name _ (rt_file _ Hr)))).
  do 2 f_equal. pose proof (rt_domain _ Hr) as Hd. cbn. f_equal. apply to_string_lossy_valid.
  destruct (er_domain (rl_inner r)) as [d|]; [apply Hd | apply law_textdomain].
Qed.

(** C11. A report at ERROR raised in Rust, called by Postgres, called by Rust, is caught
    by the outer Rust code at the same level and with the same code, message, hint,
    function and line, unless the process ends: the inner guard hands it to Postgres
    and the outer boundary reads it back.  Of the file its last part is left, the
    domain is Postgres' own when there was none, the detail holds the backtrace, and
    the column is lost.  The texts are well-formed and without NUL, the line is a
    [u32], and memory can be allocated. *)
Theorem error_round_trip (at_ : ErrorReportLocation) (r : ErrorReportWithLevel) (w : world U) :
  rl_level r = ERROR -> report_text_ok r -> ready w ->
  match pg_guard_ffi_boundary env (pgrx_extern_c_guard env (report_with_level env at_ r)) w with
  | (Unwinding p, w') => p = BoxCaughtError (PostgresError (after_trip r))
      /\ PG_exception_stack w' = PG_exception_stack w /\ CurrentMemoryContext w' = CurrentMemoryContext w
  | (Terminated, _) => True
  | _ => False
  end.
Proof.
  intros Hl Hr Hw. destruct (check_thread_ok w Hw) as (w1 & Hc & Ht & Hw1).
  assert (Hok : report_ok r).
  { split; [unfold at_least_error; rewrite Hl; apply Z.leb_refl|].
    pose proof (rt_domain _ Hr) as Hd. unfold domain_ok. destruct (er_domain (rl_inner r)); [|done]. by destruct Hd. }
  set (g := pgrx_extern_c_guard env (report_with_level env at_ r)).
  set (wb := set_panic_location (Some (set_backtrace (Some (capture env)) at_)) (behind w1)).
  assert (Hg : g (behind w1) = guard_action (CaughtReport r) wb).
  { unfold g. rewrite guard_run. unfold report_with_level. by rewrite Hl. }
  pose proof (do_ereport_error r wb Hok (proj1 Ht)) as Hdo.
  unfold guard_action, mbind, m_bind in Hg.
  destruct (do_ereport env r wb) as [[[]|q|b| |] w2]; try done.
  - destruct Hdo as (-> & Ht2 & _ & _ & e & He & Hrep & Hlev & _).
    destruct (boundary_error 1 g w w1 w2 e _ Hc Hg He Ht2) as (w3 & Hb & Htu).
    unfold pg_guard_ffi_boundary. rewrite Hb, (report_of_reported r e Hr Hrep Hlev).
    split; [done|]. rewrite (tu_stack _ _ _ Htu), (tu_memory _ _ _ Htu), Hw1. done.
  - unfold pg_guard_ffi_boundary. by rewrite (boundary_run _ _ _ _ Hc), Hg.
Qed.

(** ** Catching and rethrowing *)

Lemma downcast_returns p (w : world U) : exists c w', downcast_panic_payload p w = (Returned c, w').
Proof.
  destruct p as [[r|r|r q]|r|e|s|s|]; cbn; try by eexists _, _. destruct (loc_backtrace _); by eexists _, _.
Qed.

Lemma downcast_twice p (w : world U) c w' :
  downcast_panic_payload p w = (Returned c, w') ->
  downcast_panic_payload (BoxCaughtError c) w' = (Returned c, w').
Proof.
  destruct p as [[r|r|r q]|r|e|s|s|]; cbn; try (intros [= <- <-]; done).
  destruct (loc_backtrace (er_location (rl_inner r))) eqn:Eb; intros [= <- <-]; cbn; [by rewrite Eb|].
  by destruct (loc_backtrace (default location_default (PANIC_LOCATION w))).
Qed.

(** Handlers that rethrow what they are given change nothing: a guarded function
    behaves as if there were no [PgTryBuilder] around its body. *)
Theorem try_rethrow_transparent {R} (b : PgTryBuilder (U:=U) R) (w : world U) :
  try_finally b = None -> (forall c w', handle b c w' = rethrow c w') ->
  pgrx_extern_c_guard env (execute env b) w = pgrx_extern_c_guard env (try_func b) w.
Proof.
  intros Hfin Hre. rewrite !guard_run, execute_run, Hfin.
  destruct (try_func b w) as [[v|p|j| |] w1]; try done.
  destruct (downcast_returns p w1) as (c & w2 & Ed). pose proof (downcast_twice _ _ _ _ Ed) as Hd.
  rewrite !(bind_returned _ _ _ _ _ Ed). unfold after_catch. rewrite Hre, Hfin. unfold rethrow, resume_unwind.
  rewrite (bind_returned _ _ _ _ _ Hd), (bind_returned (run_finally None) _ _ tt w2 eq_refl).
  by rewrite (bind_returned _ _ _ _ _ Hd).
Qed.

(** ** The finally block *)

(** Code that leaves an observation of the program's state alone. *)
Definition keeps {A} (n : U -> Z) (m : M U A) : Prop :=
  forall w, ready w ->
    match m w with
    | (Returned _, w') | (Unwinding _, w') => n (user w') = n (user w)
    | _ => True
    end.

Lemma flush_returns w :
  ready w -> exists w', FlushErrorState env w = (Returned tt, w') /\ user w' = user w.
Proof.
  intros Hw. destruct (check_thread_ok w Hw) as (w1 & Hc & Ht & Hw1).
  unfold FlushErrorState, pg_guard_ffi_boundary. rewrite (boundary_run _ _ _ _ Hc), law_flush.
  eexists. split; [reflexivity|]. cbn. by rewrite Hw1.
Qed.

(** The finally block runs exactly once, whether the function returned, or failed
    and a handler returned, or the handler failed, or there was none. *)
Theorem finally_runs_once {R} (b : PgTryBuilder (U:=U) R) (f : M U unit) (n : U -> Z) (w : world U) :
  try_safe b -> ready w -> try_finally b = Some f ->
  (forall w, match f w with (Returned _, w') => n (user w') = n (user w) + 1 | _ => False end) ->
  keeps n (try_func b) -> (forall c, keeps n (handle b c)) ->
  match execute env b w with
  | (Returned _, w') | (Unwinding _, w') => n (user w') = n (user w) + 1
  | (Terminated, _) => True
  | (Longjmp _, _) | (Undefined, _) => False
  end.
Proof.
  intros Hb Hw Hfin Hf Hn Hh. rewrite execute_run, Hfin. cbn [run_finally].
  pose proof (ts_func _ Hb w Hw) as Hsf. specialize (Hn w Hw).
  destruct (try_func b w) as [[v|p|j| |] w1]; try done.
  { unfold mbind, m_bind. specialize (Hf w1). destruct (f w1) as [[[]|q|j| |] w2]; try done. cbn. by rewrite Hf, Hn. }
  destruct Hsf as (Ht1 & _ & Hp). destruct (downcast_ok p w1 Hp) as (c & w2 & Hc & Hok & Hw2).
  rewrite (bind_returned _ _ _ _ _ Hc). unfold after_catch. rewrite Hfin. cbn [run_finally].
  assert (Ht2 : ready w2) by (rewrite Hw2; exact Ht1).
  assert (Hu2 : user w2 = user w1) by by rewrite Hw2.
  pose proof (handle_safe b Hb c w2 Ht2 Hok) as Hs. specialize (Hh c w2 Ht2).
  destruct (handle b c w2) as [[v|q|j| |] w3]; try done.
  - destruct Hs as [Ht3 _]. destruct (flush_returns w3 Ht3) as (w4 & Hfl & Hu4).
    rewrite (bind_returned _ _ _ _ _ Hfl). unfold mbind, m_bind. specialize (Hf w4).
    destruct (f w4) as [[[]|q|j| |] w5]; try done. cbn. by rewrite Hf, Hu4, Hh, Hu2, Hn.
  - destruct Hs as (_ & _ & Hq). destruct (downcast_ok q w3 Hq) as (c' & w4 & Hc' & _ & Hw4).
    rewrite (bind_returned _ _ _ _ _ Hc'). unfold mbind, m_bind. specialize (Hf w4).
    destruct (f w4) as [[[]|q'|j| |] w5]; try done. cbn. rewrite Hf, Hw4. cbn. by rewrite Hh, Hu2, Hn.
Qed.

End Safety.

(** ** Witnesses *)

Definition ex_env : platform :=
  {| version := PG17; thread_id := 4096; is_os_main_thread := Some true;
     site := fun f => {| loc_file := f; loc_funcname := None; loc_line := 1; loc_col := 1;
                         loc_backtrace := None |};
     capture := {| bt_captured := false; bt_display := "" |}; jmp_buf := fun outer => outer + 1 |}.

Definition ex_world : world Z :=
  {| CurrentMemoryContext := 1; ErrorContext := 2; PG_exception_stack := 100; error_context_stack := 0;
     InterruptHoldoffCount := 0; errordata := []; PANIC_LOCATION := None; ACTIVE_THREAD := 4096;
     ATFORK_REGISTERED := true; user := 0 |}.

#[local] Instance ex_postgres : Postgres Z := simple_postgres PG17.
#[local] Instance ex_postgres_laws : PostgresLaws (version ex_env) := simple_postgres_laws PG17.

(** A Postgres function that raises an error. *)
Definition c_raise : M Z unit :=
  _ ← errstart (level_isize PG17 ERROR) None;
  _ ← errcode (as_isize ERRCODE_DIVISION_BY_ZERO);
  _ ← errmsg "division by zero";
  errfinish "int.c" 7 None.

Lemma c_raise_call : c_call ex_env c_raise.
Proof. intros w [Hw _]. cbn. split; [by split|]. by split. Qed.

Definition ex_report : ErrorReportWithLevel :=
  {| rl_level := ERROR;
     rl_inner := error_report_new (site ex_env "animals/src/lib.rs") ERRCODE_NUMERIC_VALUE_OUT_OF_RANGE
                   "number too small" "animals::check" |}.

(** A guarded function that calls another one through Postgres, which fails. *)
Lemma guards_compose_witness :
  c_call ex_env (pg_guard_fn ex_env false (pg_guard_ffi_boundary ex_env
    (pg_guard_fn ex_env true (report_with_level ex_env (site ex_env "lib.rs") ex_report)))).
Proof.
  destruct (guards_compose (U:=Z) ex_env) as (Hguard & Hffi & _ & Hreport).
  apply Hguard, Hffi, Hguard, Hreport. done.
Defined.

Lemma postgres_error_rethrown_witness :
  match pgrx_extern_c_guard ex_env (pg_guard_ffi_boundary ex_env c_raise ≫= fun _ => mret 5) ex_world with
  | (Longjmp b', w3) => b' = PG_exception_stack ex_world
      /\ errordata w3 = errordata (c_raise (behind ex_env ex_world)).2 /\ errordata w3 <> []
      /\ PG_exception_stack w3 = PG_exception_stack ex_world
      /\ error_context_stack w3 = error_context_stack ex_world
      /\ CurrentMemoryContext w3 = ErrorContext w3 /\ user w3 = user (c_raise (behind ex_env ex_world)).2
  | (Terminated, _) => PG_exception_stack ex_world = 0
  | _ => False
  end.
Proof.
  apply (postgres_error_rethrown ex_env c_raise (fun _ => mret 5) ex_world 101
    (c_raise (behind ex_env ex_world)).2).
  - exact c_raise_call.
  - by split; [right|].
  - reflexivity.
  - discriminate.
  - reflexivity.
Defined.

Lemma error_round_trip_witness :
  match pg_guard_ffi_boundary ex_env (pgrx_extern_c_guard ex_env
          (report_with_level ex_env (site ex_env "lib.rs") ex_report)) ex_world with
  | (Unwinding p, w') => p = BoxCaughtError (PostgresError (after_trip ex_report))
      /\ PG_exception_stack w' = PG_exception_stack ex_world
      /\ CurrentMemoryContext w' = CurrentMemoryContext ex_world
  | (Terminated, _) => True
  | _ => False
  end.
Proof.
  apply (error_round_trip ex_env (site ex_env "lib.rs") ex_report ex_world).
  - reflexivity.
  - by split; vm_compute.
  - by split; [right|].
Defined.

(** The file is known by its last part, and the domain is Postgres' own. *)
Example report_after_trip :
  loc_file (er_location (rl_inner (after_trip ex_report))) = "lib.rs"
  /\ er_domain (rl_inner (after_trip ex_report)) = Some "postgres"
  /\ er_message (rl_inner (after_trip ex_report)) = "number too small".
Proof. done. Qed.

(** A division by zero that is caught and rethrown. *)
Definition ex_try : PgTryBuilder (U:=Z) unit :=
  catch_when ERRCODE_DIVISION_BY_ZERO rethrow (try_new (pg_guard_ffi_boundary ex_env c_raise)).

Lemma ex_try_handle c (w : world Z) : handle ex_try c w = rethrow c w.
Proof.
  unfold handle, find_handler, ex_try, catch_when, try_new. cbn.
  destruct (bool_decide _); [done|]. by destruct c.
Qed.

Lemma try_rethrow_transparent_witness :
  pgrx_extern_c_guard ex_env (execute ex_env ex_try) ex_world
  = pgrx_extern_c_guard ex_env (pg_guard_ffi_boundary ex_env c_raise) ex_world.
Proof.
  apply (try_rethrow_transparent ex_env ex_try ex_world); [reflexivity | apply ex_try_handle].
Defined.

(** The same with a finally block that counts its runs. *)
Definition ex_count : M Z unit := modify (fun w => set_user (user w + 1) w).

Lemma rethrow_safe {R} : handler_safe (U:=Z) (R:=R) ex_env rethrow.
Proof. by intros c w Hw Hc. Qed.

Lemma ex_try_safe : try_safe ex_env (finally ex_count ex_try).
Proof.
  split.
  - exact (ffi_safe ex_env c_raise c_raise_call).
  - intros code h Hh. apply list_elem_of_singleton in Hh. injection Hh as -> ->. apply rethrow_safe.
  - done.
  - done.
  - intros f [= <-]. split; [by intros w Hw|]. intros w w' Hw [= <-]. done.
Qed.

Lemma finally_runs_once_witness :
  match execute ex_env (finally ex_count ex_try) ex_world with
  | (Returned _, w') | (Unwinding _, w') => user w' = user ex_world + 1
  | (Terminated, _) => True
  | (Longjmp _, _) | (Undefined, _) => False
  end.
Proof.
  apply (finally_runs_once ex_env (finally ex_count ex_try) ex_count (fun n => n) ex_world).
  - apply ex_try_safe.
  - by split; [right|].
  - reflexivity.
  - done.
  - intros w Hw. destruct (check_thread_ok ex_env w Hw) as (w1 & Hc & Ht & Hw1).
    assert (Ht2 : ready ex_env (c_raise (behind ex_env w1)).2) by (split; [exact (proj1 Ht) | by vm_compute]).
    destruct (boundary_error ex_env 1 c_raise w w1 (c_raise (behind ex_env w1)).2 _ _ Hc eq_refl eq_refl Ht2)
      as (w3 & Hb & Htu).
    change (try_func _) with (pg_guard_ffi_boundary_impl ex_env 3 c_raise).
    rewrite Hb, (tu_user _ _ _ _ Htu), Hw1. reflexivity.
  - intros c w _. change (handle _ c w) with (handle ex_try c w). rewrite (ex_try_handle c w). reflexivity.
Defined.

(** ** A nested [PgTryBuilder] *)

(** A handler that cleans up with a [PgTryBuilder] of its own, which catches a
    panic, and then rethrows what it was given. *)
Definition ex_cleanup : PgTryBuilder (U:=Z) unit :=
  catch_others (fun _ => mret tt) (try_new (panic_any ex_env (site ex_env "lib.rs") (BoxStr "cleanup"))).

Definition ex_nested : PgTryBuilder (U:=Z) unit :=
  catch_others (fun cause => _ ← execute ex_env ex_cleanup; rethrow cause)
    (try_new (pg_guard_ffi_boundary ex_env c_raise)).

(** The inner block flushes Postgres' whole error state though what it caught never
    was there: the error the handler rethrows is gone from the error stack when the
    guard jumps back to Postgres.  Without the inner block it is still there. *)
Theorem nested_try_drops_error :
  (exists w', pgrx_extern_c_guard ex_env (execute ex_env ex_nested) ex_world = (Longjmp 100, w')
     /\ errordata w' = [])
  /\ exists w', pgrx_extern_c_guard ex_env (execute ex_env ex_try) ex_world = (Longjmp 100, w')
     /\ map ed_message (errordata w') = [Some "division by zero"].
Proof. split; eexists; (split; [vm_compute; reflexivity | reflexivity]). Qed.

(** The level of a message logged to the server is not recovered from its number. *)
Lemma level_round_trip v l :
  level_from v (level_isize v l) = match l with LOG | LOG_SERVER_ONLY => ERROR | _ => l end.
Proof. by destruct v, l. Qed.

(** ** Out of memory *)

(** The same Postgres, without memory for the texts of a report. *)
Definition exhausted_postgres : Postgres Z := {|
  errstart := @errstart _ ex_postgres; errcode := @errcode _ ex_postgres; errmsg := @errmsg _ ex_postgres;
  errdetail := @errdetail _ ex_postgres; errhint := @errhint _ ex_postgres;
  errcontext_msg := @errcontext_msg _ ex_postgres; errfinish := @errfinish _ ex_postgres;
  c_CopyErrorData := @c_CopyErrorData _ ex_postgres; c_FreeErrorData := @c_FreeErrorData _ ex_postgres;
  c_FlushErrorState := @c_FlushErrorState _ ex_postgres; pg_re_throw := @pg_re_throw _ ex_postgres;
  c_palloc0 _ := _ ← c_raise; undefined; c_pfree := @c_pfree _ ex_postgres;
  PG_TEXTDOMAIN := @PG_TEXTDOMAIN _ ex_postgres; base_name := @base_name _ ex_postgres;
|}.

(** [do_ereport] runs after the guard's [catch_unwind], and allocates through the
    boundary: an error there is a panic that leaves the guard. *)
Example out_of_memory_unwinds :
  exists p w', pgrx_extern_c_guard (Postgres0:=exhausted_postgres) ex_env
    (report_with_level (Postgres0:=exhausted_postgres) ex_env (site ex_env "lib.rs") ex_report) ex_world
    = (Unwinding p, w').
Proof. eexists _, _. vm_compute. reflexivity. Qed.
