(* ===== verification/ThreadCheck.v ===== *)
(** * The check of the active thread, between threads

    [pgrx-pg-sys/src/submodules/thread_check.rs] when several threads run it at
    once: the load of [ACTIVE_THREAD] and the [compare_exchange] of
    [init_active_thread] are atomic, and anything may happen between the two. *)
From S2P Require Import Prelude Text ErrCodes PgError.
From stdpp Require Import list strings.
#[local] Set Warnings "-clear-no-such-hyp".
#[local] Open Scope Z_scope.

(** Where a thread is in [check_active_thread]. *)
Inductive place :=
| Outside
(** it read 0 and will try [compare_exchange(0, tid)] *)
| Initializing
(** the check returned *)
| Inside
(** [thread_id_check_failed] *)
| Failed.

Record threads := {
  active : Z;
  atfork_registered : bool;
  at_place : Z -> place;
}.

Definition move (t : Z) (p : place) (s : threads) : threads :=
  {| active := active s; atfork_registered := atfork_registered s;
     at_place := fun t' => if Z.eqb t' t then p else at_place s t' |}.

Definition set_active (t : Z) (registered : bool) (s : threads) : threads :=
  {| active := t; atfork_registered := registered; at_place := at_place s |}.

Inductive event :=
| Admit (t : Z)
| Refuse (t : Z)
| Clear
| Silent.

(** The load, and what follows it without another access. *)
Definition load_step (t : Z) (s : threads) : event * threads :=
  if Z.eqb (active s) 0 then (Silent, move t Initializing s)
  else if Z.eqb t (active s) then (Admit t, move t Inside s)
  else (Refuse t, move t Failed s).

(** The [compare_exchange], with the fork handler that is registered once. *)
Definition exchange_step (t : Z) (s : threads) : event * threads :=
  if Z.eqb (active s) 0 then (Admit t, set_active t true (move t Inside s))
  else (Refuse t, move t Failed s).

Inductive step : threads -> event -> threads -> Prop :=
| step_load t s : t <> 0 -> at_place s t = Outside -> step s (load_step t s).1 (load_step t s).2
| step_exchange t s : t <> 0 -> at_place s t = Initializing -> step s (exchange_step t s).1 (exchange_step t s).2
(** the guarded call is over, or the panic was caught *)
| step_leave t s : at_place s t = Inside \/ at_place s t = Failed -> step s Silent (move t Outside s)
(** [active_thread::clear] *)
| step_clear s : step s Clear (set_active 0 (atfork_registered s) s)
(** [clear_in_child], in a child process *)
| step_fork s : atfork_registered s = true -> step s Clear (set_active 0 false s).

Inductive steps : threads -> list event -> threads -> Prop :=
| steps_nil s : steps s [] s
| steps_cons s e s1 tr s2 : step s e s1 -> steps s1 tr s2 -> steps s (e :: tr) s2.

(** ** At most one thread between two resets *)

(** A step keeps a thread that is active, and what it admits is active. *)
Lemma step_active s e s' :
  step s e s' -> e <> Clear ->
  (active s <> 0 -> active s' = active s) /\ forall t, e = Admit t -> active s' = t /\ t <> 0.
Proof.
  intros Hs. destruct Hs as [t s Ht Hp|t s Ht Hp| | |]; try done.
  - intros _. unfold load_step. destruct (Z.eqb_spec (active s) 0) as [E|E]; [by split|].
    destruct (Z.eqb_spec t (active s)) as [->|E']; cbn; (split; [done|]; intros t' [=]; by subst).
  - intros _. unfold exchange_step. destruct (Z.eqb_spec (active s) 0) as [E|E]; cbn;
      (split; [done|]; intros t' [=]; by subst).
Qed.

Lemma steps_active s tr s' :
  steps s tr s' -> Clear ∉ tr -> active s <> 0 ->
  active s' = active s /\ forall t, Admit t ∈ tr -> t = active s.
Proof.
  induction 1 as [s|s e s1 tr s2 Hs Htr IH]; intros Hc Ha.
  - split; [done|]. intros t Ht. by apply elem_of_nil in Ht.
  - rewrite not_elem_of_cons in Hc. destruct Hc as [He Hc].
    destruct (step_active _ _ _ Hs (not_eq_sym He)) as [Hk Had]. specialize (Hk Ha).
    destruct IH as [IH1 IH2]; [done | by rewrite Hk|]. rewrite Hk in IH1, IH2. split; [done|].
    intros t [Ht|Ht]%elem_of_cons; [|by apply IH2]. destruct (Had t (eq_sym Ht)) as [<- _]. done.
Qed.

(** Whatever the threads do between two resets of the active thread, the check
    admits only one of them, however often, and that one is the active thread
    afterwards. *)
Theorem one_active_thread (s : threads) (tr : list event) (s' : threads) (t t' : Z) :
  steps s tr s' -> Clear ∉ tr -> Admit t ∈ tr -> Admit t' ∈ tr -> t = t' /\ active s' = t.
Proof.
  intros Hst. revert t t'. induction Hst as [s|s e s1 tr s2 Hs Htr IH]; intros t t' Hc Ht Ht'.
  - by apply elem_of_nil in Ht.
  - rewrite not_elem_of_cons in Hc. destruct Hc as [He Hc].
    destruct (step_active _ _ _ Hs (not_eq_sym He)) as [_ Had].
    assert (Hfirst : forall x y, e = Admit x -> Admit y ∈ tr -> y = x).
    { intros x y -> Hy. destruct (Had x eq_refl) as [Hx Hnz].
      destruct (steps_active _ _ _ Htr Hc) as [_ Hall]; [by rewrite Hx|]. by rewrite (Hall y Hy). }
    assert (Hlast : forall x, e = Admit x -> active s2 = x).
    { intros x ->. destruct (Had x eq_refl) as [Hx Hnz].
      destruct (steps_active _ _ _ Htr Hc) as [Ha _]; [by rewrite Hx|]. by rewrite Ha. }
    apply elem_of_cons in Ht as [Ht|Ht], Ht' as [Ht'|Ht'].
    + split; [congruence | by apply Hlast].
    + split; [symmetry; by eapply Hfirst | by apply Hlast].
    + split; [by eapply Hfirst|]. by rewrite (Hfirst t' t (eq_sym Ht') Ht); apply Hlast.
    + by apply IH.
Qed.

(** Run by one thread, the two steps are [check_active_thread]. *)
Lemma check_sequential {U} (env : platform) (w : world U) (places : Z -> place) :
  let t := thread_id env in
  let s := {| active := ACTIVE_THREAD w; atfork_registered := ATFORK_REGISTERED w; at_place := places |} in
  let '(e, s1) := load_step t s in
  let '(e, s1) := match e with Silent => exchange_step t s1 | _ => (e, s1) end in
  match check_active_thread env w with
  | (Returned _, w') => e = Admit t /\ active s1 = ACTIVE_THREAD w'
      /\ atfork_registered s1 = ATFORK_REGISTERED w'
  | (Unwinding _, w') => e = Refuse t
  | _ => False
  end.
Proof.
  cbv zeta. unfold load_step, check_active_thread, init_active_thread, get, mbind, m_bind. cbn.
  destruct (ACTIVE_THREAD w =? 0) eqn:E.
  - unfold exchange_step. cbn. rewrite E. done.
  - destruct (thread_id env =? ACTIVE_THREAD w); [done|]. cbn. unfold thread_id_check_failed.
    by destruct (decide _).
Qed.

(** ** Witness: two threads race, one wins *)

Definition ex_start : threads := {| active := 0; atfork_registered := false; at_place := fun _ => Outside |}.

Definition ex_raced : threads :=
  (exchange_step 2 (exchange_step 1 (load_step 2 (load_step 1 ex_start).2).2).2).2.

Lemma one_active_thread_witness : 1 = 1 /\ active ex_raced = 1.
Proof.
  apply (one_active_thread ex_start [Silent; Silent; Admit 1; Refuse 2] ex_raced 1 1).
  - eapply (steps_cons _ Silent); [by apply (step_load 1 ex_start)|].
    eapply (steps_cons _ Silent); [by apply (step_load 2)|].
    eapply (steps_cons _ (Admit 1)); [by apply (step_exchange 1)|].
    eapply (steps_cons _ (Refuse 2)); [by apply (step_exchange 2)|]. apply steps_nil.
  - repeat (apply not_elem_of_cons; split; [done|]). apply not_elem_of_nil.
  - rewrite !elem_of_cons. auto.
  - rewrite !elem_of_cons. auto.
Defined.
