(* ===== verification/Memory.v ===== *)
(** * Endings and byte memory

    What the models of unsafe code share: how a computation ends ([ending]), and a
    chunk of memory as its bytes, read and written at offsets.  The chunk begins at
    an address that is a multiple of 8, as what Postgres allocates does, so an
    offset is aligned when the address is.  A read outside of the chunk, or one that
    needs an alignment it does not have, is undefined. *)
From stdpp Require Import base gmap list strings.
From S2P Require Import Prelude.
#[local] Open Scope Z_scope.

(** ** Endings *)

Inductive ending (A : Type) := Returned (a : A) | Panicked (why : string) | Undefined.
Arguments Returned {A}. Arguments Panicked {A}. Arguments Undefined {A}.

Definition ebind {A B} (m : ending A) (k : A -> ending B) : ending B :=
  match m with Returned a => k a | Panicked w => Panicked w | Undefined => Undefined end.

Declare Scope ending_scope.
Delimit Scope ending_scope with ending.
Notation "x <~~ m ;; k" := (ebind m (fun x => k))
  (at level 100, m at next level, right associativity) : ending_scope.
#[local] Open Scope ending_scope.

(** [assert!] and [debug_assert!]; an undefined value. *)
Definition eassert {A} (b : bool) (w : string) (k : ending A) : ending A := if b then k else Panicked w.
Definition defined {A} (o : option A) : ending A :=
  match o with Some a => Returned a | None => Undefined end.
Definition expect {A} (w : string) (o : option A) : ending A :=
  match o with Some a => Returned a | None => Panicked w end.

Lemma ebind_returned {A B} (m : ending A) (k : A -> ending B) a : m = Returned a -> ebind m k = k a.
Proof. by intros ->. Qed.

Lemma ebind_inv {A B} (m : ending A) (k : A -> ending B) b :
  ebind m k = Returned b -> exists a, m = Returned a /\ k a = Returned b.
Proof. destruct m; [|done..]. by exists a. Qed.

(** ** Integers of a width *)

(** The low [n] bytes of [z], least significant first, and back. *)
Fixpoint le_bytes (n : nat) (z : Z) : bytes :=
  match n with O => [] | S n => u8_of_Z (z mod 256) :: le_bytes n (z / 256) end.

Lemma length_le_bytes n z : length (le_bytes n z) = n.
Proof. revert z. induction n as [|n IH]; intros z; simpl; [done|]. by rewrite IH. Qed.

Lemma from_le_bytes_le_bytes n z : from_le_bytes (le_bytes n z) = z mod 2 ^ (8 * Z.of_nat n).
Proof.
  revert z. induction n as [|n IH]; intros z.
  { simpl. by rewrite Z.mod_1_r. }
  cbn [le_bytes from_le_bytes]. rewrite IH, u8_to_of_Z, Zmod_mod.
  replace (8 * Z.of_nat (S n)) with (8 + 8 * Z.of_nat n) by lia.
  rewrite Z.pow_add_r by lia. change (2 ^ 8) with 256. rewrite Z.rem_mul_r by lia. lia.
Qed.

Lemma from_le_bytes_bound (bs : bytes) : 0 <= from_le_bytes bs < 2 ^ (8 * Z.of_nat (length bs)).
Proof.
  induction bs as [|b bs IH]; [simpl; lia|]. cbn [from_le_bytes length].
  replace (8 * Z.of_nat (S (length bs))) with (8 + 8 * Z.of_nat (length bs)) by lia.
  rewrite Z.pow_add_r by lia. pose proof (u8_to_Z_range b). change (2 ^ 8) with 256. nia.
Qed.

(** Two's complement of a width. *)
Definition as_signed (w z : Z) : Z := if z <? 2 ^ (w - 1) then z else z - 2 ^ w.

Lemma as_signed_small w z : 0 < w -> - 2 ^ (w - 1) <= z < 2 ^ (w - 1) -> as_signed w (z mod 2 ^ w) = z.
Proof.
  intros Hw Hz. unfold as_signed.
  assert (Hp : 2 ^ w = 2 * 2 ^ (w - 1)) by (rewrite <- Z.pow_succ_r by lia; f_equal; lia).
  destruct (decide (0 <= z)).
  - rewrite Z.mod_small by lia. case_match; lia.
  - rewrite <- (Z_mod_plus_full z 1 (2 ^ w)), Z.mul_1_l, Z.mod_small by lia. case_match; lia.
Qed.

(** ** Byte order *)

Inductive endian := Little | Big.

Definition ne_bytes (e : endian) (n : nat) (z : Z) : bytes :=
  match e with Little => le_bytes n z | Big => reverse (le_bytes n z) end.
Definition from_ne_bytes (e : endian) (bs : bytes) : Z :=
  match e with Little => from_le_bytes bs | Big => from_le_bytes (reverse bs) end.

Lemma length_ne_bytes e n z : length (ne_bytes e n z) = n.
Proof. destruct e; simpl; rewrite ?length_reverse; apply length_le_bytes. Qed.

Lemma from_ne_bytes_ne_bytes e n z : from_ne_bytes e (ne_bytes e n z) = z mod 2 ^ (8 * Z.of_nat n).
Proof. destruct e; simpl; rewrite ?reverse_involutive; apply from_le_bytes_le_bytes. Qed.

Lemma from_ne_bytes_bound e bs : 0 <= from_ne_bytes e bs < 2 ^ (8 * Z.of_nat (length bs)).
Proof.
  destruct e; simpl; [apply from_le_bytes_bound|]. rewrite <- (length_reverse bs). apply from_le_bytes_bound.
Qed.

(** ** Reading and writing *)

(** The [n] bytes at offset [p]. *)
Definition read_bytes (m : bytes) (p n : Z) : ending bytes :=
  if (0 <=? p) && (0 <=? n) && (p + n <=? Z.of_nat (length m))
  then Returned (take (Z.to_nat n) (drop (Z.to_nat p) m)) else Undefined.

(** An integer of [n] bytes, aligned to its size. *)
Definition read_uint (e : endian) (n : nat) (m : bytes) (p : Z) : ending Z :=
  if p mod Z.of_nat n =? 0
  then bs <~~ read_bytes m p (Z.of_nat n) ;; Returned (from_ne_bytes e bs) else Undefined.

Definition read_i32 (e : endian) (m : bytes) (p : Z) : ending Z :=
  z <~~ read_uint e 4 m p ;; Returned (as_signed 32 z).

Definition write_bytes (m : bytes) (p : Z) (bs : bytes) : ending bytes :=
  if (0 <=? p) && (p + Z.of_nat (length bs) <=? Z.of_nat (length m))
  then Returned (take (Z.to_nat p) m ++ bs ++ drop (Z.to_nat p + length bs) m) else Undefined.

Lemma read_bytes_spec m p n :
  0 <= p -> 0 <= n -> p + n <= Z.of_nat (length m) ->
  read_bytes m p n = Returned (take (Z.to_nat n) (drop (Z.to_nat p) m)).
Proof. intros. unfold read_bytes. case_match; [done|lia]. Qed.

(** [bs] lies at offset [p] of [m]. *)
Definition bytes_at (m : bytes) (p : Z) (bs : bytes) : Prop :=
  0 <= p /\ exists pre post, m = pre ++ bs ++ post /\ Z.of_nat (length pre) = p.

Lemma bytes_at_read m p bs : bytes_at m p bs -> read_bytes m p (Z.of_nat (length bs)) = Returned bs.
Proof.
  intros (Hp & pre & post & -> & Hl). rewrite read_bytes_spec by (rewrite ?length_app; lia).
  rewrite <- Hl, !Nat2Z.id, drop_app_length. by rewrite take_app_length.
Qed.

Lemma bytes_at_app m p bs bs' :
  bytes_at m p (bs ++ bs') <-> bytes_at m p bs /\ bytes_at m (p + Z.of_nat (length bs)) bs'.
Proof.
  split.
  - intros (Hp & pre & post & -> & Hl). split.
    + split; [done|]. exists pre, (bs' ++ post). by rewrite <- !app_assoc.
    + split; [lia|]. exists (pre ++ bs), post. rewrite <- !app_assoc, length_app. split; [done|lia].
  - intros [(Hp & pre & post & Hm & Hl) (_ & pre' & post' & Hm' & Hl')]. split; [done|].
    exists pre, post'. split; [|done]. rewrite Hm in Hm' |- *. rewrite app_assoc in Hm'.
    apply app_inj_1 in Hm' as [Hpre Hpost]; [|rewrite length_app; lia].
    rewrite Hpost. by rewrite <- !app_assoc.
Qed.

Lemma bytes_at_length m p bs : bytes_at m p bs -> 0 <= p /\ p + Z.of_nat (length bs) <= Z.of_nat (length m).
Proof. intros (Hp & pre & post & -> & Hl). rewrite !length_app. lia. Qed.

Lemma bytes_at_uint e n m p bs :
  bytes_at m p bs -> length bs = n -> p mod Z.of_nat n = 0 ->
  read_uint e n m p = Returned (from_ne_bytes e bs).
Proof.
  intros Hb Hn Hp. unfold read_uint. rewrite Hp. simpl. rewrite <- Hn.
  by rewrite (ebind_returned _ _ _ (bytes_at_read _ _ _ Hb)).
Qed.

Lemma write_bytes_at m p bs :
  0 <= p -> p + Z.of_nat (length bs) <= Z.of_nat (length m) ->
  exists m', write_bytes m p bs = Returned m' /\ length m' = length m /\ bytes_at m' p bs
    /\ (forall q cs, q + Z.of_nat (length cs) <= p \/ p + Z.of_nat (length bs) <= q ->
          bytes_at m q cs -> bytes_at m' q cs).
Proof.
  intros Hp Hl. unfold write_bytes. case_match; [|lia]. eexists. split; [done|].
  assert (Htake : length (take (Z.to_nat p) m) = Z.to_nat p) by (rewrite length_take; lia).
  split; [rewrite !length_app, length_drop; lia|]. split.
  { split; [done|]. eexists _, _. split; [done|]. lia. }
  intros q cs [Hq|Hq] (Hq0 & pre & post & -> & Hpre).
  - split; [done|]. exists pre, (take (Z.to_nat p - length pre - length cs) post
      ++ bs ++ drop (Z.to_nat p + length bs) (pre ++ cs ++ post)). split; [|done].
    rewrite take_app_ge, take_app_ge by lia. by rewrite <- !app_assoc.
  - split; [done|]. exists (take (Z.to_nat p) (pre ++ cs ++ post) ++ bs ++ drop (Z.to_nat p + length bs) pre), post.
    split; [|rewrite !length_app, Htake, length_drop; lia].
    rewrite (drop_app_le pre) by lia. by rewrite <- !app_assoc.
Qed.

(** ** Places *)

(** A key behind every key of a map. *)
Definition next_key {A} (m : gmap Z A) : Z := map_fold (fun k _ top => Z.max top (k + 1)) 1 m.

Lemma next_key_above {A} (m : gmap Z A) : 1 <= next_key m /\ forall k x, m !! k = Some x -> k < next_key m.
Proof.
  unfold next_key. apply (map_fold_weak_ind (fun r m => 1 <= r /\ forall k x, m !! k = Some x -> k < r)); [by split|].
  intros i x m' r Hi [H1 Hr]. split; [lia|]. intros k v. rewrite lookup_insert_Some. intros [[-> _]|[_ Hk]]; [lia|].
  specialize (Hr k v Hk). lia.
Qed.

Lemma next_key_fresh {A} (m : gmap Z A) : m !! next_key m = None.
Proof. destruct (m !! next_key m) eqn:Hm; [|done]. apply next_key_above in Hm. lia. Qed.
