(* ===== verification/FlatList.v ===== *)
(** * Postgres lists

    [pgrx/src/list.rs] and [pgrx/src/list/flat_list.rs]: the wrapper around
    Postgres' [List], a header that lives in one chunk of a memory context and an
    array of cells, first behind the header in the same chunk and, once it has
    grown, in a chunk of its own.

    The memory is explicit: a finite map from chunks to their context, header and
    cells.  A computation returns, panics (with the memory it leaves behind) or is
    undefined: reading or writing outside a chunk, freeing a chunk twice, reading a
    cell through a member of the union that was not the one written.  Where a chunk
    is placed, and whether there is memory for it, is Postgres' choice: the class
    [Allocator]. *)
From S2P Require Import Prelude Memory.
From stdpp Require Import base gmap list fin_maps strings.
#[local] Open Scope Z_scope.

(** ** Memory *)

Inductive NodeTag := T_List | T_IntList | T_OidList | T_XidList | T_Other (tag : Z).

#[export] Instance NodeTag_eq_dec : EqDecision NodeTag.
Proof. solve_decision. Defined.

(** The union [pg_sys::ListCell], with the member that was written last; memory
    that was never written, and memory overwritten with [0x7F]. *)
Inductive ListCell :=
| ptr_value (p : Z) | int_value (i : Z) | oid_value (o : Z) | xid_value (x : Z)
| uninit | clobbered.

(** [*mut pg_sys::ListCell]: an index into the cells of a chunk. *)
Record cell_ptr := CellPtr { cp_chunk : positive; cp_index : Z }.

#[export] Instance cell_ptr_eq_dec : EqDecision cell_ptr.
Proof. solve_decision. Defined.

Definition cell_add (p : cell_ptr) (n : Z) : cell_ptr := CellPtr (cp_chunk p) (cp_index p + n).

(** [pg_sys::List]; its [initial_elements] are the cells of its own chunk. *)
Record pg_List := { type_ : NodeTag; llength : Z; max_length : Z; elements : cell_ptr }.

Definition with_length (n : Z) (l : pg_List) : pg_List :=
  {| type_ := type_ l; llength := n; max_length := max_length l; elements := elements l |}.
Definition with_max_length (n : Z) (l : pg_List) : pg_List :=
  {| type_ := type_ l; llength := llength l; max_length := n; elements := elements l |}.
Definition with_elements (p : cell_ptr) (l : pg_List) : pg_List :=
  {| type_ := type_ l; llength := llength l; max_length := max_length l; elements := p |}.

(** A chunk of a memory context: the context (null is 0), the header if a list
    lives there, and the cells. *)
Record chunk := Chunk { ck_context : Z; ck_list : option pg_List; ck_cells : list ListCell }.

Definition with_cells (cs : list ListCell) (c : chunk) : chunk := Chunk (ck_context c) (ck_list c) cs.

Notation heap := (gmap positive chunk).

(** ** Computations *)

Definition H (A : Type) : Type := heap -> ending A * heap.

Definition hret {A} (a : A) : H A := fun h => (Returned a, h).
Definition hbind {A B} (m : H A) (k : A -> H B) : H B := fun h =>
  match m h with
  | (Returned a, h') => k a h'
  | (Panicked w, h') => (Panicked w, h')
  | (Undefined, h') => (Undefined, h')
  end.
Definition panic {A} (w : string) : H A := fun h => (Panicked w, h).
Definition undefined {A} : H A := fun h => (Undefined, h).
Definition hassert (b : bool) (w : string) : H unit := if b then hret tt else panic w.
Definition unwrap {A} (o : option A) : H A :=
  match o with Some a => hret a | None => panic "called `Option::unwrap()` on a `None` value" end.

Declare Scope heap_scope.
Delimit Scope heap_scope with heap.
Notation "x <~ m ;; k" := (hbind m (fun x => k))
  (at level 100, m at next level, right associativity) : heap_scope.
Notation "m ;;; k" := (hbind m (fun _ => k)) (at level 100, right associativity) : heap_scope.
#[local] Open Scope heap_scope.

(** [size_of::<pg_sys::List>()] and [size_of::<pg_sys::ListCell>()], 64-bit. *)
Definition size_of_List : Z := 24.
Definition size_of_ListCell : Z := 8.
Definition I32_MAX : Z := 2 ^ 31 - 1.
Definition USIZE_MOD : Z := 2 ^ 64.

(** [n as usize] of a [c_int]: sign extension. *)
Definition as_usize (n : Z) : Z := n mod USIZE_MOD.

(** [n + 1] on [usize]: an overflow panics, or wraps in a build without
    overflow checks. *)
Definition usize_succ (overflow_checks : bool) (n : Z) : H Z :=
  if n + 1 <? USIZE_MOD then hret (n + 1)
  else if overflow_checks then panic "attempt to add with overflow" else hret ((n + 1) mod USIZE_MOD).

(** Dereferencing a header. *)
Definition read_list (l : positive) : H pg_List := fun h =>
  match h !! l with
  | Some c => match ck_list c with Some hd => (Returned hd, h) | None => (Undefined, h) end
  | None => (Undefined, h)
  end.

Definition write_list (l : positive) (hd : pg_List) : H unit := fun h =>
  match h !! l with
  | Some c => (Returned tt, <[l := Chunk (ck_context c) (Some hd) (ck_cells c)]> h)
  | None => (Undefined, h)
  end.

(** [n] cells from [p] lie inside their chunk. *)
Definition in_chunk (c : chunk) (i n : Z) : bool :=
  (0 <=? i) && (0 <=? n) && (i + n <=? Z.of_nat (length (ck_cells c))).

Definition read_cells (p : cell_ptr) (n : Z) : H (list ListCell) := fun h =>
  match h !! cp_chunk p with
  | Some c =>
      if in_chunk c (cp_index p) n
      then (Returned (take (Z.to_nat n) (drop (Z.to_nat (cp_index p)) (ck_cells c))), h)
      else (Undefined, h)
  | None => (Undefined, h)
  end.

Definition write_cells (p : cell_ptr) (cs : list ListCell) : H unit := fun h =>
  match h !! cp_chunk p with
  | Some c =>
      if in_chunk c (cp_index p) (Z.of_nat (length cs))
      then (Returned tt, <[cp_chunk p := with_cells (list_inserts (Z.to_nat (cp_index p)) cs (ck_cells c)) c]> h)
      else (Undefined, h)
  | None => (Undefined, h)
  end.

(** [ptr::copy]: the source is read before the destination is written. *)
Definition copy_cells (src dst : cell_ptr) (n : Z) : H unit :=
  cs <~ read_cells src n ;; write_cells dst cs.

(** ** Postgres' allocator *)

(** Where a call places its chunk; that there is none ([Null]); an error, which
    the guard around every Postgres function turns into a panic. *)
Inductive placement := Placed (l : positive) | Null | Raised (message : string).

Class Allocator := {
  MemoryContextAllocExtended_at : heap -> Z -> Z -> placement;
  MemoryContextAlloc_at : heap -> Z -> Z -> placement;
  repalloc_at : heap -> positive -> Z -> positive + string;
}.

(** What Postgres documents: a new chunk overlaps no live one, and [repalloc]
    keeps the chunk's address or moves it to a new one. *)
Class AllocatorLaws `{Allocator} : Prop := {
  alloc_extended_fresh h ctx n l : MemoryContextAllocExtended_at h ctx n = Placed l -> h !! l = None;
  alloc_fresh h ctx n l : MemoryContextAlloc_at h ctx n = Placed l -> h !! l = None;
  repalloc_fresh h b n l : repalloc_at h b n = inl l -> l = b \/ h !! l = None;
}.

Definition new_cells (bytes : Z) : list ListCell := replicate (Z.to_nat (bytes / size_of_ListCell)) uninit.

(** The calls with their effect: a new chunk holds memory that was never written,
    [repalloc] keeps what fits. *)
Definition MemoryContextAlloc `{Allocator} (ctx size : Z) : H (option positive) := fun h =>
  match MemoryContextAlloc_at h ctx size with
  | Placed l => (Returned (Some l), <[l := Chunk ctx None (new_cells size)]> h)
  | Null => (Returned None, h)
  | Raised e => (Panicked e, h)
  end.

(** The same for memory that is cast to a list: its cells begin behind the header. *)
Definition MemoryContextAllocExtended `{Allocator} (ctx size : Z) : H (option positive) := fun h =>
  match MemoryContextAllocExtended_at h ctx size with
  | Placed l => (Returned (Some l), <[l := Chunk ctx None (new_cells (size - size_of_List))]> h)
  | Null => (Returned None, h)
  | Raised e => (Panicked e, h)
  end.

(** [repalloc] and [pfree] take the address of a chunk. *)
Definition repalloc `{Allocator} (p : cell_ptr) (size : Z) : H cell_ptr := fun h =>
  let b := cp_chunk p in
  match h !! b, cp_index p =? 0 with
  | None, _ | _, false => (Undefined, h)
  | Some c, true =>
      match repalloc_at h b size with
      | inl b' => (Returned (CellPtr b' 0), <[b' := with_cells (resize (Z.to_nat (size / size_of_ListCell)) uninit (ck_cells c)) c]>
                            (delete b h))
      | inr e => (Panicked e, h)
      end
  end.

Definition pfree (l : positive) : H unit := fun h =>
  match h !! l with Some _ => (Returned tt, delete l h) | None => (Undefined, h) end.

Definition pfree_cells (p : cell_ptr) : H unit :=
  if cp_index p =? 0 then pfree (cp_chunk p) else undefined.

Definition GetMemoryChunkContext (l : positive) : H Z := fun h =>
  match h !! l with Some c => (Returned (ck_context c), h) | None => (Undefined, h) end.

(** [MemCx::alloc_bytes]; the bytes are a list's. *)
Definition alloc_bytes `{Allocator} (mcx size : Z) : H (option positive) :=
  MemoryContextAllocExtended mcx size.

(** ** The types that a cell holds *)

Inductive c_void_ptr := VoidPtr (address : Z).
Inductive c_int := CInt (value : Z).
Inductive Oid := MkOid (value : Z).
Inductive TransactionId := MkXid (value : Z).

(** [apoptosis] reads the member of the union that is the type's: reading what
    was not written as that member is not defined. *)
Class Enlist (T : Type) := {
  LIST_TAG : NodeTag;
  apoptosis : ListCell -> option T;
  endocytosis : T -> ListCell;
}.

#[export] Instance enlist_ptr : Enlist c_void_ptr := {|
  LIST_TAG := T_List;
  apoptosis c := match c with ptr_value p => Some (VoidPtr p) | _ => None end;
  endocytosis v := match v with VoidPtr p => ptr_value p end |}.
#[export] Instance enlist_int : Enlist c_int := {|
  LIST_TAG := T_IntList;
  apoptosis c := match c with int_value i => Some (CInt i) | _ => None end;
  endocytosis v := match v with CInt i => int_value i end |}.
#[export] Instance enlist_oid : Enlist Oid := {|
  LIST_TAG := T_OidList;
  apoptosis c := match c with oid_value o => Some (MkOid o) | _ => None end;
  endocytosis v := match v with MkOid o => oid_value o end |}.
#[export] Instance enlist_xid : Enlist TransactionId := {|
  LIST_TAG := T_XidList;
  apoptosis c := match c with xid_value x => Some (MkXid x) | _ => None end;
  endocytosis v := match v with MkXid x => xid_value x end |}.

(** What the list relies on: a value that was written is read back. *)
Class EnlistLaws (T : Type) `{Enlist T} : Prop :=
  apoptosis_endocytosis (v : T) : apoptosis (endocytosis v) = Some v.

#[export] Instance enlist_ptr_laws : EnlistLaws c_void_ptr.
Proof. by intros []. Qed.
#[export] Instance enlist_int_laws : EnlistLaws c_int.
Proof. by intros []. Qed.
#[export] Instance enlist_oid_laws : EnlistLaws Oid.
Proof. by intros []. Qed.
#[export] Instance enlist_xid_laws : EnlistLaws TransactionId.
Proof. by intros []. Qed.

(** ** Lists *)

(** [List<T>], and the pointer a [ListHead<T>] holds. *)
Inductive List_ := Nil | Cons (head : positive).

(** Which checks the build has: [debug_assertions] and [overflow_checks]. *)
Record build := { debug_assertions : bool; overflow_checks : bool }.

Inductive Bound := Unbounded | Included (n : Z) | Excluded (n : Z).

(** A slice of cells, and [RawCellIter]: the cells from [it_ptr] to [it_end],
    or the null iterator. *)
Record slice := { sl_ptr : cell_ptr; sl_len : Z }.
Definition RawCellIter := option (cell_ptr * cell_ptr).

Record Drain := { tail_start : Z; tail_len : Z; d_iter : RawCellIter; d_raw : option positive }.
Record ListIter := { li_list : List_; li_iter : RawCellIter }.

Section Lists.
Context `{Alloc : Allocator} `{En : Enlist T} (cfg : build).

Definition head_len (l : positive) : H Z :=
  hd <~ read_list l ;; hret (as_usize (llength hd)).

Definition head_capacity (l : positive) : H Z :=
  hd <~ read_list l ;; hret (as_usize (max_length hd)).

Definition len (self : List_) : H Z :=
  match self with Nil => hret 0 | Cons head => head_len head end.

Definition is_empty (self : List_) : bool :=
  match self with Nil => true | Cons _ => false end.

Definition capacity (self : List_) : H Z :=
  match self with Nil => hret 0 | Cons head => head_capacity head end.

(** [as_ptr], [as_mut_ptr], [into_ptr]. *)
Definition as_ptr (self : List_) : option positive :=
  match self with Nil => None | Cons head => Some head end.

Definition head_downcast_ptr (l : positive) : H (option positive) :=
  hd <~ read_list l ;; hret (if decide (LIST_TAG (T := T) = type_ hd) then Some l else None).

Definition downcast_ptr_in_memcx (p : option positive) : H (option List_) :=
  match p with
  | None => hret (Some Nil)
  | Some l => o <~ head_downcast_ptr l ;; hret (Cons <$> o)
  end.

(** [slice::from_raw_parts] asks for cells that lie in one chunk. *)
Definition from_raw_parts (p : cell_ptr) (n : Z) : H slice :=
  read_cells p n ;;; hret {| sl_ptr := p; sl_len := n |}.

Definition as_cells (self : List_) : H (option slice) :=
  match self with
  | Nil => hret None
  | Cons head =>
      hd <~ read_list head ;;
      n <~ head_len head ;;
      s <~ from_raw_parts (elements hd) n ;;
      hret (Some s)
  end.

(** Reading a cell as a [T]. *)
Definition deref (p : cell_ptr) : H T :=
  cs <~ read_cells p 1 ;;
  match cs with
  | [c] => match apoptosis c with Some v => hret v | None => undefined end
  | _ => undefined
  end.

Definition slice_get (s : option slice) (i : Z) : option cell_ptr :=
  match s with
  | Some s => if i <? sl_len s then Some (cell_add (sl_ptr s) i) else None
  | None => None
  end.

Definition get (self : List_) (index : Z) : H (option T) :=
  s <~ as_cells self ;;
  match slice_get s index with
  | Some p => v <~ deref p ;; hret (Some v)
  | None => hret None
  end.

(** [get_mut] lends the cell; a caller's assignment through it is [set]. *)
Definition get_mut (self : List_) (index : Z) : H (option cell_ptr) :=
  s <~ as_cells self ;; hret (slice_get s index).

Definition set (self : List_) (index : Z) (v : T) : H (option unit) :=
  o <~ get_mut self index ;;
  match o with
  | Some p => write_cells p [endocytosis v] ;;; hret (Some tt)
  | None => hret None
  end.

(** [iter]: the cells of the slice in order. *)
Fixpoint deref_all (p : cell_ptr) (n : nat) : H (list T) :=
  match n with
  | O => hret []
  | S n => v <~ deref p ;; vs <~ deref_all (cell_add p 1) n ;; hret (v :: vs)
  end.

Definition iter (self : List_) : H (list T) :=
  s <~ as_cells self ;;
  match s with
  | Some s => deref_all (sl_ptr s) (Z.to_nat (sl_len s))
  | None => hret []
  end.

(** [iter_mut] lends every cell. *)
Definition iter_mut (self : List_) : H (list cell_ptr) :=
  s <~ as_cells self ;;
  hret match s with Some s => cell_add (sl_ptr s) <$> seqZ 0 (sl_len s) | None => [] end.

(** *** Growing *)

Definition initial_elements (l : positive) : cell_ptr := CellPtr l 0.

Definition grow_list (l : positive) (target : Z) : H unit :=
  hassert (target <=? I32_MAX) "Cannot allocate more than c_int::MAX elements" ;;;
  let alloc_size := target * size_of_ListCell in
  hd <~ read_list l ;;
  (if decide (elements hd = initial_elements l) then
     context <~ GetMemoryChunkContext l ;;
     hassert (negb (context =? 0)) "Context free list?" ;;;
     buf <~ MemoryContextAlloc context alloc_size ;;
     match buf with
     | None => panic "List allocation failure"
     | Some b =>
         copy_cells (elements hd) (CellPtr b 0) (llength hd) ;;;
         (if debug_assertions cfg
          then write_cells (elements hd) (replicate (Z.to_nat (llength hd)) clobbered)
          else hret tt) ;;;
         write_list l (with_elements (CellPtr b 0) hd)
     end
   else
     p <~ repalloc (elements hd) alloc_size ;;
     write_list l (with_elements p hd)) ;;;
  hd <~ read_list l ;;
  write_list l (with_max_length target hd).

(** [i32::try_from(n).unwrap()] of a [usize], and [checked_add]. *)
Definition i32_try_from (n : Z) : option Z := if n <=? I32_MAX then Some n else None.
Definition i32_checked_add (a b : Z) : option Z :=
  if (- 2 ^ 31 <=? a + b) && (a + b <=? I32_MAX) then Some (a + b) else None.

Definition reserve (l : positive) (count : Z) : H unit :=
  hd <~ read_list l ;;
  hassert (0 <? llength hd) "assertion failed: list.length > 0" ;;;
  hassert (0 <? max_length hd) "assertion failed: list.max_length > 0" ;;;
  if as_usize (max_length hd - llength hd) <? count then
    size <~ unwrap (i32_try_from count) ;;
    size <~ unwrap (i32_checked_add (llength hd) size) ;;
    grow_list l size
  else hret tt.

Definition push (l : positive) (value : T) : H unit :=
  hd <~ read_list l ;;
  hassert (0 <? max_length hd) "assertion failed: *max_length > 0" ;;;
  hassert (0 <? llength hd) "assertion failed: *length > 0" ;;;
  hassert (llength hd <=? max_length hd) "assertion failed: *max_length >= *length" ;;;
  (if max_length hd - llength hd <? 1 then reserve l (as_usize (max_length hd)) else hret tt) ;;;
  hd <~ read_list l ;;
  write_cells (cell_add (elements hd) (llength hd)) [endocytosis value] ;;;
  write_list l (with_length (llength hd + 1) hd).

Definition unstable_push_in_context (self : List_) (value : T) (mcx : Z) : H List_ :=
  match self with
  | Nil =>
      let list_size := 128 in
      o <~ alloc_bytes mcx list_size ;;
      match o with
      | None => panic "called `Result::unwrap()` on an `Err` value: OutOfMemory { _reserve: () }"
      | Some l =>
          write_cells (initial_elements l) [endocytosis value] ;;;
          write_list l {| type_ := LIST_TAG (T := T); llength := 1;
                          max_length := (list_size - size_of_List) / size_of_ListCell;
                          elements := initial_elements l |} ;;;
          o <~ downcast_ptr_in_memcx (Some l) ;;
          self <~ unwrap o ;;
          n <~ len self ;;
          hassert (n =? 1) "assertion `left == right` failed" ;;;
          hret self
      end
  | Cons head => push head value ;;; hret self
  end.

(** [Err] is [None]: the list is handed back as it is. *)
Definition try_push (self : List_) (value : T) : H (option unit) :=
  match self with
  | Nil => hret None
  | Cons head =>
      c <~ capacity self ;;
      n <~ len self ;;
      if c - n =? 0 then hret None else push head value ;;; hret (Some tt)
  end.

Definition try_reserve (self : List_) (items : Z) : H (option unit) :=
  match self with
  | Nil => hret None
  | Cons head => reserve head items ;;; hret (Some tt)
  end.

(** *** Shrinking *)

Definition destroy_list (l : positive) : H unit :=
  hd <~ read_list l ;;
  (if decide (elements hd = initial_elements l) then hret tt else pfree_cells (elements hd)) ;;;
  pfree l.

(** [RawCellIter::next]; the two pointers lie in the same chunk. *)
Definition raw_next (it : RawCellIter) : H (option T * RawCellIter) :=
  match it with
  | Some (p, e) =>
      if cp_index p <? cp_index e
      then v <~ deref p ;; hret (Some v, Some (cell_add p 1, e))
      else hret (None, it)
  | None => hret (None, it)
  end.

Definition drain_start (start_bound : Bound) : H Z :=
  match start_bound with
  | Unbounded => hret 0
  | Included first => hret first
  | Excluded point => usize_succ (overflow_checks cfg) point
  end.

Definition drain_end (end_bound : Bound) (n : Z) : H Z :=
  match end_bound with
  | Unbounded => hret (Z.min I32_MAX n)
  | Included last => usize_succ (overflow_checks cfg) last
  | Excluded tail => hret tail
  end.

(** The list as [drain] leaves it, and the [Drain] that borrows it. *)
Definition drain (self : List_) (start_bound end_bound : Bound) : H (List_ * Drain) :=
  n <~ len self ;;
  start <~ drain_start start_bound ;;
  tail <~ drain_end end_bound n ;;
  hassert (tail <=? n) "index out of bounds of list!" ;;;
  let tlen := n - tail in
  hassert (start <=? n) "assertion failed: drain_start <= len" ;;;
  hassert (tail <=? n) "assertion failed: tail_start <= len" ;;;
  hassert (tail <=? I32_MAX) "assertion failed: tail_start <= ffi::c_int::MAX as _" ;;;
  hassert (start + tlen <=? I32_MAX) "assertion failed: drain_start + tail_len <= ffi::c_int::MAX as _" ;;;
  let self' := if start =? 0 then Nil else self in
  match as_ptr self with
  | Some raw =>
      hd <~ read_list raw ;;
      write_list raw (with_length start hd) ;;;
      hret (self', {| tail_start := tail; tail_len := tlen;
                      d_iter := Some (cell_add (elements hd) start, cell_add (elements hd) tail);
                      d_raw := Some raw |})
  | None =>
      hassert ((tlen =? 0) && (tail =? 0) && (start =? 0))
        "assertion failed: tail_len == 0 && tail_start == 0 && drain_start == 0" ;;;
      hret (self', {| tail_start := 0; tail_len := 0; d_iter := None; d_raw := None |})
  end.

Definition drain_next (d : Drain) : H (option T * Drain) :=
  r <~ raw_next (d_iter d) ;;
  hret (fst r, {| tail_start := tail_start d; tail_len := tail_len d; d_iter := snd r; d_raw := d_raw d |}).

(** [Drop for Drain]: [origin] is the list it borrows. *)
Definition drop_drain (origin : List_) (d : Drain) : H List_ :=
  match d_raw d with
  | None => hret origin
  | Some raw =>
      hd <~ read_list raw ;;
      if (llength hd =? 0) && (tail_len d =? 0) then destroy_list raw ;;; hret origin
      else
        copy_cells (cell_add (elements hd) (tail_start d)) (cell_add (elements hd) (llength hd)) (tail_len d) ;;;
        hd <~ read_list raw ;;
        write_list raw (with_length (llength hd + tail_len d) hd) ;;;
        hret (Cons raw)
  end.

Definition into_iter (self : List_) : H ListIter :=
  n <~ len self ;;
  match self with
  | Nil => hret {| li_list := self; li_iter := None |}
  | Cons head =>
      hd <~ read_list head ;;
      hret {| li_list := self; li_iter := Some (elements hd, cell_add (elements hd) n) |}
  end.

Definition iter_next (it : ListIter) : H (option T * ListIter) :=
  r <~ raw_next (li_iter it) ;; hret (fst r, {| li_list := li_list it; li_iter := snd r |}).

Definition drop_iter (it : ListIter) : H unit :=
  match li_list it with Cons head => destroy_list head | Nil => hret tt end.

(** A caller that asks an iterator [k] times, or until it is exhausted. *)
Fixpoint take_next {S} (next : S -> H (option T * S)) (k : nat) (it : S) : H (list T * S) :=
  match k with
  | O => hret ([], it)
  | Datatypes.S k =>
      r <~ next it ;;
      match fst r with
      | Some v => rest <~ take_next next k (snd r) ;; hret (v :: fst rest, snd rest)
      | None => hret ([], snd r)
      end
  end.

(** [list.drain(range).take(k)], dropped at the end; and a list consumed by [into_iter]. *)
Definition drain_take (self : List_) (start_bound end_bound : Bound) (k : nat) : H (list T * List_) :=
  r <~ drain self start_bound end_bound ;;
  vs <~ take_next drain_next k (snd r) ;;
  self <~ drop_drain (fst r) (snd vs) ;;
  hret (fst vs, self).

Definition consume_take (self : List_) (k : nat) : H (list T) :=
  it <~ into_iter self ;;
  vs <~ take_next iter_next k it ;;
  drop_iter (snd vs) ;;;
  hret (fst vs).

End Lists.
