(* ===== verification/FlatListSafe.v ===== *)
(** * Postgres lists are sequences

    The lists of [FlatList] against sequences of values.  [block] says which
    chunks a list owns and what they hold, with the rest of the memory as a frame:
    an operation that keeps the frame neither leaks a chunk nor touches another
    list.  [rep] adds the invariant of a list that is not being drained. *)
From stdpp Require Import base gmap list fin_maps strings.
From S2P Require Import Prelude Memory FlatList.
#[local] Open Scope Z_scope.
#[local] Open Scope heap_scope.

(** ** Cells of an array *)

Lemma list_inserts_eq {A} (i : nat) (new cs : list A) :
  (i + length new <= length cs)%nat ->
  list_inserts i new cs = take i cs ++ new ++ drop (i + length new) cs.
Proof.
  intros Hl. apply list_eq. intros j.
  destruct (decide (j < i)%nat) as [Hj|Hj].
  { rewrite list_lookup_inserts_lt by lia. rewrite lookup_app_l by (rewrite length_take; lia).
    by rewrite lookup_take_lt. }
  rewrite (lookup_app_r (take i cs)) by (rewrite length_take; lia). rewrite length_take_le by lia.
  destruct (decide (j < i + length new)%nat) as [Hk|Hk].
  - rewrite list_lookup_inserts by lia. by rewrite lookup_app_l by lia.
  - rewrite list_lookup_inserts_ge by lia. rewrite lookup_app_r by lia.
    rewrite lookup_drop. f_equal. lia.
Qed.

Lemma length_list_inserts {A} (i : nat) (new cs : list A) : length (list_inserts i new cs) = length cs.
Proof. apply length_inserts. Qed.

(** ** Running computations *)

Lemma hbind_ok {A B} (m : H A) (k : A -> H B) h a h' : m h = (Returned a, h') -> hbind m k h = k a h'.
Proof. unfold hbind. by intros ->. Qed.

Lemma hbind_panic {A B} (m : H A) (k : A -> H B) h w h' :
  m h = (Panicked w, h') -> hbind m k h = (Panicked w, h').
Proof. unfold hbind. by intros ->. Qed.

Lemma hbind_undefined {A B} (m : H A) (k : A -> H B) h h' :
  m h = (Undefined, h') -> hbind m k h = (Undefined, h').
Proof. unfold hbind. by intros ->. Qed.

Lemma hbind_ret {A B} (a : A) (k : A -> H B) h : hbind (hret a) k h = k a h.
Proof. done. Qed.

Lemma unwrap_some {A B} (a : A) (k : A -> H B) h : hbind (unwrap (Some a)) k h = k a h.
Proof. done. Qed.

Lemma hassert_true {B} (b : bool) w (k : H B) h : b = true -> hbind (hassert b w) (fun _ => k) h = k h.
Proof. by intros ->. Qed.

Lemma hassert_false {B} (b : bool) w (k : H B) h :
  b = false -> hbind (hassert b w) (fun _ => k) h = (Panicked w, h).
Proof. by intros ->. Qed.

Lemma as_usize_small n : 0 <= n <= I32_MAX -> as_usize n = n.
Proof. intros Hn. unfold as_usize. apply Z.mod_small. unfold I32_MAX, USIZE_MOD in *. lia. Qed.

Lemma in_chunk_spec c i n :
  in_chunk c i n = bool_decide (0 <= i /\ 0 <= n /\ i + n <= Z.of_nat (length (ck_cells c))).
Proof. unfold in_chunk. case_bool_decide; lia. Qed.

(** ** The chunks of a list *)

(** Over the frame [hf], the list at [l] has header [hd] and array [cs], behind
    the header or in a chunk of its own. *)
Inductive block (hf : heap) (l : positive) (hd : pg_List) (cs : list ListCell) : heap -> Prop :=
| block_inline ctx :
    hf !! l = None -> elements hd = initial_elements l -> ctx <> 0 ->
    block hf l hd cs (<[l := Chunk ctx (Some hd) cs]> hf)
| block_split ctx b bctx inline :
    hf !! l = None -> hf !! b = None -> l <> b -> elements hd = CellPtr b 0 -> ctx <> 0 ->
    block hf l hd cs (<[l := Chunk ctx (Some hd) inline]> (<[b := Chunk bctx None cs]> hf)).

Ltac map_simpl :=
  repeat first
    [ rewrite lookup_insert_eq | rewrite lookup_insert_ne by congruence
    | rewrite insert_insert_eq | rewrite delete_insert_id by (rewrite ?lookup_insert_ne; congruence) ].

Section Blocks.
Context (hf : heap) (l : positive) (hd : pg_List) (cs : list ListCell) (h : heap).
Hypothesis Hb : block hf l hd cs h.

Lemma block_read_list : read_list l h = (Returned hd, h).
Proof. unfold read_list. destruct Hb; by map_simpl. Qed.

Lemma block_write_list hd' :
  elements hd' = elements hd ->
  exists h', write_list l hd' h = (Returned tt, h') /\ block hf l hd' cs h'.
Proof.
  intros He. unfold write_list. destruct Hb; map_simpl; (eexists; split; [done|]); map_simpl; simpl.
  - by constructor; [|rewrite He|].
  - by econstructor; rewrite ?He.
Qed.

Lemma block_array :
  exists c, h !! cp_chunk (elements hd) = Some c /\ ck_cells c = cs /\ cp_index (elements hd) = 0.
Proof. destruct Hb as [ctx ? He|ctx b bctx inl ??? He]; rewrite He; simpl; map_simpl; by eexists. Qed.

Lemma block_read_cells i n :
  0 <= i -> 0 <= n -> i + n <= Z.of_nat (length cs) ->
  read_cells (cell_add (elements hd) i) n h = (Returned (take (Z.to_nat n) (drop (Z.to_nat i) cs)), h).
Proof.
  intros Hi Hn Hl. destruct block_array as (c & Hc & <- & Hx).
  unfold read_cells, cell_add; simpl. rewrite Hc, Hx, in_chunk_spec, bool_decide_true by lia. done.
Qed.

Lemma block_write_cells i new :
  0 <= i -> i + Z.of_nat (length new) <= Z.of_nat (length cs) ->
  exists h', write_cells (cell_add (elements hd) i) new h = (Returned tt, h')
    /\ block hf l hd (list_inserts (Z.to_nat i) new cs) h'.
Proof.
  intros Hi Hl. destruct block_array as (c & Hc & Hcs & Hx).
  unfold write_cells, cell_add; simpl. rewrite Hc, Hx, in_chunk_spec, bool_decide_true by (rewrite Hcs; lia).
  eexists. split; [done|]. rewrite Z.add_0_l.
  destruct Hb as [ctx ? He|ctx b bctx inl ??? He]; rewrite He in *; simpl in *; revert Hc; map_simpl;
    intros [= <-]; unfold with_cells; simpl.
  - by constructor.
  - rewrite insert_insert_ne by done. map_simpl. by econstructor.
Qed.

Lemma block_write_outside i new :
  Z.of_nat (length cs) < i + Z.of_nat (length new) ->
  write_cells (cell_add (elements hd) i) new h = (Undefined, h).
Proof.
  intros Hl. destruct block_array as (c & Hc & <- & Hx).
  unfold write_cells, cell_add; simpl. rewrite Hc, Hx, in_chunk_spec, bool_decide_false by lia. done.
Qed.

Lemma block_inline_inv :
  elements hd = initial_elements l ->
  exists ctx, h = <[l := Chunk ctx (Some hd) cs]> hf /\ hf !! l = None /\ ctx <> 0.
Proof.
  intros He. destruct Hb as [ctx|? b ? ? ? ? ? He']; [by exists ctx|].
  rewrite He in He'. by inversion He'.
Qed.

Lemma block_split_inv :
  elements hd <> initial_elements l -> exists b, elements hd = CellPtr b 0 /\ b <> l.
Proof. intros He. destruct Hb as [|? b]; [done|]. by exists b. Qed.

Lemma block_destroy : destroy_list l h = (Returned tt, hf).
Proof.
  unfold destroy_list. rewrite (hbind_ok _ _ _ _ _ block_read_list).
  destruct Hb as [ctx ? He|ctx b bctx inl ??? He].
  - rewrite decide_True, hbind_ret by done. unfold pfree. by map_simpl.
  - rewrite He, decide_False by (unfold initial_elements; congruence).
    unfold pfree_cells, pfree, hbind; simpl. map_simpl.
    rewrite delete_insert_ne, (delete_insert_id hf b) by done. by map_simpl.
Qed.
End Blocks.

(** [repalloc] and a new array: the list keeps its values. *)
Section Growing.
Context `{Laws : AllocatorLaws} (cfg : build).
Context (hf : heap) (l : positive) (hd : pg_List) (cs : list ListCell) (h : heap).
Hypothesis Hb : block hf l hd cs h.
Hypothesis Hlen : 0 <= llength hd <= Z.of_nat (length cs).

(** What growing to [target] cells leaves. *)
Definition grown (target : Z) (h' : heap) : Prop :=
  exists p cs', block hf l (with_max_length target (with_elements p hd)) cs' h'
    /\ Z.of_nat (length cs') = target
    /\ take (Z.to_nat (llength hd)) cs' = take (Z.to_nat (llength hd)) cs.

Lemma new_cells_length target : 0 <= target -> length (new_cells (target * size_of_ListCell)) = Z.to_nat target.
Proof. intros Ht. unfold new_cells. rewrite length_replicate. f_equal. unfold size_of_ListCell. by apply Z.div_mul. Qed.

Lemma finish_growth target p cs' h' :
  block hf l (with_elements p hd) cs' h' ->
  Z.of_nat (length cs') = target ->
  take (Z.to_nat (llength hd)) cs' = take (Z.to_nat (llength hd)) cs ->
  exists h'', (hd' <~ read_list l ;; write_list l (with_max_length target hd')) h' = (Returned tt, h'')
    /\ grown target h''.
Proof.
  intros Hb' Ht Hcs. rewrite (hbind_ok _ _ _ _ _ (block_read_list _ _ _ _ _ Hb')).
  destruct (block_write_list _ _ _ _ _ Hb' (with_max_length target (with_elements p hd)) eq_refl)
    as (h'' & -> & Hb'').
  exists h''. split; [done|]. by exists p, cs'.
Qed.

(** The first growth: the values move to a new chunk and the old cells are dead. *)
Lemma move_cells ctx b target :
  h = <[l := Chunk ctx (Some hd) cs]> hf -> elements hd = initial_elements l -> hf !! l = None ->
  hf !! b = None -> b <> l -> ctx <> 0 -> llength hd <= target ->
  exists h' cs',
    (copy_cells (elements hd) (CellPtr b 0) (llength hd) ;;;
     (if debug_assertions cfg
      then write_cells (elements hd) (replicate (Z.to_nat (llength hd)) clobbered)
      else hret tt) ;;;
     write_list l (with_elements (CellPtr b 0) hd)) (<[b := Chunk ctx None (new_cells (target * size_of_ListCell))]> h)
      = (Returned tt, h')
    /\ block hf l (with_elements (CellPtr b 0) hd) cs' h'
    /\ Z.of_nat (length cs') = target
    /\ take (Z.to_nat (llength hd)) cs' = take (Z.to_nat (llength hd)) cs.
Proof.
  intros -> He Hl Hfb Hbl Hctx Ht. rewrite insert_insert_ne by done.
  set (vals := take (Z.to_nat (llength hd)) cs). set (new := new_cells _).
  assert (Hnew : length new = Z.to_nat target) by (apply new_cells_length; lia).
  assert (Hvals : length vals = Z.to_nat (llength hd)) by (unfold vals; rewrite length_take; lia).
  assert (He0 : cell_add (elements hd) 0 = elements hd) by (rewrite He; done).
  set (hf1 := <[b := Chunk ctx None new]> hf).
  assert (Hb1 : block hf1 l hd cs (<[l := Chunk ctx (Some hd) cs]> hf1)).
  { constructor; [|done|done]. unfold hf1. by rewrite lookup_insert_ne. }
  set (cs' := list_inserts 0 vals new).
  set (hf2 := <[b := Chunk ctx None cs']> hf).
  assert (Hcopy : copy_cells (elements hd) (CellPtr b 0) (llength hd) (<[l := Chunk ctx (Some hd) cs]> hf1)
                  = (Returned tt, <[l := Chunk ctx (Some hd) cs]> hf2)).
  { unfold copy_cells. rewrite <- He0.
    rewrite (hbind_ok _ _ _ _ _ (block_read_cells _ _ _ _ _ Hb1 0 (llength hd) ltac:(lia) ltac:(lia) ltac:(lia))).
    change (drop (Z.to_nat 0) cs) with cs. fold vals. unfold write_cells; simpl. unfold hf1, hf2. map_simpl.
    rewrite in_chunk_spec, bool_decide_true by (simpl; lia).
    rewrite insert_insert_ne by done. by map_simpl. }
  rewrite (hbind_ok _ _ _ _ _ Hcopy).
  assert (Hb2 : block hf2 l hd cs (<[l := Chunk ctx (Some hd) cs]> hf2)).
  { constructor; [|done|done]. unfold hf2. by rewrite lookup_insert_ne. }
  assert (exists h3 cs3, (if debug_assertions cfg
      then write_cells (elements hd) (replicate (Z.to_nat (llength hd)) clobbered)
      else hret tt) (<[l := Chunk ctx (Some hd) cs]> hf2) = (Returned tt, h3)
      /\ h3 = <[l := Chunk ctx (Some hd) cs3]> hf2) as (h3 & cs3 & Hclob & ->).
  { destruct (debug_assertions cfg); [|by eexists _, _].
    rewrite He. unfold write_cells; simpl. map_simpl.
    rewrite in_chunk_spec, bool_decide_true by (simpl; rewrite length_replicate; lia).
    eexists _, _. split; [done|]. by map_simpl. }
  rewrite (hbind_ok _ _ _ _ _ Hclob). unfold write_list. map_simpl.
  eexists _, cs'. split; [done|]. split; [by econstructor|]. unfold cs'.
  rewrite length_list_inserts, list_inserts_eq by lia. split; [lia|]. simpl.
  rewrite take_app_le by lia. by apply take_ge; lia.
Qed.

Lemma repalloc_cells b target :
  elements hd = CellPtr b 0 -> b <> l -> llength hd <= target ->
  (exists w, repalloc (elements hd) (target * size_of_ListCell) h = (Panicked w, h))
  \/ exists h1 p, repalloc (elements hd) (target * size_of_ListCell) h = (Returned p, h1)
     /\ exists h' cs', write_list l (with_elements p hd) h1 = (Returned tt, h')
     /\ block hf l (with_elements p hd) cs' h'
     /\ Z.of_nat (length cs') = target
     /\ take (Z.to_nat (llength hd)) cs' = take (Z.to_nat (llength hd)) cs.
Proof.
  intros He Hbl Ht. destruct Hb as [ctx ? He'|ctx b' bctx inl Hl Hfb ? He' ?].
  { rewrite He in He'. by inversion He'. }
  rewrite He in He'. injection He' as <-. unfold repalloc. rewrite He; simpl. map_simpl.
  destruct (repalloc_at _ b _) as [b'|w] eqn:Hr; [|left; by eexists]. right.
  set (cs' := resize (Z.to_nat (target * size_of_ListCell / size_of_ListCell)) uninit cs).
  assert (Hb' : hf !! b' = None /\ b' <> l).
  { destruct (repalloc_fresh _ _ _ _ Hr) as [->|Hn]; [done|].
    apply lookup_insert_None in Hn as [Hn ?]. by apply lookup_insert_None in Hn as [? ?]. }
  destruct Hb' as [Hfb' Hb'l].
  eexists _, _. split; [done|].
  rewrite (delete_insert_ne _ b l), delete_insert_id, insert_insert_ne by done.
  unfold write_list, with_cells; simpl. map_simpl. simpl. eexists _, cs'. split; [done|].
  split; [by apply block_split|]. unfold cs'. rewrite length_resize. unfold size_of_ListCell. rewrite Z.div_mul by done.
  split; [lia|]. by rewrite take_resize_le, resize_le by lia.
Qed.

(** Growing keeps the values or, when it panics, everything. *)
Lemma grow_list_spec target :
  llength hd <= target ->
  (exists w, grow_list cfg l target h = (Panicked w, h))
  \/ (exists h', grow_list cfg l target h = (Returned tt, h') /\ grown target h' /\ target <= I32_MAX).
Proof.
  intros Ht. unfold grow_list.
  destruct (target <=? I32_MAX) eqn:Hmax; [|left; eexists; by apply hassert_false].
  rewrite hassert_true, (hbind_ok _ _ _ _ _ (block_read_list _ _ _ _ _ Hb)) by done.
  apply Z.leb_le in Hmax. case_decide as He.
  - destruct (block_inline_inv _ _ _ _ _ Hb He) as (ctx & Hh & Hl & Hctx).
    assert (Hctxt : GetMemoryChunkContext l h = (Returned ctx, h)).
    { unfold GetMemoryChunkContext. rewrite Hh. by map_simpl. }
    destruct (MemoryContextAlloc_at h ctx (target * size_of_ListCell)) as [b| |w] eqn:Ha.
    + pose proof (alloc_fresh _ _ _ _ Ha) as Hfr. rewrite Hh in Hfr.
      apply lookup_insert_None in Hfr as [Hfb Hbl]. right.
      destruct (move_cells ctx b target Hh He Hl Hfb ltac:(congruence) Hctx Ht)
        as (h' & cs' & Hm & Hb' & Hn & Hv).
      destruct (finish_growth target _ _ _ Hb' Hn Hv) as (h'' & Hf & Hg).
      exists h''. split; [|done]. erewrite hbind_ok; [exact Hf|].
      rewrite (hbind_ok _ _ _ _ _ Hctxt), hassert_true by lia.
      erewrite (hbind_ok _ _ h (Some b)); [exact Hm|]. unfold MemoryContextAlloc. by rewrite Ha.
    + left. eexists. apply hbind_panic. rewrite (hbind_ok _ _ _ _ _ Hctxt), hassert_true by lia.
      erewrite (hbind_ok _ _ h None); [done|]. unfold MemoryContextAlloc. by rewrite Ha.
    + left. eexists. apply hbind_panic. rewrite (hbind_ok _ _ _ _ _ Hctxt), hassert_true by lia.
      apply hbind_panic. unfold MemoryContextAlloc. by rewrite Ha.
  - destruct (block_split_inv _ _ _ _ _ Hb He) as (b & Hbe & Hbl).
    destruct (repalloc_cells b target Hbe Hbl Ht) as [(w & Hw)|(h1 & p & Hr & h' & cs' & Hw & Hb' & Hn & Hv)].
    { left. exists w. apply hbind_panic. by apply hbind_panic. }
    right. destruct (finish_growth target _ _ _ Hb' Hn Hv) as (h'' & Hf & Hg).
    exists h''. split; [|done].
    erewrite hbind_ok; [exact Hf|]. by erewrite hbind_ok; [exact Hw|].
Qed.
End Growing.

(** ** Lists that hold values *)

Section Values.
Context `{Laws : AllocatorLaws} `{EnL : EnlistLaws T} (cfg : build).
Implicit Types (vs : list T) (hf h : heap) (l : positive).

(** The invariant of a list: the tag of its type, one value at least, no more
    than the capacity, a capacity the array has and a [c_int] can count. *)
Record holds (hd : pg_List) (cs : list ListCell) (vs : list T) : Prop := {
  holds_tag : type_ hd = LIST_TAG (T := T);
  holds_length : llength hd = Z.of_nat (length vs);
  holds_nonempty : 0 < llength hd;
  holds_capacity : llength hd <= max_length hd <= I32_MAX;
  holds_array : max_length hd <= Z.of_nat (length cs);
  holds_values : take (length vs) cs = endocytosis <$> vs;
}.

Definition rep hf h l vs : Prop := exists hd cs, block hf l hd cs h /\ holds hd cs vs.

Definition list_rep hf h (self : List_) vs : Prop :=
  match self with Nil => h = hf /\ vs = [] | Cons l => rep hf h l vs end.

Lemma holds_lookup hd cs vs (i : nat) v : holds hd cs vs -> vs !! i = Some v -> cs !! i = Some (endocytosis v).
Proof.
  intros Hh Hi. assert (i < length vs)%nat by (by eapply lookup_lt_Some).
  rewrite <- (lookup_take_lt cs (length vs)) by done. rewrite (holds_values _ _ _ Hh), list_lookup_fmap. by rewrite Hi.
Qed.

Lemma block_deref hf l hd cs h i v :
  block hf l hd cs h -> 0 <= i -> cs !! Z.to_nat i = Some (endocytosis v) ->
  deref (T := T) (cell_add (elements hd) i) h = (Returned v, h).
Proof.
  intros Hb Hi Hv. assert (Z.to_nat i < length cs)%nat by (by eapply lookup_lt_Some).
  unfold deref. rewrite (hbind_ok _ _ _ _ _ (block_read_cells _ _ _ _ _ Hb i 1 ltac:(lia) ltac:(lia) ltac:(lia))).
  rewrite (drop_S _ _ _ Hv). simpl. by rewrite apoptosis_endocytosis.
Qed.

Lemma len_spec hf h self vs : list_rep hf h self vs -> len self h = (Returned (Z.of_nat (length vs)), h).
Proof.
  destruct self as [|l]; simpl; [by intros [-> ->]|]. intros (hd & cs & Hb & Hh).
  unfold head_len. rewrite (hbind_ok _ _ _ _ _ (block_read_list _ _ _ _ _ Hb)). unfold hret.
  destruct Hh. rewrite as_usize_small by lia. by rewrite holds_length0.
Qed.

(** Reserving keeps the values and makes room, or changes nothing. *)
Lemma reserve_block hf h l hd cs vs count :
  block hf l hd cs h -> holds hd cs vs -> 0 <= count ->
  (max_length hd - llength hd < count /\ exists w, reserve cfg l count h = (Panicked w, h))
  \/ (exists h' hd' cs', reserve cfg l count h = (Returned tt, h') /\ block hf l hd' cs' h'
        /\ holds hd' cs' vs /\ count <= max_length hd' - llength hd'
        /\ (count <= max_length hd - llength hd -> h' = h)).
Proof.
  intros Hb Hh Hc. pose proof Hh as [? Hlen ? ? ? Hv]. unfold reserve.
  rewrite (hbind_ok _ _ _ _ _ (block_read_list _ _ _ _ _ Hb)), !hassert_true by lia.
  rewrite as_usize_small by lia. case_match; [|right; exists h, hd, cs; by repeat (split; [done || lia|])].
  unfold i32_try_from. destruct (count <=? I32_MAX) eqn:Hc1; [|left; split; [lia|by eexists]].
  rewrite unwrap_some. unfold i32_checked_add.
  destruct (_ && _) eqn:Hc2; [|left; split; [lia|by eexists]]. rewrite unwrap_some.
  destruct (grow_list_spec cfg _ _ _ _ _ Hb ltac:(lia) (llength hd + count) ltac:(lia))
    as [(w & Hw)|(h' & -> & (p & cs' & Hb' & Hn & Ht) & Hmax)]; [left; split; [lia|by exists w]|].
  right. eexists h', _, cs'. split; [done|]. split; [exact Hb'|]. split; [|split; [simpl; lia|lia]].
  rewrite Hlen, Nat2Z.id in Ht. constructor; simpl; try done; [lia..|]. by rewrite Ht.
Qed.

Lemma holds_push hd cs vs v :
  holds hd cs vs -> llength hd < max_length hd ->
  holds (with_length (llength hd + 1) hd) (list_inserts (length vs) [endocytosis v] cs) (vs ++ [v]).
Proof.
  intros [? Hlen ? ? ? Hv] Hroom. constructor; cbn [with_length llength max_length type_]; try done.
  - rewrite length_app; simpl. lia.
  - lia.
  - lia.
  - by rewrite length_list_inserts.
  - rewrite list_inserts_eq by (simpl; lia). rewrite fmap_app, length_app, Hv, app_assoc. simpl.
    rewrite take_app_length' by (rewrite length_app, length_fmap; done). done.
Qed.

Lemma push_room hf h l hd cs vs v :
  block hf l hd cs h -> holds hd cs vs -> llength hd < max_length hd ->
  exists h', (write_cells (cell_add (elements hd) (llength hd)) [endocytosis v] ;;;
              write_list l (with_length (llength hd + 1) hd)) h = (Returned tt, h')
    /\ rep hf h' l (vs ++ [v]).
Proof.
  intros Hb Hh Hroom. pose proof Hh as [? Hlen ? ? ? ?].
  destruct (block_write_cells _ _ _ _ _ Hb (llength hd) [endocytosis v]) as (h1 & Hw & Hb1); [lia|simpl; lia|].
  destruct (block_write_list _ _ _ _ _ Hb1 (with_length (llength hd + 1) hd) eq_refl) as (h2 & Hw2 & Hb2).
  exists h2. rewrite (hbind_ok _ _ _ _ _ Hw). split; [done|].
  eexists _, _. split; [exact Hb2|]. rewrite Hlen at 2. rewrite Nat2Z.id. by apply holds_push.
Qed.

(** Pushing appends; it panics, changing nothing, only where the list is full. *)
Lemma push_block hf h l hd cs vs v :
  block hf l hd cs h -> holds hd cs vs ->
  (exists h', push cfg l v h = (Returned tt, h') /\ rep hf h' l (vs ++ [v]))
  \/ (llength hd = max_length hd /\ exists w, push cfg l v h = (Panicked w, h)).
Proof.
  intros Hb Hh. pose proof Hh as [? Hlen ? ? ? ?]. unfold push.
  rewrite (hbind_ok _ _ _ _ _ (block_read_list _ _ _ _ _ Hb)), !hassert_true by lia.
  case_match.
  - rewrite as_usize_small by lia.
    destruct (reserve_block _ _ _ _ _ _ (max_length hd) Hb Hh ltac:(lia))
      as [(? & w & Hw)|(h' & hd' & cs' & Hr & Hb' & Hh' & Hroom & _)].
    { right. split; [lia|]. exists w. by apply hbind_panic. }
    left. rewrite (hbind_ok _ _ _ _ _ Hr), (hbind_ok _ _ _ _ _ (block_read_list _ _ _ _ _ Hb')).
    eapply push_room; [done..|lia].
  - left. rewrite hbind_ret, (hbind_ok _ _ _ _ _ (block_read_list _ _ _ _ _ Hb)).
    eapply push_room; [done..|lia].
Qed.

Lemma new_list_spec hf v mcx :
  mcx <> 0 ->
  (exists self h', unstable_push_in_context cfg Nil v mcx hf = (Returned self, h') /\ list_rep hf h' self [v])
  \/ (exists w, unstable_push_in_context cfg Nil v mcx hf = (Panicked w, hf)).
Proof.
  intros Hmcx. unfold unstable_push_in_context. cbv zeta.
  destruct (MemoryContextAllocExtended_at hf mcx 128) as [l| |w] eqn:Ha.
  - left. pose proof (alloc_extended_fresh _ _ _ _ Ha) as Hl.
    set (cs := endocytosis v :: replicate 12 uninit).
    exists (Cons l). eexists. split.
    + erewrite (hbind_ok _ _ hf (Some l)); [|unfold alloc_bytes, MemoryContextAllocExtended; by rewrite Ha].
      erewrite (hbind_ok _ _ _ tt); [|unfold write_cells; simpl; by map_simpl].
      erewrite (hbind_ok _ _ _ tt); [|unfold write_list; map_simpl; done].
      unfold downcast_ptr_in_memcx, head_downcast_ptr, len, head_len, read_list, hbind. map_simpl. simpl.
      rewrite decide_True by done. simpl. map_simpl. done.
    + simpl. map_simpl. eexists _, cs. split; [by constructor|]. constructor; done.
  - right. eexists. erewrite (hbind_ok _ _ hf None); [done|].
    unfold alloc_bytes, MemoryContextAllocExtended. by rewrite Ha.
  - right. eexists. apply hbind_panic. unfold alloc_bytes, MemoryContextAllocExtended. by rewrite Ha.
Qed.

(** [unstable_push_in_context]: a new list in the context, or a push. *)
Lemma push_in_context_spec hf h self vs v mcx :
  list_rep hf h self vs -> mcx <> 0 ->
  (exists self' h', unstable_push_in_context cfg self v mcx h = (Returned self', h') /\ list_rep hf h' self' (vs ++ [v]))
  \/ (exists w, unstable_push_in_context cfg self v mcx h = (Panicked w, h)).
Proof.
  destruct self as [|l].
  - intros [-> ->]. apply new_list_spec.
  - intros (hd & cs & Hb & Hh) _. unfold unstable_push_in_context.
    destruct (push_block _ _ _ _ _ _ v Hb Hh) as [(h' & Hp & Hr)|(_ & w & Hw)].
    + left. exists (Cons l), h'. by rewrite (hbind_ok _ _ _ _ _ Hp).
    + right. exists w. by apply hbind_panic.
Qed.

(** [try_push] never allocates: it appends or hands the list back. *)
Lemma try_push_spec hf h self vs v :
  list_rep hf h self vs ->
  (exists h', try_push cfg self v h = (Returned (Some tt), h') /\ list_rep hf h' self (vs ++ [v]))
  \/ try_push cfg self v h = (Returned None, h).
Proof.
  destruct self as [|l]; [by right|]. intros Hr. pose proof Hr as (hd & cs & Hb & Hh).
  pose proof Hh as [? Hlen ? ? ? ?]. unfold try_push.
  assert (Hc : capacity (Cons l) h = (Returned (max_length hd), h)).
  { unfold capacity, head_capacity. rewrite (hbind_ok _ _ _ _ _ (block_read_list _ _ _ _ _ Hb)).
    by rewrite as_usize_small by lia. }
  rewrite (hbind_ok _ _ _ _ _ Hc), (hbind_ok _ _ _ _ _ (len_spec _ _ _ _ Hr)).
  case_match; [by right|]. left.
  destruct (push_block _ _ _ _ _ _ v Hb Hh) as [(h' & Hp & Hr')|(? & _)]; [|lia].
  exists h'. by rewrite (hbind_ok _ _ _ _ _ Hp).
Qed.

Lemma try_reserve_spec hf h self vs count :
  list_rep hf h self vs -> 0 <= count ->
  (exists h', try_reserve cfg self count h = (Returned (if is_empty self then None else Some tt), h')
     /\ list_rep hf h' self vs)
  \/ (exists w, try_reserve cfg self count h = (Panicked w, h)).
Proof.
  destruct self as [|l]; [left; by exists h|]. intros (hd & cs & Hb & Hh) Hc. unfold try_reserve.
  destruct (reserve_block _ _ _ _ _ _ count Hb Hh Hc) as [(_ & w & Hw)|(h' & hd' & cs' & Hr & Hb' & Hh' & _)].
  - right. exists w. by apply hbind_panic.
  - left. exists h'. rewrite (hbind_ok _ _ _ _ _ Hr). split; [done|]. by exists hd', cs'.
Qed.

(** *** Reading and writing *)

Lemma as_cells_spec hf h l hd cs vs :
  block hf l hd cs h -> holds hd cs vs ->
  as_cells (Cons l) h = (Returned (Some {| sl_ptr := elements hd; sl_len := Z.of_nat (length vs) |}), h).
Proof.
  intros Hb Hh. pose proof Hh as [? Hlen ? ? ? ?]. unfold as_cells.
  rewrite (hbind_ok _ _ _ _ _ (block_read_list _ _ _ _ _ Hb)).
  assert (Hr : list_rep hf h (Cons l) vs) by (by exists hd, cs).
  rewrite (hbind_ok _ _ _ _ _ (len_spec _ _ _ _ Hr)). unfold from_raw_parts.
  pose proof (block_read_cells _ _ _ _ _ Hb 0 (Z.of_nat (length vs)) ltac:(lia) ltac:(lia) ltac:(lia)) as Hc.
  replace (cell_add (elements hd) 0) with (elements hd) in Hc by (destruct (elements hd); unfold cell_add; simpl; f_equal; lia).
  unfold hbind. by rewrite Hc.
Qed.

Lemma get_spec hf h self vs i :
  list_rep hf h self vs -> 0 <= i -> get (T := T) self i h = (Returned (vs !! Z.to_nat i), h).
Proof.
  destruct self as [|l]; [by intros [-> ->]|]. intros (hd & cs & Hb & Hh) Hi. unfold get.
  rewrite (hbind_ok _ _ _ _ _ (as_cells_spec _ _ _ _ _ _ Hb Hh)). simpl.
  destruct (i <? Z.of_nat (length vs)) eqn:Hlt.
  - destruct (lookup_lt_is_Some_2 vs (Z.to_nat i)) as [v Hv]; [lia|].
    rewrite Hv, (hbind_ok _ _ _ _ _ (block_deref _ _ _ _ _ i v Hb Hi (holds_lookup _ _ _ _ _ Hh Hv))). done.
  - rewrite lookup_ge_None_2 by lia. done.
Qed.

Lemma holds_set hd cs vs i v :
  holds hd cs vs -> (i < length vs)%nat -> holds hd (list_inserts i [endocytosis v] cs) (<[i := v]> vs).
Proof.
  intros [? Hlen ? ? ? Hv] Hi. constructor; rewrite ?length_insert; try done.
  - by rewrite length_list_inserts.
  - simpl. rewrite take_insert_lt by lia. by rewrite Hv, list_fmap_insert.
Qed.

Lemma set_spec hf h self vs i v :
  list_rep hf h self vs -> 0 <= i ->
  exists h', set self i v h = (Returned (if decide (Z.to_nat i < length vs)%nat then Some tt else None), h')
    /\ list_rep hf h' self (<[Z.to_nat i := v]> vs).
Proof.
  destruct self as [|l]; [intros [-> ->] _; by exists hf|]. intros (hd & cs & Hb & Hh) Hi.
  assert (Hg : get_mut (Cons l) i h
    = (Returned (slice_get (Some {| sl_ptr := elements hd; sl_len := Z.of_nat (length vs) |}) i), h)).
  { unfold get_mut. rewrite (hbind_ok _ _ _ _ _ (as_cells_spec _ _ _ _ _ _ Hb Hh)). reflexivity. }
  unfold set. rewrite (hbind_ok _ _ _ _ _ Hg). simpl. pose proof Hh as [? Hlen ? ? ? ?]. case_decide.
  - destruct (block_write_cells _ _ _ _ _ Hb i [endocytosis v]) as (h' & Hw & Hb'); [lia|simpl; lia|].
    exists h'. rewrite (proj2 (Z.ltb_lt _ _)) by lia.
    rewrite (hbind_ok _ _ _ _ _ Hw). split; [done|]. eexists _, _. split; [exact Hb'|]. by apply holds_set.
  - exists h. split; [by rewrite (proj2 (Z.ltb_ge _ _)) by lia|]. rewrite list_insert_ge by lia. by exists hd, cs.
Qed.

(** *** Iterating *)

(** The values that the cells from [i] to [e] hold. *)
Definition between (i e : Z) vs : list T := take (Z.to_nat (e - i)) (drop (Z.to_nat i) vs).

Lemma between_cons i e vs v :
  0 <= i < e -> vs !! Z.to_nat i = Some v -> between i e vs = v :: between (i + 1) e vs.
Proof.
  intros Hi Hv. unfold between. rewrite (drop_S _ _ _ Hv).
  replace (Z.to_nat (e - i)) with (S (Z.to_nat (e - (i + 1)))) by lia. simpl. do 3 f_equal. lia.
Qed.

Lemma between_nil i e vs : e <= i -> between i e vs = [].
Proof. intros He. unfold between. by replace (Z.to_nat (e - i)) with O by lia. Qed.

Lemma deref_all_spec hf l hd cs h vs :
  block hf l hd cs h -> holds hd cs vs ->
  forall n i, 0 <= i -> (Z.to_nat i + n)%nat = length vs ->
  deref_all (T := T) (cell_add (elements hd) i) n h = (Returned (drop (Z.to_nat i) vs), h).
Proof.
  intros Hb Hh. induction n as [|n IH]; intros i Hi Hn; simpl.
  { by rewrite drop_ge by lia. }
  destruct (lookup_lt_is_Some_2 vs (Z.to_nat i)) as [v Hv]; [lia|].
  rewrite (hbind_ok _ _ _ _ _ (block_deref _ _ _ _ _ i v Hb Hi (holds_lookup _ _ _ _ _ Hh Hv))).
  replace (cell_add (cell_add (elements hd) i) 1) with (cell_add (elements hd) (i + 1))
    by (unfold cell_add; simpl; f_equal; lia).
  rewrite (hbind_ok _ _ _ _ _ (IH (i + 1) ltac:(lia) ltac:(lia))), (drop_S _ _ _ Hv).
  by replace (Z.to_nat (i + 1)) with (S (Z.to_nat i)) by lia.
Qed.

(** [iter] yields the values; [iter_mut] lends the cells that [get_mut] lends. *)
Lemma iter_spec hf h self vs : list_rep hf h self vs -> iter (T := T) self h = (Returned vs, h).
Proof.
  destruct self as [|l]; [by intros [-> ->]|]. intros (hd & cs & Hb & Hh). unfold iter.
  rewrite (hbind_ok _ _ _ _ _ (as_cells_spec _ _ _ _ _ _ Hb Hh)). simpl. rewrite Nat2Z.id.
  pose proof (deref_all_spec _ _ _ _ _ _ Hb Hh (length vs) 0 ltac:(lia) eq_refl) as Hd.
  by replace (cell_add (elements hd) 0) with (elements hd) in Hd
    by (destruct (elements hd); unfold cell_add; simpl; f_equal; lia).
Qed.

Lemma iter_mut_spec hf h self vs i :
  list_rep hf h self vs -> 0 <= i ->
  exists ps, iter_mut self h = (Returned ps, h) /\ length ps = length vs /\ get_mut self i h = (Returned (ps !! Z.to_nat i), h).
Proof.
  destruct self as [|l]; [intros [-> ->] _; by exists []|]. intros (hd & cs & Hb & Hh) Hi.
  unfold iter_mut, get_mut. rewrite !(hbind_ok _ _ _ _ _ (as_cells_spec _ _ _ _ _ _ Hb Hh)). simpl.
  eexists. split; [done|]. rewrite length_fmap, length_seqZ. split; [lia|]. unfold hret. do 2 f_equal.
  rewrite list_lookup_fmap. destruct (i <? Z.of_nat (length vs)) eqn:Hlt.
  - rewrite lookup_seqZ_lt by lia. simpl. do 2 f_equal. lia.
  - by rewrite lookup_seqZ_ge by lia.
Qed.

(** An iterator type that carries a [RawCellIter] and forwards [next] to it. *)
Definition forwards {S} (next : S -> H (option T * S)) (upd : S -> RawCellIter -> S) (view : S -> RawCellIter) : Prop :=
  (forall st, next st = (r <~ raw_next (view st) ;; hret (fst r, upd st (snd r))))
  /\ (forall st it, view (upd st it) = it)
  /\ (forall st it it', upd (upd st it) it' = upd st it')
  /\ (forall st, upd st (view st) = st).

(** Asking [k] times yields the next values in order, at most those that are left. *)
Lemma take_next_spec {S} (next : S -> H (option T * S)) upd view hf l hd cs h vs k :
  forwards next upd view -> block hf l hd cs h ->
  (forall j v, vs !! j = Some v -> cs !! j = Some (endocytosis v)) ->
  forall st i e, view st = Some (cell_add (elements hd) i, cell_add (elements hd) e) ->
  0 <= i -> e <= Z.of_nat (length vs) ->
  exists it, take_next next k st h = (Returned (take k (between i e vs), upd st it), h).
Proof.
  intros (Hn & Hvu & Huu & Huv) Hb Hcs. induction k as [|k IH]; intros st i e Hst Hi He; simpl.
  { exists (view st). by rewrite Huv. }
  rewrite Hn, Hst. unfold raw_next. unfold cell_add at 1 2; simpl.
  destruct (decide (i < e)) as [Hlt|Hge].
  - rewrite (proj2 (Z.ltb_lt _ _)) by lia.
    destruct (lookup_lt_is_Some_2 vs (Z.to_nat i)) as [v Hv]; [lia|].
    pose proof (block_deref _ _ _ _ _ i v Hb Hi (Hcs _ _ Hv)) as Hd.
    destruct (IH (upd st (Some (cell_add (elements hd) (i + 1), cell_add (elements hd) e))) (i + 1) e) as [it Hit];
      [by rewrite Hvu|lia|lia|].
    exists it. unfold hbind. rewrite Hd. simpl.
    replace (cell_add (cell_add (elements hd) i) 1) with (cell_add (elements hd) (i + 1))
      by (unfold cell_add; simpl; f_equal; lia).
    rewrite Hit. simpl. by rewrite Huu, (between_cons i e vs v) by (done || lia).
  - rewrite (proj2 (Z.ltb_ge _ _)) by lia. unfold hbind; simpl.
    rewrite between_nil by lia. eexists. done.
Qed.

Lemma drain_forwards :
  forwards drain_next
    (fun d it => {| tail_start := tail_start d; tail_len := tail_len d; d_iter := it; d_raw := d_raw d |}) d_iter.
Proof. split; [done|]. split; [done|]. split; [done|]. by intros []. Qed.

Lemma iter_forwards : forwards iter_next (fun d it => {| li_list := li_list d; li_iter := it |}) li_iter.
Proof. split; [done|]. split; [done|]. split; [done|]. by intros []. Qed.

(** [into_iter] yields the values in order and frees both chunks. *)
Lemma consume_spec hf h self vs k :
  list_rep hf h self vs -> consume_take (T := T) self k h = (Returned (take k vs), hf).
Proof.
  intros Hr. unfold consume_take.
  assert (Hi : exists it, into_iter self h = (Returned it, h) /\ li_list it = self /\
     exists it', take_next iter_next k it h = (Returned (take k vs, {| li_list := self; li_iter := it' |}), h)).
  { unfold into_iter. rewrite (hbind_ok _ _ _ _ _ (len_spec _ _ _ _ Hr)).
    destruct self as [|l].
    { destruct Hr as [-> ->]. eexists. do 2 (split; [done|]). exists None.
      by destruct k. }
    destruct Hr as (hd & cs & Hb & Hh). rewrite (hbind_ok _ _ _ _ _ (block_read_list _ _ _ _ _ Hb)).
    eexists. do 2 (split; [done|]).
    destruct (take_next_spec _ _ _ _ _ _ _ _ vs k iter_forwards Hb (fun j v => holds_lookup _ _ _ j v Hh)
      {| li_list := Cons l; li_iter := Some (elements hd, cell_add (elements hd) (Z.of_nat (length vs))) |}
      0 (Z.of_nat (length vs))) as [it Hit]; [|lia|lia|].
    { simpl. do 2 f_equal. destruct (elements hd); unfold cell_add; simpl. f_equal. lia. }
    exists it. rewrite Hit. unfold between. by rewrite Z.sub_0_r, Nat2Z.id, drop_0, firstn_all. }
  destruct Hi as (it & Hi & Hl & it' & Ht). rewrite (hbind_ok _ _ _ _ _ Hi), (hbind_ok _ _ _ _ _ Ht). simpl.
  destruct self as [|l]; [by destruct Hr as [-> ->]|]. destruct Hr as (hd & cs & Hb & Hh).
  unfold drop_iter; simpl. by rewrite (hbind_ok _ _ _ _ _ (block_destroy _ _ _ _ _ Hb)).
Qed.

(** *** Draining *)

Definition drained (l : positive) hd (s t n : Z) : List_ * Drain :=
  (if s =? 0 then Nil else Cons l,
   {| tail_start := t; tail_len := n - t;
      d_iter := Some (cell_add (elements hd) s, cell_add (elements hd) t); d_raw := Some l |}).

Lemma drain_block hf h l hd cs vs sb eb s t :
  block hf l hd cs h -> holds hd cs vs ->
  drain_start cfg sb h = (Returned s, h) -> drain_end cfg eb (Z.of_nat (length vs)) h = (Returned t, h) ->
  0 <= s <= Z.of_nat (length vs) -> 0 <= t <= Z.of_nat (length vs) ->
  s + (Z.of_nat (length vs) - t) <= I32_MAX ->
  exists h1, drain cfg (Cons l) sb eb h = (Returned (drained l hd s t (Z.of_nat (length vs))), h1)
    /\ block hf l (with_length s hd) cs h1.
Proof.
  intros Hb Hh Hs Ht Hs' Ht' Hmax. assert (Hr : list_rep hf h (Cons l) vs) by (by exists hd, cs).
  pose proof Hh as [? Hlen ? ? ? ?]. unfold drain.
  rewrite (hbind_ok _ _ _ _ _ (len_spec _ _ _ _ Hr)), (hbind_ok _ _ _ _ _ Hs), (hbind_ok _ _ _ _ _ Ht).
  rewrite !hassert_true by lia. simpl. rewrite (hbind_ok _ _ _ _ _ (block_read_list _ _ _ _ _ Hb)).
  destruct (block_write_list _ _ _ _ _ Hb (with_length s hd) eq_refl) as (h1 & Hw & Hb1).
  exists h1. by rewrite (hbind_ok _ _ _ _ _ Hw).
Qed.

Lemma take_drop_values hd cs vs s t :
  holds hd cs vs -> (s <= length vs)%nat -> (t <= length vs)%nat ->
  take s cs ++ take (length vs - t) (drop t cs) = endocytosis <$> take s vs ++ drop t vs.
Proof.
  intros Hh Hs Ht. rewrite fmap_app, fmap_take, fmap_drop, <- (holds_values _ _ _ Hh), take_take.
  f_equal; [f_equal; lia|]. by rewrite skipn_firstn_comm.
Qed.

(** Dropping the [Drain]: the list is gone, or the tail follows the head. *)
Lemma drop_drain_block hf h1 l hd cs vs s t origin it :
  block hf l (with_length s hd) cs h1 -> holds hd cs vs ->
  0 <= s <= Z.of_nat (length vs) -> 0 <= t <= Z.of_nat (length vs) ->
  let d := {| tail_start := t; tail_len := Z.of_nat (length vs) - t; d_iter := it; d_raw := Some l |} in
  let rest := take (Z.to_nat s) vs ++ drop (Z.to_nat t) vs in
  (rest = [] -> drop_drain origin d h1 = (Returned origin, hf))
  /\ (rest <> [] -> Z.of_nat (length rest) <= max_length hd ->
      exists h2, drop_drain origin d h1 = (Returned (Cons l), h2) /\ rep hf h2 l rest)
  /\ (Z.of_nat (length cs) < Z.of_nat (length rest) -> exists h2, drop_drain origin d h1 = (Undefined, h2)).
Proof.
  intros Hb Hh Hs Ht d rest. pose proof Hh as [? Hlen ? ? ? ?].
  assert (Hrest : Z.of_nat (length rest) = s + (Z.of_nat (length vs) - t)).
  { unfold rest. rewrite length_app, length_take, length_drop. lia. }
  unfold drop_drain. simpl. rewrite (hbind_ok _ _ _ _ _ (block_read_list _ _ _ _ _ Hb)). simpl.
  split; [|split].
  - intros Hnil. rewrite Hnil in Hrest. simpl in Hrest.
    rewrite (proj2 (Z.eqb_eq _ _)), (proj2 (Z.eqb_eq _ _)) by lia. simpl.
    by rewrite (hbind_ok _ _ _ _ _ (block_destroy _ _ _ _ _ Hb)).
  - intros Hne Hcap. assert (0 < Z.of_nat (length rest)) by (destruct rest; [done|simpl; lia]).
    destruct (_ && _) eqn:Hz; [lia|]. unfold copy_cells.
    pose proof (block_read_cells _ _ _ _ _ Hb t (Z.of_nat (length vs) - t) ltac:(lia) ltac:(lia) ltac:(lia)) as Hc.
    simpl in Hc. set (tl := take (Z.to_nat (Z.of_nat (length vs) - t)) (drop (Z.to_nat t) cs)) in *.
    assert (Htl : Z.of_nat (length tl) = Z.of_nat (length vs) - t).
    { unfold tl. rewrite length_take, length_drop. lia. }
    destruct (block_write_cells _ _ _ _ _ Hb s tl) as (h2 & Hw & Hb2); [lia|lia|]. simpl in Hw.
    erewrite (hbind_ok _ _ h1 tt h2); [|by rewrite (hbind_ok _ _ _ _ _ Hc)].
    rewrite (hbind_ok _ _ _ _ _ (block_read_list _ _ _ _ _ Hb2)). simpl.
    destruct (block_write_list _ _ _ _ _ Hb2 (with_length (s + (Z.of_nat (length vs) - t)) hd) eq_refl)
      as (h3 & Hw3 & Hb3).
    exists h3. erewrite (hbind_ok _ _ h2 tt h3); [|done]. split; [done|]. eexists _, _. split; [exact Hb3|].
    constructor; simpl; try done; [lia..|rewrite length_list_inserts; lia|].
    rewrite list_inserts_eq, app_assoc, take_app_length'
      by (rewrite ?length_app, ?length_take; lia).
    unfold tl. replace (Z.to_nat (Z.of_nat (length vs) - t)) with (length vs - Z.to_nat t)%nat by lia.
    apply (take_drop_values hd); [done|lia..].
  - intros Hout. destruct (_ && _) eqn:Hz; [lia|]. eexists. apply hbind_undefined. unfold copy_cells.
    pose proof (block_read_cells _ _ _ _ _ Hb t (Z.of_nat (length vs) - t) ltac:(lia) ltac:(lia) ltac:(lia)) as Hc.
    simpl in Hc. rewrite (hbind_ok _ _ _ _ _ Hc).
    apply (block_write_outside _ _ _ _ _ Hb). rewrite length_take, length_drop. lia.
Qed.
End Values.
