(* ===== verification/ListOps.v ===== *)
(** * Programs that use Postgres lists

    A client's operations on a list, one after the other, against the same
    operations on a sequence: what is drained, what a forgotten [Drain] leaves, what
    a range that ends before it starts does, and that a list which is consumed at
    the end gives back every chunk it took. *)
From stdpp Require Import base gmap list fin_maps strings.
From S2P Require Import Prelude Memory FlatList FlatListSafe.
#[local] Open Scope Z_scope.
#[local] Open Scope heap_scope.

(** ** Ranges *)

Definition bound_ok (b : Bound) : bool :=
  match b with Unbounded => true | Included n | Excluded n => (0 <=? n) && (n <? USIZE_MOD) end.

(** The indices of a range, as [RangeBounds] has them. *)
Definition in_range (sb eb : Bound) (i : Z) : bool :=
  match sb with Unbounded => true | Included a => a <=? i | Excluded a => a <? i end
  && match eb with Unbounded => true | Included b => i <=? b | Excluded b => i <? b end.

(** The range is one of a list of [n] values. *)
Definition within (sb eb : Bound) (n : Z) : bool :=
  match sb with Unbounded => true | Included a => a <=? n | Excluded a => a <? n end
  && match eb with Unbounded => true | Included b => b <? n | Excluded b => b <=? n end.

(** The range does not end before it starts. *)
Definition ordered (sb eb : Bound) : bool :=
  match sb, eb with
  | Unbounded, _ | _, Unbounded => true
  | Included a, Included b => a <=? b + 1
  | Included a, Excluded b | Excluded a, Included b => a <=? b
  | Excluded a, Excluded b => a <? b
  end.

(** The last index can be counted beyond, or counting beyond it is checked. *)
Definition countable (cfg : build) (sb eb : Bound) : bool :=
  overflow_checks cfg ||
  (match sb with Excluded a => a + 1 <? USIZE_MOD | _ => true end && match eb with Included b => b + 1 <? USIZE_MOD | _ => true end).

(** The values at the indices that are kept, from the [i]th on. *)
Fixpoint select {A} (keep : Z -> bool) (i : Z) (vs : list A) : list A :=
  match vs with
  | [] => []
  | v :: vs => if keep i then v :: select keep (i + 1) vs else select keep (i + 1) vs
  end.

Lemma select_all {A} keep i (vs : list A) : (forall j, i <= j < i + Z.of_nat (length vs) -> keep j = true) -> select keep i vs = vs.
Proof.
  revert i. induction vs as [|v vs IH]; intros i Hk; cbn in *; [done|]. rewrite Hk by lia. f_equal. apply IH. intros j Hj. apply Hk. lia.
Qed.

Lemma select_none {A} keep i (vs : list A) : (forall j, i <= j < i + Z.of_nat (length vs) -> keep j = false) -> select keep i vs = [].
Proof.
  revert i. induction vs as [|v vs IH]; intros i Hk; cbn in *; [done|]. rewrite Hk by lia. apply IH. intros j Hj. apply Hk. lia.
Qed.

Lemma select_app {A} keep i (vs ws : list A) :
  select keep i (vs ++ ws) = select keep i vs ++ select keep (i + Z.of_nat (length vs)) ws.
Proof.
  revert i. induction vs as [|v vs IH]; intros i; cbn [app select length]; [by rewrite Z.add_0_r|].
  rewrite IH. replace (i + 1 + Z.of_nat (length vs)) with (i + Z.of_nat (S (length vs))) by lia. by destruct (keep i).
Qed.

(** The indices from [s] to before [t] are a segment, and what is left are the two ends. *)
Lemma select_segment {A} keep s t (vs : list A) :
  (forall i, 0 <= i < Z.of_nat (length vs) -> keep i = (s <=? i) && (i <? t)) -> 0 <= s <= t -> t <= Z.of_nat (length vs) ->
  select keep 0 vs = between s t vs
  /\ select (fun i => negb (keep i)) 0 vs = take (Z.to_nat s) vs ++ drop (Z.to_nat t) vs.
Proof.
  intros Hk Hs Ht. unfold between.
  assert (Hvs : vs = take (Z.to_nat s) vs ++ take (Z.to_nat t - Z.to_nat s) (drop (Z.to_nat s) vs) ++ drop (Z.to_nat t) vs).
  { replace (drop (Z.to_nat t) vs) with (drop (Z.to_nat t - Z.to_nat s) (drop (Z.to_nat s) vs))
      by (rewrite drop_drop; f_equal; lia). by rewrite !take_drop. }
  set (a := take (Z.to_nat s) vs) in *. set (c := drop (Z.to_nat t) vs) in *.
  set (m := take (Z.to_nat t - Z.to_nat s) (drop (Z.to_nat s) vs)) in *.
  assert (La : Z.of_nat (length a) = s) by (unfold a; rewrite length_take; lia).
  assert (Lm : Z.of_nat (length m) = t - s) by (unfold m; rewrite length_take, length_drop; lia).
  assert (Lc : Z.of_nat (length c) = Z.of_nat (length vs) - t) by (unfold c; rewrite length_drop; lia).
  replace (take (Z.to_nat (t - s)) (drop (Z.to_nat s) vs)) with m by (unfold m; f_equal; lia).
  rewrite Hvs, !select_app, La, Lm. split.
  - rewrite (select_none _ 0 a), (select_all _ (0 + s) m), (select_none _ (0 + s + (t - s)) c), app_nil_r; [done|..];
      intros j Hj; rewrite Hk by lia; lia.
  - rewrite (select_all _ 0 a), (select_none _ (0 + s) m), (select_all _ (0 + s + (t - s)) c); [done|..];
      intros j Hj; rewrite Hk by lia; lia.
Qed.

Lemma usize_succ_ok oc n h : 0 <= n -> n + 1 < USIZE_MOD -> usize_succ oc n h = (Returned (n + 1), h).
Proof. intros Hn Hm. unfold usize_succ. by rewrite (proj2 (Z.ltb_lt _ _)). Qed.

Lemma usize_succ_cases oc n :
  0 <= n -> (oc || (n + 1 <? USIZE_MOD)) = true ->
  (n + 1 < USIZE_MOD /\ forall h, usize_succ oc n h = (Returned (n + 1), h))
  \/ (USIZE_MOD <= n + 1 /\ exists w, forall h, usize_succ oc n h = (Panicked w, h)).
Proof.
  intros Hn Hc. unfold usize_succ. destruct (Z.ltb_spec (n + 1) USIZE_MOD) as [Hlt|Hge]; [by left|].
  destruct oc; [|done]. right. split; [done|]. by eexists.
Qed.

Section Ranges.
Context (cfg : build) (sb eb : Bound) (n : Z).
Hypothesis Hsb : bound_ok sb = true.
Hypothesis Heb : bound_ok eb = true.
Hypothesis Hc : countable cfg sb eb = true.
Hypothesis Hn : 0 <= n <= I32_MAX.

Lemma countable_start a : sb = Excluded a -> (overflow_checks cfg || (a + 1 <? USIZE_MOD)) = true.
Proof using Hc. intros E. pose proof Hc as H. unfold countable in H. rewrite E in H. clear - H. by destruct (overflow_checks cfg), (a + 1 <? USIZE_MOD). Qed.

Lemma countable_end b : eb = Included b -> (overflow_checks cfg || (b + 1 <? USIZE_MOD)) = true.
Proof using Hc.
  intros E. pose proof Hc as H. unfold countable in H. rewrite E, andb_comm in H. clear - H. by destruct (overflow_checks cfg), (b + 1 <? USIZE_MOD).
Qed.

(** A range of the list: the code's two ends bound its indices. *)
Lemma range_within : ordered sb eb = true -> within sb eb n = true ->
  exists s t, (forall h, drain_start cfg sb h = (Returned s, h)) /\ (forall h, drain_end cfg eb n h = (Returned t, h))
    /\ 0 <= s <= t /\ t <= n /\ forall i, 0 <= i < n -> in_range sb eb i = (s <=? i) && (i <? t).
Proof using Hsb Heb Hn.
  clear Hc. intros Ho [Hw1 Hw2]%andb_true_iff. unfold I32_MAX in Hn.
  set (s := match sb with Unbounded => 0 | Included a => a | Excluded a => a + 1 end).
  set (t := match eb with Unbounded => n | Included b => b + 1 | Excluded b => b end).
  exists s, t. unfold in_range, bound_ok, ordered in *. split; [|split].
  - intros h. destruct sb as [|a|a]; cbn; [done|done|]. apply usize_succ_ok; unfold USIZE_MOD; lia.
  - intros h. destruct eb as [|b|b]; cbn; [|apply usize_succ_ok; unfold USIZE_MOD; lia|done].
    unfold hret, t, I32_MAX. by rewrite Z.min_r by lia.
  - destruct sb as [|a|a], eb as [|b|b]; subst s t; cbv beta iota; (split; [lia|]); (split; [lia|]); intros i Hi; lia.
Qed.

(** A range outside of it: an end beyond the list, or beyond every [usize]. *)
Lemma range_outside h : within sb eb n = false ->
  (exists w, drain_start cfg sb h = (Panicked w, h))
  \/ exists s, drain_start cfg sb h = (Returned s, h)
     /\ ((exists w, drain_end cfg eb n h = (Panicked w, h)) \/ exists t, drain_end cfg eb n h = (Returned t, h) /\ (n < s \/ n < t)).
Proof using Hsb Heb Hc Hn.
  intros Hw. pose proof countable_start as Hcs. pose proof countable_end as Hce. clear Hc. unfold bound_ok in *.
  assert (Hs : (exists w, drain_start cfg sb h = (Panicked w, h)) \/ exists s, drain_start cfg sb h = (Returned s, h)
    /\ (match sb with Unbounded => true | Included a => a <=? n | Excluded a => a <? n end = false -> n < s)).
  { destruct sb as [|a|a]; [right; by exists 0|right; exists a; split; [done|lia]|].
    destruct (usize_succ_cases (overflow_checks cfg) a ltac:(lia) (Hcs a eq_refl)) as [[_ H]|[_ [w H]]]; [right|left; exists w; apply H].
    exists (a + 1). split; [apply H|lia]. }
  assert (Ht : (exists w, drain_end cfg eb n h = (Panicked w, h)) \/ exists t, drain_end cfg eb n h = (Returned t, h)
    /\ (match eb with Unbounded => true | Included b => b <? n | Excluded b => b <=? n end = false -> n < t)).
  { destruct eb as [|b|b]; [right; by eexists| |right; exists b; split; [done|lia]].
    destruct (usize_succ_cases (overflow_checks cfg) b ltac:(lia) (Hce b eq_refl)) as [[_ H]|[_ [w H]]]; [right|left; exists w; apply H].
    exists (b + 1). split; [apply H|lia]. }
  destruct Hs as [Hs|(s & Hs & Hs')]; [by left|]. right. exists s. split; [done|].
  destruct Ht as [Ht|(t & Ht & Ht')]; [by left|]. right. exists t. split; [done|].
  unfold within in Hw. apply andb_false_iff in Hw as [Hw|Hw]; auto.
Qed.
End Ranges.

Section Programs.
Context `{Laws : AllocatorLaws} `{EnL : EnlistLaws T} (cfg : build).
Implicit Types (vs : list T) (hf h : heap).

(** ** Draining *)

(** The list and the values after a range was drained. *)
Lemma drain_cons hf h l hd cs vs sb eb s t k :
  block hf l hd cs h -> holds hd cs vs ->
  drain_start cfg sb h = (Returned s, h) -> drain_end cfg eb (Z.of_nat (length vs)) h = (Returned t, h) ->
  0 <= s <= Z.of_nat (length vs) -> 0 <= t <= Z.of_nat (length vs) ->
  s + (Z.of_nat (length vs) - t) <= I32_MAX ->
  let rest := take (Z.to_nat s) vs ++ drop (Z.to_nat t) vs in
  (Z.of_nat (length rest) <= max_length hd ->
    exists self' h', drain_take cfg (Cons l) sb eb k h = (Returned (take k (between s t vs), self'), h')
      /\ list_rep hf h' self' rest)
  /\ (Z.of_nat (length cs) < Z.of_nat (length rest) ->
    exists h', drain_take (T := T) cfg (Cons l) sb eb k h = (Undefined, h')).
Proof.
  intros Hb Hh Hs Ht Hs' Ht' Hmax rest.
  destruct (drain_block cfg _ _ _ _ _ _ _ _ _ _ Hb Hh Hs Ht Hs' Ht' Hmax) as (h1 & Hd & Hb1).
  destruct (take_next_spec _ _ _ _ _ _ _ _ vs k drain_forwards Hb1 (fun j v => holds_lookup _ _ _ j v Hh)
     (snd (drained l hd s t (Z.of_nat (length vs)))) s t eq_refl) as [it Hit]; [lia|lia|].
  destruct (drop_drain_block _ _ _ _ _ _ _ _ (fst (drained l hd s t (Z.of_nat (length vs)))) it Hb1 Hh Hs' Ht')
    as (Hnil & Hcons & Hout).
  unfold drain_take. rewrite (hbind_ok _ _ _ _ _ Hd), (hbind_ok _ _ _ _ _ Hit). simpl snd.
  split.
  - intros Hcap. destruct (decide (rest = [])) as [He|Hne].
    + eexists _, hf. rewrite (hbind_ok _ _ _ _ _ (Hnil He)). split; [done|].
      assert (s = 0) as ->; [|done].
      unfold rest in He. apply app_eq_nil in He as [He _]. apply (f_equal length) in He.
      rewrite length_take in He. simpl in He. destruct Hh. lia.
    + destruct (Hcons Hne Hcap) as (h2 & Hd2 & Hr). exists (Cons l), h2. by rewrite (hbind_ok _ _ _ _ _ Hd2).
  - intros Hlong. destruct (Hout Hlong) as (h2 & Hd2). exists h2. by apply hbind_undefined.
Qed.

Lemma list_rep_bounded hf h self vs : list_rep hf h self vs -> Z.of_nat (length vs) <= I32_MAX.
Proof. destruct self; [by intros [_ ->]|]. intros (hd & cs & _ & []). lia. Qed.

(** A range of the list is removed, in order. *)
Lemma drain_ordered hf h self vs sb eb s t k :
  list_rep hf h self vs ->
  drain_start cfg sb h = (Returned s, h) -> drain_end cfg eb (Z.of_nat (length vs)) h = (Returned t, h) ->
  0 <= s <= t -> t <= Z.of_nat (length vs) ->
  exists self' h', drain_take cfg self sb eb k h = (Returned (take k (between s t vs), self'), h')
    /\ list_rep hf h' self' (take (Z.to_nat s) vs ++ drop (Z.to_nat t) vs).
Proof.
  intros Hr Hs Ht Hs' Ht'. pose proof (list_rep_bounded _ _ _ _ Hr). destruct self as [|l].
  - destruct Hr as [-> ->]. simpl in *. assert (s = 0 /\ t = 0) as [-> ->] by lia.
    assert (Hd : drain cfg Nil sb eb hf
                 = (Returned (Nil, {| tail_start := 0; tail_len := 0; d_iter := None; d_raw := None |}), hf)).
    { unfold drain, len. rewrite hbind_ret, (hbind_ok _ _ _ _ _ Hs), (hbind_ok _ _ _ _ _ Ht). done. }
    exists Nil, hf. unfold drain_take. rewrite (hbind_ok _ _ _ _ _ Hd). by destruct k.
  - destruct Hr as (hd & cs & Hb & Hh). apply (drain_cons _ _ _ _ _ _ _ _ _ _ _ Hb Hh Hs Ht); [lia..|].
    rewrite length_app, length_take, length_drop. destruct Hh. lia.
Qed.

(** A range outside of the list panics before anything is changed. *)
Lemma drain_outside hf h self vs sb eb s t k :
  list_rep hf h self vs ->
  drain_start cfg sb h = (Returned s, h) -> drain_end cfg eb (Z.of_nat (length vs)) h = (Returned t, h) ->
  Z.of_nat (length vs) < s \/ Z.of_nat (length vs) < t ->
  exists w, drain_take (T := T) cfg self sb eb k h = (Panicked w, h).
Proof.
  intros Hr Hs Ht Hout. unfold drain_take.
  enough (exists w, drain cfg self sb eb h = (Panicked w, h)) as [w Hw] by (exists w; by apply hbind_panic).
  unfold drain.
  rewrite (hbind_ok _ _ _ _ _ (len_spec _ _ _ _ Hr)), (hbind_ok _ _ _ _ _ Hs), (hbind_ok _ _ _ _ _ Ht).
  destruct (t <=? Z.of_nat (length vs)) eqn:Htn; [|eexists; by apply hassert_false].
  rewrite hassert_true by done. eexists. apply hassert_false. lia.
Qed.

(** ** Programs *)

Inductive list_op :=
| OpPush (v : T) | OpTryPush (v : T) | OpTryReserve (items : Z) | OpLen
| OpGet (index : Z) | OpSet (index : Z) (v : T) | OpIter | OpDrain (sb eb : Bound) (k : nat).

Inductive answer :=
| Done | Tried (accepted : bool) | Length (n : Z) | Item (o : option T) | Items (vs : list T).

Definition is_some {A} (o : option A) : bool := match o with Some _ => true | None => false end.

(** One operation of a client; new lists live in the context [mcx]. *)
Definition run_op (mcx : Z) (op : list_op) (self : List_) : H (answer * List_) :=
  match op with
  | OpPush v => self <~ unstable_push_in_context cfg self v mcx ;; hret (Done, self)
  | OpTryPush v => o <~ try_push cfg self v ;; hret (Tried (is_some o), self)
  | OpTryReserve items => o <~ try_reserve cfg self items ;; hret (Tried (is_some o), self)
  | OpLen => n <~ len self ;; hret (Length n, self)
  | OpGet i => o <~ get self i ;; hret (Item o, self)
  | OpSet i v => o <~ set self i v ;; hret (Tried (is_some o), self)
  | OpIter => vs <~ iter self ;; hret (Items vs, self)
  | OpDrain sb eb k => r <~ drain_take cfg self sb eb k ;; hret (Items (fst r), snd r)
  end.

(** A client that goes on after a panic, with the list it has. *)
Fixpoint run (mcx : Z) (ops : list list_op) (self : List_) (h : heap)
    : list (ending answer) * List_ * heap :=
  match ops with
  | [] => ([], self, h)
  | op :: ops =>
      match run_op mcx op self h with
      | (Returned (a, self'), h') => let '(outs, self'', h'') := run mcx ops self' h' in (Returned a :: outs, self'', h'')
      | (Panicked w, h') => let '(outs, self'', h'') := run mcx ops self h' in (Panicked w :: outs, self'', h'')
      | (Undefined, h') => ([Undefined], self, h')
      end
  end.

(** The same operations on a sequence.  What allocates may panic, and a range that is
    not one of the sequence does, and then the sequence is as before. *)
Definition may_panic (op : list_op) : bool :=
  match op with OpPush _ | OpTryReserve _ => true | _ => false end.

Inductive abs_step : list_op -> list T -> ending answer -> list T -> Prop :=
| abs_panic op vs w : may_panic op = true -> abs_step op vs (Panicked w) vs
| abs_push v vs : abs_step (OpPush v) vs (Returned Done) (vs ++ [v])
| abs_try_push v vs : abs_step (OpTryPush v) vs (Returned (Tried true)) (vs ++ [v])
| abs_try_push_full v vs : abs_step (OpTryPush v) vs (Returned (Tried false)) vs
| abs_reserve n vs : abs_step (OpTryReserve n) vs (Returned (Tried (bool_decide (vs <> [])))) vs
| abs_len vs : abs_step OpLen vs (Returned (Length (Z.of_nat (length vs)))) vs
| abs_get i vs : abs_step (OpGet i) vs (Returned (Item (vs !! Z.to_nat i))) vs
| abs_set i v vs :
    abs_step (OpSet i v) vs (Returned (Tried (bool_decide (Z.to_nat i < length vs)%nat))) (<[Z.to_nat i := v]> vs)
| abs_iter vs : abs_step OpIter vs (Returned (Items vs)) vs
| abs_drain sb eb k vs : within sb eb (Z.of_nat (length vs)) = true ->
    abs_step (OpDrain sb eb k) vs (Returned (Items (take k (select (in_range sb eb) 0 vs))))
      (select (fun i => negb (in_range sb eb i)) 0 vs)
| abs_drain_outside sb eb k vs w : within sb eb (Z.of_nat (length vs)) = false -> abs_step (OpDrain sb eb k) vs (Panicked w) vs.

Inductive abs_run : list list_op -> list T -> list (ending answer) -> list T -> Prop :=
| abs_done vs : abs_run [] vs [] vs
| abs_more op ops vs out vs' outs vs'' :
    abs_step op vs out vs' -> abs_run ops vs' outs vs'' -> abs_run (op :: ops) vs (out :: outs) vs''.

(** The arguments are [usize]s, no range ends before it starts, and none ends with
    [usize::MAX], or starts behind it, where overflow is not checked. *)
Definition op_ok (op : list_op) : bool :=
  match op with
  | OpTryReserve n | OpGet n | OpSet n _ => (0 <=? n) && (n <? USIZE_MOD)
  | OpDrain sb eb _ => bound_ok sb && bound_ok eb && ordered sb eb && countable cfg sb eb
  | _ => true
  end.

Definition simulates hf mcx op self h vs : Prop :=
  (exists a self' h' vs', run_op mcx op self h = (Returned (a, self'), h')
      /\ list_rep hf h' self' vs' /\ abs_step op vs (Returned a) vs')
  \/ (exists w, run_op mcx op self h = (Panicked w, h) /\ abs_step op vs (Panicked w) vs).

Lemma drain_simulates hf mcx sb eb k self h vs :
  list_rep hf h self vs -> op_ok (OpDrain sb eb k) = true ->
  simulates hf mcx (OpDrain sb eb k) self h vs.
Proof.
  intros Hr Hok. cbn [op_ok] in Hok. rewrite !andb_true_iff in Hok. destruct Hok as [[[Hsb Heb] Ho] Hc].
  pose proof (list_rep_bounded _ _ _ _ Hr) as Hn. unfold simulates, run_op.
  destruct (within sb eb (Z.of_nat (length vs))) eqn:Hw.
  - left. destruct (range_within cfg sb eb (Z.of_nat (length vs)) Hsb Heb ltac:(lia) Ho Hw) as (s & t & Hs & Ht & Hst & Htn & Hin).
    destruct (drain_ordered hf h self vs sb eb s t k Hr (Hs h) (Ht h) ltac:(lia) Htn) as (self' & h' & Hd & Hr').
    destruct (select_segment (in_range sb eb) s t vs Hin Hst Htn) as [Hsel Hrest].
    eexists _, self', h', _. rewrite (hbind_ok _ _ _ _ _ Hd). split; [done|]. split; [done|]. cbn [fst]. rewrite <- Hsel, <- Hrest. by constructor.
  - right. enough (exists w, drain_take (T := T) cfg self sb eb k h = (Panicked w, h)) as (w & Hp)
      by (exists w; split; [by apply hbind_panic|by apply abs_drain_outside]).
    destruct (range_outside cfg sb eb (Z.of_nat (length vs)) Hsb Heb Hc ltac:(lia) h Hw) as [[w Hs]|(s & Hs & [[w Ht]|(t & Ht & Hout)])].
    + exists w. unfold drain_take, drain. apply hbind_panic. rewrite (hbind_ok _ _ _ _ _ (len_spec _ _ _ _ Hr)). by apply hbind_panic.
    + exists w. unfold drain_take, drain. apply hbind_panic.
      rewrite (hbind_ok _ _ _ _ _ (len_spec _ _ _ _ Hr)), (hbind_ok _ _ _ _ _ Hs). by apply hbind_panic.
    + by apply (drain_outside hf h self vs sb eb s t k Hr Hs Ht).
Qed.

Lemma run_op_simulates hf mcx op self h vs :
  list_rep hf h self vs -> mcx <> 0 -> op_ok op = true -> simulates hf mcx op self h vs.
Proof.
  intros Hr Hm Hok. destruct op as [v|v|n| |i|i v| |sb eb k]; [..|by apply drain_simulates];
    unfold simulates, run_op; cbn [op_ok] in Hok.
  - destruct (push_in_context_spec cfg _ _ _ _ v mcx Hr Hm) as [(self' & h' & Hp & Hr')|(w & Hw)].
    + left. eexists _, self', h', _. rewrite (hbind_ok _ _ _ _ _ Hp). split; [done|]. split; [done|constructor].
    + right. exists w. split; [by apply hbind_panic|by constructor].
  - left. destruct (try_push_spec cfg _ _ _ _ v Hr) as [(h' & Hp & Hr')|Hp];
      eexists _, self, _, _; rewrite (hbind_ok _ _ _ _ _ Hp); (split; [done|]); (split; [done|]); constructor.
  - destruct (try_reserve_spec cfg _ _ _ _ n Hr ltac:(lia)) as [(h' & Hp & Hr')|(w & Hw)].
    + left. eexists _, self, h', vs. rewrite (hbind_ok _ _ _ _ _ Hp). split; [done|]. split; [done|].
      replace (is_some _) with (bool_decide (vs <> [])); [constructor|].
      destruct self; simpl in *; [by destruct Hr as [_ ->]|]. destruct Hr as (? & ? & _ & []).
      rewrite bool_decide_true; [done|]. intros ->. simpl in *. lia.
    + right. exists w. split; [by apply hbind_panic|by constructor].
  - left. eexists _, self, h, vs. rewrite (hbind_ok _ _ _ _ _ (len_spec _ _ _ _ Hr)).
    split; [done|]. split; [done|constructor].
  - left. eexists _, self, h, vs. rewrite (hbind_ok _ _ _ _ _ (get_spec _ _ _ _ i Hr ltac:(lia))).
    split; [done|]. split; [done|constructor].
  - left. destruct (set_spec _ _ _ _ i v Hr ltac:(lia)) as (h' & Hp & Hr').
    eexists _, self, h', _. rewrite (hbind_ok _ _ _ _ _ Hp). split; [done|]. split; [done|].
    replace (is_some _) with (bool_decide (Z.to_nat i < length vs)%nat); [constructor|].
    case_bool_decide; case_decide; done.
  - left. eexists _, self, h, vs. rewrite (hbind_ok _ _ _ _ _ (iter_spec _ _ _ _ Hr)).
    split; [done|]. split; [done|constructor].
Qed.

Lemma run_simulates hf mcx ops : forall self h vs,
  mcx <> 0 -> Forall (fun op => op_ok op = true) ops -> list_rep hf h self vs ->
  exists outs self' h' vs', run mcx ops self h = (outs, self', h')
    /\ abs_run ops vs outs vs' /\ list_rep hf h' self' vs'.
Proof.
  induction ops as [|op ops IH]; intros self h vs Hm Hok Hr; simpl.
  { eexists _, _, _, vs. split; [done|]. split; [constructor|done]. }
  inversion Hok as [|? ? Hok1 Hok2]; subst. clear Hok. rename Hok2 into Hok.
  destruct (run_op_simulates hf mcx op self h vs Hr Hm Hok1)
    as [(a & self1 & h1 & vs1 & Hrun & Hr1 & Habs)|(w & Hrun & Hp)].
  - destruct (IH self1 h1 vs1 Hm Hok Hr1) as (outs & self' & h' & vs' & Hrest & Habs' & Hr').
    rewrite Hrun, Hrest. eexists _, _, _, vs'. split; [done|]. split; [by econstructor|done].
  - destruct (IH self h vs Hm Hok Hr) as (outs & self' & h' & vs' & Hrest & Habs' & Hr').
    rewrite Hrun, Hrest. eexists _, _, _, vs'. split; [done|]. split; [|done].
    by econstructor.
Qed.

(** C13. A program of list operations is a program on a sequence, if no range of its
    drains ends before it starts, nor, where overflow is not checked, ends with
    [usize::MAX] or starts behind it.  Started with the empty list, whatever Postgres'
    allocator does, every operation answers as the sequence does: a drain gives the values at
    the indices of its range and leaves the others, and panics with the list as it was exactly
    when the range is not one of the list; what allocates may panic, with the list as it
    was; nothing is undefined.  Iterating over the list by value then yields the sequence in
    order, and leaves the memory as it was before the program: no chunk is lost and no
    other chunk was touched. *)
Theorem list_refines_sequence hf mcx ops :
  mcx <> 0 -> Forall (fun op => op_ok op = true) ops ->
  exists outs self h' vs, run mcx ops Nil hf = (outs, self, h')
    /\ abs_run ops [] outs vs
    /\ forall k, consume_take (T := T) self k h' = (Returned (take k vs), hf).
Proof.
  intros Hm Hok. destruct (run_simulates hf mcx ops Nil hf [] Hm Hok) as (outs & self & h' & vs & Hrun & Habs & Hr);
    [done|].
  exists outs, self, h', vs. split; [done|]. split; [done|]. intros k. by apply consume_spec.
Qed.

(** A range that ends before it starts is not refused.  Nothing is yielded and,
    when the [Drain] is dropped, the cells between the two ends are duplicated: the
    list gets longer than it was.  Where the longer list does not fit into the
    array, the cells are written past its end, which is undefined. *)
Theorem drain_reversed hf h l hd cs vs s t k :
  block hf l hd cs h -> holds hd cs vs ->
  0 <= t < s -> s <= Z.of_nat (length vs) -> s + (Z.of_nat (length vs) - t) <= I32_MAX ->
  let rest := take (Z.to_nat s) vs ++ drop (Z.to_nat t) vs in
  (length vs < length rest)%nat
  /\ (Z.of_nat (length rest) <= max_length hd ->
      exists self' h', drain_take cfg (Cons l) (Included s) (Excluded t) k h = (Returned ([], self'), h')
        /\ list_rep hf h' self' rest)
  /\ (Z.of_nat (length cs) < Z.of_nat (length rest) ->
      exists h', drain_take (T := T) cfg (Cons l) (Included s) (Excluded t) k h = (Undefined, h')).
Proof.
  intros Hb Hh Hts Hs Hmax rest. split.
  { unfold rest. rewrite length_app, length_take, length_drop. lia. }
  destruct (drain_cons hf h l hd cs vs (Included s) (Excluded t) s t k Hb Hh eq_refl eq_refl) as [Hfit Hout];
    [lia..|].
  rewrite between_nil, take_nil in Hfit by lia. done.
Qed.

(** A [Drain] that is forgotten instead of dropped, after any number of values
    were taken from it, leaves a list that is still one: the values before the
    range, or [Nil] when the range begins at 0. *)
Theorem drain_forgotten hf h l vs sb eb s t k :
  rep hf h l vs ->
  drain_start cfg sb h = (Returned s, h) -> drain_end cfg eb (Z.of_nat (length vs)) h = (Returned t, h) ->
  0 <= s <= Z.of_nat (length vs) -> 0 <= t <= Z.of_nat (length vs) ->
  s + (Z.of_nat (length vs) - t) <= I32_MAX ->
  exists self' h' d, (r <~ drain cfg (Cons l) sb eb ;;
                      vs <~ take_next drain_next k (snd r) ;; hret (fst vs, fst r, snd vs)) h
      = (Returned (take k (between s t vs), self', d), h')
    /\ if s =? 0 then self' = Nil else list_rep hf h' self' (take (Z.to_nat s) vs).
Proof.
  intros (hd & cs & Hb & Hh) Hs Ht Hs' Ht' Hmax.
  destruct (drain_block cfg _ _ _ _ _ _ _ _ _ _ Hb Hh Hs Ht Hs' Ht' Hmax) as (h1 & Hd & Hb1).
  destruct (take_next_spec _ _ _ _ _ _ _ _ vs k drain_forwards Hb1 (fun j v => holds_lookup _ _ _ j v Hh)
     (snd (drained l hd s t (Z.of_nat (length vs)))) s t eq_refl) as [it Hit]; [lia|lia|].
  eexists _, h1, _. rewrite (hbind_ok _ _ _ _ _ Hd), (hbind_ok _ _ _ _ _ Hit). split; [done|]. simpl.
  destruct (s =? 0) eqn:Hz; [done|]. exists (with_length s hd), cs. split; [done|].
  destruct Hh as [? ? ? ? ? Hv]. constructor; simpl; try done; [rewrite length_take; lia|lia|lia|].
  by rewrite length_take, fmap_take, <- Hv, take_take.
Qed.
End Programs.

(** ** An allocator *)

Definition next_free (h : heap) : positive := fresh (map_to_list h).*1.

Lemma next_free_fresh h : h !! next_free h = None.
Proof.
  destruct (h !! next_free h) as [c|] eqn:Hc; [|done].
  destruct (infinite_is_fresh (map_to_list h).*1). apply list_elem_of_fmap.
  exists (next_free h, c). split; [done|]. by apply elem_of_map_to_list.
Qed.

(** [MaxAllocSize]; a chunk that grows moves. *)
Definition max_alloc_size : Z := 1073741823.

Definition place (h : heap) (size : Z) : positive + string :=
  if size <=? max_alloc_size then inl (next_free h) else inr "invalid memory alloc request size"%string.

#[export] Instance moving_allocator : Allocator := {|
  MemoryContextAllocExtended_at h _ size := match place h size with inl l => Placed l | inr _ => Null end;
  MemoryContextAlloc_at h _ size := match place h size with inl l => Placed l | inr e => Raised e end;
  repalloc_at h _ size := place h size |}.

#[export] Instance moving_allocator_laws : AllocatorLaws.
Proof.
  assert (Hp : forall h n l, place h n = inl l -> h !! l = None).
  { intros h n l. unfold place. case_match; [|done]. intros [= <-]. apply next_free_fresh. }
  constructor; simpl; intros h ? n l.
  - destruct (place h n) eqn:E; [|done]. intros [= <-]. by eapply Hp.
  - destruct (place h n) eqn:E; [|done]. intros [= <-]. by eapply Hp.
  - intros E. right. by eapply Hp.
Qed.

Definition debug_build : build := {| debug_assertions := true; overflow_checks := true |}.

Definition some_program : list (list_op (T := c_int)) :=
  (OpPush <$> (CInt <$> seqZ 0 30)) ++
  [OpLen; OpDrain (Included 2) (Excluded 28) 3; OpGet 2; OpSet 0 (CInt 7); OpTryPush (CInt 5);
   OpTryReserve 200; OpIter; OpDrain (Included 9) Unbounded 0; OpDrain Unbounded (Included 18446744073709551615) 0].

Example some_program_runs :
  let '(outs, self, h) := run debug_build 1 some_program Nil ∅ in
  drop 30 outs = [Returned (Length 30); Returned (Items [CInt 2; CInt 3; CInt 4]); Returned (Item (Some (CInt 28)));
                  Returned (Tried true); Returned (Tried true); Returned (Tried true);
                  Returned (Items [CInt 7; CInt 1; CInt 28; CInt 29; CInt 5]);
                  Panicked "assertion failed: drain_start <= len"%string; Panicked "attempt to add with overflow"%string]
  /\ consume_take self 9 h = (Returned [CInt 7; CInt 1; CInt 28; CInt 29; CInt 5], ∅).
Proof. vm_compute. split; reflexivity. Qed.

(** Without overflow checks, a range that includes [usize::MAX] is empty. *)
Example drain_wraps :
  let release := {| debug_assertions := false; overflow_checks := false |} in
  let h := {[1%positive := Chunk 1 (Some {| type_ := T_IntList; llength := 1; max_length := 13;
               elements := CellPtr 1 0 |}) (int_value 4 :: replicate 12 uninit)]} in
  drain_take (T := c_int) release (Cons 1) Unbounded (Included 18446744073709551615) 1 h = (Returned ([], Cons 1), h).
Proof. vm_compute. reflexivity. Qed.

Lemma list_refines_sequence_witness :
  exists outs self h' vs, run debug_build 1 some_program Nil ∅ = (outs, self, h')
    /\ abs_run some_program [] outs vs
    /\ forall k, consume_take (T := c_int) self k h' = (Returned (take k vs), ∅).
Proof. apply list_refines_sequence; [done|]. apply (bool_decide_unpack _). vm_compute. exact I. Defined.

(** A list of three integers, and one that fills its array. *)
Definition int_cells (n m : nat) : list ListCell := (int_value <$> seqZ 1 (Z.of_nat n)) ++ replicate m uninit.
Definition int_list (n : Z) : pg_List :=
  {| type_ := T_IntList; llength := n; max_length := 13; elements := CellPtr 1 0 |}.
Definition int_heap (n m : nat) : heap := {[1%positive := Chunk 1 (Some (int_list (Z.of_nat n))) (int_cells n m)]}.

Lemma int_heap_block n m : block ∅ 1 (int_list (Z.of_nat n)) (int_cells n m) (int_heap n m).
Proof. by apply (block_inline _ _ _ _ 1). Qed.

Lemma drain_reversed_witness :
  drain_take (T := c_int) debug_build (Cons 1) (Included 2) (Excluded 1) 5 (int_heap 3 10)
    = (Returned ([], Cons 1), {[1%positive := Chunk 1 (Some (int_list 4))
        ([int_value 1; int_value 2; int_value 2; int_value 3] ++ replicate 9 uninit)]})
  /\ exists h', drain_take (T := c_int) debug_build (Cons 1) (Included 1) (Excluded 0) 0 (int_heap 13 0) = (Undefined, h').
Proof.
  split; [vm_compute; reflexivity|].
  refine (proj2 (proj2 (drain_reversed debug_build ∅ (int_heap 13 0) 1 (int_list 13) (int_cells 13 0)
    (CInt <$> seqZ 1 13) 1 0 0 (int_heap_block 13 0) _ _ _ _)) _); [by constructor|done..].
Defined.

Lemma drain_forgotten_witness :
  exists self' h' d, (r <~ drain debug_build (Cons 1) (Included 1) Unbounded ;;
                      vs <~ take_next (T := c_int) drain_next 1 (snd r) ;; hret (fst vs, fst r, snd vs)) (int_heap 3 10)
      = (Returned ([CInt 2], self', d), h')
    /\ list_rep ∅ h' self' [CInt 1].
Proof.
  apply (drain_forgotten debug_build ∅ (int_heap 3 10) 1 [CInt 1; CInt 2; CInt 3] (Included 1) Unbounded 1 3 1);
    [|done..].
  exists (int_list 3), (int_cells 3 10). split; [apply (int_heap_block 3 10)|by constructor].
Defined.
