(* ===== verification/Varlena.v ===== *)
(** * Varlena headers

    [pgrx/src/varlena.rs]: the ports of Postgres' [VARSIZE], [VARATT] and [VARDATA]
    macros, for both byte orders, and the conversion of texts.  A pointer is an
    offset into a chunk of memory; the [cfg] of the target is the argument [e]. *)
From stdpp Require Import base list strings.
From S2P Require Import Prelude Memory.
#[local] Open Scope Z_scope.
#[local] Open Scope ending_scope.

(** Sizes and tags of the bindings, 64-bit. *)
Definition VARHDRSZ : Z := 4.
Definition VARHDRSZ_SHORT : Z := 1.
Definition VARHDRSZ_EXTERNAL : Z := 2.
Definition VARTAG_INDIRECT : Z := 1.
Definition VARTAG_EXPANDED_RO : Z := 2.
Definition VARTAG_ONDISK : Z := 18.
Definition size_of_varatt_indirect : Z := 8.
Definition size_of_varatt_expanded : Z := 8.
Definition size_of_varatt_external : Z := 16.

(** ** Writing a header *)

(** [len as u32], [len as u8] of an [i32], and shifts that drop the high bits. *)
Definition encode_vlen_4b (e : endian) (len : Z) : Z :=
  match e with
  | Big => Z.land (len mod 2 ^ 32) 0x3FFFFFFF
  | Little => Z.shiftl (len mod 2 ^ 32) 2 mod 2 ^ 32
  end.

Definition encode_vlen_1b (e : endian) (len : Z) : Z :=
  match e with
  | Big => Z.lor (len mod 2 ^ 8) 0x80
  | Little => Z.lor (Z.shiftl (len mod 2 ^ 8) 1 mod 2 ^ 8) 0x01
  end.

(** The pointer of [set_varsize_4b] is aligned to 4. *)
Definition set_varsize_4b (e : endian) (m : bytes) (p len : Z) : ending bytes :=
  if p mod 4 =? 0 then write_bytes m p (ne_bytes e 4 (encode_vlen_4b e len)) else Undefined.

Definition set_varsize_1b (e : endian) (m : bytes) (p len : Z) : ending bytes :=
  write_bytes m p (ne_bytes e 1 (encode_vlen_1b e len)).

Section Headers.
Context (e : endian) (overflow_checks : bool) (m : bytes).

(** ** Reading a header *)

Definition va_header_1b (p : Z) : ending Z := read_uint e 1 m p.
Definition va_header_4b (p : Z) : ending Z := read_uint e 4 m p.

Definition varsize_4b (p : Z) : ending Z :=
  h <~~ va_header_4b p ;;
  Returned match e with Big => Z.land h 0x3FFFFFFF | Little => Z.land (Z.shiftr h 2) 0x3FFFFFFF end.

Definition varsize_1b (p : Z) : ending Z :=
  h <~~ va_header_1b p ;;
  Returned match e with Big => Z.land h 0x7F | Little => Z.land (Z.shiftr h 1) 0x7F end.

(** [va_tag] follows the header byte. *)
Definition vartag_1b_e (p : Z) : ending Z := read_uint e 1 m (p + 1).

Definition varsize (p : Z) : ending Z := varsize_4b p.

Definition varatt_is_4b (p : Z) : ending bool :=
  h <~~ va_header_1b p ;;
  Returned match e with Big => Z.land h 0x80 =? 0x00 | Little => Z.land h 0x01 =? 0x00 end.

Definition varatt_is_4b_u (p : Z) : ending bool :=
  h <~~ va_header_1b p ;;
  Returned match e with Big => Z.land h 0xC0 =? 0x00 | Little => Z.land h 0x03 =? 0x00 end.

Definition varatt_is_4b_c (p : Z) : ending bool :=
  h <~~ va_header_1b p ;;
  Returned match e with Big => Z.land h 0xC0 =? 0x40 | Little => Z.land h 0x03 =? 0x02 end.

Definition varatt_is_1b (p : Z) : ending bool :=
  h <~~ va_header_1b p ;;
  Returned match e with Big => Z.land h 0x80 =? 0x80 | Little => Z.land h 0x01 =? 0x01 end.

Definition varatt_is_1b_e (p : Z) : ending bool :=
  h <~~ va_header_1b p ;;
  Returned match e with Big => h =? 0x80 | Little => h =? 0x01 end.

(** The pointer is compared with null; [None] is the null pointer. *)
Definition varatt_not_pad_byte (p : option Z) : bool :=
  match p with Some _ => true | None => false end.

Definition vartag_is_expanded (tag : Z) : bool :=
  Z.land tag (Z.lnot 1 mod 2 ^ 32) =? VARTAG_EXPANDED_RO.

Definition vartag_size (tag : Z) : ending Z :=
  if tag =? VARTAG_INDIRECT then Returned size_of_varatt_indirect
  else if vartag_is_expanded tag then Returned size_of_varatt_expanded
  else if tag =? VARTAG_ONDISK then Returned size_of_varatt_external
  else Panicked "unrecognized TOAST vartag".

Definition vartag_external (p : Z) : ending Z := vartag_1b_e p.

Definition varsize_external (p : Z) : ending Z :=
  tag <~~ vartag_external p ;; n <~~ vartag_size tag ;; Returned (VARHDRSZ_EXTERNAL + n).

Definition varsize_any (p : Z) : ending Z :=
  b <~~ varatt_is_1b_e p ;;
  if b then varsize_external p
  else b <~~ varatt_is_1b p ;; if b then varsize_1b p else varsize_4b p.

(** [a - b] on [usize]. *)
Definition usize_sub (a b : Z) : ending Z :=
  if b <=? a then Returned (a - b)
  else if overflow_checks then Panicked "attempt to subtract with overflow"
  else Returned ((a - b) mod 2 ^ 64).

Definition varsize_any_exhdr (p : Z) : ending Z :=
  b <~~ varatt_is_1b_e p ;;
  if b then n <~~ varsize_external p ;; usize_sub n VARHDRSZ_EXTERNAL
  else b <~~ varatt_is_1b p ;;
       if b then n <~~ varsize_1b p ;; usize_sub n VARHDRSZ_SHORT
       else n <~~ varsize_4b p ;; usize_sub n VARHDRSZ.

(** ** The data behind the header *)

Definition vardata_1b (p : Z) : Z := p + VARHDRSZ_SHORT.
Definition vardata_4b (p : Z) : Z := p + VARHDRSZ.
Definition vardata_4b_c (p : Z) : Z := p + 8.
Definition vardata_1b_e (p : Z) : Z := p + VARHDRSZ_EXTERNAL.

Definition vardata_any (p : Z) : ending Z :=
  b <~~ varatt_is_1b p ;; Returned (if b then vardata_1b p else vardata_4b p).

Definition varlena_to_byte_slice (p : Z) : ending bytes :=
  len <~~ varsize_any_exhdr p ;;
  data <~~ vardata_any p ;;
  read_bytes m data len.

(** [None] is the [Utf8Error]. *)
Definition text_to_rust_str (p : Z) : ending (option string) :=
  bs <~~ varlena_to_byte_slice p ;;
  Returned (if utf8_valid bs then Some (of_bytes bs) else None).

(** A [str] that is not UTF-8 is undefined. *)
Definition text_to_rust_str_unchecked (p : Z) : ending string :=
  bs <~~ varlena_to_byte_slice p ;;
  if utf8_valid bs then Returned (of_bytes bs) else Undefined.
End Headers.

(** ** New varlenas *)

(** [cstring_to_text_with_len] is Postgres': from the bytes and a length, a chunk
    that holds a new text. *)
Section Texts.
Context (cstring_to_text_with_len : bytes -> Z -> bytes).

Definition rust_byte_slice_to_bytea (slice : bytes) : bytes :=
  cstring_to_text_with_len slice (as_signed 32 (Z.of_nat (length slice) mod 2 ^ 32)).

Definition rust_str_to_text_p (s : string) : bytes := rust_byte_slice_to_bytea (as_bytes s).
End Texts.

(** ** Headers are read as they were written *)

Lemma byte_of_first_little z : from_ne_bytes Little [u8_of_Z (z mod 256)] = z mod 256.
Proof. cbn. rewrite u8_to_of_Z, Zmod_mod. lia. Qed.

(** The kinds of header, told apart by the first byte. *)
Inductive kind := Plain4 | Compressed4 | Short1 | External1.

Definition kind_of (e : endian) (h : Z) : kind :=
  match e with
  | Little => if h mod 4 =? 0 then Plain4 else if h mod 4 =? 2 then Compressed4
              else if h =? 1 then External1 else Short1
  | Big => if h <? 0x40 then Plain4 else if h <? 0x80 then Compressed4
           else if h =? 0x80 then External1 else Short1
  end.

#[export] Instance kind_eq_dec : EqDecision kind.
Proof. solve_decision. Defined.

(** The predicates of [varlena.rs] on a first byte are those of its kind. *)
Lemma kinds e m p (b : byte) :
  bytes_at m p [b] ->
  let k := kind_of e (u8_to_Z b) in
  varatt_is_4b e m p = Returned (bool_decide (k = Plain4 \/ k = Compressed4))
  /\ varatt_is_4b_u e m p = Returned (bool_decide (k = Plain4))
  /\ varatt_is_4b_c e m p = Returned (bool_decide (k = Compressed4))
  /\ varatt_is_1b e m p = Returned (bool_decide (k = Short1 \/ k = External1))
  /\ varatt_is_1b_e e m p = Returned (bool_decide (k = External1)).
Proof.
  intros Hb k. assert (Hh : va_header_1b e m p = Returned (u8_to_Z b)).
  { unfold va_header_1b. rewrite (bytes_at_uint e 1 m p [b] Hb eq_refl) by (by rewrite Z.mod_1_r).
    destruct e; cbn; f_equal; lia. }
  unfold varatt_is_4b, varatt_is_4b_u, varatt_is_4b_c, varatt_is_1b, varatt_is_1b_e.
  rewrite Hh. subst k. destruct e, b; vm_compute; done.
Qed.

Lemma first_byte_4b e len :
  0 <= len < 2 ^ 30 ->
  exists b bs, ne_bytes e 4 (encode_vlen_4b e len) = b :: bs /\ kind_of e (u8_to_Z b) = Plain4.
Proof.
  intros Hl. destruct e.
  - eexists _, _. split; [reflexivity|]. unfold kind_of.
    rewrite u8_to_of_Z, Zmod_mod. unfold encode_vlen_4b.
    rewrite (Z.mod_small len), Z.shiftl_mul_pow2, (Z.mod_small (len * 2 ^ 2)) by lia.
    change 256 with (4 * 64). rewrite Z.rem_mul_r by lia.
    replace (len * 2 ^ 2 mod 4) with 0 by (symmetry; by apply (Z.mod_mul len 4)).
    rewrite Z.add_0_l, (Z.mul_comm 4), Z.mod_mul by lia. done.
  - eexists _, _. split; [reflexivity|]. unfold kind_of.
    rewrite u8_to_of_Z. unfold encode_vlen_4b. change 0x3FFFFFFF with (Z.ones 30).
    rewrite (Z.mod_small len), Z.land_ones, (Z.mod_small len) by lia.
    rewrite !Zdiv.Zdiv_Zdiv by lia. rewrite Zmod_mod.
    assert (len / (256 * (256 * 256)) < 64) by (apply Z.div_lt_upper_bound; lia).
    assert (0 <= len / (256 * (256 * 256))) by (apply Z.div_pos; lia).
    rewrite Z.mod_small by lia. case_match; [done|lia].
Qed.

Lemma decode_encode_4b e len :
  0 <= len < 2 ^ 30 ->
  match e with
  | Big => Z.land (encode_vlen_4b e len mod 2 ^ 32) 0x3FFFFFFF
  | Little => Z.land (Z.shiftr (encode_vlen_4b e len mod 2 ^ 32) 2) 0x3FFFFFFF
  end = len.
Proof.
  intros Hl. change 0x3FFFFFFF with (Z.ones 30). destruct e; unfold encode_vlen_4b.
  - rewrite (Z.mod_small len), Z.shiftl_mul_pow2, Zmod_mod, (Z.mod_small (len * 2 ^ 2)) by lia.
    rewrite Z.shiftr_div_pow2, Z.div_mul, Z.land_ones, Z.mod_small by lia. done.
  - change 0x3FFFFFFF with (Z.ones 30). rewrite (Z.mod_small len), !Z.land_ones by lia.
    by rewrite !(Z.mod_small len) by lia.
Qed.

(** A header of four bytes that holds [len]. *)
Lemma varsize_any_4b e m p len :
  bytes_at m p (ne_bytes e 4 (encode_vlen_4b e len)) -> p mod 4 = 0 -> 0 <= len < 2 ^ 30 ->
  varatt_is_4b_u e m p = Returned true /\ varatt_is_1b e m p = Returned false
  /\ varatt_is_1b_e e m p = Returned false
  /\ varsize_4b e m p = Returned len /\ varsize_any e m p = Returned len.
Proof.
  intros Hb Hp Hl. destruct (first_byte_4b e len Hl) as (b & bs & Heq & Hk).
  assert (Hb1 : bytes_at m p [b]).
  { rewrite Heq in Hb. change (b :: bs) with ([b] ++ bs) in Hb. by apply bytes_at_app in Hb as [? _]. }
  destruct (kinds e m p b Hb1) as (_ & Hu & _ & H1 & He). rewrite Hk in Hu, H1, He.
  assert (H4 : varsize_4b e m p = Returned len).
  { unfold varsize_4b, va_header_4b.
    rewrite (bytes_at_uint e 4 m p _ Hb) by (rewrite ?length_ne_bytes; done).
    cbn [ebind]. rewrite from_ne_bytes_ne_bytes. f_equal. by apply decode_encode_4b. }
  unfold varsize_any. rewrite He. cbn [ebind]. simpl. rewrite H1. simpl. done.
Qed.

(** A header of one byte that holds [len], which counts the header itself. *)
Lemma varsize_any_1b e m p len :
  bytes_at m p (ne_bytes e 1 (encode_vlen_1b e len)) -> 1 <= len <= 127 ->
  varatt_is_1b e m p = Returned true /\ varatt_is_1b_e e m p = Returned false
  /\ varsize_1b e m p = Returned len /\ varsize_any e m p = Returned len.
Proof.
  intros Hb Hl.
  assert (Hh : va_header_1b e m p = Returned (encode_vlen_1b e len mod 256)).
  { unfold va_header_1b. rewrite (bytes_at_uint e 1 m p _ Hb) by (rewrite ?length_ne_bytes, ?Z.mod_1_r; done).
    by rewrite from_ne_bytes_ne_bytes. }
  assert (Hall : forallb (fun n => let h := encode_vlen_1b e n mod 256 in
      match e with
      | Big => (Z.land h 0x80 =? 0x80) && negb (h =? 0x80) && (Z.land h 0x7F =? n)
      | Little => (Z.land h 0x01 =? 0x01) && negb (h =? 0x01) && (Z.land (Z.shiftr h 1) 0x7F =? n)
      end) (seqZ 1 127) = true) by (destruct e; vm_compute; done).
  rewrite forallb_forall in Hall. specialize (Hall len).
  assert (Hin : List.In len (seqZ 1 127)) by (apply list_elem_of_In, elem_of_seqZ; lia).
  specialize (Hall Hin). cbv zeta in Hall.
  unfold varsize_any, varatt_is_1b, varatt_is_1b_e, varsize_1b. rewrite Hh. cbn [ebind].
  destruct e; apply andb_true_iff in Hall as [Hall Hn]; apply andb_true_iff in Hall as [H1 He];
    apply negb_true_iff in He; apply Z.eqb_eq in Hn; rewrite He, H1; cbn [ebind]; rewrite Hn; done.
Qed.

(** Headers are read as they were written, in either byte order.  A header of
    four bytes holds any length below [2^30] and is told from the other kinds; a
    header of one byte holds any length from 1 to 127 and is told from a pointer to
    a value stored elsewhere, whose first byte it would have for length 0; and
    whatever the first byte is, it is one of the four kinds. *)
Theorem varlena_header_round_trip e m p :
  0 <= p -> p + 4 <= Z.of_nat (length m) ->
  (forall len, p mod 4 = 0 -> 0 <= len < 2 ^ 30 ->
    exists m', set_varsize_4b e m p len = Returned m' /\ length m' = length m
      /\ varatt_is_4b_u e m' p = Returned true /\ varsize_any e m' p = Returned len)
  /\ (forall len, 1 <= len <= 127 ->
    exists m', set_varsize_1b e m p len = Returned m' /\ length m' = length m
      /\ varatt_is_1b e m' p = Returned true /\ varatt_is_1b_e e m' p = Returned false
      /\ varsize_any e m' p = Returned len)
  /\ (exists m', set_varsize_1b e m p 0 = Returned m' /\ varatt_is_1b_e e m' p = Returned true)
  /\ (exists u c s x, varatt_is_4b_u e m p = Returned u /\ varatt_is_4b_c e m p = Returned c
      /\ varatt_is_1b e m p = Returned s /\ varatt_is_1b_e e m p = Returned x
      /\ length (filter (fun b => b = true) [u; c; s && negb x; x]) = 1%nat).
Proof.
  intros Hp Hm. split; [|split; [|split]].
  - intros len Ha Hl. unfold set_varsize_4b. rewrite Ha. simpl.
    destruct (write_bytes_at m p (ne_bytes e 4 (encode_vlen_4b e len))) as (m' & Hw & Hlen & Hat & _);
      [lia|rewrite length_ne_bytes; lia|].
    exists m'. destruct (varsize_any_4b e m' p len Hat Ha Hl) as (Hu & _ & _ & _ & Hv). done.
  - intros len Hl. unfold set_varsize_1b.
    destruct (write_bytes_at m p (ne_bytes e 1 (encode_vlen_1b e len))) as (m' & Hw & Hlen & Hat & _);
      [lia|rewrite length_ne_bytes; lia|].
    exists m'. destruct (varsize_any_1b e m' p len Hat Hl) as (H1 & He & _ & Hv). done.
  - unfold set_varsize_1b.
    destruct (write_bytes_at m p (ne_bytes e 1 (encode_vlen_1b e 0))) as (m' & Hw & _ & Hat & _);
      [lia|rewrite length_ne_bytes; lia|].
    exists m'. split; [done|]. unfold varatt_is_1b_e, va_header_1b.
    rewrite (bytes_at_uint e 1 m' p _ Hat) by (rewrite ?length_ne_bytes, ?Z.mod_1_r; done). by destruct e.
  - destruct (m !! Z.to_nat p) as [b|] eqn:Hb; [|apply lookup_ge_None in Hb; lia].
    assert (Hat : bytes_at m p [b]).
    { split; [done|]. exists (take (Z.to_nat p) m), (drop (S (Z.to_nat p)) m).
      split; [|rewrite length_take; apply lookup_lt_Some in Hb; lia].
      simpl. by rewrite take_drop_middle. }
    destruct (kinds e m p b Hat) as (_ & Hu & Hc & H1 & Hx). eexists _, _, _, _.
    split; [exact Hu|]. split; [exact Hc|]. split; [exact H1|]. split; [exact Hx|].
    by destruct (kind_of e (u8_to_Z b)).
Qed.

Lemma varlena_header_round_trip_witness :
  exists m', set_varsize_4b Little (replicate 16 x00) 4 1000 = Returned m' /\ length m' = 16%nat
      /\ varatt_is_4b_u Little m' 4 = Returned true /\ varsize_any Little m' 4 = Returned 1000.
Proof.
  refine (proj1 (varlena_header_round_trip Little (replicate 16 x00) 4 _ _) 1000 _ _); [lia|done|done|lia].
Defined.

(** ** Texts *)

(** What Postgres documents of [cstring_to_text_with_len]: a text of the given
    length with a header of four bytes. *)
Definition text_made_by (e : endian) (f : bytes -> Z -> bytes) : Prop :=
  forall bs, Z.of_nat (length bs) + VARHDRSZ < 2 ^ 30 ->
    f bs (Z.of_nat (length bs)) = ne_bytes e 4 (encode_vlen_4b e (Z.of_nat (length bs) + VARHDRSZ)) ++ bs.

(** A varlena with a header of four bytes: its bytes, and its kind. *)
Lemma plain_varlena e oc bs :
  Z.of_nat (length bs) + VARHDRSZ < 2 ^ 30 ->
  let m := ne_bytes e 4 (encode_vlen_4b e (Z.of_nat (length bs) + VARHDRSZ)) ++ bs in
  varlena_to_byte_slice e oc m 0 = Returned bs /\ varatt_is_4b_u e m 0 = Returned true
  /\ varatt_is_1b_e e m 0 = Returned false /\ varatt_is_4b_c e m 0 = Returned false.
Proof.
  intros Hl. cbv zeta. unfold VARHDRSZ in Hl.
  set (n := Z.of_nat (length bs) + VARHDRSZ). set (hd := ne_bytes e 4 (encode_vlen_4b e n)).
  assert (Hhd : length hd = 4%nat) by apply length_ne_bytes.
  assert (Hat : bytes_at (hd ++ bs) 0 (hd ++ bs)) by (split; [done|]; exists [], []; by rewrite app_nil_r).
  apply bytes_at_app in Hat as [Hat Hbs]. rewrite Hhd in Hbs.
  assert (Hn : 0 <= n < 2 ^ 30) by (unfold n, VARHDRSZ; lia).
  destruct (varsize_any_4b e (hd ++ bs) 0 n Hat eq_refl Hn) as (Hu & H1 & He & H4 & _).
  split_and!; [|done|done|].
  - unfold varlena_to_byte_slice, varsize_any_exhdr, vardata_any.
    rewrite He. cbn [ebind]. rewrite H1. cbn [ebind]. rewrite H4. cbn [ebind]. unfold usize_sub.
    destruct (VARHDRSZ <=? n) eqn:Hle; [|unfold n, VARHDRSZ in Hle; lia]. cbn [ebind].
    replace (n - VARHDRSZ) with (Z.of_nat (length bs)) by (unfold n; lia).
    change (vardata_4b 0) with (0 + Z.of_nat 4). by rewrite (bytes_at_read _ _ _ Hbs).
  - destruct (first_byte_4b e n Hn) as (b & r & Heq & Hk).
    assert (Hb1 : bytes_at (hd ++ bs) 0 [b]).
    { change hd with (ne_bytes e 4 (encode_vlen_4b e n)) in Hat at 2. rewrite Heq in Hat.
      change (b :: r) with ([b] ++ r) in Hat. by apply bytes_at_app in Hat as [? _]. }
    destruct (kinds e (hd ++ bs) 0 b Hb1) as (_ & _ & Hc & _). by rewrite Hc, Hk.
Qed.

(** A Rust string given to Postgres as a text is read back as it was. *)
Lemma text_round_trip e oc f s :
  text_made_by e f -> utf8_valid (as_bytes s) = true ->
  Z.of_nat (length (as_bytes s)) + VARHDRSZ < 2 ^ 30 ->
  text_to_rust_str e oc (rust_str_to_text_p f s) 0 = Returned (Some s).
Proof.
  intros Hf Hu Hl. unfold rust_str_to_text_p, rust_byte_slice_to_bytea. unfold VARHDRSZ in Hl.
  rewrite as_signed_small by lia. rewrite Hf by done. unfold text_to_rust_str.
  destruct (plain_varlena e oc (as_bytes s) Hl) as [-> _]. cbn [ebind]. by rewrite Hu, of_as_bytes.
Qed.
