(* ===== verification/PgArray.v ===== *)
(** * Postgres arrays

    [pgrx/src/layout.rs], [pgrx/src/nullable.rs], [pgrx/src/array.rs],
    [pgrx/src/array/port.rs], [pgrx/src/array/flat_array.rs] and
    [pgrx/src/datum/array.rs]: how the elements of an array that Postgres made are
    found in its bytes (null bitmap, data without the nulls, one hop per element),
    and how new arrays are laid out.

    An array is a chunk of memory; a pointer into it is an offset.  What the code
    checks with [debug_assert!] is checked when [debug] is set. *)
From stdpp Require Import base list strings.
From S2P Require Import Prelude Memory Varlena.
#[local] Open Scope Z_scope.
#[local] Open Scope ending_scope.

(** ** Layout of a type *)

Inductive PassBy := Ref | Value.
Inductive Align := AByte | AShort | AInt | ADouble.
Inductive Size := SCStr | SVarlena | SFixed (n : Z).
Record Layout := { l_align : Align; l_size : Size; l_pass : PassBy }.

(** [Align::try_from] of a [typalign] and [Size::try_from] of a [typlen]. *)
Definition align_try_from (c : Z) : option Align :=
  if c =? 99 then Some AByte else if c =? 115 then Some AShort
  else if c =? 105 then Some AInt else if c =? 100 then Some ADouble else None.

Definition as_typalign (a : Align) : Z :=
  match a with AByte => 99 | AShort => 115 | AInt => 105 | ADouble => 100 end.

Definition align_as_usize (a : Align) : Z :=
  match a with AByte => 1 | AShort => 2 | AInt => 4 | ADouble => 8 end.

Definition pad (a : Align) (size : Z) : Z :=
  let align := align_as_usize a in Z.land (size + (align - 1)) (Z.lnot (align - 1)).

Definition size_try_from (typlen : Z) : option Size :=
  if typlen =? -2 then Some SCStr else if typlen =? -1 then Some SVarlena
  else if 0 <=? typlen then Some (SFixed typlen) else None.

Definition as_typlen (s : Size) : Z := match s with SCStr => -2 | SVarlena => -1 | SFixed n => n end.

(** The row of [pg_type] that [get_typlenbyvalalign] reads. *)
Record pg_type := { typlen : Z; typbyval : bool; typalign : Z }.

Definition lookup_oid (t : pg_type) : ending Layout :=
  align <~~ expect "called `Result::unwrap()` on an `Err` value: ()" (align_try_from (typalign t)) ;;
  size <~~ expect "called `Result::unwrap()` on an `Err` value: ()" (size_try_from (typlen t)) ;;
  Returned {| l_align := align; l_size := size; l_pass := if typbyval t then Value else Ref |}.

(** ** The header of an array *)

Definition size_of_ArrayType : Z := 16.

Definition TYPEALIGN (alignval len : Z) : Z := Z.land (len + (alignval - 1)) (Z.lnot (alignval - 1)).
Definition MAXALIGN (len : Z) : Z := TYPEALIGN 8 len.
Definition ARR_OVERHEAD_NONULLS (ndims : Z) : Z := MAXALIGN (size_of_ArrayType + 2 * 4 * ndims).

(** [n as usize] of a [c_int]. *)
Definition usize_of_int (n : Z) : Z := n mod 2 ^ 64.

Section Header.
Context (e : endian) (m : bytes).

Definition ndim : ending Z := read_i32 e m 4.
Definition data_offset : ending Z := read_i32 e m 8.
Definition oid : ending Z := read_uint e 4 m 12.

Definition ARR_NDIM : ending Z := n <~~ ndim ;; Returned (usize_of_int n).
Definition ARR_HASNULL : ending bool := o <~~ data_offset ;; Returned (negb (o =? 0)).
Definition ARR_DIMS : Z := size_of_ArrayType.

Definition ARR_NULLBITMAP : ending (option Z) :=
  b <~~ ARR_HASNULL ;;
  if b then n <~~ ARR_NDIM ;; Returned (Some (size_of_ArrayType + 2 * 4 * n)) else Returned None.

Definition ARR_DATA_OFFSET : ending Z :=
  b <~~ ARR_HASNULL ;;
  if b then o <~~ data_offset ;; Returned (usize_of_int o)
  else n <~~ ARR_NDIM ;; Returned (ARR_OVERHEAD_NONULLS n).

Definition data_ptr : ending Z := ARR_DATA_OFFSET.
Definition end_ptr : ending Z := varsize_any e m 0.

(** A slice of [c_int]s. *)
Fixpoint i32s (bs : bytes) : list Z :=
  match bs with
  | a :: b :: c :: d :: bs => as_signed 32 (from_ne_bytes e [a; b; c; d]) :: i32s bs
  | _ => []
  end.

Definition dims : ending (list Z) :=
  n <~~ ARR_NDIM ;; bs <~~ read_bytes m ARR_DIMS (4 * n) ;; Returned (i32s bs).

(** The product of the dimensions as [u32]s, a negative one being huge. *)
Definition MAX_ARRAY_SIZE : Z := 0x3fffffff / 8.

Fixpoint checked_product (prod : Z) (ds : list Z) : option Z :=
  match ds with
  | [] => Some prod
  | d :: ds => let p := prod * (d mod 2 ^ 32) in if p <? 2 ^ 32 then checked_product p ds else None
  end.

Definition raw_len : ending Z :=
  ds <~~ dims ;;
  match ds with
  | [] => Returned 0
  | _ => match checked_product 1 ds with
         | Some p => eassert (p <=? MAX_ARRAY_SIZE) "product of array dimensions must be < 2.pow(27)" (Returned p)
         | None => Panicked "product of array dimensions must be < 2.pow(27)"
         end
  end.

(** ** Null bitmaps *)

(** A [BitSlice<u8>]: where its bits begin and how many there are. *)
Record BitSlice := { bits_ptr : Z; bits_len : Z }.

Definition nulls_bitslice : ending (option BitSlice) :=
  p <~~ ARR_NULLBITMAP ;;
  match p with
  | None => Returned None
  | Some p => n <~~ raw_len ;; Returned (Some {| bits_ptr := p; bits_len := n |})
  end.

(** [RawArray::nulls]: the same bits as whole bytes, where they begin and how many. *)
Definition nulls : ending (option (Z * Z)) :=
  n <~~ raw_len ;; p <~~ ARR_NULLBITMAP ;;
  Returned (p ← p; Some (p, Z.shiftr (n + 7) 3)).

Definition bit_get (s : BitSlice) (i : Z) : ending (option bool) :=
  if i <? bits_len s
  then b <~~ read_uint e 1 m (bits_ptr s + i / 8) ;; Returned (Some (Z.testbit b (i mod 8)))
  else Returned None.

Definition bits_is_null (s : BitSlice) (i : Z) : ending (option bool) :=
  b <~~ bit_get s i ;; Returned (negb <$> b).

(** [not_all] and [count_zeros], over the bits from [i] on. *)
Fixpoint zeros_from (s : BitSlice) (i : Z) (n : nat) : ending nat :=
  match n with
  | O => Returned O
  | S n => b <~~ bit_get s i ;;
           z <~~ zeros_from s (i + 1) n ;;
           Returned (match b with Some false => S z | _ => z end)
  end.

Definition count_nulls (s : option BitSlice) : ending nat :=
  match s with Some s => zeros_from s 0 (Z.to_nat (bits_len s)) | None => Returned O end.

Definition contains_nulls (s : option BitSlice) : ending bool :=
  n <~~ count_nulls s ;; Returned (negb (n =? 0)%nat).
End Header.

(** ** Elements *)

(** A [pg_sys::Datum]: a value, or a pointer into the array. *)
Inductive Datum := DVal (v : Z) | DPtr (p : Z).

(** [casper::ChaChaSlide] and its implementations. *)
Inductive ChaChaSlide := FixedSizeByVal (n : nat) | PassByVarlena (a : Align) | PassByCStr | PassByFixed (padded : Z).

Definition slide_for (l : Layout) : ending ChaChaSlide :=
  match l_pass l, l_size l with
  | Value, SFixed n =>
      if (n =? 1) || (n =? 2) || (n =? 4) || (n =? 8) then Returned (FixedSizeByVal (Z.to_nat n))
      else Panicked "unrecognized pass-by-value array element layout"
  | Value, _ => Panicked "unrecognized pass-by-value array element layout"
  | Ref, SVarlena => Returned (PassByVarlena (l_align l))
  | Ref, SCStr => Returned PassByCStr
  | Ref, SFixed n => Returned (PassByFixed (pad (l_align l) n))
  end.

(** [CStr::from_ptr(p).to_bytes().len()]: the bytes before the first NUL. *)
Fixpoint strlen (bs : bytes) : option Z :=
  match bs with [] => None | b :: bs => if Byte.eqb b x00 then Some 0 else Z.succ <$> strlen bs end.

Definition cstr_len (m : bytes) (p : Z) : ending Z :=
  if 0 <=? p then defined (strlen (drop (Z.to_nat p) m)) else Undefined.

Definition hop_size (e : endian) (m : bytes) (s : ChaChaSlide) (p : Z) : ending Z :=
  match s with
  | FixedSizeByVal n => Returned (Z.of_nat n)
  | PassByVarlena a => n <~~ varsize_any e m p ;; Returned (pad a n)
  | PassByCStr => n <~~ cstr_len m p ;; Returned (n + 1)
  | PassByFixed padded => Returned padded
  end.

(** [T::unbox] of a type that the array is read as. *)
Class UnboxDatum (A : Type) := unbox : endian -> bytes -> Datum -> ending A.

#[export] Instance unbox_i32 : UnboxDatum Z := fun _ _ d =>
  match d with DVal v => Returned (as_signed 32 (v mod 2 ^ 32)) | DPtr _ => Undefined end.

#[export] Instance unbox_str : UnboxDatum string := fun e m d =>
  match d with DPtr p => text_to_rust_str_unchecked e false m p | DVal _ => Undefined end.

Record Array := { a_slide : ChaChaSlide; a_nulls : option BitSlice; a_raw : bytes }.

Section Arrays.
Context (e : endian) (debug : bool) `{UnboxDatum A}.

(** [deconstruct_from], with the row of the element's type. *)
Definition deconstruct_from (types : Z -> pg_type) (raw : bytes) : ending Array :=
  o <~~ oid e raw ;;
  l <~~ lookup_oid (types o) ;;
  nulls <~~ nulls_bitslice e raw ;;
  slide <~~ slide_for l ;;
  Returned {| a_slide := slide; a_nulls := nulls; a_raw := raw |}.

Definition debug_assert (b : ending bool) (w : string) (k : ending A) : ending A :=
  if debug then x <~~ b ;; eassert x w k else k.

Definition len (a : Array) : ending Z := raw_len e (a_raw a).

Definition is_within_bounds (a : Array) (p : Z) : ending bool :=
  d <~~ data_ptr e (a_raw a) ;; z <~~ end_ptr e (a_raw a) ;; Returned ((d <=? p) && (p <? z)).

Definition is_within_bounds_inclusive (a : Array) (p : Z) : ending bool :=
  d <~~ data_ptr e (a_raw a) ;; z <~~ end_ptr e (a_raw a) ;; Returned ((d <=? p) && (p <=? z)).

Definition byval_read (a : Array) (n : nat) (p : Z) : ending Z :=
  if debug && negb (p mod Z.of_nat n =? 0) then Panicked "not aligned" else read_uint e n (a_raw a) p.

Definition slide_bring (a : Array) (p : Z) : ending A :=
  match a_slide a with
  | FixedSizeByVal n => v <~~ byval_read a n p ;; unbox e (a_raw a) (DVal v)
  | _ => unbox e (a_raw a) (DPtr p)
  end.

Definition bring_it_back_now (a : Array) (p : Z) (is_null : bool) : ending (option A) :=
  if is_null then Returned None
  else
    v <~~ debug_assert (is_within_bounds a p) "assertion failed: self.is_within_bounds(ptr)"
         (debug_assert (n <~~ hop_size e (a_raw a) (a_slide a) p ;; is_within_bounds_inclusive a (p + n))
            "assertion failed: self.is_within_bounds_inclusive(..)" (slide_bring a p)) ;;
    Returned (Some v).

Definition one_hop_this_time (a : Array) (p : Z) : ending Z :=
  offset <~~ hop_size e (a_raw a) (a_slide a) p ;;
  (if debug then z <~~ end_ptr e (a_raw a) ;;
     eassert (p + offset <=? z) "assertion failed: ptr.wrapping_add(offset) <= self.raw.end_ptr()" (Returned (p + offset))
   else Returned (p + offset)).

(** *** Iterators *)

Record position := { curr : Z; ptr : Z }.

Definition start (a : Array) : ending position :=
  p <~~ data_ptr e (a_raw a) ;; Returned {| curr := 0; ptr := p |}.

(** Whether the current element is null, and [None] behind the last one. *)
Definition null_here (a : Array) (c n : Z) : ending (option bool) :=
  match a_nulls a with
  | Some s => bits_is_null e (a_raw a) s c
  | None => Returned (if c <? n then Some false else None)
  end.

(** [ArrayIterator::next]. *)
Definition iter_next (a : Array) (st : position) : ending (option (option A) * position) :=
  n <~~ len a ;;
  if n <=? curr st then Returned (None, st)
  else
    o <~~ null_here a (curr st) n ;;
    match o with
    | None => Returned (None, st)
    | Some is_null =>
        element <~~ bring_it_back_now a (ptr st) is_null ;;
        p <~~ (if is_null then Returned (ptr st) else one_hop_this_time a (ptr st)) ;;
        Returned (Some element, {| curr := curr st + 1; ptr := p |})
    end.

(** [ArrayIntoIterator::next], which first asserts that the pointer is inside. *)
Definition into_iter_next (a : Array) (st : position) : ending (option (option A) * position) :=
  n <~~ len a ;;
  if n <=? curr st then Returned (None, st)
  else
    o <~~ null_here a (curr st) n ;;
    match o with
    | None => Returned (None, st)
    | Some is_null =>
        inside <~~ (if debug then is_within_bounds a (ptr st) else Returned true) ;;
        if negb inside then Panicked "assertion failed: array.is_within_bounds(*ptr)"
        else
          element <~~ bring_it_back_now a (ptr st) is_null ;;
          p <~~ (if is_null then Returned (ptr st) else one_hop_this_time a (ptr st)) ;;
          Returned (Some element, {| curr := curr st + 1; ptr := p |})
    end.

(** [ArrayTypedIterator::next], over an array without nulls. *)
Definition typed_next (a : Array) (st : position) : ending (option A * position) :=
  n <~~ len a ;;
  if n <=? curr st then Returned (None, st)
  else
    element <~~ bring_it_back_now a (ptr st) false ;;
    p <~~ one_hop_this_time a (ptr st) ;;
    Returned (element, {| curr := curr st + 1; ptr := p |}).

(** Asking an iterator until it has no more; the fuel is spent one per element. *)
Fixpoint collect {X} (next : position -> ending (option X * position)) (fuel : nat) (st : position)
    : ending (list X) :=
  match fuel with
  | O => Undefined
  | S fuel =>
      r <~~ next st ;;
      match r with
      | (None, _) => Returned []
      | (Some x, st) => xs <~~ collect next fuel st ;; Returned (x :: xs)
      end
  end.

Definition fuel_of (a : Array) : ending nat := n <~~ len a ;; Returned (S (Z.to_nat n)).

Definition iter (a : Array) : ending (list (option A)) :=
  st <~~ start a ;; n <~~ fuel_of a ;; collect (iter_next a) n st.

Definition into_iter (a : Array) : ending (list (option A)) :=
  st <~~ start a ;; n <~~ fuel_of a ;; collect (into_iter_next a) n st.

Definition iter_deny_null (a : Array) : ending (list A) :=
  b <~~ contains_nulls e (a_raw a) (a_nulls a) ;;
  if b then Panicked "array contains NULL"
  else st <~~ start a ;; n <~~ fuel_of a ;; collect (typed_next a) n st.

(** *** Indexing *)

Fixpoint hops (a : Array) (n : nat) (p : Z) : ending Z :=
  match n with O => Returned p | S n => p <~~ one_hop_this_time a p ;; hops a n p end.

Definition get_strict_inner (a : Array) (index : Z) : ending (option A) :=
  n <~~ len a ;;
  if n <=? index then Returned None
  else
    p <~~ data_ptr e (a_raw a) ;;
    p <~~ hops a (Z.to_nat index) p ;;
    o <~~ bring_it_back_now a p false ;;
    v <~~ expect "Null value in Strict array" o ;;
    Returned (Some v).

(** From index [i], over the elements before the wanted one that are not null. *)
Fixpoint skip_nulls (a : Array) (s : BitSlice) (i : Z) (n : nat) (p : Z) : ending Z :=
  match n with
  | O => Returned p
  | S n =>
      o <~~ bits_is_null e (a_raw a) s i ;;
      match o with
      | None => Panicked "array was exceeded while walking to known non-null index???"
      | Some true => skip_nulls a s (i + 1) n p
      | Some false => p <~~ one_hop_this_time a p ;; skip_nulls a s (i + 1) n p
      end
  end.

Definition get_nullable_inner (a : Array) (s : BitSlice) (index : Z) : ending (option (option A)) :=
  n <~~ len a ;;
  if debug && negb (index <? n) then Panicked "assertion failed: index < self.raw.len()"
  else
    p <~~ data_ptr e (a_raw a) ;;
    p <~~ skip_nulls a s 0 (Z.to_nat index) p ;;
    o <~~ bring_it_back_now a p false ;;
    Returned (Some o).

Definition get (a : Array) (index : Z) : ending (option (option A)) :=
  n <~~ len a ;;
  if n <=? index then Returned None
  else
    match a_nulls a with
    | None => o <~~ get_strict_inner a index ;; Returned (Some <$> o)
    | Some s =>
        o <~~ bits_is_null e (a_raw a) s index ;;
        match o with
        | None => Returned None
        | Some true => Returned (Some None)
        | Some false => get_nullable_inner a s index
        end
    end.
End Arrays.

(** *** Slices of scalars *)

Inductive ArraySliceError := ContainsNulls.

(** [as_slice], of scalars of [size] bytes: where the slice begins and its length. *)
Definition as_slice (e : endian) (size : Z) (a : Array) : ending (ArraySliceError + Z * Z) :=
  b <~~ contains_nulls e (a_raw a) (a_nulls a) ;;
  if b then Returned (inl ContainsNulls)
  else p <~~ data_ptr e (a_raw a) ;; n <~~ raw_len e (a_raw a) ;;
       _ <~~ read_bytes (a_raw a) p (size * n) ;; Returned (inr (p, n)).
