(* ===== verification/PgArraySafe.v ===== *)
(** * Arrays are read as they were stored

    The format in which Postgres stores an array ([array_format]), independent of the
    code that reads it, and what the readers of [PgArray] make of an array in it. *)
From stdpp Require Import base list strings.
From S2P Require Import Prelude Memory Varlena PgArray.
#[local] Open Scope Z_scope.
#[local] Open Scope ending_scope.

(** ** Alignment *)

Lemma align_mask k n : 0 <= k -> Z.land n (Z.lnot (2 ^ k - 1)) = n / 2 ^ k * 2 ^ k.
Proof.
  intros Hk. rewrite <- Z.ldiff_land. replace (2 ^ k - 1) with (Z.ones k) by (rewrite Z.ones_equiv; lia).
  by rewrite Z.ldiff_ones_r, Z.shiftr_div_pow2, Z.shiftl_mul_pow2 by lia.
Qed.

Definition round_up (a n : Z) : Z := (n + (a - 1)) / a * a.

Lemma pad_round_up a n : pad a n = round_up (align_as_usize a) n.
Proof.
  unfold pad, round_up. destruct a; cbn [align_as_usize].
  - by rewrite <- (align_mask 0).
  - by rewrite <- (align_mask 1).
  - by rewrite <- (align_mask 2).
  - by rewrite <- (align_mask 3).
Qed.

Lemma MAXALIGN_round_up n : MAXALIGN n = round_up 8 n.
Proof. unfold MAXALIGN, TYPEALIGN, round_up. by rewrite <- (align_mask 3). Qed.

Lemma align_positive a : 0 < align_as_usize a.
Proof. by destruct a. Qed.

Lemma round_up_le a n : 0 < a -> n <= round_up a n < n + a.
Proof.
  intros Ha. unfold round_up. pose proof (Z.div_mod (n + (a - 1)) a ltac:(lia)) as Hd.
  pose proof (Z.mod_pos_bound (n + (a - 1)) a Ha). lia.
Qed.

Lemma round_up_multiple a n : 0 < a -> round_up a n mod a = 0.
Proof. intros. by apply Z.mod_mul; lia. Qed.

Lemma round_up_exact a n : 0 < a -> n mod a = 0 -> round_up a n = n.
Proof.
  intros Ha Hn. apply Z.mod_divide in Hn as [q ->]; [|lia]. unfold round_up.
  rewrite Z.div_add_l by lia. rewrite (Z.div_small (a - 1)) by lia. lia.
Qed.

(** ** The format *)

(** The bytes of one element: a fixed number of them, a varlena with a header of four
    or of one byte, or a string with its NUL. *)
Inductive varlena_bytes (e : endian) : bytes -> Prop :=
| varlena_4b data :
    4 + Z.of_nat (length data) < 2 ^ 30 ->
    varlena_bytes e (ne_bytes e 4 (encode_vlen_4b e (4 + Z.of_nat (length data))) ++ data)
| varlena_1b data :
    1 + Z.of_nat (length data) <= 127 ->
    varlena_bytes e (ne_bytes e 1 (encode_vlen_1b e (1 + Z.of_nat (length data))) ++ data).

Definition element_bytes (e : endian) (l : Layout) (bs : bytes) : Prop :=
  match l_size l with
  | SFixed n => Z.of_nat (length bs) = n
  | SVarlena => varlena_bytes e bs
  | SCStr => exists s, bs = s ++ [x00] /\ Forall (fun b => b <> x00) s
  end.

(** The layouts [pg_type] has: a value passed in a datum has the size of its
    alignment, a varlena is aligned to 4 or 8, a C string to 1. *)
Definition layout_ok (l : Layout) : bool :=
  match l_pass l, l_size l with
  | Value, SFixed n => n =? align_as_usize (l_align l)
  | Value, _ => false
  | Ref, SFixed n => 0 <? n
  | Ref, SVarlena => 4 <=? align_as_usize (l_align l)
  | Ref, SCStr => align_as_usize (l_align l) =? 1
  end.

(** The elements that are not null lie one behind the other, each padded to the
    alignment; a null takes no space. *)
Inductive data_at (e : endian) (l : Layout) (m : bytes) : Z -> list (option bytes) -> Z -> Prop :=
| data_nil p : data_at e l m p [] p
| data_null p es q : data_at e l m p es q -> data_at e l m p (None :: es) q
| data_some p bs es q :
    bytes_at m p bs -> element_bytes e l bs ->
    data_at e l m (p + round_up (align_as_usize (l_align l)) (Z.of_nat (length bs))) es q ->
    data_at e l m p (Some bs :: es) q.

Definition is_null {X} (o : option X) : bool := match o with Some _ => false | None => true end.

(** The bitmap: bit [i], counted from the low end of each byte, is set where element
    [i] is not null. *)
Definition bitmap_at (m : bytes) (p : Z) (es : list (option bytes)) : Prop :=
  exists bm, bytes_at m p bm /\ Z.of_nat (length bm) = (Z.of_nat (length es) + 7) / 8
    /\ forall i o, es !! i = Some o ->
       exists b, bm !! (i / 8)%nat = Some b /\ Z.testbit (u8_to_Z b) (Z.of_nat (i mod 8)) = negb (is_null o).

Fixpoint ints_bytes (e : endian) (ds : list Z) : bytes :=
  match ds with [] => [] | d :: ds => ne_bytes e 4 d ++ ints_bytes e ds end.

Definition nelems (ds : list Z) : Z := match ds with [] => 0 | _ => foldr Z.mul 1 ds end.

(** Where the data begins: [off], or behind the dimensions when there is no bitmap. *)
Definition data_start (ds : list Z) (off : Z) : Z :=
  if off =? 0 then round_up 8 (16 + 8 * Z.of_nat (length ds)) else off.

(** An array of dimensions [ds] over the type [elemtype], with the offset [off] of its
    data, or 0 when it has no bitmap. *)
Record array_format (e : endian) (l : Layout) (elemtype : Z) (ds : list Z) (off : Z)
    (m : bytes) (es : list (option bytes)) : Prop := {
  af_size : Z.of_nat (length m) < 2 ^ 30;
  af_header : bytes_at m 0 (ne_bytes e 4 (encode_vlen_4b e (Z.of_nat (length m)))
     ++ ne_bytes e 4 (Z.of_nat (length ds)) ++ ne_bytes e 4 off ++ ne_bytes e 4 elemtype
     ++ ints_bytes e ds);
  af_ndim : (length ds <= 6)%nat;
  af_positive : Forall (fun d => 0 < d) ds;
  af_len : Z.of_nat (length es) = nelems ds;
  af_max : Z.of_nat (length es) <= MAX_ARRAY_SIZE;
  af_oid : 0 <= elemtype < 2 ^ 32;
  af_off : 0 <= off < 2 ^ 31 /\ off mod 8 = 0;
  af_nulls : if off =? 0 then Forall (fun o => is_null o = false) es
             else bitmap_at m (16 + 8 * Z.of_nat (length ds)) es;
  af_data : exists q, q <= Z.of_nat (length m) /\ data_at e l m (data_start ds off) es q;
}.

(** ** The header is read *)

Lemma read_i32_at e m p z :
  bytes_at m p (ne_bytes e 4 z) -> p mod 4 = 0 -> - 2 ^ 31 <= z < 2 ^ 31 -> read_i32 e m p = Returned z.
Proof.
  intros Hb Hp Hz. unfold read_i32.
  rewrite (ebind_returned _ _ _ (bytes_at_uint e 4 m p _ Hb (length_ne_bytes _ _ _) Hp)).
  rewrite from_ne_bytes_ne_bytes. f_equal. by apply (as_signed_small 32).
Qed.

Lemma i32s_ints_bytes e ds :
  Forall (fun d => - 2 ^ 31 <= d < 2 ^ 31) ds -> i32s e (ints_bytes e ds) = ds.
Proof.
  induction 1 as [|d ds Hd _ IH]; [done|]. cbn [ints_bytes].
  pose proof (length_ne_bytes e 4 d) as Hl. pose proof (from_ne_bytes_ne_bytes e 4 d) as Hv.
  destruct (ne_bytes e 4 d) as [|b0 [|b1 [|b2 [|b3 [|]]]]]; try done. cbn [app i32s].
  rewrite Hv, IH. f_equal. by apply (as_signed_small 32).
Qed.

Lemma checked_product_spec ds : forall acc,
  0 < acc -> Forall (fun d => 0 < d) ds -> acc * foldr Z.mul 1 ds < 2 ^ 32 ->
  checked_product acc ds = Some (acc * foldr Z.mul 1 ds).
Proof.
  induction ds as [|d ds IH]; intros acc Ha Hp Hb; cbn [checked_product foldr] in *; [by rewrite Z.mul_1_r|].
  inversion Hp as [|? ? Hd Hp']; subst.
  assert (0 < foldr Z.mul 1 ds).
  { clear -Hp'. induction Hp'; cbn [foldr]; [done|]. by apply Z.mul_pos_pos. }
  rewrite Z.mod_small by nia. case_match; [|nia]. rewrite IH by (done || nia). f_equal. lia.
Qed.

Lemma ints_bytes_length e ds : length (ints_bytes e ds) = (4 * length ds)%nat.
Proof.
  induction ds as [|d ds IH]; [done|]. cbn [ints_bytes length]. rewrite length_app, length_ne_bytes. lia.
Qed.

Lemma data_at_monotone e l m p es q : data_at e l m p es q -> p <= q.
Proof.
  induction 1 as [|p es q _ IH|p bs es q _ _ _ IH]; [lia|done|].
  pose proof (round_up_le (align_as_usize (l_align l)) (Z.of_nat (length bs)) (align_positive _)). lia.
Qed.

Section Reading.
Context (e : endian) (l : Layout) (elemtype : Z) (ds : list Z) (off : Z) (m : bytes) (es : list (option bytes)).
Hypothesis Hf : array_format e l elemtype ds off m es.

Lemma dims_in_range : Forall (fun d => 0 < d < 2 ^ 31) ds.
Proof.
  destruct Hf as [_ _ _ Hp Hlen Hmax _ _ _ _]. rewrite Hlen in Hmax. clear Hlen.
  assert (Hprod : ds <> [] -> foldr Z.mul 1 ds <= MAX_ARRAY_SIZE) by (by destruct ds).
  assert (Hgen : forall b, Forall (fun d => 0 < d) ds -> foldr Z.mul 1 ds <= b -> Forall (fun d => 0 < d <= b) ds).
  { clear. induction ds as [|d ds' IH]; intros b Hp Hb; [constructor|]. inversion Hp as [|? ? Hd Hp']; subst.
    cbn [foldr] in Hb. assert (0 < foldr Z.mul 1 ds').
    { clear -Hp'. induction Hp'; cbn [foldr]; [done|]. by apply Z.mul_pos_pos. }
    constructor; [nia|]. apply IH; [done|]. nia. }
  destruct (decide (ds = [])) as [->|Hne]; [constructor|].
  specialize (Hgen _ Hp (Hprod Hne)). eapply List.Forall_impl; [|exact Hgen]. cbn. intros d Hd.
  change MAX_ARRAY_SIZE with 134217727 in Hd. lia.
Qed.

Lemma header_fields :
  bytes_at m 0 (ne_bytes e 4 (encode_vlen_4b e (Z.of_nat (length m))))
  /\ bytes_at m 4 (ne_bytes e 4 (Z.of_nat (length ds)))
  /\ bytes_at m 8 (ne_bytes e 4 off)
  /\ bytes_at m 12 (ne_bytes e 4 elemtype)
  /\ bytes_at m 16 (ints_bytes e ds).
Proof.
  pose proof (af_header _ _ _ _ _ _ _ Hf) as Hh.
  apply bytes_at_app in Hh as [H0 Hh]. rewrite length_ne_bytes in Hh. cbn in Hh.
  apply bytes_at_app in Hh as [H4 Hh]. rewrite length_ne_bytes in Hh. cbn in Hh.
  apply bytes_at_app in Hh as [H8 Hh]. rewrite length_ne_bytes in Hh. cbn in Hh.
  apply bytes_at_app in Hh as [H12 Hh]. rewrite length_ne_bytes in Hh. cbn in Hh. done.
Qed.

Lemma ndim_spec : ndim e m = Returned (Z.of_nat (length ds)).
Proof. apply read_i32_at; [apply header_fields|done|]. pose proof (af_ndim _ _ _ _ _ _ _ Hf). lia. Qed.

Lemma data_offset_spec : data_offset e m = Returned off.
Proof. apply read_i32_at; [apply header_fields|done|]. pose proof (af_off _ _ _ _ _ _ _ Hf). lia. Qed.

Lemma oid_spec : oid e m = Returned elemtype.
Proof.
  unfold oid. rewrite (bytes_at_uint e 4 m 12 (ne_bytes e 4 elemtype)) by (apply header_fields || by rewrite ?length_ne_bytes).
  rewrite from_ne_bytes_ne_bytes. f_equal. apply Z.mod_small. apply (af_oid _ _ _ _ _ _ _ Hf).
Qed.

Lemma ARR_NDIM_spec : ARR_NDIM e m = Returned (Z.of_nat (length ds)).
Proof.
  unfold ARR_NDIM. rewrite ndim_spec. cbn [ebind]. f_equal. apply Z.mod_small.
  pose proof (af_ndim _ _ _ _ _ _ _ Hf). lia.
Qed.

Lemma dims_spec : dims e m = Returned ds.
Proof.
  unfold dims. rewrite ARR_NDIM_spec. cbn [ebind]. destruct header_fields as (_ & _ & _ & _ & Hd).
  apply bytes_at_read in Hd. rewrite ints_bytes_length in Hd.
  change ARR_DIMS with 16. replace (4 * Z.of_nat (length ds)) with (Z.of_nat (4 * length ds)) by lia.
  rewrite Hd. cbn [ebind]. f_equal. apply i32s_ints_bytes. eapply List.Forall_impl; [|apply dims_in_range]. cbn. lia.
Qed.

Lemma raw_len_spec : raw_len e m = Returned (Z.of_nat (length es)).
Proof.
  unfold raw_len. rewrite dims_spec. cbn [ebind].
  destruct Hf as [_ _ _ Hp Hlen Hmax _ _ _ _]. rewrite Hlen in *. clear Hlen Hf.
  destruct ds as [|d ds']; [done|]. unfold nelems in *. change MAX_ARRAY_SIZE with 134217727 in Hmax.
  rewrite checked_product_spec by (done || lia). rewrite Z.mul_1_l. unfold eassert.
  change MAX_ARRAY_SIZE with 134217727. case_match; [done|lia].
Qed.

Lemma end_ptr_spec : end_ptr e m = Returned (Z.of_nat (length m)).
Proof.
  destruct header_fields as (Hh & _). unfold end_ptr.
  apply (varsize_any_4b e m 0 (Z.of_nat (length m)) Hh eq_refl). pose proof (af_size _ _ _ _ _ _ _ Hf). lia.
Qed.

Lemma data_ptr_spec : data_ptr e m = Returned (data_start ds off).
Proof.
  unfold data_ptr, ARR_DATA_OFFSET, ARR_HASNULL, data_start. rewrite data_offset_spec. cbn [ebind].
  destruct (off =? 0) eqn:Ho; cbn [negb].
  - rewrite ARR_NDIM_spec. cbn [ebind]. unfold ARR_OVERHEAD_NONULLS. rewrite MAXALIGN_round_up.
    done.
  - f_equal. apply Z.mod_small. pose proof (af_off _ _ _ _ _ _ _ Hf). lia.
Qed.

Definition bitmap_of : option BitSlice :=
  if off =? 0 then None
  else Some {| bits_ptr := 16 + 8 * Z.of_nat (length ds); bits_len := Z.of_nat (length es) |}.

Lemma nulls_bitslice_spec : nulls_bitslice e m = Returned bitmap_of.
Proof.
  unfold nulls_bitslice, ARR_NULLBITMAP, ARR_HASNULL, bitmap_of. rewrite data_offset_spec. cbn [ebind].
  destruct (off =? 0); cbn [negb ebind]; [done|]. rewrite ARR_NDIM_spec. cbn [ebind].
  rewrite raw_len_spec. cbn [ebind]. done.
Qed.

(** Whether element [i] is null. *)
Lemma null_here_spec slide i o :
  es !! i = Some o ->
  null_here e {| a_slide := slide; a_nulls := bitmap_of; a_raw := m |} (Z.of_nat i) (Z.of_nat (length es))
  = Returned (Some (is_null o)).
Proof.
  intros Hi. assert (i < length es)%nat by (by eapply lookup_lt_Some). unfold null_here, bitmap_of; cbn [a_nulls a_raw].
  pose proof (af_nulls _ _ _ _ _ _ _ Hf) as Hn. destruct (off =? 0).
  - rewrite (proj2 (Z.ltb_lt _ _)) by lia. rewrite Forall_lookup in Hn. by rewrite (Hn _ _ Hi).
  - destruct Hn as (bm & Hat & Hl & Hbits). destruct (Hbits i o Hi) as (b & Hb & Hbit).
    unfold bits_is_null, bit_get; cbn [bits_len bits_ptr]. rewrite (proj2 (Z.ltb_lt _ _)) by lia.
    assert (Hb1 : bytes_at m (16 + 8 * Z.of_nat (length ds) + Z.of_nat i / 8) [b]).
    { rewrite <- (take_drop_middle bm _ _ Hb) in Hat. apply bytes_at_app in Hat as [_ Hat].
      change (b :: drop (S (i / 8)) bm) with ([b] ++ drop (S (i / 8)) bm) in Hat.
      apply bytes_at_app in Hat as [Hat _]. rewrite length_take_le in Hat by (apply lookup_lt_Some in Hb; lia).
      rewrite Nat2Z.inj_div in Hat. done. }
    rewrite (bytes_at_uint e 1 m _ [b] Hb1 eq_refl) by (by rewrite Z.mod_1_r). cbn [ebind].
    replace (from_ne_bytes e [b]) with (u8_to_Z b) by (destruct e; cbn; lia).
    replace (Z.of_nat i mod 8) with (Z.of_nat (i mod 8)) by (by rewrite Nat2Z.inj_mod).
    rewrite Hbit. by destruct o.
Qed.
End Reading.

(** ** Elements are found and unboxed *)

Lemma strlen_spec s post : Forall (fun b => b <> x00) s -> strlen (s ++ x00 :: post) = Some (Z.of_nat (length s)).
Proof.
  induction 1 as [|b s Hb _ IH]; [done|]. cbn [app strlen length].
  destruct (Byte.eqb b x00) eqn:E; [by apply Byte.byte_dec_bl in E|].
  rewrite IH. cbn. f_equal. lia.
Qed.

Lemma element_bytes_nonempty e l bs : layout_ok l = true -> element_bytes e l bs -> 0 < Z.of_nat (length bs).
Proof.
  unfold layout_ok, element_bytes. pose proof (align_positive (l_align l)). intros Hl.
  destruct (l_size l) as [| |n].
  - intros (s & -> & _). rewrite length_app. cbn. lia.
  - intros []; rewrite length_app, length_ne_bytes; lia.
  - destruct (l_pass l); lia.
Qed.

Lemma varlena_varsize e m p bs :
  varlena_bytes e bs -> bytes_at m p bs -> p mod 4 = 0 -> varsize_any e m p = Returned (Z.of_nat (length bs)).
Proof.
  intros [data Hl|data Hl] Hb Hp; apply bytes_at_app in Hb as [Hb _]; rewrite length_app, length_ne_bytes.
  - destruct (varsize_any_4b e m p _ Hb Hp ltac:(lia)) as (_ & _ & _ & _ & ->). f_equal. lia.
  - destruct (varsize_any_1b e m p _ Hb ltac:(lia)) as (_ & _ & _ & ->). f_equal. lia.
Qed.

Lemma mod_divides a b n : 0 < a -> 0 < b -> n mod (a * b) = 0 -> n mod a = 0.
Proof.
  intros Ha Hb Hn. apply Z.mod_divide in Hn as [q ->]; [|lia].
  replace (q * (a * b)) with (q * b * a) by lia. apply Z.mod_mul. lia.
Qed.

Lemma align_mod_8 a n : n mod 8 = 0 -> n mod align_as_usize a = 0.
Proof.
  intros Hn. destruct a; cbn [align_as_usize]; [apply Z.mod_1_r|..|done].
  - by apply (mod_divides 2 4).
  - by apply (mod_divides 4 2).
Qed.

Lemma align_mod_4 l p : layout_ok l = true -> l_pass l = Ref -> l_size l = SVarlena ->
  p mod align_as_usize (l_align l) = 0 -> p mod 4 = 0.
Proof.
  unfold layout_ok. intros Hok Hp Hs. rewrite Hp, Hs in Hok. destruct (l_align l); cbn in *; try done.
  by apply (mod_divides 4 2).
Qed.

(** [hop_size] is the size of the element, padded. *)
Lemma hop_size_spec e l slide m p bs :
  layout_ok l = true -> slide_for l = Returned slide ->
  bytes_at m p bs -> element_bytes e l bs -> p mod align_as_usize (l_align l) = 0 ->
  hop_size e m slide p = Returned (round_up (align_as_usize (l_align l)) (Z.of_nat (length bs))).
Proof.
  intros Hok Hs Hb He Hp. pose proof (align_mod_4 l p Hok) as H4. unfold slide_for, layout_ok, element_bytes in *.
  destruct (l_pass l), (l_size l) as [| |n]; try done.
  - injection Hs as <-. destruct He as (s & -> & Hs). apply Z.eqb_eq in Hok. rewrite Hok, round_up_exact by (lia || apply Z.mod_1_r).
    cbn [hop_size]. unfold cstr_len. destruct Hb as (Hp0 & pre & post & -> & Hpre).
    case_match; [|lia]. rewrite <- Hpre, Nat2Z.id, drop_app_length, <- app_assoc. cbn [app].
    rewrite strlen_spec by done. cbn [defined ebind]. f_equal. rewrite length_app. cbn. lia.
  - injection Hs as <-. cbn [hop_size]. rewrite (varlena_varsize _ _ _ _ He Hb) by auto. cbn [ebind].
    by rewrite pad_round_up.
  - injection Hs as <-. cbn [hop_size]. rewrite pad_round_up. by subst n.
  - apply Z.eqb_eq in Hok. case_match; [|done]. injection Hs as <-. cbn [hop_size].
    pose proof (align_positive (l_align l)). f_equal. rewrite He, Hok, round_up_exact by (lia || apply Z.mod_same; lia). lia.
Qed.

(** The type [A] that elements of layout [l] are unboxed as: [reads bs v] when the
    bytes [bs] are the value [v]. *)
Class UnboxLaws (e : endian) (l : Layout) {A} `{UnboxDatum A} (reads : bytes -> A -> Prop) : Prop := {
  unbox_value m bs v :
    l_pass l = Value -> element_bytes e l bs -> reads bs v -> unbox e m (DVal (from_ne_bytes e bs)) = Returned v;
  unbox_ref m p bs v :
    l_pass l = Ref -> element_bytes e l bs -> reads bs v -> bytes_at m p bs ->
    p mod align_as_usize (l_align l) = 0 -> unbox e m (DPtr p) = Returned v;
}.

Section Elements.
Context (e : endian) (debug : bool) (l : Layout) (elemtype : Z) (ds : list Z) (off : Z) (m : bytes)
  (es : list (option bytes)) (slide : ChaChaSlide).
Context `{Laws : UnboxLaws e l A reads}.
Hypothesis Hf : array_format e l elemtype ds off m es.
Hypothesis Hok : layout_ok l = true.
Hypothesis Hs : slide_for l = Returned slide.

Let a : Array := {| a_slide := slide; a_nulls := bitmap_of ds off es; a_raw := m |}.
Let al := align_as_usize (l_align l).

Lemma slide_bring_spec p bs v :
  bytes_at m p bs -> element_bytes e l bs -> reads bs v -> p mod al = 0 ->
  slide_bring e debug a p = Returned v.
Proof.
  intros Hb He Hr Hp. unfold slide_bring; cbn [a_slide a_raw a].
  unfold slide_for, layout_ok in *. pose proof (unbox_ref (reads := reads) m p bs v) as Href.
  pose proof (unbox_value (reads := reads) m bs v) as Hval.
  destruct (l_pass l), (l_size l) as [| |n] eqn:Hsz; try done; try (injection Hs as <-; by apply Href).
  apply Z.eqb_eq in Hok. case_match; [|done]. injection Hs as <-. unfold byval_read; cbn [a_raw a].
  pose proof (align_positive (l_align l)).
  assert (Hlen : length bs = Z.to_nat n) by (unfold element_bytes in He; rewrite Hsz in He; lia).
  assert (Hpn : p mod Z.of_nat (Z.to_nat n) = 0).
  { subst al. rewrite Hok, Z2Nat.id by lia. done. }
  rewrite Hpn. cbn [negb Z.eqb]. rewrite andb_false_r.
  rewrite (ebind_returned _ _ _ (bytes_at_uint e _ m p bs Hb Hlen Hpn)). by apply Hval.
Qed.

Lemma bounds_spec p :
  data_start ds off <= p ->
  is_within_bounds e a p = Returned (p <? Z.of_nat (length m))
  /\ is_within_bounds_inclusive e a p = Returned (p <=? Z.of_nat (length m)).
Proof.
  intros Hp. unfold is_within_bounds, is_within_bounds_inclusive; cbn [a_raw a].
  rewrite (data_ptr_spec _ _ _ _ _ _ _ Hf). cbn [ebind]. rewrite (end_ptr_spec _ _ _ _ _ _ _ Hf). cbn [ebind].
  by rewrite (proj2 (Z.leb_le _ _) Hp).
Qed.

(** An element that is not null, and the hop over it. *)
Lemma element_spec p bs v :
  bytes_at m p bs -> element_bytes e l bs -> reads bs v -> p mod al = 0 ->
  data_start ds off <= p -> p + round_up al (Z.of_nat (length bs)) <= Z.of_nat (length m) ->
  bring_it_back_now e debug a p false = Returned (Some v)
  /\ one_hop_this_time e debug a p = Returned (p + round_up al (Z.of_nat (length bs))).
Proof.
  intros Hb He Hr Hp Hd Hend.
  pose proof (element_bytes_nonempty e l bs Hok He) as Hne.
  pose proof (round_up_le al (Z.of_nat (length bs)) (align_positive _)) as Hru.
  pose proof (hop_size_spec e l slide m p bs Hok Hs Hb He Hp) as Hhop. fold al in Hhop.
  pose proof (slide_bring_spec p bs v Hb He Hr Hp) as Hbring.
  split.
  - unfold bring_it_back_now, debug_assert. destruct debug; [|by rewrite Hbring].
    rewrite (proj1 (bounds_spec p Hd)). cbn [a_slide a_raw a ebind]. rewrite (proj2 (Z.ltb_lt _ _)) by lia.
    cbn [eassert]. rewrite Hhop. cbn [ebind].
    rewrite (proj2 (bounds_spec (p + round_up al (Z.of_nat (length bs))) ltac:(lia))). cbn [ebind].
    rewrite (proj2 (Z.leb_le _ _)) by lia. cbn [eassert]. by rewrite Hbring.
  - unfold one_hop_this_time; cbn [a_slide a_raw a]. rewrite Hhop. cbn [ebind].
    destruct debug; [|done]. rewrite (end_ptr_spec _ _ _ _ _ _ _ Hf). cbn [ebind].
    by rewrite (proj2 (Z.leb_le _ _)) by lia.
Qed.

Lemma data_start_aligned : data_start ds off mod al = 0.
Proof.
  apply align_mod_8. unfold data_start. destruct (off =? 0); [by apply round_up_multiple|].
  apply (af_off _ _ _ _ _ _ _ Hf).
Qed.

Lemma next_aligned p n : p mod al = 0 -> (p + round_up al n) mod al = 0.
Proof.
  intros Hp. pose proof (align_positive (l_align l)) as Ha. fold al in Ha.
  rewrite Z.add_mod, Hp, round_up_multiple by lia. done.
Qed.

(** *** Iterating *)

Lemma iter_next_end p : iter_next e debug a {| curr := Z.of_nat (length es); ptr := p |} = Returned (None, {| curr := Z.of_nat (length es); ptr := p |}).
Proof.
  unfold iter_next, len; cbn [a_raw a]. rewrite (raw_len_spec _ _ _ _ _ _ _ Hf). cbn [ebind curr].
  by rewrite (proj2 (Z.leb_le _ _)) by lia.
Qed.

Lemma iter_next_spec i o p q v :
  es !! i = Some o -> option_Forall2 reads o v ->
  data_at e l m p (o :: drop (S i) es) q -> q <= Z.of_nat (length m) -> data_start ds off <= p -> p mod al = 0 ->
  exists p', iter_next e debug a {| curr := Z.of_nat i; ptr := p |}
             = Returned (Some v, {| curr := Z.of_nat (S i); ptr := p' |})
    /\ data_at e l m p' (drop (S i) es) q /\ data_start ds off <= p' /\ p' mod al = 0.
Proof.
  intros Hi Hv Hd Hq Hp Ha. assert (i < length es)%nat by (by eapply lookup_lt_Some).
  unfold iter_next, len; cbn [a_raw a curr ptr]. rewrite (raw_len_spec _ _ _ _ _ _ _ Hf). cbn [ebind].
  rewrite (proj2 (Z.leb_gt _ _)) by lia. unfold a at 1. rewrite (null_here_spec _ _ _ _ _ _ _ Hf _ _ _ Hi). cbn [ebind].
  replace (Z.of_nat i + 1) with (Z.of_nat (S i)) by lia.
  inversion Hd as [|p0 es0 q0 Hd'|p0 bs es0 q0 Hb He Hd']; subst; inversion Hv as [bs' v' Hr|]; subst; cbn [is_null].
  - exists p. by cbn.
  - pose proof (data_at_monotone _ _ _ _ _ _ Hd') as Hle. fold al in Hd', Hle.
    destruct (element_spec p bs v' Hb He Hr Ha Hp ltac:(lia)) as [Hbr Hhop].
    rewrite Hbr. cbn [ebind]. rewrite Hhop. cbn [ebind].
    eexists. split; [done|]. split; [done|].
    pose proof (round_up_le al (Z.of_nat (length bs)) (align_positive _)).
    split; [lia|]. by apply next_aligned.
Qed.

Lemma iter_from i p q vs :
  (i <= length es)%nat -> Forall2 (option_Forall2 reads) (drop i es) vs ->
  data_at e l m p (drop i es) q -> q <= Z.of_nat (length m) -> data_start ds off <= p -> p mod al = 0 ->
  collect (iter_next e debug a) (S (length es - i)) {| curr := Z.of_nat i; ptr := p |} = Returned vs.
Proof.
  intros Hi Hv. remember (length es - i)%nat as n eqn:Hn. revert i p vs Hi Hv Hn.
  induction n as [|n IH]; intros i p vs Hi Hv Hn Hd Hq Hp Ha.
  - rewrite drop_ge in Hv by lia. inversion Hv; subst. replace i with (length es) by lia.
    cbn [collect]. by rewrite iter_next_end.
  - destruct (lookup_lt_is_Some_2 es i) as [o Ho]; [lia|]. rewrite (drop_S _ _ _ Ho) in Hv, Hd.
    inversion Hv as [|? v ? vs' Hov Hvs]; subst.
    destruct (iter_next_spec i o p q v Ho Hov Hd Hq Hp Ha) as (p' & Hnext & Hd' & Hp' & Ha').
    remember (S n) as k. cbn [collect]. rewrite Hnext. cbn [ebind]. subst k.
    rewrite (IH (S i) p' vs') by (done || lia). done.
Qed.

(** *** Null tests *)

Lemma bit_get_spec i o :
  off <> 0 -> es !! i = Some o ->
  bit_get e m {| bits_ptr := 16 + 8 * Z.of_nat (length ds); bits_len := Z.of_nat (length es) |} (Z.of_nat i)
  = Returned (Some (negb (is_null o))).
Proof.
  intros Ho Hi. pose proof (null_here_spec _ _ _ _ _ _ _ Hf slide i o Hi) as Hn.
  unfold null_here, bitmap_of in Hn. cbn [a_nulls a_raw] in Hn. rewrite (proj2 (Z.eqb_neq _ _) Ho) in Hn.
  unfold bits_is_null in Hn. apply ebind_inv in Hn as (b & -> & Hb). destruct b as [b|]; [|done].
  injection Hb as <-. by rewrite negb_involutive.
Qed.

Definition nulls_in {X} (os : list (option X)) : nat := length (filter (fun o => is_null o = true) os).

Lemma zeros_from_spec n : off <> 0 -> forall i, (i + n)%nat = length es ->
  zeros_from e m {| bits_ptr := 16 + 8 * Z.of_nat (length ds); bits_len := Z.of_nat (length es) |} (Z.of_nat i) n
  = Returned (nulls_in (drop i es)).
Proof.
  intros Ho. induction n as [|n IH]; intros i Hi; cbn [zeros_from].
  { by rewrite drop_ge by lia. }
  destruct (lookup_lt_is_Some_2 es i) as [o Hio]; [lia|].
  rewrite (bit_get_spec i o Ho Hio). cbn [ebind]. replace (Z.of_nat i + 1) with (Z.of_nat (S i)) by lia.
  rewrite (IH (S i)) by lia. cbn [ebind]. rewrite (drop_S _ _ _ Hio). unfold nulls_in. by destruct o.
Qed.

Lemma contains_nulls_spec :
  contains_nulls e (a_raw a) (a_nulls a) = Returned (existsb is_null es).
Proof.
  assert (Hex : existsb is_null es = negb (nulls_in es =? 0)%nat).
  { clear. unfold nulls_in. induction es as [|[bs|] es' IH]; [done|..]; cbn; [apply IH|done]. }
  unfold contains_nulls, count_nulls; cbn [a_raw a_nulls a]. unfold bitmap_of.
  pose proof (af_nulls _ _ _ _ _ _ _ Hf) as Hn. destruct (off =? 0) eqn:Ho.
  - cbn [ebind Nat.eqb negb]. f_equal. rewrite Hex. clear -Hn. unfold nulls_in.
    induction Hn as [|[bs|] es' Hb _ IH]; [done|..]; cbn in *; done.
  - cbn [bits_len]. rewrite Nat2Z.id. pose proof (zeros_from_spec (length es) ltac:(lia) 0%nat eq_refl) as Hz.
    change (Z.of_nat 0) with 0 in Hz. rewrite Hz, drop_0. cbn [ebind]. by rewrite Hex.
Qed.

(** *** The values of a whole array *)

Context (vs : list (option A)).
Hypothesis Hv : Forall2 (option_Forall2 reads) es vs.

Lemma len_vs : length vs = length es.
Proof. symmetry. by eapply Forall2_length. Qed.

Lemma fuel_spec : fuel_of e a = Returned (S (length es)).
Proof.
  unfold fuel_of, len; cbn [a_raw a]. rewrite (raw_len_spec _ _ _ _ _ _ _ Hf). cbn [ebind]. by rewrite Nat2Z.id.
Qed.

Lemma start_spec : start e a = Returned {| curr := 0; ptr := data_start ds off |}.
Proof. unfold start; cbn [a_raw a]. by rewrite (data_ptr_spec _ _ _ _ _ _ _ Hf). Qed.

Lemma array_iter_spec : iter e debug a = Returned vs.
Proof.
  unfold iter. rewrite start_spec. cbn [ebind]. rewrite fuel_spec. cbn [ebind].
  destruct (af_data _ _ _ _ _ _ _ Hf) as (q & Hq & Hd).
  pose proof (iter_from 0 (data_start ds off) q vs) as Hi. rewrite Nat.sub_0_r, drop_0 in Hi. change (Z.of_nat 0) with 0 in Hi.
  apply Hi; [lia|done|done|done|lia|apply data_start_aligned].
Qed.

(** *** Walking to an index *)

Lemma data_at_split p es1 es2 q :
  data_at e l m p (es1 ++ es2) q -> exists r, data_at e l m p es1 r /\ data_at e l m r es2 q.
Proof.
  revert p. induction es1 as [|o es1 IH]; intros p Hd; cbn [app] in Hd.
  { exists p. split; [constructor|done]. }
  inversion Hd as [|? ? ? Hd'|? bs ? ? Hb He Hd']; subst; destruct (IH _ Hd') as (r & H1 & H2); exists r;
    split; try done; by constructor.
Qed.

(** The position of element [i], reached over the elements before it. *)
Lemma position_of i :
  (i <= length es)%nat ->
  exists r q, data_at e l m (data_start ds off) (take i es) r /\ data_at e l m r (drop i es) q
    /\ q <= Z.of_nat (length m) /\ data_start ds off <= r /\ r mod al = 0.
Proof.
  intros Hi. destruct (af_data _ _ _ _ _ _ _ Hf) as (q & Hq & Hd).
  rewrite <- (take_drop i es) in Hd. apply data_at_split in Hd as (r & H1 & H2).
  exists r, q. pose proof (data_at_monotone _ _ _ _ _ _ H1). repeat (split; [done|]).
  clear -H1 Hf. pose proof data_start_aligned as Ha.
  induction H1 as [|p es' q' _ IH|p bs es' q' _ _ _ IH]; [done|by apply IH|].
  apply IH. by apply next_aligned.
Qed.

Lemma hops_spec p es1 r :
  data_at e l m p es1 r -> Forall (fun o => is_null o = false) es1 -> Forall (fun o => exists v, option_Forall2 reads o v) es1 ->
  r <= Z.of_nat (length m) -> data_start ds off <= p -> p mod al = 0 ->
  hops e debug a (length es1) p = Returned r.
Proof.
  induction 1 as [|p es' q Hd IH|p bs es' q Hb He Hd IH]; intros Hn Hr Hq Hp Ha; cbn [hops length]; [done|..];
    inversion Hn as [|? ? Hn1 Hn2]; subst; [done|]. inversion Hr as [|? ? [v Hr1] Hr2]; subst.
  inversion Hr1 as [? v' Hrd|]; subst. pose proof (data_at_monotone _ _ _ _ _ _ Hd) as Hle. fold al in Hle.
  destruct (element_spec p bs v' Hb He Hrd Ha Hp ltac:(lia)) as [_ ->]. cbn [ebind].
  pose proof (round_up_le al (Z.of_nat (length bs)) (align_positive _)).
  apply IH; try done; [fold al; lia|]. by apply next_aligned.
Qed.

Lemma skip_nulls_spec n : off <> 0 -> forall i p r,
  data_at e l m p (take n (drop i es)) r -> (i + n <= length es)%nat ->
  r <= Z.of_nat (length m) -> data_start ds off <= p -> p mod al = 0 ->
  skip_nulls e debug a {| bits_ptr := 16 + 8 * Z.of_nat (length ds); bits_len := Z.of_nat (length es) |}
    (Z.of_nat i) n p = Returned r.
Proof.
  intros Ho. induction n as [|n IH]; intros i p r Hd Hi Hr Hp Ha; cbn [skip_nulls].
  { rewrite take_0 in Hd. by inversion Hd; subst. }
  destruct (lookup_lt_is_Some_2 es i) as [o Hio]; [lia|]. unfold bits_is_null; cbn [a_raw a].
  rewrite (bit_get_spec i o Ho Hio). cbn [ebind]. cbn [fmap option_fmap option_map]. rewrite negb_involutive.
  rewrite (drop_S _ _ _ Hio) in Hd. cbn [firstn] in Hd. replace (Z.of_nat i + 1) with (Z.of_nat (S i)) by lia.
  inversion Hd as [|? ? ? Hd'|? bs ? ? Hb He Hd']; subst; cbn [is_null].
  - apply IH; [done|lia|done..].
  - destruct (Forall2_lookup_l _ _ _ _ _ Hv Hio) as (v & _ & Hv1). inversion Hv1 as [? v' Hrd|]; subst.
    pose proof (data_at_monotone _ _ _ _ _ _ Hd') as Hle. fold al in Hle, Hd'.
    destruct (element_spec p bs v' Hb He Hrd Ha Hp ltac:(lia)) as [_ ->]. cbn [ebind].
    pose proof (round_up_le al (Z.of_nat (length bs)) (align_positive _)).
    apply IH; [done|lia|done|lia|]. by apply next_aligned.
Qed.

(** The element at an index that is in range and not null. *)
Lemma element_at i bs v r q :
  es !! i = Some (Some bs) -> reads bs v -> data_at e l m r (drop i es) q ->
  q <= Z.of_nat (length m) -> data_start ds off <= r -> r mod al = 0 ->
  bring_it_back_now e debug a r false = Returned (Some v).
Proof.
  intros Hi Hr Hd Hq Hp Ha. rewrite (drop_S _ _ _ Hi) in Hd. inversion Hd as [| |? ? ? ? Hb He Hd']; subst.
  pose proof (data_at_monotone _ _ _ _ _ _ Hd') as Hle. fold al in Hle.
  by apply (element_spec r bs v Hb He Hr Ha Hp ltac:(lia)).
Qed.

Lemma array_get_spec i : 0 <= i -> get e debug a i = Returned (vs !! Z.to_nat i).
Proof.
  intros Hi. unfold get, len; cbn [a_raw a_nulls a]. rewrite (raw_len_spec _ _ _ _ _ _ _ Hf). cbn [ebind].
  destruct (Z.of_nat (length es) <=? i) eqn:Hlt.
  { rewrite lookup_ge_None_2; [done|]. rewrite len_vs. lia. }
  assert (Hi' : (Z.to_nat i < length es)%nat) by lia.
  destruct (lookup_lt_is_Some_2 es (Z.to_nat i) Hi') as [o Hio].
  destruct (Forall2_lookup_l _ _ _ _ _ Hv Hio) as (v & Hvi & Hov). rewrite Hvi.
  destruct (position_of (Z.to_nat i) ltac:(lia)) as (r & q & Hd1 & Hd2 & Hq & Hr & Ha).
  pose proof (data_at_monotone _ _ _ _ _ _ Hd2).
  pose proof (af_nulls _ _ _ _ _ _ _ Hf) as Hn. unfold bitmap_of. destruct (off =? 0) eqn:Ho.
  - pose proof (proj1 (Forall_lookup _ _) Hn _ _ Hio) as Hno. destruct o as [bs|]; [|done].
    inversion Hov as [? v' Hrd|]; subst. unfold get_strict_inner, len; cbn [a_raw a].
    rewrite (raw_len_spec _ _ _ _ _ _ _ Hf). cbn [ebind]. rewrite Hlt.
    rewrite (data_ptr_spec _ _ _ _ _ _ _ Hf). cbn [ebind].
    replace (hops e debug a (Z.to_nat i) (data_start ds off)) with (Returned r).
    { cbn [ebind]. by rewrite (element_at (Z.to_nat i) bs v' r q Hio Hrd Hd2 Hq Hr Ha). }
    symmetry. rewrite <- (length_take_le es (Z.to_nat i)) by lia.
    apply (hops_spec _ _ _ Hd1); [by apply Forall_take| |lia|lia|apply data_start_aligned].
    apply Forall_take. apply Forall_lookup. intros j x Hj. destruct (Forall2_lookup_l _ _ _ _ _ Hv Hj) as (y & _ & Hy). by exists y.
  - assert (Ho' : off <> 0) by lia.
    unfold bits_is_null. pose proof (bit_get_spec (Z.to_nat i) o Ho' Hio) as Hbit. rewrite Z2Nat.id in Hbit by lia.
    rewrite Hbit. cbn [ebind]. cbn [fmap option_fmap option_map]. rewrite negb_involutive.
    destruct o as [bs|]; cbn [is_null]; [|by inversion Hov].
    inversion Hov as [? v' Hrd|]; subst. unfold get_nullable_inner, len; cbn [a_raw a].
    rewrite (raw_len_spec _ _ _ _ _ _ _ Hf). cbn [ebind]. rewrite (proj2 (Z.ltb_lt _ _)) by lia.
    rewrite andb_false_r. rewrite (data_ptr_spec _ _ _ _ _ _ _ Hf). cbn [ebind].
    pose proof (skip_nulls_spec (Z.to_nat i) Ho' 0%nat (data_start ds off) r) as Hskip. rewrite drop_0 in Hskip.
    change (Z.of_nat 0) with 0 in Hskip.
    rewrite Hskip by (done || lia || apply data_start_aligned).
    cbn [ebind]. by rewrite (element_at (Z.to_nat i) bs v' r q Hio Hrd Hd2 Hq Hr Ha).
Qed.

(** *** Arrays without nulls *)

Lemma typed_next_spec i p st o :
  (i < length es)%nat -> es !! i <> Some None ->
  iter_next e debug a {| curr := Z.of_nat i; ptr := p |} = Returned (Some o, st) ->
  typed_next e debug a {| curr := Z.of_nat i; ptr := p |} = Returned (o, st).
Proof.
  intros Hi Hn. destruct (lookup_lt_is_Some_2 es i Hi) as [ob Hob].
  unfold iter_next, typed_next, len; cbn [a_raw a curr ptr]. rewrite (raw_len_spec _ _ _ _ _ _ _ Hf). cbn [ebind].
  rewrite (proj2 (Z.leb_gt _ _)) by lia. unfold a at 1. rewrite (null_here_spec _ _ _ _ _ _ _ Hf _ _ _ Hob). cbn [ebind].
  destruct ob as [bs|]; [|done]. cbn [is_null]. intros Hit.
  apply ebind_inv in Hit as (x & Hx & Hit). apply ebind_inv in Hit as (p' & Hp' & Hit). simplify_eq.
  rewrite Hx. cbn [ebind]. rewrite Hp'. done.
Qed.

Lemma typed_from i p q ws :
  existsb is_null es = false ->
  (i <= length es)%nat -> Forall2 (option_Forall2 reads) (drop i es) (Some <$> ws) ->
  data_at e l m p (drop i es) q -> q <= Z.of_nat (length m) -> data_start ds off <= p -> p mod al = 0 ->
  collect (typed_next e debug a) (S (length es - i)) {| curr := Z.of_nat i; ptr := p |} = Returned ws.
Proof.
  intros Hnn Hi Hv'. remember (length es - i)%nat as n eqn:Hn. revert i p ws Hi Hv' Hn.
  induction n as [|n IH]; intros i p ws Hi Hv' Hn Hd Hq Hp Ha.
  - rewrite drop_ge in Hv' by lia. destruct ws; [|by inversion Hv']. replace i with (length es) by lia.
    cbn [collect]. unfold typed_next, len; cbn [a_raw a]. rewrite (raw_len_spec _ _ _ _ _ _ _ Hf). cbn [ebind curr].
    by rewrite (proj2 (Z.leb_le _ _)) by lia.
  - destruct (lookup_lt_is_Some_2 es i) as [o Ho]; [lia|]. rewrite (drop_S _ _ _ Ho) in Hv', Hd.
    destruct ws as [|w ws]; [by inversion Hv'|]. inversion Hv' as [|? ? ? ? Hov Hvs]; subst.
    destruct (iter_next_spec i o p q (Some w) Ho Hov Hd Hq Hp Ha) as (p' & Hnext & Hd' & Hp' & Ha').
    assert (Hne : es !! i <> Some None) by (inversion Hov; congruence).
    apply typed_next_spec in Hnext; [|lia|done].
    remember (S n) as k. cbn [collect]. rewrite Hnext. cbn [ebind]. subst k.
    rewrite (IH (S i) p' ws) by (done || lia). done.
Qed.

Lemma iter_deny_null_spec :
  if existsb is_null es then iter_deny_null e debug a = Panicked "array contains NULL"
  else exists ws, vs = Some <$> ws /\ iter_deny_null e debug a = Returned ws.
Proof.
  unfold iter_deny_null. rewrite contains_nulls_spec. cbn [ebind]. destruct (existsb is_null es) eqn:Hex; [done|].
  assert (exists ws, vs = Some <$> ws) as [ws Hws].
  { clear -Hv Hex. revert Hex. induction Hv as [|o v es' vs' Hov Hv' IH]; intros Hex; [by exists []|]. cbn in Hex.
    apply orb_false_iff in Hex as [Ho Hex]. destruct (IH Hv' Hex) as [ws ->]. destruct Hov as [bs v Hr|]; [|done].
    by exists (v :: ws). }
  exists ws. split; [done|]. rewrite start_spec. cbn [ebind]. rewrite fuel_spec. cbn [ebind].
  destruct (af_data _ _ _ _ _ _ _ Hf) as (q & Hq & Hd).
  pose proof (typed_from 0 (data_start ds off) q ws Hex) as Hi. rewrite Nat.sub_0_r, drop_0 in Hi.
  change (Z.of_nat 0) with 0 in Hi. apply Hi; [lia|by rewrite <- Hws|done|done|lia|apply data_start_aligned].
Qed.

(** *** By value *)

Lemma into_iter_next_spec i p :
  into_iter_next e debug a {| curr := Z.of_nat i; ptr := p |}
  = if debug && (i <? length es)%nat && negb ((data_start ds off <=? p) && (p <? Z.of_nat (length m)))
    then Panicked "assertion failed: array.is_within_bounds(*ptr)"
    else iter_next e debug a {| curr := Z.of_nat i; ptr := p |}.
Proof.
  unfold into_iter_next, iter_next, len; cbn [a_raw a curr ptr]. rewrite (raw_len_spec _ _ _ _ _ _ _ Hf). cbn [ebind].
  destruct (i <? length es)%nat eqn:Hi.
  - apply Nat.ltb_lt in Hi. rewrite (proj2 (Z.leb_gt _ _)) by lia.
    destruct (lookup_lt_is_Some_2 es i Hi) as [o Ho].
    unfold a at 1 5. rewrite (null_here_spec _ _ _ _ _ _ _ Hf _ _ _ Ho). cbn [ebind].
    destruct debug; [|done]. unfold is_within_bounds at 1; cbn [a_raw a].
    rewrite (data_ptr_spec _ _ _ _ _ _ _ Hf). cbn [ebind]. rewrite (end_ptr_spec _ _ _ _ _ _ _ Hf). cbn [ebind].
    cbn [andb]. by destruct ((data_start ds off <=? p) && (p <? Z.of_nat (length m))).
  - apply Nat.ltb_ge in Hi. rewrite (proj2 (Z.leb_le _ _)) by lia. by rewrite andb_false_r.
Qed.

(** Once the position is at the end of the array, a null that is still to come is
    taken for a read outside of it. *)
Lemma into_iter_from i p :
  debug = true -> es !! pred (length es) = Some None -> (i < length es)%nat ->
  data_at e l m p (drop i es) (Z.of_nat (length m)) -> data_start ds off <= p -> p mod al = 0 ->
  collect (into_iter_next e debug a) (S (length es - i)) {| curr := Z.of_nat i; ptr := p |}
  = Panicked "assertion failed: array.is_within_bounds(*ptr)".
Proof.
  intros Hdb Hlast Hi. remember (length es - i)%nat as n eqn:Hn. revert i p Hi Hn.
  induction n as [|n IH]; intros i p Hi Hn Hd Hp Ha; [lia|].
  destruct (lookup_lt_is_Some_2 es i Hi) as [o Ho]. remember (S n) as k. cbn [collect]. rewrite into_iter_next_spec.
  rewrite Hdb, (proj2 (Nat.ltb_lt _ _) Hi), (proj2 (Z.leb_le _ _) Hp). cbn [andb].
  destruct (p <? Z.of_nat (length m)) eqn:Hpm; [|done]. cbn [negb].
  rewrite (drop_S _ _ _ Ho) in Hd.
  destruct (Forall2_lookup_l _ _ _ _ _ Hv Ho) as (v & _ & Hov).
  destruct (iter_next_spec i o p _ v Ho Hov Hd ltac:(lia) Hp Ha) as (p' & Hnext & Hd' & Hp' & Ha').
  rewrite Hdb in Hnext. rewrite Hnext. cbn [ebind]. subst k.
  assert (S i < length es)%nat as Hi'.
  { destruct (decide (S i < length es)%nat) as [|Hge]; [done|]. exfalso.
    replace (pred (length es)) with i in Hlast by lia.
    rewrite Ho in Hlast. injection Hlast as ->. inversion Hd as [|? ? ? Hd0|]; subst.
    rewrite drop_ge in Hd0 by lia. inversion Hd0; subst. lia. }
  pose proof (IH (S i) p' Hi' ltac:(lia) Hd' Hp' Ha') as IH'. rewrite Hdb in IH'. by rewrite IH'.
Qed.
End Elements.

Lemma collect_ext {X} (f g : position -> ending (option X * position)) n st :
  (forall st, f st = g st) -> collect f n st = collect g n st.
Proof.
  intros Hfg. revert st. induction n as [|n IH]; intros st; [done|]. cbn [collect]. rewrite Hfg.
  destruct (g st) as [[[x|] st']| |]; [|done..]. cbn [ebind]. by rewrite IH.
Qed.

(** Without the assertion, iterating by value is iterating. *)
Lemma into_iter_release e `{UnboxDatum A} (a : Array) : into_iter (A := A) e false a = iter e false a.
Proof.
  unfold into_iter, iter. destruct (start e a) as [st| |]; [|done..]. cbn [ebind].
  destruct (fuel_of e a) as [n| |]; [|done..]. cbn [ebind]. by apply collect_ext.
Qed.

(** ** Types *)

Definition int4_layout : Layout := {| l_align := AInt; l_size := SFixed 4; l_pass := Value |}.
Definition text_layout : Layout := {| l_align := AInt; l_size := SVarlena; l_pass := Ref |}.

Definition reads_int4 (e : endian) (bs : bytes) (v : Z) : Prop := as_signed 32 (from_ne_bytes e bs) = v.

#[export] Instance unbox_i32_laws e : UnboxLaws e int4_layout (reads_int4 e).
Proof.
  split; [|done]. intros m bs v _ Hl <-. unfold element_bytes in Hl. cbn in Hl.
  unfold unbox, unbox_i32. f_equal. rewrite Z.mod_small; [done|].
  pose proof (from_ne_bytes_bound e bs) as Hb. by replace (8 * Z.of_nat (length bs)) with 32 in Hb by lia.
Qed.

(** A text, with either header. *)
Definition reads_text (e : endian) (bs : bytes) (s : string) : Prop :=
  utf8_valid (as_bytes s) = true
  /\ (bs = ne_bytes e 4 (encode_vlen_4b e (4 + Z.of_nat (length (as_bytes s)))) ++ as_bytes s
         /\ 4 + Z.of_nat (length (as_bytes s)) < 2 ^ 30
      \/ bs = ne_bytes e 1 (encode_vlen_1b e (1 + Z.of_nat (length (as_bytes s)))) ++ as_bytes s
         /\ 1 + Z.of_nat (length (as_bytes s)) <= 127).

#[export] Instance unbox_str_laws e : UnboxLaws e text_layout (reads_text e).
Proof.
  split; [done|]. intros m p bs s _ _ (Hu & Hbs) Hat Ha. cbn in Ha.
  unfold unbox, unbox_str, text_to_rust_str_unchecked, varlena_to_byte_slice, varsize_any_exhdr, vardata_any.
  destruct Hbs as [[-> Hl]|[-> Hl]]; apply bytes_at_app in Hat as [Hh Hd]; rewrite length_ne_bytes in Hd.
  - destruct (varsize_any_4b e m p _ Hh Ha ltac:(lia)) as (_ & H1 & He & H4 & _).
    rewrite He. cbn [ebind]. rewrite H1. cbn [ebind]. rewrite H4. cbn [ebind]. unfold usize_sub, VARHDRSZ.
    rewrite (proj2 (Z.leb_le _ _)) by lia. cbn [ebind].
    replace (4 + Z.of_nat (length (as_bytes s)) - 4) with (Z.of_nat (length (as_bytes s))) by lia.
    change (vardata_4b p) with (p + Z.of_nat 4). rewrite (bytes_at_read _ _ _ Hd). cbn [ebind].
    rewrite Hu. by rewrite of_as_bytes.
  - destruct (varsize_any_1b e m p _ Hh ltac:(lia)) as (H1 & He & H4 & _).
    rewrite He. cbn [ebind]. rewrite H1. cbn [ebind]. rewrite H4. cbn [ebind]. unfold usize_sub, VARHDRSZ_SHORT.
    rewrite (proj2 (Z.leb_le _ _)) by lia. cbn [ebind].
    replace (1 + Z.of_nat (length (as_bytes s)) - 1) with (Z.of_nat (length (as_bytes s))) by lia.
    change (vardata_1b p) with (p + Z.of_nat 1). rewrite (bytes_at_read _ _ _ Hd). cbn [ebind].
    rewrite Hu. by rewrite of_as_bytes.
Qed.
