(* ===== verification/FlatArray.v ===== *)
(** * New arrays, and arrays borrowed in place

    [pgrx/src/array/flat_array.rs]: [FlatArray], which lays out new arrays of scalars
    and iterates over the elements of an array without copying it, against the
    format of [PgArraySafe]. *)
From stdpp Require Import base list strings.
From S2P Require Import Prelude Memory Varlena PgArray PgArraySafe.
#[local] Open Scope Z_scope.
#[local] Open Scope ending_scope.

Inductive ArrayAllocError := TooManyBytes | TooManyElems | ZeroLenDim | OutOfMemory.

Definition MAX_ALLOC_SIZE : Z := 0x3fffffff.

(** [usize::next_multiple_of] and [usize::div_ceil]. *)
Definition next_multiple_of (n k : Z) : Z := if n mod k =? 0 then n else n + (k - n mod k).
Definition div_ceil (n k : Z) : Z := if n mod k =? 0 then n / k else n / k + 1.

Section NewArrays.
(** [oom n] when the context has no [n] bytes; the size and the type of a scalar. *)
Context (e : endian) (oom : Z -> bool) (size_of_T OID : Z).
(** Postgres' [array_contains_nulls]. *)
Context (array_contains_nulls : bytes -> bool).

(** The bytes of a header over zeroed memory. *)
Definition alloc_zeroed_head (tail_size ndim dataoffset : Z) : ArrayAllocError + bytes :=
  let nbytes := size_of_ArrayType + tail_size in
  if oom nbytes then inl OutOfMemory
  else inr (ne_bytes e 4 (encode_vlen_4b e nbytes) ++ ne_bytes e 4 ndim ++ ne_bytes e 4 dataoffset
            ++ ne_bytes e 4 OID ++ replicate (Z.to_nat tail_size) x00).

Definition new_empty : ArrayAllocError + bytes := alloc_zeroed_head 0 0 0.

(** The product so far before each dimension, and the whole product. *)
Fixpoint products (product : Z) (dim_lens : list Z) : option (list Z * Z) :=
  match dim_lens with
  | [] => Some ([], product)
  | dim :: dims =>
      let val := dim * product in
      if (val <? 2 ^ 64) && (val <? 2 ^ 31)
      then '(lbounds, total) ← products val dims; Some (product :: lbounds, total)
      else None
  end.

Definition new_zeroed_in (dim_lens : list Z) (has_nulls : bool) : ending (ArrayAllocError + bytes) :=
  match dim_lens with
  | [] => Returned new_empty
  | _ =>
      let ndims := Z.of_nat (length dim_lens) in
      let dims_size := 4 * ndims in
      if existsb (Z.eqb 0) dim_lens then Returned (inl ZeroLenDim)
      else match products 1 dim_lens with
      | None => Returned (inl TooManyElems)
      | Some (lbounds, nelems) =>
          if MAX_ARRAY_SIZE <? nelems then Returned (inl TooManyElems)
          else
            let null_size := if has_nulls then div_ceil nelems 8 else 0 in
            let prefix_size := next_multiple_of (size_of_ArrayType + dims_size * 2 + null_size) 8 in
            let size := prefix_size + size_of_T * nelems in
            if MAX_ALLOC_SIZE <? size then Returned (inl TooManyBytes)
            else
              match alloc_zeroed_head (size - size_of_ArrayType) ndims (if has_nulls then prefix_size else 0) with
              | inl err => Returned (inl err)
              | inr m =>
                  m <~~ write_bytes m size_of_ArrayType (ints_bytes e dim_lens) ;;
                  m <~~ write_bytes m (size_of_ArrayType + dims_size) (ints_bytes e lbounds) ;;
                  Returned (inr m)
              end
      end
  end.

(** [as_non_null_slice_mut] and the copy into it; a scalar is its bytes. *)
Definition new_from_slice (data : list bytes) : ending (ArrayAllocError + bytes) :=
  match data with
  | [] => Returned new_empty
  | _ =>
      r <~~ new_zeroed_in [Z.of_nat (length data)] false ;;
      match r with
      | inl err => Returned (inl err)
      | inr m =>
          if array_contains_nulls m then Panicked "called `Option::unwrap()` on a `None` value"
          else
            p <~~ data_ptr e m ;;
            n <~~ raw_len e m ;;
            eassert (n =? Z.of_nat (length data)) "copy_from_slice: source slice length does not match destination slice length"
              (m <~~ write_bytes m p (mjoin data) ;; Returned (inr m))
      end
  end.
End NewArrays.

(** ** Borrowed elements *)

(** [Element::point_from]: where the referent begins and its number of bytes. *)
Class Element := point_from : endian -> bytes -> Z -> ending (Z * Z).

(** A scalar of [n] bytes, which on a machine of big endian is taken to be at the end
    of a [Datum] of 8 bytes. *)
Definition sized (n : Z) : Element := fun e _ p =>
  Returned (match e with Big => if n <=? 8 then p + (8 - n) else p | Little => p end, n).
Definition cstr : Element := fun _ m p => n <~~ cstr_len m p ;; Returned (p, n + 1).

Section Borrowing.
Context (e : endian) `{Element}.

Record ArrayIter := {
  ai_raw : bytes; ai_data : Z; ai_nulls : option BitSlice; ai_nelems : Z; ai_index : Z; ai_offset : Z; ai_align : Align;
}.

Definition flat_iter (types : Z -> pg_type) (raw : bytes) : ending ArrayIter :=
  n <~~ raw_len e raw ;;
  nulls <~~ nulls_bitslice e raw ;;
  data <~~ data_ptr e raw ;;
  o <~~ oid e raw ;;
  l <~~ lookup_oid (types o) ;;
  Returned {| ai_raw := raw; ai_data := data; ai_nulls := nulls; ai_nelems := n; ai_index := 0; ai_offset := 0;
              ai_align := l_align l |}.

Definition advance (it : ArrayIter) (offset : Z) : ArrayIter :=
  {| ai_raw := ai_raw it; ai_data := ai_data it; ai_nulls := ai_nulls it; ai_nelems := ai_nelems it;
     ai_index := ai_index it + 1; ai_offset := offset; ai_align := ai_align it |}.

(** The element is the borrowed bytes. *)
Definition flat_next (it : ArrayIter) : ending (option (option bytes) * ArrayIter) :=
  if ai_nelems it <=? ai_index it then Returned (None, it)
  else
    is_null <~~ match ai_nulls it with
                | Some s => b <~~ bit_get e (ai_raw it) s (ai_index it) ;;
                            b <~~ expect "called `Option::unwrap()` on a `None` value" b ;; Returned (negb b)
                | None => Returned false
                end ;;
    if is_null : bool then Returned (Some None, advance it (ai_offset it))
    else
      b <~~ point_from e (ai_raw it) (ai_data it + ai_offset it) ;;
      let '(p, n) := b : Z * Z in
      bs <~~ read_bytes (ai_raw it) p n ;;
      Returned (Some (Some bs), advance it (ai_offset it + pad (ai_align it) n)).

Fixpoint flat_collect (fuel : nat) (it : ArrayIter) : ending (list (option bytes)) :=
  match fuel with
  | O => Undefined
  | S fuel =>
      r <~~ flat_next it ;;
      match r with
      | (None, _) => Returned []
      | (Some x, it) => xs <~~ flat_collect fuel it ;; Returned (x :: xs)
      end
  end.

Definition flat_elements (types : Z -> pg_type) (raw : bytes) : ending (list (option bytes)) :=
  it <~~ flat_iter types raw ;; flat_collect (S (Z.to_nat (ai_nelems it))) it.

Definition iter_non_null (types : Z -> pg_type) (raw : bytes) : ending (list bytes) :=
  xs <~~ flat_elements types raw ;; Returned (omap id xs).

(** [Iterator::nth]. *)
Fixpoint flat_nth (n : nat) (it : ArrayIter) : ending (option (option bytes)) :=
  r <~~ flat_next it ;;
  match r, n with
  | (None, _), _ => Returned None
  | (Some x, _), O => Returned (Some x)
  | (Some _, it), S n => flat_nth n it
  end.

Definition flat_get (types : Z -> pg_type) (raw : bytes) (index : nat) : ending (option (option bytes)) :=
  it <~~ flat_iter types raw ;; flat_nth index it.

Definition nullbitmap_bytes (raw : bytes) : ending (option bytes) :=
  n <~~ raw_len e raw ;;
  p <~~ ARR_NULLBITMAP e raw ;;
  match p with
  | None => Returned None
  | Some p => bs <~~ read_bytes raw p (div_ceil n 8) ;; Returned (Some bs)
  end.
End Borrowing.

(** ** New arrays are in the format *)

Lemma next_multiple_of_round_up n : next_multiple_of n 8 = round_up 8 n.
Proof.
  unfold next_multiple_of. destruct (n mod 8 =? 0) eqn:Hz; [rewrite round_up_exact; lia|].
  pose proof (round_up_le 8 n ltac:(lia)). pose proof (round_up_multiple 8 n ltac:(lia)) as Hm.
  pose proof (Z.div_mod n 8 ltac:(lia)). pose proof (Z.mod_pos_bound n 8 ltac:(lia)).
  apply Z.mod_divide in Hm as [q Hq]; [|lia]. rewrite Hq in *. lia.
Qed.

Lemma div_ceil_8 n : 0 <= n -> div_ceil n 8 = (n + 7) / 8.
Proof.
  intros Hn. unfold div_ceil. pose proof (Z.div_mod n 8 ltac:(lia)). pose proof (Z.mod_pos_bound n 8 ltac:(lia)).
  case_match; [apply (Z.div_unique _ _ _ 7)|apply (Z.div_unique _ _ _ (n mod 8 - 1))]; lia.
Qed.

Lemma product_positive ds : Forall (fun d => 0 < d) ds -> 0 < foldr Z.mul 1 ds.
Proof. induction 1; cbn [foldr]; [done|]. by apply Z.mul_pos_pos. Qed.

Lemma products_spec ds : forall acc,
  0 < acc -> Forall (fun d => 0 < d) ds ->
  match products acc ds with
  | Some (lbs, total) => total = acc * foldr Z.mul 1 ds /\ length lbs = length ds
  | None => 2 ^ 31 <= acc * foldr Z.mul 1 ds
  end.
Proof.
  induction ds as [|d ds IH]; intros acc Ha Hp; cbn [products foldr]; [split; [lia|done]|].
  inversion Hp as [|? ? Hd Hp']; subst. pose proof (product_positive _ Hp').
  destruct (_ && _) eqn:Hfit; [|nia]. specialize (IH (d * acc) ltac:(nia) Hp').
  destruct (products (d * acc) ds) as [[lbs total]|]; cbn [mbind option_bind]; [|lia].
  destruct IH as [-> Hlb]. cbn [length]. split; lia.
Qed.

Lemma bytes_at_refl m : bytes_at m 0 m.
Proof. split; [done|]. exists [], []. by rewrite app_nil_r. Qed.

Lemma bytes_at_replicate m p (n k i : nat) b :
  bytes_at m p (replicate n b) -> (i + k <= n)%nat -> bytes_at m (p + Z.of_nat i) (replicate k b).
Proof.
  intros Hb Hik. replace n with (i + (k + (n - i - k)))%nat in Hb by lia. rewrite !replicate_add in Hb.
  apply bytes_at_app in Hb as [_ Hb]. rewrite length_replicate in Hb. by apply bytes_at_app in Hb as [? _].
Qed.

(** Elements of one size, one behind the other. *)
Lemma data_at_fixed e l m size data : forall p,
  l_size l = SFixed size -> size mod align_as_usize (l_align l) = 0 ->
  Forall (fun bs => Z.of_nat (length bs) = size) data -> bytes_at m p (mjoin data) ->
  data_at e l m p (Some <$> data) (p + Z.of_nat (length (mjoin data))).
Proof.
  induction data as [|bs data IH]; intros p Hl Hs Hd Hb.
  { rewrite Z.add_0_r. constructor. }
  inversion Hd as [|? ? Hbs Hd']; subst. change (mjoin (bs :: data)) with (bs ++ mjoin data) in *.
  apply bytes_at_app in Hb as [H1 H2]. cbn [fmap list_fmap]. fold (Some <$> data).
  constructor; [done|by unfold element_bytes; rewrite Hl|].
  rewrite round_up_exact by (apply align_positive || done).
  rewrite length_app, Nat2Z.inj_add, Z.add_assoc. by apply IH.
Qed.

Lemma mjoin_length (size : Z) (data : list bytes) :
  Forall (fun bs => Z.of_nat (length bs) = size) data -> Z.of_nat (length (mjoin data)) = size * Z.of_nat (length data).
Proof.
  induction 1 as [|bs data Hb _ IH]; [cbn; lia|]. change (mjoin (bs :: data)) with (bs ++ mjoin data).
  rewrite length_app. cbn [length]. lia.
Qed.

Section NewFormat.
Context (e : endian) (oom : Z -> bool) (size_of_T OID : Z) (l : Layout).
Hypothesis Hsize : 0 < size_of_T.
Hypothesis Hoid : 0 <= OID < 2 ^ 32.
Hypothesis Hl : l_size l = SFixed size_of_T.
Hypothesis Hal : size_of_T mod align_as_usize (l_align l) = 0.

Definition prefix_of (ds : list Z) (has_nulls : bool) : Z :=
  round_up 8 (16 + 8 * Z.of_nat (length ds) + (if has_nulls then (nelems ds + 7) / 8 else 0)).
Definition size_of (ds : list Z) (has_nulls : bool) : Z := prefix_of ds has_nulls + size_of_T * nelems ds.

(** The bytes that [new_zeroed_in] leaves: the header and the dimensions, any lower
    bounds, and zeros. *)
Definition zeroed (ds : list Z) (has_nulls : bool) (m : bytes) : Prop :=
  Z.of_nat (length m) = size_of ds has_nulls
  /\ bytes_at m 0 (ne_bytes e 4 (encode_vlen_4b e (Z.of_nat (length m)))
       ++ ne_bytes e 4 (Z.of_nat (length ds)) ++ ne_bytes e 4 (if has_nulls then prefix_of ds has_nulls else 0)
       ++ ne_bytes e 4 OID ++ ints_bytes e ds)
  /\ bytes_at m (16 + 8 * Z.of_nat (length ds))
       (replicate (Z.to_nat (size_of ds has_nulls - 16 - 8 * Z.of_nat (length ds))) x00).

Lemma nelems_nonneg ds : Forall (fun d => 0 < d) ds -> 0 <= nelems ds.
Proof. intros Hp. unfold nelems. destruct ds; [lia|]. pose proof (product_positive _ Hp). lia. Qed.

Lemma prefix_of_le ds (has_nulls : bool) :
  Forall (fun d => 0 < d) ds ->
  16 + 8 * Z.of_nat (length ds) + (if has_nulls then (nelems ds + 7) / 8 else 0) <= prefix_of ds has_nulls
  /\ 0 <= (if has_nulls then (nelems ds + 7) / 8 else 0).
Proof.
  intros Hp. pose proof (nelems_nonneg _ Hp). split; [apply round_up_le; lia|].
  destruct has_nulls; [|lia]. apply Z.div_pos; lia.
Qed.

Lemma header_length a b c d f : length (ne_bytes e 4 a ++ ne_bytes e 4 b ++ ne_bytes e 4 c ++ ne_bytes e 4 d ++ f) = (16 + length f)%nat.
Proof. rewrite !length_app, !length_ne_bytes. lia. Qed.

(** The two writes behind the header. *)
Lemma write_dims ds lbs (has_nulls : bool) m :
  Forall (fun d => 0 < d) ds -> length lbs = length ds ->
  m = ne_bytes e 4 (encode_vlen_4b e (size_of ds has_nulls)) ++ ne_bytes e 4 (Z.of_nat (length ds))
      ++ ne_bytes e 4 (if has_nulls then prefix_of ds has_nulls else 0) ++ ne_bytes e 4 OID
      ++ replicate (Z.to_nat (size_of ds has_nulls - 16)) x00 ->
  exists m', (m <~~ write_bytes m 16 (ints_bytes e ds) ;; m <~~ write_bytes m (16 + 4 * Z.of_nat (length ds)) (ints_bytes e lbs) ;;
              Returned (inr (A := ArrayAllocError) m)) = Returned (inr m') /\ zeroed ds has_nulls m'.
Proof.
  intros Hp Hlb Hm. destruct (prefix_of_le ds has_nulls Hp) as [Hpre Hn0]. pose proof (nelems_nonneg _ Hp).
  assert (Hlen : Z.of_nat (length m) = size_of ds has_nulls).
  { rewrite Hm, header_length, length_replicate. unfold size_of. nia. }
  assert (Hge : 16 + 8 * Z.of_nat (length ds) <= size_of ds has_nulls) by (unfold size_of; nia).
  pose proof (bytes_at_refl m) as Hall. rewrite Hm in Hall at 2. rewrite !app_assoc in Hall.
  apply bytes_at_app in Hall as [Hhd Hz]. rewrite <- !app_assoc in Hhd.
  replace (length _) with 16%nat in Hz by (by rewrite !length_app, !length_ne_bytes).
  destruct (write_bytes_at m 16 (ints_bytes e ds)) as (m1 & Hw1 & Hl1 & Hat1 & Hk1);
    [lia|rewrite ints_bytes_length; lia|].
  destruct (write_bytes_at m1 (16 + 4 * Z.of_nat (length ds)) (ints_bytes e lbs)) as (m2 & Hw2 & Hl2 & _ & Hk2);
    [lia|rewrite ints_bytes_length, Hl1; lia|].
  exists m2. rewrite Hw1. cbn [ebind]. rewrite Hw2. cbn [ebind]. split; [done|].
  assert (Hhl : length (ne_bytes e 4 (encode_vlen_4b e (size_of ds has_nulls)) ++ ne_bytes e 4 (Z.of_nat (length ds))
      ++ ne_bytes e 4 (if has_nulls then prefix_of ds has_nulls else 0) ++ ne_bytes e 4 OID) = 16%nat).
  { rewrite !length_app, !length_ne_bytes. done. }
  split; [lia|]. split.
  - replace (Z.of_nat (length m2)) with (size_of ds has_nulls) by lia. rewrite !app_assoc.
    apply bytes_at_app. rewrite <- !app_assoc. rewrite Hhl. split.
    + apply Hk2; [left; rewrite Hhl; lia|]. apply Hk1; [left; rewrite Hhl; lia|]. done.
    + apply Hk2; [left; rewrite ints_bytes_length; lia|]. done.
  - apply Hk2; [right; rewrite ints_bytes_length; lia|]. apply Hk1; [right; rewrite ints_bytes_length; lia|].
    replace (16 + 8 * Z.of_nat (length ds)) with (0 + Z.of_nat 16 + Z.of_nat (8 * length ds)) by lia.
    apply (bytes_at_replicate _ _ _ _ _ _ Hz). lia.
Qed.

(** What [new_zeroed_in] returns, on every branch. *)
Lemma new_zeroed_in_spec ds has_nulls :
  ds <> [] -> Forall (fun d => 0 <= d) ds ->
  (existsb (Z.eqb 0) ds = true /\ new_zeroed_in e oom size_of_T OID ds has_nulls = Returned (inl ZeroLenDim))
  \/ (Forall (fun d => 0 < d) ds /\
      if MAX_ARRAY_SIZE <? nelems ds then new_zeroed_in e oom size_of_T OID ds has_nulls = Returned (inl TooManyElems)
      else if MAX_ALLOC_SIZE <? size_of ds has_nulls then new_zeroed_in e oom size_of_T OID ds has_nulls = Returned (inl TooManyBytes)
      else if oom (size_of ds has_nulls) then new_zeroed_in e oom size_of_T OID ds has_nulls = Returned (inl OutOfMemory)
      else exists m, new_zeroed_in e oom size_of_T OID ds has_nulls = Returned (inr m) /\ zeroed ds has_nulls m).
Proof.
  intros Hne Hnn. unfold new_zeroed_in. destruct ds as [|d0 ds0] eqn:Hds; [done|]. rewrite <- Hds in *.
  destruct (existsb (Z.eqb 0) ds) eqn:Hz; [by left|]. right.
  assert (Hp : Forall (fun d => 0 < d) ds).
  { apply Forall_lookup. intros i d Hi. pose proof (proj1 (Forall_lookup _ _) Hnn _ _ Hi) as Hge. cbn in Hge.
    destruct (decide (d = 0)) as [->|]; [|lia]. exfalso.
    apply not_true_iff_false in Hz. apply Hz. apply existsb_exists. exists 0. split; [|done].
    apply list_elem_of_In. by eapply list_elem_of_lookup_2. }
  split; [done|]. pose proof (products_spec ds 1 ltac:(lia) Hp) as Hprod. rewrite Z.mul_1_l in Hprod.
  assert (Hnel : nelems ds = foldr Z.mul 1 ds) by (rewrite Hds; done).
  destruct (products 1 ds) as [[lbs total]|].
  2:{ rewrite <- Hnel in Hprod. change MAX_ARRAY_SIZE with 134217727. by rewrite (proj2 (Z.ltb_lt _ _)) by lia. }
  destruct Hprod as [-> Hlb]. rewrite <- Hnel. pose proof (nelems_nonneg _ Hp).
  destruct (MAX_ARRAY_SIZE <? nelems ds); [done|].
  replace (next_multiple_of _ 8) with (prefix_of ds has_nulls).
  2:{ rewrite next_multiple_of_round_up. unfold prefix_of. f_equal. change size_of_ArrayType with 16.
      destruct has_nulls; [rewrite div_ceil_8 by done|]; lia. }
  change (prefix_of ds has_nulls + size_of_T * nelems ds) with (size_of ds has_nulls).
  destruct (MAX_ALLOC_SIZE <? size_of ds has_nulls); [done|].
  unfold alloc_zeroed_head. change size_of_ArrayType with 16.
  replace (16 + (size_of ds has_nulls - 16)) with (size_of ds has_nulls) by lia.
  destruct (oom (size_of ds has_nulls)); [done|]. by apply write_dims with (has_nulls := has_nulls).
Qed.
(** An array without a bitmap, from its header and its elements. *)
Lemma no_nulls_format ds m data :
  Z.of_nat (length m) = size_of ds false -> size_of ds false <= MAX_ALLOC_SIZE -> (length ds <= 6)%nat ->
  Forall (fun d => 0 < d) ds -> Z.of_nat (length data) = nelems ds -> nelems ds <= MAX_ARRAY_SIZE ->
  Forall (fun bs => Z.of_nat (length bs) = size_of_T) data ->
  bytes_at m 0 (ne_bytes e 4 (encode_vlen_4b e (Z.of_nat (length m)))
       ++ ne_bytes e 4 (Z.of_nat (length ds)) ++ ne_bytes e 4 0 ++ ne_bytes e 4 OID ++ ints_bytes e ds) ->
  bytes_at m (prefix_of ds false) (mjoin data) ->
  array_format e l OID ds 0 m (Some <$> data).
Proof.
  intros Hlen Hmax Hnd Hp Hdata Hnel Hd Hh Hm. split; try done.
  - rewrite Hlen. change MAX_ALLOC_SIZE with 1073741823 in Hmax. lia.
  - by rewrite length_fmap.
  - rewrite length_fmap. lia.
  - cbn. apply Forall_fmap. by apply Forall_true.
  - assert (Hst : data_start ds 0 = prefix_of ds false) by (unfold data_start, prefix_of; cbn; by rewrite Z.add_0_r).
    rewrite Hst. eexists. split; [|by apply (data_at_fixed _ _ _ size_of_T)].
    rewrite Hlen, (mjoin_length size_of_T) by done. unfold size_of. rewrite Hdata. lia.
Qed.

Lemma mjoin_replicate (n k : nat) (b : byte) : mjoin (replicate n (replicate k b)) = replicate (n * k) b.
Proof. induction n as [|n IH]; [done|]. cbn [replicate Nat.mul]. rewrite replicate_add, <- IH. done. Qed.

(** A zeroed array: all zeros, or all null. *)
Lemma zeroed_format ds (has_nulls : bool) m :
  Forall (fun d => 0 < d) ds -> (length ds <= 6)%nat -> nelems ds <= MAX_ARRAY_SIZE ->
  size_of ds has_nulls <= MAX_ALLOC_SIZE -> zeroed ds has_nulls m ->
  array_format e l OID ds (if has_nulls then prefix_of ds true else 0) m
    (replicate (Z.to_nat (nelems ds))
       (if has_nulls then None else Some (replicate (Z.to_nat size_of_T) x00))).
Proof.
  intros Hp Hnd Hnel Hmax (Hlen & Hh & Hz). pose proof (nelems_nonneg _ Hp).
  destruct (prefix_of_le ds has_nulls Hp) as [Hpre Hn0]. set (k := Z.of_nat (length ds)) in *. destruct has_nulls.
  - change MAX_ALLOC_SIZE with 1073741823 in Hmax.
    assert (Hle : prefix_of ds true <= size_of ds true) by (unfold size_of; nia).
    split; try done; rewrite ?length_replicate, ?Z2Nat.id by done; try done.
    + lia.
    + split; [lia|]. by apply round_up_multiple.
    + case_match; [lia|]. exists (replicate (Z.to_nat ((nelems ds + 7) / 8)) x00). split; [|split].
      * rewrite <- (Z.add_0_r (16 + 8 * _)). apply (bytes_at_replicate _ _ _ _ 0 _ Hz). unfold size_of. nia.
      * rewrite !length_replicate, !Z2Nat.id by lia. done.
      * intros i o Hi. apply lookup_replicate in Hi as [-> Hi]. exists x00. split; [|cbn; apply Z.bits_0].
        apply lookup_replicate. split; [done|]. apply Nat2Z.inj_lt. rewrite Nat2Z.inj_div, Z2Nat.id by lia.
        apply Z.div_lt_upper_bound; [lia|]. pose proof (Z.div_mod (nelems ds + 7) 8 ltac:(lia)).
        pose proof (Z.mod_pos_bound (nelems ds + 7) 8 ltac:(lia)). lia.
    + exists (data_start ds (prefix_of ds true)). split.
      * unfold data_start. case_match; lia.
      * generalize (Z.to_nat (nelems ds)) as n. induction n as [|n IH]; by constructor.
  - rewrite <- fmap_replicate. apply no_nulls_format; try done.
    + rewrite length_replicate. lia.
    + apply Forall_replicate. rewrite length_replicate. lia.
    + rewrite mjoin_replicate. subst k.
      replace (prefix_of ds false) with (16 + 8 * Z.of_nat (length ds) + Z.of_nat (Z.to_nat (prefix_of ds false - 16 - 8 * Z.of_nat (length ds)))) by lia.
      apply (bytes_at_replicate _ _ _ _ _ _ Hz). unfold size_of. nia.
Qed.

(** [new_from_slice] stores the slice. *)
Lemma new_from_slice_spec array_contains_nulls data :
  (forall m, data_offset e m = Returned 0 -> array_contains_nulls m = false) ->
  Forall (fun bs => Z.of_nat (length bs) = size_of_T) data ->
  Z.of_nat (length data) <= MAX_ARRAY_SIZE -> size_of [Z.of_nat (length data)] false <= MAX_ALLOC_SIZE ->
  (forall n, n <= MAX_ALLOC_SIZE -> oom n = false) ->
  exists ds m, new_from_slice e oom size_of_T OID array_contains_nulls data = Returned (inr m)
    /\ array_format e l OID ds 0 m (Some <$> data).
Proof.
  intros Hacn Hd Hn Hmax Hoom. destruct data as [|d0 data0] eqn:Hdata.
  { exists []. unfold new_from_slice, new_empty, alloc_zeroed_head. rewrite Hoom by done. cbn [Z.add].
    eexists. split; [done|]. split; try done.
    - by rewrite header_length.
    - rewrite header_length. apply bytes_at_refl.
    - cbn. lia.
    - by constructor.
    - eexists. split; [|constructor]. by rewrite header_length. }
  rewrite <- Hdata in *. set (n := Z.of_nat (length data)) in *.
  assert (Hpos : 0 < n) by (subst n; rewrite Hdata; cbn [length]; lia).
  assert (Hp : Forall (fun d => 0 < d) [n]) by (by constructor).
  assert (Hnel : nelems [n] = n) by (cbn; lia).
  unfold new_from_slice. pattern data at 1. rewrite Hdata; cbv beta iota. fold n.
  destruct (new_zeroed_in_spec [n] false) as [[Hz _]|[_ Hnew]]; [done|constructor; [lia|done]| |].
  { cbn [existsb] in Hz. rewrite orb_false_r in Hz. lia. }
  rewrite Hnel in Hnew. rewrite (proj2 (Z.ltb_ge _ _)) in Hnew by done. rewrite (proj2 (Z.ltb_ge _ _)) in Hnew by done.
  rewrite Hoom in Hnew by done. destruct Hnew as (m & -> & Hzd). cbn [ebind].
  pose proof (zeroed_format [n] false m Hp ltac:(cbn; lia) ltac:(lia) Hmax Hzd) as Hf. cbv iota in Hf.
  rewrite (Hacn m (data_offset_spec _ _ _ _ _ _ _ Hf)), (data_ptr_spec _ _ _ _ _ _ _ Hf). cbn [ebind].
  rewrite (raw_len_spec _ _ _ _ _ _ _ Hf), length_replicate, Hnel, Z2Nat.id by lia. cbn [ebind]. unfold eassert.
  rewrite Z.eqb_refl. destruct Hzd as (Hlen & Hh & _).
  destruct (prefix_of_le [n] false Hp) as [Hpre _].
  assert (Hst : data_start [n] 0 = prefix_of [n] false) by done. rewrite Hst.
  pose proof (mjoin_length size_of_T data Hd) as Hj. fold n in Hj.
  destruct (write_bytes_at m (prefix_of [n] false) (mjoin data)) as (m1 & -> & Hl1 & Hat1 & Hk1);
    [cbn [length] in Hpre; lia|unfold size_of in Hlen; lia|]. cbn [ebind].
  exists [n], m1. split; [done|]. apply no_nulls_format; try done; try lia; [cbn; lia|].
  rewrite Hl1. apply Hk1; [|done]. left. rewrite header_length, ints_bytes_length. cbn [length] in *. lia.
Qed.
End NewFormat.

(** ** Borrowed elements are those that are stored *)

(** What borrowing an element of layout [l] promises. *)
Class ElementLaws (e : endian) (l : Layout) `{Element} : Prop :=
  point_from_spec m p bs : bytes_at m p bs -> element_bytes e l bs -> point_from e m p = Returned (p, Z.of_nat (length bs)).

(** Scalars, but not small ones on a machine of big endian. *)
#[export] Instance sized_laws e l n : l_size l = SFixed n -> e = Little \/ 8 <= n -> ElementLaws (H := sized n) e l.
Proof.
  intros Hl He m p bs _ Hb. unfold element_bytes in Hb. rewrite Hl in Hb. unfold point_from, sized. rewrite Hb. repeat f_equal.
  destruct He as [-> | ?]; [done|]. destruct e; [done|]. case_match; lia.
Qed.

#[export] Instance cstr_laws e l : l_size l = SCStr -> ElementLaws (H := cstr) e l.
Proof.
  intros Hl m p bs (Hp & pre & post & -> & Hpre) Hb. unfold element_bytes in Hb. rewrite Hl in Hb.
  destruct Hb as (s & -> & Hs). unfold point_from, cstr, cstr_len. case_match; [|lia].
  rewrite <- Hpre, Nat2Z.id, drop_app_length, <- app_assoc. cbn [app]. rewrite strlen_spec by done.
  cbn [defined ebind]. do 2 f_equal. rewrite length_app. cbn. lia.
Qed.

Section Borrowed.
Context (e : endian) (types : Z -> pg_type) (l : Layout) (elemtype : Z) (ds : list Z) (off : Z) (m : bytes)
  (es : list (option bytes)).
Context `{Laws : ElementLaws e l}.
Hypothesis Hf : array_format e l elemtype ds off m es.
Hypothesis Ht : lookup_oid (types elemtype) = Returned l.

Definition borrow_at (i : nat) (offset : Z) : ArrayIter :=
  {| ai_raw := m; ai_data := data_start ds off; ai_nulls := bitmap_of ds off es; ai_nelems := Z.of_nat (length es);
     ai_index := Z.of_nat i; ai_offset := offset; ai_align := l_align l |}.

Lemma flat_iter_spec : flat_iter e types m = Returned (borrow_at 0 0).
Proof.
  unfold flat_iter. rewrite (raw_len_spec _ _ _ _ _ _ _ Hf). cbn [ebind].
  rewrite (nulls_bitslice_spec _ _ _ _ _ _ _ Hf). cbn [ebind]. rewrite (data_ptr_spec _ _ _ _ _ _ _ Hf). cbn [ebind].
  rewrite (oid_spec _ _ _ _ _ _ _ Hf). cbn [ebind]. by rewrite Ht.
Qed.

Lemma flat_next_spec i o d q :
  es !! i = Some o -> data_at e l m (data_start ds off + d) (o :: drop (S i) es) q ->
  exists d', flat_next e (borrow_at i d) = Returned (Some o, borrow_at (S i) d')
    /\ data_at e l m (data_start ds off + d') (drop (S i) es) q.
Proof.
  intros Hi Hd. assert (i < length es)%nat by (by eapply lookup_lt_Some).
  pose proof (null_here_spec _ _ _ _ _ _ _ Hf PassByCStr i o Hi) as Hn. unfold null_here in Hn. cbn [a_nulls a_raw] in Hn.
  unfold flat_next, borrow_at; cbn [ai_nelems ai_index ai_nulls ai_raw ai_data ai_offset ai_align].
  rewrite (proj2 (Z.leb_gt _ _)) by lia. unfold advance; cbn [ai_raw ai_data ai_nulls ai_nelems ai_index ai_align].
  replace (Z.of_nat i + 1) with (Z.of_nat (S i)) by lia.
  match goal with |- context [ebind ?b _] => assert (b = Returned (is_null o)) as -> end.
  { destruct (bitmap_of ds off es) as [s|].
    - unfold bits_is_null in Hn. apply ebind_inv in Hn as ([b|] & -> & Hb); [|done]. injection Hb as <-. done.
    - case_match; [|done]. by injection Hn as <-. }
  cbn [ebind]. inversion Hd as [|? ? ? Hd'|? bs ? ? Hb He Hd']; subst; cbn [is_null].
  - by exists d.
  - rewrite (point_from_spec _ _ _ Hb He). cbn [ebind]. rewrite (bytes_at_read _ _ _ Hb). cbn [ebind].
    eexists. split; [done|]. by rewrite pad_round_up, Z.add_assoc.
Qed.

Lemma flat_next_end d : flat_next e (borrow_at (length es) d) = Returned (None, borrow_at (length es) d).
Proof. unfold flat_next, borrow_at; cbn [ai_nelems ai_index]. by rewrite (proj2 (Z.leb_le _ _)) by lia. Qed.

Lemma flat_from n : forall i d q,
  (i + n)%nat = length es -> data_at e l m (data_start ds off + d) (drop i es) q ->
  flat_collect e (S n) (borrow_at i d) = Returned (drop i es)
  /\ forall k, flat_nth e k (borrow_at i d) = Returned (es !! (i + k)%nat).
Proof.
  induction n as [|n IH]; intros i d q Hi Hd.
  - replace i with (length es) by lia. rewrite drop_all. split.
    + cbn [flat_collect]. by rewrite flat_next_end.
    + intros k. rewrite lookup_ge_None_2 by lia. destruct k; cbn [flat_nth]; by rewrite flat_next_end.
  - destruct (lookup_lt_is_Some_2 es i) as [o Ho]; [lia|]. rewrite (drop_S _ _ _ Ho) in Hd |- *.
    destruct (flat_next_spec i o d q Ho Hd) as (d' & Hn & Hd'). destruct (IH (S i) d' q ltac:(lia) Hd') as [Hc Hk].
    split.
    + remember (S n) as k. cbn [flat_collect]. rewrite Hn. cbn [ebind]. subst k. by rewrite Hc.
    + intros [|k]; cbn [flat_nth]; rewrite Hn; cbn [ebind]; [by rewrite Nat.add_0_r, Ho|].
      rewrite Hk. do 2 f_equal. lia.
Qed.

Lemma flat_elements_spec : flat_elements e types m = Returned es.
Proof.
  unfold flat_elements. rewrite flat_iter_spec. cbn [ebind ai_nelems borrow_at].
  destruct (af_data _ _ _ _ _ _ _ Hf) as (q & _ & Hd). rewrite <- (Z.add_0_r (data_start _ _)) in Hd.
  rewrite Nat2Z.id. apply (flat_from (length es) 0 0 q eq_refl Hd).
Qed.

Lemma flat_get_spec k : flat_get e types m k = Returned (es !! k).
Proof.
  unfold flat_get. rewrite flat_iter_spec. cbn [ebind].
  destruct (af_data _ _ _ _ _ _ _ Hf) as (q & _ & Hd). rewrite <- (Z.add_0_r (data_start _ _)) in Hd.
  apply (flat_from (length es) 0 0 q eq_refl Hd).
Qed.
End Borrowed.
