(* ===== verification/ArrayRead.v ===== *)
(** * Reading arrays, end to end

    From the bytes of an array to the values Rust code sees: [deconstruct_from] and
    then each of the ways to read, by [PgArraySafe]; and arrays that [FlatArray]
    makes, read back. *)
From stdpp Require Import base list strings.
From S2P Require Import Prelude Memory Varlena PgArray PgArraySafe FlatArray.
#[local] Open Scope Z_scope.
#[local] Open Scope ending_scope.

Lemma slide_for_ok l : layout_ok l = true -> exists slide, slide_for l = Returned slide.
Proof.
  unfold layout_ok, slide_for. destruct (l_pass l), (l_size l); try done; try by eexists.
  intros Hn%Z.eqb_eq. subst. destruct (l_align l); by eexists.
Qed.

Lemma deconstruct_spec e types l elemtype ds off m es :
  array_format e l elemtype ds off m es -> layout_ok l = true -> lookup_oid (types elemtype) = Returned l ->
  exists slide, slide_for l = Returned slide
    /\ deconstruct_from e types m = Returned {| a_slide := slide; a_nulls := bitmap_of ds off es; a_raw := m |}.
Proof.
  intros Hf Hok Ht. destruct (slide_for_ok l Hok) as [slide Hs]. exists slide. split; [done|].
  unfold deconstruct_from. rewrite (oid_spec _ _ _ _ _ _ _ Hf). cbn [ebind]. rewrite Ht. cbn [ebind].
  rewrite (nulls_bitslice_spec _ _ _ _ _ _ _ Hf). cbn [ebind]. by rewrite Hs.
Qed.

(** The values when none is null. *)
Fixpoint all_some {X} (os : list (option X)) : option (list X) :=
  match os with [] => Some [] | o :: os => x ← o; xs ← all_some os; Some (x :: xs) end.

Lemma all_some_fmap {X} (xs : list X) : all_some (Some <$> xs) = Some xs.
Proof. induction xs as [|x xs IH]; [done|]. cbn. by rewrite IH. Qed.

Lemma all_some_null {X} (os : list (option X)) : existsb is_null os = true -> all_some os = None.
Proof.
  induction os as [|[x|] os IH]; [done|..]; cbn; [|done]. intros Hn. by rewrite IH.
Qed.

Lemma nulls_same {X Y} (R : X -> Y -> Prop) es vs : Forall2 (option_Forall2 R) es vs -> existsb is_null es = existsb is_null vs.
Proof. induction 1 as [|? ? ? ? []]; [done|..]; cbn; [done|done]. Qed.

(** C14. An array in the format of Postgres is read as it was stored, with or without
    debug assertions: [deconstruct_from] and [iter] give its values in order, with
    [None] for its nulls; [get] gives the value at an index, and nothing past the
    end; [contains_nulls] says whether one is null; and [iter_deny_null] gives the
    bare values, or panics when one is null.  None of this reads outside the array. *)
Theorem array_read e debug types l elemtype ds off m es
    `{UnboxLaws e l A reads} (vs : list (option A)) :
  array_format e l elemtype ds off m es -> layout_ok l = true -> lookup_oid (types elemtype) = Returned l ->
  Forall2 (option_Forall2 reads) es vs ->
  exists a, deconstruct_from e types m = Returned a
    /\ iter e debug a = Returned vs
    /\ (forall i, 0 <= i -> get e debug a i = Returned (vs !! Z.to_nat i))
    /\ contains_nulls e (a_raw a) (a_nulls a) = Returned (existsb is_null vs)
    /\ iter_deny_null e debug a
       = match all_some vs with Some ws => Returned ws | None => Panicked "array contains NULL" end.
Proof.
  intros Hf Hok Ht Hv. destruct (deconstruct_spec _ _ _ _ _ _ _ _ Hf Hok Ht) as (slide & Hs & ->).
  eexists. split; [done|]. rewrite <- (nulls_same _ _ _ Hv).
  split; [by apply (array_iter_spec e debug l elemtype ds off m es slide Hf Hok Hs vs)|].
  split; [intros i Hi; by apply (array_get_spec e debug l elemtype ds off m es slide Hf Hok Hs vs)|].
  split; [apply (contains_nulls_spec e l elemtype ds off m es slide Hf)|].
  pose proof (iter_deny_null_spec e debug l elemtype ds off m es slide Hf Hok Hs vs Hv) as Hd.
  destruct (existsb is_null es) eqn:Hn.
  - rewrite (all_some_null vs); [done|]. by rewrite <- (nulls_same _ _ _ Hv).
  - destruct Hd as (ws & -> & Hd). by rewrite all_some_fmap.
Qed.

(** *** An array [{7,NULL}] of [int4] *)

Definition int4_type : pg_type := {| typlen := 4; typbyval := true; typalign := 105 |}.
Definition seven_null : bytes :=
  ne_bytes Little 4 (encode_vlen_4b Little 36) ++ ne_bytes Little 4 1 ++ ne_bytes Little 4 32 ++ ne_bytes Little 4 23
  ++ ne_bytes Little 4 2 ++ ne_bytes Little 4 1 ++ [x01; x00; x00; x00; x00; x00; x00; x00] ++ ne_bytes Little 4 7.

Lemma bytes_at_take m p bs :
  0 <= p <= Z.of_nat (length m) -> take (length bs) (drop (Z.to_nat p) m) = bs -> bytes_at m p bs.
Proof.
  intros Hp Hb. split; [lia|]. exists (take (Z.to_nat p) m), (drop (length bs) (drop (Z.to_nat p) m)).
  rewrite length_take. split; [|lia]. rewrite <- Hb at 1. by rewrite take_drop, take_drop.
Qed.

Lemma seven_null_format :
  array_format Little int4_layout 23 [2] 32 seven_null [Some (ne_bytes Little 4 7); None].
Proof.
  split; try done.
  - by apply bytes_at_take.
  - cbn. lia.
  - by repeat constructor.
  - exists [x01]. split; [by apply bytes_at_take|]. split; [done|].
    intros [|[|i]] o Hi; cbn in Hi; [injection Hi as <-; by eexists..|done].
  - exists 36. split; [done|]. apply (data_some _ _ _ 32); [by apply bytes_at_take|done|]. repeat constructor.
Qed.

Lemma seven_null_reads : Forall2 (option_Forall2 (reads_int4 Little)) [Some (ne_bytes Little 4 7); None] [Some 7; None].
Proof. repeat constructor. Qed.

Lemma array_read_witness :
  exists a, deconstruct_from Little (fun _ => int4_type) seven_null = Returned a
    /\ iter Little true a = Returned [Some 7; None]
    /\ (forall i, 0 <= i -> get Little true a i = Returned ([Some 7; None] !! Z.to_nat i))
    /\ contains_nulls Little (a_raw a) (a_nulls a) = Returned true
    /\ iter_deny_null (A := Z) Little true a = Panicked "array contains NULL".
Proof.
  exact (array_read Little true (fun _ => int4_type) int4_layout 23 [2] 32 seven_null _
           [Some 7; None] seven_null_format eq_refl eq_refl seven_null_reads).
Defined.

(** Iterating over an array by value gives the same as [iter] when debug
    assertions are off.  When they are on, an array that ends with a null behind the
    last stored byte, as Postgres stores it, makes the iterator panic: it asserts
    that its position is inside the array before it looks at whether the element is
    null. *)
Theorem into_iter_trailing_null e types l elemtype ds off m es
    `{UnboxLaws e l A reads} (vs : list (option A)) :
  array_format e l elemtype ds off m es -> layout_ok l = true -> lookup_oid (types elemtype) = Returned l ->
  Forall2 (option_Forall2 reads) es vs ->
  exists a, deconstruct_from e types m = Returned a
    /\ into_iter e false a = Returned vs
    /\ (es !! pred (length es) = Some None ->
        data_at e l m (data_start ds off) es (Z.of_nat (length m)) ->
        into_iter (A := A) e true a = Panicked "assertion failed: array.is_within_bounds(*ptr)").
Proof.
  intros Hf Hok Ht Hv. destruct (deconstruct_spec _ _ _ _ _ _ _ _ Hf Hok Ht) as (slide & Hs & ->).
  eexists. split; [done|]. split.
  - rewrite into_iter_release. by apply (array_iter_spec e false l elemtype ds off m es slide Hf Hok Hs vs).
  - intros Hlast Hd. unfold into_iter. rewrite (start_spec _ _ _ _ _ _ _ _ Hf). cbn [ebind].
    rewrite (fuel_spec _ _ _ _ _ _ _ _ Hf). cbn [ebind].
    assert (Hlen : (0 < length es)%nat) by (destruct es; [done|cbn; lia]).
    pose proof (into_iter_from e true l elemtype ds off m es slide Hf Hok Hs vs Hv 0 (data_start ds off) eq_refl Hlast Hlen) as Hi.
    rewrite Nat.sub_0_r, drop_0 in Hi. change (Z.of_nat 0) with 0 in Hi.
    apply Hi; [done|lia|]. apply (data_start_aligned _ _ _ _ _ _ _ Hf).
Qed.

Lemma into_iter_trailing_null_witness :
  exists a, deconstruct_from Little (fun _ => int4_type) seven_null = Returned a
    /\ into_iter Little false a = Returned [Some 7; None]
    /\ into_iter (A := Z) Little true a = Panicked "assertion failed: array.is_within_bounds(*ptr)".
Proof.
  destruct (into_iter_trailing_null Little (fun _ => int4_type) int4_layout 23 [2] 32 seven_null _
           [Some 7; None] seven_null_format eq_refl eq_refl seven_null_reads) as (a & Ha & Hr & Hd).
  exists a. split; [exact Ha|]. split; [exact Hr|]. apply Hd; [reflexivity|].
  apply (data_some _ _ _ 32); [by apply bytes_at_take|done|]. repeat constructor.
Defined.

(** ** Arrays that [FlatArray] makes *)

(** What Postgres documents of [array_contains_nulls]: an array without a bitmap has
    no nulls. *)
Definition no_bitmap_no_nulls (e : endian) (array_contains_nulls : bytes -> bool) : Prop :=
  forall m, data_offset e m = Returned 0 -> array_contains_nulls m = false.

(** A type of [n]-byte scalars. *)
Definition scalar_layout (n : Z) (l : Layout) : bool :=
  layout_ok l && (0 <? n) && (n mod align_as_usize (l_align l) =? 0)
  && match l_size l with SFixed k => k =? n | _ => false end.

Lemma scalar_layout_spec n l :
  scalar_layout n l = true ->
  layout_ok l = true /\ 0 < n /\ n mod align_as_usize (l_align l) = 0 /\ l_size l = SFixed n.
Proof.
  unfold scalar_layout. intros [[[Hok H0]%andb_true_iff Ha]%andb_true_iff Hl]%andb_true_iff.
  destruct (l_size l); try done. apply Z.eqb_eq in Hl as ->. repeat split; [done|lia|lia].
Qed.

(** [new_zeroed_in] of positive dimensions makes an array in the format of
    Postgres, whose elements are all zero or, when it has a bitmap, all null; unless
    there are more elements than an array may have, more bytes than may be allocated,
    or no memory, and then it says which.  A dimension of 0 is refused. *)
Theorem new_zeroed_array e oom size_of_T OID l ds has_nulls :
  scalar_layout size_of_T l = true -> 0 <= OID < 2 ^ 32 ->
  ds <> [] -> Forall (fun d => 0 <= d) ds -> (length ds <= 6)%nat ->
  let made := new_zeroed_in e oom size_of_T OID ds has_nulls in
  if existsb (Z.eqb 0) ds then made = Returned (inl ZeroLenDim)
  else if MAX_ARRAY_SIZE <? nelems ds then made = Returned (inl TooManyElems)
  else if MAX_ALLOC_SIZE <? size_of size_of_T ds has_nulls then made = Returned (inl TooManyBytes)
  else if oom (size_of size_of_T ds has_nulls) then made = Returned (inl OutOfMemory)
  else exists off m, made = Returned (inr m)
    /\ array_format e l OID ds off m
         (replicate (Z.to_nat (nelems ds)) (if has_nulls then None else Some (replicate (Z.to_nat size_of_T) x00))).
Proof.
  intros (Hok & Hpos & Hal & Hl)%scalar_layout_spec Hoid Hne Hnn Hnd made. subst made.
  destruct (new_zeroed_in_spec e oom size_of_T OID Hpos ds has_nulls Hne Hnn) as [[-> ->]|[Hp Hnew]]; [done|].
  assert (existsb (Z.eqb 0) ds = false) as ->.
  { clear -Hp. induction Hp as [|d ds Hd _ IH]; [done|]. cbn [existsb]. rewrite IH. lia. }
  destruct (MAX_ARRAY_SIZE <? nelems ds) eqn:H1; [done|].
  destruct (MAX_ALLOC_SIZE <? size_of size_of_T ds has_nulls) eqn:H2; [done|].
  destruct (oom (size_of size_of_T ds has_nulls)); [done|]. destruct Hnew as (m & -> & Hz).
  eexists _, m. split; [done|]. apply (zeroed_format e size_of_T OID l Hpos Hoid Hl Hal ds has_nulls m); try done; lia.
Qed.

Lemma new_zeroed_array_witness :
  exists off m, new_zeroed_in Big (fun _ => false) 4 23 [2; 3] true = Returned (inr m)
    /\ array_format Big int4_layout 23 [2; 3] off m (replicate 6 None).
Proof.
  refine (new_zeroed_array Big (fun _ => false) 4 23 int4_layout [2; 3] true _ _ _ _ _);
    [done|lia|done|repeat constructor; done|cbn; lia].
Defined.

(** The lower bounds of a new array are the products of its dimensions so far, not 1. *)
Example new_zeroed_lower_bounds :
  products 1 [2; 3; 4] = Some ([1; 2; 6], 24).
Proof. reflexivity. Qed.

(** An array made of a slice of scalars is read back as that slice: [new_from_slice]
    returns, and [Array] gives the values the bytes stand for, in either byte order;
    [FlatArray] gives the bytes themselves, by iteration and by index, on a machine of
    little endian or when a scalar takes 8 bytes or more. *)
Theorem flat_array_round_trip e debug oom size_of_T OID types l array_contains_nulls data
    `{UnboxLaws e l A reads} (vs : list A) :
  no_bitmap_no_nulls e array_contains_nulls ->
  scalar_layout size_of_T l = true -> 0 <= OID < 2 ^ 32 -> lookup_oid (types OID) = Returned l ->
  Forall (fun bs => Z.of_nat (length bs) = size_of_T) data -> Forall2 reads data vs ->
  Z.of_nat (length data) <= MAX_ARRAY_SIZE ->
  size_of size_of_T [Z.of_nat (length data)] false <= MAX_ALLOC_SIZE ->
  (forall n, n <= MAX_ALLOC_SIZE -> oom n = false) ->
  exists m a, new_from_slice e oom size_of_T OID array_contains_nulls data = Returned (inr m)
    /\ deconstruct_from e types m = Returned a
    /\ iter e debug a = Returned (Some <$> vs)
    /\ iter_deny_null e debug a = Returned vs
    /\ (e = Little \/ 8 <= size_of_T ->
        flat_elements (H := sized size_of_T) e types m = Returned (Some <$> data)
        /\ forall i, flat_get (H := sized size_of_T) e types m i = Returned (Some <$> data !! i)).
Proof.
  intros Hacn Hs Hoid Ht Hd Hv Hn Hmax Hoom. destruct (scalar_layout_spec _ _ Hs) as (Hok & Hpos & Hal & Hl).
  destruct (new_from_slice_spec e oom size_of_T OID l Hpos Hoid Hl Hal array_contains_nulls data Hacn Hd Hn Hmax Hoom)
    as (ds & m & Hm & Hf).
  destruct (deconstruct_spec _ _ _ _ _ _ _ _ Hf Hok Ht) as (slide & Hsl & Ha).
  assert (Hv' : Forall2 (option_Forall2 reads) (Some <$> data) (Some <$> vs)).
  { clear -Hv. induction Hv; constructor; [by constructor|done]. }
  assert (Hnn : existsb is_null (Some <$> data) = false) by (clear; induction data; [done|by cbn]).
  eexists m, _. split; [done|]. split; [exact Ha|].
  split; [by apply (array_iter_spec e debug l OID ds 0 m _ slide Hf Hok Hsl)|].
  pose proof (iter_deny_null_spec e debug l OID ds 0 m _ slide Hf Hok Hsl _ Hv') as Hdn. rewrite Hnn in Hdn.
  destruct Hdn as (ws & Hws & ->). apply (inj (fmap Some)) in Hws as <-. split; [done|].
  intros He. pose proof (sized_laws e l size_of_T Hl He) as Hlaws.
  split; [by apply (flat_elements_spec e types l OID ds 0 m _ Hf Ht)|].
  intros i. rewrite (flat_get_spec e types l OID ds 0 m _ Hf Ht). by rewrite list_lookup_fmap.
Qed.

Lemma flat_array_round_trip_witness :
  exists m a, new_from_slice Little (fun _ => false) 4 23 (fun _ => false) [ne_bytes Little 4 7; ne_bytes Little 4 (-1)] = Returned (inr m)
    /\ deconstruct_from Little (fun _ => int4_type) m = Returned a
    /\ iter Little true a = Returned [Some 7; Some (-1)]
    /\ iter_deny_null Little true a = Returned [7; -1]
    /\ flat_elements (H := sized 4) Little (fun _ => int4_type) m
       = Returned [Some (ne_bytes Little 4 7); Some (ne_bytes Little 4 (-1))]
    /\ forall i, flat_get (H := sized 4) Little (fun _ => int4_type) m i
       = Returned (Some <$> [ne_bytes Little 4 7; ne_bytes Little 4 (-1)] !! i).
Proof.
  destruct (flat_array_round_trip Little true (fun _ => false) 4 23 (fun _ => int4_type) int4_layout (fun _ => false)
            [ne_bytes Little 4 7; ne_bytes Little 4 (-1)] (reads := reads_int4 Little) [7; -1])
    as (m & a & Hm & Ha & Hi & Hd & Hf);
    [done|done|lia|done|repeat constructor|repeat constructor|done|done|done|].
  exists m, a. destruct (Hf ltac:(by left)) as [He Hg]. done.
Defined.

(** On a machine of big endian, borrowing small scalars of an array reads the bytes of
    the elements behind them, and then past the end of the array. *)
Example flat_array_big_endian :
  exists m, new_from_slice Big (fun _ => false) 4 23 (fun _ => false) [ne_bytes Big 4 7; ne_bytes Big 4 8] = Returned (inr m)
    /\ flat_get (H := sized 4) Big (fun _ => int4_type) m 0 = Returned (Some (Some (ne_bytes Big 4 8)))
    /\ flat_get (H := sized 4) Big (fun _ => int4_type) m 1 = Undefined.
Proof. eexists. split; [vm_compute; reflexivity|]. split; vm_compute; reflexivity. Qed.
