(* ===== verification/Callbacks.v ===== *)
(** * Transaction callbacks

    [pgrx/src/callbacks.rs]: closures registered for the events of the current
    transaction and of its subtransactions, with the receipts that unregister them.
    A closure lives in a shared cell ([Rc<RefCell<Option<_>>>]) that the map of hooks
    and the receipt both hold; cells are numbered in the order they are made.

    What a closure does is a list of commands, among them the operations of this
    component themselves, so that a hook may register or unregister others. *)
From stdpp Require Import base list gmap strings.
From S2P Require Import Prelude.
#[local] Open Scope Z_scope.

Inductive PgXactCallbackEvent :=
  Abort_ | Commit | PreCommit | ParallelAbort | ParallelCommit | ParallelPreCommit | Prepare | PrePrepare.
Inductive PgSubXactCallbackEvent := AbortSub | CommitSub | PreCommitSub | StartSub.

#[export] Instance PgXactCallbackEvent_eq : EqDecision PgXactCallbackEvent.
Proof. solve_decision. Defined.
#[export] Instance PgSubXactCallbackEvent_eq : EqDecision PgSubXactCallbackEvent.
Proof. solve_decision. Defined.

Definition xact_events : list PgXactCallbackEvent :=
  [Abort_; Commit; PreCommit; ParallelAbort; ParallelCommit; ParallelPreCommit; Prepare; PrePrepare].
Definition sub_events : list PgSubXactCallbackEvent := [AbortSub; CommitSub; PreCommitSub; StartSub].

#[export] Program Instance PgXactCallbackEvent_finite : finite.Finite PgXactCallbackEvent := {| finite.enum := xact_events |}.
Next Obligation. by apply (bool_decide_unpack _). Qed.
Next Obligation. intros []; by apply (bool_decide_unpack _). Qed.
#[export] Program Instance PgSubXactCallbackEvent_finite : finite.Finite PgSubXactCallbackEvent := {| finite.enum := sub_events |}.
Next Obligation. by apply (bool_decide_unpack _). Qed.
Next Obligation. intros []; by apply (bool_decide_unpack _). Qed.

(** [translate_pg_event], over the numbers of [XactEvent] and [SubXactEvent]. *)
Definition translate_pg_event (pg_event : Z) : option PgXactCallbackEvent :=
  if pg_event =? 2 then Some Abort_
  else if pg_event =? 0 then Some Commit
  else if pg_event =? 3 then Some ParallelAbort
  else if pg_event =? 1 then Some ParallelCommit
  else if pg_event =? 6 then Some ParallelPreCommit
  else if pg_event =? 4 then Some Prepare
  else if pg_event =? 5 then Some PreCommit
  else if pg_event =? 7 then Some PrePrepare
  else None.

Definition translate_sub_pg_event (event : Z) : option PgSubXactCallbackEvent :=
  if event =? 2 then Some AbortSub
  else if event =? 1 then Some CommitSub
  else if event =? 3 then Some PreCommitSub
  else if event =? 0 then Some StartSub
  else None.

(** ** Closures *)

Inductive cmd :=
| Say (x : Z)
| Raise (w : string)
| RegisterXact (which_event : PgXactCallbackEvent) (f : list cmd)
| UnregisterXact (receipt : nat)
| RegisterSub (which_event : PgSubXactCallbackEvent) (f : list cmd)
| UnregisterSub (receipt : nat)
| TakeSubHooks.

Definition closure : Type := list cmd.

(** What can be seen: the commands that say something, with the subtransaction ids
    when a hook of a subtransaction says it, and each hook that starts to run. *)
Inductive entry :=
| Said (x : Z) (subids : option (Z * Z))
| Ran (hook : nat)
| RanSub (hook : nat)
| Failed (w : string).

(** The map of transaction hooks as its clients use it. *)
Class Registry (S : Type) := {
  register : PgXactCallbackEvent -> closure -> S -> nat * S;
  unregister : nat -> S -> S;
}.

Record sub_state := {
  SUB_HOOKS : option (gmap PgSubXactCallbackEvent (list nat));
  sub_cells : list (option closure);
  (** How often [callback] is registered with Postgres. *)
  sub_registered : nat;
  (** The cell that is borrowed while its hook runs. *)
  borrowed : option nat;
}.

Record world (S : Type) := {
  xact : S; sub : sub_state; receipts : gset nat; sub_receipts : gset nat; log : list entry;
}.
Arguments xact {S}. Arguments sub {S}. Arguments receipts {S}. Arguments sub_receipts {S}. Arguments log {S}.

Inductive outcome (S : Type) := Done (w : world S) | Raised (m : string) (w : world S) | UB.
Arguments Done {S}. Arguments Raised {S}. Arguments UB {S}.

Definition then_ {S} (o : outcome S) (k : world S -> outcome S) : outcome S :=
  match o with Done w => k w | Raised m w => Raised m w | UB => UB end.

Section Worlds.
Context {S : Type} `{Registry S}.

Definition set_xact (x : S) (w : world S) : world S :=
  {| xact := x; sub := sub w; receipts := receipts w; sub_receipts := sub_receipts w; log := log w |}.
Definition set_sub (s : sub_state) (w : world S) : world S :=
  {| xact := xact w; sub := s; receipts := receipts w; sub_receipts := sub_receipts w; log := log w |}.
Definition set_receipts (r : gset nat) (w : world S) : world S :=
  {| xact := xact w; sub := sub w; receipts := r; sub_receipts := sub_receipts w; log := log w |}.
Definition set_sub_receipts (r : gset nat) (w : world S) : world S :=
  {| xact := xact w; sub := sub w; receipts := receipts w; sub_receipts := r; log := log w |}.
Definition say (x : entry) (w : world S) : world S :=
  {| xact := xact w; sub := sub w; receipts := receipts w; sub_receipts := sub_receipts w; log := log w ++ [x] |}.

(** [register_xact_callback]; the caller keeps the receipt or drops it. *)
Definition register_xact_callback (which_event : PgXactCallbackEvent) (f : closure) (keep : bool) (w : world S) : world S :=
  let '(r, x) := register which_event f (xact w) in
  set_receipts (if keep then {[r]} ∪ receipts w else receipts w) (set_xact x w).

(** [XactCallbackReceipt::unregister_callback] consumes the receipt. *)
Definition unregister_callback (r : nat) (w : world S) : world S :=
  if decide (r ∈ receipts w) then set_receipts (receipts w ∖ {[r]}) (set_xact (unregister r (xact w)) w) else w.

(** ** Hooks of subtransactions *)

Definition set_SUB_HOOKS (h : option (gmap PgSubXactCallbackEvent (list nat))) (s : sub_state) : sub_state :=
  {| SUB_HOOKS := h; sub_cells := sub_cells s; sub_registered := sub_registered s; borrowed := borrowed s |}.
Definition set_borrowed (b : option nat) (s : sub_state) : sub_state :=
  {| SUB_HOOKS := SUB_HOOKS s; sub_cells := sub_cells s; sub_registered := sub_registered s; borrowed := b |}.

(** [UnregisterSubXactCallback] and then [RegisterSubXactCallback]. *)
Definition re_register (s : sub_state) : sub_state :=
  {| SUB_HOOKS := SUB_HOOKS s; sub_cells := sub_cells s; sub_registered := Nat.succ (Nat.pred (sub_registered s));
     borrowed := borrowed s |}.

Definition maybe_initialize_sub (w : world S) : world S :=
  match SUB_HOOKS (sub w) with
  | Some _ => w
  | None =>
      let w := set_sub (re_register (set_SUB_HOOKS (Some ∅) (sub w))) w in
      let w := register_xact_callback Commit [TakeSubHooks] false w in
      register_xact_callback Abort_ [TakeSubHooks] false w
  end.

Definition push_sub (which_event : PgSubXactCallbackEvent) (f : closure) (s : sub_state) : nat * sub_state :=
  let r := length (sub_cells s) in
  let hooks := default ∅ (SUB_HOOKS s) in
  (r, {| SUB_HOOKS := Some (<[which_event := default [] (hooks !! which_event) ++ [r]]> hooks);
         sub_cells := sub_cells s ++ [Some f]; sub_registered := sub_registered s; borrowed := borrowed s |}).

(** While [callback] goes over the hooks, a change of the map is undefined behaviour. *)
Definition register_subxact_callback (which_event : PgSubXactCallbackEvent) (f : closure) (w : world S) : outcome S :=
  match borrowed (sub w) with
  | Some _ => UB
  | None =>
      let w := maybe_initialize_sub w in
      let '(r, s) := push_sub which_event f (sub w) in
      Done (set_sub_receipts ({[r]} ∪ sub_receipts w) (set_sub s w))
  end.

Definition clear_sub_cell (r : nat) (s : sub_state) : sub_state :=
  {| SUB_HOOKS := SUB_HOOKS s; sub_cells := <[r := None]> (sub_cells s); sub_registered := sub_registered s;
     borrowed := borrowed s |}.

Definition unregister_sub_callback (r : nat) (w : world S) : outcome S :=
  if decide (r ∈ sub_receipts w) then
    let w := set_sub_receipts (sub_receipts w ∖ {[r]}) w in
    if decide (borrowed (sub w) = Some r) then Raised "already borrowed: BorrowMutError" w
    else Done (set_sub (clear_sub_cell r (sub w)) w)
  else Done w.

(** ** Running closures *)

Definition exec_cmd (subids : option (Z * Z)) (c : cmd) (w : world S) : outcome S :=
  match c with
  | Say x => Done (say (Said x subids) w)
  | Raise m => Raised m w
  | RegisterXact ev f => Done (register_xact_callback ev f true w)
  | UnregisterXact r => Done (unregister_callback r w)
  | RegisterSub ev f => register_subxact_callback ev f w
  | UnregisterSub r => unregister_sub_callback r w
  | TakeSubHooks => Done (set_sub (set_SUB_HOOKS None (sub w)) w)
  end.

Fixpoint exec (subids : option (Z * Z)) (f : closure) (w : world S) : outcome S :=
  match f with [] => Done w | c :: f => then_ (exec_cmd subids c w) (exec subids f) end.

(** The borrow ends when the hook returns or unwinds. *)
Definition release (o : outcome S) : outcome S :=
  match o with
  | Done w => Done (set_sub (set_borrowed None (sub w)) w)
  | Raised m w => Raised m (set_sub (set_borrowed None (sub w)) w)
  | UB => UB
  end.

Fixpoint run_sub_hooks (subids : Z * Z) (hooks : list nat) (w : world S) : outcome S :=
  match hooks with
  | [] => Done w
  | hook :: hooks =>
      then_ match sub_cells (sub w) !! hook with
            | Some (Some f) => release (exec (Some subids) f (say (RanSub hook) (set_sub (set_borrowed (Some hook) (sub w)) w)))
            | _ => Done w
            end (run_sub_hooks subids hooks)
  end.

Definition sub_callback (event my_subid parent_subid : Z) (w : world S) : outcome S :=
  match translate_sub_pg_event event with
  | None => Raised "Unrecognized SubXactEvent" w
  | Some which_event =>
      match SUB_HOOKS (sub w) ≫= lookup which_event with
      | None => Done w
      | Some hooks => run_sub_hooks (my_subid, parent_subid) hooks w
      end
  end.

(** As often as a callback is registered with Postgres. *)
Fixpoint repeatedly (n : nat) (f : world S -> outcome S) (w : world S) : outcome S :=
  match n with O => Done w | Datatypes.S n => then_ (f w) (repeatedly n f) end.

Definition CallSubXactCallbacks (event my_subid parent_subid : Z) (w : world S) : outcome S :=
  repeatedly (sub_registered (sub w)) (sub_callback event my_subid parent_subid) w.
End Worlds.

(** ** Hooks of transactions *)

Record hooks_state := {
  XACT_HOOKS : option (gmap PgXactCallbackEvent (list nat));
  cells : list (option closure);
  registered : nat;
}.

Definition maybe_initialize (x : hooks_state) : hooks_state :=
  match XACT_HOOKS x with
  | Some _ => x
  | None => {| XACT_HOOKS := Some ∅; cells := cells x; registered := registered x + 1 |}
  end.

Definition push_hook (which_event : PgXactCallbackEvent) (f : closure) (x : hooks_state) : nat * hooks_state :=
  let x := maybe_initialize x in
  let hooks := default ∅ (XACT_HOOKS x) in
  let r := length (cells x) in
  (r, {| XACT_HOOKS := Some (<[which_event := default [] (hooks !! which_event) ++ [r]]> hooks);
         cells := cells x ++ [Some f]; registered := registered x |}).

Definition clear_cell (r : nat) (x : hooks_state) : hooks_state :=
  {| XACT_HOOKS := XACT_HOOKS x; cells := <[r := None]> (cells x); registered := registered x |}.

#[export] Instance hooks_registry : Registry hooks_state := {| register := push_hook; unregister := clear_cell |}.

(** The transaction is over, for this backend or for a parallel worker. *)
Definition ends (ev : PgXactCallbackEvent) : bool :=
  match ev with Commit | Abort_ | ParallelCommit | ParallelAbort => true | _ => false end.

Definition set_XACT_HOOKS (h : option (gmap PgXactCallbackEvent (list nat))) (w : world hooks_state) : world hooks_state :=
  set_xact {| XACT_HOOKS := h; cells := cells (xact w); registered := registered (xact w) |} w.

Fixpoint run_hooks (hooks : list nat) (w : world hooks_state) : outcome hooks_state :=
  match hooks with
  | [] => Done w
  | hook :: hooks =>
      then_ match cells (xact w) !! hook with
            | Some (Some f) => exec None f (say (Ran hook) (set_xact (clear_cell hook (xact w)) w))
            | _ => Done w
            end (run_hooks hooks)
  end.

Definition callback (event : Z) (w : world hooks_state) : outcome hooks_state :=
  match translate_pg_event event with
  | None => Raised "Unrecognized XactEvent" w
  | Some which_event =>
      match XACT_HOOKS (xact w) with
      | None =>
          if ends which_event then Raised "XACT_HOOKS was None during Commit/Abort" (set_XACT_HOOKS (Some ∅) w)
          else Raised "XACT_HOOKS was None" w
      | Some hooks =>
          let w := set_XACT_HOOKS (Some (if ends which_event then ∅ else delete which_event hooks)) w in
          run_hooks (default [] (hooks !! which_event)) w
      end
  end.

Definition CallXactCallbacks (event : Z) (w : world hooks_state) : outcome hooks_state :=
  repeatedly (registered (xact w)) (callback event) w.

(** ** A backend *)

(** What happens in a backend: code of the extension runs, and Postgres reports
    events. *)
Inductive step := Code (c : cmd) | Event (event : Z) | SubEvent (event my_subid parent_subid : Z).

Definition ends_event (event : Z) : bool := match translate_pg_event event with Some ev => ends ev | None => false end.

Section Backends.
Context {S : Type} `{Registry S} (call : Z -> world S -> outcome S).

(** An error is reported and the backend goes on, unless the transaction was already
    over: then the backend stops. *)
Definition backend_step (s : step) (w : world S) : outcome S :=
  match s with
  | Code c => match exec_cmd None c w with Raised m w => Done (say (Failed m) w) | o => o end
  | Event ev => match call ev w with
                | Raised m w => if ends_event ev then Raised m w else Done (say (Failed m) w)
                | o => o
                end
  | SubEvent ev my parent =>
      match CallSubXactCallbacks ev my parent w with Raised m w => Done (say (Failed m) w) | o => o end
  end.

Fixpoint backend (ss : list step) (w : world S) : outcome S :=
  match ss with [] => Done w | s :: ss => then_ (backend_step s w) (backend ss) end.
End Backends.

Definition no_sub_hooks : sub_state := {| SUB_HOOKS := None; sub_cells := []; sub_registered := 0; borrowed := None |}.
Definition new_backend {S} (x : S) : world S :=
  {| xact := x; sub := no_sub_hooks; receipts := ∅; sub_receipts := ∅; log := [] |}.
Definition no_hooks : hooks_state := {| XACT_HOOKS := None; cells := []; registered := 0 |}.

(** ** The contract *)

(** The hooks that are still to run, in the order they were registered, and those
    that are due in the event that is being handled. *)
Record pending_state := {
  pending : list (nat * PgXactCallbackEvent * closure);
  queue : list (nat * closure);
  fresh : nat;
}.

Definition due (ev : PgXactCallbackEvent) (ps : list (nat * PgXactCallbackEvent * closure)) : list (nat * closure) :=
  omap (fun '(r, ev', f) => if decide (ev' = ev) then Some (r, f) else None) ps.

#[export] Instance pending_registry : Registry pending_state := {|
  register := fun ev f x => (fresh x, {| pending := pending x ++ [(fresh x, ev, f)]; queue := queue x; fresh := fresh x + 1 |});
  unregister := fun r x => {| pending := filter (fun p => p.1.1 <> r) (pending x); queue := filter (fun p => p.1 <> r) (queue x);
                              fresh := fresh x |};
|}.

Definition set_queue (q : list (nat * closure)) (x : pending_state) : pending_state :=
  {| pending := pending x; queue := q; fresh := fresh x |}.

(** Each hook that is due runs once, unless one before it unregisters it; an error
    drops the rest. *)
Fixpoint run_due (fuel : nat) (w : world pending_state) : outcome pending_state :=
  match fuel, queue (xact w) with
  | Datatypes.S fuel, (r, f) :: q =>
      match exec None f (say (Ran r) (set_xact (set_queue q (xact w)) w)) with
      | Done w => run_due fuel w
      | Raised m w => Raised m (set_xact (set_queue [] (xact w)) w)
      | UB => UB
      end
  | _, _ => Done w
  end.

Definition begin_event (ev : PgXactCallbackEvent) (x : pending_state) : pending_state :=
  {| pending := if ends ev then [] else filter (fun p => p.1.2 <> ev) (pending x);
     queue := due ev (pending x); fresh := fresh x |}.

Definition report (event : Z) (w : world pending_state) : outcome pending_state :=
  match translate_pg_event event with
  | None => Done w
  | Some ev => run_due (length (due ev (pending (xact w)))) (set_xact (begin_event ev (xact w)) w)
  end.

Definition nothing_pending : pending_state := {| pending := []; queue := []; fresh := 0 |}.
