(* ===== verification/CallbacksSafe.v ===== *)
(** * Hooks run as they were registered

    The map of hooks with its shared cells ([hooks_state]) implements the list of
    pending hooks ([pending_state]), whatever the hooks do; and a hook registered in
    one transaction does not outlive it. *)
From stdpp Require Import base list gmap strings.
From S2P Require Import Prelude Callbacks.

(** ** Cells *)

Definition live (x : hooks_state) (c : nat) : option (nat * closure) :=
  match cells x !! c with Some (Some f) => Some (c, f) | _ => None end.

Definition hooks_of (x : hooks_state) (ev : PgXactCallbackEvent) : list nat :=
  default [] (default ∅ (XACT_HOOKS x) !! ev).

Lemma live_fst x c r f : live x c = Some (r, f) -> r = c /\ cells x !! c = Some (Some f).
Proof. unfold live. destruct (cells x !! c) as [[g|]|]; naive_solver. Qed.

Lemma live_clear_one r x c : live (clear_cell r x) c = if decide (c = r) then None else live x c.
Proof.
  unfold live; cbn [cells clear_cell]. case_decide as Hc; [subst|by rewrite list_lookup_insert_ne].
  destruct (decide (r < length (cells x))%nat).
  - by rewrite list_lookup_insert_eq by done.
  - by rewrite lookup_ge_None_2 by (rewrite length_insert; lia).
Qed.

Lemma live_clear r x (l : list nat) : omap (live (clear_cell r x)) l = filter (fun p => p.1 <> r) (omap (live x) l).
Proof.
  induction l as [|c l IH]; [done|]. cbn [omap list_omap]. rewrite live_clear_one. fold (omap (live x) l) in *.
  destruct (live x c) as [[r' f]|] eqn:Hl; [|by case_decide]. apply live_fst in Hl as [-> _].
  case_decide as Hc; [subst; by rewrite filter_cons_False by (cbn; tauto)|]. rewrite filter_cons_True by done. by rewrite IH.
Qed.

Lemma live_push x f h n (l : list nat) :
  Forall (fun c => c < length (cells x))%nat l ->
  omap (live {| XACT_HOOKS := h; cells := cells x ++ [Some f]; registered := n |}) l = omap (live x) l.
Proof.
  induction 1 as [|c l Hc _ IH]; [done|]. cbn [omap list_omap]. rewrite IH.
  unfold live; cbn [cells]. by rewrite lookup_app_l by done.
Qed.

Lemma due_cons ev r ev' f ps : due ev ((r, ev', f) :: ps) = (if decide (ev' = ev) then [(r, f)] else []) ++ due ev ps.
Proof. unfold due. cbn [omap list_omap]. by destruct (decide (ev' = ev)). Qed.

Lemma due_filter ev r ps : due ev (filter (fun p => p.1.1 <> r) ps) = filter (fun p => p.1 <> r) (due ev ps).
Proof.
  induction ps as [|[[r' ev'] f] ps IH]; [done|]. rewrite due_cons, list.filter_app, <- IH.
  destruct (decide (r' = r)) as [->|Hr].
  - rewrite filter_cons_False by (cbn; tauto). destruct (decide (ev' = ev)); [|done].
    by rewrite filter_cons_False by (cbn; tauto).
  - rewrite filter_cons_True by done. rewrite due_cons. destruct (decide (ev' = ev)); [|done].
    by rewrite filter_cons_True by done.
Qed.

Lemma due_app ev ps qs : due ev (ps ++ qs) = due ev ps ++ due ev qs.
Proof. apply omap_app. Qed.

Lemma due_others ev ev' ps : ev <> ev' -> due ev (filter (fun p => p.1.2 <> ev') ps) = due ev ps.
Proof.
  intros Hne. induction ps as [|[[r e'] f] ps IH]; [done|]. rewrite due_cons. destruct (decide (e' = ev')) as [->|He].
  - rewrite filter_cons_False by (cbn; tauto). by rewrite decide_False by done.
  - rewrite filter_cons_True by done. by rewrite due_cons, IH.
Qed.

Lemma due_same ev ps : due ev (filter (fun p => p.1.2 <> ev) ps) = [].
Proof.
  induction ps as [|[[r e'] f] ps IH]; [done|]. destruct (decide (e' = ev)) as [->|He].
  - by rewrite filter_cons_False by (cbn; tauto).
  - rewrite filter_cons_True by done. rewrite due_cons, IH. by rewrite decide_False by done.
Qed.

(** The numbers of the hooks that are pending or due. *)
Definition ids (x : pending_state) : list nat := (fun p => p.1.1) <$> pending x.
Definition queue_ids (x : pending_state) : list nat := fst <$> queue x.

Lemma due_ids ev ps r : r ∈ fst <$> due ev ps -> r ∈ (fun p => p.1.1) <$> ps.
Proof.
  intros ([r' f] & -> & Hin)%list_elem_of_fmap. apply list_elem_of_omap in Hin as ([[a b] g] & Hin & Hd).
  case_decide; simplify_eq. apply list_elem_of_fmap. by exists (r', ev, f).
Qed.

Lemma filter_all {X} (P : X -> Prop) `{!forall x, Decision (P x)} l : Forall P l -> filter P l = l.
Proof. induction 1; [done|]. rewrite filter_cons_True by done. by f_equal. Qed.

Lemma filter_fst_ne (r : nat) (ps : list (nat * closure)) : r ∉ fst <$> ps -> filter (fun p => p.1 <> r) ps = ps.
Proof.
  intros Hr. apply filter_all. apply list.Forall_forall. intros p Hp Hf. apply Hr. apply list_elem_of_fmap. by exists p.
Qed.

Lemma fmap_filter_sublist {X Y} (g : X -> Y) (P : X -> Prop) `{!forall x, Decision (P x)} l : g <$> filter P l `sublist_of` g <$> l.
Proof.
  induction l as [|x l IH]; [done|]. rewrite filter_cons. case_decide; cbn; [by apply sublist_skip|by apply sublist_cons].
Qed.

Lemma due_sublist ev ps : fst <$> due ev ps `sublist_of` (fun p => p.1.1) <$> ps.
Proof.
  induction ps as [|[[r e'] f] ps IH]; [done|]. rewrite due_cons.
  destruct (decide (e' = ev)); [by apply sublist_skip|by apply sublist_cons].
Qed.

(** ** The simulation *)

(** [q] is what is left of the hooks that [callback] goes over. *)
Record hooks_rel (q : list nat) (x : hooks_state) (s : pending_state) : Prop := {
  hr_fresh : length (cells x) = fresh s;
  hr_registered : registered x = if XACT_HOOKS x then 1%nat else 0%nat;
  hr_due ev : omap (live x) (hooks_of x ev) = due ev (pending s);
  hr_queue : omap (live x) q = queue s;
  hr_bound ev : Forall (fun c => c < length (cells x))%nat (hooks_of x ev);
  hr_bound_q : Forall (fun c => c < length (cells x))%nat q;
  hr_nodup : NoDup (ids s ++ queue_ids s);
  hr_ids : Forall (fun r => r < fresh s)%nat (ids s ++ queue_ids s);
}.

Lemma sublist_forall {X} (P : X -> Prop) l k : l `sublist_of` k -> Forall P k -> Forall P l.
Proof. intros Hs Hk. rewrite list.Forall_forall in *. intros x Hx. apply Hk. by eapply elem_of_sublist. Qed.

Lemma hooks_of_push x ev f ev' :
  hooks_of (push_hook ev f x).2 ev' = hooks_of x ev' ++ (if decide (ev = ev') then [length (cells x)] else []).
Proof.
  unfold push_hook, maybe_initialize, hooks_of. destruct (XACT_HOOKS x) as [h|] eqn:Hx; cbn [XACT_HOOKS cells snd]; rewrite ?Hx; cbn [default from_option]; unfold id.
  all: destruct (decide (ev = ev')) as [->|Hne]; [by rewrite lookup_insert_eq|rewrite lookup_insert_ne by done].
  - by rewrite app_nil_r.
  - by rewrite !lookup_empty.
Qed.

Lemma cells_push x ev f : cells (push_hook ev f x).2 = cells x ++ [Some f].
Proof. unfold push_hook, maybe_initialize. by destruct (XACT_HOOKS x). Qed.

Lemma push_hook_fst x ev f : (push_hook ev f x).1 = length (cells x).
Proof. unfold push_hook, maybe_initialize. by destruct (XACT_HOOKS x). Qed.

Lemma live_push_hook x ev f (l : list nat) :
  Forall (fun c => c < length (cells x))%nat l -> omap (live (push_hook ev f x).2) l = omap (live x) l.
Proof.
  intros Hl. rewrite <- (live_push x f (XACT_HOOKS (push_hook ev f x).2) (registered (push_hook ev f x).2) l Hl).
  unfold push_hook, maybe_initialize. by destruct (XACT_HOOKS x).
Qed.

Lemma register_rel q x s ev f :
  hooks_rel q x s ->
  (register ev f x).1 = (register ev f s).1 /\ hooks_rel q (register ev f x).2 (register ev f s).2.
Proof.
  intros [Hfr Hreg Hdue Hq Hb Hbq Hnd Hids]. cbn [register hooks_registry pending_registry fst snd].
  split; [by rewrite push_hook_fst|].
  assert (Hgrow : forall l, Forall (fun c => c < length (cells x))%nat l ->
    Forall (fun c => c < length (cells (push_hook ev f x).2))%nat l).
  { intros l Hl. eapply List.Forall_impl; [|exact Hl]. intros c Hc. cbv beta in *. rewrite cells_push, length_app. cbn. lia. }
  split; cbn [fresh pending queue].
  - rewrite cells_push, length_app. cbn. lia.
  - unfold push_hook, maybe_initialize. destruct (XACT_HOOKS x); cbn in *; lia.
  - intros ev'. rewrite hooks_of_push, omap_app, live_push_hook, Hdue, due_app by done. f_equal.
    rewrite due_cons. destruct (decide (ev = ev')) as [->|]; [|done]. cbn [omap list_omap]. unfold live at 1.
    rewrite cells_push, lookup_app_r, Nat.sub_diag by done. cbn. by rewrite Hfr.
  - by rewrite live_push_hook.
  - intros ev'. rewrite hooks_of_push. apply Forall_app. split; [by apply Hgrow|].
    case_decide; constructor; [|done]. rewrite cells_push, length_app. cbn. lia.
  - by apply Hgrow.
  - unfold ids, queue_ids in *; cbn [pending queue]. rewrite fmap_app. cbn [fmap list_fmap fst].
    rewrite <- app_assoc. cbn [app]. rewrite <- Permutation_middle. apply list.NoDup_cons. split; [|done].
    intros Hin. rewrite list.Forall_forall in Hids. specialize (Hids _ Hin). lia.
  - unfold ids, queue_ids in *; cbn [pending queue]. rewrite fmap_app. cbn [fmap list_fmap fst].
    rewrite !Forall_app in *. destruct Hids as [H1 H2]. split; [split|].
    + eapply List.Forall_impl; [|exact H1]. cbn. lia.
    + constructor; [lia|done].
    + eapply List.Forall_impl; [|exact H2]. cbn. lia.
Qed.

Lemma ids_sublist (x s : pending_state) :
  ids x `sublist_of` ids s -> queue_ids x `sublist_of` queue_ids s -> ids x ++ queue_ids x `sublist_of` ids s ++ queue_ids s.
Proof. apply sublist_app. Qed.

Lemma unregister_rel q x s r : hooks_rel q x s -> hooks_rel q (unregister r x) (unregister r s).
Proof.
  intros [Hfr Hreg Hdue Hq Hb Hbq Hnd Hids]. cbn [unregister hooks_registry pending_registry].
  assert (Hlen : length (cells (clear_cell r x)) = length (cells x)) by (cbn; apply length_insert).
  assert (Hs : ids (unregister r s) ++ queue_ids (unregister r s) `sublist_of` ids s ++ queue_ids s).
  { apply ids_sublist; unfold ids, queue_ids; cbn [pending queue unregister pending_registry]; apply fmap_filter_sublist. }
  split; cbn [fresh pending queue]; rewrite ?Hlen; try done.
  - intros ev. rewrite live_clear, due_filter. f_equal. apply Hdue.
  - by rewrite live_clear, Hq.
  - by eapply sublist_NoDup.
  - by eapply sublist_forall.
Qed.

(** The next hook is taken out of its cell. *)
Lemma pop_rel c q x s :
  hooks_rel (c :: q) x s ->
  match cells x !! c with
  | Some (Some f) => exists Q, queue s = (c, f) :: Q /\ hooks_rel q (clear_cell c x) (set_queue Q s)
  | _ => hooks_rel q x s
  end.
Proof.
  intros [Hfr Hreg Hdue Hq Hb Hbq Hnd Hids]. cbn [omap list_omap] in Hq. unfold live at 1 in Hq.
  inversion Hbq as [|? ? Hc Hbq']; subst.
  destruct (cells x !! c) as [[f|]|]; [|by split..]. exists (omap (live x) q). split; [done|].
  assert (Hni : c ∉ ids s /\ c ∉ fst <$> omap (live x) q).
  { unfold queue_ids in Hnd. rewrite <- Hq in Hnd. cbn [fmap list_fmap fst] in Hnd. apply list.NoDup_app in Hnd as (_ & Hd & Hn).
    apply list.NoDup_cons in Hn as [Hn _]. split; [|done]. intros Hin. apply (Hd _ Hin). by left. }
  destruct Hni as [Hn1 Hn2].
  assert (Hlen : length (cells (clear_cell c x)) = length (cells x)) by (cbn; apply length_insert).
  assert (Hs : ids (set_queue (omap (live x) q) s) ++ queue_ids (set_queue (omap (live x) q) s) `sublist_of` ids s ++ queue_ids s).
  { apply ids_sublist; [done|]. unfold queue_ids; cbn [queue set_queue]. rewrite <- Hq. by apply sublist_cons. }
  split; cbn [fresh pending queue set_queue]; rewrite ?Hlen; try done.
  - intros ev. change (hooks_of (clear_cell c x) ev) with (hooks_of x ev). rewrite live_clear, Hdue. apply filter_fst_ne.
    intros Hin. by apply Hn1, (due_ids ev).
  - rewrite live_clear. by apply filter_fst_ne.
  - by eapply sublist_NoDup.
  - by eapply sublist_forall.
Qed.

(** Worlds that differ in how they keep the hooks of transactions. *)
Record world_rel (q : list nat) (w : world hooks_state) (v : world pending_state) : Prop := {
  wr_xact : hooks_rel q (xact w) (xact v);
  wr_sub : sub w = sub v;
  wr_receipts : receipts w = receipts v;
  wr_sub_receipts : sub_receipts w = sub_receipts v;
  wr_log : log w = log v;
}.

Inductive outcome_rel (q : list nat) : outcome hooks_state -> outcome pending_state -> Prop :=
| rel_done w v : world_rel q w v -> outcome_rel q (Done w) (Done v)
| rel_raised m w v : world_rel q w v -> outcome_rel q (Raised m w) (Raised m v)
| rel_ub : outcome_rel q UB UB.

Create HintDb callbacks discriminated.
#[local] Hint Constructors outcome_rel world_rel : callbacks.
#[local] Hint Resolve unregister_rel : callbacks.

Lemma then_rel q o o' k k' :
  outcome_rel q o o' -> (forall w v, world_rel q w v -> outcome_rel q (k w) (k' v)) -> outcome_rel q (then_ o k) (then_ o' k').
Proof. intros [] Hk; cbn; auto with callbacks. Qed.

Section Simulation.
Context (q : list nat).

Lemma set_sub_rel w v s : world_rel q w v -> world_rel q (set_sub s w) (set_sub s v).
Proof. by intros []. Qed.

Lemma say_rel w v x : world_rel q w v -> world_rel q (say x w) (say x v).
Proof. intros []; split; try done. cbn. congruence. Qed.

Lemma register_xact_rel w v ev f keep :
  world_rel q w v -> world_rel q (register_xact_callback ev f keep w) (register_xact_callback ev f keep v).
Proof.
  intros [Hx Hs Hr Hsr Hl]. unfold register_xact_callback.
  destruct (register_rel q _ _ ev f Hx) as [Hid Hrel].
  destruct (register ev f (xact w)) as [r x], (register ev f (xact v)) as [r' x']; cbn [fst snd] in *. subst r'.
  split; try done. cbn. by rewrite Hr.
Qed.

Lemma maybe_initialize_sub_rel w v :
  world_rel q w v -> world_rel q (maybe_initialize_sub w) (maybe_initialize_sub v).
Proof.
  intros Hw. unfold maybe_initialize_sub. rewrite <- (wr_sub _ _ _ Hw). destruct (SUB_HOOKS (sub w)); [done|].
  by apply register_xact_rel, register_xact_rel, set_sub_rel.
Qed.

Lemma exec_cmd_rel subids c w v : world_rel q w v -> outcome_rel q (exec_cmd subids c w) (exec_cmd subids c v).
Proof.
  intros Hw. destruct c as [x|m|ev f|r|ev f|r|]; cbn [exec_cmd].
  - by apply rel_done, say_rel.
  - by constructor.
  - by apply rel_done, register_xact_rel.
  - constructor. destruct Hw as [Hx Hs Hr Hsr Hl]. unfold unregister_callback. rewrite <- Hr.
    case_decide; [|by split]. split; try done. by apply unregister_rel.
  - unfold register_subxact_callback. rewrite <- (wr_sub _ _ _ Hw). destruct (borrowed (sub w)); [constructor|].
    pose proof (maybe_initialize_sub_rel _ _ Hw) as Hi. rewrite <- (wr_sub _ _ _ Hi).
    destruct (push_sub ev f (sub (maybe_initialize_sub w))) as [r s]. constructor.
    destruct Hi as [Hx Hs Hr Hsr Hl]. split; try done. cbn. congruence.
  - destruct Hw as [Hx Hs Hr Hsr Hl]. unfold unregister_sub_callback. rewrite <- Hsr. case_decide; [|by constructor].
    cbn [sub set_sub_receipts]. rewrite <- Hs. case_decide; constructor; split; done.
  - apply rel_done. rewrite <- (wr_sub _ _ _ Hw). by apply set_sub_rel.
Qed.

Lemma exec_rel subids f w v : world_rel q w v -> outcome_rel q (exec subids f w) (exec subids f v).
Proof.
  revert w v. induction f as [|c f IH]; intros w v Hw; cbn [exec]; [by constructor|].
  apply then_rel; [by apply exec_cmd_rel|done].
Qed.

Lemma run_sub_hooks_rel subids hooks w v :
  world_rel q w v -> outcome_rel q (run_sub_hooks subids hooks w) (run_sub_hooks subids hooks v).
Proof.
  revert w v. induction hooks as [|c hooks IH]; intros w v Hw; cbn [run_sub_hooks]; [by constructor|].
  apply then_rel; [|done]. rewrite <- (wr_sub _ _ _ Hw). destruct (sub_cells (sub w) !! c) as [[f|]|]; [|by constructor..].
  assert (Hs : world_rel q (say (RanSub c) (set_sub (set_borrowed (Some c) (sub w)) w))
                           (say (RanSub c) (set_sub (set_borrowed (Some c) (sub w)) v))) by (by apply say_rel, set_sub_rel).
  destruct (exec_rel (Some subids) f _ _ Hs) as [w' v' Hw'|m w' v' Hw'|]; constructor;
    rewrite <- (wr_sub _ _ _ Hw'); by apply set_sub_rel.
Qed.

Lemma repeatedly_rel n f g w v :
  (forall w v, world_rel q w v -> outcome_rel q (f w) (g v)) ->
  world_rel q w v -> outcome_rel q (repeatedly n f w) (repeatedly n g v).
Proof.
  intros Hf. revert w v. induction n as [|n IH]; intros w v Hw; cbn [repeatedly]; [by constructor|].
  apply then_rel; [by apply Hf|done].
Qed.

Lemma sub_event_rel ev my parent w v :
  world_rel q w v -> outcome_rel q (CallSubXactCallbacks ev my parent w) (CallSubXactCallbacks ev my parent v).
Proof.
  intros Hw. unfold CallSubXactCallbacks. rewrite <- (wr_sub _ _ _ Hw). apply repeatedly_rel; [|done].
  clear. intros w v Hw. unfold sub_callback. destruct (translate_sub_pg_event ev); [|by constructor].
  rewrite <- (wr_sub _ _ _ Hw). destruct (_ ≫= _); [by apply run_sub_hooks_rel|by constructor].
Qed.
End Simulation.

(** ** Events *)

(** A closure does not add to the hooks that are due. *)
Lemma exec_queue subids f (v : world pending_state) :
  match exec subids f v with
  | Done v' | Raised _ v' => length (queue (xact v')) <= length (queue (xact v))
  | UB => True
  end%nat.
Proof.
  revert v. induction f as [|c f IH]; intros v; cbn [exec]; [done|].
  assert (Hreg : forall ev g k w, queue (xact (register_xact_callback ev g k w)) = queue (xact w)) by done.
  assert (Hc : match exec_cmd subids c v with
    | Done v' | Raised _ v' => length (queue (xact v')) <= length (queue (xact v)) | UB => True end%nat).
  { destruct c as [x|m|ev g|r|ev g|r|]; cbn [exec_cmd]; try done.
    - unfold unregister_callback. case_decide; [|done]. cbn. apply length_filter.
    - unfold register_subxact_callback. destruct (borrowed (sub v)); [done|].
      destruct (push_sub _ _ _) as [r s]. cbn. unfold maybe_initialize_sub. by destruct (SUB_HOOKS (sub v)).
    - unfold unregister_sub_callback. case_decide; [|done]. by case_decide. }
  destruct (exec_cmd subids c v) as [v'|m v'|]; cbn [then_]; [|done..]. specialize (IH v').
  destruct (exec subids f v'); [lia|lia|done].
Qed.

Lemma drop_queue_rel q w v : world_rel q w v -> world_rel [] w (set_xact (set_queue [] (xact v)) v).
Proof.
  intros [[Hfr Hreg Hdue Hq Hb Hbq Hnd Hids] Hs Hr Hsr Hl]. split; try done.
  assert (Hsub : ids (set_queue [] (xact v)) ++ queue_ids (set_queue [] (xact v)) `sublist_of` ids (xact v) ++ queue_ids (xact v)).
  { apply ids_sublist; [done|]. apply sublist_nil_l. }
  split; cbn [set_xact xact]; try done; [by eapply sublist_NoDup|by eapply sublist_forall].
Qed.

Lemma run_hooks_rel q : forall n w v,
  world_rel q w v -> (length (queue (xact v)) <= n)%nat -> outcome_rel [] (run_hooks q w) (run_due n v).
Proof.
  induction q as [|c q IH]; intros n w v Hw Hn; cbn [run_hooks].
  { assert (Hv : queue (xact v) = []) by (by rewrite <- (hr_queue _ _ _ (wr_xact _ _ _ Hw))).
    unfold run_due. destruct n; rewrite ?Hv; by constructor. }
  destruct Hw as [Hx Hs Hr Hsr Hl]. pose proof (pop_rel c q _ _ Hx) as Hpop.
  destruct (cells (xact w) !! c) as [[f|]|]; [|by apply IH; [split|]..].
  destruct Hpop as (Q & HQ & Hrel). destruct n as [|n]; [rewrite HQ in Hn; cbn in Hn; lia|]. cbn [run_due]. rewrite HQ.
  set (v1 := say (Ran c) (set_xact (set_queue Q (xact v)) v)).
  assert (Hw1 : world_rel q (say (Ran c) (set_xact (clear_cell c (xact w)) w)) v1) by (apply say_rel; by split).
  pose proof (exec_queue None f v1) as Hq. cbn [queue xact v1 say set_xact set_queue] in Hq.
  destruct (exec_rel q None f _ _ Hw1) as [w' v' Hw'|m w' v' Hw'|]; cbn [then_].
  - apply IH; [done|]. rewrite HQ in Hn. cbn in Hn. lia.
  - constructor. by apply (drop_queue_rel q).
  - constructor.
Qed.

Lemma split_ids e (ps : list (nat * PgXactCallbackEvent * closure)) :
  ((fun p => p.1.1) <$> filter (fun p => p.1.2 <> e) ps) ++ (fst <$> due e ps) ≡ₚ (fun p => p.1.1) <$> ps.
Proof.
  induction ps as [|[[r e'] f] ps IH]; [done|]. rewrite due_cons. destruct (decide (e' = e)) as [->|He].
  - rewrite filter_cons_False by (cbn; tauto). cbn [app fmap list_fmap fst]. rewrite <- Permutation_middle. by f_equiv.
  - rewrite filter_cons_True by done. cbn [app fmap list_fmap fst]. by f_equiv.
Qed.

(** The hooks of an event are among those that were pending. *)
Lemma begin_event_ids e s (P : nat -> Prop) :
  NoDup (ids s ++ queue_ids s) -> Forall P (ids s ++ queue_ids s) ->
  NoDup (ids (begin_event e s) ++ queue_ids (begin_event e s)) /\ Forall P (ids (begin_event e s) ++ queue_ids (begin_event e s)).
Proof.
  intros Hnd%list.NoDup_app Hp%Forall_app. destruct Hnd as [Hnd _], Hp as [Hp _]. unfold ids, queue_ids in *. cbn [begin_event pending queue].
  destruct (ends e).
  - pose proof (due_sublist e (pending s)). split; [by eapply sublist_NoDup|by eapply sublist_forall].
  - by rewrite split_ids.
Qed.

Lemma callback_rel ev w v :
  is_Some (translate_pg_event ev) -> is_Some (XACT_HOOKS (xact w)) -> world_rel [] w v ->
  outcome_rel [] (callback ev w) (report ev v).
Proof.
  intros [e He] [h Hh] [Hx Hs Hr Hsr Hl]. unfold callback, report. rewrite He, Hh.
  apply run_hooks_rel; [|done]. split; try done. destruct Hx as [Hfr Hreg Hdue Hq Hb Hbq Hnd Hids].
  assert (Hho : forall e', hooks_of (xact w) e' = default [] (h !! e')) by (intros e'; unfold hooks_of; by rewrite Hh).
  split; cbn [xact set_xact set_XACT_HOOKS cells registered XACT_HOOKS fresh begin_event pending queue]; try done.
  - by rewrite Hreg, Hh.
  - intros e'. unfold hooks_of; cbn [XACT_HOOKS default from_option]. unfold id.
    destruct (ends e); [by rewrite lookup_empty|]. destruct (decide (e = e')) as [<-|Hne].
    + by rewrite lookup_delete_eq, due_same.
    + rewrite lookup_delete_ne, due_others by done. rewrite <- Hho. apply Hdue.
  - rewrite <- Hho. apply Hdue.
  - intros e'. unfold hooks_of; cbn [XACT_HOOKS default from_option]. unfold id.
    destruct (ends e); [by rewrite lookup_empty|]. destruct (decide (e = e')) as [<-|Hne].
    + by rewrite lookup_delete_eq.
    + rewrite lookup_delete_ne by done. rewrite <- Hho. apply Hb.
  - rewrite <- Hho. apply Hb.
  - by apply (begin_event_ids e _ _ Hnd Hids).
  - by apply (begin_event_ids e _ _ Hnd Hids).
Qed.

(** Without hooks, an event does nothing. *)
Lemma no_hooks_rel ev w v :
  is_Some (translate_pg_event ev) -> XACT_HOOKS (xact w) = None -> world_rel [] w v -> outcome_rel [] (Done w) (report ev v).
Proof.
  intros [e He] Hh [Hx Hs Hr Hsr Hl]. unfold report. rewrite He. pose proof (hr_due _ _ _ Hx) as Hd.
  assert (Hn : forall ev, due ev (pending (xact v)) = []) by (intros e'; rewrite <- Hd; unfold hooks_of; by rewrite Hh).
  assert (Hp : pending (xact v) = []).
  { destruct (pending (xact v)) as [|[[r e'] f] ps]; [done|]. specialize (Hn e'). rewrite due_cons in Hn.
    by rewrite decide_True in Hn by done. }
  rewrite Hn. cbn [length run_due]. constructor. split; try done. destruct Hx as [Hfr Hreg Hdue Hq Hb Hbq Hnd Hids].
  split; cbn [xact set_xact begin_event fresh pending queue]; try done.
  - intros e'. rewrite Hdue, Hp. by destruct (ends e).
  - by apply (begin_event_ids e _ _ Hnd Hids).
  - by apply (begin_event_ids e _ _ Hnd Hids).
Qed.

(** The steps of a backend whose events are those of [XactEvent]. *)
Definition known_step (s : step) : bool :=
  match s with Event ev => match translate_pg_event ev with Some _ => true | None => false end | _ => true end.

Lemma xact_event_rel ev w v :
  is_Some (translate_pg_event ev) -> world_rel [] w v -> outcome_rel [] (CallXactCallbacks ev w) (report ev v).
Proof.
  intros He Hw. unfold CallXactCallbacks. rewrite (hr_registered _ _ _ (wr_xact _ _ _ Hw)).
  destruct (XACT_HOOKS (xact w)) as [h|] eqn:Hh; cbn [repeatedly]; [|by apply no_hooks_rel].
  destruct (callback_rel ev w v He ltac:(by rewrite Hh) Hw); cbn [then_]; by constructor.
Qed.

Lemma backend_step_rel s w v :
  known_step s = true -> world_rel [] w v ->
  outcome_rel [] (backend_step CallXactCallbacks s w) (backend_step report s v).
Proof.
  intros Hk Hw. destruct s as [c|ev|ev my parent]; cbn [backend_step].
  - destruct (exec_cmd_rel [] None c w v Hw); constructor; [done|by apply say_rel].
  - cbn in Hk. assert (He : is_Some (translate_pg_event ev)) by (by destruct (translate_pg_event ev)).
    destruct (xact_event_rel ev w v He Hw); [by constructor| |constructor].
    destruct (ends_event ev); constructor; [done|by apply say_rel].
  - destruct (sub_event_rel [] ev my parent w v Hw); constructor; [done|by apply say_rel].
Qed.

Lemma backend_rel ss w v :
  forallb known_step ss = true -> world_rel [] w v ->
  outcome_rel [] (backend CallXactCallbacks ss w) (backend report ss v).
Proof.
  revert w v. induction ss as [|s ss IH]; intros w v Hk Hw; cbn [backend]; [by constructor|].
  cbn [forallb] in Hk. apply andb_true_iff in Hk as [Hk Hks].
  apply then_rel; [by apply backend_step_rel|]. intros. by apply IH.
Qed.

Lemma new_backend_rel : world_rel [] (new_backend no_hooks) (new_backend nothing_pending).
Proof. split; try done. split; try done; by constructor. Qed.

(** What can be seen of an outcome. *)
Definition seen {S} (o : outcome S) : option (option string * list entry) :=
  match o with Done w => Some (None, log w) | Raised m w => Some (Some m, log w) | UB => None end.

(** C16. The map of shared cells is the list of pending hooks: whatever code the
    extension runs, whatever its hooks do (say something, fail, register or unregister
    hooks, of transactions or of subtransactions) and whatever events Postgres reports,
    the hooks that run, their order, what they say and the errors they end in are those
    of the contract, by which each hook registered for an event runs once when the event
    is reported, in the order of registration, unless it is unregistered before its turn
    or a hook before it fails. *)
Theorem callbacks_refine_pending ss :
  forallb known_step ss = true ->
  seen (backend CallXactCallbacks ss (new_backend no_hooks)) = seen (backend report ss (new_backend nothing_pending)).
Proof.
  intros Hk. destruct (backend_rel ss _ _ Hk new_backend_rel) as [w v Hw|m w v Hw|]; cbn [seen]; [|..|done];
    by rewrite (wr_log _ _ _ Hw).
Qed.

Lemma callbacks_refine_pending_witness :
  seen (backend CallXactCallbacks
    [Code (RegisterXact PreCommit [UnregisterXact 1]); Code (RegisterXact Commit [Say 1]); Code (RegisterXact Commit [Say 2]);
     Event 5; Event 0] (new_backend no_hooks))
  = Some (None, [Ran 0; Ran 2; Said 2 None]).
Proof. etransitivity; [apply callbacks_refine_pending; reflexivity|vm_compute; reflexivity]. Defined.
