(* ===== verification/CallbackLife.v ===== *)
(** * Hooks live for one transaction

    How the world of hooks changes while closures run ([evolves]), and from it that a
    hook registered before a transaction ends does not run after it. *)
From stdpp Require Import base list gmap strings.
From S2P Require Import Prelude Callbacks CallbacksSafe.

Implicit Types (v : world pending_state).

Definition sub_hooks_of (s : sub_state) (ev : PgSubXactCallbackEvent) : list nat := default [] (default ∅ (SUB_HOOKS s) !! ev).

(** Numbers are given out in order. *)
Record bounded (v : world pending_state) : Prop := {
  b_pending p : p ∈ pending (xact v) -> (p.1.1 < fresh (xact v))%nat;
  b_queue p : p ∈ queue (xact v) -> (p.1 < fresh (xact v))%nat;
  b_receipts r : r ∈ receipts v -> (r < fresh (xact v))%nat;
}.

(** A hook that clears the hooks of subtransactions and that nobody can unregister. *)
Definition guard (ev : PgXactCallbackEvent) (v : world pending_state) : Prop :=
  exists c, (c, ev, [TakeSubHooks]) ∈ pending (xact v) /\ c ∉ receipts v.
Definition guards (v : world pending_state) : Prop := guard Commit v /\ guard Abort_ v.

(** From [v] to [v'] while closures run: hooks go only by their receipts, and new ones
    have new numbers. *)
Record evolution (v v' : world pending_state) : Prop := {
  ev_bounded : bounded v';
  ev_fresh : (fresh (xact v) <= fresh (xact v'))%nat;
  ev_pending p : p ∈ pending (xact v') -> p ∈ pending (xact v) \/ (fresh (xact v) <= p.1.1)%nat;
  ev_kept p : p ∈ pending (xact v) -> p ∈ pending (xact v') \/ p.1.1 ∈ receipts v;
  ev_queue p : p ∈ queue (xact v') -> p ∈ queue (xact v);
  ev_receipts r : r ∈ receipts v' -> r ∈ receipts v \/ (fresh (xact v) <= r)%nat;
  ev_cells : (length (sub_cells (sub v)) <= length (sub_cells (sub v')))%nat;
  ev_sub ev c : c ∈ sub_hooks_of (sub v') ev -> c ∈ sub_hooks_of (sub v) ev \/ (length (sub_cells (sub v)) <= c)%nat;
  ev_guards : is_Some (SUB_HOOKS (sub v')) -> is_Some (SUB_HOOKS (sub v)) \/ guards v';
  ev_log : exists l, log v' = log v ++ l
    /\ (forall h, Ran h ∈ l -> h ∈ queue_ids (xact v))
    /\ (forall h, RanSub h ∈ l -> (exists ev, h ∈ sub_hooks_of (sub v) ev) \/ (length (sub_cells (sub v)) <= h)%nat);
}.

Definition evolves v v' : Prop := bounded v -> evolution v v'.

Definition outcome_all {S} (P : world S -> Prop) (o : outcome S) : Prop :=
  match o with Done w | Raised _ w => P w | UB => True end.

Lemma evolves_refl v : evolves v v.
Proof. intros Hb. split; try done; try (intros; by left). exists []. rewrite app_nil_r. split; [done|]. split; intros h Hh; by apply elem_of_nil in Hh. Qed.

Lemma guard_kept ev v v' : bounded v -> evolution v v' -> guard ev v -> guard ev v'.
Proof.
  intros Hb He (c & Hc & Hr). exists c. destruct (ev_kept _ _ He _ Hc) as [Hc'|?]; [|done]. split; [done|].
  intros [?|Hge]%(ev_receipts _ _ He); [done|]. pose proof (b_pending _ Hb _ Hc) as Hlt. cbn in Hlt. lia.
Qed.

Lemma evolves_trans v1 v2 v3 : evolves v1 v2 -> evolves v2 v3 -> evolves v1 v3.
Proof.
  intros H12 H23 Hb. specialize (H12 Hb). pose proof (ev_bounded _ _ H12) as Hb2. specialize (H23 Hb2).
  pose proof (ev_fresh _ _ H12). pose proof (ev_cells _ _ H12). pose proof (ev_cells _ _ H23).
  split.
  - apply (ev_bounded _ _ H23).
  - pose proof (ev_fresh _ _ H23). lia.
  - intros p [Hp|?]%(ev_pending _ _ H23); [|right; lia]. by apply (ev_pending _ _ H12).
  - intros p Hp. destruct (ev_kept _ _ H12 _ Hp) as [Hp2|?]; [|by right].
    destruct (ev_kept _ _ H23 _ Hp2) as [?|[?|?]%(ev_receipts _ _ H12)]; [by left|by right|].
    pose proof (b_pending _ Hb _ Hp). lia.
  - intros p Hp. by apply (ev_queue _ _ H12), (ev_queue _ _ H23).
  - intros r [Hr|?]%(ev_receipts _ _ H23); [|right; lia]. by apply (ev_receipts _ _ H12).
  - lia.
  - intros ev c [Hc|?]%(ev_sub _ _ H23); [|right; lia]. by apply (ev_sub _ _ H12).
  - intros [Hs|?]%(ev_guards _ _ H23); [|by right]. destruct (ev_guards _ _ H12 Hs) as [?|[Hg1 Hg2]]; [by left|right].
    split; by eapply guard_kept.
  - destruct (ev_log _ _ H12) as (l1 & Hl1 & Hr1 & Hs1), (ev_log _ _ H23) as (l2 & Hl2 & Hr2 & Hs2).
    exists (l1 ++ l2). rewrite Hl2, Hl1, app_assoc. split; [done|]. split.
    + intros h [?|Hh]%elem_of_app; [by apply Hr1|]. apply Hr2 in Hh. unfold queue_ids in *.
      apply list_elem_of_fmap in Hh as (p & -> & Hp). apply list_elem_of_fmap. exists p. split; [done|]. by apply (ev_queue _ _ H12).
    + intros h [?|Hh]%elem_of_app; [by apply Hs1|]. destruct (Hs2 _ Hh) as [[ev Hev]|?]; [|right; lia].
      destruct (ev_sub _ _ H12 _ _ Hev); [left; by eexists|by right].
Qed.

(** ** Closures *)

(** A change of the hooks of subtransactions alone. *)
Lemma evolves_sub v s r :
  (length (sub_cells (sub v)) <= length (sub_cells s))%nat ->
  (forall ev c, c ∈ sub_hooks_of s ev -> c ∈ sub_hooks_of (sub v) ev \/ (length (sub_cells (sub v)) <= c)%nat) ->
  (is_Some (SUB_HOOKS s) -> is_Some (SUB_HOOKS (sub v)) \/ guards v) ->
  evolves v (set_sub_receipts r (set_sub s v)).
Proof.
  intros Hc Hh Hg [Hp Hq Hr]. split; try done; try (intros; by left).
  exists []. cbn. rewrite app_nil_r. split; [done|]. split; intros h Hin; by apply elem_of_nil in Hin.
Qed.

Lemma evolves_say v x : (forall h, x <> Ran h) -> (forall h, x = RanSub h -> exists ev, h ∈ sub_hooks_of (sub v) ev) -> evolves v (say x v).
Proof.
  intros Hx Hs [Hp Hq Hr]. split; try done; try (intros; by left).
  exists [x]. split; [done|]. split; intros h Hin%list_elem_of_singleton; [by destruct (Hx h)|]. left. by apply Hs.
Qed.

Lemma evolves_register v ev f keep : evolves v (register_xact_callback ev f keep v).
Proof.
  intros [Hp Hq Hr]. unfold register_xact_callback; cbn [register pending_registry].
  assert (Hrec : forall r, r ∈ (if keep then {[fresh (xact v)]} ∪ receipts v else receipts v) -> r ∈ receipts v \/ r = fresh (xact v)).
  { destruct keep; set_solver. }
  split; cbn [xact set_receipts set_xact pending queue fresh receipts sub]; try done; try (intros; by left).
  - split; cbn [xact set_receipts set_xact pending queue fresh receipts].
    + intros p [Hin|Hin%list_elem_of_singleton]%elem_of_app; [|subst; cbn; lia]. specialize (Hp _ Hin). lia.
    + intros p Hin. specialize (Hq _ Hin). lia.
    + intros r [Hin| ->]%Hrec; [|lia]. specialize (Hr _ Hin). lia.
  - lia.
  - intros p [Hin|Hin%list_elem_of_singleton]%elem_of_app; [by left|right; subst; cbn; lia].
  - intros p Hin. left. apply elem_of_app. by left.
  - intros r [Hin| ->]%Hrec; [by left|right; lia].
  - exists []. cbn. rewrite app_nil_r. split; [done|]. split; intros h Hin; by apply elem_of_nil in Hin.
Qed.

Lemma evolves_unregister v r : evolves v (unregister_callback r v).
Proof.
  unfold unregister_callback. case_decide as Hin; [|apply evolves_refl]. intros [Hp Hq Hr].
  split; cbn [xact set_receipts set_xact pending queue fresh receipts sub unregister pending_registry]; try done; try (intros; by left).
  - split; cbn [xact set_receipts set_xact pending queue fresh receipts unregister pending_registry].
    + intros p [_ Hx]%list_elem_of_filter. by apply Hp.
    + intros p [_ Hx]%list_elem_of_filter. by apply Hq.
    + intros r' Hx. apply Hr. set_solver.
  - intros p [_ Hx]%list_elem_of_filter. by left.
  - intros p Hx. destruct (decide (p.1.1 = r)) as [<-|]; [by right|left]. by apply list_elem_of_filter.
  - intros p [_ Hx]%list_elem_of_filter. done.
  - intros r' Hx. left. set_solver.
  - exists []. cbn. rewrite app_nil_r. split; [done|]. split; intros h Hx; by apply elem_of_nil in Hx.
Qed.

Lemma evolves_set_sub v s :
  (length (sub_cells (sub v)) <= length (sub_cells s))%nat ->
  (forall ev c, c ∈ sub_hooks_of s ev -> c ∈ sub_hooks_of (sub v) ev \/ (length (sub_cells (sub v)) <= c)%nat) ->
  (is_Some (SUB_HOOKS s) -> is_Some (SUB_HOOKS (sub v)) \/ guards v) ->
  evolves v (set_sub s v).
Proof. intros Hc Hh Hg. by apply (evolves_sub v s (sub_receipts v)). Qed.

Lemma empty_sub_hooks s ev : default ∅ (SUB_HOOKS s) = ∅ -> sub_hooks_of s ev = [].
Proof. intros Hs. unfold sub_hooks_of. by rewrite Hs, lookup_empty. Qed.

Lemma evolves_initialize v : evolves v (maybe_initialize_sub v).
Proof.
  unfold maybe_initialize_sub. destruct (SUB_HOOKS (sub v)) eqn:Hs; [apply evolves_refl|]. intros Hb.
  set (v1 := register_xact_callback Abort_ [TakeSubHooks] false (register_xact_callback Commit [TakeSubHooks] false v)).
  assert (H1 : evolves v v1) by (eapply evolves_trans; apply evolves_register).
  set (s := re_register (set_SUB_HOOKS (Some ∅) (sub v))).
  assert (Hg : guards v1).
  { split; [exists (fresh (xact v))|exists (fresh (xact v) + 1)%nat].
    all: split; [cbn; rewrite ?elem_of_app, ?list_elem_of_singleton; by eauto|].
    all: intros Hr; pose proof (b_receipts _ Hb _ Hr); lia. }
  apply (evolves_trans v v1 (set_sub s v1)); [done| |done]. apply evolves_set_sub; [done| |by right].
  intros ev c Hc. rewrite empty_sub_hooks in Hc by done. by apply elem_of_nil in Hc.
Qed.

Lemma sub_hooks_of_push ev f s ev' :
  sub_hooks_of (push_sub ev f s).2 ev' = sub_hooks_of s ev' ++ (if decide (ev = ev') then [length (sub_cells s)] else []).
Proof.
  unfold push_sub, sub_hooks_of. cbn [SUB_HOOKS snd default from_option]. unfold id.
  destruct (decide (ev = ev')) as [->|Hne]; [by rewrite lookup_insert_eq|]. by rewrite lookup_insert_ne, app_nil_r.
Qed.

Lemma evolves_exec_cmd subids c v : outcome_all (evolves v) (exec_cmd subids c v).
Proof.
  destruct c as [x|m|ev f|r|ev f|r|]; cbn [exec_cmd outcome_all].
  - by apply evolves_say.
  - apply evolves_refl.
  - apply evolves_register.
  - apply evolves_unregister.
  - unfold register_subxact_callback. destruct (borrowed (sub v)); [done|].
    set (v1 := maybe_initialize_sub v). pose proof (sub_hooks_of_push ev f (sub v1)) as Hpush.
    destruct (push_sub ev f (sub v1)) as [r s] eqn:Hs. cbn [snd] in Hpush. cbn [outcome_all].
    assert (Hlen : length (sub_cells s) = S (length (sub_cells (sub v1)))).
    { unfold push_sub in Hs. simplify_eq. cbn. rewrite length_app. cbn. lia. }
    eapply evolves_trans; [apply evolves_initialize|]. fold v1. apply evolves_sub; [lia| |].
    + intros ev' c Hc. rewrite Hpush in Hc. apply elem_of_app in Hc as [?|Hc]; [by left|right].
      case_decide; [|by apply elem_of_nil in Hc]. apply list_elem_of_singleton in Hc. lia.
    + intros _. left. unfold v1, maybe_initialize_sub. destruct (SUB_HOOKS (sub v)) eqn:E; [by rewrite E|done].
  - unfold unregister_sub_callback. case_decide; [|apply evolves_refl].
    cbn [sub set_sub_receipts]. case_decide; cbn [outcome_all].
    + apply (evolves_sub v (sub v)); [done|by left..].
    + apply (evolves_sub v (clear_sub_cell r (sub v))); [|by left..]. cbn. by rewrite length_insert.
  - apply evolves_set_sub; [done| |by intros []].
    intros ev c Hc. rewrite empty_sub_hooks in Hc by done. by apply elem_of_nil in Hc.
Qed.

Lemma evolves_then v o (k : world pending_state -> outcome pending_state) :
  outcome_all (evolves v) o -> (forall v', outcome_all (evolves v') (k v')) -> outcome_all (evolves v) (then_ o k).
Proof.
  intros Ho Hk. destruct o as [v'|m v'|]; cbn [then_]; [|done..]. specialize (Hk v'). cbn in Ho.
  destruct (k v'); cbn in *; [by eapply evolves_trans..|done].
Qed.

Lemma evolves_exec subids f v : outcome_all (evolves v) (exec subids f v).
Proof.
  revert v. induction f as [|c f IH]; intros v; cbn [exec]; [apply evolves_refl|].
  apply evolves_then; [apply evolves_exec_cmd|done].
Qed.

Lemma evolves_borrow v b : evolves v (set_sub (set_borrowed b (sub v)) v).
Proof. apply evolves_set_sub; [done|by left..]. Qed.

Lemma evolves_release v o : outcome_all (evolves v) o -> outcome_all (evolves v) (release o).
Proof. destruct o as [v'|m v'|]; cbn; [| |done]; intros Hv; (eapply evolves_trans; [exact Hv|apply evolves_borrow]). Qed.

(** A hook that starts to run was there when the event came. *)
Lemma evolves_ran v0 v x :
  evolves v0 v -> (forall h, x = Ran h -> h ∈ queue_ids (xact v0)) ->
  (forall h, x = RanSub h -> exists ev, h ∈ sub_hooks_of (sub v0) ev) -> evolves v0 (say x v).
Proof.
  intros He Hx Hs Hb. destruct (He Hb) as [[Hp Hq Hr] Hf Hpe Hk Hqu Hre Hc Hsu Hg (l & Hl & H1 & H2)].
  split; try done. exists (l ++ [x]). cbn [log say]. rewrite Hl, app_assoc. split; [done|]. split.
  - intros h [?|Hh%list_elem_of_singleton]%elem_of_app; [by apply H1|by apply Hx].
  - intros h [?|Hh%list_elem_of_singleton]%elem_of_app; [by apply H2|left; by apply Hs].
Qed.

Lemma evolves_via v0 v o : evolves v0 v -> outcome_all (evolves v) o -> outcome_all (evolves v0) o.
Proof. intros H0. destruct o; cbn; [by apply evolves_trans..|done]. Qed.

Lemma evolves_run_sub subids hooks v0 v :
  evolves v0 v -> (forall h, h ∈ hooks -> exists ev, h ∈ sub_hooks_of (sub v0) ev) ->
  outcome_all (evolves v0) (run_sub_hooks subids hooks v).
Proof.
  revert v. induction hooks as [|h hooks IH]; intros v H0 Hh; cbn [run_sub_hooks]; [done|].
  assert (Hone : outcome_all (evolves v0) match sub_cells (sub v) !! h with
      | Some (Some f) => release (exec (Some subids) f (say (RanSub h) (set_sub (set_borrowed (Some h) (sub v)) v)))
      | _ => Done v end).
  { destruct (sub_cells (sub v) !! h) as [[f|]|]; [|done..]. apply evolves_release.
    eapply evolves_via; [|apply evolves_exec]. apply evolves_ran; [|done|].
    - eapply evolves_trans; [exact H0|apply evolves_borrow].
    - intros h' [= <-]. apply Hh. by left. }
  destruct (match sub_cells (sub v) !! h with Some (Some _) => _ | _ => _ end) as [v'|m v'|]; cbn [then_]; [|done..].
  apply IH; [done|]. intros h' Hin. apply Hh. by right.
Qed.

Lemma evolves_sub_event ev my parent v : outcome_all (evolves v) (CallSubXactCallbacks ev my parent v).
Proof.
  unfold CallSubXactCallbacks. generalize (sub_registered (sub v)) as n. intros n. revert v.
  induction n as [|n IH]; intros v; cbn [repeatedly]; [apply evolves_refl|]. apply evolves_then; [|done].
  unfold sub_callback. destruct (translate_sub_pg_event ev) as [e|]; [|apply evolves_refl].
  destruct (SUB_HOOKS (sub v) ≫= lookup e) as [hooks|] eqn:Hl; [|apply evolves_refl].
  apply evolves_run_sub; [apply evolves_refl|]. intros h Hh. exists e. unfold sub_hooks_of.
  destruct (SUB_HOOKS (sub v)) as [m|]; [|done]. cbn in Hl |- *. by rewrite Hl.
Qed.

(** ** Events *)

Lemma evolves_queue v q : (forall p, p ∈ q -> p ∈ queue (xact v)) -> evolves v (set_xact (set_queue q (xact v)) v).
Proof.
  intros Hq [Hp Hqu Hr]. split; try done; try (intros; by left); [by split; cbn; auto|].
  exists []. cbn. rewrite app_nil_r. split; [done|]. split; intros h Hx; by apply elem_of_nil in Hx.
Qed.

Lemma evolves_pop v r f q : queue (xact v) = (r, f) :: q -> evolves v (say (Ran r) (set_xact (set_queue q (xact v)) v)).
Proof.
  intros Hq. apply evolves_ran; [|intros h [= <-]|done].
  - apply evolves_queue. intros p Hp. rewrite Hq. by right.
  - unfold queue_ids. rewrite Hq. by left.
Qed.

Lemma evolves_run_due n v : outcome_all (evolves v) (run_due n v).
Proof.
  revert v. induction n as [|n IH]; intros v; cbn [run_due]; [apply evolves_refl|].
  destruct (queue (xact v)) as [|[r f] q] eqn:Hq; [apply evolves_refl|].
  set (v1 := say (Ran r) (set_xact (set_queue q (xact v)) v)).
  pose proof (evolves_via v v1 _ (evolves_pop _ _ _ _ Hq) (evolves_exec None f v1)) as H1.
  destruct (exec None f v1) as [v'|m v'|]; [|..|done].
  - eapply evolves_via; [exact H1|apply IH].
  - eapply evolves_trans; [exact H1|]. apply evolves_queue. intros p Hp. by apply elem_of_nil in Hp.
Qed.

(** A hook that is due and has no receipt stays until its turn. *)
Definition keeps (p : nat * closure) (v : world pending_state) : Prop :=
  p ∈ queue (xact v) /\ p.1 ∉ receipts v /\ (p.1 < fresh (xact v))%nat.

Lemma keeps_exec p subids f v : keeps p v -> outcome_all (keeps p) (exec subids f v).
Proof.
  assert (Hreg : forall ev g k v, keeps p v -> keeps p (register_xact_callback ev g k v)).
  { intros ev g k v1 (Hq & Hr & Hf). split; [done|]. cbn. split; [|lia].
    destruct k; [|done]. rewrite elem_of_union, elem_of_singleton. intros [Heq|?]; [lia|done]. }
  assert (Hcmd : forall c v, keeps p v -> outcome_all (keeps p) (exec_cmd subids c v)).
  { intros c v1 Hk. destruct c as [x|m|ev g|r|ev g|r|]; cbn [exec_cmd outcome_all]; try done; [by apply Hreg|..].
    - destruct Hk as (Hq & Hr & Hf). unfold unregister_callback. case_decide as Hin; [|done].
      split; [|split; [set_solver|done]]. cbn. apply list_elem_of_filter. split; [|done]. intros Heq. apply Hr. by rewrite Heq.
    - unfold register_subxact_callback. destruct (borrowed (sub v1)); [done|].
      destruct (push_sub _ _ _) as [r s]. change (keeps p (maybe_initialize_sub v1)).
      unfold maybe_initialize_sub. destruct (SUB_HOOKS (sub v1)); [done|]. by apply Hreg, Hreg.
    - unfold unregister_sub_callback. case_decide; [|done]. by case_decide. }
  revert v. induction f as [|c f IH]; intros v Hk; cbn [exec]; [done|].
  specialize (Hcmd c v Hk). destruct (exec_cmd subids c v) as [v'|m v'|]; cbn [then_]; [by apply IH|done..].
Qed.

(** The hooks of subtransactions that are left are new, and will be cleared. *)
Definition sub_new (n : nat) (v : world pending_state) : Prop :=
  (n <= length (sub_cells (sub v)))%nat /\ forall ev c, c ∈ sub_hooks_of (sub v) ev -> (n <= c)%nat.
Definition guarded (v : world pending_state) : Prop := is_Some (SUB_HOOKS (sub v)) -> guards v.

Lemma guarded_evolves v v' : bounded v -> evolution v v' -> guarded v -> guarded v'.
Proof.
  intros Hb He Hg Hs. destruct (ev_guards _ _ He Hs) as [Hs'|?]; [|done]. destruct (Hg Hs'). split; by eapply guard_kept.
Qed.

Lemma sub_new_evolves n v v' : evolution v v' -> sub_new n v -> sub_new n v'.
Proof.
  intros He [Hl Hn]. pose proof (ev_cells _ _ He). split; [lia|]. intros ev c [Hc|?]%(ev_sub _ _ He); [by eapply Hn|lia].
Qed.

(** Going over the hooks of [Commit] or [Abort]. *)
Lemma run_due_clears n k v v' :
  bounded v -> (n <= length (sub_cells (sub v)))%nat -> (length (queue (xact v)) <= k)%nat ->
  (exists c, keeps (c, [TakeSubHooks]) v) \/ (guarded v /\ sub_new n v) ->
  run_due k v = Done v' -> guarded v' /\ sub_new n v' /\ queue (xact v') = [].
Proof.
  revert v. induction k as [|k IH]; intros v Hb Hn Hk Hor Hrun; cbn [run_due] in Hrun.
  { simplify_eq. destruct (queue (xact v')) as [|p q] eqn:Hq; [|cbn in Hk; lia].
    destruct Hor as [(c & Hc & _)|[? ?]]; [|done]. rewrite Hq in Hc. by apply elem_of_nil in Hc. }
  destruct (queue (xact v)) as [|[r f] q] eqn:Hq.
  { simplify_eq. destruct Hor as [(c & Hc & _)|[? ?]]; [|done]. rewrite Hq in Hc. by apply elem_of_nil in Hc. }
  set (v1 := say (Ran r) (set_xact (set_queue q (xact v)) v)) in *.
  pose proof (evolves_pop _ _ _ _ Hq Hb) as He1. fold v1 in He1. pose proof (ev_bounded _ _ He1) as Hb1.
  pose proof (evolves_exec None f v1) as He2. pose proof (exec_queue None f v1) as Hlen.
  pose proof (fun c => keeps_exec (c, [TakeSubHooks]) None f v1) as Hkeep.
  destruct (exec None f v1) as [v2|m v2|] eqn:Hx; [|done..]. cbn [outcome_all] in *. specialize (He2 Hb1).
  apply (IH v2); [apply He2| | |clear IH Hrun|done].
  - pose proof (ev_cells _ _ He2). cbn in *. lia.
  - cbn in *. lia.
  - destruct Hor as [(c & Hc & Hr & Hf)|[Hg Hs]].
    + rewrite Hq in Hc. apply elem_of_cons in Hc as [Hc|Hc]; [|left; exists c; by apply Hkeep].
      simplify_eq. right. cbn in Hx. injection Hx as <-. split; [by intros []|]. split; [done|].
      intros ev c' Hc'. rewrite empty_sub_hooks in Hc' by done. by apply elem_of_nil in Hc'.
    + right. split; [eapply guarded_evolves; [exact Hb1|exact He2|exact Hg]|].
      by eapply sub_new_evolves; [exact He2|].
Qed.

Lemma due_elem ev ps c f : (c, f) ∈ due ev ps <-> (c, ev, f) ∈ ps.
Proof.
  unfold due. rewrite list_elem_of_omap. split.
  - intros ([[a b] g] & Hin & Hd). case_decide; by simplify_eq.
  - intros Hin. exists (c, ev, f). split; [done|]. by rewrite decide_True.
Qed.

Lemma bounded_begin e v : bounded v -> bounded (set_xact (begin_event e (xact v)) v).
Proof.
  intros [Hp Hq Hr]. split; cbn [xact set_xact begin_event pending queue fresh receipts]; [|intros [c f] Hin%due_elem; apply (Hp _ Hin)|done].
  destruct (ends e); [intros p Hin; by apply elem_of_nil in Hin|]. intros p [_ Hin]%list_elem_of_filter. by apply Hp.
Qed.

Lemma guarded_begin e v : ends e = false -> guarded v -> guarded (set_xact (begin_event e (xact v)) v).
Proof.
  intros He Hg Hs. destruct (Hg Hs) as [(c & Hc & Hr) (d & Hd & Hr')].
  split; [exists c|exists d]; (split; [|done]); cbn [xact set_xact begin_event pending]; rewrite He;
    apply list_elem_of_filter; (split; [|done]); by destruct e.
Qed.

Definition parallel_end (s : step) : bool := match s with Event ev => (ev =? 1)%Z || (ev =? 3)%Z | _ => false end.

Lemma evolution_say v v' m : bounded v -> evolution v v' -> evolution v (say (Failed m) v').
Proof. intros Hb He. by apply (evolves_trans v v' (say (Failed m) v')); [intros _|apply evolves_say|]. Qed.

Lemma report_ends ev e v v' :
  translate_pg_event ev = Some e -> e = Commit \/ e = Abort_ -> bounded v -> guarded v -> report ev v = Done v' ->
  bounded v' /\ guarded v' /\ sub_new (length (sub_cells (sub v))) v' /\ queue (xact v') = [].
Proof.
  intros He Hend Hb Hg Hrun. unfold report in Hrun. rewrite He in Hrun.
  pose proof (bounded_begin e v Hb) as Hb1. set (v1 := set_xact (begin_event e (xact v)) v) in *.
  pose proof (evolves_run_due (length (due e (pending (xact v)))) v1) as Hev. rewrite Hrun in Hev. cbn in Hev.
  split; [apply (Hev Hb1)|]. eapply run_due_clears; [exact Hb1|done|done| |exact Hrun].
  destruct (SUB_HOOKS (sub v)) as [h|] eqn:Hs.
  - left. destruct (Hg ltac:(by rewrite Hs)) as [Hc Ha].
    assert (guard e v) as (c & Hin & Hr) by (by destruct Hend as [->| ->]).
    exists c. split; [by apply due_elem|]. split; [done|]. apply (b_pending _ Hb _ Hin).
  - right. assert (Hnone : default ∅ (SUB_HOOKS (sub v1)) = ∅) by (cbn; by rewrite Hs).
    split; [intros Hsome; cbn in Hsome; rewrite Hs in Hsome; by destruct Hsome|]. split; [done|].
    intros ev' c Hc. rewrite empty_sub_hooks in Hc by done. by apply elem_of_nil in Hc.
Qed.

Lemma guarded_step s v v' :
  known_step s = true -> parallel_end s = false -> bounded v -> guarded v -> backend_step report s v = Done v' ->
  bounded v' /\ guarded v'.
Proof.
  intros Hk Hpar Hb Hg Hrun.
  assert (Hfin : forall o, outcome_all (evolves v) o ->
    match o with Done w => Done w | Raised m w => Done (say (Failed m) w) | UB => UB end = Done v' -> bounded v' /\ guarded v').
  { intros o Ho Heq. assert (He : evolution v v').
    { destruct o as [w|m w|]; simplify_eq; cbn in Ho; [by apply Ho|]. by apply evolution_say, Ho. }
    split; [apply He|by eapply guarded_evolves]. }
  destruct s as [c|ev|ev my parent]; cbn [backend_step] in Hrun; [apply (Hfin _ (evolves_exec_cmd None c v) Hrun)|
    |apply (Hfin _ (evolves_sub_event ev my parent v) Hrun)].
  cbn in Hk, Hpar. destruct (translate_pg_event ev) as [e|] eqn:He; [|done].
  destruct (ends e) eqn:Hends.
  - assert (Hce : e = Commit \/ e = Abort_).
    { unfold translate_pg_event in He. repeat case_match; simplify_eq; cbn in Hends; try done; auto; lia. }
    unfold ends_event in Hrun. rewrite He, Hends in Hrun. destruct (report ev v) as [w|m w|] eqn:Hrep; simplify_eq.
    destruct (report_ends ev e v v' He Hce Hb Hg Hrep) as (? & ? & _). done.
  - set (v1 := set_xact (begin_event e (xact v)) v). pose proof (bounded_begin e v Hb) as Hb1.
    pose proof (guarded_begin e v Hends Hg) as Hg1. fold v1 in Hb1, Hg1.
    pose proof (evolves_run_due (length (due e (pending (xact v)))) v1) as Hev.
    unfold report, ends_event in Hrun. rewrite He, Hends in Hrun. fold v1 in Hrun.
    assert (Hevo : evolution v1 v').
    { destruct (run_due _ v1) as [w|m w|]; simplify_eq; cbn in Hev; [by apply Hev|]. by apply evolution_say, Hev. }
    split; [apply Hevo|by eapply guarded_evolves].
Qed.

Lemma guarded_backend ss v v' :
  forallb known_step ss = true -> existsb parallel_end ss = false -> bounded v -> guarded v ->
  backend report ss v = Done v' -> bounded v' /\ guarded v'.
Proof.
  revert v. induction ss as [|s ss IH]; intros v Hk Hp Hb Hg Hrun; cbn [backend] in Hrun; [by simplify_eq|].
  cbn [forallb existsb] in Hk, Hp. apply andb_true_iff in Hk as [Hk Hks]. apply orb_false_iff in Hp as [Hp Hps].
  destruct (backend_step report s v) as [v1|m v1|] eqn:Hs; [|done..].
  destruct (guarded_step s v v1 Hk Hp Hb Hg Hs) as [Hb1 Hg1]. by apply (IH v1).
Qed.

(** ** After a transaction *)

(** Since the log was [l0], only hooks numbered from [n] (of transactions) and from
    [k] (of subtransactions) have run, and only they can run. *)
Record later (n k : nat) (l0 : list entry) (v : world pending_state) : Prop := {
  lt_bounded : bounded v;
  lt_pending p : p ∈ pending (xact v) -> (n <= p.1.1)%nat;
  lt_queue p : p ∈ queue (xact v) -> (n <= p.1)%nat;
  lt_fresh : (n <= fresh (xact v))%nat;
  lt_sub : sub_new k v;
  lt_log : exists l, log v = l0 ++ l /\ (forall h, Ran h ∈ l -> n <= h)%nat /\ (forall h, RanSub h ∈ l -> k <= h)%nat;
}.

Lemma later_evolves n k l0 v v' : later n k l0 v -> evolves v v' -> later n k l0 v'.
Proof.
  intros [Hb Hp Hq Hf Hs (l & Hl & H1 & H2)] He. specialize (He Hb). pose proof (ev_fresh _ _ He). split.
  - apply He.
  - intros p [?|?]%(ev_pending _ _ He); [by apply Hp|lia].
  - intros p Hin. by apply Hq, (ev_queue _ _ He).
  - lia.
  - by eapply sub_new_evolves.
  - destruct (ev_log _ _ He) as (l' & Hl' & H1' & H2'). exists (l ++ l'). rewrite Hl', Hl, app_assoc. split; [done|]. split.
    + intros h [?|Hh]%elem_of_app; [by apply H1|]. apply H1' in Hh. unfold queue_ids in Hh.
      apply list_elem_of_fmap in Hh as (p & -> & Hin). by apply Hq.
    + intros h [?|Hh]%elem_of_app; [by apply H2|]. destruct Hs as [Hs1 Hs2].
      destruct (H2' _ Hh) as [[ev Hev]|?]; [by eapply Hs2|lia].
Qed.

Lemma later_begin n k l0 e v : later n k l0 v -> later n k l0 (set_xact (begin_event e (xact v)) v).
Proof.
  intros [Hb Hp Hq Hf Hs Hl]. split; try done; [by apply bounded_begin|..]; cbn [xact set_xact begin_event pending queue].
  - destruct (ends e); [intros p Hin; by apply elem_of_nil in Hin|]. intros p [_ Hin]%list_elem_of_filter. by apply Hp.
  - intros [c f] Hin%due_elem. apply (Hp _ Hin).
Qed.

Lemma later_outcome n k l0 v o : later n k l0 v -> outcome_all (evolves v) o -> outcome_all (later n k l0) o.
Proof. intros Hv. destruct o; cbn; [by apply later_evolves..|done]. Qed.

Lemma later_step n k l0 s v : later n k l0 v -> outcome_all (later n k l0) (backend_step report s v).
Proof.
  intros Hv. assert (Hsay : forall m w, later n k l0 w -> later n k l0 (say (Failed m) w)).
  { intros m w Hw. apply (later_evolves _ _ _ w); [done|by apply evolves_say]. }
  destruct s as [c|ev|ev my parent]; cbn [backend_step].
  - pose proof (later_outcome n k l0 v _ Hv (evolves_exec_cmd None c v)) as Ho.
    destruct (exec_cmd None c v); cbn in *; by auto.
  - assert (Ho : outcome_all (later n k l0) (report ev v)).
    { unfold report. destruct (translate_pg_event ev) as [e|]; [|done].
      eapply later_outcome; [by apply later_begin|apply evolves_run_due]. }
    destruct (report ev v); cbn in *; [done| |done]. destruct (ends_event ev); cbn; by auto.
  - pose proof (later_outcome n k l0 v _ Hv (evolves_sub_event ev my parent v)) as Ho.
    destruct (CallSubXactCallbacks ev my parent v); cbn in *; by auto.
Qed.

Lemma later_backend n k l0 ss v : later n k l0 v -> outcome_all (later n k l0) (backend report ss v).
Proof.
  revert v. induction ss as [|s ss IH]; intros v Hv; cbn [backend]; [done|].
  pose proof (later_step n k l0 s v Hv) as Ho. destruct (backend_step report s v); cbn in *; by auto.
Qed.

Lemma run_due_empties n v v' : (length (queue (xact v)) <= n)%nat -> run_due n v = Done v' -> queue (xact v') = [].
Proof.
  revert v. induction n as [|n IH]; intros v Hn Hrun; cbn [run_due] in Hrun.
  { simplify_eq. destruct (queue (xact v')); [done|cbn in Hn; lia]. }
  destruct (queue (xact v)) as [|[r f] q] eqn:Hq; [by simplify_eq|].
  pose proof (exec_queue None f (say (Ran r) (set_xact (set_queue q (xact v)) v))) as Hl.
  destruct (exec None f _) as [v2|m v2|]; [|done..]. apply (IH v2); [cbn in *; lia|done].
Qed.

Lemma later_begins ev e k v v' :
  translate_pg_event ev = Some e -> ends e = true -> bounded v -> report ev v = Done v' -> sub_new k v' ->
  later (fresh (xact v)) k (log v') v'.
Proof.
  intros He Hends Hb Hrun Hs. unfold report in Hrun. rewrite He in Hrun.
  set (v1 := set_xact (begin_event e (xact v)) v) in *. pose proof (bounded_begin e v Hb) as Hb1. fold v1 in Hb1.
  pose proof (evolves_run_due (length (due e (pending (xact v)))) v1) as Hev. rewrite Hrun in Hev. specialize (Hev Hb1).
  split; [apply Hev| | |apply Hev|done|].
  - intros p [Hp|?]%(ev_pending _ _ Hev); [|done]. cbn in Hp. rewrite Hends in Hp. by apply elem_of_nil in Hp.
  - intros p Hp. rewrite (run_due_empties _ v1 v' ltac:(done) Hrun) in Hp. by apply elem_of_nil in Hp.
  - exists []. rewrite app_nil_r. split; [done|]. split; intros h Hh; by apply elem_of_nil in Hh.
Qed.

(** What has been logged since, in either outcome. *)
Definition logged_since {S} (l0 : list entry) (P : entry -> Prop) (o : outcome S) : Prop :=
  outcome_all (fun w => exists l, log w = l0 ++ l /\ Forall P l) o.

Definition not_before (n k : nat) (x : entry) : Prop :=
  match x with Ran h => (n <= h)%nat | RanSub h => (k <= h)%nat | _ => True end.

Lemma later_logged n k l0 (o : outcome pending_state) (o' : outcome hooks_state) :
  outcome_rel [] o' o -> outcome_all (later n k l0) o -> logged_since l0 (not_before n k) o'.
Proof.
  assert (Hone : forall w v, world_rel [] w v -> later n k l0 v -> exists l, log w = l0 ++ l /\ Forall (not_before n k) l).
  { intros w v Hw [_ _ _ _ _ (l & Hl & H1 & H2)]. exists l. rewrite (wr_log _ _ _ Hw). split; [done|].
    apply list.Forall_forall. intros [x s|h|h|m] Hin; cbn; auto. }
  intros [w v Hw|m w v Hw|] Ho; cbn in *; [by eapply Hone..|done].
Qed.

Lemma new_backend_bounded : bounded (new_backend nothing_pending).
Proof. split; [intros p Hp; by apply elem_of_nil in Hp..|intros r Hr; cbn in Hr; set_solver]. Qed.

Lemma new_backend_later : later 0 0 [] (new_backend nothing_pending).
Proof.
  split; try (intros; lia); [apply new_backend_bounded|split; [|intros]; lia|].
  exists []. split; [done|]. split; intros; lia.
Qed.

(** C18. Hooks live for one transaction.  After the transaction ends (a commit or an
    abort, of the backend or of a parallel worker), no hook registered until then runs,
    whatever the extension does and whatever is reported from then on; nor, after a
    commit or an abort of the backend, does a hook of its subtransactions. *)
Theorem hooks_live_one_transaction before after ev e w1 w2 :
  forallb known_step before = true -> forallb known_step after = true ->
  backend CallXactCallbacks before (new_backend no_hooks) = Done w1 ->
  translate_pg_event ev = Some e -> ends e = true ->
  backend_step CallXactCallbacks (Event ev) w1 = Done w2 ->
  logged_since (log w2) (not_before (length (cells (xact w1))) 0) (backend CallXactCallbacks after w2)
  /\ (existsb parallel_end before = false -> e = Commit \/ e = Abort_ ->
      logged_since (log w2) (not_before (length (cells (xact w1))) (length (sub_cells (sub w1))))
        (backend CallXactCallbacks after w2)).
Proof.
  intros Hk1 Hk2 H1 He Hends H2.
  pose proof (backend_rel before _ _ Hk1 new_backend_rel) as Hr1. rewrite H1 in Hr1.
  inversion Hr1 as [? v1 Hw1 Heq Hv1| |]; subst. symmetry in Hv1.
  assert (Hk : known_step (Event ev) = true) by (cbn; by rewrite He).
  pose proof (backend_step_rel (Event ev) _ _ Hk Hw1) as Hr2. rewrite H2 in Hr2.
  inversion Hr2 as [? v2 Hw2 Heq Hv2| |]; subst. symmetry in Hv2.
  assert (Hrep : report ev v1 = Done v2).
  { cbn [backend_step] in Hv2. unfold ends_event in Hv2. rewrite He, Hends in Hv2. by destruct (report ev v1). }
  pose proof (backend_rel after _ _ Hk2 Hw2) as Hr3.
  rewrite (hr_fresh _ _ _ (wr_xact _ _ _ Hw1)), (wr_sub _ _ _ Hw1), (wr_log _ _ _ Hw2).
  assert (Hb1 : bounded v1).
  { pose proof (later_backend 0 0 [] before _ new_backend_later) as Hl. rewrite Hv1 in Hl. apply Hl. }
  split.
  - eapply later_logged; [exact Hr3|]. apply later_backend. eapply later_begins; try done.
    split; [lia|intros; lia].
  - intros Hpar Hce. destruct (guarded_backend before _ _ Hk1 Hpar new_backend_bounded ltac:(by intros []) Hv1) as [_ Hg1].
    destruct (report_ends ev e v1 v2 He Hce Hb1 Hg1 Hrep) as (_ & _ & Hs & _).
    eapply later_logged; [exact Hr3|]. apply later_backend. by eapply later_begins.
Qed.

Lemma hooks_live_one_transaction_witness :
  exists w1 w2,
    backend CallXactCallbacks [Code (RegisterXact Abort_ [Say 1]); Code (RegisterSub StartSub [Say 2]); SubEvent 0 2 1]
      (new_backend no_hooks) = Done w1
    /\ backend_step CallXactCallbacks (Event 0) w1 = Done w2
    /\ length (cells (xact w1)) = 3%nat /\ length (sub_cells (sub w1)) = 1%nat
    /\ logged_since (log w2) (not_before (length (cells (xact w1))) (length (sub_cells (sub w1))))
        (backend CallXactCallbacks [SubEvent 0 2 1; Event 2] w2).
Proof.
  eexists _, _. split; [vm_compute; reflexivity|]. split; [vm_compute; reflexivity|]. split; [reflexivity|]. split; [reflexivity|].
  eapply (hooks_live_one_transaction
    [Code (RegisterXact Abort_ [Say 1]); Code (RegisterSub StartSub [Say 2]); SubEvent 0 2 1]
    [SubEvent 0 2 1; Event 2] 0 Commit);
    [reflexivity|reflexivity|vm_compute; reflexivity|reflexivity|reflexivity|vm_compute; reflexivity|reflexivity|left; reflexivity].
Defined.

(** A transaction that is prepared ends without either event: its hooks run in the
    next transaction of the backend. *)
Example prepared_hooks_outlive :
  seen (backend CallXactCallbacks
    [Code (RegisterXact Commit [Say 1]); Code (RegisterSub StartSub [Say 2]); Event 7; Event 4;
     (* the next transaction *) SubEvent 0 2 1; Event 5; Event 0] (new_backend no_hooks))
  = Some (None, [RanSub 0; Said 2 (Some (2, 1)%Z); Ran 0; Said 1 None; Ran 1]).
Proof. vm_compute. reflexivity. Qed.

(** A hook of a subtransaction that unregisters itself fails on its own borrow. *)
Example sub_hook_unregisters_itself :
  seen (backend CallXactCallbacks [Code (RegisterSub StartSub [UnregisterSub 0]); SubEvent 0 2 1] (new_backend no_hooks))
  = Some (None, [RanSub 0; Failed "already borrowed: BorrowMutError"]).
Proof. vm_compute. reflexivity. Qed.

(** A hook registered for an event while that event is handled waits for the next one. *)
Example hook_registered_too_late :
  seen (backend CallXactCallbacks [Code (RegisterXact Commit [RegisterXact Commit [Say 1]]); Event 0; Event 5; Event 0]
    (new_backend no_hooks))
  = Some (None, [Ran 0; Ran 1; Said 1 None]).
Proof. vm_compute. reflexivity. Qed.
