(* ===== verification/FuncCall.v ===== *)
(** * Returning from functions, row by row

    How a function written in Rust returns to Postgres ([pgrx/src/callconv.rs],
    [pgrx/src/iter.rs], [pgrx/src/fcinfo.rs], the wrapper that [pg_extern] generates):
    a value, or a set whose rows Postgres asks for one call at a time, while the
    iterator waits in the memory context of the whole query.

    Iterators that are leaked to Postgres are boxes of a heap, and using one after it
    is dropped, or dropping it twice, is undefined behaviour ([Undef]). *)
From stdpp Require Import base list strings.
From S2P Require Import Prelude.
#[local] Open Scope Z_scope.

Inductive ExprDoneCond := ExprSingleResult | ExprMultipleResult | ExprEndResult.

(** [Box<dyn Iterator>]: some state and how the next item comes out of it; the code
    of the iterator may panic. *)
Record TableIterator (Row : Type) := {
  it_state : Type;
  it_next : it_state -> string + option Row * it_state;
  it_now : it_state;
}.
Arguments it_state {Row}. Arguments it_next {Row}. Arguments it_now {Row}.

Definition next {Row} (it : TableIterator Row) : string + option Row * TableIterator Row :=
  match it_next it (it_now it) with
  | inl w => inl w
  | inr (o, s) => inr (o, {| it_state := it_state it; it_next := it_next it; it_now := s |})
  end.

(** [TableIterator::new] of a [Vec]. *)
Definition new {Row} (rows : list Row) : TableIterator Row :=
  {| it_state := list Row;
     it_next := fun s => inr match s with [] => (None, []) | r :: s => (Some r, s) end;
     it_now := rows |}.

Record FuncCallContext := {
  call_cntr : Z;
  (** The box that holds the iterator. *)
  user_fctx : option nat;
  tuple_desc : option Z;
  multi_call_memory_ctx : nat;
}.

Record fcinfo (Row : Type) := {
  fn_extra : option FuncCallContext;
  isnull : bool;
  isDone : ExprDoneCond;
  CurrentMemoryContext : nat;
  boxes : list (option (TableIterator Row));
  (** What is dropped when a memory context is deleted, the newest first. *)
  reset_callbacks : list (nat * nat);
  drops : list nat;
}.
Arguments fn_extra {Row}. Arguments isnull {Row}. Arguments isDone {Row}. Arguments CurrentMemoryContext {Row}.
Arguments boxes {Row}. Arguments reset_callbacks {Row}. Arguments drops {Row}.

Inductive res (Row A : Type) := Ok (a : A) (st : fcinfo Row) | Err (w : string) (st : fcinfo Row) | Undef.
Arguments Ok {Row A}. Arguments Err {Row A}. Arguments Undef {Row A}.
Definition M (Row A : Type) : Type := fcinfo Row -> res Row A.

Declare Scope call_scope.
Delimit Scope call_scope with call.

Definition mret_ {Row A} (a : A) : M Row A := fun st => Ok a st.
Definition mbind_ {Row A B} (m : M Row A) (k : A -> M Row B) : M Row B := fun st =>
  match m st with Ok a st => k a st | Err w st => Err w st | Undef => Undef end.
Notation "x '<==' m ;; k" := (mbind_ m (fun x => k)) (at level 100, m at next level, right associativity) : call_scope.
Notation "m ';;;' k" := (mbind_ m (fun _ => k)) (at level 100, right associativity) : call_scope.
#[local] Open Scope call_scope.

Section Fields.
Context {Row : Type}.
Implicit Types (st : fcinfo Row).

Definition with_fn_extra (x : option FuncCallContext) st : fcinfo Row :=
  {| fn_extra := x; isnull := isnull st; isDone := isDone st; CurrentMemoryContext := CurrentMemoryContext st;
     boxes := boxes st; reset_callbacks := reset_callbacks st; drops := drops st |}.
Definition with_isnull (b : bool) st : fcinfo Row :=
  {| fn_extra := fn_extra st; isnull := b; isDone := isDone st; CurrentMemoryContext := CurrentMemoryContext st;
     boxes := boxes st; reset_callbacks := reset_callbacks st; drops := drops st |}.
Definition with_isDone (d : ExprDoneCond) st : fcinfo Row :=
  {| fn_extra := fn_extra st; isnull := isnull st; isDone := d; CurrentMemoryContext := CurrentMemoryContext st;
     boxes := boxes st; reset_callbacks := reset_callbacks st; drops := drops st |}.
Definition with_context (c : nat) st : fcinfo Row :=
  {| fn_extra := fn_extra st; isnull := isnull st; isDone := isDone st; CurrentMemoryContext := c;
     boxes := boxes st; reset_callbacks := reset_callbacks st; drops := drops st |}.
Definition with_boxes (bs : list (option (TableIterator Row))) st : fcinfo Row :=
  {| fn_extra := fn_extra st; isnull := isnull st; isDone := isDone st; CurrentMemoryContext := CurrentMemoryContext st;
     boxes := bs; reset_callbacks := reset_callbacks st; drops := drops st |}.
Definition with_callbacks (cbs : list (nat * nat)) st : fcinfo Row :=
  {| fn_extra := fn_extra st; isnull := isnull st; isDone := isDone st; CurrentMemoryContext := CurrentMemoryContext st;
     boxes := boxes st; reset_callbacks := cbs; drops := drops st |}.
Definition with_drops (ds : list nat) st : fcinfo Row :=
  {| fn_extra := fn_extra st; isnull := isnull st; isDone := isDone st; CurrentMemoryContext := CurrentMemoryContext st;
     boxes := boxes st; reset_callbacks := reset_callbacks st; drops := ds |}.

(** ** Memory contexts *)

Definition drop_on_delete (box : nat) : M Row unit := fun st =>
  match boxes st !! box with
  | Some (Some _) => Ok tt (with_drops (drops st ++ [box]) (with_boxes (<[box := None]> (boxes st)) st))
  | _ => Undef
  end.

Definition leak_and_drop_on_delete (ctx : nat) (it : TableIterator Row) : M Row nat := fun st =>
  let box := length (boxes st) in
  Ok box (with_callbacks ((ctx, box) :: reset_callbacks st) (with_boxes (boxes st ++ [Some it]) st)).

Definition exec_in_context {A} (context : nat) (f : M Row A) : M Row A := fun st =>
  (r <== f ;; fun st' => Ok r (with_context (CurrentMemoryContext st) st')) (with_context context st).

(** The callbacks of a context that goes away, as Postgres documents it: each once,
    the newest first. *)
Fixpoint run_callbacks (boxes : list nat) : M Row unit :=
  match boxes with [] => mret_ tt | b :: bs => drop_on_delete b ;;; run_callbacks bs end.

Definition delete_context (ctx : nat) : M Row unit := fun st =>
  run_callbacks (omap (fun '(c, b) => if decide (c = ctx) then Some b else None) (reset_callbacks st))
    (with_callbacks (filter (fun cb => cb.1 <> ctx) (reset_callbacks st)) st).

(** ** Calls *)

Definition srf_is_first_call st : bool := match fn_extra st with None => true | Some _ => false end.

(** A pointer that is not null, or undefined behaviour. *)
Definition deref_fcx : M Row FuncCallContext := fun st =>
  match fn_extra st with Some fcx => Ok fcx st | None => Undef end.

Definition set_fcx (fcx : FuncCallContext) : M Row unit := fun st => Ok tt (with_fn_extra (Some fcx) st).

Definition srf_return_next : M Row unit :=
  fcx <== deref_fcx ;;
  set_fcx {| call_cntr := (call_cntr fcx + 1) mod 2 ^ 64; user_fctx := user_fctx fcx; tuple_desc := tuple_desc fcx;
             multi_call_memory_ctx := multi_call_memory_ctx fcx |} ;;;
  fun st => Ok tt (with_isDone ExprMultipleResult st).

(** Returned datums, 0 for the null pointer. *)
Definition return_null : M Row Z := fun st => Ok 0 (with_isnull true st).
Definition return_raw_datum (d : Z) : M Row Z := fun st => Ok d (with_isnull false st).
Definition return_optional_datum (d : option Z) : M Row Z :=
  match d with Some d => return_raw_datum d | None => return_null end.
End Fields.

(** What Postgres provides for functions that return sets. *)
Class MultiFuncCall (Row : Type) := {
  init_MultiFuncCall : fcinfo Row -> fcinfo Row;
  end_MultiFuncCall : M Row unit;
  (** The row type the caller expects, when it is known to be composite. *)
  get_call_result_type : fcinfo Row -> option Z;
  heap_form_tuple : Z -> list (option Z) -> Z;
}.

(** ** [RetAbi] *)

Inductive CallCx := RestoreCx | WrappedFn (mcx : nat).

Class RetAbi (Row T : Type) := {
  Ret : Type;
  check_fcinfo_and_prepare : M Row CallCx;
  to_ret : T -> string + Ret;
  box_ret_in_fcinfo : Ret -> M Row Z;
  move_into_fcinfo_fcx : T -> M Row unit;
  fill_fcinfo_fcx : T -> M Row unit;
  ret_from_fcinfo_fcx : M Row Ret;
}.
Arguments Ret : clear implicits. Arguments Ret Row T {_}.
Arguments check_fcinfo_and_prepare {Row} T {_}. Arguments ret_from_fcinfo_fcx {Row} T {_}.
Arguments box_ret_in_fcinfo {Row} T {_}.

Definition prepare_plain {Row} : M Row CallCx := fun st => Ok (WrappedFn (CurrentMemoryContext st)) st.
Definition unimplemented {Row A} : M Row A := fun st => Err "not implemented" st.

(** *** Values *)

Class BoxRet (Row T : Type) := box_into : T -> M Row Z.

#[export] Instance box_i64 {Row} : BoxRet Row Z := return_raw_datum.
#[export] Instance box_unit {Row} : BoxRet Row unit := fun _ => return_raw_datum 0.
#[export] Instance box_option {Row T} `{BoxRet Row T} : BoxRet Row (option T) :=
  fun o => match o with Some datum => box_into datum | None => return_null end.

#[export] Instance abi_value {Row T} `{BoxRet Row T} : RetAbi Row T | 10 := {|
  Ret := T;
  check_fcinfo_and_prepare := prepare_plain;
  to_ret := inr;
  box_ret_in_fcinfo := box_into;
  move_into_fcinfo_fcx := fun _ => mret_ tt;
  fill_fcinfo_fcx := fun _ => mret_ tt;
  ret_from_fcinfo_fcx := unimplemented;
|}.

(** *** Rows of one column and of several *)

Record single (C : Type) := Single { col : C }.
Arguments Single {C}. Arguments col {C}.

#[export] Instance abi_single {Row C} `{BoxRet Row C} : RetAbi Row (single C) := {|
  Ret := C;
  check_fcinfo_and_prepare := prepare_plain;
  to_ret := fun t => inr (col t);
  box_ret_in_fcinfo := box_into;
  move_into_fcinfo_fcx := fun _ => mret_ tt;
  fill_fcinfo_fcx := fun _ => mret_ tt;
  ret_from_fcinfo_fcx := unimplemented;
|}.

(** The columns as [IntoDatum] makes them. *)
Record tuple := Tuple { columns : list (option Z) }.

Section Tuples.
Context {Row : Type} `{MultiFuncCall Row}.

Definition into_heap_tuple (t : tuple) (tupdesc : option Z) : M Row Z := fun st =>
  match tupdesc with Some d => Ok (heap_form_tuple d (columns t)) st | None => Undef end.

Definition fill_tuple_desc : M Row unit :=
  fcx <== deref_fcx ;;
  exec_in_context (multi_call_memory_ctx fcx) (fun st =>
    match get_call_result_type st with
    | Some tupdesc => set_fcx {| call_cntr := call_cntr fcx; user_fctx := user_fctx fcx; tuple_desc := Some tupdesc;
                                 multi_call_memory_ctx := multi_call_memory_ctx fcx |} st
    | None => Ok tt st
    end).

#[export] Instance abi_tuple : RetAbi Row tuple := {|
  Ret := tuple;
  check_fcinfo_and_prepare := prepare_plain;
  to_ret := inr;
  box_ret_in_fcinfo := fun t => fcx <== deref_fcx ;; into_heap_tuple t (tuple_desc fcx);
  move_into_fcinfo_fcx := fun _ => mret_ tt;
  fill_fcinfo_fcx := fun _ => fill_tuple_desc;
  ret_from_fcinfo_fcx := unimplemented;
|}.
End Tuples.

(** *** Sets *)

Inductive Step (T Item : Type) := StepDone | StepOnce (value : Item) | StepInit (iter : T) (value : Item).
Arguments StepDone {T Item}. Arguments StepOnce {T Item}. Arguments StepInit {T Item}.

Definition lift {Row A} (r : string + A) : M Row A := fun st =>
  match r with inr a => Ok a st | inl w => Err w st end.

Section Tables.
Context {Row : Type} `{MultiFuncCall Row} `{RetAbi Row Row}.

Definition srf_return_done : M Row unit :=
  _ <== deref_fcx ;; end_MultiFuncCall ;;; fun st => Ok tt (with_isDone ExprEndResult st).

Definition empty_srf : M Row Z := srf_return_done ;;; return_null.

Definition table_prepare : M Row CallCx := fun st =>
  if srf_is_first_call st then
    (fcx <== deref_fcx ;; mret_ (WrappedFn (multi_call_memory_ctx fcx))) (init_MultiFuncCall st)
  else Ok RestoreCx st.

Definition table_to_ret (it : TableIterator Row) : string + Step (TableIterator Row) Row :=
  match next it with
  | inl w => inl w
  | inr (None, _) => inr StepDone
  | inr (Some value, it) => inr (StepInit it value)
  end.

Definition table_move_into (it : TableIterator Row) : M Row unit :=
  fcx <== deref_fcx ;;
  ptr <== leak_and_drop_on_delete (multi_call_memory_ctx fcx) it ;;
  set_fcx {| call_cntr := call_cntr fcx; user_fctx := Some ptr; tuple_desc := tuple_desc fcx;
             multi_call_memory_ctx := multi_call_memory_ctx fcx |}.

(** [&mut *(user_fctx)], and the iterator is left behind it. *)
Definition table_ret_from : M Row (Step (TableIterator Row) Row) :=
  fcx <== deref_fcx ;;
  fun st =>
    match user_fctx fcx ≫= (fun ptr => it ← mjoin (boxes st !! ptr); Some (ptr, it)) with
    | None => Undef
    | Some (ptr, it) =>
        match next it with
        | inl w => Err w st
        | inr (o, it) =>
            Ok (match o with None => StepDone | Some value => StepOnce value end) (with_boxes (<[ptr := Some it]> (boxes st)) st)
        end
    end.

Definition table_box_ret (ret : Step (TableIterator Row) Row) : M Row Z :=
  let finish value :=
    srf_return_next ;;; r <== lift (to_ret value) ;; box_ret_in_fcinfo Row r in
  match ret with
  | StepDone => empty_srf
  | StepOnce value => finish value
  | StepInit iter value => table_move_into iter ;;; fill_fcinfo_fcx value ;;; finish value
  end.

#[export] Instance abi_table : RetAbi Row (TableIterator Row) := {|
  Ret := Step (TableIterator Row) Row;
  check_fcinfo_and_prepare := table_prepare;
  to_ret := table_to_ret;
  box_ret_in_fcinfo := table_box_ret;
  move_into_fcinfo_fcx := table_move_into;
  fill_fcinfo_fcx := fun _ => mret_ tt;
  ret_from_fcinfo_fcx := table_ret_from;
|}.
End Tables.

(** [SetOfIterator], a table of one column. *)
Record SetOfIterator (T : Type) := SetOf { table : TableIterator (single T) }.
Arguments SetOf {T}. Arguments table {T}.

Section Sets.
Context {T : Type} `{MultiFuncCall (single T)} `{BoxRet (single T) T}.

Definition setof_to_ret (it : SetOfIterator T) : string + Step (SetOfIterator T) T :=
  match next (table it) with
  | inl w => inl w
  | inr (None, _) => inr StepDone
  | inr (Some value, it) => inr (StepInit (SetOf it) (col value))
  end.

Definition setof_box_ret (ret : Step (SetOfIterator T) T) : M (single T) Z :=
  table_box_ret match ret with
    | StepDone => StepDone
    | StepOnce value => StepOnce (Single value)
    | StepInit iter value => StepInit (table iter) (Single value)
    end.

Definition setof_ret_from : M (single T) (Step (SetOfIterator T) T) :=
  step <== table_ret_from ;;
  mret_ match step with
    | StepDone => StepDone
    | StepOnce item => StepOnce (col item)
    | StepInit iter value => StepInit (SetOf iter) (col value)
    end.

#[export] Instance abi_setof : RetAbi (single T) (SetOfIterator T) := {|
  Ret := Step (SetOfIterator T) T;
  check_fcinfo_and_prepare := table_prepare;
  to_ret := setof_to_ret;
  box_ret_in_fcinfo := setof_box_ret;
  move_into_fcinfo_fcx := fun it => table_move_into (table it);
  fill_fcinfo_fcx := fun _ => mret_ tt;
  ret_from_fcinfo_fcx := setof_ret_from;
|}.
End Sets.

(** *** Results *)

#[export] Instance abi_result {Row T} `{RetAbi Row T} : RetAbi Row (string + T) := {|
  Ret := Ret Row T;
  check_fcinfo_and_prepare := check_fcinfo_and_prepare T;
  to_ret := fun r => match r with inl err => inl err | inr value => to_ret value end;
  box_ret_in_fcinfo := box_ret_in_fcinfo T;
  move_into_fcinfo_fcx := fun r => match r with inr value => move_into_fcinfo_fcx value | inl _ => mret_ tt end;
  fill_fcinfo_fcx := fun r => match r with inr value => fill_fcinfo_fcx value | inl _ => mret_ tt end;
  ret_from_fcinfo_fcx := ret_from_fcinfo_fcx T;
|}.

(** ** The wrapper of a [pg_extern] function *)

(** [func] is the function with its arguments fetched, in a memory context; it may
    panic. *)
Definition internal_wrapper {Row T} `{RetAbi Row T} (func : nat -> string + T) : M Row Z :=
  call_flow <== check_fcinfo_and_prepare T ;;
  result <== match call_flow with
             | WrappedFn mcx =>
                 call_result <== exec_in_context mcx (lift (func mcx)) ;;
                 lift (to_ret call_result)
             | RestoreCx => ret_from_fcinfo_fcx T
             end ;;
  box_ret_in_fcinfo T result.

(** ** The caller *)

(** One call, as the executor makes it. *)
Definition invoke {Row T} `{RetAbi Row T} (func : nat -> string + T) : M Row Z := fun st =>
  internal_wrapper func (with_isnull false (with_isDone ExprSingleResult st)).

(** Calls until the function says that it is done; a row is its datum, or nothing for
    a null. *)
Fixpoint execute {Row T} `{RetAbi Row T} (func : nat -> string + T) (fuel : nat) : M Row (list (option Z)) := fun st =>
  match fuel with
  | O => Err "more rows" st
  | S fuel =>
      (datum <== invoke func ;;
       fun st =>
         let row := if isnull st then None else Some datum in
         match isDone st with
         | ExprMultipleResult => (rows <== execute func fuel ;; mret_ (row :: rows)) st
         | ExprSingleResult => Ok [row] st
         | ExprEndResult => Ok [] st
         end) st
  end.

(** The query goes away, with the contexts of the functions it called. *)
Definition shutdown {Row} : M Row unit := fun st =>
  match fn_extra st with
  | Some fcx => delete_context (multi_call_memory_ctx fcx) (with_fn_extra None st)
  | None => Ok tt st
  end.

(** Calls and ends of queries in some order; after an error, the query ends. *)
Inductive event := Invoke | Shutdown.

Definition handle {Row T} `{RetAbi Row T} (func : nat -> string + T) (ev : event) : M Row unit := fun st =>
  match ev with
  | Shutdown => shutdown st
  | Invoke => match invoke func st with Ok _ st => Ok tt st | Err _ st => shutdown st | Undef => Undef end
  end.

Fixpoint handle_all {Row T} `{RetAbi Row T} (func : nat -> string + T) (evs : list event) : M Row unit :=
  match evs with [] => mret_ tt | ev :: evs => handle func ev ;;; handle_all func evs end.

Definition new_call {Row} (ctx : nat) : fcinfo Row :=
  {| fn_extra := None; isnull := false; isDone := ExprSingleResult; CurrentMemoryContext := ctx; boxes := [];
     reset_callbacks := []; drops := [] |}.
