(* ===== verification/FuncCallSafe.v ===== *)
(** * Sets are returned row by row, and iterators are dropped once

    What the code of [FuncCall] makes of the calls of an executor, for any iterator
    and any kind of row. *)
From stdpp Require Import base list strings.
From S2P Require Import Prelude FuncCall.
#[local] Open Scope Z_scope.
#[local] Open Scope call_scope.

(** What Postgres documents of [init_MultiFuncCall] and [end_MultiFuncCall]: a new
    context for the calls, and its end. *)
Class MultiFuncCallLaws (Row : Type) `{MultiFuncCall Row} : Prop := {
  init_spec st : fn_extra st = None ->
    exists ctx, init_MultiFuncCall st
      = with_fn_extra (Some {| call_cntr := 0; user_fctx := None; tuple_desc := None; multi_call_memory_ctx := ctx |}) st;
  end_spec st fcx : fn_extra st = Some fcx ->
    end_MultiFuncCall st = delete_context (multi_call_memory_ctx fcx) (with_fn_extra None st);
}.

(** What a kind of row promises: its datum, in a context that [fill_fcinfo_fcx] made
    ready. *)
Class RowLaws (Row : Type) `{RetAbi Row Row} := {
  row_datum : Row -> option Z;
  ready : option Z -> Prop;
  row_box r : exists x, to_ret r = inr x /\ forall st fcx, fn_extra st = Some fcx -> ready (tuple_desc fcx) -> isnull st = false ->
    box_ret_in_fcinfo Row x st
    = match row_datum r with Some d => Ok d st | None => Ok 0 (with_isnull true st) end;
  row_fill r st fcx : fn_extra st = Some fcx -> exists td, ready td /\
    fill_fcinfo_fcx r st
    = Ok tt (with_fn_extra (Some {| call_cntr := call_cntr fcx; user_fctx := user_fctx fcx; tuple_desc := td;
                                    multi_call_memory_ctx := multi_call_memory_ctx fcx |}) st);
}.

Section Rows.
Context {Row : Type}.
Implicit Types (st : fcinfo Row).

Lemma with_isnull_same st : with_isnull (isnull st) st = st.
Proof. by destruct st. Qed.
Lemma with_fn_extra_same st x : fn_extra st = x -> with_fn_extra x st = st.
Proof. by intros <-; destruct st. Qed.
End Rows.

(** Boxed values. *)
Class BoxLaws (Row C : Type) `{BoxRet Row C} := {
  datum_of : C -> option Z;
  box_into_spec c st : box_into c st = match datum_of c with Some d => Ok d (with_isnull false st) | None => Ok 0 (with_isnull true st) end;
}.

#[export] Instance box_i64_laws {Row} : BoxLaws Row Z.
Proof. by refine {| datum_of := Some |}. Defined.
#[export] Instance box_option_laws {Row C} `{BoxLaws Row C} : BoxLaws Row (option C).
Proof. refine {| datum_of := fun o : option C => o ≫= datum_of |}. intros [c|] st; [exact (box_into_spec c st)|done]. Defined.

#[export] Instance single_laws {C} `{BoxLaws (single C) C} : RowLaws (single C).
Proof.
  refine {| row_datum := fun r : single C => datum_of (col r); ready := fun _ => True |}.
  - intros r. exists (col r). split; [done|]. intros st fcx _ _ Hn. cbn. rewrite box_into_spec.
    destruct (datum_of (col r)); [|done]. f_equal. by rewrite <- Hn, with_isnull_same.
  - intros r st fcx Hf. exists (tuple_desc fcx). split; [done|]. cbn. unfold mret_. f_equal.
    symmetry. apply with_fn_extra_same. rewrite Hf. by destruct fcx.
Defined.

(** Tuples, where Postgres knows the row type. *)
Definition tuple_laws `{MultiFuncCall tuple} (d : Z) (Hd : forall st, get_call_result_type st = Some d) : RowLaws tuple.
Proof.
  refine {| row_datum := fun r : tuple => Some (heap_form_tuple d (columns r)); ready := fun td => td = Some d |}.
  - intros r. exists r. split; [done|]. intros st fcx Hf Hr _. cbn. unfold mbind_, deref_fcx. rewrite Hf.
    by unfold into_heap_tuple; rewrite Hr.
  - intros r st fcx Hf. exists (Some d). split; [done|]. cbn. unfold fill_tuple_desc, mbind_, deref_fcx at 1. rewrite Hf.
    unfold exec_in_context, mbind_. rewrite Hd. unfold set_fcx. cbn. by destruct st.
Defined.

(** ** States between calls *)

Section Sets.
Context {Row : Type} `{MultiFuncCall Row} `{RetAbi Row Row}.
Implicit Types (st : fcinfo Row) (it : TableIterator Row).

(** [k] iterators have been leaked and dropped. *)
Record idle (k : nat) st : Prop := {
  idle_extra : fn_extra st = None;
  idle_boxes : boxes st = replicate k None;
  idle_callbacks : reset_callbacks st = [];
  idle_drops : drops st = seq 0 k;
}.

(** The call is prepared and there is no iterator yet. *)
Record started (k : nat) (fcx : FuncCallContext) st : Prop := {
  started_extra : fn_extra st = Some fcx;
  started_user : user_fctx fcx = None;
  started_boxes : boxes st = replicate k None;
  started_callbacks : reset_callbacks st = [];
  started_drops : drops st = seq 0 k;
}.

(** The next iterator is [it]. *)
Record busy (k : nat) it (fcx : FuncCallContext) st : Prop := {
  busy_extra : fn_extra st = Some fcx;
  busy_user : user_fctx fcx = Some k;
  busy_boxes : boxes st = replicate k None ++ [Some it];
  busy_callbacks : reset_callbacks st = [(multi_call_memory_ctx fcx, k)];
  busy_drops : drops st = seq 0 k;
}.

Lemma busy_box k it (x : option (TableIterator Row)) :
  (replicate k None ++ [Some it] : list (option (TableIterator Row))) !! k = Some (Some it)
  /\ <[k := x]> (replicate k None ++ [Some it]) = replicate k None ++ [x].
Proof.
  split.
  - rewrite lookup_app_r, length_replicate, Nat.sub_diag by (by rewrite length_replicate). done.
  - rewrite insert_app_r_alt, length_replicate, Nat.sub_diag by (by rewrite length_replicate). done.
Qed.

(** Deleting the context of a call drops its iterator. *)
Lemma delete_busy k it fcx st :
  busy k it fcx st -> exists st', delete_context (multi_call_memory_ctx fcx) (with_fn_extra None st) = Ok tt st'
    /\ idle (S k) st' /\ CurrentMemoryContext st' = CurrentMemoryContext st /\ isnull st' = isnull st.
Proof.
  intros [He Hu Hb Hc Hd]. unfold delete_context. cbn [reset_callbacks with_fn_extra]. rewrite Hc. cbn [omap list_omap].
  rewrite decide_True by done. cbn [run_callbacks]. unfold mbind_, drop_on_delete. cbn [boxes with_callbacks with_fn_extra].
  rewrite Hb. destruct (busy_box k it None) as [-> Hset]. eexists. split; [done|]. split; [|done].
  split; cbn [fn_extra boxes reset_callbacks drops with_drops with_boxes with_callbacks with_fn_extra]; try done.
  - by rewrite Hset, <- replicate_S_end.
  - rewrite filter_cons_False by (cbn; tauto). done.
  - rewrite Hd. symmetry. apply (seq_S k 0).
Qed.

Lemma delete_started k fcx st :
  started k fcx st -> exists st', delete_context (multi_call_memory_ctx fcx) (with_fn_extra None st) = Ok tt st'
    /\ idle k st' /\ CurrentMemoryContext st' = CurrentMemoryContext st /\ isnull st' = isnull st.
Proof.
  intros [He Hu Hb Hc Hd]. unfold delete_context. cbn [reset_callbacks with_fn_extra]. rewrite Hc. cbn.
  eexists. split; [done|]. by split.
Qed.

Lemma shutdown_spec st :
  (exists k, idle k st) \/ (exists k fcx, started k fcx st) \/ (exists k it fcx, busy k it fcx st) ->
  exists k st', shutdown st = Ok tt st' /\ idle k st'.
Proof.
  unfold shutdown. intros [[k Hi]|[(k & fcx & Hs)|(k & it & fcx & Hb)]].
  - rewrite (idle_extra _ _ Hi). by exists k, st.
  - rewrite (started_extra _ _ _ Hs). destruct (delete_started _ _ _ Hs) as (st' & -> & Hi & _). by exists k, st'.
  - rewrite (busy_extra _ _ _ _ Hb). destruct (delete_busy _ _ _ _ Hb) as (st' & -> & Hi & _). by exists (S k), st'.
Qed.

(** ** One call *)

Context `{!MultiFuncCallLaws Row} `{!RowLaws Row}.

(** A row came out. *)
Definition emitted (r : Row) (d : Z) st : Prop :=
  isDone st = ExprMultipleResult /\ (if isnull st then None else Some d) = row_datum r.

Definition counted (fcx : FuncCallContext) : FuncCallContext :=
  {| call_cntr := (call_cntr fcx + 1) mod 2 ^ 64; user_fctx := user_fctx fcx; tuple_desc := tuple_desc fcx;
     multi_call_memory_ctx := multi_call_memory_ctx fcx |}.

Lemma finish_spec r st fcx :
  fn_extra st = Some fcx -> ready (tuple_desc fcx) -> isnull st = false ->
  exists d b, (srf_return_next ;;; x <== lift (to_ret r) ;; box_ret_in_fcinfo Row x) st
    = Ok d (with_isnull b (with_isDone ExprMultipleResult (with_fn_extra (Some (counted fcx)) st)))
    /\ (if b then None else Some d) = row_datum r.
Proof.
  intros Hf Hr Hn. destruct (row_box r) as (x & Hx & Hbox).
  set (st1 := with_isDone ExprMultipleResult (with_fn_extra (Some (counted fcx)) st)).
  assert (Hst : (srf_return_next ;;; x <== lift (to_ret r) ;; box_ret_in_fcinfo Row x) st = box_ret_in_fcinfo Row x st1).
  { unfold srf_return_next, mbind_, deref_fcx, set_fcx. rewrite Hf, Hx. done. }
  rewrite Hst, (Hbox st1 (counted fcx)) by done. destruct (row_datum r) as [d|].
  - exists d, false. split; [|done]. f_equal. symmetry. apply (with_isnull_same st1) || by rewrite <- Hn.
  - by exists 0, true.
Qed.

Lemma return_done_busy k it fcx st :
  busy k it fcx st -> exists st', empty_srf st = Ok 0 st' /\ idle (S k) st' /\ isDone st' = ExprEndResult
    /\ CurrentMemoryContext st' = CurrentMemoryContext st.
Proof.
  intros Hb. destruct (delete_busy _ _ _ _ Hb) as (st' & Hd & [] & Hc & _).
  eexists. unfold empty_srf, srf_return_done, mbind_, deref_fcx. rewrite (busy_extra _ _ _ _ Hb).
  rewrite (end_spec _ _ (busy_extra _ _ _ _ Hb)), Hd. split; [done|]. by split.
Qed.

Lemma return_done_started k fcx st :
  started k fcx st -> exists st', empty_srf st = Ok 0 st' /\ idle k st' /\ isDone st' = ExprEndResult
    /\ CurrentMemoryContext st' = CurrentMemoryContext st.
Proof.
  intros Hs. destruct (delete_started _ _ _ Hs) as (st' & Hd & [] & Hc & _).
  eexists. unfold empty_srf, srf_return_done, mbind_, deref_fcx. rewrite (started_extra _ _ _ Hs).
  rewrite (end_spec _ _ (started_extra _ _ _ Hs)), Hd. split; [done|]. by split.
Qed.

(** The first row: the iterator is leaked, and the context made ready for rows. *)
Lemma init_spec_row k fcx st it r :
  started k fcx st -> isnull st = false ->
  exists d fcx' st', table_box_ret (StepInit it r) st = Ok d st' /\ busy k it fcx' st' /\ ready (tuple_desc fcx')
    /\ emitted r d st' /\ CurrentMemoryContext st' = CurrentMemoryContext st.
Proof.
  intros [He Hu Hb Hc Hd] Hn. unfold table_box_ret.
  set (st1 := with_fn_extra (Some {| call_cntr := call_cntr fcx; user_fctx := Some k; tuple_desc := tuple_desc fcx;
      multi_call_memory_ctx := multi_call_memory_ctx fcx |})
      (with_callbacks [(multi_call_memory_ctx fcx, k)] (with_boxes (replicate k None ++ [Some it]) st))).
  assert (Hmove : table_move_into it st = Ok tt st1).
  { unfold table_move_into, mbind_, deref_fcx, leak_and_drop_on_delete, set_fcx. rewrite He, Hc, Hb, length_replicate. done. }
  destruct (row_fill r st1 _ eq_refl) as (td & Htd & Hfill). cbn in Hfill.
  set (st2 := with_fn_extra _ st1) in Hfill.
  destruct (finish_spec r st2 _ eq_refl Htd Hn) as (d & b & Hfin & Hrow).
  eexists d, _, _. split; [|split].
  - unfold mbind_ at 1. rewrite Hmove. unfold mbind_ at 1. rewrite Hfill. exact Hfin.
  - by split.
  - done.
Qed.

Definition first_item (func : nat -> string + TableIterator Row) (ctx : nat) : string + option Row * TableIterator Row :=
  match func ctx with inl w => inl w | inr it => next it end.

(** What a call ends in, when the next item is known: [k] and [k'] count the
    iterators dropped before and after the end of the set. *)
Definition outcome_of (item : string + option Row * TableIterator Row) (k k' : nat) st (r : res Row Z) : Prop :=
  match item with
  | inl w => exists st', r = Err w st' /\ ((exists fcx, started k fcx st') \/ exists it fcx, busy k it fcx st')
  | inr (None, _) => exists st', r = Ok 0 st' /\ idle k' st' /\ isDone st' = ExprEndResult
      /\ CurrentMemoryContext st' = CurrentMemoryContext st
  | inr (Some row, it) => exists d fcx st', r = Ok d st' /\ busy k it fcx st' /\ ready (tuple_desc fcx)
      /\ emitted row d st' /\ CurrentMemoryContext st' = CurrentMemoryContext st
  end.

Lemma invoke_first (func : nat -> string + TableIterator Row) k st :
  idle k st -> exists ctx, outcome_of (first_item func ctx) k k st (invoke func st).
Proof.
  intros [He Hb Hc Hd]. unfold invoke. set (st0 := with_isnull false (with_isDone ExprSingleResult st)).
  destruct (init_spec st0 He) as (ctx & Hinit). exists ctx.
  set (fcx := {| call_cntr := 0; user_fctx := None; tuple_desc := None; multi_call_memory_ctx := ctx |}) in Hinit.
  set (st1 := with_fn_extra (Some fcx) st0) in Hinit.
  assert (Hprep : table_prepare st0 = Ok (WrappedFn ctx) st1).
  { unfold table_prepare, srf_is_first_call. change (fn_extra st0) with (fn_extra st). rewrite He, Hinit. done. }
  assert (Hs : started k fcx st1) by (by split).
  unfold internal_wrapper, mbind_ at 1. cbn [check_fcinfo_and_prepare abi_table]. rewrite Hprep.
  unfold mbind_ at 1, exec_in_context, mbind_ at 1. unfold first_item, lift at 1, mbind_ at 1. cbn [to_ret abi_table].
  destruct (func ctx) as [w|it]; cbn [outcome_of].
  { eexists. split; [done|]. left. exists fcx. by split. }
  replace (with_context (CurrentMemoryContext st1) (with_context ctx st1)) with st1 by (by destruct st).
  unfold lift, table_to_ret. destruct (next it) as [w|[[r|] it']]; cbn [outcome_of box_ret_in_fcinfo].
  - eexists. split; [done|]. left. by exists fcx.
  - by apply (init_spec_row k fcx st1 it' r Hs).
  - by apply (return_done_started k fcx st1 Hs).
Qed.

Lemma invoke_again (func : nat -> string + TableIterator Row) k it fcx st :
  busy k it fcx st -> ready (tuple_desc fcx) -> outcome_of (next it) k (S k) st (invoke func st).
Proof.
  intros [He Hu Hb Hc Hd] Hr. unfold invoke. set (st0 := with_isnull false (with_isDone ExprSingleResult st)).
  assert (Hprep : table_prepare st0 = Ok RestoreCx st0).
  { unfold table_prepare, srf_is_first_call. change (fn_extra st0) with (fn_extra st). by rewrite He. }
  unfold internal_wrapper, mbind_ at 1. cbn [check_fcinfo_and_prepare abi_table]. rewrite Hprep.
  unfold mbind_ at 1. cbn [ret_from_fcinfo_fcx abi_table box_ret_in_fcinfo].
  unfold table_ret_from, mbind_ at 1, deref_fcx. change (fn_extra st0) with (fn_extra st). rewrite He, Hu.
  change (boxes st0) with (boxes st). rewrite Hb. cbn [mbind option_bind].
  destruct (busy_box k it None) as [-> _]. cbn [mjoin option_join mbind option_bind].
  destruct (next it) as [w|[[r|] it']]; cbn [outcome_of].
  - eexists. split; [done|]. right. exists it, fcx. by split.
  - set (st1 := with_boxes _ st0). destruct (finish_spec r st1 fcx He Hr eq_refl) as (d & b & Hfin & Hrow).
    eexists d, (counted fcx), _. split; [exact Hfin|]. destruct (busy_box k it (Some it')) as [_ Hset]. by split.
  - set (st1 := with_boxes _ st0). apply (return_done_busy k it' fcx st1).
    destruct (busy_box k it (Some it')) as [_ Hset]. by split.
Qed.

(** ** All calls *)

(** The rows that an iterator goes through until it ends. *)
Inductive produces : TableIterator Row -> list Row -> Prop :=
| produces_end it it' : next it = inr (None, it') -> produces it []
| produces_row it r it' rows : next it = inr (Some r, it') -> produces it' rows -> produces it (r :: rows).

Lemma produces_new rows : produces (new rows) rows.
Proof. induction rows as [|r rows IH]; [by eapply produces_end|by eapply produces_row]. Qed.

Lemma execute_again func n k it fcx st rows :
  produces it rows -> busy k it fcx st -> ready (tuple_desc fcx) -> (length rows < n)%nat ->
  exists st', execute (T := TableIterator Row) func n st = Ok (row_datum <$> rows) st' /\ idle (S k) st' /\ isDone st' = ExprEndResult
    /\ CurrentMemoryContext st' = CurrentMemoryContext st.
Proof.
  intros Hp. revert n k fcx st. induction Hp as [it it' Hn|it r it' rows Hn Hp IH]; intros n k fcx st Hb Hr Hlen.
  all: destruct n as [|n]; [cbn in Hlen; lia|]; cbn [execute]; unfold mbind_ at 1.
  all: pose proof (invoke_again func k it fcx st Hb Hr) as Hi; rewrite Hn in Hi; cbn [outcome_of] in Hi.
  - destruct Hi as (st' & -> & Hidle & Hdone & Hc). rewrite Hdone. by exists st'.
  - destruct Hi as (d & fcx' & st1 & -> & Hb' & Hr' & [Hdone Hrow] & Hc). rewrite Hdone. unfold mbind_.
    destruct (IH n k fcx' st1 Hb' Hr' ltac:(cbn in Hlen; lia)) as (st' & -> & Hidle & Hd' & Hc').
    exists st'. rewrite Hrow, Hc', Hc. done.
Qed.

Lemma execute_spec func n k it st rows :
  idle k st -> (forall ctx, func ctx = inr it) -> produces it rows -> (length rows < n)%nat ->
  exists st', execute (T := TableIterator Row) func n st = Ok (row_datum <$> rows) st'
    /\ idle (if rows is [] then k else S k) st' /\ isDone st' = ExprEndResult
    /\ CurrentMemoryContext st' = CurrentMemoryContext st.
Proof.
  intros Hidle Hfunc Hp Hlen. destruct n as [|n]; [lia|]. cbn [execute]. unfold mbind_ at 1.
  destruct (invoke_first func k st Hidle) as [ctx Hi]. unfold first_item in Hi. rewrite Hfunc in Hi.
  destruct Hp as [it it' Hn|it r it' rows Hn Hp]; rewrite Hn in Hi; cbn [outcome_of] in Hi.
  - destruct Hi as (st' & -> & Hidle' & Hdone & Hc). rewrite Hdone. by exists st'.
  - destruct Hi as (d & fcx & st1 & -> & Hb & Hr & [Hdone Hrow] & Hc). rewrite Hdone. unfold mbind_.
    destruct (execute_again func n k it' fcx st1 rows Hp Hb Hr ltac:(cbn in Hlen; lia)) as (st' & -> & Hidle' & Hd' & Hc').
    exists st'. rewrite Hrow, Hc', Hc. done.
Qed.

(** Between the events of [handle_all]. *)
Definition settled (k : nat) st : Prop :=
  idle k st \/ exists it fcx, busy k it fcx st /\ ready (tuple_desc fcx).

Lemma handle_spec (func : nat -> string + TableIterator Row) ev k st :
  settled k st -> exists k' st', handle func ev st = Ok tt st' /\ settled k' st'.
Proof.
  intros Hs. assert (Hshut : forall st1, (exists k, idle k st1) \/ (exists k fcx, started k fcx st1) \/ (exists k it fcx, busy k it fcx st1) ->
    exists k' st', shutdown st1 = Ok tt st' /\ settled k' st').
  { intros st1 H1. destruct (shutdown_spec st1 H1) as (k' & st' & -> & Hi). exists k', st'. split; [done|by left]. }
  destruct ev; cbn [handle].
  2:{ apply Hshut. destruct Hs as [Hi|(it & fcx & Hb & _)]; [left; by exists k|right; right; by eexists _, _, _]. }
  assert (Hout : exists item k', outcome_of item k k' st (invoke func st)).
  { destruct Hs as [Hi|(it & fcx & Hb & Hr)].
    - destruct (invoke_first func k st Hi) as [ctx Ho]. by eexists _, _.
    - eexists _, _. by apply (invoke_again func k it fcx st). }
  destruct Hout as ([w|[[r|] it]] & k' & Ho); cbn [outcome_of] in Ho.
  - destruct Ho as (st1 & -> & Hst). apply Hshut. right. destruct Hst as [[fcx Hf]|(it & fcx & Hf)]; [left|right]; by eexists _, _, _ || eexists _, _.
  - destruct Ho as (d & fcx & st1 & -> & Hb & Hr & _). exists k, st1. split; [done|]. right. by eexists _, _.
  - destruct Ho as (st1 & -> & Hi & _). exists k', st1. split; [done|by left].
Qed.

Lemma handle_all_spec (func : nat -> string + TableIterator Row) evs k st :
  settled k st -> exists k' st', handle_all func evs st = Ok tt st' /\ settled k' st'.
Proof.
  revert k st. induction evs as [|ev evs IH]; intros k st Hs; cbn [handle_all].
  { by exists k, st. }
  destruct (handle_spec func ev k st Hs) as (k1 & st1 & Hh & Hs1). unfold mbind_. rewrite Hh. by apply (IH k1).
Qed.
End Sets.

(** ** A Postgres *)

(** Contexts are numbered, and the rows of a composite type by their columns. *)
Definition postgres_calls {Row} : MultiFuncCall Row := {|
  init_MultiFuncCall := fun st =>
    with_fn_extra (Some {| call_cntr := 0; user_fctx := None; tuple_desc := None;
                           multi_call_memory_ctx := S (CurrentMemoryContext st) |}) st;
  end_MultiFuncCall := fun st =>
    match fn_extra st with
    | Some fcx => delete_context (multi_call_memory_ctx fcx) (with_fn_extra None st)
    | None => Ok tt st
    end;
  get_call_result_type := fun _ => Some 1;
  heap_form_tuple := fun d cols => d + Z.of_nat (length cols);
|}.

#[export] Instance postgres_laws {Row} : MultiFuncCallLaws Row (H := postgres_calls).
Proof. split; [by intros st _; eexists|]. intros st fcx Hf. cbn. by rewrite Hf. Qed.

(** ** The claims *)

(** C15. A set comes out whole and the calls end: when the function returns an iterator
    over some rows, a caller that asks for as many as there are gets the datum of each
    row in order, then that the set is done; the iterator has been dropped by then, the
    call context is gone, so that the function can be called anew, and the memory
    context is the caller's. *)
Theorem table_rows_all_returned Row `{MultiFuncCallLaws Row} `{RowLaws Row} func it rows n k st :
  idle k st -> (forall ctx, func ctx = inr it) -> produces it rows -> (length rows < n)%nat ->
  exists st', execute (T := TableIterator Row) func n st = Ok (row_datum <$> rows) st'
    /\ isDone st' = ExprEndResult /\ fn_extra st' = None
    /\ CurrentMemoryContext st' = CurrentMemoryContext st
    /\ drops st' = drops st ++ (if rows is [] then [] else [k]).
Proof.
  intros Hidle Hfunc Hp Hn. destruct (execute_spec func n k it st rows Hidle Hfunc Hp Hn) as (st' & He & [Hx _ _ Hd] & Hdone & Hc).
  exists st'. repeat (split; [done|]). rewrite Hd, (idle_drops _ _ Hidle). destruct rows; [by rewrite app_nil_r|apply (seq_S k 0)].
Qed.

Lemma table_rows_all_returned_witness :
  exists st', execute (H := abi_table (H := postgres_calls)) (fun _ => inr (new [Single (Some 7); Single None; Single (Some 9)])) 4 (new_call 3)
    = Ok [Some 7; None; Some 9] st'
    /\ isDone st' = ExprEndResult /\ fn_extra st' = None /\ CurrentMemoryContext st' = 3%nat /\ drops st' = [0%nat].
Proof.
  refine (table_rows_all_returned (single (option Z)) (H := postgres_calls) _ _ [Single (Some 7); Single None; Single (Some 9)] 4 0
           (new_call 3) _ _ (produces_new _) _); [by split|done|cbn; lia].
Defined.

(** C17. Iterators that are given to Postgres are dropped once and not used afterwards:
    whatever the function and its iterators do, panics included, and however its calls
    and the ends of queries alternate, nothing is undefined; the iterators dropped are
    those whose boxes are empty, none twice; and when the query ends, all are. *)
Theorem iterators_dropped_once Row `{MultiFuncCallLaws Row} `{RowLaws Row}
    (func : nat -> string + TableIterator Row) evs ctx :
  exists st, handle_all func evs (new_call ctx) = Ok tt st
    /\ NoDup (drops st) /\ (forall b, b ∈ drops st <-> boxes st !! b = Some None)
    /\ exists st', shutdown st = Ok tt st' /\ (forall b, (b < length (boxes st'))%nat <-> b ∈ drops st').
Proof.
  assert (Hlook : forall k b, b ∈ seq 0 k <-> (replicate k None : list (option (TableIterator Row))) !! b = Some None).
  { intros k b. rewrite elem_of_seq, lookup_replicate. split; [intros ?; split; [done|lia]|intros [_ ?]; lia]. }
  destruct (handle_all_spec func evs 0 (new_call ctx)) as (k & st & Hrun & Hs); [left; by split|].
  exists st. split; [done|]. split; [|split].
  - destruct Hs as [[_ _ _ ->]|(it & fcx & [_ _ _ _ ->] & _)]; apply NoDup_seq.
  - intros b. destruct Hs as [[_ -> _ ->]|(it & fcx & [_ _ -> _ ->] & _)]; [apply Hlook|]. rewrite Hlook.
    destruct (decide (b < k)%nat); [by rewrite lookup_app_l by (by rewrite length_replicate)|].
    rewrite lookup_app_r, length_replicate by (rewrite length_replicate; lia).
    rewrite lookup_ge_None_2 by (rewrite length_replicate; lia). destruct (b - k)%nat as [|[|]]; done.
  - destruct (shutdown_spec st) as (k' & st' & -> & [_ Hb _ Hd]).
    { destruct Hs as [Hi|(it & fcx & Hb & _)]; [left; by exists k|right; right; by eexists _, _, _]. }
    exists st'. split; [done|]. intros b. rewrite Hb, Hd, length_replicate, elem_of_seq. lia.
Qed.

Lemma iterators_dropped_once_witness :
  exists st, handle_all (H := abi_table (H := postgres_calls))
      (fun _ => inr (new [Single 1; Single 2])) [Invoke; Shutdown; Invoke; Invoke; Invoke; Invoke] (new_call 3) = Ok tt st
    /\ NoDup (drops st) /\ (forall b, b ∈ drops st <-> boxes st !! b = Some None)
    /\ exists st', shutdown st = Ok tt st' /\ (forall b, (b < length (boxes st'))%nat <-> b ∈ drops st').
Proof.
  exact (iterators_dropped_once (single Z) (H := postgres_calls) (fun _ => inr (new [Single 1; Single 2]))
           [Invoke; Shutdown; Invoke; Invoke; Invoke; Invoke] 3).
Defined.

(** ** Other returns *)

(** [SETOF] is a table of one column. *)
Lemma setof_is_table {T} `{MultiFuncCall (single T)} `{BoxRet (single T) T} (func : nat -> string + SetOfIterator T) st :
  internal_wrapper func st
  = internal_wrapper (T := TableIterator (single T)) (fun ctx => match func ctx with inl w => inl w | inr it => inr (table it) end) st.
Proof.
  unfold internal_wrapper, mbind_. cbn [check_fcinfo_and_prepare abi_setof abi_table].
  destruct (table_prepare st) as [[|mcx] st1|w st1|]; [..|done|done].
  - cbn [ret_from_fcinfo_fcx abi_setof abi_table]. unfold setof_ret_from, mbind_.
    destruct (table_ret_from st1) as [[|[]|it []] st2|w st2|]; done.
  - unfold exec_in_context, mbind_, lift. destruct (func mcx) as [w|it]; [done|]. cbn [to_ret abi_setof abi_table].
    unfold setof_to_ret, table_to_ret. destruct (next (table it)) as [w|[[[r]|] it']]; done.
Qed.

(** A [Result] that is [Ok] is returned as its value, and an [Err] is an error. *)
Lemma result_is_value {Row T} `{RetAbi Row T} (value : T) (w : string) st :
  internal_wrapper (fun _ => inr (inr value : string + T)) st = internal_wrapper (fun _ => inr value) st
  /\ forall mcx st1, check_fcinfo_and_prepare T st = Ok (WrappedFn mcx) st1 ->
     internal_wrapper (fun _ => inr (inl w : string + T)) st = Err w st1.
Proof.
  unfold internal_wrapper, mbind_. cbn [check_fcinfo_and_prepare abi_result]. split.
  - by destruct (check_fcinfo_and_prepare T st) as [[|mcx] st1|w' st1|].
  - intros mcx st1 ->. cbn. unfold exec_in_context, mbind_, lift. cbn. f_equal. by destruct st1.
Qed.
