(* ===== verification/Ids.v ===== *)
(** * Tuple and transaction identifiers

    [pgrx/src/itemptr.rs], the address of a tuple as a struct of 16-bit fields and as
    one [u64], and [pgrx/src/xid.rs], which widens a 32-bit transaction id by the
    epoch it must belong to. *)
From stdpp Require Import base list strings.
From S2P Require Import Prelude Memory.
#[local] Open Scope Z_scope.
#[local] Open Scope ending_scope.

(** ** Item pointers *)

Record BlockIdData := { bi_hi : Z; bi_lo : Z }.
Record ItemPointerData := { ip_blkid : BlockIdData; ip_posid : Z }.

Definition InvalidOffsetNumber : Z := 0.

Definition item_pointer_get_block_number_no_check (ctid : ItemPointerData) : Z :=
  Z.lor (Z.shiftl (bi_hi (ip_blkid ctid)) 16 mod 2 ^ 32) (bi_lo (ip_blkid ctid)).

Definition item_pointer_get_offset_number_no_check (ctid : ItemPointerData) : Z := ip_posid ctid.

Definition item_pointer_get_both (ctid : ItemPointerData) : Z * Z :=
  (item_pointer_get_block_number_no_check ctid, item_pointer_get_offset_number_no_check ctid).

(** [None] is the null pointer. *)
Definition item_pointer_is_valid (ctid : option ItemPointerData) : bool :=
  match ctid with None => false | Some t => negb (ip_posid t =? InvalidOffsetNumber) end.

Definition item_pointer_get_block_number (ctid : option ItemPointerData) : ending Z :=
  eassert (item_pointer_is_valid ctid) "assertion failed: item_pointer_is_valid(ctid)"
    (t <~~ defined ctid ;; Returned (item_pointer_get_block_number_no_check t)).

Definition item_pointer_get_offset_number (ctid : option ItemPointerData) : ending Z :=
  eassert (item_pointer_is_valid ctid) "assertion failed: item_pointer_is_valid(ctid)"
    (t <~~ defined ctid ;; Returned (item_pointer_get_offset_number_no_check t)).

(** [u16::try_from(n).unwrap()]. *)
Definition u16_try_from (n : Z) : ending Z :=
  if (0 <=? n) && (n <? 2 ^ 16) then Returned n
  else Panicked "called `Result::unwrap()` on an `Err` value: TryFromIntError(())".

Definition item_pointer_set_all (blockno offno : Z) : ending ItemPointerData :=
  hi <~~ u16_try_from (Z.shiftr blockno 16) ;;
  lo <~~ u16_try_from (Z.land blockno 0xffff) ;;
  Returned {| ip_blkid := {| bi_hi := hi; bi_lo := lo |}; ip_posid := offno |}.

Definition new_item_pointer (blockno offno : Z) : ItemPointerData :=
  {| ip_blkid := {| bi_hi := Z.shiftr blockno 16 mod 2 ^ 16; bi_lo := Z.land blockno 0xffff mod 2 ^ 16 |}; ip_posid := offno |}.

Definition item_pointer_to_u64 (ctid : ItemPointerData) : Z :=
  let '(blockno, offno) := item_pointer_get_both ctid in
  Z.lor (Z.shiftl blockno 32 mod 2 ^ 64) offno.

Definition u64_to_item_pointer_parts (value : Z) : Z * Z :=
  (Z.shiftr value 32 mod 2 ^ 32, value mod 2 ^ 16).

Definition u64_to_item_pointer (value : Z) : ending ItemPointerData :=
  let '(blockno, offno) := u64_to_item_pointer_parts value in item_pointer_set_all blockno offno.

(** [FromDatum] and [IntoDatum] copy the fields. *)
Definition copy_item_pointer (tid : ItemPointerData) : ending ItemPointerData :=
  let '(blockno, offno) := item_pointer_get_both tid in item_pointer_set_all blockno offno.

Definition u16 (n : Z) : Prop := 0 <= n < 2 ^ 16.
Definition item_pointer_ok (t : ItemPointerData) : Prop := u16 (bi_hi (ip_blkid t)) /\ u16 (bi_lo (ip_blkid t)) /\ u16 (ip_posid t).

Lemma lor_add a b k : 0 <= k -> 0 <= b < 2 ^ k -> Z.lor (Z.shiftl a k) b = a * 2 ^ k + b.
Proof.
  intros Hk Hb.
  assert (Hland : Z.land (Z.shiftl a k) b = 0).
  { apply Z.bits_inj'. intros i Hi. rewrite Z.land_spec, Z.bits_0, Z.shiftl_spec by done.
    destruct (decide (i < k)); [by rewrite Z.testbit_neg_r by lia|].
    rewrite <- (Z.mod_small b (2 ^ k)), Z.mod_pow2_bits_high by lia. apply andb_false_r. }
  by rewrite <- Z.lxor_lor, <- Z.add_nocarry_lxor, Z.shiftl_mul_pow2 by done.
Qed.

Lemma block_number_spec t :
  item_pointer_ok t -> item_pointer_get_block_number_no_check t = bi_hi (ip_blkid t) * 2 ^ 16 + bi_lo (ip_blkid t).
Proof.
  intros (Hh & Hl & _). unfold item_pointer_get_block_number_no_check, u16 in *.
  rewrite Z.mod_small; [by apply lor_add|]. rewrite Z.shiftl_mul_pow2 by done. lia.
Qed.

Lemma low_16 n : Z.land n 0xffff = n mod 2 ^ 16.
Proof. exact (Z.land_ones n 16 ltac:(lia)). Qed.

Lemma set_all_spec blockno offno :
  0 <= blockno < 2 ^ 32 ->
  item_pointer_set_all blockno offno
  = Returned {| ip_blkid := {| bi_hi := blockno / 2 ^ 16; bi_lo := blockno mod 2 ^ 16 |}; ip_posid := offno |}.
Proof.
  intros Hb. unfold item_pointer_set_all, u16_try_from. rewrite Z.shiftr_div_pow2, low_16 by done.
  pose proof (Z.mod_pos_bound blockno (2 ^ 16) ltac:(lia)).
  assert (0 <= blockno / 2 ^ 16 < 2 ^ 16) by (split; [apply Z.div_pos; lia|apply Z.div_lt_upper_bound; lia]).
  rewrite !(proj2 (Z.leb_le _ _)), !(proj2 (Z.ltb_lt _ _)) by lia. done.
Qed.

(** Addresses of tuples survive being packed: any pointer is copied field by
    field, and turned into a [u64] and back it is the same; blocks and offsets put into
    a pointer are read out again; a [u64] made this way has the block in its upper half,
    so that addresses are in the order of their blocks and then of their offsets. *)
Theorem item_pointer_round_trip t :
  item_pointer_ok t ->
  copy_item_pointer t = Returned t
  /\ u64_to_item_pointer (item_pointer_to_u64 t) = Returned t
  /\ u64_to_item_pointer_parts (item_pointer_to_u64 t) = item_pointer_get_both t
  /\ new_item_pointer (item_pointer_get_both t).1 (item_pointer_get_both t).2 = t
  /\ item_pointer_to_u64 t = (bi_hi (ip_blkid t) * 2 ^ 16 + bi_lo (ip_blkid t)) * 2 ^ 32 + ip_posid t.
Proof.
  intros Ht. pose proof (block_number_spec t Ht) as Hblk. destruct Ht as (Hh & Hl & Ho). destruct t as [[hi lo] off].
  unfold u16, copy_item_pointer, item_pointer_get_both, item_pointer_get_offset_number_no_check in *.
  cbn [bi_hi bi_lo ip_blkid ip_posid] in *. set (b := hi * 2 ^ 16 + lo) in *.
  assert (Hdiv : b / 2 ^ 16 = hi) by (symmetry; apply (Z.div_unique _ _ _ lo); lia).
  assert (Hmod : b mod 2 ^ 16 = lo) by (symmetry; apply (Z.mod_unique _ _ hi); lia).
  assert (H64 : item_pointer_to_u64 {| ip_blkid := {| bi_hi := hi; bi_lo := lo |}; ip_posid := off |} = b * 2 ^ 32 + off).
  { unfold item_pointer_to_u64, item_pointer_get_both. rewrite Hblk. cbn.
    rewrite Z.mod_small by (rewrite Z.shiftl_mul_pow2 by done; lia). apply lor_add; lia. }
  assert (Hparts : u64_to_item_pointer_parts (b * 2 ^ 32 + off) = (b, off)).
  { unfold u64_to_item_pointer_parts. rewrite Z.shiftr_div_pow2 by done. f_equal.
    - rewrite (Z.div_add_l b (2 ^ 32) off), (Z.div_small off (2 ^ 32)), Z.add_0_r by lia. apply Z.mod_small. lia.
    - replace (b * 2 ^ 32 + off) with (off + b * 2 ^ 16 * 2 ^ 16) by lia. rewrite Z.mod_add by lia. by apply Z.mod_small. }
  rewrite H64. unfold u64_to_item_pointer. rewrite Hparts, Hblk. cbn [fst snd].
  rewrite !set_all_spec, Hdiv, Hmod by lia. repeat (split; [done|]). split; [|done].
  unfold new_item_pointer. rewrite Z.shiftr_div_pow2, low_16, Hdiv, Hmod, !Z.mod_small by lia. done.
Qed.

Lemma item_pointer_round_trip_witness :
  u64_to_item_pointer (item_pointer_to_u64 (new_item_pointer 70000 9)) = Returned (new_item_pointer 70000 9).
Proof. apply (item_pointer_round_trip (new_item_pointer 70000 9)). repeat split; vm_compute; congruence || reflexivity. Defined.

(** ** Transaction ids *)

Definition FirstNormalTransactionId : Z := 3.
Definition TransactionIdIsNormal (xid : Z) : bool := FirstNormalTransactionId <=? xid.

Section Xids.
(** [TransactionIdPrecedes], of Postgres. *)
Context (TransactionIdPrecedes TransactionIdFollows : Z -> Z -> bool).

(** [epoch -= 1] panics at 0 in a debug build and wraps in a release build. *)
Definition convert_xid_common (debug : bool) (xid last_xid epoch : Z) : ending Z :=
  if negb (TransactionIdIsNormal xid) then Returned xid
  else
    epoch <~~ (if (last_xid <? xid) && TransactionIdPrecedes xid last_xid
               then if debug && (epoch =? 0) then Panicked "attempt to subtract with overflow"
                    else Returned ((epoch - 1) mod 2 ^ 64)
               else if (xid <? last_xid) && TransactionIdFollows xid last_xid then Returned (epoch + 1)
               else Returned epoch) ;;
    Returned (Z.lor (Z.shiftl epoch 32 mod 2 ^ 64) xid).

Definition xid_to_64bit (debug : bool) (next_full_xid xid : Z) : ending Z :=
  convert_xid_common debug xid (next_full_xid mod 2 ^ 32) (Z.shiftr next_full_xid 32 mod 2 ^ 32).

(** What Postgres documents of the comparison: ids are compared modulo [2^32], and
    one precedes the other when it is less than [2^31] behind it. *)
Definition compares_modulo : Prop := forall a b,
  TransactionIdIsNormal a = true -> TransactionIdIsNormal b = true ->
  TransactionIdPrecedes a b = (2 ^ 31 <=? (a - b) mod 2 ^ 32)
  /\ TransactionIdFollows a b = (0 <? (a - b) mod 2 ^ 32) && ((a - b) mod 2 ^ 32 <? 2 ^ 31).

Lemma shifted_epoch q xid : 0 <= q < 2 ^ 32 -> 0 <= xid < 2 ^ 32 -> Z.lor (Z.shiftl q 32 mod 2 ^ 64) xid = q * 2 ^ 32 + xid.
Proof.
  intros Hq Hx. rewrite Z.mod_small by (rewrite Z.shiftl_mul_pow2 by done; lia). by apply lor_add.
Qed.

(** A transaction id is widened to the id it was cut from: any id that is normal
    and less than [2^31] away from the next one, before or behind it and so possibly in
    the epoch before or after, is given back whole, in debug and in release builds; the
    ids that Postgres reserves are returned as they are. *)
Theorem xid_to_64bit_exact debug next full :
  compares_modulo -> 0 <= next < 2 ^ 64 -> 0 <= full < 2 ^ 64 ->
  TransactionIdIsNormal (next mod 2 ^ 32) = true -> next - 2 ^ 31 < full < next + 2 ^ 31 ->
  xid_to_64bit debug next (full mod 2 ^ 32)
  = Returned (if TransactionIdIsNormal (full mod 2 ^ 32) then full else full mod 2 ^ 32).
Proof.
  intros Hcmp Hn Hf Hnn Hnear. unfold xid_to_64bit, convert_xid_common.
  destruct (TransactionIdIsNormal (full mod 2 ^ 32)) eqn:Hfn; [|done]. cbn [negb].
  destruct (Hcmp _ _ Hfn Hnn) as [-> ->]. rewrite <- Zminus_mod, Z.shiftr_div_pow2 by done.
  pose proof (Z.div_mod next (2 ^ 32) ltac:(lia)) as Hdn. pose proof (Z.mod_pos_bound next (2 ^ 32) ltac:(lia)) as Hln.
  pose proof (Z.div_mod full (2 ^ 32) ltac:(lia)) as Hdf. pose proof (Z.mod_pos_bound full (2 ^ 32) ltac:(lia)) as Hlf.
  set (en := next / 2 ^ 32) in *. set (ef := full / 2 ^ 32) in *. set (ln := next mod 2 ^ 32) in *. set (lf := full mod 2 ^ 32) in *.
  rewrite (Z.mod_small en) by lia.
  assert (Hdist : (full - next) mod 2 ^ 32 = if full <? next then full - next + 2 ^ 32 else full - next).
  { destruct (full <? next) eqn:Hlt; [|apply Z.mod_small; lia].
    symmetry. apply (Z.mod_unique _ _ (-1)); lia. }
  rewrite Hdist.
  assert (Hef : ef = en - 1 /\ ln < lf \/ ef = en \/ ef = en + 1 /\ lf < ln) by lia.
  destruct (full <? next) eqn:Hlt.
  - rewrite (proj2 (Z.leb_le _ _)) by lia. rewrite andb_true_r.
    rewrite (proj2 (Z.ltb_ge (full - next + 2 ^ 32) (2 ^ 31))) by lia. rewrite !andb_false_r.
    destruct (ln <? lf) eqn:Hl.
    + assert (Heq : ef = en - 1) by lia. rewrite (proj2 (Z.eqb_neq en 0)) by lia. rewrite andb_false_r. cbn [ebind].
      rewrite (Z.mod_small (en - 1)) by lia. rewrite shifted_epoch by lia. f_equal. lia.
    + cbn [ebind]. rewrite shifted_epoch by lia. f_equal. lia.
  - rewrite (proj2 (Z.leb_gt (2 ^ 31) (full - next))) by lia. rewrite andb_false_r.
    rewrite (proj2 (Z.ltb_lt (full - next) (2 ^ 31))) by lia. rewrite andb_true_r.
    destruct ((lf <? ln) && (0 <? full - next)) eqn:Hl; cbn [ebind].
    + assert (ef = en + 1) by lia. rewrite shifted_epoch by lia. f_equal. lia.
    + assert (ef = en) by lia. rewrite shifted_epoch by lia. f_equal. lia.
Qed.
End Xids.

Definition precedes (a b : Z) : bool :=
  if TransactionIdIsNormal a && TransactionIdIsNormal b then 2 ^ 31 <=? (a - b) mod 2 ^ 32 else a <? b.
Definition follows (a b : Z) : bool :=
  if TransactionIdIsNormal a && TransactionIdIsNormal b then (0 <? (a - b) mod 2 ^ 32) && ((a - b) mod 2 ^ 32 <? 2 ^ 31) else b <? a.

Lemma xid_to_64bit_exact_witness :
  xid_to_64bit precedes follows true (5 * 2 ^ 32 + 10) ((4 * 2 ^ 32 + 4294967290) mod 2 ^ 32) = Returned (4 * 2 ^ 32 + 4294967290).
Proof.
  apply (xid_to_64bit_exact precedes follows true (5 * 2 ^ 32 + 10) (4 * 2 ^ 32 + 4294967290)).
  - intros a b Ha Hb. unfold precedes, follows. rewrite Ha, Hb. split; reflexivity.
  - lia.
  - lia.
  - reflexivity.
  - lia.
Defined.

(** In the first epoch, an id ahead of the next one by more than [2^31] has no epoch
    to be in. *)
Example xid_before_first_epoch :
  xid_to_64bit precedes follows true 10 4294967290 = Panicked "attempt to subtract with overflow"
  /\ xid_to_64bit precedes follows false 10 4294967290 = Returned (2 ^ 64 - 6).
Proof. split; reflexivity. Qed.
