(* ===== verification/PgConfig.v ===== *)
(** * Which Postgres

    [pgrx-pg-config/src/lib.rs]: what [pg_config] says of an installation, the
    versions that are parsed out of it, and the installations that pgrx manages, by
    label, all of them, or the one described in the environment.

    The environment variables, and running a program, are parameters. *)
From stdpp Require Import base list gmap strings pretty sorting.
From S2P Require Import Prelude Metadata Text.
#[local] Open Scope Z_scope.

(** ** Strings *)

Definition push_char (c : Ascii.ascii) (parts : list string) : list string :=
  match parts with part :: parts => String c part :: parts | [] => [String c EmptyString] end.

(** Splitting at each white space character. *)
Fixpoint split_ws (s : string) : list string :=
  match s with
  | EmptyString => [EmptyString]
  | String a r1 =>
      if ws1 a then EmptyString :: split_ws r1
      else match r1 with
      | EmptyString => [s]
      | String b r2 =>
          if ws2 a b then EmptyString :: split_ws r2
          else match r2 with
          | EmptyString => push_char a (split_ws r1)
          | String c r3 => if ws3 a b c then EmptyString :: split_ws r3 else push_char a (split_ws r1)
          end
      end
  end.

(** [str::split_whitespace] *)
Definition split_whitespace (s : string) : list string := List.filter (fun p => negb (is_empty p)) (split_ws s).

(** [str::split] of a pattern that is not empty; [skip] bytes of a match are still to
    be dropped. *)
Fixpoint split_from (pattern : string) (skip : nat) (s : string) : list string :=
  match s with
  | EmptyString => [EmptyString]
  | String c rest =>
      match skip with
      | S skip => split_from pattern skip rest
      | O =>
          if String.prefix pattern s then EmptyString :: split_from pattern (String.length pattern - 1) rest
          else push_char c (split_from pattern 0 rest)
      end
  end.
Definition split_str (pattern s : string) : list string := split_from pattern 0 s.

(** [str::split_once(c)] *)
Fixpoint split_once (c : Ascii.ascii) (s : string) : option (string * string) :=
  match s with
  | EmptyString => None
  | String c' rest =>
      if Ascii.eqb c' c then Some (EmptyString, rest)
      else '(k, v) ← split_once c rest; Some (String c' k, v)
  end.

Definition is_ascii_digit (c : Ascii.ascii) : bool := byte_in 48 57 c.
Definition digit_value (c : Ascii.ascii) : Z := Z.of_N (N_of_ascii c) - 48.

Fixpoint all_digits (s : string) : bool :=
  match s with EmptyString => true | String c s => is_ascii_digit c && all_digits s end.
Fixpoint digits_value (acc : Z) (s : string) : Z :=
  match s with EmptyString => acc | String c s => digits_value (acc * 10 + digit_value c) s end.

(** [u16::from_str]: digits, with a sign before them or not. *)
Definition u16_from_str (s : string) : option Z :=
  let digits := match s with String "+" rest => rest | _ => s end in
  if is_empty digits || negb (all_digits digits) then None
  else let n := digits_value 0 digits in if n <? 2 ^ 16 then Some n else None.

(** The leading digits of a string. *)
Fixpoint leading_digits (s : string) : string :=
  match s with EmptyString => EmptyString | String c s => if is_ascii_digit c then String c (leading_digits s) else EmptyString end.

(** ** Versions *)

Inductive PgMinorVersion := Latest | Release (v : Z) | Beta (v : Z) | Rc (v : Z).
Record PgVersion := { major : Z; minor : PgMinorVersion; url : option string }.

#[export] Instance PgMinorVersion_eq : EqDecision PgMinorVersion.
Proof. solve_decision. Defined.
#[export] Instance PgVersion_eq : EqDecision PgVersion.
Proof. solve_decision. Defined.

Definition minor_display (m : PgMinorVersion) : string :=
  match m with
  | Latest => ".LATEST"
  | Release v => "." +:+ show_u32 v
  | Beta v => "beta" +:+ show_u32 v
  | Rc v => "rc" +:+ show_u32 v
  end.
Definition minor_version_number (m : PgMinorVersion) : option Z :=
  match m with Latest => None | Release v | Beta v | Rc v => Some v end.
Definition version_display (v : PgVersion) : string := show_u32 (major v) +:+ minor_display (minor v).

Inductive ConfigError :=
| InvalidVersionString (version_str : string)
| InvalidMajor (major : string)
| InvalidMinor (minor : string)
| NotPgConfig (e : ConfigError) (path : string)
| NoKnownProperty (arg : string)
| CommandFailed (path arg : string)
| NotInEnvironment
| NotManaged (label : string)
| NoHomeDirectory
| MissingPgrxHome (path : string)
| TomlNotFound (path : string)
| TomlUnreadable (path : string).

Notation result := (outcome ConfigError).

(** What kind of release the version names, and its parts. *)
Definition version_kind (version_str : string) (version : list string)
    : result ((Z -> PgMinorVersion) * list string) :=
  match version with
  | [first] =>
      if contains "beta" first then Ok (Beta, split_str "beta" first)
      else if contains "rc" first then Ok (Rc, split_str "rc" first)
      else Err (InvalidVersionString version_str)
  | _ => Ok (Release, version)
  end.

Definition parse_version_str (version_str : string) : result (Z * PgMinorVersion) :=
  word ← ok_or (InvalidVersionString version_str) (split_whitespace version_str !! 1%nat);
  '(kind, version) ← version_kind version_str (split_char "." word);
  major ← unwrap (version !! 0%nat);
  major_number ← ok_or (InvalidMajor major) (u16_from_str major);
  minor ← unwrap (version !! 1%nat);
  minor_number ← ok_or (InvalidMinor (leading_digits minor)) (u16_from_str (leading_digits minor));
  Ok (major_number, kind minor_number).

(** ** Installations *)

Definition BASE_POSTGRES_PORT_NO : Z := 28800.
Definition BASE_POSTGRES_TESTING_PORT_NO : Z := 32200.

Record PgConfig := {
  pc_version : option PgVersion;
  pc_path : option string;
  known_props : option (gmap string string);
  base_port : Z;
  base_testing_port : Z;
  test_port_override : option Z;
}.

Definition pg_config_new (path : string) (port testing_port : Z) : PgConfig :=
  {| pc_version := None; pc_path := Some path; known_props := None; base_port := port; base_testing_port := testing_port;
     test_port_override := None |}.
Definition new_with_defaults (path : string) : PgConfig := pg_config_new path BASE_POSTGRES_PORT_NO BASE_POSTGRES_TESTING_PORT_NO.
Definition pg_config_from_version (v : PgVersion) : PgConfig :=
  {| pc_version := Some v; pc_path := None; known_props := None; base_port := BASE_POSTGRES_PORT_NO;
     base_testing_port := BASE_POSTGRES_TESTING_PORT_NO; test_port_override := None |}.
Definition with_test_port (c : PgConfig) (port : Z) : PgConfig :=
  {| pc_version := pc_version c; pc_path := pc_path c; known_props := known_props c; base_port := base_port c;
     base_testing_port := base_testing_port c; test_port_override := Some port |}.
Definition pg_config_url (c : PgConfig) : option string := pc_version c ≫= url.
Definition host : string := "localhost".
Definition is_real (c : PgConfig) : bool := match pc_path c with Some _ => true | None => false end.

(** [Path::file_name], where [/] separates. *)
Definition file_name (path : string) : option string :=
  match List.filter (fun p => negb (is_empty p || bool_decide (p = "."))) (rev (split_char "/" path)) with
  | name :: _ => if bool_decide (name = "..") then None else Some name
  | [] => None
  end.

(** [PathBuf::push]: an absolute path replaces. *)
Definition path_push (path component : string) : string :=
  if starts_with_char "/" component then component
  else if is_empty path || ends_with_char "/" path then path +:+ component
  else path +:+ String "/" component.

(** [str::to_lowercase] of ASCII letters. *)
Definition lower_char (c : Ascii.ascii) : Ascii.ascii := if byte_in 65 90 c then ascii_of_N (N_of_ascii c + 32) else c.
Fixpoint to_lowercase (s : string) : string :=
  match s with EmptyString => EmptyString | String c s => String (lower_char c) (to_lowercase s) end.

(** [str::trim_start_matches] of a string that is not empty. *)
Fixpoint trim_prefix (p : string) (skip : nat) (s : string) : string :=
  match s with
  | EmptyString => EmptyString
  | String _ rest => match skip with
                     | S skip => trim_prefix p skip rest
                     | O => if String.prefix p s then trim_prefix p (String.length p - 1) rest else s
                     end
  end.

(** [u16] addition panics on overflow in a debug build and wraps in a release build. *)
Definition u16_add {E} (debug : bool) (a b : Z) : outcome E Z :=
  if a + b <? 2 ^ 16 then Ok (a + b) else if debug then Panic else Ok ((a + b) mod 2 ^ 16).

Section Environment.
(** [std::env::vars], and what a program prints for an argument. *)
Context (env_vars : list (string * string)) (output : string -> string -> option string) (debug : bool).

Definition env_var (k : string) : option string := snd <$> List.find (fun kv => bool_decide (kv.1 = k)) env_vars.

Definition is_in_environment : bool :=
  match env_var "PGRX_PG_CONFIG_AS_ENV" with Some value => bool_decide (value = "true") | None => false end.

Definition PREFIX : string := "PGRX_PG_CONFIG_".

Definition from_env : result PgConfig :=
  if is_in_environment then
    Ok {| pc_version := None; pc_path := None;
          known_props := Some (foldl (fun props kv => <["--" +:+ to_lowercase (trim_prefix PREFIX 0 kv.1) := kv.2]> props) ∅
                                 (List.filter (fun kv => String.prefix PREFIX kv.1) env_vars));
          base_port := 0; base_testing_port := 0; test_port_override := None |}
  else Err NotInEnvironment.

Definition run (c : PgConfig) (arg : string) : result string :=
  match known_props c with
  | Some props => ok_or (NoKnownProperty arg) (props !! arg)
  | None =>
      let pg_config := default (default "pg_config" (env_var "PG_CONFIG")) (pc_path c) in
      stdout ← ok_or (CommandFailed pg_config arg) (output pg_config arg);
      Ok (trim stdout)
  end.

Definition get_version (c : PgConfig) : result PgVersion :=
  version_string ← run c "--version";
  match parse_version_str version_string with
  | Ok (major, minor) => Ok {| major := major; minor := minor; url := None |}
  | Err e =>
      match pc_path c ≫= file_name with
      | Some name => if contains "pg_config" name then Err e else Err (NotPgConfig e (default "" (pc_path c)))
      | None => Err e
      end
  | Panic => Panic
  end.

Definition major_version (c : PgConfig) : result Z :=
  match pc_version c with Some v => Ok (major v) | None => v ← get_version c; Ok (major v) end.
Definition minor_version (c : PgConfig) : result PgMinorVersion :=
  match pc_version c with Some v => Ok (minor v) | None => v ← get_version c; Ok (minor v) end.

Definition version (c : PgConfig) : result string :=
  match pc_version c with
  | Some v => Ok (version_display v)
  | None => major ← major_version c; minor ← minor_version c; Ok (show_u32 major +:+ minor_display minor)
  end.

Definition label (c : PgConfig) : result string := v ← major_version c; Ok ("pg" +:+ show_u32 v).
Definition port (c : PgConfig) : result Z := v ← major_version c; u16_add debug (base_port c) v.
Definition test_port (c : PgConfig) : result Z :=
  match test_port_override c with
  | Some port => Ok port
  | None => v ← major_version c; u16_add debug (base_testing_port c) v
  end.

(** Directories and programs of the installation; [EXE_SUFFIX] is empty. *)
Definition bin_dir (c : PgConfig) : result string := run c "--bindir".
Definition lib_dir (c : PgConfig) : result string := run c "--libdir".
Definition in_bin_dir (program : string) (c : PgConfig) : result string := path ← bin_dir c; Ok (path_push path program).
Definition postmaster_path : PgConfig -> result string := in_bin_dir "postgres".
Definition initdb_path : PgConfig -> result string := in_bin_dir "initdb".
Definition createdb_path : PgConfig -> result string := in_bin_dir "createdb".
Definition dropdb_path : PgConfig -> result string := in_bin_dir "dropdb".
Definition pg_ctl_path : PgConfig -> result string := in_bin_dir "pg_ctl".
Definition psql_path : PgConfig -> result string := in_bin_dir "psql".
Definition pgxs_path (c : PgConfig) : result string := run c "--pgxs".
Definition pkgincludedir (c : PgConfig) : result string := run c "--pkgincludedir".
Definition includedir_server (c : PgConfig) : result string := run c "--includedir-server".
Definition includedir_server_port_win32 (c : PgConfig) : result string :=
  dir ← includedir_server c; Ok (path_push (path_push dir "port") "win32").
Definition includedir_server_port_win32_msvc (c : PgConfig) : result string :=
  dir ← includedir_server c; Ok (path_push (path_push dir "port") "win32_msvc").
Definition pkglibdir (c : PgConfig) : result string := run c "--pkglibdir".
Definition sharedir (c : PgConfig) : result string := run c "--sharedir".
Definition cppflags (c : PgConfig) : result string := run c "--cppflags".
Definition extension_dir (c : PgConfig) : result string := path ← sharedir c; Ok (path_push path "extension").

(** Entries between single quotes; later ones replace earlier ones. *)
Definition configure (c : PgConfig) : result (gmap string string) :=
  stdout ← run c "--configure";
  Ok (foldl (fun m entry => match split_once "=" entry with Some (k, v) => <[k := v]> m | None => <[entry := ""]> m end) ∅
        (List.filter (fun s => negb (is_empty s || bool_decide (s = " "))) (split_char "'" stdout))).

(** ** Where pgrx keeps its files *)

(** The home directory, and whether a file exists. *)
Context (home_dir : option string) (exists_ : string -> bool).

Definition home : result string :=
  pgrx_home ← match env_var "PGRX_HOME" with
              | Some v => Ok v
              | None => match home_dir with Some home => Ok (path_push home ".pgrx") | None => Err NoHomeDirectory end
              end;
  if exists_ pgrx_home then Ok pgrx_home else Err (MissingPgrxHome pgrx_home).

Definition in_home (name : string) : result string := path ← home; Ok (path_push path name).
Definition postmaster_stub_dir : result string := in_home "postmaster_stubs".
Definition config_toml : result string := in_home "config.toml".
Definition data_dir (c : PgConfig) : result string :=
  path ← home; v ← major_version c; Ok (path_push path ("data-" +:+ show_u32 v)).
Definition log_file (c : PgConfig) : result string :=
  path ← home; v ← major_version c; Ok (path_push path (show_u32 v +:+ ".log")).

(** ** Managed installations *)

Record Pgrx := { pg_configs : list PgConfig; pgrx_base_port : Z; pgrx_base_testing_port : Z }.
Definition pgrx_new (port testing_port : Z) : Pgrx :=
  {| pg_configs := []; pgrx_base_port := port; pgrx_base_testing_port := testing_port |}.
Definition pgrx_default : Pgrx := pgrx_new BASE_POSTGRES_PORT_NO BASE_POSTGRES_TESTING_PORT_NO.
Definition push (p : Pgrx) (c : PgConfig) : Pgrx :=
  {| pg_configs := pg_configs p ++ [c]; pgrx_base_port := pgrx_base_port p; pgrx_base_testing_port := pgrx_base_testing_port p |}.

(** The file's tables; [toml_configs] in the order of the map's iteration. *)
Record ConfigToml := { toml_base_port : option Z; toml_base_testing_port : option Z; toml_configs : list (string * string) }.

Definition from_config (read_toml : string -> option ConfigToml) : result Pgrx :=
  match env_var "PGRX_PG_CONFIG_PATH" with
  | Some pg_config =>
      let pgrx := pgrx_default in
      Ok (push pgrx (pg_config_new pg_config (pgrx_base_port pgrx) (pgrx_base_testing_port pgrx)))
  | None =>
      path ← config_toml;
      if exists_ path then
        configs ← ok_or (TomlUnreadable path) (read_toml path);
        let pgrx := pgrx_new (default BASE_POSTGRES_PORT_NO (toml_base_port configs))
                      (default BASE_POSTGRES_TESTING_PORT_NO (toml_base_testing_port configs)) in
        Ok (foldl (fun pgrx kv => push pgrx (pg_config_new kv.2 (pgrx_base_port pgrx) (pgrx_base_testing_port pgrx)))
              pgrx (toml_configs configs))
      else Err (TomlNotFound path)
  end.

Inductive PgConfigSelector := All | Specific (label : string) | Environment.
Definition selector_new (l : string) : PgConfigSelector := if bool_decide (l = "all") then All else Specific l.

Fixpoint get (pg_configs : list PgConfig) (l : string) : result PgConfig :=
  match pg_configs with
  | [] => Err (NotManaged l)
  | c :: cs => l' ← label c; if bool_decide (l' = l) then Ok c else get cs l
  end.

(** [sort_by] is stable, and compares when there is more than one element; each
    element is then compared, and [expect]s its version. *)
Fixpoint insert_by (key : PgConfig -> Z) (c : PgConfig) (cs : list PgConfig) : list PgConfig :=
  match cs with
  | [] => [c]
  | d :: ds => if key c <=? key d then c :: cs else d :: insert_by key c ds
  end.
Definition sort_by (key : PgConfig -> Z) (cs : list PgConfig) : list PgConfig := foldr (insert_by key) [] cs.

Definition major_of (c : PgConfig) : Z := match major_version c with Ok v => v | _ => 0 end.

Definition sorted_configs (cs : list PgConfig) : outcome ConfigError (list PgConfig) :=
  match cs with
  | [] | [_] => Ok cs
  | _ => if forallb (fun c => is_ok (major_version c)) cs then Ok (sort_by major_of cs) else Panic
  end.

(** Each item may be an error. *)
Definition iter (pg_configs : list PgConfig) (which : PgConfigSelector) : outcome ConfigError (list (result PgConfig)) :=
  match which, is_in_environment with
  | All, true | Environment, _ => Ok [from_env]
  | All, false =>
      match sorted_configs pg_configs with Ok cs => Ok (List.map (fun c => Ok c) cs) | Err e => Err e | Panic => Panic end
  | Specific l, _ => Ok [get pg_configs l]
  end.
End Environment.

(** ** Supported versions *)

Definition SUPPORTED_VERSIONS : list PgVersion :=
  [ {| major := 13; minor := Latest; url := None |}; {| major := 14; minor := Latest; url := None |};
    {| major := 15; minor := Latest; url := None |}; {| major := 16; minor := Latest; url := None |};
    {| major := 17; minor := Latest; url := None |}; {| major := 18; minor := Latest; url := None |};
    {| major := 19; minor := Beta 4;
       url := Some "https://ftp.postgresql.org/pub/source/v19beta4/postgresql-19beta4.tar.bz2" |} ].

Definition is_supported_major_version (v : Z) : bool := existsb (fun p => major p =? v) SUPPORTED_VERSIONS.
Definition is_feature_flag (l : string) : bool := existsb (fun p => bool_decide (l = "pg" +:+ show_u32 (major p))) SUPPORTED_VERSIONS.
