(* ===== verification/PgConfigSafe.v ===== *)
(** * Versions are parsed, installations are found

    The parser of [PgConfig] against the texts versions are printed as, and the
    managed installations independently of the order they are listed in. *)
From stdpp Require Import base list gmap strings pretty sorting.
From S2P Require Import Prelude Metadata Text PgConfig.
#[local] Open Scope Z_scope.

(** ** Numbers *)

Definition is_u16 (z : Z) : Prop := 0 <= z < 2 ^ 16.

Lemma pretty_char_digit n : (n < 10)%N -> is_ascii_digit (pretty_N_char n) = true /\ digit_value (pretty_N_char n) = Z.of_N n.
Proof.
  intros Hn. assert (n ∈ [0; 1; 2; 3; 4; 5; 6; 7; 8; 9]%N) as Hin.
  { rewrite !elem_of_cons. lia. }
  repeat (apply elem_of_cons in Hin as [-> |Hin]; [done|]). by apply elem_of_nil in Hin.
Qed.

Lemma pretty_go_digits n : forall s,
  all_digits (pretty_N_go n s) = all_digits s /\ digits_value 0 (pretty_N_go n s) = digits_value (Z.of_N n) s.
Proof.
  induction (N.lt_wf_0 n) as [n _ IH]. intros s. destruct (decide (n = 0)%N) as [->|Hn].
  { by rewrite pretty_N_go_0. }
  rewrite pretty_N_go_step by lia.
  destruct (IH (n `div` 10)%N ltac:(apply N.div_lt; lia) (String (pretty_N_char (n `mod` 10)) s)) as [-> ->].
  destruct (pretty_char_digit (n `mod` 10)) as [Hd Hv]; [apply N.mod_lt; lia|].
  cbn [all_digits digits_value]. rewrite Hd, Hv. split; [done|]. f_equal.
  pose proof (N.div_mod n 10 ltac:(lia)). lia.
Qed.

Lemma show_digits z : 0 <= z -> all_digits (show_u32 z) = true /\ digits_value 0 (show_u32 z) = z /\ is_empty (show_u32 z) = false.
Proof.
  intros Hz. unfold show_u32, pretty, pretty_N. case_decide as H0.
  { replace z with 0 by lia. done. }
  destruct (pretty_go_digits (Z.to_N z) "") as [-> ->]. cbn [digits_value]. split; [done|]. split; [lia|].
  rewrite pretty_N_go_step by lia.
  assert (Hne : forall n s, is_empty s = false -> is_empty (pretty_N_go n s) = false); [|by apply Hne].
  clear. intros n. induction (N.lt_wf_0 n) as [n _ IH]. intros s Hs.
  destruct (decide (n = 0)%N) as [->|Hn]; [by rewrite pretty_N_go_0|].
  rewrite pretty_N_go_step by lia. apply IH; [apply N.div_lt; lia|done].
Qed.

Lemma digit_not (c : Ascii.ascii) : is_ascii_digit c = true ->
  solid c = true /\ c <> "."%char /\ c <> "b"%char /\ c <> "r"%char /\ c <> "+"%char.
Proof. destruct c as [[] [] [] [] [] [] [] []]; by vm_compute. Qed.

Lemma u16_from_str_show z : is_u16 z -> u16_from_str (show_u32 z) = Some z.
Proof.
  intros [H0 H1]. destruct (show_digits z H0) as (Hd & Hv & He). unfold u16_from_str.
  destruct (show_u32 z) as [|c s] eqn:Hs; [done|].
  assert (Hm : match String c s with String "+" rest => rest | _ => String c s end = String c s).
  { cbn [all_digits] in Hd. apply andb_true_iff in Hd as [Hc _]. apply digit_not in Hc as (_ & _ & _ & _ & Hp).
    destruct c as [[] [] [] [] [] [] [] []]; done. }
  rewrite Hm, Hd, Hv, He. cbn [orb negb]. by rewrite (proj2 (Z.ltb_lt _ _)) by lia.
Qed.

(** ** Splitting *)

(** Characters of one byte that are not white space. *)
Fixpoint all_solid (s : string) : bool :=
  match s with EmptyString => true | String c s => solid c && all_solid s end.

Lemma digits_solid s : all_digits s = true -> all_solid s = true.
Proof.
  induction s as [|c s IH]; [done|]. cbn. intros [Hc Hs]%andb_true_iff. apply digit_not in Hc as [-> _]. by rewrite IH.
Qed.

Lemma all_solid_app s t : all_solid (s +:+ t) = all_solid s && all_solid t.
Proof. induction s as [|c s IH]; [done|]. rewrite app_cons. cbn. by rewrite IH, andb_assoc. Qed.

Lemma split_ws_nonempty s : split_ws s <> [].
Proof.
  destruct s as [|a [|b [|c s]]]; cbn; repeat case_match; try done; unfold push_char; by repeat case_match.
Qed.

Lemma split_ws_solid_cons c s : solid c = true -> split_ws (String c s) = push_char c (split_ws s).
Proof.
  intros Hc. destruct (solid_not_ws c Hc) as (H1 & H2 & _ & H3 & _). cbn. rewrite H1. destruct s as [|b r]; [done|].
  rewrite H2. destruct r as [|d r]; [done|]. by rewrite H3.
Qed.

Lemma split_ws_solid s : all_solid s = true -> split_ws s = [s].
Proof.
  induction s as [|c s IH]; [done|]. cbn [all_solid]. intros [Hc Hs]%andb_true_iff.
  rewrite split_ws_solid_cons by done. by rewrite IH.
Qed.

Lemma split_ws_word s t : all_solid s = true -> split_ws (s +:+ String " " t) = s :: split_ws t.
Proof.
  induction s as [|c s IH]; [done|]. cbn [all_solid]. intros [Hc Hs]%andb_true_iff. rewrite app_cons.
  rewrite split_ws_solid_cons by done. by rewrite IH.
Qed.

(** The second word of a text, with or without more behind it. *)
Lemma second_word first word extra :
  all_solid first = true -> all_solid word = true -> is_empty first = false -> is_empty word = false ->
  extra = "" \/ (exists more, extra = String " " more) ->
  split_whitespace (first +:+ String " " (word +:+ extra)) !! 1%nat = Some word.
Proof.
  intros Hf Hw Hfe Hwe Hex. unfold split_whitespace. rewrite split_ws_word by done. cbn [List.filter]. rewrite Hfe. cbn [negb lookup list_lookup].
  destruct Hex as [->|[more ->]].
  - rewrite app_empty_r, split_ws_solid by done. cbn [List.filter]. by rewrite Hwe.
  - rewrite split_ws_word by done. cbn [List.filter]. by rewrite Hwe.
Qed.

Lemma digits_no_char c s : is_ascii_digit c = false -> all_digits s = true -> has_char c s = false.
Proof.
  intros Hc. induction s as [|d s IH]; [done|]. cbn. intros [Hd Hs]%andb_true_iff. rewrite IH by done.
  rewrite orb_false_r. apply Ascii.eqb_neq. intros ->. congruence.
Qed.

Lemma leading_digits_app s t : all_digits s = true -> leading_digits (s +:+ t) = s +:+ leading_digits t.
Proof.
  induction s as [|c s IH]; [done|]. rewrite app_cons. cbn. intros [Hc Hs]%andb_true_iff. rewrite Hc. by rewrite IH.
Qed.

(** What is behind the digits of a minor version. *)
Definition not_digit_first (s : string) : bool := match s with EmptyString => true | String c _ => negb (is_ascii_digit c) end.

Lemma split_char_cons sep s : exists part parts, split_char sep s = part :: parts.
Proof. induction s as [|c s (p & ps & IH)]; cbn; [by eexists _, _|]. rewrite IH. case_match; by eexists _, _. Qed.

Lemma minor_part v suffix :
  all_digits v = true -> not_digit_first suffix = true ->
  exists part parts, split_char "." (v +:+ suffix) = part :: parts /\ leading_digits part = v.
Proof.
  intros Hv Hs. destruct suffix as [|c suffix].
  { rewrite app_empty_r, split_char_absent by (by apply digits_no_char). exists v, []. split; [done|].
    rewrite <- (app_empty_r v) at 1. by rewrite leading_digits_app, app_empty_r. }
  destruct (Ascii.eqb c ".") eqn:Hc.
  - apply Ascii.eqb_eq in Hc as ->. rewrite split_char_app by (by apply digits_no_char). eexists _, _. split; [done|].
    rewrite <- (app_empty_r v) at 1. by rewrite leading_digits_app, app_empty_r.
  - destruct (split_char_cons "." suffix) as (p & ps & Hsplit).
    assert (Hgen : forall w, all_digits w = true -> split_char "." (w +:+ String c suffix) = (w +:+ String c p) :: ps).
    { induction w as [|d w IH]; intros Hw; [rewrite app_nil_s; cbn; by rewrite Hc, Hsplit|].
      cbn [all_digits] in Hw. apply andb_true_iff in Hw as [Hd Hw]. rewrite app_cons. cbn.
      destruct (Ascii.eqb d ".") eqn:Hdot; [apply Ascii.eqb_eq in Hdot as ->; done|]. by rewrite (IH Hw). }
    exists (v +:+ String c p), ps. split; [by apply Hgen|]. rewrite leading_digits_app by done. cbn in Hs |- *.
    destruct (is_ascii_digit c); [done|]. apply app_empty_r.
Qed.

Lemma contains_absent a pattern s : has_char a s = false -> contains (String a pattern) s = false.
Proof.
  induction s as [|c s IH]; [done|]. cbn. intros [Hc Hs]%orb_false_iff. rewrite IH by done.
  destruct (ascii_dec a c) as [->|]; [by rewrite Ascii.eqb_refl in Hc|done].
Qed.

Lemma prefix_app p t : String.prefix p (p +:+ t) = true.
Proof.
  induction p as [|a p IH]; [by destruct t|]. rewrite app_cons. cbn. by destruct (ascii_dec a a).
Qed.

Lemma contains_here pattern s t : contains pattern (s +:+ pattern +:+ t) = true.
Proof.
  induction s as [|c s IH].
  - rewrite app_nil_s. pose proof (prefix_app pattern t) as Hp.
    destruct (pattern +:+ t) eqn:E; cbn [contains]; by rewrite Hp.
  - rewrite app_cons. cbn [contains]. rewrite IH. apply orb_true_r.
Qed.

(** Splitting digits at a pattern that does not begin with one. *)
Lemma split_digits a p s : is_ascii_digit a = false -> all_digits s = true -> split_from (String a p) 0 s = [s].
Proof.
  intros Ha. induction s as [|c s IH]; [done|]. cbn [all_digits]. intros [Hc Hs]%andb_true_iff.
  cbn [split_from String.prefix]. destruct (ascii_dec a c) as [->|]; [congruence|]. by rewrite IH.
Qed.

Lemma split_skip p t u : split_from p (String.length t) (t +:+ u) = split_from p 0 u.
Proof.
  induction t as [|c t IH]; [by destruct u|]. rewrite app_cons. cbn [String.length split_from]. exact IH.
Qed.

Lemma split_digits_at a p s u :
  is_ascii_digit a = false -> all_digits s = true ->
  split_str (String a p) (s +:+ String a p +:+ u) = s :: split_from (String a p) 0 u.
Proof.
  intros Ha. unfold split_str. induction s as [|c s IH]; intros Hs.
  - rewrite app_nil_s, app_cons. cbn [split_from].
    rewrite <- (app_cons a p u), prefix_app. cbn [String.length]. f_equal.
    replace (S (String.length p) - 1)%nat with (String.length p) by lia. apply split_skip.
  - cbn [all_digits] in Hs. apply andb_true_iff in Hs as [Hc Hs]. rewrite app_cons.
    cbn [split_from String.prefix]. destruct (ascii_dec a c) as [->|]; [congruence|]. by rewrite IH.
Qed.

(** ** Versions *)

(** The text of a version, as [pg_config --version] prints it. *)
Definition version_text (first : string) (major : Z) (minor : PgMinorVersion) (suffix extra : string) : string :=
  first +:+ String " " ((show_u32 major +:+ minor_display minor +:+ suffix) +:+ extra).

Definition minor_ok (minor : PgMinorVersion) (suffix : string) : Prop :=
  match minor with
  | Latest => False
  | Release v => is_u16 v /\ not_digit_first suffix = true /\ all_solid suffix = true
  | Beta v | Rc v => is_u16 v /\ suffix = ""
  end.

Lemma word_solid major minor suffix :
  is_u16 major -> minor_ok minor suffix ->
  all_solid (show_u32 major +:+ minor_display minor +:+ suffix) = true /\ is_empty (show_u32 major +:+ minor_display minor +:+ suffix) = false.
Proof.
  intros [Hm0 Hm1] Hmin. destruct (show_digits major Hm0) as (Hd & _ & He). split.
  - rewrite !all_solid_app, (digits_solid _ Hd). cbn [andb].
    destruct minor as [|v|v|v]; [done|..]; destruct Hmin as ([Hv0 Hv1] & Hs); destruct (show_digits v Hv0) as (Hdv & _ & _);
      cbn [minor_display]; rewrite all_solid_app, (digits_solid _ Hdv); [by destruct Hs|by subst..].
  - by destruct (show_u32 major).
Qed.

Lemma parse_word first major minor suffix extra :
  all_solid first = true -> is_empty first = false -> is_u16 major -> minor_ok minor suffix ->
  extra = "" \/ (exists more, extra = String " " more) ->
  parse_version_str (version_text first major minor suffix extra) = Ok (major, minor).
Proof.
  intros Hf Hfe Hmaj Hmin Hex. destruct (word_solid major minor suffix Hmaj Hmin) as [Hw Hwe].
  unfold parse_version_str, version_text. rewrite (second_word _ _ _ Hf Hw Hfe Hwe Hex). cbn [ok_or mbind outcome_bind].
  pose proof (u16_from_str_show major Hmaj) as Hu. destruct (show_digits major (proj1 Hmaj)) as (Hd & _ & _).
  destruct minor as [|v|v|v]; [done|..]; cbn [minor_display minor_ok] in *; destruct Hmin as (Hv & Hs);
    pose proof (u16_from_str_show v Hv) as Huv; destruct (show_digits v (proj1 Hv)) as (Hdv & _ & _);
    assert (Hlead : leading_digits (show_u32 v) = show_u32 v)
      by (rewrite <- (app_empty_r (show_u32 v)) at 1; rewrite leading_digits_app by done; apply app_empty_r).
  - destruct Hs as [Hnd _]. 
    change (("." +:+ show_u32 v) +:+ suffix) with (String "." (show_u32 v +:+ suffix)).
    rewrite split_char_app by (by apply digits_no_char).
    destruct (minor_part _ _ Hdv Hnd) as (part & parts & -> & Hpart). cbn. by rewrite Hu, Hpart, Huv.
  - subst suffix. rewrite app_empty_r, split_char_absent.
    2:{ rewrite !has_char_app, (digits_no_char "." _ eq_refl Hd), (digits_no_char "." _ eq_refl Hdv). done. }
    cbn [version_kind]. rewrite contains_here, split_digits_at by done. change (split_from (String "b" "eta") 0 (show_u32 v)) with (split_from "beta" 0 (show_u32 v)).
    rewrite split_digits by done. cbn. by rewrite Hu, Hlead, Huv.
  - subst suffix. rewrite app_empty_r, split_char_absent.
    2:{ rewrite !has_char_app, (digits_no_char "." _ eq_refl Hd), (digits_no_char "." _ eq_refl Hdv). done. }
    cbn [version_kind]. rewrite contains_absent.
    2:{ rewrite !has_char_app, (digits_no_char "b" _ eq_refl Hd), (digits_no_char "b" _ eq_refl Hdv). done. }
    rewrite contains_here, split_digits_at, split_digits by done. cbn. by rewrite Hu, Hlead, Huv.
Qed.

Lemma split_from_two pattern s : contains pattern s = true -> is_empty pattern = false -> (2 <= length (split_from pattern 0 s))%nat.
Proof.
  assert (Hone : forall p k t, (1 <= length (split_from p k t))%nat).
  { intros p k t. revert k. induction t as [|c t IH]; intros k; [cbn; lia|]. cbn [split_from].
    destruct k as [|k]; [|apply IH]. case_match; [cbn; specialize (IH (String.length p - 1)%nat); lia|].
    specialize (IH 0%nat). destruct (split_from p 0 t); cbn in *; lia. }
  intros Hc Hp. induction s as [|c s IH]; [by destruct pattern|]. cbn [contains] in Hc. cbn [split_from].
  destruct (String.prefix pattern (String c s)); [cbn [length]; specialize (Hone pattern (String.length pattern - 1)%nat s); lia|].
  specialize (IH Hc). destruct (split_from pattern 0 s); cbn in *; lia.
Qed.

Lemma parse_no_panic s : is_panic (parse_version_str s) = false.
Proof.
  unfold parse_version_str. destruct (split_whitespace s !! 1%nat) as [word|]; [|done]. cbn [ok_or mbind outcome_bind].
  assert (Hk : exists e, version_kind s (split_char "." word) = Err e
    \/ exists k v, version_kind s (split_char "." word) = Ok (k, v) /\ (2 <= length v)%nat).
  { destruct (split_char_cons "." word) as (p & [|p2 ps] & ->); cbn [version_kind];
      [|exists (InvalidVersionString s); right; eexists _, _; split; [done|cbn; lia]].
    exists (InvalidVersionString s). destruct (contains "beta" p) eqn:Hb; [right; eexists _, _; split; [done|by apply split_from_two]|].
    destruct (contains "rc" p) eqn:Hr; [right; eexists _, _; split; [done|by apply split_from_two]|by left]. }
  destruct Hk as [e [->|(k & v & -> & Hlen)]]; [done|]. cbn [mbind outcome_bind].
  destruct v as [|v0 [|v1 v]]; [cbn in Hlen; lia..|]. cbn.
  destruct (u16_from_str v0); [|done]. cbn. by destruct (u16_from_str (leading_digits v1)).
Qed.

(** The version that [pg_config] prints is read back: a release with anything
    behind its number that does not begin with a digit, a beta or a release candidate,
    with more words behind it or not; and no text makes the parser panic. *)
Theorem version_round_trip first major minor suffix extra :
  all_solid first = true -> is_empty first = false -> is_u16 major -> minor_ok minor suffix ->
  extra = "" \/ (exists more, extra = String " " more) ->
  parse_version_str (version_text first major minor suffix extra) = Ok (major, minor)
  /\ forall s, is_panic (parse_version_str s) = false.
Proof. intros. split; [by apply parse_word|apply parse_no_panic]. Qed.

Lemma version_round_trip_witness :
  parse_version_str (version_text "PostgreSQL" 17 (Release 2) "-1.pgdg" " (Debian 17.2-1)") = Ok (17, Release 2)
  /\ forall s, is_panic (parse_version_str s) = false.
Proof.
  apply (version_round_trip "PostgreSQL" 17 (Release 2) "-1.pgdg" " (Debian 17.2-1)").
  - reflexivity.
  - reflexivity.
  - unfold is_u16. lia.
  - repeat split; reflexivity || (unfold is_u16; lia) || lia.
  - right. by eexists.
Defined.

(** ** Installations *)

Lemma show_inj v w : 0 <= v -> 0 <= w -> show_u32 v = show_u32 w -> v = w.
Proof.
  intros Hv Hw E. destruct (show_digits v Hv) as (_ & Dv & _), (show_digits w Hw) as (_ & Dw & _). congruence.
Qed.

Section Installations.
Context (env_vars : list (string * string)) (output : string -> string -> option string).
Notation major_version := (major_version env_vars output).
Notation major_of := (major_of env_vars output).
Notation label := (label env_vars output).
Notation get := (get env_vars output).
Notation iter := (iter env_vars output).

(** Each installation says its version, and no two have the same. *)
Definition readable (c : PgConfig) : Prop := exists v, major_version c = Ok v /\ is_u16 v.
Definition distinct (cs : list PgConfig) : Prop := Forall readable cs /\ NoDup (major_of <$> cs).

Lemma readable_label c : readable c -> label c = Ok ("pg" +:+ show_u32 (major_of c)) /\ is_u16 (major_of c).
Proof. intros (v & Hv & Hu). unfold PgConfig.label, PgConfig.major_of. rewrite Hv. done. Qed.

#[export] Instance distinct_proper : Proper ((≡ₚ) ==> iff) distinct.
Proof. intros cs cs' E. unfold distinct. by rewrite E. Qed.

Lemma distinct_cons c cs : distinct (c :: cs) -> readable c /\ distinct cs /\ major_of c ∉ (major_of <$> cs).
Proof. intros [Hr Hd]. apply list.Forall_cons in Hr as [? ?]. cbn in Hd. apply list.NoDup_cons in Hd as [? ?]. repeat split; done. Qed.

Lemma get_permutation cs cs' l : cs ≡ₚ cs' -> distinct cs -> get cs l = get cs' l.
Proof.
  induction 1 as [|c cs cs' E IH|c d cs|cs1 cs2 cs3 E1 IH1 E2 IH2]; intros Hd.
  - done.
  - apply distinct_cons in Hd as (_ & Hd & _). cbn. by rewrite IH.
  - apply distinct_cons in Hd as (Hrd & Hd & Hne). apply distinct_cons in Hd as (Hrc & _ & _).
    apply readable_label in Hrd as [Ld Ud], Hrc as [Lc Uc]. cbn. rewrite Ld, Lc. cbn.
    case_bool_decide as H1; case_bool_decide as H2; [|done..].
    exfalso. apply Hne. cbn. apply elem_of_cons. left.
    apply show_inj; [apply Ud|apply Uc|]. rewrite <- H2 in H1. by injection H1.
  - rewrite IH1 by done. apply IH2. by rewrite <- E1.
Qed.

Notation le_major := (fun c d => major_of c <= major_of d).

Lemma insert_permutation c cs : insert_by major_of c cs ≡ₚ c :: cs.
Proof. induction cs as [|d cs IH]; cbn; [done|]. case_match; [done|]. rewrite IH. constructor. Qed.

Lemma sort_permutation cs : sort_by major_of cs ≡ₚ cs.
Proof. induction cs as [|c cs IH]; cbn; [done|]. by rewrite insert_permutation, IH. Qed.

Lemma insert_sorted c cs : StronglySorted le_major cs -> StronglySorted le_major (insert_by major_of c cs).
Proof.
  induction 1 as [|d cs Hs IH Hd]; cbn; [repeat constructor|]. destruct (Z.leb_spec (major_of c) (major_of d)) as [Hle|Hlt].
  - constructor; [by constructor|]. constructor; [done|]. eapply List.Forall_impl; [|exact Hd]. cbn. lia.
  - constructor; [exact IH|]. rewrite insert_permutation. constructor; [cbn; lia|done].
Qed.

Lemma sort_sorted cs : StronglySorted le_major (sort_by major_of cs).
Proof. induction cs as [|c cs IH]; cbn; [constructor|]. by apply insert_sorted. Qed.

Lemma distinct_inj cs c d : distinct cs -> c ∈ cs -> d ∈ cs -> major_of c = major_of d -> c = d.
Proof.
  induction cs as [|e cs IH]; intros Hd Hc Hd' E; [by apply elem_of_nil in Hc|].
  apply distinct_cons in Hd as (_ & Hd & Hne).
  apply elem_of_cons in Hc as [-> |Hc], Hd' as [-> |Hd']; [done|..|by apply IH]; exfalso; apply Hne.
  - rewrite E. by apply list_elem_of_fmap_2.
  - rewrite <- E. by apply list_elem_of_fmap_2.
Qed.

Lemma sorted_configs_ok cs : Forall readable cs -> sorted_configs env_vars output cs = Ok (sort_by major_of cs).
Proof.
  intros Hr. destruct cs as [|c [|d cs]]; [done..|]. unfold sorted_configs.
  replace (forallb _ _) with true; [done|]. symmetry. apply forallb_forall. intros x Hx%list_elem_of_In.
  rewrite list.Forall_forall in Hr. destruct (Hr x Hx) as (v & -> & _). done.
Qed.

Lemma sort_unique cs cs' : cs ≡ₚ cs' -> distinct cs -> sort_by major_of cs = sort_by major_of cs'.
Proof.
  intros E Hd. apply (StronglySorted_unique_strong le_major); [|apply sort_sorted..|by rewrite !sort_permutation].
  intros c d Hc Hd' H1 H2. rewrite sort_permutation in Hc. rewrite sort_permutation, <- E in Hd'.
  by eapply distinct_inj; [exact Hd|..|lia].
Qed.

(** When each managed installation says its version and no two agree, what is
    found does not depend on the order they are listed in, which is that of a hash map:
    [get] finds the same installation for every label, [iter] the same for every
    selector, and all of them come by ascending version. *)
Theorem installations_order_independent cs cs' :
  cs ≡ₚ cs' -> distinct cs ->
  (forall l, get cs l = get cs' l)
  /\ (forall which, iter cs which = iter cs' which)
  /\ (is_in_environment env_vars = false ->
      exists sorted, iter cs All = Ok (List.map (fun c => Ok c) sorted) /\ sorted ≡ₚ cs /\ StronglySorted le_major sorted).
Proof.
  intros E Hd. split; [intros l; by apply get_permutation|]. split.
  - intros [|l|]; cbn; [|by rewrite (get_permutation cs cs')|done]. destruct (is_in_environment env_vars); [done|].
    rewrite !sorted_configs_ok by (apply Hd || rewrite <- E; apply Hd). by rewrite (sort_unique cs cs').
  - intros Hn. exists (sort_by major_of cs). unfold PgConfig.iter. rewrite Hn, sorted_configs_ok by apply Hd.
    split; [done|]. split; [apply sort_permutation|apply sort_sorted].
Qed.
End Installations.

(** Two installations, and a third whose program cannot be run. *)
Definition say_version (path arg : string) : option string :=
  if bool_decide (arg = "--version") then
    if bool_decide (path = "/pg16/bin/pg_config") then Some ("PostgreSQL 16.4" +:+ nl)
    else if bool_decide (path = "/pg17/bin/pg_config") then Some ("PostgreSQL 17rc1" +:+ nl) else None
  else None.
Definition pg16 : PgConfig := new_with_defaults "/pg16/bin/pg_config".
Definition pg17 : PgConfig := new_with_defaults "/pg17/bin/pg_config".
Definition pg_gone : PgConfig := new_with_defaults "/gone/pg_config".

Lemma installations_order_independent_witness :
  (forall l, get [] say_version [pg17; pg16] l = get [] say_version [pg16; pg17] l)
  /\ (forall which, iter [] say_version [pg17; pg16] which = iter [] say_version [pg16; pg17] which)
  /\ (is_in_environment [] = false ->
      exists sorted, iter [] say_version [pg17; pg16] All = Ok (List.map (fun c => Ok c) sorted) /\ sorted ≡ₚ [pg17; pg16]
        /\ StronglySorted (fun c d => major_of [] say_version c <= major_of [] say_version d) sorted).
Proof.
  apply (installations_order_independent [] say_version [pg17; pg16] [pg16; pg17]).
  - constructor.
  - split.
    + repeat constructor; [exists 17|exists 16]; (split; [vm_compute; reflexivity|unfold is_u16; lia]).
    + apply (bool_decide_unpack _). vm_compute. exact I.
Defined.

(** An installation that cannot be read hides those listed behind it, and iterating
    over all of them panics. *)
Example unreadable_hides_others :
  get [] say_version [pg16; pg_gone] "pg16" = Ok pg16
  /\ get [] say_version [pg_gone; pg16] "pg16" = Err (CommandFailed "/gone/pg_config" "--version")
  /\ iter [] say_version [pg16; pg_gone] All = Panic.
Proof. vm_compute. repeat split; reflexivity. Qed.

(** A value that is neither true nor false does not select the environment. *)
Example as_env_only_true :
  is_in_environment [("PGRX_PG_CONFIG_AS_ENV", "true")] = true
  /\ is_in_environment [("PGRX_PG_CONFIG_AS_ENV", "1")] = false.
Proof. done. Qed.
