(* ===== verification/PgDatabase.v ===== *)
(** * Databases of an installation

    [createdb], [dropdb] and [does_db_exist] of [pgrx-pg-config/src/lib.rs]: the
    commands they run, and what they do to servers that answer such commands.

    The programs are parameters: [exec] runs a command in a world, and the class
    [Servers] says what [psql], [createdb] and [dropdb] do there. *)
From stdpp Require Import base list gmap strings pretty.
From S2P Require Import Prelude Metadata Text PgConfig PgConfigSafe.
#[local] Open Scope Z_scope.

(** [std::process::Command] and [Output] *)
Record Command := { program : string; args : list string; env_remove : list string }.
Record Output := { success : bool; stdout : string; stderr : string }.

Inductive DbError :=
| ConfigErr (e : ConfigError)
| SpawnFailed (command : Command)
| CommandFailedWith (command : Command) (stdout stderr : string)
| NotANumber (text : string).

(** [i32::from_str] *)
Definition i32_from_str (s : string) : option Z :=
  let '(sign, digits) := match s with
                         | String "+" rest => (1, rest)
                         | String "-" rest => (-1, rest)
                         | _ => (1, s)
                         end in
  if is_empty digits || negb (all_digits digits) then None
  else let n := sign * digits_value 0 digits in if (- 2 ^ 31 <=? n) && (n <? 2 ^ 31) then Some n else None.

Definition quote : string := "'".
Definition count_query (dbname : string) : string :=
  "select count(*) from pg_database where datname = '" +:+ replace quote (quote +:+ quote) dbname +:+ "';".

Definition of_config {A} (r : outcome ConfigError A) : outcome DbError A :=
  match r with Ok a => Ok a | Err e => Err (ConfigErr e) | Panic => Panic end.

Section Databases.
Context (env_vars : list (string * string)) (output : string -> string -> option string) (debug : bool).
Context {World : Type} (exec : World -> Command -> World * option Output).

(** Commands change the world: a computation returns the world it leaves. *)
Definition db (A : Type) : Type := World -> World * outcome DbError A.
Definition db_bind {A B} (m : db A) (f : A -> db B) : db B := fun w =>
  match m w with
  | (w', Ok a) => f a w'
  | (w', Err e) => (w', Err e)
  | (w', Panic) => (w', Panic)
  end.
Definition lift {A} (r : outcome DbError A) : db A := fun w => (w, r).
Definition output_of (command : Command) : db Output := fun w =>
  match exec w command with
  | (w', Some out) => (w', Ok out)
  | (w', None) => (w', Err (SpawnFailed command))
  end.

Definition does_db_exist (c : PgConfig) (dbname : string) : db bool :=
  db_bind (lift (of_config (psql_path env_vars output c))) (fun psql =>
  db_bind (lift (of_config (port env_vars output debug c))) (fun p =>
  let command := {| program := psql;
                    args := ["-XqAt"; "-h"; host; "-p"; show_u32 p; "-c"; count_query dbname; "template1"];
                    env_remove := ["PGUSER"] |} in
  db_bind (output_of command) (fun out => lift (
  if success out then
    count ← ok_or (NotANumber (stdout out)) (i32_from_str (trim (stdout out)));
    Ok (0 <? count)
  else Err (CommandFailedWith command (stdout out) (stderr out)))))).

(** A program, or [sudo] running it as another user. *)
Definition run_as (runas : option string) (path : string) (rest : list string) : Command :=
  let env := ["PGDATABASE"; "PGHOST"; "PGPORT"; "PGUSER"] in
  match runas with
  | Some user => {| program := "sudo"; args := ["-u"; user; path] ++ rest; env_remove := env |}
  | None => {| program := path; args := rest; env_remove := env |}
  end.

Definition which_port (c : PgConfig) (is_test : bool) : outcome ConfigError Z :=
  if is_test then test_port env_vars output debug c else port env_vars output debug c.

Definition checked (command : Command) : db bool :=
  db_bind (output_of command) (fun out => lift (
  if success out then Ok true else Err (CommandFailedWith command (stdout out) (stderr out)))).

Definition createdb (c : PgConfig) (dbname : string) (is_test if_not_exists : bool) (runas : option string) : db bool :=
  db_bind (if if_not_exists then does_db_exist c dbname else lift (Ok false)) (fun found =>
  if found then lift (Ok false)
  else
    db_bind (lift (of_config (createdb_path env_vars output c))) (fun path =>
    db_bind (lift (of_config (which_port c is_test))) (fun p =>
    checked (run_as runas path ["-h"; host; "-p"; show_u32 p; dbname])))).

Definition dropdb (c : PgConfig) (dbname : string) (is_test : bool) (runas : option string) : db bool :=
  db_bind (does_db_exist c dbname) (fun found =>
  if found then
    db_bind (lift (of_config (dropdb_path env_vars output c))) (fun path =>
    db_bind (lift (of_config (which_port c is_test))) (fun p =>
    checked (run_as runas path ["-h"; host; "-p"; show_u32 p; "--force"; dbname])))
  else lift (Ok false)).
End Databases.

(** ** What the programs do *)

(** The body of an SQL string, up to its closing quote, and what is behind it. *)
Fixpoint sql_string (s : string) : option (string * string) :=
  match s with
  | EmptyString => None
  | String "'" rest =>
      match rest with
      | String "'" rest' => '(value, behind) ← sql_string rest'; Some (String "'" value, behind)
      | _ => Some (EmptyString, rest)
      end
  | String c rest => '(value, behind) ← sql_string rest; Some (String c value, behind)
  end.

(** A command runs a tool with arguments, by itself or under [sudo]. *)
Definition runs (command : Command) (tool : string) (arguments : list string) : Prop :=
  exists path, file_name path = Some tool /\
    ((program command = path /\ args command = arguments)
     \/ (program command = "sudo" /\ exists user, args command = "-u" :: user :: path :: arguments)).

(** Servers that listen on ports, each with its databases. *)
Class Servers {World} (exec : World -> Command -> World * option Output) (databases : World -> Z -> gset string)
    (listening : gset Z) : Prop := {
  psql_counts w command p body name :
    p ∈ listening ->
    runs command "psql" ["-XqAt"; "-h"; "localhost"; "-p"; show_u32 p; "-c";
                         "select count(*) from pg_database where datname = '" +:+ body; "template1"] ->
    sql_string body = Some (name, ";") ->
    exec w command = (w, Some {| success := true; stdout := (if bool_decide (name ∈ databases w p) then "1" else "0") +:+ nl; stderr := "" |});
  createdb_creates w command p name :
    p ∈ listening -> runs command "createdb" ["-h"; "localhost"; "-p"; show_u32 p; name] -> name ∉ databases w p ->
    exists w' out, exec w command = (w', Some out) /\ success out = true
      /\ forall q, databases w' q = if decide (q = p) then {[name]} ∪ databases w p else databases w q;
  dropdb_drops w command p name :
    p ∈ listening -> runs command "dropdb" ["-h"; "localhost"; "-p"; show_u32 p; "--force"; name] -> name ∈ databases w p ->
    exists w' out, exec w command = (w', Some out) /\ success out = true
      /\ forall q, databases w' q = if decide (q = p) then databases w p ∖ {[name]} else databases w q;
}.

(** ** Names *)

(** The quoted name is the name the server reads. *)
Lemma replace_quote_cons c s :
  replace quote (quote +:+ quote) (String c s) =
  (if Ascii.eqb c "'" then String "'" (String "'" (replace quote (quote +:+ quote) s)) else String c (replace quote (quote +:+ quote) s)).
Proof.
  unfold replace, quote. cbn [replace_from String.prefix]. destruct (ascii_dec "'" c) as [<-|Hne].
  - rewrite Ascii.eqb_refl. by destruct s.
  - destruct (Ascii.eqb_spec c "'") as [->|]; [done|]. done.
Qed.

Lemma sql_string_other c s : c <> "'"%char ->
  sql_string (String c s) = ('(value, behind) ← sql_string s; Some (String c value, behind)).
Proof. intros Hc. destruct c as [[] [] [] [] [] [] [] []]; done. Qed.

Lemma sql_string_quoted name : sql_string (replace quote (quote +:+ quote) name +:+ "';") = Some (name, ";").
Proof.
  induction name as [|c name IH]; [done|]. rewrite replace_quote_cons. destruct (Ascii.eqb_spec c "'") as [->|Hc].
  - rewrite !app_cons. cbn [sql_string]. by rewrite IH.
  - rewrite app_cons, sql_string_other by done. by rewrite IH.
Qed.

Lemma split_char_last sep s t : exists part parts, split_char sep (s +:+ String sep t) = part :: parts ++ split_char sep t.
Proof.
  induction s as [|c s (part & parts & IH)]; [rewrite app_nil_s; cbn; rewrite Ascii.eqb_refl; by exists "", []|].
  rewrite app_cons. cbn. rewrite IH. case_match; [by exists "", (part :: parts)|by exists (String c part), parts].
Qed.

(** A program's name: one component of a path. *)
Definition component (name : string) : bool :=
  negb (has_char "/" name || is_empty name || bool_decide (name = ".") || bool_decide (name = "..")).

Lemma file_name_last name : component name = true -> forall dir, file_name (dir +:+ String "/" name) = Some name /\ file_name name = Some name.
Proof.
  unfold component. rewrite negb_true_iff, !orb_false_iff, !bool_decide_eq_false. intros [[[Hs He] Hd] Hdd] dir.
  unfold file_name. destruct (split_char_last "/" dir name) as (part & parts & ->). rewrite split_char_absent by done.
  rewrite app_comm_cons, rev_unit. cbn [rev List.filter app]. rewrite He, (bool_decide_false _ Hd). cbn [negb orb].
  by rewrite (bool_decide_false _ Hdd).
Qed.

Lemma ends_with_char_inv c s : ends_with_char c s = true -> exists t, s = t +:+ String c "".
Proof.
  induction s as [|d s IH]; [done|]. destruct s as [|e s].
  - cbn. intros ->%Ascii.eqb_eq. by exists "".
  - intros H. destruct IH as [t ->]; [done|]. by exists (String d t).
Qed.

Lemma file_name_push dir name : component name = true -> file_name (path_push dir name) = Some name.
Proof.
  intros Hc. unfold path_push. assert (starts_with_char "/" name = false) as ->.
  { unfold component in Hc. rewrite negb_true_iff, !orb_false_iff in Hc. destruct Hc as [[[Hs _] _] _].
    destruct name as [|c name]; [done|]. cbn in Hs. by apply orb_false_iff in Hs as [? _]. }
  destruct (is_empty dir || ends_with_char "/" dir) eqn:E; [|by apply file_name_last].
  apply orb_true_iff in E as [E|(t & ->)%ends_with_char_inv].
  - destruct dir; [|done]. rewrite app_nil_s. by apply (file_name_last name Hc "").
  - rewrite app_assoc_s, app_cons, app_nil_s. by apply file_name_last.
Qed.

Lemma run_as_runs runas dir tool rest :
  component tool = true -> runs (run_as runas (path_push dir tool) rest) tool rest.
Proof.
  intros Hc. exists (path_push dir tool). split; [by apply file_name_push|]. destruct runas as [user|]; [right|by left].
  split; [done|]. by exists user.
Qed.

(** ** Against the servers *)

Lemma checked_success {World} (exec : World -> Command -> World * option Output) w command w' out :
  exec w command = (w', Some out) -> success out = true -> checked exec command w = (w', Ok true).
Proof. intros He Hs. unfold checked, db_bind, output_of, lift. by rewrite He, Hs. Qed.

Section Managed.
Context (env_vars : list (string * string)) (output : string -> string -> option string) (debug : bool).
Context `{S : Servers World exec databases listening}.
Context (c : PgConfig) (dir : string) (p : Z).
Hypothesis bin_dir_c : bin_dir env_vars output c = Ok dir.
Hypothesis port_c : port env_vars output debug c = Ok p.
Hypothesis listening_p : p ∈ listening.

Lemma in_bin_dir_c tool : in_bin_dir env_vars output tool c = Ok (path_push dir tool).
Proof using bin_dir_c. unfold in_bin_dir. by rewrite bin_dir_c. Qed.

(** The database is looked for on the main port, and nothing changes. *)
Lemma does_db_exist_spec w name :
  does_db_exist env_vars output debug exec c name w = (w, Ok (bool_decide (name ∈ databases w p))).
Proof using bin_dir_c port_c listening_p S.
  unfold does_db_exist, db_bind, lift, psql_path, output_of. rewrite in_bin_dir_c, port_c. cbn [of_config].
  erewrite psql_counts; [|exact listening_p| |exact (sql_string_quoted name)].
  - cbn [success stdout]. by case_bool_decide.
  - exists (path_push dir "psql"). split; [by apply file_name_push|]. by left.
Qed.

(** Creating and dropping at the port that is asked for. *)
Lemma create_spec is_test q w name runas :
  which_port env_vars output debug c is_test = Ok q -> q ∈ listening -> name ∉ databases w q ->
  exists w', createdb env_vars output debug exec c name is_test false runas w = (w', Ok true)
    /\ forall r, databases w' r = if decide (r = q) then {[name]} ∪ databases w q else databases w r.
Proof using bin_dir_c S.
  intros Hq Hl Hn. unfold createdb, db_bind, lift, createdb_path. rewrite in_bin_dir_c, Hq. cbn [of_config].
  destruct (createdb_creates w (run_as runas (path_push dir "createdb") ["-h"; host; "-p"; show_u32 q; name]) q name Hl)
    as (w' & out & He & Hs & Hdb); [by apply run_as_runs|done|].
  exists w'. split; [by eapply checked_success|done].
Qed.

Lemma createdb_if_missing is_test w name runas :
  createdb env_vars output debug exec c name is_test true runas w =
  (if bool_decide (name ∈ databases w p) then (w, Ok false)
   else createdb env_vars output debug exec c name is_test false runas w).
Proof using bin_dir_c port_c listening_p S.
  unfold createdb at 1. unfold db_bind at 1. rewrite does_db_exist_spec. by case_bool_decide.
Qed.

Lemma dropdb_spec w name runas :
  exists w', dropdb env_vars output debug exec c name false runas w = (w', Ok (bool_decide (name ∈ databases w p)))
    /\ forall r, databases w' r = if decide (r = p) then databases w p ∖ {[name]} else databases w r.
Proof using bin_dir_c port_c listening_p S.
  unfold dropdb. unfold db_bind at 1. rewrite does_db_exist_spec. case_bool_decide as Hn.
  - unfold db_bind, lift, dropdb_path, which_port. rewrite in_bin_dir_c, port_c. cbn [of_config].
    destruct (dropdb_drops w (run_as runas (path_push dir "dropdb") ["-h"; host; "-p"; show_u32 p; "--force"; name]) p name listening_p)
      as (w' & out & He & Hs & Hdb); [by apply run_as_runs|done|].
    exists w'. split; [by eapply checked_success|done].
  - exists w. split; [done|]. intros r. case_decide; [|done]. subst. set_solver.
Qed.

(** Against servers that do what [psql], [createdb] and [dropdb] document:
    [createdb] that is to create a missing database leaves it on the installation's
    server and says whether it was missing; [dropdb] leaves it absent and says whether
    it was there; no other database of any server changes; whatever characters the
    name has, and whoever the commands run as. *)
Theorem databases_managed w name runas :
  (exists w', createdb env_vars output debug exec c name false true runas w = (w', Ok (bool_decide (name ∉ databases w p)))
    /\ forall r, databases w' r = if decide (r = p) then {[name]} ∪ databases w p else databases w r)
  /\ (exists w', dropdb env_vars output debug exec c name false runas w = (w', Ok (bool_decide (name ∈ databases w p)))
    /\ forall r, databases w' r = if decide (r = p) then databases w p ∖ {[name]} else databases w r).
Proof using bin_dir_c port_c listening_p S.
  split; [|apply dropdb_spec]. rewrite createdb_if_missing. destruct (decide (name ∈ databases w p)) as [Hn|Hn].
  - rewrite (bool_decide_true (name ∈ _)), (bool_decide_false (name ∉ _)) by tauto. exists w. split; [done|].
    intros r. case_decide; [|done]. subst. set_solver.
  - rewrite (bool_decide_false (name ∈ _)), (bool_decide_true (name ∉ _)) by tauto. by apply create_spec.
Qed.
End Managed.

(** ** Servers that exist *)

#[local] Abbreviation Clusters := (gmap Z (gset string)).
Definition ports : gset Z := {[28817; 32217]}.
Definition at_port (w : Clusters) (p : Z) : gset string := default ∅ (w !! p).
Definition port_named (s : string) : option Z :=
  if bool_decide (s = "28817") then Some 28817 else if bool_decide (s = "32217") then Some 32217 else None.

(** The tool that a command runs, and its arguments. *)
Definition tool_of (command : Command) : option string * list string :=
  if bool_decide (program command = "sudo") then
    match args command with _ :: _ :: path :: rest => (file_name path, rest) | _ => (None, []) end
  else (file_name (program command), args command).

Definition said (s : string) : Output := {| success := true; stdout := s; stderr := "" |}.
Definition query_start : string := "select count(*) from pg_database where datname = '".
Fixpoint drop_chars (n : nat) (s : string) : string :=
  match n, s with S n, String _ s => drop_chars n s | _, _ => s end.

Definition answer (w : Clusters) (command : Command) : Clusters * option Output :=
  match tool_of command with
  | (Some tool, arguments) =>
      if bool_decide (tool = "psql") then
        match arguments with
        | [_; _; _; _; p; _; query; _] =>
            match port_named p, sql_string (drop_chars (String.length query_start) query) with
            | Some p, Some (name, _) => (w, Some (said ((if bool_decide (name ∈ at_port w p) then "1" else "0") +:+ nl)))
            | _, _ => (w, None)
            end
        | _ => (w, None)
        end
      else
        match arguments with
        | [_; _; _; p; name] =>
            match port_named p with Some p => (<[p := {[name]} ∪ at_port w p]> w, Some (said "")) | None => (w, None) end
        | [_; _; _; p; _; name] =>
            match port_named p with Some p => (<[p := at_port w p ∖ {[name]}]> w, Some (said "")) | None => (w, None) end
        | _ => (w, None)
        end
  | (None, _) => (w, None)
  end.

Lemma port_named_show p : p ∈ ports -> port_named (show_u32 p) = Some p.
Proof. unfold ports. rewrite elem_of_union, !elem_of_singleton. by intros [-> | ->]. Qed.

Lemma tool_of_runs command tool arguments :
  runs command tool arguments -> tool <> "sudo" -> tool_of command = (Some tool, arguments).
Proof.
  intros (path & Hf & [[Hp Ha]|[Hp [user Ha]]]) Hne; unfold tool_of; rewrite Hp, Ha.
  - case_bool_decide as Hs; [|by rewrite Hf]. subst path. rewrite Hs in Hf. by injection Hf as <-.
  - by rewrite Hf.
Qed.

Lemma at_port_insert (w : Clusters) p dbs q : at_port (<[p := dbs]> w) q = if decide (q = p) then dbs else at_port w q.
Proof. unfold at_port. case_decide as Hq; [subst; by rewrite lookup_insert_eq|by rewrite lookup_insert_ne]. Qed.

#[export] Instance answer_servers : Servers answer at_port ports.
Proof.
  split.
  - intros w command p body name Hp Hr Hs. unfold answer. rewrite (tool_of_runs _ _ _ Hr) by done.
    rewrite bool_decide_true, port_named_show by done.
    change (drop_chars (String.length query_start) _) with body. by rewrite Hs.
  - intros w command p name Hp Hr Hn. unfold answer. rewrite (tool_of_runs _ _ _ Hr) by done.
    rewrite bool_decide_false, port_named_show by done. eexists _, _. split; [done|]. split; [done|apply at_port_insert].
  - intros w command p name Hp Hr Hn. unfold answer. rewrite (tool_of_runs _ _ _ Hr) by done.
    rewrite bool_decide_false, port_named_show by done. eexists _, _. split; [done|]. split; [done|apply at_port_insert].
Qed.

(** An installation of version 17. *)
Definition say_17 (path arg : string) : option string :=
  if bool_decide (arg = "--version") then Some "PostgreSQL 17.2"
  else if bool_decide (arg = "--bindir") then Some "/pg17/bin" else None.

Lemma databases_managed_witness :
  (exists w', createdb [] say_17 true answer pg17 "it's" false true (Some "postgres") ∅ = (w', Ok true)
    /\ forall r, at_port w' r = if decide (r = 28817) then {["it's"]} ∪ at_port ∅ 28817 else at_port ∅ r)
  /\ (exists w', dropdb [] say_17 true answer pg17 "it's" false (Some "postgres") ∅ = (w', Ok false)
    /\ forall r, at_port w' r = if decide (r = 28817) then at_port ∅ 28817 ∖ {["it's"]} else at_port ∅ r).
Proof.
  assert (Hb : bin_dir [] say_17 pg17 = Ok "/pg17/bin") by (vm_compute; reflexivity).
  assert (Hp : port [] say_17 true pg17 = Ok 28817) by (vm_compute; reflexivity).
  assert (Hl : 28817 ∈ ports) by set_solver.
  exact (databases_managed [] say_17 true (S := answer_servers) pg17 "/pg17/bin" 28817 Hb Hp Hl ∅ "it's" (Some "postgres")).
Defined.

(** A database of the test server is looked for on the main server: here the test
    server has none and gets none. *)
Example test_database_not_created :
  let w : Clusters := {[28817 := {["pgrx_tests"]}]} in
  test_port [] say_17 true pg17 = Ok 32217
  /\ createdb [] say_17 true answer pg17 "pgrx_tests" true true None w = (w, Ok false)
  /\ at_port w 32217 = ∅.
Proof. vm_compute. repeat split; reflexivity. Qed.
