(* ===== verification/DateTime.v ===== *)
(** * Dates, times and intervals

    [pgrx/src/datetime/]: the wrappers of Postgres' date and time types, which hold
    the integers Postgres does, with their conversions from raw values, datums and
    [std::time::Duration], and their constructors, which call Postgres.

    What Postgres' own functions compute is a parameter: each takes datums and gives
    one, null, or an error with its code. *)
From Stdlib Require Import Floats.SpecFloat.
From stdpp Require Import base list strings.
From S2P Require Import Prelude ErrCodes Memory.
#[local] Open Scope Z_scope.

(** ** Integers *)

Definition i32_MIN : Z := - 2 ^ 31.
Definition i32_MAX : Z := 2 ^ 31 - 1.
Definition i64_MIN : Z := - 2 ^ 63.
Definition i64_MAX : Z := 2 ^ 63 - 1.
Definition is_i32 (z : Z) : Prop := i32_MIN <= z <= i32_MAX.
Definition is_i64 (z : Z) : Prop := i64_MIN <= z <= i64_MAX.

(** [as] to a signed integer of [w] bits. *)
Definition wrap (w z : Z) : Z := as_signed w (z mod 2 ^ w).

(** Arithmetic of [w] bits overflows with a panic in a debug build, and wraps in a
    release build. *)
Definition checked (debug : bool) (w z : Z) : ending Z :=
  if (- 2 ^ (w - 1) <=? z) && (z <? 2 ^ (w - 1)) then Returned z
  else if debug then Panicked "attempt to compute with overflow" else Returned (wrap w z).

(** [match v { lo..=hi => .. }] *)
Definition within (lo hi z : Z) : bool := (lo <=? z) && (z <=? hi).

(** ** Constants *)

Definition POSTGRES_EPOCH_JDATE : Z := 2451545.
Definition UNIX_EPOCH_JDATE : Z := 2440588.
Definition DATETIME_MIN_JULIAN : Z := 0.
Definition DATE_END_JULIAN : Z := 2147483494.
Definition SECS_PER_DAY : Z := 86400.
Definition DAYS_PER_MONTH : Z := 30.
Definition TZDISP_LIMIT : Z := 57600.
Definition USECS_PER_SEC : Z := 1000000.
Definition USECS_PER_DAY : Z := SECS_PER_DAY * USECS_PER_SEC.
Definition MICROSECONDS_PER_DAY : Z := 24 * 60 * 60 * 1000 * 1000.

Definition JULIAN_DAY_ZERO : Z := DATETIME_MIN_JULIAN - POSTGRES_EPOCH_JDATE.
Definition LAST_JULIAN_DAY : Z := DATE_END_JULIAN - POSTGRES_EPOCH_JDATE - 1.
Definition LT_JULIAN_DAY_ZERO : Z := JULIAN_DAY_ZERO - 1.
Definition GT_LAST_JULIAN_DAY : Z := LAST_JULIAN_DAY + 1.

Definition MIN_TIMESTAMP : Z := -211813488000000000.
Definition END_TIMESTAMP : Z := 9223371331200000000.
Definition MAX_TIMESTAMP : Z := END_TIMESTAMP - 1.
Definition MIN_TIMESTAMP_USEC : Z := -211813488000000000.
Definition END_TIMESTAMP_USEC : Z := 9223371331200000000 - 1.

(** ** Types *)

Record Date := MkDate { date : Z }.
Record Time := MkTime { time_of : Z }.
Record Timestamp := MkTimestamp { timestamp : Z }.
Record TimestampWithTimeZone := MkTimestampTz { timestamptz : Z }.
Record TimeWithTimeZone := MkTimeTz { time : Z; zone : Z }.
Record Interval := MkInterval { micros : Z; days : Z; months : Z }.

Definition f64 : Type := spec_float.

(** A datum is a value, or a pointer to a copy of what it stands for. *)
Inductive Datum := DVal (value : Z) | DFloat (f : f64) | DText (s : string) | DTimeTz (t : TimeWithTimeZone) | DInterval (i : Interval).

Inductive DateTimeConversionError :=
| FieldOverflow
| InvalidFormat
| UnknownTimezone (zone : string)
| InvalidTimezoneOffset (offset : Z)
| CannotParseTimezone
| OutOfRange.

Inductive IntervalConversionError := DurationMonthsOutOfBounds | MismatchedSigns | NegativeInterval | IntervalTooLarge.

(** ** Raw values *)

Definition date_try_from (value : Z) : DateTimeConversionError + Date :=
  if (value =? i32_MIN) || (value =? i32_MAX) || within JULIAN_DAY_ZERO LAST_JULIAN_DAY value then inr (MkDate value)
  else inl OutOfRange.

Definition date_saturating_from_raw (date_int : Z) : Date :=
  if date_int <=? LT_JULIAN_DAY_ZERO then MkDate i32_MIN
  else if within JULIAN_DAY_ZERO LAST_JULIAN_DAY date_int then MkDate date_int
  else MkDate i32_MAX.

Definition date_is_finite (d : Date) : bool := negb ((date d =? i32_MIN) || (date d =? i32_MAX)).
Definition to_julian_days (debug : bool) (d : Date) : ending Z := checked debug 32 (date d + POSTGRES_EPOCH_JDATE).
Definition to_unix_epoch_days (debug : bool) (d : Date) : ending Z :=
  ebind (checked debug 32 (date d + POSTGRES_EPOCH_JDATE)) (fun j => checked debug 32 (j - UNIX_EPOCH_JDATE)).
Definition to_posix_time (debug : bool) (d : Date) : ending Z :=
  ebind (to_unix_epoch_days debug d) (fun days => checked debug 64 (days * SECS_PER_DAY)).

Definition time_try_from (raw : Z) : Z + Time :=
  if within 0 MICROSECONDS_PER_DAY raw then inr (MkTime raw) else inl raw.
Definition time_modular_from_raw (raw : Z) : Time := MkTime (raw mod MICROSECONDS_PER_DAY).

Definition timestamp_try_from (ts : Z) : Z + Timestamp :=
  if (ts =? i64_MIN) || (ts =? i64_MAX) || within MIN_TIMESTAMP MAX_TIMESTAMP ts then inr (MkTimestamp ts) else inl ts.
Definition timestamp_saturating_from_raw (value : Z) : Timestamp :=
  match timestamp_try_from value with
  | inr ts => ts
  | inl int => if int <? 0 then MkTimestamp i64_MIN else MkTimestamp i64_MAX
  end.
Definition timestamp_is_finite (t : Timestamp) : bool := negb ((timestamp t =? i64_MIN) || (timestamp t =? i64_MAX)).

Inductive FromTimeError :=
  NegInfinity | Infinity | TimeCrate | MicrosOutOfBounds | HoursOutOfBounds | MinutesOutOfBounds | SecondsOutOfBounds.
Definition timestamptz_try_from (value : Z) : FromTimeError + TimestampWithTimeZone :=
  if (value =? i64_MIN) || (value =? i64_MAX) || within MIN_TIMESTAMP_USEC END_TIMESTAMP_USEC value then inr (MkTimestampTz value)
  else inl MicrosOutOfBounds.

Definition timetz_modular_from_raw (tuple : Z * Z) : TimeWithTimeZone :=
  {| time := tuple.1 mod USECS_PER_DAY; zone := tuple.2 mod TZDISP_LIMIT |}.
Definition timetz_try_from (raw_vals : Z * Z) : DateTimeConversionError + TimeWithTimeZone :=
  let timetz := timetz_modular_from_raw raw_vals in
  if negb (time timetz =? raw_vals.1) then inl FieldOverflow
  else if negb (zone timetz =? raw_vals.2) then inl (InvalidTimezoneOffset raw_vals.2)
  else inr timetz.
Definition timetz_into_raw (t : TimeWithTimeZone) : Z * Z := (time t, zone t).
Definition timetz_from_time (t : Time) : TimeWithTimeZone := {| time := time_of t; zone := 0 |}.

(** ** Datums *)

Class FromDatum (A : Type) := from_datum : Datum -> bool -> ending (option A).
Class IntoDatum (A : Type) := into_datum : A -> option Datum.

Definition datum_from (z : Z) : Datum := DVal (z mod 2 ^ 64).

(** A value, or the pointer of a datum read as one, which is not modelled. *)
Definition by_value {A} (f : Z -> ending (option A)) (d : Datum) : ending (option A) :=
  match d with DVal v => f v | _ => Undefined end.

#[export] Instance i32_into_datum : IntoDatum Z := fun z => Some (datum_from z).
#[export] Instance f64_into_datum : IntoDatum f64 := fun f => Some (DFloat f).
#[export] Instance text_into_datum : IntoDatum string := fun s => Some (DText s).
#[export] Instance option_into_datum {A} `{IntoDatum A} : IntoDatum (option A) := fun o => o ≫= into_datum.

#[export] Instance date_into_datum : IntoDatum Date := fun d => Some (datum_from (date d)).
#[export] Instance date_from_datum : FromDatum Date := fun d is_null =>
  if is_null then Returned None else by_value (fun v => Returned (Some (MkDate (wrap 32 v)))) d.

#[export] Instance time_into_datum : IntoDatum Time := fun t => Some (datum_from (time_of t)).
#[export] Instance time_from_datum : FromDatum Time := fun d is_null =>
  if is_null then Returned None else by_value (fun v => Returned (Some (time_modular_from_raw (wrap 64 v)))) d.

#[export] Instance timestamp_into_datum : IntoDatum Timestamp := fun t => Some (datum_from (timestamp t)).
#[export] Instance timestamp_from_datum : FromDatum Timestamp := fun d is_null =>
  if is_null then Returned None else by_value (fun v => Returned (Some (MkTimestamp (wrap 64 v)))) d.

#[export] Instance timestamptz_into_datum : IntoDatum TimestampWithTimeZone := fun t => Some (datum_from (timestamptz t)).
#[export] Instance timestamptz_from_datum : FromDatum TimestampWithTimeZone := fun d is_null =>
  if is_null then Returned None
  else by_value (fun v => match timestamptz_try_from (wrap 64 v) with
                          | inr t => Returned (Some t)
                          | inl _ => Panicked "Error converting timestamp with time zone datum"
                          end) d.

(** These point to a copy; a value is not a pointer to one. *)
#[export] Instance timetz_into_datum : IntoDatum TimeWithTimeZone := fun t => Some (DTimeTz t).
#[export] Instance timetz_from_datum : FromDatum TimeWithTimeZone := fun d is_null =>
  if is_null then Returned None else match d with DTimeTz t => Returned (Some t) | _ => Undefined end.
#[export] Instance interval_into_datum : IntoDatum Interval := fun i => Some (DInterval i).
#[export] Instance interval_from_datum : FromDatum Interval := fun d is_null =>
  if is_null then Returned None else match d with DInterval i => Returned (Some i) | _ => Undefined end.

(** ** Calling Postgres *)

Inductive called := Gave (d : option Datum) | Raised (code : PgSqlErrorCode).
Definition pg_function : Type := list (option Datum) -> called.

Inductive pg (A : Type) := Gives (a : A) | Throws (code : PgSqlErrorCode) | Panics (why : string) | Undef.
Arguments Gives {A}. Arguments Throws {A}. Arguments Panics {A}. Arguments Undef {A}.

Definition pg_bind {A B} (m : pg A) (k : A -> pg B) : pg B :=
  match m with Gives a => k a | Throws c => Throws c | Panics w => Panics w | Undef => Undef end.
Definition of_ending {A} (m : ending A) : pg A :=
  match m with Returned a => Gives a | Panicked w => Panics w | Undefined => Undef end.
Definition unwrap {A} (o : option A) : pg A :=
  match o with Some a => Gives a | None => Panics "called `Option::unwrap()` on a `None` value" end.
Definition unwrap_ok {E A} (r : E + A) : pg A :=
  match r with inr a => Gives a | inl _ => Panics "called `Result::unwrap()` on an `Err` value" end.

Definition direct_function_call_as_datum (f : pg_function) (args : list (option Datum)) : pg (option Datum) :=
  match f args with Gave d => Gives d | Raised code => Throws code end.
Definition direct_function_call {R} `{FromDatum R} (f : pg_function) (args : list (option Datum)) : pg (option R) :=
  pg_bind (direct_function_call_as_datum f args) (fun d =>
  match d with None => Gives None | Some d => of_ending (from_datum d false) end).

(** [PgTryBuilder] with handlers for some codes: the last one given for a code. *)
Definition try_catch {A} (handlers : list (PgSqlErrorCode * pg A)) (body : pg A) : pg A :=
  match body with
  | Throws code => match List.find (fun h => bool_decide (h.1 = code)) (rev handlers) with
                   | Some h => h.2
                   | None => Throws code
                   end
  | r => r
  end.

Definition datetime_errors {A} : list (PgSqlErrorCode * pg (DateTimeConversionError + A)) :=
  [(ERRCODE_DATETIME_FIELD_OVERFLOW, Gives (inl FieldOverflow)); (ERRCODE_INVALID_DATETIME_FORMAT, Gives (inl InvalidFormat))].
Definition unknown_zone {A} (timezone : string) : list (PgSqlErrorCode * pg (DateTimeConversionError + A)) :=
  datetime_errors ++ [(ERRCODE_INVALID_PARAMETER_VALUE, Gives (inl (UnknownTimezone timezone)))].

(** [unsafe { Ok(direct_function_call(f, args).unwrap()) }] *)
Definition made {R} `{FromDatum R} (f : pg_function) (args : list (option Datum)) : pg R :=
  pg_bind (direct_function_call f args) unwrap.
Definition ok {E A} (m : pg A) : pg (E + A) := pg_bind m (fun a => Gives (inr a)).

Section Calls.
Context (make_date make_time time_timetz make_timestamp make_timestamptz make_timestamptz_at_timezone timetz_izone timetz_zone
         timestamptz_zone make_interval : pg_function).

(** *** Dates *)

Definition date_new (year month day : Z) : pg (DateTimeConversionError + Date) :=
  try_catch datetime_errors (ok (made make_date [into_datum year; into_datum month; into_datum day])).

Definition date_new_unchecked (year month day : Z) : pg Date :=
  if within i32_MIN i32_MAX year then made make_date [into_datum year; into_datum month; into_datum day]
  else Panics "invalid year".

(** *** Times *)

Definition time_new (hour minute : Z) (second : f64) : pg (DateTimeConversionError + Time) :=
  try_catch datetime_errors (ok (made make_time [into_datum hour; into_datum minute; into_datum second])).
Definition time_new_unchecked (hour minute : Z) (second : f64) : pg Time :=
  made make_time [into_datum hour; into_datum minute; into_datum second].

Definition timetz_new (hour minute : Z) (second : f64) : pg (DateTimeConversionError + TimeWithTimeZone) :=
  try_catch datetime_errors (
    pg_bind (direct_function_call_as_datum make_time [into_datum hour; into_datum minute; into_datum second]) (fun time =>
    ok (made time_timetz [time]))).

(** [make_time] gives a [time], which is read as a [timetz]. *)
Definition timetz_new_unchecked (hour minute : Z) (second : f64) : pg TimeWithTimeZone :=
  made make_time [into_datum hour; into_datum minute; into_datum second].

(** *** Timestamps *)

Definition timestamp_new (year month day hour minute : Z) (second : f64) : pg (DateTimeConversionError + Timestamp) :=
  try_catch datetime_errors (ok (made make_timestamp
    [into_datum year; into_datum month; into_datum day; into_datum hour; into_datum minute; into_datum second])).
Definition timestamp_new_unchecked (year month day hour minute : Z) (second : f64) : pg Timestamp :=
  made make_timestamp
    [into_datum (wrap 32 year); into_datum month; into_datum day; into_datum hour; into_datum minute; into_datum second].

Definition timestamptz_new (year month day hour minute : Z) (second : f64) : pg (DateTimeConversionError + TimestampWithTimeZone) :=
  try_catch datetime_errors (ok (made make_timestamptz
    [into_datum year; into_datum month; into_datum day; into_datum hour; into_datum minute; into_datum second])).
Definition timestamptz_with_timezone (year month day hour minute : Z) (second : f64) (timezone : string)
    : pg (DateTimeConversionError + TimestampWithTimeZone) :=
  try_catch (unknown_zone timezone) (ok (made make_timestamptz_at_timezone
    [into_datum year; into_datum month; into_datum day; into_datum hour; into_datum minute; into_datum second; into_datum timezone])).
Definition timestamptz_at_timezone (t : TimestampWithTimeZone) (timezone : string) : pg (DateTimeConversionError + Timestamp) :=
  try_catch (unknown_zone timezone) (ok (made timestamptz_zone [into_datum timezone; into_datum t])).
Definition timestamptz_to_utc (t : TimestampWithTimeZone) : pg Timestamp :=
  pg_bind (timestamptz_at_timezone t "UTC") unwrap_ok.

(** *** Time zones *)

(** What [DecodeTimezoneName] finds, and the offset it then resolves to: seconds east
    for a fixed one, seconds west from the others. *)
Inductive tzname := TZNAME_FIXED_OFFSET (val : Z) | TZNAME_DYNTZ (tz : Z) | TZNAME_ZONE (tz : option Z).
Context (DecodeTimezoneName : string -> PgSqlErrorCode + tzname).

Definition get_timezone_offset (debug : bool) (zone : string) : pg (DateTimeConversionError + Z) :=
  let negate z := pg_bind (of_ending (checked debug 32 (- z))) (fun z => Gives (inr z)) in
  try_catch [(ERRCODE_INVALID_PARAMETER_VALUE, Gives (inl (UnknownTimezone zone)))]
    match DecodeTimezoneName zone with
    | inl code => Throws code
    | inr (TZNAME_FIXED_OFFSET val) => pg_bind (of_ending (checked debug 32 (- val))) negate
    | inr (TZNAME_DYNTZ tz) => negate tz
    | inr (TZNAME_ZONE (Some tz)) => negate tz
    | inr (TZNAME_ZONE None) => Gives (inl FieldOverflow)
    end.

Definition timetz_with_timezone (debug : bool) (hour minute : Z) (second : f64) (timezone : string)
    : pg (DateTimeConversionError + TimeWithTimeZone) :=
  try_catch (unknown_zone timezone) (
    pg_bind (timetz_new hour minute second) (fun r =>
    match r with
    | inl e => Gives (inl e)
    | inr t =>
        pg_bind (get_timezone_offset debug timezone) (fun r =>
        match r with
        | inl e => Gives (inl e)
        | inr tzoff => pg_bind (of_ending (checked debug 32 (- tzoff))) (fun z => Gives (inr {| time := time t; zone := z |}))
        end)
    end)).

Definition timetz_with_timezone_offset (hour minute : Z) (second : f64) (timezone_offset : Interval)
    : pg (DateTimeConversionError + TimeWithTimeZone) :=
  try_catch (datetime_errors ++ [(ERRCODE_INVALID_PARAMETER_VALUE,
      Gives (inl (if within i32_MIN i32_MAX (micros timezone_offset)
                  then InvalidTimezoneOffset (micros timezone_offset mod TZDISP_LIMIT) else FieldOverflow)))]) (
    pg_bind (timetz_new hour minute second) (fun r =>
    match r with
    | inl e => Gives (inl e)
    | inr t => ok (made timetz_izone [into_datum timezone_offset; into_datum t])
    end)).

Definition timetz_at_timezone (t : TimeWithTimeZone) (timezone : string) : pg (DateTimeConversionError + TimeWithTimeZone) :=
  try_catch (unknown_zone timezone) (ok (made timetz_zone [into_datum timezone; into_datum t])).

(** *** Intervals *)

Definition is_sign_negative (f : f64) : bool :=
  match f with S754_zero s | S754_infinity s | S754_finite s _ _ => s | S754_nan => false end.
Definition is_sign_positive (f : f64) : bool := negb (is_sign_negative f).
Definition zero_f64 : f64 := S754_zero false.

Definition interval_from (years months weeks days hours minutes : option Z) (seconds : option f64)
    : pg (IntervalConversionError + Interval) :=
  let or_default := default 0 in
  if ((or_default years <=? 0) && (or_default months <=? 0) && (or_default weeks <=? 0) && (or_default days <=? 0)
      && (or_default hours <=? 0) && (or_default minutes <=? 0) && is_sign_negative (default zero_f64 seconds))
     || ((0 <=? or_default years) && (0 <=? or_default months) && (0 <=? or_default weeks) && (0 <=? or_default days)
         && (0 <=? or_default hours) && (0 <=? or_default minutes) && is_sign_positive (default zero_f64 seconds))
  then ok (made make_interval
    [into_datum years; into_datum months; into_datum weeks; into_datum days; into_datum hours; into_datum minutes; into_datum seconds])
  else Gives (inl MismatchedSigns).

Definition from_years (n : Z) : pg Interval := pg_bind (interval_from (Some n) None None None None None None) unwrap_ok.
Definition from_months (n : Z) : pg Interval := pg_bind (interval_from None (Some n) None None None None None) unwrap_ok.
Definition from_weeks (n : Z) : pg Interval := pg_bind (interval_from None None (Some n) None None None None) unwrap_ok.
Definition from_days (n : Z) : pg Interval := pg_bind (interval_from None None None (Some n) None None None) unwrap_ok.
Definition from_hours (n : Z) : pg Interval := pg_bind (interval_from None None None None (Some n) None None) unwrap_ok.
Definition from_minutes (n : Z) : pg Interval := pg_bind (interval_from None None None None None (Some n) None) unwrap_ok.
Definition from_seconds (s : f64) : pg Interval := pg_bind (interval_from None None None None None None (Some s)) unwrap_ok.

(** [microseconds as f64 / 1_000_000.0] *)
Definition i64_as_f64 (z : Z) : f64 := binary_normalize 53 1024 z 0 false.
Definition from_micros (microseconds : Z) : pg Interval := from_seconds (SFdiv 53 1024 (i64_as_f64 microseconds) (i64_as_f64 1000000)).
End Calls.

Definition interval_new (months days micros : Z) : IntervalConversionError + Interval :=
  let ok := inr {| micros := micros; days := days; months := months |} in
  if months <? 0 then if (0 <? days) || (0 <? micros) then inl MismatchedSigns else ok
  else if (0 <? months) && ((days <? 0) || (micros <? 0)) then inl MismatchedSigns
  else ok.

Definition as_micros (i : Interval) : Z := micros i + months i * DAYS_PER_MONTH * USECS_PER_DAY + days i * USECS_PER_DAY.

Definition interval_abs (debug : bool) (i : Interval) : ending Interval :=
  ebind (checked debug 64 (Z.abs (micros i))) (fun t =>
  ebind (checked debug 32 (Z.abs (days i))) (fun d =>
  ebind (checked debug 32 (Z.abs (months i))) (fun m => Returned {| micros := t; days := d; months := m |}))).

Definition interval_is_negative (i : Interval) : bool := (months i <? 0) || (days i <? 0) || (micros i <? 0).
Definition interval_is_positive (i : Interval) : bool := negb (interval_is_negative i).
Definition interval_signum (i : Interval) : Interval :=
  if (months i =? 0) && (days i =? 0) && (micros i =? 0) then {| micros := 0; days := 0; months := 0 |}
  else if interval_is_positive i then {| micros := 1; days := 0; months := 0 |}
  else {| micros := -1; days := 0; months := 0 |}.

(** *** Durations *)

(** [std::time::Duration] *)
Record Duration := { secs : Z; nanos : Z }.
Definition duration_as_micros (d : Duration) : Z := secs d * 1000000 + nanos d / 1000.
Definition duration_from_micros (micros : Z) : Duration := {| secs := micros / 1000000; nanos := micros mod 1000000 * 1000 |}.

Definition interval_from_duration (duration : Duration) : pg (IntervalConversionError + Interval) :=
  let microseconds := duration_as_micros duration in
  let seconds := microseconds / USECS_PER_SEC in
  let days := seconds / SECS_PER_DAY in
  let months := days / DAYS_PER_MONTH in
  let leftover_days := days - months * DAYS_PER_MONTH in
  let leftover_microseconds := microseconds - (leftover_days * USECS_PER_DAY + months * DAYS_PER_MONTH * USECS_PER_DAY) in
  if negb (months <=? i32_MAX) then Gives (inl DurationMonthsOutOfBounds)
  else if negb (leftover_days <=? i32_MAX) then Panics "bad math during Duration to Interval days"
  else if negb (leftover_microseconds <=? i64_MAX) then Panics "bad math during Duration to Interval micros"
  else Gives (interval_new months leftover_days leftover_microseconds).

Definition duration_from_interval (interval : Interval) : IntervalConversionError + Duration :=
  if (micros interval <? 0) || (months interval <? 0) || (days interval <? 0) then inl NegativeInterval
  else
    let total := micros interval + days interval * SECS_PER_DAY * USECS_PER_SEC + months interval * DAYS_PER_MONTH * USECS_PER_DAY in
    if total <? 2 ^ 64 then inr (duration_from_micros total) else inl IntervalTooLarge.

(** ** Parts *)

Inductive DateTimeParts :=
  Century | Day | Decade | DayOfWeek | DayOfYear | Epoch | Hour | ISODayOfWeek | ISOYear | Julian | Microseconds | Millennium
| Milliseconds | Minute | Month | Quarter | Second | Timezone | TimezoneHour | TimezoneMinute | Week | Year.

Definition part_name (p : DateTimeParts) : string :=
  match p with
  | Century => "century" | Day => "day" | Decade => "decade" | DayOfWeek => "dow" | DayOfYear => "doy" | Epoch => "epoch"
  | Hour => "hour" | ISODayOfWeek => "isodow" | ISOYear => "isodoy" | Julian => "julian" | Microseconds => "microseconds"
  | Millennium => "millennium" | Milliseconds => "milliseconds" | Minute => "minute" | Month => "month" | Quarter => "quarter"
  | Second => "second" | Timezone => "timezone" | TimezoneHour => "timezone_hour" | TimezoneMinute => "timezone_minute"
  | Week => "week" | Year => "year"
  end.
