(* ===== verification/DateTimeSafe.v ===== *)
(** * Ranges, datums and durations

    Which raw values the types of [DateTime] accept, what survives a datum, and
    intervals against [std::time::Duration]. *)
From Stdlib Require Import Floats.SpecFloat.
From stdpp Require Import base list strings.
From S2P Require Import Prelude ErrCodes Memory DateTime.
#[local] Open Scope Z_scope.

Ltac unfold_ranges := unfold within, LT_JULIAN_DAY_ZERO, i32_MIN, i32_MAX, i64_MIN, i64_MAX, JULIAN_DAY_ZERO, LAST_JULIAN_DAY,
  DATETIME_MIN_JULIAN, DATE_END_JULIAN, POSTGRES_EPOCH_JDATE, MAX_TIMESTAMP, END_TIMESTAMP, MIN_TIMESTAMP,
  MIN_TIMESTAMP_USEC, END_TIMESTAMP_USEC, MICROSECONDS_PER_DAY, USECS_PER_DAY, SECS_PER_DAY, USECS_PER_SEC, TZDISP_LIMIT in *.
Ltac ranges := unfold_ranges; repeat case_match; cbn in *; lia.

(** ** Raw values *)

(** A type whose values are the integers of a range, and two infinities. *)
Definition accepts {E A} (try_from : Z -> E + A) (raw : A -> Z) (lo hi neg_inf inf : Z) : Prop :=
  forall v, match try_from v with
            | inr a => raw a = v /\ (v = neg_inf \/ v = inf \/ lo <= v <= hi)
            | inl _ => v <> neg_inf /\ v <> inf /\ ~ lo <= v <= hi
            end.

(** Out of the range, the nearest infinity. *)
Definition saturates {A} (saturating : Z -> A) (raw : A -> Z) (lo hi neg_inf inf : Z) : Prop :=
  forall v, neg_inf <= v <= inf ->
    raw (saturating v) = (if v <? lo then neg_inf else if hi <? v then inf else v).

Lemma date_accepts : accepts date_try_from date JULIAN_DAY_ZERO LAST_JULIAN_DAY i32_MIN i32_MAX.
Proof. intros v. unfold date_try_from. destruct (_ || _) eqn:E; cbn; ranges. Qed.

Lemma date_saturates : saturates date_saturating_from_raw date JULIAN_DAY_ZERO LAST_JULIAN_DAY i32_MIN i32_MAX.
Proof.
  intros v Hv. unfold date_saturating_from_raw. ranges.
Qed.

Lemma timestamp_accepts : accepts timestamp_try_from timestamp MIN_TIMESTAMP MAX_TIMESTAMP i64_MIN i64_MAX.
Proof. intros v. unfold timestamp_try_from. destruct (_ || _) eqn:E; cbn; ranges. Qed.

Lemma timestamp_saturates : saturates timestamp_saturating_from_raw timestamp MIN_TIMESTAMP MAX_TIMESTAMP i64_MIN i64_MAX.
Proof.
  intros v Hv. unfold timestamp_saturating_from_raw. pose proof (timestamp_accepts v) as Ha.
  assert (Hinl : forall z, timestamp_try_from v = inl z -> z = v) by (unfold timestamp_try_from; intros z; destruct (_ || _); congruence).
  destruct (timestamp_try_from v) as [z|t].
  - rewrite (Hinl z eq_refl). ranges.
  - destruct Ha as [-> Ha]. ranges.
Qed.

Lemma timestamptz_accepts : accepts timestamptz_try_from timestamptz MIN_TIMESTAMP MAX_TIMESTAMP i64_MIN i64_MAX.
Proof. intros v. unfold timestamptz_try_from. destruct (_ || _) eqn:E; cbn; ranges. Qed.

(** Only the infinities overflow. *)
Lemma finite_date_days debug v d :
  date_try_from v = inr d -> date_is_finite d = true ->
  to_julian_days debug d = Returned (v + 2451545) /\ to_unix_epoch_days debug d = Returned (v + 10957)
  /\ to_posix_time debug d = Returned ((v + 10957) * 86400).
Proof.
  intros Hd Hf. pose proof (date_accepts v) as Ha. rewrite Hd in Ha. destruct Ha as [Hr Ha].
  unfold date_is_finite in Hf. rewrite Hr in Hf.
  assert (Hrange : -2451545 <= v <= 2145031948) by (unfold_ranges; repeat destruct (Z.eqb_spec _ _); cbn in Hf; lia || done).
  assert (Hc : forall w z, 32 <= w -> -2451545 - 2440588 <= z < 2 ^ 31 -> checked debug w z = Returned z).
  { intros w z Hw Hz. unfold checked. assert (2 ^ 31 <= 2 ^ (w - 1)) by (apply Z.pow_le_mono_r; lia).
    rewrite (proj2 (Z.leb_le _ _)), (proj2 (Z.ltb_lt _ _)) by lia. done. }
  unfold to_julian_days, to_posix_time, to_unix_epoch_days, POSTGRES_EPOCH_JDATE, UNIX_EPOCH_JDATE, SECS_PER_DAY.
  rewrite Hr, !Hc by lia. cbn [ebind]. rewrite Hc by lia. cbn [ebind]. split; [done|]. split; [f_equal; lia|].
  unfold checked. rewrite (proj2 (Z.leb_le _ _)), (proj2 (Z.ltb_lt _ _)) by (change (2 ^ (64 - 1)) with 9223372036854775808; lia).
  cbn [andb]. f_equal. lia.
Qed.

(** Dates and timestamps accept exactly Postgres' ranges and the two infinities;
    what is out of range saturates to the nearest infinity, and what is in range stays;
    and a date that is accepted and finite converts to Julian days, to days and to
    seconds of the Unix epoch without overflow. *)
Theorem raw_values_checked :
  accepts date_try_from date JULIAN_DAY_ZERO LAST_JULIAN_DAY i32_MIN i32_MAX
  /\ saturates date_saturating_from_raw date JULIAN_DAY_ZERO LAST_JULIAN_DAY i32_MIN i32_MAX
  /\ accepts timestamp_try_from timestamp MIN_TIMESTAMP MAX_TIMESTAMP i64_MIN i64_MAX
  /\ saturates timestamp_saturating_from_raw timestamp MIN_TIMESTAMP MAX_TIMESTAMP i64_MIN i64_MAX
  /\ accepts timestamptz_try_from timestamptz MIN_TIMESTAMP MAX_TIMESTAMP i64_MIN i64_MAX
  /\ forall debug v d, date_try_from v = inr d -> date_is_finite d = true ->
     to_julian_days debug d = Returned (v + 2451545) /\ to_unix_epoch_days debug d = Returned (v + 10957)
     /\ to_posix_time debug d = Returned ((v + 10957) * 86400).
Proof.
  split; [apply date_accepts|]. split; [apply date_saturates|]. split; [apply timestamp_accepts|].
  split; [apply timestamp_saturates|]. split; [apply timestamptz_accepts|apply finite_date_days].
Qed.

Example infinite_date_days :
  to_unix_epoch_days true (MkDate i32_MAX) = Panicked "attempt to compute with overflow"
  /\ to_unix_epoch_days false (MkDate i32_MAX) = Returned (-2147472692).
Proof. vm_compute. split; reflexivity. Qed.

(** ** Datums *)

Definition through {A} `{IntoDatum A} `{FromDatum A} (a : A) : ending (option A) :=
  match into_datum a with Some d => from_datum d false | None => Returned None end.

Lemma wrap_32 v : is_i32 v -> wrap 32 (v mod 2 ^ 64) = v.
Proof.
  intros Hv. unfold wrap. assert ((v mod 2 ^ 64) mod 2 ^ 32 = v mod 2 ^ 32) as ->.
  { change (2 ^ 64) with (2 ^ 32 * 2 ^ 32). rewrite Z.rem_mul_r by lia.
    rewrite Z.mul_comm, Z_mod_plus_full. apply Zmod_mod. }
  apply as_signed_small; [lia|]. unfold is_i32, i32_MIN, i32_MAX in Hv. change (2 ^ (32 - 1)) with (2 ^ 31). lia.
Qed.

Lemma wrap_64 v : is_i64 v -> wrap 64 (v mod 2 ^ 64) = v.
Proof.
  intros Hv. unfold wrap. rewrite Zmod_mod. apply as_signed_small; [lia|]. unfold is_i64, i64_MIN, i64_MAX in Hv.
  change (2 ^ (64 - 1)) with (2 ^ 63). lia.
Qed.

Lemma time_through t : is_i64 (time_of t) -> through t = Returned (Some (MkTime (time_of t mod MICROSECONDS_PER_DAY))).
Proof. intros Ht. unfold through. cbn. by rewrite wrap_64. Qed.

Lemma timetz_raw t :
  timetz_try_from (timetz_into_raw t) = inr t <-> 0 <= time t < USECS_PER_DAY /\ 0 <= zone t < TZDISP_LIMIT.
Proof.
  destruct t as [t z]. unfold timetz_try_from, timetz_modular_from_raw, timetz_into_raw. cbn [fst snd time zone].
  assert (Hd : 0 < USECS_PER_DAY) by done. assert (Hz : 0 < TZDISP_LIMIT) by done.
  pose proof (Z.mod_pos_bound t _ Hd). pose proof (Z.mod_pos_bound z _ Hz).
  destruct (Z.eqb_spec (t mod USECS_PER_DAY) t) as [Et|Et]; cbn [negb].
  - destruct (Z.eqb_spec (z mod TZDISP_LIMIT) z) as [Ez|Ez]; cbn [negb].
    + rewrite Et, Ez. split; [intros _|done]. rewrite <- Et at 1 2. rewrite <- Ez. rewrite Ez at 2. lia.
    + split; [done|]. intros [_ Hr]. by rewrite Z.mod_small in Ez.
  - split; [done|]. intros [Hr _]. by rewrite Z.mod_small in Et.
Qed.

(** What is given to Postgres as a datum comes back as it is: every date,
    timestamp, interval and time with time zone, every timestamp with time zone that is
    accepted, and every time of day but 24:00:00, which comes back as midnight.  As raw
    numbers, a time with time zone comes back exactly when it is before 24:00:00 and its
    zone is Greenwich or west of it. *)
Theorem datums_round_trip :
  (forall v, is_i32 v -> through (MkDate v) = Returned (Some (MkDate v)))
  /\ (forall v, is_i64 v -> through (MkTimestamp v) = Returned (Some (MkTimestamp v)))
  /\ (forall v t, is_i64 v -> timestamptz_try_from v = inr t -> through t = Returned (Some t))
  /\ (forall i : Interval, through i = Returned (Some i))
  /\ (forall t : TimeWithTimeZone, through t = Returned (Some t))
  /\ (forall v t, time_try_from v = inr t ->
      through t = Returned (Some (if v =? MICROSECONDS_PER_DAY then MkTime 0 else t)))
  /\ (forall t, timetz_try_from (timetz_into_raw t) = inr t <-> 0 <= time t < USECS_PER_DAY /\ 0 <= zone t < TZDISP_LIMIT).
Proof.
  split; [intros v Hv; unfold through; cbn; by rewrite wrap_32|].
  split; [intros v Hv; unfold through; cbn; by rewrite wrap_64|].
  split.
  { intros v t Hv Ht. pose proof (timestamptz_accepts v) as Ha. rewrite Ht in Ha. destruct Ha as [Hr _].
    unfold through. cbn. rewrite Hr, wrap_64 by done. by rewrite Ht. }
  split; [done|]. split; [done|]. split; [|apply timetz_raw].
  intros v t Ht. unfold time_try_from in Ht. destruct (within 0 MICROSECONDS_PER_DAY v) eqn:Hw; [|done]. injection Ht as <-.
  rewrite time_through; cbn [time_of].
  - destruct (Z.eqb_spec v MICROSECONDS_PER_DAY) as [->|Hne]; [done|]. rewrite Z.mod_small; [done|].
    unfold_ranges. lia.
  - unfold is_i64. unfold_ranges. lia.
Qed.

(** Greenwich plus two hours, in Postgres' convention, becomes fourteen hours west. *)
Example zone_east_of_greenwich :
  timetz_try_from (0, -7200) = inl (InvalidTimezoneOffset (-7200))
  /\ timetz_modular_from_raw (0, -7200) = {| time := 0; zone := 50400 |}.
Proof. done. Qed.

(** The unchecked constructor of a time with time zone follows a time as a pointer. *)
Example timetz_unchecked_undefined :
  timetz_new_unchecked (fun _ => Gave (Some (DVal 3600000000))) 1 0 zero_f64 = Undef.
Proof. done. Qed.

(** ** Durations *)

Lemma interval_new_nonneg m d u : 0 <= m -> 0 <= d -> 0 <= u -> interval_new m d u = inr {| micros := u; days := d; months := m |}.
Proof.
  intros Hm Hd Hu. unfold interval_new. destruct (Z.ltb_spec m 0); [lia|]. destruct (Z.ltb_spec 0 m); [|done]. cbn [andb].
  destruct (Z.ltb_spec d 0); [lia|]. destruct (Z.ltb_spec u 0); [lia|done].
Qed.

Lemma duration_from_nonneg i :
  0 <= micros i -> 0 <= days i -> 0 <= months i ->
  duration_from_interval i = if as_micros i <? 2 ^ 64 then inr (duration_from_micros (as_micros i)) else inl IntervalTooLarge.
Proof.
  intros Hu Hd Hm. unfold duration_from_interval. destruct (Z.ltb_spec (micros i) 0); [lia|].
  destruct (Z.ltb_spec (months i) 0); [lia|]. destruct (Z.ltb_spec (days i) 0); [lia|]. cbn [orb].
  replace (micros i + days i * SECS_PER_DAY * USECS_PER_SEC + months i * DAYS_PER_MONTH * USECS_PER_DAY) with (as_micros i); [done|].
  unfold as_micros, USECS_PER_DAY. lia.
Qed.

(** Microseconds as months of 30 days, days, and what is left. *)
Lemma split_micros us :
  0 <= us -> let days := us / USECS_PER_SEC / SECS_PER_DAY in let m := days / DAYS_PER_MONTH in let d := days - m * DAYS_PER_MONTH in
  let u := us - (d * USECS_PER_DAY + m * DAYS_PER_MONTH * USECS_PER_DAY) in
  0 <= m /\ 0 <= d < DAYS_PER_MONTH /\ 0 <= u < USECS_PER_DAY /\ (m <= i32_MAX <-> us < 2 ^ 31 * DAYS_PER_MONTH * USECS_PER_DAY).
Proof.
  intros Hus. rewrite Z.div_div by done. unfold USECS_PER_DAY, DAYS_PER_MONTH, SECS_PER_DAY, USECS_PER_SEC, i32_MAX. cbn zeta.
  change (1000000 * 86400) with 86400000000. change (86400 * 1000000) with 86400000000.
  pose proof (Z.div_mod us 86400000000 ltac:(lia)). pose proof (Z.mod_pos_bound us 86400000000 ltac:(lia)).
  set (q := us / 86400000000) in *. pose proof (Z.div_mod q 30 ltac:(lia)). pose proof (Z.mod_pos_bound q 30 ltac:(lia)).
  set (m := q / 30) in *. lia.
Qed.

(** A duration becomes an interval of as many microseconds, in months of 30 days,
    days and less than a day, without a panic, unless it has more months than an [i32];
    and that interval becomes the duration again, cut to microseconds, unless they are
    more than a [u64]. *)
Theorem interval_duration_round_trip d :
  0 <= secs d -> 0 <= nanos d < 1000000000 ->
  if duration_as_micros d <? 2 ^ 31 * DAYS_PER_MONTH * USECS_PER_DAY then
    exists i, interval_from_duration d = Gives (inr i) /\ as_micros i = duration_as_micros d
      /\ 0 <= micros i < USECS_PER_DAY /\ 0 <= days i < DAYS_PER_MONTH /\ 0 <= months i <= i32_MAX
      /\ duration_from_interval i =
         if duration_as_micros d <? 2 ^ 64 then inr {| secs := secs d; nanos := nanos d / 1000 * 1000 |} else inl IntervalTooLarge
  else interval_from_duration d = Gives (inl DurationMonthsOutOfBounds).
Proof.
  intros Hs Hn. set (us := duration_as_micros d).
  assert (Hus : 0 <= us) by (unfold us, duration_as_micros; pose proof (Z.div_pos (nanos d) 1000); lia).
  destruct (split_micros us Hus) as (Hm & Hd & Hu & Hfit). cbn zeta in *. unfold interval_from_duration. fold us. cbn zeta.
  set (days := us / USECS_PER_SEC / SECS_PER_DAY) in *. set (m := days / DAYS_PER_MONTH) in *.
  destruct (Z.ltb_spec us (2 ^ 31 * DAYS_PER_MONTH * USECS_PER_DAY)) as [Hlt|Hge].
  - rewrite (proj2 (Z.leb_le m _)), (proj2 (Z.leb_le (days - _) _)), (proj2 (Z.leb_le (us - _) _)) by
      (by apply Hfit || (unfold i32_MAX, DAYS_PER_MONTH in *; lia) || (unfold i64_MAX, USECS_PER_DAY, SECS_PER_DAY, USECS_PER_SEC in *; lia)).
    cbn [negb]. rewrite interval_new_nonneg by lia. eexists. split; [done|].
    assert (Ha : as_micros {| micros := us - ((days - m * DAYS_PER_MONTH) * USECS_PER_DAY + m * DAYS_PER_MONTH * USECS_PER_DAY);
      DateTime.days := days - m * DAYS_PER_MONTH; months := m |} = us) by (unfold as_micros; cbn; lia).
    split; [exact Ha|]. cbn [micros DateTime.days months]. split; [lia|]. split; [lia|]. split; [by split; [|apply Hfit]|].
    rewrite duration_from_nonneg by (cbn; lia). rewrite Ha. destruct (us <? 2 ^ 64); [|done]. f_equal.
    unfold us, duration_from_micros, duration_as_micros. f_equal; cbn.
    + rewrite Z.div_add_l, Z.div_small by (split; [apply Z.div_pos; lia|apply Z.div_lt_upper_bound; lia] || lia). lia.
    + rewrite Z.add_comm, Z_mod_plus_full, Z.mod_small; [done|]. split; [apply Z.div_pos; lia|apply Z.div_lt_upper_bound; lia].
  - rewrite (proj2 (Z.leb_gt m _)); [done|]. destruct (Z.le_gt_cases m i32_MAX) as [H|H]; [apply Hfit in H; lia|lia].
Qed.

Lemma interval_duration_round_trip_witness :
  let d := {| secs := 100 * 86400; nanos := 5500 |} in
  exists i, interval_from_duration d = Gives (inr i) /\ as_micros i = duration_as_micros d
    /\ 0 <= micros i < USECS_PER_DAY /\ 0 <= days i < DAYS_PER_MONTH /\ 0 <= months i <= i32_MAX
    /\ duration_from_interval i = inr {| secs := secs d; nanos := nanos d / 1000 * 1000 |}.
Proof.
  intros d. assert (Hs : 0 <= secs d) by (cbn; lia). assert (Hn : 0 <= nanos d < 1000000000) by (cbn; lia).
  exact (interval_duration_round_trip d Hs Hn).
Defined.

(** ** Signs *)

Section Signs.
Context (make_interval : pg_function).
Notation interval_from := (interval_from make_interval).
Notation made_interval := (fun ys ms ws ds hs mins s => made (R := Interval) make_interval
  [into_datum ys; into_datum ms; into_datum ws; into_datum ds; into_datum hs; into_datum mins; into_datum s]).

Lemma unwrap_made {A} (m : pg A) : pg_bind (ok (E := IntervalConversionError) m) unwrap_ok = m.
Proof. by destruct m. Qed.

Definition part_sign (o : option Z) : Z := default 0 o.

(** Parts that are not negative, with seconds that are not, and parts that are not
    positive, with seconds that are negative: nothing else. *)
Lemma interval_from_spec ys ms ws ds hs mins s :
  let parts := [ys; ms; ws; ds; hs; mins] in let s' := default zero_f64 s in
  interval_from ys ms ws ds hs mins s =
  if bool_decide (Forall (fun p => 0 <= part_sign p) parts /\ is_sign_positive s' = true)
     || bool_decide (Forall (fun p => part_sign p <= 0) parts /\ is_sign_negative s' = true)
  then ok (made_interval ys ms ws ds hs mins s) else Gives (inl MismatchedSigns).
Proof.
  cbn zeta. unfold DateTime.interval_from, part_sign.
  match goal with |- (if ?a then _ else _) = (if ?b then _ else _) => assert (a = b) as ->; [|done] end.
  rewrite orb_comm. f_equal; apply eq_true_iff_eq; rewrite bool_decide_eq_true, !andb_true_iff, !Z.leb_le, !list.Forall_cons;
    (split; [intros ([[[[[? ?] ?] ?] ?] ?] & ?); repeat split; done || constructor | intros ((? & ? & ? & ? & ? & ? & _) & ?); repeat split; done]).
Qed.

Definition unit_constructors (n : Z) : list (pg Interval * pg Interval) :=
  [(from_years make_interval n, made_interval (Some n) None None None None None None);
   (from_months make_interval n, made_interval None (Some n) None None None None None);
   (from_weeks make_interval n, made_interval None None (Some n) None None None None);
   (from_days make_interval n, made_interval None None None (Some n) None None None);
   (from_hours make_interval n, made_interval None None None None (Some n) None None);
   (from_minutes make_interval n, made_interval None None None None None (Some n) None)].

Lemma one_unit n ys ms ws ds hs mins :
  [ys; ms; ws; ds; hs; mins] ∈ [ [Some n; None; None; None; None; None]; [None; Some n; None; None; None; None];
    [None; None; Some n; None; None; None]; [None; None; None; Some n; None; None]; [None; None; None; None; Some n; None];
    [None; None; None; None; None; Some n] ] ->
  pg_bind (interval_from ys ms ws ds hs mins None) unwrap_ok =
  if n <? 0 then Panics "called `Result::unwrap()` on an `Err` value" else made_interval ys ms ws ds hs mins None.
Proof.
  intros Hin. rewrite interval_from_spec. cbn [default is_sign_positive is_sign_negative zero_f64 negb].
  rewrite (bool_decide_false (_ /\ false = true)) by (by intros [_ ?]). rewrite orb_false_r.
  assert (Hp : Forall (fun p => 0 <= part_sign p) [ys; ms; ws; ds; hs; mins] <-> 0 <= n).
  { repeat (apply elem_of_cons in Hin as [[= -> -> -> -> -> ->]|Hin]; [unfold part_sign; cbn; rewrite !list.Forall_cons; cbn;
      split; [intros; naive_solver | intros; repeat split; lia || constructor]|]). by apply elem_of_nil in Hin. }
  destruct (Z.ltb_spec n 0) as [Hn|Hn].
  - rewrite bool_decide_false; [done|]. intros [H _]. apply Hp in H. lia.
  - rewrite bool_decide_true by (split; [by apply Hp|done]). apply unwrap_made.
Qed.

(** Seconds alone have one sign. *)
Lemma seconds_alone s : from_seconds make_interval s = made_interval None None None None None None (Some s).
Proof.
  unfold from_seconds. rewrite interval_from_spec. cbn [default].
  assert (Ha : forall P : option Z -> Prop, P None -> Forall P [None; None; None; None; None; None]) by (intros; repeat constructor; done).
  replace (_ || _) with true; [apply unwrap_made|]. symmetry. apply orb_true_iff. rewrite !bool_decide_eq_true.
  change (id s) with s. unfold is_sign_positive. destruct (is_sign_negative s); [right|left]; (split; [by apply Ha|done]).
Qed.

(** An interval of one unit made by [from_years], [from_months], [from_weeks],
    [from_days], [from_hours] or [from_minutes] is what Postgres makes of it, unless it
    is negative: then the call panics, since the seconds that are not given count as
    positive.  [from_micros] is not affected, of either sign. *)
Theorem negative_units_panic n :
  Forall (fun '(call, expected) => call = if n <? 0 then Panics "called `Result::unwrap()` on an `Err` value" else expected)
    (unit_constructors n)
  /\ from_micros make_interval n =
     made_interval None None None None None None (Some (SFdiv 53 1024 (i64_as_f64 n) (i64_as_f64 1000000))).
Proof.
  split; [|apply seconds_alone]. unfold unit_constructors.
  repeat (apply list.Forall_cons; split; [apply one_unit; rewrite !elem_of_cons; tauto|]). constructor.
Qed.
End Signs.

(** Days and microseconds of two signs are accepted where there are no months. *)
Example mixed_signs_accepted : interval_new 0 1 (-1) = inr {| micros := -1; days := 1; months := 0 |}.
Proof. done. Qed.

(** The unchecked constructor of a timestamp cuts a year that is out of range. *)
Example year_cut f : timestamp_new_unchecked f (2 ^ 32 + 2024) 1 1 0 0 zero_f64 = timestamp_new_unchecked f 2024 1 1 0 0 zero_f64.
Proof. done. Qed.

(** ** Parts *)

(** Postgres' names of the parts it extracts. *)
Definition pg_part_names : list string :=
  ["century"; "day"; "decade"; "dow"; "doy"; "epoch"; "hour"; "isodow"; "isoyear"; "julian"; "microseconds"; "millennium";
   "milliseconds"; "minute"; "month"; "quarter"; "second"; "timezone"; "timezone_hour"; "timezone_minute"; "week"; "year"].

Example iso_year_misnamed p : part_name p ∈ pg_part_names <-> p <> ISOYear.
Proof. destruct p; split; intros H; try done; try (by apply (bool_decide_unpack _)); by apply (bool_decide_pack _) in H. Qed.

(** ** Time zones *)

(** The offset of a zone is seconds east, a time keeps seconds west. *)
Example edt_offset :
  let decode (_ : string) := inr (TZNAME_FIXED_OFFSET (-14400)) in
  let noon : pg_function := fun _ => Gave (Some (DVal 43200000000)) in
  let to_timetz : pg_function := fun _ => Gave (Some (DTimeTz {| time := 43200000000; zone := 0 |})) in
  get_timezone_offset decode true "EDT" = Gives (inr (-14400))
  /\ timetz_with_timezone noon to_timetz decode true 12 0 zero_f64 "EDT" = Gives (inr {| time := 43200000000; zone := 14400 |}).
Proof. vm_compute. split; reflexivity. Qed.
