(* ===== verification/LwLock.v ===== *)
(** * Locks in shared memory

    [pgrx/src/lwlock.rs], [pgrx/src/atomics.rs] and [pgrx/src/shmem.rs]: data that
    every backend shares, behind a lock of Postgres whose guards release it on drop.

    Many backends take steps in any order.  A step that would block is not taken.
    Postgres' locks are the class [LwLocks], with what [lwlock.c] and [elog.c] document
    of them as [LwLocksLaws]: who waits, what is held, and the count of interrupt
    holdoffs per process that each acquisition raises and each release lowers, and that
    an error resets to 0.  The assertion that a shared struct is aligned is left out. *)
From stdpp Require Import base list gmap strings.
From S2P Require Import Prelude.
#[local] Open Scope Z_scope.

Inductive LWLockMode := LW_EXCLUSIVE | LW_SHARED.
#[export] Instance LWLockMode_eq : EqDecision LWLockMode.
Proof. solve_decision. Defined.

(** The lock of Postgres that the startup hooks take, and the lock of a tranche. *)
Inductive lwlock := AddinShmemInitLock | Tranche (name : nat).
#[export] Instance lwlock_eq : EqDecision lwlock.
Proof. solve_decision. Defined.

(** ** Postgres' locks *)

(** A lock that a backend holds, and in which mode. *)
Record hold := { holder : nat; lock : lwlock; mode : LWLockMode }.
#[export] Instance hold_eq : EqDecision hold.
Proof. solve_decision. Defined.

Definition conflicts (m m' : LWLockMode) : bool := match m, m' with LW_SHARED, LW_SHARED => false | _, _ => true end.
Definition by_holder (b : nat) (hs : list hold) : list hold := filter (fun h => holder h = b) hs.

Inductive acquisition (S : Type) := Acquired (s : S) | Waits | TooMany.
Arguments Acquired {S}. Arguments Waits {S}. Arguments TooMany {S}.

Class LwLocks := {
  locks : Type;
  no_locks : locks;
  (** Backend, lock and mode. *)
  LWLockAcquire : nat -> lwlock -> LWLockMode -> locks -> acquisition locks;
  (** Nothing for the error that the lock is not held. *)
  LWLockRelease : nat -> lwlock -> locks -> option locks;
  LWLockReleaseAll : nat -> locks -> locks;
  (** What [ereport(ERROR)] does to the count of the backend. *)
  errfinish : nat -> locks -> locks;
  InterruptHoldoffCount : locks -> nat -> Z;
  (** The locks that are held, for the laws. *)
  held_lwlocks : locks -> list hold;
}.

Definition MAX_SIMUL_LWLOCKS : nat := 200.

Class LwLocksLaws (L : LwLocks) := {
  no_locks_held : held_lwlocks no_locks = [];
  no_locks_count b : InterruptHoldoffCount no_locks b = 0;
  acquire_waits b l m s :
    LWLockAcquire b l m s = Waits -> exists h, h ∈ held_lwlocks s /\ lock h = l /\ conflicts m (mode h) = true;
  acquire_too_many b l m s :
    LWLockAcquire b l m s = TooMany -> (MAX_SIMUL_LWLOCKS <= length (by_holder b (held_lwlocks s)))%nat;
  acquired_free b l m s s' :
    LWLockAcquire b l m s = Acquired s' -> forall h, h ∈ held_lwlocks s -> lock h = l -> conflicts m (mode h) = false;
  acquired_held b l m s s' :
    LWLockAcquire b l m s = Acquired s' -> held_lwlocks s' ≡ₚ {| holder := b; lock := l; mode := m |} :: held_lwlocks s;
  acquired_count b l m s s' b' :
    LWLockAcquire b l m s = Acquired s' ->
    InterruptHoldoffCount s' b' = InterruptHoldoffCount s b' + (if decide (b' = b) then 1 else 0);
  release_done b l s h : h ∈ held_lwlocks s -> holder h = b -> lock h = l -> exists s', LWLockRelease b l s = Some s';
  released_held b l s s' :
    LWLockRelease b l s = Some s' -> exists h, holder h = b /\ lock h = l /\ held_lwlocks s ≡ₚ h :: held_lwlocks s';
  released_count b l s s' b' :
    LWLockRelease b l s = Some s' ->
    InterruptHoldoffCount s' b' = InterruptHoldoffCount s b' - (if decide (b' = b) then 1 else 0);
  release_all_held b s : held_lwlocks (LWLockReleaseAll b s) ≡ₚ filter (fun h => holder h <> b) (held_lwlocks s);
  release_all_count b s b' : InterruptHoldoffCount (LWLockReleaseAll b s) b' = InterruptHoldoffCount s b';
  errfinish_held b s : held_lwlocks (errfinish b s) = held_lwlocks s;
  errfinish_count b s b' :
    InterruptHoldoffCount (errfinish b s) b' = (if decide (b' = b) then 0 else InterruptHoldoffCount s b');
}.

(** ** The wrapper *)

Inductive guard_kind := PgLwLockShareGuard | PgLwLockExclusiveGuard.
#[export] Instance guard_kind_eq : EqDecision guard_kind.
Proof. solve_decision. Defined.

(** A guard that a frame of a backend owns: its data is the struct of that name, its
    lock the one of the tranche. *)
Record guard := { owner : nat; data : nat; kind : guard_kind }.
#[export] Instance guard_eq : EqDecision guard.
Proof. solve_decision. Defined.

Section Locks.
Context {L : LwLocks} {T : Type}.

Record world := {
  pg : locks;
  guards : list guard;
  (** Where [inner] of a lock is not null. *)
  inner : list (nat * nat);
  (** The structs in shared memory, by their name. *)
  shared : gmap nat T;
}.

Definition set_pg (s : locks) (w : world) : world := {| pg := s; guards := guards w; inner := inner w; shared := shared w |}.
Definition set_guards (gs : list guard) (w : world) : world := {| pg := pg w; guards := gs; inner := inner w; shared := shared w |}.
Definition set_shared (m : gmap nat T) (w : world) : world := {| pg := pg w; guards := guards w; inner := inner w; shared := m |}.
Definition set_inner (i : list (nat * nat)) (w : world) : world := {| pg := pg w; guards := guards w; inner := i; shared := shared w |}.

(** What a step does: it may have to wait, panic, or raise an error of Postgres, which
    leaves what was done before it. *)
Inductive result (A : Type) := Done (a : A) (w : world) | Blocked | Panicked (why : string) | Raised (why : string) (w : world).
Arguments Done {A}. Arguments Blocked {A}. Arguments Panicked {A}. Arguments Raised {A}.

(** The calls of the functions of Postgres. *)
Definition lwlock_acquire (b : nat) (l : lwlock) (m : LWLockMode) (w : world) : result unit :=
  match LWLockAcquire b l m (pg w) with
  | Acquired s => Done tt (set_pg s w)
  | Waits => Blocked
  | TooMany => Raised "too many LWLocks taken" w
  end.
Definition lwlock_release (b : nat) (l : lwlock) (w : world) : result unit :=
  match LWLockRelease b l (pg w) with
  | Some s => Done tt (set_pg s w)
  | None => Raised "lock is not held" w
  end.

Definition initialized (b l : nat) (w : world) : bool := existsb (fun i => bool_decide (i = (b, l))) (inner w).

Definition share (b l : nat) (w : world) : result unit :=
  if initialized b l w then
    match lwlock_acquire b (Tranche l) LW_SHARED w with
    | Done _ w => Done tt (set_guards ({| owner := b; data := l; kind := PgLwLockShareGuard |} :: guards w) w)
    | r => r
    end
  else Panicked "PgLwLock was not initialized".

Definition exclusive (b l : nat) (w : world) : result unit :=
  if initialized b l w then
    match lwlock_acquire b (Tranche l) LW_EXCLUSIVE w with
    | Done _ w => Done tt (set_guards ({| owner := b; data := l; kind := PgLwLockExclusiveGuard |} :: guards w) w)
    | r => r
    end
  else Panicked "PgLwLock was not initialized".

Definition release_unless_elog_unwinding (b : nat) (l : lwlock) (w : world) : result unit :=
  if 0 <? InterruptHoldoffCount (pg w) b then lwlock_release b l w else Done tt w.

(** [Drop] of a guard, which is the [i]th. *)
Definition drop_guard (i : nat) (w : world) : result unit :=
  match guards w !! i with
  | None => Done tt w
  | Some g => release_unless_elog_unwinding (owner g) (Tranche (data g)) (set_guards (delete i (guards w)) w)
  end.

(** [Deref] and [DerefMut] *)
Definition deref (i : nat) (w : world) : option T := g ← guards w !! i; shared w !! data g.
Definition deref_mut (i : nat) (value : T) (w : world) : world :=
  match guards w !! i with
  | Some {| data := l; kind := PgLwLockExclusiveGuard |} => set_shared (<[l := value]> (shared w)) w
  | _ => w
  end.

(** [on_shmem_startup]: under Postgres' own lock, the first one writes the value. *)
Definition on_shmem_startup (b l : nat) (value : T) (w : world) : result unit :=
  match lwlock_acquire b AddinShmemInitLock LW_EXCLUSIVE w with
  | Done _ w =>
      let w := match shared w !! l with Some _ => w | None => set_shared (<[l := value]> (shared w)) w end in
      lwlock_release b AddinShmemInitLock (set_inner ((b, l) :: inner w) w)
  | r => r
  end.

(** [PgAtomic::get] *)
Definition atomic_get (b l : nat) (w : world) : result (option T) :=
  if initialized b l w then Done (shared w !! l) w else Panicked "PgAtomic was not initialized".

(** ** Steps *)

(** [Abort] is the abort of a transaction or of a subtransaction: the frames of Rust
    that own guards may be gone or not. *)
Inductive event :=
| Startup (b l : nat) (value : T)
| Share (b l : nat)
| Exclusive (b l : nat)
| Write (i : nat) (value : T)
| DropGuard (i : nat)
| Elog (b : nat)
| Abort (b : nat).

Definition do_event (e : event) (w : world) : result unit :=
  match e with
  | Startup b l value => on_shmem_startup b l value w
  | Share b l => share b l w
  | Exclusive b l => exclusive b l w
  | Write i value => Done tt (deref_mut i value w)
  | DropGuard i => drop_guard i w
  | Elog b => Raised "error" w
  | Abort b => Done tt (set_pg (LWLockReleaseAll b (pg w)) w)
  end.

(** The backend that takes the step. *)
Definition backend (e : event) (w : world) : nat :=
  match e with
  | Startup b _ _ | Share b _ | Exclusive b _ | Elog b | Abort b => b
  | Write i _ | DropGuard i => match guards w !! i with Some g => owner g | None => 0 end
  end.

(** The backends that raised an error since they last aborted, and those that aborted
    while they had guards and not since without. *)
Record history := { failed : list nat; stripped : list nat }.

Definition has_guards (b : nat) (w : world) : bool := existsb (fun g => bool_decide (owner g = b)) (guards w).
Definition after_abort (b : nat) (w : world) (h : history) : history :=
  if has_guards b w then {| failed := failed h; stripped := b :: stripped h |}
  else {| failed := filter (fun b' => b' <> b) (failed h); stripped := filter (fun b' => b' <> b) (stripped h) |}.
Definition after (e : event) (w : world) (h : history) : history := match e with Abort b => after_abort b w h | _ => h end.
Definition after_error (b : nat) (h : history) : history := {| failed := b :: failed h; stripped := stripped h |}.

Definition next (e : event) (s : history * world) : option (history * world) :=
  let '(h, w) := s in
  match do_event e w with
  | Done _ w' => Some (after e w h, w')
  | Blocked => None
  | Panicked _ => Some (h, w)
  | Raised _ w' => Some (after_error (backend e w) h, set_pg (errfinish (backend e w) (pg w')) w')
  end.

Definition step (s s' : history * world) : Prop := exists e, next e s = Some s'.

Definition start : history * world :=
  ({| failed := []; stripped := [] |}, {| pg := no_locks; guards := []; inner := []; shared := ∅ |}).
Definition reachable (s : history * world) : Prop := rtc step start s.

(** One event after the other, as long as none blocks. *)
Fixpoint run (es : list event) (s : history * world) : option (history * world) :=
  match es with
  | [] => Some s
  | e :: es => s ← next e s; run es s
  end.
End Locks.
Arguments world {L} T : assert. Arguments event : clear implicits. Arguments result {L} T A : assert.
Arguments Done {L T A}. Arguments Blocked {L T A}. Arguments Panicked {L T A}. Arguments Raised {L T A}.

(** ** Hooks *)

(** [pg_shmem_init!] at a place in the source: it keeps the hook that was there, and
    its own hook calls that one first. *)
Inductive hook := Foreign (id : nat) | Site (n : nat).
Record hooks := { shmem_startup_hook : option hook; PREV_SHMEM_STARTUP_HOOK : nat -> option hook }.

Definition pg_shmem_init (n : nat) (h : hooks) : hooks :=
  {| shmem_startup_hook := Some (Site n);
     PREV_SHMEM_STARTUP_HOOK := fun m => if decide (m = n) then shmem_startup_hook h else PREV_SHMEM_STARTUP_HOOK h m |}.

(** The hooks that run, in order, or nothing while they call each other. *)
Fixpoint call_hook (fuel : nat) (h : hooks) (hk : option hook) : option (list hook) :=
  match fuel, hk with
  | _, None => Some []
  | _, Some (Foreign id) => Some [Foreign id]
  | O, _ => None
  | S fuel, Some (Site n) => before ← call_hook fuel h (PREV_SHMEM_STARTUP_HOOK h n); Some (before ++ [Site n])
  end.
