(* ===== verification/LwLockSafe.v ===== *)
(** * Guards exclude each other

    The invariant of the locks of [LwLock] over every interleaving, against the laws of
    Postgres' locks: what is held exclusively is held once, and what a guard is for is
    held, unless Postgres released it in an abort under the guard. *)
From stdpp Require Import base list gmap strings.
From S2P Require Import Prelude LwLock.
#[local] Open Scope Z_scope.

Definition on_lock (l : lwlock) (hs : list hold) : list hold := filter (fun h => lock h = l) hs.

(** What is held exclusively is held once. *)
Definition exclusive_once (hs : list hold) : Prop := forall h, h ∈ hs -> mode h = LW_EXCLUSIVE -> on_lock (lock h) hs = [h].

Lemma on_lock_elem l h hs : h ∈ on_lock l hs <-> lock h = l /\ h ∈ hs.
Proof. unfold on_lock. by rewrite list_elem_of_filter. Qed.

(** ** Lists of holds *)

Lemma filter_none {A} (P : A -> Prop) `{!forall x, Decision (P x)} l : (forall x, x ∈ l -> ~ P x) -> filter P l = [].
Proof.
  intros Hno. induction l as [|x l IH]; [done|]. rewrite filter_cons_False by (apply Hno, elem_of_cons; by left).
  apply IH. intros y Hy. apply Hno, elem_of_cons. by right.
Qed.

Lemma filter_submseteq {A} (P : A -> Prop) `{!forall x, Decision (P x)} k l : k ⊆+ l -> filter P k ⊆+ filter P l.
Proof. intros [m ->]%submseteq_Permutation. rewrite list.filter_app. apply submseteq_inserts_r. done. Qed.

Lemma filter_id {A} (P : A -> Prop) `{!forall x, Decision (P x)} l : Forall P l -> filter P l = l.
Proof. induction 1 as [|x l Hx _ IH]; [done|]. by rewrite filter_cons_True, IH. Qed.

#[export] Instance exclusive_once_proper : Proper ((≡ₚ) ==> iff) exclusive_once.
Proof.
  assert (H : forall hs hs', hs ≡ₚ hs' -> exclusive_once hs -> exclusive_once hs').
  { intros hs hs' E He h Hh Hm. symmetry. apply Permutation_singleton_l. rewrite <- (He h) by (by rewrite ?E). unfold on_lock. by rewrite E. }
  intros hs hs' E. split; [by apply H|apply H; by symmetry].
Qed.

(** Two holds of the same lock are both shared, or are one. *)
Lemma exclusive_once_same hs g h : exclusive_once hs -> g ∈ hs -> h ∈ hs -> lock g = lock h -> mode h = LW_EXCLUSIVE -> g = h.
Proof.
  intros He Hg Hh Hl Hm. assert (Hin : g ∈ on_lock (lock h) hs) by (by apply on_lock_elem). rewrite (He h Hh Hm) in Hin.
  by apply list_elem_of_singleton in Hin.
Qed.

Lemma exclusive_once_cons g hs :
  exclusive_once (g :: hs) -> exclusive_once hs /\ (forall h, h ∈ hs -> lock h = lock g -> mode g = LW_SHARED /\ mode h = LW_SHARED).
Proof.
  intros He. split.
  - intros h Hh Hm. assert (Hc := He h ltac:(apply elem_of_cons; by right) Hm). unfold on_lock in Hc |- *.
    rewrite filter_cons in Hc. case_decide; [|done]. injection Hc as -> Hnil.
    assert (Hin : h ∈ filter (fun h' => lock h' = lock h) hs) by (by apply list_elem_of_filter).
    rewrite Hnil in Hin. by apply elem_of_nil in Hin.
  - intros h Hh Hl. assert (Hin : h ∈ on_lock (lock g) hs) by (by apply on_lock_elem).
    destruct (mode g) eqn:Hmg.
    { assert (Hc := He g ltac:(apply elem_of_cons; by left) Hmg). unfold on_lock in Hc, Hin. rewrite filter_cons_True in Hc by done.
      injection Hc as Hnil. rewrite Hnil in Hin. by apply elem_of_nil in Hin. }
    split; [done|]. destruct (mode h) eqn:Hmh; [|done].
    assert (g = h) as ->; [|congruence]. eapply (exclusive_once_same (g :: hs)); [done|apply elem_of_cons; by left|apply elem_of_cons; by right|done..].
Qed.

Lemma exclusive_once_submseteq gs hs : gs ⊆+ hs -> exclusive_once hs -> exclusive_once gs.
Proof.
  intros [k Hk]%submseteq_Permutation. rewrite Hk. clear hs Hk. induction k as [|h k IH]; [by rewrite app_nil_r|].
  rewrite <- Permutation_middle. intros [He _]%exclusive_once_cons. by apply IH.
Qed.

(** An acquisition that does not conflict. *)
Lemma exclusive_once_acquire hs b l m :
  (forall h, h ∈ hs -> lock h = l -> conflicts m (mode h) = false) ->
  exclusive_once hs -> exclusive_once ({| holder := b; lock := l; mode := m |} :: hs).
Proof.
  intros Hno He.
  assert (Hc : forall h, h ∈ hs -> lock h = l -> m = LW_SHARED /\ mode h = LW_SHARED)
    by (intros h Hh Hl; specialize (Hno h Hh Hl); by destruct m, (mode h)).
  intros h Hh Hm. apply elem_of_cons in Hh as [->|Hh].
  - cbn in Hm. unfold on_lock. rewrite filter_cons_True by done. f_equal. apply filter_none. intros h Hh Hl.
    destruct (Hc h Hh Hl). congruence.
  - unfold on_lock. rewrite filter_cons_False; [by apply He|]. cbn. intros Hl. destruct (Hc h Hh (eq_sym Hl)). congruence.
Qed.

(** The hold that goes is the one of the guard, when that is held. *)
Lemma exclusive_once_one hs g h :
  exclusive_once hs -> g ∈ hs -> h ∈ hs -> holder h = holder g -> lock h = lock g -> h = g.
Proof.
  intros He Hg Hh Ho Hl. destruct (mode g) eqn:Hm; [by eapply exclusive_once_same|]. destruct (mode h) eqn:Hmh.
  - symmetry. by eapply exclusive_once_same.
  - destruct g, h. cbn in *. by subst.
Qed.

Lemma elem_of_delete_ne {A} (l : list A) i j x : l !! j = Some x -> i <> j -> x ∈ delete i l.
Proof.
  intros Hj Hij. destruct (decide (j < i)%nat) as [Hlt|Hge].
  - apply (list_elem_of_lookup_2 _ j). by rewrite list_lookup_delete_lt.
  - apply (list_elem_of_lookup_2 _ (j - 1)). rewrite list_lookup_delete_ge by lia. by replace (S (j - 1)) with j by lia.
Qed.

(** ** The invariant *)

(** What a guard is for: a reader shares the lock, a writer has it alone. *)
Definition mode_of (k : guard_kind) : LWLockMode :=
  match k with PgLwLockShareGuard => LW_SHARED | PgLwLockExclusiveGuard => LW_EXCLUSIVE end.
Definition hold_of (g : guard) : hold := {| holder := owner g; lock := Tranche (data g); mode := mode_of (kind g) |}.
Definition needed (gs : list guard) : list hold := hold_of <$> gs.

Definition count_of (b : nat) (hs : list hold) : Z := Z.of_nat (length (by_holder b hs)).

Lemma by_holder_cons b h hs : by_holder b (h :: hs) = if decide (holder h = b) then h :: by_holder b hs else by_holder b hs.
Proof. unfold by_holder. by rewrite filter_cons. Qed.

#[export] Instance by_holder_proper b : Proper ((≡ₚ) ==> (≡ₚ)) (by_holder b).
Proof. intros hs hs' E. unfold by_holder. by rewrite E. Qed.

#[export] Instance needed_proper : Proper ((≡ₚ) ==> (≡ₚ)) needed.
Proof. intros gs gs' E. unfold needed. by rewrite E. Qed.

Lemma by_holder_elem b h hs : h ∈ by_holder b hs <-> holder h = b /\ h ∈ hs.
Proof. unfold by_holder. by rewrite list_elem_of_filter. Qed.

Lemma by_holder_sub b hs : by_holder b hs ⊆+ hs.
Proof. apply sublist_submseteq, sublist_filter. Qed.

Lemma count_of_cons b h hs : count_of b (h :: hs) = count_of b hs + (if decide (holder h = b) then 1 else 0).
Proof. unfold count_of. rewrite by_holder_cons. case_decide; cbn [length]; lia. Qed.

Lemma count_of_perm b hs hs' : hs ≡ₚ hs' -> count_of b hs = count_of b hs'.
Proof. intros E. unfold count_of. by rewrite E. Qed.

Lemma by_holder_filter b b' hs : by_holder b' (filter (fun h => holder h <> b) hs) = if decide (b' = b) then [] else by_holder b' hs.
Proof.
  case_decide as Hb.
  - subst. apply filter_none. intros h Hh%list_elem_of_filter. tauto.
  - unfold by_holder. rewrite list_filter_filter. apply list_filter_iff. naive_solver.
Qed.

Section Invariant.
Context `{HL : LwLocksLaws} {T : Type}.
Implicit Types (w : world T) (h : history).

#[local] Notation count w b := (InterruptHoldoffCount (pg w) b).
#[local] Notation held w := (held_lwlocks (pg w)).

Definition counted w (b : nat) : Prop := 0 <= count w b <= count_of b (needed (guards w)).
Definition covered w (b : nat) : Prop := by_holder b (needed (guards w)) ⊆+ by_holder b (held w).
Definition exact w (b : nat) : Prop :=
  count w b = count_of b (needed (guards w)) /\ by_holder b (held w) ≡ₚ by_holder b (needed (guards w)).

Record invariant h w : Prop := {
  held_once : exclusive_once (held w);
  count_bounds b : counted w b;
  guarded_held b : b ∉ stripped h -> covered w b;
  clean b : b ∉ failed h -> b ∉ stripped h -> exact w b;
}.

Lemma start_invariant : invariant (start (T := T)).1 (start (T := T)).2.
Proof.
  split; unfold start, counted, covered, exact; cbn; rewrite ?no_locks_held; [by intros g Hg%elem_of_nil| |done|];
    intros b; rewrite ?no_locks_count; unfold count_of; cbn; [lia|done].
Qed.

(** Steps that leave the guards, and what is held up to its order. *)
Lemma same_invariant h w w' :
  guards w' = guards w -> held w' ≡ₚ held w -> (forall b, count w' b = count w b) -> invariant h w -> invariant h w'.
Proof.
  intros E1 E2 E3 [Ho Hc Hg Hcl]. split; unfold counted, covered, exact in *.
  - by rewrite E2.
  - intros b. rewrite E1, E3. apply Hc.
  - intros b Hb. rewrite E1, E2. by apply Hg.
  - intros b Hf Hb. rewrite E1, E2, E3. by apply Hcl.
Qed.

Lemma acquire_invariant h w b l k s :
  invariant h w -> LWLockAcquire b (Tranche l) (mode_of k) (pg w) = Acquired s ->
  let w' := set_pg s w in
  invariant h (set_guards ({| owner := b; data := l; kind := k |} :: guards w') w').
Proof.
  intros [Ho Hc Hg Hcl] H. cbn zeta. pose proof (acquired_held _ _ _ _ _ H) as Hh.
  pose proof (fun b0 => acquired_count _ _ _ _ _ b0 H) as Hn.
  split; unfold counted, covered, exact in *; cbn [pg guards set_pg set_guards needed fmap list_fmap].
  all: fold (needed (guards w)); unfold hold_of; cbn [owner data kind].
  - rewrite Hh. apply exclusive_once_acquire; [by eapply acquired_free|done].
  - intros b'. specialize (Hc b'). rewrite Hn, count_of_cons. cbn [holder]. repeat case_decide; subst; try done; lia.
  - intros b' Hb'. specialize (Hg b' Hb'). rewrite Hh, !by_holder_cons. cbn [holder]. case_decide; [by apply submseteq_skip|done].
  - intros b' Hf Hb'. destruct (Hcl b' Hf Hb') as [Hm Hp]. rewrite Hn, Hh, count_of_cons, !by_holder_cons. cbn [holder].
    repeat case_decide; subst; try done; (split; [lia|by rewrite ?Hp]).
Qed.
(** An error: what is held stays, the count is reset.  For the backend that raised it
    the count need not have been right. *)
Lemma error_invariant h w b :
  exclusive_once (held w) -> (forall b', b' <> b -> counted w b') -> (forall b', b' ∉ stripped h -> covered w b') ->
  (forall b', b' <> b -> b' ∉ failed h -> b' ∉ stripped h -> exact w b') ->
  invariant (after_error b h) (set_pg (errfinish b (pg w)) w).
Proof.
  intros Ho Hc Hg Hcl. split; unfold counted, covered, exact in *; cbn [pg guards set_pg failed stripped after_error]; rewrite ?errfinish_held; auto.
  - intros b'. rewrite errfinish_count. case_decide; [unfold count_of; lia|auto].
  - intros b' [Hne Hf]%not_elem_of_cons Hb'. rewrite errfinish_count, decide_False by done. auto.
Qed.

Lemma raised_invariant h w b : invariant h w -> invariant (after_error b h) (set_pg (errfinish b (pg w)) w).
Proof. intros [Ho Hc Hg Hcl]. apply error_invariant; auto. Qed.

(** What a guard of a backend is for is held. *)
Lemma guard_held h w i g : invariant h w -> guards w !! i = Some g -> owner g ∉ stripped h -> hold_of g ∈ held w.
Proof.
  intros [_ _ Hg _] Hi Hb. specialize (Hg _ Hb). unfold covered in Hg.
  apply (by_holder_elem (owner g)). eapply elem_of_submseteq; [|exact Hg]. apply by_holder_elem. split; [done|].
  unfold needed. apply list_elem_of_fmap. exists g. split; [done|by eapply list_elem_of_lookup_2].
Qed.

Section Drop.
Context (h : history) (w : world T) (i : nat) (g : guard).
Hypothesis Hinv : invariant h w.
Hypothesis Hi : guards w !! i = Some g.
#[local] Notation dropped := (set_guards (delete i (guards w)) w).

Lemma needed_dropped : needed (guards w) ≡ₚ hold_of g :: needed (delete i (guards w)).
Proof. by rewrite (delete_Permutation _ _ _ Hi) at 1. Qed.

Lemma count_dropped b :
  count_of b (needed (guards w)) = count_of b (needed (delete i (guards w))) + (if decide (owner g = b) then 1 else 0).
Proof. rewrite (count_of_perm b _ _ needed_dropped). apply count_of_cons. Qed.

Lemma by_holder_dropped b :
  by_holder b (needed (guards w)) ≡ₚ
  if decide (owner g = b) then hold_of g :: by_holder b (needed (delete i (guards w))) else by_holder b (needed (delete i (guards w))).
Proof. rewrite needed_dropped, by_holder_cons. cbn [holder hold_of]. by case_decide. Qed.

(** The lock goes with its guard. *)
Lemma released_invariant s :
  LWLockRelease (owner g) (Tranche (data g)) (pg w) = Some s -> 0 < count w (owner g) -> invariant h (set_pg s dropped).
Proof.
  intros H Hpos. destruct (released_held _ _ _ _ H) as (x & Hx1 & Hx2 & Hx).
  pose proof (fun b => released_count _ _ _ _ b H) as Hn. pose proof Hinv as [Ho Hc Hg Hcl].
  assert (Hxg : owner g ∉ stripped h -> x = hold_of g).
  { intros Hb. apply (exclusive_once_one (held w)); [done|by eapply guard_held|rewrite Hx; apply elem_of_cons; by left|done..]. }
  split; unfold counted, covered, exact in *; cbn [pg guards set_pg set_guards].
  - rewrite Hx in Ho. by apply exclusive_once_cons in Ho as [? _].
  - intros b. specialize (Hc b). rewrite count_dropped in Hc. rewrite Hn. repeat case_decide; subst; try done; lia.
  - intros b Hb. specialize (Hg b Hb). rewrite by_holder_dropped, Hx, by_holder_cons in Hg. rewrite Hx1 in Hg. case_decide as Hd; [|done].
    subst b. rewrite (Hxg Hb) in Hg. apply submseteq_cons_l in Hg as (k & Hk%Permutation_cons_inv & Hsub). by rewrite Hk.
  - intros b Hf Hb. destruct (Hcl b Hf Hb) as [Hm Hp]. rewrite count_dropped in Hm. rewrite by_holder_dropped, Hx, by_holder_cons in Hp.
    rewrite Hx1 in Hp. rewrite Hn. repeat case_decide; subst; try done; (split; [lia|]); [|done].
    rewrite (Hxg Hb) in Hp. by apply Permutation_cons_inv in Hp.
Qed.

(** After an error the lock stays. *)
Lemma kept_invariant : ~ 0 < count w (owner g) -> invariant h dropped.
Proof.
  intros Hzero. pose proof Hinv as [Ho Hc Hg Hcl].
  split; unfold counted, covered, exact in *; cbn [pg guards set_pg set_guards]; [done|..].
  - intros b. specialize (Hc b). rewrite count_dropped in Hc. unfold count_of in *. case_decide; subst; lia.
  - intros b Hb. etrans; [|by apply Hg]. rewrite by_holder_dropped. case_decide; [by apply submseteq_cons|done].
  - intros b Hf Hb. destruct (Hcl b Hf Hb) as [Hm Hp]. rewrite count_dropped in Hm. rewrite by_holder_dropped in Hp.
    case_decide as Hd; [|split; [lia|done]]. subst b. unfold count_of in Hm. lia.
Qed.

(** Only where Postgres released the lock before can the release fail. *)
Lemma release_fails :
  LWLockRelease (owner g) (Tranche (data g)) (pg w) = None ->
  owner g ∈ stripped h /\ invariant (after_error (owner g) h) (set_pg (errfinish (owner g) (pg dropped)) dropped).
Proof.
  intros H. assert (Hs : owner g ∈ stripped h).
  { destruct (decide (owner g ∈ stripped h)) as [|Hb]; [done|]. exfalso.
    destruct (release_done (owner g) (Tranche (data g)) (pg w) (hold_of g)) as [s Hs]; [by eapply guard_held|done..|congruence]. }
  split; [done|]. pose proof Hinv as [Ho Hc Hg Hcl].
  apply error_invariant; unfold counted, covered, exact in *; cbn [pg guards set_guards]; [done|..].
  - intros b Hne. specialize (Hc b). by rewrite count_dropped, decide_False, Z.add_0_r in Hc by done.
  - intros b Hb. specialize (Hg b Hb). rewrite by_holder_dropped, decide_False in Hg by congruence. done.
  - intros b Hne Hf Hb. destruct (Hcl b Hf Hb) as [Hm Hp]. rewrite count_dropped, decide_False, Z.add_0_r in Hm by done.
    rewrite by_holder_dropped, decide_False in Hp by done. done.
Qed.

Lemma drop_cases :
  (exists w', drop_guard i w = Done tt w' /\ invariant h w')
  \/ (exists why, drop_guard i w = Raised why dropped /\ owner g ∈ stripped h
        /\ invariant (after_error (owner g) h) (set_pg (errfinish (owner g) (pg dropped)) dropped)).
Proof.
  unfold drop_guard, release_unless_elog_unwinding, lwlock_release. rewrite Hi. cbn [pg set_guards].
  destruct (Z.ltb_spec 0 (count w (owner g))) as [Hpos|Hzero].
  - destruct (LWLockRelease _ _ _) as [s|] eqn:E.
    + left. eexists. split; [done|]. by apply released_invariant.
    + right. eexists. split; [done|]. by apply release_fails.
  - left. eexists. split; [done|]. apply kept_invariant. lia.
Qed.
End Drop.

Lemma has_guards_false b w : has_guards b w = false -> by_holder b (needed (guards w)) = [].
Proof.
  intros Hno. apply filter_none. intros x (g & -> & Hg)%list_elem_of_fmap Ho. unfold has_guards in Hno.
  rewrite <- not_true_iff_false, existsb_exists in Hno. apply Hno. exists g. split; [by apply list_elem_of_In|by apply bool_decide_eq_true].
Qed.

Lemma abort_invariant h w b : invariant h w -> invariant (after_abort b w h) (set_pg (LWLockReleaseAll b (pg w)) w).
Proof.
  intros [Ho Hc Hg Hcl].
  assert (He : exclusive_once (held_lwlocks (LWLockReleaseAll b (pg w)))).
  { rewrite release_all_held. eapply exclusive_once_submseteq; [|exact Ho]. apply sublist_submseteq, sublist_filter. }
  unfold after_abort. destruct (has_guards b w) eqn:Hgs.
  all: split; unfold counted, covered, exact in *; cbn [pg guards set_pg failed stripped]; [done|..].
  all: intros b'; rewrite ?release_all_count, ?release_all_held, ?by_holder_filter; auto.
  - intros [Hne Hb]%not_elem_of_cons. rewrite decide_False by done. auto.
  - intros Hf [Hne Hb]%not_elem_of_cons. rewrite decide_False by done. auto.
  - intros Hb. case_decide as Hd; [subst; by rewrite (has_guards_false _ _ Hgs)|].
    apply Hg. intros Hin. apply Hb. by apply list_elem_of_filter.
  - intros Hf Hb. case_decide as Hd.
    + subst. specialize (Hc b). unfold count_of in *. rewrite (has_guards_false _ _ Hgs) in *. cbn in *. split; [lia|done].
    + apply Hcl; intros Hin; [apply Hf|apply Hb]; by apply list_elem_of_filter.
Qed.

(** The startup hook gives the lock back that it took. *)
Lemma startup_invariant h w b l v :
  invariant h w ->
  match on_shmem_startup b l v w with
  | Done _ w' => invariant h w'
  | Raised _ w' => w' = w
  | _ => True
  end.
Proof.
  intros Hinv. unfold on_shmem_startup, lwlock_acquire. destruct (LWLockAcquire _ _ _ _) as [s| |] eqn:E; [|done..].
  pose proof (acquired_held _ _ _ _ _ E) as Hh. pose proof (fun b0 => acquired_count _ _ _ _ _ b0 E) as Hn.
  pose proof (acquired_free _ _ _ _ _ E) as Hfree.
  set (new := {| holder := b; lock := AddinShmemInitLock; mode := LW_EXCLUSIVE |}) in *.
  cbn [shared set_pg]. set (w1 := match shared w !! l with Some _ => _ | None => _ end).
  assert (Hw1 : pg w1 = s /\ guards w1 = guards w) by (unfold w1; by destruct (shared w !! l)). destruct Hw1 as [Hs1 Hg1].
  unfold lwlock_release. cbn [pg set_inner]. rewrite Hs1.
  destruct (release_done b AddinShmemInitLock s new) as [s2 Hs2]; [rewrite Hh; apply elem_of_cons; by left|done..|].
  rewrite Hs2. destruct (released_held _ _ _ _ Hs2) as (x & Hx1 & Hx2 & Hx).
  pose proof (fun b0 => released_count _ _ _ _ b0 Hs2) as Hn2.
  assert (x = new) as ->.
  { apply (exclusive_once_one (held_lwlocks s)); [|rewrite Hh; apply elem_of_cons; by left|rewrite Hx; apply elem_of_cons; by left|done..].
    rewrite Hh. apply exclusive_once_acquire; [done|apply Hinv]. }
  eapply same_invariant; [| | |exact Hinv]; cbn [guards pg set_pg set_inner]; [done| |].
  - apply (Permutation_cons_inv (a := new)). by rewrite <- Hx, Hh.
  - intros b'. rewrite Hn2, Hn. lia.
Qed.

Lemma step_invariant s s' : step (T := T) s s' -> invariant s.1 s.2 -> invariant s'.1 s'.2.
Proof.
  destruct s as [h w]. intros [e H] Hi. cbn in Hi. unfold next in H. destruct e as [b l v|b l|b l|i v|i|b|b]; cbn [do_event] in H.
  - pose proof (startup_invariant h w b l v Hi) as Hs.
    destruct (on_shmem_startup b l v w); simplify_eq/=; [done..|]. by apply raised_invariant.
  - unfold share, lwlock_acquire in H. destruct (initialized b l w); [|by simplify_eq/=].
    destruct (LWLockAcquire _ _ _ _) eqn:E; simplify_eq/=; [by apply (acquire_invariant h w b l PgLwLockShareGuard)|by apply raised_invariant].
  - unfold exclusive, lwlock_acquire in H. destruct (initialized b l w); [|by simplify_eq/=].
    destruct (LWLockAcquire _ _ _ _) eqn:E; simplify_eq/=; [by apply (acquire_invariant h w b l PgLwLockExclusiveGuard)|by apply raised_invariant].
  - injection H as <-. cbn. eapply same_invariant; [..|exact Hi]; unfold deref_mut; by repeat case_match.
  - destruct (guards w !! i) as [g|] eqn:Hg; [|unfold drop_guard in H; rewrite Hg in H; by injection H as <-].
    destruct (drop_cases h w i g Hi Hg) as [(w' & E & Hw)|(why & E & _ & Hw)]; rewrite E in H; simplify_eq/=; [done|by rewrite Hg].
  - injection H as <-. by apply raised_invariant.
  - injection H as <-. by apply abort_invariant.
Qed.

Lemma reachable_invariant h w : reachable (T := T) (h, w) -> invariant h w.
Proof.
  intros Hr. change (invariant (h, w).1 (h, w).2). revert Hr. generalize (h, w). intros s.
  apply (rtc_ind_r (fun s => invariant s.1 s.2)); [apply start_invariant|]. intros x y _ Hs Hx. by eapply step_invariant.
Qed.
(** Two guards of the same lock whose locks Postgres has not released. *)
Lemma guards_shared h w i j g1 g2 :
  invariant h w -> guards w !! i = Some g1 -> guards w !! j = Some g2 -> i <> j -> data g1 = data g2 ->
  owner g1 ∉ stripped h -> owner g2 ∉ stripped h -> kind g1 = PgLwLockShareGuard /\ kind g2 = PgLwLockShareGuard.
Proof.
  intros Hinv H1 H2 Hij Hd Hs1 Hs2. pose proof Hinv as [Ho _ Hg _].
  assert (Hm : mode_of (kind g1) = LW_SHARED /\ mode_of (kind g2) = LW_SHARED).
  { destruct (decide (owner g1 = owner g2)) as [Heq|Hne].
    - assert (He : exclusive_once (by_holder (owner g1) (needed (guards w)))).
      { eapply exclusive_once_submseteq; [by apply Hg|]. eapply exclusive_once_submseteq; [apply by_holder_sub|done]. }
      rewrite (by_holder_dropped w i g1 H1), decide_True in He by done. apply exclusive_once_cons in He as [_ He].
      apply (He (hold_of g2)); [|cbn; congruence]. apply by_holder_elem. split; [done|]. unfold needed.
      apply list_elem_of_fmap. exists g2. split; [done|by eapply elem_of_delete_ne].
    - pose proof (guard_held _ _ _ _ Hinv H1 Hs1) as Hh1. pose proof (guard_held _ _ _ _ Hinv H2 Hs2) as Hh2.
      assert (Hl : lock (hold_of g1) = lock (hold_of g2)) by (cbn; congruence).
      assert (Hneq : hold_of g1 <> hold_of g2) by (intros E%(f_equal holder); by apply Hne).
      destruct (mode_of (kind g1)) eqn:E1, (mode_of (kind g2)) eqn:E2; try done; exfalso; apply Hneq;
        first [by apply (exclusive_once_same _ _ _ Ho Hh1 Hh2)|symmetry; by apply (exclusive_once_same _ _ _ Ho Hh2 Hh1)]. }
  by destruct (kind g1), (kind g2), Hm.
Qed.

(** C19. Over every interleaving of backends that start up, lock, write, drop guards,
    raise errors and abort transactions and subtransactions, with Postgres' locks as its
    documentation describes them, and for the backends that never aborted a
    (sub)transaction while they had guards, or have aborted without guards since: two of
    their guards of the same lock are both for reading, whichever backends own them; a
    write goes through the only one of their guards of its lock; and dropping one of
    their guards never releases a lock that is not held. *)
Theorem guards_exclude h w :
  reachable (T := T) (h, w) ->
  (forall i j g1 g2, guards w !! i = Some g1 -> guards w !! j = Some g2 -> i <> j -> data g1 = data g2 ->
     owner g1 ∉ stripped h -> owner g2 ∉ stripped h -> kind g1 = PgLwLockShareGuard /\ kind g2 = PgLwLockShareGuard)
  /\ (forall i v l, shared (deref_mut i v w) !! l <> shared w !! l ->
       exists g, guards w !! i = Some g /\ data g = l
       /\ (owner g ∉ stripped h -> forall j g', guards w !! j = Some g' -> data g' = l -> owner g' ∉ stripped h -> j = i))
  /\ (forall i g why w', guards w !! i = Some g -> owner g ∉ stripped h -> drop_guard i w <> Raised why w').
Proof.
  intros Hi%reachable_invariant. split; [by intros; eapply guards_shared|]. split.
  - intros i v l Hne. unfold deref_mut in Hne. destruct (guards w !! i) as [[b l' []]|] eqn:Hg; [done| |done].
    destruct (decide (l' = l)) as [->|Hl]; [|cbn in Hne; by rewrite lookup_insert_ne in Hne].
    eexists. split; [done|]. split; [done|]. intros Hs j g' Hg' Hd Hs'. destruct (decide (j = i)) as [|Hji]; [done|].
    by destruct (guards_shared h w j i g' {| owner := b; data := l; kind := PgLwLockExclusiveGuard |} Hi Hg' Hg Hji Hd Hs' Hs).
  - intros i g why w' Hg Hs H. destruct (drop_cases h w i g Hi Hg) as [(w'' & E & _)|(why' & E & Hin & _)]; [congruence|done].
Qed.

(** Waiting for a lock of a tranche is waiting for a guard. *)
Lemma waits_for_guard h w b l m :
  invariant h w -> failed h = [] -> stripped h = [] -> LWLockAcquire b (Tranche l) m (pg w) = Waits ->
  exists g, g ∈ guards w /\ data g = l /\ conflicts m (mode_of (kind g)) = true.
Proof.
  intros [_ _ _ Hcl] Hf Hs (x & Hx & Hl & Hm)%acquire_waits.
  destruct (Hcl (holder x)) as [_ Hp]; [rewrite Hf; by apply not_elem_of_nil|rewrite Hs; by apply not_elem_of_nil|].
  assert (Hin : x ∈ by_holder (holder x) (held w)) by (by apply by_holder_elem). rewrite Hp in Hin.
  apply by_holder_elem in Hin as [_ (g & -> & Hg)%list_elem_of_fmap]. exists g. injection Hl as <-. done.
Qed.

(** C20. A backend that since its last abort without guards neither raised an error nor
    aborted a (sub)transaction under a guard holds exactly the locks that its guards are
    for, so none without guards; and where this is so of every backend, asking for a
    lock to read waits only while another guard writes, and asking for one to write only
    while there is another guard: else it is taken, unless the backend already holds the
    200 locks that Postgres allows. *)
Theorem guards_released h w :
  reachable (T := T) (h, w) ->
  (forall b, b ∉ failed h -> b ∉ stripped h -> by_holder b (held w) ≡ₚ by_holder b (needed (guards w)))
  /\ (failed h = [] -> stripped h = [] -> forall b l, initialized b l w = true ->
       (length (by_holder b (held w)) < MAX_SIMUL_LWLOCKS)%nat ->
       ((forall g, g ∈ guards w -> data g = l -> kind g = PgLwLockShareGuard) -> exists w', share b l w = Done tt w')
       /\ ((forall g, g ∈ guards w -> data g <> l) -> exists w', exclusive b l w = Done tt w')).
Proof.
  intros Hi%reachable_invariant. split; [intros b Hf Hs; by apply Hi|].
  intros Hf Hs b l Hini Hlen. unfold share, exclusive, lwlock_acquire. rewrite Hini. split; intros Hno.
  all: destruct (LWLockAcquire _ _ _ _) eqn:E; [by eexists| |apply acquire_too_many in E; lia].
  all: destruct (waits_for_guard _ _ _ _ _ Hi Hf Hs E) as (g & Hg & Hd & Hc).
  - by rewrite (Hno g Hg Hd) in Hc.
  - by destruct (Hno g Hg).
Qed.

Lemma run_reachable es : forall s s', run es s = Some s' -> rtc (step (T := T)) s s'.
Proof.
  induction es as [|e es IH]; intros s s' H; cbn in H; [by injection H as <-|].
  destruct (next e s) as [s1|] eqn:E; [|done]. eapply rtc_l; [by exists e|by apply IH].
Qed.
End Invariant.

(** ** Locks that do this *)

Record table := { counts : nat -> Z; table_held : list hold }.
Definition bump (b : nat) (n : Z) (s : table) (hs : list hold) : table :=
  {| counts := fun b' => counts s b' + (if decide (b' = b) then n else 0); table_held := hs |}.

(** The newest hold of a lock goes. *)
Fixpoint remove_hold (b : nat) (l : lwlock) (hs : list hold) : option (list hold) :=
  match hs with
  | [] => None
  | h :: hs => if bool_decide (holder h = b /\ lock h = l) then Some hs else hs' ← remove_hold b l hs; Some (h :: hs')
  end.

#[export] Instance table_locks : LwLocks := {|
  locks := table;
  no_locks := {| counts := fun _ => 0; table_held := [] |};
  LWLockAcquire b l m s :=
    if bool_decide (MAX_SIMUL_LWLOCKS <= length (by_holder b (table_held s)))%nat then TooMany
    else if existsb (fun h => bool_decide (lock h = l) && conflicts m (mode h)) (table_held s) then Waits
    else Acquired (bump b 1 s ({| holder := b; lock := l; mode := m |} :: table_held s));
  LWLockRelease b l s := hs ← remove_hold b l (table_held s); Some (bump b (-1) s hs);
  LWLockReleaseAll b s := {| counts := counts s; table_held := filter (fun h => holder h <> b) (table_held s) |};
  errfinish b s := {| counts := fun b' => if decide (b' = b) then 0 else counts s b'; table_held := table_held s |};
  InterruptHoldoffCount := counts;
  held_lwlocks := table_held;
|}.

Lemma remove_hold_spec b l hs hs' :
  remove_hold b l hs = Some hs' -> exists h, holder h = b /\ lock h = l /\ hs ≡ₚ h :: hs'.
Proof.
  revert hs'. induction hs as [|h hs IH]; intros hs' H; [done|]. cbn in H. case_bool_decide as Hd.
  - injection H as <-. exists h. by destruct Hd.
  - destruct (remove_hold b l hs) as [r|]; [|done]. injection H as <-. destruct (IH r eq_refl) as (g & Hb & Hl & Hp).
    exists g. split; [done|]. split; [done|]. rewrite Hp. constructor.
Qed.

Lemma remove_hold_some b l g hs : g ∈ hs -> holder g = b -> lock g = l -> exists hs', remove_hold b l hs = Some hs'.
Proof.
  intros Hg Hb Hl. induction hs as [|h hs IH]; [by apply elem_of_nil in Hg|]. cbn. case_bool_decide as Hd; [by eexists|].
  apply elem_of_cons in Hg as [<-|Hg]; [by destruct Hd|]. destruct (IH Hg) as [r ->]. by eexists.
Qed.

Lemma table_acquired b l m s s' :
  LWLockAcquire b l m s = Acquired s' ->
  s' = bump b 1 s ({| holder := b; lock := l; mode := m |} :: table_held s)
  /\ existsb (fun h => bool_decide (lock h = l) && conflicts m (mode h)) (table_held s) = false.
Proof. cbn. case_bool_decide; [done|]. destruct (existsb _ _); [done|]. by intros [= <-]. Qed.

#[export] Instance table_laws : LwLocksLaws table_locks.
Proof.
  split; try done.
  - cbn. intros b l m s H. case_bool_decide; [done|]. destruct (existsb _ _) eqn:E; [|done].
    apply existsb_exists in E as (h & Hh & [Hl Hm]%andb_true_iff). exists h. rewrite bool_decide_eq_true in Hl. by rewrite list_elem_of_In.
  - cbn. intros b l m s H. case_bool_decide; [done|]. by destruct (existsb _ _).
  - intros b l m s s' [_ E]%table_acquired h Hh Hl. destruct (conflicts m (mode h)) eqn:Hc; [|done].
    rewrite <- not_true_iff_false, existsb_exists in E. destruct E. exists h. split; [by apply list_elem_of_In|]. by rewrite bool_decide_true, Hc.
  - by intros b l m s s' [-> _]%table_acquired.
  - by intros b l m s s' b' [-> _]%table_acquired.
  - cbn. intros b l s h Hh Hb Hl. destruct (remove_hold_some b l h _ Hh Hb Hl) as [hs ->]. by eexists.
  - cbn. intros b l s s' H. destruct (remove_hold _ _ _) as [hs|] eqn:E; [|done]. injection H as <-. by apply remove_hold_spec.
  - cbn. intros b l s s' b' H. destruct (remove_hold _ _ _) as [hs|] eqn:E; [|done]. injection H as <-. cbn. case_decide; lia.
Qed.

(** Two backends, a reader in each, and one lock more, after an error that was caught
    and the abort of its transaction. *)
Definition two_readers : list (event Z) :=
  [Startup 0 0 7; Startup 1 0 8; Startup 0 1 0; Exclusive 1 0; Elog 1; DropGuard 0; Abort 1; Share 0 0; Share 1 0; Exclusive 0 1; Write 0 5].
Definition final (es : list (event Z)) : history * world Z := match run es start with Some s => s | None => start end.

Lemma two_readers_reachable : reachable (final two_readers).
Proof. apply (run_reachable two_readers start). reflexivity. Qed.

Lemma guards_exclude_witness :
  exists h w, final two_readers = (h, w)
  /\ length (guards w) = 3%nat /\ shared w !! 0%nat = Some 7 /\ shared w !! 1%nat = Some 5 /\ stripped h = []
  /\ (forall i j g1 g2, guards w !! i = Some g1 -> guards w !! j = Some g2 -> i <> j -> data g1 = data g2 ->
     owner g1 ∉ stripped h -> owner g2 ∉ stripped h -> kind g1 = PgLwLockShareGuard /\ kind g2 = PgLwLockShareGuard)
  /\ (forall i v l, shared (deref_mut i v w) !! l <> shared w !! l ->
       exists g, guards w !! i = Some g /\ data g = l
       /\ (owner g ∉ stripped h -> forall j g', guards w !! j = Some g' -> data g' = l -> owner g' ∉ stripped h -> j = i))
  /\ (forall i g why w', guards w !! i = Some g -> owner g ∉ stripped h -> drop_guard i w <> Raised why w').
Proof.
  exists (final two_readers).1, (final two_readers).2. do 4 (split; [reflexivity|]).
  split; [reflexivity|]. apply (guards_exclude (final two_readers).1 (final two_readers).2). apply two_readers_reachable.
Defined.

Lemma guards_released_witness :
  exists h w, final two_readers = (h, w)
  /\ failed h = [] /\ stripped h = []
  /\ (exists w', share 1 0 w = Done tt w') /\ by_holder 0 (held_lwlocks (pg w)) ≡ₚ by_holder 0 (needed (guards w)).
Proof.
  exists (final two_readers).1, (final two_readers).2. split; [reflexivity|]. split; [reflexivity|]. split; [reflexivity|].
  destruct (guards_released (final two_readers).1 (final two_readers).2 two_readers_reachable) as [Hh Hw]. split.
  - apply (Hw eq_refl eq_refl 1%nat 0%nat); [reflexivity|vm_compute; lia|].
    intros g Hg Hd. apply list_elem_of_In in Hg. vm_compute in Hg.
    destruct Hg as [<- | [<- | [<- | []]]]; [discriminate Hd|reflexivity..].
  - apply Hh; apply not_elem_of_nil.
Defined.

(** An error that is caught while a guard lives: its lock stays held when the guard is
    dropped, and another backend waits. *)
Example caught_error_keeps_lock :
  let s := final [Startup 0 0 7; Startup 1 0 7; Exclusive 0 0; Elog 0; DropGuard 0] in
  guards s.2 = [] /\ held_lwlocks (pg s.2) = [{| holder := 0; lock := Tranche 0; mode := LW_EXCLUSIVE |}]
  /\ next (Exclusive 1 0) s = None.
Proof. repeat split; reflexivity. Qed.

(** Then a lock that is taken afterwards can stay held too. *)
Example later_lock_kept :
  let w := (final [Startup 0 0 7; Startup 0 1 7; Exclusive 0 0; Elog 0; Exclusive 0 1; DropGuard 1; DropGuard 0]).2 in
  guards w = [] /\ held_lwlocks (pg w) = [{| holder := 0; lock := Tranche 1; mode := LW_EXCLUSIVE |}].
Proof. repeat split; reflexivity. Qed.

(** A subtransaction that aborts inside a statement, as one with an exception handler
    does, while a guard lives outside it: the lock is released, another backend takes it,
    and both write. *)
Example subabort_two_writers :
  let s := final [Startup 0 0 7; Startup 1 0 7; Exclusive 0 0; Elog 0; Abort 0; Exclusive 1 0; Write 1 5; Write 0 6] in
  kind <$> guards s.2 = [PgLwLockExclusiveGuard; PgLwLockExclusiveGuard] /\ data <$> guards s.2 = [0; 0]%nat
  /\ owner <$> guards s.2 = [1; 0]%nat /\ shared s.2 !! 0%nat = Some 6 /\ stripped s.1 = [0%nat].
Proof. repeat split; reflexivity. Qed.

(** ** Hooks *)

(** Each place's hook runs once, in the order of the calls, after what was there. *)
Lemma hooks_in_order sites h0 :
  NoDup sites -> (forall n, shmem_startup_hook h0 <> Some (Site n)) ->
  let h := fold_left (fun h n => pg_shmem_init n h) sites h0 in
  exists fuel, call_hook fuel h (shmem_startup_hook h) = Some (option_list (shmem_startup_hook h0) ++ (Site <$> sites)).
Proof.
  intros Hd Hf. cbn zeta.
  induction sites as [|n sites IH] using rev_ind.
  - exists 0%nat. cbn. destruct (shmem_startup_hook h0) as [[id|n]|] eqn:E; [done| |done]. by destruct (Hf n).
  - apply list.NoDup_app in Hd as (Hd & Hnin & _). destruct (IH Hd) as [fuel Hfuel].
    rewrite fold_left_app. cbn [fold_left]. set (h := fold_left _ sites h0) in *. exists (S fuel). cbn.
    rewrite decide_True by done.
    assert (Hcall : forall fuel hk l, call_hook fuel h hk = Some l -> Site n ∉ l -> call_hook fuel (pg_shmem_init n h) hk = Some l).
    { clear. induction fuel as [|fuel IH]; intros [[id|m]|] l H Hn; cbn in *; try done.
      destruct (call_hook fuel h (PREV_SHMEM_STARTUP_HOOK h m)) as [l'|] eqn:E; [|done]. injection H as <-.
      apply not_elem_of_app in Hn as [Hn1 Hn2]. rewrite decide_False by (intros ->; apply Hn2; by apply list_elem_of_singleton).
      by rewrite (IH _ _ E Hn1). }
    rewrite (Hcall _ _ _ Hfuel).
    + cbn. rewrite fmap_app, app_assoc. done.
    + intros [Hin|Hin]%elem_of_app.
      * destruct (shmem_startup_hook h0) as [hk|] eqn:E; cbn in Hin; [|by apply elem_of_nil in Hin].
        apply list_elem_of_singleton in Hin as <-. by destruct (Hf n).
      * apply list_elem_of_fmap in Hin as (m & [= ->] & Hm). apply (Hnin _ Hm). by apply list_elem_of_singleton.
Qed.
