(* ===== verification/SpiTable.v ===== *)
(** * What SPI returns: status codes, tuple tables and tuples

    [pgrx/src/spi.rs] (status codes and errors) and [pgrx/src/spi/tuple.rs]: the table of
    rows a statement returned, which is at once an iterator and a view of the row it
    is positioned on, and the tuples taken out of it.

    Rows are read with functions of Postgres, and values converted by the types that
    implement [FromDatum] and [IntoDatum]: both are interfaces here, with what they
    document as laws. *)
From stdpp Require Import base list strings.
From S2P Require Import Prelude Memory.
#[local] Open Scope Z_scope.

(** ** Status codes *)

Inductive SpiOkCodes :=
| OkConnect | OkFinish | OkFetch | OkUtility | OkSelect | OkSelInto | OkInsert | OkDelete | OkUpdate | OkCursor
| OkInsertReturning | OkDeleteReturning | OkUpdateReturning | OkRewritten | OkRelRegister | OkRelUnregister
| OkTdRegister | OkMerge.

Inductive SpiErrorCodes :=
| ErrConnect | ErrCopy | ErrOpUnknown | ErrUnconnected | ErrCursor | ErrArgument | ErrParam | ErrTransaction
| ErrNoAttribute | ErrNoOutFunc | ErrTypUnknown | ErrRelDuplicate | ErrRelNotFound.

#[export] Instance SpiOkCodes_eq_dec : EqDecision SpiOkCodes.
Proof. solve_decision. Defined.
#[export] Instance SpiErrorCodes_eq_dec : EqDecision SpiErrorCodes.
Proof. solve_decision. Defined.

(** The discriminants of the enums, [#[repr(i32)]]. *)
Definition ok_discriminant (c : SpiOkCodes) : Z :=
  match c with
  | OkConnect => 1 | OkFinish => 2 | OkFetch => 3 | OkUtility => 4 | OkSelect => 5 | OkSelInto => 6
  | OkInsert => 7 | OkDelete => 8 | OkUpdate => 9 | OkCursor => 10 | OkInsertReturning => 11
  | OkDeleteReturning => 12 | OkUpdateReturning => 13 | OkRewritten => 14 | OkRelRegister => 15
  | OkRelUnregister => 16 | OkTdRegister => 17 | OkMerge => 18
  end.

Definition err_discriminant (c : SpiErrorCodes) : Z :=
  match c with
  | ErrConnect => -1 | ErrCopy => -2 | ErrOpUnknown => -3 | ErrUnconnected => -4 | ErrCursor => -5
  | ErrArgument => -6 | ErrParam => -7 | ErrTransaction => -8 | ErrNoAttribute => -9 | ErrNoOutFunc => -10
  | ErrTypUnknown => -11 | ErrRelDuplicate => -12 | ErrRelNotFound => -13
  end.

Definition ok_variants : list SpiOkCodes :=
  [OkConnect; OkFinish; OkFetch; OkUtility; OkSelect; OkSelInto; OkInsert; OkDelete; OkUpdate; OkCursor;
   OkInsertReturning; OkDeleteReturning; OkUpdateReturning; OkRewritten; OkRelRegister; OkRelUnregister;
   OkTdRegister; OkMerge].
Definition err_variants : list SpiErrorCodes :=
  [ErrConnect; ErrCopy; ErrOpUnknown; ErrUnconnected; ErrCursor; ErrArgument; ErrParam; ErrTransaction;
   ErrNoAttribute; ErrNoOutFunc; ErrTypUnknown; ErrRelDuplicate; ErrRelNotFound].

(** [mem::transmute] of an integer into a fieldless enum: the variant with that
    discriminant, undefined where there is none. *)
Definition transmute {A} (disc : A -> Z) (variants : list A) (code : Z) : ending A :=
  defined (List.find (fun v => disc v =? code) variants).

(** [SpiOkCodes::try_from]: an ok code, or an error code, or neither. *)
Inductive UnknownVariant := unknown_variant.

Definition SpiOkCodes_try_from (code : Z) : ending ((SpiErrorCodes + UnknownVariant) + SpiOkCodes) :=
  (if (-13 <=? code) && (code <=? -1)
   then err <~~ transmute err_discriminant err_variants code ;; Returned (inl (inl err))
   else if (1 <=? code) && (code <=? 18)
   then ok <~~ transmute ok_discriminant ok_variants code ;; Returned (inr ok)
   else Returned (inl (inr unknown_variant)))%ending.

Definition SpiErrorCodes_try_from (code : Z) : ending ((SpiOkCodes + UnknownVariant) + SpiErrorCodes) :=
  (r <~~ SpiOkCodes_try_from code ;;
   match r with
   | inr ok => Returned (inl (inl ok))
   | inl (inl err) => Returned (inr err)
   | inl (inr unknown) => Returned (inl (inr unknown))
   end)%ending.

(** ** Errors *)

Record IncompatibleTypes := { rust_type : string; rust_oid : Z; datum_type : string; datum_oid : Z }.

(** The errors of conversions; the first is the one that comes up here. *)
Inductive TryFromDatumError :=
| Incompatible (e : IncompatibleTypes)
| NoSuchAttributeNumber (number : Z)
| NoSuchAttributeName (name : string).

Inductive SpiError :=
| ESpiError (code : SpiErrorCodes)
| EDatumError (e : TryFromDatumError)
| EPreparedStatementArgumentMismatch (expected got : Z)
| EInvalidPosition
| ECursorNotFound (name : string)
| ENoTupleTable.

(** [SpiResult<T>] of code that may panic. *)
Abbreviation SpiResult A := (ending (SpiError + A)).

Declare Scope spi_scope.
Delimit Scope spi_scope with spi.
Definition ok {A} (a : A) : SpiResult A := Returned (inr a).
Definition err {A} (e : SpiError) : SpiResult A := Returned (inl e).
(** The [?] operator. *)
Definition try_ {A B} (m : SpiResult A) (k : A -> SpiResult B) : SpiResult B :=
  ebind m (fun r => match r with inr a => k a | inl e => err e end).
Notation "x <-- m ;; k" := (try_ m (fun x => k)) (at level 100, m at next level, right associativity) : spi_scope.
Notation "' p <-- m ;; k" := (try_ m (fun x => match x with p => k end))
  (at level 100, p strict pattern, m at next level, right associativity) : spi_scope.
#[local] Open Scope spi_scope.

Definition check_status (status_code : Z) : SpiResult SpiOkCodes :=
  ebind (SpiOkCodes_try_from status_code) (fun r =>
  match r with
  | inr ok_code => ok ok_code
  | inl (inr unknown_variant) => Panicked "unrecognized SPI status code"
  | inl (inl code) => err (ESpiError code)
  end).

(** ** Interfaces *)

(** Tuples and their descriptors, read with functions of Postgres.  [SPI_getbinval]
    gives [None] for null. *)
Class HeapAccess := {
  TupleDesc : Type;
  HeapTuple : Type;
  natts : TupleDesc -> Z;
  SPI_getbinval : HeapTuple -> TupleDesc -> Z -> option Z;
  SPI_gettypeid : TupleDesc -> Z -> Z;
  SPI_fname : TupleDesc -> Z -> bytes;
  SPI_fnumber : TupleDesc -> bytes -> Z;
  (** [IsBinaryCoercible] and [format_type_extended], which raises an error of
      Postgres where the type does not exist. *)
  IsBinaryCoercible : Z -> Z -> bool;
  format_type_extended : Z -> option string;
  (** Whether the current memory context has a parent. *)
  has_parent_context : bool;
}.

(** A type that converts from and into datums. *)
Class DatumType (T : Type) := {
  type_name : string;
  type_oid : Z;
  is_compatible_with : Z -> bool;
  (** [from_datum_in_memory_context]: the datum, whether it is null and its type. *)
  from_datum : Z -> bool -> Z -> option T;
  into_datum : T -> option Z;
}.
Arguments type_name T {_}. Arguments type_oid T {_}. Arguments is_compatible_with T {_} _.

Definition SPI_ERROR_NOATTRIBUTE : Z := -9.

(** Columns are numbered from 1; a name is looked up among the columns, the first
    that has it, then among the system columns (numbers -6 to -1); the names of columns
    hold no null byte. *)
Class HeapLaws (H : HeapAccess) : Prop := {
  natts_range d : 0 <= natts d < 2 ^ 31;
  fnumber_range d name : let n := SPI_fnumber d name in
    n = SPI_ERROR_NOATTRIBUTE \/ -7 < n < 0
    \/ (1 <= n <= natts d /\ SPI_fname d n = name /\ forall i, 1 <= i < n -> SPI_fname d i <> name);
  fnumber_column d i : 1 <= i <= natts d -> 1 <= SPI_fnumber d (SPI_fname d i);
  fname_no_nul d i : 1 <= i <= natts d -> Byte.x00 ∉ SPI_fname d i;
}.

(** A null datum converts to nothing, and a value converts back from its datum. *)
Class DatumLaws (T : Type) {D : DatumType T} : Prop := {
  from_null d oid : from_datum (T := T) d true oid = None;
  own_type_compatible : is_compatible_with T (type_oid T) = true;
  from_into t d : into_datum t = Some d -> from_datum d false (type_oid T) = Some t;
}.

Section Model.
Context {H : HeapAccess}.

Definition USIZE : Z := 2 ^ 64.
Definition as_usize (n : Z) : Z := n mod USIZE.
Definition as_isize (n : Z) : Z := (n + 2 ^ 63) mod USIZE - 2 ^ 63.
Definition as_c_int (n : Z) : Z := (n + 2 ^ 31) mod 2 ^ 32 - 2 ^ 31.

(** ** Conversion *)

Definition is_binary_coercible (T : Type) `{DatumType T} (oid : Z) : bool :=
  is_compatible_with T oid || IsBinaryCoercible oid (type_oid T).

Definition lookup_type_name (oid : Z) : ending string := expect "type does not exist" (format_type_extended oid).

Definition try_from_datum_in_memory_context (T : Type) `{DatumType T} (datum : Z) (is_null : bool) (oid : Z)
  : ending (TryFromDatumError + option T) :=
  (if negb (is_binary_coercible T oid) then
     name <~~ lookup_type_name oid ;;
     Returned (inl (Incompatible {| rust_type := type_name T; rust_oid := type_oid T;
                                    datum_type := name; datum_oid := oid |}))
   else Returned (inr (from_datum datum is_null oid)))%ending.

(** [PgMemoryContexts::CurrentMemoryContext.parent().expect(..)]. *)
Definition parent_context {A} (k : SpiResult A) : SpiResult A :=
  eassert has_parent_context "parent memory context is absent" k.

Definition datum_result {A} (m : ending (TryFromDatumError + A)) : SpiResult A :=
  ebind m (fun r => match r with inr a => ok a | inl e => err (EDatumError e) end).

(** [CString::new(name)]. *)
Definition CString_new (name : bytes) : ending bytes :=
  if decide (Byte.x00 ∈ name) then Panicked "name contained a null byte" else Returned name.

(** ** Tuples *)

Record SpiHeapTupleDataEntry := { e_datum : option Z; e_type_oid : Z }.

Record SpiHeapTupleData := {
  d_tupdesc : TupleDesc;
  (** Offset by 1. *)
  entries : list SpiHeapTupleDataEntry;
}.

Definition entry_of (tupdesc : TupleDesc) (htup : HeapTuple) (i : Z) : SpiHeapTupleDataEntry :=
  {| e_datum := SPI_getbinval htup tupdesc i; e_type_oid := SPI_gettypeid tupdesc i |}.

(** [SpiHeapTupleData::new]; [None] is the null descriptor. *)
Definition tuple_new (tupdesc : option TupleDesc) (htup : HeapTuple) : SpiResult (option SpiHeapTupleData) :=
  match tupdesc with
  | None => err ENoTupleTable
  | Some tupdesc =>
      let n := natts tupdesc in
      eassert (0 <=? n) "usize::try_from(natts)"
        (ok (Some {| d_tupdesc := tupdesc;
                     entries := foldl (fun es i => es ++ [entry_of tupdesc htup i]) [] (seqZ 1 n) |}))
  end.

Definition value (T : Type) `{DatumType T} (e : SpiHeapTupleDataEntry) : SpiResult (option T) :=
  match e_datum e with
  | Some datum => parent_context (datum_result (try_from_datum_in_memory_context T datum false (e_type_oid e)))
  | None => ok None
  end.

(** [slice.get(index)]. *)
Definition slice_get {A} (l : list A) (index : Z) : option A :=
  if index <? Z.of_nat (length l) then l !! Z.to_nat index else None.

Definition tuple_datum_by_ordinal (t : SpiHeapTupleData) (ordinal : Z) : SpiResult SpiHeapTupleDataEntry :=
  match slice_get (entries t) (as_usize (ordinal - 1)) with
  | Some e => ok e
  | None => err (ESpiError ErrNoAttribute)
  end.

(** The column of a name, in both kinds of lookup by name. *)
Definition fnumber_of (tupdesc : TupleDesc) (name : bytes) : SpiResult Z :=
  ebind (CString_new name) (fun name_cstr =>
  let fnumber := SPI_fnumber tupdesc name_cstr in
  if fnumber =? SPI_ERROR_NOATTRIBUTE then err (ESpiError ErrNoAttribute) else ok (as_usize fnumber)).

Definition tuple_datum_by_name (t : SpiHeapTupleData) (name : bytes) : SpiResult SpiHeapTupleDataEntry :=
  ordinal <-- fnumber_of (d_tupdesc t) name ;; tuple_datum_by_ordinal t ordinal.

Definition tuple_get (T : Type) `{DatumType T} (t : SpiHeapTupleData) (ordinal : Z) : SpiResult (option T) :=
  entry <-- tuple_datum_by_ordinal t ordinal ;; value T entry.

Definition tuple_get_by_name (T : Type) `{DatumType T} (t : SpiHeapTupleData) (name : bytes) : SpiResult (option T) :=
  entry <-- tuple_datum_by_name t name ;; value T entry.

Definition tuple_columns (t : SpiHeapTupleData) : Z := as_usize (natts (d_tupdesc t)).

Definition tuple_check_ordinal_bounds (t : SpiHeapTupleData) (ordinal : Z) : SpiResult unit :=
  if (ordinal <? 1) || (tuple_columns t <? ordinal) then err (ESpiError ErrNoAttribute) else ok tt.

(** [&mut self] methods return the tuple as they leave it. *)
Definition set_by_ordinal (T : Type) `{DatumType T} (t : SpiHeapTupleData) (ordinal : Z) (datum : T)
  : SpiResult unit * SpiHeapTupleData :=
  match tuple_check_ordinal_bounds t ordinal with
  | Returned (inr _) =>
      let e := {| e_datum := into_datum datum; e_type_oid := type_oid T |} in
      if decide (Z.to_nat (ordinal - 1) < length (entries t))%nat
      then (ok tt, {| d_tupdesc := d_tupdesc t; entries := <[Z.to_nat (ordinal - 1) := e]> (entries t) |})
      else (Panicked "index out of bounds", t)
  | r => (r, t)
  end.

Definition set_by_name (T : Type) `{DatumType T} (t : SpiHeapTupleData) (name : bytes) (datum : T)
  : SpiResult unit * SpiHeapTupleData :=
  match fnumber_of (d_tupdesc t) name with
  | Returned (inr ordinal) => set_by_ordinal T t ordinal datum
  | Returned (inl e) => (err e, t)
  | Panicked w => (Panicked w, t)
  | Undefined => (Undefined, t)
  end.

(** [tuple[ordinal]] and [tuple[name]]. *)
Definition expect_entry (w : string) (m : SpiResult SpiHeapTupleDataEntry) : ending SpiHeapTupleDataEntry :=
  ebind m (fun r => match r with inr e => Returned e | inl _ => Panicked w end).
Definition index_ordinal (t : SpiHeapTupleData) (index : Z) : ending SpiHeapTupleDataEntry :=
  expect_entry "invalid ordinal value" (tuple_datum_by_ordinal t index).
Definition index_name (t : SpiHeapTupleData) (index : bytes) : ending SpiHeapTupleDataEntry :=
  expect_entry "invalid field name" (tuple_datum_by_name t index).

(** ** Tables *)

(** Postgres' table: the descriptor ([None] for the null pointer), the rows and how
    many of them are valid. *)
Record SPITupleTable := { tupdesc : option TupleDesc; vals : list HeapTuple; numvals : Z }.

(** [table] is [None] for the null pointer. *)
Record SpiTupleTable := {
  status_code : SpiOkCodes;
  table : option SPITupleTable;
  size : Z;
  current : Z;
}.

Definition with_current (t : SpiTupleTable) (c : Z) : SpiTupleTable :=
  {| status_code := status_code t; table := table t; size := size t; current := c |}.

Definition first (t : SpiTupleTable) : SpiTupleTable := with_current t 0.
Definition rewind (t : SpiTupleTable) : SpiTupleTable := with_current t (-1).
Definition len (t : SpiTupleTable) : Z := size t.
Definition is_empty (t : SpiTupleTable) : bool := len t =? 0.

Definition get_spi_tuptable (t : SpiTupleTable) : SpiResult (SPITupleTable * option TupleDesc) :=
  match table t with Some tab => ok (tab, tupdesc tab) | None => err ENoTupleTable end.

(** [slice::from_raw_parts(vals, size)[current]]: out of [size] it panics, within it
    there must be a row. *)
Definition row_at (tab : SPITupleTable) (size current : Z) : ending HeapTuple :=
  if current <? size then defined (slice_get (vals tab) current) else Panicked "index out of bounds".

(** [self.current < 0 || self.current as usize >= self.size]. *)
Definition out_of_position (t : SpiTupleTable) : bool :=
  (current t <? 0) || (size t <=? as_usize (current t)).

Definition get_heap_tuple (t : SpiTupleTable) : SpiResult (option SpiHeapTupleData) :=
  if (size t =? 0) || bool_decide (table t = None) then ok None
  else if out_of_position t then err EInvalidPosition
  else '(tab, td) <-- get_spi_tuptable t ;;
       ebind (row_at tab (size t) (as_usize (current t))) (fun heap_tuple => tuple_new td heap_tuple).

(** The descriptor behind the pointer; undefined for the null pointer. *)
Definition deref_tupdesc {A} (td : option TupleDesc) (k : TupleDesc -> SpiResult A) : SpiResult A :=
  ebind (defined td) k.

Definition columns (t : SpiTupleTable) : SpiResult Z :=
  '(_, td) <-- get_spi_tuptable t ;; deref_tupdesc td (fun td => ok (as_usize (natts td))).

Definition check_ordinal_bounds (t : SpiTupleTable) (ordinal : Z) : SpiResult unit :=
  if ordinal <? 1 then err (ESpiError ErrNoAttribute)
  else n <-- columns t ;; if n <? ordinal then err (ESpiError ErrNoAttribute) else ok tt.

Definition get_datum_by_ordinal (t : SpiTupleTable) (ordinal : Z) : SpiResult (option Z) :=
  _ <-- check_ordinal_bounds t ordinal ;;
  '(tab, td) <-- get_spi_tuptable t ;;
  if out_of_position t then err EInvalidPosition
  else ebind (row_at tab (size t) (as_usize (current t))) (fun heap_tuple =>
       deref_tupdesc td (fun td => ok (SPI_getbinval heap_tuple td (as_c_int ordinal)))).

Definition get (T : Type) `{DatumType T} (t : SpiTupleTable) (ordinal : Z) : SpiResult (option T) :=
  '(_, td) <-- get_spi_tuptable t ;;
  datum <-- get_datum_by_ordinal t ordinal ;;
  let is_null := bool_decide (datum = None) in
  parent_context (deref_tupdesc td (fun td =>
    datum_result (try_from_datum_in_memory_context T (default 0 datum) is_null (SPI_gettypeid td (as_c_int ordinal))))).

Definition get_one (A : Type) `{DatumType A} (t : SpiTupleTable) : SpiResult (option A) := get A t 1.

Definition get_two (A B : Type) `{DatumType A} `{DatumType B} (t : SpiTupleTable) : SpiResult (option A * option B) :=
  a <-- get A t 1 ;; b <-- get B t 2 ;; ok (a, b).

Definition get_three (A B C : Type) `{DatumType A} `{DatumType B} `{DatumType C} (t : SpiTupleTable)
  : SpiResult (option A * option B * option C) :=
  a <-- get A t 1 ;; b <-- get B t 2 ;; c <-- get C t 3 ;; ok (a, b, c).

Definition column_ordinal (t : SpiTupleTable) (name : bytes) : SpiResult Z :=
  '(_, td) <-- get_spi_tuptable t ;; deref_tupdesc td (fun td => fnumber_of td name).

Definition get_by_name (T : Type) `{DatumType T} (t : SpiTupleTable) (name : bytes) : SpiResult (option T) :=
  ordinal <-- column_ordinal t name ;; get T t ordinal.

Definition get_datum_by_name (t : SpiTupleTable) (name : bytes) : SpiResult (option Z) :=
  ordinal <-- column_ordinal t name ;; get_datum_by_ordinal t ordinal.

Definition column_type_oid (t : SpiTupleTable) (ordinal : Z) : SpiResult Z :=
  _ <-- check_ordinal_bounds t ordinal ;;
  '(_, td) <-- get_spi_tuptable t ;; deref_tupdesc td (fun td => ok (SPI_gettypeid td (as_c_int ordinal))).

Definition column_name (t : SpiTupleTable) (ordinal : Z) : SpiResult bytes :=
  _ <-- check_ordinal_bounds t ordinal ;;
  '(_, td) <-- get_spi_tuptable t ;;
  deref_tupdesc td (fun td =>
    let name := SPI_fname td (as_c_int ordinal) in
    eassert (utf8_valid name) "column name is not value UTF8" (ok name)).

(** [Iterator::next]; an error is reported to Postgres. *)
Definition next (t : SpiTupleTable) : ending (option SpiHeapTupleData) * SpiTupleTable :=
  let t := with_current t (as_isize (current t + 1)) in
  (if as_isize (size t) <=? current t then Returned None
   else eassert (0 <=? current t) "assertion failed: self.current >= 0"
     (ebind (get_heap_tuple t) (fun r =>
      match r with inr o => Returned o | inl _ => Panicked "unwrap_or_report" end)), t).

Definition size_hint (t : SpiTupleTable) : Z * option Z := (0, Some (size t)).

(** Calling [next] until it gives [None], [fuel] times at most: the rows it gave and
    whether it got to [None]. *)
Fixpoint drain (fuel : nat) (t : SpiTupleTable) : ending (list SpiHeapTupleData * bool) * SpiTupleTable :=
  match fuel with
  | O => (Returned ([], false), t)
  | S fuel =>
      let '(r, t) := next t in
      match r with
      | Returned None => (Returned ([], true), t)
      | Returned (Some row) =>
          let '(rest, t) := drain fuel t in
          (ebind rest (fun '(rows, ended) => Returned (row :: rows, ended)), t)
      | Panicked w => (Panicked w, t)
      | Undefined => (Undefined, t)
      end
  end.

End Model.
