(* ===== verification/SpiTableSafe.v ===== *)
(** * Reading what SPI returned

    Status codes are classified without undefined behaviour; a table gives every row
    once and in order, and a value read through the table is the value read through
    the tuple; what is set in a tuple is read back; names and positions of columns
    agree. *)
From stdpp Require Import base list strings sets.
From S2P Require Import Prelude Memory SpiTable.
#[local] Open Scope Z_scope.
#[local] Open Scope spi_scope.

(** ** Status codes *)

Lemma find_discriminant {A} (disc : A -> Z) (l : list A) (v : A) :
  v ∈ l -> (forall a b, disc a = disc b -> a = b) -> transmute disc l (disc v) = Returned v.
Proof.
  intros Hv Hinj. unfold transmute. destruct (List.find _ l) as [w|] eqn:Hf.
  - apply List.find_some in Hf as [_ Hw]. simpl. f_equal. apply Hinj. lia.
  - eapply List.find_none in Hf; [|by apply list_elem_of_In]. lia.
Qed.

Lemma ok_all c : c ∈ ok_variants.
Proof. destruct c; set_solver. Qed.
Lemma err_all c : c ∈ err_variants.
Proof. destruct c; set_solver. Qed.
Lemma ok_discriminant_inj a b : ok_discriminant a = ok_discriminant b -> a = b.
Proof. destruct a; destruct b; simpl; intros; try lia; done. Qed.
Lemma err_discriminant_inj a b : err_discriminant a = err_discriminant b -> a = b.
Proof. destruct a; destruct b; simpl; intros; try lia; done. Qed.

Lemma try_from_ok c : SpiOkCodes_try_from (ok_discriminant c) = Returned (inr c).
Proof.
  unfold SpiOkCodes_try_from. rewrite find_discriminant by (apply ok_all || apply ok_discriminant_inj).
  by destruct c.
Qed.
Lemma try_from_err c : SpiOkCodes_try_from (err_discriminant c) = Returned (inl (inl c)).
Proof.
  unfold SpiOkCodes_try_from. rewrite find_discriminant by (apply err_all || apply err_discriminant_inj).
  by destruct c.
Qed.

Lemma enumerate (lo n : nat) (P : Z -> Prop) z :
  Forall P (seqZ (Z.of_nat lo - 13) (Z.of_nat n)) -> Z.of_nat lo - 13 <= z < Z.of_nat lo - 13 + Z.of_nat n -> P z.
Proof. intros HP Hz. rewrite list.Forall_forall in HP. apply HP, elem_of_seqZ. lia. Qed.

Lemma ok_code_exists z : 1 <= z <= 18 -> exists c, ok_discriminant c = z.
Proof.
  intros Hz. apply (enumerate 14 18 (fun z => exists c, ok_discriminant c = z)); [|lia].
  repeat constructor; first [by exists OkConnect | by exists OkFinish | by exists OkFetch | by exists OkUtility
  | by exists OkSelect | by exists OkSelInto | by exists OkInsert | by exists OkDelete | by exists OkUpdate
  | by exists OkCursor | by exists OkInsertReturning | by exists OkDeleteReturning | by exists OkUpdateReturning
  | by exists OkRewritten | by exists OkRelRegister | by exists OkRelUnregister | by exists OkTdRegister | by exists OkMerge].
Qed.
Lemma err_code_exists z : -13 <= z <= -1 -> exists c, err_discriminant c = z.
Proof.
  intros Hz. apply (enumerate 0 13 (fun z => exists c, err_discriminant c = z)); [|lia].
  repeat constructor; first [by exists ErrConnect | by exists ErrCopy | by exists ErrOpUnknown | by exists ErrUnconnected
  | by exists ErrCursor | by exists ErrArgument | by exists ErrParam | by exists ErrTransaction | by exists ErrNoAttribute
  | by exists ErrNoOutFunc | by exists ErrTypUnknown | by exists ErrRelDuplicate | by exists ErrRelNotFound].
Qed.

(** Every status code is classified: a discriminant of [SpiOkCodes] gives its variant,
    one of [SpiErrorCodes] gives the error, and the remaining integers, for which the
    status cannot be told, are the ones at which [check_status] panics; no integer is
    transmuted into an enum that lacks it. *)
Theorem status_codes_classified code :
  (exists c, code = ok_discriminant c /\ SpiOkCodes_try_from code = Returned (inr c)
             /\ SpiErrorCodes_try_from code = Returned (inl (inl c)) /\ check_status code = ok c)
  \/ (exists e, code = err_discriminant e /\ SpiOkCodes_try_from code = Returned (inl (inl e))
                /\ SpiErrorCodes_try_from code = Returned (inr e) /\ check_status code = err (ESpiError e))
  \/ ((code < -13 \/ code = 0 \/ 18 < code) /\ SpiOkCodes_try_from code = Returned (inl (inr unknown_variant))
      /\ check_status code = Panicked "unrecognized SPI status code").
Proof.
  unfold check_status, SpiErrorCodes_try_from.
  destruct (decide (1 <= code <= 18)) as [Hok|Hok].
  { left. destruct (ok_code_exists _ Hok) as [c <-]. exists c. by rewrite try_from_ok. }
  destruct (decide (-13 <= code <= -1)) as [Herr|Herr].
  { right; left. destruct (err_code_exists _ Herr) as [c <-]. exists c. by rewrite try_from_err. }
  right; right. assert (Hu : SpiOkCodes_try_from code = Returned (inl (inr unknown_variant))).
  { unfold SpiOkCodes_try_from. destruct (_ && _) eqn:E1; [lia|]. destruct ((1 <=? _) && _) eqn:E2; [lia|]. done. }
  rewrite Hu. split; [lia|done].
Qed.

(** From Postgres 17 on, [MERGE .. RETURNING] ends with status 19. *)
Example merge_returning_panics : check_status 19 = Panicked "unrecognized SPI status code".
Proof. reflexivity. Qed.

(** ** Tables *)

Lemma as_usize_id n : 0 <= n < USIZE -> as_usize n = n.
Proof. apply Z.mod_small. Qed.
Lemma as_isize_id n : - 2 ^ 63 <= n < 2 ^ 63 -> as_isize n = n.
Proof. intros Hn. unfold as_isize, USIZE. rewrite Z.mod_small; lia. Qed.
Lemma as_c_int_id n : - 2 ^ 31 <= n < 2 ^ 31 -> as_c_int n = n.
Proof. intros Hn. unfold as_c_int. rewrite Z.mod_small; lia. Qed.

Lemma slice_get_lookup {A} (l : list A) i : 0 <= i -> slice_get l i = l !! Z.to_nat i.
Proof.
  intros Hi. unfold slice_get. destruct (i <? _) eqn:E; [done|]. symmetry. apply lookup_ge_None. lia.
Qed.

Section Tables.
Context {H : HeapAccess} {HL : HeapLaws H}.

(** What [prepare_tuple_table] makes, moved by [next], [first] and [rewind]: the rows
    of Postgres' table, or no table. *)
Definition table_ok (t : SpiTupleTable) : Prop :=
  0 <= size t < 2 ^ 62 /\ -1 <= current t < 2 ^ 63 - 1
  /\ match table t with
     | Some tab => size t = Z.of_nat (length (vals tab)) /\ is_Some (tupdesc tab)
     | None => True
     end.

(** The row a table is positioned on. *)
Definition current_row (t : SpiTupleTable) : option HeapTuple :=
  match table t with
  | Some tab => if 0 <=? current t then vals tab !! Z.to_nat (current t) else None
  | None => None
  end.

Definition desc_of (t : SpiTupleTable) : option TupleDesc := table t ≫= tupdesc.

(** The tuple a row is read into. *)
Definition tuple_of (td : TupleDesc) (row : HeapTuple) : SpiHeapTupleData :=
  {| d_tupdesc := td; entries := entry_of td row <$> seqZ 1 (natts td) |}.

Lemma foldl_push {A B} (f : A -> B) (l : list A) acc : foldl (fun es i => es ++ [f i]) acc l = acc ++ (f <$> l).
Proof.
  revert acc. induction l as [|x l IH]; intros acc; simpl; [by rewrite app_nil_r|].
  by rewrite IH, <- app_assoc.
Qed.

Lemma tuple_new_spec td row : tuple_new (Some td) row = ok (Some (tuple_of td row)).
Proof.
  unfold tuple_new, eassert. rewrite foldl_push. pose proof (natts_range td).
  by replace (0 <=? natts td) with true by lia.
Qed.

Lemma desc_of_ok t : table_ok t -> is_Some (table t) ->
  exists tab td, table t = Some tab /\ tupdesc tab = Some td /\ size t = Z.of_nat (length (vals tab)).
Proof.
  intros (_ & _ & Ht) [tab Htab]. rewrite Htab in Ht. destruct Ht as [Hs [td Htd]]. by exists tab, td.
Qed.

Lemma position_row t tab : table_ok t -> table t = Some tab ->
  match current_row t with
  | Some row => out_of_position t = false /\ row_at tab (size t) (as_usize (current t)) = Returned row
  | None => out_of_position t = true
  end.
Proof.
  intros (Hs & Hc & Ht) Htab. unfold current_row, out_of_position. rewrite Htab in *. destruct Ht as [Hlen _].
  destruct (0 <=? current t) eqn:E0; [|by replace (current t <? 0) with true by lia].
  assert (Hu : as_usize (current t) = current t) by (apply as_usize_id; unfold USIZE; lia).
  unfold row_at. rewrite Hu, Hlen, slice_get_lookup by lia.
  destruct (vals tab !! Z.to_nat (current t)) as [row|] eqn:Hrow.
  - apply lookup_lt_Some in Hrow as Hlt. split; [lia|]. by replace (current t <? _) with true by lia.
  - apply lookup_ge_None in Hrow. lia.
Qed.

Lemma get_heap_tuple_spec t tab td : table_ok t -> table t = Some tab -> tupdesc tab = Some td ->
  get_heap_tuple t = if size t =? 0 then ok None else
    match current_row t with Some row => ok (Some (tuple_of td row)) | None => err EInvalidPosition end.
Proof.
  intros Hok Htab Htd. pose proof (position_row _ _ Hok Htab) as Hp. unfold get_heap_tuple, get_spi_tuptable.
  rewrite Htab. destruct (size t =? 0); [done|]. simpl. destruct (current_row t) as [row|].
  - destruct Hp as [-> Hrow]. unfold try_. cbn [ebind ok]. rewrite Hrow, Htd. apply tuple_new_spec.
  - by rewrite Hp.
Qed.

Lemma columns_spec t tab td : table t = Some tab -> tupdesc tab = Some td -> columns t = ok (natts td).
Proof.
  intros Htab Htd. unfold columns, get_spi_tuptable, try_, deref_tupdesc. rewrite Htab. simpl. rewrite Htd. simpl.
  pose proof (natts_range td). by rewrite as_usize_id by (unfold USIZE; lia).
Qed.

Definition in_columns (td : TupleDesc) (ordinal : Z) : bool := (1 <=? ordinal) && (ordinal <=? natts td).

Lemma check_ordinal_bounds_spec t tab td ordinal : table t = Some tab -> tupdesc tab = Some td ->
  check_ordinal_bounds t ordinal = if in_columns td ordinal then ok tt else err (ESpiError ErrNoAttribute).
Proof.
  intros Htab Htd. unfold check_ordinal_bounds, in_columns. rewrite (columns_spec _ _ _ Htab Htd).
  destruct (ordinal <? 1) eqn:E1; [by replace (1 <=? ordinal) with false by lia|].
  replace (1 <=? ordinal) with true by lia. simpl.
  destruct (natts td <? ordinal) eqn:E2; [by replace (ordinal <=? _) with false by lia|].
  by replace (ordinal <=? _) with true by lia.
Qed.

Lemma get_datum_by_ordinal_spec t tab td ordinal : table_ok t -> table t = Some tab -> tupdesc tab = Some td ->
  get_datum_by_ordinal t ordinal =
    if in_columns td ordinal then
      match current_row t with Some row => ok (SPI_getbinval row td ordinal) | None => err EInvalidPosition end
    else err (ESpiError ErrNoAttribute).
Proof.
  intros Hok Htab Htd. unfold get_datum_by_ordinal. rewrite (check_ordinal_bounds_spec _ _ _ _ Htab Htd).
  destruct (in_columns td ordinal) eqn:Hin; [|done]. pose proof (position_row _ _ Hok Htab) as Hp.
  unfold try_, get_spi_tuptable. rewrite Htab. simpl. rewrite Htd. unfold in_columns in Hin. pose proof (natts_range td).
  destruct (current_row t); [|by rewrite Hp]. destruct Hp as [-> Hrow]. rewrite Hrow. simpl.
  by rewrite as_c_int_id by lia.
Qed.

(** ** Reading values *)

(** A datum, [None] for null, as a value of [T]. *)
Definition convert (T : Type) `{DatumType T} (oid : Z) (datum : option Z) : SpiResult (option T) :=
  datum_result (try_from_datum_in_memory_context T (default 0 datum) (bool_decide (datum = None)) oid).

Lemma table_get_spec (T : Type) `{DatumType T} t tab td ordinal :
  has_parent_context = true -> table_ok t -> table t = Some tab -> tupdesc tab = Some td ->
  get T t ordinal =
    if in_columns td ordinal then
      match current_row t with
      | Some row => convert T (SPI_gettypeid td ordinal) (SPI_getbinval row td ordinal)
      | None => err EInvalidPosition
      end
    else err (ESpiError ErrNoAttribute).
Proof.
  intros Hp Hok Htab Htd. unfold get, get_spi_tuptable. rewrite Htab. unfold try_ at 1. cbn [ebind ok].
  rewrite (get_datum_by_ordinal_spec _ _ _ _ Hok Htab Htd). destruct (in_columns td ordinal) eqn:Hin; [|done].
  destruct (current_row t); [|done]. unfold try_, parent_context, eassert, deref_tupdesc. cbn [ebind ok].
  rewrite Hp, Htd. cbn [ebind defined]. unfold in_columns in Hin. pose proof (natts_range td).
  by rewrite as_c_int_id by lia.
Qed.

Lemma tuple_of_ok td row : Z.of_nat (length (entries (tuple_of td row))) = natts td.
Proof. simpl. rewrite length_fmap, length_seqZ. pose proof (natts_range td). lia. Qed.

Lemma tuple_of_lookup td row ordinal : in_columns td ordinal = true ->
  entries (tuple_of td row) !! Z.to_nat (ordinal - 1) = Some (entry_of td row ordinal).
Proof.
  unfold in_columns. intros Hin. simpl. rewrite list_lookup_fmap, lookup_seqZ_lt by lia. simpl. do 2 f_equal. lia.
Qed.

(** A tuple whose entries are the columns of its descriptor. *)
Definition tuple_ok (t : SpiHeapTupleData) : Prop := Z.of_nat (length (entries t)) = natts (d_tupdesc t).

Lemma tuple_datum_by_ordinal_spec t ordinal : tuple_ok t -> 0 <= ordinal < USIZE ->
  tuple_datum_by_ordinal t ordinal =
    match (if in_columns (d_tupdesc t) ordinal then entries t !! Z.to_nat (ordinal - 1) else None) with
    | Some e => ok e
    | None => err (ESpiError ErrNoAttribute)
    end.
Proof.
  intros Hok Ho. unfold tuple_datum_by_ordinal, slice_get, in_columns. rewrite Hok.
  pose proof (natts_range (d_tupdesc t)). destruct (1 <=? ordinal) eqn:E1; simpl.
  - rewrite as_usize_id by lia. destruct (ordinal <=? _) eqn:E2.
    + by replace (ordinal - 1 <? _) with true by lia.
    + by replace (ordinal - 1 <? _) with false by lia.
  - replace ordinal with 0 by lia. replace (as_usize (0 - 1) <? natts (d_tupdesc t)) with false; [done|].
    unfold as_usize, USIZE. change ((0 - 1) mod 2 ^ 64) with (2 ^ 64 - 1). lia.
Qed.

Lemma value_convert (T : Type) `{DatumType T} `{!DatumLaws T} (e : SpiHeapTupleDataEntry) :
  has_parent_context = true ->
  (e_datum e = None -> is_binary_coercible T (e_type_oid e) = true) ->
  value T e = convert T (e_type_oid e) (e_datum e).
Proof.
  intros Hp Hn. unfold value, convert, parent_context, eassert. rewrite Hp.
  destruct (e_datum e) as [d|]; [done|]. unfold try_from_datum_in_memory_context. rewrite Hn by done. simpl.
  by rewrite from_null.
Qed.

(** [get] of a tuple taken out of a row. *)
Lemma tuple_get_of (T : Type) `{DatumType T} `{!DatumLaws T} td row ordinal :
  has_parent_context = true -> 0 <= ordinal < USIZE ->
  (in_columns td ordinal = true -> SPI_getbinval row td ordinal = None ->
   is_binary_coercible T (SPI_gettypeid td ordinal) = true) ->
  tuple_get T (tuple_of td row) ordinal =
    if in_columns td ordinal then convert T (SPI_gettypeid td ordinal) (SPI_getbinval row td ordinal)
    else err (ESpiError ErrNoAttribute).
Proof.
  intros Hp Ho Hn. unfold tuple_get. rewrite tuple_datum_by_ordinal_spec by (done || apply tuple_of_ok).
  cbn [d_tupdesc tuple_of]. destruct (in_columns td ordinal) eqn:Hin; [|done].
  change (entry_of td row <$> _) with (entries (tuple_of td row)).
  rewrite (tuple_of_lookup _ _ _ Hin). unfold try_. cbn [ebind ok]. by rewrite value_convert by (done || (simpl; auto)).
Qed.

Lemma fnumber_of_usize td name n : fnumber_of td name = ok n -> 0 <= n < USIZE.
Proof.
  unfold fnumber_of, CString_new. destruct (decide _); [done|]. simpl. destruct (_ =? _); [done|].
  intros [= <-]. apply Z.mod_pos_bound. done.
Qed.

(** A value read at the row a table is positioned on, by position or by name, is the
    value read from the tuple of that row: the same value, the same error.  (A null
    whose column does not convert to the type is the exception.) *)
Theorem table_and_tuple_reads_agree (T : Type) `{DatumType T} `{!DatumLaws T} t td row :
  has_parent_context = true -> table_ok t -> desc_of t = Some td -> current_row t = Some row ->
  (forall i, in_columns td i = true -> SPI_getbinval row td i = None -> is_binary_coercible T (SPI_gettypeid td i) = true) ->
  get_heap_tuple t = ok (Some (tuple_of td row))
  /\ (forall ordinal, 0 <= ordinal < USIZE -> tuple_get T (tuple_of td row) ordinal = get T t ordinal)
  /\ (forall name, tuple_get_by_name T (tuple_of td row) name = get_by_name T t name).
Proof.
  intros Hp Hok Hd Hrow Hn. unfold desc_of in Hd. destruct (table t) as [tab|] eqn:Htab; [|done]. simpl in Hd.
  assert (Hget : forall ordinal, 0 <= ordinal < USIZE -> tuple_get T (tuple_of td row) ordinal = get T t ordinal).
  { intros ordinal Ho. rewrite (table_get_spec T t tab td), Hrow by done. apply tuple_get_of; auto. }
  split_and!; [|done|].
  - rewrite (get_heap_tuple_spec t tab td), Hrow by done. destruct (size t =? 0) eqn:E0; [|done].
    destruct Hok as (_ & _ & Ht). rewrite Htab in Ht. destruct Ht as [Hlen _]. unfold current_row in Hrow.
    rewrite Htab in Hrow. destruct (0 <=? current t); [|done]. apply lookup_lt_Some in Hrow. lia.
  - intros name. unfold tuple_get_by_name, tuple_datum_by_name, get_by_name, column_ordinal, get_spi_tuptable.
    rewrite Htab. unfold try_ at 3 4. cbn [ebind ok]. unfold deref_tupdesc. rewrite Hd. cbn [ebind defined].
    change (d_tupdesc (tuple_of td row)) with td.
    destruct (fnumber_of td name) as [[e|ordinal]| |] eqn:Hf; [done| |done|done].
    specialize (Hget ordinal (fnumber_of_usize _ _ _ Hf)). exact Hget.
Qed.

(** ** Iteration *)

Lemma with_current_ok t c : table_ok t -> -1 <= c < 2 ^ 63 - 1 -> table_ok (with_current t c).
Proof. intros (Hs & _ & Ht) Hc. unfold table_ok. simpl. auto. Qed.

Lemma next_spec t : table_ok t -> current t + 1 < 2 ^ 63 - 1 ->
  next t = (Returned (row ← current_row (with_current t (current t + 1)); td ← desc_of t; Some (tuple_of td row)),
            with_current t (current t + 1)).
Proof.
  intros Hok Hc. pose proof Hok as (Hs & Hc0 & Ht). unfold next, desc_of. rewrite (as_isize_id (current t + 1)) by lia.
  set (t' := with_current t (current t + 1)). cbn [size current with_current t'].
  rewrite (as_isize_id (size t)) by lia.
  assert (Hok' : table_ok t') by (apply with_current_ok; [done|lia]). f_equal.
  change (size (with_current t (current t + 1))) with (size t) in *.
  destruct (table t) as [tab|] eqn:Htab.
  - destruct Ht as [Hlen [td Htd]]. rewrite (get_heap_tuple_spec t' tab td Hok' Htab Htd).
    unfold current_row. cbn [table current with_current t']. rewrite Htab. cbn [mbind option_bind]. rewrite Htd.
    change (size t') with (size t). replace (0 <=? current t + 1) with true by lia.
    destruct (vals tab !! Z.to_nat (current t + 1)) as [row|] eqn:Hrow; simpl.
    + apply lookup_lt_Some in Hrow. replace (size t <=? current t + 1) with false by lia.
      by replace (size t =? 0) with false by lia.
    + apply lookup_ge_None in Hrow. by replace (size t <=? current t + 1) with true by lia.
  - unfold current_row. cbn [table with_current t']. rewrite Htab. simpl.
    destruct (size t <=? current t + 1) eqn:E; [done|]. unfold eassert.
    replace (0 <=? current t + 1) with true by lia. unfold get_heap_tuple. cbn [table t' with_current].
    rewrite Htab. by rewrite orb_true_r.
Qed.

Lemma drain_step n t tab td :
  table_ok t -> table t = Some tab -> tupdesc tab = Some td -> current t < size t ->
  drain (S n) t =
    let t' := with_current t (current t + 1) in
    match vals tab !! Z.to_nat (current t + 1) with
    | None => (Returned ([], true), t')
    | Some row => let '(rest, t'') := drain n t' in
        (ebind rest (fun '(rows, ended) => Returned (tuple_of td row :: rows, ended)), t'')
    end.
Proof.
  intros Hok Htab Htd Hc. pose proof Hok as (Hs & Hc0 & _). cbn [drain]. rewrite next_spec by (done || lia).
  unfold desc_of, current_row. cbn [table current with_current]. rewrite Htab. cbn [mbind option_bind]. rewrite Htd.
  replace (0 <=? current t + 1) with true by lia. by destruct (vals tab !! _).
Qed.

(** The rows after the current one. *)
Definition rest_of (t : SpiTupleTable) (tab : SPITupleTable) : list HeapTuple := drop (Z.to_nat (current t + 1)) (vals tab).

Lemma rest_of_next t tab row : -1 <= current t -> vals tab !! Z.to_nat (current t + 1) = Some row ->
  rest_of t tab = row :: rest_of (with_current t (current t + 1)) tab.
Proof.
  intros Hc Hrow. unfold rest_of. rewrite (drop_S _ row) by done. cbn [current with_current].
  by replace (Z.to_nat (current t + 1 + 1)) with (S (Z.to_nat (current t + 1))) by lia.
Qed.

Lemma drain_take n t tab td :
  table_ok t -> table t = Some tab -> tupdesc tab = Some td -> (n <= length (rest_of t tab))%nat ->
  drain n t = (Returned (take n (tuple_of td <$> rest_of t tab), false), with_current t (current t + Z.of_nat n)).
Proof.
  intros Hok Htab Htd. revert t Hok Htab. induction n as [|n IH]; intros t Hok Htab Hn.
  { simpl. rewrite Z.add_0_r. by destruct t. }
  pose proof Hok as (Hs & Hc0 & Ht). rewrite Htab in Ht. destruct Ht as [Hlen _].
  assert (Hn' := Hn). unfold rest_of in Hn'. rewrite length_drop in Hn'. rewrite (drain_step n t tab td) by (done || lia).
  destruct (vals tab !! _) as [row|] eqn:Hrow; [|apply lookup_ge_None in Hrow; lia].
  rewrite (rest_of_next t tab row) in Hn |- * by (done || lia). simpl in Hn. cbv zeta.
  rewrite IH by (done || lia || (apply with_current_ok; [done|lia])). simpl. do 2 f_equal. lia.
Qed.

Lemma drain_app n k t : 
  drain (n + k) t =
    match drain n t with
    | (Returned (rows, false), t') => let '(r, t'') := drain k t' in
        (ebind r (fun '(rows', ended) => Returned (rows ++ rows', ended)), t'')
    | r => r
    end.
Proof.
  revert t. induction n as [|n IH]; intros t; cbn [drain Nat.add].
  { by destruct (drain k t) as [[[? ?]| |] ?]. }
  destruct (next t) as [[[row|]| |] t']; [|done..]. rewrite IH.
  destruct (drain n t') as [[[rows [|]]| |] t'']; simpl; [done| |done..].
  by destruct (drain k t'') as [[[? ?]| |] ?].
Qed.

(** C25. A table that is iterated from the start, for the first time or after [rewind],
    gives the tuple of every row, once each and in order, and then nothing; one of a
    statement without rows to give ends at once, whatever its length says. *)
Theorem iteration_gives_every_row t :
  table_ok t ->
  match table t with
  | Some tab => exists td, tupdesc tab = Some td
      /\ drain (S (length (vals tab))) (rewind t) = (Returned (tuple_of td <$> vals tab, true), with_current t (size t))
      /\ len t = Z.of_nat (length (vals tab))
      /\ (forall n, (n <= length (vals tab))%nat ->
          exists t', drain n (rewind t) = (Returned (take n (tuple_of td <$> vals tab), false), t'))
      /\ (next (with_current t (size t))).1 = Returned None
  | None => (drain 1 (rewind t)).1 = Returned ([], true)
  end.
Proof.
  intros Hok. assert (Hok' : table_ok (rewind t)) by (apply with_current_ok; [done|lia]).
  pose proof Hok as (Hs & _ & Ht). destruct (table t) as [tab|] eqn:Htab.
  - destruct Ht as [Hlen [td Htd]]. exists td. split; [done|]. split_and!.
    + rewrite <- Nat.add_1_r, drain_app, (drain_take _ _ tab td) by (done || (unfold rest_of; simpl; lia)).
      rewrite (drain_step 0 _ tab td) by (done || (simpl; lia) || (apply with_current_ok; [done|simpl; lia])).
      unfold rest_of. cbn [current rewind with_current]. rewrite lookup_ge_None_2 by lia. cbn [ebind].
      change (Z.to_nat (-1 + 1)) with 0%nat. rewrite drop_0, app_nil_r, take_ge by (rewrite length_fmap; lia).
      f_equal. unfold with_current. simpl. f_equal. lia.
    + done.
    + intros n Hn. eexists. by apply (drain_take n (rewind t) tab td).
    + rewrite next_spec by (try apply with_current_ok; (done || (simpl; lia))).
      unfold current_row. cbn [table current with_current fst]. rewrite Htab.
      replace (0 <=? size t + 1) with true by lia. by rewrite lookup_ge_None_2 by lia.
  - cbn [drain]. rewrite next_spec by (done || (simpl; lia)). unfold current_row. cbn [table rewind with_current].
    by rewrite Htab.
Qed.

(** ** What a read gives *)

(** C31. [get] on a table, on every branch: without a table the error says so, a position
    that is not a column is [NoAttribute], a table that is not on a row (before the
    first, after the last, or empty) is [InvalidPosition], a column of a type that cannot be
    read is [Incompatible], with both types, and otherwise the value is the column of that row,
    converted.  The table is one that Postgres made, there is a parent context, and Postgres
    can name every type. *)
Theorem get_on_every_branch (T : Type) `{DatumType T} `{!DatumLaws T} t ordinal :
  has_parent_context = true -> table_ok t -> (forall oid, is_Some (format_type_extended oid)) ->
  match desc_of t with
  | None => get T t ordinal = err ENoTupleTable
  | Some td =>
      if in_columns td ordinal then
        match current_row t with
        | None => get T t ordinal = err EInvalidPosition
        | Some row =>
            let oid := SPI_gettypeid td ordinal in
            if is_binary_coercible T oid
            then get T t ordinal = ok (d ← SPI_getbinval row td ordinal; from_datum d false oid)
            else exists e, get T t ordinal = err (EDatumError (Incompatible e)) /\ datum_oid e = oid /\ rust_oid e = type_oid T
        end
      else get T t ordinal = err (ESpiError ErrNoAttribute)
  end.
Proof.
  intros Hp Hok Hnames. unfold desc_of. destruct (table t) as [tab|] eqn:Htab; simpl.
  - destruct (desc_of_ok t Hok ltac:(by rewrite Htab)) as (tab' & td & Ht & Htd & _).
    rewrite Htab in Ht. injection Ht as <-. rewrite Htd, (table_get_spec T t tab td) by done.
    destruct (in_columns td ordinal); [|done]. destruct (current_row t) as [row|]; [|done].
    unfold convert, try_from_datum_in_memory_context, lookup_type_name. destruct (is_binary_coercible T _); simpl.
    + destruct (SPI_getbinval row td ordinal); simpl; [done|]. by rewrite from_null.
    + destruct (Hnames (SPI_gettypeid td ordinal)) as [name ->]. simpl. by eexists.
  - unfold get, get_spi_tuptable. by rewrite Htab.
Qed.

(** ** Setting entries *)

Lemma set_by_ordinal_spec (T : Type) `{DatumType T} t ordinal (x : T) : tuple_ok t ->
  set_by_ordinal T t ordinal x =
    if in_columns (d_tupdesc t) ordinal
    then (ok tt, {| d_tupdesc := d_tupdesc t;
                    entries := <[Z.to_nat (ordinal - 1) := {| e_datum := into_datum x; e_type_oid := type_oid T |}]> (entries t) |})
    else (err (ESpiError ErrNoAttribute), t).
Proof.
  intros Hok. unfold set_by_ordinal, tuple_check_ordinal_bounds, tuple_columns, in_columns.
  pose proof (natts_range (d_tupdesc t)). rewrite as_usize_id by (unfold USIZE; lia). unfold tuple_ok in Hok.
  destruct (ordinal <? 1) eqn:E1; [by replace (1 <=? ordinal) with false by lia|].
  replace (1 <=? ordinal) with true by lia. simpl.
  destruct (_ <? ordinal) eqn:E2; [by replace (ordinal <=? _) with false by lia|].
  replace (ordinal <=? _) with true by lia. simpl. by rewrite decide_True by lia.
Qed.

(** A value that is set in a tuple, by position or by name, is read back at that
    position as it was (null where it has no datum) and no other column changes; the
    tuple keeps an entry per column; a position or a name that is not a column is
    [NoAttribute] and leaves the tuple alone. *)
Theorem set_then_get (T : Type) `{DatumType T} `{!DatumLaws T} t ordinal (x : T) :
  has_parent_context = true -> tuple_ok t -> 0 <= ordinal < USIZE ->
  let '(r, t') := set_by_ordinal T t ordinal x in
  tuple_ok t' /\ d_tupdesc t' = d_tupdesc t
  /\ (forall i, 0 <= i < USIZE -> i <> ordinal -> tuple_datum_by_ordinal t' i = tuple_datum_by_ordinal t i)
  /\ (if in_columns (d_tupdesc t) ordinal
      then r = ok tt /\ tuple_get T t' ordinal = ok (match into_datum x with Some _ => Some x | None => None end)
      else r = err (ESpiError ErrNoAttribute) /\ t' = t)
  /\ (forall name, fnumber_of (d_tupdesc t) name = ok ordinal -> set_by_name T t name x = (r, t')).
Proof.
  intros Hp Hok Ho. assert (Hname : forall name, fnumber_of (d_tupdesc t) name = ok ordinal ->
    set_by_name T t name x = set_by_ordinal T t ordinal x).
  { intros name Hf. unfold set_by_name. by rewrite Hf. }
  rewrite (set_by_ordinal_spec T) in Hname |- * by done. destruct (in_columns (d_tupdesc t) ordinal) eqn:Hin; [|by auto].
  set (t' := {| d_tupdesc := d_tupdesc t; entries := _ |}) in *.
  assert (Hok' : tuple_ok t') by (unfold tuple_ok; simpl; by rewrite length_insert).
  assert (Hlt : (Z.to_nat (ordinal - 1) < length (entries t))%nat).
  { unfold in_columns in Hin. unfold tuple_ok in Hok. lia. }
  split_and!; [done|done| |done| |done].
  - intros i Hi Hne. rewrite !tuple_datum_by_ordinal_spec by done. cbn [d_tupdesc t' entries].
    destruct (in_columns (d_tupdesc t) i) eqn:Hini; [|done]. unfold in_columns in Hin, Hini.
    by rewrite list_lookup_insert_ne by lia.
  - unfold tuple_get. rewrite tuple_datum_by_ordinal_spec by done. cbn [d_tupdesc t' entries]. rewrite Hin.
    rewrite list_lookup_insert_eq by done. unfold try_, value. cbn [ebind ok e_datum e_type_oid].
    destruct (into_datum x) as [d|] eqn:Hd; [|done]. unfold parent_context, eassert. rewrite Hp.
    unfold try_from_datum_in_memory_context, is_binary_coercible. rewrite own_type_compatible. simpl.
    by rewrite (from_into x d Hd).
Qed.

(** ** Names of columns *)

Lemma column_ordinal_spec t tab td name : table t = Some tab -> tupdesc tab = Some td ->
  column_ordinal t name = fnumber_of td name.
Proof.
  intros Htab Htd. unfold column_ordinal, get_spi_tuptable. rewrite Htab. unfold try_, deref_tupdesc. simpl.
  by rewrite Htd.
Qed.

Lemma column_name_spec t tab td i : table t = Some tab -> tupdesc tab = Some td ->
  in_columns td i = true -> utf8_valid (SPI_fname td i) = true -> column_name t i = ok (SPI_fname td i).
Proof.
  intros Htab Htd Hin Hu. unfold column_name. rewrite (check_ordinal_bounds_spec t tab td) by done. rewrite Hin.
  unfold get_spi_tuptable. rewrite Htab. unfold try_, deref_tupdesc, eassert. cbn [ebind ok]. rewrite Htd.
  cbn [ebind defined]. unfold in_columns in Hin. pose proof (natts_range td).
  rewrite as_c_int_id by lia. by rewrite Hu.
Qed.

(** What the lookup of a name gives: nothing, a column that has it and is the first
    that does, or, for a system column, a position past every column. *)
Lemma fnumber_of_spec td name : Byte.x00 ∉ name ->
  fnumber_of td name = err (ESpiError ErrNoAttribute)
  \/ exists n, fnumber_of td name = ok n
     /\ (2 ^ 64 - 7 < n < 2 ^ 64
         \/ (in_columns td n = true /\ SPI_fname td n = name /\ forall i, 1 <= i < n -> SPI_fname td i <> name)).
Proof.
  intros Hn. unfold fnumber_of, CString_new. rewrite decide_False by done. cbn [ebind].
  pose proof (natts_range td). destruct (fnumber_range td name) as [->|[Hsys|(Hr & Hname & Hfirst)]]; [by left|right..].
  all: assert (Hne : SPI_fnumber td name =? SPI_ERROR_NOATTRIBUTE = false) by (unfold SPI_ERROR_NOATTRIBUTE; lia).
  all: rewrite Hne; eexists; split; [done|].
  - left. unfold as_usize, USIZE. rewrite <- (Z_mod_plus_full _ 1), Z.mod_small; lia.
  - right. rewrite as_usize_id by (unfold USIZE; lia). split; [unfold in_columns; lia|done].
Qed.

(** Names and positions agree: the name of a column leads back to the first column of
    that name, which is that column when names are distinct; a value asked for by a
    name that no column has is [NoAttribute]. *)
Theorem names_and_positions (T : Type) `{DatumType T} t td :
  has_parent_context = true -> table_ok t -> desc_of t = Some td ->
  (forall i, in_columns td i = true -> utf8_valid (SPI_fname td i) = true ->
     exists name j, column_name t i = ok name /\ column_ordinal t name = ok j /\ 1 <= j <= i
       /\ column_name t j = ok name /\ get_by_name T t name = get T t j
       /\ ((forall k, in_columns td k = true -> SPI_fname td k = name -> k = i) -> j = i))
  /\ (forall name, Byte.x00 ∉ name -> (forall i, in_columns td i = true -> SPI_fname td i <> name) ->
      get_by_name T t name = err (ESpiError ErrNoAttribute)).
Proof.
  intros Hp Hok Hd. unfold desc_of in Hd. destruct (table t) as [tab|] eqn:Htab; [|done]. simpl in Hd.
  split.
  - intros i Hin Hu. assert (Hi : 1 <= i <= natts td) by (unfold in_columns in Hin; lia).
    exists (SPI_fname td i). pose proof (fname_no_nul td i Hi) as Hnul.
    rewrite (column_ordinal_spec t tab td) by done. unfold get_by_name. rewrite (column_ordinal_spec t tab td) by done.
    pose proof (fnumber_column td i Hi) as Hpos.
    unfold fnumber_of, CString_new. rewrite decide_False by done. cbn [ebind].
    pose proof (natts_range td). destruct (fnumber_range td (SPI_fname td i)) as [He|[Hsys|(Hr & Hname & Hfirst)]].
    { unfold SPI_ERROR_NOATTRIBUTE in He. lia. } { lia. }
    replace (SPI_fnumber td (SPI_fname td i) =? SPI_ERROR_NOATTRIBUTE) with false by (unfold SPI_ERROR_NOATTRIBUTE; lia).
    rewrite as_usize_id by (unfold USIZE; lia). set (j := SPI_fnumber td (SPI_fname td i)) in *.
    assert (Hji : j <= i) by (destruct (decide (i < j)) as [Hlt|]; [by destruct (Hfirst i ltac:(lia))|lia]).
    assert (Hinj : in_columns td j = true) by (unfold in_columns; lia).
    exists j. split_and!; [by apply (column_name_spec t tab td)|done|lia|lia| |done|by auto].
    rewrite (column_name_spec t tab td) by (done || by rewrite Hname). by rewrite Hname.
  - intros name Hnul Hnone. unfold get_by_name. rewrite (column_ordinal_spec t tab td) by done.
    destruct (fnumber_of_spec td name Hnul) as [->|(n & -> & [Hn|(Hin & Hname & _)])].
    + done.
    + unfold try_. cbn [ebind ok]. rewrite (table_get_spec T t tab td) by done.
      pose proof (natts_range td). by replace (in_columns td n) with false by (unfold in_columns; lia).
    + by destruct (Hnone n Hin).
Qed.
End Tables.

(** ** A concrete descriptor, table and type *)

(** Columns as name and type, at most 1600 and without null bytes in their names;
    [ctid] is the only system column. *)
Definition ex_cols (d : list (bytes * Z)) : list (bytes * Z) := take 1600 (filter (fun c => Byte.x00 ∉ c.1) d).

#[export] Instance ex_access : HeapAccess := {|
  TupleDesc := list (bytes * Z);
  HeapTuple := list (option Z);
  natts d := Z.of_nat (length (ex_cols d));
  SPI_getbinval row d i := if 1 <=? i then mjoin (row !! Z.to_nat (i - 1)) else None;
  SPI_gettypeid d i := if 1 <=? i then default 0 (snd <$> ex_cols d !! Z.to_nat (i - 1)) else 0;
  SPI_fname d i := if 1 <=? i then default [] (fst <$> ex_cols d !! Z.to_nat (i - 1)) else [];
  SPI_fnumber d name :=
    match list_find (fun c => c.1 = name) (ex_cols d) with
    | Some (i, _) => Z.of_nat i + 1
    | None => if decide (name = as_bytes "ctid") then -1 else -9
    end;
  IsBinaryCoercible a b := a =? b;
  format_type_extended _ := Some "some_type"%string;
  has_parent_context := true;
|}.

Lemma ex_fname d i c : ex_cols d !! Z.to_nat (i - 1) = Some c -> 1 <= i -> SPI_fname d i = c.1.
Proof. intros Hc Hi. simpl. replace (1 <=? i) with true by lia. by rewrite Hc. Qed.

#[export] Instance ex_access_laws : HeapLaws ex_access.
Proof.
  split.
  - intros d. simpl. unfold ex_cols. rewrite length_take. lia.
  - intros d name. cbn zeta. change (SPI_fnumber d name) with
      (match list_find (fun c => c.1 = name) (ex_cols d) with Some (i, _) => Z.of_nat i + 1
       | None => if decide (name = as_bytes "ctid") then -1 else -9 end).
    destruct (list_find _ _) as [[n c]|] eqn:Hf; [|case_decide; [right; left; lia|by left]].
    apply list_find_Some in Hf as (Hc & Hname & Hbefore). apply lookup_lt_Some in Hc as Hlt.
    right; right. split; [simpl; lia|].
    split; [rewrite (ex_fname d _ c); [done|by replace (Z.to_nat _) with n by lia|lia]|].
    intros i Hi. destruct (lookup_lt_is_Some_2 (ex_cols d) (Z.to_nat (i - 1)) ltac:(lia)) as [c' Hc'].
    rewrite (ex_fname d i c') by (done || lia). eapply Hbefore; [done|lia].
  - intros d i Hi. simpl in Hi. destruct (lookup_lt_is_Some_2 (ex_cols d) (Z.to_nat (i - 1)) ltac:(lia)) as [c Hc].
    rewrite (ex_fname d i c) by (done || lia). simpl. destruct (list_find _ _) as [[n c']|] eqn:Hf; [lia|].
    apply list_find_None in Hf. rewrite list.Forall_forall in Hf. destruct (Hf c); [by eapply list_elem_of_lookup_2|done].
  - intros d i Hi. simpl in Hi. destruct (lookup_lt_is_Some_2 (ex_cols d) (Z.to_nat (i - 1)) ltac:(lia)) as [c Hc].
    rewrite (ex_fname d i c) by (done || lia). apply list_elem_of_lookup_2 in Hc. unfold ex_cols in Hc.
    apply elem_of_take in Hc as (k & Hc & _). apply list_elem_of_lookup_2, list_elem_of_filter in Hc. apply Hc.
Qed.

(** [i64], of type [int8] (20). *)
#[export] Instance ex_i64 : DatumType Z := {|
  type_name := "i64"; type_oid := 20; is_compatible_with oid := oid =? 20;
  from_datum d is_null _ := if is_null then None else Some d; into_datum z := Some z;
|}.
#[export] Instance ex_i64_laws : DatumLaws Z.
Proof. split; [done|done|]. intros t d [= ->]. done. Qed.

(** Two columns [a] (int8) and [b] (text) of two rows, the second with nulls. *)
Definition ex_desc : @TupleDesc ex_access := [(as_bytes "a", 20); (as_bytes "b", 25)].
Definition ex_table : SpiTupleTable :=
  {| status_code := OkSelect;
     table := Some {| tupdesc := Some ex_desc; vals := [[Some 7; Some 8]; [Some 9; None]]; numvals := 2 |};
     size := 2; current := -1 |}.

Lemma ex_table_ok c : -1 <= c < 2 -> table_ok (with_current ex_table c).
Proof. intros Hc. unfold table_ok. simpl. split_and!; try lia; done. Qed.

Lemma get_on_every_branch_witness :
  get Z (first ex_table) 1 = ok (Some 7) /\ get Z (with_current ex_table 1) 1 = ok (Some 9)
  /\ get Z ex_table 1 = err EInvalidPosition.
Proof.
  pose proof (get_on_every_branch Z (first ex_table) 1 eq_refl (ex_table_ok 0 ltac:(lia)) ltac:(by eexists)) as H0.
  pose proof (get_on_every_branch Z (with_current ex_table 1) 1 eq_refl (ex_table_ok 1 ltac:(lia)) ltac:(by eexists)) as H1.
  pose proof (get_on_every_branch Z ex_table 1 eq_refl (ex_table_ok (-1) ltac:(lia)) ltac:(by eexists)) as H2.
  vm_compute in H0, H1, H2. by split_and!.
Defined.

Lemma ex_columns i : in_columns ex_desc i = true -> i = 1 \/ i = 2.
Proof. unfold in_columns. change (natts ex_desc) with 2. lia. Qed.

Lemma table_and_tuple_reads_agree_witness :
  tuple_get Z (tuple_of ex_desc [Some 7; Some 8]) 1 = ok (Some 7)
  /\ tuple_get_by_name Z (tuple_of ex_desc [Some 7; Some 8]) (as_bytes "a") = ok (Some 7).
Proof.
  destruct (table_and_tuple_reads_agree Z (first ex_table) ex_desc [Some 7; Some 8]) as (_ & Ho & Hn);
    [done|by apply ex_table_ok|done|done| |].
  { intros i Hi. by destruct (ex_columns i Hi) as [-> | ->]. }
  rewrite Ho, Hn by (unfold USIZE; lia). split; reflexivity.
Defined.

(** A null of a type that does not convert: the table reports the type, the tuple does
    not. *)
Example null_of_another_type :
  tuple_get Z (tuple_of ex_desc [Some 9; None]) 2 = ok None
  /\ get Z (with_current ex_table 1) 2
     = err (EDatumError (Incompatible {| rust_type := "i64"; rust_oid := 20; datum_type := "some_type"; datum_oid := 25 |})).
Proof. split; reflexivity. Qed.

Lemma iteration_gives_every_row_witness :
  drain 3 (rewind ex_table)
  = (Returned ([tuple_of ex_desc [Some 7; Some 8]; tuple_of ex_desc [Some 9; None]], true), with_current ex_table 2).
Proof.
  destruct (iteration_gives_every_row ex_table (ex_table_ok (-1) ltac:(lia))) as (td & Htd & Hd & _).
  injection Htd as <-. exact Hd.
Defined.

Lemma set_then_get_witness :
  tuple_get Z (set_by_ordinal Z (tuple_of ex_desc [Some 9; None]) 2 11).2 2 = ok (Some 11).
Proof.
  pose proof (set_then_get Z (tuple_of ex_desc [Some 9; None]) 2 11 eq_refl (tuple_of_ok _ _)
    ltac:(unfold USIZE; lia)) as Hw.
  destruct (set_by_ordinal Z (tuple_of ex_desc [Some 9; None]) 2 11) as [r t']. apply Hw.
Defined.

Lemma names_and_positions_witness :
  exists name, column_name ex_table 2 = ok name /\ column_ordinal ex_table name = ok 2
  /\ get_by_name Z ex_table (as_bytes "c") = err (ESpiError ErrNoAttribute).
Proof.
  destruct (names_and_positions Z ex_table ex_desc eq_refl (ex_table_ok (-1) ltac:(lia)) eq_refl) as [Hi Hnone].
  destruct (Hi 2 eq_refl eq_refl) as (name & j & Hname & Hj & _ & _ & _ & Huniq). exists name. split; [done|].
  assert (name = as_bytes "b") as ->.
  { change (column_name ex_table 2) with (ok (as_bytes "b")) in Hname. by injection Hname. }
  rewrite Huniq in Hj; [split; [done|]|].
  - apply Hnone; [by apply (bool_decide_unpack _); vm_compute|].
    intros i Hin. by destruct (ex_columns i Hin) as [-> | ->].
  - intros k Hk. by destruct (ex_columns k Hk) as [-> | ->].
Defined.

(** The name of a system column has a position, which is that of no column. *)
Example system_column_ordinal :
  column_ordinal ex_table (as_bytes "ctid") = ok 18446744073709551615
  /\ get_by_name Z ex_table (as_bytes "ctid") = err (ESpiError ErrNoAttribute).
Proof. split; reflexivity. Qed.
