(* ===== verification/SpiSession.v ===== *)
(** * SPI connections, statements and cursors

    [pgrx/src/spi.rs], [pgrx/src/spi/client.rs], [pgrx/src/spi/query.rs] and
    [pgrx/src/spi/cursor.rs]: connecting to SPI around a closure, running statements,
    prepared or not, read-only or not, and cursors.

    Postgres is an interface ([SpiServer]): its functions over a state of the backend,
    an error that it raises unwinding as a panic.  [log] records what the code asked
    Postgres to run. *)
From stdpp Require Import base list strings.
From S2P Require Import Prelude Memory SpiTable.
#[local] Open Scope Z_scope.

(** An open portal: its name and the rows it has yet to give. *)
Record Portal {H : HeapAccess} := { p_name : bytes; p_desc : TupleDesc; p_rows : list HeapTuple }.

(** Functions and variables of Postgres.  A call that raises an error gives [None];
    pointers are integers, [tuptable_at] and [portal_at] what is behind them, [None]
    once it is freed. *)
Class SpiServer {H : HeapAccess} := {
  pg : Type;
  GetCurrentTransactionIdIfAny : pg -> Z;
  GetCurrentTransactionId : pg -> option Z * pg;
  SPI_connect : pg -> option Z * pg;
  SPI_finish : pg -> Z * pg;
  SPI_execute : bytes -> bool -> Z -> pg -> option Z * pg;
  SPI_execute_with_args : bytes -> list Z -> list Z -> list ascii -> bool -> Z -> pg -> option Z * pg;
  SPI_execute_plan : Z -> list Z -> list ascii -> bool -> Z -> pg -> option Z * pg;
  SPI_prepare : bytes -> list Z -> pg -> option (option Z) * pg;
  SPI_getargcount : pg -> Z -> Z;
  SPI_keepplan : Z -> pg -> option Z * pg;
  SPI_freeplan : Z -> pg -> option Z * pg;
  SPI_cursor_open_with_args : bytes -> list Z -> list Z -> list ascii -> bool -> pg -> option Z * pg;
  SPI_cursor_open : Z -> list Z -> list ascii -> bool -> pg -> option Z * pg;
  (** The portal, whether forward, and how many rows. *)
  SPI_cursor_fetch : Z -> bool -> Z -> pg -> option unit * pg;
  SPI_cursor_find : bytes -> pg -> option Z;
  SPI_cursor_close : Z -> pg -> option unit * pg;
  SPI_tuptable : pg -> option Z;
  clear_tuptable : pg -> pg;
  SPI_processed : pg -> Z;
  SPI_result : pg -> Z;
  tuptable_at : pg -> Z -> option SPITupleTable;
  portal_at : pg -> Z -> option Portal;
}.

Definition InvalidTransactionId : Z := 0.

(** What was run: a statement with its [read_only] and its limit, or a cursor. *)
Inductive run := Executed (read_only : bool) (limit : Z) | Opened (read_only : bool).
Definition read_only_of (r : run) : bool := match r with Executed b _ | Opened b => b end.

Section Session.
Context {H : HeapAccess} {S : SpiServer}.

Record world := { backend : pg; log : list run }.

Definition M (A : Type) : Type := world -> ending A * world.

Definition mret_ {A} (a : A) : M A := fun w => (Returned a, w).
Definition mpanic {A} (why : string) : M A := fun w => (Panicked why, w).
Definition mbind_ {A B} (m : M A) (k : A -> M B) : M B := fun w =>
  match m w with
  | (Returned a, w) => k a w
  | (Panicked why, w) => (Panicked why, w)
  | (Undefined, w) => (Undefined, w)
  end.
Definition lift {A} (e : ending A) : M A := fun w => (e, w).

(** A call of Postgres; an error that it raises unwinds. *)
Definition ffi {A} (f : pg -> option A * pg) : M A := fun w =>
  let '(r, b) := f (backend w) in (expect "error raised by Postgres" r, {| backend := b; log := log w |}).
Definition read {A} (f : pg -> A) : M A := fun w => (Returned (f (backend w)), w).
Definition record_run (r : run) : M unit := fun w => (Returned tt, {| backend := backend w; log := log w ++ [r] |}).

(** A value that is dropped when [m] ends, also when [m] unwinds; a panic of the drop
    while unwinding aborts, and what had begun is what is seen. *)
Definition with_drop {A} (m : M A) (drop : M unit) : M A := fun w =>
  let '(r, w) := m w in
  match r with
  | Undefined => (Undefined, w)
  | _ => let '(d, w) := drop w in
         (match r, d with
          | _, Undefined => Undefined
          | Returned a, Returned _ => Returned a
          | Returned _, Panicked why => Panicked why
          | _, _ => r
          end, w)
  end.

End Session.
Arguments world {H S}. Arguments M {H S} A.

Declare Scope session_scope.
Delimit Scope session_scope with session.
Notation "x <== m ;; k" := (mbind_ m (fun x => k)) (at level 100, m at next level, right associativity) : session_scope.
Notation "m ;;; k" := (mbind_ m (fun _ => k)) (at level 100, right associativity) : session_scope.
(** The [?] operator. *)
Notation "x <-? m ;; k" := (mbind_ m (fun r => match r with inr x => k | inl e => mret_ (inl e) end))
  (at level 100, m at next level, right associativity) : session_scope.
#[local] Open Scope session_scope.

Section Operations.
Context {H : HeapAccess} {S : SpiServer}.

(** ** Mutability *)

Definition is_xact_still_immutable : M bool :=
  current_xid <== read GetCurrentTransactionIdIfAny ;; mret_ (current_xid =? InvalidTransactionId).

Definition mark_mutable : M unit := _xid <== ffi GetCurrentTransactionId ;; mret_ tt.

(** ** Arguments *)

Record DatumWithOid := { w_datum : option Z; w_oid : Z }.

(** [DatumWithOid::new], [null] and [from]. *)
Definition DatumWithOid_new (T : Type) `{DatumType T} (value : T) (oid : Z) : DatumWithOid :=
  {| w_datum := into_datum value; w_oid := oid |}.
Definition DatumWithOid_null (T : Type) `{DatumType T} : DatumWithOid := {| w_datum := None; w_oid := type_oid T |}.
Definition DatumWithOid_from (T : Type) `{DatumType T} (value : T) : DatumWithOid := DatumWithOid_new T value (type_oid T).

Definition prepare_datum (d : DatumWithOid) : Z * ascii :=
  match w_datum d with Some datum => (datum, " "%char) | None => (0, "n"%char) end.

Definition args_to_datums (args : list DatumWithOid) : list Z * list Z * list ascii :=
  foldl (fun '(argtypes, datums, nulls) arg =>
    let '(datum, null) := prepare_datum arg in (argtypes ++ [w_oid arg], datums ++ [datum], nulls ++ [null]))
    ([], [], []) args.

(** ** Tables *)

(** A table as a result: [r_table] is the pointer. *)
Record TupleTable := { r_status : SpiOkCodes; r_table : option Z; r_size : Z; r_current : Z }.

Definition prepare_tuple_table (status_code : Z) : M (SpiError + TupleTable) :=
  code <-? lift (check_status status_code) ;;
  tab <== read SPI_tuptable ;;
  size <== match tab with
           | None => n <== read SPI_processed ;; mret_ (as_usize n)
           | Some p => t <== read (fun b => tuptable_at b p) ;; t <== lift (defined t) ;; mret_ (as_usize (numvals t))
           end ;;
  mret_ (inr {| r_status := code; r_table := tab; r_size := size; r_current := -1 |}).

(** What the methods of [SpiTupleTable] read: the table behind the pointer, which is
    undefined once it is freed. *)
Definition view {A} (t : TupleTable) (f : SpiTupleTable -> ending A) : M A :=
  tab <== match r_table t with
          | None => mret_ None
          | Some p => tab <== read (fun b => tuptable_at b p) ;; tab <== lift (defined tab) ;; mret_ (Some tab)
          end ;;
  lift (f {| status_code := r_status t; table := tab; size := r_size t; current := r_current t |}).

Definition r_first (t : TupleTable) : TupleTable :=
  {| r_status := r_status t; r_table := r_table t; r_size := r_size t; r_current := 0 |}.

(** ** Statements *)

(** The free function [execute]. *)
Definition execute_cmd (cmd : bytes) (args : list DatumWithOid) (limit : option Z) : M (SpiError + TupleTable) :=
  ffi (fun b => (Some tt, clear_tuptable b)) ;;;
  let limit := default 0 limit in
  read_only <== is_xact_still_immutable ;;
  record_run (Executed read_only limit) ;;;
  status <== match args with
             | [] => ffi (SPI_execute cmd read_only limit)
             | _ => let '(argtypes, datums, nulls) := args_to_datums args in
                    ffi (SPI_execute_with_args cmd argtypes datums nulls read_only limit)
             end ;;
  prepare_tuple_table status.

(** A cursor is its portal. *)
Definition open_cursor_cmd (cmd : bytes) (args : list DatumWithOid) : M (SpiError + Z) :=
  let '(argtypes, datums, nulls) := args_to_datums args in
  read_only <== is_xact_still_immutable ;;
  record_run (Opened read_only) ;;;
  ptr <== ffi (SPI_cursor_open_with_args cmd argtypes datums nulls read_only) ;;
  mret_ (inr ptr).

Record PreparedStatement := { plan : Z; mutating : bool }.

(** The free function [prepare]; a plan that could not be made is a null pointer, and
    the reason is in [SPI_result]. *)
Definition prepare_cmd (cmd : bytes) (args : list Z) (mutating : bool) : M (SpiError + PreparedStatement) :=
  plan <== ffi (SPI_prepare cmd args) ;;
  match plan with
  | Some plan => mret_ (inr {| plan := plan; mutating := mutating |})
  | None =>
      code <== read SPI_result ;;
      status <== lift (check_status code) ;;
      match status with inl e => mret_ (inl e) | inr _ => mpanic "called `Option::unwrap()` on a `None` value" end
  end.

(** [PreparedStatement::args_to_datums]. *)
Definition stmt_args_to_datums (s : PreparedStatement) (args : list DatumWithOid) : M (SpiError + (list Z * list ascii)) :=
  n <== read (fun b => SPI_getargcount b (plan s)) ;;
  let actual := Z.of_nat (length args) in
  let expected := as_usize n in
  if expected =? actual then mret_ (inr (split (map prepare_datum args)))
  else mret_ (inl (EPreparedStatementArgumentMismatch expected actual)).

Definition execute_stmt (s : PreparedStatement) (limit : option Z) (args : list DatumWithOid) : M (SpiError + TupleTable) :=
  ffi (fun b => (Some tt, clear_tuptable b)) ;;;
  dn <-? stmt_args_to_datums s args ;;
  immutable <== is_xact_still_immutable ;;
  let read_only := negb (mutating s) && immutable in
  let limit := default 0 limit in
  record_run (Executed read_only limit) ;;;
  status <== ffi (SPI_execute_plan (plan s) dn.1 dn.2 read_only limit) ;;
  prepare_tuple_table status.

Definition open_cursor_stmt (s : PreparedStatement) (args : list DatumWithOid) : M (SpiError + Z) :=
  dn <-? stmt_args_to_datums s args ;;
  immutable <== is_xact_still_immutable ;;
  let read_only := negb (mutating s) && immutable in
  record_run (Opened read_only) ;;;
  ptr <== ffi (SPI_cursor_open (plan s) dn.1 dn.2 read_only) ;;
  mret_ (inr ptr).

(** [PreparedStatement::keep] and the drop of an [OwnedPreparedStatement]. *)
Definition keep (s : PreparedStatement) : M PreparedStatement := _code <== ffi (SPI_keepplan (plan s)) ;; mret_ s.
Definition drop_owned (s : PreparedStatement) : M unit := _code <== ffi (SPI_freeplan (plan s)) ;; mret_ tt.

(** What implements [Query]: a C string, a string, a prepared statement, and an owned
    one, by reference or by value. *)
Inductive Query := QCStr (cmd : bytes) | QStr (s : bytes) | QStmt (s : PreparedStatement)
| QOwnedRef (s : PreparedStatement) | QOwned (s : PreparedStatement).

Definition pass_with_conv (s : bytes) : ending bytes :=
  if decide (Byte.x00 ∈ s) then Panicked "query contained a null byte" else Returned s.

Definition execute (q : Query) (limit : option Z) (args : list DatumWithOid) : M (SpiError + TupleTable) :=
  match q with
  | QCStr cmd => execute_cmd cmd args limit
  | QStr s => cmd <== lift (pass_with_conv s) ;; execute_cmd cmd args limit
  | QStmt s | QOwnedRef s => execute_stmt s limit args
  | QOwned s => with_drop (execute_stmt s limit args) (drop_owned s)
  end.

Definition query_try_open_cursor (q : Query) (args : list DatumWithOid) : M (SpiError + Z) :=
  match q with
  | QCStr cmd => open_cursor_cmd cmd args
  | QStr s => cmd <== lift (pass_with_conv s) ;; open_cursor_cmd cmd args
  | QStmt s | QOwnedRef s => open_cursor_stmt s args
  | QOwned s => with_drop (open_cursor_stmt s args) (drop_owned s)
  end.

(** ** The client *)

Definition client_connect : M (SpiError + unit) :=
  code <== ffi SPI_connect ;; _ok <-? lift (check_status code) ;; mret_ (inr tt).

(** [check_status(..).ok()] panics only where the status is unknown. *)
Definition client_drop : M unit :=
  code <== ffi (fun b => let '(c, b) := SPI_finish b in (Some c, b)) ;;
  _ignored <== lift (check_status code) ;; mret_ tt.

(** What implements [PreparableQuery]. *)
Inductive PreparableQuery := PCStr (cmd : bytes) | PStr (s : bytes).
Definition command (q : PreparableQuery) : ending bytes :=
  match q with PCStr cmd => Returned cmd | PStr s => pass_with_conv s end.

Definition prepare (q : PreparableQuery) (args : list Z) : M (SpiError + PreparedStatement) :=
  cmd <== lift (command q) ;; prepare_cmd cmd args false.
Definition prepare_mut (q : PreparableQuery) (args : list Z) : M (SpiError + PreparedStatement) :=
  cmd <== lift (command q) ;; prepare_cmd cmd args true.

Definition select (q : Query) (limit : option Z) (args : list DatumWithOid) : M (SpiError + TupleTable) :=
  execute q limit args.

Definition update (q : Query) (limit : option Z) (args : list DatumWithOid) : M (SpiError + TupleTable) :=
  mark_mutable ;;; execute q limit args.

Definition munwrap {A} (m : M (SpiError + A)) : M A :=
  r <== m ;; match r with inr a => mret_ a | inl _ => mpanic "called `Result::unwrap()` on an `Err` value" end.

Definition try_open_cursor (q : Query) (args : list DatumWithOid) : M (SpiError + Z) := query_try_open_cursor q args.
Definition open_cursor (q : Query) (args : list DatumWithOid) : M Z := munwrap (try_open_cursor q args).
Definition try_open_cursor_mut (q : Query) (args : list DatumWithOid) : M (SpiError + Z) :=
  mark_mutable ;;; query_try_open_cursor q args.
Definition open_cursor_mut (q : Query) (args : list DatumWithOid) : M Z :=
  mark_mutable ;;; munwrap (try_open_cursor_mut q args).

(** [as_pg_cstr] copies the string; C reads it up to its first null byte. *)
Fixpoint c_string (s : bytes) : bytes :=
  match s with [] => [] | b :: s => if decide (b = Byte.x00) then [] else b :: c_string s end.

Definition find_cursor (name : bytes) : M (SpiError + Z) :=
  ptr <== read (SPI_cursor_find (c_string name)) ;;
  mret_ match ptr with Some ptr => inr ptr | None => inl (ECursorNotFound (of_bytes name)) end.

(** ** Cursors *)

(** The use of a portal, undefined once it is closed. *)
Definition live_portal (ptr : Z) : M Portal := p <== read (fun b => portal_at b ptr) ;; lift (defined p).

Definition fetch (ptr count : Z) : M (SpiError + TupleTable) :=
  ffi (fun b => (Some tt, clear_tuptable b)) ;;;
  _p <== live_portal ptr ;;
  ffi (SPI_cursor_fetch ptr true count) ;;;
  prepare_tuple_table (ok_discriminant OkFetch).

(** The cursor is forgotten, not dropped. *)
Definition detach_into_name (ptr : Z) : M bytes :=
  p <== live_portal ptr ;;
  lift (eassert (utf8_valid (p_name p)) "cursor name is not valid UTF8" (Returned (p_name p))).

Definition cursor_drop (ptr : Z) : M unit := _p <== live_portal ptr ;; ffi (SPI_cursor_close ptr).

(** ** Connecting *)

Definition connect_mut {R} (f : M R) : M R :=
  munwrap client_connect ;;; with_drop f client_drop.

Definition connect {R} (f : M R) : M R := connect_mut f.

Definition spi_get_one_with_args (A : Type) `{DatumType A} (query : bytes) (args : list DatumWithOid)
  : M (SpiError + option A) :=
  connect_mut (t <-? update (QStr query) (Some 1) args ;; view (r_first t) (get_one A)).
Definition spi_get_one (A : Type) `{DatumType A} (query : bytes) : M (SpiError + option A) :=
  connect_mut (t <-? update (QStr query) (Some 1) [] ;; view (r_first t) (get_one A)).

Definition spi_get_two_with_args (A B : Type) `{DatumType A} `{DatumType B} (query : bytes) (args : list DatumWithOid)
  : M (SpiError + option A * option B) :=
  connect_mut (t <-? update (QStr query) (Some 1) args ;; view (r_first t) (get_two A B)).
Definition spi_get_two (A B : Type) `{DatumType A} `{DatumType B} (query : bytes) : M (SpiError + option A * option B) :=
  connect_mut (t <-? update (QStr query) (Some 1) [] ;; view (r_first t) (get_two A B)).

Definition spi_get_three_with_args (A B C : Type) `{DatumType A} `{DatumType B} `{DatumType C} (query : bytes)
  (args : list DatumWithOid) : M (SpiError + option A * option B * option C) :=
  connect_mut (t <-? update (QStr query) (Some 1) args ;; view (r_first t) (get_three A B C)).
Definition spi_get_three (A B C : Type) `{DatumType A} `{DatumType B} `{DatumType C} (query : bytes)
  : M (SpiError + option A * option B * option C) :=
  connect_mut (t <-? update (QStr query) (Some 1) [] ;; view (r_first t) (get_three A B C)).

Definition run_with_args (query : bytes) (args : list DatumWithOid) : M (SpiError + unit) :=
  connect_mut (_t <-? update (QStr query) None args ;; mret_ (inr tt)).
Definition spi_run (query : bytes) : M (SpiError + unit) := run_with_args query [].

Definition explain_with_args (Json : Type) `{DatumType Json} (query : bytes) (args : list DatumWithOid)
  : M (SpiError + Json) :=
  o <-? connect_mut (t <-? update (QStr (as_bytes "EXPLAIN (format json) " ++ query)) None args ;;
                     view (r_first t) (get_one Json)) ;;
  match o with Some j => mret_ (inr j) | None => mpanic "called `Option::unwrap()` on a `None` value" end.
Definition explain (Json : Type) `{DatumType Json} (query : bytes) : M (SpiError + Json) := explain_with_args Json query [].

End Operations.
