(* ===== verification/SpiSessionSafe.v ===== *)
(** * SPI connections, statements and cursors: what holds

    Against what Postgres documents of SPI ([SpiLaws]): connections are balanced around
    every closure, whether it returns or unwinds; the tables a connection made stay
    readable while it is open; after the first update nothing runs read-only; arguments
    reach Postgres unchanged; a cursor gives the rows of its query in order and is found
    again by the name it is detached into. *)
From stdpp Require Import base list strings sets.
From S2P Require Import Prelude Memory SpiTable SpiTableSafe SpiSession.
#[local] Open Scope Z_scope.
#[local] Open Scope session_scope.

(** ** What Postgres promises *)

(** [connections] are the open connections, the innermost first, and [owner] the
    connection whose memory a table is in. *)
Class SpiObs {H : HeapAccess} (S : SpiServer) := {
  connections : pg -> list Z;
  owner : pg -> Z -> Z;
}.

Section Tame.
Context {H : HeapAccess} {S : SpiServer} {O : SpiObs S}.

Definition xid_assigned (b : pg) : Prop := GetCurrentTransactionIdIfAny b <> InvalidTransactionId.

(** A step that neither opens nor closes a connection of its caller: what it opened is
    closed when it returns, and an error may leave newer connections open.  The tables
    of open connections stay, and a transaction id that is assigned stays assigned. *)
Record tame (returned : bool) (b b' : pg) : Prop := {
  tame_connections : exists newer, connections b' = newer ++ connections b
    /\ (returned = true -> newer = []) /\ (forall c, c ∈ newer -> c ∉ connections b);
  tame_tables p t : tuptable_at b p = Some t -> owner b p ∈ connections b ->
    tuptable_at b' p = Some t /\ owner b' p = owner b p;
  tame_xid : xid_assigned b -> xid_assigned b';
}.

Definition tame_call {A} (f : pg -> option A * pg) : Prop :=
  forall b, tame (bool_decide (is_Some (f b).1)) b (f b).2.

(** A call that runs a statement: the table it leaves, where there was none before, is in
    the memory of the innermost connection. *)
Definition makes_table {A} (f : pg -> option A * pg) : Prop := forall b a b' q,
  f b = (Some a, b') -> SPI_tuptable b = None -> SPI_tuptable b' = Some q ->
  exists t, tuptable_at b' q = Some t /\ numvals t = Z.of_nat (length (vals t)) /\ is_Some (tupdesc t)
            /\ (numvals t < 2 ^ 62) /\ (forall c s, connections b = c :: s -> owner b' q = c).
End Tame.

Class SpiLaws {H : HeapAccess} (S : SpiServer) {O : SpiObs S} : Prop := {
  assigns_xid b x b' : GetCurrentTransactionId b = (Some x, b') -> xid_assigned b';
  tame_get_xid : tame_call GetCurrentTransactionId;
  tame_execute cmd ro limit : tame_call (SPI_execute cmd ro limit);
  tame_execute_with_args cmd ts ds ns ro limit : tame_call (SPI_execute_with_args cmd ts ds ns ro limit);
  tame_execute_plan p ds ns ro limit : tame_call (SPI_execute_plan p ds ns ro limit);
  tame_prepare cmd ts : tame_call (SPI_prepare cmd ts);
  tame_keepplan p : tame_call (SPI_keepplan p);
  tame_freeplan p : tame_call (SPI_freeplan p);
  tame_cursor_open_with_args cmd ts ds ns ro : tame_call (SPI_cursor_open_with_args cmd ts ds ns ro);
  tame_cursor_open p ds ns ro : tame_call (SPI_cursor_open p ds ns ro);
  tame_cursor_fetch p forward n : tame_call (SPI_cursor_fetch p forward n);
  tame_cursor_close p : tame_call (SPI_cursor_close p);
  tame_clear b : tame true b (clear_tuptable b);
  cleared b : SPI_tuptable (clear_tuptable b) = None;
  table_execute cmd ro limit : makes_table (SPI_execute cmd ro limit);
  table_execute_with_args cmd ts ds ns ro limit : makes_table (SPI_execute_with_args cmd ts ds ns ro limit);
  table_execute_plan p ds ns ro limit : makes_table (SPI_execute_plan p ds ns ro limit);
  (** [SPI_connect] opens a new connection or reports an error code. *)
  connect_law b : match SPI_connect b with
    | (None, b') => tame false b b'
    | (Some code, b') => (code = err_discriminant ErrConnect /\ tame true b b')
        \/ (code = ok_discriminant OkConnect
            /\ (exists c, connections b' = c :: connections b /\ c ∉ connections b)
            /\ (forall p t, tuptable_at b p = Some t -> tuptable_at b' p = Some t /\ owner b' p = owner b p)
            /\ (xid_assigned b -> xid_assigned b') /\ (forall p, portal_at b' p = portal_at b p))
    end;
  (** [SPI_finish] closes the innermost connection and frees what it made. *)
  finish_law b : let '(code, b') := SPI_finish b in
    match connections b with
    | [] => code = err_discriminant ErrUnconnected /\ b' = b
    | c :: s => code = ok_discriminant OkFinish /\ connections b' = s
        /\ (forall p t, tuptable_at b p = Some t -> owner b p <> c -> tuptable_at b' p = Some t /\ owner b' p = owner b p)
        /\ (xid_assigned b -> xid_assigned b') /\ (forall p, portal_at b' p = portal_at b p)
    end;
  (** Cursors. *)
  find_law b name p : SPI_cursor_find name b = Some p <-> exists po, portal_at b p = Some po /\ p_name po = name;
  clear_portal b p : portal_at (clear_tuptable b) p = portal_at b p;
  close_law b p b' : SPI_cursor_close p b = (Some tt, b') ->
    portal_at b' p = None /\ (forall q, q <> p -> portal_at b' q = portal_at b q);
  fetch_law b p po n b' : portal_at b p = Some po -> 0 < n -> SPI_tuptable b = None ->
    SPI_cursor_fetch p true n b = (Some tt, b') ->
    portal_at b' p = Some {| p_name := p_name po; p_desc := p_desc po; p_rows := drop (Z.to_nat n) (p_rows po) |}
    /\ exists q, SPI_tuptable b' = Some q
       /\ tuptable_at b' q = Some {| tupdesc := Some (p_desc po); vals := take (Z.to_nat n) (p_rows po);
                                     numvals := Z.of_nat (length (take (Z.to_nat n) (p_rows po))) |}
       /\ Z.of_nat (length (take (Z.to_nat n) (p_rows po))) < 2 ^ 62
       /\ (forall c s, connections b = c :: s -> owner b' q = c);
}.

Section Session.
Context {H : HeapAccess} {S : SpiServer} {O : SpiObs S} {L : SpiLaws S}.

Lemma tame_refl b : tame true b b.
Proof. split; [|by auto..]. exists []. split_and!; [done|done|]. by intros c Hc%elem_of_nil. Qed.

Lemma tame_trans r1 r2 b1 b2 b3 : tame r1 b1 b2 -> tame r2 b2 b3 -> tame (r1 && r2) b1 b3.
Proof.
  intros [(n1 & Hc1 & Hr1 & Hd1) Ht1 Hx1] [(n2 & Hc2 & Hr2 & Hd2) Ht2 Hx2]. split.
  - exists (n2 ++ n1). rewrite Hc2, Hc1, app_assoc. split_and!; [done| |].
    + intros [-> ->]%andb_true_iff. by rewrite Hr1, Hr2.
    + intros c [Hc|Hc]%elem_of_app; [|by auto]. intros Hin. apply (Hd2 c Hc). rewrite Hc1. set_solver.
  - intros p t Hp Ho. destruct (Ht1 p t Hp Ho) as [Hp' Ho']. destruct (Ht2 p t Hp') as [Hp'' Ho''].
    + rewrite Ho', Hc1. set_solver.
    + split; [done|congruence].
  - auto.
Qed.

Lemma tame_weaken r b b' : tame r b b' -> tame false b b'.
Proof. intros [(n & Hc & _ & Hd) Ht Hx]. split; [|done..]. by exists n. Qed.

Definition returned {A} (r : ending A) : bool := match r with Returned _ => true | _ => false end.

(** Everything that ran has [read_only = false]. *)
Definition all_writable (l : list run) : Prop := Forall (fun r => read_only_of r = false) l.

(** What holds of every computation of the interface: unless it ends undefined it is
    tame, and once a transaction id is assigned it runs nothing read-only. *)
Definition well_behaved {A} (m : M A) : Prop := forall w r w', m w = (r, w') -> r <> Undefined ->
  tame (returned r) (backend w) (backend w')
  /\ exists l, log w' = log w ++ l /\ (xid_assigned (backend w) -> all_writable l).

Lemma no_runs (lg : list run) (P : Prop) : exists l, lg = lg ++ l /\ (P -> all_writable l).
Proof. exists []. rewrite app_nil_r. split; [done|]. intros _. constructor. Qed.

Lemma wb_ret {A} (a : A) : well_behaved (mret_ a).
Proof. intros w r w' [= <- <-] _. split; [apply tame_refl|]. apply no_runs. Qed.

Lemma wb_lift {A} (e : ending A) : well_behaved (lift e).
Proof.
  intros w r w' [= <- <-] _. split; [destruct e; eauto using tame_weaken, tame_refl|]. apply no_runs.
Qed.

Lemma wb_panic {A} why : well_behaved (mpanic (A := A) why).
Proof. apply (wb_lift (Panicked why)). Qed.

Lemma wb_read {A} (f : pg -> A) : well_behaved (read f).
Proof. intros w r w' [= <- <-] _. split; [apply tame_refl|]. apply no_runs. Qed.

Lemma wb_ffi {A} (f : pg -> option A * pg) : tame_call f -> well_behaved (ffi f).
Proof.
  intros Hf w r w' Hm _. unfold ffi in Hm. specialize (Hf (backend w)). destruct (f (backend w)) as [o b'].
  injection Hm as <- <-. simpl in *. split; [|apply no_runs]. destruct o; exact Hf.
Qed.

Lemma wb_bind {A B} (m : M A) (k : A -> M B) : well_behaved m -> (forall a, well_behaved (k a)) -> well_behaved (mbind_ m k).
Proof.
  intros Hm Hk w r w' Hr Hu. unfold mbind_ in Hr. destruct (m w) as [[a|why|] w1] eqn:H1.
  - destruct (Hm _ _ _ H1 ltac:(done)) as [T1 (l1 & E1 & W1)]. destruct (Hk a _ _ _ Hr Hu) as [T2 (l2 & E2 & W2)].
    split; [by apply (tame_trans true _ _ (backend w1))|]. exists (l1 ++ l2). rewrite E2, E1, app_assoc. split; [done|].
    intros Hx. apply Forall_app. split; [exact (W1 Hx)|exact (W2 (tame_xid _ _ _ T1 Hx))].
  - injection Hr as <- <-. by destruct (Hm _ _ _ H1 ltac:(done)) as [T1 E1].
  - by injection Hr as <- <-.
Qed.

#[local] Hint Resolve wb_ret wb_lift wb_panic wb_read wb_ffi wb_bind tame_get_xid tame_execute tame_execute_with_args
  tame_execute_plan tame_prepare tame_keepplan tame_freeplan tame_cursor_open_with_args tame_cursor_open
  tame_cursor_fetch tame_cursor_close : spi.

Ltac wb_step := first
  [ apply wb_ret | apply wb_lift | apply wb_panic | apply wb_read | apply wb_bind; [|intros ?] | apply wb_ffi; solve [auto with spi] ].

Lemma wb_clear : well_behaved (ffi (fun b => (Some tt, clear_tuptable b))).
Proof. apply wb_ffi. intros b. apply tame_clear. Qed.

Lemma wb_mark_mutable : well_behaved mark_mutable.
Proof. repeat wb_step. Qed.

(** What is recorded right after the question whether the transaction is immutable. *)
Lemma wb_record {A} (f : bool -> bool) (mk : bool -> run) (k : bool -> M A) :
  f false = false -> (forall b, read_only_of (mk b) = b) -> (forall b, well_behaved (k b)) ->
  well_behaved (immutable <== is_xact_still_immutable ;; record_run (mk (f immutable)) ;;; k immutable).
Proof.
  intros Hf Hmk Hk w r w' Hm Hu. set (i := GetCurrentTransactionIdIfAny (backend w) =? InvalidTransactionId) in *.
  change (k i {| backend := backend w; log := log w ++ [mk (f i)] |} = (r, w')) in Hm.
  destruct (Hk i _ _ _ Hm Hu) as [T (l & E & W)]. split; [exact T|]. exists (mk (f i) :: l).
  rewrite E. simpl. rewrite <- app_assoc. split; [done|]. intros Hx. constructor; [|exact (W Hx)].
  rewrite Hmk. replace i with false; [done|]. symmetry. by apply Z.eqb_neq.
Qed.

Lemma wb_prepare_tuple_table status : well_behaved (prepare_tuple_table status).
Proof. unfold prepare_tuple_table. repeat first [wb_step | case_match]. Qed.

Lemma wb_execute_cmd cmd args limit : well_behaved (execute_cmd cmd args limit).
Proof.
  unfold execute_cmd. apply wb_bind; [apply wb_clear|intros _]. cbv zeta.
  apply (wb_record id (fun b => Executed b _)); [done|done|]. intros b.
  apply wb_bind; [|intros st; apply wb_prepare_tuple_table].
  destruct args; [wb_step|]. destruct (args_to_datums _) as [[ts ds] ns]. wb_step.
Qed.

Lemma wb_stmt_args s args : well_behaved (stmt_args_to_datums s args).
Proof. unfold stmt_args_to_datums. repeat first [wb_step | case_match]. Qed.

Lemma wb_try {A B} (m : M (SpiError + A)) (k : A -> M (SpiError + B)) :
  well_behaved m -> (forall a, well_behaved (k a)) ->
  well_behaved (mbind_ m (fun r => match r with inr x => k x | inl e => mret_ (inl e) end)).
Proof. intros Hm Hk. apply wb_bind; [done|]. intros [e|a]; [wb_step|apply Hk]. Qed.

Lemma wb_execute_stmt s limit args : well_behaved (execute_stmt s limit args).
Proof.
  unfold execute_stmt. apply wb_bind; [apply wb_clear|intros _].
  apply wb_try; [apply wb_stmt_args|]. intros dn. cbv zeta.
  apply (wb_record (andb (negb (mutating s))) (fun b => Executed b _)
    (fun b => status <== ffi (SPI_execute_plan (plan s) dn.1 dn.2 (negb (mutating s) && b) (default 0 limit)) ;; prepare_tuple_table status));
    [apply andb_false_r|done|].
  intros b. apply wb_bind; [wb_step|apply wb_prepare_tuple_table].
Qed.

Lemma wb_open_cursor_cmd cmd args : well_behaved (open_cursor_cmd cmd args).
Proof.
  unfold open_cursor_cmd. destruct (args_to_datums args) as [[ts ds] ns].
  apply (wb_record id Opened); [done|done|]. intros b. repeat wb_step.
Qed.

Lemma wb_open_cursor_stmt s args : well_behaved (open_cursor_stmt s args).
Proof.
  unfold open_cursor_stmt. apply wb_try; [apply wb_stmt_args|]. intros dn. cbv zeta.
  apply (wb_record (andb (negb (mutating s))) Opened
    (fun b => ptr <== ffi (SPI_cursor_open (plan s) dn.1 dn.2 (negb (mutating s) && b)) ;; mret_ (inr ptr)));
    [apply andb_false_r|done|].
  intros b. repeat wb_step.
Qed.

Lemma with_drop_inv {A} (m : M A) d w r w' : with_drop m d w = (r, w') -> r <> Undefined ->
  exists r1 w1 rd, m w = (r1, w1) /\ r1 <> Undefined /\ d w1 = (rd, w') /\ rd <> Undefined
    /\ returned r = returned r1 && returned rd /\ (forall a, r = Returned a -> r1 = Returned a).
Proof.
  intros Hr Hu. unfold with_drop in Hr. destruct (m w) as [r1 w1]. destruct r1 as [a|why|].
  3: by injection Hr as <- <-.
  all: destruct (d w1) as [rd w2] eqn:Hd; destruct rd; injection Hr as <- <-; [| |done].
  all: eexists _, w1, _; split_and!; try done; naive_solver.
Qed.

Lemma wb_with_drop {A} (m : M A) d : well_behaved m -> well_behaved d -> well_behaved (with_drop m d).
Proof.
  intros Hm Hd w r w' Hr Hu. destruct (with_drop_inv _ _ _ _ _ Hr Hu) as (r1 & w1 & rd & H1 & U1 & H2 & U2 & -> & _).
  destruct (Hm _ _ _ H1 U1) as [T1 (l1 & E1 & W1)]. destruct (Hd _ _ _ H2 U2) as [T2 (l2 & E2 & W2)].
  split; [by eapply tame_trans|]. exists (l1 ++ l2). rewrite E2, E1, app_assoc. split; [done|].
  intros Hx. apply Forall_app. split; [exact (W1 Hx)|exact (W2 (tame_xid _ _ _ T1 Hx))].
Qed.

Lemma wb_drop_owned s : well_behaved (drop_owned s).
Proof. repeat wb_step. Qed.

Lemma wb_execute q limit args : well_behaved (execute q limit args).
Proof.
  destruct q; simpl; auto using wb_execute_cmd, wb_execute_stmt, wb_with_drop, wb_drop_owned.
  apply wb_bind; [wb_step|]. intros cmd. apply wb_execute_cmd.
Qed.

Lemma wb_query_try_open_cursor q args : well_behaved (query_try_open_cursor q args).
Proof.
  destruct q; simpl; auto using wb_open_cursor_cmd, wb_open_cursor_stmt, wb_with_drop, wb_drop_owned.
  apply wb_bind; [wb_step|]. intros cmd. apply wb_open_cursor_cmd.
Qed.

Lemma wb_prepare_cmd cmd args mutating : well_behaved (prepare_cmd cmd args mutating).
Proof. unfold prepare_cmd. repeat first [wb_step | case_match]. Qed.

Lemma wb_view {A} t (f : SpiTupleTable -> ending A) : well_behaved (view t f).
Proof. unfold view. repeat first [wb_step | case_match]. Qed.

Lemma wb_munwrap {A} (m : M (SpiError + A)) : well_behaved m -> well_behaved (munwrap m).
Proof. intros Hm. apply wb_bind; [done|]. intros [e|a]; wb_step. Qed.

Lemma wb_fetch ptr n : well_behaved (fetch ptr n).
Proof.
  unfold fetch, live_portal. apply wb_bind; [apply wb_clear|intros _]. repeat first [apply wb_prepare_tuple_table | wb_step].
Qed.

(** ** Connections *)

Lemma check_ok c : check_status (ok_discriminant c) = Returned (inr c).
Proof. unfold check_status. by rewrite try_from_ok. Qed.
Lemma check_err c : check_status (err_discriminant c) = Returned (inl (ESpiError c)).
Proof. unfold check_status. by rewrite try_from_err. Qed.

(** Connecting opens one connection, or panics. *)
Lemma client_connect_spec w r w' : munwrap client_connect w = (r, w') ->
  log w' = log w
  /\ match r with
     | Returned _ => (exists c, connections (backend w') = c :: connections (backend w) /\ c ∉ connections (backend w))
         /\ (forall p t, tuptable_at (backend w) p = Some t ->
              tuptable_at (backend w') p = Some t /\ owner (backend w') p = owner (backend w) p)
         /\ (xid_assigned (backend w) -> xid_assigned (backend w'))
         /\ (forall p, portal_at (backend w') p = portal_at (backend w) p)
     | Panicked _ => tame false (backend w) (backend w')
     | Undefined => False
     end.
Proof.
  unfold munwrap, client_connect, mbind_, ffi. pose proof (connect_law (backend w)) as Hl.
  destruct (SPI_connect (backend w)) as [[code|] b'].
  - destruct Hl as [[-> T]|(-> & Hl)]; cbn [expect]; unfold lift; rewrite ?check_err, ?check_ok; intros [= <- <-].
    + split; [done|]. by eapply tame_weaken.
    + split; [done|]. exact Hl.
  - intros [= <- <-]. by split.
Qed.

Lemma client_drop_spec w : exists w', client_drop w = (Returned tt, w') /\ log w' = log w
  /\ match connections (backend w) with
     | [] => backend w' = backend w
     | c :: s => connections (backend w') = s
         /\ (forall p t, tuptable_at (backend w) p = Some t -> owner (backend w) p <> c ->
              tuptable_at (backend w') p = Some t /\ owner (backend w') p = owner (backend w) p)
         /\ (xid_assigned (backend w) -> xid_assigned (backend w'))
         /\ (forall p, portal_at (backend w') p = portal_at (backend w) p)
     end.
Proof.
  unfold client_drop, mbind_, ffi. pose proof (finish_law (backend w)) as Hl.
  destruct (SPI_finish (backend w)) as [code b']. destruct (connections (backend w)) as [|c s].
  - destruct Hl as [-> ->]. cbn [expect]. unfold lift. rewrite check_err. eexists. split; [reflexivity|]. done.
  - destruct Hl as [-> Hl]. cbn [expect]. unfold lift. rewrite check_ok. eexists. split; [reflexivity|]. done.
Qed.

Lemma wb_connect_mut {R} (f : M R) : well_behaved f -> well_behaved (connect_mut f).
Proof.
  intros Hf w r w' Hr Hu. unfold connect_mut, mbind_ in Hr. destruct (munwrap client_connect w) as [r0 w0] eqn:H0.
  apply client_connect_spec in H0 as [E0 H0]. destruct r0 as [[]|why|]; [|injection Hr as <- <-|done].
  2: { split; [done|]. rewrite E0. apply no_runs. }
  destruct H0 as ((c & Hc0 & Hfresh) & Ht0 & Hx0 & _).
  destruct (with_drop_inv _ _ _ _ _ Hr Hu) as (r1 & w1 & rd & H1 & U1 & H2 & U2 & -> & _).
  destruct (Hf _ _ _ H1 U1) as [[(newer & Hc1 & Hn1 & Hd1) Ht1 Hx1] (l & E1 & W1)].
  destruct (client_drop_spec w1) as (w2 & Hdrop & E2 & Hl). rewrite Hdrop in H2. injection H2 as <- <-.
  split; [|exists l; rewrite E2, E1, E0; split; [done|by auto]].
  rewrite Hc1, Hc0 in Hl. assert (Hcase : exists x rest newer', newer ++ c :: connections (backend w) = x :: rest
      /\ rest = newer' ++ connections (backend w) /\ (returned r1 = true -> newer' = [])
      /\ (forall y, y ∈ newer' -> y ∉ connections (backend w)) /\ x ∉ connections (backend w)).
  { destruct newer as [|x newer]; [by exists c, (connections (backend w)), []; split_and!; [..|intros y Hy%elem_of_nil|]|].
    exists x, (newer ++ c :: connections (backend w)), (newer ++ [c]). rewrite Hc0 in Hd1. split_and!.
    - done.
    - by rewrite <- app_assoc.
    - intros Hr1. by specialize (Hn1 Hr1).
    - intros y [Hy| ->%list_elem_of_singleton]%elem_of_app; [|done]. specialize (Hd1 y). set_solver.
    - specialize (Hd1 x). set_solver. }
  destruct Hcase as (x & rest & newer' & Heq & -> & Hret & Hdis & Hx). rewrite Heq in Hl.
  destruct Hl as (Hc2 & Ht2 & Hx2 & _). split.
  - exists newer'. split_and!; [done| |done]. rewrite andb_true_r. done.
  - intros p t Hp Ho. destruct (Ht0 p t Hp) as [Hp0 Ho0]. destruct (Ht1 p t Hp0) as [Hp1 Ho1].
    { rewrite Ho0, Hc0. set_solver. }
    destruct (Ht2 p t Hp1) as [Hp2 Ho2]; [|split; [done|congruence]]. 
    rewrite Ho1, Ho0. intros Hox. apply Hx. by rewrite <- Hox.
  - auto.
Qed.

(** ** Programs *)

(** The calls a closure can make of its client, of tables, statements and cursors. *)
Inductive call : Type -> Type :=
| CSelect (q : Query) (limit : option Z) (args : list DatumWithOid) : call (SpiError + TupleTable)
| CUpdate (q : Query) (limit : option Z) (args : list DatumWithOid) : call (SpiError + TupleTable)
| CPrepare (q : PreparableQuery) (args : list Z) : call (SpiError + PreparedStatement)
| CPrepareMut (q : PreparableQuery) (args : list Z) : call (SpiError + PreparedStatement)
| CKeep (s : PreparedStatement) : call PreparedStatement
| CDropOwned (s : PreparedStatement) : call unit
| CTryOpenCursor (q : Query) (args : list DatumWithOid) : call (SpiError + Z)
| COpenCursor (q : Query) (args : list DatumWithOid) : call Z
| CTryOpenCursorMut (q : Query) (args : list DatumWithOid) : call (SpiError + Z)
| COpenCursorMut (q : Query) (args : list DatumWithOid) : call Z
| CFindCursor (name : bytes) : call (SpiError + Z)
| CFetch (ptr count : Z) : call (SpiError + TupleTable)
| CDetach (ptr : Z) : call bytes
| CDropCursor (ptr : Z) : call unit
| CRead {A} (t : TupleTable) (f : SpiTupleTable -> ending A) : call A.

Definition run_call {A} (c : call A) : M A :=
  match c with
  | CSelect q limit args => select q limit args
  | CUpdate q limit args => update q limit args
  | CPrepare q args => prepare q args
  | CPrepareMut q args => prepare_mut q args
  | CKeep s => keep s
  | CDropOwned s => drop_owned s
  | CTryOpenCursor q args => try_open_cursor q args
  | COpenCursor q args => open_cursor q args
  | CTryOpenCursorMut q args => try_open_cursor_mut q args
  | COpenCursorMut q args => open_cursor_mut q args
  | CFindCursor name => find_cursor name
  | CFetch ptr count => fetch ptr count
  | CDetach ptr => detach_into_name ptr
  | CDropCursor ptr => cursor_drop ptr
  | CRead t f => view t f
  end.

(** A closure: calls, whose answers decide what comes next, connections in
    connections, panics. *)
Inductive prog : Type -> Type :=
| Ret {A} (a : A) : prog A
| Throw {A} (why : string) : prog A
| Do {A B} (c : call B) (k : B -> prog A) : prog A
| Nest {A B} (body : prog B) (k : B -> prog A) : prog A.

Fixpoint run_prog {A} (p : prog A) : M A :=
  match p with
  | Ret a => mret_ a
  | Throw why => mpanic why
  | Do c k => r <== run_call c ;; run_prog (k r)
  | Nest body k => r <== connect_mut (run_prog body) ;; run_prog (k r)
  end.

Lemma wb_run_call {A} (c : call A) : well_behaved (run_call c).
Proof.
  destruct c; cbn [run_call]; unfold select, update, prepare, prepare_mut, keep, try_open_cursor, open_cursor,
    try_open_cursor_mut, open_cursor_mut, find_cursor, detach_into_name, cursor_drop, live_portal.
  all: repeat first [ apply wb_execute | apply wb_query_try_open_cursor | apply wb_prepare_cmd | apply wb_mark_mutable
    | apply wb_fetch | apply wb_view | apply wb_drop_owned | apply wb_munwrap | wb_step ].
Qed.

Lemma wb_run_prog {A} (p : prog A) : well_behaved (run_prog p).
Proof.
  induction p; cbn [run_prog]; [wb_step|wb_step| |]; (apply wb_bind; [|done]).
  - apply wb_run_call.
  - by apply wb_connect_mut.
Qed.

(** C22. Connections are balanced: whatever a closure does, when the call of [connect_mut]
    that ran it returns, the connections are the ones there were before; when it
    unwinds, those are still open, below the ones that an error of Postgres left. *)
Theorem connections_balanced {A} (p : prog A) w r w' :
  connect_mut (run_prog p) w = (r, w') ->
  match r with
  | Returned _ => connections (backend w') = connections (backend w)
  | Panicked _ => exists newer, connections (backend w') = newer ++ connections (backend w)
  | Undefined => True
  end.
Proof.
  intros Hr. destruct r as [a|why|] eqn:Er; [..|done].
  all: destruct (wb_connect_mut _ (wb_run_prog p) _ _ _ Hr ltac:(done)) as [[(newer & Hc & Hn & _) _ _] _].
  - rewrite Hc, (Hn eq_refl). done.
  - by exists newer.
Qed.

(** C23. From the first update on, a transaction runs nothing read-only: an update itself
    does not run read-only, and nothing that any program runs after it does, until the
    id of the current transaction is another one. *)
Theorem writable_after_update {A} q limit args w r w' (p : prog A) r2 w2 :
  update q limit args w = (Returned r, w') -> run_prog p w' = (r2, w2) -> r2 <> Undefined ->
  exists l1 l2, log w' = log w ++ l1 /\ all_writable l1 /\ log w2 = log w' ++ l2 /\ all_writable l2.
Proof.
  intros Hup Hrun Hu. unfold update, mbind_ in Hup. destruct (mark_mutable w) as [[[]|why|] w1] eqn:Hm; [|done..].
  assert (log w1 = log w /\ xid_assigned (backend w1)) as [E1 Hx1].
  { unfold mark_mutable, mbind_, ffi in Hm. destruct (GetCurrentTransactionId (backend w)) as [[x|] b'] eqn:Hg; [|done].
    injection Hm as <-. split; [done|]. by eapply assigns_xid. }
  destruct (wb_execute _ _ _ _ _ _ Hup ltac:(done)) as [T (l1 & El1 & W1)].
  destruct (wb_run_prog p _ _ _ Hrun Hu) as [_ (l2 & El2 & W2)].
  exists l1, l2. split_and!; [by rewrite El1, E1|exact (W1 Hx1)|done|exact (W2 (tame_xid _ _ _ T Hx1))].
Qed.

(** ** What a statement runs *)

(** A computation that runs no statement. *)
Definition silent {A} (m : M A) : Prop := forall w, log (m w).2 = log w.

Lemma silent_ret {A} (a : A) : silent (mret_ a). Proof. done. Qed.
Lemma silent_lift {A} (e : ending A) : silent (lift e). Proof. done. Qed.
Lemma silent_read {A} (f : pg -> A) : silent (read f). Proof. done. Qed.
Lemma silent_ffi {A} (f : pg -> option A * pg) : silent (ffi f).
Proof. intros w. unfold ffi. by destruct (f (backend w)). Qed.
Lemma silent_bind {A B} (m : M A) (k : A -> M B) : silent m -> (forall a, silent (k a)) -> silent (mbind_ m k).
Proof.
  intros Hm Hk w. unfold mbind_. specialize (Hm w). destruct (m w) as [[a|why|] w1]; [|done..].
  by rewrite Hk.
Qed.
Ltac silent_step := first
  [ apply silent_ret | apply silent_lift | apply silent_read | apply silent_ffi | apply silent_bind; [|intros ?] | case_match ].

Lemma silent_prepare_tuple_table st : silent (prepare_tuple_table st).
Proof. unfold prepare_tuple_table. repeat silent_step. Qed.

Lemma clear_spec w : exists w', ffi (fun b => (Some tt, clear_tuptable b)) w = (Returned tt, w')
  /\ backend w' = clear_tuptable (backend w) /\ log w' = log w.
Proof. by eexists. Qed.

(** Whether a query may only run writable, and whether it can run: a string needs to be
    one for C, a prepared statement needs as many arguments as it was prepared with. *)
Definition query_mutating (q : Query) : bool :=
  match q with QStmt s | QOwnedRef s | QOwned s => mutating s | _ => false end.

Definition arg_error (b : pg) (s : PreparedStatement) (args : list DatumWithOid) : option SpiError :=
  let expected := as_usize (SPI_getargcount b (plan s)) in
  if expected =? Z.of_nat (length args) then None
  else Some (EPreparedStatementArgumentMismatch expected (Z.of_nat (length args))).

Definition still_immutable (b : pg) : bool := GetCurrentTransactionIdIfAny b =? InvalidTransactionId.

Lemma mbind_eq {A B} (m : M A) (k : A -> M B) w a w1 : m w = (Returned a, w1) -> mbind_ m k w = k a w1.
Proof. intros Hm. unfold mbind_. by rewrite Hm. Qed.

Lemma immutable_spec w : is_xact_still_immutable w = (Returned (still_immutable (backend w)), w).
Proof. done. Qed.

Lemma execute_cmd_log cmd args limit w :
  log (execute_cmd cmd args limit w).2
  = log w ++ [Executed (still_immutable (clear_tuptable (backend w))) (default 0 limit)].
Proof.
  unfold execute_cmd. set (w1 := {| backend := clear_tuptable (backend w); log := log w |}).
  rewrite (mbind_eq _ _ w tt w1) by done. rewrite (mbind_eq _ _ w1 _ w1) by apply immutable_spec.
  erewrite mbind_eq by done. rewrite silent_bind; [done| |apply silent_prepare_tuple_table]. repeat silent_step.
Qed.

Lemma stmt_args_spec s args w : stmt_args_to_datums s args w
  = (Returned match arg_error (backend w) s args with None => inr (split (map prepare_datum args)) | Some e => inl e end, w).
Proof. unfold stmt_args_to_datums, arg_error, mbind_, read. cbv zeta. by destruct (_ =? _). Qed.

Lemma execute_stmt_log s limit args w :
  match arg_error (clear_tuptable (backend w)) s args with
  | Some e => exists w', execute_stmt s limit args w = (Returned (inl e), w') /\ log w' = log w
  | None => log (execute_stmt s limit args w).2
      = log w ++ [Executed (negb (mutating s) && still_immutable (clear_tuptable (backend w))) (default 0 limit)]
  end.
Proof.
  unfold execute_stmt. set (w1 := {| backend := clear_tuptable (backend w); log := log w |}).
  rewrite (mbind_eq _ _ w tt w1) by done. rewrite (mbind_eq _ _ w1 _ w1) by apply stmt_args_spec. cbn [backend w1].
  destruct (arg_error _ s args); [by eexists|].
  rewrite (mbind_eq _ _ w1 _ w1) by apply immutable_spec. cbv zeta.
  erewrite mbind_eq by done. rewrite silent_bind; [done| |apply silent_prepare_tuple_table]. repeat silent_step.
Qed.

Lemma silent_drop_owned s : silent (drop_owned s).
Proof. unfold drop_owned. repeat silent_step. Qed.

Lemma with_drop_log {A} (m : M A) d w : silent d -> log (with_drop m d w).2 = log (m w).2.
Proof.
  intros Hd. unfold with_drop. destruct (m w) as [r w1]. specialize (Hd w1).
  destruct r; [| |done]; destruct (d w1) as [rd w2]; done.
Qed.

(** What [select] has Postgres run: one statement, read-only exactly where no id was
    assigned to the transaction and the statement was not prepared as mutating, with the
    limit given (none being 0); or none at all, where a string holds a null byte, which
    panics, or a prepared statement is given the wrong number of arguments, which is
    reported with both numbers. *)
Theorem select_runs q limit args w :
  let '(r, w') := select q limit args w in
  let b := clear_tuptable (backend w) in
  let ran := log w' = log w ++ [Executed (negb (query_mutating q) && still_immutable b) (default 0 limit)] in
  match q with
  | QCStr _ => ran
  | QStr s => if decide (Byte.x00 ∈ s) then r = Panicked "query contained a null byte" /\ log w' = log w else ran
  | QStmt s | QOwnedRef s | QOwned s =>
      match arg_error b s args with
      | None => ran
      | Some e => log w' = log w /\ (forall x, r = Returned x -> x = inl e)
      end
  end.
Proof.
  destruct (select q limit args w) as [r w'] eqn:Hs. unfold select, execute in Hs. cbv zeta.
  destruct q as [cmd|s|s|s|s]; cbn [query_mutating].
  - pose proof (execute_cmd_log cmd args limit w) as Hl. by rewrite Hs in Hl.
  - unfold pass_with_conv in Hs. destruct (decide _).
    + by injection Hs as <- <-.
    + rewrite (mbind_eq _ _ w s w) in Hs by done. pose proof (execute_cmd_log s args limit w) as Hl. by rewrite Hs in Hl.
  - pose proof (execute_stmt_log s limit args w) as Hl. rewrite Hs in Hl. destruct (arg_error _ s args); [|done].
    destruct Hl as (w2 & [= -> ->] & Hl). split; [done|]. by intros x [= <-].
  - pose proof (execute_stmt_log s limit args w) as Hl. rewrite Hs in Hl. destruct (arg_error _ s args); [|done].
    destruct Hl as (w2 & [= -> ->] & Hl). split; [done|]. by intros x [= <-].
  - pose proof (execute_stmt_log s limit args w) as Hl.
    pose proof (with_drop_log (execute_stmt s limit args) (drop_owned s) w (silent_drop_owned s)) as Hd.
    rewrite Hs in Hd. cbn [snd] in Hd. rewrite Hd. destruct (arg_error _ s args); [|done].
    destruct Hl as (w2 & He & Hl). rewrite He. split; [done|]. intros x ->.
    destruct (with_drop_inv _ _ _ _ _ Hs ltac:(done)) as (r1 & w1 & rd & H1 & _ & _ & _ & _ & Hr).
    specialize (Hr x eq_refl). subst r1. rewrite He in H1. by injection H1 as <-.
Qed.

(** ** Arguments *)

(** How Postgres reads an argument. *)
Definition read_arg (d : Z) (null : ascii) : option Z := if decide (null = "n"%char) then None else Some d.

Lemma read_prepared a : read_arg (prepare_datum a).1 (prepare_datum a).2 = w_datum a.
Proof. unfold prepare_datum. by destruct (w_datum a). Qed.

Lemma args_to_datums_spec args : args_to_datums args
  = (w_oid <$> args, (fun a => (prepare_datum a).1) <$> args, (fun a => (prepare_datum a).2) <$> args).
Proof.
  unfold args_to_datums. enough (Hgen : forall ts ds ns, foldl _ (ts, ds, ns) args = (ts ++ (w_oid <$> args),
    ds ++ ((fun a => (prepare_datum a).1) <$> args), ns ++ ((fun a => (prepare_datum a).2) <$> args))) by apply Hgen.
  induction args as [|a args IH]; intros ts ds ns; simpl; [by rewrite !app_nil_r|].
  destruct (prepare_datum a) as [d n]. rewrite IH, <- !app_assoc. done.
Qed.

Lemma split_prepared args : split (map prepare_datum args)
  = ((fun a => (prepare_datum a).1) <$> args, (fun a => (prepare_datum a).2) <$> args).
Proof. induction args as [|a args IH]; simpl; [done|]. rewrite IH. by destruct (prepare_datum a). Qed.

(** Arguments reach Postgres unchanged: the arrays that are passed have an element per
    argument, in order, with its type; what they read as is the argument, null where it
    was null. *)
Theorem arguments_round_trip args :
  let '(types, datums, nulls) := args_to_datums args in
  types = w_oid <$> args /\ zip_with read_arg datums nulls = w_datum <$> args
  /\ length datums = length args /\ length nulls = length args
  /\ split (map prepare_datum args) = (datums, nulls).
Proof.
  rewrite args_to_datums_spec, split_prepared. split_and!; [done| |by rewrite length_fmap..|done].
  induction args as [|a args IH]; [done|].
  apply (f_equal2 cons); [apply read_prepared|exact IH].
Qed.

(** ** Tables of a connection *)

(** A result whose table is in the memory of connection [c]. *)
Definition table_in (b : pg) (c : Z) (t : TupleTable) : Prop :=
  match r_table t with
  | None => True
  | Some q => exists tab, tuptable_at b q = Some tab /\ owner b q = c /\ c ∈ connections b
      /\ numvals tab = Z.of_nat (length (vals tab)) /\ is_Some (tupdesc tab) /\ numvals tab < 2 ^ 62
      /\ r_size t = numvals tab /\ r_current t = -1
  end.

Lemma table_in_tame b b' c t ret : tame ret b b' -> table_in b c t -> table_in b' c t.
Proof.
  intros [(newer & Hc & _) Ht _]. unfold table_in. destruct (r_table t) as [q|]; [|done].
  intros (tab & Hq & Ho & Hin & Hrest). destruct (Ht q tab Hq) as [Hq' Ho']; [by rewrite Ho|].
  exists tab. rewrite Hq', Ho', Hc. split_and!; [done|done|set_solver|apply Hrest..].
Qed.

Lemma prepare_tuple_table_inv st w t w' : prepare_tuple_table st w = (Returned (inr t), w') ->
  w' = w /\ r_table t = SPI_tuptable (backend w) /\ r_current t = -1
  /\ (forall q tab, SPI_tuptable (backend w) = Some q -> tuptable_at (backend w) q = Some tab ->
      r_size t = as_usize (numvals tab)).
Proof.
  unfold prepare_tuple_table, mbind_, lift, read, mret_. destruct (check_status st) as [[e|code]| |]; [done| |done..].
  destruct (SPI_tuptable (backend w)) as [q|].
  - destruct (tuptable_at (backend w) q) as [tab|] eqn:Hq; simpl; [|done]. intros [= <- <-].
    split_and!; [done..|]. intros q' tab' [= <-] Hq'. simpl. congruence.
  - intros [= <- <-]. by split_and!.
Qed.

Lemma made_table (f : pg -> option Z * pg) w c s t w' :
  tame_call f -> makes_table f -> SPI_tuptable (backend w) = None -> connections (backend w) = c :: s ->
  (status <== ffi f ;; prepare_tuple_table status) w = (Returned (inr t), w') -> table_in (backend w') c t.
Proof.
  intros Hf Hmk Hnone Hcs Hm. unfold mbind_, ffi in Hm. specialize (Hf (backend w)).
  destruct (f (backend w)) as [[st|] b'] eqn:Hb; [|done]. cbn [expect fst snd] in *.
  apply prepare_tuple_table_inv in Hm as (-> & Htab & Hcur & Hsize). cbn [backend] in *. unfold table_in.
  destruct (r_table t) as [q|]; [|done]. symmetry in Htab.
  destruct (Hmk _ _ _ _ Hb Hnone Htab) as (tab & Hq & Hn & Hd & Hlt & Ho). exists tab.
  destruct Hf as [(newer & Hc & _ & _) _ _]. rewrite (Hsize q tab) by done. rewrite as_usize_id by (unfold USIZE; lia).
  split_and!; try done; [by apply (Ho c s)|]. rewrite Hc, Hcs. set_solver.
Qed.

Lemma clear_connections b c s : connections b = c :: s -> connections (clear_tuptable b) = c :: s.
Proof.
  intros Hcs. destruct (tame_connections _ _ _ (tame_clear b)) as (n & Hc & Hn & _). by rewrite Hc, Hn, Hcs.
Qed.

Lemma execute_cmd_table cmd args limit w c s t w' : connections (backend w) = c :: s ->
  execute_cmd cmd args limit w = (Returned (inr t), w') -> table_in (backend w') c t.
Proof.
  intros Hcs. unfold execute_cmd. set (w1 := {| backend := clear_tuptable (backend w); log := log w |}).
  rewrite (mbind_eq _ _ w tt w1) by done. rewrite (mbind_eq _ _ w1 _ w1) by apply immutable_spec. cbv zeta.
  erewrite mbind_eq by done. set (w2 := {| backend := backend w1; log := _ |}).
  assert (Hcs2 : connections (backend w2) = c :: s) by by apply clear_connections.
  destruct args as [|a args].
  - intros Hm. refine (made_table _ w2 c s t w' _ _ _ Hcs2 Hm); [apply tame_execute|apply table_execute|apply cleared].
  - destruct (args_to_datums (a :: args)) as [[ts ds] ns]. intros Hm.
    refine (made_table _ w2 c s t w' _ _ _ Hcs2 Hm); [apply tame_execute_with_args|apply table_execute_with_args|apply cleared].
Qed.

Lemma execute_stmt_table st limit args w c s t w' : connections (backend w) = c :: s ->
  execute_stmt st limit args w = (Returned (inr t), w') -> table_in (backend w') c t.
Proof.
  intros Hcs. unfold execute_stmt. set (w1 := {| backend := clear_tuptable (backend w); log := log w |}).
  rewrite (mbind_eq _ _ w tt w1) by done. rewrite (mbind_eq _ _ w1 _ w1) by apply stmt_args_spec. cbn [backend w1].
  destruct (arg_error _ st args); [done|].
  rewrite (mbind_eq _ _ w1 _ w1) by apply immutable_spec. cbv zeta.
  erewrite mbind_eq by done. set (w2 := {| backend := _; log := _ |}). intros Hm.
  refine (made_table _ w2 c s t w' _ _ _ (clear_connections _ _ _ Hcs) Hm);
    [apply tame_execute_plan|apply table_execute_plan|apply cleared].
Qed.

Lemma execute_table q limit args w c s t w' : connections (backend w) = c :: s ->
  execute q limit args w = (Returned (inr t), w') -> table_in (backend w') c t.
Proof.
  intros Hcs. destruct q as [cmd|str|st|st|st]; simpl.
  - by apply execute_cmd_table with (s := s).
  - unfold mbind_, lift. destruct (pass_with_conv str); [|done..]. by apply execute_cmd_table with (s := s).
  - by apply execute_stmt_table with (s := s).
  - by apply execute_stmt_table with (s := s).
  - intros Hm. destruct (with_drop_inv _ _ _ _ _ Hm ltac:(done)) as (r1 & w1 & rd & H1 & _ & H2 & U2 & _ & Hr).
    rewrite (Hr _ eq_refl) in H1. destruct (wb_drop_owned st _ _ _ H2 U2) as [T _].
    eapply table_in_tame; [exact T|]. by eapply execute_stmt_table.
Qed.

(** What the methods of a result see. *)
Definition value_of (b : pg) (t : TupleTable) : SpiTupleTable :=
  {| status_code := r_status t; table := r_table t ≫= tuptable_at b; size := r_size t; current := r_current t |}.

Lemma view_in {B} w c t (f : SpiTupleTable -> ending B) : table_in (backend w) c t ->
  view t f w = (f (value_of (backend w) t), w).
Proof.
  unfold table_in, view, value_of, mbind_, read, lift, mret_. destruct (r_table t) as [q|]; [|done].
  intros (tab & Hq & _). simpl. by rewrite Hq.
Qed.

Lemma value_of_tame ret b b' c t : tame ret b b' -> table_in b c t -> value_of b' t = value_of b t.
Proof.
  intros T. unfold table_in, value_of. destruct (r_table t) as [q|]; [|done].
  intros (tab & Hq & Ho & Hin & _). simpl. destruct (tame_tables _ _ _ T q tab Hq) as [-> _]; [by rewrite Ho|]. by rewrite Hq.
Qed.

Lemma value_of_ok b c t : table_in b c t -> table (value_of b t) = None \/ table_ok (value_of b t).
Proof.
  unfold table_in, value_of, table_ok. destruct (r_table t) as [q|]; [|by left].
  intros (tab & Hq & _ & _ & Hn & Hd & Hlt & Hs & Hc). right. simpl. rewrite Hq, Hs, Hc. split_and!; [lia..| |done]. lia.
Qed.

(** C21. A table that a statement returned is well formed, and the methods of the table see
    the same rows at every later point while its connection is open: whatever program
    runs in that connection, with connections of its own, does not free it. *)
Theorem tables_stay_valid {A B} q limit args w c s t w' (p : prog A) r2 w2 (f : SpiTupleTable -> ending B) :
  connections (backend w) = c :: s -> select q limit args w = (Returned (inr t), w') ->
  run_prog p w' = (r2, w2) -> r2 <> Undefined ->
  let v := value_of (backend w') t in (table v = None \/ table_ok v) /\ view t f w' = (f v, w') /\ view t f w2 = (f v, w2).
Proof.
  intros Hcs Hs Hrun Hu. pose proof (execute_table _ _ _ _ _ _ _ _ Hcs Hs) as Hin.
  destruct (wb_run_prog p _ _ _ Hrun Hu) as [T _]. cbv zeta. split_and!.
  - by eapply value_of_ok.
  - by eapply view_in.
  - rewrite <- (value_of_tame _ _ _ _ _ T Hin). eapply view_in, table_in_tame; done.
Qed.

(** ** Cursors *)

Fixpoint fetch_all (ptr : Z) (counts : list Z) : M (SpiError + list TupleTable) :=
  match counts with
  | [] => mret_ (inr [])
  | n :: counts => t <-? fetch ptr n ;; ts <-? fetch_all ptr counts ;; mret_ (inr (t :: ts))
  end.

Lemma wb_fetch_all ptr counts : well_behaved (fetch_all ptr counts).
Proof.
  induction counts as [|n counts IH]; simpl; [wb_step|]. apply wb_try; [apply wb_fetch|]. intros t.
  apply wb_try; [done|]. intros ts. wb_step.
Qed.

(** Rows cut into pages. *)
Fixpoint pages {A} (counts : list Z) (rows : list A) : list (list A) :=
  match counts with [] => [] | n :: counts => take (Z.to_nat n) rows :: pages counts (drop (Z.to_nat n) rows) end.

Lemma concat_pages {A} counts (rows : list A) : Forall (fun n => 0 < n) counts ->
  concat (pages counts rows) = take (Z.to_nat (foldr Z.add 0 counts)) rows.
Proof.
  intros Hp. revert rows. induction Hp as [|n counts Hn Hp IH]; intros rows; simpl; [done|].
  assert (0 <= foldr Z.add 0 counts) by (clear IH; induction Hp; simpl; lia).
  rewrite IH, Z2Nat.inj_add by lia. by rewrite take_take_drop.
Qed.

Definition rows_of (b : pg) (t : TupleTable) : list HeapTuple :=
  match table (value_of b t) with Some tab => vals tab | None => [] end.

Lemma fetch_spec ptr po n w c s r w' :
  portal_at (backend w) ptr = Some po -> connections (backend w) = c :: s -> 0 < n ->
  fetch ptr n w = (Returned r, w') ->
  exists t, r = inr t /\ table_in (backend w') c t /\ rows_of (backend w') t = take (Z.to_nat n) (p_rows po)
    /\ connections (backend w') = c :: s
    /\ portal_at (backend w') ptr = Some {| p_name := p_name po; p_desc := p_desc po; p_rows := drop (Z.to_nat n) (p_rows po) |}.
Proof.
  intros Hpo Hcs Hn. unfold fetch. set (w1 := {| backend := clear_tuptable (backend w); log := log w |}).
  rewrite (mbind_eq _ _ w tt w1) by done. unfold live_portal.
  rewrite (mbind_eq _ _ w1 po w1) by (unfold mbind_, read, lift; simpl; by rewrite clear_portal, Hpo).
  unfold mbind_, ffi. destruct (SPI_cursor_fetch ptr true n (backend w1)) as [[[]|] b'] eqn:Hf; [|done]. cbn [expect].
  pose proof (tame_cursor_fetch ptr true n (backend w1)) as T. rewrite Hf in T. cbn [fst snd] in T.
  destruct (fetch_law (backend w1) ptr po n b') as (Hpo' & q & Hq & Htab & Hlt & Ho);
    [simpl; by rewrite clear_portal|done|apply cleared|done|].
  intros Hm. destruct r as [e|t].
  { exfalso. unfold prepare_tuple_table, mbind_, lift, read in Hm. rewrite check_ok in Hm. cbn [backend] in Hm.
    rewrite Hq in Hm. cbn [backend] in Hm. rewrite Htab in Hm. done. }
  apply prepare_tuple_table_inv in Hm as (-> & Hrt & Hcur & Hsize). cbn [backend] in *. rewrite Hq in Hrt.
  exists t. specialize (Hsize q _ Hq Htab). cbn [numvals] in Hsize. rewrite as_usize_id in Hsize by (unfold USIZE; lia).
  destruct (tame_connections _ _ _ T) as (newer & Hc & Hnw & _). rewrite Hnw in Hc by done. cbn [app] in Hc.
  assert (Hc1 : connections (backend w1) = c :: s) by by apply clear_connections. rewrite Hc1 in Hc.
  split_and!; [done| | |done|done].
  - unfold table_in. rewrite Hrt. eexists. rewrite Htab, (Ho c s), Hc by done.
    cbn [numvals vals tupdesc]. split_and!; [done|done|set_solver|done|by eexists|done|done|done].
  - unfold rows_of, value_of. cbn [table]. rewrite Hrt. cbn [mbind option_bind]. by rewrite Htab.
Qed.

(** C24. A cursor gives the rows of its query in order: fetching one page after the other
    gives the rows cut into those pages, together a prefix of the rows, in tables that
    can all be read at the end; what is left is what the next fetch would start with. *)
Theorem cursor_gives_rows counts ptr po w c s r w' :
  portal_at (backend w) ptr = Some po -> connections (backend w) = c :: s -> Forall (fun n => 0 < n) counts ->
  fetch_all ptr counts w = (Returned r, w') ->
  let total := Z.to_nat (foldr Z.add 0 counts) in
  exists ts, r = inr ts /\ Forall (table_in (backend w') c) ts
    /\ rows_of (backend w') <$> ts = pages counts (p_rows po)
    /\ concat (rows_of (backend w') <$> ts) = take total (p_rows po)
    /\ portal_at (backend w') ptr = Some {| p_name := p_name po; p_desc := p_desc po; p_rows := drop total (p_rows po) |}.
Proof.
  intros Hpo Hcs Hp Hm. cbv zeta.
  enough (Hgen : exists ts, r = inr ts /\ Forall (table_in (backend w') c) ts
    /\ rows_of (backend w') <$> ts = pages counts (p_rows po)
    /\ portal_at (backend w') ptr = Some {| p_name := p_name po; p_desc := p_desc po;
                                            p_rows := drop (Z.to_nat (foldr Z.add 0 counts)) (p_rows po) |}).
  { destruct Hgen as (ts & -> & Hin & Hrows & Hpo'). exists ts. rewrite Hrows, concat_pages by done. done. }
  revert po w r w' Hpo Hcs Hm. induction Hp as [|n counts Hn Hp IH]; intros po w r w' Hpo Hcs Hm.
  - injection Hm as <- <-. exists []. split_and!; [done|constructor|done|]. rewrite Hpo. by destruct po.
  - cbn [fetch_all] in Hm. unfold mbind_ at 1 in Hm. destruct (fetch ptr n w) as [[r1|why|] w1] eqn:Hf; [|done..].
    destruct (fetch_spec _ _ _ _ _ _ _ _ Hpo Hcs Hn Hf) as (t & -> & Hin1 & Hrows1 & Hcs1 & Hpo1).
    unfold mbind_ in Hm. destruct (fetch_all ptr counts w1) as [[r2|why|] w2] eqn:Hf2; [|done..].
    destruct (IH _ _ _ _ Hpo1 Hcs1 Hf2) as (ts & -> & Hin2 & Hrows2 & Hpo2). injection Hm as <- <-.
    assert (T : tame true (backend w1) (backend w2)).
    { by destruct (wb_fetch_all ptr counts _ _ _ Hf2 ltac:(done)). }
    assert (0 <= foldr Z.add 0 counts) by (clear -Hp; induction Hp; simpl; lia).
    exists (t :: ts). split_and!; [done| | |].
    + constructor; [by eapply table_in_tame|done].
    + cbn [p_rows] in Hrows2. cbn [fmap list_fmap pages]. rewrite <- Hrows1, <- Hrows2. f_equal. unfold rows_of.
      by rewrite (value_of_tame _ _ _ _ _ T Hin1).
    + rewrite Hpo2. cbn [p_name p_desc p_rows foldr]. rewrite drop_drop, Z2Nat.inj_add by lia. done.
Qed.

Lemma c_string_id name : Byte.x00 ∉ name -> c_string name = name.
Proof.
  induction name as [|b l IH]; [done|]. intros Hn. simpl. rewrite decide_False by set_solver. f_equal. apply IH. set_solver.
Qed.

Lemma find_cursor_spec w name o : Byte.x00 ∉ name -> SPI_cursor_find name (backend w) = o ->
  find_cursor name w = (Returned match o with Some ptr => inr ptr | None => inl (ECursorNotFound (of_bytes name)) end, w).
Proof. intros Hn <-. unfold find_cursor, mbind_, read, mret_. by rewrite c_string_id. Qed.

(** A cursor that is detached is found again by its name in a later connection, at the
    row where it was; one that is dropped instead is not found any more. *)
Theorem detached_cursor_found ptr po w :
  portal_at (backend w) ptr = Some po -> utf8_valid (p_name po) = true -> Byte.x00 ∉ p_name po ->
  detach_into_name ptr w = (Returned (p_name po), w)
  /\ (forall r1 w1 w2, client_drop w = (r1, w1) -> munwrap client_connect w1 = (Returned tt, w2) ->
      find_cursor (p_name po) w2 = (Returned (inr ptr), w2) /\ portal_at (backend w2) ptr = Some po)
  /\ (forall w1, cursor_drop ptr w = (Returned tt, w1) ->
      find_cursor (p_name po) w1 = (Returned (inl (ECursorNotFound (of_bytes (p_name po)))), w1)).
Proof.
  intros Hpo Hutf Hnul. split_and!.
  - unfold detach_into_name, live_portal, mbind_, read, lift. rewrite Hpo. simpl. unfold eassert. by rewrite Hutf.
  - intros r1 w1 w2 Hd Hc. destruct (client_drop_spec w) as (w1' & Hd' & _ & Hl). rewrite Hd' in Hd. injection Hd as <- <-.
    apply client_connect_spec in Hc as [_ (_ & _ & _ & Hp)].
    assert (Hp2 : portal_at (backend w2) ptr = Some po).
    { rewrite Hp. destruct (connections (backend w)); [by rewrite Hl|]. destruct Hl as (_ & _ & _ & Hl). by rewrite Hl. }
    split; [|done]. apply (find_cursor_spec _ _ (Some ptr)); [done|]. apply find_law. by exists po.
  - intros w1 Hd. unfold cursor_drop, live_portal, mbind_ at 1 2, read, lift, ffi in Hd. rewrite Hpo in Hd. cbn [defined] in Hd.
    destruct (SPI_cursor_close ptr (backend w)) as [[[]|] b'] eqn:Hcl; [|done]. injection Hd as <-.
    destruct (close_law _ _ _ Hcl) as [Hnone Hother]. apply (find_cursor_spec _ _ None); [done|]. cbn [backend].
    destruct (SPI_cursor_find (p_name po) b') as [q|] eqn:Hq; [exfalso|done].
    apply find_law in Hq as (po' & Hq & Hname). destruct (decide (q = ptr)) as [->|Hne]; [congruence|].
    rewrite Hother in Hq by done.
    assert (SPI_cursor_find (p_name po) (backend w) = Some q) by (apply find_law; by exists po').
    assert (SPI_cursor_find (p_name po) (backend w) = Some ptr) by (apply find_law; by exists po). congruence.
Qed.
End Session.
