(* ===== verification/SpiExample.v ===== *)
(** * A small backend for SPI

    An instance of [SpiServer] that keeps the laws: connections with their tables,
    transaction ids per subtransaction, portals.  Every statement returns the rows 1, 2
    and 3 of one [int8] column.  The theorems on sessions apply to it, and what the
    interface lets a program do wrong runs on it. *)
From stdpp Require Import base list strings sets gmap infinite.
From S2P Require Import Prelude Memory SpiTable SpiTableSafe SpiSession SpiSessionSafe.
#[local] Open Scope Z_scope.
#[local] Open Scope session_scope.

(** [xids] holds the id of the current subtransaction and of those around it, 0 where
    none is assigned. *)
Record ex_pg := {
  xids : list Z;
  conns : list Z;
  tuptab : option Z;
  tabs : gmap Z (Z * SPITupleTable);
  portals : gmap Z (list (list (option Z)));
}.

Definition fresh_in {A} (m : gmap Z A) : Z := fresh (map_to_list m).*1.

Lemma fresh_in_None {A} (m : gmap Z A) : m !! fresh_in m = None.
Proof.
  destruct (m !! fresh_in m) as [x|] eqn:Hx; [|done]. apply elem_of_map_to_list in Hx.
  apply (list_elem_of_fmap_2 fst) in Hx. by apply infinite_is_fresh in Hx.
Qed.

Definition ex_column : @TupleDesc ex_access := [(as_bytes "n", 20)].
Definition ex_result (limit : Z) : SPITupleTable :=
  let rows := (if 0 <? limit then take (Z.to_nat limit) else id) [[Some 1]; [Some 2]; [Some 3]] in
  {| tupdesc := Some ex_column; vals := rows; numvals := Z.of_nat (length rows) |}.

Definition add_table (b : ex_pg) (t : SPITupleTable) : ex_pg :=
  let q := fresh_in (tabs b) in
  {| xids := xids b; conns := conns b; tuptab := Some q; tabs := <[q := (default 0 (head (conns b)), t)]> (tabs b);
     portals := portals b |}.

Definition ex_execute (limit : Z) (b : ex_pg) : option Z * ex_pg :=
  match conns b with [] => (Some (-4), b) | _ => (Some 5, add_table b (ex_result limit)) end.

Definition ex_open (b : ex_pg) : option Z * ex_pg :=
  let p := fresh_in (portals b) in
  (Some p, {| xids := xids b; conns := conns b; tuptab := tuptab b; tabs := tabs b;
              portals := <[p := [[Some 1]; [Some 2]; [Some 3]]]> (portals b) |}).

(** The name of a portal is as many letters as its number. *)
Definition ex_portal_at (b : ex_pg) (p : Z) : option Portal :=
  if 0 <=? p then
    (fun rows => {| p_name := replicate (Z.to_nat p) "p"%byte; p_desc := ex_column; p_rows := take 1000 rows |}) <$> portals b !! p
  else None.

#[export] Instance ex_server : SpiServer := {|
  pg := ex_pg;
  GetCurrentTransactionIdIfAny b := default 0 (head (xids b));
  GetCurrentTransactionId b :=
    match xids b with
    | [] => (None, b)
    | _ => (Some 7, {| xids := map (fun x => if x =? 0 then 7 else x) (xids b); conns := conns b; tuptab := tuptab b;
                       tabs := tabs b; portals := portals b |})
    end;
  SPI_connect b := (Some 1, {| xids := xids b; conns := fresh (conns b) :: conns b; tuptab := tuptab b; tabs := tabs b;
                               portals := portals b |});
  SPI_finish b :=
    match conns b with
    | [] => (-4, b)
    | c :: s => (2, {| xids := xids b; conns := s; tuptab := None; tabs := filter (fun e => e.2.1 <> c) (tabs b);
                       portals := portals b |})
    end;
  SPI_execute cmd ro limit := ex_execute limit;
  SPI_execute_with_args cmd ts ds ns ro limit := ex_execute limit;
  SPI_execute_plan p ds ns ro limit := ex_execute limit;
  SPI_prepare cmd ts b := (Some (Some 1), b);
  SPI_getargcount b p := 0;
  SPI_keepplan p b := (Some 0, b);
  SPI_freeplan p b := (Some 0, b);
  SPI_cursor_open_with_args cmd ts ds ns ro := ex_open;
  SPI_cursor_open p ds ns ro := ex_open;
  SPI_cursor_fetch p (forward : bool) n b :=
    match (if forward then ex_portal_at b p else None) with
    | Some po =>
        let rows := take (Z.to_nat n) (p_rows po) in
        let b' := add_table b {| tupdesc := Some (p_desc po); vals := rows; numvals := Z.of_nat (length rows) |} in
        (Some tt, {| xids := xids b'; conns := conns b'; tuptab := tuptab b'; tabs := tabs b';
                     portals := <[p := drop (Z.to_nat n) (p_rows po)]> (portals b) |})
    | None => (None, b)
    end;
  SPI_cursor_find name b :=
    let p := Z.of_nat (length name) in
    match ex_portal_at b p with
    | Some po => if decide (p_name po = name) then Some p else None
    | None => None
    end;
  SPI_cursor_close p b :=
    (Some tt, {| xids := xids b; conns := conns b; tuptab := tuptab b; tabs := tabs b; portals := delete p (portals b) |});
  SPI_tuptable b := tuptab b;
  clear_tuptable b := {| xids := xids b; conns := conns b; tuptab := None; tabs := tabs b; portals := portals b |};
  SPI_processed b := 0;
  SPI_result b := -3;
  tuptable_at b p := snd <$> tabs b !! p;
  portal_at := ex_portal_at;
|}.

#[export] Instance ex_obs : SpiObs ex_server := {|
  connections := conns;
  owner b p := default 0 (fst <$> tabs b !! p);
|}.

Lemma ex_tame (b b' : ex_pg) : xids b' = xids b -> conns b' = conns b ->
  (forall q e, tabs b !! q = Some e -> tabs b' !! q = Some e) -> tame (S := ex_server) true b b'.
Proof.
  intros Hx Hc Ht. split.
  - exists []. split_and!; [by simpl; rewrite Hc|done|]. by intros c Hc'%elem_of_nil.
  - intros p t Hp _. simpl in *. destruct (tabs b !! p) as [e|] eqn:He; [|done]. by rewrite (Ht p e He).
  - unfold xid_assigned. simpl. by rewrite Hx.
Qed.

Lemma ex_add_table_keeps b t q e : tabs b !! q = Some e -> tabs (add_table b t) !! q = Some e.
Proof.
  intros Hq. simpl. rewrite lookup_insert_ne; [done|]. intros <-. by rewrite fresh_in_None in Hq.
Qed.

Lemma ex_execute_tame limit : tame_call (S := ex_server) (ex_execute limit).
Proof.
  intros b. unfold ex_execute. destruct (conns b) eqn:Hc; simpl.
  - by apply ex_tame.
  - apply ex_tame; [done|done|]. apply ex_add_table_keeps.
Qed.

Lemma ex_execute_table limit : makes_table (S := ex_server) (ex_execute limit).
Proof.
  intros b a b' q Hf Hn Hq. unfold ex_execute in Hf. destruct (conns b) as [|c s] eqn:Hc.
  - injection Hf as _ <-. simpl in *. congruence.
  - injection Hf as _ <-. simpl in Hq. injection Hq as <-. exists (ex_result limit). simpl.
    rewrite lookup_insert_eq. simpl. split_and!; [done|done|by eexists| |].
    + destruct (0 <? limit); [rewrite length_take|]; simpl; lia.
    + intros c' s' E. rewrite Hc in E |- *. by injection E as -> ->.
Qed.

Lemma ex_portal_name b p po : ex_portal_at b p = Some po -> 0 <= p /\ p_name po = replicate (Z.to_nat p) "p"%byte.
Proof.
  unfold ex_portal_at. destruct (0 <=? p) eqn:E; [|done]. intros Hp. split; [lia|].
  destruct (portals b !! p); [|done]. by injection Hp as <-.
Qed.

Lemma ex_open_tame : tame_call (S := ex_server) ex_open.
Proof. intros b. by apply ex_tame. Qed.

#[export] Instance ex_laws : SpiLaws ex_server.
Proof.
  split; intros; try (apply ex_execute_tame || apply ex_execute_table || apply ex_open_tame); try (intros b; by apply ex_tame).
  - simpl in *. unfold xid_assigned. simpl. destruct (xids b) as [|y l]; [done|].
    match goal with E : _ = (_, b') |- _ => injection E as _ <- end. simpl. unfold InvalidTransactionId.
    destruct (y =? 0) eqn:Ey; lia.
  - intros b. simpl. destruct (xids b) as [|y l] eqn:Hx; simpl; [split; [exists []; split_and!; try done; set_solver|by auto..]|].
    split; [exists []; split_and!; try done; set_solver|by auto|]. unfold xid_assigned. simpl. rewrite Hx. simpl.
    unfold InvalidTransactionId. destruct (y =? 0) eqn:Ey; lia.
  - intros b. simpl. case_match; simpl.
    + apply ex_tame; [done|done|]. intros q e. apply ex_add_table_keeps.
    + split; [exists []; split_and!; try done; set_solver|by auto..].
  - by apply ex_tame.
  - done.
  - right. split_and!; [done| |by auto|by auto|done]. exists (fresh (conns b)). split; [done|]. apply infinite_is_fresh.
  - simpl. destruct (conns b) as [|c s] eqn:Hc; [done|]. split_and!; [done|done| |done|done].
    intros p t Hp Ho. simpl in *. destruct (tabs b !! p) as [e|] eqn:He; [|done]. simpl in *.
    rewrite (map_lookup_filter_Some_2 _ _ _ e) by done. done.
  - simpl. split.
    + destruct (ex_portal_at b _) as [po|] eqn:Hp; [|done]. destruct (decide _) as [Hn|]; [|done]. intros [= <-]. by exists po.
    + intros (po & Hp & Hn). destruct (ex_portal_name _ _ _ Hp) as [Hge Hn']. rewrite <- Hn, Hn', length_replicate.
      replace (Z.of_nat (Z.to_nat p)) with p by lia. rewrite Hp. by rewrite decide_True.
  - done.
  - match goal with E : _ = (_, b') |- _ => injection E as <- end. simpl. unfold ex_portal_at. simpl. split.
    + destruct (0 <=? p); [|done]. by rewrite lookup_delete_eq.
    + intros q Hq. destruct (0 <=? q); [|done]. by rewrite lookup_delete_ne by done.
  - match goal with E : SPI_cursor_fetch _ _ _ _ = _ |- _ => simpl in E; rename E into Hf end.
    match goal with E : portal_at _ _ = _ |- _ => simpl in E; rename E into Hp end. rewrite Hp in Hf. injection Hf as <-.
    destruct (ex_portal_name _ _ _ Hp) as [Hge Hn].
    assert (Hlen : (length (p_rows po) <= 1000)%nat).
    { unfold ex_portal_at in Hp. destruct (0 <=? p); [|done]. destruct (portals b !! p); [|done]. injection Hp as <-.
      simpl. rewrite length_take. lia. }
    assert (Hdesc : p_desc po = ex_column).
    { unfold ex_portal_at in Hp. destruct (0 <=? p); [|done]. destruct (portals b !! p); [|done]. by injection Hp as <-. }
    split.
    + cbn [portal_at ex_server]. unfold ex_portal_at. cbn [portals]. replace (0 <=? p) with true by lia. rewrite lookup_insert_eq. simpl.
      rewrite Hn, Hdesc, (take_ge (drop _ _)) by (rewrite length_drop; etrans; [apply Nat.le_sub_l|exact Hlen]). done.
    + eexists. split; [reflexivity|]. simpl. rewrite lookup_insert_eq. simpl. split_and!; [done| |].
      * apply (Z.le_lt_trans _ (Z.of_nat 1000)); [|lia]. apply Nat2Z.inj_le. rewrite length_take.
        etrans; [apply Nat.le_min_r|exact Hlen].
      * intros c s E. by rewrite E.
Qed.

(** ** The theorems on it *)

Definition ex_begin : world := {| backend := {| xids := [0]; conns := []; tuptab := None; tabs := ∅; portals := ∅ |}; log := [] |}.
Definition ex_connected : world :=
  {| backend := {| xids := [0]; conns := [0]; tuptab := None; tabs := ∅; portals := {[ 2 := [[Some 1]; [Some 2]; [Some 3]] ]} |};
     log := [] |}.
Lemma ex_connected_connections : connections (backend ex_connected) = [0].
Proof. reflexivity. Qed.
Definition sql : Query := QStr (as_bytes "sql").

(** [Spi::connect_mut(|c| { let t = c.update(sql, None, &[]).unwrap(); panic!() })]. *)
Definition ex_panics : prog unit := Do (CUpdate sql None []) (fun _ => Throw "boom").
Definition ex_nested : prog Z := Nest (Do (CUpdate sql None []) (fun _ => Ret 1)) (fun n => Do (CSelect sql None []) (fun _ => Ret n)).

Lemma connections_balanced_witness :
  connections (backend (connect_mut (run_prog ex_nested) ex_begin).2) = []
  /\ exists newer, connections (backend (connect_mut (run_prog ex_panics) ex_begin).2) = newer ++ [].
Proof.
  split.
  - exact (connections_balanced ex_nested ex_begin _ _ (surjective_pairing _)).
  - exact (connections_balanced ex_panics ex_begin _ _ (surjective_pairing _)).
Defined.

Lemma run_eq {A} (m : M (S := ex_server) A) w r : (m w).1 = r -> m w = (r, (m w).2).
Proof. intros <-. apply surjective_pairing. Qed.

Definition ex_made (current : Z) : TupleTable :=
  {| r_status := OkSelect; r_table := Some 0; r_size := 3; r_current := current |}.

Lemma writable_after_update_witness :
  exists l1 l2, log (update sql None [] ex_connected).2 = [] ++ l1 /\ all_writable l1
    /\ log (run_prog ex_nested (update sql None [] ex_connected).2).2 = log (update sql None [] ex_connected).2 ++ l2
    /\ all_writable l2.
Proof.
  assert (Hu : (update sql None [] ex_connected).1 = Returned (inr (ex_made (-1)))) by (vm_compute; reflexivity).
  assert (Hr : (run_prog ex_nested (update sql None [] ex_connected).2).1 = Returned 1) by (vm_compute; reflexivity).
  exact (writable_after_update sql None [] ex_connected _ _ ex_nested _ _ (run_eq _ _ _ Hu) (run_eq _ _ _ Hr) ltac:(done)).
Defined.

(** In a subtransaction that begins after an update, no id is assigned yet: what runs
    there runs read-only again. *)
Definition begin_subtransaction (w : world (S := ex_server)) : world :=
  {| backend := {| xids := 0 :: xids (backend w); conns := conns (backend w); tuptab := tuptab (backend w);
                   tabs := tabs (backend w); portals := portals (backend w) |}; log := log w |}.

Example read_only_in_subtransaction :
  let w1 := (update sql None [] ex_connected).2 in
  let w2 := (select sql None [] w1).2 in
  let w3 := (select sql None [] (begin_subtransaction w2)).2 in
  log w3 = [Executed false 0; Executed false 0; Executed true 0].
Proof. vm_compute. reflexivity. Qed.

Lemma tables_stay_valid_witness :
  let w' := (select sql None [] ex_connected).2 in
  (select sql None [] ex_connected).1 = Returned (inr (ex_made (-1)))
  /\ (view (ex_made (-1)) (fun v => get_one Z (first v)) (run_prog ex_nested w').2).1 = Returned (inr (Some 1)).
Proof.
  cbv zeta.
  assert (Hu : (select sql None [] ex_connected).1 = Returned (inr (ex_made (-1)))) by (vm_compute; reflexivity).
  assert (Hr : (run_prog ex_nested (select sql None [] ex_connected).2).1 = Returned 1) by (vm_compute; reflexivity).
  split; [done|].
  destruct (tables_stay_valid sql None [] ex_connected 0 [] _ _ ex_nested _ _ (fun v => get_one Z (first v))
    ex_connected_connections (run_eq _ _ _ Hu) (run_eq _ _ _ Hr) ltac:(done)) as (_ & _ & ->).
  vm_compute. reflexivity.
Defined.

(** [Spi::connect(|c1| { let t = Spi::connect(|_c2| c1.select(sql, None, &[])); t?.first().get_one() })]:
    the table has the lifetime of the outer client and the memory of the inner
    connection. *)
Definition ex_escape : prog (SpiError + option Z) :=
  Nest (Do (CSelect sql None []) Ret) (fun t =>
    match t with
    | inr t => Do (CRead (r_first t) (get_one Z)) Ret
    | inl e => Ret (inl e)
    end).

Example table_of_inner_connection : (connect (run_prog ex_escape) ex_begin).1 = Undefined.
Proof. vm_compute. reflexivity. Qed.

(** ** Cursors on it *)

Lemma select_runs_witness :
  log (select sql (Some 2) [] ex_connected).2 = [Executed true 2]
  /\ log (select (QStmt {| plan := 1; mutating := true |}) None [] ex_connected).2 = [Executed false 0].
Proof.
  split.
  - pose proof (select_runs sql (Some 2) [] ex_connected) as Hw. destruct (select sql (Some 2) [] ex_connected). exact Hw.
  - pose proof (select_runs (QStmt {| plan := 1; mutating := true |}) None [] ex_connected) as Hw.
    destruct (select (QStmt {| plan := 1; mutating := true |}) None [] ex_connected). exact Hw.
Defined.

Definition ex_portal : Portal := {| p_name := as_bytes "pp"; p_desc := ex_column; p_rows := [[Some 1]; [Some 2]; [Some 3]] |}.

Lemma cursor_gives_rows_witness :
  concat (rows_of (backend (fetch_all 2 [2; 2] ex_connected).2) <$> [ {| r_status := OkFetch; r_table := Some 0; r_size := 2; r_current := -1 |};
    {| r_status := OkFetch; r_table := Some 1; r_size := 1; r_current := -1 |} ]) = [[Some 1]; [Some 2]; [Some 3]].
Proof.
  assert (Hf : (fetch_all 2 [2; 2] ex_connected).1 = Returned (inr [ {| r_status := OkFetch; r_table := Some 0; r_size := 2; r_current := -1 |};
    {| r_status := OkFetch; r_table := Some 1; r_size := 1; r_current := -1 |} ])) by (vm_compute; reflexivity).
  destruct (cursor_gives_rows [2; 2] 2 ex_portal ex_connected 0 [] _ _ eq_refl
    ex_connected_connections ltac:(repeat constructor) (run_eq _ _ _ Hf)) as (ts & Hts & _ & _ & Hc & _).
  injection Hts as <-. exact Hc.
Defined.

Lemma detached_cursor_found_witness :
  detach_into_name 2 ex_connected = (Returned (as_bytes "pp"), ex_connected)
  /\ (find_cursor (as_bytes "pp") (cursor_drop 2 ex_connected).2).1
     = Returned (inl (ECursorNotFound (of_bytes (as_bytes "pp")))).
Proof.
  destruct (detached_cursor_found 2 ex_portal ex_connected eq_refl eq_refl
    ltac:(apply (bool_decide_unpack _); vm_compute; exact I)) as (Hd & _ & Hdrop).
  split; [exact Hd|].
  assert (Hc : (cursor_drop 2 ex_connected).1 = Returned tt) by (vm_compute; reflexivity).
  exact (f_equal fst (Hdrop _ (run_eq _ _ _ Hc))).
Defined.

(** A name leads to the same portal as often as it is asked for, and each cursor
    closes it. *)
Example cursor_closed_twice :
  ((p1 <-? find_cursor (as_bytes "pp") ;; p2 <-? find_cursor (as_bytes "pp") ;;
    cursor_drop p1 ;;; cursor_drop p2 ;;; mret_ (inr tt)) ex_connected).1 = Undefined.
Proof. vm_compute. reflexivity. Qed.

(** A table is positioned before its first row when it is made. *)
Example fetch_without_first :
  ((t <-? fetch 2 1 ;; view t (get_one Z)) ex_connected).1 = Returned (inl EInvalidPosition).
Proof. vm_compute. reflexivity. Qed.
