(* ===== verification/CargoManifest.v ===== *)
(** * Choosing a manifest, a Postgres version and features

    [cargo-pgrx/src/manifest.rs]: which package of a workspace is the extension, which
    version of Postgres a command is for (an argument, a feature flag, a default
    feature), and the features the extension is then compiled with.  [CargoMetadata] and
    [ManifestFeatures] are what [cargo_metadata] and [cargo_toml] report; messages that are
    printed are left out. *)
From stdpp Require Import base list strings sets.
From S2P Require Import Prelude Metadata Text PgConfig.
#[local] Open Scope Z_scope.

Inductive PgVersionSource :=
| CliArgument (s : string) | FeatureFlag (s : string) | DefaultFeature (s : string) | FromPgConfig (s : string).

Definition source_label (v : PgVersionSource) : string :=
  match v with CliArgument s | FeatureFlag s | DefaultFeature s | FromPgConfig s => s end.

(** ** The package *)

Record Package := {
  pkg_name : string;
  pkg_manifest_path : string;
  pkg_dependencies : list string;
  (** The crate types of each target. *)
  pkg_targets : list (list string);
}.

Record CargoMetadata := {
  packages : list Package;
  root_package : option Package;
  workspace_packages : list Package;
}.

Inductive ManifestError :=
| PackageNotFound (name : string)
| NoExtension
| ManyExtensions (n : Z) (names : list string)
| NoVersion
| ConfigErr (e : ConfigError).

(** A cdylib that depends on pgrx. *)
Definition is_extension (p : Package) : bool :=
  existsb (fun d => bool_decide (d = "pgrx")) (pkg_dependencies p)
  && existsb (fun t => existsb (fun ct => bool_decide (ct = "cdylib")) t) (pkg_targets p).

Definition manifest_path (m : CargoMetadata) (package_name : option string) : outcome ManifestError string :=
  match package_name with
  | Some n =>
      found ← ok_or (PackageNotFound n) (List.find (fun p => bool_decide (pkg_name p = n)) (packages m));
      Ok (pkg_manifest_path found)
  | None =>
      match root_package m with
      | Some root => Ok (pkg_manifest_path root)
      | None =>
          match List.filter is_extension (workspace_packages m) with
          | [] => Err NoExtension
          | [p] => Ok (pkg_manifest_path p)
          | ps => Err (ManyExtensions (Z.of_nat (length ps)) (map pkg_name ps))
          end
      end
  end.

(** ** Features *)

Record Features := { no_default_features : bool; features : list string }.

(** The [features] of a manifest. *)
Abbreviation ManifestFeatures := (list (string * list string)).

Definition feature (m : ManifestFeatures) (k : string) : option (list string) :=
  snd <$> List.find (fun kv => bool_decide (kv.1 = k)) m.
Definition contains_key (m : ManifestFeatures) (k : string) : bool :=
  existsb (fun kv => bool_decide (kv.1 = k)) m.

Definition push_missing (l : list string) (x : string) : list string :=
  if existsb (fun y => bool_decide (x = y)) l then l else l ++ [x].

Definition modify_features_for_version (fs : option Features) (m : ManifestFeatures) (v : PgVersionSource) (test : bool)
  : option Features :=
  match fs with
  | None => None
  | Some fs =>
      let fs :=
        match feature m "default" with
        | Some default_features =>
            if negb (no_default_features fs)
            then {| no_default_features := true;
                    features := features fs ++ List.filter (fun flag => negb (is_feature_flag flag)) default_features |}
            else fs
        | None => fs
        end in
      let kept :=
        if test then List.filter (fun flag => contains_key m flag || bool_decide (flag = "pgrx/cshim")) (features fs)
        else features fs in
      Some {| no_default_features := no_default_features fs; features := push_missing kept (source_label v) |}
  end.

Definition default_version (m : ManifestFeatures) : option PgVersionSource :=
  match feature m "default" with
  | Some default_features => DefaultFeature <$> List.find is_feature_flag default_features
  | None => None
  end.

(** The closure [pg_version]. *)
Definition pg_version (m : ManifestFeatures) (specified : option string) (user_features : option Features)
  : option PgVersionSource :=
  match specified with
  | Some v => Some (CliArgument v)
  | None =>
      match user_features with
      | Some fs =>
          match List.find is_feature_flag (features fs) with
          | Some flag => Some (FeatureFlag flag)
          | None => if negb (no_default_features fs) then default_version m else None
          end
      | None => default_version m
      end
  end.

(** [get] is [Pgrx::get]; the features come back as they are left. *)
Definition pg_config_and_version (get : string -> outcome ConfigError PgConfig) (m : ManifestFeatures)
  (specified : option string) (user_features : option Features)
  : outcome ManifestError (PgConfig * PgVersionSource) * option Features :=
  match pg_version m specified user_features with
  | Some v =>
      let fs := modify_features_for_version user_features m v false in
      (match get (source_label v) with
       | Ok c => Ok (c, v)
       | Err e => Err (ConfigErr e)
       | Panic => Panic
       end, fs)
  | None => (Err NoVersion, user_features)
  end.

(** [all_pg_in_both_tomls], of the installations that [Pgrx::iter] gives. *)
Definition all_pg_in_both_tomls (major : PgConfig -> outcome ConfigError Z) (m : ManifestFeatures)
  (configs : list (outcome ConfigError PgConfig)) : list (outcome ConfigError PgConfig) :=
  List.filter (fun r =>
    match r with
    | Ok c => match major c with Ok ver => contains_key m ("pg" +:+ show_u32 ver) | _ => false end
    | _ => true
    end) configs.

(** ** What is chosen *)

Lemma find_flag l flag : List.find is_feature_flag l = Some flag -> flag ∈ l /\ is_feature_flag flag = true.
Proof. intros Hf. apply List.find_some in Hf as [Hin Hflag]. split; [by apply list_elem_of_In|done]. Qed.

Lemma elem_of_list_filter_bool {A} (f : A -> bool) l x : x ∈ List.filter f l <-> x ∈ l /\ f x = true.
Proof. rewrite !list_elem_of_In. apply List.filter_In. Qed.

Lemma elem_of_push_missing l x y : y ∈ push_missing l x <-> y ∈ l \/ y = x.
Proof.
  unfold push_missing. destruct (existsb _ l) eqn:E; [|set_solver].
  apply List.existsb_exists in E as (z & Hz & Heq). apply bool_decide_eq_true in Heq as <-.
  apply list_elem_of_In in Hz. naive_solver.
Qed.

(** The default features that are not versions, where they are on. *)
Definition other_defaults (m : ManifestFeatures) (fs : Features) : list string :=
  if no_default_features fs then [] else List.filter (fun flag => negb (is_feature_flag flag)) (default [] (feature m "default")).

Lemma modify_features_spec fs m v :
  exists fs', modify_features_for_version (Some fs) m v false = Some fs'
  /\ (forall x, x ∈ features fs' <-> x ∈ features fs \/ x ∈ other_defaults m fs \/ x = source_label v)
  /\ no_default_features fs' = no_default_features fs || bool_decide (is_Some (feature m "default")).
Proof.
  eexists. split; [reflexivity|]. unfold other_defaults. split.
  - intros x. cbn [features]. rewrite elem_of_push_missing. destruct (feature m "default") as [l|]; simpl.
    + destruct (no_default_features fs); simpl; [set_solver|]. rewrite elem_of_app. tauto.
    + destruct (no_default_features fs); simpl; set_solver.
  - cbn [no_default_features]. destruct (feature m "default") as [l|]; simpl.
    + destruct (no_default_features fs) eqn:E; simpl; [done|]. done.
    + by rewrite orb_false_r.
Qed.

(** The extension is compiled for the Postgres that was chosen, the one of the command
    line, else the first version among the features, else the default one: its feature is
    on, what the user asked for stays on, and so do the default features that are not
    versions; cargo's own defaults are off where there are any, so that no other version
    comes in, and without a version on the command line the only one is the chosen one,
    if the features named one at most. *)
Theorem compiled_for_chosen_version get m specified fs c v fs' :
  pg_config_and_version get m specified (Some fs) = (Ok (c, v), fs') ->
  get (source_label v) = Ok c /\ pg_version m specified (Some fs) = Some v
  /\ exists f, fs' = Some f
     /\ source_label v ∈ features f /\ features fs ⊆ features f
     /\ (forall x, x ∈ features f -> x ∈ features fs \/ x ∈ other_defaults m fs \/ x = source_label v)
     /\ (is_Some (feature m "default") -> no_default_features f = true)
     /\ (specified = None -> (forall x y, x ∈ features fs -> y ∈ features fs ->
            is_feature_flag x = true -> is_feature_flag y = true -> x = y) ->
          forall x, x ∈ features f -> is_feature_flag x = true -> x = source_label v).
Proof.
  unfold pg_config_and_version. destruct (pg_version m specified (Some fs)) as [v'|] eqn:Hv; [|done].
  destruct (modify_features_spec fs m v') as (f & Hf & Hmem & Hno). rewrite Hf.
  destruct (get (source_label v')) as [c'| |] eqn:Hget; [|done..]. intros [= -> -> <-].
  split; [done|]. split; [done|]. exists f. split_and!.
  - done.
  - rewrite Hmem. auto.
  - intros x Hx. rewrite Hmem. auto.
  - intros x Hx. by apply Hmem.
  - intros Hd. rewrite Hno. rewrite bool_decide_true by done. apply orb_true_r.
  - intros -> Hone x Hx Hflag. apply Hmem in Hx as [Hx|[Hx|Hx]]; [| |done].
    + unfold pg_version in Hv. destruct (List.find is_feature_flag (features fs)) as [flag|] eqn:Hfind.
      * injection Hv as <-. apply find_flag in Hfind as [Hin Hfl]. by apply Hone.
      * eapply List.find_none in Hfind; [|by apply list_elem_of_In]. congruence.
    + unfold other_defaults in Hx. destruct (no_default_features fs); [by apply elem_of_nil in Hx|].
      apply elem_of_list_filter_bool in Hx as [_ Hx]. by rewrite Hflag in Hx.
Qed.

Definition ex_features : Features := {| no_default_features := false; features := ["pg_test"] |}.
Definition ex_manifest : ManifestFeatures := [("default", ["pg17"; "extra"]); ("pg17", ["pgrx/pg17"]); ("extra", [])].

Lemma compiled_for_chosen_version_witness :
  pg_config_and_version (fun _ => Ok (new_with_defaults "/pg/bin/pg_config")) ex_manifest None (Some ex_features)
  = (Ok (new_with_defaults "/pg/bin/pg_config", DefaultFeature "pg17"),
     Some {| no_default_features := true; features := ["pg_test"; "extra"; "pg17"] |})
  /\ forall x, x ∈ ["pg_test"; "extra"; "pg17"] -> is_feature_flag x = true -> x = "pg17".
Proof.
  assert (He : pg_config_and_version (fun _ => Ok (new_with_defaults "/pg/bin/pg_config")) ex_manifest None (Some ex_features)
    = (Ok (new_with_defaults "/pg/bin/pg_config", DefaultFeature "pg17"),
       Some {| no_default_features := true; features := ["pg_test"; "extra"; "pg17"] |})) by (vm_compute; reflexivity).
  split; [done|].
  destruct (compiled_for_chosen_version _ _ _ _ _ _ _ He) as (_ & _ & f & Hf & _ & _ & _ & _ & Hone).
  injection Hf as <-. apply (Hone eq_refl).
  intros x y Hx Hy Hfx Hfy. apply list_elem_of_singleton in Hx as ->. by apply list_elem_of_singleton in Hy as ->.
Defined.

(** A version on the command line does not turn off the one among the features. *)
Example two_versions_at_once :
  (pg_config_and_version (fun _ => Ok (new_with_defaults "/pg/bin/pg_config")) ex_manifest (Some "pg17")
     (Some {| no_default_features := false; features := ["pg16"] |})).2
  = Some {| no_default_features := true; features := ["pg16"; "extra"; "pg17"] |}.
Proof. vm_compute. reflexivity. Qed.
