(* ===== verification/Regress.v ===== *)
(** * Regression tests: which run, and what they said

    [cargo-pgrx/src/command/regress.rs]: the arguments, the files of a directory put in
    order, the tests that a run or a dry run selects, and the lines of [pg_regress] that
    are counted.  Directories are listed by the caller; running the tests is
    [pg_regress]'s. *)
From stdpp Require Import base list strings sets sorting.
From S2P Require Import Prelude Metadata Text PgConfig PgConfigSafe.
#[local] Open Scope Z_scope.

(** ** Arguments *)

Definition strip_prefix (p s : string) : option string :=
  if String.prefix p s then Some (String.substring (String.length p) (String.length s - String.length p) s) else None.

Definition is_supported_pg_version_label (label : string) : bool :=
  match strip_prefix "pg" label ≫= u16_from_str with
  | Some major => is_supported_major_version major
  | None => false
  end.

Inductive ArgError := FirstNotVersion (first : string) | TooManyArguments.

Definition parse_args (args : list string) : ArgError + (option string * option string) :=
  match args with
  | [] => inr (None, None)
  | [only] => if is_supported_pg_version_label only then inr (Some only, None) else inr (None, Some only)
  | [first; second] =>
      if is_supported_pg_version_label first then inr (Some first, Some second) else inl (FirstNotVersion first)
  | _ => inl TooManyArguments
  end.

(** ** Files *)

(** A name, as bytes, and whether it is a file, [None] where that cannot be read. *)
Record DirEntry := { file_name : string; is_file : option bool }.

Definition to_str (e : DirEntry) : option string :=
  if utf8_valid (as_bytes (file_name e)) then Some (file_name e) else None.

Fixpoint ends_with (suffix s : string) : bool :=
  bool_decide (s = suffix) || match s with EmptyString => false | String _ rest => ends_with suffix rest end.

Definition has_suffix (suffix : string) (e : DirEntry) : bool :=
  match to_str e with Some filename => ends_with suffix filename | None => false end.

(** The closure of [retain]. *)
Definition wanted (only : string) (e : DirEntry) : bool :=
  match is_file e with Some true => has_suffix ("." +:+ only) e | _ => false end.

Definition is_setup (only : string) (e : DirEntry) : bool := has_suffix ("setup." +:+ only) e.

(** [position(..).map(|idx| files.remove(idx))] *)
Fixpoint remove_first {A} (f : A -> bool) (l : list A) : option A * list A :=
  match l with
  | [] => (None, [])
  | x :: l => if f x then (Some x, l) else let '(r, l) := remove_first f l in (r, x :: l)
  end.

Definition name_le (a b : DirEntry) : Prop := (file_name a ≤ file_name b)%string.
#[export] Instance name_le_dec a b : Decision (name_le a b).
Proof. unfold name_le. apply _. Defined.

Definition organize_files (files : list DirEntry) (only : string) (include_setup : bool) : list DirEntry :=
  let files := List.filter (wanted only) files in
  let '(setup_entry, files) := remove_first (is_setup only) files in
  let files := merge_sort name_le files in
  match setup_entry with
  | Some setup_entry => if include_setup then setup_entry :: files else files
  | None => files
  end.

(** [str::rsplit_once('.')] *)
Fixpoint rsplit_once (c : Ascii.ascii) (s : string) : option (string * string) :=
  match s with
  | EmptyString => None
  | String d rest =>
      match rsplit_once c rest with
      | Some (a, b) => Some (String d a, b)
      | None => if bool_decide (d = c) then Some (EmptyString, rest) else None
      end
  end.

Inductive Exit := NoMatchingTest (filter : string) | NoExpectedOutput (test : string).

Definition make_test_name (e : DirEntry) : outcome Exit string :=
  match to_str e with
  | None => Panic
  | Some filename => match rsplit_once "." filename with Some (name, _) => Ok name | None => Panic end
  end.

(** ** Selection *)

Fixpoint retain {A} (f : A -> outcome Exit bool) (l : list A) : outcome Exit (list A) :=
  match l with
  | [] => Ok []
  | x :: l => b ← f x; l ← retain f l; Ok (if (b : bool) then x :: l else l)
  end.

Definition in_names (name : string) (names : list string) : bool := existsb (fun n => bool_decide (name = n)) names.

(** The filter of [execute]: the tests to run, or why the command ends. *)
Definition filter_tests (test_filter : option string) (created_db : bool) (test_files output_files : list DirEntry)
  : outcome Exit (list DirEntry) :=
  match test_filter with
  | None => Ok test_files
  | Some filter =>
      test_files ← retain (fun e => name ← make_test_name e;
        Ok ((created_db && bool_decide (name = "setup")) || contains filter name)) test_files;
      match test_files with
      | [] => Err (NoMatchingTest filter)
      | _ =>
          output_names ← collect make_test_name output_files;
          _ ← collect (fun e => name ← make_test_name e;
                if in_names name output_names then Ok tt else Err (NoExpectedOutput name)) test_files;
          Ok test_files
      end
  end.

(** The [partition] of [run_all_tests]: the tests that run and those that are skipped. *)
Definition partition_tests (test_files output_files : list DirEntry) : outcome Exit (list DirEntry * list DirEntry) :=
  output_names ← collect make_test_name output_files;
  ready ← retain (fun e => name ← make_test_name e; Ok (in_names name output_names)) test_files;
  new ← retain (fun e => name ← make_test_name e; Ok (negb (in_names name output_names))) test_files;
  Ok (ready, new).

(** What one run of the suite hands to [pg_regress] and what it skips. *)
Definition selected (test_filter : option string) (created_db : bool) (sql expected : list DirEntry)
  : outcome Exit (list DirEntry * list DirEntry) :=
  let test_files := organize_files sql "sql" created_db in
  let output_files := organize_files expected "out" created_db in
  test_files ← filter_tests test_filter created_db test_files output_files;
  partition_tests test_files output_files.

(** What a dry run says would run and would be skipped. *)
Definition dry_run_tests (test_filter : option string) (sql expected : list DirEntry)
  : outcome Exit (list string * list string) :=
  let test_files := organize_files sql "sql" false in
  let output_files := organize_files expected "out" false in
  output_names ← collect make_test_name output_files;
  fold_outcome (fun '(ready, skipped) e =>
    name ← make_test_name e;
    match test_filter with
    | Some filter =>
        if negb (contains filter name) then Ok (ready, skipped)
        else if in_names name output_names then Ok (ready ++ [name], skipped) else Ok (ready, skipped ++ [name])
    | None => if in_names name output_names then Ok (ready ++ [name], skipped) else Ok (ready, skipped ++ [name])
    end) ([], []) test_files.

(** ** Results *)

Inductive TestResult := Passed | Failed.

Definition split_new (line : string) : option (string * bool * string * string) :=
  match split_whitespace line with
  | ok :: _number :: _dash :: test_name :: time :: units :: _ => Some (test_name, bool_decide (ok = "ok"), time, units)
  | _ => None
  end.

Definition split_old (line : string) : option (string * bool * string * string) :=
  match split_whitespace line with
  | _test :: test_name :: _dots :: ok :: time :: units :: _ => Some (test_name, bool_decide (ok = "ok"), time, units)
  | _ => None
  end.

Section Decorate.
(** The words [PASS] and [FAIL] in colour. *)
Context (PASS FAIL : string).

Definition decorate_output (line : string) : option (string * option TestResult) :=
  let parsed :=
    if String.prefix "ok" line then Some (split_new line)
    else if String.prefix "not ok" line then Some (split_new (replace "not ok" "not_ok" line))
    else if contains "... ok" line || contains "... FAILED" line then Some (split_old line)
    else None in
  match parsed with
  | None => None
  | Some None => Some ("", None)
  | Some (Some (test_name, passed, execution_time, execution_units)) =>
      Some ((if (passed : bool) then PASS else FAIL) +:+ " " +:+ test_name +:+ " " +:+ execution_time +:+ execution_units,
            Some (if passed then Passed else Failed))
  end.

(** The thread that watches the output: what it prints and its counts. *)
Definition monitor (lines : list string) : list string * Z * Z :=
  foldl (fun '(printed, passed, failed) line =>
    match decorate_output line with
    | None => (printed, passed, failed)
    | Some (line, Some Passed) => (printed ++ [line], passed + 1, failed)
    | Some (line, Some Failed) => (printed ++ [line], passed, failed + 1)
    | Some (line, None) => (printed ++ [line], passed, failed)
    end) ([], 0, 0) lines.
End Decorate.

(** ** Files in order *)

Lemma remove_first_perm {A} (f : A -> bool) l :
  let '(o, rest) := remove_first f l in
  l ≡ₚ option_list o ++ rest /\ match o with Some x => f x = true | None => forall y, y ∈ l -> f y = false end.
Proof.
  induction l as [|x l IH]; simpl; [by split; [|intros y Hy%elem_of_nil]|].
  destruct (f x) eqn:Hx; simpl; [done|]. destruct (remove_first f l) as [[y|] rest]; destruct IH as [Hp Hf]; simpl.
  - split; [|done]. rewrite Hp. simpl. constructor.
  - simpl in Hp. split; [by rewrite Hp|]. intros y [->|Hy]%elem_of_cons; auto.
Qed.

Lemma filter_bool_perm {A} (f : A -> bool) l l' : l ≡ₚ l' -> List.filter f l ≡ₚ List.filter f l'.
Proof.
  induction 1 as [|x l l' _ IH|x y l|l1 l2 l3 _ IH1 _ IH2]; simpl; [done| | |by etrans].
  - destruct (f x); [by constructor|done].
  - destruct (f x); destruct (f y); [constructor|done..].
Qed.

#[export] Instance name_le_trans : Transitive name_le.
Proof. intros a b c. unfold name_le. apply transitivity. Qed.
#[export] Instance name_le_total : Total name_le.
Proof. intros a b. unfold name_le. apply total, _. Qed.

Lemma sorted_names_unique l l' : NoDup (file_name <$> l) -> Sorted name_le l -> Sorted name_le l' -> l ≡ₚ l' -> l = l'.
Proof.
  intros Hnd Hl Hl' Hp. apply (Sorted_unique_strong name_le); [|done..].
  intros a b Ha Hb Hab Hba. rewrite <- Hp in Hb.
  assert (Hn : file_name a = file_name b) by by apply (anti_symm String.le).
  apply list_elem_of_lookup_1 in Ha as [i Hi], Hb as [j Hj].
  assert (i = j) as ->; [|congruence].
  apply (NoDup_lookup _ _ _ (file_name a) Hnd); rewrite list_lookup_fmap; [by rewrite Hi|by rewrite Hj, Hn].
Qed.

(** What is left of the files, and in which order: the files of the extension, each
    once; the setup file first, or left out; the others by name. *)
Lemma organize_files_spec files only include_setup :
  exists setup rest,
    organize_files files only include_setup = (if include_setup then option_list setup else []) ++ rest
    /\ List.filter (wanted only) files ≡ₚ option_list setup ++ rest /\ Sorted name_le rest
    /\ match setup with
       | Some e => is_setup only e = true
       | None => forall e, e ∈ files -> wanted only e = true -> is_setup only e = false
       end.
Proof.
  unfold organize_files. pose proof (remove_first_perm (is_setup only) (List.filter (wanted only) files)) as Hrf.
  destruct (remove_first _ _) as [o rest]. destruct Hrf as [Hp Ho].
  exists o, (merge_sort name_le rest). split_and!.
  - destruct o; [by destruct include_setup|by destruct include_setup].
  - by rewrite merge_sort_Permutation.
  - apply Sorted_merge_sort, _.
  - destruct o; [done|]. intros e He Hw. apply Ho. rewrite list_elem_of_In in He |- *. by apply List.filter_In.
Qed.

Lemma NoDup_fmap_filter {A B} (g : A -> B) (f : A -> bool) l : NoDup (g <$> l) -> NoDup (g <$> List.filter f l).
Proof.
  induction l as [|x l IH]; simpl; [done|]. rewrite list.NoDup_cons. intros [Hx Hnd].
  destruct (f x); [|by auto]. simpl. apply list.NoDup_cons. split; [|by auto].
  intros (y & Hy & Hin)%list_elem_of_fmap. apply Hx. rewrite Hy. apply (list_elem_of_fmap_2 g).
  rewrite list_elem_of_In in Hin |- *. by apply List.filter_In in Hin as [Hin _].
Qed.

(** Tests run in an order that does not depend on how the file system lists a directory:
    for every listing of the same files, of which one at most ends with the name of the
    setup file, the files come out the same, sorted by name, setup first. *)
Theorem files_in_fixed_order files files' only include_setup :
  files ≡ₚ files' -> NoDup (file_name <$> files) ->
  (forall a b, a ∈ files -> b ∈ files -> wanted only a = true -> wanted only b = true ->
     is_setup only a = true -> is_setup only b = true -> a = b) ->
  organize_files files only include_setup = organize_files files' only include_setup.
Proof.
  intros Hp Hnd Hone.
  destruct (organize_files_spec files only include_setup) as (o & r & -> & Hr & Hs & Ho).
  destruct (organize_files_spec files' only include_setup) as (o' & r' & -> & Hr' & Hs' & Ho').
  assert (Hw : List.filter (wanted only) files ≡ₚ List.filter (wanted only) files') by by apply filter_bool_perm.
  assert (Hin : forall e, o = Some e \/ o' = Some e -> e ∈ files /\ wanted only e = true).
  { intros e He. rewrite list_elem_of_In. apply List.filter_In. apply list_elem_of_In. destruct He as [-> | ->].
    - rewrite Hr. simpl. by left.
    - rewrite Hw, Hr'. simpl. by left. }
  assert (o = o') as <-.
  { destruct o as [e|]; destruct o' as [e'|]; [f_equal| | |done].
    - destruct (Hin e ltac:(auto)) as [? ?]. destruct (Hin e' ltac:(auto)) as [? ?]. by apply Hone.
    - destruct (Hin e ltac:(auto)) as [He Hwe]. rewrite Hp in He. by rewrite (Ho' e He Hwe) in Ho.
    - destruct (Hin e' ltac:(auto)) as [He Hwe]. by rewrite (Ho e' He Hwe) in Ho'. }
  f_equal. rewrite Hw, Hr' in Hr. apply (inj (app (option_list o))) in Hr.
  assert (Hnr : NoDup (file_name <$> r)).
  { assert (Hn : NoDup (file_name <$> (option_list o ++ r'))) by (rewrite <- Hr', <- Hw; by apply NoDup_fmap_filter).
    rewrite Hr in Hn. rewrite fmap_app in Hn. by apply list.NoDup_app in Hn as (_ & _ & Hn). }
  by apply sorted_names_unique.
Qed.

(** A file named as setup's, by its last letters only, takes the place of the setup
    file when the directory lists it first. *)
Example setup_by_suffix :
  let a := {| file_name := "setup.sql"; is_file := Some true |} in
  let b := {| file_name := "undo_setup.sql"; is_file := Some true |} in
  organize_files [a; b] "sql" true = [a; b] /\ organize_files [b; a] "sql" true = [b; a]
  /\ organize_files [b; a] "sql" false = [a].
Proof. vm_compute. done. Qed.

(** ** Names of tests *)

Lemma rsplit_once_dot_suffix x s : ends_with ("." +:+ x) s = true -> is_Some (rsplit_once "." s).
Proof.
  induction s as [|c s IH]; cbn [ends_with rsplit_once].
  - rewrite orb_false_r. intros He%bool_decide_eq_true. done.
  - intros [He%bool_decide_eq_true|He]%orb_true_iff.
    + injection He as -> _. destruct (rsplit_once "." s) as [[? ?]|]; [by eexists|].
      rewrite bool_decide_true by done. by eexists.
    + destruct (IH He) as [[a b] ->]. by eexists.
Qed.

Definition tname (e : DirEntry) : string := match make_test_name e with Ok n => n | _ => "" end.

Lemma wanted_name only e : wanted only e = true -> make_test_name e = Ok (tname e).
Proof.
  unfold tname, make_test_name, wanted, has_suffix. destruct (is_file e) as [[|]|]; [|done..].
  destruct (to_str e) as [s|]; [|done]. intros Hs. apply rsplit_once_dot_suffix in Hs as [[n ?] ->]. done.
Qed.

Lemma organize_named files only b e : e ∈ organize_files files only b -> make_test_name e = Ok (tname e).
Proof.
  destruct (organize_files_spec files only b) as (o & r & -> & Hp & _ & _). intros He.
  apply (wanted_name only). assert (Hin : e ∈ option_list o ++ r) by (destruct b; set_solver).
  rewrite <- Hp in Hin. apply list_elem_of_In, List.filter_In in Hin. apply Hin.
Qed.

Lemma retain_filter {A} (f : A -> outcome Exit bool) (g : A -> bool) l :
  (forall x, x ∈ l -> f x = Ok (g x)) -> retain f l = Ok (List.filter g l).
Proof.
  induction l as [|x l IH]; intros Hf; simpl; [done|]. rewrite Hf by set_solver. simpl.
  rewrite IH by set_solver. done.
Qed.

Lemma collect_map {E A B} (f : A -> outcome E B) (g : A -> B) l :
  (forall x, x ∈ l -> f x = Ok (g x)) -> collect f l = Ok (map g l).
Proof.
  induction l as [|x l IH]; intros Hf; simpl; [done|]. rewrite Hf by set_solver. simpl.
  by rewrite IH by set_solver.
Qed.

Lemma find_negb_filter {A} (g : A -> bool) l : List.find (fun e => negb (g e)) l = None ->
  List.filter g l = l /\ List.filter (fun e => negb (g e)) l = [].
Proof.
  induction l as [|x l IH]; simpl; [done|]. destruct (g x); simpl; [|done]. intros Hf. destruct (IH Hf) as [-> ->]. done.
Qed.

(** The loop of a dry run. *)
Lemma dry_run_fold (keep ready : DirEntry -> bool) l r s :
  fold_outcome (E := Exit) (fun '(r, s) e =>
    if negb (keep e) then Ok (r, s) else if ready e then Ok (r ++ [tname e], s) else Ok (r, s ++ [tname e])) (r, s) l
  = Ok (r ++ map tname (List.filter ready (List.filter keep l)),
        s ++ map tname (List.filter (fun e => negb (ready e)) (List.filter keep l))).
Proof.
  revert r s. induction l as [|e l IH]; intros r s; simpl; [by rewrite !app_nil_r|].
  destruct (keep e); simpl; [|by rewrite IH]. destruct (ready e); simpl; rewrite IH, <- app_assoc; done.
Qed.

Lemma fold_outcome_ext {E S A} (f g : S -> A -> outcome E S) s l :
  (forall s x, x ∈ l -> f s x = g s x) -> fold_outcome f s l = fold_outcome g s l.
Proof.
  revert s. induction l as [|x l IH]; intros s Hfg; simpl; [done|]. rewrite Hfg by set_solver.
  destruct (g s x); simpl; [|done..]. apply IH. set_solver.
Qed.

Section Predict.
Context (sql expected : list DirEntry).
Let tests := organize_files sql "sql" false.
Let outputs := organize_files expected "out" false.
Let has_output (e : DirEntry) : bool := in_names (tname e) (map tname outputs).

Lemma partition_tests_spec l : (forall e, e ∈ l -> make_test_name e = Ok (tname e)) ->
  partition_tests l outputs = Ok (List.filter has_output l, List.filter (fun e => negb (has_output e)) l).
Proof.
  intros Hn. unfold partition_tests. rewrite (collect_map _ tname) by (intros e; apply organize_named). cbn.
  rewrite (retain_filter _ (fun e => negb (has_output e))) by (intros e He; cbv beta; rewrite Hn by done; reflexivity).
  by rewrite (retain_filter _ has_output) by (intros e He; cbv beta; rewrite Hn by done; reflexivity).
Qed.

(** The first test without an expected output stops the command. *)
Lemma check_outputs l : (forall e, e ∈ l -> make_test_name e = Ok (tname e)) ->
  collect (fun e => name ← make_test_name e;
    if in_names name (map tname outputs) then Ok tt else Err (NoExpectedOutput name)) l
  = match List.find (fun e => negb (has_output e)) l with
    | Some e => Err (NoExpectedOutput (tname e))
    | None => Ok (map (fun _ => tt) l)
    end.
Proof.
  induction l as [|e l IH]; intros Hn; simpl; [done|]. rewrite Hn by set_solver. simpl.
  change (in_names (tname e) (map tname outputs)) with (has_output e). destruct (has_output e); simpl; [|done].
  rewrite IH by set_solver. by destruct (List.find _ l).
Qed.

(** C36. A dry run says what a run on an existing database does: the tests it would run are
    the ones that are handed to [pg_regress], and the ones it would skip are skipped;
    with a filter the run ends instead when no test matches, or when one that does has no
    expected output, which is then one the dry run would skip. *)
Theorem dry_run_predicts test_filter :
  let matching := match test_filter with Some f => List.filter (fun e => contains f (tname e)) tests | None => tests end in
  dry_run_tests test_filter sql expected
    = Ok (map tname (List.filter has_output matching), map tname (List.filter (fun e => negb (has_output e)) matching))
  /\ selected test_filter false sql expected =
     match test_filter with
     | None => Ok (List.filter has_output matching, List.filter (fun e => negb (has_output e)) matching)
     | Some f =>
         match matching, List.find (fun e => negb (has_output e)) matching with
         | [], _ => Err (NoMatchingTest f)
         | _, Some e => Err (NoExpectedOutput (tname e))
         | _, None => Ok (matching, [])
         end
     end.
Proof.
  assert (Hn : forall e, e ∈ tests -> make_test_name e = Ok (tname e)) by (intros e; apply organize_named).
  cbv zeta. split.
  - unfold dry_run_tests. fold tests outputs. rewrite (collect_map _ tname) by (intros e; apply organize_named). cbn.
    set (keep := fun e => match test_filter with Some f => contains f (tname e) | None => true end).
    rewrite (fold_outcome_ext _ (fun '(r, s) e => if negb (keep e) then Ok (r, s) else
      if has_output e then Ok (r ++ [tname e], s) else Ok (r, s ++ [tname e]))).
    2: { intros [r s] e He. rewrite Hn by done. by destruct test_filter. }
    rewrite dry_run_fold. destruct test_filter; [done|]. unfold keep.
    replace (List.filter (fun _ => true) tests) with tests; [done|]. clear. induction tests as [|e l IH]; simpl; congruence.
  - unfold selected. fold tests outputs. destruct test_filter as [f|]; cbn [filter_tests].
    + rewrite (retain_filter _ (fun e => contains f (tname e))) by (intros e He; cbv beta; rewrite Hn by done; reflexivity).
      cbn [mbind outcome_bind]. set (m := List.filter _ tests).
      assert (Hm : forall e, e ∈ m -> make_test_name e = Ok (tname e)).
      { intros e He. apply Hn. unfold m in He. rewrite list_elem_of_In in He |- *. by apply List.filter_In in He as [He _]. }
      clearbody m. destruct m as [|e0 m0]; [done|].
      rewrite (collect_map _ tname) by (intros e; apply organize_named). cbn [mbind outcome_bind].
      rewrite check_outputs by done. destruct (List.find _ (e0 :: m0)) as [e|] eqn:Hf; [done|]. cbn [mbind outcome_bind].
      rewrite partition_tests_spec by done. by destruct (find_negb_filter has_output (e0 :: m0) Hf) as [-> ->].
    + cbn [mbind outcome_bind]. by apply partition_tests_spec.
Qed.
End Predict.

(** A run of five listings of one directory, of which the first two are compared. *)
Lemma files_in_fixed_order_witness :
  let a := {| file_name := "setup.sql"; is_file := Some true |} in
  let b := {| file_name := "b.sql"; is_file := Some true |} in
  let c := {| file_name := "a.sql"; is_file := Some true |} in
  organize_files [b; c; a] "sql" true = organize_files [a; b; c] "sql" true.
Proof.
  apply files_in_fixed_order.
  - apply (Permutation_app_comm [_; _] [_]).
  - by apply (bool_decide_unpack _).
  - intros x y Hx Hy _ _. rewrite !elem_of_cons, elem_of_nil in Hx, Hy.
    destruct Hx as [-> |[-> |[-> |[]]]], Hy as [-> |[-> |[-> |[]]]]; vm_compute; done.
Defined.

(** On a database that was just created the setup file is kept whatever the filter, so
    a filter that names no test does not end the command. *)
Example unmatched_filter_runs_setup :
  let e name := {| file_name := name; is_file := Some true |} in
  selected (Some "zzz") true [e "setup.sql"; e "a.sql"] [e "setup.out"] = Ok ([e "setup.sql"], [])
  /\ selected (Some "zzz") false [e "setup.sql"; e "a.sql"] [e "setup.out"] = Err (NoMatchingTest "zzz").
Proof. vm_compute. done. Qed.

(** ** Lines of results *)

Fixpoint blanks (n : nat) : string := match n with O => "" | S n => String " " (blanks n) end.

(** Words, each behind one blank and more. *)
Fixpoint spaced (l : list (nat * string)) : string :=
  match l with [] => "" | (n, w) :: l => String " " (blanks n +:+ w +:+ spaced l) end.

Definition word (w : string) : bool := all_solid w && negb (is_empty w).

Lemma split_spaced_tail l : forallb (fun p => word p.2) l = true -> forall w, word w = true ->
  split_whitespace (w +:+ spaced l) = w :: map snd l.
Proof.
  unfold split_whitespace. induction l as [|[n v] l IH]; intros Hl w [Hw He]%andb_true_iff; cbn [spaced].
  - rewrite app_empty_r, split_ws_solid by done. cbn. by rewrite He.
  - cbn [forallb snd] in Hl. apply andb_true_iff in Hl as [Hv Hl].
    rewrite split_ws_word by done. cbn [List.filter map]. rewrite He. f_equal.
    induction n as [|n IHn]; [by apply IH|]. cbn [blanks]. rewrite app_cons. exact IHn.
Qed.

(** What [pg_regress] says of one test, in the format of Postgres 16 and later or in
    the one before it; the gaps are the blanks it aligns its columns with. *)
Record Report := { r_new : bool; r_passed : bool; r_number : string; r_name : string; r_time : string; r_units : string;
                   r_gap : nat -> nat }.

Definition columns (r : Report) : list (nat * string) :=
  [(r_gap r 0%nat, r_number r); (r_gap r 1%nat, "-"); (r_gap r 2%nat, r_name r); (r_gap r 3%nat, r_time r);
   (r_gap r 4%nat, r_units r)].

Definition old_columns (r : Report) : list (nat * string) :=
  [(r_gap r 0%nat, r_name r); (r_gap r 1%nat, "..."); (0%nat, if r_passed r then "ok" else "FAILED");
   (r_gap r 2%nat, r_time r); (r_gap r 3%nat, r_units r)].

Definition report_text (r : Report) : string :=
  if r_new r then (if r_passed r then "ok" else "not ok") +:+ spaced (columns r) else "test" +:+ spaced (old_columns r).

(** Every column is one word, and no two of them read as "not ok". *)
Definition report_ok (r : Report) : bool :=
  word (r_number r) && word (r_name r) && word (r_time r) && word (r_units r) && negb (contains "not ok" (spaced (columns r))).

Section Monitor.
Context (PASS FAIL : string).

Definition printed (r : Report) : string :=
  (if r_passed r then PASS else FAIL) +:+ " " +:+ r_name r +:+ " " +:+ r_time r +:+ r_units r.

Lemma split_new_report r ok : report_ok r = true -> word ok = true ->
  split_new (ok +:+ spaced (columns r)) = Some (r_name r, bool_decide (ok = "ok"), r_time r, r_units r).
Proof.
  unfold report_ok. rewrite !andb_true_iff. intros ((((Hn & Hm) & Ht) & Hu) & _) Hok.
  unfold split_new. rewrite split_spaced_tail; [done| |done]. cbn. by rewrite Hn, Hm, Ht, Hu.
Qed.

Lemma replace_not_ok t : contains "not ok" t = false -> replace "not ok" "not_ok" ("not ok" +:+ t) = "not_ok" +:+ t.
Proof.
  intros Ht. transitivity ("not_ok" +:+ replace "not ok" "not_ok" t); [|by rewrite replace_absent].
  unfold replace. change ("not ok" +:+ t) with (String "n" ("ot ok" +:+ t)) at 1. cbn [replace_from].
  change (String "n" ("ot ok" +:+ t)) with ("not ok" +:+ t). by rewrite prefix_app.
Qed.

Lemma old_line_seen r :
  contains "... ok" ("test" +:+ spaced (old_columns r)) || contains "... FAILED" ("test" +:+ spaced (old_columns r)) = true.
Proof.
  assert (exists a t, "test" +:+ spaced (old_columns r) = a +:+ (if r_passed r then "... ok" else "... FAILED") +:+ t)
    as (a & t & ->).
  { eexists ("test" +:+ String " " (blanks (r_gap r 0%nat) +:+ r_name r +:+ String " " (blanks (r_gap r 1%nat)))), _.
    cbn [spaced old_columns blanks]. rewrite ?app_assoc_s, ?app_cons, ?app_assoc_s, ?app_cons, ?app_assoc_s.
    do 5 f_equal. destruct (r_passed r); done. }
  destruct (r_passed r); rewrite contains_here; [done|apply orb_true_r].
Qed.

Lemma split_old_report r : report_ok r = true ->
  split_old ("test" +:+ spaced (old_columns r)) = Some (r_name r, r_passed r, r_time r, r_units r).
Proof.
  unfold report_ok. rewrite !andb_true_iff. intros ((((Hn & Hm) & Ht) & Hu) & _).
  unfold split_old. rewrite split_spaced_tail; [| |done].
  - cbn. by destruct (r_passed r).
  - cbn. rewrite Hm, Ht, Hu. by destruct (r_passed r).
Qed.

Lemma decorate_report r : report_ok r = true ->
  decorate_output PASS FAIL (report_text r) = Some (printed r, Some (if r_passed r then Passed else Failed)).
Proof.
  intros Hr. unfold decorate_output, report_text, printed. destruct (r_new r).
  - destruct (r_passed r).
    + rewrite prefix_app, split_new_report by done. done.
    + replace (String.prefix "ok" ("not ok" +:+ spaced (columns r))) with false by done. rewrite prefix_app.
      rewrite replace_not_ok by (unfold report_ok in Hr; rewrite !andb_true_iff, negb_true_iff in Hr; tauto).
      rewrite split_new_report by done. done.
  - replace (String.prefix "ok" ("test" +:+ _)) with false by done.
    replace (String.prefix "not ok" ("test" +:+ _)) with false by done.
    rewrite old_line_seen, split_old_report by done. done.
Qed.

Definition line_text (l : Report + string) : string := match l with inl r => report_text r | inr s => s end.

Definition line_ok (l : Report + string) : Prop :=
  match l with inl r => report_ok r = true | inr s => decorate_output PASS FAIL s = None end.

Definition reports (lines : list (Report + string)) : list Report :=
  omap (fun l => match l with inl r => Some r | inr _ => None end) lines.

(** The counts of a run are those of its tests: from lines that report a test, in either
    format, among others that do not, [monitor] counts each test once, as passed or as
    failed, and prints one line for it, in order. *)
Theorem monitor_counts lines : Forall line_ok lines ->
  monitor PASS FAIL (map line_text lines)
  = (map printed (reports lines), Z.of_nat (length (List.filter r_passed (reports lines))),
     Z.of_nat (length (List.filter (fun r => negb (r_passed r)) (reports lines)))).
Proof.
  unfold monitor. induction lines as [|l lines IH] using rev_ind; [done|]. intros [Hls Hl]%Forall_app.
  apply list.Forall_cons in Hl as [Hl _]. rewrite map_app, foldl_app, (IH Hls). unfold reports. rewrite omap_app.
  cbn [map foldl]. destruct l as [r|s]; cbn [line_text omap list_omap] in *.
  - rewrite decorate_report by done. rewrite map_app, !List.filter_app, !length_app. cbn [map List.filter].
    destruct (r_passed r); cbn [negb length]; repeat f_equal; lia.
  - cbn in Hl. rewrite Hl, !app_nil_r. done.
Qed.
End Monitor.

Lemma monitor_counts_witness :
  let r b := {| r_new := b; r_passed := negb b; r_number := "1"; r_name := "a"; r_time := "12"; r_units := "ms"; r_gap := fun i => i |} in
  (monitor "PASS" "FAIL" ["not ok 1  -   a    12     ms"; "# not a result"; "test a  ... ok   12    ms"]).2 = 1
  /\ map line_text [inl (r true); inr "# not a result"; inl (r false)]
     = ["not ok 1  -   a    12     ms"; "# not a result"; "test a  ... ok   12    ms"].
Proof.
  cbv zeta. split; [|done]. match goal with |- (monitor ?p ?f _).2 = _ =>
    pose proof (monitor_counts p f [inl {| r_new := true; r_passed := false; r_number := "1"; r_name := "a"; r_time := "12"; r_units := "ms"; r_gap := fun i => i |};
      inr "# not a result"; inl {| r_new := false; r_passed := true; r_number := "1"; r_name := "a"; r_time := "12"; r_units := "ms"; r_gap := fun i => i |}]) as H
  end.
  change (map line_text _) with ["not ok 1  -   a    12     ms"; "# not a result"; "test a  ... ok   12    ms"] in H.
  rewrite H; [done|]. repeat constructor.
Defined.
