(* ===== verification/CargoUpgrade.v ===== *)
(** * Upgrading the versions of a manifest

    [cargo-pgrx/src/command/upgrade.rs]: finding the manifest of a package in a workspace,
    and rewriting the versions its dependencies on [pgrx] require.

    [cargo_toml], [toml_edit], [crates_index] and [regex] are libraries.  What they give is
    taken as it is: a [Manifest] is what [cargo_toml] parsed; a [TomlEdit] is a document
    that is edited, with the laws of a table; the index and the file system are functions;
    [expand] is the expansion of a replacement by [regex].  The only regular expression of
    the code, [REQUIREMENT_REGEX], is read as what it matches. *)
From stdpp Require Import base list strings sets.
From S2P Require Import Prelude Metadata Text PgConfig PgConfigSafe.
#[local] Open Scope Z_scope.

(** ** Manifests *)

Record DependencyDetail := { d_package : option string; d_registry : option string; d_version : option string }.

Inductive Dependency := Simple (requirement : string) | Inherited | Detailed (detail : DependencyDetail).

(** A [BTreeMap]: by name, each name once. *)
Definition DepsSet : Type := list (string * Dependency).

Record Workspace := { members : list string; ws_dependencies : DepsSet }.

Record Manifest := {
  m_package : option string;
  m_workspace : option Workspace;
  dependencies : DepsSet;
  dev_dependencies : DepsSet;
}.

(** [Match] holds the requirement as it is printed. *)
Inductive TargetVersion := DiscoverPrerelease | DiscoverReleased | Match (req : string).

Inductive Rewrite := Replace (s : string) | SwapBareVersion (v : string).

Inductive UpgradeError :=
| NoPackage (name : string)
| NoPackageInWorkspace (name : string) (errs : list (string * UpgradeError))
| Yanked (version crate_name : string)
| NoReleased (crate_name : string)
| IoError (what : string)
| IndexError (what : string).

(** ** Editing a document *)

(** An [Item] of a document and its tables: [get], [insert], [as_table_like] (and
    [put_table], what is written through [as_table_like_mut]), [as_bool], and an item made
    from a string. *)
Class TomlEdit (Item Table : Type) := {
  get : Table -> string -> option Item;
  insert : Table -> string -> Item -> Table;
  as_table_like : Item -> option Table;
  put_table : Item -> Table -> Item;
  as_bool : Item -> option bool;
  from_str : string -> Item;
}.

Class TomlLaws (Item Table : Type) `{TomlEdit Item Table} := {
  get_insert : forall t k (i : Item), get (insert t k i) k = Some i;
  get_insert_ne : forall t k k' (i : Item), k <> k' -> get (insert t k i) k' = get t k';
  as_put_table : forall (i : Item) t t', as_table_like i = Some t -> as_table_like (put_table i t') = Some t';
  str_no_table : forall s, as_table_like (from_str s) = None;
}.

(** ** Requirements *)

Definition starts_version (c : Ascii.ascii) : bool := is_ascii_digit c || Ascii.eqb c ".".

(** The two groups of [REQUIREMENT_REGEX]: characters that are neither digits nor dots;
    then, to the end of the text, a digit or a dot and characters that are no line feeds. *)
Fixpoint requirement_captures (s : string) : option (string * string) :=
  match s with
  | EmptyString => None
  | String c rest =>
      if starts_version c then (if has_char LF rest then None else Some (EmptyString, s))
      else match requirement_captures rest with Some (op, v) => Some (String c op, v) | None => None end
  end.

Definition RELEVANT_PACKAGES : list string :=
  ["pgrx"; "pgrx-bench"; "pgrx-macros"; "pgrx-pg-config"; "pgrx-pg-sys"; "pgrx-sql-entity-graph"; "pgrx-tests"].

Definition relevant (crate_name : string) : bool := existsb (fun p => bool_decide (crate_name = p)) RELEVANT_PACKAGES.

(** What an index says of a crate: its highest version and whether that is yanked, and
    the highest one that is neither yanked nor a prerelease. *)
Record Krate := { highest_version : string * bool; highest_normal_version : option string }.

Section Update.
Context {Item Table : Type} {TE : TomlEdit Item Table}.
Context (new_cargo_default : outcome UpgradeError unit) (crate_from_cache : string -> outcome UpgradeError Krate).
Context (expand : string -> string -> string).

(** [REQUIREMENT_REGEX.replace]: the text where it does not match. *)
Definition rewrite_requirement (strategy : Rewrite) (existing : string) : string :=
  match strategy with
  | Replace s => s
  | SwapBareVersion v =>
      match requirement_captures existing with
      | Some (op, _) => expand ("${1}" +:+ v) op
      | None => existing
      end
  end.

Definition strategy_for (target : TargetVersion) (crate_name : string) : outcome UpgradeError Rewrite :=
  match target with
  | Match req => Ok (Replace req)
  | DiscoverPrerelease =>
      krate ← crate_from_cache crate_name;
      let '(version, is_yanked) := highest_version krate in
      if (is_yanked : bool) then Err (Yanked version crate_name) else Ok (SwapBareVersion version)
  | DiscoverReleased =>
      krate ← crate_from_cache crate_name;
      version ← ok_or (NoReleased crate_name) (highest_normal_version krate);
      Ok (SwapBareVersion version)
  end.

Definition dependency_inherits_workspace (section : Table) (local_name : string) : bool :=
  default false (item ← get section local_name; table ← as_table_like (item : Item);
                 workspace ← get table "workspace"; as_bool (workspace : Item)).

Definition crate_name_of (local_name : string) (dependency : Dependency) : option string :=
  match dependency with
  | Inherited => None
  | Simple _ => Some local_name
  | Detailed detail => Some (default local_name (d_package detail))
  end.

Definition open_index (dependency : Dependency) : outcome UpgradeError unit :=
  match dependency with
  | Detailed detail => match d_registry detail with Some _ => Panic | None => new_cargo_default end
  | _ => new_cargo_default
  end.

(** One turn of the loop. *)
Definition update_dependency (target : TargetVersion) (section : Table) (entry : string * Dependency)
  : outcome UpgradeError Table :=
  let '(local_name, dependency) := entry in
  match crate_name_of local_name dependency with
  | None => Ok section
  | Some crate_name =>
      if negb (relevant crate_name) then Ok section
      else if dependency_inherits_workspace section local_name then Ok section
      else
        _ ← open_index dependency;
        strategy ← strategy_for target crate_name;
        match dependency with
        | Inherited => Ok section
        | Simple requirement => Ok (insert section local_name (from_str (rewrite_requirement strategy requirement)))
        | Detailed detail =>
            match d_version detail with
            | None => Ok section
            | Some requirement =>
                item ← unwrap (get section local_name);
                table ← unwrap (as_table_like item);
                Ok (insert section local_name
                      (put_table item (insert table "version" (from_str (rewrite_requirement strategy requirement)))))
            end
        end
  end.

Definition update_manifest_section (section : Table) (deps : DepsSet) (target : TargetVersion) : outcome UpgradeError Table :=
  fold_outcome (update_dependency target) section deps.

(** A section of the document, edited in place. *)
Definition update_at (sink : Table) (key : string) (deps : DepsSet) (target : TargetVersion) : outcome UpgradeError Table :=
  item ← unwrap (get sink key);
  section ← unwrap (as_table_like item);
  section ← update_manifest_section section deps target;
  Ok (insert sink key (put_table item section)).

Definition update_manifest (source : Manifest) (sink : Table) (target : TargetVersion) : outcome UpgradeError Table :=
  sink ← match dependencies source with [] => Ok sink | deps => update_at sink "dependencies" deps target end;
  sink ← match dev_dependencies source with [] => Ok sink | deps => update_at sink "dev-dependencies" deps target end;
  match m_workspace source with
  | Some workspace =>
      match ws_dependencies workspace with
      | [] => Ok sink
      | deps =>
          item ← unwrap (get sink "workspace");
          table ← unwrap (as_table_like item);
          table ← update_at table "dependencies" deps target;
          Ok (insert sink "workspace" (put_table item table))
      end
  | None => Ok sink
  end.
End Update.

(** ** Finding a manifest *)

Section Find.
Context (is_dir : string -> outcome UpgradeError bool) (from_path : string -> outcome UpgradeError Manifest).
Context (join : string -> string -> string) (parent : string -> option string) (to_lowercase : string -> string).

Definition manifest_paths (path : string) : outcome UpgradeError (string * string) :=
  d ← is_dir path;
  if (d : bool) then Ok (path, join path "Cargo.toml") else p ← unwrap (parent path); Ok (p, path).

(** The loop over the members: the first that has the package, or every error. *)
Fixpoint search_members (find : string -> option (outcome UpgradeError string)) (name dirpath : string)
    (errs : list (string * UpgradeError)) (dirs : list string) : option (outcome UpgradeError string) :=
  match dirs with
  | [] => Some (Err (NoPackageInWorkspace name errs))
  | dir :: dirs =>
      match find (join dirpath dir) with
      | Some (Err e) => search_members find name dirpath (errs ++ [(dir, e)]) dirs
      | r => r
      end
  end.

(** [None]: not returned yet after that many nested calls. *)
Fixpoint find_manifest_file (fuel : nat) (path : string) (package : option string) : option (outcome UpgradeError string) :=
  match fuel with
  | O => None
  | S fuel =>
      match (paths ← manifest_paths path; input ← from_path paths.2; Ok (paths, input)) with
      | Err e => Some (Err e)
      | Panic => Some Panic
      | Ok ((manifest_dirpath, manifest_filepath), input) =>
          match package, m_workspace input with
          | None, _ => Some (Ok manifest_filepath)
          | Some name, None =>
              match m_package input with
              | Some input_package =>
                  if bool_decide (to_lowercase input_package = to_lowercase name) then Some (Ok manifest_filepath)
                  else Some (Err (NoPackage name))
              | None => Some (Err (NoPackage name))
              end
          | Some name, Some workspace =>
              search_members (fun path => find_manifest_file fuel path package) name manifest_dirpath [] (members workspace)
          end
      end
  end.
End Find.

(** ** Requirements are rewritten behind their operator *)

Fixpoint no_version (s : string) : bool :=
  match s with EmptyString => true | String c s => negb (starts_version c) && no_version s end.

(** The text of a version, as an index has it. *)
Definition version_text (v : string) : bool :=
  match v with EmptyString => false | String c rest => starts_version c && negb (has_char LF rest) end && negb (has_char "$" v).

Lemma requirement_captures_spec s op v : requirement_captures s = Some (op, v) -> s = op +:+ v /\ no_version op = true.
Proof.
  revert op. induction s as [|c s IH]; intros op; cbn [requirement_captures]; [done|].
  destruct (starts_version c) eqn:Hc; [destruct (has_char LF s); [done|]; by intros [= <- <-]|].
  destruct (requirement_captures s) as [[op' v']|]; [|done]. intros [= <- <-].
  destruct (IH op' eq_refl) as [-> Hop]. by rewrite app_cons; cbn [no_version]; rewrite Hc.
Qed.

Lemma requirement_captures_app op v : no_version op = true -> version_text v = true ->
  requirement_captures (op +:+ v) = Some (op, v).
Proof.
  intros Hop [Hv _]%andb_true_iff. induction op as [|c op IH].
  - destruct v as [|c v]; [done|]. apply andb_true_iff in Hv as [Hc Hl]. rewrite app_nil_s. cbn [requirement_captures].
    apply negb_true_iff in Hl. by rewrite Hc, Hl.
  - cbn [no_version] in Hop. apply andb_true_iff in Hop as [Hc Hop]. apply negb_true_iff in Hc.
    rewrite app_cons. cbn [requirement_captures]. by rewrite Hc, IH.
Qed.

(** [regex] replaces [${1}] by the first group and copies a text without a dollar sign. *)
Definition expands_group (expand : string -> string -> string) : Prop :=
  forall v op, has_char "$" v = false -> expand ("${1}" +:+ v) op = op +:+ v.

Section Requirements.
Context (expand : string -> string -> string) (Hexpand : expands_group expand).

Lemma swap_captured v op old : version_text v = true -> no_version op = true -> version_text old = true ->
  rewrite_requirement expand (SwapBareVersion v) (op +:+ old) = op +:+ v.
Proof.
  intros Hv Hop Hold. cbn [rewrite_requirement]. rewrite requirement_captures_app by done. apply Hexpand.
  apply andb_true_iff in Hv as [_ Hv]. by apply negb_true_iff.
Qed.

Lemma swap_twice v existing : version_text v = true ->
  rewrite_requirement expand (SwapBareVersion v) (rewrite_requirement expand (SwapBareVersion v) existing)
  = rewrite_requirement expand (SwapBareVersion v) existing.
Proof.
  intros Hv. cbn [rewrite_requirement]. destruct (requirement_captures existing) as [[op old]|] eqn:Hc; [|by rewrite Hc].
  apply requirement_captures_spec in Hc as [_ Hop]. rewrite Hexpand by (apply andb_true_iff in Hv as [_ Hv]; by apply negb_true_iff).
  rewrite requirement_captures_app by done. apply Hexpand. apply andb_true_iff in Hv as [_ Hv]. by apply negb_true_iff.
Qed.
End Requirements.

(** [regex]'s expansion on the templates of this code. *)
Definition expand_first (template op : string) : string :=
  if String.prefix "${1}" template then op +:+ String.substring 4 (String.length template - 4) template else template.

(** The operator stays and the version is replaced; of a requirement with two bounds
    the second is lost. *)
Example swapped :
  map (rewrite_requirement expand_first (SwapBareVersion "0.17.0")) ["0.16.1"; "=0.16.1"; "~0.16"; "^ 0.16"; "*"; ">=0.16, <0.17"]
  = ["0.17.0"; "=0.17.0"; "~0.17.0"; "^ 0.17.0"; "*"; ">=0.17.0"].
Proof. vm_compute. done. Qed.

(** ** A section is edited as its dependencies say *)

(** *** What an upgrade is to do *)

(** The crates of this repository that extensions depend on. *)
Definition pgrx_crate (crate : string) : Prop :=
  crate = "pgrx" \/ exists part, crate = "pgrx-" +:+ part
    /\ part ∈ ["bench"; "macros"; "pg-config"; "pg-sys"; "sql-entity-graph"; "tests"].

(** A dependency is on the crate of its own name, unless it names another. *)
Inductive names_crate (local_name : string) : Dependency -> string -> Prop :=
| simple_names r : names_crate local_name (Simple r) local_name
| detailed_names d : d_package d = None -> names_crate local_name (Detailed d) local_name
| package_names d crate : d_package d = Some crate -> names_crate local_name (Detailed d) crate.

Definition required (dependency : Dependency) : option string :=
  match dependency with Simple r => Some r | Inherited => None | Detailed d => d_version d end.
Definition registry_of (dependency : Dependency) : option string :=
  match dependency with Detailed d => d_registry d | _ => None end.

(** A requirement is an operator and, from its first digit or dot to the end, a version; one
    that is no such text, as [*], stays. *)
Definition version_chars : list Ascii.ascii := String.list_ascii_of_string "0123456789.".
Definition operator_of (old op : string) : Prop :=
  exists c rest, old = op +:+ String c rest /\ c ∈ version_chars /\ LF ∉ String.list_ascii_of_string rest
    /\ forall x, x ∈ String.list_ascii_of_string op -> x ∉ version_chars.
Definition swapped_version (v old new : string) : Prop :=
  (exists op, operator_of old op /\ new = op +:+ v) \/ ((forall op, ~ operator_of old op) /\ new = old).

(** What is to become of a dependency. *)
Inductive verdict := Keep | Require (rewritten : string -> string -> Prop) | Fails (e : UpgradeError) | Panics.

Section Spec.
Context {Item Table : Type} {TE : TomlEdit Item Table}.
Context (new_cargo_default : outcome UpgradeError unit) (crate_from_cache : string -> outcome UpgradeError Krate).

(** [workspace = true] in the entry of a dependency. *)
Definition in_workspace (section : Table) (k : string) : Prop :=
  exists (item : Item) table (flag : Item),
    get section k = Some item /\ as_table_like item = Some table /\ get table "workspace" = Some flag /\ as_bool flag = Some true.

(** The version that is asked for. *)
Inductive discovered (crate : string) : TargetVersion -> verdict -> Prop :=
| asked req : discovered crate (Match req) (Require (fun _ new => new = req))
| prerelease k v : crate_from_cache crate = Ok k -> highest_version k = (v, false) ->
    discovered crate DiscoverPrerelease (Require (swapped_version v))
| prerelease_yanked k v : crate_from_cache crate = Ok k -> highest_version k = (v, true) ->
    discovered crate DiscoverPrerelease (Fails (Yanked v crate))
| released k v : crate_from_cache crate = Ok k -> highest_normal_version k = Some v ->
    discovered crate DiscoverReleased (Require (swapped_version v))
| no_released k : crate_from_cache crate = Ok k -> highest_normal_version k = None ->
    discovered crate DiscoverReleased (Fails (NoReleased crate))
| index_error target e : crate_from_cache crate = Err e -> (forall req, target <> Match req) -> discovered crate target (Fails e)
| index_panic target : crate_from_cache crate = Panic -> (forall req, target <> Match req) -> discovered crate target Panics.

Inductive decided (target : TargetVersion) (section : Table) (k : string) (dep : Dependency) : verdict -> Prop :=
| inherited : dep = Inherited -> decided target section k dep Keep
| other_crate crate : names_crate k dep crate -> ~ pgrx_crate crate -> decided target section k dep Keep
| of_workspace crate : names_crate k dep crate -> pgrx_crate crate -> in_workspace section k -> decided target section k dep Keep
| custom_registry crate r : names_crate k dep crate -> pgrx_crate crate -> ~ in_workspace section k ->
    registry_of dep = Some r -> decided target section k dep Panics
| no_index crate e : names_crate k dep crate -> pgrx_crate crate -> ~ in_workspace section k ->
    registry_of dep = None -> new_cargo_default = Err e -> decided target section k dep (Fails e)
| index_panics crate : names_crate k dep crate -> pgrx_crate crate -> ~ in_workspace section k ->
    registry_of dep = None -> new_cargo_default = Panic -> decided target section k dep Panics
| by_index crate v : names_crate k dep crate -> pgrx_crate crate -> ~ in_workspace section k ->
    registry_of dep = None -> new_cargo_default = Ok tt -> discovered crate target v -> decided target section k dep v.

(** The entry of a dependency in two sections, before and after: what it requires is
    rewritten, and every other key of a table is as it was.  Without a requirement, the
    entry stays. *)
Definition rewritten_entry (section section' : Table) (k : string) (dep : Dependency) (new : string -> string -> Prop) : Prop :=
  match dep with
  | Inherited => False
  | Simple old => exists r, new old r /\ get section' k = Some (from_str r)
  | Detailed d =>
      match d_version d with
      | None => get section' k = get section k
      | Some old => exists r (item : Item) table table', new old r /\ get section k = Some item /\ as_table_like item = Some table
          /\ get section' k = Some (put_table item table') /\ as_table_like (put_table item table') = Some table'
          /\ get table' "version" = Some (from_str r) /\ forall key, key <> "version" -> get table' key = get table key
      end
  end.

Definition carried_out (section section' : Table) (k : string) (dep : Dependency) (v : verdict) : Prop :=
  match v with
  | Keep => get section' k = get section k
  | Require new => rewritten_entry section section' k dep new
  | _ => False
  end.

(** The section that is edited has the dependencies that were parsed from it: a string, or a
    table with their keys. *)
Definition agrees (section : Table) (entry : string * Dependency) : Prop :=
  match entry.2 with
  | Inherited => True
  | Simple requirement => get section entry.1 = Some (from_str requirement)
  | Detailed detail =>
      exists (item : Item) table, get section entry.1 = Some item /\ as_table_like item = Some table
        /\ (get table "version" : option Item) = from_str <$> d_version detail
        /\ (get table "package" : option Item) = from_str <$> d_package detail
        /\ (get table "registry" : option Item) = from_str <$> d_registry detail
  end.
End Spec.

(** *** The code does it *)

Lemma version_char_spec c : starts_version c = true <-> c ∈ version_chars.
Proof.
  rewrite list_elem_of_In. unfold version_chars. cbn [String.list_ascii_of_string In].
  destruct c as [[] [] [] [] [] [] [] []]; vm_compute; split; intros H; try done; try tauto; intuition discriminate.
Qed.

Lemma has_char_spec c s : has_char c s = false <-> c ∉ String.list_ascii_of_string s.
Proof.
  induction s as [|c' s IH]; cbn; [split; [intros _; apply not_elem_of_nil|done]|].
  rewrite orb_false_iff, IH, not_elem_of_cons. split; intros [H1 H2]; (split; [|done]).
  - intros ->. by rewrite Ascii.eqb_refl in H1.
  - apply Ascii.eqb_neq. congruence.
Qed.

Lemma no_version_spec s : no_version s = true <-> forall x, x ∈ String.list_ascii_of_string s -> x ∉ version_chars.
Proof.
  induction s as [|c s IH]; cbn; [split; [by intros _ x Hx%elem_of_nil|done]|].
  rewrite andb_true_iff, negb_true_iff, IH, <- not_true_iff_false, version_char_spec. split.
  - intros [Hc Hs] x [->|Hx]%elem_of_cons; auto.
  - intros Hs. split; [apply Hs; by left|]. intros x Hx. apply Hs. by right.
Qed.

Lemma captures_operator old op v : requirement_captures old = Some (op, v) -> operator_of old op.
Proof.
  intros H. pose proof (requirement_captures_spec _ _ _ H) as [Heq Hop]. subst old.
  assert (Hv : exists c rest, v = String c rest /\ starts_version c = true /\ has_char LF rest = false).
  { revert H. clear Hop. generalize (op +:+ v) as s. intros s. revert op. induction s as [|c s IH]; intros op; cbn [requirement_captures]; [done|].
    destruct (starts_version c) eqn:Hc; [destruct (has_char LF s) eqn:Hl; [done|]; intros [= <- <-]; by exists c, s|].
    destruct (requirement_captures s) as [[op' v']|]; [|done]. intros [= _ <-]. by eapply IH. }
  destruct Hv as (c & rest & -> & Hc & Hl). exists c, rest. split; [done|]. rewrite <- version_char_spec, <- has_char_spec.
  split; [done|]. split; [done|]. by apply no_version_spec.
Qed.

Lemma operator_captured old op : operator_of old op -> exists v, requirement_captures old = Some (op, v).
Proof.
  intros (c & rest & -> & Hc%version_char_spec & Hl%has_char_spec & Hop%no_version_spec). exists (String c rest).
  induction op as [|x op IH]; [rewrite app_nil_s; cbn [requirement_captures]; by rewrite Hc, Hl|].
  cbn [no_version] in Hop. apply andb_true_iff in Hop as [Hx Hop]. apply negb_true_iff in Hx.
  rewrite app_cons. cbn [requirement_captures]. by rewrite Hx, IH.
Qed.

Lemma rewrite_swaps expand v old : expands_group expand -> has_char "$" v = false ->
  swapped_version v old (rewrite_requirement expand (SwapBareVersion v) old).
Proof.
  intros Hex Hv. cbn [rewrite_requirement]. destruct (requirement_captures old) as [[op w]|] eqn:E.
  - left. exists op. split; [by eapply captures_operator|]. by apply Hex.
  - right. split; [|done]. intros op (w & Hw)%operator_captured. congruence.
Qed.

Lemma relevant_spec crate : relevant crate = true <-> pgrx_crate crate.
Proof.
  unfold relevant. rewrite existsb_exists. split.
  - intros (p & Hp & ->%bool_decide_eq_true). unfold RELEVANT_PACKAGES in Hp. cbn [In] in Hp. unfold pgrx_crate.
    repeat (destruct Hp as [<-|Hp]; [first [by left|right; eexists; split; [reflexivity|set_solver]]|]). done.
  - intros Hc. exists crate. split; [|by apply bool_decide_eq_true]. unfold RELEVANT_PACKAGES.
    destruct Hc as [->|(part & -> & Hp)]; [by left|]. rewrite !elem_of_cons in Hp.
    repeat (destruct Hp as [->|Hp]; [cbn; tauto|]). by apply elem_of_nil in Hp.
Qed.

Section Refines.
Context {Item Table : Type} {TE : TomlEdit Item Table} {TL : TomlLaws Item Table}.
Context (new_cargo_default : outcome UpgradeError unit) (crate_from_cache : string -> outcome UpgradeError Krate).
Context (expand : string -> string -> string) (Hexpand : expands_group expand).
(** The versions of an index have no dollar sign. *)
Context (Hindex : forall name k, crate_from_cache name = Ok k ->
  has_char "$" (highest_version k).1 = false /\ forall v, highest_normal_version k = Some v -> has_char "$" v = false).

Notation update_one := (update_dependency new_cargo_default crate_from_cache expand).
Notation update_section := (update_manifest_section new_cargo_default crate_from_cache expand).
Notation decides := (decided new_cargo_default crate_from_cache).

Lemma in_workspace_spec (section : Table) k : dependency_inherits_workspace section k = true <-> in_workspace section k.
Proof.
  unfold dependency_inherits_workspace, in_workspace. split.
  - destruct (get section k) as [item|]; [|done]. cbn. destruct (as_table_like item) as [table|] eqn:Ht; [|done]. cbn.
    destruct (get table "workspace") as [flag|] eqn:Hf; [|done]. cbn. destruct (as_bool flag) as [[]|] eqn:Hb; [|done..].
    intros _. by exists item, table, flag.
  - intros (item & table & flag & -> & Ht & Hf & Hb). cbn. rewrite Ht. cbn. rewrite Hf. cbn. by rewrite Hb.
Qed.

Lemma names_crate_spec k dep crate : crate_name_of k dep = Some crate <-> names_crate k dep crate.
Proof.
  split.
  - destruct dep as [r| |d]; cbn; [intros [= <-]; constructor|done|]. destruct (d_package d) as [c|] eqn:E; cbn; intros [= <-]; by constructor.
  - destruct 1 as [r|d E|d c E]; cbn; by rewrite ?E.
Qed.

Lemma strategy_discovers target crate :
  exists v, discovered crate_from_cache crate target v /\
    match v, strategy_for crate_from_cache target crate with
    | Require new, Ok st => forall old, new old (rewrite_requirement expand st old)
    | Fails e, Err e' => e = e'
    | Panics, Panic => True
    | _, _ => False
    end.
Proof.
  destruct target as [| |req]; cbn [strategy_for].
  - destruct (crate_from_cache crate) as [k|e|] eqn:E; cbn; [|exists (Fails e)|exists Panics]; [|by split; [econstructor|]..].
    destruct (Hindex _ _ E) as [Hv _]. destruct (highest_version k) as [v [|]] eqn:Ev.
    + exists (Fails (Yanked v crate)). by split; [econstructor|].
    + exists (Require (swapped_version v)). split; [by econstructor|]. intros old. by apply rewrite_swaps.
  - destruct (crate_from_cache crate) as [k|e|] eqn:E; cbn; [|exists (Fails e)|exists Panics]; [|by split; [econstructor|]..].
    destruct (Hindex _ _ E) as [_ Hv]. destruct (highest_normal_version k) as [v|] eqn:Ev; cbn.
    + exists (Require (swapped_version v)). split; [by econstructor|]. intros old. apply rewrite_swaps; [done|by apply Hv].
    + exists (Fails (NoReleased crate)). by split; [econstructor|].
  - eexists. split; [constructor|]. done.
Qed.

(** The last lines of a turn of the loop. *)
Lemma rewrites_entry (section : Table) k dep st (new : string -> string -> Prop) :
  agrees section (k, dep) -> dep <> Inherited -> (forall old, new old (rewrite_requirement expand st old)) ->
  exists section', match dep with
        | Inherited => Ok section
        | Simple requirement => Ok (insert section k (from_str (rewrite_requirement expand st requirement)))
        | Detailed detail =>
            match d_version detail with
            | None => Ok section
            | Some requirement =>
                item ← unwrap (get section k);
                table ← unwrap (as_table_like item);
                Ok (insert section k
                      (put_table item (insert table "version" (from_str (rewrite_requirement expand st requirement)))))
            end
        end = Ok (E := UpgradeError) section'
    /\ rewritten_entry section section' k dep new /\ forall k', k <> k' -> get section' k' = get section k'.
Proof.
  intros Ha Hdep Hnew. destruct dep as [req| |detail]; cbn [agrees fst snd] in Ha; [|done|].
  - eexists. split; [done|]. split; [|intros k' Hk; by apply get_insert_ne]. cbn. eexists. split; [apply Hnew|]. apply get_insert.
  - destruct Ha as (item & table & Hg & Ht & _). unfold rewritten_entry. destruct (d_version detail) as [req|]; [|by exists section].
    rewrite Hg. cbn [unwrap mbind outcome_bind]. rewrite Ht. cbn [unwrap mbind outcome_bind].
    eexists. split; [done|]. split; [|intros k' Hk; by apply get_insert_ne].
    eexists _, item, table, _. split; [apply Hnew|]. split; [done|]. split; [done|]. split; [apply get_insert|].
    split; [by eapply as_put_table|]. split; [apply get_insert|]. intros key Hkey. by apply get_insert_ne.
Qed.

(** One dependency: the document does what is decided, elsewhere it is as it was. *)
Lemma update_dependency_refines target (section : Table) k dep : agrees section (k, dep) ->
  exists v, decides target section k dep v /\
    match update_one target section (k, dep) with
    | Ok section' => carried_out section section' k dep v /\ forall k', k <> k' -> get section' k' = get section k'
    | Err e => v = Fails e
    | Panic => v = Panics
    end.
Proof.
  intros Ha. unfold update_dependency. destruct (crate_name_of k dep) as [crate|] eqn:Hcr.
  2:{ exists Keep. split; [|done]. apply inherited. by destruct dep. }
  pose proof Hcr as Hn. apply names_crate_spec in Hn. destruct (relevant crate) eqn:Hr; cbn [negb].
  2:{ exists Keep. split; [|done]. eapply other_crate; [done|]. by rewrite <- relevant_spec, Hr. }
  apply relevant_spec in Hr. destruct (dependency_inherits_workspace section k) eqn:Hi.
  { apply in_workspace_spec in Hi. exists Keep. split; [by eapply of_workspace|done]. }
  assert (Hni : ~ in_workspace section k) by (by rewrite <- in_workspace_spec, Hi).
  assert (Ho : open_index new_cargo_default dep = match registry_of dep with Some _ => Panic | None => new_cargo_default end)
    by (by destruct dep). rewrite Ho.
  destruct (registry_of dep) as [r|] eqn:Hreg; [exists Panics; split; [by eapply custom_registry|done]|].
  destruct new_cargo_default as [[]|e|] eqn:Hd; cbn [mbind outcome_bind];
    [|exists (Fails e); split; [by eapply no_index|done]|exists Panics; split; [by eapply index_panics|done]].
  destruct (strategy_discovers target crate) as (v & Hv & Hst). exists v. split; [by eapply by_index|].
  destruct (strategy_for crate_from_cache target crate) as [st|e|]; cbn [mbind outcome_bind]; [|by destruct v; subst..].
  destruct v as [|new| |]; try done.
  destruct (rewrites_entry section k dep st new Ha) as (section' & -> & Hre & Hk); [by intros ->|done|]. done.
Qed.
Lemma agrees_get (s s' : Table) e : get s' e.1 = get s e.1 -> agrees s e -> agrees s' e.
Proof. unfold agrees. by intros ->. Qed.

Lemma decides_get target (s s' : Table) k dep v : get s' k = get s k -> decides target s k dep v -> decides target s' k dep v.
Proof.
  intros H Hd. assert (Hw : in_workspace s' k <-> in_workspace s k) by (unfold in_workspace; by rewrite H).
  destruct Hd; [by eapply inherited|by eapply other_crate|eapply of_workspace; [done|done|by apply Hw]|..]; rewrite <- Hw in *;
    first [by eapply custom_registry|by eapply no_index|by eapply index_panics|by eapply by_index].
Qed.

Lemma carried_out_get (s s' t t' : Table) k dep v :
  get s k = get t k -> get s' k = get t' k -> carried_out s s' k dep v -> carried_out t t' k dep v.
Proof. intros H H'. destruct v; cbn; rewrite ?H, ?H'; try done. unfold rewritten_entry. by rewrite H, H'. Qed.


(** What is decided is decided once. *)
Lemma discovered_unique target crate v w :
  discovered crate_from_cache crate target v -> discovered crate_from_cache crate target w -> v = w.
Proof.
  destruct 1; inversion 1; subst; try congruence; try (exfalso; match goal with H : forall req, Match _ <> Match req |- _ => by eapply H end);
    repeat match goal with H : crate_from_cache _ = Ok ?k, H' : crate_from_cache _ = Ok ?k' |- _ =>
      assert (k = k') by congruence; subst; clear H' end; congruence.
Qed.

Lemma decided_unique target (section : Table) k dep v w : decides target section k dep v -> decides target section k dep w -> v = w.
Proof.
  intros Hv Hw. assert (Hn : forall c c', names_crate k dep c -> names_crate k dep c' -> c = c')
    by (intros c c'; rewrite <- !names_crate_spec; congruence).
  assert (Hin : forall c, names_crate k dep c -> dep <> Inherited) by (destruct 1; done).
  destruct Hv, Hw; try reflexivity;
    try match goal with H : names_crate k dep ?c, H' : names_crate k dep ?c' |- _ => assert (c = c') by (by eapply Hn); subst; clear H' end;
    try contradiction; try congruence; try (exfalso; eapply Hin; eassumption).
  by eapply discovered_unique.
Qed.
End Refines.

(** ** A document, and witnesses *)

(** A document of strings, flags and tables. *)
Inductive Toml := TStr (s : string) | TBool (b : bool) | TTable (entries : list (string * Toml)).

Fixpoint put_entry {A} (k : string) (v : A) (l : list (string * A)) : list (string * A) :=
  match l with
  | [] => [(k, v)]
  | (k', v') :: l => if bool_decide (k = k') then (k, v) :: l else (k', v') :: put_entry k v l
  end.

Fixpoint entry {A} (k : string) (l : list (string * A)) : option A :=
  match l with [] => None | (k', v) :: l => if bool_decide (k = k') then Some v else entry k l end.

#[export] Instance toml_edit : TomlEdit Toml (list (string * Toml)) := {
  get t k := entry k t;
  insert t k i := put_entry k i t;
  as_table_like i := match i with TTable t => Some t | _ => None end;
  put_table i t := match i with TTable _ => TTable t | _ => i end;
  as_bool i := match i with TBool b => Some b | _ => None end;
  from_str := TStr;
}.

Lemma entry_put {A} k (v : A) l : entry k (put_entry k v l) = Some v.
Proof.
  induction l as [|[k' v'] l IH]; cbn [put_entry entry]; [by rewrite bool_decide_true|].
  case_bool_decide; cbn [entry]; [by rewrite bool_decide_true|]. by rewrite bool_decide_false.
Qed.

Lemma entry_put_ne {A} k k' (v : A) l : k <> k' -> entry k' (put_entry k v l) = entry k' l.
Proof.
  intros Hne. induction l as [|[k1 v1] l IH]; cbn [put_entry entry]; [by rewrite bool_decide_false|].
  case_bool_decide; subst; cbn [entry]; [by rewrite !(bool_decide_false (k' = k1))|]. by case_bool_decide.
Qed.

#[export] Instance toml_laws : TomlLaws Toml (list (string * Toml)).
Proof.
  split; [intros; apply entry_put|intros; by apply entry_put_ne| |done]. by intros [] t t'.
Qed.

Definition sample_index (name : string) : outcome UpgradeError Krate :=
  if bool_decide (name = "pgrx-tests") then Err (IndexError "offline")
  else Ok {| highest_version := ("0.18.0-rc.1", false); highest_normal_version := Some "0.17.0" |}.

Definition sample_deps : DepsSet :=
  [("p", Detailed {| d_package := Some "pgrx"; d_registry := None; d_version := Some "=0.16.1" |}); ("pgrx-macros", Simple "0.16.1");
   ("serde", Simple "1.0")].

Definition sample_section : list (string * Toml) :=
  [("serde", TStr "1.0"); ("p", TTable [("version", TStr "=0.16.1"); ("package", TStr "pgrx")]); ("pgrx-macros", TStr "0.16.1")].

Lemma expand_first_ok : expands_group expand_first.
Proof.
  intros v op _. unfold expand_first. rewrite prefix_app. f_equal.
  change (String.substring 0 (String.length v - 0) v = v). rewrite Nat.sub_0_r.
  induction v as [|c v IH]; [done|]. cbn. by rewrite IH.
Qed.

Lemma sample_index_ok name k : sample_index name = Ok k ->
  has_char "$" (highest_version k).1 = false /\ forall v, highest_normal_version k = Some v -> has_char "$" v = false.
Proof. unfold sample_index. case_bool_decide; [done|]. intros [= <-]. split; [done|]. by intros v [= <-]. Qed.


(** ** The manifest that is found *)

Section Found.
Context (is_dir : string -> outcome UpgradeError bool) (from_path : string -> outcome UpgradeError Manifest).
Context (join : string -> string -> string) (parent : string -> option string) (to_lowercase : string -> string).
Notation find := (find_manifest_file is_dir from_path join parent to_lowercase).

Lemma search_members_ok f name dirpath errs dirs v :
  search_members join f name dirpath errs dirs = Some (Ok v) -> exists dir, dir ∈ dirs /\ f (join dirpath dir) = Some (Ok v).
Proof.
  revert errs. induction dirs as [|dir dirs IH]; intros errs; cbn [search_members]; [done|].
  destruct (f (join dirpath dir)) as [[w|e|]|] eqn:Hf; try done.
  - intros [= ->]. exists dir. split; [by left|done].
  - intros (d & Hd & Hv)%IH. exists d. split; [by right|done].
Qed.

(** With more nested calls the answer stays. *)
Lemma search_members_mono f g name dirpath errs dirs r :
  (forall p r, f p = Some r -> g p = Some r) ->
  search_members join f name dirpath errs dirs = Some r -> search_members join g name dirpath errs dirs = Some r.
Proof.
  intros Hfg. revert errs. induction dirs as [|dir dirs IH]; intros errs; cbn [search_members]; [done|].
  destruct (f (join dirpath dir)) as [q|] eqn:Hf; [|done]. rewrite (Hfg _ _ Hf). destruct q; auto.
Qed.

Lemma find_mono fuel fuel' path package r : (fuel <= fuel')%nat -> find fuel path package = Some r -> find fuel' path package = Some r.
Proof.
  revert fuel' path r. induction fuel as [|fuel IH]; intros fuel' path r Hle; [done|].
  destruct fuel' as [|fuel']; [lia|]. cbn [find_manifest_file].
  destruct (manifest_paths _ _ _ path ≫= _) as [[[dir file] input]| |]; [|done..].
  destruct package as [name|]; [|done]. destruct (m_workspace input) as [w|]; [|done].
  apply search_members_mono. intros p q. apply IH. lia.
Qed.

(** The manifest that is found is the package's: with a name, a search returns only a
    file that is a manifest without a workspace, of a package of that name in any case
    of its letters; without one it returns the manifest of the path it was given. *)
Theorem found_manifest_of_package fuel path package file : find fuel path package = Some (Ok file) ->
  match package with
  | None => exists dir, manifest_paths is_dir join parent path = Ok (dir, file)
  | Some name => exists m p, from_path file = Ok m /\ m_workspace m = None /\ m_package m = Some p
                             /\ to_lowercase p = to_lowercase name
  end.
Proof.
  revert path. induction fuel as [|fuel IH]; intros path; [done|]. cbn [find_manifest_file].
  destruct (manifest_paths is_dir join parent path) as [[dir f]| |]; cbn [mbind outcome_bind]; [|done..].
  destruct (from_path (dir, f).2) as [input| |] eqn:Hm; cbn [mbind outcome_bind]; [|done..]. cbn [snd] in Hm.
  destruct package as [name|]; [|intros [= <-]; by exists dir].
  destruct (m_workspace input) as [w|] eqn:Hw.
  - intros (d & _ & Hd)%search_members_ok. exact (IH _ Hd).
  - destruct (m_package input) as [p|] eqn:Hp; [|done]. case_bool_decide as Hl; [|done]. intros [= <-]. by exists input, p.
Qed.

Lemma search_members_some f name dirpath errs dirs : (forall d, d ∈ dirs -> is_Some (f (join dirpath d))) ->
  is_Some (search_members join f name dirpath errs dirs).
Proof.
  intros Hf. revert errs. induction dirs as [|d ds IH]; intros errs; cbn [search_members]; [by eexists|].
  destruct (Hf d ltac:(by left)) as [[v|e|] ->]; [by eexists| |by eexists]. apply IH. intros d' Hd'. apply Hf. by right.
Qed.

Lemma find_package fuel path name : (1 <= fuel)%nat ->
  (forall p m, manifest_paths is_dir join parent path = Ok p -> from_path p.2 = Ok m -> m_workspace m = None) ->
  is_Some (find fuel path (Some name)).
Proof.
  intros Hf Hw. destruct fuel as [|fuel]; [lia|]. cbn [find_manifest_file].
  destruct (manifest_paths is_dir join parent path) as [[d f]| |]; cbn [mbind outcome_bind]; [|by eexists..].
  destruct (from_path (d, f).2) as [m| |] eqn:Hm; cbn [mbind outcome_bind]; [|by eexists..].
  rewrite (Hw _ m eq_refl Hm). destruct (m_package m); [case_bool_decide|]; by eexists.
Qed.

(** In a workspace whose members are packages the search ends, after one nested call. *)
Theorem search_of_workspace_ends path name dir file input w :
  manifest_paths is_dir join parent path = Ok (dir, file) -> from_path file = Ok input -> m_workspace input = Some w ->
  (forall d p m, d ∈ members w -> manifest_paths is_dir join parent (join dir d) = Ok p -> from_path p.2 = Ok m -> m_workspace m = None) ->
  exists r, find 2 path (Some name) = Some r /\ forall fuel, (2 <= fuel)%nat -> find fuel path (Some name) = Some r.
Proof.
  intros Hp Hm Hw Hflat. assert (is_Some (find 2 path (Some name))) as [r Hr].
  { cbn [find_manifest_file]. rewrite Hp. cbn [mbind outcome_bind snd]. rewrite Hm. cbn [mbind outcome_bind]. rewrite Hw.
    apply search_members_some. intros d Hd. apply (find_package 1); [lia|]. intros p m. by apply Hflat. }
  exists r. split; [done|]. intros fuel Hle. by apply (find_mono 2).
Qed.
End Found.

(** *** Workspaces whose root is a package *)

Definition root_manifest (ms : list string) : Manifest :=
  {| m_package := Some "ext"; m_workspace := Some {| members := ms; ws_dependencies := [] |}; dependencies := []; dev_dependencies := [] |}.

Definition join_path (dir rel : string) : string := dir +:+ "/" +:+ rel.

Lemma found_manifest_of_package_witness :
  exists m p, (fun _ => Ok {| m_package := Some "ext"; m_workspace := None; dependencies := []; dev_dependencies := [] |}
                : outcome UpgradeError Manifest) "/w/Cargo.toml" = Ok m
    /\ m_workspace m = None /\ m_package m = Some p /\ (fun s => s) p = (fun s => s) "ext".
Proof.
  apply (found_manifest_of_package (fun _ => Ok true)
    (fun _ => Ok {| m_package := Some "ext"; m_workspace := None; dependencies := []; dev_dependencies := [] |})
    join_path (fun _ => None) (fun s => s) 1 "/w" (Some "ext") "/w/Cargo.toml").
  vm_compute. done.
Defined.

Lemma search_of_workspace_ends_witness :
  exists r, find_manifest_file (fun _ => Ok true) (fun _ => Ok (root_manifest [])) join_path (fun _ => None) (fun s => s) 2 "/w" (Some "ext") = Some r
  /\ forall fuel, (2 <= fuel)%nat ->
       find_manifest_file (fun _ => Ok true) (fun _ => Ok (root_manifest [])) join_path (fun _ => None) (fun s => s) fuel "/w" (Some "ext") = Some r.
Proof.
  apply (search_of_workspace_ends _ _ _ _ _ "/w" "ext" "/w" "/w/Cargo.toml" (root_manifest []) {| members := []; ws_dependencies := [] |}).
  - done.
  - done.
  - done.
  - intros d p m Hd. by apply elem_of_nil in Hd.
Defined.

(** The package of a workspace's own manifest is not found: only members are asked. *)
Example root_package_not_found :
  find_manifest_file (fun _ => Ok true) (fun _ => Ok (root_manifest [])) join_path (fun _ => None) (fun s => s) 2 "/w" (Some "ext")
  = Some (Err (NoPackageInWorkspace "ext" [])).
Proof. done. Qed.

(** A workspace that names its own root as a member, as Cargo allows, is searched without
    end: the paths [root] are those of its directory, under each of which its manifest
    is read. *)
Lemma own_member_never_ends (root : string -> Prop) from_path join parent to_lowercase fuel path name :
  (forall p, root p -> root (join p ".") /\ from_path (join p "Cargo.toml") = Ok (root_manifest ["."])) -> root path ->
  find_manifest_file (fun _ => Ok true) from_path join parent to_lowercase fuel path (Some name) = None.
Proof.
  intros Hr. revert path. induction fuel as [|fuel IH]; intros path Hp; [done|]. cbn [find_manifest_file].
  destruct (Hr path Hp) as [Hj Hm]. unfold manifest_paths. cbn [mbind outcome_bind snd]. rewrite Hm.
  cbn [mbind outcome_bind m_workspace root_manifest members search_members]. by rewrite IH.
Qed.
