(* ===== verification/DatumConv.v ===== *)
(** * Values and datums

    [IntoDatum], [FromDatum] and [UnboxDatum] for the plain types
    ([pgrx/src/datum/{into,from,unbox,uuid}.rs], [pgrx-pg-sys/src/submodules/datum.rs]), on a
    64-bit target.  The Rust types that implement them are the constructors of [ty]; [denote]
    is what a value of each is.  A datum is 64 bits, a value or an address; memory is a map
    from the addresses of chunks to their bytes.  [palloc], detoasting and the encoding of the
    database are Postgres'. *)
From stdpp Require Import base gmap list strings.
From S2P Require Import Prelude Memory Varlena.
#[local] Open Scope Z_scope.
#[local] Open Scope ending_scope.

(** ** Types and values *)

Inductive ty :=
| TBool | TI8 | TI16 | TI32 | TI64 | TF32 | TF64 | TOid | TXid | TDatum | TUnit
| TBytes | TStr | TString | TChar | TCStr | TUuid.

#[export] Instance ty_eq_dec : EqDecision ty.
Proof. solve_decision. Defined.

(** Integers by their value, floats by their bits, a [char] by its scalar value, a [CStr]
    without its final nul. *)
Definition denote (t : ty) : Type :=
  match t with
  | TBool => bool
  | TI8 | TI16 | TI32 | TI64 | TF32 | TF64 | TOid | TXid | TDatum | TChar => Z
  | TUnit => unit
  | TBytes | TCStr | TUuid => bytes
  | TStr | TString => string
  end.

Notation heap := (gmap Z bytes).

(** ** Oids of types *)

Definition BOOLOID := 16.
Definition BYTEAOID := 17.
Definition CHAROID := 18.
Definition INT8OID := 20.
Definition INT2OID := 21.
Definition INT4OID := 23.
Definition TEXTOID := 25.
Definition OIDOID := 26.
Definition XIDOID := 28.
Definition FLOAT4OID := 700.
Definition FLOAT8OID := 701.
Definition VARCHAROID := 1043.
Definition RECORDOID := 2249.
Definition CSTRINGOID := 2275.
Definition VOIDOID := 2278.
Definition UUIDOID := 2950.

Definition type_oid (t : ty) : Z :=
  match t with
  | TBool => BOOLOID
  | TI8 => CHAROID
  | TI16 => INT2OID
  | TI32 => INT4OID
  | TI64 => INT8OID
  | TF32 => FLOAT4OID
  | TF64 => FLOAT8OID
  | TOid => OIDOID
  | TXid => XIDOID
  | TDatum => INT8OID
  | TUnit => VOIDOID
  | TBytes => BYTEAOID
  | TStr | TString => TEXTOID
  | TChar => VARCHAROID
  | TCStr => CSTRINGOID
  | TUuid => UUIDOID
  end.

Definition is_compatible_with (t : ty) (other : Z) : bool :=
  match t with
  | TI16 => (type_oid TI16 =? other) || (type_oid TI8 =? other)
  | TI32 => (type_oid TI32 =? other) || (type_oid TI8 =? other) || (type_oid TI16 =? other)
  | TI64 =>
      (type_oid TI64 =? other) || (type_oid TI8 =? other) || (type_oid TI16 =? other) || (type_oid TI32 =? other)
      || (type_oid TI64 =? other)
  | TStr | TString | TChar => (type_oid t =? other) || (other =? VARCHAROID)
  | _ => type_oid t =? other
  end.

(** [Option<T>]: the oid of [T], and the default of [is_compatible_with]. *)
Definition option_type_oid (t : ty) : Z := type_oid t.
Definition option_is_compatible_with (t : ty) (other : Z) : bool := option_type_oid t =? other.

(** ** Characters *)

Definition u8_of (z : Z) : byte := u8_of_Z z.

(** [char::encode_utf8] *)
Definition encode_utf8 (c : Z) : bytes :=
  if c <? 0x80 then [u8_of c]
  else if c <? 0x800 then [u8_of (Z.lor 0xC0 (Z.land (Z.shiftr c 6) 0x1F)); u8_of (Z.lor 0x80 (Z.land c 0x3F))]
  else if c <? 0x10000 then
    [u8_of (Z.lor 0xE0 (Z.land (Z.shiftr c 12) 0x0F)); u8_of (Z.lor 0x80 (Z.land (Z.shiftr c 6) 0x3F));
     u8_of (Z.lor 0x80 (Z.land c 0x3F))]
  else
    [u8_of (Z.lor 0xF0 (Z.land (Z.shiftr c 18) 0x07)); u8_of (Z.lor 0x80 (Z.land (Z.shiftr c 12) 0x3F));
     u8_of (Z.lor 0x80 (Z.land (Z.shiftr c 6) 0x3F)); u8_of (Z.lor 0x80 (Z.land c 0x3F))].

(** [str::chars().next()], on valid UTF-8. *)
Definition next_char (bs : bytes) : option Z :=
  let lo b := Z.land (u8_to_Z b) 0x3F in
  match bs with
  | [] => None
  | x :: bs =>
      let x := u8_to_Z x in
      if x <? 0x80 then Some x
      else
        let init := Z.land x 0x1F in
        match bs with
        | [] => None
        | y :: bs =>
            if x <? 0xE0 then Some (Z.lor (Z.shiftl init 6) (lo y))
            else match bs with
            | [] => None
            | z :: bs =>
                let y_z := Z.lor (Z.shiftl (lo y) 6) (lo z) in
                if x <? 0xF0 then Some (Z.lor (Z.shiftl init 12) y_z)
                else match bs with
                | [] => None
                | w :: _ => Some (Z.lor (Z.shiftl (Z.land init 7) 18) (Z.lor (Z.shiftl y_z 6) (lo w)))
                end
            end
        end
  end.

(** ** Encodings *)

Inductive Utf8Compat := Yes | Maybe | Ascii.

Definition PG_SQL_ASCII := 0.
Definition PG_UTF8 := 6.
Definition PG_SJIS := 35.
Definition PG_BIG5 := 36.
Definition PG_JOHAB := 40.
Definition PG_SHIFT_JIS_2004 := 41.

Definition UTF8DATABASE (encoding : Z) : ending Utf8Compat :=
  if encoding =? PG_UTF8 then Returned Yes
  else if encoding =? PG_SQL_ASCII then Returned Maybe
  else if (encoding =? PG_SJIS) || (encoding =? PG_SHIFT_JIS_2004) || (encoding =? PG_BIG5) || (encoding =? PG_JOHAB)
  then Panicked "impossible? unsupported non-ASCII-compatible database encoding is not a server encoding"
  else if (1 <=? encoding) && (encoding <=? 41) then Returned Ascii
  else Returned Maybe.

Definition is_ascii (bs : bytes) : bool := forallb (fun b => u8_to_Z b <? 0x80) bs.

(** ** Postgres *)

(** [palloc]: an address and what the new chunk holds; detoasting: a heap with a varlena
    that is neither compressed nor elsewhere. *)
Class Server := {
  palloc : heap -> Z -> Z * bytes;
  pg_detoast_datum_packed : heap -> Z -> ending (heap * Z);
}.

Section Conversions.
Context (e : endian) (overflow_checks : bool) (compat : Utf8Compat) `{Server}.

(** *** Into a datum *)

(** [Datum::from] of an integer: sign-extended, or zero-extended for one without a sign. *)
Definition Datum_from (z : Z) : Z := z mod 2 ^ 64.

Definition alloc (h : heap) (len : Z) : heap * Z := let '(p, bs) := palloc h len in (<[p := bs]> h, p).

(** Writes through a pointer to the start of a chunk. *)
Definition at_chunk (h : heap) (p : Z) (f : bytes -> ending bytes) : ending heap :=
  m <~~ defined (h !! p) ;; m <~~ f m ;; Returned (<[p := m]> h).

Definition bytes_into_datum (h : heap) (s : bytes) : ending (heap * option Z) :=
  let len := Z.min (Z.of_nat (length s) + VARHDRSZ) (2 ^ 64 - 1) in
  eassert (len <? Z.shiftr (2 ^ 32 - 1) 2) "assertion failed: len < (u32::MAX as usize >> 2)"
    (let '(h, varlena) := alloc h len in
     h <~~ at_chunk h varlena (fun m => set_varsize_4b e m 0 (as_signed 32 (len mod 2 ^ 32))) ;;
     h <~~ at_chunk h varlena (fun m => write_bytes m 4 s) ;;
     Returned (h, Some varlena)).

Definition cstr_into_datum (h : heap) (s : bytes) : ending (heap * option Z) :=
  let src := s ++ [x00] in
  let '(h, dst) := alloc h (Z.of_nat (length src)) in
  h <~~ at_chunk h dst (fun m => write_bytes m 0 src) ;;
  Returned (h, Some dst).

Definition uuid_into_datum (h : heap) (s : bytes) : ending (heap * option Z) :=
  let '(h, ptr) := alloc h 16 in
  h <~~ at_chunk h ptr (fun m => eassert (length s =? length m)%nat "destination and source slices have different lengths" (Returned s)) ;;
  Returned (h, Some ptr).

Definition into_datum (t : ty) (h : heap) : denote t -> ending (heap * option Z) :=
  match t return denote t -> ending (heap * option Z) with
  | TBool => fun b => Returned (h, Some (Datum_from (if b then 1 else 0)))
  | TI8 | TI16 | TI32 | TI64 => fun v => Returned (h, Some (Datum_from v))
  | TF32 | TF64 => fun bits => Returned (h, Some (Datum_from bits))
  | TOid | TXid => fun v => Returned (h, if v =? 0 then None else Some (Datum_from v))
  | TDatum => fun v => Returned (h, Some v)
  | TUnit => fun _ => Returned (h, Some (Datum_from 0))
  | TBytes => bytes_into_datum h
  | TStr | TString => fun s => bytes_into_datum h (as_bytes s)
  | TChar => fun c => bytes_into_datum h (encode_utf8 c)
  | TCStr => cstr_into_datum h
  | TUuid => uuid_into_datum h
  end.

Definition option_into_datum (t : ty) (h : heap) (v : option (denote t)) : ending (heap * option Z) :=
  match v with Some v => into_datum t h v | None => Returned (h, None) end.

(** *** From a datum *)

Definition convert_varlena_to_str_memoized (m : bytes) : ending string :=
  match compat with
  | Yes => text_to_rust_str_unchecked e overflow_checks m 0
  | Maybe =>
      s <~~ text_to_rust_str e overflow_checks m 0 ;;
      expect "datums converted to &str should be valid UTF-8" s
  | Ascii =>
      bs <~~ varlena_to_byte_slice e overflow_checks m 0 ;;
      if is_ascii bs then Returned (of_bytes bs)
      else Panicked "datums converted to &str should be valid UTF-8, database encoding is only UTF-8 compatible for ASCII"
  end.

Definition str_from_datum (h : heap) (d : Z) (is_null : bool) : ending (heap * option string) :=
  if is_null || (d =? 0) then Returned (h, None)
  else
    r <~~ pg_detoast_datum_packed h d ;;
    m <~~ defined (r.1 !! r.2) ;;
    s <~~ convert_varlena_to_str_memoized m ;;
    Returned (r.1, Some s).

(** The detoasted copy is freed where there is one. *)
Definition string_from_datum (h : heap) (d : Z) (is_null : bool) : ending (heap * option string) :=
  if is_null || (d =? 0) then Returned (h, None)
  else
    r <~~ pg_detoast_datum_packed h d ;;
    m <~~ defined (r.1 !! r.2) ;;
    s <~~ convert_varlena_to_str_memoized m ;;
    original <~~ defined (r.1 !! d) ;;
    external <~~ varatt_is_1b_e e original 0 ;;
    toasted <~~ (if external : bool then Returned true else varatt_is_4b_c e original 0) ;;
    Returned (if toasted : bool then delete r.2 r.1 else r.1, Some s).

Definition bytes_from_datum (h : heap) (d : Z) (is_null : bool) : ending (heap * option bytes) :=
  if is_null || (d =? 0) then Returned (h, None)
  else
    r <~~ pg_detoast_datum_packed h d ;;
    m <~~ defined (r.1 !! r.2) ;;
    bs <~~ varlena_to_byte_slice e overflow_checks m 0 ;;
    Returned (r.1, Some bs).

(** [CStr::from_ptr]: the bytes before the first nul. *)
Fixpoint cstr_at (m : bytes) : ending bytes :=
  match m with
  | [] => Undefined
  | b :: m => if bool_decide (b = x00) then Returned [] else bs <~~ cstr_at m ;; Returned (b :: bs)
  end.

Definition scalar {A} (h : heap) (is_null : bool) (v : A) : ending (heap * option A) :=
  Returned (h, if is_null then None else Some v).

Definition from_datum (t : ty) (h : heap) (d : Z) (is_null : bool) : ending (heap * option (denote t)) :=
  match t return ending (heap * option (denote t)) with
  | TBool => scalar h is_null (negb (d =? 0))
  | TI8 => scalar h is_null (as_signed 8 (d mod 2 ^ 8))
  | TI16 => scalar h is_null (as_signed 16 (d mod 2 ^ 16))
  | TI32 => scalar h is_null (as_signed 32 (d mod 2 ^ 32))
  | TI64 => scalar h is_null (as_signed 64 (d mod 2 ^ 64))
  | TF32 => scalar h is_null (d mod 2 ^ 32)
  | TF64 => scalar h is_null (d mod 2 ^ 64)
  | TOid => scalar h is_null (d mod 2 ^ 32)
  | TXid => Returned (h, if is_null then None else if d <? 2 ^ 32 then Some d else None)
  | TDatum => scalar h is_null d
  | TUnit => Returned (h, Some tt)
  | TBytes => bytes_from_datum h d is_null
  | TStr => str_from_datum h d is_null
  | TString => string_from_datum h d is_null
  | TChar => r <~~ str_from_datum h d is_null ;; Returned (r.1, s ← r.2; next_char (as_bytes s))
  | TCStr =>
      if is_null || (d =? 0) then Returned (h, None)
      else m <~~ defined (h !! d) ;; bs <~~ cstr_at m ;; Returned (h, Some bs)
  | TUuid =>
      if is_null then Returned (h, None)
      else m <~~ defined (h !! d) ;; bs <~~ read_bytes m 0 16 ;; Returned (h, Some bs)
  end.

(** [u32], which is not [IntoDatum]. *)
Definition u32_from_datum (d : Z) (is_null : bool) : option Z := if is_null then None else Some (d mod 2 ^ 32).

(** What a caller does with an [Option<Datum>]. *)
Definition read_option (t : ty) (h : heap) (d : option Z) : ending (heap * option (denote t)) :=
  from_datum t h (default 0 d) (match d with None => true | Some _ => false end).

(** *** Unboxing *)

(** No check for null, and no detoasting; the types that have none are [None]. *)
Definition unbox (t : ty) : option (heap -> Z -> ending (denote t)) :=
  match t return option (heap -> Z -> ending (denote t)) with
  | TI8 => Some (fun _ d => Returned (as_signed 8 (d mod 2 ^ 8)))
  | TI16 => Some (fun _ d => Returned (as_signed 16 (d mod 2 ^ 16)))
  | TI32 => Some (fun _ d => Returned (as_signed 32 (d mod 2 ^ 32)))
  | TI64 => Some (fun _ d => Returned (as_signed 64 (d mod 2 ^ 64)))
  | TBool => Some (fun _ d => Returned (negb (d =? 0)))
  | TF32 => Some (fun _ d => Returned (d mod 2 ^ 32))
  | TF64 => Some (fun _ d => Returned (d mod 2 ^ 64))
  | TStr | TString => Some (fun h d => m <~~ defined (h !! d) ;; text_to_rust_str_unchecked e overflow_checks m 0)
  | TCStr => Some (fun h d => m <~~ defined (h !! d) ;; cstr_at m)
  | TBytes => Some (fun h d => m <~~ defined (h !! d) ;; varlena_to_byte_slice e overflow_checks m 0)
  | TOid => Some (fun _ d => Returned (d mod 2 ^ 32))
  | TDatum => Some (fun _ d => Returned d)
  | TUuid => Some (fun h d => m <~~ defined (h !! d) ;; read_bytes m 0 16)
  | TChar => Some (fun h d => r <~~ from_datum TChar h d false ;; expect "called `Option::unwrap()` on a `None` value" r.2)
  | TXid | TUnit => None
  end.
End Conversions.

(** ** Characters are read as they were written *)

Definition is_char (c : Z) : bool := ((0 <=? c) && (c <? 0xD800)) || ((0xE000 <=? c) && (c <=? 0x10FFFF)).

Lemma lor_shiftl hi lo k : 0 <= k -> 0 <= lo < 2 ^ k -> Z.lor (Z.shiftl hi k) lo = hi * 2 ^ k + lo.
Proof.
  intros Hk Hlo. rewrite <- Z.shiftl_mul_pow2 by done. pose proof (Z.add_lor_land (Z.shiftl hi k) lo) as Ha.
  assert (Z.land (Z.shiftl hi k) lo = 0) as H0; [|lia]. apply Z.bits_inj'. intros n Hn.
  rewrite Z.land_spec, Z.bits_0. destruct (Z.lt_ge_cases n k); [by rewrite Z.shiftl_spec_low|].
  rewrite <- (Z.mod_small lo (2 ^ k)) by done. rewrite Z.mod_pow2_bits_high by lia. apply andb_false_r.
Qed.

Lemma land_low x k : 0 <= k -> Z.land x (Z.ones k) = x mod 2 ^ k.
Proof. apply Z.land_ones. Qed.

(** The bytes, by division. *)
Lemma encode_utf8_div c : 0 <= c ->
  encode_utf8 c =
  if c <? 0x80 then map u8_of [c]
  else if c <? 0x800 then map u8_of [192 + c / 64 mod 32; 128 + c mod 64]
  else if c <? 0x10000 then map u8_of [224 + c / 4096 mod 16; 128 + c / 64 mod 64; 128 + c mod 64]
  else map u8_of [240 + c / 262144 mod 8; 128 + c / 4096 mod 64; 128 + c / 64 mod 64; 128 + c mod 64].
Proof.
  intros Hc. unfold encode_utf8.
  change 0x3F with (Z.ones 6). change 0x1F with (Z.ones 5). change 0x0F with (Z.ones 4). change 0x07 with (Z.ones 3).
  rewrite !land_low, !Z.shiftr_div_pow2 by lia.
  change 0xC0 with (Z.shiftl 6 5). change 0x80 with (Z.shiftl 2 6) at 2 3 4 5 6 7. change 0xE0 with (Z.shiftl 14 4).
  change 0xF0 with (Z.shiftl 30 3).
  rewrite !lor_shiftl by (try apply Z.mod_pos_bound; lia). done.
Qed.

Ltac divmod := Z.to_euclidean_division_equations; lia.

(** The digits of a scalar value, and a digit read from its byte. *)
Lemma char_digits c : 0 <= c <= 0x10FFFF ->
  exists a3 a2 a1 a0, 0 <= a3 < 8 /\ 0 <= a2 < 64 /\ 0 <= a1 < 64 /\ 0 <= a0 < 64
  /\ c = a3 * 262144 + a2 * 4096 + a1 * 64 + a0
  /\ c mod 64 = a0 /\ c / 64 mod 64 = a1 /\ c / 4096 mod 64 = a2 /\ c / 262144 mod 8 = a3
  /\ c / 64 mod 32 = a1 mod 32 /\ c / 4096 mod 16 = a2 mod 16.
Proof.
  intros Hc. exists (c / 262144), (c / 4096 mod 64), (c / 64 mod 64), (c mod 64).
  assert (H1 : c / 4096 = c / 64 / 64) by (by rewrite Z.div_div). assert (H2 : c / 262144 = c / 64 / 64 / 64) by (by rewrite !Z.div_div).
  rewrite H1, H2. split_and!; divmod.
Qed.

Lemma digit_read k base a : 0 <= k -> 0 <= a < 2 ^ k -> base mod 2 ^ k = 0 -> (base + a) mod 2 ^ k = a.
Proof. intros Hk Ha Hb. rewrite Z.add_mod, Hb, Z.add_0_l, Z.mod_mod, Z.mod_small by lia. done. Qed.

(** Decides the comparisons of the goal. *)
Ltac decide_ltb :=
  repeat match goal with |- context [if ?a <? ?b then _ else _] =>
    first [replace (a <? b) with true by lia | replace (a <? b) with false by lia]; cbv iota
  end.

Ltac digits :=
  change 0x3F with (Z.ones 6); change 0x1F with (Z.ones 5); rewrite ?(Z.land_ones _ 6), ?(Z.land_ones _ 5) by lia;
  rewrite ?(digit_read 6) by (done || lia).

Lemma next_char_encode c rest : is_char c = true -> next_char (encode_utf8 c ++ rest) = Some c.
Proof.
  unfold is_char. intros Hc. assert (Hr : 0 <= c <= 0x10FFFF) by lia. clear Hc. rewrite encode_utf8_div by lia.
  destruct (char_digits c Hr) as (a3 & a2 & a1 & a0 & H3 & H2 & H1 & H0 & Hc & -> & -> & -> & -> & -> & ->).
  destruct (c <? 0x80) eqn:E1; [|destruct (c <? 0x800) eqn:E2; [|destruct (c <? 0x10000) eqn:E3]]; cbn [map app];
    unfold next_char, u8_of; rewrite !u8_to_of_Z; cbv zeta.
  - rewrite Z.mod_small by lia. decide_ltb. done.
  - rewrite (Z.mod_small a1) by lia. rewrite !(Z.mod_small (_ + _)) by lia. decide_ltb. digits.
    rewrite (digit_read 5), lor_shiftl by (done || lia). f_equal. lia.
  - rewrite (Z.mod_small a2) by lia. rewrite !(Z.mod_small (_ + _)) by lia. decide_ltb. digits.
    rewrite (digit_read 5), (lor_shiftl a1 a0), lor_shiftl by (done || lia). f_equal. lia.
  - rewrite !(Z.mod_small (_ + _)) by lia. decide_ltb. digits.
    replace ((240 + a3) mod 2 ^ 5) with (16 + a3) by divmod. change 7 with (Z.ones 3). rewrite (Z.land_ones _ 3) by lia.
    rewrite (digit_read 3), (lor_shiftl a2 a1), (lor_shiftl (_ + _) a0), lor_shiftl by (done || lia). f_equal. lia.
Qed.

Lemma encode_utf8_valid c : is_char c = true -> utf8_valid (encode_utf8 c) = true.
Proof.
  unfold is_char. intros Hs. assert (Hr : 0 <= c <= 0x10FFFF) by lia. rewrite encode_utf8_div by lia.
  destruct (char_digits c Hr) as (a3 & a2 & a1 & a0 & H3 & H2 & H1 & H0 & Hc & -> & -> & -> & -> & -> & ->).
  destruct (c <? 0x80) eqn:E1; [|destruct (c <? 0x800) eqn:E2; [|destruct (c <? 0x10000) eqn:E3]]; cbn [map utf8_valid];
    unfold u8_of, utf8_cont, utf8_second3, utf8_second4, in_range; rewrite !u8_to_of_Z.
  - rewrite Z.mod_small by lia. decide_ltb. done.
  - rewrite (Z.mod_small a1) by lia. rewrite !(Z.mod_small (_ + _)) by lia. decide_ltb.
    case_match; lia.
  - rewrite (Z.mod_small a2) by lia. rewrite !(Z.mod_small (_ + _)) by lia. decide_ltb.
    repeat case_match; lia.
  - rewrite !(Z.mod_small (_ + _)) by lia. decide_ltb. repeat case_match; lia.
Qed.

(** ** What is written is read *)

(** Postgres: a new chunk has an address of its own, which is not null, and the size that
    was asked for (memory does not run out); a varlena that is whole and not compressed is
    detoasted to itself. *)
Class ServerLaws (e : endian) `{Server} := {
  palloc_fresh : forall h n, h !! (palloc h n).1 = None;
  palloc_addr : forall h n, 0 < (palloc h n).1;
  palloc_length : forall h n, 0 <= n -> length (palloc h n).2 = Z.to_nat n;
  detoast_plain : forall h p m, h !! p = Some m -> varatt_is_4b_u e m 0 = Returned true ->
    pg_detoast_datum_packed h p = Returned (h, p);
}.

Definition fits (bits v : Z) : bool := (- 2 ^ (bits - 1) <=? v) && (v <? 2 ^ (bits - 1)).
Definition ufits (bits v : Z) : bool := (0 <=? v) && (v <? 2 ^ bits).
Definition short (bs : bytes) : bool := Z.of_nat (length bs) + VARHDRSZ <? 2 ^ 30 - 1.

(** The values of a Rust type; a text is short enough for a varlena. *)
Definition wf (t : ty) : denote t -> bool :=
  match t return denote t -> bool with
  | TBool | TUnit => fun _ => true
  | TI8 => fits 8
  | TI16 => fits 16
  | TI32 => fits 32
  | TI64 => fits 64
  | TF32 | TOid | TXid => ufits 32
  | TF64 | TDatum => ufits 64
  | TChar => is_char
  | TBytes => short
  | TStr | TString => fun s => utf8_valid (as_bytes s) && short (as_bytes s)
  | TCStr => fun bs => forallb (fun b => negb (bool_decide (b = x00))) bs
  | TUuid => fun bs => (length bs =? 16)%nat
  end.

(** A value that is written as [NULL]. *)
Definition written_null (t : ty) : denote t -> bool :=
  match t return denote t -> bool with
  | TOid | TXid => fun v => v =? 0
  | _ => fun _ => false
  end.

(** The bytes that are written for a text, and whether the database's encoding lets them be read. *)
Definition text_of (t : ty) : denote t -> bytes :=
  match t return denote t -> bytes with
  | TStr | TString => as_bytes
  | TChar => encode_utf8
  | _ => fun _ => []
  end.

Definition in_encoding (compat : Utf8Compat) (bs : bytes) : bool := match compat with Ascii => is_ascii bs | _ => true end.

(** A value of one type as a value of another that reads it. *)
Definition cast (u t : ty) : denote u -> option (denote t) :=
  match u, t return denote u -> option (denote t) with
  | TBool, TBool => Some
  | (TI8 | TI16 | TI32 | TI64), (TI8 | TI16 | TI32 | TI64) => Some
  | TI64, TDatum => fun v => Some (v mod 2 ^ 64)
  | TDatum, TI64 => fun v => Some (as_signed 64 v)
  | TF32, TF32 | TF64, TF64 | TOid, TOid | TXid, TXid | TDatum, TDatum | TChar, TChar => Some
  | TUnit, TUnit => Some
  | TBytes, TBytes | TCStr, TCStr | TUuid, TUuid => Some
  | (TStr | TString), (TStr | TString) => Some
  | TChar, (TStr | TString) => fun c => Some (of_bytes (encode_utf8 c))
  | _, _ => fun _ => None
  end.

Section RoundTrip.
Context (e : endian) (oc : bool) (compat : Utf8Compat) `{ServerLaws e}.

Definition plain (bs : bytes) : bytes := ne_bytes e 4 (encode_vlen_4b e (Z.of_nat (length bs) + VARHDRSZ)) ++ bs.

Lemma alloc_spec (h : heap) n : 0 <= n ->
  exists p bs, alloc h n = (<[p := bs]> h, p) /\ h !! p = None /\ 0 < p /\ length bs = Z.to_nat n.
Proof.
  intros Hn. unfold alloc. pose proof (palloc_fresh h n). pose proof (palloc_addr h n). pose proof (palloc_length h n Hn).
  destruct (palloc h n) as [p bs]. by exists p, bs.
Qed.

Lemma at_chunk_ok (h : heap) p m f m' : h !! p = Some m -> f m = Returned m' -> at_chunk h p f = Returned (<[p := m']> h).
Proof. intros Hm Hf. unfold at_chunk. rewrite Hm. cbn. by rewrite Hf. Qed.

Lemma write_bytes_eq m (p : nat) bs : (p + length bs <= length m)%nat ->
  write_bytes m (Z.of_nat p) bs = Returned (take p m ++ bs ++ drop (p + length bs) m).
Proof.
  intros Hl. unfold write_bytes. rewrite (proj2 (Z.leb_le 0 _)), (proj2 (Z.leb_le _ _)) by lia. cbn [andb]. by rewrite Nat2Z.id.
Qed.

Lemma write_all m bs : length bs = length m -> write_bytes m 0 bs = Returned bs.
Proof.
  intros Hl. rewrite (write_bytes_eq m 0) by lia. rewrite take_0, app_nil_l, drop_ge, app_nil_r by lia. done.
Qed.

Lemma bytes_into_spec (h : heap) bs : short bs = true ->
  exists p, bytes_into_datum e h bs = Returned (<[p := plain bs]> h, Some p) /\ h !! p = None /\ 0 < p.
Proof.
  unfold short, VARHDRSZ. intros Hs. unfold bytes_into_datum, VARHDRSZ.
  set (n := Z.of_nat (length bs) + 4) in *. rewrite Z.min_l by lia. unfold eassert.
  replace (n <? Z.shiftr _ _) with true by (change (Z.shiftr (2 ^ 32 - 1) 2) with (2 ^ 30 - 1); lia).
  destruct (alloc_spec h n ltac:(lia)) as (p & m & -> & Hp & Ha & Hl). exists p. split; [|done].
  rewrite as_signed_small by lia.
  set (hd := ne_bytes e 4 (encode_vlen_4b e n)). assert (Hhd : length hd = 4%nat) by apply length_ne_bytes.
  rewrite (at_chunk_ok _ p m _ (hd ++ drop 4 m)).
  2: by rewrite lookup_insert_eq.
  2: { unfold set_varsize_4b. fold hd. change (0 mod 4 =? 0) with true. cbv iota. rewrite (write_bytes_eq m 0) by lia. by rewrite Hhd. }
  cbn [ebind]. rewrite (at_chunk_ok _ p (hd ++ drop 4 m) _ (hd ++ bs)).
  2: by rewrite lookup_insert_eq.
  2: { rewrite (write_bytes_eq _ 4) by (rewrite length_app, length_drop; lia). f_equal. rewrite take_app_length' by lia. rewrite drop_ge by (rewrite length_app, length_drop; lia). by rewrite app_nil_r. }
  cbn [ebind]. by rewrite !insert_insert_eq.
Qed.
(** *** Integers *)

Lemma mod_narrow v w : 0 <= w <= 64 -> (v mod 2 ^ 64) mod 2 ^ w = v mod 2 ^ w.
Proof.
  intros Hw. symmetry. apply Znumtheory.Zmod_div_mod; [lia..|]. exists (2 ^ (64 - w)). rewrite <- Z.pow_add_r by lia. f_equal. lia.
Qed.

Lemma read_signed w v : 0 < w <= 64 -> fits w v = true -> as_signed w (Datum_from v mod 2 ^ w) = v.
Proof. intros Hw Hv. unfold Datum_from. rewrite mod_narrow by lia. apply as_signed_small; [lia|]. unfold fits in Hv. lia. Qed.

Lemma fits_wider w w' v : 0 < w <= w' -> fits w v = true -> fits w' v = true.
Proof.
  intros Hw. unfold fits. assert (2 ^ (w - 1) <= 2 ^ (w' - 1)) by (apply Z.pow_le_mono_r; lia). lia.
Qed.

Lemma read_unsigned w v : 0 <= w <= 64 -> ufits w v = true -> Datum_from v mod 2 ^ w = v.
Proof. intros Hw Hv. unfold Datum_from. rewrite mod_narrow by lia. apply Z.mod_small. unfold ufits in Hv. lia. Qed.

Lemma datum_small w v : 0 <= w <= 64 -> ufits w v = true -> Datum_from v = v.
Proof.
  intros Hw. unfold ufits, Datum_from. assert (2 ^ w <= 2 ^ 64) by (apply Z.pow_le_mono_r; lia). intros Hv. apply Z.mod_small. lia.
Qed.

(** *** Varlenas *)

Lemma short_bound bs : short bs = true -> Z.of_nat (length bs) + VARHDRSZ < 2 ^ 30.
Proof. unfold short. lia. Qed.

Lemma convert_plain bs : short bs = true -> utf8_valid bs = true -> in_encoding compat bs = true ->
  convert_varlena_to_str_memoized e oc compat (plain bs) = Returned (of_bytes bs).
Proof.
  intros Hs Hu He. destruct (plain_varlena e oc bs (short_bound bs Hs)) as [Hb _]. fold (plain bs) in Hb.
  unfold convert_varlena_to_str_memoized, text_to_rust_str, text_to_rust_str_unchecked.
  destruct compat; rewrite Hb; cbn [ebind]; [by rewrite Hu..|]. cbn in He. by rewrite He.
Qed.

Lemma detoast_plain_chunk (h : heap) p bs : h !! p = Some (plain bs) -> short bs = true ->
  pg_detoast_datum_packed h p = Returned (h, p).
Proof.
  intros Hp Hs. apply (detoast_plain (e := e) h p (plain bs)); [done|].
  by destruct (plain_varlena e oc bs (short_bound bs Hs)) as (_ & Hu & _).
Qed.

Lemma str_from_plain (h : heap) p bs : h !! p = Some (plain bs) -> 0 < p -> short bs = true -> utf8_valid bs = true ->
  in_encoding compat bs = true ->
  str_from_datum e oc compat h p false = Returned (h, Some (of_bytes bs))
  /\ string_from_datum e oc compat h p false = Returned (h, Some (of_bytes bs)).
Proof.
  intros Hp Hp0 Hs Hu He. unfold str_from_datum, string_from_datum. replace (p =? 0) with false by lia. cbn [orb].
  rewrite (detoast_plain_chunk h p bs) by done. cbn [ebind fst snd]. rewrite Hp. cbn [defined ebind].
  rewrite convert_plain by done. cbn [ebind]. split; [done|].
  destruct (plain_varlena e oc bs (short_bound bs Hs)) as (_ & _ & He1 & Hc). fold (plain bs) in He1, Hc.
  rewrite He1. cbn [ebind]. rewrite Hc. done.
Qed.

Lemma bytes_from_plain (h : heap) p bs : h !! p = Some (plain bs) -> 0 < p -> short bs = true ->
  bytes_from_datum e oc h p false = Returned (h, Some bs).
Proof.
  intros Hp Hp0 Hs. unfold bytes_from_datum. replace (p =? 0) with false by lia. cbn [orb].
  rewrite (detoast_plain_chunk h p bs) by done. cbn [ebind fst snd]. rewrite Hp. cbn [defined ebind].
  destruct (plain_varlena e oc bs (short_bound bs Hs)) as [Hb _]. fold (plain bs) in Hb. by rewrite Hb.
Qed.

Lemma cstr_at_nul bs rest : forallb (fun b => negb (bool_decide (b = x00))) bs = true -> cstr_at (bs ++ x00 :: rest) = Returned bs.
Proof.
  induction bs as [|b bs IH]; cbn; [done|]. intros [Hb Hbs]%andb_true_iff. apply negb_true_iff in Hb. by rewrite Hb, IH.
Qed.

Lemma short_char c : is_char c = true -> short (encode_utf8 c) = true.
Proof. intros _. unfold encode_utf8, short. repeat case_match; done. Qed.
(** What a reader finds where a text was written. *)
Lemma text_reads (h : heap) bs : short bs = true -> utf8_valid bs = true -> in_encoding compat bs = true ->
  exists h' d, bytes_into_datum e h bs = Returned (h', d) /\ h ⊆ h'
    /\ read_option e oc compat TStr h' d = Returned (h', Some (of_bytes bs))
    /\ read_option e oc compat TString h' d = Returned (h', Some (of_bytes bs))
    /\ read_option e oc compat TChar h' d = Returned (h', next_char bs).
Proof.
  intros Hs Hu He. destruct (bytes_into_spec h bs Hs) as (p & -> & Hp & Ha). eexists _, (Some p). split; [done|].
  split; [by apply insert_subseteq|]. destruct (str_from_plain (<[p := plain bs]> h) p bs) as [H1 H2]; [by rewrite lookup_insert_eq|lia|done..|].
  unfold read_option, from_datum. cbn [from_option id]. rewrite H1, H2. cbn [ebind fst snd]. split_and!; [done..|].
  cbn. by rewrite as_of_bytes.
Qed.

Lemma bytes_reads (h : heap) bs : short bs = true ->
  exists h' d, bytes_into_datum e h bs = Returned (h', d) /\ h ⊆ h' /\ read_option e oc compat TBytes h' d = Returned (h', Some bs).
Proof.
  intros Hs. destruct (bytes_into_spec h bs Hs) as (p & -> & Hp & Ha). eexists _, (Some p). split; [done|].
  split; [by apply insert_subseteq|]. apply bytes_from_plain; [by rewrite lookup_insert_eq|cbn; lia|done].
Qed.

Lemma cstr_reads (h : heap) bs : wf TCStr bs = true ->
  exists h' d, cstr_into_datum h bs = Returned (h', d) /\ h ⊆ h' /\ read_option e oc compat TCStr h' d = Returned (h', Some bs).
Proof.
  intros Hw. unfold cstr_into_datum. destruct (alloc_spec h (Z.of_nat (length (bs ++ [x00]))) ltac:(lia)) as (p & m & -> & Hp & Ha & Hl).
  rewrite (at_chunk_ok _ p m _ (bs ++ [x00])); [|by rewrite lookup_insert_eq|apply write_all; lia].
  cbn [ebind]. eexists _, (Some p). split; [done|]. rewrite insert_insert_eq. split; [by apply insert_subseteq|].
  unfold read_option, from_datum. cbn [from_option id]. replace (p =? 0) with false by lia. cbn [orb]. rewrite lookup_insert_eq. cbn [defined ebind].
  by rewrite cstr_at_nul.
Qed.

Lemma uuid_reads (h : heap) bs : wf TUuid bs = true ->
  exists h' d, uuid_into_datum h bs = Returned (h', d) /\ h ⊆ h' /\ read_option e oc compat TUuid h' d = Returned (h', Some bs).
Proof.
  cbn. intros Hw%Nat.eqb_eq. unfold uuid_into_datum. destruct (alloc_spec h 16 ltac:(lia)) as (p & m & -> & Hp & Ha & Hl).
  rewrite (at_chunk_ok _ p m _ bs); [|by rewrite lookup_insert_eq|by rewrite Hl, Hw].
  cbn [ebind]. eexists _, (Some p). split; [done|]. rewrite insert_insert_eq. split; [by apply insert_subseteq|].
  unfold read_option, from_datum. cbn [from_option id]. rewrite lookup_insert_eq. cbn [defined ebind].
  rewrite read_bytes_spec by lia. cbn [ebind]. change (Z.to_nat 0) with 0%nat. rewrite drop_0, take_ge by lia. done.
Qed.

Lemma scalar_reads (h : heap) {A} (w w' : A) : w = w' -> scalar h false w = Returned (h, Some w').
Proof. by intros ->. Qed.

Lemma signed_reads w w' v : 0 < w <= w' -> w' <= 64 -> fits w v = true -> as_signed w' (Datum_from v mod 2 ^ w') = v.
Proof. intros Hw Hw' Hv. apply read_signed; [lia|]. by apply (fits_wider w). Qed.

(** C27. A Postgres type is admitted only where its values are read as they are: where a Rust
    type is compatible with the Postgres type that a value was written as, from whatever
    Rust type, and a text holds only characters that can be read in the encoding of the
    database (any in a UTF-8 or SQL_ASCII one, ASCII in others), the value is written, and then read,
    as that value, widened if it is an integer; an invalid [Oid] or [TransactionId] is
    written, and read, as [NULL]. *)
Theorem compatible_reads_back t u (h : heap) (v : denote u) :
  is_compatible_with t (type_oid u) = true -> wf u v = true -> in_encoding compat (text_of u v) = true ->
  exists h' d, into_datum e u h v = Returned (h', d) /\ h ⊆ h'
    /\ read_option e oc compat t h' d = Returned (h', if written_null u v then None else cast u t v)
    /\ is_Some (cast u t v).
Proof.
  intros Hc Hw He.
  destruct u; destruct t; first [discriminate Hc | clear Hc]; cbn [into_datum].
  all: cbn [denote] in v; cbn [wf text_of] in Hw, He.
  (* texts *)
  all: try (apply andb_true_iff in Hw as [Hu Hs]; destruct (text_reads h (as_bytes v) Hs Hu He) as (h' & d & Hi & Hsub & H1 & H2 & _);
            exists h', d; rewrite of_as_bytes in H1, H2; split_and!; [done|done|done|by eexists]).
  all: try (pose proof (text_reads h (encode_utf8 v) (short_char v Hw) (encode_utf8_valid v Hw) He) as (h' & d & Hi & Hsub & H1 & H2 & H3);
            pose proof (next_char_encode v [] Hw) as Hn; rewrite app_nil_r in Hn; rewrite Hn in H3;
            exists h', d; split_and!; [done|done|done|by eexists]).
  (* other references *)
  all: try (destruct (bytes_reads h v Hw) as (h' & d & Hi & Hsub & H1); exists h', d; split_and!; [done|done|done|by eexists]).
  all: try (destruct (cstr_reads h v Hw) as (h' & d & Hi & Hsub & H1); exists h', d; split_and!; [done|done|done|by eexists]).
  all: try (destruct (uuid_reads h v Hw) as (h' & d & Hi & Hsub & H1); exists h', d; split_and!; [done|done|done|by eexists]).
  (* values *)
  all: eexists _, _; split_and!; [done|reflexivity| |by eexists].
  all: unfold read_option; cbn [from_datum written_null cast from_option id].
  all: try (apply scalar_reads; first [done | by apply (signed_reads 8) | by apply (signed_reads 16) | by apply (signed_reads 32)
            | by apply (signed_reads 64) | by apply read_unsigned]).
  - apply scalar_reads. by destruct v.
  - destruct (v =? 0); [done|]. apply scalar_reads. by apply read_unsigned.
  - destruct (v =? 0); [done|]. cbn [from_option id]. rewrite (datum_small 32) by done.
    unfold ufits in Hw. by replace (v <? 2 ^ 32) with true by lia.
  - apply scalar_reads. f_equal. apply Z.mod_small. unfold ufits in Hw. lia.
  - by destruct v.
Qed.

(** A [str] made from a datum is UTF-8: in a database whose texts are UTF-8, as Postgres
    keeps them where its encoding is, a conversion is never undefined for want of it, and
    in every other database it reads UTF-8 or panics. *)
Theorem str_is_utf8 m bs : varlena_to_byte_slice e oc m 0 = Returned bs -> (compat = Yes -> utf8_valid bs = true) ->
  match convert_varlena_to_str_memoized e oc compat m with
  | Returned s => utf8_valid (as_bytes s) = true /\ as_bytes s = bs
  | Panicked _ => in_encoding compat bs = false \/ utf8_valid bs = false
  | Undefined => False
  end.
Proof.
  intros Hb Hyes. unfold convert_varlena_to_str_memoized, text_to_rust_str, text_to_rust_str_unchecked. rewrite Hb.
  destruct compat; cbn [ebind].
  - rewrite Hyes by done. by rewrite as_of_bytes, Hyes.
  - destruct (utf8_valid bs) eqn:Hu; cbn; [by rewrite as_of_bytes|by right].
  - destruct (is_ascii bs) eqn:Ha; [|by left]. rewrite as_of_bytes. split; [|done].
    induction bs as [|b bs IH] in Ha |- *; [done|]. cbn in Ha |- *. apply andb_true_iff in Ha as [-> Ha]. by apply IH.
Qed.

Lemma convert_unchecked m s : convert_varlena_to_str_memoized e oc compat m = Returned s ->
  text_to_rust_str_unchecked e oc m 0 = Returned s.
Proof.
  unfold convert_varlena_to_str_memoized, text_to_rust_str, text_to_rust_str_unchecked.
  destruct (varlena_to_byte_slice e oc m 0) as [bs| |]; [|by destruct compat..]. destruct compat; cbn [ebind]; [done| |].
  - by destruct (utf8_valid bs).
  - destruct (is_ascii bs) eqn:Ha; [|done]. intros [= <-]. replace (utf8_valid bs) with true; [done|].
    induction bs as [|b bs IH] in Ha |- *; [done|]. cbn in Ha |- *. apply andb_true_iff in Ha as [-> Ha]. by apply IH.
Qed.

Definition is_varlena (t : ty) : bool := match t with TBytes | TStr | TString | TChar => true | _ => false end.

(** Unboxing is [from_datum] without its checks: where a datum that is not null and needs
    no detoasting is read as a value, it is unboxed as the same value. *)
Theorem unbox_agrees t f (h h' : heap) d v : unbox e oc compat t = Some f ->
  (is_varlena t = true -> pg_detoast_datum_packed h d = Returned (h, d)) ->
  from_datum e oc compat t h d false = Returned (h', Some v) -> f h d = Returned v.
Proof.
  intros Hf Hd Hv. destruct t; try discriminate Hf; injection Hf as <-; first [specialize (Hd eq_refl) | clear Hd]; cbn [from_datum] in Hv.
  all: try (injection Hv as _ <-; done).
  - unfold bytes_from_datum in Hv. destruct (d =? 0); [done|]. cbn [orb] in Hv. rewrite Hd in Hv. cbn [ebind fst snd] in Hv.
    apply ebind_inv in Hv as (m & -> & Hv). cbn [ebind]. apply ebind_inv in Hv as (bs & -> & Hv). by injection Hv as _ <-.
  - unfold str_from_datum in Hv. destruct (d =? 0); [done|]. cbn [orb] in Hv. rewrite Hd in Hv. cbn [ebind fst snd] in Hv.
    apply ebind_inv in Hv as (m & -> & Hv). cbn [ebind]. apply ebind_inv in Hv as (s & Hs & Hv). injection Hv as _ <-.
    by apply convert_unchecked.
  - unfold string_from_datum in Hv. destruct (d =? 0); [done|]. cbn [orb] in Hv. rewrite Hd in Hv. cbn [ebind fst snd] in Hv.
    apply ebind_inv in Hv as (m & -> & Hv). cbn [ebind]. apply ebind_inv in Hv as (s & Hs & Hv). apply convert_unchecked in Hs.
    repeat (apply ebind_inv in Hv as (? & _ & Hv)). by injection Hv as _ <-.
  - apply ebind_inv in Hv as (r & Hr & Hv). cbn [from_datum]. rewrite Hr. cbn [ebind]. injection Hv as _ Hv.
    cbn in Hv |- *. by rewrite Hv.
  - destruct (d =? 0); [done|]. cbn [orb] in Hv. apply ebind_inv in Hv as (m & -> & Hv). cbn [ebind].
    apply ebind_inv in Hv as (bs & -> & Hv). by injection Hv as _ <-.
  - apply ebind_inv in Hv as (m & -> & Hv). cbn [ebind]. apply ebind_inv in Hv as (bs & -> & Hv). by injection Hv as _ <-.
Qed.
End RoundTrip.

(** ** A server, and witnesses *)

(** New chunks behind every other one, filled with [0x7F]; varlenas are all plain. *)
#[export] Instance bump_server : Server := {
  palloc h n := (next_key h, replicate (Z.to_nat n) x7f);
  pg_detoast_datum_packed h p := Returned (h, p);
}.

#[export] Instance bump_server_laws e : ServerLaws e.
Proof.
  split; cbn; intros.
  - apply next_key_fresh.
  - destruct (next_key_above h). lia.
  - apply length_replicate.
  - done.
Qed.

(** A [smallint] read as an [i64], and a [char] read as a [String]. *)
Lemma compatible_reads_back_witness :
  (exists h' d, into_datum Little TI16 ∅ (-2) = Returned (h', d)
     /\ read_option Little false Yes TI64 h' d = Returned (h', Some (-2)))
  /\ (exists h' d, into_datum Little TChar ∅ 0xE9 = Returned (h', d)
     /\ read_option Little false Yes TString h' d = Returned (h', Some (of_bytes [xc3; xa9]))).
Proof.
  split.
  - destruct (compatible_reads_back Little false Yes TI64 TI16 ∅ (-2) eq_refl eq_refl eq_refl) as (h' & d & Hi & _ & Hr & _).
    by exists h', d.
  - destruct (compatible_reads_back Little false Yes TString TChar ∅ 0xE9 eq_refl eq_refl eq_refl) as (h' & d & Hi & _ & Hr & _).
    by exists h', d.
Defined.

(** "é" in Latin-1: no UTF-8. *)
Definition latin1_e : bytes := plain Little [xe9].

Lemma str_is_utf8_witness :
  match convert_varlena_to_str_memoized Little false Maybe latin1_e with
  | Returned s => utf8_valid (as_bytes s) = true /\ as_bytes s = [xe9]
  | Panicked _ => in_encoding Maybe [xe9] = false \/ utf8_valid [xe9] = false
  | Undefined => False
  end.
Proof. apply (str_is_utf8 Little false Maybe latin1_e [xe9]); [vm_compute; reflexivity|done]. Defined.

Lemma unbox_agrees_witness : exists f, unbox Little false Yes TStr = Some f /\ f {[ 8 := plain Little [x61] ]} 8 = Returned "a".
Proof.
  eexists. split; [reflexivity|].
  refine (unbox_agrees Little false Yes TStr _ {[ 8 := plain Little [x61] ]} {[ 8 := plain Little [x61] ]} 8 "a" eq_refl _ _);
    [done|vm_compute; reflexivity].
Defined.

Definition panics {A} (m : ending A) : bool := match m with Panicked _ => true | _ => false end.

(** In a database that is not UTF-8, where [from_datum] panics, unboxing makes a [str] that
    is not UTF-8. *)
Example unbox_unchecked :
  let h : heap := {[ 8 := latin1_e ]} in
  panics (from_datum Little false Ascii TStr h 8 false) = true
  /\ (f ← unbox Little false Ascii TStr; Some (f h 8)) = Some Undefined.
Proof. split; vm_compute; reflexivity. Qed.

(** There, a text is written as UTF-8 whatever the encoding is, and is then not read back. *)
Example written_not_read :
  match into_datum Little TStr ∅ (of_bytes [xc3; xa9]) with
  | Returned (h, Some d) => panics (from_datum Little false Ascii TStr h d false)
  | _ => false
  end = true.
Proof. vm_compute. reflexivity. Qed.
