(* ===== verification/HeapTuple.v ===== *)
(** * Heap tuples and the rows of triggers

    [PgHeapTuple] ([pgrx/src/heap_tuple.rs]) reads and writes the attributes of a row by
    index or by name, with a check of types; [from_trigger_data] and
    [pgrx/src/trigger_support] tell which rows a trigger has.  Forming and
    modifying a tuple are Postgres', with what [heaptuple.c] promises of them as laws;
    reading one, which [HTup] has over the bytes of a tuple, is a law too.  The datum of
    a column that is passed by reference is an address in the tuple, so what such a column
    holds is what is found there.  A tuple descriptor is its list of attributes. *)
From stdpp Require Import base gmap list strings.
From S2P Require Import Prelude Memory Varlena SpiTable DatumConv.
#[local] Open Scope Z_scope.
#[local] Open Scope ending_scope.

Record Attribute := { attname : string; attnum : Z; atttypid : Z; attlen : Z; attbyval : bool }.
Record TupleDesc := { tdtypeid : Z; attrs : list Attribute }.

Definition len (d : TupleDesc) : Z := Z.of_nat (length (attrs d)).

(** [PgTupleDesc::get] *)
Definition td_get (d : TupleDesc) (i : Z) : option Attribute := if i >=? len d then None else attrs d !! Z.to_nat i.

(** ** Postgres *)

(** Making a tuple copies what its datums refer to, so the heap goes in and comes out. *)
Class HeapTuples (Tuple : Type) := {
  heap_form_tuple : heap -> TupleDesc -> list Z -> list bool -> heap * Tuple;
  heap_modify_tuple : heap -> Tuple -> TupleDesc -> list Z -> list bool -> list bool -> heap * Tuple;
  (** The datum of an attribute, counted from 1; [None] is null. *)
  heap_getattr : Tuple -> Z -> TupleDesc -> option Z;
  (** The value behind the datum of an attribute that is passed by reference, whatever
      header it has. *)
  referenced : heap -> Attribute -> Z -> option bytes;
}.

(** [store_att_byval] and then [fetch_att]: as many bytes as the attribute has, read as a
    signed integer. *)
Definition fetch_att (n d : Z) : Z := as_signed (8 * n) (d mod 2 ^ (8 * n)) mod 2 ^ 64.

(** What a column holds: a datum, or what a reference leads to. *)
Inductive held := ByValue (d : Z) | ByReference (c : option bytes).

Section Held.
Context {Tuple : Type} `{HeapTuples Tuple}.

(** What a column holds after a datum is stored in it. *)
Definition stored (h : heap) (att : Attribute) (d : Z) : held :=
  if attbyval att then ByValue (fetch_att (attlen att) d) else ByReference (referenced h att d).

(** What the [i]th column of a tuple holds; [None] is null. *)
Definition holds (h : heap) (t : Tuple) (i : Z) (d : TupleDesc) : option held :=
  att ← td_get d (i - 1);
  v ← heap_getattr t i d;
  Some (if attbyval att then ByValue v else ByReference (referenced h att v)).
End Held.

Class HeapTuplesLaws (Tuple : Type) `{HeapTuples Tuple} := {
  form_holds : forall h d vs ns h' t' i att v n, heap_form_tuple h d vs ns = (h', t') ->
    attrs d !! i = Some att -> vs !! i = Some v -> ns !! i = Some n ->
    holds h' t' (Z.of_nat i + 1) d = if n : bool then None else Some (stored h att v);
  modify_holds : forall h t d vs ns rs h' t' i att v n r, heap_modify_tuple h t d vs ns rs = (h', t') ->
    attrs d !! i = Some att -> vs !! i = Some v -> ns !! i = Some n -> rs !! i = Some r ->
    holds h' t' (Z.of_nat i + 1) d
    = if r : bool then (if n : bool then None else Some (stored h att v)) else holds h t (Z.of_nat i + 1) d;
}.

(** ** A row *)

(** The types that can be unboxed: [get_by_index] has this bound. *)
Class UnboxDatum (e : endian) (oc : bool) (compat : Utf8Compat) `{Server} (t : ty) : Prop :=
  unboxed : bool_decide (is_Some (unbox e oc compat t)) = true.
#[export] Hint Extern 0 (UnboxDatum _ _ _ _) => reflexivity : typeclass_instances.

(** A value and its implementation of [IntoDatum]. *)
Record Value := {
  v_type_name : string;
  v_type_oid : Z;
  v_is_compatible_with : Z -> bool;
  v_composite_type_oid : option Z;
  v_into_datum : heap -> ending (heap * option Z);
}.

Inductive PgHeapTupleError := IncorrectAttributeCount (found expected : Z).

Section Rows.
Context {Tuple : Type} `{HeapTuples Tuple}.
Context (type_is_array : Z -> bool) (lookup_type_name : Z -> ending string) (IsBinaryCoercible : Z -> Z -> bool).
Context (e : endian) (oc : bool) (compat : Utf8Compat) `{Server}.

Record PgHeapTuple := { tuple : Tuple; tupdesc : TupleDesc }.

(** [attno.get() - 1], of a number that is not zero. *)
Definition get_attribute_by_index (s : PgHeapTuple) (index : Z) : option Attribute := td_get (tupdesc s) (index - 1).

Fixpoint position_by_name (name : string) (i : Z) (l : list Attribute) : option (Z * Attribute) :=
  match l with
  | [] => None
  | att :: l => if bool_decide (attname att = name) then Some (i, att) else position_by_name name (i + 1) l
  end.

Definition get_attribute_by_name (s : PgHeapTuple) (name : string) : option (Z * Attribute) :=
  position_by_name name 1 (attrs (tupdesc s)).

(** [from_datums] *)
Definition from_datums (h : heap) (d : TupleDesc) (datums : list (option Z)) : PgHeapTupleError + heap * PgHeapTuple :=
  let nulls := map (fun o => match o with None => true | Some _ => false end) datums in
  let values := map (default 0) datums in
  if negb (Z.of_nat (length values) =? len d) then inl (IncorrectAttributeCount (Z.of_nat (length values)) (len d))
  else let '(h, t) := heap_form_tuple h d values nulls in inr (h, {| tuple := t; tupdesc := d |}).

(** [v[i] = x] *)
Definition set_index {A} (l : list A) (i : Z) (x : A) : ending (list A) :=
  eassert ((0 <=? i) && (i <? Z.of_nat (length l))) "index out of bounds" (Returned (<[Z.to_nat i := x]> l)).

(** The old tuple, which is freed then, is left where it is. *)
Definition set_by_index_unchecked (h : heap) (s : PgHeapTuple) (attno : Z) (datum : option Z) : ending (heap * PgHeapTuple) :=
  let datums := map Z.of_nat (seq 0 (length (attrs (tupdesc s)))) in
  let nulls := map (fun _ => false) (attrs (tupdesc s)) in
  let do_replace := map (fun _ => false) (attrs (tupdesc s)) in
  let attno := attno - 1 in
  nulls <~~ set_index nulls attno (match datum with None => true | Some _ => false end) ;;
  datums <~~ set_index datums attno (default 0 datum) ;;
  do_replace <~~ set_index do_replace attno true ;;
  let '(h, t) := heap_modify_tuple h (tuple s) (tupdesc s) datums nulls do_replace in
  Returned (h, {| tuple := t; tupdesc := tupdesc s |}).

Definition incompatible {A} (value : Value) (rust_oid datum_oid : Z) : ending (TryFromDatumError + A) :=
  name <~~ lookup_type_name datum_oid ;;
  Returned (inl (Incompatible {| rust_type := v_type_name value; rust_oid := rust_oid; datum_type := name; datum_oid := datum_oid |})).

Definition set_by_index (h : heap) (s : PgHeapTuple) (attno : Z) (value : Value)
  : ending (TryFromDatumError + heap * PgHeapTuple) :=
  match get_attribute_by_index s attno with
  | None => Returned (inl (NoSuchAttributeNumber attno))
  | Some att =>
      let go := d <~~ v_into_datum value h ;; s <~~ set_by_index_unchecked d.1 s attno d.2 ;; Returned (inr s) in
      match v_composite_type_oid value with
      | Some array_of_composite_type_oid =>
          if type_is_array (atttypid att) then
            if negb (atttypid att =? array_of_composite_type_oid) then incompatible value array_of_composite_type_oid (atttypid att)
            else go
          else
            let is_compatible_composite_types :=
              (v_type_oid value =? RECORDOID) && (array_of_composite_type_oid =? atttypid att) in
            if negb is_compatible_composite_types && negb (v_is_compatible_with value (atttypid att))
            then incompatible value (v_type_oid value) (atttypid att) else go
      | None =>
          if negb (v_is_compatible_with value (atttypid att)) then incompatible value (v_type_oid value) (atttypid att) else go
      end
  end.

Definition set_by_name (h : heap) (s : PgHeapTuple) (name : string) (value : Value)
  : ending (TryFromDatumError + heap * PgHeapTuple) :=
  match get_attribute_by_name s name with
  | None => Returned (inl (NoSuchAttributeName name))
  | Some (attno, _) => set_by_index h s attno value
  end.

(** [FromDatum::try_from_datum] *)
Definition try_from_datum (t : ty) (type_name : string) (h : heap) (datum : Z) (is_null : bool) (oid : Z)
  : ending (TryFromDatumError + heap * option (denote t)) :=
  if negb (is_compatible_with t oid || IsBinaryCoercible oid (type_oid t)) then
    name <~~ lookup_type_name oid ;;
    Returned (inl (Incompatible {| rust_type := type_name; rust_oid := type_oid t; datum_type := name; datum_oid := oid |}))
  else r <~~ from_datum e oc compat t h datum is_null ;; Returned (inr r).

(** For a type that is not itself a record, and that is [UnboxDatum]. *)
Definition get_by_index (t : ty) {HU : UnboxDatum e oc compat t} (type_name : string) (h : heap) (s : PgHeapTuple) (attno : Z)
  : ending (TryFromDatumError + heap * option (denote t)) :=
  match td_get (tupdesc s) (attno - 1) with
  | None => Returned (inl (NoSuchAttributeNumber attno))
  | Some att =>
      match heap_getattr (tuple s) attno (tupdesc s) with
      | None => Returned (inr (h, None))
      | Some datum => try_from_datum t type_name h datum false (if type_oid t =? RECORDOID then RECORDOID else atttypid att)
      end
  end.

(** The number is the attribute's own. *)
Definition get_by_name (t : ty) {HU : UnboxDatum e oc compat t} (type_name : string) (h : heap) (s : PgHeapTuple) (name : string)
  : ending (TryFromDatumError + heap * option (denote t)) :=
  match List.find (fun att => bool_decide (attname att = name)) (attrs (tupdesc s)) with
  | Some att =>
      eassert (negb (attnum att =? 0)) "called `Option::unwrap()` on a `None` value" (get_by_index t type_name h s (attnum att))
  | None => Returned (inl (NoSuchAttributeName name))
  end.
End Rows.
Arguments PgHeapTuple Tuple : clear implicits.

(** A plain value, or an optional one. *)
Definition plain_value (e : endian) `{Server} (t : ty) (type_name : string) (v : denote t) : Value :=
  {| v_type_name := type_name; v_type_oid := type_oid t; v_is_compatible_with := is_compatible_with t;
     v_composite_type_oid := None; v_into_datum := fun h => into_datum e t h v |}.

Definition option_value (e : endian) `{Server} (t : ty) (type_name : string) (v : option (denote t)) : Value :=
  {| v_type_name := type_name; v_type_oid := option_type_oid t; v_is_compatible_with := option_is_compatible_with t;
     v_composite_type_oid := None; v_into_datum := fun h => option_into_datum e t h v |}.

(** ** Triggers *)

Definition TRIGGER_EVENT_INSERT := 0.
Definition TRIGGER_EVENT_DELETE := 1.
Definition TRIGGER_EVENT_UPDATE := 2.
Definition TRIGGER_EVENT_TRUNCATE := 3.
Definition TRIGGER_EVENT_OPMASK := 3.
Definition TRIGGER_EVENT_ROW := 4.
Definition TRIGGER_EVENT_BEFORE := 8.
Definition TRIGGER_EVENT_AFTER := 0.
Definition TRIGGER_EVENT_INSTEAD := 16.
Definition TRIGGER_EVENT_TIMINGMASK := 24.

Definition trigger_fired_by_insert (event : Z) : bool := Z.land event TRIGGER_EVENT_OPMASK =? TRIGGER_EVENT_INSERT.
Definition trigger_fired_by_delete (event : Z) : bool := Z.land event TRIGGER_EVENT_OPMASK =? TRIGGER_EVENT_DELETE.
Definition trigger_fired_by_update (event : Z) : bool := Z.land event TRIGGER_EVENT_OPMASK =? TRIGGER_EVENT_UPDATE.
Definition trigger_fired_by_truncate (event : Z) : bool := Z.land event TRIGGER_EVENT_OPMASK =? TRIGGER_EVENT_TRUNCATE.
Definition trigger_fired_for_row (event : Z) : bool := negb (Z.land event TRIGGER_EVENT_ROW =? 0).
Definition trigger_fired_for_statement (event : Z) : bool := negb (trigger_fired_for_row event).
Definition trigger_fired_before (event : Z) : bool := Z.land event TRIGGER_EVENT_TIMINGMASK =? TRIGGER_EVENT_BEFORE.
Definition trigger_fired_after (event : Z) : bool := Z.land event TRIGGER_EVENT_TIMINGMASK =? TRIGGER_EVENT_AFTER.
Definition trigger_fired_instead (event : Z) : bool := Z.land event TRIGGER_EVENT_TIMINGMASK =? TRIGGER_EVENT_INSTEAD.

Inductive PgTriggerWhen := Before | After | InsteadOf.
Inductive PgTriggerLevel := RowLevel | StatementLevel.
Inductive PgTriggerOperation := Insert | Update | Delete | Truncate.
Inductive PgTriggerError := InvalidPgTriggerWhen (v : Z) | InvalidPgTriggerOperation (v : Z).

Definition when (event : Z) : PgTriggerError + PgTriggerWhen :=
  let v := Z.land event TRIGGER_EVENT_TIMINGMASK in
  if v =? TRIGGER_EVENT_BEFORE then inr Before
  else if v =? TRIGGER_EVENT_AFTER then inr After
  else if v =? TRIGGER_EVENT_INSTEAD then inr InsteadOf
  else inl (InvalidPgTriggerWhen v).

Definition level (event : Z) : PgTriggerLevel := if Z.land event TRIGGER_EVENT_ROW =? 0 then StatementLevel else RowLevel.

Definition op (event : Z) : PgTriggerError + PgTriggerOperation :=
  let v := Z.land event TRIGGER_EVENT_OPMASK in
  if v =? TRIGGER_EVENT_INSERT then inr Insert
  else if v =? TRIGGER_EVENT_DELETE then inr Delete
  else if v =? TRIGGER_EVENT_UPDATE then inr Update
  else if v =? TRIGGER_EVENT_TRUNCATE then inr Truncate
  else inl (InvalidPgTriggerOperation v).

Inductive TriggerTuple := New | Old.

(** Null pointers are [None]. *)
Record TriggerData (Tuple : Type) := {
  tg_event : Z; tg_trigtuple : option Tuple; tg_newtuple : option Tuple; tg_relation_att : TupleDesc;
}.
Arguments tg_event {Tuple}. Arguments tg_trigtuple {Tuple}. Arguments tg_newtuple {Tuple}. Arguments tg_relation_att {Tuple}.

Definition from_trigger_data {Tuple} (trigger_data : TriggerData Tuple) (which_tuple : TriggerTuple)
  : ending (option (PgHeapTuple Tuple)) :=
  let event := tg_event trigger_data in
  if trigger_fired_for_statement event then Returned None
  else
    let finish tuple :=
      match tuple with
      | Some tuple => Returned (Some {| tuple := tuple; tupdesc := tg_relation_att trigger_data |})
      | None => Panicked "encountered unexpected NULL trigger tuple"
      end in
    match which_tuple with
    | New =>
        if trigger_fired_by_insert event then finish (tg_trigtuple trigger_data)
        else if trigger_fired_by_update event then finish (tg_newtuple trigger_data)
        else Returned None
    | Old =>
        if trigger_fired_by_update event || trigger_fired_by_delete event then finish (tg_trigtuple trigger_data)
        else Returned None
    end.

(** ** What is set is what is got *)

Section SetGet.
Context {Tuple : Type} `{HeapTuplesLaws Tuple}.
Context (type_is_array : Z -> bool) (lookup_type_name : Z -> ending string) (IsBinaryCoercible : Z -> Z -> bool).
Context (e : endian) (oc : bool) (compat : Utf8Compat) {SV : Server}.

Lemma set_index_ok {A} (l : list A) (i : nat) x : (i < length l)%nat -> set_index l (Z.of_nat i) x = Returned (<[i := x]> l).
Proof.
  intros Hi. unfold set_index, eassert. rewrite (proj2 (Z.leb_le 0 _)), (proj2 (Z.ltb_lt _ _)) by lia. by rewrite Nat2Z.id.
Qed.

Lemma td_get_Some d i att : td_get d i = Some att -> 0 <= i ->
  exists n, i = Z.of_nat n /\ attrs d !! n = Some att /\ (n < length (attrs d))%nat.
Proof.
  unfold td_get, len. case_match; [done|]. intros Hatt Hi. exists (Z.to_nat i). split_and!; [lia|done|]. lia.
Qed.

Lemma set_by_index_unchecked_spec h (s : PgHeapTuple Tuple) (n : nat) att d : attrs (tupdesc s) !! n = Some att ->
  exists h' s', set_by_index_unchecked h s (Z.of_nat n + 1) d = Returned (h', s') /\ tupdesc s' = tupdesc s
    /\ holds h' (tuple s') (Z.of_nat n + 1) (tupdesc s) = stored h att <$> d
    /\ forall i : nat, (i < length (attrs (tupdesc s)))%nat -> i <> n ->
         holds h' (tuple s') (Z.of_nat i + 1) (tupdesc s) = holds h (tuple s) (Z.of_nat i + 1) (tupdesc s).
Proof.
  intros Hatt. pose proof (lookup_lt_Some _ _ _ Hatt) as Hn. unfold set_by_index_unchecked.
  replace (Z.of_nat n + 1 - 1) with (Z.of_nat n) by lia.
  rewrite !set_index_ok by (rewrite ?length_map, ?length_seq; lia). cbn [ebind].
  destruct (heap_modify_tuple _ _ _ _ _ _) as [h' t'] eqn:Hm. eexists h', _. split; [done|]. cbn [tupdesc tuple].
  split; [done|]. split.
  - erewrite modify_holds; [|exact Hm|done|apply list_lookup_insert_eq; by rewrite length_map, length_seq
      |apply list_lookup_insert_eq; by rewrite length_map|apply list_lookup_insert_eq; by rewrite length_map]. by destruct d.
  - intros i Hi Hne. destruct (lookup_lt_is_Some_2 (attrs (tupdesc s)) i Hi) as [att' Hatt'].
    assert (Hf : ((fun _ : Attribute => false) <$> attrs (tupdesc s)) !! i = Some false) by (by rewrite list_lookup_fmap, Hatt').
    assert (Hv : (Z.of_nat <$> seq 0 (length (attrs (tupdesc s)))) !! i = Some (Z.of_nat i))
      by (by rewrite list_lookup_fmap, lookup_seq_lt).
    erewrite modify_holds; [|exact Hm|done|rewrite list_lookup_insert_ne by done; exact Hv|rewrite list_lookup_insert_ne by done; exact Hf
      |rewrite list_lookup_insert_ne by done; exact Hf]. done.
Qed.

(** The checks of [set_by_index], and what it does when they pass. *)
Lemma set_by_index_inv h h' (s s' : PgHeapTuple Tuple) attno value :
  set_by_index type_is_array lookup_type_name h s attno value = Returned (inr (h', s')) ->
  exists att h1 d, get_attribute_by_index s attno = Some att /\ v_into_datum value h = Returned (h1, d)
    /\ set_by_index_unchecked h1 s attno d = Returned (h', s').
Proof.
  unfold set_by_index, incompatible. destruct (get_attribute_by_index s attno) as [att|]; [|done].
  assert (Hgo : (d <~~ v_into_datum value h ;; s <~~ set_by_index_unchecked d.1 s attno d.2 ;; Returned (inr (A := TryFromDatumError) s)) = Returned (inr (h', s')) ->
    exists att' h1 d, Some att = Some att' /\ v_into_datum value h = Returned (h1, d) /\ set_by_index_unchecked h1 s attno d = Returned (h', s')).
  { intros ([h1 d] & Hd & (s1 & Hs & [= ->])%ebind_inv)%ebind_inv. by exists att, h1, d. }
  assert (Hno : forall r d, (name <~~ lookup_type_name d ;; Returned (inl (B := heap * PgHeapTuple Tuple) (Incompatible {| rust_type := v_type_name value;
      rust_oid := r; datum_type := name; datum_oid := d |}))) = Returned (inr (h', s')) -> False).
  { intros r d (name & _ & [=])%ebind_inv. }
  destruct (v_composite_type_oid value); repeat case_match; try exact Hgo; intros Hf; by apply Hno in Hf.
Qed.

(** C29. Setting an attribute sets that attribute: when [set_by_index] succeeds, the attribute
    is there, and in the new tuple it holds the value's datum, cut to the size of its
    column, or, where the column is passed by reference, what the value's datum refers to;
    it is null where the value has no datum.  Every other attribute of the row holds what
    it held, a datum or what its reference leads to, and the row has the same shape. *)
Theorem set_by_index_sets h h' (s s' : PgHeapTuple Tuple) attno value : 0 < attno ->
  set_by_index type_is_array lookup_type_name h s attno value = Returned (inr (h', s')) ->
  tupdesc s' = tupdesc s /\
  exists att h1 d, get_attribute_by_index s attno = Some att /\ v_into_datum value h = Returned (h1, d)
    /\ holds h' (tuple s') attno (tupdesc s) = stored h1 att <$> d
    /\ forall i, 0 < i <= len (tupdesc s) -> i <> attno ->
         holds h' (tuple s') i (tupdesc s) = holds h1 (tuple s) i (tupdesc s).
Proof.
  intros H0' (att & h1 & d & Hatt & Hd & Hs)%set_by_index_inv. pose proof Hatt as Hg. unfold get_attribute_by_index in Hg.
  apply td_get_Some in Hg as (n & Hn & Hl & _); [|lia]. replace attno with (Z.of_nat n + 1) in * by lia.
  destruct (set_by_index_unchecked_spec h1 s n att d Hl) as (h2 & s1 & Hs1 & Htd & Hv & Ho). rewrite Hs in Hs1. injection Hs1 as <- <-.
  split; [done|]. exists att, h1, d. split_and!; [done..|]. intros i Hi Hne. unfold len in Hi. replace i with (Z.of_nat (Z.to_nat (i - 1)) + 1) by lia.
  apply Ho; lia.
Qed.

(** *** Values *)

(** The size of the types that are passed by value, as their columns have it. *)
Definition byval_len (t : ty) : option Z :=
  match t with
  | TBool | TI8 => Some 1
  | TI16 => Some 2
  | TI32 | TF32 | TOid | TXid => Some 4
  | TI64 | TF64 => Some 8
  | _ => None
  end.

Definition column_of (t : ty) (att : Attribute) : Prop :=
  atttypid att = type_oid t /\ attbyval att = true /\ byval_len t = Some (attlen att).

Lemma fetch_narrow w n v : 0 < w <= 8 * n -> n <= 8 -> fetch_att n v mod 2 ^ w = v mod 2 ^ w.
Proof.
  intros Hw Hn. unfold fetch_att. rewrite mod_narrow by lia. unfold as_signed.
  assert (Hd : (2 ^ w | 2 ^ (8 * n))) by (exists (2 ^ (8 * n - w)); rewrite <- Z.pow_add_r by lia; f_equal; lia).
  assert (Hm : (v mod 2 ^ (8 * n)) mod 2 ^ w = v mod 2 ^ w) by (symmetry; apply Znumtheory.Zmod_div_mod; [lia..|done]).
  assert (H0' : 2 ^ (8 * n) mod 2 ^ w = 0) by (destruct Hd as [k ->]; apply Z.mod_mul; lia).
  case_match; [done|]. by rewrite Zminus_mod, H0', Z.sub_0_r, Z.mod_mod, Hm by lia.
Qed.

(** The datum of a value of such a type. *)
Definition datum_bits (t : ty) : denote t -> Z :=
  match t return denote t -> Z with
  | TBool => fun b => Datum_from (if b then 1 else 0)
  | TI8 | TI16 | TI32 | TI64 | TF32 | TF64 | TOid | TXid => Datum_from
  | _ => fun _ => 0
  end.

Lemma into_datum_byval t n (h : heap) v : byval_len t = Some n ->
  into_datum e t h v = Returned (h, if written_null t v then None else Some (datum_bits t v)).
Proof. by destruct t. Qed.

(** A datum that came through a column of its type. *)
Lemma through_column t v n (h : heap) : byval_len t = Some n -> t <> TXid -> wf t v = true ->
  from_datum e oc compat t h (fetch_att n (datum_bits t v)) false = Returned (h, Some v).
Proof.
  intros Hn Hx Hw. destruct t; try done; injection Hn as <-; cbn [from_datum wf datum_bits] in *; unfold scalar.
  - by destruct v.
  - rewrite fetch_narrow by lia. by rewrite read_signed by (done || lia).
  - rewrite fetch_narrow by lia. by rewrite read_signed by (done || lia).
  - rewrite fetch_narrow by lia. by rewrite read_signed by (done || lia).
  - rewrite fetch_narrow by lia. by rewrite read_signed by (done || lia).
  - rewrite fetch_narrow by lia. by rewrite read_unsigned by (done || lia).
  - rewrite fetch_narrow by lia. by rewrite read_unsigned by (done || lia).
  - rewrite fetch_narrow by lia. by rewrite read_unsigned by (done || lia).
Qed.

Lemma compatible_self t : is_compatible_with t (type_oid t) = true.
Proof. by destruct t. Qed.

(** Reading a column that is passed by value. *)
Lemma get_after_set t {HU : UnboxDatum e oc compat t} name (h h' : heap) (s s' : PgHeapTuple Tuple) (n : nat) att d :
  attrs (tupdesc s) !! n = Some att -> column_of t att -> set_by_index_unchecked h s (Z.of_nat n + 1) d = Returned (h', s') ->
  get_by_index lookup_type_name IsBinaryCoercible e oc compat t name h' s' (Z.of_nat n + 1)
  = match d with
    | None => Returned (inr (h', None))
    | Some d => r <~~ from_datum e oc compat t h' (fetch_att (attlen att) d) false ;; Returned (inr r)
    end.
Proof.
  intros Hatt (Hty & Hbv & _) Hs. destruct (set_by_index_unchecked_spec h s n att d Hatt) as (h1 & s1 & Hs1 & Htd & Hv & _).
  rewrite Hs in Hs1. injection Hs1 as <- <-. pose proof (lookup_lt_Some _ _ _ Hatt).
  assert (Hg : td_get (tupdesc s) (Z.of_nat n + 1 - 1) = Some att).
  { unfold td_get. replace (_ >=? _) with false by (unfold len; lia). by replace (Z.to_nat (Z.of_nat n + 1 - 1)) with n by lia. }
  unfold holds, stored in Hv. rewrite Hg in Hv. cbn in Hv. rewrite Hbv in Hv. unfold get_by_index. rewrite Htd, Hg.
  destruct (heap_getattr (tuple s') _ _) as [v|]; destruct d as [d|]; try done. injection Hv as ->.
  unfold try_from_datum. rewrite Hty. replace (if type_oid t =? RECORDOID then RECORDOID else type_oid t) with (type_oid t) by (by destruct t).
  by rewrite compatible_self.
Qed.

(** What is set in a column of a value's type is what is got: a value that is passed by
    value is accepted by a column of its own type and read back as it was, or, if it is
    the invalid [Oid], as [NULL]. *)
Theorem column_set_then_get t {HU : UnboxDatum e oc compat t} name (h : heap) (s : PgHeapTuple Tuple) attno att (v : denote t) :
  0 < attno -> get_attribute_by_index s attno = Some att -> column_of t att -> wf t v = true ->
  exists h' s', set_by_index type_is_array lookup_type_name h s attno (plain_value e t name v) = Returned (inr (h', s'))
    /\ get_by_index lookup_type_name IsBinaryCoercible e oc compat t name h' s' attno
       = Returned (inr (h', if written_null t v then None else Some v)).
Proof.
  intros H0' Hg Hc Hw. pose proof Hc as (Hty & Hbv & Hlen). pose proof Hg as Hg'. unfold get_attribute_by_index in Hg'.
  apply td_get_Some in Hg' as (n & Hn & Hatt & _); [|lia]. replace attno with (Z.of_nat n + 1) in * by lia.
  unfold set_by_index, plain_value. rewrite Hg. cbn [v_composite_type_oid v_is_compatible_with v_into_datum].
  rewrite Hty, compatible_self. cbn [negb]. rewrite (into_datum_byval t (attlen att)) by done. cbn [ebind fst snd].
  destruct (set_by_index_unchecked_spec h s n att (if written_null t v then None else Some (datum_bits t v)) Hatt) as (h' & s' & Hs & _).
  rewrite Hs. cbn [ebind]. exists h', s'. split; [done|]. rewrite (get_after_set t name h h' s s' n att _ Hatt Hc Hs).
  destruct (written_null t v); [done|]. rewrite through_column; [done|done| |done]. by intros ->.
Qed.
End SetGet.

(** ** Names *)

(** The attributes of a descriptor are numbered from 1. *)
Definition numbered (d : TupleDesc) : Prop := forall i att, attrs d !! i = Some att -> attnum att = Z.of_nat i + 1.

Lemma position_find name l i :
  match position_by_name name i l, List.find (fun att => bool_decide (attname att = name)) l with
  | Some (k, att), Some att' => att = att' /\ exists n : nat, k = i + Z.of_nat n /\ l !! n = Some att
  | None, None => True
  | _, _ => False
  end.
Proof.
  revert i. induction l as [|att l IH]; intros i; cbn; [done|]. case_bool_decide as Hn.
  - split; [done|]. exists 0%nat. split; [lia|done].
  - specialize (IH (i + 1)). destruct (position_by_name name (i + 1) l) as [[k att']|]; destruct (List.find _ l); try done.
    destruct IH as (-> & n & Hk & Hl). split; [done|]. exists (S n). split; [lia|done].
Qed.

(** A name means one attribute: on a descriptor that Postgres numbered, reading and
    writing by name are reading and writing by the number of the first attribute of that
    name, and fail alike where there is none. *)
Theorem names_are_numbers {Tuple} `{HeapTuples Tuple} {SV : Server} type_is_array lookup_type_name IsBinaryCoercible e oc compat
    t {HU : UnboxDatum e oc compat t} type_name (h : heap) (s : PgHeapTuple Tuple) name value : numbered (tupdesc s) ->
  match get_attribute_by_name s name with
  | Some (attno, att) =>
      0 < attno /\ get_attribute_by_index s attno = Some att /\ attname att = name
      /\ set_by_name type_is_array lookup_type_name h s name value = set_by_index type_is_array lookup_type_name h s attno value
      /\ get_by_name lookup_type_name IsBinaryCoercible e oc compat t type_name h s name
         = get_by_index lookup_type_name IsBinaryCoercible e oc compat t type_name h s attno
  | None =>
      set_by_name type_is_array lookup_type_name h s name value = Returned (inl (NoSuchAttributeName name))
      /\ get_by_name lookup_type_name IsBinaryCoercible e oc compat t type_name h s name = Returned (inl (NoSuchAttributeName name))
  end.
Proof.
  intros Hnum. unfold get_attribute_by_name, set_by_name, get_by_name, get_attribute_by_name.
  pose proof (position_find name (attrs (tupdesc s)) 1) as Hp.
  destruct (position_by_name name 1 (attrs (tupdesc s))) as [[k att]|]; destruct (List.find _ _) as [att'|] eqn:Hf; try done.
  destruct Hp as (<- & n & -> & Hl). pose proof (lookup_lt_Some _ _ _ Hl) as Hlt.
  rewrite (Hnum n att Hl). unfold eassert. replace (Z.of_nat n + 1 =? 0) with false by lia. cbn [negb].
  replace (1 + Z.of_nat n) with (Z.of_nat n + 1) by lia. split_and!; [lia| | |done|done].
  - unfold get_attribute_by_index, td_get. replace (_ >=? _) with false by (unfold len; lia).
    by replace (Z.to_nat (Z.of_nat n + 1 - 1)) with n by lia.
  - apply List.find_some in Hf as [_ Hf]. by apply bool_decide_eq_true in Hf.
Qed.

(** ** The rows of a trigger *)

(** What Postgres hands to a trigger: a row trigger has its row, and an update the new one. *)
Definition trigger_wf {Tuple} (td : TriggerData Tuple) : Prop :=
  trigger_fired_for_row (tg_event td) = true ->
  is_Some (tg_trigtuple td) /\ (trigger_fired_by_update (tg_event td) = true -> is_Some (tg_newtuple td)).

(** C32. A trigger's rows: a statement has none; an insert has a new row only, a delete an old
    row only, an update both, and the rows are never null. *)
Theorem rows_of_trigger {Tuple} (td : TriggerData Tuple) : trigger_wf td ->
  let row o := Returned ((fun t => {| tuple := t; tupdesc := tg_relation_att td |}) <$> o) in
  (from_trigger_data td New, from_trigger_data td Old) =
  match level (tg_event td), op (tg_event td) with
  | RowLevel, inr Insert => (row (tg_trigtuple td), row None)
  | RowLevel, inr Update => (row (tg_newtuple td), row (tg_trigtuple td))
  | RowLevel, inr Delete => (row None, row (tg_trigtuple td))
  | _, _ => (row None, row None)
  end.
Proof.
  unfold trigger_wf, from_trigger_data, level, op, trigger_fired_for_statement, trigger_fired_for_row, trigger_fired_by_insert,
    trigger_fired_by_update, trigger_fired_by_delete. intros Hwf. cbv zeta.
  destruct (Z.land (tg_event td) TRIGGER_EVENT_ROW =? 0); cbn [negb] in *; [done|].
  destruct (Hwf eq_refl) as [[t Ht] Hn]. rewrite Ht.
  destruct (Z.land (tg_event td) TRIGGER_EVENT_OPMASK =? TRIGGER_EVENT_INSERT) eqn:E0.
  { apply Z.eqb_eq in E0. by rewrite E0. }
  destruct (Z.land (tg_event td) TRIGGER_EVENT_OPMASK =? TRIGGER_EVENT_DELETE) eqn:E1.
  { apply Z.eqb_eq in E1. by rewrite E1. }
  destruct (Z.land (tg_event td) TRIGGER_EVENT_OPMASK =? TRIGGER_EVENT_UPDATE) eqn:E2.
  { destruct (Hn eq_refl) as [t' ->]. done. }
  by destruct (Z.land (tg_event td) TRIGGER_EVENT_OPMASK =? TRIGGER_EVENT_TRUNCATE).
Qed.

Lemma op_total event : exists o, op event = inr o.
Proof.
  unfold op. change TRIGGER_EVENT_OPMASK with (Z.ones 2). rewrite Z.land_ones by lia.
  pose proof (Z.mod_pos_bound event (2 ^ 2) ltac:(lia)). unfold TRIGGER_EVENT_INSERT, TRIGGER_EVENT_DELETE, TRIGGER_EVENT_UPDATE, TRIGGER_EVENT_TRUNCATE.
  repeat case_match; try (by eexists). lia.
Qed.

(** ** A store of rows, and witnesses *)

(** A row is a list of datums.  What a datum refers to in the heap [h0] is copied to a new
    chunk, also where the column is not replaced. *)
Definition chunk_at (h : heap) (p : Z) : option bytes := if p <? 0 then None else h !! p.

Fixpoint store (h0 h : heap) (cells : list (Attribute * option Z)) : heap * list (option Z) :=
  match cells with
  | [] => (h, [])
  | (att, cell) :: cells =>
      match (if attbyval att then None else d ← cell; chunk_at h0 d) with
      | Some bs => let p := next_key h in let '(h', row) := store h0 (<[p := bs]> h) cells in (h', Some p :: row)
      | None => let '(h', row) := store h0 h cells in (h', (if attbyval att then cell else (fun _ => -1) <$> cell) :: row)
      end
  end.

Definition cells_of (t : list (option Z)) (d : TupleDesc) (vs : list Z) (ns rs : list bool) : list (Attribute * option Z) :=
  imap (fun i att => (att, match rs !! i with
      | Some true =>
          match vs !! i, ns !! i with
          | Some v, Some false => Some (if attbyval att then fetch_att (attlen att) v else v)
          | _, _ => None
          end
      | _ => mjoin (t !! i)
      end)) (attrs d).

#[export] Instance row_store : HeapTuples (list (option Z)) := {
  heap_form_tuple h d vs ns := store h h (cells_of [] d vs ns (map (fun _ => true) (attrs d)));
  heap_modify_tuple h t d vs ns rs := store h h (cells_of t d vs ns rs);
  heap_getattr t i d := mjoin (t !! Z.to_nat (i - 1));
  referenced h att v := chunk_at h v;
}.

Lemma store_spec h0 cells : forall h h' row, store h0 h cells = (h', row) ->
  h ⊆ h' /\ forall i att cell, cells !! i = Some (att, cell) ->
    exists cell', row !! i = Some cell' /\
      ((fun d => if attbyval att then ByValue d else ByReference (chunk_at h' d)) <$> cell'
       = (fun d => if attbyval att then ByValue d else ByReference (chunk_at h0 d)) <$> cell).
Proof.
  induction cells as [|[att cell] cells IH]; intros h h' row H; cbn [store] in H; [by injection H as <- <-|].
  destruct (if attbyval att then None else d ← cell; chunk_at h0 d) as [bs|] eqn:E.
  - destruct (attbyval att) eqn:Hb; [done|]. destruct cell as [d|]; [|done]. cbn in E.
    destruct (store h0 _ cells) as [h1 row1] eqn:Hs. injection H as <- <-. destruct (IH _ _ _ Hs) as [Hsub Hrow].
    pose proof (next_key_fresh h) as Hfresh. destruct (next_key_above h) as [Hpos _].
    split; [etrans; [by apply insert_subseteq|exact Hsub]|]. intros [|i] att' cell' Hi; [|by apply Hrow].
    injection Hi as <- <-. eexists. split; [done|]. rewrite Hb. cbn. do 2 f_equal. rewrite E. unfold chunk_at.
    replace (next_key h <? 0) with false by lia. eapply lookup_weaken; [apply lookup_insert_eq|exact Hsub].
  - destruct (store h0 h cells) as [h1 row1] eqn:Hs. injection H as <- <-. destruct (IH _ _ _ Hs) as [Hsub Hrow].
    split; [done|]. intros [|i] att' cell' Hi; [|by apply Hrow]. injection Hi as <- <-. eexists. split; [done|].
    destruct (attbyval att); [done|]. destruct cell as [d|]; [|done]. cbn in *. by rewrite E.
Qed.

Lemma store_holds h h' t d vs ns rs t' i att : store h h (cells_of t d vs ns rs) = (h', t') -> attrs d !! i = Some att ->
  holds h' t' (Z.of_nat i + 1) d
  = match rs !! i with
    | Some true => match vs !! i, ns !! i with Some v, Some false => Some (stored h att v) | _, _ => None end
    | _ => holds h t (Z.of_nat i + 1) d
    end.
Proof.
  intros [_ Hrow]%store_spec Hatt. pose proof (lookup_lt_Some _ _ _ Hatt).
  assert (Hg : td_get d (Z.of_nat i + 1 - 1) = Some att).
  { unfold td_get. replace (_ >=? _) with false by (unfold len; lia). by replace (Z.to_nat (Z.of_nat i + 1 - 1)) with i by lia. }
  unfold holds, stored. rewrite Hg. cbn [mbind option_bind heap_getattr row_store referenced].
  replace (Z.to_nat (Z.of_nat i + 1 - 1)) with i by lia.
  destruct (Hrow i att _ ltac:(unfold cells_of; by rewrite list_lookup_imap, Hatt)) as (cell' & -> & Hc). cbn [mjoin option_join].
  assert (Hb : forall o : option Z, (v ← o; Some (if attbyval att then ByValue v else ByReference (chunk_at h' v)))
    = (fun v => if attbyval att then ByValue v else ByReference (chunk_at h' v)) <$> o) by (by intros [v|]).
  rewrite Hb, Hc. clear. destruct (rs !! i) as [[|]|]; [|by destruct (mjoin (t !! i))..].
  destruct (vs !! i) as [v|], (ns !! i) as [[|]|]; try done. cbn. by destruct (attbyval att).
Qed.

#[export] Instance row_store_laws : HeapTuplesLaws (list (option Z)).
Proof.
  split.
  - intros h d vs ns h' t' i att v n Hm Hatt Hv Hn. rewrite (store_holds _ _ _ _ _ _ _ _ _ _ Hm Hatt).
    rewrite list_lookup_fmap, Hatt, Hv, Hn. by destruct n.
  - intros h t d vs ns rs h' t' i att v n r Hm Hatt Hv Hn Hr. rewrite (store_holds _ _ _ _ _ _ _ _ _ _ Hm Hatt), Hr, Hv, Hn.
    destruct r; [by destruct n|done].
Qed.

Definition column (name : string) (num oid size : Z) : Attribute :=
  {| attname := name; attnum := num; atttypid := oid; attlen := size; attbyval := true |}.

Definition text_column (name : string) (num : Z) : Attribute :=
  {| attname := name; attnum := num; atttypid := TEXTOID; attlen := -1; attbyval := false |}.

Definition sample_desc : TupleDesc :=
  {| tdtypeid := 16384; attrs := [column "a" 1 INT4OID 4; column "b" 2 INT2OID 2; text_column "c" 3] |}.

(** The text of the third column is a chunk of its own. *)
Definition sample_heap : heap := {[ 8 := plain Little [x61] ]}.
Definition sample_row : PgHeapTuple (list (option Z)) := {| tuple := [Some 1; Some 2; Some 8]; tupdesc := sample_desc |}.

Definition no_arrays (_ : Z) : bool := false.
Definition no_names (_ : Z) : ending string := Returned "".
Definition no_coercions (_ _ : Z) : bool := false.

Notation sample_set := (set_by_index (Tuple := list (option Z)) no_arrays no_names sample_heap).
Notation sample_get t := (get_by_index no_names no_coercions Little false Yes t (HU := eq_refl)).

(** The row is made anew: the text is elsewhere, and the same. *)
Lemma set_by_index_sets_witness :
  exists h' (s' : PgHeapTuple (list (option Z))), sample_set sample_row 1 (plain_value Little TI32 "i32" 7) = Returned (inr (h', s'))
    /\ holds h' (tuple s') 2 sample_desc = Some (ByValue 2) /\ heap_getattr (tuple s') 3 sample_desc = Some 9
    /\ holds h' (tuple s') 3 sample_desc = Some (ByReference (Some (plain Little [x61]))).
Proof.
  eexists _, _. split; [vm_compute; reflexivity|].
  match goal with |- holds ?h' (tuple ?s') _ _ = _ /\ _ =>
    destruct (set_by_index_sets no_arrays no_names sample_heap h' sample_row s' 1 (plain_value Little TI32 "i32" 7)) as (_ & att & h1 & d & _ & Hd & _ & Ho);
      [lia|vm_compute; reflexivity|]
  end.
  cbn [v_into_datum plain_value into_datum] in Hd. injection Hd as <- <-.
  split; [exact (Ho 2 ltac:(vm_compute; done) ltac:(done))|]. split; [reflexivity|]. exact (Ho 3 ltac:(vm_compute; done) ltac:(done)).
Defined.

Lemma column_set_then_get_witness :
  exists h' (s' : PgHeapTuple (list (option Z))), sample_set sample_row 1 (plain_value Little TI32 "i32" (-7)) = Returned (inr (h', s'))
    /\ sample_get TI32 "i32" h' s' 1 = Returned (inr (h', Some (-7))).
Proof.
  apply (column_set_then_get no_arrays no_names no_coercions Little false Yes TI32 (HU := eq_refl) "i32" sample_heap sample_row 1 (column "a" 1 INT4OID 4)); done.
Defined.

Lemma names_are_numbers_witness :
  set_by_name no_arrays no_names sample_heap sample_row "b" (plain_value Little TI16 "i16" 5)
  = sample_set sample_row 2 (plain_value Little TI16 "i16" 5).
Proof.
  pose proof (names_are_numbers no_arrays no_names no_coercions Little false Yes TI16 (HU := eq_refl) "i16" sample_heap sample_row "b"
    (plain_value Little TI16 "i16" 5)) as H. apply H. intros i att Hi. do 3 (destruct i as [|i]; [by injection Hi as <-|]). done.
Defined.

Lemma rows_of_trigger_witness :
  from_trigger_data {| tg_event := 6; tg_trigtuple := Some 1%nat; tg_newtuple := Some 2%nat; tg_relation_att := sample_desc |} New
  = Returned (Some {| tuple := 2%nat; tupdesc := sample_desc |}).
Proof.
  pose proof (rows_of_trigger {| tg_event := 6; tg_trigtuple := Some 1%nat; tg_newtuple := Some 2%nat; tg_relation_att := sample_desc |}) as H.
  assert (Hp : forall A B (a a' : A) (b b' : B), (a, b) = (a', b') -> a = a') by congruence. eapply Hp, H.
  intros _. split; [by eexists|]. intros _. by eexists.
Defined.

(** An [i64] is accepted by a [smallint] column, which keeps its low two bytes. *)
Example narrowed_on_write :
  match sample_set sample_row 2 (plain_value Little TI64 "i64" 70000) with
  | Returned (inr (h, s)) => match sample_get TI64 "i64" h s 2 with Returned (inr r) => r.2 | _ => None end
  | _ => None
  end = Some 4464.
Proof. vm_compute. reflexivity. Qed.

(** A text is set in a column of texts and read from there. *)
Example text_set_then_get :
  match sample_set sample_row 3 (plain_value Little TStr "str" "xyz") with
  | Returned (inr (h, s)) => match sample_get TStr "str" h s 3 with Returned (inr r) => r.2 | _ => None end
  | _ => None
  end = Some "xyz"%string.
Proof. vm_compute. reflexivity. Qed.

(** An [i32] is read from a [smallint] column, but not written to one as an [Option]. *)
Example option_not_compatible :
  sample_get TI32 "i32" sample_heap sample_row 2 = Returned (inr (sample_heap, Some 2))
  /\ is_compatible_with TI32 INT2OID = true
  /\ match sample_set sample_row 2 (option_value Little TI32 "Option<i32>" (Some 2)) with
     | Returned (inl (Incompatible _)) => true
     | _ => false
     end = true.
Proof. vm_compute. done. Qed.
