(* ===== verification/Ranges.v ===== *)
(** * Ranges

    [pgrx/src/datum/range.rs]: the bounds of a Postgres range, ranges from Rust's, their
    display, and the conversion from and into datums.  The type of the elements, with its
    conversions and order, is the class [RangeSubType]; [make_range] and
    [range_deserialize] are Postgres', which may give a range other bounds (a canonical
    form) but not other elements. *)
From stdpp Require Import base list strings.
From S2P Require Import Prelude Memory Text.
#[local] Open Scope ending_scope.

(** ** Bounds and ranges *)

Inductive RangeBound (T : Type) := Infinite | Inclusive (v : T) | Exclusive (v : T).
Arguments Infinite {T}. Arguments Inclusive {T}. Arguments Exclusive {T}.

Definition bound_get {T} (b : RangeBound T) : option T := match b with Infinite => None | Inclusive v | Exclusive v => Some v end.
Definition bound_is_infinite {T} (b : RangeBound T) : bool := match b with Infinite => true | _ => false end.
Definition bound_is_inclusive {T} (b : RangeBound T) : bool := match b with Inclusive _ => true | _ => false end.
Definition bound_is_exclusive {T} (b : RangeBound T) : bool := match b with Exclusive _ => true | _ => false end.

Definition bound_from {T} (value : T) : RangeBound T := Inclusive value.
Definition bound_from_option {T} (value : option T) : RangeBound T :=
  match value with Some value => Inclusive value | None => Infinite end.

(** [None] is the empty range. *)
Definition Range (T : Type) : Type := option (RangeBound T * RangeBound T).

Definition new {T} (lower upper : RangeBound T) : Range T := Some (lower, upper).
Definition empty {T} : Range T := None.
Definition infinite_range {T} : Range T := new Infinite Infinite.
Definition lower {T} (r : Range T) : option (RangeBound T) := match r with Some (l, _) => Some l | None => None end.
Definition upper {T} (r : Range T) : option (RangeBound T) := match r with Some (_, u) => Some u | None => None end.
Definition is_empty {T} (r : Range T) : bool := match r with None => true | Some _ => false end.
Definition is_infinite {T} (r : Range T) : bool :=
  match lower r, upper r with Some Infinite, Some Infinite => true | _, _ => false end.

(** The old bounds, and the range that is left. *)
Definition take {T} (r : Range T) : Range T * Range T := (r, None).
Definition replace {T} (r new : Range T) : Range T * Range T := (r, new).

(** From Rust's ranges. *)
Inductive RustRange (T : Type) :=
| ROpen (start stop : T) | RFrom (start : T) | RFull | RClosed (start stop : T) | RTo (stop : T) | RToInclusive (stop : T).
Arguments ROpen {T}. Arguments RFrom {T}. Arguments RFull {T}. Arguments RClosed {T}. Arguments RTo {T}. Arguments RToInclusive {T}.

Definition range_from {T} (value : RustRange T) : Range T :=
  match value with
  | ROpen start stop => new (Inclusive start) (Exclusive stop)
  | RFrom start => new (bound_from_option (Some start)) (bound_from_option None)
  | RFull => new Infinite Infinite
  | RClosed start stop => new (Inclusive start) (Inclusive stop)
  | RTo stop => new Infinite (Exclusive stop)
  | RToInclusive stop => new Infinite (Inclusive stop)
  end.

Definition fmt {T} (show : T -> string) (r : Range T) : string :=
  match r with
  | None => "empty"
  | Some (Infinite, Infinite) => "(,)"
  | Some (Infinite, Inclusive v) => "(," +:+ show v +:+ "]"
  | Some (Infinite, Exclusive v) => "(," +:+ show v +:+ ")"
  | Some (Inclusive v, Infinite) => "[" +:+ show v +:+ ",)"
  | Some (Inclusive lo, Inclusive hi) => "[" +:+ show lo +:+ "," +:+ show hi +:+ "]"
  | Some (Inclusive lo, Exclusive hi) => "[" +:+ show lo +:+ "," +:+ show hi +:+ ")"
  | Some (Exclusive v, Infinite) => "(" +:+ show v +:+ ",)"
  | Some (Exclusive lo, Inclusive hi) => "(" +:+ show lo +:+ "," +:+ show hi +:+ "]"
  | Some (Exclusive lo, Exclusive hi) => "(" +:+ show lo +:+ "," +:+ show hi +:+ ")"
  end.

(** ** Datums *)

Class RangeSubType (T : Type) := {
  sub_into_datum : T -> ending (option Z);
  sub_from_datum : Z -> ending (option T);
  range_type_oid : Z;
}.

(** [pg_sys::RangeBound] *)
Record PgBound := { val : Z; infinite : bool; inclusive : bool; is_lower : bool }.
Definition PgBound_default : PgBound := {| val := 0; infinite := false; inclusive := false; is_lower := false |}.

(** Datums of ranges: a type [D] with a null; detoasting may give a copy, which is freed. *)
Class RangeServer (D : Type) := {
  is_null_datum : D -> bool;
  pg_detoast_datum : D -> D;
  make_range : Z -> PgBound -> PgBound -> bool -> ending D;
  range_deserialize : D -> PgBound * PgBound * bool;
}.

Section Convert.
Context {T D : Type} `{RangeSubType T} `{RangeServer D}.

Definition unwrap_datum {A} (m : ending (option A)) : ending A :=
  o <~~ m ;; expect "called `Option::unwrap()` on a `None` value" o.

Definition into_pg (b : RangeBound T) : ending PgBound :=
  match b with
  | Infinite => Returned {| val := 0; infinite := true; inclusive := false; is_lower := false |}
  | Inclusive v =>
      d <~~ unwrap_datum (sub_into_datum v) ;;
      Returned {| val := d; infinite := false; inclusive := true; is_lower := false |}
  | Exclusive v =>
      d <~~ unwrap_datum (sub_into_datum v) ;;
      Returned {| val := d; infinite := false; inclusive := false; is_lower := false |}
  end.

Definition from_pg (b : PgBound) : ending (RangeBound T) :=
  if infinite b then Returned Infinite
  else if inclusive b then v <~~ unwrap_datum (sub_from_datum (val b)) ;; Returned (Inclusive v)
  else v <~~ unwrap_datum (sub_from_datum (val b)) ;; Returned (Exclusive v).

Definition set_lower (b : PgBound) : PgBound :=
  {| val := val b; infinite := infinite b; inclusive := inclusive b; is_lower := true |}.

Definition into_datum (r : Range T) : ending (option D) :=
  bounds <~~ match r with
    | None => Returned (PgBound_default, PgBound_default)
    | Some (l, u) => l <~~ into_pg l ;; u <~~ into_pg u ;; Returned (l, u)
    end ;;
  d <~~ make_range range_type_oid (set_lower bounds.1) bounds.2 (is_empty r) ;;
  Returned (Some d).

Definition from_datum (datum : D) (is_null : bool) : ending (option (Range T)) :=
  if is_null || is_null_datum datum then Returned None
  else
    let '(lower_bound, upper_bound, is_empty) := range_deserialize (pg_detoast_datum datum) in
    if is_empty : bool then Returned (Some empty)
    else
      l <~~ from_pg lower_bound ;;
      u <~~ from_pg upper_bound ;;
      Returned (Some (Some (l, u))).
End Convert.

(** ** What a range holds *)

Section Members.
Context {T : Type} (le : T -> T -> Prop).

Definition lt (a b : T) : Prop := le a b /\ a <> b.

Definition above (b : RangeBound T) (x : T) : Prop :=
  match b with Infinite => True | Inclusive v => le v x | Exclusive v => lt v x end.
Definition below (b : RangeBound T) (x : T) : Prop :=
  match b with Infinite => True | Inclusive v => le x v | Exclusive v => lt x v end.

Definition holds (r : Range T) (x : T) : Prop := match r with None => False | Some (l, u) => above l x /\ below u x end.

Definition rust_holds (r : RustRange T) (x : T) : Prop :=
  match r with
  | ROpen a b => le a x /\ lt x b
  | RFrom a => le a x
  | RFull => True
  | RClosed a b => le a x /\ le x b
  | RTo b => lt x b
  | RToInclusive b => le x b
  end.

(** A range made from one of Rust's holds what that one does. *)
Lemma range_from_holds r x : holds (range_from r) x <-> rust_holds r x.
Proof. destruct r; cbn; tauto. Qed.
End Members.

Section RangeTrip.
Context {T D : Type} `{RangeSubType T} `{RangeServer D} (le : T -> T -> Prop).

(** A bound of Postgres stands for one of pgrx. *)
Definition stands_for (b : PgBound) (b' : RangeBound T) : Prop := from_pg b = Returned b'.

(** What is promised: an element is read back as it was; a range that [make_range] makes
    is not null, reads the same detoasted, and holds the same elements, empty or not. *)
Class RangeLaws := {
  sub_round_trip : forall v d, sub_into_datum v = Returned (Some d) -> sub_from_datum d = Returned (Some v);
  made_not_null : forall oid l u e d, make_range oid l u e = Returned d -> is_null_datum d = false /\ pg_detoast_datum d = d;
  made_empty : forall oid l u d, make_range oid l u true = Returned d -> (range_deserialize d).2 = true;
  made_bounds : forall oid l u d l0 u0, make_range oid l u false = Returned d -> is_lower l = true -> is_lower u = false ->
    stands_for l l0 -> stands_for u u0 ->
    let '(l', u', e) := range_deserialize d in
    if e : bool then forall x, ~ holds le (Some (l0, u0)) x
    else exists l1 u1, stands_for l' l1 /\ stands_for u' u1 /\ forall x, holds le (Some (l1, u1)) x <-> holds le (Some (l0, u0)) x;
}.
Context `{RangeLaws}.

Lemma into_pg_stands b p : into_pg b = Returned p -> stands_for p b /\ is_lower p = false /\ stands_for (set_lower p) b.
Proof.
  unfold stands_for, into_pg, from_pg, unwrap_datum. destruct b as [|v|v]; [by intros [= <-]|..];
    (destruct (sub_into_datum v) as [[d|]| |] eqn:Hd; [|done..]); cbn; intros [= <-]; cbn; by rewrite (sub_round_trip v d Hd).
Qed.

(** A range is read back with the elements it was written with: where writing it does not
    fail, the datum reads as a range, perhaps with other bounds, that holds exactly
    the same elements. *)
Theorem range_round_trip r o : into_datum r = Returned o ->
  exists d r', o = Some d /\ from_datum d false = Returned (Some r') /\ forall x, holds le r' x <-> holds le r x.
Proof.
  unfold into_datum. intros ([l u] & Hb & (d & Hm & [= <-])%ebind_inv)%ebind_inv. cbn [fst snd] in Hm. exists d.
  destruct (made_not_null _ _ _ _ _ Hm) as [Hn Hd]. unfold from_datum. rewrite Hn, Hd. cbn [orb].
  destruct r as [[l0 u0]|]; cbn [is_empty] in Hm.
  - apply ebind_inv in Hb as (pl & Hl & (pu & Hu & [= -> ->])%ebind_inv).
    apply into_pg_stands in Hl as (_ & _ & Hl). apply into_pg_stands in Hu as (Hu & Hlow & _).
    pose proof (made_bounds _ (set_lower l) u d l0 u0 Hm eq_refl Hlow Hl Hu) as Hb.
    destruct (range_deserialize d) as [[l' u'] [|]].
    + exists empty. split_and!; [done..|]. intros x. split; [done|]. by intros Hx%Hb.
    + destruct Hb as (l1 & u1 & Hl1 & Hu1 & Hx). unfold stands_for in Hl1, Hu1. rewrite Hl1. cbn [ebind]. rewrite Hu1. cbn [ebind].
      exists (Some (l1, u1)). split_and!; [done..|]. exact Hx.
  - pose proof (made_empty _ _ _ _ Hm) as He. destruct (range_deserialize d) as [[l' u'] e]. cbn in He. subst e.
    exists empty. split_and!; [done..|]. done.
Qed.
End RangeTrip.

(** ** The display of a range *)

Section Show.
Context {T : Type} (show : T -> string).

Definition opening (b : RangeBound T) : string := match b with Inclusive v => "[" +:+ show v | Exclusive v => "(" +:+ show v | Infinite => "(" end.
Definition closing (b : RangeBound T) : string := match b with Inclusive v => show v +:+ "]" | Exclusive v => show v +:+ ")" | Infinite => ")" end.

Lemma fmt_bounds l u : fmt show (Some (l, u)) = opening l +:+ String "," (closing u).
Proof. destruct l, u; cbn [fmt opening closing]; rewrite ?app_assoc_s, ?app_cons; done. Qed.

(** A text that is not empty and has no comma. *)
Definition plain_text (s : string) : Prop := has_char "," s = false /\ s <> "".

Lemma snoc_inj (s t : string) c d : s +:+ String c "" = t +:+ String d "" -> s = t /\ c = d.
Proof.
  revert t. induction s as [|a s IH]; intros [|b t]; rewrite ?app_nil_s, ?app_cons.
  - by intros [= ->].
  - intros [= -> Ht]. by destruct t.
  - intros [= -> Ht]. by destruct s.
  - intros [= -> Ht]. by destruct (IH t Ht) as [-> ->].
Qed.

Context (Hshow : forall v, plain_text (show v)) (Hinj : forall v w, show v = show w -> v = w).

Lemma no_comma_opening b : has_char "," (opening b) = false.
Proof. destruct b as [|v|v]; cbn [opening]; rewrite ?has_char_app, ?(proj1 (Hshow v)); done. Qed.

Lemma no_comma_closing b : has_char "," (closing b) = false.
Proof. destruct b as [|v|v]; cbn [closing]; rewrite ?has_char_app, ?(proj1 (Hshow v)); done. Qed.

Lemma opening_inj b c : opening b = opening c -> b = c.
Proof.
  destruct b as [|v|v], c as [|w|w]; cbn [opening]; try done.
  - intros [= Hs]. by destruct (Hshow w) as [_ []].
  - intros [= Hs]. by rewrite (Hinj v w Hs).
  - intros [= Hs]. by destruct (Hshow v) as [_ []].
  - intros [= Hs]. by rewrite (Hinj v w Hs).
Qed.

Lemma closing_inj b c : closing b = closing c -> b = c.
Proof.
  destruct b as [|v|v], c as [|w|w]; cbn [closing]; try done.
  all: try change ")" with ("" +:+ ")"); intros [Hs Hc]%snoc_inj; try done.
  - by destruct (Hshow w) as [_ []].
  - by rewrite (Hinj v w Hs).
  - by destruct (Hshow v) as [_ []].
  - by rewrite (Hinj v w Hs).
Qed.

(** The display of a range tells it from every other: for elements that are displayed
    without a comma, and differently, two ranges are displayed alike only when they are
    the same. *)
Theorem fmt_injective r r' : fmt show r = fmt show r' -> r = r'.
Proof.
  destruct r as [[l u]|], r' as [[l' u']|]; rewrite ?fmt_bounds; [| | |done].
  - intros Heq. apply (f_equal (split_char ",")) in Heq.
    rewrite !split_char_app, !split_char_absent in Heq by auto using no_comma_opening, no_comma_closing.
    injection Heq as Hl Hu. by rewrite (opening_inj l l' Hl), (closing_inj u u' Hu).
  - destruct l; discriminate.
  - destruct l'; discriminate.
Qed.
End Show.

(** ** Ranges of integers, and witnesses *)

(** The order of integers, with the canonical form of [int4range]: a range that starts
    at its first element and ends before its last. *)
#[export] Instance int_subtype : RangeSubType Z := {
  sub_into_datum v := Returned (Some v);
  sub_from_datum d := Returned (Some d);
  range_type_oid := 3904;
}.

Definition canonical_lower (b : PgBound) : PgBound :=
  if infinite b || inclusive b then b else {| val := val b + 1; infinite := false; inclusive := true; is_lower := true |}.
Definition canonical_upper (b : PgBound) : PgBound :=
  if infinite b || negb (inclusive b) then b else {| val := val b + 1; infinite := false; inclusive := false; is_lower := false |}.

#[export] Instance int_server : RangeServer (PgBound * PgBound * bool) := {
  is_null_datum _ := false;
  pg_detoast_datum d := d;
  make_range _ l u e :=
    if e then Returned (PgBound_default, PgBound_default, true)
    else if negb (infinite l) && negb (infinite u) && (val u <? val l)%Z
    then Panicked "range lower bound must be less than or equal to range upper bound"
    else
      let l := canonical_lower l in let u := canonical_upper u in
      Returned (l, u, negb (infinite l) && negb (infinite u) && (val u <=? val l)%Z);
  range_deserialize d := d;
}.

#[export] Instance int_laws : RangeLaws Z.le.
Proof.
  split.
  - by intros v d [= ->].
  - done.
  - by intros oid l u d [= <-].
  - intros oid l u d l0 u0. cbn [make_range int_server range_deserialize]. case_match; [done|]. intros [= <-] _ _. cbn [negb].
    unfold stands_for, from_pg, canonical_lower, canonical_upper. cbn.
    destruct l as [vl [|] [|] ll], u as [vu [|] [|] lu]; cbn; intros [= <-] [= <-]; cbn.
    all: try (eexists _, _; split_and!; [done|done|]; cbn; unfold lt; intros x; lia).
    all: case_match; [cbn; unfold lt; intros x; lia|eexists _, _; split_and!; [done|done|]; cbn; unfold lt; intros x; lia].
Qed.

Lemma range_round_trip_witness :
  exists d r', into_datum (D := PgBound * PgBound * bool) (range_from (RClosed 1%Z 5%Z)) = Returned (Some d)
    /\ from_datum d false = Returned (Some r') /\ forall x, holds Z.le r' x <-> (1 <= x <= 5)%Z.
Proof.
  eexists. destruct (range_round_trip (D := PgBound * PgBound * bool) Z.le (range_from (RClosed 1%Z 5%Z)) (Some
    ({| val := 1; infinite := false; inclusive := true; is_lower := true |},
     {| val := 6; infinite := false; inclusive := false; is_lower := false |}, false))) as (d & r' & [= <-] & Hr & Hx); [done|].
  exists r'. split; [reflexivity|]. split; [exact Hr|]. intros x. rewrite Hx. cbn. lia.
Defined.

Lemma fmt_injective_witness : infinite_range (T := bool) = range_from RFull.
Proof.
  apply (fmt_injective (fun b : bool => if b then "t" else "f")); [by intros []|by intros [] []|done].
Defined.

(** The bounds may change: an [i32] range that includes its end is read back as one that does not. *)
Example canonical_bounds :
  (o <~~ into_datum (D := PgBound * PgBound * bool) (range_from (RClosed 1%Z 5%Z)) ;;
   match o with Some d => from_datum d false | None => Returned None end)
  = Returned (Some (range_from (ROpen 1%Z 6%Z))).
Proof. done. Qed.

(** Rust's empty range [5..1] is no empty range of Postgres: writing it is an error. *)
Example reversed_range_fails :
  into_datum (D := PgBound * PgBound * bool) (range_from (ROpen 5%Z 1%Z))
  = Panicked "range lower bound must be less than or equal to range upper bound".
Proof. done. Qed.

(** An element with a blank is displayed without the quotes that Postgres puts around it. *)
Example unquoted_element : fmt (fun s : string => s) (Some (Inclusive "2010-01-01 00:00:00", Infinite)) = "[2010-01-01 00:00:00,)".
Proof. done. Qed.
