(* ===== verification/MachO.v ===== *)
(** * Finding the schema section of a library

    [cargo-pgrx/src/object_utils.rs]: [cargo pgrx schema] takes the section that the macros
    wrote from the compiled library.  Mach-O files are read by hand, byte by byte; other
    files, and the slices of universal binaries, by the [object] library, which is a
    parameter.  Offsets are [usize] of 64 bits whose additions panic on overflow. *)
From stdpp Require Import base list strings.
From S2P Require Import Prelude Memory Wire.
#[local] Open Scope Z_scope.

Inductive MachBits := Bits32 | Bits64.

(** The messages of the errors. *)
Notation Parsed A := (outcome string A).

(** [a + b] and [a * b] on [usize]. *)
Definition usize_add (a b : Z) : Parsed Z := if a + b <? 2 ^ 64 then Ok (a + b) else Panic.
Definition usize_mul (a b : Z) : Parsed Z := if a * b <? 2 ^ 64 then Ok (a * b) else Panic.

(** [data.get(a..b)] and [&data[a..b]]. *)
Definition get_range (data : bytes) (a b : Z) : option bytes :=
  if (0 <=? a) && (a <=? b) && (b <=? Z.of_nat (length data))
  then Some (take (Z.to_nat (b - a)) (drop (Z.to_nat a) data)) else None.
Definition index_range (data : bytes) (a b : Z) : Parsed bytes := unwrap (get_range data a b).

Definition read_u32 (data : bytes) (offset : Z) (e : endian) : Parsed Z :=
  stop ← usize_add offset 4;
  bytes ← ok_or "unexpected end of Mach-O data" (get_range data offset stop);
  Ok (from_ne_bytes e bytes).

Definition read_u64 (data : bytes) (offset : Z) (e : endian) : Parsed Z :=
  stop ← usize_add offset 8;
  bytes ← ok_or "unexpected end of Mach-O data" (get_range data offset stop);
  Ok (from_ne_bytes e bytes).

(** [u64] additions are checked. *)
Definition slice_range (data : bytes) (offset size : Z) : Parsed bytes :=
  if offset + size <? 2 ^ 64 then ok_or "invalid Mach-O section bounds" (get_range data offset (offset + size))
  else Err "invalid Mach-O section range".

Fixpoint trim_nul (bs : bytes) : bytes :=
  match bs with [] => [] | b :: bs => if bool_decide (b = x00) then [] else b :: trim_nul bs end.

Definition MH_MAGIC := 0xFEEDFACE.
Definition MH_CIGAM := 0xCEFAEDFE.
Definition MH_MAGIC_64 := 0xFEEDFACF.
Definition MH_CIGAM_64 := 0xCFFAEDFE.
Definition LC_SEGMENT := 0x1.
Definition LC_SEGMENT_64 := 0x19.

Definition MACHO_SEGMENT_NAME : string := "__DATA".

Definition parse_macho_header (data : bytes) : Parsed (MachBits * endian * Z) :=
  magic ← ok_or "Mach-O file is too small" (get_range data 0 4);
  let magic := from_ne_bytes Big magic in
  if magic =? MH_CIGAM then Ok (Bits32, Little, 28)
  else if magic =? MH_MAGIC then Ok (Bits32, Big, 28)
  else if magic =? MH_CIGAM_64 then Ok (Bits64, Little, 32)
  else if magic =? MH_MAGIC_64 then Ok (Bits64, Big, 32)
  else Err "invalid Mach-O magic".

(** The sizes and offsets in which the two kinds of segment differ. *)
Record Layout := {
  bits_label : string; SEGMENT_LEN : Z; SECTION_LEN : Z; nsects_at : Z;
  section_size : bytes -> endian -> Parsed Z; section_offset : bytes -> endian -> Parsed Z;
}.

Definition layout32 : Layout :=
  {| bits_label := "32-bit"; SEGMENT_LEN := 56; SECTION_LEN := 68; nsects_at := 48;
     section_size := fun section e => read_u32 section 36 e; section_offset := fun section e => read_u32 section 40 e |}.
Definition layout64 : Layout :=
  {| bits_label := "64-bit"; SEGMENT_LEN := 72; SECTION_LEN := 80; nsects_at := 64;
     section_size := fun section e => read_u64 section 40 e; section_offset := fun section e => read_u32 section 48 e |}.

Section Segment.
Context (l : Layout) (e : endian) (data : bytes).

Definition named (bs : bytes) (name : string) : bool := bool_decide (trim_nul bs = as_bytes name).

(** [for index in 0..nsects]: [n] of them are left. *)
Fixpoint find_section (sections : bytes) (index : Z) (n : nat) : Parsed (option bytes) :=
  match n with
  | O => Ok None
  | S n =>
      start ← usize_mul index (SECTION_LEN l);
      stop ← usize_add start (SECTION_LEN l);
      section ← index_range sections start stop;
      sectname ← index_range section 0 16;
      segname ← index_range section 16 32;
      if named sectname MACHO_SECTION_NAME && named segname MACHO_SEGMENT_NAME then
        size ← section_size l section e;
        offset ← section_offset l section e;
        section ← slice_range data offset size;
        Ok (Some section)
      else find_section sections (index + 1) n
  end.

Definition from_segment (command : bytes) : Parsed (option bytes) :=
  if Z.of_nat (length command) <? SEGMENT_LEN l then Err ("invalid Mach-O " +:+ bits_label l +:+ " segment command")
  else
    segname ← index_range command 8 24;
    if negb (named segname MACHO_SEGMENT_NAME) then Ok None
    else
      nsects ← read_u32 command (nsects_at l) e;
      sections ← index_range command (SEGMENT_LEN l) (Z.of_nat (length command));
      if negb (nsects * SECTION_LEN l <? 2 ^ 64) then Err ("invalid Mach-O " +:+ bits_label l +:+ " section count")
      else if Z.of_nat (length sections) <? nsects * SECTION_LEN l then Err ("invalid Mach-O " +:+ bits_label l +:+ " section table")
      else find_section sections 0 (Z.to_nat nsects).
End Segment.

Definition macho_schema_section_from_segment32 (command data : bytes) (e : endian) : Parsed (option bytes) :=
  from_segment layout32 e data command.
Definition macho_schema_section_from_segment64 (command data : bytes) (e : endian) : Parsed (option bytes) :=
  from_segment layout64 e data command.

(** [for _ in 0..ncmds]: [n] of them are left. *)
Fixpoint load_commands (bits : MachBits) (e : endian) (data : bytes) (cursor : Z) (n : nat) : Parsed (option bytes) :=
  match n with
  | O => Ok None
  | S n =>
      cmd ← read_u32 data cursor e;
      at_size ← usize_add cursor 4;
      cmdsize ← read_u32 data at_size e;
      if cmdsize <? 8 then Err "invalid Mach-O load command size"
      else
        let command_end := cursor + cmdsize in
        if negb ((command_end <? 2 ^ 64) && (command_end <=? Z.of_nat (length data))) then Err "invalid Mach-O load command range"
        else
          command ← index_range data cursor command_end;
          section ← match bits with
            | Bits32 => if cmd =? LC_SEGMENT then macho_schema_section_from_segment32 command data e else Ok None
            | Bits64 => if cmd =? LC_SEGMENT_64 then macho_schema_section_from_segment64 command data e else Ok None
            end;
          match section with
          | Some section => Ok (Some section)
          | None => load_commands bits e data command_end n
          end
  end.

Definition macho_schema_section_data (data : bytes) : Parsed (option bytes) :=
  '(bits, e, header_size) ← parse_macho_header data;
  ncmds ← read_u32 data 16 e;
  load_commands bits e data header_size (Z.to_nat ncmds).

(** ** Any library *)

Inductive FileKind := MachOFat32 | MachOFat64 | MachO32 | MachO64 | OtherKind.

Section Object.
(** [object]: the kind of a file, the slice of a universal binary for the target, and the
    sections of another file, each with its name and data. *)
Context (file_kind : bytes -> Parsed FileKind) (slice_arch32 slice_arch64 : bytes -> option bytes).
Context (object_sections : bytes -> Parsed (list (Parsed string * Parsed bytes))).

Fixpoint first_schema_section (sections : list (Parsed string * Parsed bytes)) : Parsed (option bytes) :=
  match sections with
  | [] => Ok None
  | (name, section_data) :: sections =>
      name ← name;
      if is_schema_section_name name then d ← section_data; Ok (Some d) else first_schema_section sections
  end.

Definition schema_section_data_from_object (data : bytes) : Parsed (option bytes) :=
  sections ← object_sections data; first_schema_section sections.

(** [None]: not returned yet after that many nested calls. *)
Fixpoint schema_section_data (fuel : nat) (data : bytes) : option (Parsed (option bytes)) :=
  match fuel with
  | O => None
  | S fuel =>
      match file_kind data with
      | Err e => Some (Err e)
      | Panic => Some Panic
      | Ok MachOFat32 =>
          match slice_arch32 data with Some slice => schema_section_data fuel slice | None => Some (Ok None) end
      | Ok MachOFat64 =>
          match slice_arch64 data with Some slice => schema_section_data fuel slice | None => Some (Ok None) end
      | Ok (MachO32 | MachO64) => Some (macho_schema_section_data data)
      | Ok OtherKind => Some (schema_section_data_from_object data)
      end
  end.
End Object.

(** ** Every file is read without a panic *)

Lemma get_range_some data a b s : get_range data a b = Some s ->
  0 <= a /\ a <= b /\ b <= Z.of_nat (length data) /\ Z.of_nat (length s) = b - a.
Proof.
  unfold get_range. destruct (_ && _) eqn:Hc; [|done]. intros [= <-]. rewrite !andb_true_iff, !Z.leb_le in Hc.
  rewrite length_take, length_drop. lia.
Qed.

Lemma get_range_ok data a b : 0 <= a -> a <= b -> b <= Z.of_nat (length data) -> exists s, get_range data a b = Some s.
Proof.
  intros H1 H2 H3. unfold get_range. rewrite !(proj2 (Z.leb_le _ _)) by lia. by eexists.
Qed.

Notation no_panic m := (is_panic m = false).

Lemma read_u32_no_panic data o e : o + 4 < 2 ^ 64 -> no_panic (read_u32 data o e).
Proof.
  intros Ho. unfold read_u32, usize_add. rewrite (proj2 (Z.ltb_lt _ _)) by lia. cbn. by destruct (get_range data o (o + 4)).
Qed.

Lemma read_u64_no_panic data o e : o + 8 < 2 ^ 64 -> no_panic (read_u64 data o e).
Proof.
  intros Ho. unfold read_u64, usize_add. rewrite (proj2 (Z.ltb_lt _ _)) by lia. cbn. by destruct (get_range data o (o + 8)).
Qed.

Lemma read_u32_range data o e v : read_u32 data o e = Ok v -> 0 <= v < 2 ^ 32 /\ 0 <= o /\ o + 4 <= Z.of_nat (length data).
Proof.
  unfold read_u32, usize_add. destruct (_ <? _); [|done]. cbn. destruct (get_range data o (o + 4)) as [bs|] eqn:Hr; [|done]. intros [= <-].
  apply get_range_some in Hr as (H1 & _ & H3 & H4). pose proof (from_ne_bytes_bound e bs) as Hb.
  replace (Z.of_nat (length bs)) with 4 in Hb by lia. split_and!; [lia..|done].
Qed.

(** A range of a file. *)
Definition range_of (data s : bytes) : Prop := exists a, get_range data a (a + Z.of_nat (length s)) = Some s.

(** What reading may give: an error, nothing, or a range of the file. *)
Definition safe_read (data : bytes) (m : Parsed (option bytes)) : Prop :=
  match m with Ok (Some s) => range_of data s | Ok None | Err _ => True | Panic => False end.

Lemma slice_range_safe data o n : no_panic (slice_range data o n) /\ forall s, slice_range data o n = Ok s -> range_of data s.
Proof.
  unfold slice_range. destruct (_ <? _); [|done]. destruct (get_range data o (o + n)) as [s|] eqn:Hr; [|done].
  split; [done|]. intros s' [= <-]. apply get_range_some in Hr as Hr'. exists o. replace (o + _) with (o + n) by lia. done.
Qed.

(** The two layouts: their fields are inside a section and a segment. *)
Definition layout_ok (l : Layout) : Prop :=
  32 <= SECTION_LEN l <= 100 /\ nsects_at l + 4 <= SEGMENT_LEN l <= 100 /\ 24 <= SEGMENT_LEN l /\ 0 <= nsects_at l
  /\ forall section e, no_panic (section_size l section e) /\ no_panic (section_offset l section e).

Lemma layout32_ok : layout_ok layout32.
Proof. unfold layout_ok. cbn -[read_u32]. split_and!; try lia. intros s e. split; apply read_u32_no_panic; lia. Qed.
Lemma layout64_ok : layout_ok layout64.
Proof.
  unfold layout_ok. cbn -[read_u32 read_u64]. split_and!; try lia. intros s e. split; [apply read_u64_no_panic|apply read_u32_no_panic]; lia.
Qed.

Lemma find_section_safe l e data sections (n : nat) index : layout_ok l -> 0 <= index ->
  (index + Z.of_nat n) * SECTION_LEN l <= Z.of_nat (length sections) -> Z.of_nat (length sections) < 2 ^ 63 ->
  safe_read data (find_section l e data sections index n).
Proof.
  intros (Hs & _ & _ & _ & Hf). revert index. induction n as [|n IH]; intros index Hi Hl Hb; cbn [find_section]; [done|].
  assert (index * SECTION_LEN l + SECTION_LEN l <= Z.of_nat (length sections)) by nia.
  assert (0 <= index * SECTION_LEN l) by nia.
  unfold usize_mul. rewrite (proj2 (Z.ltb_lt _ _)) by lia. cbn [mbind outcome_bind].
  unfold usize_add. rewrite (proj2 (Z.ltb_lt _ _)) by lia. cbn [mbind outcome_bind]. unfold index_range.
  destruct (get_range_ok sections (index * SECTION_LEN l) (index * SECTION_LEN l + SECTION_LEN l)) as [sec Hsec]; [lia..|].
  rewrite Hsec. cbn [unwrap mbind outcome_bind]. apply get_range_some in Hsec as (_ & _ & _ & Hlen).
  destruct (get_range_ok sec 0 16) as [nm ->]; [lia..|]. cbn [unwrap mbind outcome_bind].
  destruct (get_range_ok sec 16 32) as [sg ->]; [lia..|]. cbn [unwrap mbind outcome_bind].
  destruct (_ && _); [|apply IH; lia]. destruct (Hf sec e) as [H1 H2].
  destruct (section_size l sec e) as [size| |]; [|done|done]. cbn [mbind outcome_bind].
  destruct (section_offset l sec e) as [off| |]; [|done|done]. cbn [mbind outcome_bind].
  destruct (slice_range_safe data off size) as [H3 H4]. destruct (slice_range data off size) as [s| |]; [by apply H4|done|done].
Qed.

Lemma from_segment_safe l e data command : layout_ok l -> Z.of_nat (length command) < 2 ^ 63 ->
  safe_read data (from_segment l e data command).
Proof.
  intros Hl Hc. pose proof Hl as (H1 & H2 & H3 & H4 & _). unfold from_segment. destruct (_ <? _) eqn:Hlen; [done|]. apply Z.ltb_ge in Hlen.
  unfold index_range. destruct (get_range_ok command 8 24) as [nm ->]; [lia..|]. cbn [unwrap mbind outcome_bind].
  destruct (negb _); [done|]. pose proof (read_u32_no_panic command (nsects_at l) e ltac:(lia)) as Hp.
  destruct (read_u32 command (nsects_at l) e) as [nsects| |] eqn:Hn; [|done|done]. cbn [mbind outcome_bind].
  apply read_u32_range in Hn as (Hn & _).
  destruct (get_range_ok command (SEGMENT_LEN l) (Z.of_nat (length command))) as [secs Hs]; [lia..|]. rewrite Hs. cbn [unwrap mbind outcome_bind].
  apply get_range_some in Hs as (_ & _ & _ & Hsl). destruct (negb _) eqn:E1; [done|]. destruct (Z.of_nat (length secs) <? nsects * SECTION_LEN l) eqn:E2; [done|]. apply Z.ltb_ge in E2.
  apply find_section_safe; [done|lia| |lia]. rewrite Z2Nat.id by lia. lia.
Qed.

Lemma load_commands_safe bits e data (n : nat) cursor : 0 <= cursor < 2 ^ 63 -> Z.of_nat (length data) < 2 ^ 63 ->
  safe_read data (load_commands bits e data cursor n).
Proof.
  intros Hc Hl. revert cursor Hc. induction n as [|n IH]; intros cursor Hc; cbn [load_commands]; [done|].
  pose proof (read_u32_no_panic data cursor e ltac:(lia)) as Hp.
  destruct (read_u32 data cursor e) as [cmd| |]; [|done|done]. cbn [mbind outcome_bind].
  unfold usize_add. rewrite (proj2 (Z.ltb_lt _ _)) by lia. cbn [mbind outcome_bind].
  pose proof (read_u32_no_panic data (cursor + 4) e ltac:(lia)) as Hp2.
  destruct (read_u32 data (cursor + 4) e) as [size| |]; [|done|done]. cbn [mbind outcome_bind].
  destruct (size <? 8) eqn:E1; [done|]. apply Z.ltb_ge in E1. destruct (negb _) eqn:E2; [done|].
  apply negb_false_iff, andb_true_iff in E2 as [_ E2%Z.leb_le]. unfold index_range.
  destruct (get_range_ok data cursor (cursor + size)) as [command Hcmd]; [lia..|]. rewrite Hcmd. cbn [unwrap mbind outcome_bind].
  apply get_range_some in Hcmd as (_ & _ & _ & Hcl).
  assert (Hseg : safe_read data (match bits with
    | Bits32 => if cmd =? LC_SEGMENT then macho_schema_section_from_segment32 command data e else Ok None
    | Bits64 => if cmd =? LC_SEGMENT_64 then macho_schema_section_from_segment64 command data e else Ok None end)).
  { destruct bits; case_match; try done; apply from_segment_safe; auto using layout32_ok, layout64_ok; lia. }
  destruct (match bits with Bits32 => _ | Bits64 => _ end) as [[s|]| |]; cbn [mbind outcome_bind]; [done| |done|done].
  apply IH. lia.
Qed.

Lemma after_header_safe bits e data hs : Z.of_nat (length data) < 2 ^ 63 -> 0 <= hs < 2 ^ 63 ->
  safe_read data (ncmds ← read_u32 data 16 e; load_commands bits e data hs (Z.to_nat ncmds)).
Proof.
  intros Hl Hs. pose proof (read_u32_no_panic data 16 e ltac:(lia)) as Hp.
  destruct (read_u32 data 16 e) as [n| |]; [by apply load_commands_safe|done|done].
Qed.

(** C34. The bytes of a library cannot make the reader of Mach-O images panic: whatever bytes
    [macho_schema_section_data] is given, fewer than [2^63], it gives an error, nothing, or a
    range of those bytes. *)
Theorem macho_read_safe data : Z.of_nat (length data) < 2 ^ 63 -> safe_read data (macho_schema_section_data data).
Proof.
  intros Hl. unfold macho_schema_section_data, parse_macho_header. destruct (get_range data 0 4); [|done]. cbn [ok_or mbind outcome_bind].
  repeat case_match; try done; cbn [mbind outcome_bind]; by apply after_header_safe.
Qed.

(** ** The section that was written is found *)

(** A file as a linker writes it.  A section: two names of 16 bytes, its place and size, and
    bytes that are not looked at; a command: a segment of sections, or any other. *)
Record SectionDesc := { sd_name : bytes; sd_segment : bytes; sd_addr : bytes; sd_size : Z; sd_offset : Z; sd_rest : bytes }.

Inductive Command :=
| SegmentCommand (name middle flags : bytes) (sections : list SectionDesc)
| OtherCommand (cmd : Z) (body : bytes).

Definition lc_segment (bits : MachBits) : Z := match bits with Bits32 => LC_SEGMENT | Bits64 => LC_SEGMENT_64 end.
Definition layout_of (bits : MachBits) : Layout := match bits with Bits32 => layout32 | Bits64 => layout64 end.
Definition word_len (bits : MachBits) : nat := match bits with Bits32 => 4 | Bits64 => 8 end.

Definition encode_section (bits : MachBits) (e : endian) (s : SectionDesc) : bytes :=
  sd_name s ++ sd_segment s ++ sd_addr s ++ ne_bytes e (word_len bits) (sd_size s) ++ ne_bytes e 4 (sd_offset s) ++ sd_rest s.

Definition section_wf (bits : MachBits) (s : SectionDesc) : Prop :=
  length (sd_name s) = 16%nat /\ length (sd_segment s) = 16%nat /\ length (sd_addr s) = word_len bits
  /\ length (sd_rest s) = match bits with Bits32 => 24%nat | Bits64 => 28%nat end
  /\ 0 <= sd_size s < 2 ^ (8 * Z.of_nat (word_len bits)) /\ 0 <= sd_offset s < 2 ^ 32.

Definition command_body (bits : MachBits) (e : endian) (c : Command) : bytes :=
  match c with
  | SegmentCommand name middle flags sections =>
      name ++ middle ++ ne_bytes e 4 (Z.of_nat (length sections)) ++ flags ++ concat (map (encode_section bits e) sections)
  | OtherCommand _ body => body
  end.

Definition command_code (bits : MachBits) (c : Command) : Z := match c with SegmentCommand _ _ _ _ => lc_segment bits | OtherCommand cmd _ => cmd end.

Definition encode_command (bits : MachBits) (e : endian) (c : Command) : bytes :=
  ne_bytes e 4 (command_code bits c) ++ ne_bytes e 4 (8 + Z.of_nat (length (command_body bits e c))) ++ command_body bits e c.

Definition command_wf (bits : MachBits) (e : endian) (c : Command) : Prop :=
  8 + Z.of_nat (length (command_body bits e c)) < 2 ^ 32 /\
  match c with
  | SegmentCommand name middle flags sections =>
      length name = 16%nat /\ length middle = match bits with Bits32 => 24%nat | Bits64 => 40%nat end /\ length flags = 4%nat
      /\ Forall (section_wf bits) sections
  | OtherCommand cmd _ => cmd <> lc_segment bits /\ 0 <= cmd < 2 ^ 32
  end.

Definition magic_bytes (bits : MachBits) (e : endian) : bytes :=
  ne_bytes e 4 (match bits with Bits32 => MH_MAGIC | Bits64 => MH_MAGIC_64 end).

(** The header has the magic number, 12 bytes, the number of commands, and more. *)
Definition image (bits : MachBits) (e : endian) (h1 h2 : bytes) (cmds : list Command) (tail : bytes) : bytes :=
  magic_bytes bits e ++ h1 ++ ne_bytes e 4 (Z.of_nat (length cmds)) ++ h2 ++ concat (map (encode_command bits e) cmds) ++ tail.

(** The section of pgrx: its place and size. *)
Definition schema_section (s : SectionDesc) : bool := named (sd_name s) MACHO_SECTION_NAME && named (sd_segment s) MACHO_SEGMENT_NAME.

Definition sections_of (c : Command) : list SectionDesc :=
  match c with
  | SegmentCommand name _ _ sections => if named name MACHO_SEGMENT_NAME then sections else []
  | OtherCommand _ _ => []
  end.

Definition wanted_section (cmds : list Command) : option SectionDesc := List.find schema_section (concat (map sections_of cmds)).

(** *** Ranges of parts *)

Lemma get_range_mid pre mid post a b : a = Z.of_nat (length pre) -> b = a + Z.of_nat (length mid) ->
  get_range (pre ++ mid ++ post) a b = Some mid.
Proof.
  intros -> ->. unfold get_range. rewrite !(proj2 (Z.leb_le _ _)) by (rewrite ?length_app; lia). cbn [andb]. f_equal.
  rewrite Nat2Z.id, drop_app_length. replace (Z.to_nat _) with (length mid) by lia. apply take_app_length.
Qed.

Lemma get_range_first mid post b : b = Z.of_nat (length mid) -> get_range (mid ++ post) 0 b = Some mid.
Proof. intros ->. by apply (get_range_mid [] mid post). Qed.

Lemma read_u32_mid pre post a e v : a = Z.of_nat (length pre) -> a + 4 < 2 ^ 64 -> 0 <= v < 2 ^ 32 ->
  read_u32 (pre ++ ne_bytes e 4 v ++ post) a e = Ok v.
Proof.
  intros Ha Hb Hv. unfold read_u32, usize_add. rewrite (proj2 (Z.ltb_lt _ _)) by lia. cbn [mbind outcome_bind].
  rewrite (get_range_mid pre (ne_bytes e 4 v) post) by (rewrite ?length_ne_bytes; lia). cbn [ok_or mbind outcome_bind].
  by rewrite from_ne_bytes_ne_bytes, Z.mod_small.
Qed.

Lemma read_u64_mid pre post a e v : a = Z.of_nat (length pre) -> a + 8 < 2 ^ 64 -> 0 <= v < 2 ^ 64 ->
  read_u64 (pre ++ ne_bytes e 8 v ++ post) a e = Ok v.
Proof.
  intros Ha Hb Hv. unfold read_u64, usize_add. rewrite (proj2 (Z.ltb_lt _ _)) by lia. cbn [mbind outcome_bind].
  rewrite (get_range_mid pre (ne_bytes e 8 v) post) by (rewrite ?length_ne_bytes; lia). cbn [ok_or mbind outcome_bind].
  by rewrite from_ne_bytes_ne_bytes, Z.mod_small.
Qed.

(** *** Sections *)

Lemma encode_section_fields bits e s : section_wf bits s ->
  let sec := encode_section bits e s in
  Z.of_nat (length sec) = SECTION_LEN (layout_of bits) /\ get_range sec 0 16 = Some (sd_name s)
  /\ get_range sec 16 32 = Some (sd_segment s)
  /\ section_size (layout_of bits) sec e = Ok (sd_size s) /\ section_offset (layout_of bits) sec e = Ok (sd_offset s).
Proof.
  intros (H1 & H2 & H3 & H4 & H5 & H6). cbv zeta. unfold encode_section. split_and!.
  - rewrite !length_app, !length_ne_bytes, H1, H2, H3, H4. by destruct bits.
  - apply get_range_first. lia.
  - apply (get_range_mid (sd_name s) (sd_segment s)); lia.
  - rewrite (app_assoc (sd_segment s)), (app_assoc (sd_name s)).
    destruct bits; cbn [layout_of section_size layout32 layout64 word_len] in *.
    + apply read_u32_mid; [rewrite !length_app; lia|lia|exact H5].
    + apply read_u64_mid; [rewrite !length_app; lia|lia|exact H5].
  - rewrite (app_assoc (sd_addr s)), (app_assoc (sd_segment s)), (app_assoc (sd_name s)).
    destruct bits; cbn [layout_of section_offset layout32 layout64 word_len] in *.
    all: apply read_u32_mid; [rewrite !length_app, !length_ne_bytes; lia|lia|done].
Qed.

Lemma find_section_encoded bits e data (n : Z) pre sections :
  Forall (section_wf bits) sections -> Z.of_nat (length pre) = n * SECTION_LEN (layout_of bits) -> 0 <= n ->
  Z.of_nat (length (pre ++ concat (map (encode_section bits e) sections))) < 2 ^ 63 ->
  find_section (layout_of bits) e data (pre ++ concat (map (encode_section bits e) sections)) n (length sections)
  = match List.find schema_section sections with
    | Some s => section ← slice_range data (sd_offset s) (sd_size s); Ok (Some section)
    | None => Ok None
    end.
Proof.
  intros Hwf. revert n pre. induction Hwf as [|s sections Hs _ IH]; intros n pre Hn Hn0 Hl; [done|].
  cbn [map concat] in *. destruct (encode_section_fields bits e s Hs) as (Hlen & Hnm & Hsg & Hsz & Hof).
  set (sec := encode_section bits e s) in *. set (rest := concat (map (encode_section bits e) sections)) in *.
  rewrite !length_app in Hl. cbn [length find_section]. unfold usize_mul, usize_add, index_range.
  rewrite (proj2 (Z.ltb_lt _ _)) by lia. cbn [mbind outcome_bind]. rewrite (proj2 (Z.ltb_lt _ _)) by lia. cbn [mbind outcome_bind].
  rewrite (get_range_mid pre sec rest) by lia. cbn [unwrap mbind outcome_bind]. rewrite Hnm. cbn [unwrap mbind outcome_bind].
  rewrite Hsg. cbn [unwrap mbind outcome_bind List.find]. change (named _ _ && named _ _) with (schema_section s).
  destruct (schema_section s).
  - rewrite Hsz. cbn [mbind outcome_bind]. rewrite Hof. done.
  - rewrite (app_assoc pre). apply IH; [rewrite length_app; lia|lia|]. rewrite !length_app. lia.
Qed.

(** *** Commands *)

Definition found (data : bytes) (o : option SectionDesc) : Parsed (option bytes) :=
  match o with
  | Some s => section ← slice_range data (sd_offset s) (sd_size s); Ok (Some section)
  | None => Ok None
  end.

Lemma concat_sections_length bits e sections : Forall (section_wf bits) sections ->
  Z.of_nat (length (concat (map (encode_section bits e) sections))) = Z.of_nat (length sections) * SECTION_LEN (layout_of bits).
Proof.
  induction 1 as [|s sections Hs _ IH]; cbn [map concat length]; [lia|]. rewrite length_app.
  destruct (encode_section_fields bits e s Hs) as (Hlen & _). lia.
Qed.

Lemma from_segment_encoded bits e data c name middle flags sections : c = SegmentCommand name middle flags sections ->
  command_wf bits e c -> from_segment (layout_of bits) e data (encode_command bits e c) = found data (List.find schema_section (sections_of c)).
Proof.
  intros -> (Hlt & Hn & Hm & Hf & Hs). pose proof (concat_sections_length bits e sections Hs) as Hcl. unfold encode_command, from_segment.
  set (secs := concat (map (encode_section bits e) sections)) in *.
  set (c1 := ne_bytes e 4 (command_code _ _)). set (c2 := ne_bytes e 4 (8 + _)).
  assert (Hc1 : length c1 = 4%nat) by apply length_ne_bytes. assert (Hc2 : length c2 = 4%nat) by apply length_ne_bytes.
  cbn [command_body sections_of] in *. fold secs in Hlt |- *. set (ns := ne_bytes e 4 (Z.of_nat (length sections))) in *.
  assert (Hns : length ns = 4%nat) by apply length_ne_bytes. rewrite !length_app, Hn, Hf, Hns in Hlt.
  rewrite (proj2 (Z.ltb_ge _ _)) by (rewrite !length_app; destruct bits; cbn in Hm |- *; lia). unfold index_range.
  rewrite (app_assoc c1 c2), (get_range_mid (c1 ++ c2) name _ 8 24) by (rewrite ?length_app; lia). cbn [unwrap mbind outcome_bind].
  destruct (named name MACHO_SEGMENT_NAME); cbn [negb]; [|done].
  rewrite (app_assoc name middle), (app_assoc (c1 ++ c2) (name ++ middle)).
  assert (0 <= SECTION_LEN (layout_of bits)) by (by destruct bits).
  assert (Hnb : 0 <= Z.of_nat (length sections) < 2 ^ 32).
  { assert (1 <= SECTION_LEN (layout_of bits)) by (by destruct bits). nia. }
  assert (Hr : read_u32 (((c1 ++ c2) ++ name ++ middle) ++ ns ++ flags ++ secs) (nsects_at (layout_of bits)) e
    = Ok (Z.of_nat (length sections)))
    by (apply read_u32_mid; [rewrite !length_app; destruct bits; cbn in Hm |- *; lia|destruct bits; cbn; lia|done]).
  rewrite Hr. cbn [mbind outcome_bind].
  assert (Hpre : Z.of_nat (length (((c1 ++ c2) ++ name ++ middle) ++ ns ++ flags)) = SEGMENT_LEN (layout_of bits))
    by (rewrite !length_app; destruct bits; cbn in Hm |- *; lia).
  replace (((c1 ++ c2) ++ name ++ middle) ++ ns ++ flags ++ secs) with ((((c1 ++ c2) ++ name ++ middle) ++ ns ++ flags) ++ secs ++ [])
    by (by rewrite app_nil_r, <- !app_assoc).
  rewrite (get_range_mid _ secs []); [|done|rewrite length_app, app_nil_r; lia]. cbn [unwrap mbind outcome_bind].
  rewrite (proj2 (Z.ltb_lt _ (2 ^ 64))) by lia. cbn [negb]. rewrite (proj2 (Z.ltb_ge _ _)) by lia.
  rewrite Nat2Z.id. apply (find_section_encoded bits e data 0 [] sections); [done|done|done|]. cbn [app]. fold secs. lia.
Qed.

Lemma encode_command_length bits e c : length (encode_command bits e c) = (8 + length (command_body bits e c))%nat.
Proof. unfold encode_command. rewrite !length_app, !length_ne_bytes. lia. Qed.

Lemma find_app {A} (f : A -> bool) l l' : List.find f (l ++ l') = match List.find f l with Some x => Some x | None => List.find f l' end.
Proof. induction l as [|x l IH]; cbn; [done|]. by destruct (f x). Qed.

Lemma load_commands_encoded bits e cmds : Forall (command_wf bits e) cmds -> forall pre tail data,
  data = pre ++ concat (map (encode_command bits e) cmds) ++ tail -> Z.of_nat (length data) < 2 ^ 63 ->
  load_commands bits e data (Z.of_nat (length pre)) (length cmds) = found data (wanted_section cmds).
Proof.
  induction 1 as [|c cmds Hc _ IH]; intros pre tail data Hd Hl; [done|]. cbn [map concat length load_commands] in *.
  pose proof (encode_command_length bits e c) as Hel. rewrite <- app_assoc in Hd.
  set (rest := concat (map (encode_command bits e) cmds) ++ tail) in *.
  assert (Hlen : length data = (length pre + (length (encode_command bits e c) + length rest))%nat) by (rewrite Hd, !length_app; lia).
  set (body := command_body bits e c) in *. set (size := 8 + Z.of_nat (length body)).
  assert (Hb : size < 2 ^ 32) by apply Hc.
  assert (Hcode : 0 <= command_code bits c < 2 ^ 32) by (destruct c; [by destruct bits|destruct Hc as (_ & _ & Hr); exact Hr]).
  assert (Hd1 : data = pre ++ ne_bytes e 4 (command_code bits c) ++ ne_bytes e 4 size ++ body ++ rest)
    by (rewrite Hd; unfold encode_command; by rewrite <- !app_assoc).
  assert (Hd2 : data = (pre ++ ne_bytes e 4 (command_code bits c)) ++ ne_bytes e 4 size ++ body ++ rest)
    by (rewrite Hd1; by rewrite <- !app_assoc).
  assert (Hr1 : read_u32 data (Z.of_nat (length pre)) e = Ok (command_code bits c)) by (rewrite Hd1; apply read_u32_mid; [done|lia|done]).
  assert (Hr2 : read_u32 data (Z.of_nat (length pre) + 4) e = Ok size)
    by (rewrite Hd2; apply read_u32_mid; [rewrite length_app, length_ne_bytes; lia|lia|lia]).
  rewrite Hr1. cbn [mbind outcome_bind]. unfold usize_add. rewrite (proj2 (Z.ltb_lt _ _)) by lia. cbn [mbind outcome_bind].
  rewrite Hr2. cbn [mbind outcome_bind]. rewrite (proj2 (Z.ltb_ge size 8)) by lia.
  rewrite (proj2 (Z.ltb_lt (_ + size) _)), (proj2 (Z.leb_le (_ + size) _)) by lia. cbn [andb negb]. unfold index_range.
  rewrite Hd at 1. rewrite (get_range_mid pre (encode_command bits e c) rest) by lia. cbn [unwrap mbind outcome_bind].
  assert (Hseg : match bits with
    | Bits32 => if command_code bits c =? LC_SEGMENT then macho_schema_section_from_segment32 (encode_command bits e c) data e else Ok None
    | Bits64 => if command_code bits c =? LC_SEGMENT_64 then macho_schema_section_from_segment64 (encode_command bits e c) data e else Ok None
    end = found data (List.find schema_section (sections_of c))).
  { destruct c as [nm md fl secs|code bd].
    - rewrite <- (from_segment_encoded bits e data _ nm md fl secs eq_refl Hc). by destruct bits.
    - cbn [command_code sections_of List.find]. destruct Hc as (_ & Hne & _).
      destruct bits; cbn [lc_segment] in Hne; by rewrite (proj2 (Z.eqb_neq _ _) Hne). }
  rewrite Hseg. unfold wanted_section. cbn [map concat]. rewrite find_app.
  destruct (List.find schema_section (sections_of c)) as [s|]; cbn [found].
  - by destruct (slice_range data (sd_offset s) (sd_size s)).
  - cbn [mbind outcome_bind]. specialize (IH (pre ++ encode_command bits e c) tail data).
    rewrite length_app in IH. replace (Z.of_nat (length pre) + size) with (Z.of_nat (length pre + length (encode_command bits e c))) by lia.
    apply IH; [rewrite Hd; unfold rest; by rewrite <- !app_assoc|done].
Qed.

(** C33. The schema is found where it was put: in a Mach-O file of either width and byte order,
    with any commands before and after, the reader gives the bytes of the first section
    [__DATA,__pgrxsc], or the error for one that is not inside the file, or nothing
    if there is none. *)
Theorem macho_section_found bits e h1 h2 cmds tail :
  length h1 = 12%nat -> length h2 = match bits with Bits32 => 8%nat | Bits64 => 12%nat end ->
  Forall (command_wf bits e) cmds -> Z.of_nat (length cmds) < 2 ^ 32 ->
  Z.of_nat (length (image bits e h1 h2 cmds tail)) < 2 ^ 63 ->
  macho_schema_section_data (image bits e h1 h2 cmds tail) = found (image bits e h1 h2 cmds tail) (wanted_section cmds).
Proof.
  intros H1 H2 Hwf Hn Hl. set (data := image bits e h1 h2 cmds tail) in *.
  assert (Hm : length (magic_bytes bits e) = 4%nat) by apply length_ne_bytes.
  assert (Hhdr : parse_macho_header data = Ok (bits, e, match bits with Bits32 => 28 | Bits64 => 32 end)).
  { unfold parse_macho_header, data, image. rewrite (get_range_first (magic_bytes bits e)) by (by rewrite Hm).
    cbn [ok_or mbind outcome_bind]. by destruct bits, e. }
  assert (Hr : read_u32 data 16 e = Ok (Z.of_nat (length cmds))).
  { unfold data, image. rewrite (app_assoc (magic_bytes bits e) h1). apply read_u32_mid; [rewrite length_app; lia|lia|lia]. }
  unfold macho_schema_section_data. rewrite Hhdr. cbn [mbind outcome_bind]. rewrite Hr. cbn [mbind outcome_bind]. rewrite Nat2Z.id.
  assert (Hpre : match bits with Bits32 => 28 | Bits64 => 32 end
    = Z.of_nat (length (magic_bytes bits e ++ h1 ++ ne_bytes e 4 (Z.of_nat (length cmds)) ++ h2)))
    by (rewrite !length_app, Hm, H1, length_ne_bytes, H2; by destruct bits).
  rewrite Hpre. apply (load_commands_encoded bits e cmds Hwf _ tail); [|done]. unfold data, image. by rewrite <- !app_assoc.
Qed.

(** *** Witnesses *)

(** The library of the unit tests: one segment with one section, and its bytes. *)
Definition pad16 (s : string) : bytes := as_bytes s ++ replicate (16 - length (as_bytes s)) x00.

Definition sample_payload : bytes := as_bytes "schema".

Definition sample_cmds : list Command :=
  [OtherCommand 0x1B (replicate 16 x01);
   SegmentCommand (pad16 "__DATA") (replicate 40 x00) (replicate 4 x00)
     [{| sd_name := pad16 "__pgrxsc"; sd_segment := pad16 "__DATA"; sd_addr := replicate 8 x00; sd_size := 6; sd_offset := 208;
         sd_rest := replicate 28 x00 |}]].

Definition sample_image : bytes := image Bits64 Little (replicate 12 x00) (replicate 12 x00) sample_cmds sample_payload.

Lemma macho_section_found_witness : macho_schema_section_data sample_image = Ok (Some sample_payload).
Proof.
  unfold sample_image. rewrite macho_section_found; [vm_compute; reflexivity|done|done| |done|vm_compute; done].
  constructor; [split; [done|split; [done|lia]]|]. constructor; [|constructor]. split; [done|]. split_and!; [done..|].
  constructor; [|constructor]. split_and!; try done; cbn; lia.
Defined.

(** The image of the sample, whole and cut inside the section it describes. *)
Lemma macho_read_safe_witness :
  safe_read sample_image (macho_schema_section_data sample_image)
  /\ safe_read (take 210 sample_image) (macho_schema_section_data (take 210 sample_image))
  /\ macho_schema_section_data sample_image = Ok (Some sample_payload)
  /\ length sample_image = 214%nat.
Proof.
  split; [apply macho_read_safe; vm_compute; done|]. split; [apply macho_read_safe; vm_compute; done|].
  by vm_compute.
Defined.

(** A universal binary whose slice for the target is the file itself is read without end. *)
Lemma fat_of_itself_never_ends file_kind slice_arch32 slice_arch64 object_sections data fuel :
  file_kind data = Ok MachOFat32 -> slice_arch32 data = Some data ->
  schema_section_data file_kind slice_arch32 slice_arch64 object_sections fuel data = None.
Proof. intros Hk Hs. induction fuel as [|fuel IH]; [done|]. cbn [schema_section_data]. by rewrite Hk, Hs. Qed.

(** Where slices are shorter than what they are taken from, the search ends. *)
Theorem schema_section_data_ends file_kind slice_arch32 slice_arch64 object_sections data :
  (forall d s, slice_arch32 d = Some s \/ slice_arch64 d = Some s -> (length s < length d)%nat) ->
  exists r, forall fuel, (length data < fuel)%nat ->
    schema_section_data file_kind slice_arch32 slice_arch64 object_sections fuel data = Some r.
Proof.
  intros Hs. remember (length data) as n eqn:Hn. revert data Hn. induction n as [n IH] using lt_wf_ind. intros data ->.
  assert (Hstep : forall s, slice_arch32 data = Some s \/ slice_arch64 data = Some s -> exists r, forall fuel, (length data <= fuel)%nat ->
    schema_section_data file_kind slice_arch32 slice_arch64 object_sections fuel s = Some r).
  { intros s Hsl. specialize (Hs _ _ Hsl). destruct (IH (length s) Hs s eq_refl) as [r Hr]. exists r. intros fuel Hf. apply Hr. lia. }
  destruct (file_kind data) as [[| | | |]| |] eqn:Hk; [destruct (slice_arch32 data) as [s|] eqn:E; [destruct (Hstep s (or_introl eq_refl)) as [r Hr]|]
    |destruct (slice_arch64 data) as [s|] eqn:E; [destruct (Hstep s (or_intror eq_refl)) as [r Hr]|]|..].
  all: eexists; intros [|fuel] Hf; [lia|]; cbn [schema_section_data]; rewrite Hk, ?E; first [apply Hr; lia | done].
Qed.

(** The legacy name is accepted for other files and not for Mach-O. *)
Example legacy_name_not_found :
  is_schema_section_name "__pgrx_schema" = true /\ named (pad16 "__pgrx_schema") MACHO_SECTION_NAME = false.
Proof. vm_compute. done. Qed.
