(* ===== verification/CallArgs.v ===== *)
(** * The arguments of a function

    [ArgAbi], [Arg] and [Args] of [pgrx/src/callconv.rs]: how the wrapper of a function takes
    its arguments, one after the other, from the datums of a call.  The types are the plain
    ones of [DatumConv], options and [Nullable]s of them, and the call itself, a
    virtual argument that takes no datum. *)
From stdpp Require Import base gmap list strings.
From S2P Require Import Prelude Memory Metadata DatumConv.
#[local] Open Scope Z_scope.
#[local] Open Scope ending_scope.

(** [argue_from_datum!]: the types that are arguments through their [from_datum].  A [&CStr]
    is one by [BorrowDatum]; a bare [Datum] and [()] are none. *)
Definition argue_from_datum (t : ty) : bool :=
  match t with TCStr | TDatum | TUnit => false | _ => true end.

Inductive argty := AVal (t : ty) | AOption (a : argty) | ANullable (a : argty) | AFunctionCallInfo.

(** What an argument is unboxed to. *)
Inductive argval := VVal (t : ty) (v : denote t) | VNone | VSome (v : argval) | VFcInfo.

(** [pg_sys::NullableDatum] and [Arg]: the index and the datum. *)
Record NullableDatum := { value : Z; isnull : bool }.
Record Arg := { index : Z; datum : NullableDatum }.

Definition VIRTUAL_ARGUMENT : NullableDatum := {| value := 0; isnull := true |}.

Fixpoint is_virtual_arg (a : argty) : bool :=
  match a with
  | AFunctionCallInfo => true
  | AOption a | ANullable a => is_virtual_arg a
  | AVal _ => false
  end.

Section Unbox.
Context (e : endian) (oc : bool) (compat : Utf8Compat) `{Server}.

Definition unbox_arg_using_from_datum (t : ty) (h : heap) (arg : Arg) : ending (heap * option (denote t)) :=
  from_datum e oc compat t h (value (datum arg)) (isnull (datum arg)).

(** [unbox_nullable_arg] where it is the default of the trait. *)
Definition nullable_default (unbox : heap -> Arg -> ending (heap * argval)) (h : heap) (arg : Arg) : ending (heap * argval) :=
  if isnull (datum arg) then Returned (h, VNone) else r <~~ unbox h arg ;; Returned (r.1, VSome r.2).

(** [unbox_arg_unchecked] and [unbox_nullable_arg]; [VNone] is [None] and [Nullable::Null].  A
    null [&CStr] is a reference to nothing. *)
Fixpoint unbox_both (a : argty) : (heap -> Arg -> ending (heap * argval)) * (heap -> Arg -> ending (heap * argval)) :=
  match a with
  | AVal t =>
      (fun h arg =>
         r <~~ unbox_arg_using_from_datum t h arg ;;
         match r.2 with
         | Some v => Returned (r.1, VVal t v)
         | None =>
             if argue_from_datum t then Panicked ("argument " +:+ show_u32 (index arg) +:+ " must not be null")
             else Undefined
         end,
       fun h arg =>
         r <~~ unbox_arg_using_from_datum t h arg ;;
         Returned (r.1, match r.2 with Some v => VSome (VVal t v) | None => VNone end))
  | AOption a =>
      let unbox h arg :=
        if is_virtual_arg a then r <~~ (unbox_both a).1 h arg ;; Returned (r.1, VSome r.2)
        else if isnull (datum arg) then Returned (h, VNone)
        else (unbox_both a).2 h arg in
      (unbox, nullable_default unbox)
  | ANullable a => let unbox h arg := (unbox_both a).2 h arg in (unbox, nullable_default unbox)
  | AFunctionCallInfo => let unbox h arg := Returned (h, VFcInfo) in (unbox, nullable_default unbox)
  end.

Definition unbox_arg_unchecked (a : argty) (h : heap) (arg : Arg) : ending (heap * argval) := (unbox_both a).1 h arg.
Definition unbox_nullable_arg (a : argty) (h : heap) (arg : Arg) : ending (heap * argval) := (unbox_both a).2 h arg.

(** ** The iterator *)

(** [Args]: what is left, with its indices. *)
Definition Args : Type := list Arg.

Fixpoint enumerate (i : Z) (raw : list NullableDatum) : Args :=
  match raw with [] => [] | d :: raw => {| index := i; datum := d |} :: enumerate (i + 1) raw end.

Definition args (raw : list NullableDatum) : Args := enumerate 0 raw.

Definition synthesize_virtual_arg : Arg := {| index := 2 ^ 64 - 1; datum := VIRTUAL_ARGUMENT |}.

Definition next_arg_unchecked (a : argty) (h : heap) (s : Args) : ending (heap * option argval * Args) :=
  if is_virtual_arg a then r <~~ unbox_arg_unchecked a h synthesize_virtual_arg ;; Returned (r.1, Some r.2, s)
  else match s with
       | [] => Returned (h, None, [])
       | next :: s => r <~~ unbox_arg_unchecked a h next ;; Returned (r.1, Some r.2, s)
       end.

Definition next_arg (a : argty) (h : heap) (s : Args) : ending (heap * option argval * Args) :=
  if is_virtual_arg a then r <~~ unbox_nullable_arg a h synthesize_virtual_arg ;; Returned (r.1, Some r.2, s)
  else match s with
       | [] => Returned (h, None, [])
       | next :: s => r <~~ unbox_nullable_arg a h next ;; Returned (r.1, Some r.2, s)
       end.

(** What the wrapper does: an argument for every parameter, or a panic. *)
Fixpoint take_args (sig : list (string * argty)) (h : heap) (s : Args) : ending (heap * list argval * Args) :=
  match sig with
  | [] => Returned (h, [], s)
  | (pat, a) :: sig =>
      r <~~ next_arg_unchecked a h s ;;
      let '(h, o, s) := r in
      match o with
      | Some v => r <~~ take_args sig h s ;; let '(h, vs, s) := r in Returned (h, v :: vs, s)
      | None => Panicked ("unboxing " +:+ pat +:+ "_ argument failed")
      end
  end.

(** ** Every parameter has its argument *)

(** The values of an argument type. *)
Fixpoint arg_typed (a : argty) (v : argval) : Prop :=
  match a, v with
  | AVal t, VVal t' _ => t = t'
  | (AOption a | ANullable a), VNone => True
  | (AOption a | ANullable a), VSome v => arg_typed a v
  | AFunctionCallInfo, VFcInfo => True
  | _, _ => False
  end.

Lemma unbox_typed a h arg h' v :
  (unbox_arg_unchecked a h arg = Returned (h', v) -> arg_typed a v)
  /\ (unbox_nullable_arg a h arg = Returned (h', v) -> arg_typed (ANullable a) v).
Proof.
  unfold unbox_arg_unchecked, unbox_nullable_arg. revert h' v. induction a as [t|a IH|a IH|]; intros h' v.
  - cbn. split; intros ([h1 [w|]] & _ & Hr)%ebind_inv; cbn in Hr; [by injection Hr as <- <-|by destruct t|by injection Hr as <- <-|by injection Hr as <- <-].
  - assert (Hu : forall h' v, (unbox_both (AOption a)).1 h arg = Returned (h', v) -> arg_typed (AOption a) v).
    { intros h1 w. cbn. destruct (is_virtual_arg a).
      - intros ([h2 u] & Hr & [= <- <-])%ebind_inv. by apply IH in Hr.
      - destruct (isnull (datum arg)); [by intros [= <- <-]|]. intros Hr. by apply (proj2 (IH _ _)) in Hr. }
    split; [apply Hu|]. change ((unbox_both (AOption a)).2 h arg) with (nullable_default (unbox_both (AOption a)).1 h arg).
    unfold nullable_default. destruct (isnull (datum arg)); [by intros [= <- <-]|].
    intros ([h2 u] & Hr & [= <- <-])%ebind_inv. apply (Hu _ _ Hr).
  - assert (Hu : forall h' v, (unbox_both (ANullable a)).1 h arg = Returned (h', v) -> arg_typed (ANullable a) v)
      by (intros h1 w Hr; by apply (proj2 (IH _ _)) in Hr).
    split; [apply Hu|]. change ((unbox_both (ANullable a)).2 h arg) with (nullable_default (unbox_both (ANullable a)).1 h arg).
    unfold nullable_default. destruct (isnull (datum arg)); [by intros [= <- <-]|].
    intros ([h2 u] & Hr & [= <- <-])%ebind_inv. apply (Hu _ _ Hr).
  - cbn. unfold nullable_default. split; [by intros [= <- <-]|]. destruct (isnull (datum arg)); by intros [= <- <-].
Qed.

(** The parameters that take a datum: all but the call, also inside [Option] and
    [Nullable]. *)
Fixpoint innermost (a : argty) : argty := match a with AOption a | ANullable a => innermost a | a => a end.
Definition takes_datum (a : argty) : bool := match innermost a with AFunctionCallInfo => false | _ => true end.
Definition taken (sig : list (string * argty)) : nat := length (List.filter (fun p => takes_datum p.2) sig).

Lemma virtual_takes_none a : is_virtual_arg a = negb (takes_datum a).
Proof. unfold takes_datum. induction a; cbn; done. Qed.

Lemma taken_cons pat a sig : taken ((pat, a) :: sig) = ((if takes_datum a then 1 else 0) + taken sig)%nat.
Proof. unfold taken. cbn. by destruct (takes_datum a). Qed.

(** C28. Arguments go to parameters in order: a function that is called gets a value of the
    right type for every parameter; the parameters that take a datum take them from the
    first on, one each, and the call itself, also as an [Option] or a [Nullable], takes
    none.  Each value is what its datum is unboxed to in the heap that the arguments
    before it left. *)
Theorem arguments_in_order sig raw k h h' vs s : take_args sig h (enumerate k raw) = Returned (h', vs, s) ->
  s = drop (taken sig) (enumerate k raw) /\ Forall2 (fun p v => arg_typed p.2 v) sig vs
  /\ forall j p v, sig !! j = Some p -> vs !! j = Some v -> takes_datum p.2 = true ->
       exists d h1 h2 s1, raw !! taken (take j sig) = Some d
         /\ take_args (take j sig) h (enumerate k raw) = Returned (h1, take j vs, s1)
         /\ unbox_arg_unchecked p.2 h1 {| index := k + Z.of_nat (taken (take j sig)); datum := d |} = Returned (h2, v).
Proof.
  revert raw k h vs. induction sig as [|[pat a] sig IH]; intros raw k h vs; cbn [take_args].
  { intros [= <- <- <-]. split_and!; [done|constructor|]. intros [|j]; done. }
  intros ([[h1 o] s1] & Hn & Hr)%ebind_inv. destruct o as [v|]; [|done]. apply ebind_inv in Hr as ([[h2 vs'] s2] & Ht & [= <- <- <-]).
  pose proof Hn as Hstep. unfold next_arg_unchecked in Hn. rewrite taken_cons. rewrite virtual_takes_none in Hn.
  destruct (takes_datum a) eqn:Hv; cbn [negb] in Hn.
  - destruct raw as [|d raw]; [done|]. cbn [enumerate] in Hn. apply ebind_inv in Hn as ([h3 w] & Hu & [= <- <- <-]).
    destruct (IH raw (k + 1) _ _ Ht) as (-> & Hty & Hval). split; [done|].
    split; [constructor; [by apply (proj1 (unbox_typed a _ _ _ _) Hu)|done]|].
    intros [|j] p v'; cbn [take].
    + intros [= <-] [= <-] _. exists d, h, h3, (enumerate k (d :: raw)). split; [done|]. split; [done|]. by replace (k + Z.of_nat _) with k by (cbn; lia).
    + intros Hp Hvs Hnv. destruct (Hval j p v' Hp Hvs Hnv) as (d' & h4 & h5 & s4 & Hd & Hpre & Hun).
      rewrite taken_cons, Hv. exists d', h4, h5, s4. split; [done|]. split; [cbn [take_args]; rewrite Hstep; cbn [ebind]; by rewrite Hpre|].
      by replace (k + Z.of_nat (1 + _)) with (k + 1 + Z.of_nat (taken (take j sig))) by lia.
  - apply ebind_inv in Hn as ([h3 w] & Hu & [= <- <- <-]). destruct (IH raw k _ _ Ht) as (-> & Hty & Hval).
    split; [done|]. split; [constructor; [by apply (proj1 (unbox_typed a _ _ _ _) Hu)|done]|].
    intros [|j] p v'; cbn [take].
    + intros [= <-] [= <-]. cbn. by rewrite Hv.
    + rewrite taken_cons, Hv. intros Hp Hvs Hnv. destruct (Hval j p v' Hp Hvs Hnv) as (d' & h4 & h5 & s4 & Hd & Hpre & Hun).
      exists d', h4, h5, s4. split; [done|]. split; [|done]. cbn [take_args]. rewrite Hstep. cbn [ebind]. by rewrite Hpre.
Qed.

(** [NULL] for a parameter: a panic that names it, or [None]. *)
Theorem null_argument h arg t : isnull (datum arg) = true -> argue_from_datum t = true ->
  unbox_arg_unchecked (AVal t) h arg = Panicked ("argument " +:+ show_u32 (index arg) +:+ " must not be null")
  /\ unbox_arg_unchecked (AOption (AVal t)) h arg = Returned (h, VNone)
  /\ unbox_arg_unchecked (ANullable (AVal t)) h arg = Returned (h, VNone).
Proof.
  intros Hn Ht. unfold unbox_arg_unchecked. cbn [unbox_both is_virtual_arg fst snd]. unfold unbox_arg_using_from_datum. rewrite Hn.
  by destruct t.
Qed.
End Unbox.

(** ** A call *)

Definition two_and_call : list (string * argty) :=
  [("a"%string, AVal TI32); ("fcinfo"%string, AOption AFunctionCallInfo); ("b"%string, AOption (AVal TI64))].
Definition two_datums : list NullableDatum := [{| value := 2 ^ 32 - 1; isnull := false |}; {| value := 0; isnull := true |}].

Lemma arguments_in_order_witness :
  take_args Little false Yes two_and_call ∅ (enumerate 0 two_datums) = Returned (∅, [VVal TI32 (-1); VSome VFcInfo; VNone], [])
  /\ drop (taken two_and_call) (enumerate 0 two_datums) = [].
Proof.
  split; [reflexivity|]. symmetry.
  apply (arguments_in_order Little false Yes two_and_call two_datums 0 ∅ ∅ [VVal TI32 (-1); VSome VFcInfo; VNone] []). reflexivity.
Defined.

Lemma null_argument_witness :
  unbox_arg_unchecked Little false Yes (AVal TI32) ∅ {| index := 1; datum := {| value := 0; isnull := true |} |}
    = Panicked "argument 1 must not be null".
Proof.
  apply (null_argument Little false Yes ∅ {| index := 1; datum := {| value := 0; isnull := true |} |} TI32 eq_refl eq_refl).
Defined.

(** The call is there, but a [Nullable] of it is null, as the datum made up for it is; an
    [Option] of it is not. *)
Example nullable_call_is_null :
  next_arg Little false Yes AFunctionCallInfo ∅ [] = Returned (∅, Some VNone, [])
  /\ next_arg_unchecked Little false Yes (ANullable AFunctionCallInfo) ∅ [] = Returned (∅, Some VNone, [])
  /\ next_arg_unchecked Little false Yes (AOption AFunctionCallInfo) ∅ [] = Returned (∅, Some (VSome VFcInfo), []).
Proof. done. Qed.

(** A transaction id from a column, sign-extended, is refused as if it were null. *)
Example high_xid_refused :
  take_args Little false Yes [("x"%string, AVal TXid)] ∅ (args [{| value := 2 ^ 64 - 2 ^ 31; isnull := false |}])
    = Panicked "argument 0 must not be null".
Proof. reflexivity. Qed.

(** Too few datums. *)
Example missing_argument : take_args Little false Yes [("x"%string, AVal TI32)] ∅ (args []) = Panicked "unboxing x_ argument failed".
Proof. reflexivity. Qed.
