(* ===== verification/MemCxt.v ===== *)
(** * Memory contexts and boxes

    [pgrx/src/memcxt.rs], [pgrx/src/memcx.rs], [pgrx/src/pgbox.rs] and the C strings of
    [pgrx-pg-sys/src/cstr.rs]: Postgres' memory contexts, switching between them around a
    closure, contexts that Rust owns, and boxes around what Postgres allocates.

    Postgres is an interface ([MemServer]): its functions over a state that has contexts
    and chunks.  A call on a context or a chunk that is not there is undefined; an error
    that Postgres raises unwinds, with the state it leaves. *)
From stdpp Require Import base list strings.
From S2P Require Import Prelude Memory.
#[local] Open Scope Z_scope.

(** The variables that hold Postgres' own contexts. *)
Inductive Global :=
| TopMemoryContext | PortalContext | ErrorContext | PostmasterContext | CacheMemoryContext
| MessageContext | TopTransactionContext | CurTransactionContext.

(** [ancestors] is a context with the ones above it, itself first, or [None] if it is not
    there; [chunk] is the context a chunk was allocated in, and its bytes.  A call that
    raises an error gives [None]. *)
Class MemServer := {
  pg : Type;
  CurrentMemoryContext : pg -> Z;
  set_CurrentMemoryContext : Z -> pg -> pg;
  global : Global -> pg -> Z;
  ancestors : pg -> Z -> option (list Z);
  chunk : pg -> Z -> option (Z * bytes);
  AllocSetContextCreateExtended : Z -> bytes -> Z -> Z -> Z -> pg -> option Z * pg;
  MemoryContextDelete : Z -> pg -> pg;
  MemoryContextReset : Z -> pg -> pg;
  MemoryContextAlloc : Z -> Z -> pg -> option Z * pg;
  MemoryContextAllocZero : Z -> Z -> pg -> option Z * pg;
  pfree_chunk : Z -> pg -> pg;
  (** A write of Rust's own, to the first bytes of a chunk. *)
  store : Z -> bytes -> pg -> pg;
}.

Section Contexts.
Context {S : MemServer}.

Definition M (A : Type) : Type := pg -> ending A * pg.

Definition ret {A} (a : A) : M A := fun s => (Returned a, s).
Definition throw {A} (why : string) : M A := fun s => (Panicked why, s).
Definition undefined {A} : M A := fun s => (Undefined, s).
Definition bind {A B} (m : M A) (k : A -> M B) : M B := fun s =>
  match m s with
  | (Returned a, s) => k a s
  | (Panicked w, s) => (Panicked w, s)
  | (Undefined, s) => (Undefined, s)
  end.
Definition gets {A} (f : pg -> A) : M A := fun s => (Returned (f s), s).
Definition modify (f : pg -> pg) : M unit := fun s => (Returned tt, f s).

#[local] Notation "x <== m ;; k" := (bind m (fun x => k)) (at level 100, m at next level, right associativity).

(** [drop] at the end of a scope: after it returns, or as it unwinds. *)
Definition scope {A} (body : M A) (after unwinding : M unit) : M A := fun s =>
  match body s with
  | (Returned a, s) => (_ <== after ;; ret a) s
  | (Panicked w, s) => (_ <== unwinding ;; throw w) s
  | (Undefined, s) => (Undefined, s)
  end.

(** ** Postgres' functions, where they are defined *)

Definition live (s : pg) (c : Z) : bool := match ancestors s c with Some _ => true | None => false end.
Definition there (s : pg) (p : Z) : bool := match chunk s p with Some _ => true | None => false end.

(** [m], if the context is there. *)
Definition on_context {A} (c : Z) (m : M A) : M A := b <== gets (fun s => live s c) ;; if b then m else undefined.

(** A call that may raise an error. *)
Definition call {A} (f : pg -> option A * pg) : M A := fun s =>
  match f s with (Some a, s) => (Returned a, s) | (None, s) => (Panicked "out of memory", s) end.

Definition create (parent : Z) (name : bytes) (min init max : Z) : M Z :=
  on_context parent (call (AllocSetContextCreateExtended parent name min init max)).
Definition delete (c : Z) : M unit := on_context c (modify (MemoryContextDelete c)).
Definition alloc_in (c len : Z) : M Z := on_context c (call (MemoryContextAlloc c len)).
Definition alloc0_in (c len : Z) : M Z := on_context c (call (MemoryContextAllocZero c len)).
Definition pfree (p : Z) : M unit := b <== gets (fun s => there s p) ;; if b then modify (pfree_chunk p) else undefined.

(** Writing a whole chunk or its beginning, and reading some of it. *)
Definition write (p : Z) (bs : bytes) : M unit :=
  c <== gets (fun s => chunk s p) ;;
  match c with
  | Some (_, old) => if Z.of_nat (length bs) <=? Z.of_nat (length old) then modify (store p bs) else undefined
  | None => undefined
  end.
Definition read (p len : Z) : M bytes :=
  c <== gets (fun s => chunk s p) ;;
  match c with
  | Some (_, bs) => if len <=? Z.of_nat (length bs) then ret (take (Z.to_nat len) bs) else undefined
  | None => undefined
  end.

Definition palloc (len : Z) : M Z := c <== gets CurrentMemoryContext ;; alloc_in c len.
Definition palloc0 (len : Z) : M Z := c <== gets CurrentMemoryContext ;; alloc0_in c len.

(** [&str::as_pg_cstr] *)
Definition as_pg_cstr (s : bytes) : M Z :=
  p <== palloc0 (Z.of_nat (length s) + 1) ;; _ <== write p s ;; ret p.

Definition option_as_pg_cstr (s : option bytes) : M Z := match s with Some s => as_pg_cstr s | None => ret 0 end.

(** [CString::new(..).unwrap()]: no byte of it is nul. *)
Definition cstring (s : bytes) : M bytes := if existsb (fun b => u8_to_Z b =? 0) s then throw "NulError" else ret s.

(** ** [PgMemoryContexts] *)

Record OwnedMemoryContext := { owned : Z; previous : Z }.

Inductive PgMemoryContexts :=
| Current
| Named (g : Global)
| For (mc : Z)
| Owned (mc : OwnedMemoryContext)
| Of (memcxt : Z)
| Transient (parent : Z) (name : bytes) (min_context_size initial_block_size max_block_size : Z).

Definition value (self : PgMemoryContexts) : M Z :=
  match self with
  | Current => gets CurrentMemoryContext
  | Named g => gets (global g)
  | For mc => ret mc
  | Owned mc => ret (owned mc)
  | Of memcxt => ret memcxt
  | Transient _ _ _ _ _ => throw "cannot use value() to retrieve a Transient PgMemoryContext"
  end.

Definition drop_owned (self : OwnedMemoryContext) : M unit :=
  current <== gets CurrentMemoryContext ;;
  _ <== (if current =? owned self then modify (set_CurrentMemoryContext (previous self)) else ret tt) ;;
  delete (owned self).

(** Dropping a [PgMemoryContexts]: only an owned one has something to do. *)
Definition drop_context (self : PgMemoryContexts) : M unit := match self with Owned mc => drop_owned mc | _ => ret tt end.

Definition ALLOCSET_DEFAULT_MINSIZE := 0.
Definition ALLOCSET_DEFAULT_INITSIZE := 8192.
Definition ALLOCSET_DEFAULT_MAXSIZE := 8388608.

Definition new (name : bytes) : M OwnedMemoryContext :=
  prev <== value Current ;;
  parent <== value Current ;;
  _ <== as_pg_cstr name ;;
  o <== create parent name ALLOCSET_DEFAULT_MINSIZE ALLOCSET_DEFAULT_INITSIZE ALLOCSET_DEFAULT_MAXSIZE ;;
  ret {| owned := o; previous := prev |}.

(** [of]: [GetMemoryChunkContext], undefined on what is not a chunk. *)
Definition of_ptr (ptr : Z) : M (option PgMemoryContexts) :=
  c <== gets (fun s => chunk s ptr) ;;
  match c with
  | Some (parent, _) => ret (if parent =? 0 then None else Some (Of parent))
  | None => undefined
  end.

(** The context it was called on comes back with its [previous]. *)
Definition set_as_current (self : PgMemoryContexts) : M (PgMemoryContexts * PgMemoryContexts) :=
  old_context <== gets CurrentMemoryContext ;;
  let self :=
    match self with
    | Owned mc => if negb (old_context =? owned mc) then Owned {| owned := owned mc; previous := old_context |} else self
    | _ => self
    end in
  v <== value self ;;
  _ <== modify (set_CurrentMemoryContext v) ;;
  ret (For old_context, self).

Definition reset (self : PgMemoryContexts) : M unit := c <== value self ;; on_context c (modify (MemoryContextReset c)).

Definition parent (self : PgMemoryContexts) : M (option PgMemoryContexts) :=
  c <== value self ;;
  a <== gets (fun s => ancestors s c) ;;
  match a with
  | None => undefined
  | Some (_ :: p :: _) => ret (Some (For p))
  | Some _ => ret None
  end.

Definition exec_in_context {R} (context : Z) (f : PgMemoryContexts -> M R) : M R :=
  prev_context <== gets CurrentMemoryContext ;;
  _ <== modify (set_CurrentMemoryContext context) ;;
  result <== f (For context) ;;
  _ <== modify (set_CurrentMemoryContext prev_context) ;;
  ret result.

Definition switch_to {R} (self : PgMemoryContexts) (f : PgMemoryContexts -> M R) : M R :=
  match self with
  | Transient parent name min_context_size initial_block_size max_block_size =>
      name <== cstring name ;;
      context <== create parent name min_context_size initial_block_size max_block_size ;;
      result <== exec_in_context context f ;;
      _ <== delete context ;;
      ret result
  | _ => context <== value self ;; exec_in_context context f
  end.

Definition pstrdup (self : PgMemoryContexts) (s : bytes) : M Z :=
  s <== cstring s ;;
  c <== value self ;;
  p <== alloc_in c (Z.of_nat (length s) + 1) ;;
  _ <== write p (s ++ [x00]) ;;
  ret p.

Definition copy_ptr_into (self : PgMemoryContexts) (src len : Z) : M Z :=
  if src =? 0 then throw "attempt to copy a null pointer"
  else
    c <== value self ;;
    dest <== alloc_in c len ;;
    bs <== read src len ;;
    _ <== write dest bs ;;
    ret dest.

Definition cx_palloc (self : PgMemoryContexts) (len : Z) : M Z := c <== value self ;; alloc_in c len.
Definition cx_palloc0 (self : PgMemoryContexts) (len : Z) : M Z := c <== value self ;; alloc0_in c len.

(** [palloc_struct::<T>()] and its like, of a type of [size_of] bytes. *)
Definition palloc_struct (self : PgMemoryContexts) (size_of : Z) : M Z := cx_palloc self size_of.
Definition palloc0_struct (self : PgMemoryContexts) (size_of : Z) : M Z := cx_palloc0 self size_of.

(** [*] of two [usize]: with overflow checks it panics, without them it wraps. *)
Definition usize_mul (checks : bool) (a b : Z) : M Z :=
  if a * b <? 2 ^ 64 then ret (a * b)
  else if checks then throw "attempt to multiply with overflow" else ret ((a * b) mod 2 ^ 64).

(** The slice of [len] elements at [buffer], which has to be inside its chunk. *)
Definition slice_at (buffer size_of len : Z) : M (Z * Z) :=
  c <== gets (fun s => chunk s buffer) ;;
  match c with
  | Some (_, bs) => if size_of * len <=? Z.of_nat (length bs) then ret (buffer, len) else undefined
  | None => undefined
  end.

Definition palloc_slice (checks : bool) (self : PgMemoryContexts) (size_of len : Z) : M (Z * Z) :=
  n <== usize_mul checks size_of len ;; buffer <== cx_palloc self n ;; slice_at buffer size_of len.
Definition palloc0_slice (checks : bool) (self : PgMemoryContexts) (size_of len : Z) : M (Z * Z) :=
  n <== usize_mul checks size_of len ;; buffer <== cx_palloc0 self n ;; slice_at buffer size_of len.

(** ** [MemCx] *)

Definition from_ptr (raw : Z) : M Z := if raw =? 0 then throw "memory context must be non-null" else ret raw.
Definition exec_in {T} (self : Z) (f : M T) : M T :=
  remembered <== gets CurrentMemoryContext ;;
  _ <== modify (set_CurrentMemoryContext self) ;;
  res <== f ;;
  _ <== modify (set_CurrentMemoryContext remembered) ;;
  ret res.
Definition current_context {T} (f : Z -> M T) : M T := c <== gets CurrentMemoryContext ;; memcx <== from_ptr c ;; f memcx.

(** ** [PgBox] *)

Inductive WhoAllocated := AllocatedByPostgres | AllocatedByRust.

(** A pointer, [None] for null, to something of [size] bytes. *)
Record PgBox := { ptr : option Z; by_whom : WhoAllocated }.

Definition NonNull_new (p : Z) : option Z := if p =? 0 then None else Some p.
Definition from_pg (p : Z) : PgBox := {| ptr := NonNull_new p; by_whom := AllocatedByPostgres |}.
Definition from_rust (p : Z) : PgBox := {| ptr := NonNull_new p; by_whom := AllocatedByRust |}.
Definition null (by_ : WhoAllocated) : PgBox := {| ptr := None; by_whom := by_ |}.

Definition boxed (p : Z) : PgBox := {| ptr := Some p; by_whom := AllocatedByRust |}.
Definition alloc (size_of : Z) : M PgBox := p <== palloc size_of ;; ret (boxed p).
Definition alloc0 (size_of : Z) : M PgBox := p <== palloc0 size_of ;; ret (boxed p).

(** A node, zeroed but for the tag in its first four bytes (of a little-endian machine). *)
Definition alloc_node (size_of node_tag : Z) : M PgBox :=
  p <== palloc0 size_of ;; _ <== write p (to_le_bytes node_tag) ;; ret (boxed p).

(** The context is an argument: it is dropped when the function ends. *)
Definition alloc_in_context (memory_context : PgMemoryContexts) (size_of : Z) : M PgBox :=
  scope (c <== value memory_context ;; p <== alloc_in c size_of ;; ret (boxed p)) (drop_context memory_context) (drop_context memory_context).
Definition alloc0_in_context (memory_context : PgMemoryContexts) (size_of : Z) : M PgBox :=
  scope (c <== value memory_context ;; p <== alloc0_in c size_of ;; ret (boxed p)) (drop_context memory_context) (drop_context memory_context).

Definition is_null (b : PgBox) : bool := match ptr b with None => true | Some _ => false end.
Definition as_ptr (b : PgBox) : Z := match ptr b with Some p => p | None => 0 end.

(** The pointer is taken, so that the box, which is dropped, is empty. *)
Definition into_pg (b : PgBox) : Z * PgBox := (as_ptr b, {| ptr := None; by_whom := by_whom b |}).
Definition into_pg_boxed (b : PgBox) : PgBox * PgBox := (from_pg (as_ptr b), {| ptr := None; by_whom := by_whom b |}).

Definition maybe_pfree (by_ : WhoAllocated) (p : Z) : M unit :=
  match by_ with AllocatedByPostgres => ret tt | AllocatedByRust => pfree p end.
Definition drop_box (b : PgBox) : M unit := match ptr b with Some p => maybe_pfree (by_whom b) p | None => ret tt end.

(** [with]: the box is Postgres' own, and dropping it does nothing. *)
Definition with_box {R} (p : Z) (func : PgBox -> M R) : M R := scope (func (from_pg p)) (drop_box (from_pg p)) (drop_box (from_pg p)).

(** [clone], of a box that Postgres allocated. *)
Definition clone (size_of : Z) (b : PgBox) : M PgBox :=
  match ptr b with
  | None => ret (null AllocatedByPostgres)
  | Some p => copy <== copy_ptr_into Current (as_ptr b) size_of ;; ret (from_pg copy)
  end.

Definition as_ref (size_of : Z) (b : PgBox) : M bytes :=
  match ptr b with
  | Some p => read p size_of
  | None => throw "Attempt to dereference null pointer during `AsRef::as_ref()` of PgBox"
  end.
End Contexts.

Declare Scope memcxt_scope.
Notation "x <== m ;; k" := (bind m (fun x => k)) (at level 100, m at next level, right associativity) : memcxt_scope.
