(* ===== verification/MemCxtSafe.v ===== *)
(** * Memory contexts are used safely

    What Postgres documents of its memory contexts ([MemLaws]), programs of contexts,
    boxes and closures in scopes ([prog]), and the theorems: no such program uses a
    context or a chunk that is gone, however it ends.  An instance keeps the laws, and
    examples show what goes wrong outside of the theorems. *)
From stdpp Require Import base gmap list strings.
From S2P Require Import Prelude Memory MemCxt.
#[local] Open Scope Z_scope.
#[local] Open Scope memcxt_scope.

(** ** Postgres *)

Section Laws.
Context {S : MemServer}.

Definition kept (s s' : pg) : Prop :=
  CurrentMemoryContext s' = CurrentMemoryContext s /\ forall g, global g s' = global g s.
Definition same_contexts (s s' : pg) : Prop := forall x, ancestors s' x = ancestors s x.
Definition same_chunks (s s' : pg) : Prop := forall q, chunk s' q = chunk s q.

(** [x] is [c] or a context below it. *)
Definition below (s : pg) (c x : Z) : bool :=
  match ancestors s x with Some l => bool_decide (c ∈ l) | None => false end.

(** An allocation: a new chunk of the length that was asked for, or nothing. *)
Definition allocates (c len : Z) (s : pg) (r : option Z * pg) : Prop :=
  let '(o, s') := r in
  kept s s' /\ same_contexts s s'
  /\ match o with
     | Some p => p <> 0 /\ chunk s p = None /\ (forall q, q <> p -> chunk s' q = chunk s q)
         /\ exists bs, chunk s' p = Some (c, bs) /\ Z.of_nat (length bs) = Z.max 0 len
     | None => same_chunks s s'
     end.

(** A new context, below its parent, or nothing. *)
Definition creates (parent : Z) (up : list Z) (s : pg) (r : option Z * pg) : Prop :=
  let '(o, s') := r in
  kept s s' /\ same_chunks s s'
  /\ match o with
     | Some c => c <> 0 /\ ancestors s c = None /\ ancestors s' c = Some (c :: up)
         /\ forall x, x <> c -> ancestors s' x = ancestors s x
     | None => same_contexts s s'
     end.

Class MemLaws : Prop := {
  set_current c s : CurrentMemoryContext (set_CurrentMemoryContext c s) = c;
  set_global c s g : global g (set_CurrentMemoryContext c s) = global g s;
  set_contexts c s : same_contexts s (set_CurrentMemoryContext c s);
  set_chunks c s : same_chunks s (set_CurrentMemoryContext c s);
  create_law p name a b c s up : ancestors s p = Some up ->
    creates p up s (AllocSetContextCreateExtended p name a b c s);
  (** Deleting a context deletes the ones below it, and their chunks. *)
  delete_kept c s : kept s (MemoryContextDelete c s);
  delete_contexts c s x : ancestors (MemoryContextDelete c s) x = if below s c x then None else ancestors s x;
  delete_chunks c s q : chunk (MemoryContextDelete c s) q =
    match chunk s q with Some (o, bs) => if below s c o then None else Some (o, bs) | None => None end;
  (** Resetting it frees the same, except the context itself. *)
  reset_kept c s : kept s (MemoryContextReset c s);
  reset_contexts c s x : ancestors (MemoryContextReset c s) x = if below s c x && negb (x =? c) then None else ancestors s x;
  reset_chunks c s q : chunk (MemoryContextReset c s) q =
    match chunk s q with Some (o, bs) => if below s c o then None else Some (o, bs) | None => None end;
  alloc_law c len s : is_Some (ancestors s c) -> allocates c len s (MemoryContextAlloc c len s);
  alloc0_law c len s : is_Some (ancestors s c) -> allocates c len s (MemoryContextAllocZero c len s);
  pfree_kept p s : kept s (pfree_chunk p s) /\ same_contexts s (pfree_chunk p s);
  pfree_chunks p s q : chunk (pfree_chunk p s) q = if q =? p then None else chunk s q;
  store_kept p bs s : kept s (store p bs s) /\ same_contexts s (store p bs s);
  store_chunks p bs s q : chunk (store p bs s) q =
    match chunk s q with
    | Some (o, old) => Some (o, if q =? p then bs ++ drop (length bs) old else old)
    | None => None
    end;
}.

(** The contexts are a tree; the current one, the named ones and the ones of chunks
    are in it. *)
Record wf (s : pg) : Prop := {
  wf_current : is_Some (ancestors s (CurrentMemoryContext s));
  wf_global g : global g s <> 0 -> is_Some (ancestors s (global g s));
  wf_self x l : ancestors s x = Some l -> x ∈ l;
  wf_up x l a : ancestors s x = Some l -> a ∈ l -> exists la, ancestors s a = Some la /\ la ⊆ l;
  wf_chunk q o bs : chunk s q = Some (o, bs) -> is_Some (ancestors s o);
}.

(** What was there before is there after; a context that is new is only below new ones and
    the ones above a named one. *)
Record grows (s s' : pg) : Prop := {
  g_global g : global g s' = global g s;
  g_live x l : ancestors s x = Some l -> ancestors s' x = Some l;
  g_new x l a : ancestors s' x = Some l -> ancestors s x = None -> a ∈ l ->
    ancestors s a = None \/ exists g up, ancestors s (global g s) = Some up /\ a ∈ up;
  g_chunk q c : chunk s q = Some c -> chunk s' q = Some c;
}.

(** ** Programs *)

Definition catch_unwind (body : M unit) : M unit := fun s =>
  match body s with (Panicked _, s) => (Returned tt, s) | r => r end.

Inductive cx := CurrentCx | NamedCx (g : Global) | OwnedCx (i : nat).

Inductive prog :=
| Skip
| Fail
| Seq (p q : prog)
| Palloc (c : cx) (len : Z)
| LetOwned (name : bytes) (body : prog)
| LetBox (size : Z) (give : bool) (body : prog)
| LetBoxIn (g : Global) (size : Z) (give : bool) (body : prog)
| SwitchTo (c : cx) (body : prog)
| SwitchTransient (g : Global) (name : bytes) (min init max : Z) (body : prog)
| CatchUnwind (body : prog).

Definition context (env : list OwnedMemoryContext) (c : cx) : option PgMemoryContexts :=
  match c with
  | CurrentCx => Some Current
  | NamedCx g => Some (Named g)
  | OwnedCx i => Owned <$> env !! i
  end.

(** The contexts in scope are [env], the last one first. *)
Fixpoint run (p : prog) (env : list OwnedMemoryContext) : M unit :=
  match p with
  | Skip => ret tt
  | Fail => throw "panic"
  | Seq p q => _ <== run p env ;; run q env
  | Palloc c len => match context env c with Some x => _ <== cx_palloc x len ;; ret tt | None => undefined end
  | LetOwned name body => o <== new name ;; scope (run body (o :: env)) (drop_owned o) (drop_owned o)
  | LetBox size give body =>
      b <== alloc size ;;
      scope (run body env) (drop_box (if give then (into_pg b).2 else b)) (drop_box b)
  | LetBoxIn g size give body =>
      b <== alloc_in_context (Named g) size ;;
      scope (run body env) (drop_box (if give then (into_pg b).2 else b)) (drop_box b)
  | SwitchTo c body => match context env c with Some x => switch_to x (fun _ => run body env) | None => undefined end
  | SwitchTransient g name min init max body =>
      parent <== gets (global g) ;; switch_to (Transient parent name min init max) (fun _ => run body env)
  | CatchUnwind body => catch_unwind (run body env)
  end.

(** Indices are those of contexts in scope; the named contexts it uses are [use]. *)
Definition cx_ok (n : nat) (use : Global -> Prop) (c : cx) : Prop :=
  match c with CurrentCx => True | NamedCx g => use g | OwnedCx i => (i < n)%nat end.
Fixpoint scoped (n : nat) (use : Global -> Prop) (p : prog) : Prop :=
  match p with
  | Skip | Fail => True
  | Seq p q => scoped n use p /\ scoped n use q
  | Palloc c _ => cx_ok n use c
  | LetOwned _ body => scoped (1 + n) use body
  | LetBox _ _ body | CatchUnwind body => scoped n use body
  | SwitchTo c body => cx_ok n use c /\ scoped n use body
  | SwitchTransient g _ _ _ _ body | LetBoxIn g _ _ body => use g /\ scoped n use body
  end.

Fixpoint catches (p : prog) : bool :=
  match p with
  | Skip | Fail | Palloc _ _ => false
  | Seq p q => catches p || catches q
  | LetOwned _ p | LetBox _ _ p | LetBoxIn _ _ _ p | SwitchTo _ p | SwitchTransient _ _ _ _ _ p => catches p
  | CatchUnwind _ => true
  end.
End Laws.

(** ** Safety *)

Section Safe.
Context {S : MemServer} {L : MemLaws}.

Lemma grows_refl s : grows s s.
Proof. split; try done. intros x l a Hx Hn. by rewrite Hx in Hn. Qed.

Lemma dead_before s s' x : grows s s' -> ancestors s' x = None -> ancestors s x = None.
Proof. intros G Hx. destruct (ancestors s x) eqn:Hs; [|done]. apply (g_live _ _ G) in Hs. by rewrite Hx in Hs. Qed.

Lemma grows_trans s1 s2 s3 : grows s1 s2 -> grows s2 s3 -> grows s1 s3.
Proof.
  intros G G'. split.
  - intros g. by rewrite (g_global _ _ G'), (g_global _ _ G).
  - intros x l Hx. by apply (g_live _ _ G'), (g_live _ _ G).
  - intros x l a Hx Hn Ha. destruct (ancestors s2 x) as [l2|] eqn:H2.
    { pose proof (g_live _ _ G' _ _ H2) as H3. rewrite Hx in H3. injection H3 as <-. by apply (g_new _ _ G x l). }
    destruct (g_new _ _ G' x l a Hx H2 Ha) as [Hd|(g & up & Hg & Hup)]; [left; by apply (dead_before s1 s2)|].
    rewrite (g_global _ _ G) in Hg. destruct (ancestors s1 (global g s1)) as [up1|] eqn:H1.
    + right. exists g, up1. split; [done|]. apply (g_live _ _ G) in H1. rewrite Hg in H1. by injection H1 as <-.
    + by apply (g_new _ _ G (global g s1) up).
  - intros q c Hq. by apply (g_chunk _ _ G'), (g_chunk _ _ G).
Qed.

(** States that differ in what neither the invariant nor growth looks at. *)
Lemma wf_same s s' : (forall g, global g s' = global g s) -> same_contexts s s' ->
  is_Some (ancestors s (CurrentMemoryContext s')) ->
  (forall q o bs, chunk s' q = Some (o, bs) -> is_Some (ancestors s o)) -> wf s -> wf s'.
Proof.
  intros Hg Hc Hcur Hch W. split.
  - by rewrite Hc.
  - intros g. rewrite Hc, Hg. apply (wf_global _ W).
  - intros x l. rewrite Hc. apply (wf_self _ W).
  - intros x l a. rewrite Hc. intros Hx Ha. destruct (wf_up _ W x l a Hx Ha) as (la & Hla & Hs). exists la. by rewrite Hc.
  - intros q o bs Hq. rewrite Hc. by apply (Hch q o bs).
Qed.

Lemma grows_same s s' : (forall g, global g s' = global g s) -> same_contexts s s' ->
  (forall q c, chunk s q = Some c -> chunk s' q = Some c) -> grows s s'.
Proof.
  intros Hg Hc Hch. split; [done| |..|done].
  - intros x l Hx. by rewrite Hc.
  - intros x l a Hx Hn. rewrite Hc, Hn in Hx. done.
Qed.

Lemma wf_set c s : wf s -> is_Some (ancestors s c) -> wf (set_CurrentMemoryContext c s).
Proof.
  intros W Hc. apply (wf_same s); [apply set_global|apply set_contexts|by rewrite set_current| |done].
  intros q o bs. rewrite set_chunks. apply (wf_chunk _ W).
Qed.

Lemma grows_set c s : grows s (set_CurrentMemoryContext c s).
Proof. apply grows_same; [apply set_global|apply set_contexts|]. intros q x. by rewrite set_chunks. Qed.

Lemma allocates_spec c len s r : wf s -> is_Some (ancestors s c) -> allocates c len s r ->
  wf r.2 /\ grows s r.2 /\ kept s r.2 /\ same_contexts s r.2.
Proof.
  destruct r as [o s']. intros W Hc (K & HA & Ho). destruct K as [Kc Kg]. cbn [snd].
  assert (Hch : forall q x, chunk s q = Some x -> chunk s' q = Some x).
  { intros q x Hq. destruct o as [p|]; [|by rewrite Ho]. destruct Ho as (_ & Hp & Hother & _).
    rewrite Hother; [done|]. intros ->. by rewrite Hp in Hq. }
  split_and!; [|by apply grows_same|done..].
  apply (wf_same s); [done|done|rewrite Kc; apply (wf_current _ W)| |done]. intros q o' bs Hq.
  destruct o as [p|]; [|rewrite Ho in Hq; by apply (wf_chunk _ W q _ bs)].
  destruct Ho as (_ & Hp & Hother & bs' & Hn & _). destruct (decide (q = p)) as [->|Hne].
  - rewrite Hn in Hq. by injection Hq as <- <-.
  - rewrite Hother in Hq by done. by apply (wf_chunk _ W q _ bs).
Qed.

(** *** A new context, and its end *)

Section Back.
Context (s s1 : pg) (parent B : Z) (up : list Z).
Hypothesis W : wf s.
Hypothesis Hup : ancestors s parent = Some up.
Hypothesis Hnew : creates parent up s (Some B, s1).

Lemma created : kept s s1 /\ same_chunks s s1 /\ B <> 0 /\ ancestors s B = None /\ ancestors s1 B = Some (B :: up)
  /\ forall x, x <> B -> ancestors s1 x = ancestors s x.
Proof. destruct Hnew as (K & C & H0 & H1 & H2 & H3). by split_and!. Qed.

Lemma live_created x l : ancestors s x = Some l -> ancestors s1 x = Some l.
Proof. destruct created as (_ & _ & _ & Hd & _ & Ho). intros Hx. rewrite Ho; [done|]. intros ->. by rewrite Hd in Hx. Qed.

Lemma fresh_not_above x l : ancestors s x = Some l -> B ∉ l.
Proof.
  destruct created as (_ & _ & _ & Hd & _). intros Hx HB. destruct (wf_up _ W x l B Hx HB) as (la & Hla & _).
  by rewrite Hd in Hla.
Qed.

Lemma wf_created : wf s1.
Proof.
  destruct created as ([Kc Kg] & C & H0 & Hd & HB & Ho). split.
  - rewrite Kc. destruct (wf_current _ W) as [l Hl]. exists l. by apply live_created.
  - intros g. rewrite Kg. intros Hg. destruct (wf_global _ W g Hg) as [l Hl]. exists l. by apply live_created.
  - intros x l Hx. destruct (decide (x = B)) as [->|Hne]; [rewrite HB in Hx; injection Hx as <-; set_solver|].
    rewrite Ho in Hx by done. by apply (wf_self _ W).
  - intros x l a Hx Ha. destruct (decide (x = B)) as [->|Hne].
    + rewrite HB in Hx. injection Hx as <-. apply elem_of_cons in Ha as [->|Ha]; [by exists (B :: up)|].
      destruct (wf_up _ W parent up a Hup Ha) as (la & Hla & Hs). exists la. split; [by apply live_created|set_solver].
    + rewrite Ho in Hx by done. destruct (wf_up _ W x l a Hx Ha) as (la & Hla & Hs). exists la. split; [by apply live_created|done].
  - intros q o bs. rewrite C. intros Hq. destruct (wf_chunk _ W q o bs Hq) as [l Hl]. exists l. by apply live_created.
Qed.

Context (s2 : pg).
Hypothesis W2 : wf s2.
Hypothesis G : grows s1 s2.

(** Nothing that is there in the end is below the new context, except itself. *)
Lemma alone_below x l : ancestors s2 x = Some l -> B ∈ l -> x = B.
Proof.
  destruct created as ([_ Kg] & _ & H0 & Hd & HB & Ho). intros Hx Hl. destruct (decide (x = B)) as [->|Hne]; [done|]. exfalso.
  destruct (ancestors s1 x) as [l1|] eqn:H1.
  - pose proof (g_live _ _ G _ _ H1) as H2. rewrite Hx in H2. injection H2 as <-. rewrite Ho in H1 by done.
    by apply (fresh_not_above x l).
  - destruct (g_new _ _ G x l B Hx H1 Hl) as [Hn|(g & u & Hg & Hu)]; [by rewrite HB in Hn|].
    rewrite Kg in Hg. destruct (decide (global g s = 0)) as [E|E].
    { rewrite E in Hg. rewrite Ho in Hg by done. by apply (fresh_not_above 0 u). }
    destruct (wf_global _ W g E) as [u' Hu']. pose proof (live_created _ _ Hu') as Hu1. rewrite Hg in Hu1. injection Hu1 as <-.
    by apply (fresh_not_above (global g s) u).
Qed.

Lemma below_B x : below s2 B x = bool_decide (x = B /\ is_Some (ancestors s2 B)).
Proof.
  unfold below. destruct (ancestors s2 x) as [l|] eqn:Hx.
  - apply bool_decide_ext. split.
    + intros Hl. pose proof (alone_below x l Hx Hl) as ->. by rewrite Hx.
    + intros [-> _]. by apply (wf_self _ W2).
  - symmetry. apply bool_decide_eq_false. intros [-> [l Hl]]. by rewrite Hx in Hl.
Qed.

Lemma ancestors_B : ancestors s2 B = Some (B :: up).
Proof. destruct created as (_ & _ & _ & _ & HB & _). by apply (g_live _ _ G). Qed.

Lemma deleted_contexts x : ancestors (MemoryContextDelete B s2) x = if decide (x = B) then None else ancestors s2 x.
Proof.
  rewrite delete_contexts, below_B, ancestors_B. destruct (decide (x = B)) as [->|Hne].
  - by rewrite bool_decide_eq_true_2.
  - rewrite bool_decide_eq_false_2; [done|]. by intros [? _].
Qed.

Lemma wf_deleted : CurrentMemoryContext s2 <> B -> wf (MemoryContextDelete B s2).
Proof.
  intros Hcur. destruct (delete_kept B s2) as [Kc Kg]. destruct created as ([_ Kg1] & _ & H0 & Hd & _). split.
  - rewrite Kc, deleted_contexts, decide_False by done. apply (wf_current _ W2).
  - intros g. rewrite Kg. intros Hg. rewrite deleted_contexts. rewrite decide_False; [by apply (wf_global _ W2)|].
    rewrite (g_global _ _ G), Kg1 in Hg |- *. intros E. destruct (wf_global _ W g Hg) as [l Hl]. by rewrite E, Hd in Hl.
  - intros x l. rewrite deleted_contexts. case_decide; [done|]. apply (wf_self _ W2).
  - intros x l a. rewrite deleted_contexts. case_decide; [done|]. intros Hx Ha.
    destruct (wf_up _ W2 x l a Hx Ha) as (la & Hla & Hs). exists la. rewrite deleted_contexts.
    rewrite decide_False; [done|]. intros ->. by pose proof (alone_below x l Hx Ha).
  - intros q o bs. rewrite delete_chunks. destruct (chunk s2 q) as [[o' bs']|] eqn:Hq; [|done]. destruct (below s2 B o') eqn:Hb; [done|].
    intros [= <- <-]. rewrite deleted_contexts. destruct (wf_chunk _ W2 q o' bs' Hq) as [l Hl]. rewrite decide_False; [by eexists|].
    intros ->. unfold below in Hb. rewrite Hl in Hb. apply bool_decide_eq_false in Hb. by apply Hb, (wf_self _ W2).
Qed.

Lemma grows_deleted : grows s (MemoryContextDelete B s2).
Proof.
  destruct (delete_kept B s2) as [_ Kg]. destruct created as ([_ Kg1] & C & H0 & Hd & HB & Ho). split.
  - intros g. by rewrite Kg, (g_global _ _ G), Kg1.
  - intros x l Hx. rewrite deleted_contexts, decide_False; [by apply (g_live _ _ G), live_created|]. intros ->. by rewrite Hd in Hx.
  - intros x l a. rewrite deleted_contexts. case_decide as HxB; [done|]. intros Hx Hn Ha. rewrite <- (Ho x HxB) in Hn.
    destruct (g_new _ _ G x l a Hx Hn Ha) as [Hna|(g & u & Hg & Hu)].
    + left. destruct (decide (a = B)) as [->|Hne]; [done|]. by rewrite <- Ho.
    + right. rewrite Kg1 in Hg. exists g, u. split; [|done]. rewrite <- Ho; [done|]. intros E.
      assert (global g s <> 0) as Hg0 by (by rewrite E). destruct (wf_global _ W g Hg0) as [u' Hu']. by rewrite E, Hd in Hu'.
  - intros q [o bs] Hq. rewrite delete_chunks. rewrite <- C in Hq. rewrite (g_chunk _ _ G _ _ Hq). rewrite below_B.
    rewrite bool_decide_eq_false_2; [done|]. intros [-> _]. rewrite C in Hq. destruct (wf_chunk _ W q B bs Hq) as [l Hl]. by rewrite Hd in Hl.
Qed.

Lemma deleted_same : same_contexts s1 s2 -> same_contexts s (MemoryContextDelete B s2).
Proof.
  destruct created as (_ & _ & _ & Hd & _ & Ho). intros Hs x. rewrite deleted_contexts. case_decide as E; [by rewrite E|]. by rewrite Hs, Ho.
Qed.
End Back.

(** *** However it ends *)

Definition ends_well {A} (strict : bool) (s : pg) (r : ending A * pg) : Prop :=
  r.1 <> Undefined /\ wf r.2 /\ grows s r.2
  /\ (strict = true -> (exists a, r.1 = Returned a) -> CurrentMemoryContext r.2 = CurrentMemoryContext s /\ same_contexts s r.2).

Lemma ends_here {A} k s (a : ending A) : a <> Undefined -> wf s -> ends_well k s (a, s).
Proof. intros Ha W. split_and!; [done|done|apply grows_refl|done]. Qed.

Lemma ends_bind {A B} k (m : M A) (f : A -> M B) s : ends_well k s (m s) ->
  (forall a s', m s = (Returned a, s') -> wf s' -> grows s s' -> ends_well k s' (f a s')) -> ends_well k s (bind m f s).
Proof.
  unfold bind. destruct (m s) as [[a|w|] s'] eqn:Hm; intros (Hu & W & G & Hk) Hf; cbn [fst snd] in *; [|split_and!; try done; by intros _ [? [=]]|done].
  destruct (Hf a s' eq_refl W G) as (Hu2 & W2 & G2 & Hk2). split_and!; [done|done|by apply (grows_trans _ s')|].
  intros E Hr. destruct (Hk E (ex_intro _ a eq_refl)) as [H1 H2]. destruct (Hk2 E Hr) as [H3 H4]. rewrite H3. split; [done|].
  intros x. by rewrite H4.
Qed.

Lemma alive_grows s s' c : grows s s' -> is_Some (ancestors s c) -> is_Some (ancestors s' c).
Proof. intros G [l Hl]. exists l. by apply (g_live _ _ G). Qed.

Lemma live_Some s c : is_Some (ancestors s c) -> live s c = true.
Proof. unfold live. by intros [l ->]. Qed.

Lemma ends_alloc k c len s : wf s -> is_Some (ancestors s c) ->
  ends_well k s (alloc_in c len s) /\ ends_well k s (alloc0_in c len s).
Proof.
  intros W Hc. unfold alloc_in, alloc0_in, on_context, bind, gets. rewrite live_Some by done. unfold call.
  pose proof (allocates_spec _ _ _ _ W Hc (alloc_law c len s Hc)) as (W1 & G1 & K1 & C1).
  pose proof (allocates_spec _ _ _ _ W Hc (alloc0_law c len s Hc)) as (W2 & G2 & K2 & C2).
  split; [destruct (MemoryContextAlloc c len s) as [[p|] s']|destruct (MemoryContextAllocZero c len s) as [[p|] s']];
    cbn [fst snd] in *; (split_and!; [done|done|done|]); intros _ _; split; first [exact C1 | exact C2 | exact (proj1 K1) | exact (proj1 K2)].
Qed.

(** Writing to a chunk that was not there before. *)
Lemma ends_write k s s' p c old bs : grows s s' -> wf s' -> chunk s p = None -> chunk s' p = Some (c, old) ->
  CurrentMemoryContext s' = CurrentMemoryContext s -> same_contexts s s' -> (length bs <= length old)%nat ->
  ends_well k s (write p bs s') /\ exists s2, write p bs s' = (Returned tt, s2).
Proof.
  intros G W Hn Hp Hcur Hc Hlen. unfold write, bind, gets. rewrite Hp. replace (_ <=? _) with true by lia. unfold modify.
  destruct (store_kept p bs s') as [[Kc Kg] C]. split; [|by eexists]. split_and!; cbn [fst snd]; [done|..].
  - apply (wf_same s'); [done|done|rewrite Kc; apply (wf_current _ W)| |done]. intros q o b. rewrite store_chunks.
    destruct (chunk s' q) as [[o' b']|] eqn:Hq; [|done]. intros [= <- _]. by apply (wf_chunk _ W q _ b').
  - apply grows_same; [intros g; by rewrite Kg, (g_global _ _ G)|intros x; by rewrite C|]. intros q [o b] Hq.
    rewrite store_chunks, (g_chunk _ _ G _ _ Hq). replace (q =? p) with false; [done|]. symmetry. apply Z.eqb_neq. intros ->. by rewrite Hn in Hq.
  - intros _ _. rewrite Kc. split; [done|]. intros x. by rewrite C.
Qed.

Lemma ends_as_pg_cstr k name s : wf s -> ends_well k s (as_pg_cstr name s).
Proof.
  intros W. unfold as_pg_cstr, palloc0, alloc0_in, on_context, bind, gets. rewrite live_Some by apply W. unfold call.
  pose proof (wf_current _ W) as Hc. pose proof (alloc0_law (CurrentMemoryContext s) (Z.of_nat (length name) + 1) s Hc) as HA.
  pose proof (allocates_spec _ _ _ _ W Hc HA) as (W1 & G1 & K1 & C1).
  destruct (MemoryContextAllocZero _ _ s) as [[p|] s1]; [|split_and!; try done; intros _ _; split; [apply K1|done]].
  destruct HA as (_ & _ & _ & Hn & _ & bs & Hp & Hlen).
  destruct (ends_write k s s1 p _ bs name G1 W1 Hn Hp (proj1 K1) C1) as [Hw (s2 & E)]; [lia|]. rewrite E in Hw |- *. destruct Hw as (_ & Hw & Hg & Hk). cbn [fst snd] in *. split_and!; [done..|]. intros E' _. apply (Hk E'). by eexists.
Qed.

Lemma ends_exec {R} k c (f : PgMemoryContexts -> M R) s : wf s -> is_Some (ancestors s c) ->
  (forall s1, wf s1 -> grows s s1 -> same_contexts s s1 -> ends_well k s1 (f (For c) s1)) ->
  let r := exec_in_context c f s in
  ends_well k s r /\ ((exists a, r.1 = Returned a) -> CurrentMemoryContext r.2 = CurrentMemoryContext s).
Proof.
  intros W Hc Hf. unfold exec_in_context, bind, gets, modify, ret. cbv zeta.
  specialize (Hf _ (wf_set c s W Hc) (grows_set c s) (set_contexts c s)).
  destruct (f (For c) (set_CurrentMemoryContext c s)) as [[a|w|] s2]; destruct Hf as (Hu & W2 & G2 & Hk); cbn [fst snd] in *; [| |done].
  - split; [|intros _; by rewrite set_current]. split_and!; cbn [fst snd]; [done|..].
    + apply wf_set; [done|]. apply (alive_grows (set_CurrentMemoryContext c s)); [done|]. rewrite set_contexts. apply (wf_current _ W).
    + apply (grows_trans _ (set_CurrentMemoryContext c s)); [apply grows_set|]. by apply (grows_trans _ s2); [|apply grows_set].
    + intros E _. rewrite set_current. split; [done|]. intros x. rewrite set_contexts.
      destruct (Hk E (ex_intro _ a eq_refl)) as [_ Hs]. by rewrite Hs, set_contexts.
  - split; [|by intros [? [=]]]. split_and!; cbn [fst snd]; [done|done| |by intros _ [? [=]]].
    apply (grows_trans _ (set_CurrentMemoryContext c s)); [apply grows_set|done].
Qed.

Lemma ends_create_failed {A} k parent up s s' w : wf s -> creates parent up s (None, s') -> ends_well k s (Panicked (A := A) w, s').
Proof.
  intros W ([Kc Kg] & C & HA). split_and!; cbn [fst snd]; [done|..|by intros _ [? [=]]].
  - apply (wf_same s); [done|done|rewrite Kc; apply (wf_current _ W)| |done]. intros q o bs. rewrite C. apply (wf_chunk _ W).
  - apply grows_same; [done|done|]. intros q c. by rewrite C.
Qed.

(** Dropping an owned context that was made in [s]: what it leaves. *)
Lemma drop_owned_spec k s s1 parent up o s2 : wf s -> ancestors s parent = Some up -> creates parent up s (Some (owned o), s1) ->
  is_Some (ancestors s (previous o)) -> wf s2 -> grows s1 s2 ->
  (k = true -> CurrentMemoryContext s2 = CurrentMemoryContext s1 /\ same_contexts s1 s2) ->
  exists s3, drop_owned o s2 = (Returned tt, s3) /\ wf s3 /\ grows s s3
    /\ (k = true -> CurrentMemoryContext s3 = CurrentMemoryContext s /\ same_contexts s s3).
Proof.
  intros W Hup Hnew Hprev W2 G Hk. destruct (created _ _ _ _ _ Hnew) as ([Kc _] & _ & _ & Hd & _ & _).
  set (s2' := if CurrentMemoryContext s2 =? owned o then set_CurrentMemoryContext (previous o) s2 else s2).
  assert (Hcur : is_Some (ancestors s (CurrentMemoryContext s))) by apply W.
  assert (Hne : CurrentMemoryContext s <> owned o) by (intros E; rewrite E, Hd in Hcur; by destruct Hcur).
  assert (H2 : wf s2' /\ grows s1 s2' /\ CurrentMemoryContext s2' <> owned o /\ same_contexts s2 s2').
  { unfold s2'. destruct (CurrentMemoryContext s2 =? owned o) eqn:E; [|apply Z.eqb_neq in E; by split_and!].
    rewrite set_current. split_and!; [|by apply (grows_trans _ s2); [|apply grows_set]| |apply set_contexts].
    2:{ intros E'. rewrite E', Hd in Hprev. by destruct Hprev. }
    apply wf_set; [done|]. destruct Hprev as [l Hl]. exists l. by apply (g_live _ _ G), (live_created _ _ _ _ _ Hnew). }
  destruct H2 as (W2' & G2' & Hne2 & Hs2). exists (MemoryContextDelete (owned o) s2'). split_and!.
  - unfold drop_owned, delete, on_context, bind, gets, modify, ret. subst s2'. pose proof (ancestors_B _ _ _ _ _ Hnew _ G2') as HB.
    destruct (CurrentMemoryContext s2 =? owned o); rewrite live_Some by (by eexists); done.
  - by apply (wf_deleted s s1 parent _ up).
  - by apply (grows_deleted s s1 parent _ up).
  - intros E. destruct (Hk E) as [H1 H3]. split.
    + rewrite (proj1 (delete_kept _ _)). unfold s2'. rewrite H1, Kc. apply Z.eqb_neq in Hne. rewrite Hne. by rewrite H1.
    + apply (deleted_same s s1 parent _ up); try done. intros x. by rewrite Hs2.
Qed.

Lemma bind_assoc {A B C} (m : M A) (f : A -> M B) (g : B -> M C) s : bind (bind m f) g s = bind m (fun x => bind (f x) g) s.
Proof. unfold bind. by destruct (m s) as [[a|w|] s']. Qed.

Lemma bind_gets {A B} (f : pg -> A) (k : A -> M B) s : bind (gets f) k s = k (f s) s.
Proof. done. Qed.

Lemma ends_owned k name (body : OwnedMemoryContext -> M unit) s : wf s ->
  (forall o s1, wf s1 -> (forall g, global g s1 = global g s) -> (forall x, is_Some (ancestors s x) -> is_Some (ancestors s1 x)) ->
     is_Some (ancestors s1 (owned o)) -> ends_well k s1 (body o s1)) ->
  ends_well k s ((o <== new name ;; scope (body o) (drop_owned o) (drop_owned o)) s).
Proof.
  intros W Hb. unfold new. cbn [value]. rewrite bind_assoc, bind_gets, bind_assoc, bind_gets, bind_assoc.
  apply ends_bind; [by apply ends_as_pg_cstr|]. intros p s0 _ W0 G0. rewrite bind_assoc.
  pose proof (alive_grows _ _ _ G0 (wf_current _ W)) as [up Hup].
  unfold create, on_context. rewrite bind_assoc, bind_gets, live_Some by (by eexists). unfold call, bind at 1.
  pose proof (create_law (CurrentMemoryContext s) name ALLOCSET_DEFAULT_MINSIZE ALLOCSET_DEFAULT_INITSIZE ALLOCSET_DEFAULT_MAXSIZE s0 up Hup) as HC.
  destruct (AllocSetContextCreateExtended _ _ _ _ _ s0) as [[B|] s1]; [|by apply (ends_create_failed k _ _ _ _ _ W0 HC)].
  destruct (created _ _ _ _ _ HC) as ([Kc Kg] & _ & _ & _ & HB & _).
  unfold bind at 1, ret at 1. set (o := {| owned := B; previous := CurrentMemoryContext s |}).
  assert (He : ends_well k s1 (body o s1)).
  { apply Hb; [by apply (wf_created s0 s1 (CurrentMemoryContext s) B up)|intros g; by rewrite Kg, (g_global _ _ G0)| |by exists (B :: up)].
    intros x Hx. apply (alive_grows _ _ _ G0) in Hx as [l Hl]. exists l. by apply (live_created _ _ _ _ _ HC). }
  unfold scope. destruct (body o s1) as [[a|w|] s2]; destruct He as (Hu & W2 & G2 & Hk); cbn [fst snd] in *; [| |done].
  - destruct (drop_owned_spec k s0 s1 _ up o s2 W0 Hup HC) as (s3 & Hd & W3 & G3 & Hk3); try done;
      [intros E; apply (Hk E); by eexists|].
    unfold bind, ret. rewrite Hd. split_and!; try done. intros E _. by apply Hk3.
  - destruct (drop_owned_spec false s0 s1 _ up o s2 W0 Hup HC) as (s3 & Hd & W3 & G3 & Hk3); try done.
    unfold bind, throw. rewrite Hd. split_and!; try done. by intros _ [? [=]].
Qed.

Lemma ends_box k c size give (body : M unit) s : wf s -> is_Some (ancestors s c) ->
  (forall s1, wf s1 -> grows s s1 -> ends_well k s1 (body s1)) ->
  ends_well k s ((p <== alloc_in c size ;; scope body (drop_box (if give : bool then (into_pg (boxed p)).2 else boxed p)) (drop_box (boxed p))) s).
Proof.
  intros W Hc Hb.
  unfold alloc_in, on_context. rewrite bind_assoc, bind_gets, live_Some by done. unfold call, bind at 1.
  pose proof (alloc_law c size s Hc) as HA. pose proof (allocates_spec _ _ _ _ W Hc HA) as (W1 & G1 & K1 & C1).
  destruct (MemoryContextAlloc _ _ s) as [[p|] s1]; cbn [snd] in *; [|split_and!; try done; by intros _ [? [=]]].
  destruct HA as (_ & _ & _ & Hn & Ho & bs & Hp & _). specialize (Hb s1 W1 G1).
  assert (Hfree : forall s2, wf s2 -> grows s1 s2 -> exists s3, drop_box (boxed p) s2 = (Returned tt, s3) /\ wf s3 /\ grows s s3 /\ kept s2 s3 /\ same_contexts s2 s3).
  { intros s2 W2 G2. pose proof (g_chunk _ _ G2 _ _ Hp) as Hp2. exists (pfree_chunk p s2). destruct (pfree_kept p s2) as [[Kc Kg] Kx].
    unfold drop_box, boxed, maybe_pfree, pfree, bind, gets, modify, there. cbn [ptr by_whom]. rewrite Hp2. split_and!; [done|..|done|done].
    - apply (wf_same s2); [done|done|rewrite Kc; apply (wf_current _ W2)| |done]. intros q o b. rewrite pfree_chunks.
      destruct (q =? p); [done|]. apply (wf_chunk _ W2).
    - pose proof (grows_trans _ _ _ G1 G2) as G. split.
      + intros g. by rewrite Kg, (g_global _ _ G).
      + intros x l Hx. rewrite Kx. by apply (g_live _ _ G).
      + intros x l a. rewrite Kx. apply (g_new _ _ G).
      + intros q e Hq. rewrite pfree_chunks. replace (q =? p) with false; [by apply (g_chunk _ _ G)|]. symmetry. apply Z.eqb_neq. intros ->. by rewrite Hn in Hq. }
  unfold scope. destruct (body s1) as [[a|w|] s2]; destruct Hb as (Hu & W2 & G2 & Hk); cbn [fst snd] in *; [| |done].
  - destruct (Hfree s2 W2 G2) as (s3 & Hd & W3 & G3 & K3 & C3). destruct give; unfold bind, ret.
    + split_and!; [done|done|by apply (grows_trans _ s1)|]. unfold drop_box, into_pg, ret. cbn [fst snd ptr]. intros E _. destruct (Hk E ltac:(by eexists)) as [H1 H2].
      rewrite H1, (proj1 K1). split; [done|]. intros x. by rewrite H2, C1.
    + rewrite Hd. split_and!; [done|done|done|]. cbn [fst snd]. intros E _. destruct (Hk E ltac:(by eexists)) as [H1 H2].
      rewrite (proj1 K3), H1, (proj1 K1). split; [done|]. intros x. by rewrite C3, H2, C1.
  - destruct (Hfree s2 W2 G2) as (s3 & Hd & W3 & G3 & K3 & C3). unfold bind, throw. rewrite Hd. split_and!; try done. by intros _ [? [=]].
Qed.

Lemma grows_created s s1 g B up : wf s -> ancestors s (global g s) = Some up -> creates (global g s) up s (Some B, s1) -> grows s s1.
Proof.
  intros W Hup Hnew. destruct (created _ _ _ _ _ Hnew) as ([Kc Kg] & C & H0 & Hd & HB & Ho). split; [done| |..].
  - intros x l. apply (live_created _ _ _ _ _ Hnew).
  - intros x l a Hx Hn Ha. destruct (decide (x = B)) as [->|Hne]; [|rewrite Ho, Hn in Hx by done; done].
    rewrite HB in Hx. injection Hx as <-. apply elem_of_cons in Ha as [->|Ha]; [by left|]. right. by exists g, up.
  - intros q c. by rewrite C.
Qed.

Lemma ends_transient k g name a b c (body : M unit) s : wf s -> is_Some (ancestors s (global g s)) ->
  (forall s1, wf s1 -> grows s s1 -> ends_well k s1 (body s1)) ->
  ends_well k s (switch_to (Transient (global g s) name a b c) (fun _ => body) s).
Proof.
  intros W [up Hup] Hb. cbn [switch_to]. apply ends_bind.
  { unfold cstring. destruct (existsb _ name); by apply ends_here. }
  intros name' s0 Hc W0 G0. assert (s0 = s) as -> by (unfold cstring in Hc; by destruct (existsb _ name); injection Hc). clear Hc W0 G0.
  unfold create, on_context. rewrite bind_assoc, bind_gets, live_Some by (by eexists). unfold call, bind at 1.
  pose proof (create_law (global g s) name' a b c s up Hup) as HC.
  destruct (AllocSetContextCreateExtended _ _ _ _ _ s) as [[B|] s1]; [|by apply (ends_create_failed k _ _ _ _ _ W HC)].
  pose proof (wf_created s s1 (global g s) B up W Hup HC) as W1. pose proof (grows_created s s1 g B up W Hup HC) as G1.
  destruct (created _ _ _ _ _ HC) as ([Kc Kg] & _ & _ & Hd & HB & _).
  destruct (ends_exec k B (fun _ => body) s1 W1) as [He Hr]; [by eexists|intros s2 W2 G2 _; apply Hb; [done|by apply (grows_trans _ s1)]|].
  unfold bind. destruct (exec_in_context B (fun _ => body) s1) as [[u|w|] s2]; destruct He as (Hu & W2 & G2 & Hk); cbn [fst snd] in *; [| |done].
  - specialize (Hr ltac:(by eexists)). assert (Hne : CurrentMemoryContext s2 <> B).
    { rewrite Hr, Kc. intros E. destruct (wf_current _ W) as [l Hl]. by rewrite E, Hd in Hl. }
    unfold delete, on_context, bind, gets. pose proof (ancestors_B _ _ _ _ _ HC _ G2) as HB2. rewrite live_Some by (by eexists).
    unfold modify, ret. split_and!; cbn [fst snd]; [done|by apply (wf_deleted s s1 (global g s) _ up)|by apply (grows_deleted s s1 (global g s) _ up)|].
    intros E _. destruct (Hk E ltac:(by eexists)) as [_ H2]. rewrite (proj1 (delete_kept _ _)), Hr, Kc. split; [done|].
    by apply (deleted_same s s1 (global g s) _ up).
  - split_and!; cbn [fst snd]; [done|done|by apply (grows_trans _ s1)|by intros _ [? [=]]].
Qed.

(** The contexts a program may use. *)
Definition usable (use : Global -> Prop) (env : list OwnedMemoryContext) (s : pg) : Prop :=
  (forall g, use g -> is_Some (ancestors s (global g s))) /\ Forall (fun o => is_Some (ancestors s (owned o))) env.

Lemma usable_later use env s s' : (forall g, global g s' = global g s) -> (forall x, is_Some (ancestors s x) -> is_Some (ancestors s' x)) ->
  usable use env s -> usable use env s'.
Proof.
  intros Hg Hl [H1 H2]. split; [intros g Hu; rewrite Hg; by apply Hl, H1|]. eapply list.Forall_impl; [exact H2|]. intros o. apply Hl.
Qed.

Lemma usable_grows use env s s' : grows s s' -> usable use env s -> usable use env s'.
Proof. intros G. apply usable_later; [apply G|]. intros x. by apply alive_grows. Qed.

Lemma context_value use env c s : wf s -> usable use env s -> cx_ok (length env) use c ->
  exists x v, context env c = Some x /\ value x s = (Returned v, s) /\ is_Some (ancestors s v)
    /\ forall R (f : PgMemoryContexts -> M R), switch_to x f s = exec_in_context v f s.
Proof.
  intros W [H1 H2] Hc. destruct c as [|g|i]; cbn [cx_ok context] in *.
  - eexists _, _. split_and!; [done|done|apply (wf_current _ W)|done].
  - eexists _, _. split_and!; [done|done|by apply H1|done].
  - apply lookup_lt_is_Some in Hc as [o Ho]. rewrite Ho. eexists _, _. split_and!; [done|done| |done].
    by apply (list.Forall_lookup_1 _ _ _ _ H2 Ho).
Qed.

Lemma alloc_in_named {A} g size (k : PgBox -> M A) s :
  (b <== alloc_in_context (Named g) size ;; k b) s = (p <== alloc_in (global g s) size ;; k (boxed p)) s.
Proof.
  unfold alloc_in_context, scope, drop_context, value, ret. unfold bind, gets. by destruct (alloc_in (global g s) size s) as [[p|w|] s'].
Qed.

Lemma run_ends_well use p : forall k env s, wf s -> usable use env s -> scoped (length env) use p -> (k = true -> catches p = false) ->
  ends_well k s (run p env s).
Proof.
  induction p as [| |p IHp q IHq|c len|name p IH|size give p IH|g size give p IH|c p IH|g name a b c p IH|p IH]; intros k env s W U Hs Hk; cbn [run scoped catches] in *.
  - by apply ends_here.
  - by apply ends_here.
  - destruct Hs as [Hp Hq]. apply ends_bind; [apply IHp; try done; intros E; by destruct (orb_false_elim _ _ (Hk E))|].
    intros _ s' _ W' G'. apply IHq; try done; [by apply (usable_grows _ _ s)|intros E; by destruct (orb_false_elim _ _ (Hk E))].
  - destruct (context_value use env c s W U Hs) as (x & v & -> & Hv & Hl & _). apply ends_bind; [|intros _ s' _ W' _; by apply ends_here].
    unfold cx_palloc, bind. rewrite Hv. by apply ends_alloc.
  - apply ends_owned; [done|]. intros o s1 W1 Hg Hl Ho. apply IH; [done| |done|done]. destruct (usable_later _ _ s s1 Hg Hl U) as [H1 H2].
    split; [done|by constructor].
  - unfold alloc, palloc. rewrite bind_assoc, bind_assoc, bind_gets. apply ends_box; [done|apply (wf_current _ W)|]. intros s1 W1 G1.
    apply IH; try done. by apply (usable_grows _ _ s).
  - destruct Hs as [Hg Hs]. rewrite alloc_in_named. apply ends_box; [done|by apply (proj1 U)|]. intros s1 W1 G1. apply IH; try done. by apply (usable_grows _ _ s).
  - destruct Hs as [Hc Hs]. destruct (context_value use env c s W U Hc) as (x & v & -> & Hv & Hl & Hsw). rewrite Hsw.
    apply ends_exec; [done|done|]. intros s1 W1 G1 _. apply IH; try done. by apply (usable_grows _ _ s).
  - destruct Hs as [Hg Hs]. rewrite bind_gets. apply ends_transient; [done|by apply (proj1 U)|]. intros s1 W1 G1. apply IH; try done.
    by apply (usable_grows _ _ s).
  - unfold catch_unwind. specialize (IH false env s W U Hs ltac:(done)).
    destruct (run p env s) as [[u|w|] s']; destruct IH as (Hu & W' & G' & _); cbn [fst snd] in *; [| |done];
      (split_and!; try done; intros E; by specialize (Hk E)).
Qed.

(** C26. Memory contexts are used safely by a program of nested scopes: one that makes owned
    contexts, and boxes in the current context and in named ones, allocates, switches to named, owned and current contexts and to
    transient ones below named contexts, for the time of a closure, and catches panics; the
    named contexts it uses are there.  It never uses or frees a context or a chunk that is
    gone, however it ends; the current context is then one that is there, and every context
    and every chunk from before is there as it was.  If the program returns and caught no
    panic, the current context is the one from before and no context is left over.  (The
    programs do not call [set_as_current], make no transient context below an owned one, let
    no owned context outlive its scope, and give none by value to [alloc_in_context]: there it
    fails, as the examples below show.) *)
Theorem contexts_in_scope use p s : wf s -> (forall g, use g -> is_Some (ancestors s (global g s))) -> scoped 0 use p ->
  exists r s', run p [] s = (r, s') /\ r <> Undefined /\ live s' (CurrentMemoryContext s') = true
    /\ (forall x l, ancestors s x = Some l -> ancestors s' x = Some l)
    /\ (forall q c, chunk s q = Some c -> chunk s' q = Some c)
    /\ (r = Returned tt -> catches p = false -> CurrentMemoryContext s' = CurrentMemoryContext s /\ same_contexts s s').
Proof.
  intros W U Hs. exists (run p [] s).1, (run p [] s).2. split; [by destruct (run p [] s)|].
  destruct (run_ends_well use p false [] s W (conj U (Forall_nil_2 _)) Hs ltac:(done)) as (Hu & W' & G & _).
  split_and!; [done|apply live_Some, W'|apply G|apply G|]. intros Hr Hc.
  destruct (run_ends_well use p true [] s W (conj U (Forall_nil_2 _)) Hs ltac:(done)) as (_ & _ & _ & Hk). apply Hk; [done|]. by eexists.
Qed.
End Safe.

(** ** An instance, and examples *)

Record arena := {
  a_current : Z;
  a_global : Global -> Z;
  a_contexts : gmap Z (list Z);
  a_chunks : gmap Z (Z * bytes);
}.

Definition with_contexts (cs : gmap Z (list Z)) (s : arena) : arena :=
  {| a_current := a_current s; a_global := a_global s; a_contexts := cs; a_chunks := a_chunks s |}.
Definition with_chunks (ch : gmap Z (Z * bytes)) (s : arena) : arena :=
  {| a_current := a_current s; a_global := a_global s; a_contexts := a_contexts s; a_chunks := ch |}.

Definition arena_below (s : arena) (c x : Z) : bool :=
  match a_contexts s !! x with Some l => bool_decide (c ∈ l) | None => false end.

(** The chunks that are not in [c] or below it. *)
Definition chunks_without (c : Z) (s : arena) : gmap Z (Z * bytes) :=
  omap (fun ch => if arena_below s c ch.1 then None else Some ch) (a_chunks s).

Definition arena_create (p : Z) (s : arena) : option Z * arena :=
  let c := next_key (a_contexts s) in
  (Some c, with_contexts (<[c := c :: default [] (a_contexts s !! p)]> (a_contexts s)) s).

(** Memory that has not been set holds [0x7F]. *)
Definition arena_alloc (fill : byte) (c len : Z) (s : arena) : option Z * arena :=
  let p := next_key (a_chunks s) in (Some p, with_chunks (<[p := (c, replicate (Z.to_nat len) fill)]> (a_chunks s)) s).

#[export] Instance arena_server : MemServer := {
  pg := arena;
  CurrentMemoryContext := a_current;
  set_CurrentMemoryContext c s := {| a_current := c; a_global := a_global s; a_contexts := a_contexts s; a_chunks := a_chunks s |};
  global g s := a_global s g;
  ancestors s c := a_contexts s !! c;
  chunk s p := a_chunks s !! p;
  AllocSetContextCreateExtended p _ _ _ _ s := arena_create p s;
  MemoryContextDelete c s :=
    with_contexts (omap (fun l => if bool_decide (c ∈ l) then None else Some l) (a_contexts s)) (with_chunks (chunks_without c s) s);
  MemoryContextReset c s :=
    with_contexts (map_imap (fun x l => if bool_decide (c ∈ l) && negb (x =? c) then None else Some l) (a_contexts s))
      (with_chunks (chunks_without c s) s);
  MemoryContextAlloc := arena_alloc x7f;
  MemoryContextAllocZero := arena_alloc x00;
  pfree_chunk p s := with_chunks (base.delete p (a_chunks s)) s;
  store p bs s := with_chunks (alter (fun ch => (ch.1, bs ++ drop (length bs) ch.2)) p (a_chunks s)) s;
}.

Lemma arena_allocates fill c len s : allocates c len s (arena_alloc fill c len s).
Proof.
  split; [done|split; [done|]]. cbn. destruct (next_key_above (a_chunks s)) as [Hp _]. split_and!; [lia|apply next_key_fresh| |].
  - intros q Hq. by rewrite lookup_insert_ne.
  - exists (replicate (Z.to_nat len) fill). rewrite lookup_insert_eq, length_replicate. split; [done|lia].
Qed.

Lemma arena_without c s q : chunks_without c s !! q =
  match a_chunks s !! q with Some (o, bs) => if below s c o then None else Some (o, bs) | None => None end.
Proof. unfold chunks_without. rewrite lookup_omap. by destruct (a_chunks s !! q) as [[o bs]|]. Qed.

#[export] Instance arena_laws : MemLaws.
Proof.
  split; try done.
  - intros p name a b c s up Hp. cbn in Hp. split; [done|split; [done|]]. cbn. rewrite Hp. destruct (next_key_above (a_contexts s)) as [Hc _].
    split_and!; [lia|apply next_key_fresh|by rewrite lookup_insert_eq|]. intros x Hx. by rewrite lookup_insert_ne.
  - intros c s x. cbn. rewrite lookup_omap. unfold below. cbn. by destruct (a_contexts s !! x).
  - intros c s q. apply arena_without.
  - intros c s x. cbn. rewrite map_lookup_imap. unfold below. cbn. by destruct (a_contexts s !! x).
  - intros c s q. apply arena_without.
  - intros c len s _. apply arena_allocates.
  - intros c len s _. apply arena_allocates.
  - intros p s q. cbn. destruct (Z.eqb_spec q p) as [->|Hne]; [by rewrite lookup_delete_eq|by rewrite lookup_delete_ne].
  - intros p bs s q. cbn. destruct (Z.eqb_spec q p) as [->|Hne].
    + rewrite lookup_alter_eq. by destruct (a_chunks s !! p) as [[o old]|].
    + rewrite lookup_alter_ne by done. by destruct (a_chunks s !! q) as [[o old]|].
Qed.

(** The top context, and the current one below it. *)
Definition start : arena :=
  {| a_current := 2; a_global := fun g => match g with TopMemoryContext => 1 | _ => 0 end;
     a_contexts := {[ 1 := [1]; 2 := [2; 1] ]}; a_chunks := {[ 1 := (2, [x2a]) ]} |}.

Lemma start_contexts x l : a_contexts start !! x = Some l -> (x = 1 /\ l = [1]) \/ (x = 2 /\ l = [2; 1]).
Proof.
  cbn. rewrite lookup_insert_Some, lookup_singleton_Some. intros [[<- <-]|[_ [<- <-]]]; [by left|by right].
Qed.

Lemma wf_start : wf start.
Proof.
  split.
  - by eexists.
  - intros []; cbn; try done; by eexists.
  - intros x l Hx. destruct (start_contexts _ _ Hx) as [[-> ->]|[-> ->]]; set_solver.
  - intros x l a Hx Ha. destruct (start_contexts _ _ Hx) as [[-> ->]|[-> ->]].
    + assert (a = 1) as -> by set_solver. by exists [1].
    + assert (a = 2 \/ a = 1) as [-> | ->] by set_solver; [by exists [2; 1]|exists [1]; split; [done|set_solver]].
  - intros q o bs. cbn. rewrite lookup_singleton_Some. intros [_ [= <- _]]. by eexists.
Qed.

(** A panic under boxes in a transient context and in a named one, in an owned context. *)
Definition unwinding : prog :=
  LetOwned [x61] (SwitchTo (OwnedCx 0) (SwitchTransient TopMemoryContext [x62] 0 8192 8192
    (LetBoxIn TopMemoryContext 8 true (LetBox 8 false Fail)))).

Lemma contexts_in_scope_witness : exists r s', run unwinding [] start = (r, s') /\ r <> Undefined
  /\ live s' (CurrentMemoryContext s') = true /\ chunk s' 1 = Some (2, [x2a]).
Proof.
  destruct (contexts_in_scope (S := arena_server) (fun g => g = TopMemoryContext) unwinding start wf_start) as (r & s' & Hr & Hu & Hl & _ & Hc & _).
  - intros g ->. by eexists.
  - cbn. split_and!; try done; lia.
  - exists r, s'. split_and!; try done. apply Hc. reflexivity.
Defined.

(** The context of [body] is there at the end. *)
Definition current_live {A} (m : M A) : bool := let s := (m start).2 in live s (CurrentMemoryContext s).
Definition is_undefined {A} (m : M A) : bool := match (m start).1 with Undefined => true | _ => false end.

(** A panic inside a transient context of an owned context leaves the transient one current;
    dropping the owned one deletes both. *)
Example transient_in_owned :
  current_live (o <== new [x61] ;;
    scope (switch_to (Transient (owned o) [x62] 0 8192 8192) (fun _ => throw (A := unit) "panic")) (drop_owned o) (drop_owned o)) = false.
Proof. vm_compute. reflexivity. Qed.

(** A context that is made current again keeps the inner one as its previous, and goes back
    to it when that is gone. *)
Example current_again :
  current_live (a <== new [x61] ;; ra <== set_as_current (Owned a) ;;
    b <== new [x62] ;; rb <== set_as_current (Owned b) ;;
    ra <== set_as_current ra.2 ;;
    _ <== drop_context rb.2 ;; drop_context ra.2) = false.
Proof. vm_compute. reflexivity. Qed.

(** An owned context is a child of the context that was current: where it outlives that one,
    dropping it deletes it a second time. *)
Example owned_outlives_parent :
  is_undefined (o <== switch_to (Transient 1 [x62] 0 8192 8192) (fun _ => new [x61]) ;; drop_owned o) = true.
Proof. vm_compute. reflexivity. Qed.

(** A box in an owned context that is passed by value: the context is gone when the box is
    returned. *)
Example box_of_owned_context :
  is_undefined (o <== new [x61] ;; b <== alloc_in_context (Owned o) 8 ;; drop_box b) = true.
Proof. vm_compute. reflexivity. Qed.

(** The size of a slice wraps without overflow checks: the slice is longer than its memory. *)
Example slice_size_wraps :
  is_undefined (palloc_slice false Current 8 (2 ^ 61)) = true
  /\ (palloc_slice true Current 8 (2 ^ 61) start).1 = Panicked "attempt to multiply with overflow".
Proof. split; vm_compute; reflexivity. Qed.

(** After a panic that was caught, what was switched to is still current. *)
Example not_restored : CurrentMemoryContext (run (CatchUnwind (SwitchTo (NamedCx TopMemoryContext) Fail)) [] start).2 = 1.
Proof. vm_compute. reflexivity. Qed.

