(* ===== verification/BgWorker.v ===== *)
(** * Background workers

    [pgrx/src/bgworkers.rs]: the struct a worker is registered with, with its strings in
    arrays of fixed length; what a worker reads of it; signals, their handlers and the
    latch a worker waits on; the handles of dynamic workers; the hooks of shared memory.

    The signals and the worker are interleaved one step of each at a time ([step]); the
    steps of the worker are the calls of [wait_latch], in their order.  Code of others that
    sets or resets the latch and errors of [check_for_interrupts!] are steps too. *)
From stdpp Require Import base list strings relations.
From S2P Require Import Prelude Memory DatumConv.
#[local] Open Scope Z_scope.
#[local] Open Scope ending_scope.

(** ** Registration *)

Definition BGWORKER_SHMEM_ACCESS := 1.
Definition BGWORKER_BACKEND_DATABASE_CONNECTION := 2.

Inductive BgWorkerStartTime := PostmasterStart | ConsistentState | RecoveryFinished.
Definition start_time_bits (t : BgWorkerStartTime) : Z :=
  match t with PostmasterStart => 0 | ConsistentState => 1 | RecoveryFinished => 2 end.

(** A [Duration]: seconds and nanoseconds.  Hooks are numbered. *)
Record Duration := { secs : Z; nanos : Z }.

Record BackgroundWorkerBuilder := {
  b_name : bytes; b_type : bytes; b_flags : Z; b_start_time : BgWorkerStartTime; b_restart_time : option Duration;
  b_library_name : bytes; b_function_name : bytes; b_main_arg : Z; b_extra : bytes; b_notify_pid : Z;
  b_startup_fn : option nat;
}.

Definition new (name : bytes) : BackgroundWorkerBuilder :=
  {| b_name := name; b_type := name; b_flags := BGWORKER_SHMEM_ACCESS; b_start_time := PostmasterStart; b_restart_time := None;
     b_library_name := name; b_function_name := name; b_main_arg := 0; b_extra := []; b_notify_pid := 0; b_startup_fn := None |}.

Definition set_type (b : BackgroundWorkerBuilder) (input : bytes) : BackgroundWorkerBuilder :=
  {| b_name := b_name b; b_type := input; b_flags := b_flags b; b_start_time := b_start_time b; b_restart_time := b_restart_time b;
     b_library_name := b_library_name b; b_function_name := b_function_name b; b_main_arg := b_main_arg b; b_extra := b_extra b;
     b_notify_pid := b_notify_pid b; b_startup_fn := b_startup_fn b |}.
Definition enable_shmem_access (b : BackgroundWorkerBuilder) (startup : option nat) : BackgroundWorkerBuilder :=
  {| b_name := b_name b; b_type := b_type b; b_flags := Z.lor (b_flags b) BGWORKER_SHMEM_ACCESS; b_start_time := b_start_time b;
     b_restart_time := b_restart_time b; b_library_name := b_library_name b; b_function_name := b_function_name b;
     b_main_arg := b_main_arg b; b_extra := b_extra b; b_notify_pid := b_notify_pid b; b_startup_fn := startup |}.
Definition enable_spi_access (b : BackgroundWorkerBuilder) : BackgroundWorkerBuilder :=
  {| b_name := b_name b; b_type := b_type b;
     b_flags := Z.lor (Z.lor (b_flags b) BGWORKER_SHMEM_ACCESS) BGWORKER_BACKEND_DATABASE_CONNECTION; b_start_time := RecoveryFinished;
     b_restart_time := b_restart_time b; b_library_name := b_library_name b; b_function_name := b_function_name b;
     b_main_arg := b_main_arg b; b_extra := b_extra b; b_notify_pid := b_notify_pid b; b_startup_fn := b_startup_fn b |}.
Definition set_start_time (b : BackgroundWorkerBuilder) (input : BgWorkerStartTime) : BackgroundWorkerBuilder :=
  {| b_name := b_name b; b_type := b_type b; b_flags := b_flags b; b_start_time := input; b_restart_time := b_restart_time b;
     b_library_name := b_library_name b; b_function_name := b_function_name b; b_main_arg := b_main_arg b; b_extra := b_extra b;
     b_notify_pid := b_notify_pid b; b_startup_fn := b_startup_fn b |}.
Definition set_restart_time (b : BackgroundWorkerBuilder) (input : option Duration) : BackgroundWorkerBuilder :=
  {| b_name := b_name b; b_type := b_type b; b_flags := b_flags b; b_start_time := b_start_time b; b_restart_time := input;
     b_library_name := b_library_name b; b_function_name := b_function_name b; b_main_arg := b_main_arg b; b_extra := b_extra b;
     b_notify_pid := b_notify_pid b; b_startup_fn := b_startup_fn b |}.
Definition set_library (b : BackgroundWorkerBuilder) (input : bytes) : BackgroundWorkerBuilder :=
  {| b_name := b_name b; b_type := b_type b; b_flags := b_flags b; b_start_time := b_start_time b; b_restart_time := b_restart_time b;
     b_library_name := input; b_function_name := b_function_name b; b_main_arg := b_main_arg b; b_extra := b_extra b;
     b_notify_pid := b_notify_pid b; b_startup_fn := b_startup_fn b |}.
Definition set_function (b : BackgroundWorkerBuilder) (input : bytes) : BackgroundWorkerBuilder :=
  {| b_name := b_name b; b_type := b_type b; b_flags := b_flags b; b_start_time := b_start_time b; b_restart_time := b_restart_time b;
     b_library_name := b_library_name b; b_function_name := input; b_main_arg := b_main_arg b; b_extra := b_extra b;
     b_notify_pid := b_notify_pid b; b_startup_fn := b_startup_fn b |}.
Definition set_argument (b : BackgroundWorkerBuilder) (input : option Z) : BackgroundWorkerBuilder :=
  {| b_name := b_name b; b_type := b_type b; b_flags := b_flags b; b_start_time := b_start_time b; b_restart_time := b_restart_time b;
     b_library_name := b_library_name b; b_function_name := b_function_name b; b_main_arg := default 0 input; b_extra := b_extra b;
     b_notify_pid := b_notify_pid b; b_startup_fn := b_startup_fn b |}.
Definition set_extra (b : BackgroundWorkerBuilder) (input : bytes) : BackgroundWorkerBuilder :=
  {| b_name := b_name b; b_type := b_type b; b_flags := b_flags b; b_start_time := b_start_time b; b_restart_time := b_restart_time b;
     b_library_name := b_library_name b; b_function_name := b_function_name b; b_main_arg := b_main_arg b; b_extra := input;
     b_notify_pid := b_notify_pid b; b_startup_fn := b_startup_fn b |}.
Definition set_notify_pid (b : BackgroundWorkerBuilder) (input : Z) : BackgroundWorkerBuilder :=
  {| b_name := b_name b; b_type := b_type b; b_flags := b_flags b; b_start_time := b_start_time b; b_restart_time := b_restart_time b;
     b_library_name := b_library_name b; b_function_name := b_function_name b; b_main_arg := b_main_arg b; b_extra := b_extra b;
     b_notify_pid := input; b_startup_fn := b_startup_fn b |}.

(** The arrays of [RpgffiChar96] and its like: the bytes of the string that fit, then nuls. *)
Fixpoint zip_copy (dest src : bytes) : bytes :=
  match dest, src with
  | _ :: dest, b :: src => b :: zip_copy dest src
  | dest, _ => dest
  end.
Definition rpgffi (n : nat) (s : bytes) : bytes := zip_copy (replicate n x00) s.

(** [pg_sys::BackgroundWorker], from Postgres 17 on. *)
Record BackgroundWorker := {
  bgw_name : bytes; bgw_type : bytes; bgw_flags : Z; bgw_start_time : Z; bgw_restart_time : Z;
  bgw_library_name : bytes; bgw_function_name : bytes; bgw_main_arg : Z; bgw_extra : bytes; bgw_notify_pid : Z;
}.

(** [library_len] is 96 before Postgres 17 and 1024 from there on. *)
Definition worker_from (library_len : nat) (b : BackgroundWorkerBuilder) : BackgroundWorker :=
  {| bgw_name := rpgffi 96 (b_name b);
     bgw_type := rpgffi 96 (b_type b);
     bgw_flags := b_flags b;
     bgw_start_time := start_time_bits (b_start_time b);
     bgw_restart_time := match b_restart_time b with None => -1 | Some d => as_signed 32 (secs d mod 2 ^ 32) end;
     bgw_library_name := rpgffi library_len (b_library_name b);
     bgw_function_name := rpgffi 96 (b_function_name b);
     bgw_main_arg := b_main_arg b;
     bgw_extra := rpgffi 128 (b_extra b);
     bgw_notify_pid := b_notify_pid b |}.

(** [CStr::from_ptr] of an array and [to_str]; without a nul it reads past the array. *)
Definition str_of_array (why : string) (a : bytes) : ending bytes :=
  bs <~~ cstr_at a ;; if utf8_valid bs then Returned bs else Panicked why.

Definition not_a_worker : string :=
  "BackgroundWorker associated functions can only be called from a registered background worker".

Definition get_name (MyBgworkerEntry : option BackgroundWorker) : ending bytes :=
  w <~~ expect not_a_worker MyBgworkerEntry ;; str_of_array "should not have non UTF8" (bgw_name w).
Definition get_extra (MyBgworkerEntry : option BackgroundWorker) : ending bytes :=
  w <~~ expect not_a_worker MyBgworkerEntry ;; str_of_array "'extra' is not valid UTF8" (bgw_extra w).

(** [connect_worker_to_spi]: what is passed to Postgres, [None] for null. *)
Definition cstring_ok (s : option bytes) : option bytes :=
  s ← s; if existsb (fun b => u8_to_Z b =? 0) s then None else Some s.
Definition connect_worker_to_spi (dbname username : option bytes) : option bytes * option bytes :=
  (cstring_ok dbname, cstring_ok username).
Definition connect_worker_to_spi_by_oid (dboid useroid : option Z) : Z * Z := (default 0 dboid, default 0 useroid).

(** ** Handles *)

Inductive BackgroundWorkerStatus := Started | NotYetStarted | Stopped | PostmasterDied | Untracked (notify_pid : Z).

Definition status_from (s : Z) : ending BackgroundWorkerStatus :=
  if s =? 0 then Returned Started
  else if s =? 1 then Returned NotYetStarted
  else if s =? 2 then Returned Stopped
  else if s =? 3 then Returned PostmasterDied
  else Panicked "internal error: entered unreachable code".

Record DynamicBackgroundWorker := { handle : Z; notify_pid : Z }.

(** [RegisterDynamicBackgroundWorker] is [register]. *)
Definition load_dynamic (register : BackgroundWorker -> option Z) (library_len : nat) (b : BackgroundWorkerBuilder)
  : option DynamicBackgroundWorker :=
  let bgw := worker_from library_len b in
  match register bgw with Some h => Some {| handle := h; notify_pid := bgw_notify_pid bgw |} | None => None end.

(** [GetBackgroundWorkerPid] and [WaitForBackgroundWorkerStartup] give a code and a pid. *)
Definition started (r : Z * Z) : ending (BackgroundWorkerStatus + Z) :=
  status <~~ status_from r.1 ;; Returned (match status with Started => inr r.2 | _ => inl status end).
Definition pid (get : Z -> Z * Z) (w : DynamicBackgroundWorker) : ending (BackgroundWorkerStatus + Z) := started (get (handle w)).
Definition wait_for_startup (wait : Z -> Z * Z) (MyProcPid : Z) (w : DynamicBackgroundWorker) : ending (BackgroundWorkerStatus + Z) :=
  if negb (notify_pid w =? MyProcPid) then Returned (inl (Untracked (notify_pid w))) else started (wait (handle w)).
Definition wait_for_shutdown (wait : Z -> Z) (MyProcPid : Z) (w : DynamicBackgroundWorker) : ending (BackgroundWorkerStatus + unit) :=
  if negb (notify_pid w =? MyProcPid) then Returned (inl (Untracked (notify_pid w)))
  else status <~~ status_from (wait (handle w)) ;; Returned (match status with Stopped => inr tt | _ => inl status end).

(** ** Signals and the latch *)

Inductive Signal := SIGHUP | SIGTERM | SIGINT | SIGCHLD.
#[export] Instance signal_eq_dec : EqDecision Signal.
Proof. solve_decision. Defined.

Definition SignalWakeFlags (s : Signal) : Z := match s with SIGHUP => 1 | SIGTERM => 2 | SIGINT => 4 | SIGCHLD => 8 end.
(** [attach_signal_handlers]: the handlers that are installed. *)
Definition attached (wake : Z) (s : Signal) : bool := Z.land wake (SignalWakeFlags s) =? SignalWakeFlags s.

Definition WL_LATCH_SET := 1.
Definition WL_TIMEOUT := 8.
Definition WL_POSTMASTER_DEATH := 16.

(** Where a worker is: in its own code, or in [wait_latch], before each of its steps.  A
    wait has its flags. *)
Inductive pc := Running | Waiting (flags : Z) | Woken (events : Z) | WasReset (events : Z) | Checked (events : Z).

Record worker := {
  got : Signal -> bool;
  ConfigReloadPending : bool;
  ShutdownRequestPending : bool;
  latch : bool;
  postmaster_alive : bool;
  at_ : pc;
}.

Definition with_pc (p : pc) (w : worker) : worker :=
  {| got := got w; ConfigReloadPending := ConfigReloadPending w; ShutdownRequestPending := ShutdownRequestPending w;
     latch := latch w; postmaster_alive := postmaster_alive w; at_ := p |}.
Definition set_latch (b : bool) (w : worker) : worker :=
  {| got := got w; ConfigReloadPending := ConfigReloadPending w; ShutdownRequestPending := ShutdownRequestPending w;
     latch := b; postmaster_alive := postmaster_alive w; at_ := at_ w |}.
Definition set_got (s : Signal) (b : bool) (w : worker) : worker :=
  {| got := fun t => if bool_decide (t = s) then b else got w t; ConfigReloadPending := ConfigReloadPending w;
     ShutdownRequestPending := ShutdownRequestPending w; latch := latch w; postmaster_alive := postmaster_alive w; at_ := at_ w |}.
Definition set_pending (s : Signal) (w : worker) : worker :=
  {| got := got w; ConfigReloadPending := ConfigReloadPending w || bool_decide (s = SIGHUP);
     ShutdownRequestPending := ShutdownRequestPending w || bool_decide (s = SIGTERM);
     latch := latch w; postmaster_alive := postmaster_alive w; at_ := at_ w |}.

(** [worker_spi_sighup], [worker_spi_sigterm], [worker_spi_sigint], [worker_spi_sigchld] *)
Definition handler (s : Signal) (w : worker) : worker := set_latch true (set_pending s (set_got s true w)).

(** [sighup_received] and its like: the flag, which is then cleared. *)
Definition received (s : Signal) (w : worker) : bool * worker := (got w s, set_got s false w).

(** The flags that [wait_latch] waits for. *)
Definition wait_flags (timeout : bool) : Z :=
  if timeout then Z.lor (Z.lor WL_LATCH_SET WL_TIMEOUT) WL_POSTMASTER_DEATH else Z.lor WL_LATCH_SET WL_POSTMASTER_DEATH.

(** The timeout in milliseconds, which has to fit a [c_long]. *)
Definition timeout_ms (timeout : option Duration) : ending Z :=
  match timeout with
  | None => Returned 0
  | Some d =>
      let ms := secs d * 1000 + nanos d / 1000000 in
      if ms <? 2 ^ 63 then Returned ms else Panicked "TryFromIntError"
  end.

(** The last line of [wait_latch]. *)
Definition wait_result (events : Z) (w : worker) : bool * worker :=
  let postmaster_died := negb (Z.land events WL_POSTMASTER_DEATH =? 0) in
  let '(sigterm, w) := received SIGTERM w in (negb sigterm && negb postmaster_died, w).

(** The next step of a worker that is in [wait_latch]: [WaitLatch] does not return while
    nothing it waits for has happened; [interrupted] says that [check_for_interrupts!]
    raises an error.  The result, once there is one. *)
Definition wake_events (timed_out : bool) (flags : Z) (w : worker) : Z :=
  Z.lor (if latch w then WL_LATCH_SET else 0)
    (Z.lor (if timed_out && negb (Z.land flags WL_TIMEOUT =? 0) then WL_TIMEOUT else 0)
           (if postmaster_alive w then 0 else WL_POSTMASTER_DEATH)).

Inductive progress := Blocked | Goes (w : worker) | Returns (r : bool) (w : worker) | Raises (w : worker).

Definition wait_step (timed_out interrupted : bool) (w : worker) : progress :=
  match at_ w with
  | Running => Blocked
  | Waiting flags =>
      let events := wake_events timed_out flags w in
      if events =? 0 then Blocked else Goes (with_pc (Woken events) w)
  | Woken events => Goes (with_pc (WasReset events) (set_latch false w))
  | WasReset events => if interrupted then Raises (with_pc Running w) else Goes (with_pc (Checked events) w)
  | Checked events => let '(r, w) := wait_result events w in Returns r (with_pc Running w)
  end.

(** [worker_continue] *)
Definition worker_continue : bool := negb (WL_POSTMASTER_DEATH =? 0).

(** A worker, and whether its wakeup was lost: while it had a SIGTERM it did not take, an
    error of [check_for_interrupts!] ended a wait, or code other than [wait_latch] reset
    the latch, and nothing has set the latch since. *)
Record tracked := { lost : bool; wk : worker }.

Definition lose (w w' : worker) (t : tracked) : tracked := {| lost := lost t || got w SIGTERM; wk := w' |}.

(** Everything that can happen next to a worker that has attached the handlers [wake].  Any
    code may set the latch; the code the worker runs, Postgres' own waits and those of
    [wait_for_startup] and [wait_for_shutdown] among it, and what runs inside
    [check_for_interrupts!] may reset it. *)
Inductive step (wake : Z) : tracked -> tracked -> Prop :=
| step_signal t s : attached wake s = true -> step wake t {| lost := false; wk := handler s (wk t) |}
| step_set_latch t : step wake t {| lost := false; wk := set_latch true (wk t) |}
| step_reset_latch t :
    (at_ (wk t) = Running \/ exists events, at_ (wk t) = WasReset events) -> step wake t (lose (wk t) (set_latch false (wk t)) t)
| step_postmaster t : step wake t {| lost := lost t; wk :=
    {| got := got (wk t); ConfigReloadPending := ConfigReloadPending (wk t);
       ShutdownRequestPending := ShutdownRequestPending (wk t); latch := latch (wk t); postmaster_alive := false; at_ := at_ (wk t) |} |}
| step_take t s : at_ (wk t) = Running ->
    step wake t {| lost := lost t && negb (bool_decide (s = SIGTERM)); wk := (received s (wk t)).2 |}
| step_wait t timeout : at_ (wk t) = Running -> step wake t {| lost := lost t; wk := with_pc (Waiting (wait_flags timeout)) (wk t) |}
| step_goes t timed_out w' : wait_step timed_out false (wk t) = Goes w' -> step wake t {| lost := lost t; wk := w' |}
| step_raises t timed_out w' : wait_step timed_out true (wk t) = Raises w' -> step wake t (lose (wk t) w' t)
| step_returns t timed_out r w' : wait_step timed_out false (wk t) = Returns r w' -> step wake t {| lost := false; wk := w' |}.

(** ** The hooks of shared memory *)

(** [shmem_startup_hook] and [PREV_SHMEM_STARTUP_HOOK]. *)
Record hooks := { shmem_startup_hook : option nat; PREV_SHMEM_STARTUP_HOOK : option nat }.

(** [load], after the registration. *)
Definition load_hooks (b : BackgroundWorkerBuilder) (h : hooks) : hooks :=
  match b_startup_fn b with
  | Some startup =>
      if Z.land (b_flags b) BGWORKER_SHMEM_ACCESS =? BGWORKER_SHMEM_ACCESS
      then {| shmem_startup_hook := Some startup; PREV_SHMEM_STARTUP_HOOK := shmem_startup_hook h |} else h
  | None => h
  end.

(** The hooks that run when Postgres calls one: a hook [ours] does its work and calls the
    one in [PREV_SHMEM_STARTUP_HOOK], another does its own. *)
Fixpoint run_hooks (fuel : nat) (ours : nat -> bool) (h : hooks) (hook : option nat) : option (list nat) :=
  match fuel, hook with
  | _, None => Some []
  | O, _ => None
  | S fuel, Some i => if ours i then cons i <$> run_hooks fuel ours h (PREV_SHMEM_STARTUP_HOOK h) else Some [i]
  end.

(** ** The strings of a worker *)

Lemma zip_copy_fits n (s : bytes) : (length s <= n)%nat -> zip_copy (replicate n x00) s = s ++ replicate (n - length s) x00.
Proof.
  revert n. induction s as [|b s IH]; intros n Hn; [by destruct n|]. destruct n as [|n]; simpl in *; [lia|]. rewrite IH by lia. done.
Qed.

Lemma zip_copy_full n (s : bytes) : (n <= length s)%nat -> zip_copy (replicate n x00) s = take n s.
Proof.
  revert n. induction s as [|b s IH]; intros [|n] Hn; simpl in *; try done; [lia|]. rewrite IH by lia. done.
Qed.

Definition no_nul (s : bytes) : bool := forallb (fun b => negb (bool_decide (b = x00))) s.

Lemma cstr_at_unterminated s : no_nul s = true -> cstr_at s = Undefined.
Proof.
  induction s as [|b s IH]; cbn; [done|]. intros [Hb Hs]%andb_true_iff. apply negb_true_iff in Hb. by rewrite Hb, IH.
Qed.

Lemma no_nul_take n s : no_nul s = true -> no_nul (take n s) = true.
Proof. revert n. induction s as [|b s IH]; intros [|n]; cbn; try done. intros [-> Hs]%andb_true_iff. by apply IH. Qed.

Lemma array_reads n why s : no_nul s = true -> utf8_valid s = true ->
  str_of_array why (rpgffi n s) = if decide (length s < n)%nat then Returned s else Undefined.
Proof.
  intros Hn Hu. unfold str_of_array, rpgffi. case_decide as Hl.
  - rewrite zip_copy_fits by lia. replace (n - length s)%nat with (S (n - length s - 1)) by lia. cbn [replicate].
    rewrite cstr_at_nul by done. cbn [ebind]. by rewrite Hu.
  - rewrite zip_copy_full by lia. by rewrite cstr_at_unterminated by (by apply no_nul_take).
Qed.

(** A worker reads the strings it was built with: its name if it is shorter than 96 bytes,
    its extra data if it is shorter than 128; a longer one leaves no room for the nul, and
    what is behind the array is read. *)
Theorem worker_reads_back library_len b : no_nul (b_name b) = true -> no_nul (b_extra b) = true ->
  utf8_valid (b_name b) = true -> utf8_valid (b_extra b) = true ->
  let entry := Some (worker_from library_len b) in
  get_name entry = (if decide (length (b_name b) < 96)%nat then Returned (b_name b) else Undefined)
  /\ get_extra entry = (if decide (length (b_extra b) < 128)%nat then Returned (b_extra b) else Undefined).
Proof. intros Hn He Hnu Heu. cbv zeta. split; by apply array_reads. Qed.

(** ** No worker sleeps through a SIGTERM *)

Definition idle : worker :=
  {| got := fun _ => false; ConfigReloadPending := false; ShutdownRequestPending := false; latch := false;
     postmaster_alive := true; at_ := Running |}.

Definition idle_start : tracked := {| lost := false; wk := idle |}.

(** Outside of the steps between the wait and the check, a SIGTERM that was not taken has
    its latch set, unless the wakeup was lost. *)
Definition awake (t : tracked) : Prop :=
  match at_ (wk t) with Running | Waiting _ => lost t = false -> got (wk t) SIGTERM = true -> latch (wk t) = true | _ => True end.

Lemma awake_wait_step timed_out interrupted l w :
  awake {| lost := l; wk := w |} ->
  match wait_step timed_out interrupted w with
  | Goes w' => awake {| lost := l; wk := w' |}
  | Returns r w' => awake {| lost := false; wk := w' |}
  | Raises w' => at_ w' = Running /\ got w' = got w
  | Blocked => True
  end.
Proof.
  unfold awake, wait_step. cbn [wk lost]. destruct (at_ w) as [|flags|ev|ev|ev] eqn:Ha; intros Hw; [done|by destruct (wake_events _ _ w =? 0)|done|by destruct interrupted|].
  destruct (wait_result ev w) as [r w'] eqn:E. unfold wait_result, received in E. injection E as _ <-. cbn. intros _.
  by rewrite bool_decide_eq_true_2.
Qed.

Lemma awake_step wake t t' : step wake t t' -> awake t -> awake t'.
Proof.
  destruct t as [l w]. inversion 1 as [t s Hs|t|t Hr|t|t s Hr|t timeout Hr|t timed_out w' Hg|t timed_out w' Hg|t timed_out r w' Hg]; subst;
    cbn [wk lost] in *; intros Ha.
  - unfold awake. cbn. by destruct (at_ w).
  - unfold awake. cbn. by destruct (at_ w).
  - unfold awake, lose. cbn. destruct Hr as [-> |[ev ->]]; [|done]. by intros [_ ->]%orb_false_iff.
  - done.
  - unfold awake in *. cbn in *. rewrite Hr in *. destruct (decide (s = SIGTERM)) as [->|Hne]; [by rewrite bool_decide_eq_true_2|].
    rewrite (bool_decide_eq_false_2 (SIGTERM = s)), (bool_decide_eq_false_2 (s = SIGTERM)), andb_true_r by congruence. done.
  - unfold awake in *. cbn in *. by rewrite Hr in Ha.
  - pose proof (awake_wait_step timed_out false l w Ha) as Hw. by rewrite Hg in Hw.
  - pose proof (awake_wait_step timed_out true l w Ha) as Hw. rewrite Hg in Hw. destruct Hw as [Hp Hgot].
    unfold awake, lose. cbn. rewrite Hp, Hgot. by intros [_ ->]%orb_false_iff.
  - pose proof (awake_wait_step timed_out false l w Ha) as Hw. by rewrite Hg in Hw.
Qed.

Lemma awake_reachable wake t : rtc (step wake) idle_start t -> awake t.
Proof.
  intros Hr. assert (H0 : awake idle_start) by done. induction Hr as [|x y z Hs _ IH]; [done|]. apply IH. by apply (awake_step wake x).
Qed.

(** The worker alone, to the end of its wait. *)
Fixpoint finish (n : nat) (w : worker) : option bool :=
  match n with
  | O => None
  | S n => match wait_step false false w with Goes w => finish n w | Returns r _ => Some r | _ => None end
  end.

Lemma latch_wakes timed_out flags w : latch w = true -> wake_events timed_out flags w <> 0.
Proof. unfold wake_events. intros -> H. by apply Z.lor_eq_0_iff in H as [H _]. Qed.

Lemma finish_checked n ev w : at_ w = Checked ev -> got w SIGTERM = true -> finish (S n) w = Some false.
Proof. intros Ha Hg. cbn [finish]. unfold wait_step. rewrite Ha. cbn. by rewrite Hg. Qed.

Lemma finish_reset n ev w : at_ w = WasReset ev -> got w SIGTERM = true -> finish (S (S n)) w = Some false.
Proof. intros Ha Hg. cbn [finish]. unfold wait_step at 1. rewrite Ha. by apply (finish_checked n ev). Qed.

Lemma finish_woken n ev w : at_ w = Woken ev -> got w SIGTERM = true -> finish (S (S (S n))) w = Some false.
Proof. intros Ha Hg. cbn [finish]. unfold wait_step at 1. rewrite Ha. by apply (finish_reset n ev). Qed.

(** C38. A SIGTERM ends the wait: in whatever order the signals, the worker and whatever
    else sets and resets its latch took their steps, a worker in [wait_latch] that has
    got a SIGTERM it did not take needs at most four more steps of its own, none of which
    blocks, to return [false] if [check_for_interrupts!] raises no error in them.  Left
    out is a worker whose wakeup was lost before: since the latch was last set, an error
    of [check_for_interrupts!] ended an earlier wait, or other code reset the latch, with
    that SIGTERM there and not taken. *)
Theorem sigterm_ends_wait wake t :
  rtc (step wake) idle_start t -> lost t = false -> got (wk t) SIGTERM = true -> at_ (wk t) <> Running -> finish 4 (wk t) = Some false.
Proof.
  intros Hr%awake_reachable Hl Hg Ha. unfold awake in Hr. destruct t as [l w]; cbn in *. destruct (at_ w) as [|flags|ev|ev|ev] eqn:E; [done|..].
  - cbn [finish]. unfold wait_step at 1. rewrite E. rewrite (proj2 (Z.eqb_neq _ _) (latch_wakes false flags w (Hr Hl Hg))).
    by apply (finish_woken 0 (wake_events false flags w)).
  - by apply (finish_woken 1 ev).
  - by apply (finish_reset 2 ev).
  - by apply (finish_checked 3 ev).
Qed.

(** ** Hooks *)

Lemma one_worker_hooks fuel ours b h i : b_startup_fn b = Some i -> Z.land (b_flags b) BGWORKER_SHMEM_ACCESS = BGWORKER_SHMEM_ACCESS ->
  ours i = true -> (forall j, shmem_startup_hook h = Some j -> ours j = false) ->
  run_hooks (2 + fuel) ours (load_hooks b h) (shmem_startup_hook (load_hooks b h))
    = Some (i :: match shmem_startup_hook h with Some j => [j] | None => [] end).
Proof.
  intros Hb Hf Hi Hj. unfold load_hooks. rewrite Hb, Hf. cbn. rewrite Hi. destruct (shmem_startup_hook h) as [j|] eqn:E; [|done].
  by rewrite (Hj j eq_refl).
Qed.

(** The second worker's startup function calls the first one's, which calls itself. *)
Lemma two_workers_hooks_never_end b1 b2 h ours i j : b_startup_fn b1 = Some i -> b_startup_fn b2 = Some j ->
  Z.land (b_flags b1) BGWORKER_SHMEM_ACCESS = BGWORKER_SHMEM_ACCESS -> Z.land (b_flags b2) BGWORKER_SHMEM_ACCESS = BGWORKER_SHMEM_ACCESS ->
  ours i = true -> ours j = true ->
  let h' := load_hooks b2 (load_hooks b1 h) in forall fuel, run_hooks fuel ours h' (shmem_startup_hook h') = None.
Proof.
  intros H1 H2 F1 F2 Hi Hj. cbv zeta. unfold load_hooks. rewrite H1, H2, F1, F2. cbn.
  assert (Hloop : forall fuel, run_hooks fuel ours {| shmem_startup_hook := Some j; PREV_SHMEM_STARTUP_HOOK := Some i |} (Some i) = None).
  { induction fuel as [|fuel IH]; cbn; [done|]. rewrite Hi. cbn in IH. by rewrite IH. }
  intros [|fuel]; cbn; [done|]. rewrite Hj. by rewrite Hloop.
Qed.

(** ** Examples *)

Definition demo : BackgroundWorkerBuilder := set_extra (new (as_bytes "demo")) (as_bytes "x=1").

Lemma worker_reads_back_witness :
  get_name (Some (worker_from 1024 demo)) = Returned (as_bytes "demo") /\ get_extra (Some (worker_from 1024 demo)) = Returned (as_bytes "x=1").
Proof. apply (worker_reads_back 1024 demo); reflexivity. Defined.

(** Other code resets the latch and an error ends a wait, then a SIGTERM comes while the
    worker is about to reset its latch in the next wait. *)
Definition before_wake : worker :=
  set_latch true (with_pc (Waiting (wait_flags false)) (with_pc Running (with_pc (WasReset WL_LATCH_SET)
    (set_latch false (with_pc (Woken WL_LATCH_SET) (set_latch true (with_pc (Waiting (wait_flags false)) (set_latch false idle)))))))).
Definition before_sigterm : worker := with_pc (Woken WL_LATCH_SET) before_wake.
Definition late_sigterm : worker := handler SIGTERM before_sigterm.

Lemma sigterm_ends_wait_witness : finish 4 late_sigterm = Some false.
Proof.
  apply (sigterm_ends_wait 2 {| lost := false; wk := late_sigterm |}).
  - apply (rtc_r _ {| lost := false; wk := before_sigterm |}); [apply (rtc_r _ {| lost := false; wk := before_wake |})|].
    + eapply rtc_l; [apply step_reset_latch; left; reflexivity|]. eapply rtc_l; [by apply (step_wait 2 _ false)|].
      eapply rtc_l; [apply step_set_latch|]. eapply rtc_l; [apply (step_goes 2 _ false); reflexivity|].
      eapply rtc_l; [apply (step_goes 2 _ false); reflexivity|]. eapply rtc_l; [apply (step_raises 2 _ false); reflexivity|].
      eapply rtc_l; [by apply (step_wait 2 _ false)|]. apply rtc_once, step_set_latch.
    + by apply (step_goes 2 {| lost := false; wk := before_wake |} false before_sigterm).
    + by apply (step_signal 2 {| lost := false; wk := before_sigterm |} SIGTERM).
  - reflexivity.
  - reflexivity.
  - discriminate.
Defined.

(** An error of [check_for_interrupts!] comes after the latch is reset and before the signal
    is looked at: a worker that goes on waits with a SIGTERM it has got. *)
Example interrupted_wait :
  let w := with_pc (WasReset WL_LATCH_SET) (set_latch false (handler SIGTERM idle)) in
  match wait_step false true w with
  | Raises w => (got w SIGTERM, wait_step false false (with_pc (Waiting (wait_flags false)) w)) = (true, Blocked)
  | _ => False
  end.
Proof. reflexivity. Qed.

(** So does one whose own code reset the latch after the SIGTERM. *)
Example reset_by_others :
  let w := set_latch false (handler SIGTERM idle) in
  (got w SIGTERM, wait_step false false (with_pc (Waiting (wait_flags false)) w)) = (true, Blocked).
Proof. reflexivity. Qed.

(** [worker_continue] is true, whatever happened to the postmaster. *)
Example always_continues : worker_continue = true.
Proof. reflexivity. Qed.

(** Seconds are cut to 32 bits: [2^32 - 1] of them say never to restart. *)
Example restart_wraps :
  bgw_restart_time (worker_from 1024 (set_restart_time demo (Some {| secs := 2 ^ 32 - 1; nanos := 0 |}))) = -1
  /\ bgw_restart_time (worker_from 1024 (set_restart_time demo (Some {| secs := 0; nanos := 999999999 |}))) = 0.
Proof. done. Qed.

(** A database name with a nul is no database at all. *)
Example nul_in_dbname : connect_worker_to_spi (Some [x61; x00]) None = (None, None).
Proof. reflexivity. Qed.

(** SPI access is refused by Postgres before recovery; asking for an earlier start after it
    undoes the start time it sets. *)
Example start_time_overridden :
  let b := set_start_time (enable_spi_access demo) PostmasterStart in
  (Z.land (b_flags b) BGWORKER_BACKEND_DATABASE_CONNECTION, b_start_time b) = (BGWORKER_BACKEND_DATABASE_CONNECTION, PostmasterStart).
Proof. reflexivity. Qed.
