(* ===== verification/NodeTags.v ===== *)
(** * Casts between nodes

    [pgrx-bindgen/src/build.rs] ([impl_pg_node], [resolve_pg_node_tags], [TypeGraph], the
    constants that are type oids) and [pgrx-pg-sys/src/node.rs]: which types of the bindings
    are Postgres' nodes, and from which tags a node may be cast to each of them.

    A type of a field is the last segment of its path, [None] where it is not a path (a
    pointer or an array). *)
From stdpp Require Import base gmap list strings relations.
From S2P Require Import Prelude Regress.
#[local] Open Scope nat_scope.

Inductive Item :=
| IStruct (ident : string) (fields : list (option string))
| IUnion (ident : string) (fields : list (option string))
| IEnum (ident : string) (variants : list string)
| IType (ident : string) (ty : option string)
| IConst (ident ty expr : string)
| IOther.

(** ** The oids of types *)

Definition is_builtin_oid (name : string) : bool :=
  (ends_with "OID" name && negb (bool_decide (name = "HEAP_HASOID"))) || ends_with "RelationId" name
  || bool_decide (name = "TemplateDbOid").

Definition extract_oids (items : list Item) : gmap string string :=
  foldl (fun oids item =>
    match item with
    | IConst ident ty expr => if bool_decide (ty = "u32") && is_builtin_oid ident then <[ident := expr]> oids else oids
    | _ => oids
    end) ∅ items.

(** A constant becomes one of type [Oid]. *)
Definition rewrite_oid_consts (items : list Item) (oids : gmap string string) : list Item :=
  map (fun item =>
    match item with
    | IConst ident ty expr =>
        if bool_decide (ty = "u32") && bool_decide (oids !! ident = Some expr) then IConst ident "Oid" ("Oid(" +:+ expr +:+ ")") else item
    | _ => item
    end) items.

(** ** The graph of types *)

Inductive TypeKind := Struct (fields : list (option string)) | Union (fields : list (option string)).

Record TypeDescriptor := { kind : TypeKind; ident : string; items_offset : nat; parent : option nat; children : list nat }.
Record TypeGraph := { name_tab : gmap string nat; item_offset_tab : list (option nat); descriptors : list TypeDescriptor }.

Definition is_struct (d : TypeDescriptor) : bool := match kind d with Struct _ => true | Union _ => false end.

(** The first loop: a descriptor for each struct and union. *)
Definition item_type (item : Item) : option (TypeKind * string) :=
  match item with
  | IStruct ident fields => Some (Struct fields, ident)
  | IUnion ident fields => Some (Union fields, ident)
  | _ => None
  end.

Definition add_item (g : TypeGraph) (i : nat) (item : Item) : TypeGraph :=
  match item_type item with
  | None => g
  | Some (kind, ident) =>
      let next_offset := length (descriptors g) in
      {| name_tab := <[ident := next_offset]> (name_tab g);
         item_offset_tab := <[i := Some next_offset]> (item_offset_tab g);
         descriptors := descriptors g ++ [{| kind := kind; ident := ident; items_offset := i; parent := None; children := [] |}] |}
  end.

Fixpoint add_items (g : TypeGraph) (i : nat) (items : list Item) : TypeGraph :=
  match items with [] => g | item :: items => add_items (add_item g i item) (S i) items end.

(** The second loop: a parent and a child. *)
Definition set_parent (p : nat) (d : TypeDescriptor) : TypeDescriptor :=
  {| kind := kind d; ident := ident d; items_offset := items_offset d; parent := Some p; children := children d |}.
Definition push_child (c : nat) (d : TypeDescriptor) : TypeDescriptor :=
  {| kind := kind d; ident := ident d; items_offset := items_offset d; parent := parent d; children := children d ++ [c] |}.
Definition link (ds : list TypeDescriptor) (p c : nat) : list TypeDescriptor := alter (push_child c) p (alter (set_parent p) c ds).

Definition first_path (fields : list (option string)) : option string := match fields with Some t :: _ => Some t | _ => None end.

Definition link_item (tab : gmap string nat) (ds : list TypeDescriptor) (item : Item) : list TypeDescriptor :=
  match item with
  | IStruct ident fields =>
      match first_path fields ≫= (tab !!.), tab !! ident with
      | Some parent_offset, Some child_offset => link ds parent_offset child_offset
      | _, _ => ds
      end
  | IUnion ident fields =>
      match tab !! ident with
      | Some union_offset =>
          foldl (fun ds field => match field ≫= (tab !!.) with Some child_offset => link ds union_offset child_offset | None => ds end) ds fields
      | None => ds
      end
  | _ => ds
  end.

Definition first_loop (items : list Item) : TypeGraph :=
  add_items {| name_tab := ∅; item_offset_tab := replicate (length items) None; descriptors := [] |} 0 items.

Definition graph_from (items : list Item) : TypeGraph :=
  let g := first_loop items in
  {| name_tab := name_tab g; item_offset_tab := item_offset_tab g; descriptors := foldl (link_item (name_tab g)) (descriptors g) items |}.

(** ** Tags *)

Notation tags := (gset string).

(** The variants of [NodeTag], and the tags that the aliases of types would have. *)
Definition collect_tags (g : TypeGraph) (items : list Item) : tags * gmap string tags :=
  foldl (fun '(node_tags, aliases) item =>
    match item with
    | IEnum ident variants => if bool_decide (ident = "NodeTag") then (node_tags ∪ list_to_set variants, aliases) else (node_tags, aliases)
    | IType alias_name (Some target_name) =>
        match name_tab g !! target_name with
        | Some _ => (node_tags, <[target_name := {["T_" +:+ alias_name]} ∪ default ∅ (aliases !! target_name)]> aliases)
        | None => (node_tags, aliases)
        end
    | _ => (node_tags, aliases)
    end) (∅, ∅) items.

Definition is_node (d : TypeDescriptor) : bool :=
  match kind d with
  | Struct fields => bool_decide (first_path fields = Some "NodeTag")
  | Union fields => existsb (fun f => bool_decide (f = Some "Node")) fields
  end.

Section Resolve.
Context (g : TypeGraph) (node_tags : tags) (possible_alias_tags : gmap string tags).

(** The tags of a type itself and of its aliases. *)
Definition own_tags (type_name : string) : tags :=
  (if bool_decide ("T_" +:+ type_name ∈ node_tags) then {["T_" +:+ type_name]} else ∅)
  ∪ (default ∅ (possible_alias_tags !! type_name) ∩ node_tags).

(** The loop over the children. *)
Definition resolve_children (resolve : TypeDescriptor -> gmap string tags -> option (tags * gmap string tags)) :=
  fix go (l : list nat) (acc : tags) (nodes : gmap string tags) : option (tags * gmap string tags) :=
    match l with
    | [] => Some (acc, nodes)
    | i :: l =>
        child ← descriptors g !! i;
        '(t, nodes) ← resolve child nodes;
        go l (acc ∪ t) nodes
    end.

(** [None] when the fuel runs out, or where the code would index past the descriptors. *)
Fixpoint resolve_pg_node_tags (fuel : nat) (d : TypeDescriptor) (identified_nodes : gmap string tags) : option (tags * gmap string tags) :=
  match fuel with
  | O => None
  | S fuel =>
      match identified_nodes !! ident d with
      | Some tags => Some (tags, identified_nodes)
      | None =>
          '(cast_tags, nodes) ← (if is_struct d then resolve_children (resolve_pg_node_tags fuel) (children d) (own_tags (ident d)) identified_nodes
                                 else Some (own_tags (ident d), identified_nodes));
          Some (cast_tags, <[ident d := cast_tags]> nodes)
      end
  end.

Fixpoint resolve_roots (fuel : nat) (ds : list TypeDescriptor) (nodes : gmap string tags) : option (gmap string tags) :=
  match ds with
  | [] => Some nodes
  | d :: ds => if is_node d then '(_, nodes) ← resolve_pg_node_tags fuel d nodes; resolve_roots fuel ds nodes else resolve_roots fuel ds nodes
  end.
End Resolve.

(** The tags that [Value] has in versions 13 and 14. *)
Definition value_tags : tags := {["T_Integer"; "T_Float"; "T_String"; "T_BitString"; "T_Null"]}.

Definition impl_pg_node (fuel : nat) (major_version : Z) (items : list Item) : option (gmap string tags) :=
  let g := graph_from items in
  let '(node_tags, aliases) := collect_tags g items in
  nodes ← resolve_roots g node_tags aliases fuel (descriptors g) ∅;
  Some (if ((major_version =? 13) || (major_version =? 14))%Z then alter (fun t => t ∪ value_tags) "Value" nodes else nodes).

(** [CAST_TAGS], and [try_cast] of a node with a tag, which for [Node] itself always
    succeeds. *)
Definition CAST_TAGS (nodes : gmap string tags) (t : string) : option tags :=
  if bool_decide (t = "Node") then (fun _ => ∅) <$> nodes !! t else nodes !! t.
Definition try_cast (nodes : gmap string tags) (t node_tag : string) : option bool :=
  if bool_decide (t = "Node") then (fun _ => true) <$> nodes !! t else (fun l => bool_decide (node_tag ∈ l)) <$> CAST_TAGS nodes t.

(** ** The graph is the inheritance of the types *)

Definition type_names (items : list Item) : list string := snd <$> omap item_type items.

(** A struct [x] begins with a field whose type is the struct [y]. *)
Definition begins (items : list Item) (x y : string) : Prop :=
  (exists fields, IStruct x fields ∈ items /\ first_path fields = Some y) /\ exists fields, IStruct y fields ∈ items.

(** The arcs of the second loop. *)
Definition arcs (tab : gmap string nat) (item : Item) : list (nat * nat) :=
  match item with
  | IStruct ident fields =>
      match first_path fields ≫= (tab !!.), tab !! ident with Some p, Some c => [(p, c)] | _, _ => [] end
  | IUnion ident fields =>
      match tab !! ident with
      | Some u => omap (fun field => (fun c => (u, c)) <$> (field ≫= (tab !!.))) fields
      | None => []
      end
  | _ => []
  end.

Definition add_arc (ds : list TypeDescriptor) (a : nat * nat) : list TypeDescriptor := link ds a.1 a.2.

Lemma link_item_arcs tab ds item : link_item tab ds item = foldl add_arc ds (arcs tab item).
Proof.
  destruct item as [i fs|i fs| | | |]; simpl; try done.
  - by destruct (first_path fs ≫= _), (tab !! i).
  - destruct (tab !! i) as [u|]; [|done]. revert ds. induction fs as [|f fs IH]; intros ds; simpl; [done|].
    destruct (f ≫= _) as [c|]; simpl; apply IH.
Qed.

Lemma link_items_arcs tab items ds : foldl (link_item tab) ds items = foldl add_arc ds (flat_map (arcs tab) items).
Proof.
  revert ds. induction items as [|item items IH]; intros ds; simpl; [done|].
  by rewrite foldl_app, IH, link_item_arcs.
Qed.

Lemma link_lookup ds p c k d :
  ds !! k = Some d -> exists d', link ds p c !! k = Some d' /\ kind d' = kind d /\ ident d' = ident d /\
    forall x, x ∈ children d' <-> x ∈ children d \/ (k, x) = (p, c).
Proof.
  intros Hk. unfold link.
  destruct (decide (p = k)) as [->|Hp]; destruct (decide (c = k)) as [->|Hc];
    rewrite ?list_lookup_alter_eq, ?list_lookup_alter_ne by done;
    rewrite ?list_lookup_alter_eq, ?list_lookup_alter_ne by done; rewrite Hk; simpl;
    (eexists; split; [done|]); simpl; (split; [done|]); (split; [done|]); intros x; rewrite ?elem_of_app, ?list_elem_of_singleton; naive_solver.
Qed.

Lemma arcs_lookup l ds k d :
  ds !! k = Some d -> exists d', foldl add_arc ds l !! k = Some d' /\ kind d' = kind d /\ ident d' = ident d /\
    forall x, x ∈ children d' <-> x ∈ children d \/ (k, x) ∈ l.
Proof.
  revert ds d. induction l as [|[p c] l IH]; intros ds d Hk; simpl; [exists d; set_solver|].
  destruct (link_lookup ds p c k d Hk) as (d1 & H1 & Hk1 & Hi1 & Hc1).
  destruct (IH _ _ H1) as (d2 & H2 & Hk2 & Hi2 & Hc2).
  exists d2. split; [done|]. split; [congruence|]. split; [congruence|].
  intros x. rewrite Hc2, Hc1. set_solver.
Qed.

Lemma link_length l ds : length (foldl add_arc ds l) = length ds.
Proof. revert ds. induction l as [|a l IH]; intros ds; simpl; [done|]. rewrite IH. unfold add_arc, link. by rewrite !length_alter. Qed.

(** The descriptors are the structs and unions, in order, and the table is their index. *)
Definition described (d : TypeDescriptor) : TypeKind * string := (kind d, ident d).
Definition tab_exact (g : TypeGraph) : Prop :=
  forall n k, name_tab g !! n = Some k <-> (ident <$> descriptors g) !! k = Some n.

Lemma add_item_exact g i item :
  tab_exact g -> (forall n, n ∈ type_names [item] -> n ∉ ident <$> descriptors g) -> tab_exact (add_item g i item).
Proof.
  unfold add_item, type_names. intros Hg Hn. simpl in Hn. destruct (item_type item) as [[K n]|]; [|done].
  specialize (Hn n ltac:(set_solver)). intros m k. simpl. rewrite fmap_app, lookup_app_Some, length_fmap. simpl.
  destruct (decide (m = n)) as [->|Hne].
  - rewrite lookup_insert_eq. split.
    + intros [= <-]. right. rewrite Nat.sub_diag. split; [lia|done].
    + intros [H|[Hk H]]; [by apply list_elem_of_lookup_2 in H|].
      apply list_lookup_singleton_Some in H as [H _]. f_equal. lia.
  - rewrite lookup_insert_ne by done. rewrite (Hg m k). split; [by left|].
    intros [H|[Hk H]]; [done|]. apply list_lookup_singleton_Some in H as [_ H]. congruence.
Qed.

Lemma add_item_described g i item :
  described <$> descriptors (add_item g i item) = (described <$> descriptors g) ++ omap item_type [item].
Proof. unfold add_item. simpl. destruct (item_type item) as [[K n]|]; simpl; [by rewrite fmap_app|by rewrite app_nil_r]. Qed.

Lemma add_items_described items g i :
  described <$> descriptors (add_items g i items) = (described <$> descriptors g) ++ omap item_type items.
Proof.
  revert g i. induction items as [|item items IH]; intros g i; [by rewrite app_nil_r|].
  change (item :: items) with ([item] ++ items) at 2. rewrite omap_app, app_assoc. simpl add_items.
  by rewrite IH, add_item_described.
Qed.

Lemma add_item_idents g i item : ident <$> descriptors (add_item g i item) = (ident <$> descriptors g) ++ type_names [item].
Proof.
  unfold type_names.
  assert (forall l, ident <$> l = snd <$> (described <$> l)) as E by (intros l; by rewrite <- list_fmap_compose).
  by rewrite !E, add_item_described, fmap_app.
Qed.

Lemma type_names_cons item items : type_names (item :: items) = type_names [item] ++ type_names items.
Proof. unfold type_names. change (item :: items) with ([item] ++ items) at 1. by rewrite omap_app, fmap_app. Qed.

Lemma add_items_exact items g i :
  tab_exact g -> NoDup ((ident <$> descriptors g) ++ type_names items) -> tab_exact (add_items g i items).
Proof.
  revert g i. induction items as [|item items IH]; intros g i Hg Hnd; [done|]. simpl.
  rewrite type_names_cons, app_assoc in Hnd. apply IH.
  - apply add_item_exact; [done|]. intros n Hn Hin.
    apply list.NoDup_app in Hnd as [Hnd _]. apply list.NoDup_app in Hnd as (_ & Hd & _). by apply (Hd n).
  - by rewrite add_item_idents.
Qed.

Lemma add_items_childless items g i k d :
  (forall d, d ∈ descriptors g -> children d = []) -> descriptors (add_items g i items) !! k = Some d -> children d = [].
Proof.
  revert g i. induction items as [|item items IH]; intros g i Hg; simpl.
  - intros H%list_elem_of_lookup_2. auto.
  - apply IH. unfold add_item. destruct (item_type item) as [[K n]|]; [|done]. simpl.
    intros x [Hx| ->%list_elem_of_singleton]%elem_of_app; auto.
Qed.

Section Graph.
Context (items : list Item) (names : NoDup (type_names items)).

Let g := graph_from items.

Lemma arcs_inv item tab k c :
  (k, c) ∈ arcs tab item ->
  (exists i fs t, item = IStruct i fs /\ first_path fs = Some t /\ tab !! t = Some k /\ tab !! i = Some c) \/
  (exists i fs, item = IUnion i fs /\ tab !! i = Some k).
Proof.
  destruct item as [i fs|i fs| | | |]; simpl; try (intros []%not_elem_of_nil).
  - destruct (first_path fs) as [t|] eqn:Hf; simpl; [|intros []%not_elem_of_nil].
    destruct (tab !! t) eqn:?, (tab !! i) eqn:?; try (intros []%not_elem_of_nil).
    intros [= -> ->]%list_elem_of_singleton. left. naive_solver.
  - destruct (tab !! i) eqn:?; [|intros []%not_elem_of_nil].
    intros (f & _ & Hf)%list_elem_of_omap. right. exists i, fs. split; [done|].
    destruct (f ≫= _); simpl in Hf; congruence.
Qed.

Lemma arcs_struct i fs t tab k c :
  first_path fs = Some t -> tab !! t = Some k -> tab !! i = Some c -> (k, c) ∈ arcs tab (IStruct i fs).
Proof. intros Hf Ht Hi. simpl. rewrite Hf. simpl. rewrite Ht, Hi. by apply list_elem_of_singleton. Qed.

Lemma typed_struct i fs : IStruct i fs ∈ items <-> (Struct fs, i) ∈ omap item_type items.
Proof.
  rewrite list_elem_of_omap. split; [intros H; by exists (IStruct i fs)|].
  intros ([] & H & E); simplify_eq/=. done.
Qed.

Lemma typed_union i fs : IUnion i fs ∈ items <-> (Union fs, i) ∈ omap item_type items.
Proof.
  rewrite list_elem_of_omap. split; [intros H; by exists (IUnion i fs)|].
  intros ([] & H & E); simplify_eq/=. done.
Qed.

(** A name has one kind. *)
Lemma typed_once K K' n : (K, n) ∈ omap item_type items -> (K', n) ∈ omap item_type items -> K = K'.
Proof.
  revert names. unfold type_names. generalize (omap item_type items). intros l.
  induction l as [|[K0 n0] l IH]; [by intros _ ?%not_elem_of_nil|]. simpl. intros [Hn Hl]%list.NoDup_cons.
  assert (forall K, (K, n0) ∈ l -> False) as Hno by (intros K1 H1; apply Hn, list_elem_of_fmap; by exists (K1, n0)).
  rewrite !elem_of_cons. intros [E|H] [E'|H']; simplify_eq; try done.
  - by destruct (Hno K').
  - by destruct (Hno K).
  - by apply IH.
Qed.

Lemma first_loop_described : described <$> descriptors (first_loop items) = omap item_type items.
Proof. apply (add_items_described items). Qed.

Lemma first_loop_exact : tab_exact (first_loop items).
Proof. apply add_items_exact; [|done]. intros n k. simpl. by rewrite lookup_empty. Qed.

Lemma first_loop_childless k d : descriptors (first_loop items) !! k = Some d -> children d = [].
Proof. apply add_items_childless. by intros ? ?%not_elem_of_nil. Qed.

(** The second loop adds the arcs as children, and changes neither names nor kinds. *)
Lemma graph_from_first k d0 :
  descriptors (first_loop items) !! k = Some d0 ->
  exists d, descriptors g !! k = Some d /\ described d = described d0 /\
    forall c, c ∈ children d <-> exists item, item ∈ items /\ (k, c) ∈ arcs (name_tab g) item.
Proof.
  intros Hd0. unfold g, graph_from. cbn [descriptors name_tab]. rewrite link_items_arcs.
  destruct (arcs_lookup (flat_map (arcs (name_tab (first_loop items))) items) _ _ _ Hd0) as (d & Hd & HK & HI & HC).
  exists d. split; [done|]. split; [unfold described; congruence|]. intros c. rewrite HC.
  rewrite (first_loop_childless k d0 Hd0), elem_of_nil. split.
  - intros [[]|H]. apply list_elem_of_In, in_flat_map in H as (i & ? & ?). exists i. by rewrite !list_elem_of_In.
  - intros (i & Hi & Ha). right. apply list_elem_of_In, in_flat_map. exists i. by rewrite <- !list_elem_of_In.
Qed.

Lemma graph_lookup k d :
  descriptors g !! k = Some d ->
  described d ∈ omap item_type items /\ name_tab g !! ident d = Some k /\
  forall c, c ∈ children d <-> exists item, item ∈ items /\ (k, c) ∈ arcs (name_tab g) item.
Proof.
  intros Hd. assert (is_Some (descriptors (first_loop items) !! k)) as [d0 Hd0].
  { apply lookup_lt_is_Some. apply lookup_lt_Some in Hd. unfold g, graph_from in Hd. cbn [descriptors] in Hd.
    by rewrite link_items_arcs, link_length in Hd. }
  destruct (graph_from_first k d0 Hd0) as (d' & Hd' & HK & HC). rewrite Hd in Hd'. injection Hd' as <-.
  split; [|split; [|done]].
  - rewrite HK, <- first_loop_described. apply list_elem_of_fmap. exists d0. split; [done|]. by apply list_elem_of_lookup_2 in Hd0.
  - apply first_loop_exact. rewrite list_lookup_fmap, Hd0. injection HK as _ ->. done.
Qed.

Lemma graph_has K n : (K, n) ∈ omap item_type items -> exists k d, descriptors g !! k = Some d /\ described d = (K, n).
Proof.
  rewrite <- first_loop_described. intros (d0 & -> & (k & Hk)%list_elem_of_lookup_1)%list_elem_of_fmap.
  destruct (graph_from_first k d0 Hk) as (d & ? & ? & _). by exists k, d.
Qed.

Lemma graph_tab n k : name_tab g !! n = Some k <-> exists d, descriptors g !! k = Some d /\ ident d = n.
Proof.
  split; [|intros (d & Hd & <-); by apply graph_lookup in Hd as (_ & ? & _)].
  intros H%first_loop_exact. rewrite list_lookup_fmap in H. destruct (descriptors _ !! k) as [d0|] eqn:Hk; [|done].
  destruct (graph_from_first k d0 Hk) as (d & ? & E & _). exists d. unfold described in E. simpl in H. naive_solver.
Qed.

(** The children of a struct are the structs that begin with it. *)
Lemma struct_children k d c :
  descriptors g !! k = Some d -> is_struct d = true ->
  c ∈ children d <-> exists d', descriptors g !! c = Some d' /\ begins items (ident d') (ident d).
Proof.
  intros Hd Hs. destruct (graph_lookup k d Hd) as (Hin & Htab & Hc). rewrite Hc. clear Hc.
  unfold described, is_struct in *. destruct (kind d) as [fd|fd] eqn:HK; [|done]. split.
  - intros (item & Hi & [(i & fs & t & -> & Hf & Ht & Hi')|(i & fs & -> & Hi')]%arcs_inv).
    + apply graph_tab in Hi' as (d' & Hd' & <-). exists d'. split; [done|].
      apply graph_tab in Ht as (d2 & Hd2 & <-). rewrite Hd in Hd2. injection Hd2 as <-.
      split; [by exists fs|]. exists fd. by apply typed_struct.
    + apply graph_tab in Hi' as (d2 & Hd2 & <-). rewrite Hd in Hd2. injection Hd2 as <-.
      apply typed_union in Hi. by pose proof (typed_once _ _ _ Hi Hin).
  - intros (d' & Hd' & (fs & Hfs & Hf) & _). exists (IStruct (ident d') fs). split; [done|].
    apply (arcs_struct _ _ (ident d)); [done|done|]. apply graph_tab. by exists d'.
Qed.

Lemma union_no_children k d x : descriptors g !! k = Some d -> is_struct d = false -> ~ begins items x (ident d).
Proof.
  intros Hd Hs (_ & fs & Hfs%typed_struct). destruct (graph_lookup k d Hd) as (Hin & _ & _).
  unfold described, is_struct in *. pose proof (typed_once _ _ _ Hfs Hin) as E. by rewrite <- E in Hs.
Qed.

Lemma struct_has x fs : IStruct x fs ∈ items -> exists k d, descriptors g !! k = Some d /\ ident d = x.
Proof. intros H%typed_struct%graph_has. destruct H as (k & d & Hd & E). exists k, d. split; [done|]. unfold described in E. congruence. Qed.
End Graph.

(** ** The tags of a type are those of the types that begin with it *)

(** The tags of a type and its aliases. *)
Definition declared (items : list Item) (tag : string) : Prop := exists variants, IEnum "NodeTag" variants ∈ items /\ tag ∈ variants.
Definition tag_of (items : list Item) (tag x : string) : Prop :=
  declared items tag /\ (tag = "T_" +:+ x \/ exists alias, tag = "T_" +:+ alias /\ IType alias (Some x) ∈ items).

Definition is_alias (tab : gmap string nat) (items : list Item) (tag x : string) : Prop :=
  is_Some (tab !! x) /\ exists alias, tag = "T_" +:+ alias /\ IType alias (Some x) ∈ items.

Lemma collect_tags_spec g items nt al :
  collect_tags g items = (nt, al) ->
  (forall tag, tag ∈ nt <-> declared items tag) /\
  (forall tag x, tag ∈ default ∅ (al !! x) <-> is_alias (name_tab g) items tag x).
Proof.
  unfold collect_tags. revert nt al. induction items as [|item items IH] using rev_ind; intros nt al.
  - intros [= <- <-]. split; [intros tag|intros tag x]; rewrite ?lookup_empty; simpl; unfold declared, is_alias; set_solver.
  - rewrite foldl_snoc. destruct (foldl _ _ items) as [nt0 al0] eqn:E. destruct (IH _ _ eq_refl) as [Hn Ha].
    assert (forall tag, declared (items ++ [item]) tag <-> declared items tag \/ declared [item] tag) as Dn by (unfold declared; set_solver).
    assert (forall tag x, is_alias (name_tab g) (items ++ [item]) tag x <-> is_alias (name_tab g) items tag x \/ is_alias (name_tab g) [item] tag x)
      as Da by (unfold is_alias; set_solver).
    intros H. enough ((forall tag, tag ∈ nt <-> tag ∈ nt0 \/ declared [item] tag) /\
      (forall tag x, tag ∈ default ∅ (al !! x) <-> tag ∈ default ∅ (al0 !! x) \/ is_alias (name_tab g) [item] tag x)) as [Hn' Ha'].
    { split; [intros tag; by rewrite Hn', Hn, Dn|intros tag x; by rewrite Ha', Ha, Da]. }
    clear -H. unfold declared, is_alias.
    destruct item as [| |i vs|a [t|]| |]; simplify_eq/=; try (split; set_solver).
    + case_bool_decide; simplify_eq; split; try set_solver.
    + destruct (name_tab g !! t) as [k|] eqn:Ht; simplify_eq; (split; [set_solver|]); intros tag x.
      * destruct (decide (x = t)) as [->|Hx].
        -- rewrite lookup_insert_eq. simpl. set_solver.
        -- rewrite lookup_insert_ne by done. set_solver.
      * split; [by left|]. intros [?|([? ?] & alias & -> & E%list_elem_of_singleton)]; [done|]. congruence.
Qed.

Section Tags.
Context (items : list Item) (names : NoDup (type_names items)).
Context (nt : tags) (al : gmap string tags).

#[local] Notation g := (graph_from items).

(** The structs that begin with a type, through any number of first fields. *)
Definition exact (t : string) (s : tags) : Prop :=
  forall tag, tag ∈ s <-> exists x, rtc (begins items) x t /\ tag ∈ own_tags nt al x.

Definition known (nodes : gmap string tags) (t : string) : Prop := is_Some (nodes !! t).

Definition ok (nodes : gmap string tags) : Prop :=
  (forall t s, nodes !! t = Some s -> exact t s) /\ (forall t x, known nodes t -> begins items x t -> known nodes x).

(** [t] is resolved: it and what begins with it, and nothing else. *)
Definition resolved (t : string) (nodes nodes' : gmap string tags) : Prop :=
  ok nodes' /\ forall x, known nodes' x <-> known nodes x \/ rtc (begins items) x t.

Lemma begins_in x y : begins items x y -> exists k d, descriptors g !! k = Some d /\ ident d = x.
Proof. intros [(fs & H & _) _]. by apply (struct_has items x fs). Qed.

Lemma exact_split t s (below : string -> Prop) :
  (forall x, begins items x t <-> below x) ->
  (forall tag, tag ∈ s <-> tag ∈ own_tags nt al t \/ exists x y, below x /\ rtc (begins items) y x /\ tag ∈ own_tags nt al y) ->
  exact t s.
Proof.
  intros Hl Hs tag. rewrite Hs. split.
  - intros [?|(x & y & Hx%Hl & Hy & ?)]; [by exists t|]. exists y. split; [|done]. by eapply rtc_r.
  - intros (y & [->|(x & Hy & Hx%Hl)]%rtc_inv_r & Ht); [by left|]. right. by exists x, y.
Qed.

Lemma known_closed nodes t x : ok nodes -> known nodes t -> rtc (begins items) x t -> known nodes x.
Proof. intros [_ Hc] Ht Hx. revert Ht. induction Hx as [|x y z Hxy _ IH]; [done|]. intros H%IH. eauto. Qed.

Lemma known_insert nodes t s x : known (<[t := s]> nodes) x <-> x = t \/ known nodes x.
Proof.
  unfold known. destruct (decide (x = t)) as [->|]; [rewrite lookup_insert_eq; naive_solver|].
  rewrite lookup_insert_ne by done. naive_solver.
Qed.

(** What resolving a type gives. *)
Definition resolves (d : TypeDescriptor) (r : option (tags * gmap string tags)) (nodes : gmap string tags) : Prop :=
  exists s nodes', r = Some (s, nodes') /\ exact (ident d) s /\ nodes' !! ident d = Some s /\ resolved (ident d) nodes nodes'.

Lemma insert_resolves t s nodes nodes' :
  exact t s -> ok nodes' ->
  (forall x, known nodes' x <-> known nodes x \/ exists y, begins items y t /\ rtc (begins items) x y) ->
  exact t s /\ <[t := s]> nodes' !! t = Some s /\ resolved t nodes (<[t := s]> nodes').
Proof.
  intros Hs [He Hc] Hk. split; [done|]. split; [by rewrite lookup_insert_eq|].
  assert (forall x, begins items x t -> known nodes' x) as Hb by (intros x ?; apply Hk; right; by exists x).
  split; [split|].
  - intros u r [[-> ->]|[_ ?]]%lookup_insert_Some; eauto.
  - intros u x. rewrite !known_insert. intros [->|?] ?; right; eauto.
  - intros x. rewrite known_insert, Hk. split.
    + intros [->|[?|(y & ? & ?)]]; [by right|by left|right; by eapply rtc_r].
    + intros [?|[->|(y & ? & ?)]%rtc_inv_r]; eauto.
Qed.

Definition child_in (l : list nat) (x : string) : Prop := exists c d, c ∈ l /\ descriptors g !! c = Some d /\ ident d = x.

Lemma resolve_children_ok resolve l acc nodes :
  (forall c, c ∈ l -> exists d, descriptors g !! c = Some d /\ forall nodes, ok nodes -> resolves d (resolve d nodes) nodes) ->
  ok nodes -> exists s nodes', resolve_children g resolve l acc nodes = Some (s, nodes') /\ ok nodes' /\
    (forall x, known nodes' x <-> known nodes x \/ exists y, child_in l y /\ rtc (begins items) x y) /\
    (forall tag, tag ∈ s <-> tag ∈ acc \/ exists x y, child_in l x /\ rtc (begins items) y x /\ tag ∈ own_tags nt al y).
Proof.
  revert acc nodes. induction l as [|c l IH]; intros acc nodes Hl Hok; cbn [resolve_children].
  - exists acc, nodes. unfold child_in. set_solver.
  - destruct (Hl c ltac:(set_solver)) as (d & Hd & Hr). rewrite Hd. simpl.
    destruct (Hr nodes Hok) as (s & nodes1 & -> & Hs & _ & Hok1 & Hk1). simpl.
    destruct (IH (acc ∪ s) nodes1 ltac:(set_solver) Hok1) as (s2 & nodes2 & -> & Hok2 & Hk2 & Hs2).
    exists s2, nodes2. split; [done|]. split; [done|].
    assert (forall x, child_in (c :: l) x <-> x = ident d \/ child_in l x) as Hc.
    { intros x. unfold child_in. setoid_rewrite elem_of_cons. split; [|naive_solver].
      intros (c' & d' & [->|H] & Hd' & <-); [left; congruence|right; by exists c', d']. }
    setoid_rewrite Hc. split; [intros x; rewrite Hk2, Hk1; naive_solver|].
    intros tag. rewrite Hs2, elem_of_union, (Hs tag). naive_solver.
Qed.

Context (height : string -> nat) (acyclic : forall x y, begins items x y -> height x < height y).

(** [resolve_pg_node_tags] ends within the height of a type, with its tags. *)
Lemma resolve_ok fuel k d nodes :
  descriptors g !! k = Some d -> height (ident d) < fuel -> ok nodes -> resolves d (resolve_pg_node_tags g nt al fuel d nodes) nodes.
Proof.
  revert k d nodes. induction fuel as [|fuel IH]; intros k d nodes Hd Hf Hok; [lia|]. cbn [resolve_pg_node_tags].
  destruct (nodes !! ident d) as [s|] eqn:Hn.
  { exists s, nodes. split; [done|]. split; [by apply Hok|]. split; [done|]. split; [done|].
    intros x. split; [by left|]. intros [?|?]; [done|]. apply (known_closed nodes (ident d)); [done|by exists s|done]. }
  destruct (is_struct d) eqn:Hs.
  - assert (forall x, begins items x (ident d) <-> child_in (children d) x) as Hch.
    { intros x. unfold child_in. split.
      - intros Hb. destruct (begins_in _ _ Hb) as (c & d' & Hd' & <-). exists c, d'. split; [|done].
        apply (struct_children items names k d c Hd Hs). by exists d'.
      - intros (c & d' & Hc & Hd' & <-). apply (struct_children items names k d c Hd Hs) in Hc as (d2 & Hd2 & Hb). congruence. }
    destruct (resolve_children_ok (resolve_pg_node_tags g nt al fuel) (children d) (own_tags nt al (ident d)) nodes)
      as (s & nodes' & -> & Hok' & Hk & Htag); [|done|].
    { intros c Hc. apply (struct_children items names k d c Hd Hs) in Hc as (d' & Hd' & Hb%acyclic).
      exists d'. split; [done|]. intros nodes1 H1. apply (IH c); [done|lia|done]. }
    exists s, (<[ident d := s]> nodes'). split; [done|]. apply insert_resolves; [by eapply exact_split|done|].
    intros x. rewrite Hk. setoid_rewrite Hch. naive_solver.
  - exists (own_tags nt al (ident d)), (<[ident d := own_tags nt al (ident d)]> nodes). split; [done|].
    assert (forall x, ~ begins items x (ident d)) as Hno by (intros x; by eapply union_no_children).
    apply insert_resolves; [|done|naive_solver].
    apply (exact_split _ _ (fun _ => False)); naive_solver.
Qed.

Lemma resolve_roots_ok fuel ds nodes :
  (forall d, d ∈ ds -> height (ident d) < fuel /\ exists k, descriptors g !! k = Some d) -> ok nodes ->
  exists nodes', resolve_roots g nt al fuel ds nodes = Some nodes' /\ ok nodes' /\
    forall x, known nodes' x <-> known nodes x \/ exists d, d ∈ ds /\ is_node d = true /\ rtc (begins items) x (ident d).
Proof.
  revert nodes. induction ds as [|d ds IH]; intros nodes Hds Hok; cbn [resolve_roots].
  - exists nodes. split; [done|]. set_solver.
  - setoid_rewrite elem_of_cons. destruct (is_node d) eqn:Hd.
    + destruct (Hds d ltac:(set_solver)) as [Hf [k Hk]].
      destruct (resolve_ok fuel k d nodes Hk Hf Hok) as (s & nodes1 & -> & _ & _ & Hok1 & Hk1). simpl.
      destruct (IH nodes1 ltac:(set_solver) Hok1) as (nodes2 & -> & Hok2 & Hk2).
      exists nodes2. split; [done|]. split; [done|]. intros x. rewrite Hk2, Hk1. naive_solver.
    + destruct (IH nodes ltac:(set_solver) Hok) as (nodes2 & -> & Hok2 & Hk2).
      exists nodes2. split; [done|]. split; [done|]. intros x. rewrite Hk2. naive_solver congruence.
Qed.
End Tags.

(** ** The casts *)

(** The types whose first field is the tag, and the unions with a node among their fields. *)
Definition node_root (items : list Item) (t : string) : Prop :=
  (exists fields, IStruct t fields ∈ items /\ first_path fields = Some "NodeTag") \/
  (exists fields, IUnion t fields ∈ items /\ Some "Node" ∈ fields).

Lemma is_node_root items t :
  NoDup (type_names items) ->
  (exists d, d ∈ descriptors (graph_from items) /\ is_node d = true /\ ident d = t) <-> node_root items t.
Proof.
  intros names. unfold node_root. setoid_rewrite typed_struct. setoid_rewrite typed_union. split.
  - intros (d & (k & Hd)%list_elem_of_lookup_1 & Hn & <-). apply (graph_lookup items names) in Hd as (Hin & _ & _).
    unfold is_node, described in *. destruct (kind d) as [fs|fs]; [left|right]; exists fs; split; try done.
    + by apply bool_decide_eq_true in Hn.
    + apply existsb_exists in Hn as (f & Hf & ->%bool_decide_eq_true). by apply list_elem_of_In.
  - intros [(fs & H & Hf)|(fs & H & Hf)]; apply graph_has in H as (k & d & Hd & [= E1 E2]); exists d;
      (split; [by apply list_elem_of_lookup_2 in Hd|]); (split; [|done]); unfold is_node; rewrite E1.
    + by apply bool_decide_eq_true.
    + apply existsb_exists. exists (Some "Node"). split; [by apply list_elem_of_In|]. by apply bool_decide_eq_true.
Qed.

Lemma node_typed items t r :
  NoDup (type_names items) -> node_root items r -> rtc (begins items) t r -> is_Some (name_tab (graph_from items) !! t).
Proof.
  intros names Hr Ht.
  assert (exists k d, descriptors (graph_from items) !! k = Some d /\ ident d = t) as (k & d & Hd & <-).
  { destruct Ht as [x|x y z Hb _].
    - apply (is_node_root items x names) in Hr as (d & (k & Hk)%list_elem_of_lookup_1 & _ & E). by exists k, d.
    - destruct Hb as [(fs & H & _) _]. by apply struct_has in H. }
  apply (graph_lookup items names) in Hd as (_ & H & _). by exists k.
Qed.

Lemma own_tags_tag_of items nt al tag x :
  collect_tags (graph_from items) items = (nt, al) -> is_Some (name_tab (graph_from items) !! x) ->
  tag ∈ own_tags nt al x <-> tag_of items tag x.
Proof.
  intros [Hn Ha]%collect_tags_spec Hx. unfold own_tags, tag_of.
  rewrite elem_of_union, elem_of_intersection.
  case_bool_decide as Ht; rewrite Hn in Ht; rewrite Ha, (Hn tag); unfold is_alias; rewrite ?elem_of_singleton, ?elem_of_empty; naive_solver.
Qed.

Lemma try_cast_lookup nodes t tag s :
  nodes !! t = Some s -> t <> "Node" -> try_cast nodes t tag = Some true <-> tag ∈ s.
Proof.
  intros Hs Ht. unfold try_cast, CAST_TAGS. rewrite !bool_decide_eq_false_2 by done. rewrite Hs. simpl.
  split; [intros [= H]; by apply bool_decide_eq_true in H|]. intros H. by rewrite bool_decide_eq_true_2.
Qed.

Lemma try_cast_node nodes tag s : nodes !! "Node" = Some s -> try_cast nodes "Node" tag = Some true.
Proof. intros Hs. unfold try_cast. by rewrite bool_decide_eq_true_2, Hs. Qed.

Definition has_value (major_version : Z) : bool := ((major_version =? 13) || (major_version =? 14))%Z.

(** C37. Of items with distinct type names and an inheritance without cycles: the nodes are the
    types with a tag and those that begin with one, and a node may be cast to one of them
    exactly when its tag belongs to that type, to an alias of it or to a struct whose chain of
    first fields leads to it, or the type is [Node], to which every node may be cast, or, in
    versions 13 and 14, the type is [Value] and the tag one of its five. *)
Theorem casts_follow_inheritance items height fuel major_version :
  NoDup (type_names items) ->
  (forall x y, begins items x y -> height x < height y) ->
  (forall x, x ∈ type_names items -> height x < fuel) ->
  exists nodes, impl_pg_node fuel major_version items = Some nodes /\
    (forall t, is_Some (nodes !! t) <-> exists r, node_root items r /\ rtc (begins items) t r) /\
    (forall t tag, is_Some (nodes !! t) ->
       try_cast nodes t tag = Some true <->
       (exists x, rtc (begins items) x t /\ tag_of items tag x) \/ t = "Node"
       \/ (has_value major_version = true /\ t = "Value" /\ tag ∈ value_tags)).
Proof.
  intros names Hac Hf. unfold impl_pg_node. fold (has_value major_version). destruct (collect_tags _ items) as [nt al] eqn:Hcol.
  destruct (resolve_roots_ok items names nt al height Hac fuel (descriptors (graph_from items)) ∅) as (nodes & -> & [Hex _] & Hk).
  { intros d (k & Hd)%list_elem_of_lookup_1. split; [|by exists k]. apply Hf.
    apply (graph_lookup items names) in Hd as (Hin & _). apply list_elem_of_fmap. by exists (described d). }
  { split; [by intros ? ?; rewrite lookup_empty|]. intros ? ? [? H]. by rewrite lookup_empty in H. }
  assert (forall t, is_Some (nodes !! t) <-> exists r, node_root items r /\ rtc (begins items) t r) as Hdom.
  { intros t. fold (known nodes t). rewrite Hk. setoid_rewrite <- (is_node_root items _ names).
    unfold known. rewrite lookup_empty. split; [intros [[? [=]]|(d & ? & ? & ?)]; naive_solver|naive_solver]. }
  assert (forall t s tag, nodes !! t = Some s -> tag ∈ s <-> exists x, rtc (begins items) x t /\ tag_of items tag x) as Htag.
  { intros t s tag Hs. rewrite (Hex t s Hs tag). apply exist_proper. intros x.
    split; intros [Hx Ho]; (split; [done|]);
      (destruct (proj1 (Hdom t) (ex_intro _ s Hs)) as (r & Hr & Htr));
      (eapply own_tags_tag_of; [done| |done]); by eapply node_typed; [done|done|etrans]. }
  eexists. split; [done|]. destruct (has_value major_version); [|split; [done|]].
  - split; [intros t; by rewrite lookup_alter_is_Some|]. intros t tag [s Hs].
    destruct (decide (t = "Node")) as [->|Ht]; [rewrite (try_cast_node _ _ _ Hs); naive_solver|]. rewrite (try_cast_lookup _ _ _ s Hs Ht). destruct (decide (t = "Value")) as [->|Hv].
    + rewrite lookup_alter_eq in Hs. apply fmap_Some in Hs as (s0 & Hs0 & ->). rewrite elem_of_union, (Htag _ _ tag Hs0). naive_solver.
    + rewrite lookup_alter_ne in Hs by done. rewrite (Htag t s tag Hs). naive_solver.
  - intros t tag [s Hs]. destruct (decide (t = "Node")) as [->|Ht]; [rewrite (try_cast_node _ _ _ Hs); naive_solver|].
    rewrite (try_cast_lookup _ _ _ s), (Htag t s tag Hs) by done. naive_solver.
Qed.

(** ** Examples *)

Definition some_items : list Item :=
  [IEnum "NodeTag" ["T_Invalid"; "T_OpExpr"; "T_DistinctExpr"; "T_Integer"];
   IStruct "Node" [Some "NodeTag"]; IStruct "Expr" [Some "NodeTag"]; IStruct "OpExpr" [Some "Expr"; Some "Oid"];
   IType "DistinctExpr" (Some "OpExpr"); IStruct "Integer" [Some "NodeTag"; Some "c_int"];
   IUnion "ValUnion" [Some "Node"; Some "Integer"]; IStruct "ListCell" [None]].

Definition some_height (x : string) : nat := if bool_decide (x = "Expr") then 1 else 0.

(** Both tags cast to [Expr] and to [OpExpr]; nothing casts to the union from its members. *)
Example some_casts :
  (fun nodes => (elements <$> nodes !! "Expr", elements <$> nodes !! "OpExpr", elements <$> nodes !! "ValUnion", nodes !! "ListCell"))
    <$> impl_pg_node 2 17 some_items
  = Some (Some ["T_OpExpr"; "T_DistinctExpr"], Some ["T_OpExpr"; "T_DistinctExpr"], Some [], None).
Proof. vm_compute. reflexivity. Qed.

Lemma casts_follow_inheritance_witness :
  exists nodes, impl_pg_node 2 17 some_items = Some nodes /\
    (forall t, is_Some (nodes !! t) <-> exists r, node_root some_items r /\ rtc (begins some_items) t r) /\
    (forall t tag, is_Some (nodes !! t) ->
       try_cast nodes t tag = Some true <->
       (exists x, rtc (begins some_items) x t /\ tag_of some_items tag x) \/ t = "Node"
       \/ (has_value 17 = true /\ t = "Value" /\ tag ∈ value_tags)).
Proof.
  apply (casts_follow_inheritance some_items some_height).
  - apply (bool_decide_unpack _). vm_compute. exact I.
  - intros x y [(fs & Hx & Hf) (fs' & Hy)]. unfold some_items in *.
    repeat (apply elem_of_cons in Hx as [Hx|Hx]; [try done; injection Hx as -> ->; simpl in Hf; simplify_eq|]);
      try (by apply elem_of_nil in Hx);
      repeat (apply elem_of_cons in Hy as [Hy|Hy]; [try done|]); try (by apply elem_of_nil in Hy); vm_compute; lia.
  - intros x _. unfold some_height. case_bool_decide; lia.
Defined.
