(* ===== verification/HTup.v ===== *)
(** * The attributes of a heap tuple

    [pgrx-pg-sys/src/submodules/htup.rs], Postgres' macros on heap tuples in Rust: the bits
    of a header and [heap_getattr], which [pgrx/src/heap_tuple.rs] reads columns with.  A
    tuple is the bytes at its [t_data], whose address is a multiple of 8; reading outside
    of them, or where an integer is not aligned, is undefined.

    [nocachegetattr], [getmissingattr] and [heap_getsysattr] are Postgres'. *)
From stdpp Require Import base sets list strings.
From S2P Require Import Prelude Memory.
From S2P Require HeapTuple.
#[local] Open Scope Z_scope.
#[local] Open Scope ending_scope.

Definition HEAP_HASNULL := 1.
Definition HEAP_XMIN_COMMITTED := 256.
Definition HEAP_XMIN_INVALID := 512.
Definition HEAP_XMIN_FROZEN := 768.
Definition HEAP_XMAX_INVALID := 2048.
Definition HEAP_NATTS_MASK := 2047.
Definition HEAP_HOT_UPDATED := 16384.
Definition HEAP_ONLY_TUPLE := 32768.
Definition FrozenTransactionId := 2.

Record HeapTupleData := { t_data : Z; image : bytes }.

(** What the code uses of [FormData_pg_attribute]; [attalign] is in bytes. *)
Record Attribute := { attlen : Z; attbyval : bool; attalign : Z; attcacheoff : Z }.
Definition TupleDesc := list Attribute.

Section Headers.
Context (e : endian).

(** The fields of [HeapTupleHeaderData], at their offsets. *)
Definition t_xmin (m : bytes) : ending Z := read_uint e 4 m 0.
Definition t_cid (m : bytes) : ending Z := read_uint e 4 m 8.
Definition t_infomask2 (m : bytes) : ending Z := read_uint e 2 m 18.
Definition t_infomask (m : bytes) : ending Z := read_uint e 2 m 20.
Definition t_hoff (m : bytes) : ending Z := read_uint e 1 m 22.
Definition t_bits : Z := 23.

Definition has (flags bit : Z) : bool := negb (Z.land flags bit =? 0).

Definition HeapTupleHeaderIsHeapOnly (tup : bytes) : ending bool :=
  i <~~ t_infomask2 tup ;; Returned (has i HEAP_ONLY_TUPLE).

Definition HeapTupleHeaderXminInvalid (tup : bytes) : ending bool :=
  i <~~ t_infomask tup ;; Returned (Z.land i (Z.lor HEAP_XMIN_COMMITTED HEAP_XMIN_INVALID) =? HEAP_XMIN_INVALID).

Definition HeapTupleHeaderIsHotUpdated (tup : bytes) : ending bool :=
  i2 <~~ t_infomask2 tup ;;
  if negb (has i2 HEAP_HOT_UPDATED) then Returned false
  else
    i <~~ t_infomask tup ;;
    if has i HEAP_XMAX_INVALID then Returned false
    else invalid <~~ HeapTupleHeaderXminInvalid tup ;; Returned (negb invalid).

Definition HeapTupleHeaderFrozen (tup : bytes) : ending bool :=
  i <~~ t_infomask tup ;; Returned (Z.land i HEAP_XMIN_FROZEN =? HEAP_XMIN_FROZEN).

Definition HeapTupleGetRawCommandId (tup : bytes) : ending Z := t_cid tup.
Definition HeapTupleHeaderGetRawXmin (tup : bytes) : ending Z := t_xmin tup.
Definition HeapTupleHeaderGetXmin (tup : bytes) : ending Z :=
  frozen <~~ HeapTupleHeaderFrozen tup ;; if frozen then Returned FrozenTransactionId else HeapTupleHeaderGetRawXmin tup.

Definition HeapTupleHeaderGetNatts (tup : bytes) : ending Z :=
  i <~~ t_infomask2 tup ;; Returned (Z.land i HEAP_NATTS_MASK).
Definition HeapTupleNoNulls (tup : HeapTupleData) : ending bool :=
  i <~~ t_infomask (image tup) ;; Returned (Z.land i HEAP_HASNULL =? 0).

(** [BITS] is an offset in the tuple. *)
Definition att_isnull (m : bytes) (ATT BITS : Z) : ending bool :=
  slot <~~ read_uint e 1 m (BITS + Z.shiftr ATT 3) ;; Returned (Z.land slot (Z.shiftl 1 (Z.land ATT 7)) =? 0).

(** A [c_char] has a sign on some machines.  [T] is an offset in the tuple. *)
Context (char_signed : bool).

Definition fetch_att (tup : HeapTupleData) (T : Z) (attbyval : bool) (attlen : Z) : ending Z :=
  if attbyval then
    let attlen := attlen mod 2 ^ 64 in
    if attlen =? 8 then read_uint e 8 (image tup) T
    else if attlen =? 4 then z <~~ read_uint e 4 (image tup) T ;; Returned (as_signed 32 z mod 2 ^ 64)
    else if attlen =? 2 then z <~~ read_uint e 2 (image tup) T ;; Returned (as_signed 16 z mod 2 ^ 64)
    else eassert (attlen =? 1) "assertion `left == right` failed"
      (z <~~ read_uint e 1 (image tup) T ;; Returned ((if char_signed then as_signed 8 z else z) mod 2 ^ 64))
  else Returned (t_data tup + T).

Definition fetchatt (tup : HeapTupleData) (A : Attribute) (T : Z) : ending Z := fetch_att tup T (attbyval A) (attlen A).

(** ** [heap_getattr] *)

Context (nocachegetattr : HeapTupleData -> Z -> TupleDesc -> ending Z).
Context (getmissingattr : TupleDesc -> Z -> ending (Z * bool)) (heap_getsysattr : HeapTupleData -> Z -> TupleDesc -> ending (Z * bool)).

(** The datum and [isnull]. *)
Definition fastgetattr (tup : HeapTupleData) (attnum : Z) (tupleDesc : TupleDesc) : ending (Z * bool) :=
  eassert (0 <? attnum) "assertion failed: attnum > 0"
    (nonulls <~~ HeapTupleNoNulls tup ;;
     if nonulls then
       att <~~ expect "index out of bounds" (tupleDesc !! Z.to_nat (attnum - 1)) ;;
       d <~~ (if 0 <=? attcacheoff att
              then hoff <~~ t_hoff (image tup) ;; fetchatt tup att (hoff + attcacheoff att)
              else nocachegetattr tup attnum tupleDesc) ;;
       Returned (d, false)
     else
       isnull <~~ att_isnull (image tup) (attnum - 1) t_bits ;;
       if isnull then Returned (0, true) else d <~~ nocachegetattr tup attnum tupleDesc ;; Returned (d, false)).

Definition heap_getattr (tup : HeapTupleData) (attnum : Z) (tupleDesc : TupleDesc) : ending (Z * bool) :=
  if 0 <? attnum then
    natts <~~ HeapTupleHeaderGetNatts (image tup) ;;
    if natts <? attnum then getmissingattr tupleDesc attnum else fastgetattr tup attnum tupleDesc
  else heap_getsysattr tup attnum tupleDesc.

(** ** The format of a tuple *)

(** A value is its bytes, and whether it is packed: a varlena with a short header, which
    is not aligned. *)
Record value := { packed : bool; contents : bytes }.

Definition round_up (a off : Z) : Z := (off + a - 1) / a * a.
Definition start (att : Attribute) (v : value) (off : Z) : Z := if packed v then off else round_up (attalign att) off.

(** Where the values are, from the start of the data. *)
Fixpoint places (off : Z) (atts : list Attribute) (vals : list (option value)) : list (option Z) :=
  match atts, vals with
  | att :: atts, Some v :: vals => Some (start att v off) :: places (start att v off + Z.of_nat (length (contents v))) atts vals
  | _ :: atts, None :: vals => None :: places off atts vals
  | _, _ => []
  end.

(** The bytes of the null bitmap: a bit that is set is a value. *)
Fixpoint bitmap_byte (l : list bool) : Z := match l with [] => 0 | b :: l => Z.b2z b + 2 * bitmap_byte l end.
Fixpoint bitmap (n : nat) (l : list bool) : bytes :=
  match n with O => [] | S n => u8_of_Z (bitmap_byte (take 8 l)) :: bitmap n (drop 8 l) end.

Definition present (v : option value) : bool := match v with Some _ => true | None => false end.

Definition fits (att : Attribute) (v : option value) : Prop :=
  match v with Some v => 0 < attlen att -> packed v = false /\ Z.of_nat (length (contents v)) = attlen att | None => True end.

(** A tuple with these values, some of the attributes of [desc] or all of them. *)
Record holds (tup : HeapTupleData) (desc : TupleDesc) (vals : list (option value)) : Prop := {
  holds_natts : HeapTupleHeaderGetNatts (image tup) = Returned (Z.of_nat (length vals));
  holds_fewer : (length vals <= length desc)%nat;
  holds_nonulls : HeapTupleNoNulls tup = Returned (forallb present vals);
  holds_bits : forallb present vals = false -> bytes_at (image tup) t_bits (bitmap ((length vals + 7) / 8) (present <$> vals));
  holds_data : exists hoff, t_hoff (image tup) = Returned hoff /\ hoff mod 8 = 0 /\
    forall i v o, vals !! i = Some (Some v) -> places 0 desc vals !! i = Some (Some o) -> bytes_at (image tup) (hoff + o) (contents v);
  holds_fits : forall i att v, desc !! i = Some att -> vals !! i = Some v -> fits att v;
}.

(** Attributes that are passed by value have one of four lengths and its alignment. *)
Definition attribute_ok (att : Attribute) : Prop :=
  attalign att ∈ [1; 2; 4; 8] /\ (attbyval att = true -> attlen att = attalign att).

(** The place of an attribute in every tuple without nulls, if it has one: all before it
    have a fixed length, and it is aligned there if it may be packed. *)
Fixpoint fixed_place (off : Z) (atts : list Attribute) (i : nat) : option Z :=
  match atts, i with
  | att :: _, O => if (0 <? attlen att) || (round_up (attalign att) off =? off) then Some (round_up (attalign att) off) else None
  | att :: atts, S i => if 0 <? attlen att then fixed_place (round_up (attalign att) off + attlen att) atts i else None
  | [], _ => None
  end.

Definition cache_ok (desc : TupleDesc) : Prop :=
  forall i att, desc !! i = Some att -> 0 <= attcacheoff att -> fixed_place 0 desc i = Some (attcacheoff att).

(** The datum of a value at an address. *)
Definition datum_of (att : Attribute) (v : value) (address : Z) : Z :=
  if attbyval att then
    let z := from_ne_bytes e (contents v) in
    (if (attlen att =? 1) && negb char_signed then z else as_signed (8 * attlen att) z) mod 2 ^ 64
  else address.

(** ** The null bitmap *)

Lemma bitmap_byte_testbit l (j : nat) : Z.testbit (bitmap_byte l) (Z.of_nat j) = default false (l !! j).
Proof.
  revert j. induction l as [|b l IH]; intros j; [by rewrite Z.bits_0, lookup_nil|]. cbn [bitmap_byte].
  rewrite Z.add_comm. destruct j as [|j].
  - rewrite Z.testbit_0_r. done.
  - rewrite Nat2Z.inj_succ, Z.testbit_succ_r by lia. apply IH.
Qed.

Lemma bitmap_byte_bound l : 0 <= bitmap_byte l < 2 ^ Z.of_nat (length l).
Proof.
  induction l as [|b l IH]; [cbn; lia|]. cbn [bitmap_byte length]. rewrite Nat2Z.inj_succ, Z.pow_succ_r by lia.
  destruct b; cbn [Z.b2z]; lia.
Qed.

Lemma bitmap_lookup n l k : (k < n)%nat -> bitmap n l !! k = Some (u8_of_Z (bitmap_byte (take 8 (drop (8 * k) l)))).
Proof.
  revert l k. induction n as [|n IH]; intros l k Hk; [lia|]. destruct k as [|k]; [done|].
  cbn [bitmap]. change ((?x :: ?y) !! S k) with (y !! k). rewrite IH by lia. rewrite drop_drop. do 5 f_equal. lia.
Qed.

Lemma read_byte m p bs k b :
  bytes_at m p bs -> bs !! k = Some b -> read_uint e 1 m (p + Z.of_nat k) = Returned (u8_to_Z b).
Proof.
  intros Hb Hk. rewrite <- (take_drop_middle bs k b Hk) in Hb. apply bytes_at_app in Hb as [_ Hb].
  change (b :: drop (S k) bs) with ([b] ++ drop (S k) bs) in Hb. apply bytes_at_app in Hb as [Hb _].
  apply lookup_lt_Some in Hk. rewrite length_take_le in Hb by lia.
  rewrite (bytes_at_uint e 1 _ _ _ Hb); [|done|by rewrite Z.mod_1_r]. f_equal. destruct e; cbn; lia.
Qed.

Lemma has_bit slot k : 0 <= k -> (Z.land slot (Z.shiftl 1 k) =? 0) = negb (Z.testbit slot k).
Proof.
  intros Hk. rewrite Z.shiftl_1_l. destruct (Z.testbit slot k) eqn:E; cbn [negb].
  - apply Z.eqb_neq. intros H. apply (f_equal (fun z => Z.testbit z k)) in H.
    rewrite Z.land_spec, E, Z.pow2_bits_true, Z.bits_0 in H by done. done.
  - apply Z.eqb_eq. apply Z.bits_inj'. intros j Hj. rewrite Z.land_spec, Z.bits_0.
    destruct (decide (j = k)) as [->|Hne]; [by rewrite E|]. rewrite Z.pow2_bits_false by done. apply andb_false_r.
Qed.

Lemma length_take_at_most {A} n (l : list A) : (length (take n l) <= n)%nat.
Proof. rewrite length_take. lia. Qed.

(** [att_isnull] reads the bit of an attribute. *)
Lemma att_isnull_bitmap m bits l i b :
  bytes_at m bits (bitmap ((length l + 7) / 8) l) -> l !! i = Some b -> att_isnull m (Z.of_nat i) bits = Returned (negb b).
Proof.
  intros Hm Hi. pose proof (lookup_lt_Some _ _ _ Hi) as Hl. unfold att_isnull.
  assert (Hq : (i / 8 < (length l + 7) / 8)%nat).
  { apply Nat.lt_succ_r. rewrite <- Nat.add_1_r. pose proof (Nat.div_le_mono (i + 8) (length l + 7) 8 ltac:(lia) ltac:(lia)) as H.
    replace (i + 8)%nat with (i + 1 * 8)%nat in H by lia. rewrite Nat.div_add in H by lia. lia. }
  pose proof (bitmap_lookup _ l _ Hq) as Hb.
  rewrite Z.shiftr_div_pow2 by lia. change (2 ^ 3) with (Z.of_nat 8). rewrite <- Nat2Z.inj_div.
  rewrite (read_byte _ _ _ _ _ Hm Hb). cbn [ebind].
  change 7 with (Z.ones 3). rewrite Z.land_ones by lia. change (2 ^ 3) with (Z.of_nat 8). rewrite <- Nat2Z.inj_mod.
  rewrite has_bit by lia. do 2 f_equal. rewrite u8_to_of_Z_small.
  - rewrite bitmap_byte_testbit, lookup_take_lt, lookup_drop by (apply Nat.mod_upper_bound; lia).
    rewrite <- (Nat.div_mod i 8) by lia. by rewrite Hi.
  - pose proof (bitmap_byte_bound (take 8 (drop (8 * (i / 8)) l))) as H.
    pose proof (length_take_at_most 8 (drop (8 * (i / 8)) l)) as Ht.
    pose proof (Z.pow_le_mono_r 2 (Z.of_nat (length (take 8 (drop (8 * (i / 8)) l)))) 8 ltac:(lia) ltac:(lia)). unfold is_u8. lia.
Qed.

(** ** Places *)

Lemma round_up_spec a off : 0 < a -> off <= round_up a off < off + a /\ round_up a off mod a = 0.
Proof.
  intros Ha. unfold round_up. pose proof (Z.div_mod (off + a - 1) a ltac:(lia)) as Hd.
  pose proof (Z.mod_pos_bound (off + a - 1) a Ha). split; [lia|]. apply Z.mod_mul. lia.
Qed.

Lemma attalign_pos att : attribute_ok att -> 0 < attalign att.
Proof. intros [H _]. set_unfold in H. lia. Qed.

Lemma places_lookup atts vals off i o :
  places off atts vals !! i = Some (Some o) -> 0 <= off -> Forall attribute_ok atts ->
  exists att v, atts !! i = Some att /\ vals !! i = Some (Some v) /\ off <= o /\ (packed v = false -> o mod attalign att = 0).
Proof.
  revert vals off i. induction atts as [|att atts IH]; intros vals off i Hp Hoff Hok; [done|].
  apply list.Forall_cons in Hok as [Ha Hok]. apply attalign_pos in Ha. destruct vals as [|[v|] vals]; [done| |].
  - assert (Hs : off <= start att v off) by (unfold start; destruct (packed v); [lia|apply round_up_spec; lia]).
    destruct i as [|i]; cbn in Hp.
    + injection Hp as <-. exists att, v. split; [done|]. split; [done|]. split; [done|].
      unfold start. intros ->. by apply round_up_spec.
    + destruct (IH _ _ _ Hp ltac:(lia) Hok) as (att' & v' & ? & ? & ? & ?). exists att', v'. repeat split; try done. lia.
  - destruct i as [|i]; cbn in Hp; [done|]. destruct (IH _ _ _ Hp Hoff Hok) as (att' & v' & ? & ? & ? & ?). by exists att', v'.
Qed.

Lemma places_total atts vals off i v :
  (length vals <= length atts)%nat -> vals !! i = Some (Some v) -> exists o, places off atts vals !! i = Some (Some o).
Proof.
  revert vals off i. induction atts as [|att atts IH]; intros [|[w|] vals] off i Hl Hi; cbn in Hl; try done; try lia;
    destruct i as [|i]; cbn in *; try done; try (by eexists); apply IH; try done; lia.
Qed.

(** Without nulls an attribute is at its fixed place. *)
Lemma places_fixed atts vals off i p :
  forallb present vals = true -> (forall j att v, atts !! j = Some att -> vals !! j = Some v -> fits att v) ->
  fixed_place off atts i = Some p -> (i < length vals)%nat -> places off atts vals !! i = Some (Some p).
Proof.
  revert vals off i. induction atts as [|att atts IH]; intros vals off i Hn Hf Hp Hi; [by destruct i|].
  destruct vals as [|[v|] vals]; cbn in Hi, Hn; [lia| |done].
  pose proof (Hf 0%nat att (Some v) eq_refl eq_refl) as Hv. cbn in Hv. destruct i as [|i]; cbn in Hp |- *.
  - unfold start. destruct (0 <? attlen att) eqn:Hl; cbn in Hp.
    + destruct (Hv ltac:(lia)) as [-> _]. congruence.
    + destruct (round_up _ off =? off) eqn:Hr; [|done]. apply Z.eqb_eq in Hr. injection Hp as <-. rewrite Hr. by destruct (packed v).
  - destruct (0 <? attlen att) eqn:Hl; [|done]. destruct (Hv ltac:(lia)) as [Hpk Hlen]. unfold start. rewrite Hpk, Hlen.
    apply IH; [done| |done|lia]. intros j. apply (Hf (S j)).
Qed.

(** ** Reading *)

Lemma as_signed_mod w z : as_signed w z mod 2 ^ w = z mod 2 ^ w.
Proof.
  unfold as_signed. destruct (z <? 2 ^ (w - 1)); [done|].
  replace (z - 2 ^ w) with (z + (-1) * 2 ^ w) by lia. apply Z_mod_plus_full.
Qed.

Lemma aligned_sum a hoff o : a ∈ [1; 2; 4; 8] -> hoff mod 8 = 0 -> o mod a = 0 -> (hoff + o) mod a = 0.
Proof.
  intros Ha Hh Ho. assert (Hd : hoff mod a = 0).
  { apply Z.mod_divide in Hh as [q ->]; [|lia]. set_unfold in Ha.
    destruct Ha as [-> | [-> | [-> | [-> | []]]]]; [by rewrite Z.mod_1_r|..]; apply Z.mod_divide; try lia.
    - by exists (q * 4); lia.
    - by exists (q * 2); lia.
    - by exists q. }
  rewrite Zplus_mod, Hd, Ho. apply Z.mod_0_l. set_unfold in Ha. lia.
Qed.

(** A value that is where it is said to be is fetched. *)
Lemma fetchatt_reads tup att v T :
  attribute_ok att -> fits att (Some v) -> bytes_at (image tup) T (contents v) ->
  (packed v = false -> T mod attalign att = 0) -> fetchatt tup att T = Returned (datum_of att v (t_data tup + T)).
Proof.
  intros [Ha Hb] Hf Hm Hal. unfold fetchatt, fetch_att, datum_of. destruct (attbyval att); [|done].
  specialize (Hb eq_refl). cbn in Hf. set_unfold in Ha. destruct (Hf ltac:(lia)) as [Hp Hlen]. specialize (Hal Hp).
  assert (Hr : forall n, attlen att = Z.of_nat n -> read_uint e n (image tup) T = Returned (from_ne_bytes e (contents v))).
  { intros n Hn. apply bytes_at_uint; [done|lia|]. by rewrite <- Hn, Hb. }
  pose proof (from_ne_bytes_bound e (contents v)) as Hz. rewrite Hlen in Hz.
  destruct Ha as [E | [E | [E | [E | []]]]]; rewrite Hb, E in *; cbn -[read_uint Z.pow].
  - rewrite (Hr 1%nat eq_refl). cbn [ebind]. by destruct char_signed.
  - rewrite (Hr 2%nat eq_refl). done.
  - rewrite (Hr 4%nat eq_refl). done.
  - change (8 mod 2 ^ 64 =? 8) with true. rewrite (Hr 8%nat eq_refl). f_equal. symmetry.
    rewrite as_signed_mod. by apply Z.mod_small.
Qed.

(** [nocachegetattr] walks over the attributes of a tuple to one that is not null. *)
Definition walks (tup : HeapTupleData) (desc : TupleDesc) (vals : list (option value)) : Prop := forall i att v o hoff,
  desc !! i = Some att -> vals !! i = Some (Some v) -> places 0 desc vals !! i = Some (Some o) -> t_hoff (image tup) = Returned hoff ->
  nocachegetattr tup (Z.of_nat i + 1) desc = Returned (datum_of att v (t_data tup + (hoff + o))).

Section Read.
Context (tup : HeapTupleData) (desc : TupleDesc) (vals : list (option value)).
Context (Hw : walks tup desc vals) (Ht : holds tup desc vals) (Hok : Forall attribute_ok desc) (Hc : cache_ok desc).

Lemma getattr_within i : (i < length vals)%nat -> heap_getattr tup (Z.of_nat i + 1) desc = fastgetattr tup (Z.of_nat i + 1) desc.
Proof.
  intros Hi. unfold heap_getattr. rewrite (proj2 (Z.ltb_lt _ _)) by lia. rewrite (holds_natts _ _ _ Ht). cbn [ebind].
  by rewrite (proj2 (Z.ltb_ge _ _)) by lia.
Qed.

(** The value of a column that is not null, cached or walked to. *)
Definition read_as (i : nat) (att : Attribute) (v : value) (r : ending Z) : Prop :=
  exists hoff o, t_hoff (image tup) = Returned hoff /\ places 0 desc vals !! i = Some (Some o)
    /\ r = Returned (datum_of att v (t_data tup + (hoff + o))).

Lemma walked i att v : desc !! i = Some att -> vals !! i = Some (Some v) -> read_as i att v (nocachegetattr tup (Z.of_nat i + 1) desc).
Proof.
  intros Ha Hv. destruct (holds_data _ _ _ Ht) as (hoff & Hh & _).
  destruct (places_total desc vals 0 i v (holds_fewer _ _ _ Ht) Hv) as [o Ho]. exists hoff, o. split; [done|]. split; [done|]. by eapply Hw.
Qed.

Lemma cached i att v : forallb present vals = true -> desc !! i = Some att -> vals !! i = Some (Some v) -> 0 <= attcacheoff att ->
  read_as i att v (hoff <~~ t_hoff (image tup) ;; fetchatt tup att (hoff + attcacheoff att)).
Proof.
  intros Hn Ha Hv Hco. destruct (holds_data _ _ _ Ht) as (hoff & Hh & Hh8 & Hdata).
  pose proof (places_fixed desc vals 0 i _ Hn (holds_fits _ _ _ Ht) (Hc i att Ha Hco) (lookup_lt_Some _ _ _ Hv)) as Ho.
  exists hoff, (attcacheoff att). split; [done|]. split; [done|]. rewrite Hh. cbn [ebind].
  destruct (places_lookup _ _ _ _ _ Ho ltac:(lia) Hok) as (att' & v' & Ha' & Hv' & _ & Hal).
  injection (eq_trans (eq_sym Ha) Ha') as <-. simplify_eq.
  assert (Hatt : attribute_ok att) by (by eapply list.Forall_lookup_1).
  apply fetchatt_reads; [done|by apply (holds_fits _ _ _ Ht i)|by apply (Hdata i)|].
  intros Hp. apply aligned_sum; [apply Hatt|done|by apply Hal].
Qed.

Lemma fastgetattr_null i : vals !! i = Some None -> fastgetattr tup (Z.of_nat i + 1) desc = Returned (0, true).
Proof.
  intros Hv. unfold fastgetattr. rewrite (proj2 (Z.ltb_lt _ _)) by lia. cbn [eassert]. rewrite (holds_nonulls _ _ _ Ht). cbn [ebind].
  destruct (forallb present vals) eqn:Hn.
  { rewrite forallb_forall in Hn. by specialize (Hn None (proj1 (list_elem_of_In _ _) (list_elem_of_lookup_2 _ _ _ Hv))). }
  replace (Z.of_nat i + 1 - 1) with (Z.of_nat i) by lia.
  pose proof (holds_bits _ _ _ Ht Hn) as Hbits. rewrite <- (length_fmap present vals) in Hbits at 1.
  by rewrite (att_isnull_bitmap _ _ _ i false Hbits) by (by rewrite list_lookup_fmap, Hv).
Qed.

Lemma fastgetattr_value i att v : desc !! i = Some att -> vals !! i = Some (Some v) ->
  exists r, read_as i att v r /\ fastgetattr tup (Z.of_nat i + 1) desc = (d <~~ r ;; Returned (d, false)).
Proof.
  intros Ha Hv. unfold fastgetattr. rewrite (proj2 (Z.ltb_lt _ _)) by lia. cbn [eassert]. rewrite (holds_nonulls _ _ _ Ht). cbn [ebind].
  replace (Z.of_nat i + 1 - 1) with (Z.of_nat i) by lia. rewrite Nat2Z.id. destruct (forallb present vals) eqn:Hn.
  - rewrite Ha. cbn [expect ebind]. destruct (0 <=? attcacheoff att) eqn:Hco; eexists; (split; [|done]); [apply cached|apply walked]; try done; lia.
  - pose proof (holds_bits _ _ _ Ht Hn) as Hbits. rewrite <- (length_fmap present vals) in Hbits at 1.
    rewrite (att_isnull_bitmap _ _ _ i true Hbits) by (by rewrite list_lookup_fmap, Hv). cbn [ebind negb].
    eexists. split; [by apply walked|done].
Qed.
End Read.

(** C30. The columns of a tuple are read as they are stored: a column that is null as null, any
    other as its value, where it is cached and where it is walked to; a column that was
    added after the tuple was written as its default, and one with no positive number as a
    column of the system. *)
Theorem heap_getattr_reads tup desc vals :
  walks tup desc vals -> holds tup desc vals -> Forall attribute_ok desc -> cache_ok desc ->
  (forall i, vals !! i = Some None -> heap_getattr tup (Z.of_nat i + 1) desc = Returned (0, true)) /\
  (forall i att v, desc !! i = Some att -> vals !! i = Some (Some v) ->
     exists hoff o, t_hoff (image tup) = Returned hoff /\ places 0 desc vals !! i = Some (Some o)
       /\ heap_getattr tup (Z.of_nat i + 1) desc = Returned (datum_of att v (t_data tup + (hoff + o)), false)) /\
  (forall i, (length vals <= i)%nat -> heap_getattr tup (Z.of_nat i + 1) desc = getmissingattr desc (Z.of_nat i + 1)) /\
  (forall attnum, attnum <= 0 -> heap_getattr tup attnum desc = heap_getsysattr tup attnum desc).
Proof.
  intros Hw Ht Hok Hc. split; [|split; [|split]].
  - intros i Hi. rewrite (getattr_within _ _ _ Ht) by (by apply lookup_lt_Some in Hi). by apply (fastgetattr_null _ _ vals).
  - intros i att v Ha Hv. rewrite (getattr_within _ _ _ Ht) by (by apply lookup_lt_Some in Hv).
    destruct (fastgetattr_value tup desc vals Hw Ht Hok Hc i att v Ha Hv) as (r & (hoff & o & ? & ? & ->) & ->). by exists hoff, o.
  - intros i Hi. unfold heap_getattr. rewrite (proj2 (Z.ltb_lt _ _)) by lia. rewrite (holds_natts _ _ _ Ht). cbn [ebind].
    by rewrite (proj2 (Z.ltb_lt _ _)) by lia.
  - intros n Hn. unfold heap_getattr. by rewrite (proj2 (Z.ltb_ge _ _)) by lia.
Qed.

(** What is read of a value that was stored is what [HeapTuple] has as a law. *)
Lemma datum_of_stored att d address :
  attribute_ok att -> attbyval att = true -> char_signed || negb (attlen att =? 1) = true ->
  datum_of att {| packed := false; contents := ne_bytes e (Z.to_nat (attlen att)) d |} address = HeapTuple.fetch_att (attlen att) d.
Proof.
  intros [Ha Hb] Hv Hs. specialize (Hb Hv). set_unfold in Ha. unfold datum_of, HeapTuple.fetch_att. rewrite Hv. cbn [contents].
  rewrite from_ne_bytes_ne_bytes, Z2Nat.id by lia. by destruct (attlen att =? 1), char_signed.
Qed.

(** A frozen tuple has the frozen xid and no invalid [xmin], whatever its other bits. *)
Lemma frozen_xmin tup i : t_infomask tup = Returned i -> HeapTupleHeaderFrozen tup = Returned true ->
  HeapTupleHeaderGetXmin tup = Returned FrozenTransactionId /\ HeapTupleHeaderXminInvalid tup = Returned false.
Proof.
  unfold HeapTupleHeaderGetXmin, HeapTupleHeaderFrozen, HeapTupleHeaderXminInvalid. intros -> Hf. rewrite Hf. cbn in Hf |- *. split; [done|].
  injection Hf as Hf. apply Z.eqb_eq in Hf. change (Z.lor HEAP_XMIN_COMMITTED HEAP_XMIN_INVALID) with HEAP_XMIN_FROZEN. by rewrite Hf.
Qed.
End Headers.

(** ** An example *)

(** A walk over attributes of fixed length. *)
Definition walk_fixed (e : endian) (char_signed : bool) (tup : HeapTupleData) (attnum : Z) (desc : TupleDesc) : ending Z :=
  hoff <~~ t_hoff e (image tup) ;;
  (fix go (k off : Z) (atts : list Attribute) : ending Z :=
     match atts with
     | [] => Undefined
     | att :: atts =>
         let o := round_up (attalign att) off in
         if k =? attnum then fetchatt e char_signed tup att (hoff + o)
         else isnull <~~ att_isnull e (image tup) (k - 1) t_bits ;; if isnull then go (k + 1) off atts else go (k + 1) (o + attlen att) atts
     end) 1 0 desc.

Definition int (n off : Z) : Attribute := {| attlen := n; attbyval := true; attalign := n; attcacheoff := off |}.
Definition some_desc : TupleDesc := [int 4 0; int 2 4; int 4 8; int 8 (-1)].

(** Three of the four columns: 7, null and -2. *)
Definition some_vals : list (option value) :=
  [Some {| packed := false; contents := le_bytes 4 7 |}; None; Some {| packed := false; contents := le_bytes 4 (-2) |}].
Definition some_tuple : HeapTupleData :=
  {| t_data := 4096; image := replicate 18 x00 ++ le_bytes 2 3 ++ le_bytes 2 1 ++ le_bytes 1 24 ++ le_bytes 1 5 ++ le_bytes 4 7 ++ le_bytes 4 (-2) |}.

Definition read_column (n : Z) : ending (Z * bool) :=
  heap_getattr Little true (walk_fixed Little true) (fun _ _ => Returned (0, true)) (fun _ _ _ => Undefined) some_tuple n some_desc.

Example columns_read : read_column <$> [1; 2; 3; 4; 5]
  = [Returned (7, false); Returned (0, true); Returned (2 ^ 64 - 2, false); Returned (0, true); Returned (0, true)].
Proof. reflexivity. Qed.

Lemma some_holds : holds Little some_tuple some_desc some_vals.
Proof.
  split.
  - reflexivity.
  - cbn. lia.
  - reflexivity.
  - intros _. split; [done|]. exists (take 23 (image some_tuple)), (drop 24 (image some_tuple)). split; reflexivity.
  - exists 24. split; [reflexivity|]. split; [reflexivity|]. intros i v o. destruct i as [|[|[|i]]]; cbn -[le_bytes]; try done; intros [= <-] [= <-].
    + split; [done|]. exists (take 24 (image some_tuple)), (drop 28 (image some_tuple)). split; reflexivity.
    + split; [done|]. exists (take 28 (image some_tuple)), []. split; reflexivity.
  - intros i att v. destruct i as [|[|[|i]]]; cbn -[le_bytes]; try done; intros [= <-] [= <-]; done.
Qed.

Lemma heap_getattr_reads_witness : read_column 2 = Returned (0, true) /\ read_column 4 = Returned (0, true).
Proof.
  destruct (heap_getattr_reads Little true (walk_fixed Little true) (fun _ _ => Returned (0, true)) (fun _ _ _ => Undefined)
    some_tuple some_desc some_vals) as (Hn & _ & Hm & _).
  - intros i att v o hoff. destruct i as [|[|[|i]]]; cbn -[le_bytes walk_fixed datum_of t_hoff]; try done;
      intros [= <-] [= <-] [= <-] [= <-]; reflexivity.
  - apply some_holds.
  - repeat constructor; cbn; set_solver.
  - intros i att. destruct i as [|[|[|[|i]]]]; cbn; try done; intros [= <-]; cbn; try done.
  - split; [by apply (Hn 1%nat)|by apply (Hm 3%nat)].
Defined.
