(* ===== verification/Port.v ===== *)
(** * Pages and transaction ids

    [pgrx-pg-sys/src/port.rs], Postgres' macros in Rust: the header of a page, its line
    pointers and items, buffers, and the order of transaction ids (of Postgres 19, where it
    is not a function of Postgres).  A page is its bytes, on a little-endian machine, at an
    address that is a multiple of 8; its line pointers are bit fields of the bindings. *)
From stdpp Require Import base list strings.
From S2P Require Import Prelude Memory Ids.
#[local] Open Scope Z_scope.
#[local] Open Scope ending_scope.

Definition BLCKSZ := 8192.
Definition MAXIMUM_ALIGNOF := 8.
Definition InvalidBuffer := 0.

(** [-] and [+] of [usize] or [u16]: with overflow checks they panic, without they wrap. *)
Definition sub_w (w : Z) (oc : bool) (a b : Z) : ending Z :=
  if b <=? a then Returned (a - b) else if oc then Panicked "attempt to subtract with overflow" else Returned ((a - b) mod 2 ^ w).
Definition add_w (w : Z) (oc : bool) (a b : Z) : ending Z :=
  if a + b <? 2 ^ w then Returned (a + b) else if oc then Panicked "attempt to add with overflow" else Returned ((a + b) mod 2 ^ w).

(** ** Alignment *)

Definition TYPEALIGN (oc : bool) (alignval len : Z) : ending Z :=
  a <~~ sub_w 64 oc alignval 1 ;; s <~~ add_w 64 oc len a ;; Returned (Z.land s (Z.lxor (2 ^ 64 - 1) a)).
Definition MAXALIGN (oc : bool) (len : Z) : ending Z := TYPEALIGN oc MAXIMUM_ALIGNOF len.

(** ** Transaction ids *)

Definition wrapping_sub_i32 (id1 id2 : Z) : Z := as_signed 32 ((id1 - id2) mod 2 ^ 32).
Definition both_normal (id1 id2 : Z) : bool := TransactionIdIsNormal id1 && TransactionIdIsNormal id2.

Definition TransactionIdPrecedes (id1 id2 : Z) : bool :=
  if negb (both_normal id1 id2) then id1 <? id2 else wrapping_sub_i32 id1 id2 <? 0.
Definition TransactionIdPrecedesOrEquals (id1 id2 : Z) : bool :=
  if negb (both_normal id1 id2) then id1 <=? id2 else wrapping_sub_i32 id1 id2 <=? 0.
Definition TransactionIdFollows (id1 id2 : Z) : bool :=
  if negb (both_normal id1 id2) then id2 <? id1 else 0 <? wrapping_sub_i32 id1 id2.
Definition TransactionIdFollowsOrEquals (id1 id2 : Z) : bool :=
  if negb (both_normal id1 id2) then id2 <=? id1 else 0 <=? wrapping_sub_i32 id1 id2.

(** ** Buffers *)

Definition BufferIsLocal (buffer : Z) : bool := buffer <? 0.

(** [LocalBufferBlockPointers] and [BufferBlocks] are Postgres' variables. *)
Definition BufferGetBlock (oc : bool) (LocalBufferBlockPointers : list Z) (BufferBlocks buffer : Z) : ending Z :=
  if BufferIsLocal buffer then defined (LocalBufferBlockPointers !! Z.to_nat (- buffer - 1))
  else
    i <~~ sub_w 64 oc buffer 1 ;;
    if i * BLCKSZ <? 2 ^ 64 then Returned (BufferBlocks + i * BLCKSZ)
    else if oc then Panicked "attempt to multiply with overflow" else Returned (BufferBlocks + (i * BLCKSZ) mod 2 ^ 64).
Definition BufferGetPage := BufferGetBlock.

Definition BufferIsValid (NBuffers NLocBuffer buffer : Z) : ending bool :=
  eassert (buffer <=? NBuffers) "assertion failed: buffer <= pg_sys::NBuffers"
    (eassert (- NLocBuffer <=? buffer) "assertion failed: buffer >= -pg_sys::NLocBuffer" (Returned (negb (buffer =? InvalidBuffer)))).
Definition BufferGetPageSize (NBuffers NLocBuffer buffer : Z) : ending Z :=
  valid <~~ BufferIsValid NBuffers NLocBuffer buffer ;; eassert valid "assertion failed: BufferIsValid(buffer)" (Returned BLCKSZ).

(** ** Pages *)

(** The bytes at an address, which is 0 for a null pointer. *)
Record Page := { address : Z; image : bytes }.

Definition pd_lower (p : Page) : ending Z := read_uint Little 2 (image p) 12.
Definition pd_upper (p : Page) : ending Z := read_uint Little 2 (image p) 14.
Definition pd_special (p : Page) : ending Z := read_uint Little 2 (image p) 16.
Definition pd_pagesize_version (p : Page) : ending Z := read_uint Little 2 (image p) 18.
Definition pd_linp : Z := 24.
Definition SizeOfPageHeaderData : Z := 24.
Definition size_of_ItemIdData : Z := 4.

Definition PageIsValid (p : Page) : bool := negb (address p =? 0).
Definition PageIsEmpty (p : Page) : ending bool := l <~~ pd_lower p ;; Returned (l <=? SizeOfPageHeaderData).
Definition PageIsNew (p : Page) : ending bool := u <~~ pd_upper p ;; Returned (u =? 0).
Definition PageSizeIsValid (page_size : Z) : bool := page_size =? BLCKSZ.
Definition PageGetPageSize (p : Page) : ending Z := v <~~ pd_pagesize_version p ;; Returned (Z.land v 0xFF00).
Definition PageGetPageLayoutVersion (p : Page) : ending Z := v <~~ pd_pagesize_version p ;; Returned (as_signed 8 (Z.land v 0x00FF)).
Definition PageSetPageSizeAndVersion (p : Page) (size version : Z) : ending Page :=
  m <~~ write_bytes (image p) 18 (le_bytes 2 (Z.lor size version)) ;; Returned {| address := address p; image := m |}.
Definition PageGetSpecialSize (oc : bool) (p : Page) : ending Z :=
  size <~~ PageGetPageSize p ;; special <~~ pd_special p ;; sub_w 16 oc size special.

Definition PageValidateSpecialPointer (p : Page) : ending bool :=
  eassert (PageIsValid p) "assertion failed: PageIsValid(page)"
    (special <~~ pd_special p ;;
     eassert (special <=? BLCKSZ) "assertion failed: (*page).pd_special <= BLCKSZ as _"
       (eassert (SizeOfPageHeaderData <=? special) "assertion failed: (*page).pd_special >= SizeOfPageHeaderData() as _" (Returned true))).
Definition PageGetSpecialPointer (p : Page) : ending Z :=
  valid <~~ PageValidateSpecialPointer p ;; eassert valid "assertion failed: PageValidateSpecialPointer(page)"
    (special <~~ pd_special p ;; Returned (address p + special)).
Definition PageGetContents (oc : bool) (p : Page) : ending Z := o <~~ MAXALIGN oc SizeOfPageHeaderData ;; Returned (address p + o).

(** *** Line pointers *)

(** [__BindgenBitfieldUnit]: the bits of the storage, one by one. *)
Definition extract_bit (byte index : Z) : bool := let mask := Z.shiftl 1 (index mod 8) in Z.land byte mask =? mask.
Definition get_bit (storage : bytes) (index : nat) : ending bool :=
  b <~~ expect "index out of bounds" (storage !! (index / 8)%nat) ;; Returned (extract_bit (u8_to_Z b) (Z.of_nat index)).
Fixpoint get_bits (storage : bytes) (bit_offset : nat) (n : nat) : ending Z :=
  match n with
  | O => Returned 0
  | S n =>
      val <~~ get_bits storage bit_offset n ;;
      bit <~~ get_bit storage (n + bit_offset) ;; Returned (if bit then Z.lor val (Z.shiftl 1 (Z.of_nat n)) else val)
  end.
(** A line pointer is where it is in the page. *)
Definition lp_off (p : Page) (item_id : Z) : ending Z := storage <~~ read_bytes (image p) item_id 4 ;; get_bits storage 0 15.

Definition PageGetItemId (oc : bool) (p : Page) (offset : Z) : ending Z :=
  i <~~ sub_w 64 oc offset 1 ;; Returned (pd_linp + i * size_of_ItemIdData).
Definition ItemIdGetOffset (p : Page) (item_id : Z) : ending Z := lp_off p item_id.
Definition PageGetItem (p : Page) (item_id : Z) : ending Z := o <~~ ItemIdGetOffset p item_id ;; Returned (address p + o).
Definition PageGetMaxOffsetNumber (p : Page) : ending Z :=
  l <~~ pd_lower p ;; Returned (if l <=? SizeOfPageHeaderData then 0 else (l - SizeOfPageHeaderData) / size_of_ItemIdData).

(** ** The order of transaction ids *)

Lemma wrapping_sub_full x y : - 2 ^ 31 <= x - y < 2 ^ 31 -> wrapping_sub_i32 (x mod 2 ^ 32) (y mod 2 ^ 32) = x - y.
Proof. intros H. unfold wrapping_sub_i32. rewrite <- Zminus_mod. by apply as_signed_small. Qed.

(** Ids that are less than [2^31] apart are in the order of the ids of 64 bits they were
    cut from, by each of the four comparisons; so they can stand for the comparisons that
    widen an id. *)
Theorem xid_order_exact x y :
  TransactionIdIsNormal (x mod 2 ^ 32) = true -> TransactionIdIsNormal (y mod 2 ^ 32) = true -> - 2 ^ 31 < x - y < 2 ^ 31 ->
  let a := x mod 2 ^ 32 in let b := y mod 2 ^ 32 in
  TransactionIdPrecedes a b = (x <? y) /\ TransactionIdPrecedesOrEquals a b = (x <=? y)
  /\ TransactionIdFollows a b = (y <? x) /\ TransactionIdFollowsOrEquals a b = (y <=? x).
Proof.
  intros Ha Hb Hd. cbv zeta.
  unfold TransactionIdPrecedes, TransactionIdPrecedesOrEquals, TransactionIdFollows, TransactionIdFollowsOrEquals, both_normal.
  rewrite Ha, Hb. cbn [negb andb]. rewrite wrapping_sub_full by lia. repeat split; lia.
Qed.

Lemma port_compares_modulo : compares_modulo TransactionIdPrecedes TransactionIdFollows.
Proof.
  intros a b Ha Hb. unfold TransactionIdPrecedes, TransactionIdFollows, both_normal, wrapping_sub_i32, as_signed. rewrite Ha, Hb. cbn [negb andb].
  pose proof (Z.mod_pos_bound (a - b) (2 ^ 32) ltac:(lia)). change (2 ^ (32 - 1)) with (2 ^ 31).
  destruct ((a - b) mod 2 ^ 32 <? 2 ^ 31) eqn:E; split; lia.
Qed.

(** ** The items of a page *)

Lemma extract_bit_testbit byte i : extract_bit byte i = Z.testbit byte (i mod 8).
Proof.
  pose proof (Z.mod_pos_bound i 8 ltac:(lia)) as Hi. unfold extract_bit. rewrite Z.shiftl_1_l. set (k := i mod 8) in *. clearbody k.
  destruct (Z.testbit byte k) eqn:E.
  - apply Z.eqb_eq, Z.bits_inj'. intros j Hj. rewrite Z.land_spec. destruct (decide (j = k)) as [->|Hne].
    + by rewrite E, Z.pow2_bits_true.
    + rewrite Z.pow2_bits_false by done. apply andb_false_r.
  - apply Z.eqb_neq. intros H. apply (f_equal (fun z => Z.testbit z k)) in H.
    by rewrite Z.land_spec, E, Z.pow2_bits_true in H by lia.
Qed.

Lemma from_le_bytes_testbit (bs : bytes) (i : nat) b :
  bs !! (i / 8)%nat = Some b -> Z.testbit (from_le_bytes bs) (Z.of_nat i) = Z.testbit (u8_to_Z b) (Z.of_nat (i mod 8)).
Proof.
  revert i. induction bs as [|c bs IH]; intros i Hb; [by rewrite lookup_nil in Hb|]. cbn [from_le_bytes].
  pose proof (u8_to_Z_range c) as Hc. pose proof (from_le_bytes_bound bs) as Hbs.
  replace (u8_to_Z c + 256 * from_le_bytes bs) with (from_le_bytes bs * 2 ^ 8 + u8_to_Z c) by lia.
  rewrite <- lor_add by lia. rewrite Z.lor_spec. destruct (decide (i < 8)%nat) as [Hi|Hi].
  - rewrite Nat.div_small in Hb by done. injection Hb as <-. rewrite Nat.mod_small by done. by rewrite Z.shiftl_spec_low by lia.
  - assert (Hq : (i / 8 = S ((i - 8) / 8))%nat) by (replace i with ((i - 8) + 1 * 8)%nat at 1 by lia; rewrite Nat.div_add by lia; lia).
    rewrite Hq in Hb. cbn in Hb. rewrite Z.shiftl_spec by lia. replace (Z.of_nat i - 8) with (Z.of_nat (i - 8)) by lia.
    rewrite (IH _ Hb). replace (i mod 8)%nat with ((i - 8) mod 8)%nat by (replace i with ((i - 8) + 1 * 8)%nat at 2 by lia; by rewrite Nat.Div0.mod_add).
    rewrite (Z.bits_above_log2 (u8_to_Z c) (Z.of_nat i)); [by rewrite orb_false_r|lia|].
    destruct (decide (u8_to_Z c = 0)) as [->|]; [cbn; lia|]. apply Z.log2_lt_pow2; [lia|].
    pose proof (Z.pow_le_mono_r 2 8 (Z.of_nat i) ltac:(lia) ltac:(lia)). lia.
Qed.

Lemma mod_pow2_testbit a n j : 0 <= n -> 0 <= j -> Z.testbit (a mod 2 ^ n) j = (j <? n) && Z.testbit a j.
Proof.
  intros Hn Hj. destruct (j <? n) eqn:E; [apply Z.mod_pow2_bits_low; lia|]. rewrite Z.mod_pow2_bits_high by lia. done.
Qed.

Lemma ltb_succ j n : j <> Z.of_nat n -> (j <? Z.of_nat n) = (j <? Z.of_nat (S n)).
Proof. intros H. apply eq_true_iff_eq. rewrite !Z.ltb_lt, Nat2Z.inj_succ. lia. Qed.

(** The getter of a bit field at the start of its storage. *)
Lemma get_bits_spec storage n : (n <= 8 * length storage)%nat -> get_bits storage 0 n = Returned (from_le_bytes storage mod 2 ^ Z.of_nat n).
Proof.
  induction n as [|n IH]; intros Hn; [cbn; by rewrite Z.mod_1_r|]. cbn [get_bits]. rewrite IH by lia. cbn [ebind].
  rewrite Nat.add_0_r. unfold get_bit.
  destruct (lookup_lt_is_Some_2 storage (n / 8)) as [b Hb]; [apply Nat.Div0.div_lt_upper_bound; lia|].
  rewrite Hb. cbn [expect ebind]. f_equal. rewrite extract_bit_testbit. change 8 with (Z.of_nat 8). rewrite <- Nat2Z.inj_mod.
  rewrite <- (from_le_bytes_testbit storage n b Hb). apply Z.bits_inj'. intros j Hj.
  rewrite (mod_pow2_testbit _ (Z.of_nat (S n))) by lia. destruct (Z.testbit (from_le_bytes storage) (Z.of_nat n)) eqn:E.
  - rewrite Z.lor_spec, Z.shiftl_1_l, mod_pow2_testbit by lia. destruct (decide (j = Z.of_nat n)) as [->|Hne].
    + rewrite Z.pow2_bits_true, E by lia. rewrite orb_true_r. by rewrite (proj2 (Z.ltb_lt _ _)) by lia.
    + rewrite Z.pow2_bits_false, orb_false_r by done. by rewrite ltb_succ.
  - rewrite mod_pow2_testbit by lia. destruct (decide (j = Z.of_nat n)) as [->|Hne]; [by rewrite E, !andb_false_r|]. by rewrite ltb_succ.
Qed.

(** A line pointer: 15 bits of offset, 2 of flags, 15 of length. *)
Record ItemIdData := { it_off : Z; it_flags : Z; it_len : Z }.
Definition encode_item (it : ItemIdData) : bytes := le_bytes 4 (it_off it + it_flags it * 2 ^ 15 + it_len it * 2 ^ 17).
Definition item_ok (it : ItemIdData) : Prop := 0 <= it_off it < 2 ^ 15 /\ 0 <= it_flags it < 2 ^ 2 /\ 0 <= it_len it < 2 ^ 15.

Lemma lp_off_encoded p at_ it : item_ok it -> bytes_at (image p) at_ (encode_item it) -> lp_off p at_ = Returned (it_off it).
Proof.
  intros (Ho & Hf & Hl) Hb. unfold lp_off. apply bytes_at_read in Hb. unfold encode_item in Hb at 1. rewrite length_le_bytes in Hb.
  change (Z.of_nat 4) with 4 in Hb. rewrite Hb. cbn [ebind]. unfold encode_item.
  rewrite get_bits_spec by (rewrite length_le_bytes; lia). rewrite from_le_bytes_le_bytes. f_equal.
  change (2 ^ (8 * Z.of_nat 4)) with (2 ^ 32). rewrite (Z.mod_small _ (2 ^ 32)) by lia. change (2 ^ Z.of_nat 15) with (2 ^ 15). symmetry.
  apply (Z.mod_unique _ _ (it_flags it + it_len it * 2 ^ 2)); lia.
Qed.

Lemma items_at m at_ items k it :
  bytes_at m at_ (concat (encode_item <$> items)) -> items !! k = Some it -> bytes_at m (at_ + Z.of_nat k * 4) (encode_item it).
Proof.
  revert at_ k. induction items as [|x items IH]; intros at_ k Hb Hk; [done|]. rewrite fmap_cons in Hb. cbn [concat] in Hb.
  apply bytes_at_app in Hb as [Hx Hb].
  unfold encode_item in Hb at 1. rewrite length_le_bytes in Hb. destruct k as [|k]; cbn in Hk.
  - injection Hk as <-. by replace (at_ + Z.of_nat 0 * 4) with at_ by lia.
  - specialize (IH _ k Hb Hk). by replace (at_ + Z.of_nat (S k) * 4) with (at_ + Z.of_nat 4 + Z.of_nat k * 4) by lia.
Qed.

(** On a page whose header is followed by line pointers, the numbers from 1 to the
    largest offset number are those of the line pointers, and the item of each is where
    its line pointer says. *)
Theorem page_items_found oc p items :
  pd_lower p = Returned (SizeOfPageHeaderData + 4 * Z.of_nat (length items)) ->
  bytes_at (image p) pd_linp (concat (encode_item <$> items)) -> Forall item_ok items ->
  PageGetMaxOffsetNumber p = Returned (Z.of_nat (length items)) /\
  forall k it, items !! k = Some it -> exists id, PageGetItemId oc p (Z.of_nat k + 1) = Returned id
    /\ PageGetItem p id = Returned (address p + it_off it).
Proof.
  intros Hl Hb Hok. split.
  - unfold PageGetMaxOffsetNumber. rewrite Hl. cbn [ebind]. f_equal. unfold SizeOfPageHeaderData, size_of_ItemIdData.
    destruct (_ <=? 24) eqn:E; [lia|]. replace (24 + 4 * _ - 24) with (Z.of_nat (length items) * 4) by lia. by apply Z.div_mul.
  - intros k it Hk. unfold PageGetItemId, sub_w. rewrite (proj2 (Z.leb_le _ _)) by lia. cbn [ebind]. eexists. split; [done|].
    unfold PageGetItem, ItemIdGetOffset, size_of_ItemIdData. replace (Z.of_nat k + 1 - 1) with (Z.of_nat k) by lia.
    rewrite (lp_off_encoded p _ it); [done|by eapply list.Forall_lookup_1|by apply (items_at _ _ items)].
Qed.

(** ** The size of a page *)

Lemma land_high q v : 0 <= q < 2 ^ 8 -> 0 <= v < 2 ^ 8 -> Z.land (q * 256 + v) (Z.shiftl (Z.ones 8) 8) = q * 256.
Proof.
  intros Hq Hv. change 256 with (2 ^ 8). rewrite <- lor_add by lia. rewrite Z.land_lor_distr_l, <- Z.shiftl_land, Z.land_ones by lia.
  rewrite Z.mod_small by lia. replace (Z.land v _) with 0; [by rewrite Z.lor_0_r, Z.shiftl_mul_pow2 by lia|].
  symmetry. apply Z.bits_inj'. intros j Hj. rewrite Z.land_spec, Z.bits_0. destruct (decide (j < 8)).
  - rewrite Z.shiftl_spec_low by lia. apply andb_false_r.
  - replace v with (v mod 2 ^ 8) by (apply Z.mod_small; lia). rewrite mod_pow2_testbit by lia. by rewrite (proj2 (Z.ltb_ge _ _)) by lia.
Qed.

(** What is set is read back: a size that is a multiple of 256, a version below 128. *)
Lemma page_size_set p size version p' :
  0 <= size < 2 ^ 16 -> size mod 256 = 0 -> 0 <= version < 128 -> PageSetPageSizeAndVersion p size version = Returned p' ->
  PageGetPageSize p' = Returned size /\ PageGetPageLayoutVersion p' = Returned version.
Proof.
  intros Hs Hm Hv Hset. unfold PageSetPageSizeAndVersion in Hset.
  apply ebind_inv in Hset as (m & Hw & [= <-]).
  assert (Hbound : 18 + Z.of_nat (length (le_bytes 2 (Z.lor size version))) <= Z.of_nat (length (image p))).
  { unfold write_bytes in Hw. destruct (_ && _) eqn:E in Hw; [lia|done]. }
  destruct (write_bytes_at (image p) 18 _ ltac:(lia) Hbound) as (m' & Hw' & _ & Hat & _).
  rewrite Hw in Hw'. injection Hw' as <-.
  assert (Hsum : Z.lor size version = size + version).
  { apply Z.mod_divide in Hm as [q ->]; [|lia]. change 256 with (2 ^ 8). rewrite <- Z.shiftl_mul_pow2 by lia. rewrite lor_add by lia. by rewrite Z.shiftl_mul_pow2. }
  unfold PageGetPageSize, PageGetPageLayoutVersion, pd_pagesize_version. cbn [image].
  rewrite (bytes_at_uint Little 2 _ _ _ Hat (length_le_bytes _ _) eq_refl). cbn [ebind from_ne_bytes].
  rewrite from_le_bytes_le_bytes, Hsum. change (2 ^ (8 * Z.of_nat 2)) with (2 ^ 16). rewrite Z.mod_small by (apply Z.mod_divide in Hm as [q ->]; lia).
  split; f_equal.
  - apply Z.mod_divide in Hm as [q ->]; [|lia]. change 0xFF00 with (Z.shiftl (Z.ones 8) 8).
    apply land_high; lia.
  - change 0x00FF with (Z.ones 8). rewrite Z.land_ones by lia. apply Z.mod_divide in Hm as [q ->]; [|lia]. change (2 ^ 8) with 256.
    rewrite Z.add_comm, Z.mod_add, Z.mod_small by lia. unfold as_signed. change (2 ^ (8 - 1)) with 128. case_match; lia.
Qed.

(** ** Alignment *)

Lemma land_complement s k : 0 <= k <= 64 -> 0 <= s < 2 ^ 64 -> Z.land s (Z.lxor (2 ^ 64 - 1) (2 ^ k - 1)) = s / 2 ^ k * 2 ^ k.
Proof.
  intros Hk Hs. rewrite <- Z.shiftr_div_pow2, <- Z.shiftl_mul_pow2, <- Z.ldiff_ones_r by lia.
  replace (2 ^ 64 - 1) with (Z.ones 64) by done. replace (2 ^ k - 1) with (Z.ones k) by (rewrite Z.ones_equiv; lia).
  apply Z.bits_inj'. intros j Hj. rewrite Z.land_spec, Z.lxor_spec, Z.ldiff_spec. destruct (decide (j < 64)).
  - by rewrite (Z.ones_spec_low 64) by lia.
  - replace s with (s mod 2 ^ 64) by (by apply Z.mod_small). rewrite mod_pow2_testbit by lia. by rewrite (proj2 (Z.ltb_ge j 64)) by lia.
Qed.

(** [TYPEALIGN] rounds up to a power of two, where the sum does not overflow. *)
Lemma typealign_rounds oc k len : 0 <= k < 64 -> 0 <= len -> len + 2 ^ k - 1 < 2 ^ 64 ->
  TYPEALIGN oc (2 ^ k) len = Returned ((len + 2 ^ k - 1) / 2 ^ k * 2 ^ k).
Proof.
  intros Hk Hl Hs. pose proof (Z.pow_pos_nonneg 2 k ltac:(lia) ltac:(lia)). unfold TYPEALIGN, sub_w, add_w.
  rewrite (proj2 (Z.leb_le _ _)) by lia. cbn [ebind]. rewrite (proj2 (Z.ltb_lt _ _)) by lia. cbn [ebind].
  rewrite land_complement by lia. do 4 f_equal. lia.
Qed.

(** ** Examples *)

Definition two_items : list ItemIdData := [{| it_off := 8152; it_flags := 1; it_len := 36 |}; {| it_off := 8112; it_flags := 3; it_len := 40 |}].
Definition some_page : Page :=
  {| address := 65536; image := replicate 12 x00 ++ le_bytes 2 32 ++ replicate 10 x00 ++ concat (encode_item <$> two_items) |}.

Lemma page_items_found_witness :
  PageGetMaxOffsetNumber some_page = Returned 2 /\ exists id, PageGetItemId true some_page 2 = Returned id /\ PageGetItem some_page id = Returned (65536 + 8112).
Proof.
  destruct (page_items_found true some_page two_items) as [Hm Hi].
  - reflexivity.
  - split; [done|]. exists (take 24 (image some_page)), []. split; reflexivity.
  - repeat constructor; cbn; lia.
  - split; [done|]. by apply (Hi 1%nat {| it_off := 8112; it_flags := 3; it_len := 40 |}).
Defined.

Lemma xid_order_exact_witness : TransactionIdPrecedes ((2 ^ 32 - 3) mod 2 ^ 32) ((2 ^ 32 + 5) mod 2 ^ 32) = true.
Proof. apply (xid_order_exact (2 ^ 32 - 3) (2 ^ 32 + 5)); [reflexivity|reflexivity|lia]. Defined.

(** There is no line pointer number 0. *)
Example item_zero : PageGetItemId true some_page 0 = Panicked "attempt to subtract with overflow".
Proof. reflexivity. Qed.
