(* ===== verification/PgVarlena.v ===== *)
(** * Fixed-size values in varlenas

    [pgrx/src/datum/varlena.rs]: [PgVarlena<T>], a Rust value behind the header of a varlena,
    borrowed from Postgres or owned, copied when it is first written to.  A value of type
    [T] is its [size_of] bytes, at an address that is a multiple of [align_of].

    Memory is that of [MemCxt]; a datum may also point into memory that is no chunk of its
    own, as the column of a tuple does ([foreign]). *)
From stdpp Require Import base list strings.
From S2P Require Import Prelude Memory Varlena MemCxt MemCxtSafe.
#[local] Open Scope Z_scope.
#[local] Open Scope memcxt_scope.

Definition VARATT_SHORT_MAX := 127.

Section Varlenas.
Context {S : MemServer} (e : endian) (foreign : Z -> option bytes) (pg_detoast_datum : Z -> M Z).
Context (size_of align_of : Z).

Definition lift {A} (r : ending A) : M A := fun s => (r, s).

(** The bytes at a pointer. *)
Definition bytes_of (p : Z) : M bytes :=
  c <== gets (fun s => chunk s p) ;;
  match c with Some (_, bs) => ret bs | None => match foreign p with Some bs => ret bs | None => undefined end end.

Record PallocdVarlena := { v_ptr : Z; v_len : Z }.

(** [PallocdVarlena::clone] *)
Definition clone (self : PallocdVarlena) : M PallocdVarlena :=
  o <== of_ptr (v_ptr self) ;;
  match o with
  | None => throw "could not determine owning memory context"
  | Some cx => p <== copy_ptr_into cx (v_ptr self) (v_len self) ;; ret {| v_ptr := p; v_len := v_len self |}
  end.

(** A [Cow]: [borrowed] or owned. *)
Record PgVarlena := { leaked : bool; borrowed : bool; varlena : PallocdVarlena; need_free : bool }.

Definition new : M PgVarlena :=
  p <== palloc0 (VARHDRSZ + size_of) ;;
  bs <== bytes_of p ;;
  bs <== lift (if size_of + VARHDRSZ_SHORT <=? VARATT_SHORT_MAX
               then set_varsize_1b e bs 0 (size_of + VARHDRSZ_SHORT) else set_varsize_4b e bs 0 (size_of + VARHDRSZ)) ;;
  _ <== write p bs ;;
  len <== lift (varsize_any e bs 0) ;;
  ret {| leaked := false; borrowed := false; varlena := {| v_ptr := p; v_len := len |}; need_free := true |}.

Definition from_datum (datum : Z) : M PgVarlena :=
  p <== pg_detoast_datum datum ;;
  bs <== bytes_of p ;;
  len <== lift (varsize_any e bs 0) ;;
  ret (if p =? datum
       then {| leaked := true; borrowed := true; varlena := {| v_ptr := p; v_len := len |}; need_free := false |}
       else {| leaked := false; borrowed := false; varlena := {| v_ptr := p; v_len := len |}; need_free := true |}).

(** The pointer is given away: nothing is freed. *)
Definition into_pg (self : PgVarlena) : Z := v_ptr (varlena self).

Definition drop (self : PgVarlena) : M unit := if need_free self then pfree (v_ptr (varlena self)) else ret tt.

(** The offset of the value behind its header; a reference to it has to be aligned. *)
Definition data_at (bs : bytes) : M Z := o <== lift (vardata_any e bs 0) ;; if o mod align_of =? 0 then ret o else undefined.

Definition as_ref (self : PgVarlena) : M bytes :=
  bs <== bytes_of (v_ptr (varlena self)) ;; o <== data_at bs ;; lift (read_bytes bs o size_of).

(** [Cow::to_mut] *)
Definition to_mut (self : PgVarlena) : M PgVarlena :=
  if borrowed self then
    v <== clone (varlena self) ;; ret {| leaked := leaked self; borrowed := false; varlena := v; need_free := need_free self |}
  else ret self.

(** [*self = value], through [as_mut]. *)
Definition assign (self : PgVarlena) (value : bytes) : M PgVarlena :=
  self <== to_mut self ;;
  bs <== bytes_of (v_ptr (varlena self)) ;;
  o <== data_at bs ;;
  bs <== lift (write_bytes bs o value) ;;
  _ <== write (v_ptr (varlena self)) bs ;;
  ret self.

Fixpoint assigns (self : PgVarlena) (values : list bytes) : M PgVarlena :=
  match values with [] => ret self | w :: values => self <== assign self w ;; assigns self values end.

(** [from_polymorphic_datum] and [into_datum] *)
Definition from_polymorphic_datum (datum : Z) (is_null : bool) : M (option PgVarlena) :=
  if is_null then ret None else v <== from_datum datum ;; ret (Some v).
Definition into_datum (self : PgVarlena) : option Z := Some (into_pg self).

(** ** Copies on write *)

Lemma is_1b_header hd x y : length hd = 4%nat -> varatt_is_1b e (hd ++ x) 0 = varatt_is_1b e (hd ++ y) 0.
Proof.
  intros Hl. destruct hd as [|b hd]; [done|]. unfold varatt_is_1b, va_header_1b, read_uint, read_bytes. cbn [length app].
  rewrite !(proj2 (Z.leb_le _ _)) by lia. done.
Qed.

Context (L : MemLaws) (datum c : Z) (hd w0 rest : bytes) (s0 : pg).
Context (Hhd : length hd = 4%nat) (Hw0 : Z.of_nat (length w0) = size_of) (Hal : 4 mod align_of = 0).
Context (Hdatum : chunk s0 datum = Some (c, hd ++ w0 ++ rest)) (Hc : is_Some (ancestors s0 c)).
Context (H4b : varatt_is_1b e (hd ++ w0 ++ rest) 0 = Returned false).

(** The state of a program that began in [s0]. *)
Definition later (s : pg) : Prop := same_contexts s0 s /\ forall q x, chunk s0 q = Some x -> chunk s q = Some x.

(** A [PgVarlena] of the datum or of a copy that was not there before, with the value
    [w]. *)
Definition has (v : PgVarlena) (w : bytes) (s : pg) : Prop :=
  v_len (varlena v) = VARHDRSZ + size_of /\
  if borrowed v then v_ptr (varlena v) = datum /\ w = w0
  else chunk s0 (v_ptr (varlena v)) = None /\ exists c', chunk s (v_ptr (varlena v)) = Some (c', hd ++ w).

Lemma bytes_of_chunk p s o bs : chunk s p = Some (o, bs) -> bytes_of p s = (Returned bs, s).
Proof. intros H. unfold bytes_of, bind, gets, ret. by rewrite H. Qed.

Lemma data_at_4b x s : data_at (hd ++ x) s = (Returned 4, s).
Proof.
  unfold data_at, lift, bind, vardata_any. rewrite (is_1b_header hd x (w0 ++ rest) Hhd), H4b. cbn [ebind]. unfold vardata_4b, VARHDRSZ, ret.
  change (0 + 4) with 4. by rewrite Hal.
Qed.

Lemma read_value w rest' : Z.of_nat (length w) = size_of -> read_bytes (hd ++ w ++ rest') 4 size_of = Returned w.
Proof.
  intros Hw. rewrite <- Hw. apply bytes_at_read. split; [lia|]. exists hd, rest'. split; [done|]. by rewrite Hhd.
Qed.

Lemma later_datum s : later s -> chunk s datum = Some (c, hd ++ w0 ++ rest).
Proof. intros [_ H]. by apply H. Qed.

Lemma as_ref_has v w s : later s -> has v w s -> Z.of_nat (length w) = size_of -> as_ref v s = (Returned w, s).
Proof.
  intros Hs [_ Hv] Hw. unfold as_ref, bind. destruct (borrowed v).
  - destruct Hv as [-> ->]. rewrite (bytes_of_chunk _ _ _ _ (later_datum s Hs)), data_at_4b. unfold lift. by rewrite read_value.
  - destruct Hv as (_ & c' & Hp). rewrite (bytes_of_chunk _ _ _ _ Hp), data_at_4b. unfold lift.
    pose proof (read_value w [] Hw) as H. rewrite app_nil_r in H. by rewrite H.
Qed.

Lemma write_whole p o old bs s : chunk s p = Some (o, old) -> length bs = length old ->
  exists s', write p bs s = (Returned tt, s') /\ same_contexts s s' /\ chunk s' p = Some (o, bs) /\ forall q, q <> p -> chunk s' q = chunk s q.
Proof.
  intros Hp Hl. unfold write, bind, gets. rewrite Hp. rewrite (proj2 (Z.leb_le _ _)) by lia. unfold modify. eexists. split; [done|].
  destruct (store_kept p bs s) as [_ Hcx]. split; [done|]. split.
  - rewrite store_chunks, Hp, Z.eqb_refl, drop_ge by lia. by rewrite app_nil_r.
  - intros q Hq. rewrite store_chunks. rewrite (proj2 (Z.eqb_neq _ _)) by done. by destruct (chunk s q) as [[? ?]|].
Qed.

(** The copy: a new chunk with the same bytes, or an error. *)
Lemma copy_fresh s : later s -> 0 <= size_of ->
  exists r s', copy_ptr_into (Of c) datum (VARHDRSZ + size_of) s = (r, s') /\ r <> Undefined /\ later s' /\
    forall p, r = Returned p -> chunk s0 p = None /\ chunk s' p = Some (c, hd ++ w0).
Proof.
  intros Hs Hsz. unfold copy_ptr_into. destruct (datum =? 0) eqn:Hz; [by exists (Panicked "attempt to copy a null pointer"), s|].
  destruct Hs as [Hcx Hch]. assert (Hlc : is_Some (ancestors s c)) by (by rewrite Hcx).
  unfold value, alloc_in, on_context, call, bind, gets, ret. unfold live. destruct Hlc as [l Hl]. rewrite Hl.
  pose proof (alloc_law c (VARHDRSZ + size_of) s (ex_intro _ l Hl)) as HA.
  destruct (MemoryContextAlloc c (VARHDRSZ + size_of) s) as [[p|] s1]; destruct HA as (_ & C1 & HA).
  2: { exists (Panicked "out of memory"), s1. split; [done|]. split; [done|]. split; [|done].
       split; [intros x; by rewrite C1|]. intros q x Hq. rewrite HA. auto. }
  destruct HA as (_ & Hfresh & Hother & junk & Hjunk & Hlen).
  assert (Hd1 : chunk s1 datum = Some (c, hd ++ w0 ++ rest)).
  { rewrite Hother; [by apply Hch|]. intros ->. by rewrite (Hch _ _ Hdatum) in Hfresh. }
  unfold read, bind, gets. rewrite Hd1. unfold VARHDRSZ in *. rewrite (proj2 (Z.leb_le _ _)) by (rewrite !length_app; lia).
  unfold ret. replace (take _ _) with (hd ++ w0) by (rewrite app_assoc, take_app_length'; [done|rewrite length_app; lia]).
  destruct (write_whole p c junk (hd ++ w0) s1 Hjunk) as (s2 & -> & C2 & Hp2 & Ho2); [rewrite length_app; lia|].
  exists (Returned p), s2. split; [done|]. split; [done|]. split.
  - split; [intros x; by rewrite C2, C1|]. intros q x Hq.
    assert (q <> p) by (intros ->; by rewrite (Hch _ _ Hq) in Hfresh). rewrite Ho2, Hother by done. auto.
  - intros p' [= <-]. split; [|done]. destruct (chunk s0 p) as [x|] eqn:E; [|done]. by rewrite (Hch _ _ E) in Hfresh.
Qed.

Lemma to_mut_has v w s : later s -> has v w s -> 0 <= size_of ->
  exists r s', to_mut v s = (r, s') /\ r <> Undefined /\ later s' /\ forall v', r = Returned v' -> has v' w s' /\ borrowed v' = false.
Proof.
  intros Hs [Hlen Hv] Hsz. unfold to_mut. destruct (borrowed v) eqn:Hb.
  - destruct Hv as [Hp ->]. unfold clone, of_ptr, bind, gets, ret, throw. rewrite Hp, Hlen, (later_datum s Hs).
    destruct (c =? 0); [by eexists (Panicked _), s|].
    destruct (copy_fresh s Hs Hsz) as (r & s1 & -> & Hu & Hs1 & Hr). destruct r as [p|why|]; [|by exists (Panicked why), s1|done].
    destruct (Hr p eq_refl) as [Hn Hch]. eexists (Returned _), s1. split; [done|]. split; [done|]. split; [done|].
    intros v' [= <-]. split; [|done]. split; [done|]. cbn. split; [done|]. by exists c.
  - exists (Returned v), s. split; [done|]. split; [done|]. split; [done|]. intros v' [= <-]. split; [|done]. split; [done|]. by rewrite Hb.
Qed.

Lemma assign_has v cur w s : later s -> has v cur s -> Z.of_nat (length cur) = size_of -> Z.of_nat (length w) = size_of ->
  exists r s', assign v w s = (r, s') /\ r <> Undefined /\ later s' /\ forall v', r = Returned v' -> has v' w s'.
Proof.
  intros Hs Hv Hcur Hw. destruct (to_mut_has v cur s Hs Hv ltac:(lia)) as (r & s1 & Hm & Hu & Hs1 & Hr).
  unfold assign, bind. rewrite Hm. destruct r as [v1|why|]; [|by exists (Panicked why), s1|done].
  destruct (Hr v1 eq_refl) as [[Hlen Hv1] Hb]. rewrite Hb in Hv1. destruct Hv1 as (Hn & c' & Hp).
  rewrite (bytes_of_chunk _ _ _ _ Hp), data_at_4b. unfold lift, write_bytes. rewrite length_app.
  rewrite (proj2 (Z.leb_le (4 + _) _)) by lia. cbn [andb Z.leb Z.compare].
  rewrite take_app_length', drop_ge, app_nil_r by (rewrite ?length_app; lia).
  destruct (write_whole _ _ _ (hd ++ w) s1 Hp) as (s2 & -> & C2 & Hp2 & Ho2); [rewrite !length_app; lia|].
  exists (Returned v1), s2. split; [done|]. split; [done|]. split.
  - destruct Hs1 as [C1 H1]. split; [intros x; by rewrite C2, C1|]. intros q x Hq.
    assert (q <> v_ptr (varlena v1)) by (intros ->; by rewrite Hn in Hq). rewrite Ho2 by done. auto.
  - intros v' [= <-]. split; [done|]. rewrite Hb. split; [done|]. by exists c'.
Qed.

Lemma assigns_has v cur ws s : later s -> has v cur s -> Z.of_nat (length cur) = size_of -> Forall (fun w => Z.of_nat (length w) = size_of) ws ->
  exists r s', assigns v ws s = (r, s') /\ r <> Undefined /\ later s' /\
    forall v', r = Returned v' -> has v' (List.last ws cur) s' /\ Z.of_nat (length (List.last ws cur)) = size_of.
Proof.
  revert v cur s. induction ws as [|w ws IH]; intros v cur s Hs Hv Hcur Hws; cbn [assigns].
  - exists (Returned v), s. split; [done|]. split; [done|]. split; [done|]. by intros v' [= <-].
  - apply list.Forall_cons in Hws as [Hw Hws]. destruct (assign_has v cur w s Hs Hv Hcur Hw) as (r & s1 & Ha & Hu & Hs1 & Hr).
    unfold bind. rewrite Ha. destruct r as [v1|why|]; [|by exists (Panicked why), s1|done].
    destruct (IH v1 w s1 Hs1 (Hr v1 eq_refl) Hw Hws) as (r & s2 & -> & ? & ? & Hr2). exists r, s2. split; [done|]. split; [done|]. split; [done|].
    intros v' Hv'. replace (List.last (w :: ws) cur) with (List.last ws w); [by apply Hr2|].
    clear. revert w. induction ws as [|x ws IH]; intros w; [done|]. cbn in *. destruct ws; [done|apply IH].
Qed.
End Varlenas.

(** C40. A value that Postgres lends in a chunk of its own, with a header of four bytes, of a
    type whose alignment divides four, is copied before it is written: whatever is assigned to
    it, in whatever order, and whether or not memory runs out, nothing that was there is
    changed or undefined, and what is read is what was assigned last, or the value of the
    datum.  (A column inside a row, or a type of greater alignment, is not written safely.) *)
Theorem copy_on_write {S : MemServer} {L : MemLaws} e foreign pg_detoast_datum size_of align_of datum c hd w0 rest s ws :
  pg_detoast_datum datum s = (Returned datum, s) ->
  chunk s datum = Some (c, hd ++ w0 ++ rest) -> is_Some (ancestors s c) ->
  length hd = 4%nat -> Z.of_nat (length w0) = size_of -> 4 mod align_of = 0 ->
  varatt_is_1b e (hd ++ w0 ++ rest) 0 = Returned false -> varsize_any e (hd ++ w0 ++ rest) 0 = Returned (VARHDRSZ + size_of) ->
  Forall (fun w => Z.of_nat (length w) = size_of) ws ->
  exists r s', (v <== from_datum e foreign pg_detoast_datum datum ;; assigns e foreign align_of v ws) s = (r, s')
    /\ r <> Undefined /\ (forall q x, chunk s q = Some x -> chunk s' q = Some x)
    /\ forall v, r = Returned v -> as_ref e foreign size_of align_of v s' = (Returned (List.last ws w0), s').
Proof.
  intros Hdt Hd Hc Hhd Hw0 Hal H4 Hsz Hws.
  assert (Hfrom : from_datum e foreign pg_detoast_datum datum s =
    (Returned {| leaked := true; borrowed := true; varlena := {| v_ptr := datum; v_len := VARHDRSZ + size_of |}; need_free := false |}, s)).
  { unfold from_datum, bind. rewrite Hdt, (bytes_of_chunk foreign _ _ _ _ Hd). unfold lift. rewrite Hsz. unfold ret. by rewrite Z.eqb_refl. }
  unfold bind. rewrite Hfrom. set (v := {| leaked := true; borrowed := true; varlena := _; need_free := false |}).
  assert (Hl : later s s) by (split; [done|auto]).
  assert (Hv : has size_of datum hd w0 s v w0 s) by (by split).
  destruct (assigns_has e foreign size_of align_of _ datum c hd w0 rest s Hhd Hw0 Hal Hd Hc H4 v w0 ws s Hl Hv Hw0 Hws) as (r & s' & Hr & Hu & Hs' & Hret).
  exists r, s'. split; [done|]. split; [done|]. split; [apply Hs'|]. intros v' ->. destruct (Hret v' eq_refl) as [Hh Hlast].
  by apply (as_ref_has e foreign size_of align_of datum c hd w0 rest s Hhd Hal Hd H4).
Qed.

(** ** Examples *)

(** A varlena of eight bytes: its header and a value of four. *)
Definition plain : bytes := le_bytes 4 32 ++ le_bytes 4 7.
Definition lent : arena := with_chunks {[ 5 := (2, plain) ]} MemCxtSafe.start.
Definition keep (p : Z) : @M arena_server Z := ret p.
Definition no_foreign (p : Z) : option bytes := None.

Lemma copy_on_write_witness :
  exists r s', (v <== from_datum (S := arena_server) Little no_foreign keep 5 ;; assigns Little no_foreign 4 v [le_bytes 4 8; le_bytes 4 9]) lent = (r, s')
    /\ r <> Undefined /\ chunk s' 5 = Some (2, plain) /\ forall v, r = Returned v -> as_ref Little no_foreign 4 4 v s' = (Returned (le_bytes 4 9), s').
Proof.
  destruct (copy_on_write (S := arena_server) Little no_foreign keep 4 4 5 2 (le_bytes 4 32) (le_bytes 4 7) [] lent [le_bytes 4 8; le_bytes 4 9])
    as (r & s' & Hr & Hu & Hc & Hv).
  - reflexivity.
  - reflexivity.
  - by eexists.
  - reflexivity.
  - reflexivity.
  - reflexivity.
  - reflexivity.
  - reflexivity.
  - by repeat constructor.
  - exists r, s'. split; [done|]. split; [done|]. split; [by apply Hc|done].
Defined.

(** Small values get a header of one byte, and a reference to what is behind it is
    not aligned. *)
Example short_header_misaligned :
  ((v <== new (S := arena_server) Little no_foreign 8 ;; as_ref Little no_foreign 8 8 v) lent).1 = Undefined.
Proof. reflexivity. Qed.

(** A datum that is a column of a tuple is no chunk: the copy asks for its context. *)
Example column_written :
  let foreign p := if p =? 1000 then Some plain else None in
  let v := from_datum (S := arena_server) Little foreign keep 1000 in
  ((v <== v ;; as_ref Little foreign 4 4 v) lent).1 = Returned (le_bytes 4 7)
  /\ ((v <== v ;; assign Little foreign 4 v (le_bytes 4 8)) lent).1 = Undefined.
Proof. split; reflexivity. Qed.

(** The copy is not freed when the value is dropped; one that was detoasted is. *)
Example copy_not_freed :
  let s := ((v <== from_datum (S := arena_server) Little no_foreign keep 5 ;; v <== assign Little no_foreign 4 v (le_bytes 4 8) ;; drop v) lent).2 in
  chunk s 6 = Some (2, le_bytes 4 32 ++ le_bytes 4 8).
Proof. reflexivity. Qed.

Example detoasted_freed :
  let copy p := p <== alloc_in (S := arena_server) 2 8 ;; _ <== write p plain ;; ret p in
  chunk (((v <== from_datum Little no_foreign copy 5 ;; drop v) lent).2) 6 = None.
Proof. reflexivity. Qed.
